(* ===== verification/_CoqProject ===== *)
-Q . S2P
Prelude.v
CLib.v
TypeData.v
NMatch.v
Scan.v
ScanProps.v
Bytecode.v
Parse.v
SqlSem.v
SqlGrammar.v
SqlCode.v
SqlParse.v
SqlVm.v
SqlCompile.v
SqlTerm.v
SqlVmInv.v
Samples.v
SqlTheorems.v
Random.v
Skiplist.v
SkiplistProps.v
SkiplistSpec.v
Handle.v
Table.v
TableProps.v
CoreTheorems.v
Str.v
StrProps.v
Qos.v
QosProps.v
QosSet.v
QosStore.v
QosTable.v
QosShare.v
QosGroup.v
QosTheorems.v
Timer.v
TimerProps.v
TimerSpec.v
TimerTheorems.v
Crc32.v
Seqnr.v
Cache.v
CacheAdd.v
CacheGet.v
CacheProps.v
CacheInv.v
CacheSet.v
CacheLook.v
CacheKey.v
CacheWriters.v
CacheGrow.v
CacheDepth.v
CacheKeep.v
CacheTake.v
CacheTheorems.v
Clist.v
Sfrr.v
SfrrProps.v
SfrrKept.v
SfrrTheorems.v
Mem.v
Xcdr.v
XcdrParse.v
XcdrSpec.v
XcdrGen.v
XcdrRead.v
XcdrSize.v
XcdrTheorems.v
Heap.v
HeapProps.v
HeapTheorems.v
Sfrw.v
SfrwProps.v
SfrwSend.v
SfrwAck.v
SfrwRemove.v
SfrwTheorems.v
Session.v
