(* ===== verification/Prelude.v ===== *)
(** * The Qeo DDS core: content filters, reliable reading and writing, caches, marshalling, QoS, timers, heaps

    Qeo is a data distribution service (DDS/RTPS).  This development models
    the parts of src/dds/src that decide by themselves, without the network or
    the operating system: the SQL engine behind content-filtered topics and
    queries (sql/), the reliable reader and writer of the RTPS protocol (rtps/), the
    caches of the samples of readers and writers (cache/cache.c), CDR
    marshalling (xtypes/xcdr.c), the containers, strings, timers, heaps and checksums of the core library (co/), and
    the quality-of-service policies that decide which writers and readers
    communicate (dds/uqos.c).  Claims are numbered in the order of importance;
    the theorems of a part are in its file of theorems.

    ** Parts and files

    The prelude (this file) holds machine integers at their width ([wrap],
    [swrap], written ⟦x⟧w and ⟪x⟫w), byte orders, lists accessed with C's
    bounds ([zget], [zset], [zslice]), tactics and hints.  [CLib] models what
    the sources use of C's library: character classes, [strcmp], [strtol],
    IEEE doubles and x87 long doubles, [fnmatch].

    The SQL engine.  A filter text is scanned (sql/scan.c: [Scan]), parsed and
    compiled in one pass (sql/parse.c: [Parse]), and the bytecode is run on
    every sample (sql/bytecode.c: [Bytecode], with co/nmatch.c: [NMatch] for
    LIKE).  [TypeData] holds the type descriptions and data buffers they read.
    Parser and code generator are a state monad over [ParseData] whose results
    distinguish a normal return, the [longjmp] of [parse_error], undefined
    behaviour and an exhausted recursion bound; the interpreter is a step
    function on the machine state [Vm].
    - [SqlSem] gives the specification: the abstract syntax, the value of an
      expression on a sample, and the grammar that the parser implements as
      relations over scanner states; [SqlGrammar] has the narrower productions
      of sql.g, in which only the forms of predicates that sql.g lists occur.
    - [ScanProps], [SqlCode] and [SqlParse] (the code a parser function emits),
      [SqlVm] (what that code does), [SqlCompile] (conditions, jump patching
      and whole programs), [SqlTerm] (termination) and [SqlVmInv] (arbitrary
      bytecode) hold the lemmas; [Samples] a type, samples and texts.
    - [SqlTheorems]: the compiler and interpreter are correct against the
      specification and terminate ([filter_correct],
      [filter_accepts_grammar], [query_correct], [filter_terminates],
      [query_terminates]); the scanner and LIKE; the interpreter on any
      program; the code generator.

    The containers.  Skiplists (co/skiplist.c: [Skiplist]) draw the height of
    a node from co/random.c ([Random]); [SkiplistProps] relates the pointer
    structure to a list and [SkiplistSpec] states the abstract machine it
    refines.  Dynamic tables (co/table.c: [Table]) keep their entries at the
    handles of a handle table (co/handle.c: [Handle]); [Table] is written
    against the class [HandleOps] and proved against its laws [HandleLaws],
    which [TableProps] discharges for co/handle.c.
    - [CoreTheorems]: a skiplist is a sorted list ([skiplist_refines]),
      random levels and numbers, handles, tables are partial maps.

    Strings and QoS.  Names are reference-counted and shared through a hash
    table (co/str.c: [Str], with [StrProps]).  The policies of an entity are
    stored in a unified form, with their strings in that pool, and equal data
    sets are shared too (dds/uqos.c): [Qos] holds the 22 policies with their
    validity and the compatibility of a writer and a reader, [QosSet] the
    conversions and the table of data sets.  [QosProps] is about matching;
    [QosStore], [QosTable] and [QosShare] relate the table of data sets, the
    string pool and the entities that use them; [QosGroup] is about publishers
    and subscribers.
    - [QosTheorems]: the string pool ([str_pool_refines]), matching
      ([qos_match_decides], [partitions_meet], against the documented rules
      and an own definition of wildcards), the stored data sets
      ([qos_store_refines] and the round trip of a publisher's QoS).

    Timers (co/timer.c: [Timer]) are kept on a list ordered by time and called
    by a manager that gives its lock up around every call, so that any thread
    may start and stop timers in between: [tmr_event] is the transition
    function on the state of the timers and of the manager.  [TimerProps]
    relates the two linked lists to lists of addresses, [TimerSpec] states the
    abstract timer service with [tmr_stop] as it is documented, the conditions
    of its use, and the simulation.  The conditions exclude that a timer is
    started or stopped between its expiry and the attempt to take its lock.
    - [TimerTheorems]: the refinement ([timers_refine]); a call of the manager
      calls exactly the alarms that are due, with their own functions and
      arguments ([tmr_manage_calls]); the stop that is lost in the time that
      the conditions exclude ([tmr_stop_lost]); remaining times.

    Checksums (co/crc32.c: [Crc32]): the table-driven code is the shift
    register that works bit by bit.

    The reliable reader.  Sequence numbers and bit sets (include/seqnr.h,
    include/set.h: [Seqnr]) are the data of the RTPS protocol; the reader keeps
    for every writer a list of the numbers that it cannot deliver yet
    (rtps/rtps_clist.c: [Clist]) and updates it at every DATA, GAP and
    HEARTBEAT message (rtps/rtps_sfrr.c: [Sfrr]).  [rw_event] is the transition
    function of such a proxy: what the cache, the allocators and the timers
    answer comes with the event.  [SfrrProps] holds the invariant: the list is
    a contiguous run of numbers, and everything before it was delivered or
    excused.
    - [SfrrTheorems]: delivery in order, once, without omissions
      ([reader_reliable]), what an ACKNACK requests ([acknack_exact]), and an
      example of the GAPs that the conditions exclude ([gap_delivers_twice]).

    The reliable writer (rtps/rtps_sfrw.c: [Sfrw]) keeps for every reader a
    list of the changes that the reader has not acknowledged, with ranges of
    numbers that are no samples for it.  [w_event] is the transition function
    of the writer with its proxies: new and removed samples, transmissions,
    ACKNACKs, timeouts, start and end; [w_out] collects the messages.
    [SfrwProps] holds the invariant of a proxy ([inv]) and new samples,
    [SfrwSend] transmission and the GAP messages, [SfrwAck] ACKNACKs, splits of
    ranges and restarts, [SfrwRemove] removals, start and end.
    - [SfrwTheorems]: runs of the writer, with the record of what readers
      acknowledged and the cache removed ([Ghost]) and the events that are
      permitted ([run_ok]): no sample is lost ([writer_keeps]), readers skip
      only what they may ([writer_tells]), and an example of the removals that
      [run_ok] excludes, with a dangling pointer ([rem_change_dangling]).

    Both together.  [Session] connects a writer and a reader by a network that
    loses, repeats and reorders messages: a message can be received whenever
    it was sent before.  [SfrrKept] shows that a reader keeps what it received;
    with the invariants of both sides follows that no sample is lost on the
    way ([session_delivers]), under the conditions of both sides and provided
    that ACKNACKs are sent when the list of the reader starts where delivery
    stands; [session_loses] is a run of the code where they are not.

    The history cache (cache/cache.c).  The samples of a reader or a writer
    are kept on one list, and on one list for each instance (the value of the
    key fields) too; an instance also has the list of its writers.  Instances
    are found by handle and by key, in a list when they are few and in two
    skiplists with chains for hashes otherwise.  Operations are a state monad
    over a store of samples, list nodes and instances, in which an access to
    released memory is [Fault] and a loop without end is [Hang].  [Cache] holds
    the data, the lists and the set of instances; [CacheAdd] adds samples,
    with the limits on their number, and removes them; [CacheGet] reads and
    takes them and handles deadlines, lifespans and purge delays.
    [CacheProps] has weakest preconditions and relates the store to the list
    of the samples ([repr]); [CacheInv] and [CacheGrow] remove and insert
    samples; [CacheSet], [CacheLook] and [CacheKey] are about the set of
    instances ([set_ok]), [CacheWriters] about writers and ownership;
    [CacheDepth] and [CacheKeep] follow [hc_add], and [CacheTake] follows
    [hc_get].
    - [CacheTheorems]: the last samples are kept ([keep_last_correct]), reads
      and takes hand out the first ones that are asked for ([get_correct]);
      lookups ([lookup_correct]), new and removed instances
      ([register_correct], [free_instance_correct]), removed samples
      ([remove_sample_correct]), the owner of an instance
      ([writers_correct]); and four states where the code hangs, misorders or
      reads released memory ([full_cache_hangs], [late_sample_first],
      [get_empty_instance_faults], [free_drops_chain]).  The theorems on
      instances are for sets whose instances have different hashes, which
      [set_ok] says and [no_collision] asks of a new long key: for keys with
      the same hash the chains of the code are wrong.  No hash function is
      assumed to be injective.  Those on removals ask that no acknowledgement
      is outstanding when the cache must wait for them.

    Marshalling (xtypes/xcdr.c).  Samples travel in the CDR encoding, which is
    produced from a native structure and a type description by one recursive
    function ([Xcdr], [cdr_generate]) and read by another ([XcdrParse],
    [cdr_parse]) that also computes lengths, keys and offsets, depending on its
    action.  Native data is bytes at addresses ([Mem]), with pointers and
    sequence descriptors as the code lays them out.  [XcdrSpec] gives the
    meaning: values, their encoding ([enc]), the memory that holds a value
    ([repr]), the space behind a structure ([aux_end]), and the types for which
    the two functions agree ([ok_type]).  [XcdrGen] relates [cdr_generate] to
    the encoding, [XcdrRead] [cdr_parse] to the memory it fills, and [XcdrSize]
    its computation of lengths.
    - [XcdrTheorems]: the bytes and lengths of marshalling
      ([cdr_marshall_encodes]), unmarshalling into one block
      ([cdr_unmarshall_one_block]), the round trip ([cdr_roundtrip]), and
      examples of types that [ok_type] excludes, where the functions disagree.

    Heaps (co/heap.c: [Heap]) allocate blocks from an area of memory that the
    user provides, with the headers of chunks in that area.  [HeapProps] relates
    the bytes to a list of chunks ([heap_ok]) and shows what the operations do
    with it.
    - [HeapTheorems]: blocks stay apart, keep their contents, and an allocation
      fails only without room ([heap_safe]); [heap_max_exact]; and the header
      that [heap_realloc] does not find ([heap_realloc_outside]).

    ** Conventions, bounds and fuel

    An access outside an object, through NULL or to a released node is [None]
    (or the outcome [Undef], [PUndef], [SOob]), never a default value.
    Allocation is an argument ([xmalloc_ok], [strdup_ok], [alloc]), so every
    failure path is covered.  Functions outside the modelled files are
    arguments too; the interpreter takes [cdr_field_offset] of xtypes/xcdr.c as
    the argument [CdrOffset], over its own view of types.
    Fuel: the parser's is a recursion depth, and twice the length of the text
    plus 2 is enough ([filter_terminates], [query_terminates]); the interpreter's is a number of instructions,
    [filter_correct] and [query_correct] give a bound for compiled programs,
    and [instruction_limit_bypassed] shows why there is none for arbitrary
    ones; [random_level] needs at most 120 bits ([random_level_total]); the
    skiplist searches are bounded by the number of nodes, which
    [skiplist_refines] shows to be enough; a walk along the timer lists is bounded by the number of timers,
    which [timers_refine] shows to be enough; marshalling is bounded by the
    depth of the type, which [ok_type] checks with the same bound, and a
    parameter list by the length of the data; a search for a free handle of a cache is
    bounded by the 2^16 handles ([register_correct]), and a loop that makes
    room in it by the samples of the instance ([keep_last_correct]); a walk along the free chunks is
    bounded by the headers that fit in the heap ([heap_safe]); the loops of the writer are bounded by its list,
    which [writer_keeps] shows to be enough.  Sequence numbers of changes are
    unbounded integers in [Clist], [Sfrr] and [Sfrw], where the code has a pair
    of an int32 and a uint32 that wraps at 2^63; below that bound the lemmas of
    [Seqnr] show that the operations on pairs are those on integers, and the
    claims on writers ask for numbers below 2^32.  The clock stays below 2^63 ticks.  The
    modelled platform is 64-bit little-endian with a signed [char], and the
    X-Types configuration of the sources.

    ** Not modelled

    Debug output ([sql_dump_token], [bc_dump], [show_error], [tmr_dump],
    [qos_dump], [heap_dump]), locks other than those of timers, the memory pools, and the
    rest of the system: creation, matching and transfers between caches, with
    their time-based filters (hc_new, hc_free, hc_enable, hc_matches), RTPS fragments, best-effort proxies and messages,
    discovery, the DCPS layer, dynamic types and data, transports and security, which are
    event-driven code around sockets and threads, and the language bindings.  The clock of a timer is read together
    with [tmr_lock], while the code reads it just before. *)

From Stdlib Require Export ZArith Lia.
From stdpp Require Export base list numbers decidable option.

#[global] Open Scope Z_scope.

(** ** Machine integers

    A [w]-bit C integer is a [Z]; [wrap w] is the value an unsigned [w]-bit
    object holds after a store, [swrap w] the value a two's-complement signed
    one holds. *)

Definition wrap (w z : Z) : Z := z mod 2 ^ w.

Definition swrap (w z : Z) : Z := (z + 2 ^ (w - 1)) mod 2 ^ w - 2 ^ (w - 1).

Definition in_u (w z : Z) : Prop := 0 <= z < 2 ^ w.

Definition in_s (w z : Z) : Prop := - 2 ^ (w - 1) <= z < 2 ^ (w - 1).

Declare Scope mach_scope.
Delimit Scope mach_scope with mach.
Notation "⟦ z ⟧8" := (wrap 8 z) (at level 0, z at level 200) : mach_scope.
Notation "⟦ z ⟧16" := (wrap 16 z) (at level 0, z at level 200) : mach_scope.
Notation "⟦ z ⟧32" := (wrap 32 z) (at level 0, z at level 200) : mach_scope.
Notation "⟦ z ⟧64" := (wrap 64 z) (at level 0, z at level 200) : mach_scope.
Notation "⟪ z ⟫8" := (swrap 8 z) (at level 0, z at level 200) : mach_scope.
Notation "⟪ z ⟫16" := (swrap 16 z) (at level 0, z at level 200) : mach_scope.
Notation "⟪ z ⟫32" := (swrap 32 z) (at level 0, z at level 200) : mach_scope.
Notation "⟪ z ⟫64" := (swrap 64 z) (at level 0, z at level 200) : mach_scope.
#[global] Open Scope mach_scope.

(** ** Byte strings

    Memory is a list of bytes, each a [Z] in [0, 256).  [le_bytes] and
    [le_val] are the little-endian store and load of the CPU, [be_val] the
    big-endian operand decoding written out with shifts in the sources. *)

Fixpoint le_bytes (n : nat) (z : Z) : list Z :=
  match n with
  | O => []
  | S n => z mod 256 :: le_bytes n (z / 256)
  end.

Fixpoint le_val (l : list Z) : Z :=
  match l with
  | [] => 0
  | b :: l => b + 256 * le_val l
  end.

Definition be_val (l : list Z) : Z := fold_left (fun a b => a * 256 + b) l 0.

Definition byte_ok (b : Z) : Prop := 0 <= b < 256.

Definition is_byte (b : Z) : bool := (0 <=? b) && (b <? 256).

(** ** Arrays indexed by [Z]

    C arrays are lists; [zget] and [zset] are the load and the store at an
    index, [None] standing for an access outside the object. *)

Definition zlen {A} (l : list A) : Z := Z.of_nat (length l).

Definition zget {A} (l : list A) (i : Z) : option A :=
  if i <? 0 then None else l !! Z.to_nat i.

Definition zset {A} (l : list A) (i : Z) (x : A) : option (list A) :=
  if (0 <=? i) && (i <? zlen l) then Some (<[Z.to_nat i := x]> l) else None.

Definition ztake {A} (i : Z) (l : list A) : list A := take (Z.to_nat i) l.

Definition zdrop {A} (i : Z) (l : list A) : list A := drop (Z.to_nat i) l.

(** [zslice l i n]: the [n] elements of [l] from index [i], if all exist. *)
Definition zslice {A} (l : list A) (i n : Z) : option (list A) :=
  if (0 <=? i) && (0 <=? n) && (i + n <=? zlen l)
  then Some (ztake n (zdrop i l)) else None.

(** ** Tactics *)

(** Boolean arithmetic tests of the code, as propositions. *)
Ltac zbool :=
  repeat match goal with
  | H : (_ =? _) = true |- _ => apply Z.eqb_eq in H
  | H : (_ =? _) = false |- _ => apply Z.eqb_neq in H
  | H : (_ <? _) = true |- _ => apply Z.ltb_lt in H
  | H : (_ <? _) = false |- _ => apply Z.ltb_ge in H
  | H : (_ <=? _) = true |- _ => apply Z.leb_le in H
  | H : (_ <=? _) = false |- _ => apply Z.leb_gt in H
  | H : (_ && _) = true |- _ => apply andb_true_iff in H as [? ?]
  | H : (_ && _) = false |- _ => apply andb_false_iff in H
  | H : (_ || _) = false |- _ => apply orb_false_iff in H as [? ?]
  | H : negb _ = true |- _ => apply negb_true_iff in H
  | H : negb _ = false |- _ => apply negb_false_iff in H
  end.

(** Contradictions between boolean tests. *)
Ltac zbool_lia := zbool; repeat match goal with H : _ \/ _ |- _ => destruct H; zbool end; lia.

(** Case analysis on the next [if] or [match] scrutinee of the goal or of a
    hypothesis, keeping the equation. *)
Ltac split_match :=
  match goal with
  | |- context [match ?x with _ => _ end] =>
      lazymatch x with context [match _ with _ => _ end] => fail | _ => destruct x eqn:? end
  end.

Ltac split_match_in H :=
  match type of H with
  | context [match ?x with _ => _ end] =>
      lazymatch x with context [match _ with _ => _ end] => fail | _ => destruct x eqn:? end
  end.

(** Case analysis on the condition of the first [if] of the goal. *)
Tactic Notation "case_if" ident(E) :=
  match goal with |- context [if ?b then _ else _] => destruct b eqn:E end.

Tactic Notation "case_if" ident(E) "in" hyp(H) :=
  match type of H with context [if ?b then _ else _] => destruct b eqn:E end.

Ltac split_all := repeat (split_match; simplify_eq/=).

Ltac split_all_in H := repeat (split_match_in H; simplify_eq/=).

(** Unfold the wrap-around of machine words and let [lia] decide. *)
Ltac mach_lia := unfold wrap, swrap, in_u, in_s in *; simpl Z.pow in *; Z.div_mod_to_equations; lia.

Create HintDb mach.
Create Rewrite HintDb mach_rw.
Create Rewrite HintDb zlen.

(** ** Lemmas on machine integers *)

Lemma wrap_range w z : 0 <= w -> 0 <= wrap w z < 2 ^ w.
Proof. intros. apply Z.mod_pos_bound. lia. Qed.

Lemma wrap_small w z : in_u w z -> wrap w z = z.
Proof. apply Z.mod_small. Qed.

Lemma wrap_wrap w z : wrap w (wrap w z) = wrap w z.
Proof. apply Z.mod_mod_divide, Z.divide_refl. Qed.

Lemma swrap_range w z : 0 < w -> - 2 ^ (w - 1) <= swrap w z < 2 ^ (w - 1).
Proof.
  intros. unfold swrap.
  pose proof (Z.mod_pos_bound (z + 2 ^ (w - 1)) (2 ^ w) ltac:(lia)).
  assert (2 ^ w = 2 * 2 ^ (w - 1)) by (rewrite <- Z.pow_succ_r by lia; f_equal; lia).
  lia.
Qed.

Lemma swrap_small w z : 0 < w -> in_s w z -> swrap w z = z.
Proof.
  unfold in_s, swrap. intros.
  assert (2 ^ w = 2 * 2 ^ (w - 1)) by (rewrite <- Z.pow_succ_r by lia; f_equal; lia).
  rewrite Z.mod_small; lia.
Qed.

Lemma swrap_wrap w z : swrap w (wrap w z) = swrap w z.
Proof. unfold swrap, wrap. by rewrite Zplus_mod_idemp_l. Qed.

Lemma wrap_swrap w z : wrap w (swrap w z) = wrap w z.
Proof.
  unfold swrap, wrap. rewrite Zminus_mod_idemp_l. f_equal. lia.
Qed.

Lemma swrap_swrap w z : swrap w (swrap w z) = swrap w z.
Proof. by rewrite <- (swrap_wrap w (swrap w z)), wrap_swrap, swrap_wrap. Qed.

#[export] Hint Resolve wrap_range swrap_range wrap_small swrap_small : mach.
#[export] Hint Rewrite wrap_wrap swrap_wrap wrap_swrap swrap_swrap : mach_rw.

(** ** Lemmas on bytes *)

Lemma length_le_bytes n z : length (le_bytes n z) = n.
Proof. revert z; induction n; intros; simpl; auto. Qed.

Lemma le_bytes_ok n z : Forall byte_ok (le_bytes n z).
Proof.
  revert z; induction n; intros; simpl; constructor; auto.
  apply Z.mod_pos_bound. lia.
Qed.

Lemma le_val_bytes n z : le_val (le_bytes n z) = wrap (8 * Z.of_nat n) z.
Proof.
  revert z; induction n as [|n IH]; intros z; simpl le_bytes; simpl le_val.
  - unfold wrap. by rewrite Z.mod_1_r.
  - rewrite IH. unfold wrap.
    replace (2 ^ (8 * Z.of_nat (S n))) with (256 * 2 ^ (8 * Z.of_nat n)).
    2:{ replace (8 * Z.of_nat (S n)) with (8 + 8 * Z.of_nat n) by lia.
        rewrite Z.pow_add_r by lia. reflexivity. }
    rewrite Z.rem_mul_r by lia. lia.
Qed.

Lemma le_val_range l : Forall byte_ok l -> 0 <= le_val l < 2 ^ (8 * zlen l).
Proof.
  unfold zlen. induction 1 as [|b l [? ?] _ IH]; simpl le_val; simpl length.
  - simpl. lia.
  - replace (8 * Z.of_nat (S (length l))) with (8 + 8 * Z.of_nat (length l)) by lia.
    rewrite Z.pow_add_r by lia. change (2 ^ 8) with 256. lia.
Qed.

Lemma le_bytes_val l : Forall byte_ok l -> le_bytes (length l) (le_val l) = l.
Proof.
  induction 1 as [|b l [? ?] _ IH]; [done|]. simpl le_val. simpl length.
  rewrite Z.mul_comm. simpl le_bytes.
  rewrite Z.mod_add, Z.mod_small by lia.
  rewrite Z.div_add, Z.div_small, Z.add_0_l by lia. by rewrite IH.
Qed.

(** ** Lemmas on arrays *)

Section Arrays.
Context {A : Type}.
Implicit Types (l : list A) (i n : Z).

Lemma zlen_nonneg l : 0 <= zlen l.
Proof. unfold zlen. lia. Qed.

Lemma zlen_app l1 l2 : zlen (l1 ++ l2) = zlen l1 + zlen l2.
Proof. unfold zlen. rewrite length_app. lia. Qed.

Lemma zlen_cons x l : zlen (x :: l) = 1 + zlen l.
Proof. unfold zlen. simpl. lia. Qed.

Lemma zlen_nil : zlen (@nil A) = 0.
Proof. reflexivity. Qed.

Lemma zlen_replicate k (x : A) : zlen (replicate k x) = Z.of_nat k.
Proof. unfold zlen. by rewrite length_replicate. Qed.

Lemma ztake_app_full l1 l2 : ztake (zlen l1) (l1 ++ l2) = l1.
Proof. unfold ztake, zlen. rewrite Nat2Z.id. apply take_app_length. Qed.

Lemma zdrop_app_full l1 l2 : zdrop (zlen l1) (l1 ++ l2) = l2.
Proof. unfold zdrop, zlen. rewrite Nat2Z.id. apply drop_app_length. Qed.

Lemma ztake_full l i : zlen l <= i -> ztake i l = l.
Proof. unfold ztake, zlen. intros. apply take_ge. lia. Qed.

Lemma zget_Some l i x : zget l i = Some x -> 0 <= i < zlen l.
Proof.
  unfold zget, zlen. destruct (i <? 0) eqn:E; [done|]. intros H%lookup_lt_Some. zbool. lia.
Qed.

Lemma zget_lookup_Some l i : 0 <= i < zlen l -> exists x, zget l i = Some x.
Proof.
  unfold zget, zlen. intros H. destruct (i <? 0) eqn:E; zbool; [lia|].
  apply lookup_lt_is_Some_2. lia.
Qed.

Lemma zget_oob l i : i < 0 \/ zlen l <= i -> zget l i = None.
Proof.
  unfold zget, zlen. intros H. destruct (i <? 0) eqn:E; zbool; [done|].
  apply lookup_ge_None. lia.
Qed.

Lemma zset_Some l i x : 0 <= i < zlen l -> zset l i x = Some (<[Z.to_nat i := x]> l).
Proof.
  unfold zset. intros H.
  replace ((0 <=? i) && (i <? zlen l)) with true; [done|].
  symmetry. apply andb_true_iff. split; [apply Z.leb_le | apply Z.ltb_lt]; lia.
Qed.

Lemma zset_inv l i x l' :
  zset l i x = Some l' -> 0 <= i < zlen l /\ l' = <[Z.to_nat i := x]> l.
Proof.
  unfold zset. destruct ((0 <=? i) && (i <? zlen l)) eqn:E; intros; simplify_eq.
  zbool. split; [lia | done].
Qed.

Lemma zlen_zset l i x l' : zset l i x = Some l' -> zlen l' = zlen l.
Proof. intros [_ ->]%zset_inv. unfold zlen. by rewrite length_insert. Qed.

Lemma zget_zset_eq l i x l' : zset l i x = Some l' -> zget l' i = Some x.
Proof.
  intros [H ->]%zset_inv. unfold zget, zlen in *.
  destruct (i <? 0) eqn:E; zbool; [lia|]. apply list_lookup_insert_eq. lia.
Qed.

Lemma zget_zset_ne l i j x l' : zset l i x = Some l' -> i <> j -> zget l' j = zget l j.
Proof.
  intros [H ->]%zset_inv Hne. unfold zget.
  destruct (j <? 0) eqn:E; zbool; [done|]. apply list_lookup_insert_ne. lia.
Qed.

Lemma zget_app_l l1 l2 i : i < zlen l1 -> zget (l1 ++ l2) i = zget l1 i.
Proof.
  unfold zget, zlen. intros. destruct (i <? 0) eqn:E; zbool; [done|].
  apply lookup_app_l. lia.
Qed.

Lemma zget_app_r l1 l2 i : zlen l1 <= i -> zget (l1 ++ l2) i = zget l2 (i - zlen l1).
Proof.
  unfold zget, zlen. intros. destruct (i <? 0) eqn:E; zbool; [lia|].
  destruct (i - _ <? 0) eqn:E2; zbool; [lia|].
  rewrite lookup_app_r by lia. f_equal. lia.
Qed.

Lemma zget_cons_0 x l : zget (x :: l) 0 = Some x.
Proof. reflexivity. Qed.

Lemma zget_cons_S x l i : 0 < i -> zget (x :: l) i = zget l (i - 1).
Proof.
  intros. unfold zget. destruct (i <? 0) eqn:E, (i - 1 <? 0) eqn:E2; zbool; try lia.
  replace (Z.to_nat i) with (S (Z.to_nat (i - 1))) by lia. done.
Qed.

Lemma zlen_ztake l i : 0 <= i <= zlen l -> zlen (ztake i l) = i.
Proof. unfold zlen, ztake. intros. rewrite length_take. lia. Qed.

Lemma zget_ztake l i n : i < n -> zget (ztake n l) i = zget l i.
Proof.
  intros. unfold zget, ztake. destruct (i <? 0) eqn:E; zbool; [done|].
  apply lookup_take_lt. lia.
Qed.

Lemma zget_zdrop l i n : 0 <= i -> 0 <= n -> zget (zdrop n l) i = zget l (n + i).
Proof.
  intros. unfold zget, zdrop. destruct (i <? 0) eqn:E, (n + i <? 0) eqn:E2; zbool; try lia.
  rewrite lookup_drop. f_equal. lia.
Qed.

Lemma zlist_eq l1 l2 :
  zlen l1 = zlen l2 -> (forall i, 0 <= i < zlen l1 -> zget l1 i = zget l2 i) -> l1 = l2.
Proof.
  unfold zlen, zget. intros Hl H. apply list_eq. intros i.
  destruct (decide (i < length l1)%nat) as [Hi|Hi].
  - specialize (H (Z.of_nat i) ltac:(lia)).
    destruct (Z.of_nat i <? 0) eqn:E; zbool; [lia|]. by rewrite Nat2Z.id in H.
  - rewrite !lookup_ge_None_2 by lia. done.
Qed.

Lemma zslice_Some l i n :
  0 <= i -> 0 <= n -> i + n <= zlen l -> zslice l i n = Some (ztake n (zdrop i l)).
Proof.
  intros. unfold zslice.
  replace (_ && _ && _) with true; [done|]. symmetry.
  rewrite !andb_true_iff, !Z.leb_le. auto.
Qed.

End Arrays.

#[export] Hint Rewrite @zlen_app @zlen_cons @zlen_nil : zlen.

(** Normalise lengths, then decide. *)
Ltac zlen_pos l := lazymatch goal with
  | H : 0 <= zlen l |- _ => fail
  | _ => pose proof (zlen_nonneg l)
  end.

Ltac zlen_lia :=
  repeat progress (rewrite ?zlen_app, ?zlen_cons, ?zlen_nil in *);
  repeat match goal with
  | |- context [zlen ?l] => zlen_pos l
  | _ : context [zlen ?l] |- _ => zlen_pos l
  end; lia.
