(* ===== verification/CLib.v ===== *)
(** The parts of the C language and of its standard library that the
    modelled sources use: character classes of the "C" locale, [strcmp],
    [strtol]/[strtoll], IEEE-754 doubles and x87 long doubles with
    [strtod]/[strtold] and [sscanf ("%lf")], and POSIX [fnmatch].

    A character is a byte, a C string the list of its bytes without the
    terminating NUL. *)

From Stdlib Require Import SpecFloat String Ascii.
From S2P Require Import Prelude.

(** ** Characters *)

(** [char] is signed on the modelled platform. *)
Definition schar (c : Z) : Z := ⟪c⟫8.

Definition ch (a : ascii) : Z := Z.of_nat (nat_of_ascii a).

(** A string literal of the sources. *)
Definition lit (s : string) : list Z := map ch (list_ascii_of_string s).

Definition isspace (c : Z) : bool := (c =? 32) || ((9 <=? c) && (c <=? 13)).
Definition isdigit (c : Z) : bool := (48 <=? c) && (c <=? 57).
Definition isupper (c : Z) : bool := (65 <=? c) && (c <=? 90).
Definition islower (c : Z) : bool := (97 <=? c) && (c <=? 122).
Definition isalpha (c : Z) : bool := isupper c || islower c.
Definition isalnum (c : Z) : bool := isalpha c || isdigit c.
Definition isxdigit (c : Z) : bool :=
  isdigit c || ((65 <=? c) && (c <=? 70)) || ((97 <=? c) && (c <=? 102)).
Definition isgraph (c : Z) : bool := (33 <=? c) && (c <=? 126).
Definition tolower (c : Z) : Z := if isupper c then c + 32 else c.

(** The C string that starts at the head of a memory area: the bytes up to
    the first NUL, [None] when the area has none. *)
Fixpoint cstring (mem : list Z) : option (list Z) :=
  match mem with
  | [] => None
  | c :: mem => if c =? 0 then Some [] else cons c <$> cstring mem
  end.

(** [strcmp]: only the sign is specified; bytes compare as unsigned. *)
Fixpoint strcmp (s1 s2 : list Z) : Z :=
  match s1, s2 with
  | [], [] => 0
  | [], _ :: _ => -1
  | _ :: _, [] => 1
  | c1 :: s1, c2 :: s2 =>
      if c1 =? c2 then strcmp s1 s2 else if c1 <? c2 then -1 else 1
  end.

(** ** Integer parsing *)

Fixpoint skip_space (s : list Z) : list Z :=
  match s with
  | c :: s' => if isspace c then skip_space s' else s
  | [] => []
  end.

Definition take_sign (s : list Z) : bool * list Z :=
  match s with
  | c :: s' => if c =? 45 then (true, s') else if c =? 43 then (false, s') else (false, s)
  | [] => (false, [])
  end.

(** Accumulates decimal digits; also counts them and returns the rest. *)
Fixpoint take_digits (acc : Z) (n : Z) (s : list Z) : Z * Z * list Z :=
  match s with
  | c :: s' => if isdigit c then take_digits (acc * 10 + (c - 48)) (n + 1) s' else (acc, n, s)
  | [] => (acc, n, [])
  end.

(** [strtol (s, NULL, 10)] and [strtoll]: both 64-bit, saturating. *)
Definition strtol (s : list Z) : Z :=
  let '(neg, s) := take_sign (skip_space s) in
  let '(v, _, _) := take_digits 0 0 s in
  if neg then Z.max (- v) (- 2 ^ 63) else Z.min v (2 ^ 63 - 1).

(** ** Floating point

    A [double] is its 64-bit pattern, a [long double] its 80-bit pattern;
    arithmetic goes through [SpecFloat]. *)

Definition emin (prec emax : Z) : Z := 3 - emax - prec.

Definition sf_of_bits (prec emax : Z) (explicit : bool) (b : Z) : spec_float :=
  let mbits := if explicit then prec else prec - 1 in
  let m := b mod 2 ^ mbits in
  let e := (b / 2 ^ mbits) mod (2 * emax) in
  let s := negb ((b / (2 ^ mbits * (2 * emax))) mod 2 =? 0) in
  let frac := if explicit then m mod 2 ^ (prec - 1) else m in
  if e =? 2 * emax - 1 then
    if frac =? 0 then S754_infinity s else S754_nan
  else
    let full := if (e =? 0) || explicit then m else m + 2 ^ mbits in
    match full with
    | Zpos p => S754_finite s p (Z.max e 1 - 1 + emin prec emax)
    | _ => S754_zero s
    end.

Definition bits_of_sf (prec emax : Z) (explicit : bool) (x : spec_float) : Z :=
  let mbits := if explicit then prec else prec - 1 in
  let pack (s : bool) (e m : Z) := ((if s then 2 * emax else 0) + e) * 2 ^ mbits + m in
  let lead := if explicit then 2 ^ (prec - 1) else 0 in
  match x with
  | S754_zero s => pack s 0 0
  | S754_infinity s => pack s (2 * emax - 1) lead
  | S754_nan => pack false (2 * emax - 1) (lead + 2 ^ (prec - 2))
  | S754_finite s m e =>
      if Zpos m <? 2 ^ (prec - 1) then pack s 0 (Zpos m)
      else pack s (e - emin prec emax + 1) (Zpos m - (2 ^ (prec - 1) - lead))
  end.

Definition d_sf : Z -> spec_float := sf_of_bits 53 1024 false.
Definition d_bits (x : spec_float) : Z := ⟦bits_of_sf 53 1024 false x⟧64.
Definition f_sf : Z -> spec_float := sf_of_bits 24 128 false.
Definition o_sf : Z -> spec_float := sf_of_bits 64 16384 true.
Definition o_bits (x : spec_float) : Z := wrap 80 (bits_of_sf 64 16384 true x).

(** Value-preserving or round-to-nearest conversion to a format. *)
Definition sf_conv (prec emax : Z) (x : spec_float) : spec_float :=
  match x with
  | S754_finite s m e =>
      binary_normalize prec emax (if s then Zneg m else Zpos m) e s
  | _ => x
  end.

(** [(double) i] for an integer, [(double) f] for a float. *)
Definition d_of_Z (z : Z) : Z := d_bits (binary_normalize 53 1024 z 0 false).
Definition d_of_float (f : Z) : Z := d_bits (sf_conv 53 1024 (f_sf f)).
Definition o_of_Z (z : Z) : Z := o_bits (binary_normalize 64 16384 z 0 false).
Definition o_of_double (d : Z) : Z := o_bits (sf_conv 64 16384 (d_sf d)).
Definition d_neg (d : Z) : Z := d_bits (SFopp (d_sf d)).

Definition d_zero : Z := 0.
Definition d_one : Z := 4607182418800017408.

(** [x > y], [x == y], [x >= y], [x <= y] and the truth value of [x]. *)
Definition sf_gt (x y : spec_float) : bool :=
  match SFcompare x y with Some Gt => true | _ => false end.
Definition sf_eq (x y : spec_float) : bool :=
  match SFcompare x y with Some Eq => true | _ => false end.
Definition sf_ge (x y : spec_float) : bool := sf_gt x y || sf_eq x y.
Definition sf_le (x y : spec_float) : bool := sf_ge y x.
Definition d_true (d : Z) : bool := negb (sf_eq (d_sf d) (S754_zero false)).

(** Correctly rounded [(-1)^s * m * 10^e]. *)
Definition sf_of_decimal (prec emax : Z) (s : bool) (m e : Z) : spec_float :=
  if m =? 0 then S754_zero s
  else if 0 <=? e then
    binary_normalize prec emax ((if s then -1 else 1) * m * 10 ^ e) 0 s
  else
    let '(q, ez, loc) := SFdiv_core_binary prec emax m 0 (10 ^ (- e)) 0 in
    binary_round_aux prec emax s q ez loc.

(** Decimal exponent, an optional suffix of the subject sequence; very large
    exponents saturate, which changes no rounded result. *)
Definition take_exponent (s : list Z) : Z :=
  match s with
  | c :: s' =>
      if (c =? 101) || (c =? 69) then
        let '(neg, s') := take_sign s' in
        let '(v, n, _) := take_digits 0 0 s' in
        if n =? 0 then 0 else let v := Z.min v 100000 in if neg then - v else v
      else 0
  | [] => 0
  end.

Fixpoint prefix_nocase (p s : list Z) : bool :=
  match p, s with
  | [], _ => true
  | c :: p, d :: s => (c =? tolower d) && prefix_nocase p s
  | _ :: _, [] => false
  end.

(** Hexadecimal digits, for the [0x] form. *)
Definition xdigit_val (c : Z) : Z :=
  if isdigit c then c - 48 else tolower c - 97 + 10.

Fixpoint take_xdigits (acc n : Z) (s : list Z) : Z * Z * list Z :=
  match s with
  | c :: s' => if isxdigit c then take_xdigits (acc * 16 + xdigit_val c) (n + 1) s' else (acc, n, s)
  | [] => (acc, n, [])
  end.

Definition take_binexp (s : list Z) : Z :=
  match s with
  | c :: s' =>
      if (c =? 112) || (c =? 80) then
        let '(neg, s') := take_sign s' in
        let '(v, n, _) := take_digits 0 0 s' in
        if n =? 0 then 0 else let v := Z.min v 100000 in if neg then - v else v
      else 0
  | [] => 0
  end.

(** [strtod]: the value, [None] when no conversion can be performed (the
    function then returns zero). *)
Definition strtod_opt (prec emax : Z) (str : list Z) : option spec_float :=
  let '(neg, s) := take_sign (skip_space str) in
  if prefix_nocase (lit "inf") s then Some (S754_infinity neg)
  else if prefix_nocase (lit "nan") s then Some S754_nan
  else
    let hex :=
      if prefix_nocase (lit "0x") s then
        let '(m1, n1, r) := take_xdigits 0 0 (drop 2 s) in
        let '(m, k, r) := match r with
                          | c :: r' => if c =? 46 then
                                         let '(m, k, r'') := take_xdigits m1 0 r' in (m, k, r'')
                                       else (m1, 0, r)
                          | [] => (m1, 0, r)
                          end in
        if n1 + k =? 0 then None
        else Some (binary_normalize prec emax ((if neg then -1 else 1) * m) (take_binexp r - 4 * k) neg)
      else None in
    match hex with
    | Some x => Some x
    | None =>
        let '(m1, n1, r) := take_digits 0 0 s in
        let '(m, k, r) := match r with
                          | c :: r' => if c =? 46 then
                                         let '(m, k, r'') := take_digits m1 0 r' in (m, k, r'')
                                       else (m1, 0, r)
                          | [] => (m1, 0, r)
                          end in
        if n1 + k =? 0 then None
        else Some (sf_of_decimal prec emax neg m (take_exponent r - k))
    end.

Definition strtod (s : list Z) : Z :=
  match strtod_opt 53 1024 s with Some x => d_bits x | None => d_zero end.

Definition strtold (s : list Z) : Z :=
  match strtod_opt 64 16384 s with Some x => o_bits x | None => 0 end.

(** [sscanf (s, "%lf", &d) == 1], with the value stored. *)
Definition sscanf_lf (s : list Z) : option Z := d_bits <$> strtod_opt 53 1024 s.

(** ** fnmatch *)

Definition FNM_NOESCAPE : Z := 2.
Definition FNM_CASEFOLD : Z := 16.

(** One element of a bracket expression. *)
Inductive bitem := BChar (c : Z) | BRange (lo hi : Z) | BClass (name : list Z).

Definition class_match (name : list Z) (c : Z) : bool :=
  if decide (name = lit "alpha") then isalpha c
  else if decide (name = lit "digit") then isdigit c
  else if decide (name = lit "alnum") then isalnum c
  else if decide (name = lit "upper") then isupper c
  else if decide (name = lit "lower") then islower c
  else if decide (name = lit "space") then isspace c
  else if decide (name = lit "blank") then (c =? 32) || (c =? 9)
  else if decide (name = lit "punct") then isgraph c && negb (isalnum c)
  else if decide (name = lit "print") then isgraph c || (c =? 32)
  else if decide (name = lit "graph") then isgraph c
  else if decide (name = lit "cntrl") then (c <? 32) || (c =? 127)
  else if decide (name = lit "xdigit") then isxdigit c
  else false.

Definition bitem_match (fold : bool) (c : Z) (b : bitem) : bool :=
  let f x := if fold then tolower x else x in
  match b with
  | BChar d => f c =? f d
  | BRange lo hi => (f lo <=? f c) && (f c <=? f hi)
  | BClass name => class_match name c
  end.

(** The name between "[:" and ":]". *)
Fixpoint take_class (acc : list Z) (p : list Z) : option (list Z * list Z) :=
  match p with
  | 58 :: 93 :: p' => Some (acc, p')
  | c :: p' => if islower c then take_class (acc ++ [c]) p' else None
  | [] => None
  end.

(** Items of a bracket expression up to its "]"; [None]: not terminated. *)
Fixpoint take_bracket (fuel : nat) (noesc first : bool) (p : list Z)
  : option (list bitem * list Z) :=
  match fuel with
  | O => None
  | S fuel =>
      let item (c : Z) (p : list Z) :=
        match p with
        | 45 :: hi :: p' =>
            if hi =? 93 then
              '(bs, r) ← take_bracket fuel noesc false p; Some (BChar c :: bs, r)
            else
              '(bs, r) ← take_bracket fuel noesc false p'; Some (BRange c hi :: bs, r)
        | _ => '(bs, r) ← take_bracket fuel noesc false p; Some (BChar c :: bs, r)
        end in
      match p with
      | [] => None
      | c :: p' =>
          if (c =? 93) && negb first then Some ([], p')
          else if (c =? 92) && negb noesc then
            match p' with [] => None | d :: p'' => item d p'' end
          else if c =? 91 then
            match p' with
            | 58 :: p'' =>
                match take_class [] p'' with
                | Some (name, r0) =>
                    '(bs, r) ← take_bracket fuel noesc false r0; Some (BClass name :: bs, r)
                | None => item c p'
                end
            | _ => item c p'
            end
          else item c p'
      end
  end.

Fixpoint suffixes (s : list Z) : list (list Z) :=
  s :: match s with [] => [] | _ :: s' => suffixes s' end.

(** Does the whole of [s] match the pattern?  [fuel] above the length of the
    pattern is enough: every step consumes at least one character of it. *)
Fixpoint fnm (fuel : nat) (noesc fold : bool) (p s : list Z) : bool :=
  let eqc a b := if fold then tolower a =? tolower b else a =? b in
  let literal fuel c p' :=
    match s with d :: s' => eqc c d && fnm fuel noesc fold p' s' | [] => false end in
  match fuel with
  | O => false
  | S fuel =>
      match p with
      | [] => match s with [] => true | _ => false end
      | c :: p' =>
          if c =? 42 then existsb (fnm fuel noesc fold p') (suffixes s)
          else if c =? 63 then
            match s with _ :: s' => fnm fuel noesc fold p' s' | [] => false end
          else if (c =? 92) && negb noesc then
            match p' with d :: p'' => literal fuel d p'' | [] => false end
          else if c =? 91 then
            let '(neg, p1) := match p' with
                              | d :: p1 => if (d =? 33) || (d =? 94) then (true, p1) else (false, p')
                              | [] => (false, p')
                              end in
            match take_bracket (S (length p1)) noesc true p1 with
            | Some (bs, p2) =>
                match s with
                | d :: s' =>
                    xorb neg (existsb (bitem_match fold d) bs) && fnm fuel noesc fold p2 s'
                | [] => false
                end
            | None => literal fuel c p'
            end
          else literal fuel c p'
      end
  end.

(** [fnmatch]: 0 on a match, non-zero otherwise. *)
Definition fnmatch (p s : list Z) (flags : Z) : Z :=
  if fnm (S (length p)) (Z.testbit flags 1) (Z.testbit flags 4) p s then 0 else 1.

(** ** Facts *)

Lemma strcmp_refl s : strcmp s s = 0.
Proof. induction s as [|c s IH]; simpl; [done|]. by rewrite Z.eqb_refl. Qed.

Lemma strcmp_eq s1 s2 : strcmp s1 s2 = 0 <-> s1 = s2.
Proof.
  split; [|intros ->; apply strcmp_refl].
  revert s2; induction s1 as [|c s1 IH]; intros [|d s2]; simpl; try done.
  destruct (c =? d) eqn:E; [|destruct (c <? d); done]. intros. zbool. subst. f_equal. auto.
Qed.

Lemma strcmp_antisym s1 s2 : strcmp s2 s1 = - strcmp s1 s2.
Proof.
  revert s2; induction s1 as [|c s1 IH]; intros [|d s2]; simpl; try done.
  rewrite (Z.eqb_sym d c). destruct (c =? d) eqn:E; [done|].
  destruct (c <? d) eqn:E1, (d <? c) eqn:E2; zbool; lia.
Qed.

Lemma strtol_range s : in_s 64 (strtol s).
Proof.
  unfold strtol, in_s. destruct (take_sign _) as [neg r].
  assert (H : forall r acc n, 0 <= acc -> 0 <= (take_digits acc n r).1.1).
  { clear. intros r; induction r as [|c r IH]; intros; simpl; [done|].
    destruct (isdigit c) eqn:E; [|done]. apply IH. unfold isdigit in E. zbool. lia. }
  specialize (H r 0 0 ltac:(lia)). destruct (take_digits 0 0 r) as [[v ?] ?]. simpl in H.
  destruct neg; simpl; lia.
Qed.

Example strtod_ex1 : strtod (lit "23.23") = 4627231881391117435.
Proof. vm_compute. reflexivity. Qed.

Example strtod_ex2 : strtod (lit "1") = d_one /\ strtod (lit " -0x10p-1z") = d_of_Z (-8).
Proof. vm_compute. split; reflexivity. Qed.

Example fnmatch_ex : fnmatch (lit "a*[b-d]?") (lit "axyzcq") 0 = 0
  /\ fnmatch (lit "a*[!b-d]?") (lit "axyzcq") 0 = 1.
Proof. vm_compute. split; reflexivity. Qed.
