(* ===== verification/TypeData.v ===== *)
(** The type descriptions and sample buffers that the SQL engine works on:
    [DDS_TypeKind] (dds_xtypes.h), [Type], [StructureType], [EnumType],
    [TypeLib] (type_data.h), the type table access [xt_type_ptr] (xtypes.c),
    and the data buffer walker [DBW] (db.h). *)

From S2P Require Import Prelude.

(** ** Return codes *)

Inductive DDS_ReturnCode_t :=
| DDS_RETCODE_OK
| DDS_RETCODE_ERROR
| DDS_RETCODE_UNSUPPORTED
| DDS_RETCODE_BAD_PARAMETER
| DDS_RETCODE_PRECONDITION_NOT_MET
| DDS_RETCODE_OUT_OF_RESOURCES
| DDS_RETCODE_NOT_ENABLED
| DDS_RETCODE_IMMUTABLE_POLICY
| DDS_RETCODE_INCONSISTENT_POLICY
| DDS_RETCODE_ALREADY_DELETED
| DDS_RETCODE_TIMEOUT
| DDS_RETCODE_NO_DATA
| DDS_RETCODE_ILLEGAL_OPERATION
| DDS_RETCODE_NOT_ALLOWED_BY_SEC.

(** The numeric value of a return code, its position in the C enumeration. *)
Definition retcode (r : DDS_ReturnCode_t) : Z :=
  match r with
  | DDS_RETCODE_OK => 0
  | DDS_RETCODE_ERROR => 1
  | DDS_RETCODE_UNSUPPORTED => 2
  | DDS_RETCODE_BAD_PARAMETER => 3
  | DDS_RETCODE_PRECONDITION_NOT_MET => 4
  | DDS_RETCODE_OUT_OF_RESOURCES => 5
  | DDS_RETCODE_NOT_ENABLED => 6
  | DDS_RETCODE_IMMUTABLE_POLICY => 7
  | DDS_RETCODE_INCONSISTENT_POLICY => 8
  | DDS_RETCODE_ALREADY_DELETED => 9
  | DDS_RETCODE_TIMEOUT => 10
  | DDS_RETCODE_NO_DATA => 11
  | DDS_RETCODE_ILLEGAL_OPERATION => 12
  | DDS_RETCODE_NOT_ALLOWED_BY_SEC => 13
  end.

(** ** Type kinds *)

Inductive TypeKind :=
| DDS_NO_TYPE
| DDS_BOOLEAN_TYPE
| DDS_BYTE_TYPE
| DDS_INT_16_TYPE
| DDS_UINT_16_TYPE
| DDS_INT_32_TYPE
| DDS_UINT_32_TYPE
| DDS_INT_64_TYPE
| DDS_UINT_64_TYPE
| DDS_FLOAT_32_TYPE
| DDS_FLOAT_64_TYPE
| DDS_FLOAT_128_TYPE
| DDS_CHAR_8_TYPE
| DDS_CHAR_32_TYPE
| DDS_ENUMERATION_TYPE
| DDS_BITSET_TYPE
| DDS_ALIAS_TYPE
| DDS_ARRAY_TYPE
| DDS_SEQUENCE_TYPE
| DDS_STRING_TYPE
| DDS_MAP_TYPE
| DDS_UNION_TYPE
| DDS_STRUCTURE_TYPE
| DDS_ANNOTATION_TYPE
| DDS_TYPEKIND_MAX.

#[export] Instance TypeKind_eq_dec : EqDecision TypeKind.
Proof. solve_decision. Defined.

(** ** Types *)

(** [Member] of a structure; the fields the SQL engine reads. *)
Record Member := mkMember {
  m_name : list Z;      (** [name] *)
  m_id : Z;             (** [id], the type of the member in its scope *)
  m_offset : Z          (** [offset] in the native structure *)
}.

Record EnumConst := mkEnumConst { ec_value : Z; ec_name : list Z }.

(** [Type] with the variable parts of [StructureType] and [EnumType]. *)
Record Type_ := mkType {
  kind : TypeKind;
  scope : Z;
  member : list Member;         (** [StructureType.member], [nmembers] of them *)
  constant : list EnumConst     (** [EnumType.constant], [nconsts] of them *)
}.

(** [TypeDomain.types]: sparse table from type id to type. *)
Definition TypeDomain := list (option Type_).

(** The global table [libs] of type libraries, by scope; each refers to its
    domain. *)
Definition TypeLibs := list (option TypeDomain).

(** [TS_MODE] *)
Inductive TS_MODE := MODE_CDR | MODE_PL_CDR | MODE_XML | MODE_RAW | MODE_V_TC | MODE_X_TC.

Definition mode_num (m : TS_MODE) : Z :=
  match m with
  | MODE_CDR => 0 | MODE_PL_CDR => 1 | MODE_XML => 2
  | MODE_RAW => 3 | MODE_V_TC => 4 | MODE_X_TC => 5
  end.

#[export] Instance TS_MODE_eq_dec : EqDecision TS_MODE.
Proof. solve_decision. Defined.

(** [TypeSupport_t]: the fields the SQL engine reads. *)
Record TypeSupport := mkTypeSupport {
  ts_prefer : TS_MODE;
  ts_cdr : option Type_
}.

(** [xt_type_ptr]: the type of an id in a scope.  The second component is the
    nesting depth of [xt_lock] at the return. *)
Definition xt_type_ptr_lock (libs : TypeLibs) (scope id : Z) (depth : Z) : option Type_ * Z :=
  let depth := depth + 1 in
  if (id =? 0) || (zlen libs <=? scope) then (None, depth)
  else match zget libs scope with
       | Some (Some dom) =>
           if zlen dom <=? id then (None, depth)
           else (mjoin (zget dom id), depth - 1)
       | _ => (None, depth)
       end.

Definition xt_type_ptr (libs : TypeLibs) (scope id : Z) : option Type_ :=
  (xt_type_ptr_lock libs scope id 0).1.

(** ** Data buffers *)

(** A chain of data buffers: the [data] area of each [DB], following [next]. *)
Definition DBchain := list (list Z).

(** [DBW]: [w_data] is the memory from the [data] pointer to the end of its
    buffer. *)
Record DBW := mkDBW {
  w_dbp : DBchain;
  w_data : list Z;
  w_left : Z;
  w_length : Z
}.
