(* ===== verification/NMatch.v ===== *)
(** Name matching (co/nmatch.c): [nmatch] translates an SQL pattern to an
    [fnmatch] pattern and matches with it. *)

From Stdlib Require Import String.
From S2P Require Import Prelude CLib.

Definition NM_NOESCAPE : Z := 1.
Definition NM_CASEFOLD : Z := 2.
Definition NM_SQL : Z := 4.

Definition NM_MATCH : Z := 0.
Definition NM_NOMATCH : Z := 1.

(** The loop that rewrites '%' and '_' outside escapes. *)
Fixpoint sql_pattern (noescape esc : bool) (p : list Z) : list Z :=
  match p with
  | [] => []
  | c :: p =>
      if (c =? 92) && negb noescape && negb esc then c :: sql_pattern noescape true p
      else if negb esc then
        (if c =? 37 then 42 else if c =? 95 then 63 else c) :: sql_pattern noescape esc p
      else c :: sql_pattern noescape false p
  end.

Section NMatch.
(** Whether [strdup] can allocate its copy. *)
Context (strdup_ok : list Z -> bool).

(** [nmatch]; [None] is a NULL pointer. *)
Definition nmatch (pattern name : option (list Z)) (flags : Z) : Z :=
  match name, pattern with
  | Some name, Some pattern =>
      let noesc := negb (Z.land flags NM_NOESCAPE =? 0) in
      let sql := negb (Z.land flags NM_SQL =? 0) in
      let fflags := Z.lor (if noesc then FNM_NOESCAPE else 0)
                          (if negb (Z.land flags NM_CASEFOLD =? 0) then FNM_CASEFOLD else 0) in
      if sql && negb (strdup_ok pattern) then NM_NOMATCH
      else
        let r := fnmatch (if sql then sql_pattern noesc false pattern else pattern) name fflags in
        if r =? 0 then NM_MATCH else NM_NOMATCH
  | _, _ => NM_NOMATCH
  end.
End NMatch.

(** ** The SQL [LIKE] predicate

    '%' stands for any sequence of characters, '_' for any one character. *)

Inductive like : list Z -> list Z -> Prop :=
| like_nil : like [] []
| like_any_nil p s : like p s -> like (37 :: p) s
| like_any_cons p c s : like (37 :: p) s -> like (37 :: p) (c :: s)
| like_one p c s : like p s -> like (95 :: p) (c :: s)
| like_char p c s : c <> 37 -> c <> 95 -> like p s -> like (c :: p) (c :: s).

(** The characters that [fnmatch] interprets and SQL does not. *)
Definition fn_special (c : Z) : bool := (c =? 42) || (c =? 63) || (c =? 91) || (c =? 92).

Lemma suffixes_any p s :
  (exists s', s' ∈ suffixes s /\ like p s') <-> like (37 :: p) s.
Proof.
  split.
  - induction s as [|c s IH]; simpl; intros (s' & Hin & Hl).
    + apply list_elem_of_singleton in Hin as ->. by constructor.
    + apply elem_of_cons in Hin as [->|Hin]; [by constructor|].
      apply like_any_cons, IH; eauto.
  - intros H. remember (37 :: p) as q eqn:Hq. induction H; simplify_eq.
    + exists s. split; [|done]. destruct s; simpl; left.
    + destruct IHlike as (s' & ? & ?); [done|]. exists s'. split; [by right|done].
Qed.

Lemma fnm_like fuel p s :
  forallb (fun c => negb (fn_special c)) p = true ->
  (length p < fuel)%nat ->
  fnm fuel false false (sql_pattern false false p) s = true <-> like p s.
Proof.
  revert p s; induction fuel as [|fuel IH]; intros p s Hp Hf; [lia|].
  destruct p as [|c p]; simpl in Hp, Hf.
  { simpl. destruct s; split; intros H; try done; [constructor | inversion H]. }
  apply andb_true_iff in Hp as [Hc Hp]. unfold fn_special in Hc. zbool.
  assert (IHp : forall s, fnm fuel false false (sql_pattern false false p) s = true <-> like p s)
    by (intros; apply IH; [done|lia]).
  assert (E92 : (c =? 92) = false) by (by apply Z.eqb_neq).
  simpl sql_pattern. rewrite E92. simpl.
  destruct (c =? 37) eqn:E1; [|destruct (c =? 95) eqn:E2].
  - zbool. subst c. simpl. rewrite <- suffixes_any, existsb_exists.
    setoid_rewrite <- list_elem_of_In. by setoid_rewrite IHp.
  - zbool. subst c. simpl. destruct s as [|d s]; [split; [done|inversion 1; done]|].
    rewrite IHp. split; [by constructor | inversion 1; by simplify_eq].
  - zbool. repeat match goal with
           | H : c <> ?k |- context [c =? ?k] => rewrite (proj2 (Z.eqb_neq c k) H) end. simpl.
    destruct s as [|d s]; [split; [done|inversion 1; simplify_eq; zbool; done]|].
    rewrite andb_true_iff, IHp. split.
    + intros [? ?]. zbool. subst. by constructor.
    + inversion 1; simplify_eq; zbool; try done. split; [apply Z.eqb_refl | done].
Qed.

(** An [nmatch] with [NM_SQL] is the SQL [LIKE] predicate on every pattern
    without a character that only [fnmatch] treats specially. *)
Lemma nmatch_like_iff strdup_ok p s :
  strdup_ok p = true ->
  forallb (fun c => negb (fn_special c)) p = true ->
  nmatch strdup_ok (Some p) (Some s) NM_SQL = NM_MATCH <-> like p s.
Proof.
  intros Hd Hp. rewrite <- (fnm_like (S (length (sql_pattern false false p))) p s Hp).
  - unfold nmatch, fnmatch.
    change (Z.land NM_SQL NM_NOESCAPE =? 0) with true.
    change (Z.land NM_SQL NM_SQL =? 0) with false.
    change (Z.land NM_SQL NM_CASEFOLD =? 0) with true. simpl negb. rewrite Hd.
    cbn [andb negb]. change (Z.testbit (Z.lor 0 0) 1) with false.
    change (Z.testbit (Z.lor 0 0) 4) with false.
    destruct (fnm _ _ _ _ _); split; done.
  - assert (Hl : forall e q, length (sql_pattern false e q) = length q).
    { intros e q. revert e. induction q as [|c q IHq]; intros e; simpl; [done|].
      destruct e; simpl; rewrite ?andb_false_r, ?andb_true_r;
        destruct (c =? 92); simpl; by rewrite IHq. }
    rewrite Hl. lia.
Qed.
