(* ===== verification/Scan.v ===== *)
(** The SQL token scanner (sql/scan.c, sql/scan.h) and the hash function
    behind its keyword table (co/hash.c).

    The string buffer is modelled by what has been written to it: [buffer]
    holds the bytes [buffer[0 .. i-1]] and [buf_size] its capacity, and a
    store past the capacity is the result [SOob].  [xmalloc_ok] tells which
    request sizes the allocator grants. *)

From Stdlib Require Import String.
From S2P Require Import Prelude CLib.

(** ** Tokens *)

Inductive ParamType := PT_INT | PT_CHAR | PT_FLOAT | PT_STRING | PT_PARAM.

Inductive Token :=
| TK_EOL | TK_PARAM | TK_ID | TK_DOT | TK_SEMI | TK_COMMA | TK_ALL
| TK_LPAR | TK_RPAR | TK_EQ | TK_GT | TK_GE | TK_LT | TK_LE | TK_NE
| TK_ORDER | TK_BY | TK_SELECT | TK_FROM | TK_AS | TK_INNER | TK_NATURAL
| TK_JOIN | TK_WHERE | TK_AND | TK_OR | TK_NOT | TK_BETWEEN | TK_LIKE
| TK_INVALID.

#[export] Instance ParamType_eq_dec : EqDecision ParamType.
Proof. solve_decision. Defined.

#[export] Instance Token_eq_dec : EqDecision Token.
Proof. solve_decision. Defined.

(** [token_str], the texts of [sql_token_str]. *)
Definition token_str (t : Token) : list Z :=
  lit match t with
  | TK_EOL => "<eol>" | TK_PARAM => "<" | TK_ID => "<id:" | TK_DOT => "."
  | TK_SEMI => ";" | TK_COMMA => "," | TK_ALL => "*" | TK_LPAR => "("
  | TK_RPAR => ")" | TK_EQ => "=" | TK_GT => ">" | TK_GE => ">="
  | TK_LT => "<" | TK_LE => "<=" | TK_NE => "<>" | TK_ORDER => "ORDER"
  | TK_BY => "BY" | TK_SELECT => "SELECT" | TK_FROM => "FROM" | TK_AS => "AS"
  | TK_INNER => "INNER" | TK_NATURAL => "NATURAL" | TK_JOIN => "JOIN"
  | TK_WHERE => "WHERE" | TK_AND => "AND" | TK_OR => "OR" | TK_NOT => "NOT"
  | TK_BETWEEN => "BETWEEN" | TK_LIKE => "LIKE" | TK_INVALID => "<invalid>"
  end%string.

(** [sql_token_str]: [strncpy] into a buffer of 10 bytes. *)
Definition sql_token_str (t : Token) : list Z := take 10 (token_str t).

(** ** The keyword table *)

(** [hashfc]: 32-bit hash of a data block. *)
Fixpoint hashfc (h : Z) (dp : list Z) : Z :=
  match dp with
  | [] => h
  | c :: dp =>
      let h := ⟦⟦Z.shiftl h 4⟧32 + c⟧32 in
      let g := Z.land h 4026531840 in
      let h := if negb (g =? 0)
               then Z.lxor (Z.lxor h (Z.shiftr g 24)) (Z.lxor g 4294967295)
               else h in
      hashfc h dp
  end.

Definition MAXHASH : Z := 16.

Record HashNode := mkHashNode { hn_word : list Z; hn_length : Z; hn_token : Token }.

Definition keywords : list HashNode := [
  mkHashNode (lit "ORDER") 5 TK_ORDER;
  mkHashNode (lit "BY") 2 TK_BY;
  mkHashNode (lit "SELECT") 6 TK_SELECT;
  mkHashNode (lit "FROM") 4 TK_FROM;
  mkHashNode (lit "AS") 2 TK_AS;
  mkHashNode (lit "INNER") 5 TK_INNER;
  mkHashNode (lit "NATURAL") 7 TK_NATURAL;
  mkHashNode (lit "JOIN") 4 TK_JOIN;
  mkHashNode (lit "WHERE") 5 TK_WHERE;
  mkHashNode (lit "AND") 3 TK_AND;
  mkHashNode (lit "OR") 2 TK_OR;
  mkHashNode (lit "NOT") 3 TK_NOT;
  mkHashNode (lit "BETWEEN") 7 TK_BETWEEN;
  mkHashNode (lit "LIKE") 4 TK_LIKE
].

Definition KW_HASH (s : list Z) : Z := Z.land (hashfc 0 s) (MAXHASH - 1).

(** The static scanner data: [nkeywords] and the chains of [htable]. *)
Record KwTable := mkKwTable { nkeywords : Z; htable : list (list HashNode) }.

Definition kw_empty : KwTable := mkKwTable 0 (replicate (Z.to_nat MAXHASH) []).

(** [add_keyword]: prepend the node to its chain. *)
Definition add_keyword (kt : KwTable) (np : HashNode) : KwTable :=
  let h := KW_HASH (hn_word np) in
  match zget (htable kt) h with
  | Some chain => mkKwTable (nkeywords kt) (<[Z.to_nat h := np :: chain]> (htable kt))
  | None => kt
  end.

(** [sql_init_scan]: fills the table the first time it is called. *)
Definition sql_init_scan (kt : KwTable) : KwTable :=
  if nkeywords kt =? 0 then
    fold_left (fun kt p => let kt := add_keyword kt p in
                           mkKwTable (nkeywords kt + 1) (htable kt)) keywords kt
  else kt.

(** Upper case of a character of a candidate keyword. *)
Definition kw_upper (c : Z) : Z := if islower c then c - 32 else c.

(** [lookup_keyword] *)
Definition lookup_keyword (kt : KwTable) (name : list Z) : Token :=
  let length := zlen name in
  if 8 <=? length then TK_ID
  else
    let buf := map kw_upper name in
    match zget (htable kt) (KW_HASH buf) with
    | Some chain =>
        match List.find (fun np => (hn_length np =? length) && bool_decide (hn_word np = buf)) chain with
        | Some np => hn_token np
        | None => TK_ID
        end
    | None => TK_ID
    end.

(** ** Scanner state *)

Record ScanData := mkScan {
  token : Token;
  ptype : ParamType;
  integer : Z;            (** int64_t *)
  character : Z;          (** char, as a byte *)
  float_num : Z;          (** double, as its bit pattern *)
  par_index : Z;          (** unsigned *)
  string_ : list Z;
  ident : list Z;
  length_ : Z;
  instr : list Z;         (** input after the current character *)
  cch : Z;                (** current character, 0 at the end *)
  buffer : list Z;
  buf_size : Z;
  dyn_buf : bool
}.

Definition set_token (t : Token) (s : ScanData) : ScanData :=
  mkScan t (ptype s) (integer s) (character s) (float_num s) (par_index s)
    (string_ s) (ident s) (length_ s) (instr s) (cch s) (buffer s) (buf_size s) (dyn_buf s).
Definition set_ptype (p : ParamType) (s : ScanData) : ScanData :=
  mkScan (token s) p (integer s) (character s) (float_num s) (par_index s)
    (string_ s) (ident s) (length_ s) (instr s) (cch s) (buffer s) (buf_size s) (dyn_buf s).
Definition set_integer (i : Z) (s : ScanData) : ScanData :=
  mkScan (token s) (ptype s) i (character s) (float_num s) (par_index s)
    (string_ s) (ident s) (length_ s) (instr s) (cch s) (buffer s) (buf_size s) (dyn_buf s).
Definition set_character (c : Z) (s : ScanData) : ScanData :=
  mkScan (token s) (ptype s) (integer s) c (float_num s) (par_index s)
    (string_ s) (ident s) (length_ s) (instr s) (cch s) (buffer s) (buf_size s) (dyn_buf s).
Definition set_float_num (f : Z) (s : ScanData) : ScanData :=
  mkScan (token s) (ptype s) (integer s) (character s) f (par_index s)
    (string_ s) (ident s) (length_ s) (instr s) (cch s) (buffer s) (buf_size s) (dyn_buf s).
Definition set_par_index (p : Z) (s : ScanData) : ScanData :=
  mkScan (token s) (ptype s) (integer s) (character s) (float_num s) p
    (string_ s) (ident s) (length_ s) (instr s) (cch s) (buffer s) (buf_size s) (dyn_buf s).
Definition set_string (str : list Z) (l : Z) (s : ScanData) : ScanData :=
  mkScan (token s) (ptype s) (integer s) (character s) (float_num s) (par_index s)
    str (ident s) l (instr s) (cch s) (buffer s) (buf_size s) (dyn_buf s).
Definition set_ident (str : list Z) (l : Z) (s : ScanData) : ScanData :=
  mkScan (token s) (ptype s) (integer s) (character s) (float_num s) (par_index s)
    (string_ s) str l (instr s) (cch s) (buffer s) (buf_size s) (dyn_buf s).
Definition set_input (c : Z) (i : list Z) (s : ScanData) : ScanData :=
  mkScan (token s) (ptype s) (integer s) (character s) (float_num s) (par_index s)
    (string_ s) (ident s) (length_ s) i c (buffer s) (buf_size s) (dyn_buf s).
Definition set_buffer (b : list Z) (s : ScanData) : ScanData :=
  mkScan (token s) (ptype s) (integer s) (character s) (float_num s) (par_index s)
    (string_ s) (ident s) (length_ s) (instr s) (cch s) b (buf_size s) (dyn_buf s).
Definition set_bufsize (n : Z) (d : bool) (s : ScanData) : ScanData :=
  mkScan (token s) (ptype s) (integer s) (character s) (float_num s) (par_index s)
    (string_ s) (ident s) (length_ s) (instr s) (cch s) (buffer s) n d.

(** A [ScanData] as the parser sets it up, with the given buffer size; the
    other fields are not initialised in the sources. *)
Definition scan_init (bufsize : Z) : ScanData :=
  mkScan TK_EOL PT_INT 0 0 0 0 [] [] 0 [] 0 [] bufsize false.

(** [sql_start_scan], for a non-NULL string. *)
Definition sql_start_scan (s : list Z) (sd : ScanData) : ScanData :=
  match s with
  | [] => set_input 0 [] sd
  | c :: s => set_input c s sd
  end.

(** [nextch] and [peekch] *)
Definition nextch (s : ScanData) : ScanData :=
  if cch s =? 0 then s
  else match instr s with
       | [] => set_input 0 [] s
       | c :: r => set_input c r s
       end.

Definition peekch (s : ScanData) : Z :=
  if cch s =? 0 then cch s else hd 0 (instr s).

(** The control flow of [sql_next_token]: go on, return, or a store outside
    the string buffer. *)
Inductive scan_res := SGo (s : ScanData) | SStop (s : ScanData) | SOob.

Definition sbind (r : scan_res) (f : ScanData -> scan_res) : scan_res :=
  match r with SGo s => f s | _ => r end.

Notation "r >>> f" := (sbind r f) (at level 60, f at level 99, right associativity) : mach_scope.

Section Scanner.

(** Which allocation sizes [xmalloc] and [xrealloc] grant. *)
Context (xmalloc_ok : Z -> bool).
Context (kt : KwTable).

(** [sql_enlarge_buffer]: [None] when the allocator refuses. *)
Definition sql_enlarge_buffer (s : ScanData) : option ScanData :=
  if xmalloc_ok (buf_size s + 64) then Some (set_bufsize (buf_size s + 64) true s) else None.

(** [CHECKBUF], with [i] the number of bytes written. *)
Definition CHECKBUF (req : Z) (s : ScanData) : scan_res :=
  if buf_size s - req - 1 <=? zlen (buffer s) then
    match sql_enlarge_buffer s with
    | Some s => SGo s
    | None => SStop (set_token TK_EOL s)
    end
  else SGo s.

(** [buffer [i++] = c] *)
Definition put (c : Z) (s : ScanData) : scan_res :=
  if zlen (buffer s) <? buf_size s then SGo (set_buffer (buffer s ++ [c]) s) else SOob.

(** [buffer [i] = '\0'] *)
Definition put_nul (s : ScanData) : scan_res :=
  if zlen (buffer s) <? buf_size s then SGo s else SOob.

(** Skip whitespace characters. *)
Fixpoint skip_ws (rest : list Z) (s : ScanData) : ScanData :=
  if isspace (cch s) then
    match rest with
    | [] => nextch s
    | _ :: rest' => skip_ws rest' (nextch s)
    end
  else s.

(** Body of the [do] loop over the digits of an integer. *)
Definition int_digit (hex : bool) (s : ScanData) : scan_res :=
  if hex then
    let n := if isdigit (cch s) then cch s - 48
             else if (97 <=? schar (cch s)) && (schar (cch s) <=? 102) then cch s - 97 + 10
             else ⟦schar (cch s) - 65 + 10⟧32 in
    SGo (set_integer ⟪Z.lor ⟪Z.shiftl (integer s) 4⟫64 n⟫64 s)
  else
    CHECKBUF 2 s >>> fun s =>
    put (cch s) s >>> fun s =>
    SGo (set_integer ⟪⟪integer s * 10⟫64 + (schar (cch s) - 48)⟫64 s).

Fixpoint int_loop (hex : bool) (rest : list Z) (s : ScanData) : scan_res :=
  int_digit hex s >>> fun s =>
  let s := nextch s in
  if (negb hex && isdigit (cch s)) || (hex && isxdigit (cch s)) then
    match rest with
    | [] => SGo s
    | _ :: rest' => int_loop hex rest' s
    end
  else SGo s.

(** [while (test (cch)) { CHECKBUF (2); buffer [i++] = cch; nextch }] *)
Fixpoint put_while (test : Z -> bool) (rest : list Z) (s : ScanData) : scan_res :=
  if test (cch s) then
    CHECKBUF 2 s >>> fun s =>
    put (cch s) s >>> fun s =>
    match rest with
    | [] => SGo (nextch s)
    | _ :: rest' => put_while test rest' (nextch s)
    end
  else SGo s.

(** The fraction and the exponent of a number; the flag is [is_float]. *)
Definition scan_fraction (s : ScanData) (k : bool -> ScanData -> scan_res) : scan_res :=
  if cch s =? 46 then
    put 46 s >>> fun s =>
    let s := nextch s in
    put_while isdigit (instr s) s >>> fun s =>
    (if bool_decide (zget (buffer s) (zlen (buffer s) - 1) = Some 46) then put 48 s else SGo s) >>> fun s =>
    k true s
  else k false s.

Definition scan_exponent (is_float : bool) (s : ScanData) (k : bool -> ScanData -> scan_res)
  : scan_res :=
  if (zlen (buffer s) <? buf_size s - 4) && ((cch s =? 101) || (cch s =? 69)) then
    put 101 s >>> fun s =>
    let s := nextch s in
    (if (cch s =? 43) || (cch s =? 45)
     then put (cch s) s >>> fun s => SGo (nextch s) else SGo s) >>> fun s =>
    put_while isdigit (instr s) s >>> fun s =>
    k true s
  else k is_float s.

Definition scan_float (negate : bool) (s : ScanData) : scan_res :=
  put_nul s >>> fun s =>
  match sscanf_lf (buffer s) with
  | None => SGo (set_token TK_INVALID s)
  | Some f => SGo (set_ptype PT_FLOAT (set_float_num (if negate then d_neg f else f) s))
  end.

(** The number branch of [sql_next_token] after its integer part ... *)
Definition scan_number_rest (hex negate param : bool) (s : ScanData) : scan_res :=
  (if negb hex && negb param then
     scan_fraction s (fun is_float s =>
     scan_exponent is_float s (fun is_float s =>
     if is_float then scan_float negate s else SGo s))
   else SGo s) >>> fun s =>
  if negate && bool_decide (ptype s = PT_INT) then SGo (set_integer ⟪- integer s⟫64 s)
  else if param then
    if integer s <? 100
    then SGo (set_ptype PT_PARAM (set_par_index ⟦integer s⟧32 s))
    else SGo (set_token TK_INVALID s)
  else SGo s.

(** ... and after its prefix. *)
Definition scan_number_tail (hex negate param : bool) (s : ScanData) : scan_res :=
  let s := set_buffer [] (set_integer 0 s) in
  (if negb (cch s =? 46) then int_loop hex (instr s) s else put 48 s) >>> fun s =>
  CHECKBUF 8 (set_ptype PT_INT (set_token TK_PARAM s)) >>>
  scan_number_rest hex negate param.

Definition scan_number (nch : Z) (s : ScanData) : scan_res :=
  if cch s =? 45 then
    let s := nextch s in
    let nch := peekch s in
    if (negb (isdigit (cch s)) && negb (cch s =? 46))
       || ((cch s =? 46) && negb (isdigit nch))
    then SStop (set_token TK_INVALID s)
    else scan_number_tail false true false s
  else if (cch s =? 48) && ((nch =? 120) || (nch =? 88)) then
    scan_number_tail true false false (nextch (nextch s))
  else if cch s =? 37 then
    scan_number_tail false false true (nextch s)
  else scan_number_tail false false false s.

(** Identifier or keyword. *)
Definition is_id_char (c : Z) : bool := isalnum c || (c =? 95).

Definition scan_word (s : ScanData) : scan_res :=
  let s := set_buffer [] s in
  CHECKBUF 2 s >>> fun s =>
  put (cch s) s >>> fun s =>
  let s := nextch s in
  put_while is_id_char (instr s) s >>> fun s =>
  put_nul s >>> fun s =>
  let t := lookup_keyword kt (buffer s) in
  let s := set_token t s in
  SGo (if decide (t = TK_ID) then set_ident (buffer s) (zlen (buffer s)) s else s).

(** Character or string literal. *)
Definition scan_string (s : ScanData) : scan_res :=
  let s := set_buffer [] (nextch s) in
  put_while (fun c => negb (c =? 0) && negb (c =? 39)) (instr s) s >>> fun s =>
  if cch s =? 39 then
    let s := set_token TK_PARAM s in
    (if zlen (buffer s) =? 1 then
       SGo (set_character (hd 0 (buffer s)) (set_ptype PT_CHAR s))
     else
       put_nul (set_ptype PT_STRING s) >>> fun s =>
       SGo (set_string (buffer s) (zlen (buffer s)) s)) >>> fun s =>
    SGo (nextch s)
  else SGo (set_token TK_EOL s).

(** Operators and punctuation. *)
Definition scan_punct (s : ScanData) : ScanData :=
  let c := cch s in
  if c =? 46 then set_token TK_DOT (nextch s)
  else if c =? 59 then set_token TK_SEMI (nextch s)
  else if c =? 44 then set_token TK_COMMA (nextch s)
  else if c =? 42 then set_token TK_ALL (nextch s)
  else if c =? 40 then set_token TK_LPAR (nextch s)
  else if c =? 41 then set_token TK_RPAR (nextch s)
  else if c =? 61 then set_token TK_EQ (nextch s)
  else if c =? 62 then
    let s := nextch s in
    if cch s =? 61 then nextch (set_token TK_GE s) else set_token TK_GT s
  else if c =? 60 then
    let s := nextch s in
    if cch s =? 62 then nextch (set_token TK_NE s)
    else if cch s =? 61 then nextch (set_token TK_LE s)
    else set_token TK_LT s
  else nextch (set_token TK_INVALID s).

(** [sql_next_token] after the whitespace ... *)
Definition token_at (s : ScanData) : scan_res :=
  let nch := peekch s in
  if cch s =? 0 then SGo (set_token TK_EOL s)
  else if (cch s =? 45) || ((cch s =? 37) && isdigit nch) || isdigit (cch s)
          || ((cch s =? 46) && isdigit nch)
  then scan_number nch s
  else if isalpha (cch s) || (cch s =? 95) then scan_word s
  else if (cch s =? 96) || (cch s =? 39) then scan_string s
  else SGo (scan_punct s).

(** ... and from the start, with its early returns. *)
Definition next_token_res (s : ScanData) : scan_res := token_at (skip_ws (instr s) s).

(** [sql_next_token]; [None] is a store outside the string buffer. *)
Definition sql_next_token (s : ScanData) : option ScanData :=
  match next_token_res s with
  | SGo s | SStop s => Some s
  | SOob => None
  end.

End Scanner.
