(* ===== verification/ScanProps.v ===== *)
(** Properties of the SQL scanner: it never writes outside its string
    buffer, keeps its state well formed, makes progress on every token, and
    recognises keywords, identifiers, integers and strings. *)

From Stdlib Require Import String.
From S2P Require Import Prelude CLib Scan.

(** ** Well-formed scanner states *)

(** A character of a C string. *)
Definition nz_byte (c : Z) : Prop := 0 < c < 256.

#[export] Instance nz_byte_dec c : Decision (nz_byte c).
Proof. unfold nz_byte. apply _. Defined.

Record scan_ok (s : ScanData) : Prop := mkScanOk {
  ok_instr : Forall nz_byte (instr s);
  ok_cch : byte_ok (cch s);
  ok_end : cch s = 0 -> instr s = [];
  ok_string : Forall nz_byte (string_ s);
  ok_ident : Forall nz_byte (ident s);
  ok_integer : in_s 64 (integer s);
  ok_size : 16 <= buf_size s
}.

(** [k] more bytes and a NUL fit in the buffer. *)
Record room (k : Z) (s : ScanData) : Prop := mkRoom {
  rm_ok : scan_ok s;
  rm_buffer : Forall nz_byte (buffer s);
  rm_room : zlen (buffer s) + k < buf_size s
}.

(** What a piece of the scanner guarantees: [Q] where it goes on, a well
    formed state where it returns, and no store outside the buffer. *)
Definition safe (r : scan_res) (Q : ScanData -> Prop) : Prop :=
  match r with SGo s => Q s | SStop s => scan_ok s | SOob => False end.

Lemma safe_bind r f (Q R : ScanData -> Prop) :
  safe r Q -> (forall s, Q s -> safe (f s) R) -> safe (r >>> f) R.
Proof. destruct r; simpl; auto. Qed.

Lemma safe_mono r (Q R : ScanData -> Prop) : safe r Q -> (forall s, Q s -> R s) -> safe r R.
Proof. destruct r; simpl; auto. Qed.

Lemma room_mono k k' s : room k s -> k' <= k -> room k' s.
Proof. intros [] ?. constructor; [done|done|lia]. Qed.

(** State changes that keep the input and the buffer. *)
Ltac keep := match goal with
  | H : scan_ok _ |- scan_ok _ => destruct H; constructor; done
  | H : room _ _ |- room _ _ => destruct H as [[] ? ?]; constructor; [constructor; done | done | done]
  end.

Lemma nextch_ok s : scan_ok s -> scan_ok (nextch s).
Proof.
  intros [H1 H2 H3 H4 H5 H6 H7]. unfold nextch. destruct (cch s =? 0) eqn:E; [by constructor|].
  destruct (instr s) as [|c r] eqn:Er; [by constructor|].
  inversion H1; subst. constructor; try done; unfold nz_byte, byte_ok in *; simpl; lia.
Qed.

Lemma nextch_room k s : room k s -> room k (nextch s).
Proof.
  intros [H1 H2 H3]. constructor; [by apply nextch_ok| |];
    unfold nextch; destruct (cch s =? 0); [done| |done|]; by destruct (instr s).
Qed.

Lemma cch_nz s : scan_ok s -> cch s <> 0 -> nz_byte (cch s).
Proof. intros [] ?. unfold nz_byte, byte_ok in *. lia. Qed.

Create HintDb scan.
#[export] Hint Resolve nextch_ok nextch_room : scan.

Section Safety.
Context (xmalloc_ok : Z -> bool).

Lemma CHECKBUF_safe req s :
  room 0 s -> 0 <= req <= 8 -> safe (CHECKBUF xmalloc_ok req s) (room (req + 1)).
Proof.
  intros [[] H2 H3] Hreq. unfold CHECKBUF, sql_enlarge_buffer.
  destruct (_ <=? _) eqn:E; zbool.
  - destruct (xmalloc_ok _); simpl; [|by constructor].
    constructor; [constructor; simpl; try done; lia|done|simpl; lia].
  - simpl. constructor; [by constructor|done|lia].
Qed.

Lemma put_safe k c s : room k s -> 0 < k -> nz_byte c -> safe (put c s) (room (k - 1)).
Proof.
  intros [[] H2 H3] Hk Hc. unfold put. destruct (_ <? _) eqn:E; zbool; simpl; [|lia].
  constructor; [by constructor| |].
  - simpl. apply Forall_app. auto.
  - simpl. rewrite zlen_app, zlen_cons, zlen_nil. lia.
Qed.

(** A conditional store of the current character. *)
Lemma put_cch_safe s :
  room 0 s -> cch s <> 0 ->
  safe (CHECKBUF xmalloc_ok 2 s >>> fun s => put (cch s) s) (room 2).
Proof.
  intros Hs Hc.
  assert (Hk : safe (CHECKBUF xmalloc_ok 2 s) (fun s' => room 3 s' /\ cch s' <> 0)).
  { pose proof (CHECKBUF_safe 2 s Hs ltac:(lia)) as H. unfold CHECKBUF, sql_enlarge_buffer in *.
    destruct (_ <=? _); [destruct (xmalloc_ok _)|]; simpl in *; auto. }
  eapply safe_bind; [exact Hk|]. intros s' [H' Hc'].
  apply (put_safe 3); [done|lia|]. by apply cch_nz; [apply H'|].
Qed.

Lemma sbind_assoc r f g : ((r >>> f) >>> g) = (r >>> fun s => f s >>> g).
Proof. by destruct r. Qed.

Lemma put_while_safe test k rest s :
  test 0 = false -> 0 <= k <= 2 -> room k s ->
  safe (put_while xmalloc_ok test rest s) (room k).
Proof.
  intros Ht Hk. revert s. induction rest as [|c rest IH]; intros s Hs; simpl;
    (destruct (test (cch s)) eqn:E; [|done]);
    assert (Hc : cch s <> 0) by (intros E0; rewrite E0 in E; congruence);
    rewrite <- sbind_assoc; eapply safe_bind;
    [ apply put_cch_safe; [eapply room_mono; [done|lia]|done]
    | intros s' Hs'; simpl; apply nextch_room; eapply room_mono; [done|lia]
    | apply put_cch_safe; [eapply room_mono; [done|lia]|done]
    | intros s' Hs'; simpl; apply IH, nextch_room; eapply room_mono; [done|lia] ].
Qed.

Lemma set_integer_room k i s : room k s -> in_s 64 i -> room k (set_integer i s).
Proof. intros [[] ? ?] ?. constructor; [by constructor|done|done]. Qed.

Lemma swrap64_ok z : in_s 64 ⟪z⟫64.
Proof. apply (swrap_range 64). lia. Qed.

Lemma int_digit_safe hex s :
  room 0 s -> (hex = false -> cch s <> 0) -> safe (int_digit xmalloc_ok hex s) (room 0).
Proof.
  intros Hs Hc. destruct hex; cbn [int_digit].
  - apply set_integer_room; [done | apply swrap64_ok].
  - rewrite <- sbind_assoc. eapply safe_bind; [apply put_cch_safe; auto|].
    intros s' Hs'. apply set_integer_room; [|apply swrap64_ok].
    eapply room_mono; [done|lia].
Qed.

Lemma int_loop_safe hex rest s :
  room 0 s -> (hex = false -> cch s <> 0) -> safe (int_loop xmalloc_ok hex rest s) (room 0).
Proof.
  revert s. induction rest as [|c rest IH]; intros s Hs Hc; cbn [int_loop];
    (eapply safe_bind; [by apply int_digit_safe|]); intros s' Hs'; simpl;
    destruct (_ || _) eqn:E; try (by apply nextch_room).
  apply IH; [by apply nextch_room|]. intros -> H0. rewrite H0 in E. done.
Qed.

Lemma set_buffer_nil_room s : scan_ok s -> room 15 (set_buffer [] s).
Proof. intros []. constructor; [by constructor|constructor|]. unfold zlen. simpl. lia. Qed.

Lemma set_token_ok t s : scan_ok s -> scan_ok (set_token t s).
Proof. intros []. by constructor. Qed.

Lemma set_token_room k t s : room k s -> room k (set_token t s).
Proof. intros [[] ? ?]. constructor; [by constructor|done|done]. Qed.

Lemma set_ptype_room k t s : room k s -> room k (set_ptype t s).
Proof. intros [[] ? ?]. constructor; [by constructor|done|done]. Qed.

Lemma scan_fraction_safe s k :
  room 9 s -> (forall b s, room 0 s -> safe (k b s) scan_ok) ->
  safe (scan_fraction xmalloc_ok s k) scan_ok.
Proof.
  intros Hs Hk. unfold scan_fraction. destruct (cch s =? 46) eqn:E.
  - eapply safe_bind; [by apply (put_safe 9)|]. intros s1 H1. simpl.
    eapply safe_bind.
    { apply (put_while_safe _ 2); [done|lia|]. apply nextch_room. by eapply room_mono; [done|lia]. }
    intros s2 H2. eapply (safe_bind _ _ (room 0)); [|auto].
    case_bool_decide; [|by eapply room_mono; [done|lia]].
    eapply safe_mono; [by apply (put_safe 2)|]. intros. by eapply room_mono; [done|lia].
  - apply Hk. by eapply room_mono; [done|lia].
Qed.

Lemma scan_exponent_safe b s k :
  room 0 s -> (forall b s, room 0 s -> safe (k b s) scan_ok) ->
  safe (scan_exponent xmalloc_ok b s k) scan_ok.
Proof.
  intros Hs Hk. unfold scan_exponent. destruct (_ && _) eqn:E; [|by apply Hk].
  apply andb_true_iff in E as [E _]. zbool.
  assert (H4 : room 4 s) by (destruct Hs; constructor; [done|done|lia]).
  eapply safe_bind; [by apply (put_safe 4)|]. intros s1 H1. simpl.
  eapply (safe_bind _ _ (room 2)).
  - apply nextch_room in H1. destruct (_ || _) eqn:E2; [|by eapply room_mono; [done|lia]].
    eapply safe_bind; [apply (put_safe 3); [done|lia|]|].
    + apply cch_nz; [apply H1|]. intros H0. by rewrite H0 in E2.
    + intros s2 H2. by apply nextch_room.
  - intros s2 H2. eapply safe_bind; [apply (put_while_safe _ 2); [done|lia|done]|].
    intros s3 H3. apply Hk. by eapply room_mono; [done|lia].
Qed.

Lemma scan_float_safe negate s : room 0 s -> safe (scan_float negate s) scan_ok.
Proof.
  intros Hs. unfold scan_float, put_nul. destruct (_ <? _) eqn:E.
  - simpl. destruct Hs as [[] ? ?]. destruct (sscanf_lf _); by constructor.
  - zbool. destruct Hs. lia.
Qed.

Lemma scan_number_tail_safe hex negate param s :
  scan_ok s -> (hex = false -> cch s <> 0) ->
  safe (scan_number_tail xmalloc_ok hex negate param s) scan_ok.
Proof.
  intros Hs Hc. unfold scan_number_tail.
  assert (H0 : room 15 (set_buffer [] (set_integer 0 s))).
  { apply set_buffer_nil_room. destruct Hs. by constructor. }
  eapply (safe_bind _ _ (room 0)).
  { destruct (negb _) eqn:E.
    - apply int_loop_safe; [by eapply room_mono; [done|lia]|done].
    - eapply safe_mono; [by apply (put_safe 15)|]. intros. by eapply room_mono; [done|lia]. }
  intros s1 H1. eapply safe_bind.
  { apply CHECKBUF_safe; [|lia]. by apply set_ptype_room, set_token_room. }
  intros s2 H2. unfold scan_number_rest. eapply (safe_bind _ _ scan_ok).
  { destruct (_ && _); [|by apply H2]. apply scan_fraction_safe; [done|].
    intros b s3 H3. apply scan_exponent_safe; [done|]. intros b' s4 H4.
    destruct b'; [by apply scan_float_safe | apply H4]. }
  intros s3 [? ? ? ? ? ? ?]. destruct (_ && _).
  { constructor; try done. apply swrap64_ok. }
  destruct param; [|by constructor]. destruct (_ <? _); by constructor.
Qed.

Lemma scan_number_safe nch s :
  scan_ok s -> cch s <> 0 -> (cch s = 37 -> isdigit (cch (nextch s)) = true) ->
  safe (scan_number xmalloc_ok nch s) scan_ok.
Proof.
  intros Hs Hc Hp. unfold scan_number. destruct (cch s =? 45) eqn:E1.
  - destruct (_ || _) eqn:E2; [by apply set_token_ok, nextch_ok|].
    apply scan_number_tail_safe; [by apply nextch_ok|]. intros _ H0.
    rewrite H0 in E2. done.
  - destruct (_ && _); [apply scan_number_tail_safe; [by do 2 apply nextch_ok|done]|].
    destruct (cch s =? 37) eqn:E3; [|by apply scan_number_tail_safe].
    zbool. apply scan_number_tail_safe; [by apply nextch_ok|]. intros _ H0.
    specialize (Hp E3). by rewrite H0 in Hp.
Qed.

Lemma skip_ws_ok rest s : scan_ok s -> scan_ok (skip_ws rest s).
Proof.
  revert s; induction rest as [|c rest IH]; intros s Hs; simpl;
    (destruct (isspace _); [|done]); auto with scan.
Qed.

Lemma put_nul_safe s : room 0 s -> safe (put_nul s) (room 0).
Proof. intros Hs. unfold put_nul. destruct (_ <? _) eqn:E; [done|]. zbool. destruct Hs. lia. Qed.

Lemma scan_word_safe kt s : scan_ok s -> cch s <> 0 -> safe (scan_word xmalloc_ok kt s) scan_ok.
Proof.
  intros Hs Hc. unfold scan_word. rewrite <- sbind_assoc.
  eapply safe_bind.
  { apply put_cch_safe; [|done]. eapply room_mono; [by apply set_buffer_nil_room|lia]. }
  intros s1 H1. eapply safe_bind.
  { apply (put_while_safe _ 2); [done|lia|]. by apply nextch_room. }
  intros s2 H2. eapply safe_bind.
  { apply put_nul_safe. eapply room_mono; [done|lia]. }
  intros s3 [[] ? ?]. simpl. case_decide; by constructor.
Qed.

Lemma scan_string_safe s : scan_ok s -> safe (scan_string xmalloc_ok s) scan_ok.
Proof.
  intros Hs. unfold scan_string. eapply safe_bind.
  { apply (put_while_safe _ 0); [done|lia|].
    eapply room_mono; [by apply set_buffer_nil_room, nextch_ok|lia]. }
  intros s1 H1. destruct (cch s1 =? 39) eqn:E; [|by apply set_token_ok, H1].
  eapply (safe_bind _ _ scan_ok); [|intros s2 H2; by apply nextch_ok].
  destruct (_ =? 1).
  - destruct H1 as [[] ? ?]. by constructor.
  - eapply safe_bind; [by apply put_nul_safe, set_ptype_room, set_token_room|].
    intros s2 [[] ? ?]. by constructor.
Qed.

Lemma scan_punct_ok s : scan_ok s -> scan_ok (scan_punct s).
Proof.
  intros Hs. unfold scan_punct.
  repeat match goal with |- context [if ?b then _ else _] => destruct b end;
    repeat first [done | apply set_token_ok | apply nextch_ok].
Qed.

Lemma isdigit_nz c : isdigit c = true -> c <> 0.
Proof. by intros H ->. Qed.

(** The next token is scanned without a store outside the buffer, from any
    well-formed state and whatever the allocator does. *)
Lemma next_token_safe kt s : scan_ok s -> safe (next_token_res xmalloc_ok kt s) scan_ok.
Proof.
  intros Hs. unfold next_token_res, token_at. apply (skip_ws_ok (instr s)) in Hs.
  set (s0 := skip_ws (instr s) s) in *. destruct (cch s0 =? 0) eqn:E0; [by apply set_token_ok|].
  zbool. case_if E1.
  { apply scan_number_safe; [done|done|]. intros E. rewrite E in E1. simpl in E1.
    unfold peekch in E1. unfold nextch. rewrite E in *. simpl in *.
    destruct (instr s0); [done|]. simpl in *. by rewrite !orb_false_r in E1. }
  case_if E2; [by apply scan_word_safe|].
  case_if E3; [by apply scan_string_safe|]. by apply scan_punct_ok.
Qed.

Lemma sql_next_token_ok kt s :
  scan_ok s -> exists s', sql_next_token xmalloc_ok kt s = Some s' /\ scan_ok s'.
Proof.
  intros Hs%(next_token_safe kt). unfold sql_next_token.
  destruct (next_token_res _ _ _); simpl in Hs; eauto. done.
Qed.

End Safety.

Lemma start_scan_ok str n :
  16 <= n -> Forall nz_byte str -> scan_ok (sql_start_scan str (scan_init n)).
Proof.
  intros Hn Hs. destruct Hs as [|c str Hc Hs]; constructor; simpl; try done;
    unfold byte_ok, nz_byte, in_s in *; simpl; lia.
Qed.

(** ** Progress *)

(** The characters not yet consumed. *)
Definition inlen (s : ScanData) : Z := zlen (instr s) + (if cch s =? 0 then 0 else 1).

(** At most [n] characters are left, or the end was reported. *)
Definition upto (n : Z) (r : scan_res) : Prop :=
  match r with
  | SGo s => inlen s <= n
  | SStop s => token s = TK_EOL \/ inlen s <= n
  | SOob => True
  end.

Lemma inlen_nonneg s : 0 <= inlen s.
Proof. unfold inlen. pose proof (zlen_nonneg (instr s)). destruct (_ =? _); lia. Qed.

Lemma upto_bind n r f :
  upto n r -> (forall s, inlen s <= n -> upto n (f s)) -> upto n (r >>> f).
Proof. destruct r; simpl; auto. Qed.

Lemma nextch_le s : inlen (nextch s) <= inlen s.
Proof.
  unfold inlen, nextch. destruct (cch s =? 0) eqn:E; [by rewrite E|].
  destruct (instr s) as [|c r]; simpl; [lia|]. rewrite zlen_cons. destruct (c =? 0); lia.
Qed.

Lemma nextch_lt s : cch s <> 0 -> inlen (nextch s) < inlen s.
Proof.
  intros Hc. unfold inlen, nextch. destruct (cch s =? 0) eqn:E; zbool; [done|].
  destruct (instr s) as [|c r]; simpl; [lia|]. rewrite zlen_cons. destruct (c =? 0); lia.
Qed.

Section Progress.
Context (xmalloc_ok : Z -> bool) (n : Z).
Abbreviation CHECKBUF := (CHECKBUF xmalloc_ok).

Lemma CHECKBUF_upto req s : inlen s <= n -> upto n (CHECKBUF req s).
Proof.
  intros. unfold Scan.CHECKBUF, sql_enlarge_buffer.
  destruct (_ <=? _); [destruct (xmalloc_ok _)|]; simpl; auto.
Qed.

Lemma put_upto c s : inlen s <= n -> upto n (put c s).
Proof. intros. unfold put. by destruct (_ <? _). Qed.

Lemma put_nul_upto s : inlen s <= n -> upto n (put_nul s).
Proof. intros. unfold put_nul. by destruct (_ <? _). Qed.

Lemma put_while_upto test rest s : inlen s <= n -> upto n (put_while xmalloc_ok test rest s).
Proof.
  revert s; induction rest as [|c rest IH]; intros s Hs; simpl; (destruct (test _); [|done]);
    (apply upto_bind; [by apply CHECKBUF_upto|]); intros s1 H1;
    (apply upto_bind; [by apply put_upto|]); intros s2 H2; simpl;
    pose proof (nextch_le s2); [lia | apply IH; lia].
Qed.

Lemma scan_float_upto negate s : inlen s <= n -> upto n (scan_float negate s).
Proof.
  intros. apply upto_bind; [by apply put_nul_upto|]. intros s' Hs'. by destruct (sscanf_lf _).
Qed.

Lemma scan_exponent_upto b s k :
  inlen s <= n -> (forall b s, inlen s <= n -> upto n (k b s)) ->
  upto n (scan_exponent xmalloc_ok b s k).
Proof.
  intros Hs Hk. unfold scan_exponent. case_if E; [|by apply Hk].
  apply upto_bind; [by apply put_upto|]. intros s1 H1. pose proof (nextch_le s1).
  apply upto_bind.
  - case_if E2; [|simpl; lia]. apply upto_bind; [apply put_upto; lia|].
    intros s2 H2. pose proof (nextch_le s2). simpl. lia.
  - intros s2 H2. apply upto_bind; [by apply put_while_upto|]. auto.
Qed.

(** A fraction consumes its point. *)
Lemma scan_fraction_upto s k :
  (if cch s =? 46 then inlen s <= n + 1 else inlen s <= n) ->
  (forall b s, inlen s <= n -> upto n (k b s)) -> upto n (scan_fraction xmalloc_ok s k).
Proof.
  intros Hs Hk. unfold scan_fraction. destruct (cch s =? 46) eqn:E; [|by apply Hk].
  unfold put at 1. destruct (_ <? _); [simpl|done].
  set (s1 := set_buffer _ s).
  assert (H1 : inlen (nextch s1) <= n).
  { assert (Hc : cch s1 <> 0) by (zbool; simpl; lia). pose proof (nextch_lt s1 Hc).
    change (inlen s1) with (inlen s) in *. lia. }
  apply upto_bind; [by apply put_while_upto|]. intros s2 H2.
  apply upto_bind; [case_bool_decide; [by apply put_upto|done]|]. auto.
Qed.

Lemma int_digit_same hex s :
  match int_digit xmalloc_ok hex s with
  | SGo s' => inlen s' = inlen s /\ cch s' = cch s
  | SStop s' => token s' = TK_EOL
  | SOob => True
  end.
Proof.
  destruct hex; [done|]. unfold int_digit, Scan.CHECKBUF, sql_enlarge_buffer, put.
  destruct (_ <=? _); [destruct (xmalloc_ok _)|]; simpl; try done; by destruct (_ <? _).
Qed.

(** The loop over digits consumes the first one. *)
Lemma int_loop_upto hex rest s :
  (if cch s =? 0 then inlen s <= n else inlen s <= n + 1) ->
  upto n (int_loop xmalloc_ok hex rest s).
Proof.
  revert s; induction rest as [|c rest IH]; intros s Hs; cbn [int_loop];
    pose proof (int_digit_same hex s) as Hd;
    (destruct (int_digit _ _ _) as [s'|s'|]; simpl; [|by left|done]);
    destruct Hd as [Hi Hc]; rewrite <- Hi, <- Hc in Hs;
    (assert (Hn : inlen (nextch s') <= n);
      [destruct (cch s' =? 0) eqn:E; zbool;
        [pose proof (nextch_le s'); lia | pose proof (nextch_lt s' E); lia]|]);
    case_if E2; try done.
  apply IH. case_if E3; lia.
Qed.

Lemma scan_number_rest_upto hex negate param s :
  inlen s <= n \/ (cch s = 46 /\ inlen s <= n + 1 /\ hex = false /\ param = false) ->
  upto n (scan_number_rest xmalloc_ok hex negate param s).
Proof.
  intros Hs. apply upto_bind.
  - destruct (negb hex && negb param) eqn:Ehp.
    + apply scan_fraction_upto; [destruct (cch s =? 46) eqn:E; zbool; lia|].
      intros b s2 H2. apply scan_exponent_upto; [done|]. intros [] s3 H3; [|done].
      by apply scan_float_upto.
    + simpl. destruct Hs as [?|(_ & _ & -> & ->)]; done.
  - intros s2 H2. case_if E1; [done|]. destruct param; [|done]. by case_if E2.
Qed.

Lemma scan_number_tail_upto hex negate param s :
  inlen s <= n \/ (cch s <> 0 /\ inlen s <= n + 1 /\ (cch s = 46 -> hex = false /\ param = false)) ->
  upto n (scan_number_tail xmalloc_ok hex negate param s).
Proof.
  intros Hs. unfold scan_number_tail. set (s0 := set_buffer [] (set_integer 0 s)).
  change (inlen s) with (inlen s0) in Hs. change (cch s) with (cch s0) in Hs.
  destruct (cch s0 =? 46) eqn:E46; cbn [negb].
  - unfold put. destruct (_ <? _); [simpl|done].
    unfold Scan.CHECKBUF at 1, sql_enlarge_buffer. zbool.
    destruct (_ <=? _); [destruct (xmalloc_ok _)|]; simpl; [|by left|];
      apply scan_number_rest_upto; (destruct Hs as [?|(_ & ? & Hs)]; [by left|]);
      right; destruct (Hs E46); done.
  - apply upto_bind; [apply int_loop_upto; destruct (cch s0 =? 0) eqn:E0; zbool; lia|].
    intros s1 H1. apply upto_bind; [by apply CHECKBUF_upto|]. intros s2 H2.
    apply scan_number_rest_upto. by left.
Qed.

Lemma scan_number_upto nch s :
  cch s <> 0 -> inlen s <= n + 1 -> (cch s = 37 -> isdigit (cch (nextch s)) = true) ->
  upto n (scan_number xmalloc_ok nch s).
Proof.
  intros Hc Hs Hp. pose proof (nextch_lt s Hc). pose proof (nextch_le (nextch s)).
  unfold scan_number. case_if E1.
  - case_if E2; [right; change (inlen (nextch s) <= n); lia|].
    apply scan_number_tail_upto. left. lia.
  - case_if E2; [apply scan_number_tail_upto; left; lia|].
    case_if E3; apply scan_number_tail_upto; [left; lia|]. right. done.
Qed.

Lemma scan_word_upto kt s :
  cch s <> 0 -> inlen s <= n + 1 -> upto n (scan_word xmalloc_ok kt s).
Proof.
  intros Hc Hs. unfold scan_word. set (s0 := set_buffer [] s).
  assert (Hk : forall s1, inlen s1 <= n -> upto n (put_while xmalloc_ok is_id_char (instr s1) s1 >>> fun s =>
    put_nul s >>> fun s =>
    let t := lookup_keyword kt (buffer s) in
    let s := set_token t s in
    SGo (if decide (t = TK_ID) then set_ident (buffer s) (zlen (buffer s)) s else s))).
  { intros s1 H1. apply upto_bind; [by apply put_while_upto|]. intros s2 H2.
    apply upto_bind; [by apply put_nul_upto|]. intros s3 H3. simpl. by case_decide. }
  unfold Scan.CHECKBUF at 1, sql_enlarge_buffer, put.
  assert (Hlt : forall b m dd, inlen (nextch (set_buffer b (set_bufsize m dd s0))) <= n).
  { intros. pose proof (nextch_lt (set_buffer b (set_bufsize m dd s0)) Hc) as Hl.
    change (inlen (set_buffer _ _)) with (inlen s) in Hl. lia. }
  destruct (_ <=? _); [destruct (xmalloc_ok _)|]; simpl sbind; [|by left|];
    (case_if E; [|done]); simpl sbind; apply Hk.
  - apply Hlt.
  - apply (Hlt _ (buf_size s) (dyn_buf s)).
Qed.

Lemma scan_string_upto s : cch s <> 0 -> inlen s <= n + 1 -> upto n (scan_string xmalloc_ok s).
Proof.
  intros Hc Hs. pose proof (nextch_lt s Hc). unfold scan_string.
  apply upto_bind.
  { apply put_while_upto. change (inlen (nextch s) <= n). lia. }
  intros s1 H1. case_if E; [|done]. apply upto_bind.
  - case_if E1; [done|]. apply upto_bind; [by apply put_nul_upto|]. done.
  - intros s2 H2. simpl. pose proof (nextch_le s2). lia.
Qed.

Lemma scan_punct_upto s : cch s <> 0 -> inlen s <= n + 1 -> inlen (scan_punct s) <= n.
Proof.
  intros Hc Hs. pose proof (nextch_lt s Hc) as H1.
  assert (H2 : forall t, inlen (set_token t (nextch s)) <= n)
    by (intros; change (inlen (nextch s) <= n); lia).
  assert (H3 : forall t, inlen (nextch (set_token t (nextch s))) <= n)
    by (intros t; pose proof (nextch_le (set_token t (nextch s))); specialize (H2 t); lia).
  unfold scan_punct.
  repeat match goal with |- context [if ?b then _ else _] => destruct b end; auto.
  pose proof (nextch_lt (set_token TK_INVALID s) Hc) as H4.
  change (inlen (set_token TK_INVALID s)) with (inlen s) in H4. lia.
Qed.
End Progress.

Lemma skip_ws_le rest s : inlen (skip_ws rest s) <= inlen s.
Proof.
  revert s; induction rest as [|c rest IH]; intros s; simpl; (case_if E; [|done]);
    pose proof (nextch_le s); [done|]. specialize (IH (nextch s)). lia.
Qed.

Lemma next_token_upto xmalloc_ok kt s n :
  inlen s <= n + 1 ->
  match next_token_res xmalloc_ok kt s with
  | SGo s' | SStop s' => token s' = TK_EOL \/ inlen s' <= n
  | SOob => True
  end.
Proof.
  intros Hs. unfold next_token_res, token_at. pose proof (skip_ws_le (instr s) s) as Hle.
  set (s0 := skip_ws (instr s) s) in *.
  assert (Hu : forall r, upto n r -> match r with
    | SGo s' | SStop s' => token s' = TK_EOL \/ inlen s' <= n | SOob => True end)
    by (intros []; simpl; auto).
  case_if E0; [by left|]. zbool. case_if E1.
  { apply Hu, scan_number_upto; [done|lia|]. intros E. rewrite E in E1. simpl in E1.
    unfold peekch in E1. unfold nextch. rewrite E in *. simpl in *.
    destruct (instr s0); [done|]. simpl in *. by rewrite !orb_false_r in E1. }
  case_if E2; [apply Hu, scan_word_upto; [done|lia]|].
  case_if E3; [apply Hu, scan_string_upto; [done|lia]|].
  right. apply scan_punct_upto; [done|lia].
Qed.

(** Every token consumes input, or is the end. *)
Lemma sql_next_token_lt xmalloc_ok kt s s' :
  sql_next_token xmalloc_ok kt s = Some s' -> token s' = TK_EOL \/ inlen s' < inlen s.
Proof.
  pose proof (next_token_upto xmalloc_ok kt s (inlen s - 1) ltac:(lia)) as H.
  unfold sql_next_token. destruct (next_token_res _ _ _); intros; simplify_eq;
    (destruct H; [by left|right; lia]).
Qed.

(** ** Keywords *)

(** The linear search that the hash table stands for. *)
Definition kw_spec (name : list Z) : Token :=
  match List.find (fun np => bool_decide (hn_word np = map kw_upper name)) keywords with
  | Some np => hn_token np
  | None => TK_ID
  end.

(** The table after start-up. *)
Definition kw_table : KwTable := sql_init_scan kw_empty.

#[export] Instance HashNode_eq_dec : EqDecision HashNode.
Proof. solve_decision. Defined.

Lemma kw_table_sound :
  Forall (Forall (fun np => np ∈ keywords)) (htable kw_table).
Proof. apply (bool_decide_unpack _). vm_compute. exact I. Qed.

(** Every keyword is found, in its own chain. *)
Lemma kw_table_complete :
  Forall (fun np => 0 < hn_length np < 8 /\ zlen (hn_word np) = hn_length np /\
    (chain ← zget (htable kw_table) (KW_HASH (hn_word np));
     List.find (fun np' => (hn_length np' =? hn_length np) && bool_decide (hn_word np' = hn_word np)) chain)
    = Some np) keywords.
Proof. apply (bool_decide_unpack _). vm_compute. exact I. Qed.

Lemma zlen_map {A B} (f : A -> B) l : zlen (map f l) = zlen l.
Proof. unfold zlen. by rewrite length_map. Qed.

Lemma lookup_keyword_found np name :
  np ∈ keywords -> hn_word np = map kw_upper name -> lookup_keyword kw_table name = hn_token np.
Proof.
  intros Hin Hw. pose proof kw_table_complete as Hc. rewrite Forall_forall in Hc.
  destruct (Hc np) as (Hl & Hz & Hf); [by apply list_elem_of_In|]. clear Hc. rewrite Hw in Hz, Hf.
  rewrite zlen_map in Hz. unfold lookup_keyword. rewrite Hz.
  destruct (8 <=? hn_length np) eqn:E; zbool; [lia|].
  destruct (zget (htable kw_table) _) as [chain|]; simpl in Hf; [by rewrite Hf|done].
Qed.

Lemma lookup_keyword_not name :
  (forall np, np ∈ keywords -> hn_word np <> map kw_upper name) ->
  lookup_keyword kw_table name = TK_ID.
Proof.
  intros H. unfold lookup_keyword. case_if E; [done|].
  destruct (zget (htable kw_table) _) as [chain|] eqn:Hg; [|done].
  destruct (List.find _ chain) as [np|] eqn:Hf; [|done].
  apply List.find_some in Hf as [Hin Hm]. zbool. case_bool_decide as Hw; [|done].
  destruct (H np); [|done]. pose proof kw_table_sound as Hs. rewrite Forall_lookup in Hs.
  unfold zget in Hg. destruct (_ <? 0); [done|]. specialize (Hs _ _ Hg).
  rewrite Forall_forall in Hs. by apply Hs.
Qed.

Lemma lookup_keyword_linear name : lookup_keyword kw_table name = kw_spec name.
Proof.
  unfold kw_spec. destruct (List.find _ keywords) as [np|] eqn:Hf.
  - apply List.find_some in Hf as [Hin Hm]. case_bool_decide; [|done].
    apply lookup_keyword_found; [by apply list_elem_of_In|done].
  - apply lookup_keyword_not. intros np Hin Hw. apply list_elem_of_In in Hin.
    apply (List.find_none _ _ Hf) in Hin. by case_bool_decide.
Qed.

(** ** The texts of tokens

    With an allocator that always grants its requests, the scanner reads the
    longest identifier, number or quoted text at the start of the input and
    leaves the rest. *)

Section Lexemes.
Context (xmalloc_ok : Z -> bool) (kt : KwTable).
Context (Halloc : forall n, xmalloc_ok n = true).

(** A scanner at the text [l] that has written [b]. *)
Definition at_ (l b : list Z) (n : Z) (dd : bool) (s : ScanData) : ScanData :=
  sql_start_scan l (set_buffer b (set_bufsize n dd s)).

Lemma at_self l s : at_ l (buffer s) (buf_size s) (dyn_buf s) s = sql_start_scan l s.
Proof. by destruct s. Qed.

Lemma at_cch c l b n dd s : cch (at_ (c :: l) b n dd s) = c.
Proof. done. Qed.

Lemma at_nextch c l b n dd s : c <> 0 -> nextch (at_ (c :: l) b n dd s) = at_ l b n dd s.
Proof. intros. unfold nextch. simpl. destruct (c =? 0) eqn:E; zbool; [done|]. by destruct l. Qed.

Lemma at_put c l b n dd s : zlen b < n -> put c (at_ l b n dd s) = SGo (at_ l (b ++ [c]) n dd s).
Proof.
  intros. unfold put. assert (buffer (at_ l b n dd s) = b) as -> by by destruct l.
  assert (buf_size (at_ l b n dd s) = n) as -> by by destruct l.
  destruct (zlen b <? n) eqn:E; zbool; [|lia]. by destruct l.
Qed.

Lemma at_CHECKBUF req l b n dd s :
  0 <= req <= 8 -> zlen b < n ->
  exists n' dd', CHECKBUF xmalloc_ok req (at_ l b n dd s) = SGo (at_ l b n' dd' s)
                 /\ zlen b + req + 1 < n' /\ n <= n'.
Proof.
  intros Hr Hb. unfold CHECKBUF, sql_enlarge_buffer. rewrite Halloc.
  assert (buffer (at_ l b n dd s) = b) as -> by by destruct l.
  assert (buf_size (at_ l b n dd s) = n) as -> by by destruct l.
  destruct (_ <=? _) eqn:E; zbool.
  - exists (n + 64), true. split; [by destruct l|lia].
  - exists n, dd. split; [done|lia].
Qed.

Definition stops (test : Z -> bool) (rest : list Z) : Prop := test (hd 0 rest) = false.

Lemma at_hd l b n dd s : cch (at_ l b n dd s) = hd 0 l.
Proof. by destruct l. Qed.

Lemma put_while_at test w rest b n dd s k :
  Forall (fun c => nz_byte c /\ test c = true) w -> stops test rest ->
  (length (w ++ rest) <= S (length k))%nat -> zlen b < n ->
  exists n' dd', put_while xmalloc_ok test k (at_ (w ++ rest) b n dd s)
                 = SGo (at_ rest (b ++ w) n' dd' s) /\ zlen (b ++ w) < n' /\ n <= n'.
Proof.
  intros Hw Hr. revert w b n dd Hw. induction k as [|x k IH]; intros w b n dd Hw Hl Hb;
    destruct Hw as [|c w [Hc Ht] Hw]; cbn [put_while]; rewrite at_hd; simpl hd; rewrite ?Ht.
  1,3: unfold stops in Hr; simpl app; rewrite Hr; exists n, dd; rewrite app_nil_r; done.
  - destruct w; [|simpl in Hl; lia]. destruct rest; [|simpl in Hl; lia].
    destruct (at_CHECKBUF 2 [c] b n dd s) as (n' & dd' & HC & Hn & Hn'); [lia|done|].
    simpl app. rewrite HC. cbn [sbind]. rewrite at_put by lia. cbn [sbind].
    exists n', dd'. rewrite at_nextch by (unfold nz_byte in Hc; lia).
    split; [done|]. rewrite zlen_app, zlen_cons, zlen_nil. lia.
  - destruct (at_CHECKBUF 2 ((c :: w) ++ rest) b n dd s) as (n1 & dd1 & HC & Hn & Hn'); [lia|done|].
    rewrite HC. cbn [sbind]. rewrite at_put by lia. cbn [sbind app].
    rewrite at_nextch by (unfold nz_byte in Hc; lia).
    destruct (IH w (b ++ [c]) n1 dd1) as (n2 & dd2 & HI & H2 & H3);
      [done|simpl in Hl; lia|rewrite zlen_app, zlen_cons, zlen_nil; lia|].
    rewrite at_cch, HI. exists n2, dd2. rewrite <- app_assoc in H2 |- *. simpl in *.
    split; [done|lia].
Qed.

Lemma skip_ws_at ws l s k :
  Forall (fun c => isspace c = true) ws -> stops isspace l ->
  (length (ws ++ l) <= S (length k))%nat ->
  skip_ws k (sql_start_scan (ws ++ l) s) = sql_start_scan l s.
Proof.
  intros Hw Hl. revert ws Hw; induction k as [|x k IH]; intros ws Hw Hk;
    destruct Hw as [|c ws Hc Hw]; cbn [skip_ws].
  1,3: destruct l as [|c l]; unfold stops in Hl; simpl in *; by rewrite ?Hl.
  - destruct ws; [|simpl in Hk; lia]. destruct l; [|simpl in Hk; lia]. simpl.
    rewrite Hc. unfold nextch. simpl. destruct (c =? 0) eqn:E; [|done]. zbool. by subst.
  - simpl app. change (cch (sql_start_scan (c :: ws ++ l) s)) with c. rewrite Hc.
    rewrite <- (IH ws Hw) by (simpl in Hk; lia). f_equal.
    unfold nextch. simpl. destruct (c =? 0) eqn:E; [zbool; by subst|]. by destruct (ws ++ l).
Qed.

(** The scanner is at the text [l]. *)
Definition at_text (l : list Z) (s : ScanData) : Prop := cch s = hd 0 l /\ instr s = tl l.

Lemma at_at_text l b n dd s : at_text l (at_ l b n dd s).
Proof. by destruct l. Qed.

Lemma next_token_start ws l s :
  Forall (fun c => isspace c = true) ws -> stops isspace l ->
  sql_next_token xmalloc_ok kt (sql_start_scan (ws ++ l) s)
  = match token_at xmalloc_ok kt (sql_start_scan l s) with
    | SGo s | SStop s => Some s
    | SOob => None
    end.
Proof.
  intros Hw Hl. unfold sql_next_token, next_token_res.
  rewrite (skip_ws_at ws l s) by (try done; destruct (ws ++ l); simpl; lia). done.
Qed.

(** Evaluate the character tests of the scanner on a character known by its
    class. *)
Ltac char_tests :=
  repeat match goal with
  | |- context [?c =? ?k] => first
      [ replace (c =? k) with false by (symmetry; apply Z.eqb_neq; lia)
      | replace (c =? k) with true by (symmetry; apply Z.eqb_eq; lia) ]
  end.

Definition id_start (c : Z) : bool := isalpha c || (c =? 95).

Lemma id_start_class c : id_start c = true ->
  (65 <= c <= 90 \/ 97 <= c <= 122 \/ c = 95) /\ isdigit c = false /\ isspace c = false.
Proof.
  unfold id_start, isalpha, isupper, islower, isdigit, isspace. intros H.
  assert (65 <= c <= 90 \/ 97 <= c <= 122 \/ c = 95).
  { apply orb_true_iff in H as [[H|H]%orb_true_iff|H]; zbool; lia. }
  split; [done|]. split; [|apply orb_false_iff; split]; apply not_true_iff_false; intros ?; zbool; lia.
Qed.

Lemma scan_word_text ws c w rest s :
  Forall (fun c => isspace c = true) ws ->
  id_start c = true -> Forall (fun c => nz_byte c /\ is_id_char c = true) w ->
  stops is_id_char rest -> 16 <= buf_size s ->
  exists s', sql_next_token xmalloc_ok kt (sql_start_scan (ws ++ c :: w ++ rest) s) = Some s' /\
    at_text rest s' /\ token s' = lookup_keyword kt (c :: w) /\
    (token s' = TK_ID -> ident s' = c :: w).
Proof.
  intros Hws Hc Hw Hr Hs. destruct (id_start_class c Hc) as (Hcl & Hd & Hsp).
  rewrite next_token_start by done. unfold token_at.
  change (cch (sql_start_scan (c :: w ++ rest) s)) with c. rewrite Hd. unfold id_start in Hc.
  rewrite Hc. char_tests. cbn [orb andb]. unfold scan_word.
  change (set_buffer [] (sql_start_scan (c :: w ++ rest) s))
    with (at_ (c :: w ++ rest) [] (buf_size s) (dyn_buf s) s).
  destruct (at_CHECKBUF 2 (c :: w ++ rest) [] (buf_size s) (dyn_buf s) s) as (n1 & dd1 & -> & Hn1 & _);
    [lia|unfold zlen; simpl; lia|].
  cbn [sbind]. rewrite at_put by lia. cbn [sbind]. rewrite at_nextch by lia.
  destruct (put_while_at is_id_char w rest [c] n1 dd1 s (instr (at_ (w ++ rest) [c] n1 dd1 s)))
    as (n2 & dd2 & HP & Hn2 & _); [done|done|by destruct (w ++ rest); simpl; lia| |].
  { rewrite zlen_cons, zlen_nil. rewrite zlen_nil in Hn1. lia. }
  simpl app in HP |- *. rewrite HP. cbn [sbind]. unfold put_nul.
  assert (buffer (at_ rest (c :: w) n2 dd2 s) = c :: w) as -> by by destruct rest.
  assert (buf_size (at_ rest (c :: w) n2 dd2 s) = n2) as -> by by destruct rest.
  destruct (_ <? n2) eqn:E; zbool; [|simpl app in Hn2; lia]. cbn [sbind].
  assert (Hb : buffer (at_ rest (c :: w) n2 dd2 s) = c :: w) by by destruct rest.
  eexists; split; [reflexivity|]. case_decide as Ht.
  - split; [apply at_at_text|]. split; [by rewrite Hb|]. by intros.
  - split; [apply at_at_text|]. split; [by rewrite Hb|]. by intros.
Qed.

Lemma at_buffer l b n dd s : buffer (at_ l b n dd s) = b.
Proof. by destruct l. Qed.

Lemma at_size l b n dd s : buf_size (at_ l b n dd s) = n.
Proof. by destruct l. Qed.

(** A quoted text; one character is a character constant. *)
Lemma scan_quoted_text ws q body rest s :
  Forall (fun c => isspace c = true) ws -> q = 39 \/ q = 96 ->
  Forall (fun c => nz_byte c /\ negb (c =? 0) && negb (c =? 39) = true) body ->
  16 <= buf_size s ->
  exists s', sql_next_token xmalloc_ok kt (sql_start_scan (ws ++ q :: body ++ 39 :: rest) s) = Some s' /\
    at_text rest s' /\ token s' = TK_PARAM /\
    match body with
    | [c] => ptype s' = PT_CHAR /\ character s' = c
    | _ => ptype s' = PT_STRING /\ string_ s' = body
    end.
Proof.
  intros Hws Hq Hb Hs.
  rewrite next_token_start; [|done|by destruct Hq; subst]. unfold token_at.
  change (cch (sql_start_scan (q :: body ++ 39 :: rest) s)) with q.
  replace (isdigit q) with false by (by destruct Hq; subst).
  replace (isalpha q) with false by (by destruct Hq; subst).
  replace ((q =? 96) || (q =? 39)) with true by (by destruct Hq; subst).
  char_tests. cbn [orb andb]. unfold scan_string.
  rewrite <- at_self, at_nextch by lia.
  assert (set_buffer [] (at_ (body ++ 39 :: rest) (buffer s) (buf_size s) (dyn_buf s) s)
          = at_ (body ++ 39 :: rest) [] (buf_size s) (dyn_buf s) s) as ->
    by by destruct (body ++ 39 :: rest).
  destruct (put_while_at (fun c => negb (c =? 0) && negb (c =? 39)) body (39 :: rest) []
              (buf_size s) (dyn_buf s) s
              (instr (at_ (body ++ 39 :: rest) [] (buf_size s) (dyn_buf s) s)))
    as (n2 & dd2 & HP & Hn2 & _);
    [done|done|by destruct (body ++ 39 :: rest); simpl; lia|unfold zlen; simpl; lia|].
  rewrite HP. cbn [sbind]. simpl app in *. rewrite at_cch. cbn [Z.eqb Pos.eqb].
  set (s1 := set_token TK_PARAM (at_ (39 :: rest) body n2 dd2 s)).
  destruct body as [|c [|c' body]].
  2: { eexists; split; [reflexivity|]. by destruct rest. }
  all: (assert ((zlen (buffer s1) =? 1) = false) as ->;
      [apply Z.eqb_neq; unfold s1; simpl; unfold zlen; simpl; lia|]);
    unfold put_nul; (destruct (_ <? _) eqn:E; [|zbool; simpl in E; lia]);
    cbn [sbind]; eexists; (split; [reflexivity|]); by destruct rest.
Qed.

(** The value of decimal digits. *)
Definition dec_val (acc : Z) (ds : list Z) : Z := fold_left (fun a c => a * 10 + (c - 48)) ds acc.

Lemma dec_val_mono acc ds :
  0 <= acc -> Forall (fun c => isdigit c = true) ds -> acc <= dec_val acc ds.
Proof.
  intros Ha Hd. revert acc Ha; induction Hd as [|c ds Hc Hd IH]; intros acc Ha; [done|].
  change (dec_val acc (c :: ds)) with (dec_val (acc * 10 + (c - 48)) ds).
  unfold isdigit in Hc. zbool. specialize (IH (acc * 10 + (c - 48)) ltac:(lia)). lia.
Qed.

Lemma isdigit_schar c : isdigit c = true -> schar c = c /\ nz_byte c.
Proof.
  unfold isdigit. intros. zbool. split; [|unfold nz_byte; lia].
  apply swrap_small; [lia|]. unfold in_s. simpl. lia.
Qed.

Lemma set_integer_at i l b n dd s : set_integer i (at_ l b n dd s) = at_ l b n dd (set_integer i s).
Proof. by destruct l. Qed.

Lemma int_loop_at c ds rest b n dd s k :
  Forall (fun c => isdigit c = true) (c :: ds) -> stops isdigit rest ->
  (length (ds ++ rest) <= length k)%nat -> zlen b < n ->
  0 <= integer s -> dec_val (integer s) (c :: ds) < 2 ^ 63 ->
  exists n' dd', int_loop xmalloc_ok false k (at_ (c :: ds ++ rest) b n dd s)
    = SGo (at_ rest (b ++ c :: ds) n' dd' (set_integer (dec_val (integer s) (c :: ds)) s))
      /\ zlen (b ++ c :: ds) < n'.
Proof.
  intros Hd Hr. revert c ds b n dd s Hd; induction k as [|x k IH];
    intros c ds b n dd s Hd Hk Hb Hi Hv; inversion Hd as [|? ? Hc Hds]; subst;
    destruct (isdigit_schar c Hc) as [Hsc Hnz];
    destruct (at_CHECKBUF 2 (c :: ds ++ rest) b n dd s) as (n1 & dd1 & HC & Hn1 & _); try lia;
    cbn [int_loop int_digit]; rewrite HC; cbn [sbind]; rewrite at_cch, at_put by lia;
    cbn [sbind]; rewrite at_cch, Hsc;
    (assert (integer (at_ (c :: ds ++ rest) (b ++ [c]) n1 dd1 s) = integer s) as -> by done);
    pose proof (dec_val_mono (integer s * 10 + (c - 48)) ds) as Hm;
    (assert (0 <= integer s * 10 + (c - 48)) by (unfold isdigit in Hc; zbool; lia));
    specialize (Hm ltac:(done) Hds); change (dec_val (integer s) (c :: ds)) with
      (dec_val (integer s * 10 + (c - 48)) ds) in *;
    (rewrite (swrap_small 64 (integer s * 10)) by (unfold in_s; unfold isdigit in Hc; zbool; simpl; lia));
    (rewrite (swrap_small 64) by (unfold in_s; simpl; lia));
    rewrite set_integer_at, at_nextch, at_hd by (unfold nz_byte in Hnz; lia).
  - destruct ds; [|simpl in Hk; lia]. destruct rest; [|simpl in Hk; lia].
    exists n1, dd1. split; [done|]. rewrite zlen_app, zlen_cons, zlen_nil. lia.
  - cbn [negb andb orb]. rewrite orb_false_r. destruct ds as [|c' ds].
    + simpl app. unfold stops in Hr. rewrite Hr. exists n1, dd1. split; [done|].
      rewrite zlen_app, zlen_cons, zlen_nil. lia.
    + inversion Hds as [|? ? Hc' ?]; subst. simpl hd. rewrite Hc'.
      edestruct (IH c' ds (b ++ [c]) n1 dd1 (set_integer (integer s * 10 + (c - 48)) s))
        as (n2 & dd2 & HI & Hn2); [done|simpl in Hk; lia| |done|done|].
      { rewrite zlen_app, zlen_cons, zlen_nil. lia. }
      simpl app at 1. rewrite HI. rewrite <- app_assoc in Hn2 |- *. simpl app in *.
      exists n2, dd2. split; [|done]. f_equal.
Qed.

(** Characters that would continue a number. *)
Definition num_char (c : Z) : bool :=
  isdigit c || (c =? 46) || (c =? 101) || (c =? 69) || (c =? 120) || (c =? 88).

Lemma scan_number_tail_text negate param c ds rest s :
  Forall (fun c => isdigit c = true) (c :: ds) -> stops num_char rest ->
  16 <= buf_size s -> dec_val 0 (c :: ds) < 2 ^ 63 ->
  exists s', scan_number_tail xmalloc_ok false negate param (sql_start_scan (c :: ds ++ rest) s) = SGo s' /\
    at_text rest s' /\
    let v := dec_val 0 (c :: ds) in
    if negate then token s' = TK_PARAM /\ ptype s' = PT_INT /\ integer s' = - v
    else if param then
      if v <? 100 then token s' = TK_PARAM /\ ptype s' = PT_PARAM /\ par_index s' = v
      else token s' = TK_INVALID
    else token s' = TK_PARAM /\ ptype s' = PT_INT /\ integer s' = v.
Proof.
  intros Hd Hr Hs Hv. pose proof (dec_val_mono 0 (c :: ds) ltac:(done) Hd) as Hv0.
  unfold stops, num_char in Hr.
  repeat match type of Hr with (_ || _) = false => apply orb_false_iff in Hr as [Hr ?] end.
  assert (Hcd : 48 <= c <= 57) by (inversion Hd as [|? ? Hc ?]; unfold isdigit in Hc; zbool; lia).
  unfold scan_number_tail.
  change (set_buffer [] (set_integer 0 (sql_start_scan (c :: ds ++ rest) s)))
    with (at_ (c :: ds ++ rest) [] (buf_size s) (dyn_buf s) (set_integer 0 s)).
  rewrite at_cch. replace (c =? 46) with false by (symmetry; apply Z.eqb_neq; lia). cbn [negb].
  change (instr (at_ (c :: ds ++ rest) [] (buf_size s) (dyn_buf s) (set_integer 0 s))) with (ds ++ rest).
  destruct (int_loop_at c ds rest [] (buf_size s) (dyn_buf s) (set_integer 0 s) (ds ++ rest))
    as (n1 & dd1 & HI & Hn1); [done|done|done|unfold zlen; simpl; lia|done|done|].
  rewrite HI. cbn [sbind]. change (integer (set_integer 0 s)) with 0 in *.
  set (v := dec_val 0 (c :: ds)) in *. simpl app in *.
  set (s1 := set_ptype PT_INT (set_token TK_PARAM (set_integer v (set_integer 0 s)))).
  assert (set_ptype PT_INT (set_token TK_PARAM (at_ rest (c :: ds) n1 dd1 (set_integer v (set_integer 0 s))))
          = at_ rest (c :: ds) n1 dd1 s1) as -> by by destruct rest.
  destruct (at_CHECKBUF 8 rest (c :: ds) n1 dd1 s1) as (n2 & dd2 & -> & Hn2 & _); [lia|done|].
  cbn [sbind]. unfold scan_number_rest, scan_fraction, scan_exponent. rewrite at_hd.
  repeat match goal with H : (hd 0 rest =? _) = false |- _ => rewrite H; clear H end.
  cbn [orb andb negb]. rewrite andb_false_r.
  assert (Hi : integer (at_ rest (c :: ds) n2 dd2 s1) = v) by by destruct rest.
  assert (Hp : ptype (at_ rest (c :: ds) n2 dd2 s1) = PT_INT) by by destruct rest.
  assert (Ht : token (at_ rest (c :: ds) n2 dd2 s1) = TK_PARAM) by by destruct rest.
  pose proof (at_at_text rest (c :: ds) n2 dd2 s1) as Hat.
  set (s2 := at_ rest (c :: ds) n2 dd2 s1) in *.
  destruct negate, param; cbn [andb negb sbind]; rewrite ?Hp, ?bool_decide_true by done; cbn [andb].
  1,2: eexists; split; [reflexivity|]; (split; [done|]); simpl; rewrite Hi;
    repeat split; try done; apply swrap_small; [lia|unfold in_s; simpl; lia].
  - rewrite Hi. destruct (v <? 100) eqn:E; eexists; (split; [reflexivity|]); (split; [done|]); [|done].
    repeat split; try done. apply wrap_small. zbool. unfold in_u. simpl. rewrite ?Hi. lia.
  - eexists; split; [reflexivity|]. done.
Qed.

(** Texts of tokens. *)
Inductive lexeme :=
| LWord (w : list Z)
| LInt (neg : bool) (ds : list Z)
| LPar (ds : list Z)
| LQuote (body : list Z)
| LPunct (t : Token).

Definition print (lx : lexeme) : list Z :=
  match lx with
  | LWord w => w
  | LInt neg ds => (if neg then [45] else []) ++ ds
  | LPar ds => 37 :: ds
  | LQuote body => 39 :: body ++ [39]
  | LPunct t => token_str t
  end.

Definition punct (t : Token) : bool :=
  match t with
  | TK_DOT | TK_SEMI | TK_COMMA | TK_ALL | TK_LPAR | TK_RPAR
  | TK_EQ | TK_GT | TK_GE | TK_LT | TK_LE | TK_NE => true
  | _ => false
  end.

Definition numeral (ds : list Z) : Prop :=
  ds <> [] /\ Forall (fun c => isdigit c = true) ds /\ dec_val 0 ds < 2 ^ 63.

Definition lexeme_ok (lx : lexeme) : Prop :=
  match lx with
  | LWord w => match w with
               | c :: w => id_start c = true /\ Forall (fun c => nz_byte c /\ is_id_char c = true) w
               | [] => False
               end
  | LInt _ ds | LPar ds => numeral ds
  | LQuote body => Forall (fun c => nz_byte c /\ negb (c =? 0) && negb (c =? 39) = true) body
  | LPunct t => punct t = true
  end.

(** What the scanner reports for a text. *)
Definition reads (lx : lexeme) (s : ScanData) : Prop :=
  match lx with
  | LWord w => token s = lookup_keyword kt w /\ (token s = TK_ID -> ident s = w)
  | LInt neg ds =>
      token s = TK_PARAM /\ ptype s = PT_INT /\
      integer s = (if neg then - dec_val 0 ds else dec_val 0 ds)
  | LPar ds =>
      if dec_val 0 ds <? 100
      then token s = TK_PARAM /\ ptype s = PT_PARAM /\ par_index s = dec_val 0 ds
      else token s = TK_INVALID
  | LQuote body =>
      token s = TK_PARAM /\
      match body with
      | [c] => ptype s = PT_CHAR /\ character s = c
      | _ => ptype s = PT_STRING /\ string_ s = body
      end
  | LPunct t => token s = t
  end.

(** Tokens end at the end of the text or at a space. *)
Definition sep (rest : list Z) : Prop := rest = [] \/ hd 0 rest = 32.

Lemma sep_stops test rest : test 0 = false -> test 32 = false -> sep rest -> stops test rest.
Proof. intros H0 H1 [->|H]; unfold stops; [done|]. by rewrite H. Qed.

Lemma digit_tests c : isdigit c = true ->
  48 <= c <= 57 /\ isspace c = false.
Proof.
  unfold isdigit, isspace. intros. zbool. split; [lia|].
  apply orb_false_iff; split; [apply Z.eqb_neq; lia|]. apply andb_false_iff. right. apply Z.leb_gt. lia.
Qed.

Lemma scan_int_text neg c ds rest s :
  numeral (c :: ds) -> sep rest -> 16 <= buf_size s ->
  exists s', token_at xmalloc_ok kt (sql_start_scan (print (LInt neg (c :: ds)) ++ rest) s) = SGo s' /\
    at_text rest s' /\ reads (LInt neg (c :: ds)) s'.
Proof.
  intros (_ & Hd & Hv) Hr Hs. pose proof Hd as Hd'. inversion Hd' as [|? ? Hc Hds]; subst.
  destruct (digit_tests c Hc) as [Hcl _].
  assert (Hn : stops num_char rest) by (by apply sep_stops).
  unfold token_at. destruct neg; simpl app.
  - change (cch (sql_start_scan (45 :: c :: ds ++ rest) s)) with 45. cbn [Z.eqb Pos.eqb orb].
    unfold scan_number. change (cch (sql_start_scan (45 :: c :: ds ++ rest) s)) with 45.
    cbn [Z.eqb Pos.eqb]. rewrite <- at_self, at_nextch, at_self by lia.
    change (cch (sql_start_scan (c :: ds ++ rest) s)) with c.
    rewrite Hc. char_tests. cbn [negb andb orb].
    edestruct (scan_number_tail_text true false c ds rest s) as (s' & H1 & H2 & H3); eauto.
  - change (cch (sql_start_scan (c :: ds ++ rest) s)) with c. rewrite Hc. char_tests.
    rewrite ?orb_true_r. cbn [orb].
    unfold scan_number. change (cch (sql_start_scan (c :: ds ++ rest) s)) with c.
    replace (c =? 45) with false by (symmetry; apply Z.eqb_neq; lia).
    replace (c =? 37) with false by (symmetry; apply Z.eqb_neq; lia).
    case_if E.
    { exfalso. unfold peekch in E. simpl in E.
      assert (Hx : hd 0 (ds ++ rest) <> 120 /\ hd 0 (ds ++ rest) <> 88).
      { destruct Hds as [|c' ds Hc' _]; simpl.
        - destruct Hr as [->|Hr]; [done|]. rewrite Hr. lia.
        - destruct (digit_tests c' Hc'). lia. }
      destruct (c =? 0) eqn:E0; zbool; [lia|].
      match goal with H : (_ || _) = true |- _ => apply orb_true_iff in H as [] end; zbool; lia. }
    edestruct (scan_number_tail_text false false c ds rest s) as (s' & H1 & H2 & H3); eauto.
Qed.

Lemma scan_par_text c ds rest s :
  numeral (c :: ds) -> sep rest -> 16 <= buf_size s ->
  exists s', token_at xmalloc_ok kt (sql_start_scan (print (LPar (c :: ds)) ++ rest) s) = SGo s' /\
    at_text rest s' /\ reads (LPar (c :: ds)) s'.
Proof.
  intros (_ & Hd & Hv) Hr Hs. pose proof Hd as Hd'. inversion Hd' as [|? ? Hc Hds]; subst.
  assert (Hn : stops num_char rest) by (by apply sep_stops).
  unfold token_at, peekch. simpl app.
  change (cch (sql_start_scan (37 :: c :: ds ++ rest) s)) with 37.
  change (instr (sql_start_scan (37 :: c :: ds ++ rest) s)) with (c :: ds ++ rest).
  cbn [Z.eqb Pos.eqb orb andb hd]. rewrite Hc. cbn [orb].
  unfold scan_number. change (cch (sql_start_scan (37 :: c :: ds ++ rest) s)) with 37.
  cbn [Z.eqb Pos.eqb andb]. rewrite <- at_self, at_nextch, at_self by lia.
  edestruct (scan_number_tail_text false true c ds rest s) as (s' & H1 & H2 & H3); eauto.
Qed.

Lemma scan_punct_text t rest s :
  punct t = true -> sep rest ->
  exists s', token_at xmalloc_ok kt (sql_start_scan (print (LPunct t) ++ rest) s) = SGo s' /\
    at_text rest s' /\ token s' = t.
Proof.
  intros Ht Hr. assert (Hh : hd 0 rest = 0 /\ rest = [] \/ hd 0 rest = 32 /\ rest = 32 :: tl rest).
  { destruct Hr as [->|Hr]; [by left|right]. split; [done|]. destruct rest; simpl in *; [done|by subst]. }
  destruct Hh as [[_ ->]|[_ ->]]; destruct t; try done; eexists; repeat split.
Qed.

(** A text followed by a separator is scanned as the token it stands for. *)
Lemma scan_lexeme ws lx rest s :
  Forall (fun c => isspace c = true) ws -> lexeme_ok lx -> sep rest -> 16 <= buf_size s ->
  exists s', sql_next_token xmalloc_ok kt (sql_start_scan (ws ++ print lx ++ rest) s) = Some s' /\
    at_text rest s' /\ reads lx s'.
Proof.
  intros Hws Hlx Hr Hs. destruct lx as [w|neg ds|ds|body|t]; simpl in Hlx.
  - destruct w as [|c w]; [done|]. destruct Hlx as [Hc Hw].
    edestruct (scan_word_text ws c w rest s) as (s' & ? & ? & ? & ?); eauto.
    + by apply sep_stops.
    + exists s'. simpl. auto.
  - pose proof Hlx as (Hne & Hd & _). destruct ds as [|c ds]; [done|].
    destruct (scan_int_text neg c ds rest s) as (s' & H1 & H2 & H3); [done..|].
    rewrite next_token_start, H1; [by eauto|done|].
    inversion Hd as [|? ? Hc ?]; subst. destruct neg; [done|]. apply (digit_tests c Hc).
  - pose proof Hlx as (Hne & _). destruct ds as [|c ds]; [done|].
    destruct (scan_par_text c ds rest s) as (s' & H1 & H2 & H3); [done..|].
    rewrite next_token_start, H1; [by eauto|done|done].
  - destruct (scan_quoted_text ws 39 body rest s) as (s' & H1 & H2 & H3 & H4); [done|by left|done..|].
    exists s'. simpl app. rewrite <- app_assoc. done.
  - destruct (scan_punct_text t rest s) as (s' & H1 & H2 & H3); [done..|].
    rewrite next_token_start, H1; [by eauto|done|]. by destruct t.
Qed.

(** A scanner whose next tokens are those of [lxs], up to the end. *)
Inductive scans : list lexeme -> ScanData -> Prop :=
| scans_nil s s' : sql_next_token xmalloc_ok kt s = Some s' -> token s' = TK_EOL -> scans [] s
| scans_cons lx lxs s s' :
    sql_next_token xmalloc_ok kt s = Some s' -> reads lx s' -> scans lxs s' -> scans (lx :: lxs) s.

(** The text of a token list. *)
Definition print_all (lxs : list lexeme) : list Z := concat (map (fun lx => 32 :: print lx) lxs).

Lemma at_text_eq l s : at_text l s -> s = sql_start_scan l s.
Proof. destruct s, l; intros [H1 H2]; simpl in *; by subst. Qed.

Lemma scans_print lxs s :
  Forall lexeme_ok lxs -> scan_ok s -> at_text (print_all lxs) s -> scans lxs s.
Proof.
  intros Hlx. revert s; induction Hlx as [|lx lxs Hl Hlxs IH]; intros s Hs Hat.
  - rewrite (at_text_eq _ _ Hat). econstructor; reflexivity.
  - destruct (sql_next_token_ok xmalloc_ok kt s Hs) as (s' & Ht & Hs').
    destruct (scan_lexeme [32] lx (print_all lxs) s) as (s1 & H1 & H2 & H3).
    + by repeat constructor.
    + done.
    + destruct lxs; [by left|by right].
    + apply Hs.
    + change ([32] ++ print lx ++ print_all lxs) with (print_all (lx :: lxs)) in H1.
      rewrite <- (at_text_eq _ _ Hat) in H1.
      assert (s' = s1) as -> by congruence. econstructor; [done|done|auto].
Qed.

End Lexemes.

(** Well-formedness of token texts is decidable, and implies that they can be
    the contents of a C string. *)
#[export] Instance numeral_dec ds : Decision (numeral ds).
Proof. unfold numeral. apply _. Defined.

#[export] Instance lexeme_ok_dec lx : Decision (lexeme_ok lx).
Proof. destruct lx as [[]| | | |]; simpl; apply _. Defined.

Lemma digits_nz ds : Forall (fun c => isdigit c = true) ds -> Forall nz_byte ds.
Proof. apply Forall_impl. intros c Hc%digit_tests. unfold nz_byte. lia. Qed.

Lemma print_nz lx : lexeme_ok lx -> Forall nz_byte (print lx).
Proof.
  destruct lx as [[|c w]|neg ds|ds|body|t]; simpl; intros H; try done.
  - destruct H as [Hc Hw]. destruct (id_start_class c Hc) as [Hr _]. constructor; [unfold nz_byte; lia|].
    eapply Forall_impl; [|exact Hw]. by intros ? [].
  - destruct H as (_ & Hd & _). apply Forall_app. split; [destruct neg; by repeat constructor|].
    by apply digits_nz.
  - destruct H as (_ & Hd & _). constructor; [done|]. by apply digits_nz.
  - constructor; [done|]. apply Forall_app. split; [|by repeat constructor].
    eapply Forall_impl; [|exact H]. by intros ? [].
  - by destruct t; try done; repeat constructor.
Qed.

Lemma print_all_nz lxs : Forall lexeme_ok lxs -> Forall nz_byte (print_all lxs).
Proof.
  unfold print_all. induction 1; simpl; [constructor|]. constructor; [done|].
  apply Forall_app. auto using print_nz.
Qed.
