(* ===== verification/Bytecode.v ===== *)
(** The bytecode interpreter of the SQL engine (sql/bytecode.c,
    include/bytecode.h).

    A cell of the evaluation stack is the union [Element_t]: it keeps how many
    bytes the last store wrote ([EBits n w], the little-endian value [w] of
    the low [n] bytes) or the string its pointer member refers to.  A load
    that needs more bytes than were stored, a string load from a number, a
    number load from a pointer, and every access outside an object are the
    outcome [Undef]. *)

From S2P Require Import Prelude CLib TypeData NMatch.

(** ** Instructions *)

Inductive Op :=
| O_LCBU | O_LCBS | O_LCSU | O_LCSS | O_LCWU | O_LCWS | O_LCL | O_LCF | O_LCD | O_LCO | O_LCS
| O_LDBU | O_LDBS | O_LDSU | O_LDSS | O_LDWU | O_LDWS | O_LDL | O_LDF | O_LDD | O_LDO | O_LDS
| O_LPBU | O_LPBS | O_LPSU | O_LPSS | O_LPWU | O_LPWS | O_LPL | O_LPF | O_LPD | O_LPO | O_LPS
| O_CMPWU | O_CMPWS | O_CMPLU | O_CMPLS | O_CMPD | O_CMPO | O_CMPS
| O_BTWWU | O_BTWWS | O_BTWLU | O_BTWLS | O_BTWD | O_BTWO | O_LIKE
| O_BEQ | O_BNE | O_BGT | O_BLE | O_BLT | O_BGE | O_BT | O_BF
| O_WU2L | O_WS2L | O_WU2D | O_WS2D | O_WU2O | O_WS2O | O_LU2D | O_LS2D | O_LU2O | O_LS2O
| O_D2O | O_S2W | O_S2L | O_S2D | O_S2O | O_C2S
| O_CREF | O_DISC | O_TREF | O_FCR | O_FOFS | O_DS0 | O_DS1
| O_RET | O_RETC | O_RETT | O_RETF | O_CRFF | O_CRFT | O_CRTF | O_CRTT | O_CRNE
| O_NOP.

#[export] Instance Op_eq_dec : EqDecision Op.
Proof. solve_decision. Defined.

(** The code of an instruction. *)
Definition op_byte (o : Op) : Z :=
  match o with
  | O_LCBU => 128 | O_LCBS => 129 | O_LCSU => 130 | O_LCSS => 131 | O_LCWU => 132
  | O_LCWS => 133 | O_LCL => 134 | O_LCF => 135 | O_LCD => 136 | O_LCO => 137 | O_LCS => 138
  | O_LDBU => 144 | O_LDBS => 145 | O_LDSU => 146 | O_LDSS => 147 | O_LDWU => 148
  | O_LDWS => 149 | O_LDL => 150 | O_LDF => 151 | O_LDD => 152 | O_LDO => 153 | O_LDS => 154
  | O_LPBU => 160 | O_LPBS => 161 | O_LPSU => 162 | O_LPSS => 163 | O_LPWU => 164
  | O_LPWS => 165 | O_LPL => 166 | O_LPF => 167 | O_LPD => 168 | O_LPO => 169 | O_LPS => 170
  | O_CMPWU => 176 | O_CMPWS => 177 | O_CMPLU => 178 | O_CMPLS => 179 | O_CMPD => 180
  | O_CMPO => 181 | O_CMPS => 182
  | O_BTWWU => 183 | O_BTWWS => 184 | O_BTWLU => 185 | O_BTWLS => 186 | O_BTWD => 187
  | O_BTWO => 188 | O_LIKE => 189
  | O_BEQ => 192 | O_BNE => 193 | O_BGT => 194 | O_BLE => 195 | O_BLT => 196 | O_BGE => 197
  | O_BT => 200 | O_BF => 201
  | O_WU2L => 208 | O_WS2L => 209 | O_WU2D => 210 | O_WS2D => 211 | O_WU2O => 212
  | O_WS2O => 213 | O_LU2D => 214 | O_LS2D => 215 | O_LU2O => 216 | O_LS2O => 217
  | O_D2O => 218 | O_S2W => 219 | O_S2L => 220 | O_S2D => 221 | O_S2O => 222 | O_C2S => 223
  | O_CREF => 224 | O_DISC => 225 | O_TREF => 226 | O_FCR => 227 | O_FOFS => 228
  | O_DS0 => 229 | O_DS1 => 230
  | O_RET => 240 | O_RETC => 241 | O_RETT => 242 | O_RETF => 243 | O_CRFF => 244
  | O_CRFT => 245 | O_CRTF => 246 | O_CRTT => 247 | O_CRNE => 248
  | O_NOP => 255
  end.

Definition all_ops : list Op := [
  O_LCBU; O_LCBS; O_LCSU; O_LCSS; O_LCWU; O_LCWS; O_LCL; O_LCF; O_LCD; O_LCO; O_LCS;
  O_LDBU; O_LDBS; O_LDSU; O_LDSS; O_LDWU; O_LDWS; O_LDL; O_LDF; O_LDD; O_LDO; O_LDS;
  O_LPBU; O_LPBS; O_LPSU; O_LPSS; O_LPWU; O_LPWS; O_LPL; O_LPF; O_LPD; O_LPO; O_LPS;
  O_CMPWU; O_CMPWS; O_CMPLU; O_CMPLS; O_CMPD; O_CMPO; O_CMPS;
  O_BTWWU; O_BTWWS; O_BTWLU; O_BTWLS; O_BTWD; O_BTWO; O_LIKE;
  O_BEQ; O_BNE; O_BGT; O_BLE; O_BLT; O_BGE; O_BT; O_BF;
  O_WU2L; O_WS2L; O_WU2D; O_WS2D; O_WU2O; O_WS2O; O_LU2D; O_LS2D; O_LU2O; O_LS2O;
  O_D2O; O_S2W; O_S2L; O_S2D; O_S2O; O_C2S;
  O_CREF; O_DISC; O_TREF; O_FCR; O_FOFS; O_DS0; O_DS1;
  O_RET; O_RETC; O_RETT; O_RETF; O_CRFF; O_CRFT; O_CRTF; O_CRTT; O_CRNE; O_NOP ].

(** The instruction a code byte stands for, if any. *)
Definition op_of_byte (b : Z) : option Op := List.find (fun o => op_byte o =? b) all_ops.

(** Return codes of the interpreter. *)
Definition BC_OK : Z := retcode DDS_RETCODE_OK.
Definition BC_ERR_STKOVFL : Z := retcode DDS_RETCODE_ERROR.
Definition BC_ERR_INVADDR : Z := retcode DDS_RETCODE_ERROR.
Definition BC_ERR_INVDATA : Z := retcode DDS_RETCODE_ERROR.
Definition BC_ERR_INVOP : Z := retcode DDS_RETCODE_ERROR.
Definition BC_ERR_INVPAR : Z := retcode DDS_RETCODE_ERROR.
Definition BC_ERR_INFLOOP : Z := retcode DDS_RETCODE_ERROR.
Definition BC_ERR_NFOUND : Z := retcode DDS_RETCODE_ALREADY_DELETED.
Definition BC_ERR_UNIMPL : Z := retcode DDS_RETCODE_UNSUPPORTED.

Definition MAX_STACK : Z := 32.
Definition MAX_INSTS : Z := 512.

(** [BCProgram]; [start] and [buffer] point to the same byte. *)
Record BCProgram := mkBCProgram { p_buffer : list Z; p_npars : Z }.

(** ** Stack cells *)

Inductive Element :=
| EBits (nbytes : Z) (w : Z)
| EStr (s : list Z).

Definition e_raw (n : Z) (e : Element) : option Z :=
  match e with
  | EBits m w => if n <=? m then Some (w mod 2 ^ (8 * n)) else None
  | EStr _ => None
  end.

(** Loads through the members of the union ... *)
Definition get_u (e : Element) : option Z := e_raw 4 e.
Definition get_i (e : Element) : option Z := (fun w => ⟪w⟫32) <$> e_raw 4 e.
Definition get_l (e : Element) : option Z := (fun w => ⟪w⟫64) <$> e_raw 8 e.
Definition get_ul (e : Element) : option Z := e_raw 8 e.
Definition get_d (e : Element) : option Z := e_raw 8 e.
Definition get_o (e : Element) : option Z := e_raw 10 e.
Definition get_sp (e : Element) : option (list Z) :=
  match e with EStr s => Some s | EBits _ _ => None end.

(** ... and stores. *)
Definition put_u (z : Z) : Element := EBits 4 ⟦z⟧32.
Definition put_l (z : Z) : Element := EBits 8 ⟦z⟧64.
Definition put_d (d : Z) : Element := EBits 8 d.
Definition put_o (o : Z) : Element := EBits 16 o.

(** ** The parameter cache *)

Inductive Type_t := T_STRING | T_INT32 | T_INT64 | T_DOUBLE | T_LDOUBLE.

#[export] Instance Type_t_eq_dec : EqDecision Type_t.
Proof. solve_decision. Defined.

(** [BCCache_t]; [nargs] is the length of both lists. *)
Record BCCache := mkBCCache { c_args : list Element; c_types : list Type_t }.

Definition nargs (c : BCCache) : Z := zlen (c_types c).

(** [bc_cache_init], [bc_cache_flush], [bc_cache_reset]; [None] is a NULL
    cache pointer. *)
Definition bc_cache_init : option BCCache := None.

Definition bc_cache_flush (c : option BCCache) : option BCCache := None.

Definition bc_cache_reset (c : option BCCache) : option BCCache :=
  match c with
  | None => None
  | Some c => Some (mkBCCache (c_args c) (map (fun _ => T_STRING) (c_types c)))
  end.

(** ** The interpreter *)

(** [cdr_field_offset] of the CDR codec, as the interpreter calls it: the
    memory from the sample's start, the index of the data in it, [hsize], the
    field number, the type and the swap flag.  [None]: it reads outside the
    memory. *)
Class CdrOffset := cdr_field_offset :
  list Z -> Z -> Z -> Z -> Type_ -> bool -> option Z.

Definition CDR_DOFS : Z := 0.
Definition ENDIAN_CPU : Z := 1.

(** [ALIGN] on unsigned numbers. *)
Definition ALIGN (delta boundary : Z) : Z :=
  Z.land ⟦delta + boundary - 1⟧32 ⟦- boundary⟧32.

(** What an invocation does not change. *)
Record Env := mkEnv {
  program : BCProgram;
  pars : option (list (list Z));
  data : option DBW;
  data2 : option DBW;
  prefixed : bool;
  dts : TypeSupport;
  libs : TypeLibs
}.

(** The local variables of [bc_interpret], the static [stack], and the cache
    that [cp] points to. *)
Record Vm := mkVm {
  pc : Z;
  n_ : Z;
  tos : Z;
  stack : list Element;
  r_ : Z;
  cnest : Z;
  cdp : option DBW;
  ctp : option Type_;
  offset : Z;
  cache : option BCCache
}.

Definition set_pc (x : Z) (v : Vm) : Vm :=
  mkVm x (n_ v) (tos v) (stack v) (r_ v) (cnest v) (cdp v) (ctp v) (offset v) (cache v).
Definition set_n (x : Z) (v : Vm) : Vm :=
  mkVm (pc v) x (tos v) (stack v) (r_ v) (cnest v) (cdp v) (ctp v) (offset v) (cache v).
Definition set_stack (t : Z) (x : list Element) (v : Vm) : Vm :=
  mkVm (pc v) (n_ v) t x (r_ v) (cnest v) (cdp v) (ctp v) (offset v) (cache v).
Definition set_r (x : Z) (v : Vm) : Vm :=
  mkVm (pc v) (n_ v) (tos v) (stack v) x (cnest v) (cdp v) (ctp v) (offset v) (cache v).
Definition set_cont (nest : Z) (d : option DBW) (t : option Type_) (o : Z) (v : Vm) : Vm :=
  mkVm (pc v) (n_ v) (tos v) (stack v) (r_ v) nest d t o (cache v).
Definition set_cache (c : option BCCache) (v : Vm) : Vm :=
  mkVm (pc v) (n_ v) (tos v) (stack v) (r_ v) (cnest v) (cdp v) (ctp v) (offset v) c.

(** Result of one instruction: go on, [goto done] with a return code and
    what was stored in [*result], or undefined behaviour. *)
Inductive outcome :=
| Next (v : Vm)
| Done (rc : Z) (result : option Z) (v : Vm)
| Undef.

Definition obind {A} (x : option A) (f : A -> outcome) : outcome :=
  match x with Some a => f a | None => Undef end.

Notation "'let!' x := e 'in' k" := (obind e (fun x => k))
  (at level 10, x pattern, k at level 200) : mach_scope.

Section Interpreter.
Context `{CdrOffset}.
Context (xmalloc_ok : Z -> bool) (strdup_ok : list Z -> bool).
Context (env : Env).

Definition is_struct (t : Type_) : bool := bool_decide (kind t = DDS_STRUCTURE_TYPE).

(** *** Sample access *)

(** The walk of [data_ptr] to byte [n] of a chain of buffers. *)
Fixpoint db_seek (bp : DBchain) (cp : list Z) (left n : Z) : option (list Z) :=
  if left <=? n then
    match bp with
    | _ :: ((b :: _) as bp') => db_seek bp' b (zlen b) (n - left)
    | _ => None
    end
  else Some (zdrop n cp).

(** [data_container]: the return code with the new [*tp] and [*offset];
    [None] is undefined behaviour. *)
Definition data_container (wp : option DBW) (tp : option Type_) (field : Z) (ofs : Z)
  : option (Z * option Type_ * Z) :=
  t ← tp;
  if negb (is_struct t) then Some (BC_ERR_UNIMPL, tp, ofs)
  else
    w ← wp;
    let finish ofs :=
      m ← zget (member t) field;
      let tp' := xt_type_ptr (libs env) (scope t) (m_id m) in
      Some (match tp' with Some _ => BC_OK | None => BC_ERR_INVDATA end, tp', ofs) in
    if prefixed env then
      let ofs := if ofs =? 0 then 4 else ofs in
      c0 ← zget (w_data w) 0;
      c1 ← zget (w_data w) 1;
      let type := Z.lor (Z.shiftl c0 8) c1 in
      if Z.shiftr type 1 =? mode_num MODE_CDR then
        o ← cdr_field_offset (w_data w) ofs ofs field t
              (negb (Z.lxor (Z.land type 1) ENDIAN_CPU =? 0));
        finish ⟦o⟧32
      else if Z.shiftr type 1 =? mode_num MODE_RAW then
        m ← zget (member t) field;
        finish ⟦ofs + m_offset m⟧32
      else Some (BC_ERR_UNIMPL, tp, ofs)
    else
      m ← zget (member t) field;
      finish ⟦ofs + m_offset m⟧32.

(** [data_discriminant] *)
Definition data_discriminant : Z := BC_ERR_UNIMPL.

(** Byte order reversal of [memcswap16], [memcswap32] and [memcswap64]. *)
Definition memcswap (size : Z) (cp : list Z) : option (list Z) := reverse <$> zslice cp 0 size.

(** [data_ptr]: the memory the returned pointer gives access to, [Some None]
    for NULL, [None] for undefined behaviour. *)
Definition data_ptr (wp : option DBW) (tp : option Type_) (field : Z)
  (align : Z) (string : bool) (offset : Z) : option (option (list Z)) :=
  t ← tp;
  if negb (is_struct t) then Some None
  else
    w ← wp;
    let seek swap ofs :=
      cp ← db_seek (w_dbp w) (w_data w) (w_left w) ofs;
      if swap && negb string then
        if (align =? 2) || (align =? 4) || (align =? 8)
        then Some <$> memcswap align cp
        else Some (Some cp)
      else Some (Some cp) in
    if prefixed env then
      let ofs := if offset =? 0 then 4 else offset in
      c0 ← zget (w_data w) 0;
      c1 ← zget (w_data w) 1;
      let prefix := Z.shiftr (Z.lor (Z.shiftl c0 8) c1) 1 in
      if (prefix =? mode_num MODE_CDR) || (prefix =? mode_num MODE_PL_CDR) then
        let swap := negb (Z.lxor (Z.land c1 1) ENDIAN_CPU =? 0) in
        o ← cdr_field_offset (w_data w) ofs CDR_DOFS field t swap;
        let ofs := ALIGN ⟦o⟧32 (if 8 <? align then 8 else align) in
        seek swap (if string then ⟦ofs + 4⟧32 else ofs)
      else if prefix =? mode_num MODE_RAW then
        m ← zget (member t) field;
        seek false ⟦ofs + m_offset m⟧32
      else Some None
    else
      m ← zget (member t) field;
      seek false ⟦offset + m_offset m⟧32.

(** *** Cache *)

Definition elt_size : Z := 16.
Definition typ_size : Z := 4.

(** [bc_cache_add] *)
Definition bc_cache_add (cp : option BCCache) (par : Z) (t : Type_t) (e : Element)
  : option BCCache :=
  match cp with
  | None => None
  | Some c =>
      let store c :=
        Some (mkBCCache (<[Z.to_nat par := e]> (c_args c)) (<[Z.to_nat par := t]> (c_types c))) in
      if nargs c <=? par then
        if xmalloc_ok (elt_size * (par + 1)) && xmalloc_ok (typ_size * (par + 1)) then
          let more := Z.to_nat (par + 1 - nargs c) in
          store (mkBCCache (c_args c ++ replicate more (EBits 16 0))
                           (c_types c ++ replicate more T_STRING))
        else if nargs c =? 0 then Some c
        else Some (mkBCCache [] [])
      else store c
  end.

(** *** Operands *)

(** The [k] bytes at [pc]. *)
Definition fetch (v : Vm) (k : Z) : option (list Z) := zslice (p_buffer (program env)) (pc v) k.

(** [stack [tos++] = e] *)
Definition push (e : Element) (v : Vm) : option Vm :=
  s ← zset (stack v) (tos v) e; Some (set_stack (tos v + 1) s v).

Definition cell (v : Vm) (i : Z) : option Element := zget (stack v) i.

(** Load constant (follows opcode). *)
Definition step_lc (o : Op) (v : Vm) : outcome :=
  let num k (f : list Z -> Element) :=
    let! bs := fetch v k in
    let! v := push (f bs) v in
    Next (set_pc (pc v + k) v) in
  match o with
  | O_LCBU => num 1 (fun bs => put_u (be_val bs))
  | O_LCBS => num 1 (fun bs => put_u ⟪be_val bs⟫8)
  | O_LCSU => num 2 (fun bs => put_u (be_val bs))
  | O_LCSS => num 2 (fun bs => put_u ⟪be_val bs⟫16)
  | O_LCWU => num 4 (fun bs => put_u (be_val bs))
  | O_LCWS => num 4 (fun bs => put_u ⟪be_val bs⟫32)
  | O_LCL => num 8 (fun bs => put_l (le_val bs))
  | O_LCF => num 4 (fun bs => put_d (d_of_float (le_val bs)))
  | O_LCD => num 8 (fun bs => put_d (le_val bs))
  | O_LCO => num 16 (fun bs => put_o (le_val bs))
  | O_LCS =>
      let! s := cstring (zdrop (pc v) (p_buffer (program env))) in
      let! v := push (EStr s) v in
      Next (set_pc (pc v + zlen s + 1) v)
  | _ => Undef
  end.

(** [creset], at the end of a payload load. *)
Definition creset (v : Vm) : Vm :=
  if cnest v =? 0 then v else set_cont 0 (data env) (ts_cdr (dts env)) 0 v.

(** Load payload data.  The field number goes through the variable [n]. *)
Definition load (align : Z) (string : bool) (rd : list Z -> option Element) (v : Vm) : outcome :=
  let! bs := fetch v 2 in
  let v := set_n (be_val bs) v in
  let! dp := data_ptr (cdp v) (ctp v) (n_ v) align string (offset v) in
  match dp with
  | None => Done BC_ERR_INVDATA None v
  | Some mem =>
      let! e := rd mem in
      let! v := push e (set_pc (pc v + 2) v) in
      Next (creset v)
  end.

Definition rd_num (size : Z) (f : Z -> Element) (mem : list Z) : option Element :=
  (fun bs => f (le_val bs)) <$> zslice mem 0 size.

Definition step_ld (o : Op) (v : Vm) : outcome :=
  match o with
  | O_LDBU => load 1 false (rd_num 1 put_u) v
  | O_LDBS => load 1 false (rd_num 1 (fun w => put_u ⟪w⟫8)) v
  | O_LDSU => load 2 false (rd_num 2 put_u) v
  | O_LDSS => load 2 false (rd_num 2 (fun w => put_u ⟪w⟫16)) v
  | O_LDWU => load 4 false (rd_num 4 put_u) v
  | O_LDWS => load 4 false (rd_num 4 put_u) v
  | O_LDL => load 8 false (rd_num 8 put_l) v
  | O_LDF => load 4 false (rd_num 4 (fun w => put_d (d_of_float w))) v
  | O_LDD => load 8 false (rd_num 8 put_d) v
  | O_LDO => load 16 false (rd_num 16 put_o) v
  | O_LDS => load 4 true (fun mem => EStr <$> cstring mem) v
  | _ => Undef
  end.

(** Load parameter data, through the cache. *)
Definition load_par (t : Type_t) (conv : list Z -> Element) (v : Vm) : outcome :=
  let! bs := fetch v 1 in
  let par := be_val bs in
  let v := set_pc (pc v + 1) v in
  match default [] (pars env) !! Z.to_nat par with
  | None => Done BC_ERR_INVPAR None v
  | Some sp =>
      let hit :=
        c ← cache v;
        if (par <? nargs c) && bool_decide (zget (c_types c) par = Some t)
        then zget (c_args c) par else None in
      match hit with
      | Some e => let! v := push e v in Next v
      | None =>
          let e := conv sp in
          let! v := push e v in
          Next (set_cache (bc_cache_add (cache v) par t e) v)
      end
  end.

Definition step_lp (o : Op) (v : Vm) : outcome :=
  match o with
  | O_LPBU | O_LPSU | O_LPWU | O_LPBS | O_LPSS | O_LPWS =>
      load_par T_INT32 (fun s => put_u (strtol s)) v
  | O_LPL => load_par T_INT64 (fun s => put_l (strtol s)) v
  | O_LPF | O_LPD => load_par T_DOUBLE (fun s => put_d (strtod s)) v
  | O_LPO => load_par T_LDOUBLE (fun s => put_o (strtold s)) v
  | O_LPS =>
      let! bs := fetch v 1 in
      let v := set_pc (pc v + 1) v in
      match default [] (pars env) !! Z.to_nat (be_val bs) with
      | None => Done BC_ERR_INVPAR None v
      | Some sp => let! v := push (EStr sp) v in Next v
      end
  | _ => Undef
  end.

(** Comparisons: the result of comparing two cells. *)
Definition cmp3 (eq gt : bool) : Z := if eq then 0 else if gt then 1 else -1.

Definition cmp_cells (o : Op) (a b : Element) : option Z :=
  match o with
  | O_CMPWU => x ← get_u a; y ← get_u b; Some (cmp3 (x =? y) (y <? x))
  | O_CMPWS => x ← get_i a; y ← get_i b; Some (cmp3 (x =? y) (y <? x))
  | O_CMPLU => x ← get_ul a; y ← get_ul b; Some (cmp3 (x =? y) (y <? x))
  | O_CMPLS => x ← get_l a; y ← get_l b; Some (cmp3 (x =? y) (y <? x))
  | O_CMPD => x ← get_d a; y ← get_d b;
              Some (if sf_gt (d_sf x) (d_sf y) then 1
                    else if sf_eq (d_sf x) (d_sf y) then 0 else -1)
  | O_CMPO => x ← get_o a; y ← get_o b;
              Some (if sf_gt (o_sf x) (o_sf y) then 1
                    else if sf_eq (o_sf x) (o_sf y) then 0 else -1)
  | O_CMPS => x ← get_sp a; y ← get_sp b; Some (strcmp x y)
  | _ => None
  end.

Definition step_cmp (o : Op) (v : Vm) : outcome :=
  let tos' := tos v - 2 in
  let! a := cell v tos' in
  let! b := cell v (tos' + 1) in
  let! r := cmp_cells o a b in
  Next (set_r r (set_stack tos' (stack v) v)).

(** BETWEEN: is [a] in [lo, hi]?  [&&] reads [hi] only when needed. *)
Definition btw_cells (o : Op) (a lo hi : Element) : option bool :=
  let rng {A} (get : Element -> option A) (le : A -> A -> bool) :=
    x ← get a; l ← get lo;
    if le l x then h ← get hi; Some (le x h) else Some false in
  match o with
  | O_BTWWU => rng get_u Z.leb
  | O_BTWWS => rng get_i Z.leb
  | O_BTWLU => rng get_ul Z.leb
  | O_BTWLS => rng get_l Z.leb
  | O_BTWD => rng get_d (fun x y => sf_le (d_sf x) (d_sf y))
  | O_BTWO => rng get_o (fun x y => sf_le (o_sf x) (o_sf y))
  | _ => None
  end.

Definition put_bool (b : bool) : Element := put_d (if b then d_one else d_zero).

Definition step_btw (o : Op) (v : Vm) : outcome :=
  let tos' := tos v - 2 in
  let! a := cell v (tos' - 1) in
  let! lo := cell v tos' in
  let! hi := cell v (tos' + 1) in
  let! b := btw_cells o a lo hi in
  let! s := zset (stack v) (tos' - 1) (put_bool b) in
  Next (set_stack tos' s v).

(** [O_LIKE] *)
Definition step_like (v : Vm) : outcome :=
  let tos' := tos v - 2 in
  let! a := cell v tos' in
  let! b := cell v (tos' + 1) in
  let! name := get_sp a in
  let! pattern := get_sp b in
  let m := nmatch strdup_ok (Some pattern) (Some name) NM_SQL in
  let! s := zset (stack v) tos' (put_bool (m =? 0)) in
  Next (set_stack (tos' + 1) s v).

(** Branches. *)
Definition branch (taken : bool) (v : Vm) : outcome :=
  if taken then let! bs := fetch v 2 in Next (set_pc (be_val bs) v)
  else Next (set_pc (pc v + 2) v).

(** [stack [--tos].d] as a condition. *)
Definition pop_d (v : Vm) (k : bool -> Vm -> outcome) : outcome :=
  let v := set_stack (tos v - 1) (stack v) v in
  let! e := cell v (tos v) in
  let! d := get_d e in
  k (d_true d) v.

Definition step_br (o : Op) (v : Vm) : outcome :=
  match o with
  | O_BEQ => branch (r_ v =? 0) v
  | O_BNE => branch (negb (r_ v =? 0)) v
  | O_BGT => branch (0 <? r_ v) v
  | O_BLE => branch (r_ v <=? 0) v
  | O_BLT => branch (r_ v <? 0) v
  | O_BGE => branch (0 <=? r_ v) v
  | O_BT => pop_d v branch
  | O_BF => pop_d v (fun t => branch (negb t))
  | _ => Undef
  end.

(** Conversions of the top of the stack. *)
Definition conv_cell (o : Op) (e : Element) : option Element :=
  match o with
  | O_WU2L => put_l <$> get_u e
  | O_WS2L => put_l <$> get_i e
  | O_WU2D => (fun z => put_d (d_of_Z z)) <$> get_u e
  | O_WS2D => (fun z => put_d (d_of_Z z)) <$> get_i e
  | O_WU2O => (fun z => put_o (o_of_Z z)) <$> get_u e
  | O_WS2O => (fun z => put_o (o_of_Z z)) <$> get_i e
  | O_LU2D => (fun z => put_d (d_of_Z z)) <$> get_ul e
  | O_LS2D => (fun z => put_d (d_of_Z z)) <$> get_l e
  | O_LU2O => (fun z => put_o (o_of_Z z)) <$> get_ul e
  | O_LS2O => (fun z => put_o (o_of_Z z)) <$> get_l e
  | O_D2O => (fun d => put_o (o_of_double d)) <$> get_d e
  | O_S2W => (fun s => put_u (strtol s)) <$> get_sp e
  | O_S2L => (fun s => put_l (strtol s)) <$> get_sp e
  | O_S2D => (fun s => put_d (strtod s)) <$> get_sp e
  | O_S2O => (fun s => put_o (strtold s)) <$> get_sp e
  | O_C2S => (fun u => EStr (if ⟦u⟧8 =? 0 then [] else [⟦u⟧8])) <$> get_u e
  | _ => None
  end.

Definition step_conv (o : Op) (v : Vm) : outcome :=
  let! e := cell v (tos v - 1) in
  let! e' := conv_cell o e in
  let! s := zset (stack v) (tos v - 1) e' in
  Next (set_stack (tos v) s v).

(** Container references, sample selection and Multitopic instructions. *)
Definition step_misc (o : Op) (v : Vm) : outcome :=
  match o with
  | O_CREF =>
      let! bs := fetch v 2 in
      let v := set_n (be_val bs) v in
      let! (rc, t, ofs) := data_container (cdp v) (ctp v) (n_ v) (offset v) in
      if negb (rc =? 0) then Done BC_ERR_INVDATA None v
      else Next (set_cont (cnest v + 1) (cdp v) t ofs (set_pc (pc v + 2) v))
  | O_DISC =>
      let! bs := fetch v 2 in
      let v := set_r data_discriminant (set_n (be_val bs) v) in
      if r_ v =? BC_ERR_NFOUND then Done BC_OK (Some 0) v
      else Next (set_pc (pc v + 4) v)
  | O_TREF | O_FCR | O_FOFS => Done BC_ERR_UNIMPL None v
  | O_DS0 => Next (set_cont (cnest v) (data env) (ctp v) 0 v)
  | O_DS1 => Next (set_cont (cnest v) (data2 env) (ctp v) 0 v)
  | _ => Undef
  end.

(** Returns. *)
Definition step_ret (o : Op) (v : Vm) : outcome :=
  match o with
  | O_RET =>
      let! e := cell v (tos v - 1) in
      let! i := get_i e in
      Done BC_OK (Some i) (set_stack (tos v - 1) (stack v) v)
  | O_RETC => Done BC_OK (Some (r_ v)) v
  | O_RETT => Done BC_OK (Some 1) v
  | O_RETF => Done BC_OK (Some 0) v
  | O_CRFF => pop_d v (fun t v => if negb t then Done BC_OK (Some 0) v else Next v)
  | O_CRFT => pop_d v (fun t v => if t then Done BC_OK (Some 0) v else Next v)
  | O_CRTF => pop_d v (fun t v => if negb t then Done BC_OK (Some 1) v else Next v)
  | O_CRTT => pop_d v (fun t v => if t then Done BC_OK (Some 1) v else Next v)
  | O_CRNE => if negb (r_ v =? 0) then Done BC_OK (Some (r_ v)) v else Next v
  | _ => Undef
  end.

(** The [switch] on the instruction, [pc] already past its code. *)
Definition step_op (o : Op) (v : Vm) : outcome :=
  match o with
  | O_LCBU | O_LCBS | O_LCSU | O_LCSS | O_LCWU | O_LCWS | O_LCL | O_LCF | O_LCD | O_LCO | O_LCS =>
      step_lc o v
  | O_LDBU | O_LDBS | O_LDSU | O_LDSS | O_LDWU | O_LDWS | O_LDL | O_LDF | O_LDD | O_LDO | O_LDS =>
      step_ld o v
  | O_LPBU | O_LPBS | O_LPSU | O_LPSS | O_LPWU | O_LPWS | O_LPL | O_LPF | O_LPD | O_LPO | O_LPS =>
      step_lp o v
  | O_CMPWU | O_CMPWS | O_CMPLU | O_CMPLS | O_CMPD | O_CMPO | O_CMPS => step_cmp o v
  | O_BTWWU | O_BTWWS | O_BTWLU | O_BTWLS | O_BTWD | O_BTWO => step_btw o v
  | O_LIKE => step_like v
  | O_BEQ | O_BNE | O_BGT | O_BLE | O_BLT | O_BGE | O_BT | O_BF => step_br o v
  | O_WU2L | O_WS2L | O_WU2D | O_WS2D | O_WU2O | O_WS2O | O_LU2D | O_LS2D | O_LU2O | O_LS2O
  | O_D2O | O_S2W | O_S2L | O_S2D | O_S2O | O_C2S => step_conv o v
  | O_CREF | O_DISC | O_TREF | O_FCR | O_FOFS | O_DS0 | O_DS1 => step_misc o v
  | O_RET | O_RETC | O_RETT | O_RETF | O_CRFF | O_CRFT | O_CRTF | O_CRTT | O_CRNE => step_ret o v
  | O_NOP => Done BC_ERR_INVOP None v
  end.

(** One round of the interpreter loop, its [n++] included. *)
Definition step (v : Vm) : outcome :=
  if MAX_INSTS <=? n_ v then Done BC_ERR_INFLOOP None v
  else if MAX_STACK <=? tos v then Done BC_ERR_STKOVFL None v
  else
    match zget (p_buffer (program env)) (pc v) with
    | None => Done BC_ERR_INVADDR None v
    | Some inst =>
        let v := set_pc (pc v + 1) v in
        let out :=
          if inst <? 128 then
            let! v := push (put_u (if 64 <=? inst then inst - 128 else inst)) v in Next v
          else match op_of_byte inst with
               | Some o => step_op o v
               | None => Done BC_ERR_INVOP None v
               end in
        match out with
        | Next v => Next (set_n (n_ v + 1) v)
        | out => out
        end
    end.

(** The loop; [None] when the fuel does not suffice. *)
Fixpoint run (fuel : nat) (v : Vm) : option outcome :=
  match fuel with
  | O => None
  | S fuel =>
      match step v with
      | Next v => run fuel v
      | out => Some out
      end
  end.

(** The state in which the loop starts.  [cachep] is [None] for a NULL cache
    argument, else what it points to. *)
Definition vm_init (stk : list Element) (cachep : option (option BCCache)) : Vm :=
  mkVm 0 0 0 stk 0 0 (data env) (ts_cdr (dts env)) 0
    match cachep with
    | None => None
    | Some None => if xmalloc_ok 24 then Some (mkBCCache [] []) else None
    | Some (Some c) => Some c
    end.

(** [bc_interpret]: return code, [*result] and the cache at the end. *)
Inductive bc_result :=
| BcReturn (rc : Z) (result : option Z) (c : option BCCache)
| BcUndef.

Definition bc_interpret (fuel : nat) (stk : list Element) (cachep : option (option BCCache))
  : option bc_result :=
  if decide (ts_prefer (dts env) = MODE_CDR) then
    match run fuel (vm_init stk cachep) with
    | Some (Done rc res v) => Some (BcReturn rc res (cache v))
    | Some _ => Some BcUndef
    | None => None
    end
  else Some (BcReturn BC_ERR_UNIMPL None (mjoin cachep)).

End Interpreter.
