(* ===== verification/Parse.v ===== *)
(** The SQL parser and code generator (sql/parse.c).

    The parser is a state monad over [ParseData]; [PJmp] is the [longjmp] of
    [parse_error], [PUndef] undefined behaviour (an access outside an object
    or through an uninitialised pointer) and [PFuel] an exhausted recursion
    bound. *)

From Stdlib Require Import String.
From S2P Require Import Prelude CLib TypeData Scan Bytecode.

(** ** Parser state *)

Inductive ParseError :=
| PE_OK | PE_SYNTAX | PE_INC_TYPES | PE_NOMEM | PE_UNKN_NAME | PE_INV_COMP | PE_INT_ERR.

Definition pe_num (e : ParseError) : Z :=
  match e with
  | PE_OK => 0 | PE_SYNTAX => 1 | PE_INC_TYPES => 2 | PE_NOMEM => 3
  | PE_UNKN_NAME => 4 | PE_INV_COMP => 5 | PE_INT_ERR => 6
  end.

(** [ParseData]; the length of [bc_data] is [bc_size]. *)
Record ParseData := mkParse {
  scan : ScanData;
  bc_data : list Z;
  bc_left : Z;
  bc_npars : Z;
  tc : option TypeSupport;   (** [None]: not initialised *)
  error : Z;
  err_arg : list Z           (** [char err_arg [48]] *)
}.

Definition set_scan (s : ScanData) (d : ParseData) : ParseData :=
  mkParse s (bc_data d) (bc_left d) (bc_npars d) (tc d) (error d) (err_arg d).
Definition set_bc (l : list Z) (left : Z) (d : ParseData) : ParseData :=
  mkParse (scan d) l left (bc_npars d) (tc d) (error d) (err_arg d).
Definition set_npars (n : Z) (d : ParseData) : ParseData :=
  mkParse (scan d) (bc_data d) (bc_left d) n (tc d) (error d) (err_arg d).
Definition set_error (e : Z) (d : ParseData) : ParseData :=
  mkParse (scan d) (bc_data d) (bc_left d) (bc_npars d) (tc d) e (err_arg d).
Definition set_err_arg (a : list Z) (d : ParseData) : ParseData :=
  mkParse (scan d) (bc_data d) (bc_left d) (bc_npars d) (tc d) (error d) a.

Definition bc_size (d : ParseData) : Z := zlen (bc_data d).
Definition cur_pc (d : ParseData) : Z := bc_size d - bc_left d.

(** Chains of branch instructions still to be patched. *)
Definition PatchList := list Z.

Inductive Cond := C_EQ | C_NE | C_GT | C_LE | C_LT | C_GE | C_T | C_F.

Record DataObject := mkDataObject { tchain : PatchList; fchain : PatchList; condition_ : Cond }.

(** ** The parser monad *)

Inductive pres (A : Type) :=
| POk (a : A) (d : ParseData)
| PJmp (d : ParseData)
| PUndef
| PFuel.
Arguments POk {A} a d.
Arguments PJmp {A} d.
Arguments PUndef {A}.
Arguments PFuel {A}.

Definition P (A : Type) := ParseData -> pres A.

Definition pret {A} (a : A) : P A := fun d => POk a d.

Definition pbind {A B} (m : P A) (f : A -> P B) : P B := fun d =>
  match m d with
  | POk a d => f a d
  | PJmp d => PJmp d
  | PUndef => PUndef
  | PFuel => PFuel
  end.

Definition pget : P ParseData := fun d => POk d d.
Definition pmod (f : ParseData -> ParseData) : P unit := fun d => POk tt (f d).
Definition pundef {A} : P A := fun _ => PUndef.
Definition pfuel {A} : P A := fun _ => PFuel.

(** An access that may be outside its object. *)
Definition pacc {A} (x : option A) : P A :=
  match x with Some a => pret a | None => pundef end.

Notation "x <-- m ;; k" := (pbind m (fun x => k))
  (at level 98, m at next level, right associativity) : mach_scope.
Notation "m ;;; k" := (pbind m (fun _ => k))
  (at level 98, right associativity) : mach_scope.

Section Parser.
Context (xmalloc_ok : Z -> bool).
Context (kt : KwTable).
Context (libs : TypeLibs).

(** ** Errors and tokens *)

Definition ERR_ARG_SIZE : Z := 48.

(** The copy of the argument into [err_arg]. *)
Definition copy_err_arg (arg old : list Z) : list Z :=
  let n := zlen arg in
  if ERR_ARG_SIZE <=? n then ztake ERR_ARG_SIZE arg
  else arg ++ [0] ++ zdrop (n + 1) old.

(** Does the message of an error print its argument? *)
Definition shows_arg (e : ParseError) : bool :=
  match e with PE_SYNTAX | PE_UNKN_NAME => true | _ => false end.

(** [parse_error]: [show_error] reads the argument as a string. *)
Definition parse_error {A} (err : ParseError) (arg : option (list Z)) : P A := fun d =>
  let d := set_error (pe_num err) d in
  let d := match arg with
           | Some a => set_err_arg (copy_err_arg a (err_arg d)) d
           | None => set_err_arg (0 :: zdrop 1 (err_arg d)) d
           end in
  if shows_arg err && bool_decide (cstring (err_arg d) = None) then PUndef else PJmp d.

(** [next_token] *)
Definition next_token : P unit := fun d =>
  match sql_next_token xmalloc_ok kt (scan d) with
  | Some s => POk tt (set_scan s d)
  | None => PUndef
  end.

Definition cur_token : P Token := fun d => POk (token (scan d)) d.

Definition expect (t : Token) : P unit :=
  t' <-- cur_token ;;
  if decide (t' = t) then next_token else parse_error PE_SYNTAX (Some (sql_token_str t)).

(** ** Topic expressions *)

Definition subject_field_spec : P unit :=
  expect TK_ID ;;;
  t <-- cur_token ;;
  if decide (t = TK_AS) then next_token ;;; expect TK_ID
  else if decide (t = TK_ID) then next_token
  else pret tt.

Fixpoint aggregation_loop (fuel : nat) : P unit :=
  match fuel with
  | O => pfuel
  | S fuel =>
      t <-- cur_token ;;
      if decide (t = TK_COMMA) then
        next_token ;;; subject_field_spec ;;; aggregation_loop fuel
      else pret tt
  end.

Definition aggregation (fuel : nat) : P unit :=
  t <-- cur_token ;;
  if decide (t = TK_ALL) then next_token
  else subject_field_spec ;;; aggregation_loop fuel.

Definition natural_join : P unit :=
  t <-- cur_token ;;
  (if decide (t = TK_INNER) then next_token ;;; expect TK_NATURAL
   else
     expect TK_NATURAL ;;;
     t <-- cur_token ;;
     if decide (t = TK_INNER) then next_token else pret tt) ;;;
  expect TK_JOIN.

(** [selection] and [join_item] *)
Fixpoint selection (fuel : nat) : P unit :=
  match fuel with
  | O => pfuel
  | S fuel =>
      d <-- pget ;;
      if bool_decide (token (scan d) <> TK_PARAM) && bool_decide (ptype (scan d) <> PT_STRING)
      then pmod (set_error 1)
      else
        next_token ;;;
        t <-- cur_token ;;
        if bool_decide (t = TK_INNER) || bool_decide (t = TK_NATURAL) then
          natural_join ;;;
          t <-- cur_token ;;
          if decide (t = TK_LPAR) then selection fuel ;;; expect TK_RPAR
          else selection fuel
        else pret tt
  end.

Definition select_from (fuel : nat) : P unit :=
  expect TK_SELECT ;;;
  aggregation fuel ;;;
  expect TK_FROM ;;;
  selection fuel.

(** ** Code emission *)

Definition BC_INC : Z := 64.

(** [emitx] *)
Definition emit (c : Z) : P unit := fun d =>
  if negb (error d =? 0) then POk tt d
  else
    let write d :=
      match zset (bc_data d) (cur_pc d) ⟦c⟧8 with
      | Some l => POk tt (set_bc l (bc_left d - 1) d)
      | None => PUndef
      end in
    if bc_left d =? 0 then
      if xmalloc_ok (bc_size d + BC_INC) then
        write (set_bc (bc_data d ++ replicate (Z.to_nat BC_INC) 0) BC_INC d)
      else parse_error PE_NOMEM None d
    else write d.

Definition emit_op (o : Op) : P unit := emit (op_byte o).

Fixpoint emit_list (l : list Z) : P unit :=
  match l with
  | [] => pret tt
  | c :: l => emit c ;;; emit_list l
  end.

(** [emits] and [emitl] *)
Definition emits (s : Z) : P unit := emit (Z.shiftr s 8) ;;; emit (Z.land s 255).
Definition emitl (l : Z) : P unit :=
  emit (Z.shiftr l 24) ;;; emit (Z.shiftr l 16) ;;; emit (Z.shiftr l 8) ;;; emit (Z.land l 255).

(** [append] *)
Definition append_patch (l : PatchList) (ofs : Z) : P PatchList :=
  if xmalloc_ok 16 then pret (l ++ [ofs]) else parse_error PE_NOMEM None.

(** [set_at_pc] and [get_at_pc] *)
Definition set_at_pc (ofs x : Z) : P unit := fun d =>
  match zset (bc_data d) ofs ⟦x⟧8 with
  | Some l => POk tt (set_bc l (bc_left d) d)
  | None => PUndef
  end.

Definition get_at_pc (ofs : Z) : P Z := fun d =>
  match zget (bc_data d) ofs with Some x => POk x d | None => PUndef end.

(** [backpatch] *)
Fixpoint backpatch (l : PatchList) (ofs : Z) : P unit :=
  match l with
  | [] => pret tt
  | p :: l => set_at_pc (p + 1) (Z.shiftr ofs 8) ;;; set_at_pc (p + 2) (Z.land ofs 255) ;;;
              backpatch l ofs
  end.

(** [merge_patches] *)
Definition merge_patches (s1 s2 : PatchList) : PatchList := s1 ++ s2.

(** [const_int]: the type of the constant is its result. *)
Definition const_int (i : Z) : P TypeKind :=
  let u := ⟦i⟧32 in
  if (-64 <=? i) && (i <=? 63) then emit (Z.land i 127) ;;; pret DDS_INT_32_TYPE
  else if (0 <=? i) && (i <=? 255) then emit_op O_LCBU ;;; emit u ;;; pret DDS_UINT_32_TYPE
  else if (-128 <=? i) && (i <? 0) then emit_op O_LCBS ;;; emit u ;;; pret DDS_INT_32_TYPE
  else if (0 <=? i) && (i <=? 65535) then emit_op O_LCSU ;;; emits u ;;; pret DDS_UINT_32_TYPE
  else if (-32768 <=? i) && (i <? 0) then emit_op O_LCSS ;;; emits u ;;; pret DDS_INT_32_TYPE
  else if (0 <=? i) && (i <=? 4294967295) then emit_op O_LCWU ;;; emitl u ;;; pret DDS_UINT_32_TYPE
  else if (-2147483648 <=? i) && (i <? 0) then emit_op O_LCWS ;;; emitl u ;;; pret DDS_INT_32_TYPE
  else
    emit_op O_LCL ;;;
    emit (Z.land (Z.shiftr i 0) 255) ;;; emit (Z.land (Z.shiftr i 8) 255) ;;;
    emit (Z.land (Z.shiftr i 16) 255) ;;; emit (Z.land (Z.shiftr i 24) 255) ;;;
    emit (Z.land (Z.shiftr i 32) 255) ;;; emit (Z.land (Z.shiftr i 40) 255) ;;;
    emit (Z.land (Z.shiftr i 48) 255) ;;; emit (Z.land (Z.shiftr i 56) 255) ;;;
    pret DDS_INT_64_TYPE.

(** [const_float] *)
Definition const_float (f : Z) : P unit := emit_op O_LCD ;;; emit_list (le_bytes 8 f).

(** [const_string] *)
Definition const_string (s : list Z) : P unit := emit_op O_LCS ;;; emit_list (s ++ [0]).

(** ** Names *)

(** [field_lookup]: index and type of the named member, if both exist. *)
Fixpoint find_member (i : Z) (l : list Member) (name : list Z) : option (Z * Member) :=
  match l with
  | [] => None
  | m :: l => if strcmp name (m_name m) =? 0 then Some (i, m) else find_member (i + 1) l name
  end.

Definition field_lookup (tp : Type_) (name : list Z) : option (Z * Type_) :=
  '(i, m) ← find_member 0 (member tp) name;
  t ← xt_type_ptr libs (scope tp) (m_id m);
  Some (i, t).

(** [enum_lookup] *)
Fixpoint find_const (l : list EnumConst) (name : list Z) : option Z :=
  match l with
  | [] => None
  | c :: l => if strcmp name (ec_name c) =? 0 then Some (ec_value c) else find_const l name
  end.

Definition enum_lookup (tp : option Type_) (name : list Z) : option Z :=
  match tp with
  | None => None
  | Some t =>
      if decide (kind t = DDS_ENUMERATION_TYPE) then find_const (constant t) name else None
  end.

(** The load instruction for a field of a basic type. *)
Definition load_op (k : TypeKind) : option Op :=
  match k with
  | DDS_INT_16_TYPE => Some O_LDSS
  | DDS_UINT_16_TYPE => Some O_LDSU
  | DDS_INT_32_TYPE | DDS_ENUMERATION_TYPE => Some O_LDWS
  | DDS_CHAR_32_TYPE | DDS_UINT_32_TYPE => Some O_LDWU
  | DDS_INT_64_TYPE | DDS_UINT_64_TYPE => Some O_LDL
  | DDS_FLOAT_32_TYPE => Some O_LDF
  | DDS_FLOAT_64_TYPE => Some O_LDD
  | DDS_FLOAT_128_TYPE => Some O_LDO
  | DDS_BOOLEAN_TYPE | DDS_BYTE_TYPE => Some O_LDBU
  | DDS_CHAR_8_TYPE => Some O_LDBS
  | DDS_STRING_TYPE => Some O_LDS
  | _ => None
  end.

(** The [for] loop of [identifier]; only a structure has members. *)
Fixpoint identifier_loop (fuel : nat) (tcp : Type_) (enum_ok : bool) : P TypeKind :=
  match fuel with
  | O => pfuel
  | S fuel =>
      d <-- pget ;;
      if negb (is_struct tcp) then pundef
      else
        match field_lookup tcp (ident (scan d)) with
        | None =>
            match (if enum_ok then enum_lookup (Some tcp) (ident (scan d)) else None) with
            | None => parse_error PE_UNKN_NAME (Some (ident (scan d)))
            | Some v => const_int v
            end
        | Some (ofs, tcp) =>
            if decide (kind tcp = DDS_STRUCTURE_TYPE) then
              emit_op O_CREF ;;; emits ofs ;;; next_token ;;; expect TK_DOT ;;;
              t <-- cur_token ;;
              if decide (t = TK_ID) then identifier_loop fuel tcp enum_ok
              else
                pmod (set_error 1) ;;;
                parse_error PE_SYNTAX (Some (lit "field/struct name"))
            else if bool_decide (kind tcp = DDS_UNION_TYPE)
                    || bool_decide (kind tcp = DDS_SEQUENCE_TYPE)
                    || bool_decide (kind tcp = DDS_ARRAY_TYPE)
            then parse_error PE_INC_TYPES None
            else
              match load_op (kind tcp) with
              | Some o => emit_op o ;;; emits ofs ;;; pret (kind tcp)
              | None => parse_error PE_INC_TYPES None
              end
        end
  end.

(** [identifier] *)
Definition identifier (fuel : nat) (enum_ok : bool) : P TypeKind :=
  d <-- pget ;;
  ts <-- pacc (tc d) ;;
  tcp <-- pacc (ts_cdr ts) ;;
  identifier_loop fuel tcp enum_ok.

(** [parameter] *)
Definition parameter : P TypeKind :=
  d <-- pget ;;
  match ptype (scan d) with
  | PT_INT => const_int (integer (scan d))
  | PT_CHAR => const_int ⟦schar (character (scan d))⟧32 ;;; pret DDS_CHAR_8_TYPE
  | PT_FLOAT => const_float (float_num (scan d)) ;;; pret DDS_FLOAT_64_TYPE
  | PT_STRING => const_string (string_ (scan d)) ;;; pret DDS_STRING_TYPE
  | PT_PARAM =>
      let idx := par_index (scan d) in
      emit_op O_LPS ;;; emit idx ;;;
      pmod (fun d => if bc_npars d <=? idx then set_npars ⟦idx + 1⟧32 d else d) ;;;
      pret DDS_TYPEKIND_MAX
  end.

(** [id_or_parameter] *)
Definition id_or_parameter (fuel : nat) : P TypeKind :=
  t <-- cur_token ;;
  if decide (t = TK_ID) then identifier fuel true
  else if decide (t = TK_PARAM) then parameter
  else expect TK_ID ;;; pundef.

(** ** Typing of predicates *)

Definition T_PAR : TypeKind := DDS_TYPEKIND_MAX.

Definition is_par (t : TypeKind) : bool := bool_decide (t = T_PAR).
Definition is_string (t : TypeKind) : bool := bool_decide (t = DDS_STRING_TYPE).
Definition is_char (t : TypeKind) : bool :=
  bool_decide (t = DDS_CHAR_8_TYPE) || bool_decide (t = DDS_CHAR_32_TYPE).

(** [check_types] *)
Definition check_types (t1 t2 : TypeKind) : P unit :=
  if is_par t1 || is_par t2 then pret tt
  else if (is_string t1 && is_char t2) || (is_string t2 && is_char t1) then pret tt
  else if negb (Bool.eqb (is_string t1) (is_string t2)) then parse_error PE_INC_TYPES None
  else pret tt.

(** [type_size] *)
Definition type_size_opt (t : TypeKind) : option Z :=
  match t with
  | DDS_BYTE_TYPE | DDS_BOOLEAN_TYPE | DDS_CHAR_8_TYPE | DDS_UINT_16_TYPE | DDS_INT_16_TYPE
  | DDS_UINT_32_TYPE | DDS_INT_32_TYPE | DDS_ENUMERATION_TYPE => Some 4
  | DDS_UINT_64_TYPE | DDS_INT_64_TYPE => Some 8
  | DDS_FLOAT_32_TYPE | DDS_FLOAT_64_TYPE => Some 12
  | DDS_FLOAT_128_TYPE => Some 16
  | DDS_STRING_TYPE | DDS_TYPEKIND_MAX => Some 0
  | _ => None
  end.

Definition type_size (t : TypeKind) : P Z :=
  match type_size_opt t with Some n => pret n | None => parse_error PE_INC_TYPES None end.

(** [emit_compare] *)
Definition compare_op (t : TypeKind) : option Op :=
  match t with
  | DDS_BYTE_TYPE | DDS_BOOLEAN_TYPE | DDS_UINT_16_TYPE | DDS_UINT_32_TYPE => Some O_CMPWU
  | DDS_CHAR_8_TYPE | DDS_CHAR_32_TYPE | DDS_INT_16_TYPE | DDS_INT_32_TYPE
  | DDS_ENUMERATION_TYPE => Some O_CMPWS
  | DDS_UINT_64_TYPE => Some O_CMPLU
  | DDS_INT_64_TYPE => Some O_CMPLS
  | DDS_FLOAT_32_TYPE | DDS_FLOAT_64_TYPE => Some O_CMPD
  | DDS_FLOAT_128_TYPE => Some O_CMPO
  | DDS_STRING_TYPE => Some O_CMPS
  | _ => None
  end.

Definition emit_compare (t : TypeKind) : P unit :=
  match compare_op t with Some o => emit_op o | None => parse_error PE_INC_TYPES None end.

(** [relop_set] *)
Definition relop (t : Token) : bool :=
  match t with
  | TK_EQ | TK_GT | TK_GE | TK_LT | TK_LE | TK_NE | TK_LIKE => true
  | _ => false
  end.

(** [ins_before]: the shifting loop writes from index [i] down to
    [ofs + 1]. *)
Fixpoint shift_loop (k : nat) (ofs : Z) : P unit :=
  match k with
  | O => pret tt
  | S k =>
      let i := ofs + Z.of_nat (S k) in
      x <-- get_at_pc (i - 1) ;; set_at_pc i x ;;; shift_loop k ofs
  end.

Definition ins_before (ofs : Z) (x : Op) : P unit :=
  emit_op O_NOP ;;;
  d <-- pget ;;
  shift_loop (Z.to_nat (cur_pc d - ofs)) ofs ;;;
  set_at_pc ofs (op_byte x).

(** [convertn] *)
Definition is_ll (t : TypeKind) : bool :=
  bool_decide (t = DDS_INT_64_TYPE) || bool_decide (t = DDS_UINT_64_TYPE).
Definition is_fd (t : TypeKind) : bool :=
  bool_decide (t = DDS_FLOAT_32_TYPE) || bool_decide (t = DDS_FLOAT_64_TYPE).
Definition is_ld (t : TypeKind) : bool := bool_decide (t = DDS_FLOAT_128_TYPE).

Definition convertn (t1 t2 : TypeKind) : Op :=
  match t1 with
  | DDS_BOOLEAN_TYPE | DDS_BYTE_TYPE | DDS_UINT_16_TYPE | DDS_UINT_32_TYPE =>
      if is_ll t2 then O_WU2L else if is_fd t2 then O_WU2D else if is_ld t2 then O_WU2O else O_NOP
  | DDS_CHAR_8_TYPE | DDS_CHAR_32_TYPE | DDS_INT_16_TYPE | DDS_INT_32_TYPE =>
      if is_ll t2 then O_WS2L else if is_fd t2 then O_WS2D else if is_ld t2 then O_WS2O else O_NOP
  | DDS_UINT_64_TYPE =>
      if is_fd t2 then O_LU2D else if is_ld t2 then O_LU2O else O_NOP
  | DDS_INT_64_TYPE =>
      if is_fd t2 then O_LS2D else if is_ld t2 then O_LS2O else O_NOP
  | DDS_FLOAT_32_TYPE | DDS_FLOAT_64_TYPE => if is_ld t2 then O_D2O else O_NOP
  | _ => O_NOP
  end.

(** [lpar_type]: [None] past the end of the table. *)
Definition lpar_type (t : TypeKind) : option Op :=
  match t with
  | DDS_BOOLEAN_TYPE | DDS_BYTE_TYPE => Some O_LPBU
  | DDS_INT_16_TYPE => Some O_LPSS
  | DDS_UINT_16_TYPE => Some O_LPSU
  | DDS_INT_32_TYPE => Some O_LPWS
  | DDS_UINT_32_TYPE => Some O_LPWU
  | DDS_INT_64_TYPE | DDS_UINT_64_TYPE => Some O_LPL
  | DDS_FLOAT_32_TYPE => Some O_LPF
  | DDS_FLOAT_64_TYPE => Some O_LPD
  | DDS_FLOAT_128_TYPE => Some O_LPO
  | DDS_CHAR_8_TYPE => Some O_LPBS
  | DDS_CHAR_32_TYPE => Some O_LPWS
  | DDS_STRING_TYPE => Some O_LPS
  | DDS_TYPEKIND_MAX => None
  | _ => Some O_NOP
  end.

(** [set_at_pc (pdp, ofs, lpar_type (t))] *)
Definition set_lpar (ofs : Z) (t : TypeKind) : P unit :=
  o <-- pacc (lpar_type t) ;; set_at_pc ofs (op_byte o).

(** The branch condition of a comparison: the one under which it fails. *)
Definition cmp_cond (cmp : Token) : option Cond :=
  match cmp with
  | TK_EQ => Some C_NE
  | TK_NE => Some C_EQ
  | TK_GT => Some C_LE
  | TK_GE => Some C_LT
  | TK_LT => Some C_GE
  | TK_LE => Some C_GT
  | TK_LIKE => Some C_F
  | _ => None
  end.

(** ** Predicates *)

(** The coercions of [comp_predicate]; the result is the type compared at. *)
Definition comp_coerce (t1 t2 : TypeKind) (t1_ofs t2_ofs ts1 ts2 : Z) : P TypeKind :=
  if is_par t1 then
    if is_par t2 || is_string t2 then pret DDS_STRING_TYPE
    else set_lpar t1_ofs t2 ;;; pret t2
  else if is_par t2 then set_lpar t2_ofs t1 ;;; pret t1
  else if is_string t2 && is_char t1 then ins_before t2_ofs O_C2S ;;; pret t2
  else if is_string t1 && is_char t2 then emit_op O_C2S ;;; pret t1
  else if ts2 <? ts1 then emit_op (convertn t2 t1) ;;; pret t1
  else if ts1 <? ts2 then ins_before t2_ofs (convertn t1 t2) ;;; pret t2
  else pret t1.

(** [comp_predicate]; [None] leaves the data object uninitialised. *)
Definition comp_predicate (fuel : nat) (t1 : TypeKind) (t1_ofs : Z) : P (option DataObject) :=
  cmp <-- cur_token ;;
  next_token ;;;
  d <-- pget ;;
  let t2_ofs := cur_pc d in
  t2 <-- id_or_parameter fuel ;;
  next_token ;;;
  d <-- pget ;;
  if negb (error d =? 0) then pret None
  else
    check_types t1 t2 ;;;
    ts1 <-- type_size t1 ;;
    ts2 <-- type_size t2 ;;
    t <-- comp_coerce t1 t2 t1_ofs t2_ofs ts1 ts2 ;;
    (if decide (cmp = TK_LIKE) then
       if negb (is_string t1) || negb (is_string t2) then parse_error PE_INC_TYPES None
       else emit_op O_LIKE
     else emit_compare t) ;;;
    match cmp_cond cmp with
    | Some c => pret (Some (mkDataObject [] [] c))
    | None => parse_error PE_INV_COMP None
    end.

(** The instruction of a BETWEEN test. *)
Definition between_op (t : TypeKind) : option Op :=
  match t with
  | DDS_BYTE_TYPE | DDS_BOOLEAN_TYPE | DDS_UINT_16_TYPE | DDS_UINT_32_TYPE => Some O_BTWWU
  | DDS_CHAR_8_TYPE | DDS_CHAR_32_TYPE | DDS_INT_16_TYPE | DDS_INT_32_TYPE => Some O_BTWWS
  | DDS_UINT_64_TYPE => Some O_BTWLU
  | DDS_INT_64_TYPE => Some O_BTWLS
  | DDS_FLOAT_32_TYPE | DDS_FLOAT_64_TYPE => Some O_BTWD
  | DDS_FLOAT_128_TYPE => Some O_BTWO
  | _ => None
  end.

(** The coercion to the type of the lower bound; the result is the new [t]. *)
Definition between_coerce (t tr1 : TypeKind) (t_ofs t1_ofs ts ts1 : Z) : P TypeKind :=
  if is_par tr1 && is_par t then set_lpar t_ofs DDS_STRING_TYPE ;;; pret DDS_STRING_TYPE
  else if is_par tr1 then set_lpar t1_ofs t ;;; pret t
  else if ts1 <? ts then emit_op (convertn tr1 t) ;;; pret t
  else if ts <? ts1 then ins_before t1_ofs (convertn t tr1) ;;; pret tr1
  else pret t.

(** [between_predicate] *)
Definition between_predicate (fuel : nat) (t : TypeKind) (t_ofs : Z) : P (option DataObject) :=
  tk <-- cur_token ;;
  (if decide (tk = TK_NOT) then next_token ;;; expect TK_BETWEEN else next_token) ;;;
  ts <-- type_size t ;;
  d <-- pget ;;
  let t1_ofs := cur_pc d in
  tr1 <-- id_or_parameter fuel ;;
  check_types t tr1 ;;;
  ts1 <-- type_size tr1 ;;
  t <-- between_coerce t tr1 t_ofs t1_ofs ts ts1 ;;
  next_token ;;;
  expect TK_AND ;;;
  d <-- pget ;;
  let t2_ofs := cur_pc d in
  tr2 <-- id_or_parameter fuel ;;
  ts2 <-- type_size tr2 ;;
  check_types t tr2 ;;;
  next_token ;;;
  (if is_par tr2 then set_lpar t2_ofs t
   else if ts2 <? ts then emit_op (convertn tr2 t)
   else pret tt) ;;;
  (match between_op t with Some o => emit_op o | None => parse_error PE_INC_TYPES None end) ;;;
  pret (Some (mkDataObject [] [] (if decide (tk = TK_NOT) then C_T else C_F))).

(** ** Conditions *)

(** [complement] *)
Definition complement (c : Cond) : Cond :=
  match c with
  | C_EQ => C_NE | C_NE => C_EQ
  | C_GT => C_LE | C_LE => C_GT
  | C_LT => C_GE | C_GE => C_LT
  | C_F => C_T | C_T => C_F
  end.

Definition cond_op (c : Cond) : Op :=
  match c with
  | C_EQ => O_BEQ | C_NE => O_BNE | C_GT => O_BGT | C_LE => O_BLE
  | C_LT => O_BLT | C_GE => O_BGE | C_F => O_BF | C_T => O_BT
  end.

(** [gen_condition] *)
Definition gen_condition (c : Cond) : P unit := emit_op (cond_op c) ;;; emits 0.

(** [bool_op] *)
Definition bool_op (op np : DataObject) : DataObject :=
  mkDataObject (merge_patches (tchain op) (tchain np)) (merge_patches (fchain op) (fchain np))
    (condition_ np).

(** The code after a factor when AND follows: leave if it is false. *)
Definition and_glue (op : DataObject) : P DataObject :=
  d <-- pget ;;
  f <-- append_patch (fchain op) (cur_pc d) ;;
  gen_condition (condition_ op) ;;;
  d <-- pget ;;
  backpatch (tchain op) (cur_pc d) ;;;
  next_token ;;;
  pret (mkDataObject [] f (condition_ op)).

(** The code after a term when OR follows: leave if it is true. *)
Definition or_glue (op : DataObject) : P DataObject :=
  d <-- pget ;;
  t <-- append_patch (tchain op) (cur_pc d) ;;
  gen_condition (complement (condition_ op)) ;;;
  d <-- pget ;;
  backpatch (fchain op) (cur_pc d) ;;;
  next_token ;;;
  pret (mkDataObject t [] (condition_ op)).

(** The predicate case of [factor]. *)
Definition predicate (fuel : nat) : P (option DataObject) :=
  d <-- pget ;;
  let t1_ofs := cur_pc d in
  t1 <-- id_or_parameter fuel ;;
  next_token ;;;
  tk <-- cur_token ;;
  if bool_decide (tk = TK_BETWEEN) || bool_decide (tk = TK_NOT)
  then between_predicate fuel t1 t1_ofs
  else if relop tk then comp_predicate fuel t1 t1_ofs
  else expect TK_EQ ;;; pret None.

(** [factor], [term] and [condition] with their loops. *)
Fixpoint factor (fuel : nat) : P (option DataObject) :=
  match fuel with
  | O => pfuel
  | S fuel =>
      tk <-- cur_token ;;
      if decide (tk = TK_NOT) then
        next_token ;;;
        o <-- factor fuel ;;
        op <-- pacc o ;;
        pret (Some (mkDataObject (fchain op) (tchain op) (complement (condition_ op))))
      else if decide (tk = TK_LPAR) then
        next_token ;;;
        op <-- condition fuel ;;
        expect TK_RPAR ;;;
        pret op
      else predicate fuel
  end

with term_loop (fuel : nat) (o : option DataObject) : P (option DataObject) :=
  match fuel with
  | O => pfuel
  | S fuel =>
      tk <-- cur_token ;;
      if decide (tk = TK_AND) then
        op <-- pacc o ;;
        op <-- and_glue op ;;
        n <-- factor fuel ;;
        np <-- pacc n ;;
        term_loop fuel (Some (bool_op op np))
      else pret o
  end

with condition_loop (fuel : nat) (o : option DataObject) : P (option DataObject) :=
  match fuel with
  | O => pfuel
  | S fuel =>
      tk <-- cur_token ;;
      if decide (tk = TK_OR) then
        op <-- pacc o ;;
        op <-- or_glue op ;;
        n <-- factor fuel ;;
        n <-- term_loop fuel n ;;
        np <-- pacc n ;;
        condition_loop fuel (Some (bool_op op np))
      else pret o
  end

with condition (fuel : nat) : P (option DataObject) :=
  match fuel with
  | O => pfuel
  | S fuel =>
      o <-- factor fuel ;;
      o <-- term_loop fuel o ;;
      condition_loop fuel o
  end.

(** [patch_out] *)
Definition patch_out (op : DataObject) : P unit :=
  d <-- pget ;;
  f <-- append_patch (fchain op) (cur_pc d) ;;
  gen_condition (condition_ op) ;;;
  d <-- pget ;;
  backpatch (tchain op) (cur_pc d) ;;;
  emit_op O_RETT ;;;
  d <-- pget ;;
  backpatch f (cur_pc d) ;;;
  emit_op O_RETF.

(** ** Entry points *)

(** The outcome of a compilation: the error code and what was stored in the
    programs. *)
Inductive compile_res :=
| CDone (err : Z) (prog : option BCProgram)
| CUndef
| CFuel.

(** The program emitted so far. *)
Definition emitted (d : ParseData) : BCProgram :=
  mkBCProgram (ztake (cur_pc d) (bc_data d)) (bc_npars d).

Definition SCAN_BUFSIZE : Z := 80.

Definition parse_init (s : list Z) (ts : option TypeSupport) : ParseData :=
  mkParse (sql_start_scan s (scan_init SCAN_BUFSIZE)) [] 0 0 ts 0 (replicate 48 0).

(** [sql_parse_filter], for a non-NULL program; [None] is a NULL argument. *)
Definition filter_body (fuel : nat) : P unit :=
  next_token ;;;
  o <-- condition fuel ;;
  op <-- pacc o ;;
  patch_out op ;;;
  expect TK_EOL.

Definition sql_parse_filter (fuel : nat) (ts : option TypeSupport) (s : option (list Z))
  : compile_res :=
  match ts, s with
  | Some ts, Some s =>
      match filter_body fuel (parse_init s (Some ts)) with
      | POk _ d => CDone (error d) (if error d =? 0 then Some (emitted d) else None)
      | PJmp d => CDone (error d) None
      | PUndef => CUndef
      | PFuel => CFuel
      end
  | _, _ => CDone 1 None
  end.

(** [sql_parse_topic]: no type is set up for the condition. *)
Definition sql_parse_topic (fuel : nat) (s : option (list Z)) : compile_res :=
  match s with
  | None => CDone 1 None
  | Some s =>
      let body :=
        next_token ;;;
        select_from fuel ;;;
        t <-- cur_token ;;
        (if decide (t = TK_WHERE) then next_token ;;; condition fuel ;;; pret tt else pret tt) ;;;
        expect TK_SEMI ;;;
        expect TK_EOL in
      match body (parse_init s None) with
      | POk _ d | PJmp d => CDone (error d) None
      | PUndef => CUndef
      | PFuel => CFuel
      end
  end.

(** One key of ORDER BY: compare the field in both samples. *)
Definition order_key (fuel : nat) : P unit :=
  emit_op O_DS0 ;;;
  d <-- pget ;;
  let ofs := cur_pc d in
  type <-- identifier fuel false ;;
  expect TK_ID ;;;
  d <-- pget ;;
  let nofs := cur_pc d in
  emit_op O_DS1 ;;;
  emit_list (ztake (nofs - ofs) (zdrop ofs (bc_data d))) ;;;
  emit_compare type.

(** The loop over the further keys.  It does not check that an identifier
    follows the comma: [identifier] then reads the text of another token,
    which the model does not follow. *)
Fixpoint order_loop (fuel : nat) : P unit :=
  match fuel with
  | O => pfuel
  | S fuel =>
      t <-- cur_token ;;
      if decide (t = TK_COMMA) then
        emit_op O_CRNE ;;; next_token ;;;
        t <-- cur_token ;;
        (if decide (t = TK_ID) then order_key fuel else pundef) ;;;
        order_loop fuel
      else pret tt
  end.

(** [sql_parse_query]: the match program is stored before ORDER BY is
    parsed, and stays stored when that fails; of the order program only the
    code is stored, its number of parameters is left as it was. *)
Inductive query_res :=
| QDone (err : Z) (mprog : option BCProgram) (oprog : option (list Z))
| QUndef
| QFuel.

Definition query_match (fuel : nat) : P unit :=
  next_token ;;;
  t <-- cur_token ;;
  if bool_decide (t <> TK_ORDER) && bool_decide (t <> TK_EOL) then
    o <-- condition fuel ;;
    op <-- pacc o ;;
    patch_out op
  else pret tt.

Definition query_order (fuel : nat) : P unit :=
  t <-- cur_token ;;
  (if decide (t = TK_ORDER) then
     next_token ;;;
     expect TK_BY ;;;
     t <-- cur_token ;;
     if decide (t = TK_ID) then
       order_key fuel ;;; order_loop fuel ;;; emit_op O_RETC
     else parse_error PE_SYNTAX (Some (lit "Identifier"))
   else pret tt) ;;;
  expect TK_EOL.

Definition sql_parse_query (fuel : nat) (ts : option TypeSupport) (s : option (list Z))
  : query_res :=
  match ts, s with
  | Some ts, Some s =>
      match query_match fuel (parse_init s (Some ts)) with
      | POk _ d =>
          let mprog := if error d =? 0 then Some (emitted d) else None in
          match query_order fuel (set_bc [] 0 d) with
          | POk _ d => QDone (error d) mprog (if error d =? 0 then Some (p_buffer (emitted d)) else None)
          | PJmp d => QDone (error d) mprog None
          | PUndef => QUndef
          | PFuel => QFuel
          end
      | PJmp d => QDone (error d) None None
      | PUndef => QUndef
      | PFuel => QFuel
      end
  | _, _ => QDone 1 None None
  end.

End Parser.
