(* ===== verification/SqlSem.v ===== *)
(** The meaning of a filter expression, independent of the bytecode: the
    abstract syntax of sql.g, the values its operands denote on a sample, the
    type a predicate is decided at, and the truth value of a condition.

    The results are three-valued: [Ok], [Fail] for an error the interpreter
    reports (a sample without the field, a missing parameter), and [Stuck]
    when the sample memory itself is read out of bounds. *)

From S2P Require Import Prelude CLib TypeData NMatch Scan Bytecode Parse.

(** ** Abstract syntax *)

Inductive operand :=
| OpField (path : list Z) (f : Z) (k : TypeKind)  (** member indices and leaf kind *)
| OpInt (z : Z)
| OpChar (c : Z)
| OpFloat (d : Z)
| OpStr (s : list Z)
| OpPar (i : Z).

Inductive expr :=
| EComp (cmp : Token) (a b : operand)
| EBetween (neg : bool) (a lo hi : operand)
| ENot (e : expr)
| EAnd (e1 e2 : expr)
| EOr (e1 e2 : expr).

(** The kind of an integer constant depends on its magnitude. *)
Definition int_kind (i : Z) : TypeKind :=
  if (-64 <=? i) && (i <=? 63) then DDS_INT_32_TYPE
  else if (0 <=? i) && (i <=? 4294967295) then DDS_UINT_32_TYPE
  else if (-2147483648 <=? i) && (i <? 0) then DDS_INT_32_TYPE
  else DDS_INT_64_TYPE.

Definition okind (o : operand) : TypeKind :=
  match o with
  | OpField _ _ k => k
  | OpInt z => int_kind z
  | OpChar _ => DDS_CHAR_8_TYPE
  | OpFloat _ => DDS_FLOAT_64_TYPE
  | OpStr _ => DDS_STRING_TYPE
  | OpPar _ => T_PAR
  end.

(** ** Results *)

Inductive res (A : Type) := Ok (a : A) | Fail | Stuck.
Arguments Ok {A} a.
Arguments Fail {A}.
Arguments Stuck {A}.

Definition rbind {A B} (r : res A) (f : A -> res B) : res B :=
  match r with Ok a => f a | Fail => Fail | Stuck => Stuck end.

Definition of_opt {A} (o : option A) : res A :=
  match o with Some a => Ok a | None => Stuck end.

(** ** Values *)

Inductive val :=
| VInt (z : Z)
| VDbl (d : Z)
| VLd (o : Z)
| VStr (s : list Z).

(** The alignment and the size of a field, as [data_ptr] needs them. *)
Definition kind_align (k : TypeKind) : Z :=
  match k with
  | DDS_BOOLEAN_TYPE | DDS_BYTE_TYPE | DDS_CHAR_8_TYPE => 1
  | DDS_INT_16_TYPE | DDS_UINT_16_TYPE => 2
  | DDS_INT_64_TYPE | DDS_UINT_64_TYPE | DDS_FLOAT_64_TYPE => 8
  | DDS_FLOAT_128_TYPE => 16
  | _ => 4
  end.

(** The value of a field of a basic kind at the start of a memory area. *)
Definition field_val (k : TypeKind) (mem : list Z) : option val :=
  let num size (f : Z -> val) := (fun bs => f (le_val bs)) <$> zslice mem 0 size in
  match k with
  | DDS_BOOLEAN_TYPE | DDS_BYTE_TYPE => num 1 (fun w => VInt ⟦w⟧32)
  | DDS_CHAR_8_TYPE => num 1 (fun w => VInt ⟪w⟫8)
  | DDS_INT_16_TYPE => num 2 (fun w => VInt ⟪w⟫16)
  | DDS_UINT_16_TYPE => num 2 (fun w => VInt ⟦w⟧32)
  | DDS_INT_32_TYPE | DDS_ENUMERATION_TYPE => num 4 (fun w => VInt ⟪w⟫32)
  | DDS_UINT_32_TYPE | DDS_CHAR_32_TYPE => num 4 (fun w => VInt ⟦w⟧32)
  | DDS_INT_64_TYPE => num 8 (fun w => VInt ⟪w⟫64)
  | DDS_UINT_64_TYPE => num 8 (fun w => VInt ⟦w⟧64)
  | DDS_FLOAT_32_TYPE => num 4 (fun w => VDbl (d_of_float w))
  | DDS_FLOAT_64_TYPE => num 8 (fun w => VDbl ⟦w⟧64)
  | DDS_FLOAT_128_TYPE => num 16 (fun w => VLd (wrap 80 w))
  | DDS_STRING_TYPE => VStr <$> cstring mem
  | _ => None
  end.

(** The value of a parameter that is compared at kind [k]. *)
Definition par_val (k : TypeKind) (s : list Z) : val :=
  match k with
  | DDS_STRING_TYPE | DDS_TYPEKIND_MAX => VStr s
  | DDS_FLOAT_32_TYPE | DDS_FLOAT_64_TYPE => VDbl (strtod s)
  | DDS_FLOAT_128_TYPE => VLd (strtold s)
  | _ => VInt (strtol s)
  end.

(** A value at the kind a predicate is decided at. *)
Definition coerce (k : TypeKind) (v : val) : option val :=
  match k with
  | DDS_BOOLEAN_TYPE | DDS_BYTE_TYPE | DDS_UINT_16_TYPE | DDS_UINT_32_TYPE =>
      match v with VInt z => Some (VInt ⟦z⟧32) | _ => None end
  | DDS_CHAR_8_TYPE | DDS_INT_16_TYPE | DDS_INT_32_TYPE | DDS_ENUMERATION_TYPE =>
      match v with VInt z => Some (VInt ⟪z⟫32) | _ => None end
  | DDS_UINT_64_TYPE => match v with VInt z => Some (VInt ⟦z⟧64) | _ => None end
  | DDS_INT_64_TYPE => match v with VInt z => Some (VInt ⟪z⟫64) | _ => None end
  | DDS_FLOAT_32_TYPE | DDS_FLOAT_64_TYPE =>
      match v with VInt z => Some (VDbl (d_of_Z z)) | VDbl d => Some (VDbl d) | _ => None end
  | DDS_FLOAT_128_TYPE =>
      match v with
      | VInt z => Some (VLd (o_of_Z z))
      | VDbl d => Some (VLd (o_of_double d))
      | VLd o => Some (VLd o)
      | _ => None
      end
  | DDS_STRING_TYPE =>
      match v with
      | VStr s => Some (VStr s)
      | VInt c => Some (VStr (if ⟦c⟧8 =? 0 then [] else [⟦c⟧8]))
      | _ => None
      end
  | _ => None
  end.

(** Three-way comparison of two values of one kind; an unordered pair of
    floating-point values counts as less. *)
Definition val_cmp (v1 v2 : val) : option Z :=
  match v1, v2 with
  | VInt a, VInt b => Some (cmp3 (a =? b) (b <? a))
  | VDbl a, VDbl b => Some (if sf_gt (d_sf a) (d_sf b) then 1
                            else if sf_eq (d_sf a) (d_sf b) then 0 else -1)
  | VLd a, VLd b => Some (if sf_gt (o_sf a) (o_sf b) then 1
                          else if sf_eq (o_sf a) (o_sf b) then 0 else -1)
  | VStr a, VStr b => Some (strcmp a b)
  | _, _ => None
  end.

Definition val_le (v1 v2 : val) : option bool :=
  match v1, v2 with
  | VInt a, VInt b => Some (a <=? b)
  | VDbl a, VDbl b => Some (sf_le (d_sf a) (d_sf b))
  | VLd a, VLd b => Some (sf_le (o_sf a) (o_sf b))
  | _, _ => None
  end.

(** The truth of a relation, given the three-way comparison. *)
Definition rel_holds (cmp : Token) (r : Z) : bool :=
  match cmp with
  | TK_EQ => r =? 0
  | TK_NE => negb (r =? 0)
  | TK_GT => 0 <? r
  | TK_GE => 0 <=? r
  | TK_LT => r <? 0
  | TK_LE => r <=? 0
  | _ => false
  end.

(** ** Typing *)

(** The kind a comparison is decided at: the other operand's for a
    parameter, a string for a string and a character, else the wider one,
    the left one on a tie. *)
Definition comp_kind (k1 k2 : TypeKind) : TypeKind :=
  if is_par k1 then if is_par k2 then DDS_STRING_TYPE else k2
  else if is_par k2 then k1
  else if is_string k2 && is_char k1 then k2
  else if is_string k1 && is_char k2 then k1
  else match type_size_opt k1, type_size_opt k2 with
       | Some s1, Some s2 => if s1 <? s2 then k2 else k1
       | _, _ => k1
       end.

(** Is there a conversion of a [k1] operand to [k2]? *)
Definition convertible (k1 k2 : TypeKind) : bool := negb (bool_decide (convertn k1 k2 = O_NOP)).

Definition par_ok (k : TypeKind) : bool :=
  match lpar_type k with Some o => negb (bool_decide (o = O_NOP)) | None => false end.

Definition size_of (k : TypeKind) : Z := default (-1) (type_size_opt k).

(** The comparisons that have a meaning: an enumeration has no parameters
    and does not convert to a wider kind. *)
Definition comp_wt (k1 k2 : TypeKind) : bool :=
  if is_par k1 then is_par k2 || par_ok k2
  else if is_par k2 then par_ok k1
  else if (is_string k2 && is_char k1) || (is_string k1 && is_char k2) then true
  else if size_of k2 <? size_of k1 then convertible k2 k1
  else if size_of k1 <? size_of k2 then convertible k1 k2
  else true.

(** The kind a BETWEEN is decided at: the wider one of the operand and the
    lower bound. *)
Definition between_kind (k k1 : TypeKind) : TypeKind :=
  if is_par k1 then k else if size_of k <? size_of k1 then k1 else k.

(** The BETWEEN predicates that have a meaning: the operand is not a
    parameter, and the upper bound is of the size of the operand or converts
    to it. *)
Definition between_wt (k k1 k2 : TypeKind) : bool :=
  let t := between_kind k k1 in
  negb (is_par k)
  && (if is_par k1 then true
      else if size_of k1 <? size_of k then convertible k1 k
      else if size_of k <? size_of k1 then convertible k k1
      else true)
  && (if is_par k2 then true
      else if size_of k2 <? size_of k then convertible k2 t
      else size_of k2 =? size_of t).

Fixpoint wt (e : expr) : bool :=
  match e with
  | EComp TK_LIKE a b => true
  | EComp _ a b => comp_wt (okind a) (okind b)
  | EBetween _ a lo hi => between_wt (okind a) (okind lo) (okind hi)
  | ENot e => wt e
  | EAnd e1 e2 | EOr e1 e2 => wt e1 && wt e2
  end.

(** ** Evaluation on a sample *)

Section Eval.
Context `{CdrOffset}.
Context (strdup_ok : list Z -> bool).
Context (env : Env).

(** Follow a path of members into nested structures. *)
Fixpoint walk (path : list Z) (tp : option Type_) (ofs : Z) : res (option Type_ * Z) :=
  match path with
  | [] => Ok (tp, ofs)
  | f :: path =>
      rbind (of_opt (data_container env (data env) tp f ofs)) (fun '(rc, tp, ofs) =>
      if negb (rc =? 0) then Fail else walk path tp ofs)
  end.

Definition is_str_kind (k : TypeKind) : bool := bool_decide (k = DDS_STRING_TYPE).

Definition eval_field (path : list Z) (f : Z) (k : TypeKind) : res val :=
  rbind (walk path (ts_cdr (dts env)) 0) (fun '(tp, ofs) =>
  rbind (of_opt (data_ptr env (data env) tp f (kind_align k) (is_str_kind k) ofs)) (fun mem =>
  match mem with
  | None => Fail
  | Some mem => of_opt (field_val k mem)
  end)).

(** An operand of a predicate that is decided at kind [k]. *)
Definition eval_operand (k : TypeKind) (o : operand) : res val :=
  match o with
  | OpField path f fk => eval_field path f fk
  | OpInt z => Ok (VInt z)
  | OpChar c => Ok (VInt (schar c))
  | OpFloat d => Ok (VDbl ⟦d⟧64)
  | OpStr s => Ok (VStr s)
  | OpPar i => match default [] (pars env) !! Z.to_nat i with
               | Some s => Ok (par_val k s)
               | None => Fail
               end
  end.

Definition eval_comp (cmp : Token) (a b : operand) : res bool :=
  let k := comp_kind (okind a) (okind b) in
  rbind (eval_operand k a) (fun va =>
  rbind (eval_operand k b) (fun vb =>
  if decide (cmp = TK_LIKE) then
    match va, vb with
    | VStr name, VStr pat => Ok (nmatch strdup_ok (Some pat) (Some name) NM_SQL =? 0)
    | _, _ => Stuck
    end
  else
    rbind (of_opt (va ← coerce k va; vb ← coerce k vb; val_cmp va vb)) (fun r =>
    Ok (rel_holds cmp r)))).

Definition eval_between (neg : bool) (a lo hi : operand) : res bool :=
  let k := between_kind (okind a) (okind lo) in
  rbind (eval_operand k a) (fun va =>
  rbind (eval_operand k lo) (fun vl =>
  rbind (eval_operand k hi) (fun vh =>
  rbind (of_opt (va ← coerce k va; vl ← coerce k vl; vh ← coerce k vh;
                 b1 ← val_le vl va; b2 ← val_le va vh; Some (b1 && b2))) (fun b =>
  Ok (xorb neg b))))).

Fixpoint eval (e : expr) : res bool :=
  match e with
  | EComp cmp a b => eval_comp cmp a b
  | EBetween neg a lo hi => eval_between neg a lo hi
  | ENot e => rbind (eval e) (fun b => Ok (negb b))
  | EAnd e1 e2 => rbind (eval e1) (fun b => if b then eval e2 else Ok false)
  | EOr e1 e2 => rbind (eval e1) (fun b => if b then Ok true else eval e2)
  end.

End Eval.

(** ** Concrete syntax

    The grammar of sql.g as relations between scanner positions: an
    expression is read from one current token to the next one after it. *)

Section Grammar.
Context (xmalloc_ok : Z -> bool) (kt : KwTable) (libs : TypeLibs).

Definition nt (s s' : ScanData) : Prop := sql_next_token xmalloc_ok kt s = Some s'.

(** A field name: identifiers joined by dots, through structures. *)
Inductive g_field : Type_ -> ScanData -> list Z -> Z -> TypeKind -> ScanData -> Prop :=
| g_leaf t s f t' :
    field_lookup libs t (ident s) = Some (f, t') ->
    kind t' <> DDS_STRUCTURE_TYPE ->
    g_field t s [] f (kind t') s
| g_nested t s f t' s1 s2 path g k s' :
    field_lookup libs t (ident s) = Some (f, t') ->
    kind t' = DDS_STRUCTURE_TYPE ->
    nt s s1 -> token s1 = TK_DOT -> nt s1 s2 -> token s2 = TK_ID ->
    g_field t' s2 path g k s' ->
    g_field t s (f :: path) g k s'.

(** An operand; [s'] is at its last token. *)
Inductive g_operand (top : Type_) : ScanData -> operand -> ScanData -> Prop :=
| g_op_field s path f k s' :
    token s = TK_ID -> g_field top s path f k s' -> g_operand top s (OpField path f k) s'
| g_op_int s : token s = TK_PARAM -> ptype s = PT_INT -> g_operand top s (OpInt (integer s)) s
| g_op_char s : token s = TK_PARAM -> ptype s = PT_CHAR -> g_operand top s (OpChar (character s)) s
| g_op_float s : token s = TK_PARAM -> ptype s = PT_FLOAT -> g_operand top s (OpFloat (float_num s)) s
| g_op_str s : token s = TK_PARAM -> ptype s = PT_STRING -> g_operand top s (OpStr (string_ s)) s
| g_op_par s : token s = TK_PARAM -> ptype s = PT_PARAM -> g_operand top s (OpPar (par_index s)) s.

Inductive g_pred (top : Type_) : ScanData -> expr -> ScanData -> Prop :=
| g_comp s a s1 s2 s3 b s4 s' :
    g_operand top s a s1 -> nt s1 s2 -> relop (token s2) = true ->
    nt s2 s3 -> g_operand top s3 b s4 -> nt s4 s' ->
    g_pred top s (EComp (token s2) a b) s'
| g_between s a s1 s2 s3 lo s4 s5 s6 hi s7 s' :
    g_operand top s a s1 -> nt s1 s2 -> token s2 = TK_BETWEEN -> nt s2 s3 ->
    g_operand top s3 lo s4 -> nt s4 s5 -> token s5 = TK_AND -> nt s5 s6 ->
    g_operand top s6 hi s7 -> nt s7 s' ->
    g_pred top s (EBetween false a lo hi) s'
| g_not_between s a s1 s2 s2' s3 lo s4 s5 s6 hi s7 s' :
    g_operand top s a s1 -> nt s1 s2 -> token s2 = TK_NOT -> nt s2 s2' ->
    token s2' = TK_BETWEEN -> nt s2' s3 ->
    g_operand top s3 lo s4 -> nt s4 s5 -> token s5 = TK_AND -> nt s5 s6 ->
    g_operand top s6 hi s7 -> nt s7 s' ->
    g_pred top s (EBetween true a lo hi) s'.

(** Condition ::= Term { 'OR' Term }, Term ::= Factor { 'AND' Factor } and
    Factor ::= Predicate | 'NOT' Factor | '(' Condition ')'; the repetitions
    carry the expression to their left. *)
Inductive g_factor (top : Type_) : ScanData -> expr -> ScanData -> Prop :=
| g_not s s1 e s' :
    token s = TK_NOT -> nt s s1 -> g_factor top s1 e s' -> g_factor top s (ENot e) s'
| g_paren s s1 e s2 s' :
    token s = TK_LPAR -> nt s s1 -> g_cond top s1 e s2 -> token s2 = TK_RPAR -> nt s2 s' ->
    g_factor top s e s'
| g_fpred s e s' : g_pred top s e s' -> g_factor top s e s'

with g_term (top : Type_) : ScanData -> expr -> ScanData -> Prop :=
| g_term_intro s e1 s1 e s' :
    g_factor top s e1 s1 -> g_terms top e1 s1 e s' -> g_term top s e s'

with g_terms (top : Type_) : expr -> ScanData -> expr -> ScanData -> Prop :=
| g_terms_stop e s : token s <> TK_AND -> g_terms top e s e s
| g_terms_and e1 s s1 e2 s2 e s' :
    token s = TK_AND -> nt s s1 -> g_factor top s1 e2 s2 -> g_terms top (EAnd e1 e2) s2 e s' ->
    g_terms top e1 s e s'

with g_cond (top : Type_) : ScanData -> expr -> ScanData -> Prop :=
| g_cond_intro s e1 s1 e s' :
    g_term top s e1 s1 -> g_conds top e1 s1 e s' -> g_cond top s e s'

with g_conds (top : Type_) : expr -> ScanData -> expr -> ScanData -> Prop :=
| g_conds_stop e s : token s <> TK_OR -> g_conds top e s e s
| g_conds_or e1 s s1 e2 s2 e s' :
    token s = TK_OR -> nt s s1 -> g_term top s1 e2 s2 -> g_conds top (EOr e1 e2) s2 e s' ->
    g_conds top e1 s e s'.

(** The text [str] is the filter expression [e] over the type [top]. *)
Definition filter_syntax (top : Type_) (str : list Z) (e : expr) : Prop :=
  exists s s', nt (sql_start_scan str (scan_init SCAN_BUFSIZE)) s
               /\ g_cond top s e s' /\ token s' = TK_EOL.

(** ** The grammar is unambiguous *)

Lemma nt_fun s s1 s2 : nt s s1 -> nt s s2 -> s1 = s2.
Proof. unfold nt. congruence. Qed.

Ltac nt_eq := repeat match goal with
  | H1 : nt ?s ?a, H2 : nt ?s ?b |- _ =>
      lazymatch a with b => fail | _ => pose proof (nt_fun _ _ _ H1 H2); subst end
  end.

Lemma g_field_fun t s path f k s' :
  g_field t s path f k s' -> forall path2 f2 k2 s2, g_field t s path2 f2 k2 s2 ->
  path = path2 /\ f = f2 /\ k = k2 /\ s' = s2.
Proof.
  induction 1 as [t s f t' Hf Hk|t s f t' s1 s2 path g k s' Hf Hk N1 T1 N2 T2 Hg IH];
    intros path2' f2 k2 s2' H2; inversion H2; subst; try congruence; nt_eq.
  - by simplify_eq.
  - simplify_eq. match goal with H : g_field _ _ ?p _ _ ?x, Hg : g_field _ _ ?p' _ _ ?y |- ?f :: ?p' = _ :: ?p /\ _ => by apply IH in H as (-> & -> & -> & ->) end.
Qed.

Lemma g_operand_fun top s o s' :
  g_operand top s o s' -> forall o2 s2, g_operand top s o2 s2 -> o = o2 /\ s' = s2.
Proof.
  intros H o2 s2 H2. inversion H; subst; inversion H2; subst; try congruence; try done.
  match goal with H1 : g_field _ _ _ _ _ _, H2 : g_field _ _ _ _ _ _ |- _ =>
    destruct (g_field_fun _ _ _ _ _ _ H1 _ _ _ _ H2) as (-> & -> & -> & ->) end. done.
Qed.

Ltac op_eq := repeat match goal with
  | H1 : g_operand ?t ?s ?a ?x, H2 : g_operand ?t ?s ?b ?y |- _ =>
      lazymatch a with b => fail | _ => destruct (g_operand_fun _ _ _ _ H1 _ _ H2); subst end
  | H1 : g_operand ?t ?s ?a ?x, H2 : g_operand ?t ?s ?a ?y |- _ =>
      lazymatch x with y => fail | _ => destruct (g_operand_fun _ _ _ _ H1 _ _ H2); subst end
  | _ => progress nt_eq
  end.

Lemma g_pred_fun top s e s' :
  g_pred top s e s' -> forall e2 s2, g_pred top s e2 s2 -> e = e2 /\ s' = s2.
Proof.
  intros H e2 s2 H2. inversion H; subst; inversion H2; subst; op_eq; try done;
    match goal with
    | Hr : relop (token ?s) = true, Ht : token ?s = _ |- _ => by rewrite Ht in Hr
    | H1 : token ?s = _, H3 : token ?s = _ |- _ => congruence
    end.
Qed.

Lemma g_pred_token top s e s' : g_pred top s e s' -> token s = TK_ID \/ token s = TK_PARAM.
Proof. intros H. inversion H; subst; match goal with H : g_operand _ s _ _ |- _ => inversion H; subst; auto end. Qed.

Scheme g_factor_mut := Minimality for g_factor Sort Prop
  with g_term_mut := Minimality for g_term Sort Prop
  with g_terms_mut := Minimality for g_terms Sort Prop
  with g_cond_mut := Minimality for g_cond Sort Prop
  with g_conds_mut := Minimality for g_conds Sort Prop.
Combined Scheme g_cond_ind5 from g_factor_mut, g_term_mut, g_terms_mut, g_cond_mut, g_conds_mut.

Lemma grammar_fun top :
  (forall s e s', g_factor top s e s' -> forall e2 s2, g_factor top s e2 s2 -> e = e2 /\ s' = s2) /\
  (forall s e s', g_term top s e s' -> forall e2 s2, g_term top s e2 s2 -> e = e2 /\ s' = s2) /\
  (forall a s e s', g_terms top a s e s' -> forall e2 s2, g_terms top a s e2 s2 -> e = e2 /\ s' = s2) /\
  (forall s e s', g_cond top s e s' -> forall e2 s2, g_cond top s e2 s2 -> e = e2 /\ s' = s2) /\
  (forall a s e s', g_conds top a s e s' -> forall e2 s2, g_conds top a s e2 s2 -> e = e2 /\ s' = s2).
Proof.
  apply g_cond_ind5; intros;
    match goal with H : _ top _ ?e2 ?s2 |- _ = ?e2 /\ _ = ?s2 => inversion H; subst | H : _ top _ _ ?e2 ?s2 |- _ = ?e2 /\ _ = ?s2 => inversion H; subst end;
    try congruence;
    try (match goal with H : g_pred _ _ _ _ |- _ => destruct (g_pred_token _ _ _ _ H); congruence end);
    try (by eapply g_pred_fun); nt_eq; try done;
    repeat match goal with
    | IH : forall e2 s2, ?G top ?s e2 s2 -> ?e = e2 /\ ?x = s2, H : ?G top ?s _ _ |- _ =>
        destruct (IH _ _ H); clear IH; subst; nt_eq
    | IH : forall e2 s2, ?G top ?a ?s e2 s2 -> ?e = e2 /\ ?x = s2, H : ?G top ?a ?s _ _ |- _ =>
        destruct (IH _ _ H); clear IH; subst; nt_eq
    end; done.
Qed.

Lemma filter_syntax_fun top str e1 e2 :
  filter_syntax top str e1 -> filter_syntax top str e2 -> e1 = e2.
Proof.
  intros (s1 & s1' & N1 & G1 & _) (s2 & s2' & N2 & G2 & _). nt_eq.
  destruct (grammar_fun top) as (_ & _ & _ & Hc & _). by destruct (Hc _ _ _ G1 _ _ G2).
Qed.

End Grammar.
