(* ===== verification/SqlGrammar.v ===== *)
(** The grammar of sql/sql.g as it is documented, and its relation to the
    wider grammar of [SqlSem] that the compiler of filters reads.

    sql.g has comparisons between a field and a value, a value and a field
    or two fields, ranges of a field between two values, and parameters %0 to
    %99.  The grammar [g_cond] of [SqlSem] has any operand in any place, and
    the parameter numbers are those of the scanner. *)

From S2P Require Import Prelude CLib TypeData NMatch Scan Bytecode Parse SqlSem.

#[local] Open Scope Z_scope.

(** ** Documented forms *)

Definition is_field (o : operand) : bool := match o with OpField _ _ _ => true | _ => false end.

(** The nonterminal Parameter; the code has no enumerated values. *)
Definition is_value (o : operand) : bool :=
  match o with OpField _ _ _ => false | OpPar n => n <=? 99 | _ => true end.

(** All predicates of an expression have a documented form. *)
Fixpoint documented (e : expr) : bool :=
  match e with
  | EComp _ a b => (is_field a && is_value b) || (is_value a && is_field b) || (is_field a && is_field b)
  | EBetween _ a lo hi => is_field a && is_value lo && is_value hi
  | ENot e => documented e
  | EAnd e1 e2 | EOr e1 e2 => documented e1 && documented e2
  end.

Section Documented.
Context (xmalloc_ok : Z -> bool) (kt : KwTable) (libs : TypeLibs) (top : Type_).

#[local] Abbreviation nt := (nt xmalloc_ok kt).
#[local] Abbreviation g_field := (g_field xmalloc_ok kt libs).
#[local] Abbreviation g_operand := (g_operand xmalloc_ok kt libs top).
#[local] Abbreviation g_pred := (g_pred xmalloc_ok kt libs top).
#[local] Abbreviation g_factor := (g_factor xmalloc_ok kt libs top).
#[local] Abbreviation g_term := (g_term xmalloc_ok kt libs top).
#[local] Abbreviation g_terms := (g_terms xmalloc_ok kt libs top).
#[local] Abbreviation g_cond := (g_cond xmalloc_ok kt libs top).
#[local] Abbreviation g_conds := (g_conds xmalloc_ok kt libs top).

(** ** The productions of sql.g *)

Inductive d_field : ScanData -> operand -> ScanData -> Prop :=
| d_fieldname s path f k s' : token s = TK_ID -> g_field top s path f k s' -> d_field s (OpField path f k) s'.

Inductive d_value : ScanData -> operand -> ScanData -> Prop :=
| d_integer s : token s = TK_PARAM -> ptype s = PT_INT -> d_value s (OpInt (integer s)) s
| d_char s : token s = TK_PARAM -> ptype s = PT_CHAR -> d_value s (OpChar (character s)) s
| d_float s : token s = TK_PARAM -> ptype s = PT_FLOAT -> d_value s (OpFloat (float_num s)) s
| d_string s : token s = TK_PARAM -> ptype s = PT_STRING -> d_value s (OpStr (string_ s)) s
| d_parameter s : token s = TK_PARAM -> ptype s = PT_PARAM -> par_index s <= 99 -> d_value s (OpPar (par_index s)) s.

Inductive d_pred : ScanData -> expr -> ScanData -> Prop :=
| d_field_value s a s1 s2 s3 b s4 s' :
    d_field s a s1 -> nt s1 s2 -> relop (token s2) = true -> nt s2 s3 -> d_value s3 b s4 -> nt s4 s' ->
    d_pred s (EComp (token s2) a b) s'
| d_value_field s a s1 s2 s3 b s4 s' :
    d_value s a s1 -> nt s1 s2 -> relop (token s2) = true -> nt s2 s3 -> d_field s3 b s4 -> nt s4 s' ->
    d_pred s (EComp (token s2) a b) s'
| d_field_field s a s1 s2 s3 b s4 s' :
    d_field s a s1 -> nt s1 s2 -> relop (token s2) = true -> nt s2 s3 -> d_field s3 b s4 -> nt s4 s' ->
    d_pred s (EComp (token s2) a b) s'
| d_between s a s1 s2 s3 lo s4 s5 s6 hi s7 s' :
    d_field s a s1 -> nt s1 s2 -> token s2 = TK_BETWEEN -> nt s2 s3 ->
    d_value s3 lo s4 -> nt s4 s5 -> token s5 = TK_AND -> nt s5 s6 -> d_value s6 hi s7 -> nt s7 s' ->
    d_pred s (EBetween false a lo hi) s'
| d_not_between s a s1 s2 s2' s3 lo s4 s5 s6 hi s7 s' :
    d_field s a s1 -> nt s1 s2 -> token s2 = TK_NOT -> nt s2 s2' -> token s2' = TK_BETWEEN -> nt s2' s3 ->
    d_value s3 lo s4 -> nt s4 s5 -> token s5 = TK_AND -> nt s5 s6 -> d_value s6 hi s7 -> nt s7 s' ->
    d_pred s (EBetween true a lo hi) s'.

(** The rewritten productions for Condition at the end of sql.g. *)
Inductive d_factor : ScanData -> expr -> ScanData -> Prop :=
| d_not s s1 e s' : token s = TK_NOT -> nt s s1 -> d_factor s1 e s' -> d_factor s (ENot e) s'
| d_paren s s1 e s2 s' :
    token s = TK_LPAR -> nt s s1 -> d_cond s1 e s2 -> token s2 = TK_RPAR -> nt s2 s' -> d_factor s e s'
| d_fpred s e s' : d_pred s e s' -> d_factor s e s'

with d_term : ScanData -> expr -> ScanData -> Prop :=
| d_term_intro s e1 s1 e s' : d_factor s e1 s1 -> d_terms e1 s1 e s' -> d_term s e s'

with d_terms : expr -> ScanData -> expr -> ScanData -> Prop :=
| d_terms_stop e s : token s <> TK_AND -> d_terms e s e s
| d_terms_and e1 s s1 e2 s2 e s' :
    token s = TK_AND -> nt s s1 -> d_factor s1 e2 s2 -> d_terms (EAnd e1 e2) s2 e s' -> d_terms e1 s e s'

with d_cond : ScanData -> expr -> ScanData -> Prop :=
| d_cond_intro s e1 s1 e s' : d_term s e1 s1 -> d_conds e1 s1 e s' -> d_cond s e s'

with d_conds : expr -> ScanData -> expr -> ScanData -> Prop :=
| d_conds_stop e s : token s <> TK_OR -> d_conds e s e s
| d_conds_or e1 s s1 e2 s2 e s' :
    token s = TK_OR -> nt s s1 -> d_term s1 e2 s2 -> d_conds (EOr e1 e2) s2 e s' -> d_conds e1 s e s'.

(** The text [str] is the filter expression [e] of sql.g. *)
Definition sql_g (str : list Z) (e : expr) : Prop :=
  exists s s', nt (sql_start_scan str (scan_init SCAN_BUFSIZE)) s /\ d_cond s e s' /\ token s' = TK_EOL.

(** ** The documented grammar inside the wider one *)

Lemma d_field_iff s o s' : d_field s o s' <-> g_operand s o s' /\ is_field o = true.
Proof.
  split; [intros []; split; [by constructor|done]|]. intros [H Hf]. destruct H; first [done|by constructor].
Qed.

Lemma d_value_iff s o s' : d_value s o s' <-> g_operand s o s' /\ is_value o = true.
Proof.
  split; [intros []; split; simpl; try (by constructor); try done; lia|].
  intros [H Hf]. destruct H; try done; constructor; try done. simpl in Hf. lia.
Qed.

Lemma d_pred_iff s e s' : d_pred s e s' <-> g_pred s e s' /\ documented e = true.
Proof.
  split.
  - intros []; repeat match goal with
      | H : d_field _ _ _ |- _ => apply d_field_iff in H as [? ?]
      | H : d_value _ _ _ |- _ => apply d_value_iff in H as [? ?] end;
      (split; [econstructor; eassumption|simpl; repeat match goal with H : _ = true |- _ => rewrite H end]);
      by rewrite ?orb_true_r.
  - intros [H Hd]. destruct H; simpl in Hd; rewrite ?orb_true_iff, ?andb_true_iff in Hd;
      [destruct Hd as [[[]|[]]|[]]|destruct Hd as [[]]..].
    + eapply d_field_value; first [eassumption|apply d_field_iff; split; eassumption|apply d_value_iff; split; eassumption].
    + eapply d_value_field; first [eassumption|apply d_field_iff; split; eassumption|apply d_value_iff; split; eassumption].
    + eapply d_field_field; first [eassumption|apply d_field_iff; split; eassumption].
    + eapply d_between; first [eassumption|apply d_field_iff; split; eassumption|apply d_value_iff; split; eassumption].
    + eapply d_not_between; first [eassumption|apply d_field_iff; split; eassumption|apply d_value_iff; split; eassumption].
Qed.

Scheme d_factor_mut := Minimality for d_factor Sort Prop
  with d_term_mut := Minimality for d_term Sort Prop
  with d_terms_mut := Minimality for d_terms Sort Prop
  with d_cond_mut := Minimality for d_cond Sort Prop
  with d_conds_mut := Minimality for d_conds Sort Prop.
Combined Scheme d_cond_ind5 from d_factor_mut, d_term_mut, d_terms_mut, d_cond_mut, d_conds_mut.

Lemma documented_wider :
  (forall s e s', d_factor s e s' -> g_factor s e s' /\ documented e = true) /\
  (forall s e s', d_term s e s' -> g_term s e s' /\ documented e = true) /\
  (forall a s e s', d_terms a s e s' -> g_terms a s e s' /\ (documented a = true -> documented e = true)) /\
  (forall s e s', d_cond s e s' -> g_cond s e s' /\ documented e = true) /\
  (forall a s e s', d_conds a s e s' -> g_conds a s e s' /\ (documented a = true -> documented e = true)).
Proof.
  apply d_cond_ind5; intros; try match goal with H : d_pred _ _ _ |- _ => apply d_pred_iff in H end; destruct_and?;
    (split; [by econstructor|]); simpl in *; try done; auto; intros; repeat match goal with H : _ -> documented _ = true |- _ => apply H end;
    rewrite ?andb_true_iff; auto.
Qed.

Lemma wider_documented :
  (forall s e s', g_factor s e s' -> documented e = true -> d_factor s e s') /\
  (forall s e s', g_term s e s' -> documented e = true -> d_term s e s') /\
  (forall a s e s', g_terms a s e s' -> documented e = true -> d_terms a s e s' /\ documented a = true) /\
  (forall s e s', g_cond s e s' -> documented e = true -> d_cond s e s') /\
  (forall a s e s', g_conds a s e s' -> documented e = true -> d_conds a s e s' /\ documented a = true).
Proof.
  apply g_cond_ind5; intros; simpl in *;
    repeat match goal with H : documented _ = true -> _ /\ _ |- _ => destruct H as [? H]; [done|]; simpl in H;
      try (apply andb_true_iff in H as [? H]) end;
    try split; try done;
    try (by apply d_fpred, d_pred_iff);
    first [eapply d_not|eapply d_paren|eapply d_term_intro|eapply d_terms_stop|eapply d_terms_and
          |eapply d_cond_intro|eapply d_conds_stop|eapply d_conds_or]; by eauto.
Qed.

(** A text is a sentence of sql.g exactly when it is one of the wider grammar
    whose predicates all have a documented form. *)
Lemma sql_g_iff str e : sql_g str e <-> filter_syntax xmalloc_ok kt libs top str e /\ documented e = true.
Proof.
  split.
  - intros (s & s' & Hn & Hc & He). apply documented_wider in Hc as [Hc Hd]. split; [by exists s, s'|done].
  - intros [(s & s' & Hn & Hc & He) Hd]. exists s, s'. split; [done|]. split; [by apply wider_documented|done].
Qed.
End Documented.
