(* ===== verification/SqlCode.v ===== *)
(** What the code generator of sql/parse.c emits: the bytes of operands and
    predicates as functions of the syntax, and the effect of the emission,
    insertion and backpatching primitives on the code buffer. *)

From S2P Require Import Prelude CLib TypeData Scan Bytecode Parse SqlSem.

(** ** The bytes of operands and predicates *)

Definition b16 (x : Z) : list Z := [⟦Z.shiftr x 8⟧8; ⟦Z.land x 255⟧8].
Definition b32 (x : Z) : list Z :=
  [⟦Z.shiftr x 24⟧8; ⟦Z.shiftr x 16⟧8; ⟦Z.shiftr x 8⟧8; ⟦Z.land x 255⟧8].

Definition int_bytes (i : Z) : list Z :=
  let u := ⟦i⟧32 in
  if (-64 <=? i) && (i <=? 63) then [⟦Z.land i 127⟧8]
  else if (0 <=? i) && (i <=? 255) then [op_byte O_LCBU; ⟦u⟧8]
  else if (-128 <=? i) && (i <? 0) then [op_byte O_LCBS; ⟦u⟧8]
  else if (0 <=? i) && (i <=? 65535) then op_byte O_LCSU :: b16 u
  else if (-32768 <=? i) && (i <? 0) then op_byte O_LCSS :: b16 u
  else if (0 <=? i) && (i <=? 4294967295) then op_byte O_LCWU :: b32 u
  else if (-2147483648 <=? i) && (i <? 0) then op_byte O_LCWS :: b32 u
  else op_byte O_LCL ::
    [⟦Z.land (Z.shiftr i 0) 255⟧8; ⟦Z.land (Z.shiftr i 8) 255⟧8;
     ⟦Z.land (Z.shiftr i 16) 255⟧8; ⟦Z.land (Z.shiftr i 24) 255⟧8;
     ⟦Z.land (Z.shiftr i 32) 255⟧8; ⟦Z.land (Z.shiftr i 40) 255⟧8;
     ⟦Z.land (Z.shiftr i 48) 255⟧8; ⟦Z.land (Z.shiftr i 56) 255⟧8].

Definition w8s : list Z -> list Z := map (fun c => ⟦c⟧8).

Fixpoint path_bytes (path : list Z) : list Z :=
  match path with
  | [] => []
  | f :: path => op_byte O_CREF :: b16 f ++ path_bytes path
  end.

(** An operand of a predicate decided at kind [k]; only parameters depend
    on it. *)
Definition op_bytes (k : TypeKind) (o : operand) : list Z :=
  match o with
  | OpField path f fk => path_bytes path ++ op_byte (default O_NOP (load_op fk)) :: b16 f
  | OpInt z => int_bytes z
  | OpChar c => int_bytes ⟦schar c⟧32
  | OpFloat d => op_byte O_LCD :: w8s (le_bytes 8 d)
  | OpStr s => op_byte O_LCS :: w8s (s ++ [0])
  | OpPar i => [op_byte (default O_NOP (lpar_type k)); ⟦i⟧8]
  end.

(** The conversion of an operand of kind [k] when the predicate is decided
    at kind [t]. *)
Definition conv_op (k t : TypeKind) : option Op :=
  if is_par k then None
  else if is_string t && is_char k then Some O_C2S
  else if size_of k <? size_of t then Some (convertn k t)
  else None.

Definition ob (o : option Op) : list Z :=
  match o with Some o => [op_byte o] | None => [] end.

Definition comp_bytes (cmp : Token) (a b : operand) : list Z :=
  let k := comp_kind (okind a) (okind b) in
  op_bytes k a ++ ob (conv_op (okind a) k) ++ op_bytes k b ++ ob (conv_op (okind b) k)
  ++ ob (if decide (cmp = TK_LIKE) then Some O_LIKE else compare_op k).

Definition between_bytes (a lo hi : operand) : list Z :=
  let k := okind a in let k1 := okind lo in let k2 := okind hi in
  let t := between_kind k k1 in
  op_bytes DDS_STRING_TYPE a
  ++ ob (if negb (is_par k1) && (size_of k <? size_of k1) then Some (convertn k k1) else None)
  ++ op_bytes k lo
  ++ ob (if negb (is_par k1) && (size_of k1 <? size_of k) then Some (convertn k1 k) else None)
  ++ op_bytes t hi
  ++ ob (if negb (is_par k2) && (size_of k2 <? size_of k) then Some (convertn k2 t) else None)
  ++ ob (between_op t).

(** Patching of branch targets. *)
Fixpoint patch (l : PatchList) (ofs : Z) (C : list Z) : list Z :=
  match l with
  | [] => C
  | p :: l => patch l ofs (<[Z.to_nat (p + 2) := ⟦Z.land ofs 255⟧8]>
                          (<[Z.to_nat (p + 1) := ⟦Z.shiftr ofs 8⟧8]> C))
  end.

(** ** The parser monad *)

Lemma pbind_ok {A B} (m : P A) (f : A -> P B) d b d' :
  pbind m f d = POk b d' -> exists a d1, m d = POk a d1 /\ f a d1 = POk b d'.
Proof. unfold pbind. destruct (m d); intros; try done. eauto. Qed.

Lemma pacc_ok {A} (x : option A) d a d' : pacc x d = POk a d' -> x = Some a /\ d' = d.
Proof. destruct x; unfold pacc, pret, pundef; intros; by simplify_eq. Qed.

Lemma parse_error_not_ok {A} e arg d a d' : @parse_error A e arg d <> POk a d'.
Proof. unfold parse_error. by destruct (_ && _). Qed.

(** Take a successful run apart; old names are kept. *)
Ltac pok_eq H := first [injection H as <- <- | injection H as <- | simplify_eq].

Ltac pinv_run H :=
  lazymatch type of H with
  | pbind _ _ _ = POk _ _ => let a := fresh "a" in let d := fresh "d" in let H1 := fresh "H" in
      apply pbind_ok in H as (a & d & H1 & H); cbv beta in H; pinv_run H1; pinv_run H
  | pret _ _ = POk _ _ => unfold pret in H; pok_eq H
  | POk _ _ = POk _ _ => pok_eq H
  | pget _ = POk _ _ => unfold pget in H; pok_eq H
  | cur_token _ = POk _ _ => unfold cur_token in H; pok_eq H
  | pundef _ = POk _ _ => discriminate H
  | pfuel _ = POk _ _ => discriminate H
  | pmod _ _ = POk _ _ => unfold pmod in H; pok_eq H
  | pacc _ _ = POk _ _ => apply pacc_ok in H as [? ->]
  | parse_error _ _ _ = POk _ _ => by apply parse_error_not_ok in H
  | _ => idtac
  end.

Ltac pinv H := pinv_run H; repeat match goal with u : unit |- _ => destruct u end.

(** ** The code buffer *)

Definition code (d : ParseData) : list Z := ztake (cur_pc d) (bc_data d).

Definition pd_ok (d : ParseData) : Prop :=
  error d = 0 /\ 0 <= bc_left d <= bc_size d /\ Forall byte_ok (bc_data d).

(** From [d] to [d'], the code becomes [C] and the rest stays. *)
Record upd (d d' : ParseData) (C : list Z) : Prop := mkUpd {
  u_ok : pd_ok d';
  u_code : code d' = C;
  u_scan : scan d' = scan d;
  u_tc : tc d' = tc d
}.

Lemma zlen_code d : pd_ok d -> zlen (code d) = cur_pc d.
Proof. intros (_ & ? & _). unfold code, cur_pc, bc_size in *. apply zlen_ztake. lia. Qed.

Lemma cur_pc_nonneg d : pd_ok d -> 0 <= cur_pc d.
Proof. intros (_ & ? & _). unfold cur_pc. lia. Qed.

Lemma upd_refl d : pd_ok d -> upd d d (code d).
Proof. by constructor. Qed.

Lemma upd_trans d1 d2 d3 C1 C2 : upd d1 d2 C1 -> upd d2 d3 C2 -> upd d1 d3 C2.
Proof. intros [] []. constructor; [done|done| |]; congruence. Qed.

Lemma upd_pc d d' C : upd d d' C -> cur_pc d' = zlen C.
Proof. intros [Hok <- _ _]. symmetry. by apply zlen_code. Qed.

Lemma wrap8_ok c : byte_ok ⟦c⟧8.
Proof. apply wrap_range. lia. Qed.

Lemma zset_bytes l i c l' : Forall byte_ok l -> zset l i ⟦c⟧8 = Some l' -> Forall byte_ok l'.
Proof. intros Hl [_ ->]%zset_inv. apply Forall_insert; [done|]. apply wrap8_ok. Qed.

Lemma op_byte_wrap o : ⟦op_byte o⟧8 = op_byte o.
Proof. by destruct o. Qed.

Section Emission.
Context (xmalloc_ok : Z -> bool).
Abbreviation emit := (emit xmalloc_ok).

Lemma emit_write_ok d l c d' :
  error d = 0 -> 0 < bc_left d <= bc_size d -> Forall byte_ok (bc_data d) ->
  zset (bc_data d) (cur_pc d) ⟦c⟧8 = Some l ->
  d' = set_bc l (bc_left d - 1) d ->
  upd d d' (code d ++ [⟦c⟧8]).
Proof.
  intros He Hl Hb Hz ->. pose proof (zlen_zset _ _ _ _ Hz) as Hlen.
  unfold bc_size in Hl. constructor; try done.
  - split; [done|]. unfold bc_size. simpl. split; [lia|]. by eapply zset_bytes.
  - apply zlist_eq.
    + rewrite zlen_app. unfold code at 1 2. unfold cur_pc, bc_size. simpl.
      rewrite !zlen_ztake by lia. rewrite zlen_cons, zlen_nil. lia.
    + intros i Hi.
      assert (Hcp : zlen (code (set_bc l (bc_left d - 1) d)) = cur_pc d + 1).
      { unfold code, cur_pc, bc_size. simpl. rewrite zlen_ztake; lia. }
      assert (Hc : zlen (code d) = cur_pc d).
      { unfold code, cur_pc, bc_size. simpl. rewrite zlen_ztake; lia. }
      rewrite Hcp in Hi. unfold code at 1.
      rewrite zget_ztake by (unfold cur_pc, bc_size; simpl; unfold cur_pc, bc_size in Hi; lia).
      simpl. destruct (decide (i = cur_pc d)) as [->|Hne].
      * rewrite (zget_zset_eq _ _ _ _ Hz). rewrite zget_app_r by lia.
        rewrite Hc, Z.sub_diag. done.
      * rewrite (zget_zset_ne _ _ _ _ _ Hz) by lia. rewrite zget_app_l by lia.
        unfold code. by rewrite zget_ztake by lia.
Qed.

Lemma emit_ok c d d' : pd_ok d -> emit c d = POk tt d' -> upd d d' (code d ++ [⟦c⟧8]).
Proof.
  intros (He & Hl & Hb) H. unfold Parse.emit in H. rewrite He in H. simpl in H.
  destruct (bc_left d =? 0) eqn:E; zbool.
  - destruct (xmalloc_ok _) eqn:Hm; [|by apply parse_error_not_ok in H].
    set (d0 := set_bc (bc_data d ++ replicate (Z.to_nat BC_INC) 0) BC_INC d) in *.
    destruct (zset _ _ _) as [l|] eqn:Hz; [|done]. simplify_eq.
    assert (Hc : code d0 = code d).
    { unfold code, cur_pc, bc_size, d0. cbn [bc_data bc_left set_bc].
      rewrite zlen_app, zlen_replicate, E.
      replace (zlen (bc_data d) + Z.of_nat (Z.to_nat BC_INC) - BC_INC) with (zlen (bc_data d))
        by (unfold BC_INC; lia).
      rewrite ztake_app_full, ztake_full by lia. done. }
    assert (H0 : upd d0 (set_bc l (bc_left d0 - 1) d0) (code d0 ++ [⟦c⟧8])).
    { eapply emit_write_ok; eauto; unfold d0, bc_size; cbn [bc_data bc_left set_bc].
      - rewrite zlen_app, zlen_replicate. pose proof (zlen_nonneg (bc_data d)).
        unfold BC_INC. lia.
      - apply Forall_app. split; [done|]. by apply Forall_replicate. }
    rewrite Hc in H0. destruct H0. by constructor.
  - destruct (zset _ _ _) as [l|] eqn:Hz; [|done]. simplify_eq.
    eapply emit_write_ok; eauto. lia.
Qed.

Lemma emit_op_ok o d d' : pd_ok d -> emit_op xmalloc_ok o d = POk tt d' ->
  upd d d' (code d ++ [op_byte o]).
Proof. intros Hd H%emit_ok; [|done]. by rewrite op_byte_wrap in H. Qed.

(** A generator that emits the bytes [bs]. *)
Definition gen {A} (m : P A) (bs : list Z) (a : A) : Prop :=
  forall d a' d', pd_ok d -> m d = POk a' d' -> a' = a /\ upd d d' (code d ++ bs).

Lemma gen_emit c : gen (emit c) [⟦c⟧8] tt.
Proof. intros d [] d' Hd H. split; [done|]. by apply emit_ok. Qed.

Lemma gen_emit_op o : gen (emit_op xmalloc_ok o) [op_byte o] tt.
Proof. intros d [] d' Hd H. split; [done|]. by apply emit_op_ok. Qed.

Lemma gen_ret {A} (a : A) : gen (pret a) [] a.
Proof. intros d a' d' Hd H. pinv H. rewrite app_nil_r. split; [done|]. by apply upd_refl. Qed.

Lemma gen_bind {A B} (m : P A) (f : A -> P B) bs1 bs2 a b :
  gen m bs1 a -> gen (f a) bs2 b -> gen (pbind m f) (bs1 ++ bs2) b.
Proof.
  intros Hm Hf d b' d' Hd H. apply pbind_ok in H as (a' & d1 & H1 & H2).
  apply Hm in H1 as [-> H1]; [|done]. apply Hf in H2 as [-> H2]; [|apply H1].
  split; [done|]. rewrite app_assoc, <- (u_code _ _ _ H1). by eapply upd_trans.
Qed.

Lemma gen_seq {B} (m : P unit) (k : P B) bs1 bs2 b :
  gen m bs1 tt -> gen k bs2 b -> gen (pbind m (fun _ => k)) (bs1 ++ bs2) b.
Proof. intros. by eapply gen_bind. Qed.

Lemma gen_emit_list l : gen (emit_list xmalloc_ok l) (w8s l) tt.
Proof.
  induction l as [|c l IH]; simpl; [apply gen_ret|].
  apply (gen_seq _ _ [⟦c⟧8] (w8s l)); [apply gen_emit | done].
Qed.

Lemma gen_emits s : gen (emits xmalloc_ok s) (b16 s) tt.
Proof. apply (gen_seq _ _ [_] [_]); apply gen_emit. Qed.

Lemma gen_emitl s : gen (emitl xmalloc_ok s) (b32 s) tt.
Proof. repeat (apply (gen_seq _ _ [_]); [apply gen_emit|]). apply gen_emit. Qed.

Lemma gen_const_int i : gen (const_int xmalloc_ok i) (int_bytes i) (int_kind i).
Proof.
  unfold const_int, int_bytes, int_kind.
  repeat match goal with
  | |- context [if ?b then _ else _] => destruct b eqn:?
  end; zbool; try lia;
  repeat first [ apply (gen_seq _ _ [_]); [first [apply gen_emit | apply gen_emit_op]|]
               | rewrite <- (app_nil_r (b16 _)); apply gen_seq; [apply gen_emits|]
               | rewrite <- (app_nil_r (b32 _)); apply gen_seq; [apply gen_emitl|]
               | apply gen_ret ].
Qed.

Lemma gen_const_float f : gen (const_float xmalloc_ok f) (op_byte O_LCD :: w8s (le_bytes 8 f)) tt.
Proof. apply (gen_seq _ _ [_]); [apply gen_emit_op | apply gen_emit_list]. Qed.

Lemma gen_const_string s : gen (const_string xmalloc_ok s) (op_byte O_LCS :: w8s (s ++ [0])) tt.
Proof. apply (gen_seq _ _ [_]); [apply gen_emit_op | apply gen_emit_list]. Qed.

Lemma gen_condition_ok c :
  gen (gen_condition xmalloc_ok c) [op_byte (cond_op c); 0; 0] tt.
Proof. apply (gen_seq _ _ [_]); [apply gen_emit_op | apply (gen_emits 0)]. Qed.

End Emission.

Lemma int_bytes_short i : 0 + zlen (int_bytes i) <= MAX_INSTS.
Proof.
  unfold int_bytes. repeat match goal with |- context [if ?b then _ else _] => destruct b end;
    vm_compute; discriminate.
Qed.

(** ** Stores into the code *)

Lemma zget_code d i : i < cur_pc d -> zget (code d) i = zget (bc_data d) i.
Proof. intros. unfold code. by apply zget_ztake. Qed.

Lemma zget_insert {A} (l : list A) i j (x : A) : 0 <= i < zlen l ->
  zget (<[Z.to_nat i := x]> l) j = if decide (i = j) then Some x else zget l j.
Proof.
  intros Hi. pose proof (zset_Some l i x Hi) as Hz. case_decide; subst.
  - by apply zget_zset_eq in Hz.
  - by apply (zget_zset_ne _ _ j) in Hz.
Qed.

Lemma zlen_insert {A} (l : list A) i (x : A) : zlen (<[i := x]> l) = zlen l.
Proof. unfold zlen. by rewrite length_insert. Qed.

Lemma set_at_pc_data ofs x d d' :
  set_at_pc ofs x d = POk tt d' ->
  0 <= ofs < bc_size d /\ d' = set_bc (<[Z.to_nat ofs := ⟦x⟧8]> (bc_data d)) (bc_left d) d.
Proof.
  unfold set_at_pc. destruct (zset _ _ _) eqn:E; intros; simplify_eq.
  by apply zset_inv in E as [? ->].
Qed.

(** A change of the code bytes only. *)
Lemma set_bc_upd d l C :
  pd_ok d -> Forall byte_ok l -> zlen l = bc_size d -> zlen C = cur_pc d ->
  (forall i, 0 <= i < cur_pc d -> zget C i = zget l i) ->
  upd d (set_bc l (bc_left d) d) C.
Proof.
  intros (He & Hl & Hb) Hlb Hlen HC H.
  assert (Hd' : pd_ok (set_bc l (bc_left d) d)).
  { split; [done|]. unfold bc_size in *. simpl. by rewrite Hlen. }
  assert (Hpc : cur_pc (set_bc l (bc_left d) d) = cur_pc d).
  { unfold cur_pc, bc_size in *. simpl. lia. }
  constructor; try done. apply zlist_eq.
  - rewrite zlen_code by done. lia.
  - intros i Hi. rewrite zlen_code, Hpc in Hi by done. rewrite zget_code by lia. simpl.
    symmetry. apply H. lia.
Qed.

Lemma set_at_pc_ok ofs x d d' :
  pd_ok d -> ofs < cur_pc d -> set_at_pc ofs x d = POk tt d' ->
  upd d d' (<[Z.to_nat ofs := ⟦x⟧8]> (code d)).
Proof.
  intros Hd Ho H. apply set_at_pc_data in H as [Hb ->]. unfold bc_size in *.
  apply set_bc_upd; [done | | | |].
  - apply Forall_insert; [apply Hd | apply wrap8_ok].
  - by rewrite zlen_insert.
  - rewrite zlen_insert. by apply zlen_code.
  - intros i Hi. rewrite !zget_insert by (rewrite ?zlen_code by done; lia).
    case_decide; [done|]. by rewrite zget_code by lia.
Qed.

(** The shifting loop moves the bytes from [ofs] up by one. *)
Lemma shift_loop_ok k ofs d d' :
  0 <= ofs -> pd_ok d -> shift_loop k ofs d = POk tt d' ->
  exists l, d' = set_bc l (bc_left d) d /\ zlen l = bc_size d /\ Forall byte_ok l /\
    forall i, zget l i = if (ofs <? i) && (i <=? ofs + Z.of_nat k) then zget (bc_data d) (i - 1)
                         else zget (bc_data d) i.
Proof.
  intros Ho. revert d; induction k as [|k IH]; intros d Hd H.
  - simpl in H. pinv H. exists (bc_data d).
    split; [by destruct d|]. split; [done|]. split; [apply Hd|]. intros i.
    destruct ((ofs <? i) && (i <=? ofs + Z.of_nat 0)) eqn:E; [zbool; lia | done].
  - cbn [shift_loop] in H.
    set (i0 := ofs + Z.of_nat (S k)) in *. pinv H.
    unfold get_at_pc in H0. destruct (zget (bc_data d) (i0 - 1)) as [y|] eqn:Hy; [|done].
    simplify_eq. apply set_at_pc_data in H1 as [Hb ->].
    assert (Hyb : ⟦a⟧8 = a).
    { apply wrap_small. destruct Hd as (_ & _ & Hd). rewrite Forall_lookup in Hd.
      unfold zget in Hy. destruct (_ <? 0); [done|]. by eapply Hd. }
    destruct Hd as (He & Hl & Hby). unfold bc_size in *.
    apply IH in H as (l & -> & Hlen & Hbl & Hl').
    + simpl in Hlen, Hl'. rewrite zlen_insert in Hlen.
      exists l. split; [done|]. split; [done|]. split; [done|].
      intros i. rewrite Hl'. rewrite !zget_insert by lia. rewrite Hyb.
      destruct (Z.ltb_spec ofs i), (Z.leb_spec i (ofs + Z.of_nat k)), (Z.leb_spec i i0);
        simpl; try lia;
        destruct (decide (i0 = i)), (decide (i0 = i - 1)); subst i0; try lia; try done.
      subst i. by rewrite Hy.
    + split; [done|]. unfold bc_size. simpl. rewrite zlen_insert. split; [done|].
      apply Forall_insert; [done | apply wrap8_ok].
Qed.

Lemma ins_before_ok xm ofs x d d' :
  pd_ok d -> 0 <= ofs <= cur_pc d -> ins_before xm ofs x d = POk tt d' ->
  upd d d' (ztake ofs (code d) ++ [op_byte x] ++ zdrop ofs (code d)).
Proof.
  intros Hd Ho H. unfold ins_before in H. pinv H.
  apply emit_op_ok in H0; [|done]. pose proof (upd_pc _ _ _ H0) as Hpc.
  rewrite zlen_app, zlen_code, zlen_cons, zlen_nil in Hpc by done.
  apply shift_loop_ok in H1 as (l & -> & Hlen & Hby & Hl); [|lia|apply H0].
  apply set_at_pc_data in H as [Hb ->]. unfold bc_size in *. simpl in *.
  set (C := ztake ofs (code d) ++ [op_byte x] ++ zdrop ofs (code d)).
  eapply upd_trans; [exact H0|].
  assert (Hzd : zlen (zdrop ofs (code d)) = cur_pc d - ofs).
  { pose proof (zlen_code d Hd) as Hc. unfold zdrop, zlen in *. rewrite length_drop. lia. }
  change (upd d0 (set_bc (<[Z.to_nat ofs := ⟦op_byte x⟧8]> l) (bc_left d0) d0) C).
  apply set_bc_upd; [apply H0 | | | |].
  - apply Forall_insert; [done | apply wrap8_ok].
  - by rewrite zlen_insert.
  - unfold C. rewrite !zlen_app, zlen_ztake, zlen_cons, zlen_nil, Hzd by (rewrite zlen_code by done; lia).
    lia.
  - intros i Hi. rewrite zget_insert by lia. rewrite op_byte_wrap.
    assert (Hold : forall j, 0 <= j < cur_pc d -> zget (bc_data d0) j = zget (code d) j).
    { intros j Hj. rewrite <- (zget_code d0), (u_code _ _ _ H0) by lia.
      apply zget_app_l. rewrite zlen_code by done. lia. }
    unfold C. case_decide as E.
    + subst i. rewrite zget_app_r by (rewrite zlen_ztake by (rewrite zlen_code by done; lia); lia).
      rewrite zlen_ztake, Z.sub_diag by (rewrite zlen_code by done; lia). done.
    + rewrite Hl. destruct (ofs <? i) eqn:E1; zbool; simpl.
      * destruct (i <=? _) eqn:E2; zbool; [|lia].
        rewrite zget_app_r by (rewrite zlen_ztake by (rewrite zlen_code by done; lia); lia).
        rewrite zlen_ztake by (rewrite zlen_code by done; lia).
        rewrite zget_cons_S, zget_zdrop by lia.
        rewrite Hold by lia. f_equal. lia.
      * rewrite zget_app_l by (rewrite zlen_ztake by (rewrite zlen_code by done; lia); lia).
        rewrite zget_ztake by lia. by rewrite Hold by lia.
Qed.

(** With one free byte left, the loop stores behind the buffer. *)
Lemma ins_before_full xm ofs x d :
  pd_ok d -> bc_left d = 1 -> 0 <= ofs < bc_size d -> ins_before xm ofs x d = PUndef.
Proof.
  intros (He & Hl & Hb) H1 Ho. unfold ins_before, emit_op, emit, pbind. rewrite He, H1. simpl.
  unfold cur_pc. rewrite H1. unfold bc_size in *. rewrite zset_Some by lia. simpl.
  unfold cur_pc, bc_size. simpl. rewrite zlen_insert, Z.sub_0_r.
  replace (Z.to_nat (zlen (bc_data d) - ofs)) with (S (Z.to_nat (zlen (bc_data d) - ofs - 1))) by lia.
  cbn [shift_loop]. unfold pbind, get_at_pc, set_at_pc. simpl.
  destruct (zget _ _) as [y|]; [|done].
  destruct (zset _ _ ⟦y⟧8) as [l|] eqn:Hz; [|done]. exfalso.
  apply zset_inv in Hz as [Hz _]. cbn [bc_data set_bc] in Hz. rewrite zlen_insert in Hz. lia.
Qed.

Lemma zlen_patch l ofs C : zlen (patch l ofs C) = zlen C.
Proof. revert C; induction l as [|p l IH]; intros C; simpl; [done|]. by rewrite IH, !zlen_insert. Qed.

Lemma backpatch_ok l ofs d d' :
  pd_ok d -> Forall (fun p => p + 2 < cur_pc d) l -> backpatch l ofs d = POk tt d' ->
  upd d d' (patch l ofs (code d)).
Proof.
  revert d; induction l as [|p l IH]; intros d Hd Hl H; simpl in H.
  - pinv H. by apply upd_refl.
  - pinv H. inversion Hl as [|? ? Hp Hl']; subst.
    apply set_at_pc_ok in H0; [|done|lia].
    pose proof (upd_pc _ _ _ H0) as Hpc. rewrite zlen_insert, zlen_code in Hpc by done.
    apply set_at_pc_ok in H1; [|apply H0|lia].
    pose proof (upd_pc _ _ _ H1) as Hpc2.
    rewrite zlen_insert, (u_code _ _ _ H0), zlen_insert, zlen_code in Hpc2 by done.
    apply IH in H; [|apply H1|by rewrite Hpc2].
    rewrite (u_code _ _ _ H1), (u_code _ _ _ H0) in H. simpl.
    eapply upd_trans; [exact H0|]. by eapply upd_trans.
Qed.
