(* ===== verification/SqlParse.v ===== *)
(** What a successful run of the parser of sql/parse.c means: the tokens it
    consumed form an operand or a predicate of the grammar, and the bytes it
    emitted are those of that operand or predicate. *)

From S2P Require Import Prelude CLib TypeData Scan ScanProps Bytecode Parse SqlSem SqlCode.

(** ** Moving on *)

Definition pok (d : ParseData) : Prop := pd_ok d /\ scan_ok (scan d).

(** From [d] to [d'] the code becomes [C]; the scanner may have moved. *)
Record mv (d d' : ParseData) (C : list Z) : Prop := mkMv {
  mv_ok : pok d';
  mv_code : code d' = C;
  mv_tc : tc d' = tc d
}.

Lemma mv_trans d1 d2 d3 C1 C2 : mv d1 d2 C1 -> mv d2 d3 C2 -> mv d1 d3 C2.
Proof. intros [] []. constructor; [done|done|congruence]. Qed.

Lemma mv_refl d : pok d -> mv d d (code d).
Proof. by constructor. Qed.

Lemma upd_mv d d' C : pok d -> upd d d' C -> mv d d' C.
Proof. intros [_ Hs] []. constructor; [|done|done]. split; [done|congruence]. Qed.

Lemma mv_pc d d' C : mv d d' C -> cur_pc d' = zlen C.
Proof. intros [[Hok _] <- _]. symmetry. by apply zlen_code. Qed.

(** A generator emits its bytes and keeps the scanner. *)
Lemma gen_mv {A} (m : P A) bs a a' d d' :
  gen m bs a -> pok d -> m d = POk a' d' ->
  a' = a /\ mv d d' (code d ++ bs) /\ scan d' = scan d.
Proof.
  intros Hg Hd H. destruct (Hg d a' d') as [-> Hu]; [apply Hd|done|].
  split; [done|]. split; [by apply upd_mv|apply Hu].
Qed.

Section Syntax.
Context (xmalloc_ok : Z -> bool) (kt : KwTable) (libs : TypeLibs).
Abbreviation nt := (nt xmalloc_ok kt).
Abbreviation g_field := (g_field xmalloc_ok kt libs).
Abbreviation g_operand := (g_operand xmalloc_ok kt libs).
Abbreviation g_pred := (g_pred xmalloc_ok kt libs).

Lemma next_token_ok d d' :
  pok d -> next_token xmalloc_ok kt d = POk tt d' ->
  nt (scan d) (scan d') /\ mv d d' (code d).
Proof.
  intros [Hd Hs] H. unfold next_token in H.
  destruct (sql_next_token_ok xmalloc_ok kt _ Hs) as (s' & Ht & Hs').
  rewrite Ht in H. simplify_eq. split; [done|].
  constructor; [|done|done]. split; [|done]. apply Hd.
Qed.

Lemma expect_ok t d d' :
  pok d -> expect xmalloc_ok kt t d = POk tt d' ->
  token (scan d) = t /\ nt (scan d) (scan d') /\ mv d d' (code d).
Proof.
  intros Hd H. unfold expect in H. pinv H. case_decide as E; [|pinv H].
  split; [done|]. by apply next_token_ok.
Qed.

(** The tail of an [identifier]: the kind of a field and its load. *)
Definition field_bytes (path : list Z) (f : Z) (k : TypeKind) : list Z :=
  op_bytes DDS_STRING_TYPE (OpField path f k).

Lemma enum_lookup_struct t name : is_struct t = true -> enum_lookup (Some t) name = None.
Proof. unfold is_struct, enum_lookup. intros H. case_bool_decide as E; [|done]. by rewrite E. Qed.

Lemma identifier_loop_ok fuel t eo d k d' :
  pok d -> identifier_loop xmalloc_ok kt libs fuel t eo d = POk k d' ->
  exists path f, g_field t (scan d) path f k (scan d') /\ is_Some (load_op k) /\
    mv d d' (code d ++ field_bytes path f k).
Proof.
  revert t d; induction fuel as [|fuel IH]; intros t d Hd H; [done|].
  cbn [identifier_loop] in H. pinv H.
  destruct (is_struct t) eqn:Est; cbn [negb] in H; [|done].
  rewrite enum_lookup_struct in H by done.
  destruct (field_lookup libs t _) as [[f t']|] eqn:Hf.
  2:{ by destruct eo; apply parse_error_not_ok in H. }
  case_decide as Ek.
  - pinv H. apply (gen_mv _ _ _ _ _ _ (gen_emit_op _ _)) in H0 as (_ & M0 & S0); [|done].
    apply (gen_mv _ _ _ _ _ _ (gen_emits _ _)) in H1 as (_ & M1 & S1); [|apply M0].
    apply next_token_ok in H2 as (N2 & M2); [|apply M1].
    apply expect_ok in H3 as (T3 & N3 & M3); [|apply M2].
    case_decide as E4; [|pinv H].
    apply IH in H as (path & g & Hg & Hl & Mg); [|apply M3].
    exists (f :: path), g. split; [|split; [done|]].
    + rewrite S1, S0 in N2. by eapply g_nested.
    + rewrite (mv_code _ _ _ M3), (mv_code _ _ _ M2), (mv_code _ _ _ M1), (mv_code _ _ _ M0) in Mg.
      unfold field_bytes in *. simpl op_bytes in *. rewrite <- !app_assoc in Mg. simpl in Mg |- *.
      do 4 (eapply mv_trans; [eassumption|]). done.
  - case_if Eb in H; [pinv H|].
    destruct (load_op (kind t')) as [o|] eqn:Hl; [|pinv H].
    pinv H. apply (gen_mv _ _ _ _ _ _ (gen_emit_op _ _)) in H0 as (_ & M0 & S0); [|done].
    apply (gen_mv _ _ _ _ _ _ (gen_emits _ _)) in H1 as (_ & M1 & S1); [|apply M0].
    exists [], f. split; [|split; [by eauto|]].
    + rewrite S1, S0. by constructor.
    + rewrite (mv_code _ _ _ M0), <- app_assoc in M1. unfold field_bytes. simpl.
      rewrite Hl. eapply mv_trans; eassumption.
Qed.

(** What the parser and the scanner know of an operand. *)
Definition operand_ok (o : operand) : Prop :=
  match o with
  | OpField _ _ k => is_Some (load_op k)
  | OpInt z => in_s 64 z
  | OpStr s => Forall nz_byte s
  | _ => True
  end.

Lemma set_npars_mv n d : pok d -> mv d (set_npars n d) (code d).
Proof. intros Hd. by constructor. Qed.

Lemma parameter_ok top d k d' :
  pok d -> parameter xmalloc_ok d = POk k d' -> token (scan d) = TK_PARAM ->
  exists o, g_operand top (scan d) o (scan d') /\ k = okind o /\ operand_ok o /\
    mv d d' (code d ++ op_bytes DDS_STRING_TYPE o).
Proof.
  intros Hd H Ht. unfold parameter in H. pinv H. destruct (ptype (scan d)) eqn:Hp; pinv H.
  - apply (gen_mv _ _ _ _ _ _ (gen_const_int _ _)) in H as (-> & M & S); [|done].
    exists (OpInt (integer (scan d))). rewrite S. split; [by constructor|].
    split; [done|]. split; [apply Hd|done].
  - apply (gen_mv _ _ _ _ _ _ (gen_const_int _ _)) in H0 as (_ & M & S); [|done].
    exists (OpChar (character (scan d))). rewrite S. by split; [constructor|].
  - apply (gen_mv _ _ _ _ _ _ (gen_const_float _ _)) in H0 as (_ & M & S); [|done].
    exists (OpFloat (float_num (scan d))). rewrite S. by split; [constructor|].
  - apply (gen_mv _ _ _ _ _ _ (gen_const_string _ _)) in H0 as (_ & M & S); [|done].
    exists (OpStr (string_ (scan d))). rewrite S. split; [by constructor|].
    split; [done|]. split; [apply Hd|done].
  - apply (gen_mv _ _ _ _ _ _ (gen_emit_op _ _)) in H0 as (_ & M0 & S0); [|done].
    apply (gen_mv _ _ _ _ _ _ (gen_emit _ _)) in H1 as (_ & M1 & S1); [|apply M0].
    rewrite (mv_code _ _ _ M0), <- app_assoc in M1.
    exists (OpPar (par_index (scan d))). split; [|split; [done|split; [done|]]].
    + case_if E; cbn [scan set_npars]; rewrite S1, S0; by constructor.
    + eapply mv_trans; [exact M0|]. eapply mv_trans; [exact M1|].
      pose proof (mv_code _ _ _ M1) as HC. simpl in HC |- *. rewrite <- HC. case_if E; [apply set_npars_mv|apply mv_refl]; apply M1.
Qed.

Lemma id_or_parameter_ok top ts fuel d k d' :
  pok d -> tc d = Some ts -> ts_cdr ts = Some top ->
  id_or_parameter xmalloc_ok kt libs fuel d = POk k d' ->
  exists o, g_operand top (scan d) o (scan d') /\ k = okind o /\ operand_ok o /\
    mv d d' (code d ++ op_bytes DDS_STRING_TYPE o).
Proof.
  intros Hd Htc Hts H. unfold id_or_parameter in H. pinv H. case_decide as E1.
  - unfold identifier in H. pinv H. simplify_eq.
    apply identifier_loop_ok in H as (path & f & Hg & Hl & M); [|done].
    exists (OpField path f k). by split; [constructor|].
  - case_decide as E2; [by apply parameter_ok|]. pinv H.
Qed.

(** ** Coercions *)

Lemma is_par_true k : is_par k = true -> k = T_PAR.
Proof. unfold is_par. by case_bool_decide. Qed.

Lemma par_operand o : operand_ok o -> is_par (okind o) = true -> exists i, o = OpPar i.
Proof.
  intros Ho Hp%is_par_true. destruct o; simpl in *; try done; [| |by eauto].
  - subst. by destruct Ho.
  - unfold int_kind in Hp. repeat case_match; done.
Qed.

Lemma op_bytes_nonpar k k' o : is_par (okind o) = false -> op_bytes k o = op_bytes k' o.
Proof. by destruct o. Qed.

Lemma conv_op_refl k : conv_op k k = None.
Proof. unfold conv_op. rewrite Z.ltb_irrefl. by destruct k. Qed.

Lemma conv_op_par k t : is_par k = true -> conv_op k t = None.
Proof. unfold conv_op. by intros ->. Qed.

Lemma is_string_true k : is_string k = true -> k = DDS_STRING_TYPE.
Proof. unfold is_string. by case_bool_decide. Qed.

Lemma conv_op_c2s k t :
  is_string t && is_char k = true -> is_par k = false -> conv_op k t = Some O_C2S.
Proof. unfold conv_op. by intros -> ->. Qed.

Lemma conv_op_size k t n m :
  type_size_opt k = Some n -> type_size_opt t = Some m -> n < m ->
  is_string t && is_char k = false -> is_par k = false -> conv_op k t = Some (convertn k t).
Proof.
  unfold conv_op, size_of. intros -> -> Hl -> ->. simpl.
  by replace (n <? m) with true by (symmetry; by apply Z.ltb_lt).
Qed.

Lemma conv_op_eq k t n m :
  type_size_opt k = Some n -> type_size_opt t = Some m -> m <= n ->
  is_string t && is_char k = false -> conv_op k t = None.
Proof.
  unfold conv_op, size_of. intros -> -> Hl ->. simpl.
  replace (n <? m) with false by (symmetry; by apply Z.ltb_ge). by destruct (is_par k).
Qed.

Lemma set_lpar_ok X i Y t d d' :
  pok d -> code d = X ++ op_bytes DDS_STRING_TYPE (OpPar i) ++ Y ->
  set_lpar (zlen X) t d = POk tt d' ->
  is_Some (lpar_type t) /\ mv d d' (X ++ op_bytes t (OpPar i) ++ Y) /\ scan d' = scan d.
Proof.
  intros Hd HC H. unfold set_lpar in H. pinv H. rename H0 into Ht, a into o.
  assert (Hpc : zlen X < cur_pc d).
  { destruct Hd as [Hd _]. rewrite <- (zlen_code d Hd), HC. simpl. zlen_lia. }
  apply set_at_pc_ok in H; [|apply Hd|done]. split; [by eauto|].
  split; [|apply H]. apply upd_mv in H; [|done]. rewrite HC in H.
  replace (Z.to_nat (zlen X)) with (length X + 0)%nat in H by (unfold zlen; lia).
  rewrite insert_app_r, op_byte_wrap in H. simpl in *. by rewrite Ht.
Qed.

(** Insertion of a conversion before the last operand. *)
Lemma ins_before_mv X Y ofs o d d' :
  pok d -> code d = X ++ Y -> ofs = zlen X -> ins_before xmalloc_ok ofs o d = POk tt d' ->
  mv d d' (X ++ op_byte o :: Y) /\ scan d' = scan d.
Proof.
  intros Hd HC -> H.
  assert (Hpc : 0 <= zlen X <= cur_pc d).
  { destruct Hd as [Hd _]. rewrite <- (zlen_code d Hd), HC. zlen_lia. }
  apply ins_before_ok in H; [|apply Hd|done]. split; [|apply H]. apply upd_mv in H; [|done].
  by rewrite HC, ztake_app_full, zdrop_app_full in H.
Qed.

Lemma emit_op_mv o d d' :
  pok d -> emit_op xmalloc_ok o d = POk tt d' ->
  mv d d' (code d ++ [op_byte o]) /\ scan d' = scan d.
Proof. intros Hd H. by apply (gen_mv _ _ _ _ _ _ (gen_emit_op _ _)) in H as (_ & ? & ?). Qed.

(** The code of two operands and their conversions to kind [k]. *)
Definition pair_bytes (k : TypeKind) (a b : operand) : list Z :=
  op_bytes k a ++ ob (conv_op (okind a) k) ++ op_bytes k b ++ ob (conv_op (okind b) k).

Lemma comp_coerce_ok X a b ts1 ts2 t d d' :
  pok d -> operand_ok a -> operand_ok b ->
  code d = X ++ op_bytes DDS_STRING_TYPE a ++ op_bytes DDS_STRING_TYPE b ->
  type_size_opt (okind a) = Some ts1 -> type_size_opt (okind b) = Some ts2 ->
  comp_coerce xmalloc_ok (okind a) (okind b) (zlen X)
    (zlen (X ++ op_bytes DDS_STRING_TYPE a)) ts1 ts2 d = POk t d' ->
  t = comp_kind (okind a) (okind b) /\ mv d d' (X ++ pair_bytes t a b) /\ scan d' = scan d.
Proof.
  intros Hd Ha Hb HC Hs1 Hs2 H. unfold comp_coerce in H. unfold comp_kind, pair_bytes.
  rewrite Hs1, Hs2.
  destruct (is_par (okind a)) eqn:P1; [|destruct (is_par (okind b)) eqn:P2].
  - rewrite (conv_op_par (okind a)) by done. destruct (par_operand a Ha P1) as [i ->].
    destruct (is_par (okind b)) eqn:P2; cbn [orb] in H.
    + pinv H. rewrite (conv_op_par (okind b)) by done. cbn [ob app]. rewrite !app_nil_r, <- HC.
      split; [done|]. split; [by apply mv_refl|done].
    + destruct (is_string (okind b)) eqn:S2; pinv H.
      * apply is_string_true in S2. rewrite S2, conv_op_refl. cbn [ob app].
        rewrite !app_nil_r, <- HC. split; [done|]. split; [by apply mv_refl|done].
      * rewrite conv_op_refl. apply (set_lpar_ok X i _ _ _ _ Hd HC) in H0 as (_ & M & S).
        cbn [ob app]. rewrite app_nil_r. split; [done|].
        by rewrite (op_bytes_nonpar _ DDS_STRING_TYPE b).
  - destruct (par_operand b Hb P2) as [i ->]. pinv H.
    rewrite conv_op_refl, (conv_op_par (okind (OpPar i))) by done. split; [done|].
    apply (set_lpar_ok _ i []) in H0 as (_ & M & S); [|done|by rewrite <- app_assoc].
    split; [|done]. rewrite <- app_assoc in M.
    by rewrite (op_bytes_nonpar _ DDS_STRING_TYPE a).
  - rewrite !(op_bytes_nonpar t DDS_STRING_TYPE) by done.
    destruct (is_string (okind b) && is_char (okind a)) eqn:C1;
      [|destruct (is_string (okind a) && is_char (okind b)) eqn:C2].
    + pinv H. rewrite conv_op_refl, conv_op_c2s by done. split; [done|].
      eapply ins_before_mv in H0; [|done|by rewrite <- app_assoc|done].
      cbn [ob app]. by rewrite app_nil_r, <- app_assoc in *.
    + pinv H. rewrite conv_op_refl, conv_op_c2s by done. split; [done|].
      apply emit_op_mv in H0; [|done]. rewrite HC in H0. cbn [ob app]. by rewrite <- !app_assoc in *.
    + destruct (ts2 <? ts1) eqn:L1; [|destruct (ts1 <? ts2) eqn:L2]; pinv H.
      * apply Z.ltb_lt in L1. replace (ts1 <? ts2) with false by (symmetry; apply Z.ltb_ge; lia).
        rewrite conv_op_refl, (conv_op_size _ _ ts2 ts1) by (try done; lia). split; [done|].
        apply emit_op_mv in H0; [|done]. rewrite HC in H0. cbn [ob app]. by rewrite <- !app_assoc in *.
      * apply Z.ltb_lt in L2. rewrite conv_op_refl, (conv_op_size _ _ ts1 ts2) by (try done; lia).
        split; [done|]. eapply ins_before_mv in H0; [|done|by rewrite <- app_assoc|done].
        cbn [ob app]. by rewrite app_nil_r, <- app_assoc in *.
      * rewrite conv_op_refl, (conv_op_eq _ _ ts2 ts1) by (done || by apply Z.ltb_ge).
        cbn [ob app]. rewrite app_nil_r, <- HC. split; [done|]. split; [by apply mv_refl|done].
Qed.

(** ** Predicates *)

Definition chk (k1 k2 : TypeKind) : bool :=
  is_par k1 || is_par k2 || (is_string k1 && is_char k2) || (is_string k2 && is_char k1)
  || Bool.eqb (is_string k1) (is_string k2).

Lemma check_types_ok k1 k2 d d' : check_types k1 k2 d = POk tt d' -> d' = d /\ chk k1 k2 = true.
Proof.
  unfold check_types, chk.
  destruct (is_par k1 || is_par k2); [intros H; by pinv H|].
  destruct (is_string k1 && is_char k2), (is_string k2 && is_char k1); simpl;
    try (intros H; by pinv H).
  destruct (Bool.eqb _ _); simpl; intros H; by pinv H.
Qed.

Lemma type_size_ok k n d d' : type_size k d = POk n d' -> d' = d /\ type_size_opt k = Some n.
Proof. unfold type_size. destruct (type_size_opt k); intros H; by pinv H. Qed.

(** What the checks of a comparison establish. *)
Record comp_typed (cmp : Token) (k1 k2 : TypeKind) : Prop := mkCompTyped {
  ct_size1 : is_Some (type_size_opt k1);
  ct_size2 : is_Some (type_size_opt k2);
  ct_chk : chk k1 k2 = true;
  ct_op : if decide (cmp = TK_LIKE) then k1 = DDS_STRING_TYPE /\ k2 = DDS_STRING_TYPE
          else is_Some (compare_op (comp_kind k1 k2))
}.

Lemma pok_error d : pok d -> (error d =? 0) = true.
Proof. intros [(-> & _) _]. done. Qed.

Lemma comp_predicate_ok top ts fuel X a d r d' :
  pok d -> tc d = Some ts -> ts_cdr ts = Some top -> operand_ok a ->
  code d = X ++ op_bytes DDS_STRING_TYPE a ->
  comp_predicate xmalloc_ok kt libs fuel (okind a) (zlen X) d = POk r d' ->
  exists b c s1 s2, nt (scan d) s1 /\ g_operand top s1 b s2 /\ nt s2 (scan d') /\
    operand_ok b /\ cmp_cond (token (scan d)) = Some c /\ r = Some (mkDataObject [] [] c) /\
    comp_typed (token (scan d)) (okind a) (okind b) /\
    mv d d' (X ++ comp_bytes (token (scan d)) a b).
Proof.
  intros Hd Htc Hts Ha HC H. unfold comp_predicate in H. pinv H.
  apply next_token_ok in H0 as (N1 & M1); [|done].
  eapply id_or_parameter_ok in H1 as (b & Gb & -> & Hb & M2);
    [|apply M1|by rewrite (mv_tc _ _ _ M1)|done].
  apply next_token_ok in H2 as (N3 & M3); [|apply M2].
  rewrite pok_error in H by apply M3. cbn [negb] in H. pinv H.
  apply check_types_ok in H0 as [-> Hchk].
  apply type_size_ok in H1 as [-> Hs1]. apply type_size_ok in H2 as [-> Hs2].
  rewrite (mv_pc _ _ _ M1), HC in H3.
  rewrite (mv_code _ _ _ M2), (mv_code _ _ _ M1), HC in M3.
  apply (comp_coerce_ok X a b) in H3 as (Ht & M4 & S4);
    [|apply M3|done|done|by rewrite (mv_code _ _ _ M3), <- app_assoc|done|done].
  assert (exists o, emit_op xmalloc_ok o d6 = POk tt d7 /\ comp_typed (token (scan d)) (okind a) (okind b)
    /\ (if decide (token (scan d) = TK_LIKE) then Some O_LIKE else compare_op a3) = Some o)
    as (o & Ho & Hty & Hop).
  { case_decide as EL.
    - destruct (is_string (okind a)) eqn:Sa, (is_string (okind b)) eqn:Sb;
        cbn [negb orb] in H4; try (by pinv H4).
      exists O_LIKE. split; [done|]. split; [|done]. constructor; [by eauto|by eauto|done|].
      rewrite decide_True by done. split; by apply is_string_true.
    - unfold emit_compare in H4. destruct (compare_op a3) as [o|] eqn:Ho; [|pinv H4].
      exists o. split; [done|]. split; [|done]. constructor; [by eauto|by eauto|done|].
      rewrite decide_False by done. subst. eauto. }
  apply emit_op_mv in Ho as [M5 S5]; [|apply M4]. rewrite (mv_code _ _ _ M4) in M5.
  destruct (cmp_cond _) as [c|] eqn:Hc; [|pinv H]. pinv H.
  exists b, c, (scan d0), (scan d1). rewrite S5, S4. repeat (split; [done|]).
  unfold comp_bytes. rewrite <- Ht, Hop. unfold pair_bytes in *. rewrite <- !app_assoc in M5.
  do 4 (eapply mv_trans; [eassumption|]). done.
Qed.

Lemma between_kind_size k k1 ts ts1 :
  type_size_opt k = Some ts -> type_size_opt k1 = Some ts1 -> is_par k1 = false ->
  between_kind k k1 = if ts <? ts1 then k1 else k.
Proof. unfold between_kind, size_of. by intros -> -> ->. Qed.

(** The coercion of the operand and of the lower bound. *)
Definition low_bytes (a lo : operand) : list Z :=
  let k := okind a in let k1 := okind lo in
  op_bytes DDS_STRING_TYPE a
  ++ ob (if negb (is_par k1) && (size_of k <? size_of k1) then Some (convertn k k1) else None)
  ++ op_bytes k lo
  ++ ob (if negb (is_par k1) && (size_of k1 <? size_of k) then Some (convertn k1 k) else None).

Lemma between_coerce_ok X a lo ts ts1 t d d' :
  pok d -> operand_ok a -> operand_ok lo ->
  code d = X ++ op_bytes DDS_STRING_TYPE a ++ op_bytes DDS_STRING_TYPE lo ->
  type_size_opt (okind a) = Some ts -> type_size_opt (okind lo) = Some ts1 ->
  between_coerce xmalloc_ok (okind a) (okind lo) (zlen X)
    (zlen (X ++ op_bytes DDS_STRING_TYPE a)) ts ts1 d = POk t d' ->
  t = DDS_STRING_TYPE \/
  t = between_kind (okind a) (okind lo) /\ mv d d' (X ++ low_bytes a lo) /\ scan d' = scan d.
Proof.
  intros Hd Ha Hlo HC Hs Hs1 H. unfold between_coerce in H.
  destruct (is_par (okind lo)) eqn:P1; cbn [andb] in H.
  - destruct (is_par (okind a)) eqn:P; pinv H; [by left|right].
    destruct (par_operand lo Hlo P1) as [i ->]. unfold between_kind, low_bytes. rewrite P1.
    split; [done|]. apply (set_lpar_ok _ i []) in H0 as (_ & M & S); [|done|by rewrite <- app_assoc].
    split; [|done]. by rewrite <- app_assoc in M.
  - right. rewrite (between_kind_size _ _ ts ts1) by done. unfold low_bytes, size_of.
    rewrite P1, Hs, Hs1, (op_bytes_nonpar (okind a) DDS_STRING_TYPE lo) by done.
    cbn [from_option id negb andb].
    destruct (ts1 <? ts) eqn:L1.
    + apply Z.ltb_lt in L1. replace (ts <? ts1) with false by (symmetry; apply Z.ltb_ge; lia).
      pinv H. split; [done|]. apply emit_op_mv in H0; [|done]. rewrite HC in H0.
      cbn [ob app]. by rewrite <- !app_assoc in *.
    + destruct (ts <? ts1) eqn:L2; pinv H; (split; [done|]).
      * eapply ins_before_mv in H0; [|done|by rewrite <- app_assoc|done].
        cbn [ob app]. by rewrite app_nil_r, <- app_assoc in *.
      * cbn [ob app]. rewrite app_nil_r, <- HC. split; [by apply mv_refl|done].
Qed.

(** What the checks of a BETWEEN establish. *)
Record between_typed (k k1 k2 : TypeKind) : Prop := mkBetweenTyped {
  bt_size : is_Some (type_size_opt k);
  bt_size1 : is_Some (type_size_opt k1);
  bt_size2 : is_Some (type_size_opt k2);
  bt_chk1 : chk k k1 = true;
  bt_chk2 : chk (between_kind k k1) k2 = true;
  bt_op : is_Some (between_op (between_kind k k1))
}.

Lemma between_string : between_op DDS_STRING_TYPE = None.
Proof. done. Qed.

(** The upper bound and the test. *)
Lemma between_tail_ok C hi t ts ts2 d d' d2 :
  pok d -> operand_ok hi -> code d = C ++ op_bytes DDS_STRING_TYPE hi ->
  type_size_opt (okind hi) = Some ts2 ->
  (if is_par (okind hi) then set_lpar (zlen C) t
   else if ts2 <? ts then emit_op xmalloc_ok (convertn (okind hi) t) else pret tt) d = POk tt d' ->
  (match between_op t with Some o => emit_op xmalloc_ok o | None => parse_error PE_INC_TYPES None end) d'
    = POk tt d2 ->
  is_Some (between_op t) /\ scan d2 = scan d /\
  mv d d2 (C ++ op_bytes t hi
    ++ ob (if negb (is_par (okind hi)) && (ts2 <? ts) then Some (convertn (okind hi) t) else None)
    ++ ob (between_op t)).
Proof.
  intros Hd Hhi HC Hs2 H H2.
  assert (M : mv d d' (C ++ op_bytes t hi
    ++ ob (if negb (is_par (okind hi)) && (ts2 <? ts) then Some (convertn (okind hi) t) else None))
    /\ scan d' = scan d).
  { destruct (is_par (okind hi)) eqn:P; cbn [negb andb].
    - destruct (par_operand hi Hhi P) as [i ->].
      apply (set_lpar_ok _ i []) in H as (_ & M & S); [|done|by rewrite app_nil_r]. done.
    - rewrite (op_bytes_nonpar t DDS_STRING_TYPE) by done.
      destruct (ts2 <? ts).
      + apply emit_op_mv in H; [|done]. rewrite HC, <- app_assoc in H. done.
      + pinv H. cbn [ob]. rewrite app_nil_r, <- HC. split; [by apply mv_refl|done]. }
  destruct M as [M S]. destruct (between_op t) as [o|]; [|pinv H2].
  apply emit_op_mv in H2 as [M2 S2]; [|apply M]. split; [by eauto|]. split; [congruence|].
  rewrite (mv_code _ _ _ M), <- !app_assoc in M2. by eapply mv_trans.
Qed.

(** The tokens between the operand and the lower bound. *)
Lemma between_head_ok d d' :
  pok d -> token (scan d) = TK_BETWEEN \/ token (scan d) = TK_NOT ->
  (if decide (token (scan d) = TK_NOT) then next_token xmalloc_ok kt ;;; expect xmalloc_ok kt TK_BETWEEN
   else next_token xmalloc_ok kt) d = POk tt d' ->
  mv d d' (code d) /\
  (token (scan d) = TK_BETWEEN /\ nt (scan d) (scan d') \/
   token (scan d) = TK_NOT /\ exists s, nt (scan d) s /\ token s = TK_BETWEEN /\ nt s (scan d')).
Proof.
  intros Hd Ht H. case_decide as E.
  - pinv H. apply next_token_ok in H0 as (N0 & M0); [|done].
    apply expect_ok in H as (T1 & N1 & M1); [|apply M0]. rewrite (mv_code _ _ _ M0) in M1.
    split; [by eapply mv_trans|]. right. eauto.
  - apply next_token_ok in H as (N & M); [|done]. destruct Ht; [|done]. eauto.
Qed.

Lemma between_predicate_ok top ts fuel X a d r d' :
  pok d -> tc d = Some ts -> ts_cdr ts = Some top -> operand_ok a ->
  code d = X ++ op_bytes DDS_STRING_TYPE a ->
  token (scan d) = TK_BETWEEN \/ token (scan d) = TK_NOT ->
  between_predicate xmalloc_ok kt libs fuel (okind a) (zlen X) d = POk r d' ->
  let neg := bool_decide (token (scan d) = TK_NOT) in
  exists lo hi, operand_ok lo /\ operand_ok hi /\
    between_typed (okind a) (okind lo) (okind hi) /\
    r = Some (mkDataObject [] [] (if neg then C_T else C_F)) /\
    mv d d' (X ++ between_bytes a lo hi) /\
    forall s s1, g_operand top s a s1 -> nt s1 (scan d) ->
      g_pred top s (EBetween neg a lo hi) (scan d').
Proof.
  intros Hd Htc Hts Ha HC Htk H. unfold between_predicate in H. pinv H.
  apply between_head_ok in H0 as [M0 Hhead]; [|done|done].
  apply type_size_ok in H1 as [-> Hs].
  eapply id_or_parameter_ok in H2 as (lo & Glo & -> & Hlo & M1);
    [|apply M0|by rewrite (mv_tc _ _ _ M0)|done].
  apply check_types_ok in H3 as [-> Hchk1]. apply type_size_ok in H4 as [-> Hs1].
  rewrite (mv_pc _ _ _ M0), HC in H5. rewrite (mv_code _ _ _ M0), HC, <- app_assoc in M1.
  pose proof (between_coerce_ok X a lo a1 a4 a5 d2 d5) as Hco.
  destruct Hco as [->|(-> & M2 & S2)]; [apply M1|done|done|apply M1|done|done|done| |].
  { (* two parameters: there is no such test *)
    exfalso. rewrite between_string in H13. by apply parse_error_not_ok in H13. }
  apply next_token_ok in H6 as (N3 & M3); [|apply M2].
  apply expect_ok in H7 as (T4 & N4 & M4); [|apply M3].
  rewrite (mv_code _ _ _ M3) in M4. rewrite (mv_code _ _ _ M2) in M3, M4.
  eapply id_or_parameter_ok in H8 as (hi & Ghi & -> & Hhi & M5); [|apply M4| |done].
  2:{ by rewrite (mv_tc _ _ _ M4), (mv_tc _ _ _ M3), (mv_tc _ _ _ M2), (mv_tc _ _ _ M1), (mv_tc _ _ _ M0). }
  rewrite (mv_code _ _ _ M4) in M5.
  apply type_size_ok in H9 as [-> Hs2]. apply check_types_ok in H10 as [-> Hchk2].
  apply next_token_ok in H11 as (N6 & M6); [|apply M5]. rewrite (mv_code _ _ _ M5) in M6.
  rewrite (mv_pc _ _ _ M4) in H12.
  eapply between_tail_ok in H13 as (Hop & S7 & M7); [|apply M6|done|apply M6|done|exact H12].
  exists lo, hi. split; [done|]. split; [done|]. split.
  { constructor; by eauto. }
  split; [by repeat case_match; try case_bool_decide|]. split.
  - unfold between_bytes, low_bytes in *. unfold size_of in *. rewrite Hs, Hs1, Hs2 in *.
    cbn [from_option id] in *. rewrite <- !app_assoc in M7.
    do 7 (eapply mv_trans; [eassumption|]). done.
  - intros s s1 Ga N. rewrite S7. rewrite S2 in N3. clear -Ga N Hhead Glo N3 T4 N4 Ghi N6.
    destruct Hhead as [[T N1]|[T (s2 & N1 & T1 & N2)]]; rewrite T.
    + rewrite bool_decide_false by done. by eapply g_between.
    + rewrite bool_decide_true by done. by eapply g_not_between.
Qed.

Lemma predicate_ok top ts fuel d r d' :
  pok d -> tc d = Some ts -> ts_cdr ts = Some top ->
  predicate xmalloc_ok kt libs fuel d = POk r d' ->
  (exists cmp a b c, operand_ok a /\ operand_ok b /\ comp_typed cmp (okind a) (okind b) /\
     cmp_cond cmp = Some c /\ r = Some (mkDataObject [] [] c) /\
     mv d d' (code d ++ comp_bytes cmp a b) /\ g_pred top (scan d) (EComp cmp a b) (scan d')) \/
  (exists neg a lo hi, operand_ok a /\ operand_ok lo /\ operand_ok hi /\
     between_typed (okind a) (okind lo) (okind hi) /\
     r = Some (mkDataObject [] [] (if neg : bool then C_T else C_F)) /\
     mv d d' (code d ++ between_bytes a lo hi) /\
     g_pred top (scan d) (EBetween neg a lo hi) (scan d')).
Proof.
  intros Hd Htc Hts H. unfold predicate in H. pinv H.
  eapply id_or_parameter_ok in H0 as (oa & Ga & -> & Ha & M0); [|done|done|done].
  apply next_token_ok in H1 as (N1 & M1); [|apply M0].
  rewrite (mv_code _ _ _ M0) in M1.
  rewrite <- (zlen_code d) in H by apply Hd.
  assert (Htc1 : tc d1 = Some ts) by by rewrite (mv_tc _ _ _ M1), (mv_tc _ _ _ M0).
  destruct (bool_decide _ || bool_decide _) eqn:Eb; [right|left].
  - eapply between_predicate_ok in H as (lo & hi & Hlo & Hhi & Hty & -> & M2 & Hg);
      [|apply M1|done|done|done|apply M1|].
    2:{ apply orb_true_iff in Eb as [?|?]; case_bool_decide; auto; done. }
    exists (bool_decide (token (scan d1) = TK_NOT)), oa, lo, hi.
    do 5 (split; [done|]). split; [|by eapply Hg].
    do 2 (eapply mv_trans; [eassumption|]). done.
  - destruct (relop (token (scan d1))) eqn:Er.
    2:{ pinv H. apply expect_ok in H0 as (T & _); [|apply M1]. by rewrite T in Er. }
    eapply comp_predicate_ok in H as (b & c & s1 & s2 & Hn1 & Gb & Hn2 & Hb & Hc & -> & Hty & M2);
      [|apply M1|done|done|done|apply M1].
    exists (token (scan d1)), oa, b, c. do 5 (split; [done|]). split.
    + do 2 (eapply mv_trans; [eassumption|]). done.
    + by eapply g_comp.
Qed.

End Syntax.
