(* ===== verification/SqlVm.v ===== *)
(** Execution of the code of operands and predicates by the interpreter of
    sql/bytecode.c: it computes the values of SqlSem. *)

From S2P Require Import Prelude CLib TypeData NMatch Scan ScanProps Bytecode Parse SqlSem SqlCode SqlParse.

(** ** Code in memory *)

Definition code_at (B : list Z) (pc : Z) (bs : list Z) : Prop :=
  0 <= pc /\ forall i, 0 <= i < zlen bs -> zget B (pc + i) = zget bs i.

Lemma code_at_app B pc bs1 bs2 :
  code_at B pc (bs1 ++ bs2) -> code_at B pc bs1 /\ code_at B (pc + zlen bs1) bs2.
Proof.
  intros [Hp H]. pose proof (zlen_nonneg bs1). rewrite zlen_app in H. split; split; try lia.
  - intros i Hi. rewrite H by zlen_lia. apply zget_app_l. lia.
  - intros i Hi. replace (pc + zlen bs1 + i) with (pc + (zlen bs1 + i)) by lia.
    rewrite H by lia. rewrite zget_app_r by lia. f_equal. lia.
Qed.

Lemma code_at_cons B pc b bs :
  code_at B pc (b :: bs) -> zget B pc = Some b /\ code_at B (pc + 1) bs.
Proof.
  intros H. pose proof (code_at_app B pc [b] bs H) as [[Hp H1] H2]. split; [|done].
  specialize (H1 0 ltac:(unfold zlen; simpl; lia)). by rewrite Z.add_0_r in H1.
Qed.

Lemma code_at_slice B pc bs n :
  code_at B pc bs -> n = zlen bs -> 0 < n -> zslice B pc n = Some bs.
Proof.
  intros [Hp H] -> Hn.
  assert (Hb : pc + zlen bs <= zlen B).
  { specialize (H (zlen bs - 1) ltac:(lia)). destruct (zget_lookup_Some bs (zlen bs - 1)) as [x Hx]; [lia|].
    rewrite Hx in H. apply zget_Some in H. lia. }
  rewrite zslice_Some by lia. f_equal. apply zlist_eq.
  - apply zlen_ztake. unfold zdrop, zlen in *. rewrite length_drop. lia.
  - intros i Hi. rewrite zlen_ztake in Hi by (unfold zdrop, zlen in *; rewrite length_drop; lia).
    rewrite zget_ztake, zget_zdrop by lia. apply H. lia.
Qed.

Lemma op_of_byte_op o : op_of_byte (op_byte o) = Some o.
Proof. by destruct o. Qed.

Lemma op_byte_big o : (op_byte o <? 128) = false.
Proof. by destruct o. Qed.

(** ** Encodings of constants *)

Lemma byte_low x : ⟦Z.land x 255⟧8 = x mod 256.
Proof.
  change 255 with (Z.ones 8). rewrite Z.land_ones by lia. unfold wrap.
  change (2 ^ 8) with 256. by rewrite Z.mod_mod.
Qed.

Lemma byte_shift x k : 0 <= k -> ⟦Z.shiftr x k⟧8 = (x / 2 ^ k) mod 256.
Proof. intros. by rewrite Z.shiftr_div_pow2. Qed.

Lemma be_val_b16 x : be_val (b16 x) = ⟦x⟧16.
Proof.
  unfold be_val, b16. simpl fold_left. rewrite byte_low, byte_shift by lia.
  unfold wrap. change (2 ^ 8) with 256. change (2 ^ 16) with (256 * 256).
  rewrite Z.rem_mul_r by lia. lia.
Qed.

Lemma be_val_b32 x : be_val (b32 x) = ⟦x⟧32.
Proof.
  unfold be_val, b32. simpl fold_left. rewrite byte_low, !byte_shift by lia. unfold wrap.
  change (2 ^ 32) with (256 * (256 * (256 * 256))).
  rewrite !Z.rem_mul_r by lia. change (2 ^ 8) with 256. rewrite !Z.div_div by lia.
  change (256 * 256) with (2 ^ 16). change (2 ^ 16 * 256) with (2 ^ 24). lia.
Qed.

Lemma le_val_lcl x :
  le_val [⟦Z.land (Z.shiftr x 0) 255⟧8; ⟦Z.land (Z.shiftr x 8) 255⟧8;
          ⟦Z.land (Z.shiftr x 16) 255⟧8; ⟦Z.land (Z.shiftr x 24) 255⟧8;
          ⟦Z.land (Z.shiftr x 32) 255⟧8; ⟦Z.land (Z.shiftr x 40) 255⟧8;
          ⟦Z.land (Z.shiftr x 48) 255⟧8; ⟦Z.land (Z.shiftr x 56) 255⟧8] = ⟦x⟧64.
Proof.
  rewrite !byte_low, !Z.shiftr_div_pow2 by lia. change 64 with (8 * Z.of_nat 8). rewrite <- (le_val_bytes 8 x).
  unfold le_bytes. rewrite !Z.div_div by lia. change (2 ^ 0) with 1. rewrite Z.div_1_r.
  change (2 ^ 8) with 256. done.
Qed.

Lemma be_val_1 x : be_val [x] = x.
Proof. done. Qed.

(** The value of a cell that is used at kind [k]. *)
Definition cell_val (k : TypeKind) (e : Element) : option val :=
  match k with
  | DDS_BOOLEAN_TYPE | DDS_BYTE_TYPE | DDS_UINT_16_TYPE | DDS_UINT_32_TYPE => VInt <$> get_u e
  | DDS_CHAR_8_TYPE | DDS_INT_16_TYPE | DDS_INT_32_TYPE | DDS_ENUMERATION_TYPE => VInt <$> get_i e
  | DDS_UINT_64_TYPE => VInt <$> get_ul e
  | DDS_INT_64_TYPE => VInt <$> get_l e
  | DDS_FLOAT_32_TYPE | DDS_FLOAT_64_TYPE => VDbl <$> get_d e
  | DDS_FLOAT_128_TYPE => VLd <$> get_o e
  | DDS_STRING_TYPE => VStr <$> get_sp e
  | _ => None
  end.

Lemma get_u_put x : get_u (put_u x) = Some ⟦x⟧32.
Proof. unfold get_u, put_u, e_raw. simpl. f_equal. apply (wrap_wrap 32). Qed.

Lemma get_i_put x : get_i (put_u x) = Some ⟪x⟫32.
Proof. unfold get_i. fold (get_u (put_u x)). rewrite get_u_put. simpl. by rewrite swrap_wrap. Qed.

Lemma get_ul_put x : get_ul (put_l x) = Some ⟦x⟧64.
Proof. unfold get_ul, put_l, e_raw. simpl. f_equal. apply (wrap_wrap 64). Qed.

Lemma get_l_put x : get_l (put_l x) = Some ⟪x⟫64.
Proof. unfold get_l. fold (get_ul (put_l x)). rewrite get_ul_put. simpl. by rewrite swrap_wrap. Qed.

Lemma get_d_put x : get_d (put_d x) = Some ⟦x⟧64.
Proof. done. Qed.

Lemma get_o_put x : get_o (put_o x) = Some (wrap 80 x).
Proof. done. Qed.

#[local] Hint Rewrite get_u_put get_i_put get_ul_put get_l_put get_d_put get_o_put : mach_rw.

(** The numeric constants: operand bytes and cell. *)
Definition lc_spec (o : Op) : option (Z * (list Z -> Element)) :=
  match o with
  | O_LCBU => Some (1, fun bs => put_u (be_val bs))
  | O_LCBS => Some (1, fun bs => put_u ⟪be_val bs⟫8)
  | O_LCSU => Some (2, fun bs => put_u (be_val bs))
  | O_LCSS => Some (2, fun bs => put_u ⟪be_val bs⟫16)
  | O_LCWU => Some (4, fun bs => put_u (be_val bs))
  | O_LCWS => Some (4, fun bs => put_u ⟪be_val bs⟫32)
  | O_LCL => Some (8, fun bs => put_l (le_val bs))
  | O_LCD => Some (8, fun bs => put_d (le_val bs))
  | _ => None
  end.

Lemma w8s_bytes l : Forall byte_ok l -> w8s l = l.
Proof.
  induction 1 as [|c l Hc _ IH]; [done|]. simpl. rewrite IH. f_equal. by apply wrap_small.
Qed.

Lemma nz_bytes l : Forall nz_byte l -> Forall byte_ok l.
Proof. apply Forall_impl. unfold nz_byte, byte_ok. lia. Qed.

Lemma zdrop_cons (l : list Z) i x : zget l i = Some x -> zdrop i l = x :: zdrop (i + 1) l.
Proof.
  intros Hx. pose proof (zget_Some _ _ _ Hx). unfold zget in Hx. unfold zdrop.
  destruct (i <? 0); [done|]. rewrite (drop_S _ _ _ Hx).
  by replace (Z.to_nat (i + 1)) with (S (Z.to_nat i)) by lia.
Qed.

Lemma cstring_at B pc s :
  Forall nz_byte s -> code_at B pc (s ++ [0]) -> cstring (zdrop pc B) = Some s.
Proof.
  intros Hs. revert pc; induction Hs as [|c s Hc Hs IH]; intros pc Hat; simpl app in Hat;
    apply code_at_cons in Hat as [Hg Hat]; rewrite (zdrop_cons _ _ _ Hg); simpl; [done|].
  destruct (c =? 0) eqn:E; zbool; [unfold nz_byte in Hc; lia|]. by rewrite (IH _ Hat).
Qed.

Lemma swrap_widen a b z : 0 < a <= b -> swrap b (swrap a z) = swrap a z.
Proof.
  intros Hab. apply swrap_small; [lia|]. pose proof (swrap_range a z ltac:(lia)).
  assert (2 ^ (a - 1) <= 2 ^ (b - 1)) by (apply Z.pow_le_mono_r; lia). unfold in_s. lia.
Qed.

Lemma d_of_float_wrap f : ⟦d_of_float f⟧64 = d_of_float f.
Proof. apply wrap_wrap. Qed.

(** Reduce the option monad only. *)
Ltac ocbn := cbn [fmap option_fmap option_map mbind option_bind mret option_ret coerce].

(** ** Conversions *)

Lemma d_of_Z_wrap z : ⟦d_of_Z z⟧64 = d_of_Z z.
Proof. apply wrap_wrap. Qed.

Lemma o_of_Z_wrap z : wrap 80 (o_of_Z z) = o_of_Z z.
Proof. apply wrap_wrap. Qed.

Lemma o_of_double_wrap z : wrap 80 (o_of_double z) = o_of_double z.
Proof. apply wrap_wrap. Qed.

Lemma wrap_low a b z : 0 <= a <= b -> wrap a (wrap b z) = wrap a z.
Proof.
  intros. unfold wrap. apply Z.mod_mod_divide. exists (2 ^ (b - a)).
  rewrite <- Z.pow_add_r by lia. f_equal. lia.
Qed.

Lemma get_u_wrap e z : get_u e = Some z -> ⟦z⟧32 = z.
Proof.
  unfold get_u, e_raw. destruct e; [|done]. destruct (_ <=? _); [|done].
  intros [= <-]. apply (wrap_wrap 32).
Qed.

Lemma get_ul_wrap e z : get_ul e = Some z -> ⟦z⟧64 = z.
Proof.
  unfold get_ul, e_raw. destruct e; [|done]. destruct (_ <=? _); [|done].
  intros [= <-]. apply (wrap_wrap 64).
Qed.

(** A conversion to a wider kind. *)
Lemma widen_ok k k' e val :
  is_Some (type_size_opt k) -> is_Some (type_size_opt k') -> size_of k < size_of k' ->
  convertible k k' = true -> cell_val k e = Some val ->
  exists e', conv_cell (convertn k k') e = Some e' /\
    cell_val k' e' = coerce k' val /\ is_Some (coerce k' val).
Proof.
  intros [n Hn] [n' Hn'] Hlt Hcv Hval. unfold convertible in Hcv. case_bool_decide as Hop; [done|].
  destruct k, k'; try discriminate Hn; try discriminate Hn'; try (by destruct Hop);
    unfold size_of in Hlt; simpl in Hlt; try lia; clear Hn Hn' Hlt Hcv Hop;
    match goal with |- context [convertn ?a ?b] =>
      let o := eval vm_compute in (convertn a b) in change (convertn a b) with o end;
    cbn [cell_val] in Hval;
    match type of Hval with _ <$> ?g = _ => destruct g as [z|] eqn:Hg; [|done] end;
    injection Hval as <-;
    (eexists; split; [cbn [conv_cell]; rewrite Hg; reflexivity|]);
    cbn [cell_val]; autorewrite with mach_rw; ocbn;
    rewrite ?d_of_Z_wrap, ?o_of_Z_wrap, ?o_of_double_wrap; by eauto.
Qed.

(** No conversion between kinds of one size. *)
Lemma same_ok k k' e val :
  is_par k = false -> is_par k' = false ->
  is_Some (type_size_opt k) -> is_Some (type_size_opt k') -> size_of k = size_of k' ->
  cell_val k e = Some val -> cell_val k' e = coerce k' val /\ is_Some (coerce k' val).
Proof.
  intros Hp Hp' [n Hn] [n' Hn'] Heq Hval.
  destruct k, k'; try discriminate Hn; try discriminate Hn'; try done;
    unfold size_of in Heq; simpl in Heq; try lia; clear Hn Hn' Heq Hp Hp';
    cbn [cell_val] in *; unfold get_i, get_l in *; fold (get_u e) in *; fold (get_ul e) in *;
    repeat match goal with
    | H : context [?g e] |- _ => lazymatch type of (g e) with option _ =>
        destruct (g e) as [z|] eqn:Hg; [|done] end
    end; injection Hval as <-; ocbn; autorewrite with mach_rw;
    rewrite ?(get_u_wrap _ _ Hg), ?(get_ul_wrap _ _ Hg); by eauto.
Qed.

(** A character as a string. *)
Lemma c2s_ok e val :
  cell_val DDS_CHAR_8_TYPE e = Some val ->
  exists e', conv_cell O_C2S e = Some e' /\
    cell_val DDS_STRING_TYPE e' = coerce DDS_STRING_TYPE val /\ is_Some (coerce DDS_STRING_TYPE val).
Proof.
  cbn [cell_val]. unfold get_i. fold (get_u e). intros Hval.
  destruct (get_u e) as [z|] eqn:Hg; [|done]. injection Hval as <-.
  eexists. split; [cbn [conv_cell]; rewrite Hg; reflexivity|]. ocbn.
  assert (⟦⟪z⟫32⟧8 = ⟦z⟧8) as ->.
  { rewrite <- (wrap_low 8 32 (⟪z⟫32)), wrap_swrap, wrap_low by lia. done. }
  by eauto.
Qed.

Lemma ztake_insert {A} (l : list A) i x :
  0 <= i < zlen l -> ztake (i + 1) (<[Z.to_nat i := x]> l) = ztake i l ++ [x].
Proof.
  intros Hi. unfold ztake, zlen in *. replace (Z.to_nat (i + 1)) with (S (Z.to_nat i)) by lia.
  rewrite (take_S_r _ _ x); [by rewrite take_insert_ge by lia|].
  apply list_lookup_insert_eq. lia.
Qed.

Lemma ztake_ztake_app {A} (l l1 l2 : list A) :
  ztake (zlen (l1 ++ l2)) l = l1 ++ l2 -> ztake (zlen l1) l = l1.
Proof.
  intros Hl. unfold ztake, zlen in *. rewrite Nat2Z.id in *. rewrite length_app in Hl.
  apply (f_equal (take (length l1))) in Hl. rewrite take_take, take_app_length in Hl.
  by rewrite Nat.min_l in Hl by lia.
Qed.

Section Exec.
Context `{CdrOffset}.
Context (xmalloc_ok : Z -> bool) (strdup_ok : list Z -> bool).
Context (env : Env).
Abbreviation step := (step xmalloc_ok strdup_ok env).
Abbreviation step_op := (step_op xmalloc_ok strdup_ok env).
Abbreviation run := (run xmalloc_ok strdup_ok env).
Abbreviation prog := (p_buffer (program env)).

(** ** Runs *)

Inductive steps : Vm -> Vm -> Prop :=
| steps_refl v : steps v v
| steps_step v v1 v2 : step v = Next v1 -> steps v1 v2 -> steps v v2.

Lemma steps_trans v1 v2 v3 : steps v1 v2 -> steps v2 v3 -> steps v1 v3.
Proof. induction 1; [done|]. intros. eapply steps_step; eauto. Qed.

Lemma steps_run v v' : steps v v' -> exists k, forall fuel', run (k + fuel') v = run fuel' v'.
Proof.
  induction 1 as [v|v v1 v2 Hs _ [k IH]]; [by exists O|].
  exists (S k). intros. simpl. by rewrite Hs, IH.
Qed.

(** The interpreter follows an evaluation: it reaches a state that shows its
    value, stops with an error, or reads outside the sample. *)
Definition sim {A} (v : Vm) (r : res A) (K : A -> Vm -> Prop) : Prop :=
  match r with
  | Ok a => exists v', steps v v' /\ K a v'
  | Fail => exists v1 v2, steps v v1 /\ step v1 = Done 1 None v2
  | Stuck => exists v1, steps v v1 /\ step v1 = Undef
  end.

Lemma sim_steps {A} v v' (r : res A) K : steps v v' -> sim v' r K -> sim v r K.
Proof.
  intros Hs. destruct r; simpl.
  - intros (v2 & ? & ?). exists v2. split; [|done]. by eapply steps_trans.
  - intros (v1 & v2 & ? & ?). exists v1, v2. split; [|done]. by eapply steps_trans.
  - intros (v1 & ? & ?). exists v1. split; [|done]. by eapply steps_trans.
Qed.

Lemma sim_bind {A B} v (r : res A) (f : A -> res B) K1 K2 :
  sim v r K1 -> (forall a v', K1 a v' -> sim v' (f a) K2) -> sim v (rbind r f) K2.
Proof.
  destruct r; simpl; intros Hr Hf; [|done|done].
  destruct Hr as (v' & Hs & HK). eapply sim_steps; [done|]. by apply Hf.
Qed.

Lemma sim_mono {A} v (r : res A) (K1 K2 : A -> Vm -> Prop) :
  sim v r K1 -> (forall a v', K1 a v' -> K2 a v') -> sim v r K2.
Proof. destruct r; simpl; [|done|done]. intros (v' & ? & ?) HK. eauto. Qed.

Lemma sim_ok {A} v a (K : A -> Vm -> Prop) : K a v -> sim v (Ok a) K.
Proof. intros. exists v. split; [constructor|done]. Qed.

Lemma sim_next {A} v v' a (K : A -> Vm -> Prop) : step v = Next v' -> K a v' -> sim v (Ok a) K.
Proof. intros Hs HK. exists v'. split; [eapply steps_step; [done|constructor]|done]. Qed.

(** ** States between instructions *)

(** [M] bounds the member indices; the counter [n] stays below [M + pc]. *)
Context (M : Z) (HM0 : 0 <= M) (HM : M + zlen prog <= MAX_INSTS).

(** A cached argument is the conversion of its parameter. *)
Definition par_elem (t : Type_t) (s : list Z) : Element :=
  match t with
  | T_STRING => EStr s
  | T_INT32 => put_u (strtol s)
  | T_INT64 => put_l (strtol s)
  | T_DOUBLE => put_d (strtod s)
  | T_LDOUBLE => put_o (strtold s)
  end.

Definition cache_coherent (c : BCCache) : Prop :=
  zlen (c_args c) = zlen (c_types c) /\
  forall i t, zget (c_types c) i = Some t -> t <> T_STRING ->
    exists s, default [] (pars env) !! Z.to_nat i = Some s /\ zget (c_args c) i = Some (par_elem t s).

Definition cache_ok (c : option BCCache) : Prop :=
  match c with Some c => cache_coherent c | None => True end.

(** At [p], with the operands [cells], inside [nest] containers. *)
Record vm_in (p : Z) (cells : list Element) (nest : Z) (tp : option Type_) (ofs : Z) (v : Vm) : Prop := mkVmIn {
  vi_pc : pc v = p;
  vi_tos : tos v = zlen cells;
  vi_cells : ztake (zlen cells) (stack v) = cells;
  vi_stack : zlen (stack v) = MAX_STACK;
  vi_nest : cnest v = nest;
  vi_cdp : cdp v = data env;
  vi_ctp : ctp v = tp;
  vi_ofs : offset v = ofs;
  vi_n : n_ v <= M + p;
  vi_cache : cache_ok (cache v)
}.

Definition vm_at (p : Z) (cells : list Element) (v : Vm) : Prop :=
  vm_in p cells 0 (ts_cdr (dts env)) 0 v.

(** One instruction, with its guards out of the way. *)
Lemma step_at p cells nest tp ofs v o :
  vm_in p cells nest tp ofs v -> zlen cells < MAX_STACK -> zget prog p = Some (op_byte o) ->
  step v = match step_op o (set_pc (p + 1) v) with
           | Next v => Next (set_n (n_ v + 1) v)
           | out => out
           end.
Proof.
  intros Hv Hc Hp. pose proof (zget_Some _ _ _ Hp). unfold Bytecode.step.
  rewrite (vi_pc _ _ _ _ _ _ Hv), (vi_tos _ _ _ _ _ _ Hv), Hp.
  destruct (MAX_INSTS <=? n_ v) eqn:E1; zbool; [pose proof (vi_n _ _ _ _ _ _ Hv); lia|].
  destruct (MAX_STACK <=? zlen cells) eqn:E2; zbool; [lia|].
  rewrite op_byte_big, op_of_byte_op. by destruct (step_op o _).
Qed.

Lemma push_at p cells nest tp ofs v e :
  vm_in p cells nest tp ofs v -> zlen cells < MAX_STACK ->
  exists v', push e v = Some v' /\ vm_in p (cells ++ [e]) nest tp ofs v' /\ n_ v' = n_ v /\ cache v' = cache v.
Proof.
  intros [] Hc. pose proof (zlen_nonneg cells). unfold push. rewrite vi_tos0, zset_Some by lia. simpl.
  eexists. split; [reflexivity|]. split; [|done].
  constructor; try done; simpl; rewrite ?zlen_insert; try done.
  - rewrite zlen_app. done.
  - rewrite zlen_app. change (zlen [e]) with 1. rewrite ztake_insert by lia. congruence.
Qed.

(** Leave the instruction: [pc] and the counter move on. *)
Lemma vm_in_next p q cells nest tp ofs v m :
  vm_in p cells nest tp ofs v -> m <= M + q -> vm_in q cells nest tp ofs (set_n m (set_pc q v)).
Proof. intros []. by constructor. Qed.

Lemma vm_in_pc p q cells nest tp ofs v :
  vm_in p cells nest tp ofs v -> p <= q -> vm_in q cells nest tp ofs (set_pc q v).
Proof. intros [] ?. constructor; try done. simpl. lia. Qed.

(** ** Constants *)

Lemma exec_lc o k f p cells v bs :
  lc_spec o = Some (k, f) -> vm_at p cells v -> zlen cells < MAX_STACK ->
  code_at prog p (op_byte o :: bs) -> zlen bs = k ->
  exists v', step v = Next v' /\ vm_at (p + 1 + k) (cells ++ [f bs]) v'.
Proof.
  intros Hsp Hv Hc Hcode Hk. apply code_at_cons in Hcode as [Hop Hbs].
  assert (Hk0 : 0 < k) by (clear - Hsp; destruct o; try done; injection Hsp as <- <-; lia).
  rewrite (step_at _ _ _ _ _ _ _ Hv Hc Hop).
  assert (Hf : fetch env (set_pc (p + 1) v) k = Some bs) by (apply code_at_slice; done).
  pose proof (vm_in_pc _ (p + 1) _ _ _ _ _ Hv ltac:(lia)) as Hv1.
  destruct (push_at _ _ _ _ _ _ (f bs) Hv1 Hc) as (v2 & Hpush & Hv2 & Hn & _).
  exists (set_n (n_ v2 + 1) (set_pc (p + 1 + k) v2)). split.
  - destruct o; try done; injection Hsp as <- <-; cbv beta in *;
      cbn [Bytecode.step_op step_lc]; rewrite Hf; cbn [obind]; rewrite Hpush; cbn [obind];
      by rewrite (vi_pc _ _ _ _ _ _ Hv2).
  - eapply vm_in_next; [done|]. pose proof (vi_n _ _ _ _ _ _ Hv). rewrite Hn. simpl. lia.
Qed.

(** A one-byte constant. *)
Lemma exec_small p cells v i :
  -64 <= i <= 63 -> vm_at p cells v -> zlen cells < MAX_STACK ->
  zget prog p = Some ⟦Z.land i 127⟧8 ->
  exists v', step v = Next v' /\ vm_at (p + 1) (cells ++ [put_u i]) v'.
Proof.
  intros Hi Hv Hc Hp. pose proof (zget_Some _ _ _ Hp). unfold Bytecode.step.
  rewrite (vi_pc _ _ _ _ _ _ Hv), (vi_tos _ _ _ _ _ _ Hv), Hp.
  destruct (MAX_INSTS <=? n_ v) eqn:E1; zbool; [pose proof (vi_n _ _ _ _ _ _ Hv); lia|].
  destruct (MAX_STACK <=? zlen cells) eqn:E2; zbool; [lia|].
  assert (Hb : ⟦Z.land i 127⟧8 = if i <? 0 then i + 128 else i).
  { change 127 with (Z.ones 7). rewrite Z.land_ones by lia. change (2 ^ 7) with 128.
    unfold wrap. destruct (i <? 0) eqn:E; zbool; Z.div_mod_to_equations; lia. }
  rewrite Hb. replace ((if i <? 0 then i + 128 else i) <? 128) with true
    by (destruct (i <? 0) eqn:E; symmetry; apply Z.ltb_lt; zbool; lia).
  replace (if 64 <=? (if i <? 0 then i + 128 else i) then (if i <? 0 then i + 128 else i) - 128
           else (if i <? 0 then i + 128 else i)) with i.
  2:{ destruct (i <? 0) eqn:E; zbool; case_if E4; zbool; lia. }
  pose proof (vm_in_pc _ (p + 1) _ _ _ _ _ Hv ltac:(lia)) as Hv1.
  destruct (push_at _ _ _ _ _ _ (put_u i) Hv1 Hc) as (v2 & -> & Hv2 & Hn & _). simpl.
  eexists; split; [reflexivity|].
  replace v2 with (set_pc (p + 1) v2) at 2
    by (destruct v2; simpl; by rewrite <- (vi_pc _ _ _ _ _ _ Hv2)).
  eapply vm_in_next; [done|]. pose proof (vi_n _ _ _ _ _ _ Hv). rewrite Hn. simpl. lia.
Qed.

(** The cell of an integer constant. *)
Definition int_elem (z : Z) : Element :=
  if decide (int_kind z = DDS_INT_64_TYPE) then put_l z else put_u z.

Lemma put_u_eq x y : ⟦x⟧32 = ⟦y⟧32 -> put_u x = put_u y.
Proof. unfold put_u. by intros ->. Qed.

Lemma put_l_eq x y : ⟦x⟧64 = ⟦y⟧64 -> put_l x = put_l y.
Proof. unfold put_l. by intros ->. Qed.

Lemma exec_int z p cells v :
  vm_at p cells v -> zlen cells < MAX_STACK -> code_at prog p (int_bytes z) ->
  exists v', step v = Next v' /\ vm_at (p + zlen (int_bytes z)) (cells ++ [int_elem z]) v'.
Proof.
  intros Hv Hc Hcode. unfold int_elem. unfold int_bytes, int_kind in *.
  destruct ((-64 <=? z) && (z <=? 63)) eqn:E0.
  { zbool. apply code_at_cons in Hcode as [Hp _]. by apply exec_small. }
  assert (Hlc : forall o k f bs e, lc_spec o = Some (k, f) -> zlen bs = k ->
    code_at prog p (op_byte o :: bs) -> f bs = e ->
    exists v', step v = Next v' /\ vm_at (p + zlen (op_byte o :: bs)) (cells ++ [e]) v').
  { intros o k f bs e Hsp Hk Hco <-. rewrite zlen_cons, Hk, Z.add_assoc. by eapply exec_lc. }
  case_decide as Ek;
  repeat match goal with
  | H : context [if ?b then _ else _] |- _ => destruct b eqn:?
  end; try done; try (exfalso; clear Hlc Hcode; zbool_lia);
    try (eapply (Hlc O_LCL); [reflexivity|reflexivity|done|];
         apply put_l_eq; by rewrite le_val_lcl, wrap_wrap);
    (eapply Hlc; [reflexivity|reflexivity|done|]; cbv beta;
     rewrite ?be_val_1, ?be_val_b16, ?be_val_b32; apply put_u_eq; clear Hlc Hcode Hv; zbool; mach_lia).
Qed.

Lemma exec_float d p cells v :
  vm_at p cells v -> zlen cells < MAX_STACK -> code_at prog p (op_byte O_LCD :: w8s (le_bytes 8 d)) ->
  exists v', step v = Next v' /\ vm_at (p + 9) (cells ++ [put_d ⟦d⟧64]) v'.
Proof.
  intros Hv Hc Hcode. rewrite w8s_bytes in Hcode by apply le_bytes_ok.
  replace (p + 9) with (p + 1 + 8) by lia.
  rewrite <- (le_val_bytes 8 d : _ = ⟦d⟧64).
  by eapply (exec_lc O_LCD 8 (fun bs => put_d (le_val bs))).
Qed.

Lemma exec_string s p cells v :
  Forall nz_byte s ->
  vm_at p cells v -> zlen cells < MAX_STACK -> code_at prog p (op_byte O_LCS :: w8s (s ++ [0])) ->
  exists v', step v = Next v' /\ vm_at (p + zlen (op_byte O_LCS :: w8s (s ++ [0]))) (cells ++ [EStr s]) v'.
Proof.
  intros Hs Hv Hc Hcode. rewrite w8s_bytes in * by (apply Forall_app; split; [by apply nz_bytes|by repeat constructor]).
  apply code_at_cons in Hcode as [Hop Hbs].
  rewrite (step_at _ _ _ _ _ _ _ Hv Hc Hop). cbn [Bytecode.step_op step_lc].
  change (pc (set_pc (p + 1) v)) with (p + 1). rewrite (cstring_at _ _ _ Hs Hbs). cbn [obind].
  pose proof (vm_in_pc _ (p + 1) _ _ _ _ _ Hv ltac:(lia)) as Hv1.
  destruct (push_at _ _ _ _ _ _ (EStr s) Hv1 Hc) as (v2 & -> & Hv2 & Hn & _). cbn [obind].
  eexists. split; [reflexivity|]. rewrite (vi_pc _ _ _ _ _ _ Hv2).
  replace (p + zlen (op_byte O_LCS :: s ++ [0])) with (p + 1 + zlen s + 1) by zlen_lia.
  eapply vm_in_next; [done|]. pose proof (vi_n _ _ _ _ _ _ Hv). simpl. rewrite Hn. simpl. zlen_lia.
Qed.

(** ** Fields *)

Lemma be_val_index f : 0 <= f < M -> be_val (b16 f) = f.
Proof.
  intros. rewrite be_val_b16. apply wrap_small. pose proof (zlen_nonneg prog).
  unfold in_u, MAX_INSTS in *. simpl. lia.
Qed.

(** The container step of [walk]. *)
Definition enter (tp : option Type_) (f ofs : Z) : res (option Type_ * Z) :=
  rbind (of_opt (data_container env (data env) tp f ofs)) (fun '(rc, tp, ofs) =>
  if negb (rc =? 0) then Fail else Ok (tp, ofs)).

Lemma exec_cref f p cells nest tp ofs v :
  vm_in p cells nest tp ofs v -> zlen cells < MAX_STACK -> 0 <= f < M ->
  code_at prog p (op_byte O_CREF :: b16 f) ->
  sim v (enter tp f ofs) (fun '(tp', ofs') v' => vm_in (p + 3) cells (nest + 1) tp' ofs' v').
Proof.
  intros Hv Hc Hf Hcode. apply code_at_cons in Hcode as [Hop Hbs].
  pose proof (step_at _ _ _ _ _ _ _ Hv Hc Hop) as Hstep. pose proof (zget_Some _ _ _ Hop) as Hp0.
  cbn [Bytecode.step_op step_misc] in Hstep.
  assert (Hfe : fetch env (set_pc (p + 1) v) 2 = Some (b16 f)) by (by apply code_at_slice).
  rewrite Hfe in Hstep. cbn [obind] in Hstep. rewrite be_val_index in Hstep by done.
  cbn [n_ set_n set_pc cdp ctp offset] in Hstep.
  rewrite (vi_cdp _ _ _ _ _ _ Hv), (vi_ctp _ _ _ _ _ _ Hv), (vi_ofs _ _ _ _ _ _ Hv) in Hstep.
  unfold enter. destruct (data_container env (data env) tp f ofs) as [[[rc tp'] ofs']|]; cbn [obind of_opt rbind] in *.
  - destruct (rc =? 0) eqn:E; cbn [negb] in *.
    + eexists. split; [eapply steps_step; [exact Hstep|constructor]|].
      destruct Hv; constructor; try done; simpl; lia.
    + do 2 eexists. split; [constructor|]. exact Hstep.
  - eexists. split; [constructor|]. exact Hstep.
Qed.

Lemma exec_path path p cells nest tp ofs v :
  vm_in p cells nest tp ofs v -> zlen cells < MAX_STACK -> Forall (fun f => 0 <= f < M) path ->
  code_at prog p (path_bytes path) ->
  sim v (walk env path tp ofs) (fun '(tp', ofs') v' =>
    vm_in (p + zlen (path_bytes path)) cells (nest + zlen path) tp' ofs' v').
Proof.
  revert p nest tp ofs v. induction path as [|f path IH]; intros p nest tp ofs v Hv Hc Hp Hcode; cbn [walk].
  - apply sim_ok. simpl path_bytes. change (zlen (@nil Z)) with 0. by rewrite !Z.add_0_r.
  - inversion Hp as [|? ? Hf Hp']; subst. cbn [path_bytes] in *.
    apply (code_at_app prog p (op_byte O_CREF :: b16 f)) in Hcode as [Hc1 Hc2].
    pose proof (exec_cref f p cells nest tp ofs v Hv Hc Hf Hc1) as Hs.
    unfold enter in Hs. destruct (data_container env (data env) tp f ofs) as [[[rc tp'] ofs']|];
      cbn [of_opt rbind] in *; [|done].
    destruct (negb (rc =? 0)); [done|]. destruct Hs as (v' & Hs & Hv').
    eapply sim_steps; [exact Hs|]. change (zlen (op_byte O_CREF :: b16 f)) with 3 in Hc2.
    eapply sim_mono; [by apply (IH (p + 3))|]. intros [tp2 ofs2] v2 Hv2.
    change (op_byte O_CREF :: b16 f ++ path_bytes path) with ((op_byte O_CREF :: b16 f) ++ path_bytes path).
    rewrite zlen_app, (zlen_cons f path). change (zlen (op_byte O_CREF :: b16 f)) with 3.
    by replace (p + (3 + zlen (path_bytes path))) with (p + 3 + zlen (path_bytes path)) by lia;
      replace (nest + (1 + zlen path)) with (nest + 1 + zlen path) by lia.
Qed.

(** The load instruction of a kind reads what [field_val] reads. *)
Lemma ld_spec k o :
  load_op k = Some o -> is_Some (type_size_opt k) ->
  exists rd, (forall v, step_op o v = load env (kind_align k) (is_str_kind k) rd v) /\
    forall mem, match rd mem with
                | Some e => field_val k mem = cell_val k e /\ is_Some (cell_val k e)
                | None => field_val k mem = None
                end.
Proof.
  intros Hl Hs. destruct k; try discriminate Hl; try (by destruct Hs); injection Hl as <-;
    (eexists; split; [intros v; reflexivity|]); intros mem; unfold rd_num, field_val;
    try (destruct (zslice mem 0 _) as [bs|]; ocbn; [|done]);
    try (destruct (cstring mem) as [str|]; ocbn; [|done]);
    unfold cell_val; ocbn;
    repeat (progress (autorewrite with mach_rw; ocbn;
      rewrite ?(swrap_widen 8 32), ?(swrap_widen 16 32), ?d_of_float_wrap by lia));
    (split; [done|]); by eauto.
Qed.

(** [v'] has one more operand than [cells], of value [val] at kind [k]. *)
Definition pushed (p : Z) (cells : list Element) (k : TypeKind) (val : val) (v : Vm) : Prop :=
  exists e, vm_at p (cells ++ [e]) v /\ cell_val k e = Some val.

Lemma exec_load f k o p cells nest tp ofs v :
  load_op k = Some o -> is_Some (type_size_opt k) ->
  vm_in p cells nest tp ofs v -> zlen cells < MAX_STACK -> 0 <= f < M ->
  (nest = 0 -> tp = ts_cdr (dts env) /\ ofs = 0) ->
  code_at prog p (op_byte o :: b16 f) ->
  sim v (rbind (of_opt (data_ptr env (data env) tp f (kind_align k) (is_str_kind k) ofs)) (fun mem =>
         match mem with None => Fail | Some mem => of_opt (field_val k mem) end))
    (pushed (p + 3) cells k).
Proof.
  intros Hl Hs Hv Hc Hf Hn Hcode. destruct (ld_spec k o Hl Hs) as (rd & Hld & Hrd).
  apply code_at_cons in Hcode as [Hop Hbs].
  pose proof (step_at _ _ _ _ _ _ _ Hv Hc Hop) as Hstep. pose proof (zget_Some _ _ _ Hop) as Hp0.
  rewrite Hld in Hstep. unfold load in Hstep.
  assert (Hfe : fetch env (set_pc (p + 1) v) 2 = Some (b16 f)) by (by apply code_at_slice).
  rewrite Hfe in Hstep. cbn [obind] in Hstep. rewrite be_val_index in Hstep by done.
  cbn [n_ set_n set_pc cdp ctp offset] in Hstep.
  rewrite (vi_cdp _ _ _ _ _ _ Hv), (vi_ctp _ _ _ _ _ _ Hv), (vi_ofs _ _ _ _ _ _ Hv) in Hstep.
  destruct (data_ptr env (data env) tp f (kind_align k) (is_str_kind k) ofs) as [[mem|]|];
    cbn [obind of_opt rbind] in *; [|by do 2 eexists; split; [constructor|exact Hstep]
                                    |by eexists; split; [constructor|exact Hstep]].
  specialize (Hrd mem). destruct (rd mem) as [e|]; cbn [obind] in Hstep.
  2:{ rewrite Hrd. eexists; split; [constructor|exact Hstep]. }
  destruct Hrd as (-> & [val Hval]). rewrite Hval in *. cbn [of_opt] in *.
  assert (Hv1 : vm_in (p + 3) cells nest tp ofs (set_pc (p + 1 + 2) (set_n f (set_pc (p + 1) v)))).
  { destruct Hv; constructor; try done; simpl; lia. }
  destruct (push_at _ _ _ _ _ _ e Hv1 Hc) as (v2 & Hpush & Hv2 & Hn2 & _).
  cbn [pc set_n set_pc] in Hstep. unfold set_pc, set_n in Hpush, Hstep. rewrite Hpush in Hstep. cbn [obind] in Hstep.
  eexists. split; [eapply steps_step; [exact Hstep|constructor]|].
  exists e. split; [|done]. cbn [n_] in Hn2. unfold creset. rewrite (vi_nest _ _ _ _ _ _ Hv2).
  destruct (nest =? 0) eqn:E; zbool.
  - destruct (Hn E) as [-> ->]. subst nest. destruct Hv2; constructor; try done. simpl in *. lia.
  - destruct Hv2; constructor; try done. simpl in *. lia.
Qed.

Lemma exec_field path f k p cells v :
  is_Some (load_op k) -> is_Some (type_size_opt k) ->
  vm_at p cells v -> zlen cells < MAX_STACK -> Forall (fun f => 0 <= f < M) path -> 0 <= f < M ->
  code_at prog p (op_bytes k (OpField path f k)) ->
  sim v (eval_field env path f k) (pushed (p + zlen (op_bytes k (OpField path f k))) cells k).
Proof.
  intros [o Hl] Hs Hv Hc Hp Hf Hcode. cbn [op_bytes] in *. rewrite Hl in *. cbn [from_option] in *.
  apply code_at_app in Hcode as [Hc1 Hc2]. unfold eval_field.
  rewrite zlen_app, Z.add_assoc. change (zlen (op_byte o :: b16 f)) with 3.
  destruct path as [|g path].
  - simpl path_bytes in *. rewrite zlen_nil, Z.add_0_r in *. cbn [walk rbind].
    by eapply (exec_load f k o).
  - eapply sim_bind; [by eapply (exec_path (g :: path) p cells 0)|]. intros [tp ofs] v1 Hv1.
    eapply (exec_load f k o); [done|done|exact Hv1|done|done| |done]. zlen_lia.
Qed.

(** ** Parameters *)

(** The instruction that loads a parameter at kind [k]: cached or not. *)
Definition lp_type (k : TypeKind) : option Type_t :=
  match k with
  | DDS_BOOLEAN_TYPE | DDS_BYTE_TYPE | DDS_INT_16_TYPE | DDS_UINT_16_TYPE | DDS_INT_32_TYPE
  | DDS_UINT_32_TYPE | DDS_CHAR_8_TYPE => Some T_INT32
  | DDS_INT_64_TYPE | DDS_UINT_64_TYPE => Some T_INT64
  | DDS_FLOAT_32_TYPE | DDS_FLOAT_64_TYPE => Some T_DOUBLE
  | DDS_FLOAT_128_TYPE => Some T_LDOUBLE
  | DDS_STRING_TYPE => Some T_STRING
  | _ => None
  end.

Lemma cache_store_ok c i t s :
  cache_coherent c -> 0 <= i < nargs c -> default [] (pars env) !! Z.to_nat i = Some s ->
  cache_coherent (mkBCCache (<[Z.to_nat i := par_elem t s]> (c_args c)) (<[Z.to_nat i := t]> (c_types c))).
Proof.
  intros [Hl Hc] Hi Hs. unfold nargs in Hi. split; simpl.
  - by rewrite !zlen_insert.
  - intros j t' Ht Hne. rewrite zget_insert in Ht by done. rewrite zget_insert by lia.
    case_decide; [simplify_eq; by eauto|]. by apply Hc.
Qed.

Lemma cache_grow_ok c m :
  cache_coherent c ->
  cache_coherent (mkBCCache (c_args c ++ replicate m (EBits 16 0)) (c_types c ++ replicate m T_STRING)).
Proof.
  intros [Hl Hc]. split; simpl; [rewrite !zlen_app, !zlen_replicate; lia|].
  intros j t Ht Hne. destruct (decide (j < zlen (c_types c))) as [Hj|Hj].
  - rewrite zget_app_l in Ht by lia. rewrite zget_app_l by lia. by apply Hc.
  - rewrite zget_app_r in Ht by lia. unfold zget in Ht. destruct (_ <? 0); [done|].
    apply lookup_replicate in Ht as [-> _]. done.
Qed.

Lemma cache_add_ok c i t s :
  cache_ok c -> 0 <= i -> default [] (pars env) !! Z.to_nat i = Some s ->
  cache_ok (bc_cache_add xmalloc_ok c i t (par_elem t s)).
Proof.
  intros Hc Hi Hs. destruct c as [c|]; [|done]. cbn [cache_ok bc_cache_add] in *.
  destruct (nargs c <=? i) eqn:E; zbool.
  - case_if E1.
    + apply (cache_store_ok (mkBCCache _ _)); [by apply cache_grow_ok| |done].
      unfold nargs in *. cbn [c_types]. rewrite zlen_app, zlen_replicate. lia.
    + case_if E2; [done|]. split; [done|]. intros j t' Ht. unfold zget in Ht. by destruct (j <? 0).
  - by apply cache_store_ok.
Qed.

(** [v] shows what a predicate at kind [kk] sees of an operand of value
    [val]: its coercion. *)
Definition shown (p : Z) (cells : list Element) (kk : TypeKind) (val : val) (v : Vm) : Prop :=
  exists e, vm_at p (cells ++ [e]) v /\ cell_val kk e = coerce kk val /\ is_Some (coerce kk val).

Lemma strtod_wrap s : ⟦strtod s⟧64 = strtod s.
Proof. unfold strtod. destruct (strtod_opt _ _ _); [apply wrap_wrap|done]. Qed.

Lemma strtold_wrap s : wrap 80 (strtold s) = strtold s.
Proof. unfold strtold. destruct (strtod_opt _ _ _); [apply wrap_wrap|done]. Qed.

Lemma par_elem_val k t s :
  lp_type k = Some t ->
  cell_val k (par_elem t s) = coerce k (par_val k s) /\ is_Some (coerce k (par_val k s)).
Proof.
  destruct k; intros Ht; try discriminate Ht; injection Ht as <-;
    (split; [|eexists; reflexivity]); cbn [par_val par_elem cell_val];
    autorewrite with mach_rw; ocbn; rewrite ?strtod_wrap, ?strtold_wrap; done.
Qed.

Lemma lp_spec k o :
  lpar_type k = Some o -> o <> O_NOP -> is_Some (type_size_opt k) ->
  exists t, lp_type k = Some t /\ forall v, step_op o v =
    if decide (t = T_STRING) then
      let! bs := fetch env v 1 in
      let v := set_pc (pc v + 1) v in
      match default [] (pars env) !! Z.to_nat (be_val bs) with
      | None => Done BC_ERR_INVPAR None v
      | Some sp => let! v := push (EStr sp) v in Next v
      end
    else load_par xmalloc_ok env t (par_elem t) v.
Proof.
  intros Hl Hn Hs. destruct k; try discriminate Hl; try (by destruct Hs); injection Hl as <-; try done;
    (eexists; split; [reflexivity|]); intros v; done.
Qed.

Lemma cache_hit c i t s e :
  cache_coherent c -> t <> T_STRING -> default [] (pars env) !! Z.to_nat i = Some s ->
  (if (i <? nargs c) && bool_decide (zget (c_types c) i = Some t)
   then zget (c_args c) i else None) = Some e -> e = par_elem t s.
Proof.
  intros [_ Hc] Ht Hs Hh. case_if E in Hh; [|done]. zbool. case_bool_decide as Et; [|done].
  destruct (Hc i t Et Ht) as (s' & Hs' & He). congruence.
Qed.

Lemma exec_par k o i p cells v :
  lpar_type k = Some o -> o <> O_NOP -> is_Some (type_size_opt k) -> 0 <= i < 256 ->
  vm_at p cells v -> zlen cells < MAX_STACK -> code_at prog p [op_byte o; ⟦i⟧8] ->
  sim v (eval_operand env k (OpPar i)) (shown (p + 2) cells k).
Proof.
  intros Hl Hn Hs Hi Hv Hc Hcode. destruct (lp_spec k o Hl Hn Hs) as (t & Ht & Hlp).
  apply code_at_cons in Hcode as [Hop Hbs]. rewrite wrap_small in Hbs by done.
  pose proof (step_at _ _ _ _ _ _ _ Hv Hc Hop) as Hstep. pose proof (zget_Some _ _ _ Hop) as Hp0.
  rewrite Hlp in Hstep. clear Hlp. unfold load_par in Hstep.
  assert (Hfe : fetch env (set_pc (p + 1) v) 1 = Some [i]) by (by apply code_at_slice).
  rewrite Hfe in Hstep. cbn [obind pc set_pc] in Hstep. rewrite be_val_1 in Hstep.
  cbn [eval_operand]. destruct (default [] (pars env) !! Z.to_nat i) as [s|] eqn:Hp.
  2:{ do 2 eexists. split; [constructor|]. rewrite Hstep. by case_decide. }
  destruct (par_elem_val k t s Ht) as [Hcv Hco].
  assert (Hv1 : vm_at (p + 2) cells (set_pc (p + 1 + 1) (set_pc (p + 1) v))).
  { destruct Hv; constructor; try done; simpl; lia. }
  destruct (push_at _ _ _ _ _ _ (par_elem t s) Hv1 Hc) as (v2 & Hpush & Hv2 & Hn2 & Hc2).
  unfold set_pc in Hpush, Hstep. cbn [pc n_ tos stack r_ cnest cdp ctp offset cache] in *.
  assert (Hend : forall c, cache_ok c -> vm_at (p + 2) (cells ++ [par_elem t s]) (set_n (n_ v2 + 1) (set_cache c v2))).
  { intros c Hcok. destruct Hv2; constructor; try done. pose proof (vi_n _ _ _ _ _ _ Hv). simpl in *. lia. }
  assert (Hself : vm_at (p + 2) (cells ++ [par_elem t s]) (set_n (n_ v2 + 1) v2)).
  { replace v2 with (set_cache (cache v2) v2) at 2 by (by destruct v2). apply Hend, (vi_cache _ _ _ _ _ _ Hv2). }
  case_decide as Est.
  { subst t. change (EStr s) with (par_elem T_STRING s) in Hstep.
    rewrite Hpush in Hstep. cbn [obind] in Hstep. eexists.
    split; [eapply steps_step; [exact Hstep|constructor]|]. exists (par_elem T_STRING s). done. }
  match type of Hstep with context [match ?hit with Some _ => _ | None => _ end] =>
    destruct hit as [e|] eqn:Hhit end.
  - assert (e = par_elem t s) as ->.
    { destruct (cache v) as [c|] eqn:Hcv'; [|done]. eapply cache_hit; [|done|done|exact Hhit].
      pose proof (vi_cache _ _ _ _ _ _ Hv) as Hcok. by rewrite Hcv' in Hcok. }
    rewrite Hpush in Hstep. cbn [obind] in Hstep.
    eexists. split; [eapply steps_step; [exact Hstep|constructor]|]. by exists (par_elem t s).
  - rewrite Hpush in Hstep. cbn [obind] in Hstep.
    eexists. split; [eapply steps_step; [exact Hstep|constructor]|]. exists (par_elem t s).
    split; [|done]. apply Hend, cache_add_ok; [|lia|done]. apply (vi_cache _ _ _ _ _ _ Hv2).
Qed.

(** ** Stack cells *)

Lemma cell_at p cells nest tp ofs v i :
  vm_in p cells nest tp ofs v -> i < zlen cells -> cell v i = zget cells i.
Proof.
  intros Hv Hi. unfold cell. pose proof (vi_cells _ _ _ _ _ _ Hv) as E.
  rewrite <- (zget_ztake _ _ _ Hi). by rewrite E.
Qed.

Lemma zget_snoc {A} (l : list A) x : zget (l ++ [x]) (zlen l) = Some x.
Proof. rewrite zget_app_r by lia. by rewrite Z.sub_diag. Qed.

(** Drop cells. *)
Lemma vm_in_drop p cells l nest tp ofs v :
  vm_in p (cells ++ l) nest tp ofs v ->
  vm_in p cells nest tp ofs (set_stack (zlen cells) (stack v) v).
Proof. intros []. constructor; try done. simpl. by eapply ztake_ztake_app. Qed.

(** Replace the top cell. *)
Lemma vm_in_replace p cells l nest tp ofs v e' s :
  vm_in p (cells ++ l) nest tp ofs v -> zset (stack v) (zlen cells) e' = Some s ->
  vm_in p (cells ++ [e']) nest tp ofs (set_stack (zlen cells + 1) s v).
Proof.
  intros [] Hs. pose proof (zlen_zset _ _ _ _ Hs). apply zset_inv in Hs as [Hi ->].
  constructor; try done; simpl.
  - by rewrite zlen_app.
  - rewrite zlen_app. change (zlen [e']) with 1. rewrite ztake_insert by done. f_equal.
    by eapply ztake_ztake_app.
  - congruence.
Qed.

Lemma set_n_step p cells v m :
  vm_in p cells 0 (ts_cdr (dts env)) 0 v -> m <= M + p -> vm_at p cells (set_n m v).
Proof. intros [] ?. by constructor. Qed.

Lemma exec_conv o e e' p cells v :
  vm_at p (cells ++ [e]) v -> zlen cells + 1 < MAX_STACK -> zget prog p = Some (op_byte o) ->
  conv_cell o e = Some e' -> exists v', step v = Next v' /\ vm_at (p + 1) (cells ++ [e']) v'.
Proof.
  intros Hv Hc Hop Hconv. pose proof (zlen_nonneg cells).
  rewrite (step_at _ _ _ _ _ _ o Hv) by (done || zlen_lia).
  assert (step_op o (set_pc (p + 1) v) = step_conv o (set_pc (p + 1) v)) as -> by (by destruct o).
  pose proof (vm_in_pc _ (p + 1) _ _ _ _ _ Hv ltac:(lia)) as Hv1.
  unfold step_conv. rewrite (vi_tos _ _ _ _ _ _ Hv1), zlen_app. change (zlen [e]) with 1.
  replace (zlen cells + 1 - 1) with (zlen cells) by lia.
  rewrite (cell_at _ _ _ _ _ _ _ Hv1), zget_snoc by zlen_lia. cbn [obind]. rewrite Hconv. cbn [obind].
  pose proof (vi_stack _ _ _ _ _ _ Hv1) as Hst.
  rewrite zset_Some by lia. cbn [obind]. eexists. split; [reflexivity|].
  apply set_n_step.
  - eapply vm_in_replace; [exact Hv1|]. by rewrite zset_Some by lia.
  - pose proof (vi_n _ _ _ _ _ _ Hv). simpl. lia.
Qed.

(** ** Operands *)

(** The indices of an operand fit in their encoding. *)
Definition op_in (o : operand) : Prop :=
  match o with
  | OpField path f _ => Forall (fun f => 0 <= f < M) path /\ 0 <= f < M
  | OpPar i => 0 <= i < 256
  | _ => True
  end.

Lemma int_elem_val z : in_s 64 z -> cell_val (int_kind z) (int_elem z) = Some (VInt z).
Proof.
  intros Hz. unfold int_elem. case_decide as Ek.
  - rewrite Ek. cbn [cell_val]. rewrite get_l_put. ocbn. by rewrite swrap_small by (done || lia).
  - unfold int_kind in *.
    repeat match goal with |- context [if ?b then _ else _] => destruct b eqn:? end; try done;
      cbn [cell_val]; rewrite ?get_i_put, ?get_u_put; ocbn; do 2 f_equal;
      clear Ek; zbool; mach_lia.
Qed.

Lemma schar_elem c : int_elem ⟦schar c⟧32 = put_u (schar c).
Proof.
  unfold int_elem. case_decide as Ek; [|apply put_u_eq; by rewrite wrap_wrap].
  pose proof (wrap_range 32 (schar c) ltac:(lia)) as Hr. unfold int_kind in Ek.
  repeat match type of Ek with context [if ?b then _ else _] => destruct b eqn:? end; try done.
  simpl in Hr. zbool_lia.
Qed.

Lemma exec_raw o k p cells v :
  operand_ok o -> op_in o -> is_par (okind o) = false -> is_Some (type_size_opt (okind o)) ->
  vm_at p cells v -> zlen cells < MAX_STACK -> code_at prog p (op_bytes k o) ->
  sim v (eval_operand env k o) (pushed (p + zlen (op_bytes k o)) cells (okind o)).
Proof.
  intros Ho Hi Hp Hs Hv Hc Hcode.
  destruct o as [path f fk|z|c|d|str|i]; cbn [eval_operand okind operand_ok op_in] in *; try done.
  - rewrite (op_bytes_nonpar k fk) in * by done. destruct Hi. by apply exec_field.
  - destruct (exec_int z p cells v Hv Hc Hcode) as (v' & Hst & Hv').
    exists v'. split; [eapply steps_step; [done|constructor]|]. exists (int_elem z).
    split; [done|]. by apply int_elem_val.
  - destruct (exec_int _ p cells v Hv Hc Hcode) as (v' & Hst & Hv'). rewrite schar_elem in Hv'.
    exists v'. split; [eapply steps_step; [done|constructor]|]. exists (put_u (schar c)).
    split; [done|]. cbn [cell_val]. rewrite get_i_put. ocbn.
    unfold schar. by rewrite (swrap_widen 8 32) by lia.
  - destruct (exec_float d p cells v Hv Hc Hcode) as (v' & Hst & Hv').
    exists v'. split; [eapply steps_step; [done|constructor]|]. exists (put_d ⟦d⟧64).
    split; [done|]. cbn [cell_val]. rewrite get_d_put. ocbn. by rewrite wrap_wrap.
  - destruct (exec_string str p cells v Ho Hv Hc Hcode) as (v' & Hst & Hv').
    exists v'. split; [eapply steps_step; [done|constructor]|]. by exists (EStr str).
Qed.

(** How an operand of kind [ko] gets to kind [k]. *)
Definition fits (ko k : TypeKind) : Prop :=
  is_Some (type_size_opt ko) /\ is_Some (type_size_opt k) /\ is_par k = false /\
  if is_par ko then par_ok k = true
  else (k = DDS_STRING_TYPE /\ ko = DDS_CHAR_8_TYPE)
       \/ (size_of ko < size_of k /\ convertible ko k = true) \/ size_of ko = size_of k.

Lemma fits_cases ko k :
  fits ko k -> is_par ko = false ->
  match conv_op ko k with
  | Some o => forall e val, cell_val ko e = Some val -> exists e', conv_cell o e = Some e' /\
      cell_val k e' = coerce k val /\ is_Some (coerce k val)
  | None => forall e val, cell_val ko e = Some val ->
      cell_val k e = coerce k val /\ is_Some (coerce k val)
  end.
Proof.
  intros (Hs & Hs' & Hp' & Hk) Hp. rewrite Hp in Hk.
  destruct Hk as [[-> ->]|[[Hlt Hcv]|Heq]].
  - intros e val. apply c2s_ok.
  - unfold conv_op. rewrite Hp.
    assert (is_string k && is_char ko = false) as ->.
    { destruct (is_string k) eqn:Sk; [|done]. apply is_string_true in Sk as ->. exfalso.
      unfold size_of in Hlt. simpl in Hlt. destruct Hs as [n Hn]. rewrite Hn in Hlt. simpl in Hlt.
      by destruct ko; simplify_eq. }
    apply Z.ltb_lt in Hlt as Hlt'. rewrite Hlt'. intros e val. by apply widen_ok.
  - unfold conv_op. rewrite Hp, Heq, Z.ltb_irrefl.
    assert (is_string k && is_char ko = false) as ->.
    { destruct (is_string k) eqn:Sk; [|done]. apply is_string_true in Sk as ->.
      destruct Hs as [n Hn]. by destruct ko. }
    intros e val. by apply same_ok.
Qed.

Lemma exec_operand o k p cells v :
  operand_ok o -> op_in o -> fits (okind o) k ->
  vm_at p cells v -> zlen cells + 1 < MAX_STACK ->
  code_at prog p (op_bytes k o ++ ob (conv_op (okind o) k)) ->
  sim v (eval_operand env k o)
    (shown (p + zlen (op_bytes k o ++ ob (conv_op (okind o) k))) cells k).
Proof.
  intros Ho Hi Hf Hv Hc Hcode. destruct (is_par (okind o)) eqn:Hp.
  - destruct (par_operand o Ho Hp) as [i ->]. rewrite conv_op_par in * by done.
    cbn [ob] in *. rewrite app_nil_r in *. destruct Hf as (_ & Hs & _ & Hpk). rewrite Hp in Hpk.
    unfold par_ok in Hpk. cbn [op_bytes] in *. destruct (lpar_type k) as [op|] eqn:Hl; [|done].
    case_bool_decide; [done|]. cbn [from_option] in *. eapply exec_par; try done. lia.
  - pose proof (fits_cases _ _ Hf Hp) as Hfit. apply code_at_app in Hcode as [Hc1 Hc2].
    destruct Hf as (Hs & _).
    pose proof (exec_raw o k p cells v Ho Hi Hp Hs Hv ltac:(lia) Hc1) as Hraw.
    rewrite zlen_app, Z.add_assoc. set (q := p + zlen (op_bytes k o)) in *.
    destruct (eval_operand env k o) as [val| |]; [|done|done].
    destruct Hraw as (v1 & Hst & e & Hv1 & Hval).
    destruct (conv_op (okind o) k) as [op|]; cbn [ob] in *.
    + destruct (Hfit e val Hval) as (e' & Hcc & Hcv & Hco).
      apply code_at_cons in Hc2 as [Hop _].
      destruct (exec_conv op e e' q cells v1) as (v2 & Hst2 & Hv2); try done.
      exists v2. split; [eapply steps_trans; [done|]; eapply steps_step; [done|constructor]|].
      exists e'. done.
    + destruct (Hfit e val Hval) as (Hcv & Hco). change (zlen (@nil Z)) with 0. rewrite Z.add_0_r.
      exists v1. split; [done|]. exists e. done.
Qed.

(** ** Comparisons *)

(** A comparison that passes the checks and has a meaning gets both operands
    to its kind. *)
Lemma comp_fits cmp k1 k2 :
  comp_typed cmp k1 k2 -> (cmp = TK_LIKE \/ comp_wt k1 k2 = true) ->
  fits k1 (comp_kind k1 k2) /\ fits k2 (comp_kind k1 k2).
Proof.
  intros [[n1 Hs1] [n2 Hs2] Hchk Hop] Hwt. destruct Hwt as [->|Hwt].
  { rewrite decide_True in Hop by done. destruct Hop as [-> ->].
    split; (split; [by eauto|split; [by eauto|split; [done|]]]); by right; right. }
  clear Hop. destruct k1, k2; try discriminate Hs1; try discriminate Hs2;
    try discriminate Hchk; try discriminate Hwt;
    split; (split; [eexists; reflexivity|split; [eexists; reflexivity|split; [reflexivity|]]]);
    first [ reflexivity | left; split; reflexivity | right; left; split; reflexivity
          | right; right; reflexivity ].
Qed.

(** What a comparison instruction computes. *)
Lemma cmp_cells_val k o e1 e2 v1 v2 :
  compare_op k = Some o -> is_Some (type_size_opt k) ->
  cell_val k e1 = Some v1 -> cell_val k e2 = Some v2 -> cmp_cells o e1 e2 = val_cmp v1 v2.
Proof.
  intros Ho [n Hs] H1 H2.
  destruct k; try discriminate Ho; try discriminate Hs; injection Ho as <-;
    cbn [cell_val cmp_cells] in *;
    repeat match goal with
    | H : _ <$> ?g = Some _ |- _ => destruct g eqn:?; [|discriminate H]; injection H as <-
    end; done.
Qed.

Lemma val_cmp_coerced k va vb v1 v2 :
  coerce k va = Some v1 -> coerce k vb = Some v2 -> is_Some (val_cmp v1 v2).
Proof.
  intros H1 H2. destruct k; try discriminate H1; cbn [coerce] in *;
    destruct va; try discriminate H1; destruct vb; try discriminate H2;
    injection H1 as <-; injection H2 as <-; eexists; reflexivity.
Qed.

(** ** Pending conditions

    After a predicate of value [b] the branch on the condition [c] would be
    taken if and only if [b] is false. *)

Definition cond_r (c : Cond) (r : Z) : option bool :=
  match c with
  | C_EQ => Some (r =? 0)
  | C_NE => Some (negb (r =? 0))
  | C_GT => Some (0 <? r)
  | C_LE => Some (r <=? 0)
  | C_LT => Some (r <? 0)
  | C_GE => Some (0 <=? r)
  | C_T | C_F => None
  end.

Definition cond_e (c : Cond) (e : Element) : option bool :=
  d ← get_d e; match c with C_T => Some (d_true d) | C_F => Some (negb (d_true d)) | _ => None end.

Definition tested (p : Z) (c : Cond) (b : bool) (v : Vm) : Prop :=
  (vm_at p [] v /\ cond_r c (r_ v) = Some (negb b)) \/
  (exists e, vm_at p [e] v /\ cond_e c e = Some (negb b)).

Lemma tested_complement p c b v : tested p c b v -> tested p (complement c) (negb b) v.
Proof.
  intros [[Hv Hr]|(e & Hv & He)]; [left|right].
  - split; [done|]. change (Some (negb (negb b))) with (negb <$> Some (negb b)).
    rewrite <- Hr.
    destruct c; try done; simpl; f_equal; rewrite ?negb_involutive;
      auto using Z.leb_antisym, Z.ltb_antisym.
  - exists e. split; [done|]. unfold cond_e in *. destruct (get_d e); simpl in *; [|done].
    destruct c; simpl in *; simplify_eq; f_equal; rewrite <- ?He; by rewrite ?negb_involutive.
Qed.

(** A branch on a pending condition leaves with an empty stack, at its target
    when the predicate is false, behind it when it is true. *)
Lemma exec_branch p c b v hi lo :
  tested p c b v -> code_at prog p [op_byte (cond_op c); hi; lo] -> p + 3 <= be_val [hi; lo] ->
  exists v', steps v v' /\ vm_at (if b then p + 3 else be_val [hi; lo]) [] v'.
Proof.
  intros Ht Hcode HT. apply code_at_cons in Hcode as [Hop Hbs].
  assert (Hbr : forall v1, vm_at (p + 1) [] v1 -> n_ v1 <= M + p -> exists v',
    match branch env (negb b) v1 with Next v => Next (set_n (n_ v + 1) v) | out => out end = Next v'
    /\ vm_at (if b then p + 3 else be_val [hi; lo]) [] v').
  { intros v1 Hv1 Hn1. unfold branch, fetch. rewrite (vi_pc _ _ _ _ _ _ Hv1).
    rewrite (code_at_slice _ _ _ 2 Hbs) by done. destruct b; cbn [negb obind].
    - eexists. split; [reflexivity|]. replace (p + 1 + 2) with (p + 3) by lia.
      eapply vm_in_next; [done|]. simpl. lia.
    - eexists. split; [reflexivity|]. eapply vm_in_next; [done|]. simpl. lia. }
  destruct Ht as [[Hv Hr]|(e & Hv & He)].
  - pose proof (step_at _ _ _ _ _ _ _ Hv ltac:(done) Hop) as Hstep.
    pose proof (vm_in_pc _ (p + 1) _ _ _ _ _ Hv ltac:(lia)) as Hv1.
    destruct (Hbr _ Hv1 (vi_n _ _ _ _ _ _ Hv)) as (v' & Hb & Hv').
    exists v'. split; [|done]. eapply steps_step; [|constructor]. rewrite Hstep, <- Hb.
    assert (step_op (cond_op c) (set_pc (p + 1) v) = branch env (negb b) (set_pc (p + 1) v)) as ->.
    { by destruct c; simplify_eq/=; rewrite <- ?Hr. }
    done.
  - pose proof (step_at _ _ _ _ _ _ _ Hv ltac:(done) Hop) as Hstep.
    pose proof (vm_in_pc _ (p + 1) _ _ _ _ _ Hv ltac:(lia)) as Hv1.
    pose proof (vm_in_drop _ [] [e] _ _ _ _ Hv1) as Hv2.
    destruct (Hbr _ Hv2 (vi_n _ _ _ _ _ _ Hv)) as (v' & Hb & Hv').
    exists v'. split; [|done]. eapply steps_step; [|constructor]. rewrite Hstep, <- Hb.
    assert (Hpop : forall k, pop_d (set_pc (p + 1) v) k
      = let! d := get_d e in k (d_true d) (set_stack 0 (stack v) (set_pc (p + 1) v))).
    { intros k. unfold pop_d. change (tos (set_pc (p + 1) v)) with (tos v).
      rewrite (vi_tos _ _ _ _ _ _ Hv). change (zlen [e] - 1) with 0.
      change (cell (set_stack 0 (stack (set_pc (p + 1) v)) (set_pc (p + 1) v)) _) with (cell v 0).
      by rewrite (cell_at _ _ _ _ _ _ _ Hv). }
    unfold cond_e in He. destruct (get_d e) as [d|] eqn:Hd; [|done]. simpl in He.
    destruct c; simplify_eq; cbn [cond_op Bytecode.step_op step_br]; rewrite Hpop; cbn [obind];
      rewrite ?He; done.
Qed.

(** The comparison of two shown values. *)
Lemma exec_cmp k o e1 e2 v1 v2 r p v :
  compare_op k = Some o -> is_Some (type_size_opt k) ->
  cell_val k e1 = Some v1 -> cell_val k e2 = Some v2 -> val_cmp v1 v2 = Some r ->
  vm_at p [e1; e2] v -> zget prog p = Some (op_byte o) ->
  exists v', step v = Next v' /\ vm_at (p + 1) [] v' /\ r_ v' = r.
Proof.
  intros Ho Hs H1 H2 Hr Hv Hop. pose proof (cmp_cells_val k o e1 e2 v1 v2 Ho Hs H1 H2) as Hc.
  rewrite (step_at _ _ _ _ _ _ o Hv) by done.
  assert (step_op o (set_pc (p + 1) v) = step_cmp o (set_pc (p + 1) v)) as ->
    by (destruct k; try discriminate Ho; injection Ho as <-; done).
  pose proof (vm_in_pc _ (p + 1) _ _ _ _ _ Hv ltac:(lia)) as Hv1.
  unfold step_cmp. rewrite (vi_tos _ _ _ _ _ _ Hv1). change (zlen [e1; e2] - 2) with 0.
  rewrite !(cell_at _ _ _ _ _ _ _ Hv1) by done.
  change (zget [e1; e2] 0) with (Some e1). change (zget [e1; e2] (0 + 1)) with (Some e2). cbn [obind].
  rewrite Hc, Hr. cbn [obind]. eexists. split; [reflexivity|]. split; [|done].
  pose proof (vm_in_drop _ [] [e1; e2] _ _ _ _ Hv1) as Hd. pose proof (vi_n _ _ _ _ _ _ Hv).
  destruct Hd; constructor; try done. simpl. lia.
Qed.

(** The result of LIKE and BETWEEN is a truth value on the stack. *)
Lemma d_true_bool b : d_true (if b : bool then d_one else d_zero) = b.
Proof. by destruct b. Qed.

Lemma put_bool_cond b : cond_e C_F (put_bool b) = Some (negb b) /\ cond_e C_T (put_bool b) = Some b.
Proof. by destruct b. Qed.

Lemma exec_like name pat p v :
  vm_at p [EStr name; EStr pat] v -> zget prog p = Some (op_byte O_LIKE) ->
  exists v', step v = Next v' /\
    vm_at (p + 1) [put_bool (nmatch strdup_ok (Some pat) (Some name) NM_SQL =? 0)] v'.
Proof.
  intros Hv Hop. rewrite (step_at _ _ _ _ _ _ O_LIKE Hv) by done. cbn [Bytecode.step_op].
  pose proof (vm_in_pc _ (p + 1) _ _ _ _ _ Hv ltac:(lia)) as Hv1.
  unfold step_like. rewrite (vi_tos _ _ _ _ _ _ Hv1). change (zlen [EStr name; EStr pat] - 2) with 0.
  rewrite !(cell_at _ _ _ _ _ _ _ Hv1) by done.
  change (zget [EStr name; EStr pat] 0) with (Some (EStr name)).
  change (zget [EStr name; EStr pat] (0 + 1)) with (Some (EStr pat)).
  cbn [obind get_sp]. pose proof (vi_stack _ _ _ _ _ _ Hv1) as Hst.
  rewrite zset_Some by (rewrite Hst; done). cbn [obind]. eexists. split; [reflexivity|].
  apply set_n_step.
  - apply (vm_in_replace _ [] [EStr name; EStr pat] _ _ _ _ _ _ Hv1). by rewrite zset_Some by (rewrite Hst; done).
  - pose proof (vi_n _ _ _ _ _ _ Hv). simpl. lia.
Qed.

Lemma rel_cond cmp c r : cmp_cond cmp = Some c -> cmp <> TK_LIKE ->
  cond_r c r = Some (negb (rel_holds cmp r)).
Proof.
  intros Hc Hl. destruct cmp; try discriminate Hc; try done; injection Hc as <-; simpl; f_equal;
    rewrite ?negb_involutive; auto using Z.leb_antisym, Z.ltb_antisym.
Qed.

Lemma exec_comp_like a b p v :
  operand_ok a -> operand_ok b -> op_in a -> op_in b ->
  okind a = DDS_STRING_TYPE -> okind b = DDS_STRING_TYPE ->
  vm_at p [] v -> code_at prog p (comp_bytes TK_LIKE a b) ->
  sim v (eval_comp strdup_ok env TK_LIKE a b) (tested (p + zlen (comp_bytes TK_LIKE a b)) C_F).
Proof.
  intros Ha Hb Ia Ib Ka Kb Hv. unfold eval_comp, comp_bytes. rewrite Ka, Kb.
  change (comp_kind DDS_STRING_TYPE DDS_STRING_TYPE) with DDS_STRING_TYPE. cbv zeta.
  rewrite conv_op_refl. cbn [ob app]. rewrite decide_True by done. intros Hcode.
  rewrite !zlen_app, !Z.add_assoc.
  apply code_at_app in Hcode as [Hc1 Hcode]. apply code_at_app in Hcode as [Hc2 Hc3].
  assert (Hstr : forall e val, cell_val DDS_STRING_TYPE e = Some val -> exists str, e = EStr str /\ val = VStr str).
  { intros [] val Hs; simpl in Hs; simplify_eq. eauto. }
  eapply sim_bind; [apply (exec_raw a DDS_STRING_TYPE p []); rewrite ?Ka; by eauto|].
  intros va v1 (e1 & Hv1 & Hev1). rewrite Ka in Hev1. destruct (Hstr _ _ Hev1) as (s1 & -> & ->).
  eapply sim_bind; [eapply (exec_raw b DDS_STRING_TYPE _ [EStr s1]); rewrite ?Kb; by eauto|].
  intros vb v2 (e2 & Hv2 & Hev2). rewrite Kb in Hev2. destruct (Hstr _ _ Hev2) as (s2 & -> & ->).
  apply code_at_cons in Hc3 as [Hop _]. destruct (exec_like _ _ _ _ Hv2 Hop) as (v3 & Hst & Hv3).
  eapply sim_next; [done|]. right. eexists. split; [exact Hv3|].
  apply put_bool_cond.
Qed.

Lemma exec_comp cmp a b c p v :
  operand_ok a -> operand_ok b -> op_in a -> op_in b ->
  comp_typed cmp (okind a) (okind b) -> (cmp = TK_LIKE \/ comp_wt (okind a) (okind b) = true) ->
  cmp_cond cmp = Some c -> vm_at p [] v -> code_at prog p (comp_bytes cmp a b) ->
  sim v (eval_comp strdup_ok env cmp a b) (tested (p + zlen (comp_bytes cmp a b)) c).
Proof.
  intros Ha Hb Ia Ib Hty Hwt Hcc Hv Hcode. destruct (comp_fits _ _ _ Hty Hwt) as [Fa Fb].
  pose proof (ct_op _ _ _ Hty) as Hop. case_decide as El.
  { subst cmp. injection Hcc as <-. destruct Hop. by apply exec_comp_like. }
  unfold eval_comp. unfold comp_bytes in *. cbv zeta in *. rewrite !decide_False in * by done.
  set (k := comp_kind (okind a) (okind b)) in *. destruct Hop as [o Hop]. rewrite Hop in *.
  rewrite (app_assoc (op_bytes k a)), (app_assoc (op_bytes k b)) in *.
  rewrite !(zlen_app (_ ++ _)), !Z.add_assoc.
  apply code_at_app in Hcode as [Hc1 Hcode]. apply code_at_app in Hcode as [Hc2 Hc3].
  eapply sim_bind; [by apply exec_operand|]. intros va v1 (e1 & Hv1 & Hev1 & [va' Hva]).
  eapply sim_bind; [by eapply (exec_operand b k _ [e1] v1)|].
  intros vb v2 (e2 & Hv2 & Hev2 & [vb' Hvb]). rewrite decide_False by done.
  rewrite Hva, Hvb in *. ocbn.
  destruct (val_cmp_coerced k va vb va' vb' Hva Hvb) as [r Hr]. rewrite Hr. cbn [of_opt rbind].
  apply code_at_cons in Hc3 as [Hp _].
  destruct (exec_cmp k o e1 e2 va' vb' r _ v2 Hop ltac:(apply Fa) Hev1 Hev2 Hr Hv2 Hp) as (v3 & Hst & Hv3 & Hr3).
  eapply sim_next; [done|]. left. split; [done|].
  rewrite Hr3. by apply rel_cond.
Qed.

(** ** BETWEEN *)

(** The conversions of [between_predicate] are those of [conv_op] for every
    BETWEEN that has a meaning. *)
Lemma between_low_fits k k1 :
  is_Some (type_size_opt k) -> is_Some (type_size_opt k1) -> chk k k1 = true ->
  is_Some (between_op (between_kind k k1)) -> is_par k = false ->
  (if is_par k1 then true
   else if size_of k1 <? size_of k then convertible k1 k
   else if size_of k <? size_of k1 then convertible k k1 else true) = true ->
  fits k (between_kind k k1) /\ fits k1 (between_kind k k1) /\ size_of k <= size_of (between_kind k k1) /\
  (if negb (is_par k1) && (size_of k <? size_of k1) then Some (convertn k k1) else None)
    = conv_op k (between_kind k k1) /\
  (if negb (is_par k1) && (size_of k1 <? size_of k) then Some (convertn k1 k) else None)
    = conv_op k1 (between_kind k k1).
Proof.
  intros [n Hn] [n1 Hn1] Hchk [o Ho] Hp Hwt.
  destruct k, k1; try discriminate Hn; try discriminate Hn1; try discriminate Hchk;
    try discriminate Ho; try discriminate Hp; try discriminate Hwt; clear Hchk Ho Hp Hwt;
    (split; [|split; [|split; [discriminate|split; reflexivity]]]);
    (split; [eexists; reflexivity|split; [eexists; reflexivity|split; [reflexivity|]]]);
    first [ reflexivity | left; split; reflexivity | right; left; split; reflexivity
          | right; right; reflexivity ].
Qed.

Lemma between_high_fits sk t k2 :
  is_Some (type_size_opt t) -> is_Some (type_size_opt k2) -> chk t k2 = true ->
  is_Some (between_op t) -> sk <= size_of t ->
  (if is_par k2 then true else if size_of k2 <? sk then convertible k2 t else size_of k2 =? size_of t) = true ->
  fits k2 t /\
  (if negb (is_par k2) && (size_of k2 <? sk) then Some (convertn k2 t) else None) = conv_op k2 t.
Proof.
  intros Ht [n2 Hn2] Hchk [o Ho] Hsk Hwt.
  assert (Hpt : is_par t = false) by (by destruct t).
  assert (Hst : is_string t = false) by (by destruct t).
  unfold conv_op. rewrite Hst. cbn [andb].
  destruct (is_par k2) eqn:Hp2; cbn [negb andb].
  - split; [|done]. split; [by eauto|]. split; [done|]. split; [done|]. rewrite Hp2.
    by destruct t.
  - destruct (size_of k2 <? sk) eqn:E.
    + zbool. assert (Hlt : size_of k2 < size_of t) by lia.
      split; [|by apply Z.ltb_lt in Hlt; rewrite Hlt].
      split; [by eauto|]. split; [done|]. split; [done|]. rewrite Hp2. right; left. done.
    + zbool. rewrite Hwt, Z.ltb_irrefl. split; [|done].
      split; [by eauto|]. split; [done|]. split; [done|]. rewrite Hp2. right; right. done.
Qed.

Lemma between_fits a lo hi :
  operand_ok a -> operand_ok lo ->
  between_typed (okind a) (okind lo) (okind hi) -> between_wt (okind a) (okind lo) (okind hi) = true ->
  let t := between_kind (okind a) (okind lo) in
  fits (okind a) t /\ fits (okind lo) t /\ fits (okind hi) t /\
  between_bytes a lo hi =
    (op_bytes t a ++ ob (conv_op (okind a) t)) ++ (op_bytes t lo ++ ob (conv_op (okind lo) t))
    ++ (op_bytes t hi ++ ob (conv_op (okind hi) t)) ++ ob (between_op t).
Proof.
  intros Ha Hlo [Hs Hs1 Hs2 Hc1 Hc2 Hop] Hwt t. unfold between_wt in Hwt.
  apply andb_true_iff in Hwt as [Hwt Hw3]. apply andb_true_iff in Hwt as [Hw1 Hw2].
  apply negb_true_iff in Hw1.
  destruct (between_low_fits _ _ Hs Hs1 Hc1 Hop Hw1 Hw2) as (F1 & F2 & Hle & E1 & E2). fold t in F1, F2, Hle, E1, E2, Hw3, Hc2, Hop.
  destruct (between_high_fits (size_of (okind a)) t (okind hi)) as (F3 & E3); [apply F1|done..|].
  do 3 (split; [done|]). unfold between_bytes. fold t. rewrite E1, E2, E3.
  rewrite (op_bytes_nonpar DDS_STRING_TYPE t a) by done.
  assert (op_bytes (okind a) lo = op_bytes t lo) as ->.
  { destruct (is_par (okind lo)) eqn:Hp; [|by apply op_bytes_nonpar].
    unfold t, between_kind. by rewrite Hp. }
  by rewrite <- !app_assoc.
Qed.

Lemma btw_cells_val t o ea el eh va vl vh :
  between_op t = Some o -> is_Some (type_size_opt t) ->
  cell_val t ea = Some va -> cell_val t el = Some vl -> cell_val t eh = Some vh ->
  exists b1 b2, val_le vl va = Some b1 /\ val_le va vh = Some b2 /\
    btw_cells o ea el eh = Some (b1 && b2).
Proof.
  intros Ho [n Hs] H1 H2 H3.
  destruct t; try discriminate Ho; try discriminate Hs; injection Ho as <-;
    cbn [cell_val btw_cells] in *;
    repeat match goal with
    | H : _ <$> ?g = Some _ |- _ => destruct g eqn:?; [|discriminate H]; injection H as <-
    end; do 2 eexists; (split; [reflexivity|]); (split; [reflexivity|]); simpl;
    match goal with |- (if ?c then _ else _) = _ => by destruct c end.
Qed.

Lemma exec_btw t o ea el eh b p v :
  between_op t = Some o -> btw_cells o ea el eh = Some b ->
  vm_at p [ea; el; eh] v -> zget prog p = Some (op_byte o) ->
  exists v', step v = Next v' /\ vm_at (p + 1) [put_bool b] v'.
Proof.
  intros Ho Hb Hv Hop. rewrite (step_at _ _ _ _ _ _ o Hv) by done.
  assert (step_op o (set_pc (p + 1) v) = step_btw o (set_pc (p + 1) v)) as ->
    by (destruct t; try discriminate Ho; injection Ho as <-; done).
  pose proof (vm_in_pc _ (p + 1) _ _ _ _ _ Hv ltac:(lia)) as Hv1.
  unfold step_btw. rewrite (vi_tos _ _ _ _ _ _ Hv1). change (zlen [ea; el; eh] - 2) with 1.
  rewrite !(cell_at _ _ _ _ _ _ _ Hv1) by done.
  change (zget [ea; el; eh] (1 - 1)) with (Some ea). change (zget [ea; el; eh] 1) with (Some el).
  change (zget [ea; el; eh] (1 + 1)) with (Some eh). cbn [obind]. rewrite Hb. cbn [obind].
  pose proof (vi_stack _ _ _ _ _ _ Hv1) as Hst.
  rewrite zset_Some by (rewrite Hst; done). cbn [obind]. eexists. split; [reflexivity|].
  apply set_n_step.
  - apply (vm_in_replace _ [] [ea; el; eh] _ _ _ _ _ _ Hv1). by rewrite zset_Some by (rewrite Hst; done).
  - pose proof (vi_n _ _ _ _ _ _ Hv). simpl. lia.
Qed.

Lemma exec_between (neg : bool) a lo hi p v :
  operand_ok a -> operand_ok lo -> operand_ok hi -> op_in a -> op_in lo -> op_in hi ->
  between_typed (okind a) (okind lo) (okind hi) -> between_wt (okind a) (okind lo) (okind hi) = true ->
  vm_at p [] v -> code_at prog p (between_bytes a lo hi) ->
  sim v (eval_between env neg a lo hi)
    (tested (p + zlen (between_bytes a lo hi)) (if neg then C_T else C_F)).
Proof.
  intros Ha Hlo Hhi Ia Ilo Ihi Hty Hwt Hv Hcode.
  destruct (between_fits a lo hi Ha Hlo Hty Hwt) as (F1 & F2 & F3 & Hbytes).
  rewrite Hbytes in *. clear Hbytes. unfold eval_between. cbv zeta.
  destruct (bt_op _ _ _ Hty) as [o Ho]. set (t := between_kind (okind a) (okind lo)) in *.
  rewrite Ho in *. rewrite !(zlen_app (_ ++ _)), !Z.add_assoc.
  apply code_at_app in Hcode as [Hc1 Hcode]. apply code_at_app in Hcode as [Hc2 Hcode].
  apply code_at_app in Hcode as [Hc3 Hc4].
  eapply sim_bind; [by apply exec_operand|]. intros va v1 (e1 & Hv1 & Hev1 & [va' Hva]).
  eapply sim_bind; [by eapply (exec_operand lo t _ [e1] v1)|].
  intros vl v2 (e2 & Hv2 & Hev2 & [vl' Hvl]).
  eapply sim_bind; [by eapply (exec_operand hi t _ [e1; e2] v2)|].
  intros vh v3 (e3 & Hv3 & Hev3 & [vh' Hvh]).
  rewrite Hva, Hvl, Hvh in *. ocbn.
  destruct (btw_cells_val t o e1 e2 e3 va' vl' vh') as (b1 & b2 & Hb1 & Hb2 & Hb); [done|apply F1|done..|].
  rewrite Hb1, Hb2. ocbn. cbn [of_opt rbind].
  apply code_at_cons in Hc4 as [Hp _].
  destruct (exec_btw t o e1 e2 e3 (b1 && b2) _ v3 Ho Hb Hv3 Hp) as (v4 & Hst & Hv4).
  eapply sim_next; [done|]. right. eexists. split; [exact Hv4|].
  by destruct neg, b1, b2.
Qed.

End Exec.
