(* ===== verification/SqlCompile.v ===== *)
(** The correctness of the filter compiler: a text that [sql_parse_filter]
    accepts is a filter expression, and running the emitted program on a
    sample yields the value of that expression. *)

From S2P Require Import Prelude CLib TypeData NMatch Scan ScanProps Bytecode Parse SqlSem SqlCode SqlParse SqlVm.

(** ** Branch targets *)

(** The branch instruction at [p] of [B] goes to [T]. *)
Definition target (B : list Z) (p T : Z) : Prop :=
  exists hi lo, zget B (p + 1) = Some hi /\ zget B (p + 2) = Some lo /\ be_val [hi; lo] = T.

(** Instructions of a chain that are apart from each other. *)
Definition apart (l : PatchList) : Prop := forall p q, p ∈ l -> q ∈ l -> p = q \/ p + 3 <= q \/ q + 3 <= p.

Definition inside (lo hi : Z) (l : PatchList) : Prop := forall p, p ∈ l -> lo <= p /\ p + 3 <= hi.

(** The operand bytes of the instructions of a chain. *)
Definition hole (l : PatchList) (i : Z) : Prop := exists p, p ∈ l /\ (i = p + 1 \/ i = p + 2).

Lemma patch_miss l T C i :
  inside 0 (zlen C) l -> ~ hole l i -> zget (patch l T C) i = zget C i.
Proof.
  revert C; induction l as [|p l IH]; intros C Hin Hm; simpl; [done|].
  destruct (Hin p ltac:(left)) as [H1 H2].
  rewrite IH.
  - rewrite !zget_insert by (rewrite ?zlen_insert; lia).
    rewrite !decide_False; [done| |]; intros E; apply Hm; exists p; (split; [left|lia]).
  - intros q Hq. rewrite !zlen_insert. apply Hin. by right.
  - intros (q & Hq & Hi). apply Hm. exists q. split; [by right|done].
Qed.

Lemma patch_hit l T C p :
  inside 0 (zlen C) l -> apart l -> p ∈ l ->
  zget (patch l T C) (p + 1) = Some ⟦Z.shiftr T 8⟧8 /\ zget (patch l T C) (p + 2) = Some ⟦Z.land T 255⟧8.
Proof.
  revert C; induction l as [|q l IH]; intros C Hin Hap Hp; [by inversion Hp|]. simpl.
  destruct (Hin q ltac:(left)) as [H1 H2].
  set (C' := <[Z.to_nat (q + 2) := _]> (<[Z.to_nat (q + 1) := _]> C)).
  assert (HC' : zlen C' = zlen C) by (unfold C'; by rewrite !zlen_insert).
  assert (Hin' : inside 0 (zlen C') l) by (intros x Hx; rewrite HC'; apply Hin; by right).
  destruct (decide (p ∈ l)) as [Hl|Hl].
  - apply IH; [done| |done]. intros x y Hx Hy. apply Hap; by right.
  - apply elem_of_cons in Hp as [->|?]; [|done].
    assert (Hmiss : forall k, k = 1 \/ k = 2 -> ~ hole l (q + k)).
    { intros k Hk (x & Hx & Hi). destruct (Hap q x) as [->|Hd]; [left|by right|done|lia]. }
    rewrite !patch_miss by (try done; apply Hmiss; auto).
    unfold C'. rewrite !zget_insert by (rewrite ?zlen_insert; lia).
    rewrite decide_False, decide_True, decide_True by lia. done.
Qed.

Lemma patch_target l T C p :
  inside 0 (zlen C) l -> apart l -> p ∈ l -> in_u 16 T -> target (patch l T C) p T.
Proof.
  intros Hin Hap Hp HT. destruct (patch_hit l T C p Hin Hap Hp) as [H1 H2].
  do 2 eexists. split; [done|]. split; [done|].
  rewrite <- (wrap_small 16 T HT) at 3. apply be_val_b16.
Qed.

(** ** Code with open branches *)

Record agree (B C : list Z) (lo hi : Z) (tch fch : PatchList) (T F : Z) : Prop := mkAgree {
  ag_code : forall i, lo <= i < hi -> ~ hole (tch ++ fch) i -> zget B i = zget C i;
  ag_t : forall p, p ∈ tch -> target B p T;
  ag_f : forall p, p ∈ fch -> target B p F
}.

Record chains_ok (lo hi : Z) (tch fch : PatchList) : Prop := mkChainsOk {
  ch_inside : inside lo hi (tch ++ fch);
  ch_apart : apart (tch ++ fch);
  ch_disj : forall p, p ∈ tch -> p ∈ fch -> False
}.

(** The indices of an expression fit in their encodings. *)
Fixpoint expr_in (M : Z) (e : expr) : Prop :=
  match e with
  | EComp _ a b => op_in M a /\ op_in M b
  | EBetween _ a lo hi => op_in M a /\ op_in M lo /\ op_in M hi
  | ENot e => expr_in M e
  | EAnd e1 e2 | EOr e1 e2 => expr_in M e1 /\ expr_in M e2
  end.

(** The code of [C] from [lo] evaluates [e] with the open branches [tch] and
    [fch] and the pending condition [c]: whatever the addresses they get, it
    leaves to [T] or [F] or stays with the condition tested. *)
Definition runs (C : list Z) (lo : Z) (op : DataObject) (e : expr) : Prop :=
  forall (cdr : CdrOffset) xm sd env M T F v,
    0 <= M -> M + zlen (p_buffer (program env)) <= MAX_INSTS ->
    agree (p_buffer (program env)) C lo (zlen C) (tchain op) (fchain op) T F ->
    zlen C <= T -> zlen C <= F -> wt e = true -> expr_in M e ->
    vm_at env M lo [] v ->
    sim xm sd env v (eval sd env e) (fun b v' =>
      (b = true /\ vm_at env M T [] v') \/ (b = false /\ vm_at env M F [] v')
      \/ tested env M (zlen C) (condition_ op) b v').

Definition cond_ok (C : list Z) (lo : Z) (op : DataObject) (e : expr) : Prop :=
  0 <= lo <= zlen C /\ chains_ok lo (zlen C) (tchain op) (fchain op) /\ runs C lo op e.

Lemma not_hole_nil i : ~ hole [] i.
Proof. intros (p & Hp & _). by inversion Hp. Qed.

Lemma agree_code_at B C bs T F :
  agree B (C ++ bs) (zlen C) (zlen (C ++ bs)) [] [] T F -> code_at B (zlen C) bs.
Proof.
  intros Hag. pose proof (zlen_nonneg C). split; [done|]. intros i Hi.
  rewrite (ag_code _ _ _ _ _ _ _ _ Hag) by (first [zlen_lia | apply not_hole_nil]).
  rewrite zget_app_r by lia. f_equal. lia.
Qed.

Lemma no_chains lo hi : chains_ok lo hi [] [].
Proof. constructor; intros p; [|intros q|]; intros Hp; by inversion Hp. Qed.

(** ** Predicates *)

Lemma comp_cond_ok C cmp a b c :
  operand_ok a -> operand_ok b -> comp_typed cmp (okind a) (okind b) -> cmp_cond cmp = Some c ->
  cond_ok (C ++ comp_bytes cmp a b) (zlen C) (mkDataObject [] [] c) (EComp cmp a b).
Proof.
  intros Ha Hb Hty Hc. split; [zlen_lia|]. split; [apply no_chains|].
  intros cdr xm sd env M T F v HM0 HM Hag HT HF Hwt [Ia Ib] Hv.
  apply agree_code_at in Hag. rewrite zlen_app. eapply sim_mono.
  - eapply exec_comp; try done. cbn [wt] in Hwt. destruct (decide (cmp = TK_LIKE)); [by left|right].
    by destruct cmp.
  - intros r v' Ht. by right; right.
Qed.

Lemma between_cond_ok C (neg : bool) a lo hi :
  operand_ok a -> operand_ok lo -> operand_ok hi -> between_typed (okind a) (okind lo) (okind hi) ->
  cond_ok (C ++ between_bytes a lo hi) (zlen C) (mkDataObject [] [] (if neg then C_T else C_F))
    (EBetween neg a lo hi).
Proof.
  intros Ha Hlo Hhi Hty. split; [zlen_lia|]. split; [apply no_chains|].
  intros cdr xm sd env M T F v HM0 HM Hag HT HF Hwt (Ia & Il & Ih) Hv.
  apply agree_code_at in Hag. rewrite zlen_app. eapply sim_mono.
  - eapply exec_between; done.
  - intros r v' Ht. by right; right.
Qed.

(** ** Boolean operators *)

Definition not_op (op : DataObject) : DataObject :=
  mkDataObject (fchain op) (tchain op) (complement (condition_ op)).

Lemma hole_comm l1 l2 i : hole (l1 ++ l2) i -> hole (l2 ++ l1) i.
Proof. intros (p & Hp & Hi). exists p. split; [|done]. apply elem_of_app. apply elem_of_app in Hp. tauto. Qed.

Lemma not_cond_ok C lo op e : cond_ok C lo op e -> cond_ok C lo (not_op op) (ENot e).
Proof.
  intros (Hlo & [Hin Hap Hdj] & Hr). split; [done|]. split.
  - constructor; simpl.
    + intros p Hp. apply Hin. apply elem_of_app. apply elem_of_app in Hp. tauto.
    + intros p q Hp Hq. apply Hap; apply elem_of_app; [apply elem_of_app in Hp|apply elem_of_app in Hq]; tauto.
    + intros p Hf Ht. by eapply Hdj.
  - intros cdr xm sd env M T F v HM0 HM [Hag Ht Hf] HT HF Hwt Hi Hv. cbn [eval].
    eapply sim_bind.
    + apply (Hr cdr xm sd env M F T v); try done. constructor; [|done|done].
      intros i Hi' Hh. apply Hag; [done|]. intros Hh'. apply Hh. by apply hole_comm.
    + intros b v' [[-> Hb]|[[-> Hb]|Hb]]; apply sim_ok; [by right; left|by left|].
      right; right. by apply tested_complement.
Qed.

Definition and_op (pc : Z) (op1 op2 : DataObject) : DataObject :=
  mkDataObject (tchain op2) ((fchain op1 ++ [pc]) ++ fchain op2) (condition_ op2).

(** The code between the operands of AND. *)
Definition and_code (C : list Z) (op : DataObject) : list Z :=
  patch (tchain op) (zlen C + 3) (C ++ [op_byte (cond_op (condition_ op)); 0; 0]).

Lemma zlen_and_code C op : zlen (and_code C op) = zlen C + 3.
Proof. unfold and_code. rewrite zlen_patch, zlen_app. done. Qed.

Lemma and_chains (C1 : list Z) lo op1 hi op2 :
  chains_ok lo (zlen C1) (tchain op1) (fchain op1) -> lo <= zlen C1 -> zlen C1 + 3 <= hi ->
  chains_ok (zlen C1 + 3) hi (tchain op2) (fchain op2) ->
  chains_ok lo hi (tchain op2) ((fchain op1 ++ [zlen C1]) ++ fchain op2).
Proof.
  intros [I1 A1 D1] Hlo Hhi [I2 A2 D2].
  assert (Hc : forall p, p ∈ (fchain op1 ++ [zlen C1]) ++ fchain op2 ->
    (p ∈ fchain op1 /\ lo <= p /\ p + 3 <= zlen C1) \/ p = zlen C1 \/ (p ∈ fchain op2 /\ zlen C1 + 3 <= p /\ p + 3 <= hi)).
  { intros p. rewrite !elem_of_app, list_elem_of_singleton. intros [[Hp|Hp]|Hp].
    - left. split; [done|]. apply I1. apply elem_of_app. by right.
    - by right; left.
    - right; right. split; [done|]. apply I2. apply elem_of_app. by right. }
  assert (Ht : forall p, p ∈ tchain op2 -> zlen C1 + 3 <= p /\ p + 3 <= hi).
  { intros p Hp. apply I2. apply elem_of_app. by left. }
  constructor.
  - intros p [Hp|Hp]%elem_of_app.
    + destruct (Ht p Hp). lia.
    + destruct (Hc p Hp) as [(_ & ? & ?)|[->|(_ & ? & ?)]]; lia.
  - intros p q Hp Hq.
    assert (Hcl : forall p, p ∈ tchain op2 ++ (fchain op1 ++ [zlen C1]) ++ fchain op2 ->
      (p ∈ fchain op1 /\ p + 3 <= zlen C1) \/ p = zlen C1 \/ (p ∈ tchain op2 ++ fchain op2 /\ zlen C1 + 3 <= p)).
    { intros x [Hx|Hx]%elem_of_app.
      - right; right. split; [apply elem_of_app; by left|]. by apply Ht.
      - destruct (Hc x Hx) as [(? & ? & ?)|[->|(? & ? & ?)]]; [by left|by right; left|].
        right; right. split; [apply elem_of_app; by right|done]. }
    destruct (Hcl p Hp) as [[Fp ?]|[->|[Fp ?]]], (Hcl q Hq) as [[Fq ?]|[->|[Fq ?]]]; try lia.
    + apply A1; apply elem_of_app; by right.
    + by apply A2.
  - intros p Hp Hq. destruct (Ht p Hp). destruct (Hc p Hq) as [(_ & ? & ?)|[->|(? & _)]]; [lia|lia|].
    by eapply D2.
Qed.

Section And.
Context (B C1 C3 : list Z) (lo : Z) (op1 op2 : DataObject) (T F : Z).
Context (Hlo : 0 <= lo <= zlen C1).
Context (Hch1 : chains_ok lo (zlen C1) (tchain op1) (fchain op1)).
Context (Hch2 : chains_ok (zlen C1 + 3) (zlen C3) (tchain op2) (fchain op2)).
Context (Hpre : ztake (zlen C1 + 3) C3 = and_code C1 op1) (Hlen : zlen C1 + 3 <= zlen C3).
Context (Hag : agree B C3 lo (zlen C3) (tchain op2) ((fchain op1 ++ [zlen C1]) ++ fchain op2) T F).

Lemma and_hole i : i < zlen C1 + 3 ->
  hole (tchain op2 ++ (fchain op1 ++ [zlen C1]) ++ fchain op2) i ->
  hole (fchain op1) i \/ i = zlen C1 + 1 \/ i = zlen C1 + 2.
Proof.
  intros Hi (p & Hp & Hpi). rewrite !elem_of_app, list_elem_of_singleton in Hp.
  destruct Hch2 as [I2 _ _].
  destruct Hp as [Hp|[[Hp|Hp]|Hp]]; [|left; by exists p|subst p; lia|].
  - destruct (I2 p); [apply elem_of_app; by left|]. lia.
  - destruct (I2 p); [apply elem_of_app; by right|]. lia.
Qed.

Lemma and_low i : lo <= i < zlen C1 + 3 -> i <> zlen C1 + 1 -> i <> zlen C1 + 2 ->
  ~ hole (fchain op1) i -> zget B i = zget (and_code C1 op1) i.
Proof.
  intros Hi H1 H2 Hh. rewrite (ag_code _ _ _ _ _ _ _ _ Hag).
  - rewrite <- Hpre. symmetry. apply zget_ztake. lia.
  - lia.
  - intros Hb. apply and_hole in Hb as [?|[?|?]]; [done|lia|lia|lia].
Qed.

Lemma and_inside : inside 0 (zlen (C1 ++ [op_byte (cond_op (condition_ op1)); 0; 0])) (tchain op1).
Proof.
  intros p Hp. destruct (ch_inside _ _ _ _ Hch1 p) as [? ?]; [apply elem_of_app; by left|].
  rewrite zlen_app. change (zlen [_; 0; 0]) with 3. lia.
Qed.

Lemma and_branch_op : zget B (zlen C1) = Some (op_byte (cond_op (condition_ op1))).
Proof.
  rewrite and_low; [|lia..|].
  2:{ intros (p & Hp & Hi). destruct (ch_inside _ _ _ _ Hch1 p) as [? ?]; [apply elem_of_app; by right|lia]. }
  unfold and_code. rewrite patch_miss; [|apply and_inside|].
  { rewrite zget_app_r, Z.sub_diag by lia. done. }
  intros (p & Hp & Hi). destruct (ch_inside _ _ _ _ Hch1 p) as [? ?]; [apply elem_of_app; by left|lia].
Qed.

Lemma and_agree_left : in_u 16 (zlen C1 + 3) ->
  agree B C1 lo (zlen C1) (tchain op1) (fchain op1) (zlen C1 + 3) F.
Proof.
  intros Hw. destruct Hch1 as [I1 A1 D1]. constructor.
  - intros i Hi Hh.
    assert (H1 : ~ hole (tchain op1) i).
    { intros (p & Hp & Hpi). apply Hh. exists p. split; [apply elem_of_app; by left|done]. }
    assert (H2 : ~ hole (fchain op1) i).
    { intros (p & Hp & Hpi). apply Hh. exists p. split; [apply elem_of_app; by right|done]. }
    rewrite and_low by (done || lia). unfold and_code.
    rewrite patch_miss by (done || apply and_inside). apply zget_app_l. lia.
  - intros p Hp. assert (Hp' : p ∈ tchain op1 ++ fchain op1) by (apply elem_of_app; by left).
    destruct (I1 p Hp') as [? ?].
    assert (Hat : apart (tchain op1)) by (intros x y Hx Hy; apply A1; apply elem_of_app; by left).
    destruct (patch_target (tchain op1) (zlen C1 + 3) _ p and_inside Hat Hp Hw) as (hi & lo' & Hhi & Hlo' & HT).
    exists hi, lo'. fold (and_code C1 op1) in Hhi, Hlo'.
    assert (Hnf : forall k, k = 1 \/ k = 2 -> ~ hole (fchain op1) (p + k)).
    { intros k Hk (q & Hq & Hqi). destruct (A1 p q Hp') as [->|?]; [apply elem_of_app; by right| |lia].
      by eapply D1. }
    rewrite !and_low by (first [lia | apply Hnf; lia]). done.
  - intros p Hp. apply (ag_f _ _ _ _ _ _ _ _ Hag). rewrite !elem_of_app. tauto.
Qed.

Lemma and_agree_right : agree B C3 (zlen C1 + 3) (zlen C3) (tchain op2) (fchain op2) T F.
Proof.
  destruct Hag as [Hc Ht Hf]. constructor; [|done|].
  - intros i Hi Hh. apply Hc; [lia|]. intros (p & Hp & Hpi). apply Hh. exists p. split; [|done].
    rewrite !elem_of_app, list_elem_of_singleton in Hp. apply elem_of_app.
    destruct Hp as [Hp|[[Hp|Hp]|Hp]]; [by left| |lia|by right].
    destruct (ch_inside _ _ _ _ Hch1 p) as [? ?]; [apply elem_of_app; by right|lia].
  - intros p Hp. apply Hf. rewrite !elem_of_app. tauto.
Qed.

Lemma and_branch : exists hi lo', code_at B (zlen C1) [op_byte (cond_op (condition_ op1)); hi; lo'] /\
  be_val [hi; lo'] = F.
Proof.
  destruct (ag_f _ _ _ _ _ _ _ _ Hag (zlen C1)) as (hi & lo' & Hhi & Hlo' & HF).
  { rewrite !elem_of_app, list_elem_of_singleton. tauto. }
  exists hi, lo'. split; [|done]. split; [lia|]. intros i Hi.
  change (zlen [op_byte (cond_op (condition_ op1)); hi; lo']) with 3 in Hi.
  assert (i = 0 \/ i = 1 \/ i = 2) as [-> | [-> | ->]] by lia.
  - rewrite Z.add_0_r. apply and_branch_op.
  - done.
  - done.
Qed.

End And.

Lemma and_cond_ok C1 C3 lo op1 op2 e1 e2 :
  cond_ok C1 lo op1 e1 -> cond_ok C3 (zlen C1 + 3) op2 e2 -> ztake (zlen C1 + 3) C3 = and_code C1 op1 ->
  cond_ok C3 lo (and_op (zlen C1) op1 op2) (EAnd e1 e2).
Proof.
  intros (Hlo & Hch1 & Hr1) (Hlo2 & Hch2 & Hr2) Hpre.
  split; [lia|]. split; [by apply (and_chains C1 lo op1 (zlen C3) op2); try lia|].
  intros cdr xm sd env M T F v HM0 HM Hag HT HF Hwt [Hi1 Hi2] Hv.
  set (B := p_buffer (program env)) in *. cbn [tchain fchain and_op] in Hag.
  cbn [wt] in Hwt. apply andb_true_iff in Hwt as [Hw1 Hw2].
  pose proof (zget_Some _ _ _ (and_branch_op B C1 C3 lo op1 op2 T F Hlo Hch1 Hch2 Hpre ltac:(lia) Hag)) as HB.
  assert (Hw : in_u 16 (zlen C1 + 3)) by (unfold in_u, MAX_INSTS in *; simpl; lia).
  assert (Hright : forall v1, vm_at env M (zlen C1 + 3) [] v1 ->
    sim xm sd env v1 (eval sd env e2) (fun b v' =>
      (b = true /\ vm_at env M T [] v') \/ (b = false /\ vm_at env M F [] v')
      \/ tested env M (zlen C3) (condition_ op2) b v')).
  { intros v1 Hv1. apply (Hr2 cdr xm sd env M T F v1); try done.
    eapply and_agree_right; done || lia. }
  cbn [eval]. eapply sim_bind.
  { apply (Hr1 cdr xm sd env M (zlen C1 + 3) F v); try done; try lia.
    eapply and_agree_left; done || lia. }
  intros b v1 [[-> Hb]|[[-> Hb]|Hb]].
  - by apply Hright.
  - apply sim_ok. right; left. done.
  - destruct (and_branch B C1 C3 lo op1 op2 T F Hlo Hch1 Hch2 Hpre ltac:(lia) Hag) as (hi & lo' & Hcode & HbF).
    destruct (exec_branch xm sd env M HM _ _ _ _ hi lo' Hb Hcode) as (v2 & Hst & Hv2); [lia|].
    rewrite HbF in Hv2. eapply sim_steps; [exact Hst|]. destruct b; [by apply Hright|].
    apply sim_ok. right; left. done.
Qed.

(** OR is the dual of AND. *)
Definition or_op (pc : Z) (op1 op2 : DataObject) : DataObject :=
  mkDataObject ((tchain op1 ++ [pc]) ++ tchain op2) (fchain op2) (condition_ op2).

Definition or_code (C : list Z) (op : DataObject) : list Z := and_code C (not_op op).

Lemma complement_involutive c : complement (complement c) = c.
Proof. by destruct c. Qed.

Lemma runs_equiv C lo op e e' :
  runs C lo op e -> wt e' = wt e -> (forall M, expr_in M e' -> expr_in M e) ->
  (forall (cdr : CdrOffset) sd env, eval sd env e' = eval sd env e) -> runs C lo op e'.
Proof.
  intros Hr Hw Hi He cdr xm sd env M T F v HM0 HM Hag HT HF Hwt Hin Hv.
  rewrite He. apply (Hr cdr xm sd env M T F v); auto. by rewrite <- Hw.
Qed.

Lemma or_cond_ok C1 C3 lo op1 op2 e1 e2 :
  cond_ok C1 lo op1 e1 -> cond_ok C3 (zlen C1 + 3) op2 e2 -> ztake (zlen C1 + 3) C3 = or_code C1 op1 ->
  cond_ok C3 lo (or_op (zlen C1) op1 op2) (EOr e1 e2).
Proof.
  intros H1 H2 Hpre.
  pose proof (and_cond_ok _ _ _ _ _ _ _ (not_cond_ok _ _ _ _ H1) (not_cond_ok _ _ _ _ H2) Hpre) as H3.
  apply not_cond_ok in H3 as (Hlo & Hch & Hr). split; [done|]. split; [done|].
  unfold not_op, and_op in Hr. cbn [tchain fchain condition_] in Hr. rewrite complement_involutive in Hr.
  apply (runs_equiv _ _ _ _ (EOr e1 e2)) in Hr; [done|done|done|].
  intros cdr sd env. cbn [eval]. destruct (eval sd env e1) as [[]| |]; try done. simpl.
  by destruct (eval sd env e2) as [[]| |].
Qed.

Lemma and_code_prefix C op lo :
  inside lo (zlen C) (tchain op) -> 0 <= lo <= zlen C -> ztake lo (and_code C op) = ztake lo C.
Proof.
  intros Hin Hlo. apply zlist_eq.
  - by rewrite !zlen_ztake by (rewrite ?zlen_and_code; lia).
  - rewrite zlen_ztake by (rewrite zlen_and_code; lia). intros i Hi. rewrite !zget_ztake by lia.
    unfold and_code. rewrite patch_miss; [apply zget_app_l; lia| |].
    + intros p Hp. destruct (Hin p Hp). rewrite zlen_app. change (zlen [_; 0; 0]) with 3. lia.
    + intros (p & Hp & Hpi). destruct (Hin p Hp). lia.
Qed.

Lemma ztake_ztake {A} i j (l : list A) : i <= j -> ztake i (ztake j l) = ztake i l.
Proof. intros. unfold ztake. rewrite take_take. f_equal. lia. Qed.

Lemma cond_chain_inside C lo op e :
  cond_ok C lo op e -> inside lo (zlen C) (tchain op) /\ inside lo (zlen C) (fchain op).
Proof.
  intros (_ & [Hin _ _] & _). split; intros p Hp; apply Hin, elem_of_app; tauto.
Qed.

Lemma inside_weaken lo lo' hi l : inside lo hi l -> lo' <= lo -> inside lo' hi l.
Proof. intros Hin Hle p Hp. destruct (Hin p Hp). lia. Qed.

(** ** The parser of conditions *)

Section Conditions.
Context (xmalloc_ok : Z -> bool) (kt : KwTable) (libs : TypeLibs) (ts : TypeSupport) (top : Type_).
Context (Hts : ts_cdr ts = Some top).
Abbreviation nt := (nt xmalloc_ok kt).
Abbreviation g_factor := (g_factor xmalloc_ok kt libs top).
Abbreviation g_term := (g_term xmalloc_ok kt libs top).
Abbreviation g_cond := (g_cond xmalloc_ok kt libs top).
Abbreviation g_terms := (g_terms xmalloc_ok kt libs top).
Abbreviation g_conds := (g_conds xmalloc_ok kt libs top).

Lemma append_patch_ok l pc d l' d' :
  append_patch xmalloc_ok l pc d = POk l' d' -> l' = l ++ [pc] /\ d' = d.
Proof. unfold append_patch. destruct (xmalloc_ok 16); intros H; [by pinv H|pinv H]. Qed.

Lemma gen_condition_mv c d d' :
  pok d -> gen_condition xmalloc_ok c d = POk tt d' ->
  mv d d' (code d ++ [op_byte (cond_op c); 0; 0]) /\ scan d' = scan d.
Proof. intros Hd H. by apply (gen_mv _ _ _ _ _ _ (gen_condition_ok _ _)) in H as (_ & ? & ?). Qed.

Lemma backpatch_mv l ofs d d' :
  pok d -> inside 0 (cur_pc d) l -> backpatch l ofs d = POk tt d' ->
  mv d d' (patch l ofs (code d)) /\ scan d' = scan d.
Proof.
  intros Hd Hl H. apply backpatch_ok in H; [|apply Hd|].
  - split; [by apply upd_mv|apply H].
  - apply Forall_forall. intros p Hp. apply list_elem_of_In in Hp. destruct (Hl p Hp). lia.
Qed.

(** The glue emits a branch and patches one chain to the code behind it. *)
Lemma glue_ok l c d d1 d2 d3 :
  pok d -> inside 0 (cur_pc d) l ->
  gen_condition xmalloc_ok c d = POk tt d1 -> backpatch l (cur_pc d1) d1 = POk tt d2 ->
  next_token xmalloc_ok kt d2 = POk tt d3 ->
  nt (scan d) (scan d3) /\
  mv d d3 (patch l (zlen (code d) + 3) (code d ++ [op_byte (cond_op c); 0; 0])).
Proof.
  intros Hd Hin H1 H2 H3. apply gen_condition_mv in H1 as [M1 S1]; [|done].
  pose proof (mv_pc _ _ _ M1) as Hpc. rewrite zlen_app, zlen_code in Hpc by apply Hd.
  change (zlen [_; 0; 0]) with 3 in Hpc.
  apply backpatch_mv in H2 as [M2 S2]; [|apply M1|intros p Hp; destruct (Hin p Hp); lia].
  apply next_token_ok in H3 as [N3 M3]; [|apply M2].
  split; [by rewrite S2, S1 in N3|].
  rewrite (mv_code _ _ _ M2), (mv_code _ _ _ M1), Hpc in *.
  rewrite zlen_code by apply Hd. do 2 (eapply mv_trans; [eassumption|]). done.
Qed.

Lemma and_glue_ok op d op' d' :
  pok d -> inside 0 (cur_pc d) (tchain op) ->
  and_glue xmalloc_ok kt op d = POk op' d' ->
  nt (scan d) (scan d') /\ mv d d' (and_code (code d) op) /\
  op' = mkDataObject [] (fchain op ++ [cur_pc d]) (condition_ op).
Proof.
  intros Hd Hin H. unfold and_glue in H. pinv H. apply append_patch_ok in H0 as [-> ->].
  destruct (glue_ok _ _ _ _ _ _ Hd Hin H1 H2 H3). done.
Qed.

Lemma or_glue_ok op d op' d' :
  pok d -> inside 0 (cur_pc d) (fchain op) ->
  or_glue xmalloc_ok kt op d = POk op' d' ->
  nt (scan d) (scan d') /\ mv d d' (or_code (code d) op) /\
  op' = mkDataObject (tchain op ++ [cur_pc d]) [] (condition_ op).
Proof.
  intros Hd Hin H. unfold or_glue in H. pinv H. apply append_patch_ok in H0 as [-> ->].
  destruct (glue_ok _ _ _ _ _ _ Hd Hin H1 H2 H3). done.
Qed.

(** A parsed condition: its syntax, its code behind the code so far, and what
    the code does. *)
Definition parsed (G : ScanData -> expr -> ScanData -> Prop) (s0 : ScanData) (lo : Z)
  (C0 : list Z) (r : option DataObject) (d' : ParseData) : Prop :=
  exists e op, r = Some op /\ G s0 e (scan d') /\ pok d' /\ tc d' = Some ts /\
    ztake lo (code d') = C0 /\ cond_ok (code d') lo op e.

(** A state of the parser behind the condition [e], whose code starts at
    [lo]. *)
Record behind (lo : Z) (C0 : list Z) (op : DataObject) (e : expr) (d : ParseData) : Prop := mkBehind {
  bh_ok : pok d;
  bh_tc : tc d = Some ts;
  bh_pre : ztake lo (code d) = C0;
  bh_cond : cond_ok (code d) lo op e
}.

(** One more operand of AND. *)
Lemma and_step H lo C0 op d op1 d1 r2 d2 e1 :
  behind lo C0 op e1 d -> and_glue xmalloc_ok kt op d = POk op1 d1 ->
  (pok d1 -> tc d1 = Some ts -> parsed H (scan d1) (cur_pc d1) (code d1) r2 d2) ->
  exists np e2, r2 = Some np /\ nt (scan d) (scan d1) /\ H (scan d1) e2 (scan d2) /\
    behind lo C0 (bool_op op1 np) (EAnd e1 e2) d2.
Proof.
  intros [Hd Htc HC0 Hok] Hglue Hp. destruct (cond_chain_inside _ _ _ _ Hok) as [Hti _].
  pose proof Hok as (Hlo & _ & _). rewrite zlen_code in * by apply Hd.
  apply and_glue_ok in Hglue as (N & M & ->); [|done|by apply (inside_weaken lo); [|lia]].
  pose proof (mv_pc _ _ _ M) as Hpc. rewrite zlen_and_code in Hpc.
  destruct Hp as (e2 & np & -> & Hg2 & Hp2 & Htc2 & Hpre & Hok2); [apply M|by rewrite (mv_tc _ _ _ M)|].
  rewrite Hpc in Hpre, Hok2. rewrite (mv_code _ _ _ M) in Hpre.
  exists np, e2. do 3 (split; [done|]). constructor; [done|done| |].
  - rewrite <- HC0, <- (and_code_prefix (code d) op lo), <- Hpre;
      [|by rewrite zlen_code by apply Hd|by rewrite zlen_code by apply Hd].
    symmetry. apply ztake_ztake. rewrite zlen_code by apply Hd. lia.
  - pose proof (and_cond_ok _ _ _ _ _ _ _ Hok Hok2 Hpre) as Hres.
    rewrite zlen_code in Hres by apply Hd. exact Hres.
Qed.

(** One more operand of OR. *)
Lemma or_step H lo C0 op d op1 d1 r2 d2 e1 :
  behind lo C0 op e1 d -> or_glue xmalloc_ok kt op d = POk op1 d1 ->
  (pok d1 -> tc d1 = Some ts -> parsed H (scan d1) (cur_pc d1) (code d1) r2 d2) ->
  exists np e2, r2 = Some np /\ nt (scan d) (scan d1) /\ H (scan d1) e2 (scan d2) /\
    behind lo C0 (bool_op op1 np) (EOr e1 e2) d2.
Proof.
  intros [Hd Htc HC0 Hok] Hglue Hp. destruct (cond_chain_inside _ _ _ _ Hok) as [_ Hfi].
  pose proof Hok as (Hlo & _ & _). rewrite zlen_code in * by apply Hd.
  apply or_glue_ok in Hglue as (N & M & ->); [|done|by apply (inside_weaken lo); [|lia]].
  pose proof (mv_pc _ _ _ M) as Hpc. unfold or_code in Hpc. rewrite zlen_and_code in Hpc.
  destruct Hp as (e2 & np & -> & Hg2 & Hp2 & Htc2 & Hpre & Hok2); [apply M|by rewrite (mv_tc _ _ _ M)|].
  rewrite Hpc in Hpre, Hok2. rewrite (mv_code _ _ _ M) in Hpre.
  exists np, e2. do 3 (split; [done|]). constructor; [done|done| |].
  - rewrite <- HC0, <- (and_code_prefix (code d) (not_op op) lo); fold (or_code (code d) op); rewrite <- ?Hpre;
      [|by rewrite zlen_code by apply Hd|by rewrite zlen_code by apply Hd].
    symmetry. apply ztake_ztake. rewrite zlen_code by apply Hd. lia.
  - pose proof (or_cond_ok _ _ _ _ _ _ _ Hok Hok2 Hpre) as Hres.
    rewrite zlen_code in Hres by apply Hd. exact Hres.
Qed.

Lemma predicate_parsed fuel d r d' :
  pok d -> tc d = Some ts -> predicate xmalloc_ok kt libs fuel d = POk r d' ->
  parsed g_factor (scan d) (cur_pc d) (code d) r d'.
Proof.
  intros Hd Htc H. rewrite <- (zlen_code d) by apply Hd.
  eapply predicate_ok in H as [(cmp & a & b & c & Ha & Hb & Hty & Hc & -> & M & Hg)
    |(neg & a & lo & hi & Ha & Hlo & Hhi & Hty & -> & M & Hg)]; [| |done|done|done];
    do 2 eexists; (split; [done|]); (split; [by apply g_fpred|]); (split; [apply M|]);
    (split; [by rewrite (mv_tc _ _ _ M)|]); rewrite (mv_code _ _ _ M), ztake_app_full;
    (split; [done|]); [by apply comp_cond_ok|by apply between_cond_ok].
Qed.

Lemma ztake_code d : pok d -> ztake (cur_pc d) (code d) = code d.
Proof. intros [Hd _]. apply ztake_full. by rewrite zlen_code by done. Qed.

Lemma parsed_behind G s0 lo C0 r d :
  parsed G s0 lo C0 r d <-> exists e op, r = Some op /\ G s0 e (scan d) /\ behind lo C0 op e d.
Proof.
  split.
  - intros (e & op & ? & ? & ? & ? & ? & ?). exists e, op. done.
  - intros (e & op & ? & ? & []). exists e, op. done.
Qed.

Lemma conditions_parsed fuel :
  (forall d r d', pok d -> tc d = Some ts -> factor xmalloc_ok kt libs fuel d = POk r d' ->
     parsed g_factor (scan d) (cur_pc d) (code d) r d') /\
  (forall lo C0 op e1 d r d', behind lo C0 op e1 d ->
     term_loop xmalloc_ok kt libs fuel (Some op) d = POk r d' -> parsed (g_terms e1) (scan d) lo C0 r d') /\
  (forall lo C0 op e1 d r d', behind lo C0 op e1 d ->
     condition_loop xmalloc_ok kt libs fuel (Some op) d = POk r d' -> parsed (g_conds e1) (scan d) lo C0 r d') /\
  (forall d r d', pok d -> tc d = Some ts -> condition xmalloc_ok kt libs fuel d = POk r d' ->
     parsed g_cond (scan d) (cur_pc d) (code d) r d').
Proof.
  induction fuel as [|fuel (IHf & IHt & IHc & IHcond)]; [by split_and!|].
  assert (Hterm : forall d r1 d1 r d', pok d -> tc d = Some ts ->
    factor xmalloc_ok kt libs fuel d = POk r1 d1 -> term_loop xmalloc_ok kt libs fuel r1 d1 = POk r d' ->
    parsed g_term (scan d) (cur_pc d) (code d) r d').
  { intros d r1 d1 r d' Hd Htc H1 H2. apply IHf in H1; [|done|done].
    apply parsed_behind in H1 as (e1 & op1 & -> & Hg1 & Hb1). eapply IHt in H2; [|exact Hb1].
    apply parsed_behind in H2 as (e & op & -> & Hg & Hb). apply parsed_behind.
    exists e, op. do 2 (split; [done || by eapply g_term_intro|]). done. }
  split_and!.
  - intros d r d' Hd Htc H. cbn [factor] in H. pinv H. case_decide as E1; [|case_decide as E2].
    + pinv H. apply next_token_ok in H0 as [N M]; [|done].
      assert (Hpc : cur_pc d0 = cur_pc d) by (rewrite (mv_pc _ _ _ M); apply zlen_code, Hd).
      apply IHf in H1 as (e & op & -> & Hg & Hp & Htc1 & Hpre & Hok); [|apply M|by rewrite (mv_tc _ _ _ M)].
      injection H2 as ->. rewrite Hpc, (mv_code _ _ _ M) in *.
      exists (ENot e), (not_op a1). split; [done|]. split; [by eapply g_not|].
      do 3 (split; [done|]). by apply not_cond_ok.
    + pinv H. apply next_token_ok in H0 as [N M]; [|done].
      apply IHcond in H1; [|apply M|by rewrite (mv_tc _ _ _ M)].
      assert (Hpc : cur_pc d0 = cur_pc d) by (rewrite (mv_pc _ _ _ M); apply zlen_code, Hd).
      destruct H1 as (e & op & -> & Hg & Hp & Htc1 & Hpre & Hok).
      apply expect_ok in H2 as (T2 & N2 & M2); [|done].
      rewrite Hpc, (mv_code _ _ _ M) in *. rewrite <- (mv_code _ _ _ M2) in Hpre, Hok.
      exists e, op. split; [done|]. split; [by eapply g_paren|]. split; [apply M2|].
      split; [by rewrite (mv_tc _ _ _ M2)|]. done.
    + by apply (predicate_parsed fuel).
  - intros lo C0 op e1 d r d' Hb H. cbn [term_loop] in H. pinv H. case_decide as E1; pinv H.
    2:{ apply parsed_behind. exists e1, op. by split; [|split; [constructor|]]. }
    injection H0 as <-. change (factor xmalloc_ok kt libs fuel d0 = POk a1 d1) in H2.
    change (term_loop xmalloc_ok kt libs fuel (Some (bool_op a0 a2)) d1 = POk r d') in H.
    eapply (and_step g_factor lo C0 op d a0 d0 a1 d1 e1) in Hb as (np & e2 & -> & N & Hg2 & Hb2); [|exact H1|intros ? ?; eapply IHf; [done|done|exact H2]].
    injection H3 as <-. eapply IHt in H; [|exact Hb2].
    apply parsed_behind in H as (e & op' & -> & Hg & Hb'). apply parsed_behind.
    exists e, op'. split; [done|]. split; [by eapply g_terms_and|done].
  - intros lo C0 op e1 d r d' Hb H. cbn [condition_loop] in H. pinv H. case_decide as E1; pinv H.
    2:{ apply parsed_behind. exists e1, op. by split; [|split; [constructor|]]. }
    injection H0 as <-. change (factor xmalloc_ok kt libs fuel d0 = POk a1 d1) in H2.
    change (term_loop xmalloc_ok kt libs fuel a1 d1 = POk a2 d2) in H3.
    eapply (or_step g_term lo C0 op d a0 d0 a2 d2 e1) in Hb as (np & e2 & -> & N & Hg2 & Hb2); [|exact H1|intros ? ?; eapply Hterm; [done|done|exact H2|exact H3]].
    injection H4 as <-. eapply IHc in H; [|exact Hb2].
    apply parsed_behind in H as (e & op' & -> & Hg & Hb'). apply parsed_behind.
    exists e, op'. split; [done|]. split; [by eapply g_conds_or|done].
  - intros d r d' Hd Htc H. cbn [condition] in H. pinv H.
    eapply Hterm in H1; [|done|done|exact H0]. apply parsed_behind in H1 as (e1 & op1 & -> & Hg1 & Hb1).
    eapply IHc in H; [|exact Hb1]. apply parsed_behind in H as (e & op & -> & Hg & Hb).
    apply parsed_behind. exists e, op. split; [done|]. split; [by eapply g_cond_intro|done].
Qed.

End Conditions.

(** ** Whole filters *)

Definition filter_prog (C : list Z) (op : DataObject) : list Z :=
  patch (fchain op ++ [zlen C]) (zlen C + 4) (and_code C op ++ [op_byte O_RETT; op_byte O_RETF]).

Lemma patch_app l T C x :
  inside 0 (zlen C) l -> patch l T C ++ x = patch l T (C ++ x).
Proof.
  revert C; induction l as [|p l IH]; intros C Hin; simpl; [done|].
  destruct (Hin p ltac:(left)) as [H1 H2]. rewrite IH.
  - f_equal. assert (Hn : (Z.to_nat (p + 2) < length C)%nat) by (unfold zlen in H2; lia).
    rewrite insert_app_l by lia. rewrite insert_app_l by (rewrite length_insert; lia). done.
  - intros q Hq. rewrite !zlen_insert. apply Hin. by right.
Qed.

Section Filter.
Context (xmalloc_ok : Z -> bool) (kt : KwTable) (libs : TypeLibs).

Lemma patch_out_ok op e d d' :
  pok d -> cond_ok (code d) 0 op e -> patch_out xmalloc_ok op d = POk tt d' ->
  mv d d' (filter_prog (code d) op) /\ scan d' = scan d.
Proof.
  intros Hd Hok H. unfold patch_out in H. pinv H. apply append_patch_ok in H0 as [-> ->].
  destruct (cond_chain_inside _ _ _ _ Hok) as [Hti Hfi]. rewrite zlen_code in Hti, Hfi by apply Hd.
  apply gen_condition_mv in H1 as [M1 S1]; [|done].
  pose proof (mv_pc _ _ _ M1) as Hpc. rewrite zlen_app, zlen_code in Hpc by apply Hd.
  change (zlen [_; 0; 0]) with 3 in Hpc.
  apply backpatch_mv in H2 as [M2 S2]; [|apply M1|intros p Hp; destruct (Hti p Hp); lia].
  rewrite (mv_code _ _ _ M1), Hpc in M2.
  apply (emit_op_mv xmalloc_ok) in H3 as [M3 S3]; [|apply M2]. rewrite (mv_code _ _ _ M2) in M3.
  pose proof (mv_pc _ _ _ M3) as Hpc3. rewrite zlen_app, zlen_patch, zlen_app, zlen_code in Hpc3 by apply Hd.
  change (zlen [_; 0; 0]) with 3 in Hpc3. change (zlen [_]) with 1 in Hpc3.
  assert (Hf : inside 0 (cur_pc d + 3) (fchain op ++ [cur_pc d])).
  { intros p [Hp|Hp%list_elem_of_singleton]%elem_of_app; [destruct (Hfi p Hp); lia|].
    subst. pose proof (cur_pc_nonneg d ltac:(apply Hd)). lia. }
  apply backpatch_mv in H4 as [M4 S4]; [|apply M3|].
  2:{ intros p Hp. destruct (Hf p Hp). lia. }
  apply (emit_op_mv xmalloc_ok) in H as [M5 S5]; [|apply M4].
  split; [|congruence].
  rewrite (mv_code _ _ _ M4), (mv_code _ _ _ M3), Hpc3 in M5.
  unfold filter_prog, and_code. rewrite zlen_code by apply Hd.
  rewrite patch_app, <- app_assoc in M5.
  - replace (cur_pc d + 3 + 1) with (cur_pc d + 4) in M5 by lia.
    do 4 (eapply mv_trans; [eassumption|]). done.
  - rewrite zlen_app, zlen_patch, zlen_app, zlen_code by apply Hd. change (zlen [_; 0; 0]) with 3.
    change (zlen [_]) with 1. intros p Hp. destruct (Hf p Hp). lia.
Qed.

End Filter.

Section FilterRun.
Context (C : list Z) (op : DataObject) (e : expr).
Context (Hok : cond_ok C 0 op e).

Lemma filter_prog_len : zlen (filter_prog C op) = zlen C + 5.
Proof. unfold filter_prog. rewrite zlen_patch, zlen_app, zlen_and_code. change (zlen [_; _]) with 2. lia. Qed.

Lemma filter_agree :
  zlen C + 5 <= MAX_INSTS ->
  agree (filter_prog C op) (and_code C op ++ [op_byte O_RETT; op_byte O_RETF]) 0
    (zlen (and_code C op ++ [op_byte O_RETT; op_byte O_RETF])) [] ((fchain op ++ [zlen C]) ++ [])
    (zlen C + 3) (zlen C + 4).
Proof.
  intros Hl. rewrite app_nil_r. destruct Hok as (Hlo & [Hin Hap _] & _).
  assert (Hf : forall p, p ∈ fchain op -> 0 <= p /\ p + 3 <= zlen C).
  { intros p Hp. apply Hin, elem_of_app. by right. }
  assert (Hi : inside 0 (zlen (and_code C op ++ [op_byte O_RETT; op_byte O_RETF])) (fchain op ++ [zlen C])).
  { rewrite zlen_app, zlen_and_code. change (zlen [_; _]) with 2.
    intros p [Hp|Hp%list_elem_of_singleton]%elem_of_app; [destruct (Hf p Hp)|]; lia. }
  constructor.
  - intros i Hb Hh. by apply patch_miss.
  - intros p Hp. by inversion Hp.
  - intros p Hp. apply patch_target; [done| |done|].
    + intros x y [Hx|Hx%list_elem_of_singleton]%elem_of_app [Hy|Hy%list_elem_of_singleton]%elem_of_app.
      * apply Hap; apply elem_of_app; by right.
      * destruct (Hf x Hx). lia.
      * destruct (Hf y Hy). lia.
      * lia.
    + unfold in_u, MAX_INSTS in *. simpl. lia.
Qed.

(** The compiled program runs to the value of the expression. *)
Lemma filter_prog_runs (cdr : CdrOffset) xm sd env M v :
  p_buffer (program env) = filter_prog C op -> 0 <= M -> M + zlen (filter_prog C op) <= MAX_INSTS ->
  wt e = true -> expr_in M e -> vm_at env M 0 [] v ->
  match eval sd env e with
  | Ok b => exists v1 v2, steps xm sd env v v1 /\
      step xm sd env v1 = Done BC_OK (Some (if b then 1 else 0)) v2
  | Fail => exists v1 v2, steps xm sd env v v1 /\ step xm sd env v1 = Done 1 None v2
  | Stuck => exists v1, steps xm sd env v v1 /\ step xm sd env v1 = Undef
  end.
Proof.
  intros Hp HM0 HM Hwt Hi Hv. pose proof filter_prog_len as Hlen.
  pose proof (filter_agree ltac:(lia)) as Hag. rewrite <- Hp in Hag, HM.
  set (C3 := and_code C op ++ [op_byte O_RETT; op_byte O_RETF]) in *.
  set (B := p_buffer (program env)) in *.
  assert (HB : zlen B = zlen C + 5) by (by rewrite Hp).
  destruct Hok as (Hlo & Hch & Hr).
  assert (H3 : zlen C3 = zlen C + 5).
  { unfold C3. rewrite zlen_app, zlen_and_code. change (zlen [_; _]) with 2. lia. }
  assert (Hpre : ztake (zlen C + 3) C3 = and_code C op).
  { unfold C3. rewrite <- (zlen_and_code C op). apply ztake_app_full. }
  pose proof (no_chains (zlen C + 3) (zlen C3)) as Hch2.
  set (op2 := mkDataObject [] [] C_T).
  pose proof (and_agree_left B C C3 0 op op2 (zlen C + 3) (zlen C + 4) Hlo Hch Hch2 Hpre ltac:(lia) Hag) as Hleft.
  pose proof (and_branch B C C3 0 op op2 (zlen C + 3) (zlen C + 4) Hlo Hch Hch2 Hpre ltac:(lia) Hag) as Hbr.
  assert (Hret : forall k o, k = 3 /\ o = O_RETT \/ k = 4 /\ o = O_RETF -> zget B (zlen C + k) = Some (op_byte o)).
  { intros k o Hk. assert (Hk3 : k = 3 \/ k = 4) by tauto. rewrite (ag_code _ _ _ _ _ _ _ _ Hag).
    - unfold C3. rewrite zget_app_r, zlen_and_code by (rewrite zlen_and_code; lia).
      destruct Hk as [[-> ->]|[-> ->]].
      + replace (zlen C + 3 - (zlen C + 3)) with 0 by lia. done.
      + replace (zlen C + 4 - (zlen C + 3)) with 1 by lia. done.
    - lia.
    - simpl app. rewrite app_nil_r. intros (p & Hp' & Hpi). apply elem_of_app in Hp' as [Hp'|Hp'%list_elem_of_singleton].
      + destruct (ch_inside _ _ _ _ Hch p) as [? ?]; [apply elem_of_app; by right|]. lia.
      + lia. }
  assert (Hend : forall (b : bool) v', vm_at env M (if b then zlen C + 3 else zlen C + 4) [] v' ->
    exists v2, step xm sd env v' = Done BC_OK (Some (if b then 1 else 0)) v2).
  { intros b v' Hv'. set (o := if b then O_RETT else O_RETF).
    rewrite (step_at xm sd env M HM _ _ _ _ _ v' o Hv') by (try done; destruct b; apply Hret; auto).
    destruct b; eexists; reflexivity. }
  assert (Hsim := Hr cdr xm sd env M (zlen C + 3) (zlen C + 4) v HM0 HM
    (Hleft ltac:(unfold in_u, MAX_INSTS in *; simpl; lia)) ltac:(lia) ltac:(lia) Hwt Hi Hv).
  destruct (eval sd env e) as [b| |]; [|done|done].
  destruct Hsim as (v1 & Hst & [[-> Hb]|[[-> Hb]|Hb]]).
  - destruct (Hend true v1 Hb) as [v2 H2]. eauto.
  - destruct (Hend false v1 Hb) as [v2 H2]. eauto.
  - destruct Hbr as (hi & lo' & Hcode & HF).
    destruct (exec_branch xm sd env M HM _ _ _ _ hi lo' Hb Hcode) as (v2 & Hst2 & Hv2); [lia|].
    rewrite HF in Hv2. destruct (Hend b v2 Hv2) as [v3 H3']. exists v2, v3. split; [|done].
    by eapply steps_trans.
Qed.

End FilterRun.

(** ** The compiler *)

Lemma parse_init_ok str ts : Forall nz_byte str -> pok (parse_init str ts).
Proof.
  intros Hs. split; [by repeat split|]. by apply start_scan_ok.
Qed.

(** What an accepted text is compiled to. *)
Lemma filter_parsed xm kt libs fuel ts top str p :
  ts_cdr ts = Some top -> Forall nz_byte str ->
  sql_parse_filter xm kt libs fuel (Some ts) (Some str) = CDone 0 (Some p) ->
  exists e C op, filter_syntax xm kt libs top str e /\ cond_ok C 0 op e /\ p_buffer p = filter_prog C op.
Proof.
  intros Hts Hstr Hp. unfold sql_parse_filter in Hp.
  destruct (filter_body xm kt libs fuel (parse_init str (Some ts))) as [[] d'|d'| |] eqn:Hb; try done.
  destruct (error d' =? 0); [|done]. injection Hp as _ <-.
  pose proof (parse_init_ok str (Some ts) Hstr) as Hi.
  unfold filter_body in Hb. pinv Hb. apply next_token_ok in H as [N0 M0]; [|done].
  destruct (conditions_parsed xm kt libs ts top Hts fuel) as (_ & _ & _ & Hcond).
  assert (Hpc : cur_pc d = 0) by (by rewrite (mv_pc _ _ _ M0)).
  apply Hcond in H0 as (e & op & -> & Hg & Hp1 & Htc & Hpre & Hok); [|apply M0|by rewrite (mv_tc _ _ _ M0)].
  injection H1 as ->. rewrite Hpc in Hok.
  eapply patch_out_ok in H2 as [M2 S2]; [|done|exact Hok].
  apply expect_ok in Hb as (T3 & N3 & M3); [|apply M2].
  eexists e, (code d0), _. split; [|split; [exact Hok|]].
  - exists (scan d), (scan d0). split; [exact N0|]. split; [done|]. by rewrite <- S2.
  - change (p_buffer (emitted d')) with (code d'). by rewrite (mv_code _ _ _ M3), (mv_code _ _ _ M2).
Qed.

(** The text [str] is a query that selects by [e], with or without ORDER BY. *)
Definition query_syntax xm kt libs (top : Type_) (str : list Z) (e : expr) : Prop :=
  exists s s', nt xm kt (sql_start_scan str (scan_init SCAN_BUFSIZE)) s
               /\ g_cond xm kt libs top s e s' /\ (token s' = TK_ORDER \/ token s' = TK_EOL).

(** The query has no condition. *)
Definition query_selects_all xm kt (str : list Z) : Prop :=
  exists s, nt xm kt (sql_start_scan str (scan_init SCAN_BUFSIZE)) s /\ (token s = TK_ORDER \/ token s = TK_EOL).

Lemma query_syntax_fun xm kt libs top str e1 e2 :
  query_syntax xm kt libs top str e1 -> query_syntax xm kt libs top str e2 -> e1 = e2.
Proof.
  intros (s1 & s1' & N1 & G1 & _) (s2 & s2' & N2 & G2 & _).
  pose proof (nt_fun _ _ _ _ _ N1 N2) as ->.
  destruct (grammar_fun xm kt libs top) as (_ & _ & _ & Hc & _). by destruct (Hc _ _ _ G1 _ _ G2).
Qed.

(** After the condition comes ORDER BY or the end. *)
Lemma query_order_token xm kt libs fuel d u d' :
  query_order xm kt libs fuel d = POk u d' -> token (scan d) = TK_ORDER \/ token (scan d) = TK_EOL.
Proof.
  intros H. unfold query_order in H. pinv H. case_decide as E; [by left|]. right.
  pinv H0. unfold expect in H. pinv H. case_decide; [done|]. by apply parse_error_not_ok in H.
Qed.

Lemma query_parsed xm kt libs fuel ts top str p o :
  ts_cdr ts = Some top -> Forall nz_byte str ->
  sql_parse_query xm kt libs fuel (Some ts) (Some str) = QDone 0 (Some p) (Some o) ->
  query_selects_all xm kt str /\ p_buffer p = [] \/
  exists e C op, query_syntax xm kt libs top str e /\ cond_ok C 0 op e /\ p_buffer p = filter_prog C op.
Proof.
  intros Hts Hstr Hp. unfold sql_parse_query in Hp.
  destruct (query_match xm kt libs fuel (parse_init str (Some ts))) as [u dm|dm| |] eqn:Hb; try done.
  destruct (query_order xm kt libs fuel (set_bc [] 0 dm)) as [u' d'|d'| |] eqn:Ho; try done.
  destruct (error dm =? 0); [|done]. destruct (error d' =? 0); [|done].
  injection Hp as _ <- _. apply query_order_token in Ho. simpl in Ho.
  pose proof (parse_init_ok str (Some ts) Hstr) as Hi.
  unfold query_match in Hb. pinv Hb. apply next_token_ok in H as [N0 M0]; [|done].
  assert (Hpc : cur_pc d = 0) by (by rewrite (mv_pc _ _ _ M0)).
  case_if E in Hb.
  - destruct (conditions_parsed xm kt libs ts top Hts fuel) as (_ & _ & _ & Hcond). pinv Hb.
    apply Hcond in H as (e & op & -> & Hg & Hp1 & Htc & Hpre & Hok); [|apply M0|by rewrite (mv_tc _ _ _ M0)].
    injection H0 as ->. rewrite Hpc in Hok.
    eapply patch_out_ok in Hb as [M2 S2]; [|done|exact Hok].
    right. eexists e, (code d0), _. split; [|split; [exact Hok|]].
    + exists (scan d), (scan d0). rewrite S2 in Ho. done.
    + change (p_buffer (emitted dm)) with (code dm). by rewrite (mv_code _ _ _ M2).
  - injection Hb as <-. left. split; [by exists (scan d)|].
    change (p_buffer (emitted d)) with (code d). by rewrite (mv_code _ _ _ M0).
Qed.

(** The state in which the interpreter starts. *)
Lemma vm_init_at (cdr : CdrOffset) xm env M stk cachep :
  0 <= M -> zlen stk = MAX_STACK -> cache_ok env (mjoin cachep) -> vm_at env M 0 [] (vm_init xm env stk cachep).
Proof.
  intros HM Hs Hc. constructor; try done; simpl.
  - lia.
  - destruct cachep as [[c|]|]; simpl in *; [done| |done]. destruct (xm 24); [|done].
    split; [done|]. intros i t Ht. unfold zget in Ht. by destruct (i <? 0).
Qed.

(** The result of a filter. *)
Definition filter_result (r : res bool) (c : option BCCache) : bc_result :=
  match r with
  | Ok b => BcReturn BC_OK (Some (if b then 1 else 0)) c
  | Fail => BcReturn 1 None c
  | Stuck => BcUndef
  end.

Lemma run_done (cdr : CdrOffset) xm sd env v v1 out :
  steps xm sd env v v1 -> step xm sd env v1 = out -> (forall v2, out <> Next v2) ->
  exists k, forall fuel, (k <= fuel)%nat -> run xm sd env fuel v = Some out.
Proof.
  intros Hs Hd Hn. destruct (steps_run _ _ _ _ _ Hs) as [k Hk]. exists (k + 1)%nat. intros fuel Hf.
  replace fuel with (k + S (fuel - k - 1))%nat by lia. rewrite Hk. simpl. rewrite Hd.
  destruct out; [by destruct (Hn v0)|done|done].
Qed.

Lemma filter_interpret (cdr : CdrOffset) xm sd env M C op e stk cachep :
  cond_ok C 0 op e -> p_buffer (program env) = filter_prog C op ->
  ts_prefer (dts env) = MODE_CDR -> 0 <= M -> M + zlen (p_buffer (program env)) <= MAX_INSTS ->
  wt e = true -> expr_in M e -> zlen stk = MAX_STACK -> cache_ok env (mjoin cachep) ->
  exists k c, forall fuel, (k <= fuel)%nat ->
    bc_interpret xm sd env fuel stk cachep = Some (filter_result (eval sd env e) c).
Proof.
  intros Hok Hp Hts HM0 HM Hwt Hi Hst Hc. rewrite Hp in HM.
  pose proof (vm_init_at cdr xm env M stk cachep HM0 Hst Hc) as Hv.
  pose proof (filter_prog_runs C op e Hok cdr xm sd env M _ Hp HM0 HM Hwt Hi Hv) as Hr.
  assert (Hbc : forall fuel out, run xm sd env fuel (vm_init xm env stk cachep) = Some out ->
    bc_interpret xm sd env fuel stk cachep
    = Some (match out with Done rc res v => BcReturn rc res (cache v) | _ => BcUndef end)).
  { intros fuel out Hrun. unfold bc_interpret. rewrite decide_True by done. rewrite Hrun. by destruct out. }
  destruct (eval sd env e) as [b| |].
  - destruct Hr as (v1 & v2 & Hs & Hd). destruct (run_done cdr _ _ _ _ _ _ Hs Hd) as [k Hk]; [done|].
    exists k, (cache v2). intros fuel Hf. by rewrite (Hbc _ _ (Hk fuel Hf)).
  - destruct Hr as (v1 & v2 & Hs & Hd). destruct (run_done cdr _ _ _ _ _ _ Hs Hd) as [k Hk]; [done|].
    exists k, (cache v2). intros fuel Hf. by rewrite (Hbc _ _ (Hk fuel Hf)).
  - destruct Hr as (v1 & Hs & Hd). destruct (run_done cdr _ _ _ _ _ _ Hs Hd) as [k Hk]; [done|].
    exists k, None. intros fuel Hf. by rewrite (Hbc _ _ (Hk fuel Hf)).
Qed.
