(* ===== verification/SqlTerm.v ===== *)
(** Termination of the SQL parser: the recursion and the loops of
    sql/parse.c consume a token in every round, so a recursion depth
    proportional to the length of the text is enough. *)

From S2P Require Import Prelude CLib TypeData Scan ScanProps Bytecode Parse.

(** ** A logic of parser runs *)

(** [m] does not exhaust its fuel from [d], and where it returns [Q]
    holds. *)
Definition wp {A} (m : P A) (d : ParseData) (Q : A -> ParseData -> Prop) : Prop :=
  match m d with POk a d' => Q a d' | PFuel => False | _ => True end.

Lemma pwp_bind {A B} (m : P A) (f : A -> P B) d Q R :
  wp m d Q -> (forall a d', Q a d' -> wp (f a) d' R) -> wp (pbind m f) d R.
Proof.
  unfold wp, pbind. destruct (m d) as [a d'|d'| |]; intros Hm Hf; [|done..]. apply (Hf a d' Hm).
Qed.

Lemma pwp_mono {A} (m : P A) d (Q R : A -> ParseData -> Prop) :
  wp m d Q -> (forall a d', Q a d' -> R a d') -> wp m d R.
Proof. unfold wp. destruct (m d); auto. Qed.

Lemma pwp_ret {A} (a : A) d (Q : A -> ParseData -> Prop) : Q a d -> wp (pret a) d Q.
Proof. done. Qed.

Lemma wp_get {B} (f : ParseData -> P B) d R : wp (f d) d R -> wp (pbind pget f) d R.
Proof. done. Qed.

Lemma wp_tok {B} (f : Token -> P B) d R : wp (f (token (scan d))) d R -> wp (pbind cur_token f) d R.
Proof. done. Qed.

Lemma wp_error {A} e arg d (Q : A -> ParseData -> Prop) : wp (parse_error e arg) d Q.
Proof. unfold wp, parse_error. by destruct (_ && _). Qed.

Lemma wp_acc {A B} (x : option A) (f : A -> P B) d R :
  (forall a, x = Some a -> wp (f a) d R) -> wp (pbind (pacc x) f) d R.
Proof. destruct x; simpl; [intros H; by apply H|done]. Qed.

(** Generators leave the scanner alone. *)
Definition calm {A} (m : P A) : Prop := forall d, wp m d (fun _ d' => scan d' = scan d).

Lemma calm_bind {A B} (m : P A) (f : A -> P B) : calm m -> (forall a, calm (f a)) -> calm (pbind m f).
Proof.
  intros Hm Hf d. eapply pwp_bind; [apply Hm|]. intros a d' Hd'.
  eapply pwp_mono; [apply Hf|]. simpl. congruence.
Qed.

Lemma calm_ret {A} (a : A) : calm (pret a).
Proof. done. Qed.

Lemma calm_error {A} e arg : calm (@parse_error A e arg).
Proof. intros d. apply wp_error. Qed.

Lemma calm_get {B} (f : ParseData -> P B) : (forall a, calm (f a)) -> calm (pbind pget f).
Proof. intros. by apply calm_bind. Qed.

Create HintDb calm.
#[export] Hint Resolve calm_ret calm_error : calm.

Section Calm.
Context (xmalloc_ok : Z -> bool).

Lemma calm_emit c : calm (emit xmalloc_ok c).
Proof.
  intros d. unfold wp, emit. destruct (negb _); [done|]. destruct (_ =? 0).
  - destruct (xmalloc_ok _); [by destruct (zset _ _ _)|]. apply (wp_error _ _ d).
  - by destruct (zset _ _ _).
Qed.

Lemma calm_emit_op o : calm (emit_op xmalloc_ok o).
Proof. apply calm_emit. Qed.

Lemma calm_emit_list l : calm (emit_list xmalloc_ok l).
Proof. induction l; [apply calm_ret|]. apply calm_bind; [apply calm_emit|done]. Qed.

Lemma calm_emits s : calm (emits xmalloc_ok s).
Proof. apply calm_bind; intros; apply calm_emit. Qed.

Lemma calm_emitl s : calm (emitl xmalloc_ok s).
Proof. repeat (apply calm_bind; intros; [apply calm_emit|]). apply calm_emit. Qed.

Lemma calm_set_at_pc ofs x : calm (set_at_pc ofs x).
Proof. intros d. unfold wp, set_at_pc. by destruct (zset _ _ _). Qed.

Lemma calm_get_at_pc ofs : calm (get_at_pc ofs).
Proof. intros d. unfold wp, get_at_pc. by destruct (zget _ _). Qed.

Lemma calm_backpatch l ofs : calm (backpatch l ofs).
Proof.
  induction l; [apply calm_ret|]. do 2 (apply calm_bind; intros; [apply calm_set_at_pc|]). done.
Qed.

Lemma calm_append l ofs : calm (append_patch xmalloc_ok l ofs).
Proof. unfold append_patch. destruct (xmalloc_ok 16); auto with calm. Qed.

Lemma calm_const_int i : calm (const_int xmalloc_ok i).
Proof.
  unfold const_int.
  repeat match goal with |- calm (if ?b then _ else _) => destruct b end;
    repeat (apply calm_bind; intros;
      [first [apply calm_emit | apply calm_emit_op | apply calm_emits | apply calm_emitl]|]);
    apply calm_ret.
Qed.

Lemma calm_const_float f : calm (const_float xmalloc_ok f).
Proof. apply calm_bind; intros; [apply calm_emit_op|apply calm_emit_list]. Qed.

Lemma calm_const_string s : calm (const_string xmalloc_ok s).
Proof. apply calm_bind; intros; [apply calm_emit_op|apply calm_emit_list]. Qed.

Lemma calm_check_types t1 t2 : calm (check_types t1 t2).
Proof. unfold check_types. repeat case_match; auto with calm. Qed.

Lemma calm_type_size t : calm (type_size t).
Proof. unfold type_size. destruct (type_size_opt t); auto with calm. Qed.

Lemma calm_emit_compare t : calm (emit_compare xmalloc_ok t).
Proof. unfold emit_compare. destruct (compare_op t); [apply calm_emit_op|apply calm_error]. Qed.

Lemma calm_shift_loop k ofs : calm (shift_loop k ofs).
Proof.
  induction k; [apply calm_ret|]. apply calm_bind; intros; [apply calm_get_at_pc|].
  apply calm_bind; intros; [apply calm_set_at_pc|done].
Qed.

Lemma calm_ins_before ofs x : calm (ins_before xmalloc_ok ofs x).
Proof.
  apply calm_bind; intros; [apply calm_emit_op|]. apply calm_get; intros.
  apply calm_bind; intros; [apply calm_shift_loop|apply calm_set_at_pc].
Qed.

Lemma calm_set_lpar ofs t : calm (set_lpar ofs t).
Proof.
  apply calm_bind; intros; [|apply calm_set_at_pc]. intros d. by destruct (lpar_type t).
Qed.

Lemma calm_gen_condition c : calm (gen_condition xmalloc_ok c).
Proof. apply calm_bind; intros; [apply calm_emit_op|apply calm_emits]. Qed.

End Calm.

#[export] Hint Resolve calm_emit calm_emit_op calm_emit_list calm_emits calm_emitl calm_set_at_pc
  calm_backpatch calm_append calm_const_int calm_const_float calm_const_string calm_check_types
  calm_type_size calm_emit_compare calm_ins_before calm_set_lpar calm_gen_condition : calm.

Ltac calm_auto := repeat first [solve [auto with calm] | apply calm_bind; intros].

Lemma calm_comp_coerce xm t1 t2 o1 o2 s1 s2 : calm (comp_coerce xm t1 t2 o1 o2 s1 s2).
Proof.
  unfold comp_coerce.
  repeat match goal with |- calm (if ?b then _ else _) => destruct b end;
    calm_auto.
Qed.

Lemma calm_between_coerce xm t1 t2 o1 o2 s1 s2 : calm (between_coerce xm t1 t2 o1 o2 s1 s2).
Proof.
  unfold between_coerce.
  repeat match goal with |- calm (if ?b then _ else _) => destruct b end;
    calm_auto.
Qed.

#[export] Hint Resolve calm_comp_coerce calm_between_coerce : calm.

(** ** Progress *)

(** What is left to parse; nothing at the end token. *)
Definition rank (d : ParseData) : Z :=
  if decide (token (scan d) = TK_EOL) then 0 else inlen (scan d) + 1.

Lemma rank_nonneg d : 0 <= rank d.
Proof. unfold rank. pose proof (inlen_nonneg (scan d)). case_decide; lia. Qed.

Lemma rank_pos d : token (scan d) <> TK_EOL -> 0 < rank d.
Proof. intros. unfold rank. pose proof (inlen_nonneg (scan d)). rewrite decide_False by done. lia. Qed.

Lemma rank_scan d d' : scan d' = scan d -> rank d' = rank d.
Proof. unfold rank. by intros ->. Qed.

Section Progress.
Context (xmalloc_ok : Z -> bool) (kt : KwTable) (libs : TypeLibs).

Lemma wp_calm {A} (m : P A) d (Q : A -> ParseData -> Prop) :
  calm m -> (forall a d', scan d' = scan d -> Q a d') -> wp m d Q.
Proof. intros Hm HQ. eapply pwp_mono; [apply Hm|]. simpl. auto. Qed.

Lemma wp_next d (Q : unit -> ParseData -> Prop) :
  token (scan d) <> TK_EOL -> (forall d', rank d' < rank d -> Q tt d') -> wp (next_token xmalloc_ok kt) d Q.
Proof.
  intros Ht HQ. unfold wp, next_token.
  destruct (sql_next_token xmalloc_ok kt (scan d)) as [s'|] eqn:E; [|done].
  apply HQ. unfold rank at 2. rewrite decide_False by done. unfold rank. simpl.
  pose proof (inlen_nonneg (scan d)).
  destruct (sql_next_token_lt _ _ _ _ E) as [Hs|Hs]; case_decide; try done; lia.
Qed.

Lemma wp_expect t d (Q : unit -> ParseData -> Prop) :
  t <> TK_EOL -> (forall d', token (scan d) = t -> rank d' < rank d -> Q tt d') ->
  wp (expect xmalloc_ok kt t) d Q.
Proof.
  intros Ht HQ. apply wp_tok. case_decide as E; [|apply wp_error].
  apply wp_next; [congruence|]. auto.
Qed.

Lemma wp_bind_calm {A B} (m : P A) (f : A -> P B) d R :
  calm m -> (forall a d', scan d' = scan d -> wp (f a) d' R) -> wp (pbind m f) d R.
Proof. intros Hm Hf. eapply pwp_bind; [apply Hm|]. auto. Qed.

Lemma wp_bind_next {B} (k : P B) d R :
  token (scan d) <> TK_EOL -> (forall d', rank d' < rank d -> wp k d' R) ->
  wp (next_token xmalloc_ok kt ;;; k) d R.
Proof.
  intros Ht Hk. apply (pwp_bind _ _ _ (fun _ d' => rank d' < rank d)); [by apply wp_next|]. auto.
Qed.

Lemma wp_bind_expect {B} t (k : P B) d R :
  t <> TK_EOL -> (forall d', token (scan d) = t -> rank d' < rank d -> wp k d' R) ->
  wp (expect xmalloc_ok kt t ;;; k) d R.
Proof.
  intros Ht Hk. apply (pwp_bind _ _ _ (fun _ d' => token (scan d) = t /\ rank d' < rank d)).
  - by apply wp_expect.
  - intros _ d' []. auto.
Qed.

(** An operand ends at its last token. *)
Lemma wp_identifier_loop fuel t eo d :
  token (scan d) = TK_ID -> rank d < Z.of_nat fuel ->
  wp (identifier_loop xmalloc_ok kt libs fuel t eo) d (fun _ d' =>
    rank d' <= rank d /\ token (scan d') <> TK_EOL).
Proof.
  revert t d; induction fuel as [|fuel IH]; intros t d Ht Hf.
  { pose proof (rank_nonneg d). lia. }
  assert (Hne : token (scan d) <> TK_EOL) by congruence.
  assert (Hend : forall A (a : A) d', scan d' = scan d -> rank d' <= rank d /\ token (scan d') <> TK_EOL).
  { intros A a d' Hs. rewrite (rank_scan _ _ Hs), Hs. split; [lia|done]. }
  cbn [identifier_loop]. apply wp_get. case_if E; [done|].
  destruct (field_lookup _ _ _) as [[f t']|].
  - case_decide.
    + apply wp_bind_calm; [auto with calm|]. intros _ d1 H1.
      apply wp_bind_calm; [auto with calm|]. intros _ d2 H2.
      apply wp_bind_next; [by rewrite H2, H1|]. intros d3 H3.
      apply wp_bind_expect; [done|]. intros d4 T4 H4.
      rewrite (rank_scan d1 d2), (rank_scan d d1) in H3 by done.
      apply wp_tok. case_decide as E4; [|apply pwp_bind with (Q := fun _ _ => True); [done|intros; apply wp_error]].
      eapply pwp_mono; [apply IH; [done|lia]|]. simpl. intros _ d5 [? ?]. split; [lia|done].
    + case_if Eb; [apply wp_error|]. destruct (load_op _); [|apply wp_error].
      apply wp_calm; [calm_auto|]. intros a d' Hs. by apply (Hend _ a).
  - destruct (if eo then _ else _); [|apply wp_error].
    apply wp_calm; [calm_auto|]. intros a d' Hs. by apply (Hend _ a).
Qed.

Lemma wp_id_or_parameter fuel d :
  rank d < Z.of_nat fuel \/ token (scan d) <> TK_ID ->
  wp (id_or_parameter xmalloc_ok kt libs fuel) d (fun _ d' =>
    rank d' <= rank d /\ token (scan d') <> TK_EOL).
Proof.
  intros Hf. apply wp_tok. case_decide as E1; [|case_decide as E2].
  - apply wp_get. apply wp_acc. intros ts Hts. apply wp_acc. intros tcp Htcp.
    apply wp_identifier_loop; [done|]. by destruct Hf.
  - apply wp_calm.
    + unfold parameter. apply calm_get. intros dd. destruct (ptype (scan dd)); calm_auto.
      intros d0. unfold wp, pmod. by case_if Ex.
    + intros _ d' Hs. rewrite (rank_scan _ _ Hs), Hs. split; [lia|congruence].
  - by apply wp_bind_expect.
Qed.

(** The rank after a piece of the parser is at most [r]. *)
Definition within {A} (m : P A) (d : ParseData) (r : Z) : Prop := wp m d (fun _ d' => rank d' <= r).

Lemma within_operand {B} fuel (f : TypeKind -> P B) d r :
  rank d <= r -> rank d < Z.of_nat fuel \/ token (scan d) <> TK_ID ->
  (forall k d', rank d' <= rank d -> token (scan d') <> TK_EOL -> within (f k) d' r) ->
  within (pbind (id_or_parameter xmalloc_ok kt libs fuel) f) d r.
Proof.
  intros Hr Hf Hk. eapply pwp_bind; [by apply wp_id_or_parameter|]. intros k d' []. by apply Hk.
Qed.

Lemma within_calm {A} (m : P A) d r : calm m -> rank d <= r -> within m d r.
Proof. intros Hm Hr. apply wp_calm; [done|]. intros a d' Hs. by rewrite (rank_scan _ _ Hs). Qed.

Lemma within_comp fuel t ofs d :
  token (scan d) <> TK_EOL -> rank d <= Z.of_nat fuel ->
  within (comp_predicate xmalloc_ok kt libs fuel t ofs) d (rank d).
Proof.
  intros Ht Hf. apply wp_tok. apply wp_bind_next; [done|]. intros d1 H1. apply wp_get.
  apply within_operand; [lia|left; lia|]. intros k d2 H2 T2.
  apply wp_bind_next; [done|]. intros d3 H3. apply wp_get. case_if E; [apply pwp_ret; lia|].
  apply within_calm; [|lia].
  do 4 (apply calm_bind; intros; [auto with calm|]).
  apply calm_bind; intros; [repeat case_match; auto with calm|].
  destruct (cmp_cond _); auto with calm.
Qed.

Lemma within_between fuel t ofs d :
  token (scan d) <> TK_EOL -> rank d <= Z.of_nat fuel ->
  within (between_predicate xmalloc_ok kt libs fuel t ofs) d (rank d).
Proof.
  intros Ht Hf. apply wp_tok.
  apply (pwp_bind _ _ _ (fun _ d' => rank d' < rank d)).
  { case_decide; [|by apply wp_next]. apply wp_bind_next; [done|]. intros d1 H1.
    apply wp_expect; [done|]. intros d2 T2 H2. lia. }
  intros _ d1 H1. apply wp_bind_calm; [auto with calm|]. intros ts d2 S2.
  rewrite <- (rank_scan _ _ S2) in H1. apply wp_get.
  apply within_operand; [lia|left; lia|]. intros k d3 H3 T3.
  apply wp_bind_calm; [auto with calm|]. intros _ d4 S4.
  apply wp_bind_calm; [auto with calm|]. intros ts1 d5 S5.
  apply wp_bind_calm; [auto with calm|]. intros t' d6 S6.
  assert (R6 : rank d6 = rank d3) by (apply rank_scan; congruence).
  apply wp_bind_next; [congruence|]. intros d7 H7.
  apply wp_bind_expect; [done|]. intros d8 T8 H8. apply wp_get.
  apply within_operand; [lia|left; lia|]. intros k2 d9 H9 T9.
  apply wp_bind_calm; [auto with calm|]. intros ts2 d10 S10.
  apply wp_bind_calm; [auto with calm|]. intros _ d11 S11.
  assert (R11 : rank d11 = rank d9) by (apply rank_scan; congruence).
  apply wp_bind_next; [congruence|]. intros d12 H12.
  apply within_calm; [|lia].
  apply calm_bind; intros; [repeat case_match; auto with calm|].
  apply calm_bind; intros; [destruct (between_op t'); auto with calm|auto with calm].
Qed.

Lemma within_predicate fuel d :
  rank d < Z.of_nat fuel \/ token (scan d) = TK_EOL -> within (predicate xmalloc_ok kt libs fuel) d (rank d).
Proof.
  intros Hf. apply wp_get. apply within_operand; [lia|destruct Hf; [by left|right; congruence]|].
  intros k d1 H1 T1.
  assert (Hf1 : rank d < Z.of_nat fuel \/ rank d = 0).
  { destruct Hf as [?|E]; [by left|right]. unfold rank. by rewrite decide_True. }
  pose proof (rank_pos d1 T1).
  apply wp_bind_next; [done|]. intros d2 H2. apply wp_tok.
  case_if E1; [|case_if E2].
  - eapply pwp_mono; [apply within_between; [|lia]|simpl; intros; lia].
    intros E. by rewrite E in E1.
  - eapply pwp_mono; [apply within_comp; [|lia]|simpl; intros; lia].
    intros E. by rewrite E in E2.
  - apply wp_bind_expect; [done|]. intros d3 T3 H3. apply pwp_ret. lia.
Qed.

Lemma within_glue (op : DataObject) d (g : DataObject -> P DataObject) :
  g = and_glue xmalloc_ok kt \/ g = or_glue xmalloc_ok kt ->
  token (scan d) <> TK_EOL -> wp (g op) d (fun _ d' => rank d' < rank d).
Proof.
  intros Hg Ht. destruct Hg as [-> | ->]; apply wp_get;
    (apply wp_bind_calm; [auto with calm|]; intros l d1 S1);
    (apply wp_bind_calm; [auto with calm|]; intros _ d2 S2); apply wp_get;
    (apply wp_bind_calm; [auto with calm|]; intros _ d3 S3);
    (assert (R3 : rank d3 = rank d) by (apply rank_scan; congruence));
    (apply wp_bind_next; [congruence|]); intros d4 H4; apply pwp_ret; lia.
Qed.

(** The recursion depth that is enough for what is left. *)
Lemma conditions_within fuel :
  (forall d, 2 * rank d + 1 <= Z.of_nat fuel -> within (factor xmalloc_ok kt libs fuel) d (rank d)) /\
  (forall o d, 2 * rank d + 1 <= Z.of_nat fuel -> within (term_loop xmalloc_ok kt libs fuel o) d (rank d)) /\
  (forall o d, 2 * rank d + 1 <= Z.of_nat fuel -> within (condition_loop xmalloc_ok kt libs fuel o) d (rank d)) /\
  (forall d, 2 * rank d + 2 <= Z.of_nat fuel -> within (condition xmalloc_ok kt libs fuel) d (rank d)).
Proof.
  assert (Hb : forall A B (m : P A) (f : A -> P B) d r1 r, within m d r1 ->
    (forall a d', rank d' <= r1 -> within (f a) d' r) -> within (pbind m f) d r).
  { intros A B m f d r1 r Hm Hf. eapply pwp_bind; [exact Hm|]. auto. }
  assert (Hle : forall A (m : P A) d r, within m d (rank d) -> rank d <= r -> within m d r).
  { intros A m d r Hm Hr. eapply pwp_mono; [exact Hm|]. simpl. intros. lia. }
  induction fuel as [|fuel (IHf & IHt & IHc & IHcond)].
  { split_and!; intros; pose proof (rank_nonneg d); lia. }
  split_and!.
  - intros d Hf. cbn [factor]. apply wp_tok. case_decide as E1; [|case_decide as E2].
    + apply wp_bind_next; [congruence|]. intros d1 H1.
      eapply Hb; [apply IHf; lia|]. intros o d2 H2. apply wp_acc. intros op _. apply pwp_ret. lia.
    + apply wp_bind_next; [congruence|]. intros d1 H1.
      eapply Hb; [apply IHcond; lia|]. intros o d2 H2. apply wp_bind_expect; [done|].
      intros d3 T3 H3. apply pwp_ret. lia.
    + apply within_predicate. destruct (decide (token (scan d) = TK_EOL)) as [?|Hne]; [by right|left].
      pose proof (rank_pos d Hne). lia.
  - intros o d Hf. cbn [term_loop]. apply wp_tok. case_decide as E1; [|by apply pwp_ret].
    apply wp_acc. intros op _. eapply pwp_bind; [apply within_glue; [by left|congruence]|].
    intros op1 d1 H1. cbv beta in H1. eapply Hb; [apply IHf; lia|]. intros n d2 H2. apply wp_acc. intros np _.
    apply Hle; [apply IHt|]; lia.
  - intros o d Hf. cbn [condition_loop]. apply wp_tok. case_decide as E1; [|by apply pwp_ret].
    apply wp_acc. intros op _. eapply pwp_bind; [apply within_glue; [by right|congruence]|].
    intros op1 d1 H1. cbv beta in H1. eapply Hb; [apply IHf; lia|]. intros n d2 H2.
    eapply Hb; [apply Hle; [apply IHt; lia|exact H2]|]. intros n2 d3 H3. apply wp_acc. intros np _.
    apply Hle; [apply IHc|]; lia.
  - intros d Hf. cbn [condition]. eapply Hb; [apply IHf; lia|]. intros o d1 H1.
    eapply Hb; [apply Hle; [apply IHt; lia|exact H1]|]. intros o2 d2 H2.
    apply Hle; [apply IHc|]; lia.
Qed.

Lemma within_patch_out op d : within (patch_out xmalloc_ok op) d (rank d).
Proof.
  apply within_calm; [|lia]. apply calm_get; intros. apply calm_bind; intros; [auto with calm|].
  apply calm_bind; intros; [auto with calm|]. apply calm_get; intros.
  do 2 (apply calm_bind; intros; [auto with calm|]). apply calm_get; intros. calm_auto.
Qed.

Lemma parse_init_rank s ts : inlen (scan (parse_init s ts)) <= zlen s.
Proof.
  unfold inlen, parse_init. destruct s as [|c s]; simpl; [done|]. rewrite zlen_cons. destruct (c =? 0); lia.
Qed.

Lemma next_rank d : wp (next_token xmalloc_ok kt) d (fun _ d' => rank d' <= inlen (scan d)).
Proof.
  unfold wp, next_token. destruct (sql_next_token xmalloc_ok kt (scan d)) as [s'|] eqn:E; [|done].
  unfold rank. simpl. pose proof (inlen_nonneg (scan d)). case_decide; [done|].
  destruct (sql_next_token_lt _ _ _ _ E); [done|lia].
Qed.

Lemma filter_body_fuel fuel s ts :
  2 * zlen s + 2 <= Z.of_nat fuel ->
  wp (filter_body xmalloc_ok kt libs fuel) (parse_init s ts) (fun _ _ => True).
Proof.
  intros Hf. eapply pwp_bind; [apply next_rank|]. intros u1 d1 H1. cbv beta in H1.
  pose proof (parse_init_rank s ts). destruct (conditions_within fuel) as (_ & _ & _ & Hc).
  eapply pwp_bind; [apply Hc; lia|]. intros o d2 H2. apply wp_acc. intros op _.
  eapply pwp_bind; [apply within_patch_out|]. intros u3 d3 H3.
  apply wp_tok. case_decide; [|apply wp_error]. unfold wp, next_token. by destruct (sql_next_token _ _ _).
Qed.

(** *** Query expressions *)

Lemma within_order_key fuel d :
  token (scan d) = TK_ID -> rank d < Z.of_nat fuel ->
  within (order_key xmalloc_ok kt libs fuel) d (rank d).
Proof.
  intros Ht Hf. apply wp_bind_calm; [auto with calm|]. intros _ d1 S1. apply wp_get.
  assert (R1 : rank d1 = rank d) by (by apply rank_scan).
  apply (pwp_bind _ _ _ (fun _ d' => rank d' <= rank d1)).
  { apply wp_get. apply wp_acc. intros ts _. apply wp_acc. intros tcp _.
    eapply pwp_mono; [apply wp_identifier_loop; [congruence|lia]|]. by intros ? ? []. }
  intros k d2 H2. apply wp_bind_expect; [done|]. intros d3 T3 H3. apply wp_get.
  apply within_calm; [|lia]. calm_auto.
Qed.

Lemma within_order_loop fuel d :
  rank d < Z.of_nat fuel -> within (order_loop xmalloc_ok kt libs fuel) d (rank d).
Proof.
  revert d; induction fuel as [|fuel IH]; intros d Hf; [pose proof (rank_nonneg d); lia|].
  cbn [order_loop]. apply wp_tok. case_decide as E; [|by apply pwp_ret].
  apply wp_bind_calm; [auto with calm|]. intros _ d1 S1.
  assert (R1 : rank d1 = rank d) by (by apply rank_scan).
  apply wp_bind_next; [congruence|]. intros d2 H2. apply wp_tok.
  case_decide as E2; [|done].
  eapply pwp_bind; [apply within_order_key; [done|lia]|]. intros u3 d3 H3. cbv beta in H3.
  eapply pwp_mono; [apply IH; lia|]. simpl. intros. lia.
Qed.

Lemma query_match_fuel fuel s ts :
  2 * zlen s + 2 <= Z.of_nat fuel ->
  within (query_match xmalloc_ok kt libs fuel) (parse_init s ts) (zlen s).
Proof.
  intros Hf. eapply pwp_bind; [apply next_rank|]. intros u1 d1 H1. cbv beta in H1.
  pose proof (parse_init_rank s ts). destruct (conditions_within fuel) as (_ & _ & _ & Hc).
  apply wp_tok. case_if E; [|apply pwp_ret; lia].
  eapply pwp_bind; [apply Hc; lia|]. intros o d2 H2. apply wp_acc. intros op _.
  eapply pwp_mono; [apply within_patch_out|]. simpl in *. intros. lia.
Qed.

Lemma query_order_fuel fuel d :
  rank d < Z.of_nat fuel -> wp (query_order xmalloc_ok kt libs fuel) d (fun _ _ => True).
Proof.
  intros Hf. apply wp_tok. apply (pwp_bind _ _ _ (fun _ _ => True)).
  - case_decide as E; [|done]. apply wp_bind_next; [congruence|]. intros d1 H1.
    apply wp_bind_expect; [done|]. intros d2 T2 H2. apply wp_tok. case_decide as E2; [|apply wp_error].
    eapply pwp_bind; [apply within_order_key; [done|lia]|]. intros u3 d3 H3. cbv beta in H3.
    eapply pwp_bind; [apply within_order_loop; lia|]. intros u4 d4 H4.
    apply wp_calm; [auto with calm|done].
  - intros _ d' _. apply wp_tok. case_decide; [|apply wp_error].
    unfold wp, next_token. by destruct (sql_next_token _ _ _).
Qed.

(** *** Topic expressions *)

Lemma within_field_spec d : within (subject_field_spec xmalloc_ok kt) d (rank d).
Proof.
  apply wp_bind_expect; [done|]. intros d1 T1 H1. apply wp_tok. case_decide as E1; [|case_decide as E2].
  - apply wp_bind_next; [congruence|]. intros d2 H2. apply wp_expect; [done|]. intros. lia.
  - apply wp_next; [congruence|]. intros. lia.
  - apply pwp_ret. lia.
Qed.

Lemma within_aggregation_loop fuel d :
  rank d < Z.of_nat fuel -> within (aggregation_loop xmalloc_ok kt fuel) d (rank d).
Proof.
  revert d; induction fuel as [|fuel IH]; intros d Hf; [pose proof (rank_nonneg d); lia|].
  cbn [aggregation_loop]. apply wp_tok. case_decide as E; [|by apply pwp_ret].
  apply wp_bind_next; [congruence|]. intros d1 H1.
  eapply pwp_bind; [apply within_field_spec|]. intros u2 d2 H2. cbv beta in H2.
  eapply pwp_mono; [apply IH; lia|]. simpl. intros. lia.
Qed.

Lemma within_natural_join d : within (natural_join xmalloc_ok kt) d (rank d).
Proof.
  apply wp_tok. apply (pwp_bind _ _ _ (fun _ d' => rank d' <= rank d)).
  - case_decide as E.
    + apply wp_bind_next; [congruence|]. intros d1 H1. apply wp_expect; [done|]. intros. lia.
    + apply wp_bind_expect; [done|]. intros d1 T1 H1. apply wp_tok. case_decide as E1.
      * apply wp_next; [congruence|]. intros. lia.
      * apply pwp_ret. lia.
  - intros _ d1 H1. apply wp_expect; [done|]. intros. lia.
Qed.

End Progress.
