(* ===== verification/SqlVmInv.v ===== *)
(** The interpreter on arbitrary bytecode: whatever the program, the loop
    never stores outside its static stack, and the parameter cache it leaves
    behind agrees with the parameters, so that it can be handed to the next
    evaluation. *)

From S2P Require Import Prelude CLib TypeData NMatch Bytecode SqlVm.

Lemma be_val_nonneg bs : Forall byte_ok bs -> 0 <= be_val bs.
Proof.
  assert (H : forall a, 0 <= a -> Forall byte_ok bs -> 0 <= fold_left (fun a b => a * 256 + b) bs a).
  { induction bs as [|b bs IH]; intros a Ha Hb; simpl; [done|]. inversion Hb; subst.
    apply IH; [unfold byte_ok in *; lia|done]. }
  by apply H.
Qed.

Lemma cache_coherent_nil env : cache_coherent env (mkBCCache [] []).
Proof. split; [done|]. intros i t Ht. unfold zget in Ht. by destruct (i <? 0). Qed.

Section Invariant.
Context `{CdrOffset}.
Context (xmalloc_ok : Z -> bool) (strdup_ok : list Z -> bool) (env : Env).

Record vm_inv (v : Vm) : Prop := mkVmInv {
  inv_stack : zlen (stack v) = MAX_STACK;
  inv_tos : 0 <= tos v <= MAX_STACK;
  inv_cache : cache_ok env (cache v)
}.

(** What an outcome that leaves the interpreter in [v] has to satisfy. *)
Definition out_inv (o : outcome) : Prop :=
  match o with Next v | Done _ _ v => vm_inv v | Undef => True end.

Lemma out_inv_bind {A} (x : option A) f :
  (forall a, x = Some a -> out_inv (f a)) -> out_inv (obind x f).
Proof. destruct x; simpl; auto. Qed.

Lemma out_inv_if (b : bool) x y : out_inv x -> out_inv y -> out_inv (if b then x else y).
Proof. by destruct b. Qed.

Lemma out_inv_done rc r v : vm_inv v -> out_inv (Done rc r v).
Proof. done. Qed.

Lemma out_inv_next v : vm_inv v -> out_inv (Next v).
Proof. done. Qed.

(** Changes of the other variables. *)
Lemma inv_set_pc x v : vm_inv v -> vm_inv (set_pc x v).
Proof. by intros []. Qed.
Lemma inv_set_n x v : vm_inv v -> vm_inv (set_n x v).
Proof. by intros []. Qed.
Lemma inv_set_r x v : vm_inv v -> vm_inv (set_r x v).
Proof. by intros []. Qed.
Lemma inv_set_cont a b c d v : vm_inv v -> vm_inv (set_cont a b c d v).
Proof. by intros []. Qed.
Lemma inv_set_cache c v : vm_inv v -> cache_ok env c -> vm_inv (set_cache c v).
Proof. by intros []. Qed.
Lemma inv_creset v : vm_inv v -> vm_inv (creset env v).
Proof. unfold creset. destruct (_ =? 0); [done|]. apply inv_set_cont. Qed.

Lemma inv_push e v v' : vm_inv v -> push e v = Some v' -> vm_inv v'.
Proof.
  intros [Hs Ht Hc] Hp. unfold push in Hp. simplify_option_eq.
  destruct (zset_inv _ _ _ _ Heqo) as [Hr _]. rewrite Hs in Hr.
  constructor; simpl; [by rewrite (zlen_zset _ _ _ _ Heqo)|lia|done].
Qed.

(** A store at a cell below the new top. *)
Lemma inv_replace v i e s t :
  vm_inv v -> zset (stack v) i e = Some s -> 0 <= t <= MAX_STACK -> vm_inv (set_stack t s v).
Proof.
  intros [Hs Ht Hc] Hz Hi. constructor; simpl; [by rewrite (zlen_zset _ _ _ _ Hz)|done|done].
Qed.

Lemma inv_drop v i e t :
  vm_inv v -> cell v i = Some e -> t = i -> vm_inv (set_stack t (stack v) v).
Proof.
  intros [Hs Ht Hc] Hi ->. apply zget_Some in Hi. rewrite Hs in Hi.
  constructor; simpl; [done|lia|done].
Qed.

Create HintDb vminv.
Hint Resolve inv_set_pc inv_set_n inv_set_r inv_set_cont inv_creset
  out_inv_done out_inv_next : vminv.

Lemma inv_step_lc o v : vm_inv v -> out_inv (step_lc env o v).
Proof.
  intros Hv. destruct o; try done; cbn [step_lc]; apply out_inv_bind; intros ? _;
    apply out_inv_bind; intros v' Hp; apply (inv_push _ _ _ Hv) in Hp; auto with vminv.
Qed.

Lemma inv_load align string rd v : vm_inv v -> out_inv (load env align string rd v).
Proof.
  intros Hv. apply out_inv_bind. intros bs _. apply out_inv_bind. intros [mem|] _; [|auto with vminv].
  apply out_inv_bind. intros e _. apply out_inv_bind. intros v' Hp.
  apply inv_push in Hp; auto with vminv.
Qed.

Lemma inv_step_ld o v : vm_inv v -> out_inv (step_ld env o v).
Proof. intros Hv. destruct o; try done; by apply inv_load. Qed.

Lemma fetch_nonneg v k bs :
  Forall byte_ok (p_buffer (program env)) -> fetch env v k = Some bs -> 0 <= be_val bs.
Proof.
  intros Hb Hf. unfold fetch, zslice in Hf. case_if E in Hf; [|done]. simplify_eq.
  apply be_val_nonneg. by apply Forall_take, Forall_drop.
Qed.

Lemma inv_load_par t v :
  vm_inv v -> t <> T_STRING -> Forall byte_ok (p_buffer (program env)) ->
  out_inv (load_par xmalloc_ok env t (par_elem t) v).
Proof.
  intros Hv Ht Hb. unfold load_par. apply out_inv_bind. intros bs Hf. cbv zeta.
  destruct (_ !! _) as [sp|] eqn:Hs; [|auto with vminv].
  match goal with |- context [match ?h with Some _ => _ | None => _ end] => destruct h as [e|] end;
    apply out_inv_bind; intros v' Hp; apply inv_push in Hp as Hv'; auto with vminv.
  apply inv_set_cache; [done|]. apply cache_add_ok; [apply Hv'| |done]. by eapply fetch_nonneg.
Qed.

Lemma inv_step_lp o v :
  Forall byte_ok (p_buffer (program env)) -> vm_inv v -> out_inv (step_lp xmalloc_ok env o v).
Proof.
  intros Hb Hv. destruct o; try done; cbn [step_lp];
    try (by apply (inv_load_par T_INT32)); try (by apply (inv_load_par T_INT64));
    try (by apply (inv_load_par T_DOUBLE)); try (by apply (inv_load_par T_LDOUBLE)).
  apply out_inv_bind. intros bs _. cbv zeta. destruct (_ !! _); [|auto with vminv].
  apply out_inv_bind. intros v' Hp. apply inv_push in Hp; auto with vminv.
Qed.

Lemma inv_pop_d v k :
  vm_inv v -> (forall b v', vm_inv v' -> out_inv (k b v')) -> out_inv (pop_d v k).
Proof.
  intros Hv Hk. apply out_inv_bind. intros e He. apply out_inv_bind. intros d _.
  apply Hk. by eapply inv_drop.
Qed.

Lemma inv_branch b v : vm_inv v -> out_inv (branch env b v).
Proof. intros Hv. apply out_inv_if; [apply out_inv_bind; intros|]; auto with vminv. Qed.

Lemma inv_step_br o v : vm_inv v -> out_inv (step_br env o v).
Proof.
  intros Hv. destruct o; try done; try (by apply inv_branch); apply inv_pop_d; auto using inv_branch.
Qed.

Lemma inv_step_cmp o v : vm_inv v -> out_inv (step_cmp o v).
Proof.
  intros Hv. apply out_inv_bind. intros a Ha. do 2 (apply out_inv_bind; intros ? _).
  apply inv_set_r. by eapply inv_drop.
Qed.

Lemma inv_step_btw o v : vm_inv v -> out_inv (step_btw o v).
Proof.
  intros Hv. apply out_inv_bind. intros a _. apply out_inv_bind. intros b Hb.
  do 2 (apply out_inv_bind; intros ? _). apply out_inv_bind. intros s Hs.
  apply zget_Some in Hb. rewrite (inv_stack _ Hv) in Hb. eapply inv_replace; [done..|lia].
Qed.

Lemma inv_step_like v : vm_inv v -> out_inv (step_like strdup_ok v).
Proof.
  intros Hv. apply out_inv_bind. intros a Ha. do 3 (apply out_inv_bind; intros ? _).
  apply out_inv_bind. intros s Hs. apply zget_Some in Ha. rewrite (inv_stack _ Hv) in Ha.
  eapply inv_replace; [done..|lia].
Qed.

Lemma inv_step_conv o v : vm_inv v -> out_inv (step_conv o v).
Proof.
  intros Hv. do 2 (apply out_inv_bind; intros ? _). apply out_inv_bind. intros s Hs.
  eapply inv_replace; [done..|apply Hv].
Qed.

Lemma inv_step_misc o v : vm_inv v -> out_inv (step_misc env o v).
Proof.
  intros Hv. destruct o; try done; cbn [step_misc]; auto with vminv;
    apply out_inv_bind; intros ? _; cbv zeta.
  - apply out_inv_bind. intros [[rc t] ofs] _. apply out_inv_if; auto with vminv.
  - apply out_inv_if; auto 6 with vminv.
Qed.

Lemma inv_step_ret o v : vm_inv v -> out_inv (step_ret o v).
Proof.
  intros Hv. destruct o; try done; cbn [step_ret];
    try (apply inv_pop_d; [done|]; intros; apply out_inv_if; auto with vminv).
  - apply out_inv_bind. intros e He. apply out_inv_bind. intros i _.
    apply out_inv_done. by eapply inv_drop.
  - apply out_inv_if; auto with vminv.
Qed.

Lemma inv_step_op o v :
  Forall byte_ok (p_buffer (program env)) -> vm_inv v -> out_inv (step_op xmalloc_ok strdup_ok env o v).
Proof.
  intros Hb Hv. destruct o; cbn [step_op];
    first [ by apply inv_step_lc | by apply inv_step_ld | by apply inv_step_lp | by apply inv_step_cmp
          | by apply inv_step_btw | by apply inv_step_like | by apply inv_step_br
          | by apply inv_step_conv | by apply inv_step_misc | by apply inv_step_ret | auto with vminv ].
Qed.

(** Every round of the loop keeps the invariant. *)
Lemma inv_step v :
  Forall byte_ok (p_buffer (program env)) -> vm_inv v -> out_inv (step xmalloc_ok strdup_ok env v).
Proof.
  intros Hb Hv. unfold step. do 2 (apply out_inv_if; [auto with vminv|]).
  destruct (zget _ _) as [inst|]; [|auto with vminv]. cbv zeta.
  match goal with |- out_inv (match ?out with Next _ => _ | _ => _ end) =>
    assert (Ho : out_inv out); [|destruct out; simpl in *; auto with vminv] end.
  apply out_inv_if.
  - apply out_inv_bind. intros v' Hp. apply inv_push in Hp; auto with vminv.
  - destruct (op_of_byte inst); [apply inv_step_op|]; auto with vminv.
Qed.

Lemma inv_run fuel v out :
  Forall byte_ok (p_buffer (program env)) -> vm_inv v ->
  run xmalloc_ok strdup_ok env fuel v = Some out -> out_inv out.
Proof.
  intros Hb. revert v; induction fuel as [|fuel IH]; intros v Hv Hr; [done|]. cbn [run] in Hr.
  pose proof (inv_step v Hb Hv) as Hs. destruct (step _ _ _ v) as [v'| |]; simplify_eq; eauto.
Qed.

Lemma inv_steps v v' :
  Forall byte_ok (p_buffer (program env)) -> vm_inv v -> steps xmalloc_ok strdup_ok env v v' -> vm_inv v'.
Proof.
  intros Hb Hv Hs. induction Hs as [|v v1 v2 H1 _ IH]; [done|]. apply IH.
  pose proof (inv_step v Hb Hv) as Hi. by rewrite H1 in Hi.
Qed.

Lemma inv_init stk cachep :
  zlen stk = MAX_STACK -> cache_ok env (mjoin cachep) -> vm_inv (vm_init xmalloc_ok env stk cachep).
Proof.
  intros Hs Hc. constructor; simpl; [done|unfold MAX_STACK; lia|].
  destruct cachep as [[c|]|]; simpl in *; [done| |done]. destruct (xmalloc_ok 24); [|done].
  by apply cache_coherent_nil.
Qed.

(** The cache an evaluation leaves can be used by the next one. *)
Lemma interpret_cache fuel stk cachep rc res c :
  Forall byte_ok (p_buffer (program env)) -> zlen stk = MAX_STACK -> cache_ok env (mjoin cachep) ->
  bc_interpret xmalloc_ok strdup_ok env fuel stk cachep = Some (BcReturn rc res c) -> cache_ok env c.
Proof.
  intros Hb Hs Hc Hi. unfold bc_interpret in Hi. case_decide; [|by simplify_eq].
  destruct (run _ _ _ _ _) as [[v|rc' r v|]|] eqn:Hr; simplify_eq.
  by eapply inv_run in Hr as []; [|done|by apply inv_init].
Qed.

End Invariant.
