(* ===== verification/Samples.v ===== *)
(** A concrete type, its samples and filters over them, for the witnesses. *)

From Stdlib Require Import String.
From S2P Require Import Prelude CLib TypeData NMatch Scan ScanProps Bytecode Parse SqlSem.

Definition prim (k : TypeKind) : Type_ := mkType k 0 [] [].

(** struct Inner { short i16; unsigned long u32; } *)
Definition inner : Type_ :=
  mkType DDS_STRUCTURE_TYPE 0 [mkMember (lit "i16") 8 0; mkMember (lit "u32") 9 4] [].

(** struct Top { long x; double d; Inner simple; Obj obj; long long big; string name; } *)
Definition top : Type_ :=
  mkType DDS_STRUCTURE_TYPE 0
    [mkMember (lit "x") 1 0; mkMember (lit "d") 2 8; mkMember (lit "simple") 4 16;
     mkMember (lit "obj") 6 24; mkMember (lit "big") 7 32; mkMember (lit "name") 3 40] [].

(** enum Obj { bike } *)
Definition obj : Type_ := mkType DDS_ENUMERATION_TYPE 0 [] [mkEnumConst 0 (lit "bike")].

Definition libs0 : TypeLibs :=
  [Some [None; Some (prim DDS_INT_32_TYPE); Some (prim DDS_FLOAT_64_TYPE);
         Some (prim DDS_STRING_TYPE); Some inner; Some top; Some obj;
         Some (prim DDS_INT_64_TYPE); Some (prim DDS_INT_16_TYPE); Some (prim DDS_UINT_32_TYPE)]].

Definition ts0 : TypeSupport := mkTypeSupport MODE_CDR (Some top).

(** An allocator that grants everything. *)
Definition grant (_ : Z) : bool := true.
Definition grant_dup (_ : list Z) : bool := true.

(** Samples without a CDR prefix do not use the CDR codec. *)
#[global] Instance no_cdr : CdrOffset := fun _ _ _ _ _ _ => None.

Definition sample (x d i16 u32 obj big : Z) (name : list Z) : DBW :=
  let b := le_bytes 8 x ++ le_bytes 8 d ++ le_bytes 4 i16 ++ le_bytes 4 u32
           ++ le_bytes 8 obj ++ le_bytes 8 big ++ name ++ [0] in
  mkDBW [b] b (zlen b) (zlen b).

Definition bike : DBW := sample 101 (strtod (lit "2.5")) (-3) 7 0 0 (lit "hello").

(** The compiler and the interpreter on a text, a sample and parameters. *)
Definition comp (s : list Z) : compile_res :=
  sql_parse_filter grant kw_table libs0 100 (Some ts0) (Some s).

Definition env_of (p : BCProgram) (w : DBW) (ps : list (list Z)) : Env :=
  mkEnv p (Some ps) (Some w) None false ts0 libs0.

Definition stk0 : list Element := replicate 32 (EBits 16 0).

Definition eval_filter (s : list Z) (w : DBW) (ps : list (list Z)) : option bc_result :=
  match comp s with
  | CDone 0 (Some p) => bc_interpret grant grant_dup (env_of p w ps) 1000 stk0 None
  | _ => None
  end.

(** A filter, its program and its meaning. *)
Definition text1 : list Z := lit "x > 100 AND NOT simple.i16 >= %0".

Definition prog1 : BCProgram :=
  Eval vm_compute in match comp text1 with CDone 0 (Some p) => p | _ => mkBCProgram [] 0 end.

Definition expr1 : expr :=
  EAnd (EComp TK_GT (OpField [] 0 DDS_INT_32_TYPE) (OpInt 100))
       (ENot (EComp TK_GE (OpField [2] 0 DDS_INT_16_TYPE) (OpPar 0))).

Lemma comp1 :
  sql_parse_filter grant kw_table libs0 100 (Some ts0) (Some text1) = CDone 0 (Some prog1).
Proof. vm_compute. reflexivity. Qed.

(** Run the scanner, or decide a closed condition. *)
Ltac gstep := lazymatch goal with
  | |- nt ?xm ?kt ?s _ =>
      let r := eval vm_compute in (sql_next_token xm kt s) in
      lazymatch r with Some ?s' => exact (eq_refl (Some s') <: sql_next_token xm kt s = Some s') end
  | |- field_lookup ?l ?t ?i = _ =>
      let r := eval vm_compute in (field_lookup l t i) in
      exact (eq_refl r <: field_lookup l t i = r)
  | |- _ <> _ => vm_compute; discriminate
  | |- _ => vm_compute; reflexivity
  end.

Lemma syntax_eq e e' :
  filter_syntax grant kw_table libs0 top text1 e -> e = e' ->
  filter_syntax grant kw_table libs0 top text1 e'.
Proof. by intros ? <-. Qed.

Lemma syntax1 : filter_syntax grant kw_table libs0 top text1 expr1.
Proof.
  eapply syntax_eq.
  - eexists _, _. split; [gstep|]. split.
    + eapply g_cond_intro; [eapply g_term_intro|].
      * eapply g_fpred, g_comp; [eapply g_op_field; [|eapply g_leaf]|..|eapply g_op_int|]; gstep.
      * eapply g_terms_and; [gstep|gstep| |].
        -- eapply g_not; [gstep|gstep|].
           eapply g_fpred, g_comp.
           ++ eapply g_op_field; [gstep|].
              eapply g_nested; [gstep|gstep|gstep|gstep|gstep|gstep|eapply g_leaf; gstep].
           ++ gstep.
           ++ gstep.
           ++ gstep.
           ++ eapply g_op_par; gstep.
           ++ gstep.
        -- eapply g_terms_stop; gstep.
      * eapply g_conds_stop; gstep.
    + gstep.
  - gstep.
Qed.
