(* ===== verification/SqlTheorems.v ===== *)
(** What the SQL content-filter engine guarantees: the theorems about its
    scanner, its compiler and its interpreter, with concrete instances. *)

From Stdlib Require Import String.
From S2P Require Import Prelude CLib TypeData NMatch Scan ScanProps Bytecode Parse.
From S2P Require Import SqlSem SqlGrammar SqlCode SqlParse SqlVm SqlCompile SqlTerm SqlVmInv Samples.

(** ** Filters *)

(** C1. A filter text that [sql_parse_filter] accepts, and that the grammar
    reads as the well-typed expression [e], is compiled to a program that
    [bc_interpret] runs to the value of [e] on the sample and the parameters:
    1 or 0 for a truth value, an error where the evaluation fails. *)
Theorem filter_correct (cdr : CdrOffset) xm sd kt libs fuel ts top str p e env M stk cachep :
  ts_cdr ts = Some top -> Forall nz_byte str ->
  sql_parse_filter xm kt libs fuel (Some ts) (Some str) = CDone 0 (Some p) ->
  filter_syntax xm kt libs top str e -> wt e = true ->
  program env = p -> ts_prefer (dts env) = MODE_CDR ->
  0 <= M -> expr_in M e -> M + zlen (p_buffer p) <= MAX_INSTS ->
  zlen stk = MAX_STACK -> cache_ok env (mjoin cachep) ->
  exists k c, forall fuel', (k <= fuel')%nat ->
    bc_interpret xm sd env fuel' stk cachep = Some (filter_result (eval sd env e) c).
Proof.
  intros Hts Hs Hp Hsyn Hwt <- Hm HM0 Hi HM Hst Hc.
  destruct (filter_parsed _ _ _ _ _ _ _ _ Hts Hs Hp) as (e' & C & op & Hsyn' & Hok & Hb).
  rewrite <- (filter_syntax_fun _ _ _ _ _ _ _ Hsyn Hsyn') in Hok.
  by eapply filter_interpret.
Qed.

Lemma filter_correct_witness :
  exists k c, forall fuel, (k <= fuel)%nat ->
    bc_interpret grant grant_dup (env_of prog1 bike [lit "5"]) fuel stk0 None
    = Some (BcReturn BC_OK (Some 1) c).
Proof.
  assert (Hv : eval grant_dup (env_of prog1 bike [lit "5"]) expr1 = Ok true) by (vm_compute; reflexivity).
  change (BcReturn BC_OK (Some 1)) with (filter_result (Ok true)). rewrite <- Hv.
  apply (filter_correct no_cdr grant grant_dup kw_table libs0 100 ts0 top text1 prog1 expr1 _ 3);
    [ reflexivity | apply (bool_decide_unpack _); vm_compute; exact I | exact comp1 | exact syntax1
    | reflexivity | reflexivity | reflexivity | lia
    | cbn; repeat split; try lia; repeat constructor; lia | vm_compute; discriminate
    | reflexivity | exact I ].
Defined.

(** C7. Every text that [sql_parse_filter] accepts is a filter expression of
    the grammar of [SqlSem], and of exactly one: AND binds tighter than OR,
    both associate to the left, NOT applies to the factor that follows it.
    That grammar is wider than sql.g: any two operands may be compared, also
    two values, and the operand and the bounds of a BETWEEN may be any.  The
    text is a sentence of sql.g exactly when every predicate of its
    expression has one of the forms of sql.g. *)
Theorem filter_accepts_grammar xm kt libs fuel ts top str p :
  ts_cdr ts = Some top -> Forall nz_byte str ->
  sql_parse_filter xm kt libs fuel (Some ts) (Some str) = CDone 0 (Some p) ->
  exists e, filter_syntax xm kt libs top str e /\
    (forall e', filter_syntax xm kt libs top str e' -> e' = e) /\
    (forall e', sql_g xm kt libs top str e' <-> e' = e /\ documented e = true).
Proof.
  intros Hts Hs Hp. destruct (filter_parsed _ _ _ _ _ _ _ _ Hts Hs Hp) as (e & C & op & He & _).
  assert (Hu : forall e', filter_syntax xm kt libs top str e' -> e' = e) by (intros e' He'; by eapply filter_syntax_fun).
  exists e. split; [done|]. split; [done|]. intros e'. rewrite sql_g_iff. split.
  - intros [H1 H2]. by rewrite <- (Hu e' H1).
  - intros [-> H2]. done.
Qed.

Lemma filter_accepts_grammar_witness :
  exists e, filter_syntax grant kw_table libs0 top text1 e /\
    (forall e', filter_syntax grant kw_table libs0 top text1 e' -> e' = e) /\
    (forall e', sql_g grant kw_table libs0 top text1 e' <-> e' = e /\ documented e = true).
Proof.
  apply (filter_accepts_grammar grant kw_table libs0 100 ts0 top text1 prog1).
  - reflexivity.
  - apply (bool_decide_unpack _). vm_compute. exact I.
  - exact comp1.
Defined.

(** A comparison of two constants, which sql.g does not have, is accepted. *)
Example two_constants_accepted :
  (match sql_parse_filter grant kw_table libs0 100 (Some ts0) (Some (lit "1 = %5")) with CDone 0 (Some _) => true | _ => false end) = true
  /\ documented (EComp TK_EQ (OpInt 1) (OpPar 5)) = false.
Proof. split; vm_compute; reflexivity. Qed.

(** C21. [sql_parse_filter] terminates on every text: a recursion depth of
    twice the length of the text is enough, whatever the type, the keywords
    and the allocator. *)
Theorem filter_terminates xm kt libs fuel ts str :
  2 * zlen str + 2 <= Z.of_nat fuel -> sql_parse_filter xm kt libs fuel ts (Some str) <> CFuel.
Proof.
  intros Hf. unfold sql_parse_filter. destruct ts as [ts|]; [|done].
  pose proof (filter_body_fuel xm kt libs fuel str (Some ts) Hf) as Hw. unfold wp in Hw.
  by destruct (filter_body _ _ _ _ _).
Qed.

Lemma filter_terminates_witness :
  sql_parse_filter grant kw_table libs0 100 (Some ts0) (Some (lit "NOT (((x = 1")) <> CFuel.
Proof. apply (filter_terminates grant kw_table libs0 100). vm_compute. discriminate. Defined.

(** [sql_parse_query] terminates on every text, with the recursion depth
    that is enough for a filter; undefined behaviour is an outcome of its own
    ([QUndef]). *)
Theorem query_terminates xm kt libs fuel ts str :
  2 * zlen str + 2 <= Z.of_nat fuel -> sql_parse_query xm kt libs fuel ts (Some str) <> QFuel.
Proof.
  intros Hf. unfold sql_parse_query. destruct ts as [ts|]; [|done].
  pose proof (query_match_fuel xm kt libs fuel str (Some ts) Hf) as Hw. unfold within, wp in Hw.
  destruct (query_match _ _ _ _ _) as [u d|d| |]; [|done|done|done].
  pose proof (query_order_fuel xm kt libs fuel (set_bc [] 0 d)) as Ho. unfold wp in Ho.
  destruct (query_order _ _ _ _ _); try done. destruct Ho.
  change (rank (set_bc [] 0 d)) with (rank d). pose proof (zlen_nonneg str). lia.
Qed.

Lemma query_terminates_witness :
  sql_parse_query grant kw_table libs0 100 (Some ts0) (Some (lit "x = 1 ORDER BY d, x")) <> QFuel.
Proof. apply (query_terminates grant kw_table libs0 100). vm_compute. discriminate. Defined.

(** C22. The selection part of an accepted query is compiled like a filter:
    its program is empty when the text starts with ORDER BY or is empty, and
    otherwise runs to the value of the one condition the grammar reads. *)
Theorem query_correct (cdr : CdrOffset) xm sd kt libs fuel ts top str p o env M stk cachep :
  ts_cdr ts = Some top -> Forall nz_byte str ->
  sql_parse_query xm kt libs fuel (Some ts) (Some str) = QDone 0 (Some p) (Some o) ->
  program env = p -> ts_prefer (dts env) = MODE_CDR ->
  0 <= M -> M + zlen (p_buffer p) <= MAX_INSTS ->
  zlen stk = MAX_STACK -> cache_ok env (mjoin cachep) ->
  query_selects_all xm kt str /\ p_buffer p = [] \/
  exists e, query_syntax xm kt libs top str e /\
    (wt e = true -> expr_in M e ->
     exists k c, forall fuel', (k <= fuel')%nat ->
       bc_interpret xm sd env fuel' stk cachep = Some (filter_result (eval sd env e) c)).
Proof.
  intros Hts Hs Hp <- Hm HM0 HM Hst Hc.
  destruct (query_parsed _ _ _ _ _ _ _ _ _ Hts Hs Hp) as [?|(e & C & op & Hsyn & Hok & Hb)]; [by left|right].
  exists e. split; [done|]. intros Hwt Hi. by eapply filter_interpret.
Qed.

Definition query1 : list Z := lit "x > 100 AND NOT simple.i16 >= %0 ORDER BY d, simple.u32".

Lemma query_correct_witness :
  query_selects_all grant kw_table query1 /\ p_buffer prog1 = [] \/
  exists e, query_syntax grant kw_table libs0 top query1 e /\
    (wt e = true -> expr_in 3 e ->
     exists k c, forall fuel', (k <= fuel')%nat ->
       bc_interpret grant grant_dup (env_of prog1 bike [lit "5"]) fuel' stk0 None
       = Some (filter_result (eval grant_dup (env_of prog1 bike [lit "5"]) e) c)).
Proof.
  eapply (query_correct no_cdr grant grant_dup kw_table libs0 100 ts0);
    [ reflexivity | apply (bool_decide_unpack _); vm_compute; exact I | vm_compute; reflexivity
    | reflexivity | reflexivity | lia | vm_compute; discriminate | reflexivity | exact I ].
Defined.

(** ** The scanner *)

(** [k] calls of [sql_next_token]. *)
Fixpoint next_tokens xm kt (k : nat) (s : ScanData) : option ScanData :=
  match k with
  | O => Some s
  | S k => s ← sql_next_token xm kt s; next_tokens xm kt k s
  end.

(** C23. However often [sql_next_token] is called, and whichever allocations
    fail, it never stores outside its buffer, and the identifier, string and
    input it keeps stay NUL-free byte strings. *)
Theorem scanner_memory_safe xm kt str n k :
  Forall nz_byte str -> 16 <= n ->
  exists s, next_tokens xm kt k (sql_start_scan str (scan_init n)) = Some s /\ scan_ok s.
Proof.
  intros Hs Hn. generalize (start_scan_ok str n Hn Hs).
  generalize (sql_start_scan str (scan_init n)) as s. induction k as [|k IH]; intros s Hok; simpl; [eauto|].
  destruct (sql_next_token_ok xm kt s Hok) as (s' & -> & Hs'). by apply IH.
Qed.

Lemma scanner_memory_safe_witness :
  exists s, next_tokens (fun n => n <? 200) kw_table 4 (sql_start_scan (replicate 300 97) (scan_init 80)) = Some s
            /\ scan_ok s.
Proof.
  apply (scanner_memory_safe (fun n => n <? 200) kw_table (replicate 300 97) 80 4); [|lia].
  apply (bool_decide_unpack _). vm_compute. exact I.
Defined.

(** The scanner consumes at least one character per token: after at most
    one call more than the text has characters it reports the end. *)
Theorem scanner_reaches_end xm kt str n :
  Forall nz_byte str -> 16 <= n ->
  exists k s, (k <= S (length str))%nat /\
    next_tokens xm kt k (sql_start_scan str (scan_init n)) = Some s /\ token s = TK_EOL.
Proof.
  intros Hs Hn. pose proof (start_scan_ok str n Hn Hs) as Hok.
  assert (Hl : inlen (sql_start_scan str (scan_init n)) <= Z.of_nat (length str)).
  { destruct str as [|c str]; unfold inlen; simpl; [done|]. unfold zlen.
    destruct (c =? 0); lia. }
  revert Hok Hl. generalize (sql_start_scan str (scan_init n)) as s. clear Hs.
  induction (length str) as [|m IH]; intros s Hok Hl;
    destruct (sql_next_token_ok xm kt s Hok) as (s' & Ht & Hs');
    destruct (sql_next_token_lt xm kt s s' Ht) as [He|Hlt];
    try (exists 1%nat, s'; simpl; rewrite Ht; split; [lia|]; by split).
  - pose proof (zlen_nonneg (instr s')). unfold inlen in *. destruct (cch s' =? 0), (cch s =? 0); lia.
  - destruct (IH s' Hs' ltac:(lia)) as (k & s2 & Hk & Hn2 & He). exists (S k), s2.
    simpl. rewrite Ht. split; [lia|]. by split.
Qed.

Lemma scanner_reaches_end_witness :
  exists k s, (k <= S (length text1))%nat /\
    next_tokens grant kw_table k (sql_start_scan text1 (scan_init 80)) = Some s /\ token s = TK_EOL.
Proof.
  apply (scanner_reaches_end grant kw_table text1 80); [|lia].
  apply (bool_decide_unpack _). vm_compute. exact I.
Defined.

(** The hash table of keywords that [sql_init_scan] builds is equivalent
    to a linear search of the keywords for the upper-case form of the name. *)
Theorem keyword_hash_correct name : lookup_keyword (sql_init_scan kw_empty) name = kw_spec name.
Proof. exact (lookup_keyword_linear name). Qed.

(** C24. Printing tokens, each after a space, and scanning the text gives the
    tokens back: keywords and identifiers, integers, parameters, characters,
    strings and punctuation, then the end. *)
Theorem scan_print_roundtrip xm kt lxs n :
  (forall z, xm z = true) -> Forall lexeme_ok lxs -> 16 <= n ->
  scans xm kt lxs (sql_start_scan (print_all lxs) (scan_init n)).
Proof.
  intros Hx Hl Hn. apply scans_print; [done|done|by apply start_scan_ok, print_all_nz|].
  unfold at_text. by destruct (print_all lxs).
Qed.

Definition lexemes1 : list lexeme :=
  [LWord (lit "x"); LPunct TK_GE; LInt true (lit "42"); LWord (lit "and"); LWord (lit "name");
   LWord (lit "LIKE"); LQuote (lit "a%"); LWord (lit "OR"); LPar (lit "7"); LPunct TK_NE; LQuote (lit "c")].

Lemma scan_print_roundtrip_witness :
  scans grant kw_table lexemes1 (sql_start_scan (print_all lexemes1) (scan_init 80)).
Proof.
  apply (scan_print_roundtrip grant kw_table lexemes1 80);
    [ reflexivity | apply (bool_decide_unpack _); vm_compute; exact I | lia ].
Defined.

(** ** LIKE *)

(** C25. [nmatch] with the flags of the SQL engine decides the LIKE predicate
    ('%' any sequence, '_' any character) for every pattern without a
    character that is special to [fnmatch] only. *)
Theorem nmatch_is_like sd p s :
  sd p = true -> forallb (fun c => negb (fn_special c)) p = true ->
  nmatch sd (Some p) (Some s) NM_SQL = NM_MATCH <-> like p s.
Proof. apply nmatch_like_iff. Qed.

Lemma nmatch_is_like_witness :
  nmatch grant_dup (Some (lit "h%l_")) (Some (lit "hello")) NM_SQL = NM_MATCH <->
  like (lit "h%l_") (lit "hello").
Proof. apply (nmatch_is_like grant_dup (lit "h%l_") (lit "hello")); reflexivity. Defined.

(** ** The interpreter *)

(** C26. On arbitrary bytecode, in every state that the interpreter reaches,
    the stack pointer is between 0 and 32.  While it is below 32 a value can
    be pushed inside the stack; when it is 32 the next instruction is not
    executed, and the interpreter returns an error: [BC_ERR_STKOVFL], or
    [BC_ERR_INFLOOP] when the limit of instructions is reached too.  So no
    value is stored behind the stack.  (There is no such check at the other
    end: [stack_underflow].) *)
Theorem interpreter_stack_bounded (cdr : CdrOffset) xm sd env stk cachep v :
  Forall byte_ok (p_buffer (program env)) -> zlen stk = MAX_STACK -> cache_ok env (mjoin cachep) ->
  steps xm sd env (vm_init xm env stk cachep) v ->
  0 <= tos v <= MAX_STACK /\
  (tos v < MAX_STACK -> forall e, exists v', push e v = Some v' /\ tos v' = tos v + 1 /\ zlen (stack v') = MAX_STACK) /\
  (tos v = MAX_STACK -> step xm sd env v =
     Done (if MAX_INSTS <=? n_ v then BC_ERR_INFLOOP else BC_ERR_STKOVFL) None v).
Proof.
  intros Hb Hs Hc Hst. assert (Hv : vm_inv env v) by (eapply inv_steps; eauto using inv_init).
  destruct Hv as [H1 H2 _]. split; [done|]. split.
  - intros Hlt e. pose proof (zset_Some (stack v) (tos v) e ltac:(lia)) as E. unfold push. rewrite E.
    eexists. split; [reflexivity|]. split; [done|]. simpl. by rewrite (zlen_zset _ _ _ _ E).
  - intros Hf. unfold step. rewrite Hf, Z.leb_refl. by destruct (MAX_INSTS <=? n_ v).
Qed.

(** A comparison on an empty stack reads below it. *)
Example stack_underflow :
  step grant grant_dup (env_of (mkBCProgram [176] 0) bike []) (vm_init grant (env_of (mkBCProgram [176] 0) bike []) stk0 None)
  = Undef.
Proof. vm_compute. reflexivity. Qed.

(** A branch to itself after a comparison of a field with itself. *)
Definition loop_prog : BCProgram := mkBCProgram [149; 0; 0; 149; 0; 0; 177; 192; 0; 0] 0.

Definition loop_env : Env := env_of loop_prog bike [].

Definition loop_state (k : nat) : option Vm :=
  Nat.iter k (fun o => v ← o; match step grant grant_dup loop_env v with Next v => Some v | _ => None end)
    (Some (vm_init grant loop_env stk0 None)).

Definition full_prog : BCProgram := mkBCProgram (replicate 33 1) 0.

Lemma interpreter_stack_bounded_witness :
  exists v, steps grant grant_dup (env_of full_prog bike []) (vm_init grant (env_of full_prog bike []) stk0 None) v /\
    tos v = MAX_STACK /\ step grant grant_dup (env_of full_prog bike []) v = Done BC_ERR_STKOVFL None v.
Proof.
  set (env := env_of full_prog bike []).
  assert (H : exists v, steps grant grant_dup env (vm_init grant env stk0 None) v /\ tos v = 32 /\ n_ v = 32).
  { eexists. split; [do 32 (eapply steps_step; [vm_compute; reflexivity|]); apply steps_refl|done]. }
  destruct H as (v & Hv & Ht & Hn). exists v. split; [exact Hv|]. split; [exact Ht|].
  refine (eq_trans (proj2 (proj2 (interpreter_stack_bounded no_cdr grant grant_dup env stk0 None v _ eq_refl I Hv)) Ht) _).
  - apply (bool_decide_unpack _). vm_compute. exact I.
  - rewrite Hn. reflexivity.
Defined.

(** The cache of converted parameters stays coherent with the
    parameters over an evaluation of any bytecode: it can be handed to the
    next evaluation with the same parameters. *)
Theorem interpreter_cache_coherent (cdr : CdrOffset) xm sd env fuel stk cachep rc res c :
  Forall byte_ok (p_buffer (program env)) -> zlen stk = MAX_STACK -> cache_ok env (mjoin cachep) ->
  bc_interpret xm sd env fuel stk cachep = Some (BcReturn rc res c) -> cache_ok env c.
Proof. apply interpret_cache. Qed.

Lemma interpreter_cache_coherent_witness :
  exists c, bc_interpret grant grant_dup (env_of prog1 bike [lit "5"]) 100 stk0 (Some None)
            = Some (BcReturn BC_OK (Some 1) (Some c)) /\
    c_types c = [T_INT32] /\ cache_ok (env_of prog1 bike [lit "5"]) (Some c).
Proof.
  eexists. split; [vm_compute; reflexivity|]. split; [reflexivity|].
  apply (interpreter_cache_coherent no_cdr grant grant_dup (env_of prog1 bike [lit "5"]) 100 stk0 (Some None)
           BC_OK (Some 1)); [|reflexivity|exact I|vm_compute; reflexivity].
  apply (bool_decide_unpack _). vm_compute. exact I.
Defined.

(** An integer constant survives code generation and execution: the
    shortest form [const_int] emits for a 64-bit integer loads that integer,
    in one instruction, as a cell of the type it reported. *)
Theorem int_constant_roundtrip (cdr : CdrOffset) xm sd i str ts k d env stk cachep :
  in_s 64 i -> Forall nz_byte str -> const_int xm i (parse_init str ts) = POk k d ->
  program env = emitted d -> zlen stk = MAX_STACK -> cache_ok env (mjoin cachep) ->
  exists v e, step xm sd env (vm_init xm env stk cachep) = Next v /\ pc v = zlen (p_buffer (program env)) /\
    tos v = 1 /\ cell v 0 = Some e /\ cell_val k e = Some (VInt i).
Proof.
  intros Hi Hs Hc Hp Hst Hca. destruct (parse_init_ok str ts Hs) as [Hd _].
  destruct (gen_const_int xm i _ _ _ Hd Hc) as [-> [_ Hcode _ _]].
  assert (Hb : p_buffer (program env) = int_bytes i) by (rewrite Hp; exact Hcode).
  destruct (exec_int xm sd env 0 ltac:(rewrite Hb; apply int_bytes_short) i 0 []
    (vm_init xm env stk cachep)) as (v & Hv & Hat).
  - by apply vm_init_at.
  - done.
  - rewrite Hb. by split.
  - exists v, (int_elem i). rewrite Hb. split; [done|]. split; [by rewrite (vi_pc _ _ _ _ _ _ _ _ Hat)|].
    split; [by rewrite (vi_tos _ _ _ _ _ _ _ _ Hat)|]. split; [|by apply int_elem_val].
    unfold cell. rewrite <- (zget_ztake (stack v) 0 1) by lia.
    pose proof (vi_cells _ _ _ _ _ _ _ _ Hat : ztake 1 (stack v) = _) as ->. done.
Qed.

Lemma int_constant_roundtrip_witness :
  exists k d, const_int grant (-40000) (parse_init [] None) = POk k d /\
  let env := env_of (emitted d) bike [] in
  exists v e, step grant grant_dup env (vm_init grant env stk0 None) = Next v /\
    pc v = zlen (p_buffer (program env)) /\
    tos v = 1 /\ cell v 0 = Some e /\ cell_val k e = Some (VInt (-40000)).
Proof.
  eexists _, _. split; [vm_compute; reflexivity|]. cbv zeta.
  eapply (int_constant_roundtrip no_cdr grant grant_dup (-40000) [] None);
    [ split; vm_compute; congruence | constructor | vm_compute; reflexivity | reflexivity | reflexivity | exact I ].
Defined.

(** The state at the start of each round of the loop. *)
Definition loop_head : Vm :=
  Eval vm_compute in default (vm_init grant loop_env stk0 None) (loop_state 4).

Lemma run_next (cdr : CdrOffset) xm sd env fuel v v' :
  step xm sd env v = Next v' -> run xm sd env (S fuel) v = run xm sd env fuel v'.
Proof. intros H. cbn [run]. by rewrite H. Qed.

Ltac run_next := erewrite run_next; [|vm_compute; reflexivity].

Lemma loop_run fuel : run grant grant_dup loop_env fuel loop_head = None.
Proof.
  induction (lt_wf fuel) as [fuel _ IH]. do 4 (destruct fuel as [|fuel]; [reflexivity|run_next]).
  apply (IH fuel). lia.
Qed.

(** C27. The limit of 512 instructions is not enforced: the counter is reused
    for the field number of a load, so that a loop over a field load never
    ends. *)
Theorem instruction_limit_bypassed :
  forall fuel, bc_interpret grant grant_dup loop_env fuel stk0 None = None.
Proof.
  intros fuel. unfold bc_interpret. rewrite decide_True by done.
  do 4 (destruct fuel as [|fuel]; [reflexivity|run_next]).
  fold loop_head. by rewrite loop_run.
Qed.

(** ** The code generator *)

(** [ins_before] stores past the end of the code buffer when the
    instruction it makes room for takes the last free byte of it: the text of
    the example is a valid filter. *)
Theorem ins_before_overflow xm ofs x d :
  pd_ok d -> bc_left d = 1 -> 0 <= ofs < bc_size d -> ins_before xm ofs x d = PUndef.
Proof. apply ins_before_full. Qed.

Definition text2 : list Z :=
  lit "x=100 AND x=100 AND x=100 AND x=1 AND x=1 AND x=1 AND x<1.5".

(** The compiler state at the insertion: 63 of 64 bytes are used. *)
Definition full_code : ParseData := set_bc (replicate 64 0) 1 (parse_init [] None).

Lemma ins_before_overflow_witness :
  comp text2 = CUndef /\ ins_before grant 54 O_WS2D full_code = PUndef.
Proof.
  split; [vm_compute; reflexivity|]. apply (ins_before_overflow grant 54 O_WS2D full_code).
  - repeat split; try (vm_compute; congruence). apply (bool_decide_unpack _). vm_compute. exact I.
  - reflexivity.
  - vm_compute. split; congruence.
Defined.

(** An enumerator can not be used as an operand: the lookup of a name
    that is no member of the structure searches the structure for
    enumerators, so every such name is reported as unknown. *)
Theorem enumerators_never_resolve xm kt libs fuel t eo d :
  kind t = DDS_STRUCTURE_TYPE -> field_lookup libs t (ident (scan d)) = None ->
  identifier_loop xm kt libs (S fuel) t eo d = parse_error PE_UNKN_NAME (Some (ident (scan d))) d.
Proof.
  intros Hk Hf. cbn [identifier_loop]. unfold pbind, pget, is_struct, enum_lookup.
  rewrite bool_decide_true by done. cbn [negb]. rewrite Hf, Hk. by destruct eo.
Qed.

Lemma enumerators_never_resolve_witness :
  comp (lit "obj = bike") = CDone (pe_num PE_UNKN_NAME) None /\
  let d := set_scan (set_ident (lit "bike") 4 (scan (parse_init [] (Some ts0)))) (parse_init [] (Some ts0)) in
  identifier_loop grant kw_table libs0 1 top true d = parse_error PE_UNKN_NAME (Some (lit "bike")) d.
Proof.
  split; [vm_compute; reflexivity|].
  apply (enumerators_never_resolve grant kw_table libs0 0 top true); reflexivity.
Defined.
