(* ===== verification/Random.v ===== *)
(** The pseudo random number generator (co/random.c) and the random level of
    the skiplists (co/skiplist.c, [random_level]). *)

From S2P Require Import Prelude.

(** [fastsrand] and [fastrand]; the state is [g_seed]. *)
Definition fastsrand (seed : Z) : Z := ⟦seed⟧32.

Definition fastrand (g_seed : Z) : Z * Z :=
  let g_seed := ⟦214013 * g_seed + 2531011⟧32 in
  (Z.land (Z.shiftr g_seed 16) 32767, g_seed).

(** [fastrandn] *)
Definition fastrandn (n g_seed : Z) : Z * Z :=
  let '(r, g_seed) := fastrand g_seed in (Z.shiftr ⟦r * n⟧32 15, g_seed).

Definition MAX_RAND_BITS : Z := 15.
Definition MAX_LEVELS : Z := 15.

(** The static variables of [random_level] and the seed. *)
Record Rand := mkRand { randoms_left : Z; random_value : Z; g_seed : Z }.

(** The bit loop of [random_level]: the level counts the 0-bits before the
    first 1-bit. *)
Fixpoint level_loop (fuel : nat) (level : Z) (r : Rand) : option (Z * Rand) :=
  match fuel with
  | O => None
  | S fuel =>
      let r := if randoms_left r =? 0 then
                 let '(v, s) := fastrand (g_seed r) in mkRand MAX_RAND_BITS v s
               else r in
      let b := Z.land (random_value r) 1 in
      let r' := mkRand (randoms_left r - 1) (Z.shiftr (random_value r) 1) (g_seed r) in
      if b =? 0 then level_loop fuel ⟦level + 1⟧32 r' else Some (level, r')
  end.

(** Enough rounds for every state of the generator ([level_loop_total]). *)
Definition LEVEL_FUEL : nat := 120.

Definition random_level (r : Rand) : option (Z * Rand) :=
  '(level, r) ← level_loop LEVEL_FUEL 0 r;
  Some (if MAX_LEVELS <=? level then MAX_LEVELS - 1 else level, r).

(** ** Ranges *)

Definition rand_ok (r : Rand) : Prop :=
  0 <= randoms_left r <= MAX_RAND_BITS /\ 0 <= random_value r < 2 ^ randoms_left r /\ in_u 32 (g_seed r).

Lemma fastrand_range s : 0 <= fst (fastrand s) < 2 ^ 15 /\ in_u 32 (snd (fastrand s)).
Proof.
  unfold fastrand. cbn [fst snd]. split; [|by apply wrap_range].
  change 32767 with (Z.ones 15). rewrite Z.land_ones by lia. apply Z.mod_pos_bound. lia.
Qed.

Lemma fastrandn_range n s : 0 < n < 2 ^ 16 -> 0 <= fst (fastrandn n s) < n.
Proof.
  intros Hn. unfold fastrandn. pose proof (fastrand_range s) as [Hr _].
  destruct (fastrand s) as [r s']. cbn [fst snd] in *.
  rewrite wrap_small by (unfold in_u; nia). rewrite Z.shiftr_div_pow2 by lia.
  split; [apply Z.div_pos; nia|]. apply Z.div_lt_upper_bound; nia.
Qed.

(** ** The generator does not get stuck at zero

    An output is zero when the low 31 bits of the seed are below 2^16; from
    such a seed, one of the next two outputs is not zero. *)

Definition low (s : Z) : Z := s mod 2 ^ 31.

Definition next_low (l : Z) : Z := (214013 * l + 2531011) mod 2 ^ 31.

Lemma low_next s : low (snd (fastrand s)) = next_low (low s).
Proof.
  unfold low, next_low, fastrand, wrap. cbn [snd].
  rewrite (Z.mod_mod_divide _ (2 ^ 32) (2 ^ 31)) by (by exists 2).
  rewrite Z.add_mod, Z.mul_mod by lia. rewrite (Z.add_mod (214013 * (s mod _))), (Z.mul_mod 214013 (s mod _)) by lia.
  by rewrite Z.mod_mod by lia.
Qed.

Lemma fastrand_out s : fst (fastrand s) = next_low (low s) / 2 ^ 16.
Proof.
  rewrite <- low_next. unfold fastrand, low. cbn [fst snd].
  change 32767 with (Z.ones 15). rewrite Z.land_ones, Z.shiftr_div_pow2 by lia.
  generalize (⟦214013 * s + 2531011⟧32) as x. intros x.
  change (2 ^ 31) with (2 ^ 16 * 2 ^ 15). rewrite Z.rem_mul_r by lia.
  rewrite Z.mul_comm, Z.div_add by lia. rewrite (Z.div_small (x mod 2 ^ 16)); [lia|].
  apply Z.mod_pos_bound. lia.
Qed.

Definition restarts (l : Z) : bool :=
  (2 ^ 16 <=? next_low l) || (2 ^ 16 <=? next_low (next_low l)).

(** The same for [n] seeds from [l] on, where [x] is [next_low l]: the next
    one is found by an addition. *)
Fixpoint all_restart (n : nat) (x : Z) : bool :=
  match n with
  | O => true
  | S n =>
      (if 65536 <=? x then true else 65536 <=? next_low x) &&
      all_restart n (let y := x + 214013 in if y <? 2147483648 then y else y - 2147483648)
  end.

Lemma next_low_succ l :
  next_low (l + 1) = let y := next_low l + 214013 in if y <? 2147483648 then y else y - 2147483648.
Proof.
  unfold next_low. change (2 ^ 31) with 2147483648.
  pose proof (Z.mod_pos_bound (214013 * l + 2531011) 2147483648 ltac:(lia)) as Hb.
  replace (214013 * (l + 1) + 2531011) with (214013 * l + 2531011 + 214013) by lia.
  rewrite Z.add_mod by lia. cbv zeta. case_if E; zbool.
  - rewrite (Z.mod_small 214013) by lia. by apply Z.mod_small; lia.
  - rewrite (Z.mod_small 214013) by lia. symmetry. apply (Z.mod_unique _ _ 1); lia.
Qed.

Lemma all_restart_sound n l x :
  all_restart n (next_low l) = true -> l <= x < l + Z.of_nat n -> restarts x = true.
Proof.
  revert l; induction n as [|n IH]; intros l H Hx; [lia|]. cbn [all_restart] in H.
  rewrite <- next_low_succ in H. apply andb_true_iff in H as [H1 H2].
  destruct (decide (x = l)) as [->|]; [|eapply IH; [done|lia]].
  unfold restarts. change (2 ^ 16) with 65536. case_if E in H1; [done|]. by rewrite H1, orb_true_r.
Qed.

Lemma restarts_all l : 0 <= l < 2 ^ 16 -> restarts l = true.
Proof.
  intros Hl. apply (all_restart_sound (Z.to_nat (2 ^ 16)) 0).
  - vm_compute. reflexivity.
  - rewrite Z2Nat.id; lia.
Qed.

(** One of three consecutive outputs is not zero. *)
Lemma fastrand_nonzero s :
  fst (fastrand s) <> 0 \/ fst (fastrand (snd (fastrand s))) <> 0
  \/ fst (fastrand (snd (fastrand (snd (fastrand s))))) <> 0.
Proof.
  rewrite !fastrand_out, !low_next. set (l := next_low (low s)).
  assert (Hl : 0 <= l) by (apply Z.mod_pos_bound; lia).
  destruct (decide (2 ^ 16 <= l)) as [Hb|Hb].
  { left. pose proof (Z.div_le_lower_bound l (2 ^ 16) 1). lia. }
  right. pose proof (restarts_all l ltac:(lia)) as Hr. apply orb_true_iff in Hr as [Hr|Hr];
    apply Z.leb_le in Hr; [left|right]; pose proof (Z.div_le_lower_bound _ (2 ^ 16) 1 ltac:(lia) Hr); lia.
Qed.

(** ** Termination of the level loop *)

(** The rounds over the bits that are left. *)
Lemma level_bits n fuel level v s :
  0 <= v < 2 ^ Z.of_nat n ->
  (v <> 0 -> exists x, level_loop (n + fuel) level (mkRand (Z.of_nat n) v s) = Some x) /\
  (v = 0 -> exists level', level_loop (n + fuel) level (mkRand (Z.of_nat n) v s)
                           = level_loop fuel level' (mkRand 0 0 s)).
Proof.
  revert level v; induction n as [|n IH]; intros level v Hv.
  { simpl in Hv. split; [lia|]. intros ->. by exists level. }
  cbn [level_loop Nat.add randoms_left random_value g_seed].
  replace (Z.of_nat (S n) =? 0) with false by (symmetry; apply Z.eqb_neq; lia).
  cbn [level_loop Nat.add randoms_left random_value g_seed].
  replace (Z.of_nat (S n) - 1) with (Z.of_nat n) by lia.
  rewrite Nat2Z.inj_succ, Z.pow_succ_r in Hv by lia.
  assert (Hs : 0 <= Z.shiftr v 1 < 2 ^ Z.of_nat n).
  { rewrite Z.shiftr_div_pow2 by lia. change (2 ^ 1) with 2. split; [apply Z.div_pos; lia|].
    apply Z.div_lt_upper_bound; lia. }
  specialize (IH ⟦level + 1⟧32 (Z.shiftr v 1) Hs). destruct IH as [IH1 IH2].
  change 1 with (Z.ones 1) at 1 2. rewrite Z.land_ones by lia. change (2 ^ 1) with 2.
  rewrite Z.shiftr_div_pow2 in * by lia. change (2 ^ 1) with 2 in *.
  pose proof (Z.div_mod v 2 ltac:(lia)) as Hdm. split; intros H0.
  - destruct (v mod 2 =? 0) eqn:E; [|by eexists]. zbool. apply IH1. lia.
  - subst v. simpl. by apply IH2.
Qed.

Lemma level_draw_S fuel level s :
  level_loop (S fuel) level (mkRand 0 0 s)
  = level_loop (S fuel) level (mkRand (Z.of_nat 15) (fst (fastrand s)) (snd (fastrand s))).
Proof. cbn [level_loop randoms_left random_value g_seed]. by destruct (fastrand s). Qed.

Lemma level_draw fuel level s :
  level_loop (15 + fuel) level (mkRand 0 0 s)
  = level_loop (15 + fuel) level (mkRand (Z.of_nat 15) (fst (fastrand s)) (snd (fastrand s))).
Proof. exact (level_draw_S (14 + fuel) level s). Qed.

Lemma level_loop_total r : rand_ok r -> exists level r', level_loop LEVEL_FUEL 0 r = Some (level, r').
Proof.
  intros (Hn & Hv & _). destruct r as [n v s]. cbn [randoms_left random_value g_seed] in *.
  assert (Hx : exists x, level_loop LEVEL_FUEL 0 (mkRand n v s) = Some x); [|by destruct Hx as [[] ?]; eauto].
  assert (Hr : forall s, 0 <= fst (fastrand s) < 2 ^ Z.of_nat 15) by (intros; apply fastrand_range).
  unfold MAX_RAND_BITS in Hn. rewrite <- (Z2Nat.id n) by lia. rewrite <- (Z2Nat.id n) in Hv by lia.
  assert (Hn' : (Z.to_nat n <= 15)%nat) by lia. revert Hv Hn'. generalize (Z.to_nat n) as m. intros m Hv Hm.
  replace LEVEL_FUEL with (m + (15 + (15 + (15 + (75 - m)))))%nat by (unfold LEVEL_FUEL; lia).
  destruct (level_bits m (15 + (15 + (15 + (75 - m)))) 0 v s Hv) as [H1 H2].
  destruct (decide (v = 0)) as [Hv0|Hv0]; [|by apply H1]. destruct (H2 Hv0) as [l1 ->]. rewrite level_draw.
  destruct (level_bits 15 (15 + (15 + (75 - m))) l1 _ (snd (fastrand s)) (Hr s)) as [H3 H4].
  destruct (fastrand_nonzero s) as [Hz|Hz]; [by apply H3|].
  destruct (decide (fst (fastrand s) = 0)) as [Hs|Hs]; [|by apply H3]. destruct (H4 Hs) as [l2 ->]. rewrite level_draw.
  destruct (level_bits 15 (15 + (75 - m)) l2 _ (snd (fastrand (snd (fastrand s)))) (Hr (snd (fastrand s)))) as [H5 H6].
  destruct Hz as [Hz|Hz]; [by apply H5|].
  destruct (decide (fst (fastrand (snd (fastrand s))) = 0)) as [Hs2|Hs2]; [|by apply H5].
  destruct (H6 Hs2) as [l3 ->]. rewrite level_draw. by apply level_bits.
Qed.

Lemma draw_ok r : rand_ok r ->
  rand_ok (if randoms_left r =? 0 then let '(v, s) := fastrand (g_seed r) in mkRand MAX_RAND_BITS v s else r) /\
  0 < randoms_left (if randoms_left r =? 0 then let '(v, s) := fastrand (g_seed r) in mkRand MAX_RAND_BITS v s else r).
Proof.
  intros (Hn & Hv & Hs). case_if E; zbool; [|by split; [split|lia]].
  pose proof (fastrand_range (g_seed r)) as [H1 H2]. destruct (fastrand (g_seed r)) as [v s].
  cbn [fst snd] in *. unfold rand_ok, MAX_RAND_BITS. cbn [randoms_left random_value g_seed].
  split; [|lia]. split; [lia|]. by split.
Qed.

Lemma level_loop_ok fuel level r level' r' :
  level_loop fuel level r = Some (level', r') -> 0 <= level -> rand_ok r -> 0 <= level' /\ rand_ok r'.
Proof.
  revert level r; induction fuel as [|fuel IH]; intros level r H Hl Hr; [done|].
  cbn [level_loop] in H. destruct (draw_ok r Hr) as [Hd Hp]. revert Hd Hp H.
  generalize (if randoms_left r =? 0 then let '(v, s) := fastrand (g_seed r) in mkRand MAX_RAND_BITS v s else r) as d.
  intros d (Hn & Hv & Hs) Hp H.
  assert (Hok : rand_ok (mkRand (randoms_left d - 1) (Z.shiftr (random_value d) 1) (g_seed d))).
  { split; [simpl; lia|]. split; [|done]. simpl. rewrite Z.shiftr_div_pow2 by lia. change (2 ^ 1) with 2.
    replace (randoms_left d) with (Z.succ (randoms_left d - 1)) in Hv by lia.
    rewrite Z.pow_succ_r in Hv by lia.
    split; [apply Z.div_pos; lia|apply Z.div_lt_upper_bound; lia]. }
  case_if E in H.
  - eapply IH; [exact H|by apply wrap_range|done].
  - by simplify_eq.
Qed.

(** [random_level] returns a level below [MAX_LEVELS] in every state. *)
Lemma random_level_ok r :
  rand_ok r -> exists level r', random_level r = Some (level, r') /\ 0 <= level < MAX_LEVELS /\ rand_ok r'.
Proof.
  intros Hr. destruct (level_loop_total r Hr) as (level & r' & Hl).
  destruct (level_loop_ok _ _ _ _ _ Hl ltac:(lia) Hr) as [H0 Hr'].
  unfold random_level. rewrite Hl. cbn [mbind option_bind]. eexists _, _. split; [reflexivity|]. split; [|done].
  unfold MAX_LEVELS. case_if E; zbool; lia.
Qed.
