(* ===== verification/Skiplist.v ===== *)
(** Skiplists (co/skiplist.c, include/skiplist.h): sorted lists whose nodes
    carry a random number of forward pointers.

    The nodes live in a store of their own, [nodes]; a pointer to the list
    header, which the code casts to a node, is [PHdr].  An access outside a
    pointer array or to a node that does not exist makes an operation [None],
    and so does a search that visits more nodes than there are. *)

From stdpp Require Import gmap sorting.
From S2P Require Import Prelude Random.

#[local] Open Scope nat_scope.

Definition LEVELS : nat := Z.to_nat MAX_LEVELS.

Inductive ptr := PHdr | PNode (n : nat).

#[export] Instance ptr_eq_dec : EqDecision ptr.
Proof. solve_decision. Defined.

(** A comparison function of the lists ([LISTEQF]): [fct d k] compares the
    key of the element [d] with [k].  The laws make it a total order. *)
Class ListEqf (D K : Type) := {
  fct : D -> K -> Z;
  key : D -> K;
  fct_eq : forall d k, fct d k = 0%Z <-> key d = k;
  fct_flip : forall d d', (fct d (key d') < 0)%Z <-> (0 < fct d' (key d))%Z;
  fct_trans : forall d d' k, (fct d (key d') < 0)%Z -> (fct d' k <= 0)%Z -> (fct d k < 0)%Z
}.

Section Skiplist.
Context {D K : Type}.

(** A node: its user data and its forward pointers. *)
Record SLNode := mkNode { nd_data : D; nd_next : list (option nat) }.

(** [Skiplist_t] with its nodes. *)
Record Skiplist := mkSL {
  level : nat;
  length_ : nat;
  header : list (option nat);
  nodes : gmap nat SLNode
}.

(** ** Pointers *)

(** [p->next [k]] *)
Definition get_next (l : Skiplist) (p : ptr) (k : nat) : option (option nat) :=
  match p with
  | PHdr => header l !! k
  | PNode n => nd ← nodes l !! n; nd_next nd !! k
  end.

(** [p->next [k] = q] *)
Definition set_next (p : ptr) (k : nat) (q : option nat) (l : Skiplist) : option Skiplist :=
  match p with
  | PHdr =>
      if k <? length (header l)
      then Some (mkSL (level l) (length_ l) (<[k := q]> (header l)) (nodes l)) else None
  | PNode n =>
      nd ← nodes l !! n;
      if k <? length (nd_next nd)
      then Some (mkSL (level l) (length_ l) (header l)
                   (<[n := mkNode (nd_data nd) (<[k := q]> (nd_next nd))]> (nodes l)))
      else None
  end.

Definition set_level (k : nat) (l : Skiplist) : Skiplist := mkSL k (length_ l) (header l) (nodes l).
Definition set_length (n : nat) (l : Skiplist) : Skiplist := mkSL (level l) n (header l) (nodes l).

Definition data_of (l : Skiplist) (n : nat) : option D := nd_data <$> nodes l !! n.

(** ** Construction *)

(** [sl_init] *)
Definition sl_init : Skiplist := mkSL 0 0 (replicate (S LEVELS) None) ∅.

(** [new_node]: a block for [k + 1] pointers, its contents not set. *)
Definition new_node (alloc : nat -> option nat) (k : nat) (undef : D) (l : Skiplist) : option (nat * Skiplist) :=
  n ← alloc k;
  Some (n, mkSL (level l) (length_ l) (header l) (<[n := mkNode undef (replicate (S k) None)]> (nodes l))).

(** [free_node] *)
Definition free_node (n : nat) (l : Skiplist) : Skiplist :=
  mkSL (level l) (length_ l) (header l) (delete n (nodes l)).

(** [sl_free_nodes]; the header keeps its pointers. *)
Fixpoint free_chain (fuel : nat) (p : option nat) (l : Skiplist) : option Skiplist :=
  match p with
  | None => Some l
  | Some n =>
      match fuel with
      | O => None
      | S fuel => q ← get_next l (PNode n) 0; free_chain fuel q (free_node n l)
      end
  end.

Definition sl_free_nodes (l : Skiplist) : option Skiplist :=
  p ← header l !! 0; free_chain (S (size (nodes l))) p l.

Context `{ListEqf D K}.

(** ** Searching *)

(** The inner loop: follow level [k] while the keys are smaller. *)
Fixpoint follow (fuel : nat) (l : Skiplist) (k : nat) (data : K) (p : ptr) (res : Z)
  : option (ptr * option nat * Z) :=
  q ← get_next l p k;
  match q with
  | None => Some (p, None, res)
  | Some n =>
      d ← data_of l n;
      let res := fct d data in
      if (res <? 0)%Z then
        match fuel with
        | O => None
        | S fuel => follow fuel l k data (PNode n) res
        end
      else Some (p, Some n, res)
  end.

(** The outer loop, down to level 0. *)
Fixpoint descend (l : Skiplist) (data : K) (k : nat) (p : ptr) (res : Z)
  : option (option nat * Z) :=
  '(p, q, res) ← follow (size (nodes l)) l k data p res;
  match k with
  | O => Some (q, res)
  | S k => descend l data k p res
  end.

(** The outer loop that notes where each level was left ([update]). *)
Fixpoint descend_update (l : Skiplist) (data : K) (k : nat) (p : ptr) (res : Z) (update : list ptr)
  : option (option nat * Z * list ptr) :=
  '(p, q, res) ← follow (size (nodes l)) l k data p res;
  if k <? LEVELS then
    let update := <[k := p]> update in
    match k with
    | O => Some (q, res, update)
    | S k => descend_update l data k p res update
    end
  else None.

(** [q && !res] *)
Definition found (q : option nat) (res : Z) : option nat :=
  match q with Some n => if (res =? 0)%Z then Some n else None | None => None end.

(** [sl_search]: the node found. *)
Definition sl_search (l : Skiplist) (data : K) : option (option nat) :=
  if length_ l =? 0 then Some None
  else
    '(q, res) ← descend l data (level l) PHdr 1;
    Some (found q res).

(** [sl_next] *)
Definition sl_next (l : Skiplist) (data : K) : option (option nat) :=
  if length_ l =? 0 then Some None
  else
    '(q, res) ← descend l data (level l) PHdr 1;
    match q with
    | Some n => if (res =? 0)%Z then get_next l (PNode n) 0 else Some (Some n)
    | None => Some None
    end.

(** ** Updates *)

(** Link [q] in at the levels [k] to 0. *)
Fixpoint link (k : nat) (q : nat) (update : list ptr) (l : Skiplist) : option Skiplist :=
  p ← update !! k;
  nx ← get_next l p k;
  l ← set_next (PNode q) k nx l;
  l ← set_next p k (Some q) l;
  match k with
  | O => Some l
  | S k => link k q update l
  end.

(** The insertion of a new node behind [update]. *)
Definition insert_node (alloc : nat -> option nat) (undef : D) (k : nat) (update : list ptr) (l : Skiplist)
  : option (Skiplist * option (nat * bool)) :=
  match new_node alloc k undef l with
  | None => Some (l, None)
  | Some (q, l) =>
      l ← link k q update l;
      Some (set_length (S (length_ l)) l, Some (q, true))
  end.

(** The level of the new node: at most one more than the list has. *)
Definition insert_at (alloc : nat -> option nat) (undef : D) (k : nat) (update : list ptr) (l : Skiplist)
  : option (Skiplist * option (nat * bool)) :=
  if level l <? k then
    let k := S (level l) in
    if k <? LEVELS then insert_node alloc undef k (<[k := PHdr]> update) (set_level k l) else None
  else insert_node alloc undef k update l.

(** [sl_insert]: the list, the node with [*allocated] ([None] for NULL), and
    the random generator; [undef] is what the fresh data area holds. *)
Definition sl_insert (alloc : nat -> option nat) (undef : D) (l : Skiplist) (data : K) (r : Rand)
  : option (Skiplist * option (nat * bool) * Rand) :=
  let update := replicate LEVELS PHdr in
  if length_ l =? 0 then
    '(l, res) ← insert_node alloc undef 0 (<[0 := PHdr]> update) (set_level 0 l);
    Some (l, res, r)
  else
    '(q, res, update) ← descend_update l data (level l) PHdr (-1) update;
    match found q res with
    | Some n => Some (l, Some (n, false), r)
    | None =>
        '(k, r) ← random_level r;
        '(l, res) ← insert_at alloc undef (Z.to_nat k) update l;
        Some (l, res, r)
    end.

(** The user data is stored by the caller. *)
Definition store_data (n : nat) (d : D) (l : Skiplist) : Skiplist :=
  mkSL (level l) (length_ l) (header l) (alter (fun nd => mkNode d (nd_next nd)) n (nodes l)).

(** Unlink [q] from level [k] on; [c] levels are left. *)
Fixpoint unlink (c k : nat) (q : nat) (update : list ptr) (l : Skiplist) : option Skiplist :=
  match c with
  | O => Some l
  | S c =>
      p ← update !! k;
      nx ← get_next l p k;
      if decide (nx = Some q) then
        qn ← get_next l (PNode q) k;
        l ← set_next p k qn l;
        unlink c (S k) q update l
      else Some l
  end.

(** The highest level in use, from [m] down. *)
Fixpoint trim (m : nat) (l : Skiplist) : option nat :=
  h ← header l !! m;
  match h, m with
  | None, S m => trim m l
  | _, _ => Some m
  end.

(** [sl_delete] *)
Definition sl_delete (l : Skiplist) (data : K) : option (Skiplist * bool) :=
  if length_ l =? 0 then Some (l, false)
  else
    '(q, res, update) ← descend_update l data (level l) PHdr 1 (replicate LEVELS PHdr);
    match found q res with
    | Some n =>
        l' ← unlink (S (level l)) 0 n update l;
        let l' := free_node n l' in
        m ← trim (level l) l';
        Some (set_length (length_ l' - 1) (set_level m l'), true)
    | None => Some (l, false)
    end.

(** ** Traversal *)

(** [sl_walk]: the visitor works on [arg] and says whether to go on. *)
Fixpoint walk_chain {A} (fuel : nat) (visit : nat -> D -> A -> A * bool) (l : Skiplist) (p : option nat) (arg : A)
  : option A :=
  match p with
  | None => Some arg
  | Some n =>
      match fuel with
      | O => None
      | S fuel =>
          q ← get_next l (PNode n) 0;
          d ← data_of l n;
          let '(arg, go) := visit n d arg in
          if go then walk_chain fuel visit l q arg else Some arg
      end
  end.

Definition sl_walk {A} (visit : nat -> D -> A -> A * bool) (l : Skiplist) (arg : A) : option A :=
  if length_ l =? 0 then Some arg
  else p ← header l !! 0; walk_chain (S (size (nodes l))) visit l p arg.

(** [sl_head] *)
Definition sl_head (l : Skiplist) : option (option nat) :=
  if length_ l =? 0 then Some None else header l !! 0.

End Skiplist.

Arguments SLNode : clear implicits.
Arguments Skiplist : clear implicits.
