(* ===== verification/SkiplistProps.v ===== *)
(** Skiplists implement sorted lists: the representation invariant, and what
    every operation does to the list it stands for. *)

From stdpp Require Import gmap sorting.
From S2P Require Import Prelude Random Skiplist.
From stdpp Require Import list.

#[local] Open Scope nat_scope.

Section Props.
Context {D K : Type} `{ListEqf D K}.
Implicit Types l : Skiplist D.

(** An element of the list: the address of its node, the number of its
    forward pointers and its data. *)
Record El := mkEl { loc : nat; hgt : nat; dat : D }.
Implicit Types L A B : list El.

(** The first element of [L] that is linked at level [k], and the last one,
    the header if there is none. *)
Fixpoint first (k : nat) L : option nat :=
  match L with
  | [] => None
  | e :: L => if k <? hgt e then Some (loc e) else first k L
  end.

Fixpoint lastp_from (k : nat) (p : ptr) L : ptr :=
  match L with
  | [] => p
  | e :: L => lastp_from k (if k <? hgt e then PNode (loc e) else p) L
  end.

Definition lastp (k : nat) L : ptr := lastp_from k PHdr L.

Definition below (k : nat) L : Prop := Forall (fun e => hgt e <= k) L.

Definition klt (e1 e2 : El) : Prop := (fct (dat e1) (key (dat e2)) < 0)%Z.

(** The list stands for [L]. *)
Record linked l L : Prop := mkLinked {
  lk_next : forall k A B, k < S LEVELS -> L = A ++ B -> get_next l (lastp k A) k = Some (first k B);
  lk_node : forall e, e ∈ L -> exists nx, nodes l !! loc e = Some (mkNode (dat e) nx) /\ length nx = hgt e;
  lk_hgt : Forall (fun e => 1 <= hgt e <= S (level l)) L;
  lk_nodup : NoDup (loc <$> L);
  lk_dom : forall n, is_Some (nodes l !! n) -> n ∈ loc <$> L;
  lk_level : level l < LEVELS;
  lk_header : length (header l) = S LEVELS;
  lk_length : length_ l = length L
}.

Definition repr l L : Prop := linked l L /\ StronglySorted klt L.

(** *** [first] and [lastp] *)

Lemma first_app k A B :
  first k (A ++ B) = match first k A with Some n => Some n | None => first k B end.
Proof. induction A as [|e A IH]; simpl; [done|]. by destruct (k <? hgt e). Qed.

Lemma first_below k A : first k A = None <-> below k A.
Proof.
  induction A as [|e A IH]; simpl; [split; [constructor|done]|].
  destruct (Nat.ltb_spec k (hgt e)); split; intros HH; try done.
  - inversion HH; subst; lia.
  - constructor; [lia|]. by apply IH.
  - inversion HH; subst. by apply IH.
Qed.

Lemma first_elem k A n : first k A = Some n -> exists A1 e A2, A = A1 ++ e :: A2 /\ below k A1 /\ k < hgt e /\ loc e = n.
Proof.
  induction A as [|e A IH]; simpl; intros Hf; [done|].
  destruct (Nat.ltb_spec k (hgt e)).
  - simplify_eq. exists [], e, A. repeat split; [constructor|done].
  - destruct (IH Hf) as (A1 & e' & A2 & -> & Hb & Hh & <-).
    exists (e :: A1), e', A2. repeat split; [|done]. constructor; [lia|done].
Qed.

Lemma lastp_from_app k p A B : lastp_from k p (A ++ B) = lastp_from k (lastp_from k p A) B.
Proof. revert p; induction A as [|e A IH]; intros p; simpl; [done|]. by rewrite IH. Qed.

Lemma lastp_from_below k p A : below k A -> lastp_from k p A = p.
Proof.
  intros Hb. revert p; induction Hb as [|e A He _ IH]; intros p; simpl; [done|].
  destruct (Nat.ltb_spec k (hgt e)); [lia|]. by rewrite IH.
Qed.

Lemma lastp_app_below k A B : below k B -> lastp k (A ++ B) = lastp k A.
Proof. intros Hb. unfold lastp. by rewrite lastp_from_app, lastp_from_below. Qed.

Lemma lastp_snoc k A e B : k < hgt e -> below k B -> lastp k (A ++ e :: B) = PNode (loc e).
Proof.
  intros Hh Hb. unfold lastp. rewrite lastp_from_app. simpl.
  destruct (Nat.ltb_spec k (hgt e)); [|lia]. by rewrite lastp_from_below.
Qed.

(** Either nothing reaches level [k], or there is a last element that does. *)
Lemma split_last k A :
  below k A \/ exists A1 e A2, A = A1 ++ e :: A2 /\ k < hgt e /\ below k A2.
Proof.
  induction A as [|x A IH] using rev_ind; [left; constructor|].
  destruct (decide (k < hgt x)) as [Hx|Hx].
  - right. exists A, x, []. repeat split; [done|constructor].
  - destruct IH as [Hb|(A1 & e & A2 & -> & Hh & Hb)].
    + left. apply Forall_app. split; [done|]. constructor; [lia|constructor].
    + right. exists A1, e, (A2 ++ [x]). rewrite <- app_assoc. simpl. repeat split; [done|].
      apply Forall_app. split; [done|]. constructor; [lia|constructor].
Qed.

Lemma lastp_cases k A :
  (below k A /\ lastp k A = PHdr) \/
  exists A1 e A2, A = A1 ++ e :: A2 /\ k < hgt e /\ below k A2 /\ lastp k A = PNode (loc e).
Proof.
  destruct (split_last k A) as [Hb|(A1 & e & A2 & -> & Hh & Hb)].
  - left. split; [done|]. by apply lastp_from_below.
  - right. exists A1, e, A2. repeat split; [done..|]. by apply lastp_snoc.
Qed.

(** A position of level [k + 1] is one of level [k]. *)
Lemma lastp_down k A : exists A1 A2, A = A1 ++ A2 /\ lastp (S k) A = lastp k A1.
Proof.
  destruct (lastp_cases (S k) A) as [[Hb ->]|(A1 & e & A2 & -> & Hh & Hb & ->)].
  - by exists [], A.
  - exists (A1 ++ [e]), A2. rewrite <- app_assoc. split; [done|].
    symmetry. apply lastp_snoc; [lia|constructor].
Qed.

(** In a list without repetitions, an element linked behind [A] makes a
    difference. *)
Lemma lastp_ne k A B :
  NoDup (loc <$> A ++ B) -> ~ below k B -> lastp k (A ++ B) <> lastp k A.
Proof.
  intros Hnd Hb. destruct (split_last k B) as [?|(B1 & e & B2 & -> & Hh & Hb2)]; [done|].
  rewrite app_assoc, lastp_snoc by done.
  destruct (lastp_cases k A) as [[_ ->]|(A1 & a & A2 & -> & _ & _ & ->)]; [done|].
  intros [= Heq]. rewrite !fmap_app, !fmap_cons in Hnd.
  apply NoDup_app in Hnd as (_ & Hd & _). apply (Hd (loc a)).
  - apply elem_of_app. right. left.
  - rewrite <- Heq. apply elem_of_app. right. left.
Qed.

(** *** Searching *)

Definition smaller (k : K) L : Prop := Forall (fun e => (fct (dat e) k < 0)%Z) L.
Definition not_smaller (k : K) L : Prop := Forall (fun e => (0 <= fct (dat e) k)%Z) L.

(** A sorted list splits at every key. *)
Lemma split_at (data : K) L :
  StronglySorted klt L -> exists A B, L = A ++ B /\ smaller data A /\ not_smaller data B.
Proof.
  induction 1 as [|e L Hs IH Hle].
  - exists [], []. repeat split; constructor.
  - destruct (decide (fct (dat e) data < 0)%Z) as [Hlt|Hge].
    + destruct IH as (A & B & -> & HA & HB). exists (e :: A), B. repeat split; [by constructor|done].
    + exists [], (e :: L). repeat split; [constructor|]. constructor; [lia|].
      eapply Forall_impl; [exact Hle|]. intros x Hx. cbv beta.
      destruct (decide (fct (dat x) data < 0)%Z); [|lia].
      pose proof (fct_trans (dat e) (dat x) data Hx ltac:(lia)). lia.
Qed.

Lemma size_nodes l L : linked l L -> length L <= size (nodes l).
Proof.
  intros Hl. rewrite <- (length_fmap loc L), <- (size_list_to_set (C := gset nat)) by apply (lk_nodup _ _ Hl).
  rewrite <- size_dom. apply subseteq_size. intros n Hn. apply elem_of_list_to_set in Hn.
  apply list_elem_of_fmap in Hn as (e & -> & He). destruct (lk_node _ _ Hl e He) as (nx & Hx & _).
  apply elem_of_dom. by eexists.
Qed.

Section Search.
Context l L (Hl : linked l L) (data : K) A0 B0.
Context (HL : L = A0 ++ B0) (HA : smaller data A0) (HB : not_smaller data B0).

(** What the comparison at the end of a level gives. *)
Definition last_res (q : option nat) (res : Z) : Prop :=
  match q with
  | None => True
  | Some n => exists e, e ∈ B0 /\ loc e = n /\ res = fct (dat e) data
  end.

Lemma data_of_el e : e ∈ L -> data_of l (loc e) = Some (dat e).
Proof. intros He. destruct (lk_node _ _ Hl e He) as (nx & Hn & _). unfold data_of. by rewrite Hn. Qed.

(** The inner loop ends at the first element that is not smaller. *)
Lemma follow_stop k fuel p res :
  get_next l p k = Some (first k B0) ->
  exists res', follow fuel l k data p res = Some (p, first k B0, res') /\ last_res (first k B0) res'.
Proof.
  intros Hg. destruct (first k B0) as [n|] eqn:Hn;
    [|exists res; destruct fuel; cbn [follow]; by rewrite Hg].
  destruct (first_elem _ _ _ Hn) as (B1 & e & B2 & HB0 & _ & _ & <-).
  assert (He : e ∈ B0) by (rewrite HB0; apply elem_of_app; right; left).
  exists (fct (dat e) data). split; [|by exists e].
  assert (Hd : data_of l (loc e) = Some (dat e)) by (apply data_of_el; rewrite HL; apply elem_of_app; by right).
  pose proof (proj1 (Forall_forall _ _) HB e He) as Hge. cbv beta in Hge.
  destruct fuel; cbn [follow]; rewrite Hg; cbn [mbind option_bind]; rewrite Hd; cbn [mbind option_bind];
    destruct (Z.ltb_spec (fct (dat e) data) 0); (lia || done).
Qed.

Lemma follow_ok k fuel A A' res :
  k < S LEVELS -> A0 = A ++ A' -> length A' <= fuel ->
  exists res', follow fuel l k data (lastp k A) res = Some (lastp k A0, first k B0, res') /\
    last_res (first k B0) res'.
Proof.
  intros Hk. revert A A' res. induction fuel as [|fuel IH]; intros A A' res HA0 Hf;
    assert (Hg : get_next l (lastp k A) k = Some (first k (A' ++ B0)))
      by (apply (lk_next _ _ Hl); [done|by rewrite HL, HA0, app_assoc]);
    rewrite first_app in Hg; destruct (first k A') as [n|] eqn:Hn.
  1: by destruct A'; simpl in *; [done|lia].
  2: { destruct (first_elem _ _ _ Hn) as (A1 & e & A2 & -> & Hb & Hh & <-).
    assert (He : e ∈ A0) by (rewrite HA0; apply elem_of_app; right; apply elem_of_app; right; left).
    cbn [follow]. rewrite Hg. cbn [mbind option_bind].
    rewrite data_of_el by (rewrite HL; apply elem_of_app; by left). cbn [mbind option_bind].
    pose proof (proj1 (Forall_forall _ _) HA e He) as Hlt. cbv beta in Hlt.
    destruct (Z.ltb_spec (fct (dat e) data) 0); [|lia].
    replace (PNode (loc e)) with (lastp k (A ++ A1 ++ [e])).
    - apply (IH _ A2); [by rewrite HA0, <- !app_assoc|]. rewrite length_app in Hf. simpl in Hf. lia.
    - rewrite app_assoc. apply lastp_snoc; [done|constructor]. }
  all: apply first_below in Hn;
    assert (Hp : lastp k A0 = lastp k A) by (by rewrite HA0, lastp_app_below);
    rewrite Hp; by apply follow_stop.
Qed.

Lemma fuel_enough A A' : A0 = A ++ A' -> length A' <= size (nodes l).
Proof.
  intros ->. transitivity (length L); [rewrite HL, !length_app; lia|]. by apply size_nodes.
Qed.

Lemma descend_ok k A A' res :
  k < S LEVELS -> A0 = A ++ A' ->
  exists res', descend l data k (lastp k A) res = Some (first 0 B0, res') /\ last_res (first 0 B0) res'.
Proof.
  revert A A' res; induction k as [|k IH]; intros A A' res Hk HA0; cbn [descend];
    destruct (follow_ok _ (size (nodes l)) A A' res Hk HA0) as (res' & -> & Hr);
    try (by apply (fuel_enough A)); cbn [mbind option_bind]; [by eexists|].
  destruct (lastp_down k A0) as (A1 & A2 & HA1 & ->). apply (IH A1 A2); [lia|done].
Qed.

Lemma descend_update_ok k A A' res update :
  k < LEVELS -> A0 = A ++ A' -> length update = LEVELS ->
  exists res' update', descend_update l data k (lastp k A) res update = Some (first 0 B0, res', update') /\
    last_res (first 0 B0) res' /\ length update' = LEVELS /\
    forall j, j <= k -> update' !! j = Some (lastp j A0).
Proof.
  assert (Hgen : forall k A A' res update, k < LEVELS -> A0 = A ++ A' -> length update = LEVELS ->
    exists res' update', descend_update l data k (lastp k A) res update = Some (first 0 B0, res', update') /\
    last_res (first 0 B0) res' /\ length update' = LEVELS /\
    (forall j, j <= k -> update' !! j = Some (lastp j A0)) /\ forall j, k < j -> update' !! j = update !! j).
  { clear k A A' res update. induction k as [|k IH]; intros A A' res update Hk HA0 Hu; cbn [descend_update];
      destruct (follow_ok _ (size (nodes l)) A A' res (Nat.lt_lt_succ_r _ _ Hk) HA0) as (res' & -> & Hr);
      try (by apply (fuel_enough A)); cbn [mbind option_bind];
      (rewrite (proj2 (Nat.ltb_lt _ _) Hk)); cbv zeta.
    - eexists _, _. split; [done|]. split; [done|]. split; [by rewrite length_insert|]. split; intros j Hj.
      + replace j with 0 by lia. apply list_lookup_insert_eq. lia.
      + apply list_lookup_insert_ne. lia.
    - destruct (lastp_down k A0) as (A1 & A2 & HA1 & Hp).
      destruct (IH A1 A2 res' (<[S k := lastp (S k) A0]> update)) as (r & u & Hd & Hr' & Hlen & Hu1 & Hu2);
        [lia|done|by rewrite length_insert|].
      rewrite <- Hp in Hd. exists r, u. split; [exact Hd|]. split; [done|]. split; [done|]. split; intros j Hj.
      + destruct (decide (j = S k)) as [->|]; [|apply Hu1; lia].
        rewrite Hu2 by lia. apply list_lookup_insert_eq. lia.
      + rewrite Hu2 by lia. apply list_lookup_insert_ne. lia. }
  intros Hk HA0 Hu. destruct (Hgen k A A' res update Hk HA0 Hu) as (r & u & ? & ? & ? & ? & _).
  exists r, u. auto.
Qed.

End Search.

(** *** What a search finds *)

Definition find_eq (data : K) L : option El := List.find (fun e => (fct (dat e) data =? 0)%Z) L.
Definition find_gt (data : K) L : option El := List.find (fun e => (0 <? fct (dat e) data)%Z) L.

Lemma find_app {T} (f : T -> bool) (l1 l2 : list T) :
  List.find f (l1 ++ l2) = match List.find f l1 with Some x => Some x | None => List.find f l2 end.
Proof. induction l1 as [|x l1 IH]; simpl; [done|]. by destruct (f x). Qed.

Lemma find_none_Forall {T} (f : T -> bool) (l1 : list T) : Forall (fun x => f x = false) l1 -> List.find f l1 = None.
Proof. induction 1 as [|x l1 Hx _ IH]; simpl; [done|]. by rewrite Hx. Qed.

Lemma smaller_find (f : Z -> bool) (data : K) A :
  (forall z, (z < 0)%Z -> f z = false) -> smaller data A -> List.find (fun e => f (fct (dat e) data)) A = None.
Proof. intros Hf HA. apply find_none_Forall. eapply Forall_impl; [exact HA|]. auto. Qed.

Lemma sorted_app_r A B : StronglySorted klt (A ++ B) -> StronglySorted klt B.
Proof. induction A as [|x A IH]; simpl; [done|]. inversion 1; auto. Qed.

(** Behind an element that is not smaller, all elements are greater. *)
Lemma tail_greater (data : K) e B :
  StronglySorted klt (e :: B) -> (0 <= fct (dat e) data)%Z -> Forall (fun x => (0 < fct (dat x) data)%Z) B.
Proof.
  intros Hs He. inversion Hs as [|? ? _ Hle]; subst. eapply Forall_impl; [exact Hle|]. intros x Hx. cbv beta.
  destruct (decide (0 < fct (dat x) data)%Z) as [|Hn]; [done|].
  pose proof (fct_trans (dat e) (dat x) data Hx ltac:(lia)). lia.
Qed.

Lemma find_split (data : K) A B :
  StronglySorted klt (A ++ B) -> smaller data A -> not_smaller data B ->
  find_eq data (A ++ B) = match B with e :: _ => if (fct (dat e) data =? 0)%Z then Some e else None | [] => None end /\
  find_gt data (A ++ B) = match B with e :: B' => if (fct (dat e) data =? 0)%Z then head B' else Some e | [] => None end.
Proof.
  intros Hs HA HB. apply sorted_app_r in Hs. unfold find_eq, find_gt. rewrite !find_app.
  rewrite (smaller_find (fun z => (z =? 0)%Z)) by (done || (intros; apply Z.eqb_neq; lia)).
  rewrite (smaller_find (fun z => (0 <? z)%Z)) by (done || (intros; apply Z.ltb_ge; lia)).
  destruct B as [|e B]; [done|]. inversion HB as [|? ? He _]; subst.
  pose proof (tail_greater data e B Hs He) as Hg. simpl. split.
  - destruct (fct (dat e) data =? 0)%Z; [done|]. apply find_none_Forall. eapply Forall_impl; [exact Hg|].
    intros x Hx. cbv beta in *. apply Z.eqb_neq. lia.
  - destruct (Z.eqb_spec (fct (dat e) data) 0) as [E|E].
    + rewrite E. simpl. destruct B as [|x B]; [done|]. inversion Hg; subst. simpl.
      by rewrite (proj2 (Z.ltb_lt _ _)).
    + by rewrite (proj2 (Z.ltb_lt _ _)) by lia.
Qed.

Lemma first_0 l L B : linked l L -> (forall e, e ∈ B -> e ∈ L) -> first 0 B = loc <$> head B.
Proof.
  intros Hl Hin. destruct B as [|e B]; [done|]. simpl.
  pose proof (proj1 (Forall_forall _ _) (lk_hgt _ _ Hl) e (Hin e ltac:(left))) as [? _].
  by rewrite (proj2 (Nat.ltb_lt _ _)) by lia.
Qed.

(** The comparison result that goes with the first element of [B]. *)
Lemma last_res_head l A B data res :
  linked l (A ++ B) -> last_res data B (loc <$> head B) res ->
  match B with e :: _ => res = fct (dat e) data | [] => True end.
Proof.
  intros Hl Hr. destruct B as [|e B]; [done|]. simpl in Hr. destruct Hr as (e' & He & Hloc & ->).
  apply elem_of_cons in He as [->|He]; [done|]. exfalso.
  pose proof (lk_nodup _ _ Hl) as Hnd. rewrite fmap_app, fmap_cons in Hnd.
  apply NoDup_app in Hnd as (_ & _ & Hnd). apply NoDup_cons in Hnd as [Hn _].
  apply Hn. rewrite <- Hloc. by apply list_elem_of_fmap_2.
Qed.

Lemma found_head B (data : K) res :
  match B with e :: _ => res = fct (dat e) data | [] => True end ->
  found (loc <$> head B) res
  = loc <$> match B with e :: _ => if (fct (dat e) data =? 0)%Z then Some e else None | [] => None end.
Proof. destruct B as [|e B]; simpl; [done|]. intros ->. by destruct (_ =? _)%Z. Qed.

Lemma length_0 l L : linked l L -> length_ l = 0 -> L = [].
Proof. intros Hl Hz. rewrite (lk_length _ _ Hl) in Hz. by destruct L. Qed.

Lemma app_in_r A B (e : El) : e ∈ B -> e ∈ A ++ B.
Proof. intros. apply elem_of_app. by right. Qed.

Lemma app_in_l A B (e : El) : e ∈ A -> e ∈ A ++ B.
Proof. intros. apply elem_of_app. by left. Qed.

Lemma sl_search_repr l L data :
  repr l L -> sl_search l data = Some (loc <$> find_eq data L).
Proof.
  intros [Hl Hs]. unfold sl_search. destruct (Nat.eqb_spec (length_ l) 0) as [Hz|Hz].
  { by rewrite (length_0 l L Hl Hz). }
  destruct (split_at data L Hs) as (A & B & -> & HA & HB).
  destruct (descend_ok l _ Hl data A B eq_refl HA HB (level l) [] A 1%Z) as (res & Hd & Hr);
    [pose proof (lk_level _ _ Hl); lia|done|].
  change (lastp (level l) []) with PHdr in Hd. rewrite Hd. cbn [mbind option_bind].
  rewrite (first_0 l _ _ Hl (app_in_r A B)) in *. apply (last_res_head l A) in Hr; [|done].
  f_equal. rewrite (found_head B data res Hr). by destruct (find_split data A B Hs HA HB) as [-> _].
Qed.

Lemma sl_next_repr l L data :
  repr l L -> sl_next l data = Some (loc <$> find_gt data L).
Proof.
  intros [Hl Hs]. unfold sl_next. destruct (Nat.eqb_spec (length_ l) 0) as [Hz|Hz].
  { by rewrite (length_0 l L Hl Hz). }
  destruct (split_at data L Hs) as (A & B & -> & HA & HB).
  destruct (descend_ok l _ Hl data A B eq_refl HA HB (level l) [] A 1%Z) as (res & Hd & Hr);
    [pose proof (lk_level _ _ Hl); lia|done|].
  change (lastp (level l) []) with PHdr in Hd. rewrite Hd. cbn [mbind option_bind].
  rewrite (first_0 l _ _ Hl (app_in_r A B)) in *. apply (last_res_head l A) in Hr; [|done].
  destruct (find_split data A B Hs HA HB) as [_ ->].
  destruct B as [|e B]; [done|]. simpl. subst res. destruct (_ =? _)%Z; [|done].
  pose proof (proj1 (Forall_forall _ _) (lk_hgt _ _ Hl) e ltac:(apply app_in_r; left)) as [He _].
  assert (Hp : lastp 0 (A ++ [e]) = PNode (loc e)) by (apply lastp_snoc; [lia|constructor]).
  pose proof (lk_next _ _ Hl 0 (A ++ [e]) B ltac:(lia) ltac:(by rewrite <- app_assoc)) as Hg.
  rewrite Hp in Hg. cbn [get_next] in Hg. rewrite Hg. f_equal. apply (first_0 l _ _ Hl).
  intros x Hx. apply app_in_r. by right.
Qed.

(** *** Pointer updates *)

(** The data and the number of pointers of a node. *)
Definition shape l (n : nat) : option (D * nat) :=
  (fun nd => (nd_data nd, length (nd_next nd))) <$> nodes l !! n.

(** [l'] has the nodes of [l], up to their pointers. *)
Record same l l' : Prop := mkSame {
  sm_level : level l' = level l;
  sm_length : length_ l' = length_ l;
  sm_header : length (header l') = length (header l);
  sm_shape : forall n, shape l' n = shape l n
}.

Lemma same_refl l : same l l.
Proof. done. Qed.

Lemma same_trans l1 l2 l3 : same l1 l2 -> same l2 l3 -> same l1 l3.
Proof. intros [] []. constructor; congruence. Qed.

Lemma sl_set_next_ok l p k q :
  is_Some (get_next l p k) ->
  exists l', set_next p k q l = Some l' /\ same l l' /\
    forall p' k', get_next l' p' k' = if decide (p' = p /\ k' = k) then Some q else get_next l p' k'.
Proof.
  intros [x Hg]. destruct p as [|n]; cbn [get_next set_next] in *.
  - rewrite (proj2 (Nat.ltb_lt _ _)) by (by eapply lookup_lt_Some).
    eexists. split; [done|]. split.
    + constructor; try done. simpl. by rewrite length_insert.
    + intros [|n] k'; cbn [get_next header nodes]; case_decide as E; try (by destruct E); try done.
      * destruct E as [_ ->]. apply list_lookup_insert_eq. by eapply lookup_lt_Some.
      * apply list_lookup_insert_ne. intros <-. by apply E.
  - destruct (nodes l !! n) as [nd|] eqn:Hn; [|done]. cbn [mbind option_bind] in *.
    rewrite (proj2 (Nat.ltb_lt _ _)) by (by eapply lookup_lt_Some).
    eexists. split; [done|]. split.
    + constructor; try done. intros m. unfold shape. cbn [nodes].
      destruct (decide (m = n)) as [->|Hm]; [|by rewrite lookup_insert_ne].
      rewrite lookup_insert_eq, Hn. simpl. by rewrite length_insert.
    + intros [|m] k'; cbn [get_next header nodes]; [by case_decide as E; [destruct E|]|].
      destruct (decide (m = n)) as [->|Hm].
      * rewrite lookup_insert_eq, Hn. cbn [mbind option_bind nd_next]. case_decide as E.
        -- destruct E as [_ ->]. apply list_lookup_insert_eq. by eapply lookup_lt_Some.
        -- apply list_lookup_insert_ne. intros <-. by apply E.
      * rewrite lookup_insert_ne by done. case_decide as E; [|done]. destruct E as [[= ->] _]. done.
Qed.

(** One level of [link]. *)
Lemma link_one k q p nx l :
  p <> PNode q -> get_next l p k = Some nx -> is_Some (get_next l (PNode q) k) ->
  exists l1 l2, set_next (PNode q) k nx l = Some l1 /\ set_next p k (Some q) l1 = Some l2 /\ same l l2 /\
    forall p' j, get_next l2 p' j =
      if decide (j = k) then
        if decide (p' = PNode q) then Some nx else if decide (p' = p) then Some (Some q) else get_next l p' j
      else get_next l p' j.
Proof.
  intros Hne Hg Hq. destruct (sl_set_next_ok l (PNode q) k nx Hq) as (l1 & H1 & S1 & G1).
  destruct (sl_set_next_ok l1 p k (Some q)) as (l2 & H2 & S2 & G2).
  { rewrite G1. case_decide as E; [by destruct E|by eexists]. }
  exists l1, l2. split; [done|]. split; [done|]. split; [by eapply same_trans|]. intros p' j.
  rewrite G2, G1. repeat case_decide; destruct_and?; subst; first [done|exfalso; tauto].
Qed.

(** Linking node [q] in behind the nodes [P j]. *)
Lemma link_ok k q update l (P : nat -> ptr) (N : nat -> option nat) :
  (forall j, j <= k -> update !! j = Some (P j) /\ P j <> PNode q /\
     get_next l (P j) j = Some (N j) /\ is_Some (get_next l (PNode q) j)) ->
  exists l', link k q update l = Some l' /\ same l l' /\
    forall p j, get_next l' p j =
      if decide (j <= k) then
        if decide (p = PNode q) then Some (N j) else if decide (p = P j) then Some (Some q) else get_next l p j
      else get_next l p j.
Proof.
  revert l; induction k as [|k IH]; intros l Hk; cbn [link];
    destruct (Hk _ (Nat.le_refl _)) as (Hu & Hne & Hg & Hq);
    destruct (link_one _ _ _ _ _ Hne Hg Hq) as (l1 & l2 & H1 & H2 & S2 & G2);
    rewrite Hu; cbn [mbind option_bind]; rewrite Hg; cbn [mbind option_bind];
    rewrite H1; cbn [mbind option_bind]; rewrite H2; cbn [mbind option_bind].
  - exists l2. split; [done|]. split; [done|]. intros p j. rewrite G2.
    destruct (decide (j = 0)), (decide (j <= 0)); subst; (done || lia).
  - destruct (IH l2) as (l3 & H3 & S3 & G3).
    { intros j Hj. destruct (Hk j ltac:(lia)) as (? & ? & Hgj & Hqj). rewrite !G2.
      rewrite !(decide_False (P := j = S k)) by lia. auto. }
    exists l3. split; [done|]. split; [by eapply same_trans|]. intros p j. rewrite G3, G2.
    destruct (decide (j <= k)), (decide (j = S k)), (decide (j <= S k)); subst; (done || lia).
Qed.

(** Refute a negated conjunction. *)
Ltac contra_and := match goal with H : ~ (_ /\ _) |- _ => exfalso; apply H; split; (lia || done) end.

(** Unlinking node [q], which is linked at the levels below [h]. *)
Lemma unlink_ok c k q update l (P : nat -> ptr) (N : nat -> option nat) h :
  h <= k + c ->
  (forall j, k <= j < k + c -> update !! j = Some (P j) /\ P j <> PNode q /\
     exists x, get_next l (P j) j = Some x /\ (x = Some q <-> j < h) /\
     (j < h -> get_next l (PNode q) j = Some (N j))) ->
  exists l', unlink c k q update l = Some l' /\ same l l' /\
    forall p j, get_next l' p j = if decide (k <= j < h /\ p = P j) then Some (N j) else get_next l p j.
Proof.
  revert k l; induction c as [|c IH]; intros k l Hh Hk; cbn [unlink].
  - exists l. split; [done|]. split; [done|]. intros p j. rewrite decide_False; [done|lia].
  - destruct (Hk k ltac:(lia)) as (Hu & Hp & x & Hg & Hx & Hq). rewrite Hu; cbn [mbind option_bind].
    rewrite Hg; cbn [mbind option_bind]. destruct (decide (x = Some q)) as [E|E].
    + apply Hx in E as Hkh. rewrite (Hq Hkh); cbn [mbind option_bind].
      destruct (sl_set_next_ok l (P k) k (N k)) as (l1 & H1 & S1 & G1); [by eexists|].
      rewrite H1; cbn [mbind option_bind]. destruct (decide (c = 0)) as [->|Hc].
      { exists l1. split; [done|]. split; [done|]. intros p j. rewrite G1.
        destruct (decide (j = k)) as [->|]; repeat case_decide; destruct_and?; subst; first [done|lia|contra_and]. }
      destruct (IH (S k) l1) as (l2 & H2 & S2 & G2); [lia| |].
      * intros j Hj. destruct (Hk j ltac:(lia)) as (? & ? & y & ? & ? & ?). split; [done|]. split; [done|].
        exists y. rewrite !G1. rewrite !decide_False by (intros []; lia). auto.
      * exists l2. split; [done|]. split; [by eapply same_trans|]. intros p j. rewrite G2, G1.
        destruct (decide (j = k)) as [->|]; repeat case_decide; destruct_and?; subst; first [done|lia|contra_and].
    + exists l. split; [done|]. split; [done|]. intros p j. rewrite decide_False; [done|].
      intros [[? ?] _]. apply E, Hx. lia.
Qed.

(** *** Insertion *)

Lemma shape_node l e :
  shape l (loc e) = Some (dat e, hgt e) <->
  exists nx, nodes l !! loc e = Some (mkNode (dat e) nx) /\ length nx = hgt e.
Proof.
  unfold shape. split.
  - intros Hs. apply fmap_Some in Hs as ([d nx] & Hn & [= Hd Hh]). simpl in *. exists nx. by subst.
  - intros (nx & -> & Hh). simpl. by rewrite Hh.
Qed.

Lemma shape_some l n : is_Some (shape l n) <-> is_Some (nodes l !! n).
Proof. unfold shape. apply fmap_is_Some. Qed.

Lemma lastp_skip j A e A' : ~ below j A' -> lastp j (A ++ e :: A') = lastp j (A ++ A').
Proof.
  intros Hb. destruct (split_last j A') as [?|(A1 & x & A2 & -> & Hh & Hb2)]; [done|].
  rewrite app_comm_cons, !app_assoc. by rewrite !lastp_snoc.
Qed.

Lemma lastp_in j A q : lastp j A = PNode q -> q ∈ loc <$> A.
Proof.
  destruct (lastp_cases j A) as [[_ ->]|(A1 & e & A2 & -> & _ & _ & ->)]; [done|].
  intros [= <-]. rewrite fmap_app, fmap_cons. apply elem_of_app. right. left.
Qed.

Lemma below_dec j A : Decision (below j A).
Proof. apply Forall_dec. apply _. Defined.

(** The pointers after [e] was linked in between [A0] and [B0]. *)
Lemma insert_next l l' A0 B0 e j :
  linked l (A0 ++ B0) -> loc e ∉ loc <$> A0 ++ B0 -> j < S LEVELS ->
  (forall p, get_next l' p j =
     if decide (j < hgt e) then
       if decide (p = PNode (loc e)) then Some (first j B0)
       else if decide (p = lastp j A0) then Some (Some (loc e)) else get_next l p j
     else get_next l p j) ->
  forall A B, A0 ++ e :: B0 = A ++ B -> get_next l' (lastp j A) j = Some (first j B).
Proof.
  intros Hl Hq Hj G A B HAB. pose proof (lk_nodup _ _ Hl) as Hnd.
  assert (Hnq : forall A, (exists A', A0 ++ B0 = A ++ A') -> lastp j A <> PNode (loc e)).
  { intros A1 [A' HA'] Hp%lastp_in. apply Hq. rewrite HA', fmap_app. apply elem_of_app. by left. }
  assert (Hfront : forall A', A0 = A ++ A' -> B = A' ++ e :: B0 -> get_next l' (lastp j A) j = Some (first j B)).
  { intros A' -> ->. rewrite G, (decide_False (P := _ = PNode _)) by (apply Hnq; exists (A' ++ B0); by rewrite app_assoc).
    assert (Hold : get_next l (lastp j A) j = Some (first j (A' ++ B0)))
      by (apply (lk_next _ _ Hl); [done|by rewrite app_assoc]).
    rewrite first_app in Hold |- *. simpl. destruct (below_dec j A') as [Hb|Hb].
    - rewrite lastp_app_below by done. apply first_below in Hb. rewrite Hb in *.
      destruct (decide (j < hgt e)) as [Hlt|Hlt].
      + rewrite decide_True by done. by rewrite (proj2 (Nat.ltb_lt _ _)).
      + by rewrite (proj2 (Nat.ltb_ge _ _)) by lia.
    - rewrite (decide_False (P := lastp j A = _)).
      + destruct (first j A') eqn:Hf; [by destruct (decide _)|]. by apply first_below in Hf.
      + intros Heq. apply (lastp_ne j A A'); [|done|done].
        rewrite fmap_app in Hnd. by apply NoDup_app in Hnd as (? & _ & _). }
  apply app_eq_app in HAB as (x & [[-> HB]|[-> HB]]); [by eapply Hfront|].
  destruct x as [|y x]; simpl in HB.
  { apply (Hfront []); [by rewrite !app_nil_r|by rewrite <- HB]. }
  injection HB as <- ->. destruct (below_dec j x) as [Hb|Hb].
  - assert (HfB : first j (x ++ B) = first j B) by (rewrite first_app; by rewrite (proj2 (first_below _ _) Hb)).
    rewrite G. destruct (decide (j < hgt e)) as [Hlt|Hlt].
    + rewrite lastp_snoc by done. rewrite decide_True by done. by rewrite HfB.
    + rewrite lastp_app_below by (constructor; [lia|done]). rewrite <- HfB. by apply (lk_next _ _ Hl).
  - rewrite lastp_skip by done. rewrite G.
    rewrite (decide_False (P := _ = PNode _)) by (apply Hnq; exists B; by rewrite app_assoc).
    rewrite (decide_False (P := _ = lastp j A0)).
    + assert (Hold : get_next l (lastp j (A0 ++ x)) j = Some (first j B))
        by (apply (lk_next _ _ Hl); [done|by rewrite app_assoc]).
      by destruct (decide (j < hgt e)).
    + apply lastp_ne; [|done]. rewrite app_assoc, fmap_app in Hnd. by apply NoDup_app in Hnd as (? & _ & _).
Qed.

(** A fresh node does not change the pointers that are there. *)
Lemma new_node_ok alloc k undef l q :
  alloc k = Some q -> nodes l !! q = None ->
  exists l1, new_node alloc k undef l = Some (q, l1) /\
    level l1 = level l /\ length_ l1 = length_ l /\ header l1 = header l /\
    (forall n, shape l1 n = if decide (n = q) then Some (undef, S k) else shape l n) /\
    (forall p j, p <> PNode q \/ k < j -> get_next l1 p j = get_next l p j) /\
    (forall j, j <= k -> is_Some (get_next l1 (PNode q) j)).
Proof.
  intros Ha Hq. unfold new_node. rewrite Ha. cbn [mbind option_bind]. eexists. split; [done|].
  repeat (split; [done|]). split; [|split].
  - intros n. unfold shape. cbn [nodes]. case_decide as E; [|by rewrite lookup_insert_ne].
    subst. rewrite lookup_insert_eq. simpl. by rewrite length_replicate.
  - intros [|n] j Hne; [done|]. cbn [get_next nodes].
    destruct (decide (n = q)) as [->|]; [|by rewrite lookup_insert_ne].
    destruct Hne as [|Hj]; [done|]. rewrite lookup_insert_eq, Hq. cbn [mbind option_bind nd_next].
    apply lookup_ge_None. rewrite length_replicate. lia.
  - intros j Hj. cbn [get_next nodes]. rewrite lookup_insert_eq. cbn [mbind option_bind nd_next].
    exists None. change (replicate (S k) (@None nat) !! j = Some None). apply lookup_replicate. split; [done|lia].
Qed.

Lemma insert_node_ok alloc undef k update l A0 B0 q :
  linked l (A0 ++ B0) -> alloc k = Some q -> nodes l !! q = None -> k <= level l ->
  (forall j, j <= k -> update !! j = Some (lastp j A0)) ->
  exists l', insert_node alloc undef k update l = Some (l', Some (q, true)) /\
    linked l' (A0 ++ mkEl q (S k) undef :: B0).
Proof.
  intros Hl Ha Hq Hk Hu. pose proof (lk_level _ _ Hl) as Hlev.
  destruct (new_node_ok alloc k undef l q Ha Hq) as (l1 & Hn & Hlv & Hlen & Hhd & Hsh & Hg & Hqn).
  assert (Hfresh : q ∉ loc <$> A0 ++ B0).
  { intros (e & -> & He)%list_elem_of_fmap. destruct (lk_node _ _ Hl e He) as (nx & Hx & _). congruence. }
  assert (HA : forall j, lastp j A0 <> PNode q).
  { intros j Hp%lastp_in. apply Hfresh. rewrite fmap_app. apply elem_of_app. by left. }
  destruct (link_ok k q update l1 (fun j => lastp j A0) (fun j => first j B0)) as (l2 & H2 & S2 & G2).
  { intros j Hj. split; [by apply Hu|]. split; [done|]. split; [|by apply Hqn].
    rewrite Hg by (by left). apply (lk_next _ _ Hl); [lia|done]. }
  unfold insert_node. rewrite Hn, H2. cbn [mbind option_bind]. eexists. split; [done|].
  set (e := mkEl q (S k) undef).
  assert (Hshape : forall n, shape l2 n = if decide (n = q) then Some (undef, S k) else shape l n).
  { intros n. by rewrite (sm_shape _ _ S2), Hsh. }
  constructor.
  - intros j A B Hj HAB. apply (insert_next l _ A0 B0 e j); [done..| |done].
    intros p. change (get_next (set_length (S (length_ l2)) l2) p j) with (get_next l2 p j).
    rewrite G2. cbn [hgt loc e]. destruct (decide (j <= k)), (decide (j < S k)); try lia.
    + case_decide; [done|]. case_decide; [done|]. apply Hg. by left.
    + apply Hg. right. lia.
  - intros x Hx. apply shape_node. change (shape l2 (loc x) = Some (dat x, hgt x)). rewrite Hshape.
    apply elem_of_app in Hx as [Hx|[->|Hx]%elem_of_cons]; [|by rewrite decide_True|].
    all: rewrite decide_False by (intros <-; apply Hfresh, list_elem_of_fmap_2, elem_of_app; auto);
      apply shape_node, (lk_node _ _ Hl), elem_of_app; auto.
  - pose proof (lk_hgt _ _ Hl) as Hh. apply Forall_app in Hh as [Hh1 Hh2]. cbn [level set_length].
    rewrite (sm_level _ _ S2), Hlv. apply Forall_app. split; [done|]. constructor; [simpl; lia|done].
  - pose proof (lk_nodup _ _ Hl) as Hnd. rewrite fmap_app in Hnd, Hfresh |- *. rewrite fmap_cons.
    rewrite <- Permutation_middle. apply NoDup_cons. done.
  - intros n Hn'%shape_some. change (is_Some (shape l2 n)) in Hn'. rewrite Hshape in Hn'.
    rewrite fmap_app, fmap_cons. destruct (decide (n = q)) as [->|]; [apply elem_of_app; right; left|].
    apply shape_some, (lk_dom _ _ Hl) in Hn'. rewrite fmap_app in Hn'.
    apply elem_of_app in Hn' as [?|?]; apply elem_of_app; [by left|right; by right].
  - cbn [level set_length]. by rewrite (sm_level _ _ S2), Hlv.
  - cbn [header set_length]. rewrite (sm_header _ _ S2), Hhd. apply (lk_header _ _ Hl).
  - cbn [length_ set_length]. rewrite (sm_length _ _ S2), Hlen, (lk_length _ _ Hl), !length_app. simpl. lia.
Qed.

Lemma linked_level l L m :
  linked l L -> m < LEVELS -> (level l <= m \/ L = []) -> linked (set_level m l) L.
Proof.
  intros Hl Hm Hor. destruct Hl as [H1 H2 H3 H4 H5 H6 H7 H8]. constructor; try done.
  destruct Hor as [Hle| ->]; [|constructor]. eapply Forall_impl; [exact H3|]. simpl. intros. lia.
Qed.

(** The caller fills in the data of a node. *)
Lemma store_linked l A B n h d x :
  linked l (A ++ mkEl n h d :: B) -> linked (store_data n x l) (A ++ mkEl n h x :: B).
Proof.
  intros Hl. set (e := mkEl n h d) in *. set (e' := mkEl n h x).
  assert (Hne : forall y, y ∈ A \/ y ∈ B -> loc y <> n).
  { pose proof (lk_nodup _ _ Hl) as Hnd. rewrite fmap_app, fmap_cons in Hnd.
    rewrite <- Permutation_middle in Hnd. apply NoDup_cons in Hnd as [Hn _].
    intros y Hy <-. apply Hn. rewrite <- fmap_app. apply (list_elem_of_fmap_2 loc _ y), elem_of_app. done. }
  assert (Hg : forall p j, get_next (store_data n x l) p j = get_next l p j).
  { intros [|m] j; [done|]. cbn [get_next nodes store_data].
    destruct (decide (m = n)) as [->|]; [|by rewrite lookup_alter_ne].
    rewrite lookup_alter_eq. by destruct (nodes l !! n). }
  assert (Hf : forall j M, first j (M ++ e' :: B) = first j (M ++ e :: B)) by (intros; by rewrite !first_app).
  assert (Hp : forall j M, lastp j (A ++ e' :: M) = lastp j (A ++ e :: M)).
  { intros. unfold lastp. by rewrite !lastp_from_app. }
  constructor.
  - intros k C E Hk HCE. rewrite Hg. symmetry in HCE.
    apply app_eq_app in HCE as (y & [[-> HB]|[-> HB]]).
    + destruct y as [|z y]; simpl in HB.
      * subst E. rewrite (lk_next _ _ Hl k (A ++ []) (e :: B)); [done|done|by rewrite app_nil_r].
      * injection HB as -> ->. rewrite Hp. by apply (lk_next _ _ Hl); [|rewrite <- app_assoc].
    + subst E. rewrite Hf. by apply (lk_next _ _ Hl); [|rewrite <- app_assoc].
  - intros y Hy. cbn [nodes store_data]. apply elem_of_app in Hy as [Hy|[->|Hy]%elem_of_cons].
    2:{ destruct (lk_node _ _ Hl e ltac:(apply app_in_r; left)) as (nx & Hn & Hh). simpl in *.
        rewrite lookup_alter_eq, Hn. by exists nx. }
    all: rewrite lookup_alter_ne by (intros Heq; eapply Hne; [|symmetry; exact Heq]; auto);
      apply (lk_node _ _ Hl), elem_of_app; auto. right. by right.
  - pose proof (lk_hgt _ _ Hl) as Hh. apply Forall_app in Hh as [? Hh]. inversion Hh; subst.
    apply Forall_app. split; [done|]. by constructor.
  - pose proof (lk_nodup _ _ Hl) as Hnd. rewrite fmap_app, fmap_cons in Hnd |- *. done.
  - intros m Hm. cbn [nodes store_data] in Hm. rewrite lookup_alter_is_Some in Hm.
    apply (lk_dom _ _ Hl) in Hm. rewrite fmap_app, fmap_cons in Hm |- *. done.
  - apply (lk_level _ _ Hl).
  - apply (lk_header _ _ Hl).
  - cbn [length_ store_data]. rewrite (lk_length _ _ Hl), !length_app. done.
Qed.

(** Putting an element between the smaller and the greater ones keeps the
    order. *)
Lemma sorted_insert (data : K) A B e :
  StronglySorted klt (A ++ B) -> smaller data A -> Forall (fun x => (0 < fct (dat x) data)%Z) B ->
  key (dat e) = data -> StronglySorted klt (A ++ e :: B).
Proof.
  intros Hs HA HB <-. induction A as [|a A IH]; simpl in *.
  - constructor; [done|]. eapply Forall_impl; [exact HB|]. intros x Hx. by apply fct_flip.
  - inversion Hs as [|? ? Hs' Hle]; subst. inversion HA as [|? ? Ha HA']; subst. constructor; [by apply IH|].
    apply Forall_app in Hle as [H1 H2]. apply Forall_app. split; [done|]. by constructor.
Qed.

Lemma sorted_delete A e B : StronglySorted klt (A ++ e :: B) -> StronglySorted klt (A ++ B).
Proof.
  induction A as [|a A IH]; simpl; inversion 1 as [|? ? Hs Hle]; subst; [done|].
  constructor; [by apply IH|]. apply Forall_app in Hle as [? Hle]. inversion Hle; subst.
  by apply Forall_app.
Qed.

(** What [sl_insert] does with a list that stands for [L]. *)
Definition inserted (data : K) L l (res : option (nat * bool)) l' : Prop :=
  match res with
  | Some (n, false) => l' = l /\ exists e, find_eq data L = Some e /\ n = loc e
  | Some (n, true) =>
      find_eq data L = None /\
      exists A B h, L = A ++ B /\ smaller data A /\ Forall (fun x => (0 < fct (dat x) data)%Z) B /\
        forall x, key x = data -> repr (store_data n x l') (A ++ mkEl n h x :: B)
  | None => find_eq data L = None /\ repr l' L
  end.

Lemma insert_node_repr alloc undef k update l A B (data : K) :
  linked l (A ++ B) -> StronglySorted klt (A ++ B) -> smaller data A ->
  Forall (fun x => (0 < fct (dat x) data)%Z) B ->
  (forall j q, alloc j = Some q -> nodes l !! q = None) -> k <= level l ->
  (forall j, j <= k -> update !! j = Some (lastp j A)) ->
  exists l' res, insert_node alloc undef k update l = Some (l', res) /\
    (forall l0, find_eq data (A ++ B) = None -> inserted data (A ++ B) l0 res l').
Proof.
  intros Hl Hs HA HB Hfresh Hk Hu. destruct (alloc k) as [q|] eqn:Ha.
  - destruct (insert_node_ok alloc undef k update l A B q Hl Ha (Hfresh _ _ Ha) Hk Hu) as (l' & Hi & Hl').
    exists l', (Some (q, true)). split; [done|]. intros l0 Hf. split; [done|]. exists A, B, (S k).
    split; [done|]. split; [done|]. split; [done|]. intros x Hx. split; [by eapply store_linked|].
    by apply (sorted_insert data).
  - exists l, None. unfold insert_node, new_node. rewrite Ha. split; [done|]. intros l0 Hf. by split.
Qed.

Lemma greater_of B (data : K) :
  StronglySorted klt B -> not_smaller data B ->
  match B with e :: _ => if (fct (dat e) data =? 0)%Z then Some e else None | [] => None end = None ->
  Forall (fun x => (0 < fct (dat x) data)%Z) B.
Proof.
  intros Hs HB He. destruct B as [|e B]; [constructor|]. inversion HB; subst.
  destruct (Z.eqb_spec (fct (dat e) data) 0); [done|]. constructor; [lia|]. by eapply tail_greater.
Qed.

Lemma sl_insert_repr alloc undef l L (data : K) r :
  repr l L -> rand_ok r -> (forall k q, alloc k = Some q -> nodes l !! q = None) ->
  exists l' res r', sl_insert alloc undef l data r = Some (l', res, r') /\ rand_ok r' /\ inserted data L l res l'.
Proof.
  intros [Hl Hs] Hr Hfresh. unfold sl_insert. destruct (Nat.eqb_spec (length_ l) 0) as [Hz|Hz].
  - pose proof (length_0 l L Hl Hz) as ->.
    destruct (insert_node_repr alloc undef 0 (<[0 := PHdr]> (replicate LEVELS PHdr)) (set_level 0 l) [] [] data)
      as (l' & res & -> & Hi); try done.
    + apply linked_level; [done|pose proof (lk_level _ _ Hl); lia|by right].
    + constructor.
    + intros j Hj. by replace j with 0 by lia.
    + cbn [mbind option_bind]. exists l', res, r. split; [done|]. split; [done|]. by apply Hi.
  - destruct (split_at data L Hs) as (A & B & -> & HA & HB). pose proof (lk_level _ _ Hl) as Hlev.
    destruct (descend_update_ok l _ Hl data A B eq_refl HA HB (level l) [] A (-1)%Z (replicate LEVELS PHdr))
      as (res & u & Hd & Hres & Hlen & Hu); [done|done|by rewrite length_replicate|].
    change (lastp (level l) []) with PHdr in Hd. rewrite Hd. cbn [mbind option_bind].
    rewrite (first_0 l _ _ Hl (app_in_r A B)) in *. apply (last_res_head l A) in Hres; [|done].
    rewrite (found_head B data res Hres). destruct (find_split data A B Hs HA HB) as [Hfe _].
    rewrite <- Hfe. destruct (find_eq data (A ++ B)) as [e|] eqn:Hf; cbn [fmap option_fmap option_map].
    { exists l, (Some (loc e, false)), r. split; [done|]. split; [done|]. split; [done|]. by exists e. }
    destruct (random_level_ok r Hr) as (k & r' & -> & Hk & Hr'). cbn [mbind option_bind].
    pose proof (greater_of B data (sorted_app_r _ _ Hs) HB (eq_sym Hfe)) as HgB.
    assert (Hins : exists l' res, insert_at alloc undef (Z.to_nat k) u l = Some (l', res) /\
      (forall l0, find_eq data (A ++ B) = None -> inserted data (A ++ B) l0 res l')).
    { unfold insert_at. destruct (Nat.ltb_spec (level l) (Z.to_nat k)) as [Hlk|Hlk].
      - assert (HS : S (level l) < LEVELS) by (unfold LEVELS; lia). rewrite (proj2 (Nat.ltb_lt _ _) HS).
        apply insert_node_repr; try done.
        + apply linked_level; [done|done|left; lia].
        + intros j Hj. destruct (decide (j = S (level l))) as [->|].
          * rewrite list_lookup_insert_eq by lia. symmetry. f_equal. apply lastp_from_below.
            pose proof (lk_hgt _ _ Hl) as Hh. apply Forall_app in Hh as [Hh _].
            eapply Forall_impl; [exact Hh|]. simpl. intros. lia.
          * rewrite list_lookup_insert_ne by lia. apply Hu. lia.
      - apply insert_node_repr; try done. intros j Hj. apply Hu. lia. }
    destruct Hins as (l' & res' & -> & Hi). cbn [mbind option_bind].
    exists l', res', r'. split; [done|]. split; [done|]. by apply Hi.
Qed.

(** *** Deletion *)

(** The pointers after [e] was unlinked from between [A0] and [B0]. *)
Lemma delete_next l l' A0 B0 e j :
  linked l (A0 ++ e :: B0) -> j < S LEVELS ->
  (forall p, p <> PNode (loc e) -> get_next l' p j =
     if decide (j < hgt e /\ p = lastp j A0) then Some (first j B0) else get_next l p j) ->
  forall A B, A0 ++ B0 = A ++ B -> get_next l' (lastp j A) j = Some (first j B).
Proof.
  intros Hl Hj G A B HAB. pose proof (lk_nodup _ _ Hl) as Hnd.
  rewrite fmap_app, fmap_cons, <- Permutation_middle, <- fmap_app in Hnd. apply NoDup_cons in Hnd as [Hq Hnd].
  assert (Hnq : lastp j A <> PNode (loc e)).
  { intros Hp%lastp_in. apply Hq. rewrite HAB, fmap_app. apply elem_of_app. by left. }
  rewrite G by done. apply app_eq_app in HAB as (x & [[-> ->]|[-> ->]]).
  - assert (Hold : get_next l (lastp j A) j = Some (first j (x ++ e :: B0)))
      by (apply (lk_next _ _ Hl); [done|by rewrite app_assoc]).
    rewrite first_app in Hold |- *. destruct (below_dec j x) as [Hb|Hb].
    + rewrite lastp_app_below by done. apply first_below in Hb. rewrite Hb in *. simpl in Hold.
      destruct (decide (j < hgt e)) as [Hlt|Hlt]; [by rewrite decide_True|].
      rewrite decide_False by tauto. by rewrite (proj2 (Nat.ltb_ge _ _)) in Hold by lia.
    + rewrite decide_False.
      * destruct (first j x) eqn:Hf; [done|]. by apply first_below in Hf.
      * intros [_ Heq]. apply (lastp_ne j A x); [|done|done].
        rewrite fmap_app in Hnd. by apply NoDup_app in Hnd as (? & _ & _).
  - destruct (below_dec j x) as [Hb|Hb].
    + rewrite lastp_app_below by done. apply first_below in Hb as Hbx.
      assert (HfB : first j (x ++ B) = first j B) by (by rewrite first_app, Hbx). rewrite <- HfB.
      destruct (decide (j < hgt e)) as [Hlt|Hlt]; [by rewrite decide_True|].
      rewrite decide_False by tauto. rewrite (lk_next _ _ Hl j A0 (e :: x ++ B)) by done. simpl.
      by rewrite (proj2 (Nat.ltb_ge _ _)) by lia.
    + rewrite decide_False.
      * rewrite <- (lastp_skip j A0 e x) by done. apply (lk_next _ _ Hl); [done|]. by rewrite <- app_assoc.
      * intros [_ Heq]. apply (lastp_ne j A0 x); [|done|done].
        rewrite app_assoc, fmap_app in Hnd. by apply NoDup_app in Hnd as (? & _ & _).
Qed.

(** The search for the highest level in use. *)
Lemma trim_ok l m : m < length (header l) ->
  exists m', trim m l = Some m' /\ m' <= m /\ forall j, m' < j <= m -> header l !! j = Some None.
Proof.
  induction m as [|m IH]; intros Hm; cbn [trim];
    destruct (lookup_lt_is_Some_2 _ _ Hm) as [h Hh]; rewrite Hh; cbn [mbind option_bind].
  - exists 0. split; [by destruct h|]. split; [done|lia].
  - destruct h as [n|].
    + exists (S m). split; [done|]. split; [done|lia].
    + destruct (IH ltac:(lia)) as (m' & -> & Hle & Hj). exists m'. split; [done|]. split; [lia|].
      intros j Hjm. destruct (decide (j = S m)) as [->|]; [done|]. apply Hj. lia.
Qed.

Lemma unlink_el l A B e update :
  linked l (A ++ e :: B) -> (forall j, j <= level l -> update !! j = Some (lastp j A)) ->
  exists l', unlink (S (level l)) 0 (loc e) update l = Some l' /\ same l l' /\
    forall p j, get_next l' p j = if decide (j < hgt e /\ p = lastp j A) then Some (first j B) else get_next l p j.
Proof.
  intros Hl Hu. pose proof (lk_level _ _ Hl) as Hlev. pose proof (lk_nodup _ _ Hl) as Hnd.
  rewrite fmap_app, fmap_cons, <- Permutation_middle, <- fmap_app in Hnd. apply NoDup_cons in Hnd as [Hq Hnd].
  assert (He : e ∈ A ++ e :: B) by (apply app_in_r; left).
  pose proof (proj1 (Forall_forall _ _) (lk_hgt _ _ Hl) e He) as [Hh1 Hh2].
  assert (HA : forall j, lastp j A <> PNode (loc e)).
  { intros j Hp%lastp_in. apply Hq. rewrite fmap_app. apply elem_of_app. by left. }
  destruct (unlink_ok (S (level l)) 0 (loc e) update l (fun j => lastp j A) (fun j => first j B) (hgt e))
    as (l' & Hun & Hsm & Hg).
  - lia.
  - intros j Hj. split; [apply Hu; lia|]. split; [done|]. exists (first j (e :: B)).
    split; [apply (lk_next _ _ Hl); [lia|done]|]. split.
    + simpl. destruct (Nat.ltb_spec j (hgt e)); [done|]. split; [|lia]. intros Hf.
      destruct (first_elem _ _ _ Hf) as (B1 & x & B2 & -> & _ & _ & Hx). exfalso. apply Hq.
      rewrite <- Hx. apply list_elem_of_fmap_2, app_in_r, app_in_r. left.
    + intros Hlt. assert (Hp : lastp j (A ++ [e]) = PNode (loc e)) by (apply lastp_snoc; [done|constructor]).
      rewrite <- Hp. apply (lk_next _ _ Hl); [lia|by rewrite <- app_assoc].
  - exists l'. split; [done|]. split; [done|]. intros p j. rewrite Hg.
    destruct (decide (0 <= j < hgt e /\ p = lastp j A)), (decide (j < hgt e /\ p = lastp j A)); try done;
      destruct_and?; contra_and.
Qed.

Lemma delete_linked l l' A B e m :
  linked l (A ++ e :: B) -> same l l' ->
  (forall p j, get_next l' p j = if decide (j < hgt e /\ p = lastp j A) then Some (first j B) else get_next l p j) ->
  trim (level l) (free_node (loc e) l') = Some m ->
  linked (set_length (length_ (free_node (loc e) l') - 1) (set_level m (free_node (loc e) l'))) (A ++ B).
Proof.
  intros Hl Hsm G Hm. set (l1 := free_node (loc e) l') in *.
  assert (Hhd : length (header l1) = S LEVELS) by (unfold l1; simpl; by rewrite (sm_header _ _ Hsm), (lk_header _ _ Hl)).
  pose proof (lk_level _ _ Hl) as Hlev. pose proof (lk_nodup _ _ Hl) as Hnd.
  rewrite fmap_app, fmap_cons, <- Permutation_middle, <- fmap_app in Hnd. apply NoDup_cons in Hnd as [Hq Hnd].
  destruct (trim_ok l1 (level l)) as (m' & Hm' & Hle & Hnone); [lia|].
  assert (m' = m) as -> by congruence.
  assert (Hsub : forall x, x ∈ A ++ B -> x ∈ A ++ e :: B /\ loc x <> loc e).
  { intros x Hx. split; [apply elem_of_app in Hx as [?|?]; apply elem_of_app; [by left|right; by right]|].
    intros Heq. apply Hq. rewrite <- Heq. by apply list_elem_of_fmap_2. }
  assert (Hnx : forall j C E, j < S LEVELS -> A ++ B = C ++ E -> get_next l1 (lastp j C) j = Some (first j E)).
  { intros j C E Hj HCE. eapply (delete_next l l1 A B e j); [done|done| |done].
    intros [|n] Hne; [exact (G PHdr j)|]. cbn [get_next nodes l1 free_node].
    rewrite lookup_delete_ne by congruence. exact (G (PNode n) j). }
  constructor.
  - intros j C E Hj HCE. by apply Hnx.
  - intros x [Hx Hxe]%Hsub. apply shape_node. unfold shape. cbn [nodes set_length set_level l1 free_node].
    rewrite lookup_delete_ne by done. change (shape l' (loc x) = Some (dat x, hgt x)).
    rewrite (sm_shape _ _ Hsm). by apply shape_node, (lk_node _ _ Hl).
  - cbn [level set_length set_level]. apply Forall_forall. intros x Hx.
    pose proof (proj1 (Forall_forall _ _) (lk_hgt _ _ Hl) x (proj1 (Hsub x Hx))) as [H1 H2]. split; [done|].
    destruct (decide (hgt x <= S m)) as [|Hgt]; [done|]. exfalso.
    pose proof (Hnx (hgt x - 1) [] (A ++ B) ltac:(lia) eq_refl) as Hf. cbn [lastp lastp_from get_next] in Hf.
    rewrite Hnone in Hf by lia. injection Hf as Hf. symmetry in Hf. apply first_below in Hf.
    pose proof (proj1 (Forall_forall _ _) Hf x Hx) as Hb. cbv beta in Hb. lia.
  - done.
  - intros n. cbn [nodes set_length set_level l1 free_node]. intros Hn.
    destruct (decide (n = loc e)) as [->|Hne]; [by rewrite lookup_delete_eq in Hn; destruct Hn|].
    rewrite lookup_delete_ne in Hn by done. apply shape_some in Hn. rewrite (sm_shape _ _ Hsm) in Hn.
    apply shape_some, (lk_dom _ _ Hl) in Hn. rewrite fmap_app, fmap_cons in Hn. rewrite fmap_app.
    apply elem_of_app in Hn as [Hn|[Hn|Hn]%elem_of_cons]; [apply elem_of_app; by left|done|apply elem_of_app; by right].
  - cbn [level set_length set_level]. lia.
  - done.
  - cbn [length_ set_length set_level l1 free_node]. rewrite (sm_length _ _ Hsm), (lk_length _ _ Hl), !length_app.
    simpl. lia.
Qed.

Lemma sl_delete_repr l L (data : K) :
  repr l L ->
  match find_eq data L with
  | Some e => exists l' A B, sl_delete l data = Some (l', true) /\ L = A ++ e :: B /\ repr l' (A ++ B)
  | None => sl_delete l data = Some (l, false)
  end.
Proof.
  intros [Hl Hs]. unfold sl_delete. destruct (Nat.eqb_spec (length_ l) 0) as [Hz|Hz].
  { by rewrite (length_0 l L Hl Hz). }
  destruct (split_at data L Hs) as (A & B & -> & HA & HB). pose proof (lk_level _ _ Hl) as Hlev.
  destruct (descend_update_ok l _ Hl data A B eq_refl HA HB (level l) [] A 1%Z (replicate LEVELS PHdr))
    as (res & u & Hd & Hres & Hlen & Hu); [done|done|by rewrite length_replicate|].
  change (lastp (level l) []) with PHdr in Hd. rewrite Hd. cbn [mbind option_bind].
  rewrite (first_0 l _ _ Hl (app_in_r A B)) in *. apply (last_res_head l A) in Hres; [|done].
  rewrite (found_head B data res Hres). destruct (find_split data A B Hs HA HB) as [-> _].
  destruct B as [|e B]; [done|]. destruct (fct (dat e) data =? 0)%Z; [|done]. cbn [fmap option_fmap option_map].
  destruct (unlink_el l A B e u Hl Hu) as (l' & Hun & Hsm & Hg). rewrite Hun. cbn [mbind option_bind].
  destruct (trim_ok (free_node (loc e) l') (level l)) as (m & Hm & _).
  { simpl. rewrite (sm_header _ _ Hsm), (lk_header _ _ Hl). lia. }
  rewrite Hm. cbn [mbind option_bind]. eexists _, A, B. split; [done|]. split; [done|].
  split; [by eapply delete_linked|]. by eapply sorted_delete.
Qed.

(** *** Construction, traversal and release *)

Lemma sl_init_repr : repr (sl_init : Skiplist D) [].
Proof.
  split; [|constructor]. constructor; try done.
  - intros k A B Hk Hnil. symmetry in Hnil. apply app_nil in Hnil as [-> ->]. cbn [lastp lastp_from get_next first].
    apply lookup_replicate. by split.
  - intros e He. by inversion He.
  - constructor.
  - intros n [x Hx]. cbn [nodes sl_init] in Hx. by rewrite lookup_empty in Hx.
  - unfold LEVELS, MAX_LEVELS. simpl. lia.
Qed.

(** What a visitor sees of a list. *)
Fixpoint visit_list {T} (visit : nat -> D -> T -> T * bool) L (arg : T) : T :=
  match L with
  | [] => arg
  | e :: L => let '(arg, go) := visit (loc e) (dat e) arg in if go then visit_list visit L arg else arg
  end.

Lemma el_next0 l A e B : linked l (A ++ e :: B) -> get_next l (PNode (loc e)) 0 = Some (loc <$> head B).
Proof.
  intros Hl. assert (He : e ∈ A ++ e :: B) by (apply app_in_r; left).
  pose proof (proj1 (Forall_forall _ _) (lk_hgt _ _ Hl) e He) as [Hh _].
  assert (Hp : lastp 0 (A ++ [e]) = PNode (loc e)) by (apply lastp_snoc; [lia|constructor]).
  rewrite <- Hp, (lk_next _ _ Hl 0 (A ++ [e]) B ltac:(lia) ltac:(by rewrite <- app_assoc)).
  f_equal. apply (first_0 l _ _ Hl). intros x Hx. apply app_in_r. by right.
Qed.

Lemma header_0 l L : linked l L -> header l !! 0 = Some (loc <$> head L).
Proof.
  intros Hl. pose proof (lk_next _ _ Hl 0 [] L ltac:(lia) eq_refl) as Hn. cbn [lastp lastp_from get_next] in Hn.
  rewrite Hn. f_equal. by apply (first_0 l L).
Qed.

Lemma walk_chain_ok {T} (visit : nat -> D -> T -> T * bool) l A B arg fuel :
  linked l (A ++ B) -> length B < fuel ->
  walk_chain fuel visit l (loc <$> head B) arg = Some (visit_list visit B arg).
Proof.
  revert A arg fuel; induction B as [|e B IH]; intros A arg fuel Hl Hf; [by destruct fuel|].
  destruct fuel as [|fuel]; [simpl in Hf; lia|]. cbn [walk_chain fmap option_fmap option_map head visit_list].
  rewrite (el_next0 l A e B Hl). cbn [mbind option_bind].
  rewrite (data_of_el l _ Hl e) by (apply app_in_r; left). cbn [mbind option_bind].
  destruct (visit (loc e) (dat e) arg) as [arg' []]; [|done].
  apply (IH (A ++ [e])); [by rewrite <- app_assoc|simpl in Hf; lia].
Qed.

Lemma sl_walk_repr {T} (visit : nat -> D -> T -> T * bool) l L arg :
  repr l L -> sl_walk visit l arg = Some (visit_list visit L arg).
Proof.
  intros [Hl _]. unfold sl_walk. destruct (Nat.eqb_spec (length_ l) 0) as [Hz|Hz].
  { by rewrite (length_0 l L Hl Hz). }
  rewrite (header_0 l L Hl). cbn [mbind option_bind]. apply (walk_chain_ok visit l []); [done|].
  pose proof (size_nodes l L Hl). lia.
Qed.

Lemma sl_head_repr l L : repr l L -> sl_head l = Some (loc <$> head L).
Proof.
  intros [Hl _]. unfold sl_head. destruct (Nat.eqb_spec (length_ l) 0) as [Hz|Hz].
  { by rewrite (length_0 l L Hl Hz). }
  by apply header_0.
Qed.

(** Freeing goes through every node once. *)
Lemma free_chain_ok l L : linked l L -> forall A B l' fuel,
  L = A ++ B -> length B < fuel ->
  (forall n, nodes l' !! n = if decide (n ∈ loc <$> A) then None else nodes l !! n) ->
  exists l'', free_chain fuel (loc <$> head B) l' = Some l'' /\ nodes l'' = ∅.
Proof.
  intros Hl A B. revert A. induction B as [|e B IH]; intros A l' fuel HL Hf Hn.
  - exists l'. split; [by destruct fuel|]. apply map_empty. intros n. rewrite Hn. case_decide as E; [done|].
    apply eq_None_not_Some. intros Hs%(lk_dom _ _ Hl). rewrite HL, app_nil_r in Hs. done.
  - destruct fuel as [|fuel]; [simpl in Hf; lia|]. cbn [free_chain fmap option_fmap option_map head].
    assert (HeA : loc e ∉ loc <$> A).
    { pose proof (lk_nodup _ _ Hl) as Hnd. rewrite HL, fmap_app, fmap_cons in Hnd.
      apply NoDup_app in Hnd as (_ & Hd & _). intros Hin. apply (Hd _ Hin). left. }
    assert (Hg : get_next l' (PNode (loc e)) 0 = Some (loc <$> head B)).
    { cbn [get_next]. rewrite Hn, decide_False by done. apply (el_next0 l A e B). by rewrite <- HL. }
    rewrite Hg. cbn [mbind option_bind]. apply (IH (A ++ [e])); [by rewrite <- app_assoc|simpl in Hf; lia|].
    intros n. cbn [nodes free_node]. rewrite fmap_app.
    destruct (decide (n = loc e)) as [->|Hne].
    + rewrite lookup_delete_eq, decide_True; [done|]. apply elem_of_app. right. left.
    + rewrite lookup_delete_ne, Hn by done.
      destruct (decide (n ∈ loc <$> A)), (decide (n ∈ (loc <$> A) ++ (loc <$> [e]))) as [E|E]; try done.
      * exfalso. apply E, elem_of_app. by left.
      * apply elem_of_app in E as [?|E]; [done|]. by apply list_elem_of_singleton in E.
Qed.

Lemma sl_free_nodes_repr l L : repr l L -> exists l', sl_free_nodes l = Some l' /\ nodes l' = ∅.
Proof.
  intros [Hl _]. unfold sl_free_nodes. rewrite (header_0 l L Hl). cbn [mbind option_bind].
  apply (free_chain_ok l L Hl []); [done| |].
  - pose proof (size_nodes l L Hl). lia.
  - intros n. by rewrite decide_False by (intros E; inversion E).
Qed.

End Props.
