(* ===== verification/SkiplistSpec.v ===== *)
(** What skiplists promise: a list of operations on a skiplist gives the
    results that the same operations on a sorted list of elements give,
    whatever the random levels and the allocator do. *)

From stdpp Require Import gmap sorting.
From S2P Require Import Prelude Random Skiplist SkiplistProps.
From stdpp Require Import list.

#[local] Open Scope nat_scope.

Section Spec.
Context {D K : Type} `{ListEqf D K}.

Inductive sl_op :=
| OpSearch (k : K)
| OpNext (k : K)
| OpHead
| OpInsert (x : D)
| OpDelete (k : K).

Inductive sl_res :=
| RElem (o : option D)
| RInsert (old : option D)   (** the element that was there already *)
| RNoMem
| RDelete (done : bool).

(** ** The specification: sorted lists of elements *)

Definition eqk (k : K) (d : D) : bool := (fct d k =? 0)%Z.
Definition gtk (k : K) (d : D) : bool := (0 <? fct d k)%Z.

(** [x] before the first greater element. *)
Fixpoint ins (x : D) (ds : list D) : list D :=
  match ds with
  | [] => [x]
  | d :: ds => if (fct d (key x) <? 0)%Z then d :: ins x ds else x :: d :: ds
  end.

Definition del (k : K) (ds : list D) : list D := List.filter (fun d => negb (eqk k d)) ds.

Inductive spec : list D -> sl_op -> sl_res -> list D -> Prop :=
| sp_search ds k : spec ds (OpSearch k) (RElem (List.find (eqk k) ds)) ds
| sp_next ds k : spec ds (OpNext k) (RElem (List.find (gtk k) ds)) ds
| sp_head ds : spec ds OpHead (RElem (head ds)) ds
| sp_exists ds x d : List.find (eqk (key x)) ds = Some d -> spec ds (OpInsert x) (RInsert (Some d)) ds
| sp_insert ds x : List.find (eqk (key x)) ds = None -> spec ds (OpInsert x) (RInsert None) (ins x ds)
| sp_nomem ds x : List.find (eqk (key x)) ds = None -> spec ds (OpInsert x) RNoMem ds
| sp_delete ds k :
    spec ds (OpDelete k) (RDelete (match List.find (eqk k) ds with Some _ => true | None => false end)) (del k ds).

Inductive spec_run : list D -> list sl_op -> list sl_res -> list D -> Prop :=
| sr_nil ds : spec_run ds [] [] ds
| sr_cons ds op res ds1 ops rs ds2 :
    spec ds op res ds1 -> spec_run ds1 ops rs ds2 -> spec_run ds (op :: ops) (res :: rs) ds2.

(** ** The operations on skiplists *)

(** Every allocation of the run may fail; one that succeeds gives a node
    that is not in use. *)
Context (alloc : Skiplist D -> nat -> option nat) (undef : D).
Context (Hfresh : forall l k q, alloc l k = Some q -> nodes l !! q = None).

(** The data behind a node pointer that an operation returned. *)
Definition deref (l : Skiplist D) (o : option (option nat)) : option (option D) :=
  q ← o;
  match q with
  | None => Some None
  | Some n => d ← data_of l n; Some (Some d)
  end.

(** One operation; an inserted element is copied into its node. *)
Definition exec (l : Skiplist D) (r : Rand) (op : sl_op) : option (Skiplist D * Rand * sl_res) :=
  match op with
  | OpSearch k => d ← deref l (sl_search l k); Some (l, r, RElem d)
  | OpNext k => d ← deref l (sl_next l k); Some (l, r, RElem d)
  | OpHead => d ← deref l (sl_head l); Some (l, r, RElem d)
  | OpInsert x =>
      '(l, res, r) ← sl_insert (alloc l) undef l (key x) r;
      match res with
      | None => Some (l, r, RNoMem)
      | Some (n, false) => d ← data_of l n; Some (l, r, RInsert (Some d))
      | Some (n, true) => Some (store_data n x l, r, RInsert None)
      end
  | OpDelete k => '(l, b) ← sl_delete l k; Some (l, r, RDelete b)
  end.

Fixpoint exec_all (l : Skiplist D) (r : Rand) (ops : list sl_op) : option (Skiplist D * Rand * list sl_res) :=
  match ops with
  | [] => Some (l, r, [])
  | op :: ops =>
      '(l, r, res) ← exec l r op;
      '(l, r, rs) ← exec_all l r ops;
      Some (l, r, res :: rs)
  end.

(** ** Refinement *)

(** The list holds the elements [ds], in order. *)
Definition holds (l : Skiplist D) (ds : list D) : Prop := exists L, repr l L /\ dat <$> L = ds.

Lemma find_dat (f : D -> bool) L : List.find f (dat <$> L) = dat <$> List.find (fun e : El => f (dat e)) L.
Proof. induction L as [|e L IH]; simpl; [done|]. by destruct (f (dat e)). Qed.

Lemma find_eq_dat k L : List.find (eqk k) (dat <$> L) = dat <$> find_eq k L.
Proof. apply (find_dat (eqk k)). Qed.

Lemma head_dat (L : list (@El D)) : head (dat <$> L) = dat <$> head L.
Proof. by destruct L. Qed.

Lemma find_In (f : El -> bool) (L : list (@El D)) e : List.find f L = Some e -> e ∈ L.
Proof. intros Hf. apply List.find_some in Hf as [Hin _]. by apply list_elem_of_In. Qed.

Lemma deref_ok l L (o : option El) : linked l L -> (forall e, o = Some e -> e ∈ L) -> deref l (Some (loc <$> o)) = Some (dat <$> o).
Proof.
  intros Hl Hin. destruct o as [e|]; [|done]. simpl. by rewrite (data_of_el l L Hl e (Hin e eq_refl)).
Qed.

Lemma ins_split x A B :
  smaller (key x) A -> Forall (fun e => (0 < fct (dat e) (key x))%Z) B ->
  ins x (dat <$> A ++ B) = (dat <$> A) ++ x :: (dat <$> B).
Proof.
  intros HA HB. induction HA as [|e A He HA IH].
  - destruct HB as [|e B He HB]; simpl; [done|]. by rewrite (proj2 (Z.ltb_ge _ _)) by lia.
  - rewrite <- app_comm_cons, !fmap_cons, <- app_comm_cons. cbn [ins].
    rewrite (proj2 (Z.ltb_lt _ _)) by done. by rewrite IH.
Qed.

Lemma del_none k (L : list El) : Forall (fun e => fct (dat e) k <> 0%Z) L -> del k (dat <$> L) = dat <$> L.
Proof.
  induction 1 as [|e L He _ IH]; [done|]. rewrite fmap_cons. unfold del, eqk in *. cbn [List.filter].
  rewrite (proj2 (Z.eqb_neq _ _)) by done. cbn [negb]. by rewrite IH.
Qed.

Lemma find_eq_none k L : find_eq k L = None -> Forall (fun e => fct (dat e) k <> 0%Z) L.
Proof.
  intros Hf. apply Forall_forall. intros e He Hz. apply list_elem_of_In in He.
  apply (List.find_none _ _ Hf) in He. cbv beta in He. by rewrite Hz in He.
Qed.

(** Removing the element with a key removes it from the list. *)
Lemma del_split k A e B :
  StronglySorted klt (A ++ e :: B) -> fct (dat e) k = 0%Z -> del k (dat <$> A ++ e :: B) = dat <$> A ++ B.
Proof.
  intros Hs He. assert (Hk : key (dat e) = k) by (by apply fct_eq).
  assert (HA : Forall (fun x => fct (dat x) k <> 0%Z) A).
  { clear He. induction A as [|a A IH]; [constructor|]. simpl in Hs. inversion Hs as [|? ? Hs' Hle]; subst.
    constructor; [|by apply IH]. apply Forall_app in Hle as [_ Hle]. inversion Hle as [|? ? Hlt _]; subst.
    unfold klt in Hlt. lia. }
  assert (HB : Forall (fun x => fct (dat x) k <> 0%Z) B).
  { apply sorted_app_r in Hs. eapply Forall_impl; [apply (tail_greater k e B Hs); lia|].
    simpl. intros. lia. }
  unfold del. rewrite !fmap_app, fmap_cons, List.filter_app. simpl. unfold eqk at 2. rewrite He. simpl.
  f_equal; by apply del_none.
Qed.

Lemma exec_spec l ds r op :
  holds l ds -> rand_ok r ->
  exists l' r' res ds', exec l r op = Some (l', r', res) /\ spec ds op res ds' /\ holds l' ds' /\ rand_ok r'.
Proof.
  intros (L & Hr & <-) Hrand. pose proof Hr as [Hl Hs]. destruct op as [k|k| |x|k]; cbn [exec].
  - rewrite (sl_search_repr l L k Hr), (deref_ok l L _ Hl); [|by intros ? ?%find_In].
    cbn [mbind option_bind]. rewrite <- find_eq_dat. eexists _, _, _, _. split; [done|]. split; [constructor|].
    split; [by exists L|done].
  - rewrite (sl_next_repr l L k Hr), (deref_ok l L _ Hl); [|by intros ? ?%find_In].
    cbn [mbind option_bind]. unfold find_gt. rewrite <- (find_dat (gtk k)).
    eexists _, _, _, _. split; [done|]. split; [constructor|]. split; [by exists L|done].
  - rewrite (sl_head_repr l L Hr), (deref_ok l L _ Hl); [|intros ? Hh; destruct L; [done|injection Hh as ->; left]].
    cbn [mbind option_bind]. rewrite <- head_dat. eexists _, _, _, _. split; [done|]. split; [constructor|].
    split; [by exists L|done].
  - destruct (sl_insert_repr (alloc l) undef l L (key x) r Hr Hrand (Hfresh l)) as (l' & res & r' & -> & Hr' & Hi).
    cbn [mbind option_bind]. destruct res as [[n []]|]; simpl in Hi.
    + destruct Hi as (Hf & A & B & h & -> & HA & HB & Hx). eexists _, _, _, _. split; [done|].
      split; [apply sp_insert; by rewrite find_eq_dat, Hf|]. split; [|done]. exists (A ++ mkEl n h x :: B).
      split; [by apply Hx|]. rewrite ins_split by done. by rewrite fmap_app.
    + destruct Hi as (-> & e & Hf & ->). rewrite (data_of_el l L Hl e) by (by eapply find_In).
      cbn [mbind option_bind]. eexists _, _, _, _. split; [done|].
      split; [apply sp_exists; by rewrite find_eq_dat, Hf|]. split; [by exists L|done].
    + destruct Hi as [Hf Hr2]. eexists _, _, _, _. split; [done|].
      split; [apply sp_nomem; by rewrite find_eq_dat, Hf|]. split; [by exists L|done].
  - pose proof (sl_delete_repr l L k Hr) as Hd. destruct (find_eq k L) as [e|] eqn:Hf.
    + destruct Hd as (l' & A & B & -> & -> & Hr2). cbn [mbind option_bind]. eexists _, _, _, _. split; [done|].
      pose proof (sp_delete (dat <$> A ++ e :: B) k) as Hsp. rewrite find_eq_dat, Hf in Hsp. split; [exact Hsp|].
      split; [|done]. exists (A ++ B). split; [done|]. symmetry. apply del_split; [done|].
      apply List.find_some in Hf as [_ Hz]. by apply Z.eqb_eq in Hz.
    + rewrite Hd. cbn [mbind option_bind]. eexists _, _, _, _. split; [done|].
      pose proof (sp_delete (dat <$> L) k) as Hsp. rewrite find_eq_dat, Hf in Hsp.
      rewrite (del_none k L) in Hsp by (by apply find_eq_none). split; [exact Hsp|]. split; [by exists L|done].
Qed.

Lemma exec_all_spec ops l ds r :
  holds l ds -> rand_ok r ->
  exists l' r' rs ds', exec_all l r ops = Some (l', r', rs) /\ spec_run ds ops rs ds' /\ holds l' ds' /\ rand_ok r'.
Proof.
  revert l ds r; induction ops as [|op ops IH]; intros l ds r Hl Hr.
  - eexists _, _, _, _. split; [done|]. split; [constructor|]. done.
  - cbn [exec_all]. destruct (exec_spec l ds r op Hl Hr) as (l1 & r1 & res & ds1 & -> & Hsp & Hl1 & Hr1).
    cbn [mbind option_bind]. destruct (IH l1 ds1 r1 Hl1 Hr1) as (l2 & r2 & rs & ds2 & -> & Hrun & Hl2 & Hr2).
    cbn [mbind option_bind]. eexists _, _, _, _. split; [done|]. split; [by econstructor|]. done.
Qed.

End Spec.
