(* ===== verification/Handle.v ===== *)
(** Handle tables (co/handle.c, without [HBITMAP_USED]): the free handles form
    a doubly linked list through the table itself, element 0 is its anchor.

    An access outside the table is [None]. *)

From S2P Require Import Prelude.
From stdpp Require Import list.

#[local] Open Scope Z_scope.

(** ** Model *)

(** [Index_t] *)
Record Index := mkIndex { next : Z; prev : Z }.

(** [HandleTable_t] *)
Record HandleTable := mkHT { nelements : Z; elem : list Index }.

Definition idx0 : Index := mkIndex 0 0.

(** [ht->elem [i].next = x] and [ht->elem [i].prev = x], on 16-bit fields. *)
Definition set_next (i x : Z) (e : list Index) : option (list Index) :=
  p ← zget e i; zset e i (mkIndex ⟦x⟧16 (prev p)).

Definition set_prev (i x : Z) (e : list Index) : option (list Index) :=
  p ← zget e i; zset e i (mkIndex (next p) ⟦x⟧16).

(** The loop that chains [k] elements from [i] on to their predecessors. *)
Fixpoint chain (k : nat) (i : Z) (e : list Index) : option (list Index) :=
  match k with
  | O => Some e
  | S k => e ← set_next (i - 1) i e; e ← set_prev i (i - 1) e; chain k (i + 1) e
  end.

(** [handle_reset] *)
Definition handle_reset (ht : HandleTable) : option HandleTable :=
  e ← chain (Z.to_nat (nelements ht)) 1 (elem ht);
  e ← set_next (nelements ht) 0 e;
  e ← set_prev 0 (nelements ht) e;
  Some (mkHT (nelements ht) e).

(** [handle_init]: [Some None] is a NULL result; [e] is what the fresh block
    holds. *)
Definition handle_init (xmalloc_ok : bool) (fill : Index) (nhandles : Z) : option (option HandleTable) :=
  if (nhandles <? 2) || (65535 <=? nhandles) then Some None
  else if negb xmalloc_ok then Some None
  else
    ht ← handle_reset (mkHT nhandles (replicate (Z.to_nat (nhandles + 1)) fill));
    Some (Some ht).

(** [xrealloc] of the table to [n + 1] elements. *)
Definition resize (fill : Index) (n : Z) (e : list Index) : list Index :=
  ztake (n + 1) e ++ replicate (Z.to_nat (n + 1 - zlen e)) fill.

(** Link the new elements [old + 1] to [n] behind the last free one. *)
Definition append_new (old n : Z) (e : list Index) : option (list Index) :=
  a ← zget e 0;
  e ← (if negb (prev a =? 0) then
         e ← set_next (prev a) (old + 1) e;
         a ← zget e 0;
         set_prev (old + 1) (prev a) e
       else
         e ← set_next 0 (old + 1) e;
         set_prev (old + 1) 0 e);
  e ← set_prev 0 n e;
  set_next n 0 e.

(** [handle_extend] *)
Definition handle_extend (xmalloc_ok : bool) (fill : Index) (ht : HandleTable) (nhandles : Z)
  : option (option HandleTable) :=
  let n := ⟦nelements ht + nhandles⟧32 in
  if (n <? 2) || (65535 <=? n) then Some None
  else if negb xmalloc_ok then Some None
  else
    let old := nelements ht in
    e ← chain (Z.to_nat (n - (old + 1))) (old + 2) (resize fill n (elem ht));
    e ← append_new old n e;
    Some (Some (mkHT n e)).

(** [handle_alloc]: the handle, 0 if there is none. *)
Definition handle_alloc (ht : HandleTable) : option (Z * HandleTable) :=
  a ← zget (elem ht) 0;
  let index := next a in
  if index =? 0 then Some (0, ht)
  else
    p ← zget (elem ht) index;
    let np := next p in
    let pp := prev p in
    e ← set_next pp (next p) (elem ht);
    p ← zget e index;
    e ← set_prev np (prev p) e;
    e ← set_prev index 0 e;
    e ← set_next index 0 e;
    Some (index, mkHT (nelements ht) e).

(** [handle_free]: [Some None] is the fatal error that ends the program. *)
Definition handle_free (ht : HandleTable) (handle : Z) : option (option HandleTable) :=
  if (handle =? 0) || (nelements ht <? handle) then Some None
  else
    p ← zget (elem ht) handle;
    if negb (next p =? 0) || negb (prev p =? 0) then Some None
    else
      a ← zget (elem ht) 0;
      e ← set_prev handle (prev a) (elem ht);
      e ← set_prev 0 handle e;
      p ← zget e handle;
      e ← set_next (prev p) handle e;
      e ← set_next handle 0 e;
      Some (Some (mkHT (nelements ht) e)).

(** ** Representation

    The table stands for the queue [Q] of its free handles: [next] and [prev]
    go from any position of it to the following and the preceding one. *)

Definition zlast (Q : list Z) : Z := List.last Q 0.
Definition zhd (Q : list Z) : Z := List.hd 0 Q.

Definition nxt (e : list Index) (i : Z) : option Z := next <$> zget e i.
Definition prv (e : list Index) (i : Z) : option Z := prev <$> zget e i.

Record ht_ok (ht : HandleTable) (Q : list Z) : Prop := mkHtOk {
  ht_link : forall A B, Q = A ++ B -> nxt (elem ht) (zlast A) = Some (zhd B) /\ prv (elem ht) (zhd B) = Some (zlast A);
  ht_used : forall h, 1 <= h <= nelements ht -> h ∉ Q -> zget (elem ht) h = Some idx0;
  ht_range : Forall (fun h => 1 <= h <= nelements ht) Q;
  ht_nodup : NoDup Q;
  ht_size : zlen (elem ht) = nelements ht + 1;
  ht_max : 2 <= nelements ht < 65535
}.

(** *** Stores *)

Lemma set_next_ok i x e :
  0 <= i < zlen e -> in_u 16 x ->
  exists e', set_next i x e = Some e' /\ zlen e' = zlen e /\
    (forall j, nxt e' j = if decide (j = i) then Some x else nxt e j) /\ (forall j, prv e' j = prv e j).
Proof.
  intros Hi Hx. destruct (zget_lookup_Some e i Hi) as [p Hp]. unfold set_next. rewrite Hp. cbn [mbind option_bind].
  rewrite zset_Some by done. eexists. split; [done|]. pose proof (zset_Some e i (mkIndex ⟦x⟧16 (prev p)) Hi) as Hz.
  split; [by apply zlen_zset in Hz|]. rewrite wrap_small in * by done.
  split; intros j; unfold nxt, prv; (destruct (decide (j = i)) as [->|Hj];
    [rewrite (zget_zset_eq _ _ _ _ Hz) | rewrite (zget_zset_ne _ _ _ _ _ Hz) by done]); try done.
  by rewrite Hp.
Qed.

Lemma set_prev_ok i x e :
  0 <= i < zlen e -> in_u 16 x ->
  exists e', set_prev i x e = Some e' /\ zlen e' = zlen e /\
    (forall j, nxt e' j = nxt e j) /\ (forall j, prv e' j = if decide (j = i) then Some x else prv e j).
Proof.
  intros Hi Hx. destruct (zget_lookup_Some e i Hi) as [p Hp]. unfold set_prev. rewrite Hp. cbn [mbind option_bind].
  rewrite zset_Some by done. eexists. split; [done|]. pose proof (zset_Some e i (mkIndex (next p) ⟦x⟧16) Hi) as Hz.
  split; [by apply zlen_zset in Hz|]. rewrite wrap_small in * by done.
  split; intros j; unfold nxt, prv; (destruct (decide (j = i)) as [->|Hj];
    [rewrite (zget_zset_eq _ _ _ _ Hz) | rewrite (zget_zset_ne _ _ _ _ _ Hz) by done]); try done.
  by rewrite Hp.
Qed.

Lemma idx_eq e i n p : nxt e i = Some n -> prv e i = Some p -> zget e i = Some (mkIndex n p).
Proof.
  unfold nxt, prv. intros Hn Hp. destruct (zget e i) as [[]|]; [|done]. simpl in *. by simplify_eq.
Qed.

(** *** Positions in the queue *)

Lemma zlast_nil : zlast [] = 0.
Proof. done. Qed.

Lemma zhd_nil : zhd [] = 0.
Proof. done. Qed.

Lemma zlast_snoc A h : zlast (A ++ [h]) = h.
Proof. apply List.last_last. Qed.

Lemma zlast_cons h A : A <> [] -> zlast (h :: A) = zlast A.
Proof. destruct A; [done|]. done. Qed.

Lemma zlast_in A : A <> [] -> zlast A ∈ A.
Proof.
  destruct A as [|x A _] using rev_ind; [done|]. intros _. rewrite zlast_snoc. apply elem_of_app. right. left.
Qed.

Lemma zhd_in B : B <> [] -> zhd B ∈ B.
Proof. destruct B; [done|]. intros _. left. Qed.

Section Table.
Context (ht : HandleTable) (Q : list Z) (Hht : ht_ok ht Q).

Lemma in_range h : h ∈ Q -> 1 <= h <= nelements ht.
Proof. intros Hh. exact (proj1 (list.Forall_forall _ _) (ht_range _ _ Hht) h Hh). Qed.

Lemma zlast_range A : A ⊆ Q -> 0 <= zlast A <= nelements ht.
Proof.
  intros HA. pose proof (ht_max _ _ Hht). destruct (decide (A = [])) as [->|Hne]; [rewrite zlast_nil; lia|].
  pose proof (in_range _ (HA _ (zlast_in A Hne))). lia.
Qed.

Lemma zhd_range B : B ⊆ Q -> 0 <= zhd B <= nelements ht.
Proof.
  intros HB. pose proof (ht_max _ _ Hht). destruct (decide (B = [])) as [->|Hne]; [rewrite zhd_nil; lia|].
  pose proof (in_range _ (HB _ (zhd_in B Hne))). lia.
Qed.

(** An index is the anchor only of the empty end. *)
Lemma zlast_0 A : A ⊆ Q -> zlast A = 0 -> A = [].
Proof.
  intros HA Hz. destruct (decide (A = [])) as [|Hne]; [done|].
  pose proof (in_range _ (HA _ (zlast_in A Hne))). lia.
Qed.

Lemma zhd_0 B : B ⊆ Q -> zhd B = 0 -> B = [].
Proof.
  intros HB Hz. destruct (decide (B = [])) as [|Hne]; [done|].
  pose proof (in_range _ (HB _ (zhd_in B Hne))). lia.
Qed.

Lemma anchor : zget (elem ht) 0 = Some (mkIndex (zhd Q) (zlast Q)).
Proof.
  apply idx_eq.
  - apply (ht_link _ _ Hht [] Q eq_refl).
  - apply (ht_link _ _ Hht Q [] (eq_sym (app_nil_r Q))).
Qed.

End Table.

(** *** Allocation *)

Lemma handle_alloc_empty ht : ht_ok ht [] -> handle_alloc ht = Some (0, ht).
Proof. intros Hht. unfold handle_alloc. by rewrite (anchor ht [] Hht). Qed.

Lemma handle_alloc_head ht h Q :
  ht_ok ht (h :: Q) ->
  exists ht', handle_alloc ht = Some (h, ht') /\ nelements ht' = nelements ht /\ ht_ok ht' Q.
Proof.
  intros Hht. pose proof (in_range ht _ Hht h ltac:(left)) as Hh. pose proof (ht_max _ _ Hht) as Hm.
  pose proof (ht_size _ _ Hht) as Hsz. pose proof (ht_nodup _ _ Hht) as Hnd. apply NoDup_cons in Hnd as [HhQ Hnd].
  assert (HQ : Q ⊆ h :: Q) by (intros x Hx; by right).
  pose proof (zhd_range ht _ Hht Q HQ) as Hz.
  unfold handle_alloc. rewrite (anchor ht _ Hht). cbn [mbind option_bind next zhd List.hd].
  replace (h =? 0) with false by (symmetry; apply Z.eqb_neq; lia).
  assert (Hp : zget (elem ht) h = Some (mkIndex (zhd Q) 0)).
  { apply idx_eq; [apply (ht_link _ _ Hht [h] Q eq_refl)|apply (ht_link _ _ Hht [] (h :: Q) eq_refl)]. }
  rewrite Hp. cbn [mbind option_bind next prev].
  destruct (set_next_ok 0 (zhd Q) (elem ht)) as (e1 & H1 & L1 & N1 & P1); [lia|unfold in_u; simpl; lia|].
  rewrite H1. cbn [mbind option_bind].
  assert (Hp1 : zget e1 h = Some (mkIndex (zhd Q) 0)).
  { apply idx_eq; [rewrite N1, decide_False by lia|rewrite P1]; unfold nxt, prv; by rewrite Hp. }
  rewrite Hp1. cbn [mbind option_bind prev].
  destruct (set_prev_ok (zhd Q) 0 e1) as (e2 & H2 & L2 & N2 & P2); [lia|done|].
  rewrite H2. cbn [mbind option_bind].
  destruct (set_prev_ok h 0 e2) as (e3 & H3 & L3 & N3 & P3); [lia|done|].
  rewrite H3. cbn [mbind option_bind].
  destruct (set_next_ok h 0 e3) as (e4 & H4 & L4 & N4 & P4); [lia|done|].
  rewrite H4. cbn [mbind option_bind]. eexists. split; [done|]. split; [done|].
  assert (HN : forall j, nxt e4 j = if decide (j = h) then Some 0 else if decide (j = 0) then Some (zhd Q) else nxt (elem ht) j).
  { intros j. rewrite N4. case_decide; [done|]. by rewrite N3, N2, N1. }
  assert (HP : forall j, prv e4 j = if decide (j = h) then Some 0 else if decide (j = zhd Q) then Some 0 else prv (elem ht) j).
  { intros j. rewrite P4, P3. case_decide; [done|]. rewrite P2. case_decide; [done|]. by rewrite P1. }
  constructor; cbn [elem nelements].
  - intros A B HAB. assert (HA : A ⊆ Q) by (intros x Hx; rewrite HAB; apply elem_of_app; by left).
    assert (HB : B ⊆ Q) by (intros x Hx; rewrite HAB; apply elem_of_app; by right).
    assert (HAh : zlast A <> h).
    { intros E. destruct (decide (A = [])) as [->|Hne]; [rewrite zlast_nil in E; lia|].
      apply HhQ. rewrite <- E. by apply HA, zlast_in. }
    assert (HBh : zhd B <> h).
    { intros E. destruct (decide (B = [])) as [->|Hne]; [rewrite zhd_nil in E; lia|].
      apply HhQ. rewrite <- E. by apply HB, zhd_in. }
    rewrite HN, HP. rewrite !(decide_False (P := _ = h)) by done.
    destruct (ht_link _ _ Hht (h :: A) B ltac:(by rewrite HAB)) as [Hn Hpv].
    destruct (decide (A = [])) as [->|Hne].
    + simpl in HAB. subst B. split; [by rewrite decide_True|]. by rewrite decide_True.
    + rewrite zlast_cons in Hn, Hpv by done.
      rewrite (decide_False (P := zlast A = 0)).
      2:{ intros E. apply Hne. by eapply zlast_0; [exact Hht|intros x Hx; right; by apply HA|]. }
      split; [done|]. rewrite decide_False; [done|]. intros E.
      destruct A as [|a A]; [done|]. simpl in HAB. rewrite HAB in E. cbn [zhd List.hd] in E.
      destruct (decide (B = [])) as [->|HneB].
      * pose proof (in_range ht _ Hht a ltac:(right; rewrite HAB; left)). rewrite zhd_nil in E. lia.
      * apply zhd_in in HneB. rewrite HAB in Hnd. apply NoDup_cons in Hnd as [Hna _].
        apply Hna. rewrite <- E. apply elem_of_app. by right.
  - intros x Hx HxQ. apply idx_eq; [rewrite HN|rewrite HP].
    + case_decide; [done|]. rewrite decide_False by lia. unfold nxt.
      by rewrite (ht_used _ _ Hht x) by (done || (intros [?|?]%elem_of_cons; done)).
    + case_decide; [done|]. case_decide; [done|]. unfold prv.
      by rewrite (ht_used _ _ Hht x) by (done || (intros [?|?]%elem_of_cons; done)).
  - pose proof (ht_range _ _ Hht) as Hr. by inversion Hr.
  - done.
  - lia.
  - done.
Qed.

(** *** Release *)

Lemma zlast_app A B : B <> [] -> zlast (A ++ B) = zlast B.
Proof. destruct B as [|x B _] using rev_ind; [done|]. intros _. by rewrite app_assoc, !zlast_snoc. Qed.

(** The last handle of the queue differs from every earlier one. *)
Lemma zlast_ne ht A B : ht_ok ht (A ++ B) -> B <> [] -> zlast A <> zlast (A ++ B).
Proof.
  intros Hht HB E. rewrite zlast_app in E by done. pose proof (zlast_in B HB) as Hin.
  destruct (decide (A = [])) as [->|Hne].
  - pose proof (in_range ht _ Hht (zlast B) ltac:(apply elem_of_app; by right)). rewrite zlast_nil in E. lia.
  - pose proof (ht_nodup _ _ Hht) as Hnd. apply NoDup_app in Hnd as (_ & Hd & _).
    apply (Hd (zlast A)); [by apply zlast_in|]. by rewrite E.
Qed.

Lemma handle_free_ok ht Q h :
  ht_ok ht Q -> 1 <= h <= nelements ht -> h ∉ Q ->
  exists ht', handle_free ht h = Some (Some ht') /\ nelements ht' = nelements ht /\ ht_ok ht' (Q ++ [h]).
Proof.
  intros Hht Hh HhQ. pose proof (ht_max _ _ Hht) as Hm. pose proof (ht_size _ _ Hht) as Hsz.
  pose proof (zlast_range ht Q Hht Q ltac:(done)) as Hz.
  assert (HzQ : zlast Q <> h).
  { intros E. destruct (decide (Q = [])) as [->|Hne]; [rewrite zlast_nil in E; lia|].
    apply HhQ. rewrite <- E. by apply zlast_in. }
  unfold handle_free. rewrite (proj2 (Z.eqb_neq h 0)), (proj2 (Z.ltb_ge _ _)) by lia. cbn [orb].
  rewrite (ht_used _ _ Hht h Hh HhQ). cbn [mbind option_bind next prev idx0 Z.eqb negb orb].
  rewrite (anchor ht Q Hht). cbn [mbind option_bind prev].
  destruct (set_prev_ok h (zlast Q) (elem ht)) as (e1 & H1 & L1 & N1 & P1); [lia|unfold in_u; simpl; lia|].
  rewrite H1. cbn [mbind option_bind].
  destruct (set_prev_ok 0 h e1) as (e2 & H2 & L2 & N2 & P2); [lia|unfold in_u; simpl; lia|].
  rewrite H2. cbn [mbind option_bind].
  assert (Hp : zget e2 h = Some (mkIndex 0 (zlast Q))).
  { apply idx_eq.
    - rewrite N2, N1. unfold nxt. by rewrite (ht_used _ _ Hht h Hh HhQ).
    - rewrite P2, decide_False by lia. by rewrite P1, decide_True. }
  rewrite Hp. cbn [mbind option_bind prev].
  destruct (set_next_ok (zlast Q) h e2) as (e3 & H3 & L3 & N3 & P3); [lia|unfold in_u; simpl; lia|].
  rewrite H3. cbn [mbind option_bind].
  destruct (set_next_ok h 0 e3) as (e4 & H4 & L4 & N4 & P4); [lia|done|].
  rewrite H4. cbn [mbind option_bind]. eexists. split; [done|]. split; [done|].
  assert (HN : forall j, nxt e4 j = if decide (j = h) then Some 0 else if decide (j = zlast Q) then Some h else nxt (elem ht) j).
  { intros j. rewrite N4. case_decide; [done|]. rewrite N3. case_decide; [done|]. by rewrite N2, N1. }
  assert (HP : forall j, prv e4 j = if decide (j = 0) then Some h else if decide (j = h) then Some (zlast Q) else prv (elem ht) j).
  { intros j. rewrite P4, P3, P2. case_decide; [done|]. by rewrite P1. }
  constructor; cbn [elem nelements].
  - intros A B HAB. destruct B as [|b B _] using rev_ind.
    { rewrite app_nil_r in HAB. subst A. rewrite zlast_snoc, zhd_nil, HN, HP. rewrite !decide_True by done. done. }
    rewrite app_assoc in HAB. apply app_inj_tail in HAB as [HQ <-].
    assert (HAh : zlast A <> h).
    { intros E. destruct (decide (A = [])) as [->|Hne]; [rewrite zlast_nil in E; lia|].
      apply HhQ. rewrite HQ. apply elem_of_app. left. rewrite <- E. by apply zlast_in. }
    rewrite HN, HP, (decide_False (P := zlast A = h)) by done. destruct B as [|b B].
    + rewrite app_nil_r in HQ. subst A. simpl. change (zhd [h]) with h.
      rewrite decide_True by done. rewrite (decide_False (P := h = 0)) by lia. by rewrite decide_True.
    + change (zhd ((b :: B) ++ [h])) with b. destruct (ht_link _ _ Hht A (b :: B) HQ) as [Hn Hpv].
      assert (Hb : b ∈ Q) by (rewrite HQ; apply elem_of_app; right; left).
      rewrite decide_False by (rewrite HQ; apply (zlast_ne ht); [by rewrite <- HQ|done]). split; [done|].
      rewrite decide_False by (pose proof (in_range ht Q Hht b Hb); lia).
      rewrite decide_False by (intros ->; done). done.
  - intros x Hx HxQ. assert (Hxh : x <> h) by (intros ->; apply HxQ, elem_of_app; right; left).
    assert (HxQ' : x ∉ Q) by (intros ?; apply HxQ, elem_of_app; by left).
    pose proof (ht_used _ _ Hht x Hx HxQ') as Hu. apply idx_eq.
    + rewrite HN, decide_False by done. rewrite decide_False; [unfold nxt; by rewrite Hu|]. intros ->.
      destruct (decide (Q = [])) as [->|Hne]; [rewrite zlast_nil in Hx; lia|]. by apply HxQ', zlast_in.
    + rewrite HP, !decide_False by (done || lia). unfold prv. by rewrite Hu.
  - apply Forall_app. split; [apply (ht_range _ _ Hht)|]. by constructor.
  - apply NoDup_app. split; [apply (ht_nodup _ _ Hht)|]. split; [|apply NoDup_singleton].
    intros x Hx ->%list_elem_of_singleton. done.
  - lia.
  - done.
Qed.

(** A second release of a handle is fatal, unless it is the only free one. *)
Lemma handle_free_again ht Q h : ht_ok ht Q -> h ∈ Q -> Q <> [h] -> handle_free ht h = Some None.
Proof.
  intros Hht Hin Hne. pose proof (in_range ht Q Hht h Hin) as Hh. unfold handle_free.
  rewrite (proj2 (Z.eqb_neq h 0)), (proj2 (Z.ltb_ge _ _)) by lia. cbn [orb].
  apply list_elem_of_split in Hin as (A & B & HQ).
  assert (Hp : zget (elem ht) h = Some (mkIndex (zhd B) (zlast A))).
  { apply idx_eq.
    - destruct (ht_link _ _ Hht (A ++ [h]) B) as [Hn _]; [by rewrite <- app_assoc|]. by rewrite zlast_snoc in Hn.
    - by destruct (ht_link _ _ Hht A (h :: B) HQ). }
  rewrite Hp. cbn [mbind option_bind next prev].
  destruct (Z.eqb_spec (zhd B) 0) as [HB|HB]; [|done]. destruct (Z.eqb_spec (zlast A) 0) as [HA|HA]; [|done].
  exfalso. apply Hne. apply (zhd_0 ht Q Hht) in HB; [|intros x Hx; rewrite HQ; apply elem_of_app; right; by right].
  apply (zlast_0 ht Q Hht) in HA; [|intros x Hx; rewrite HQ; apply elem_of_app; by left]. by subst.
Qed.

Lemma handle_free_invalid ht h : h = 0 \/ nelements ht < h -> handle_free ht h = Some None.
Proof.
  intros Hh. unfold handle_free. destruct (Z.eqb_spec h 0); [done|]. destruct (Z.ltb_spec (nelements ht) h); [done|lia].
Qed.

(** *** Initialisation and extension *)

Lemma chain_ok k i e :
  1 <= i -> i + Z.of_nat k <= zlen e -> zlen e <= 65535 ->
  exists e', chain k i e = Some e' /\ zlen e' = zlen e /\
    (forall j, nxt e' j = if decide (i - 1 <= j < i + Z.of_nat k - 1) then Some (j + 1) else nxt e j) /\
    (forall j, prv e' j = if decide (i <= j < i + Z.of_nat k) then Some (j - 1) else prv e j).
Proof.
  revert i e; induction k as [|k IH]; intros i e Hi Hl Hmax; cbn [chain].
  - exists e. split; [done|]. split; [done|]. split; intros j; rewrite decide_False; (done || lia).
  - destruct (set_next_ok (i - 1) i e) as (e1 & H1 & L1 & N1 & P1); [lia|unfold in_u; simpl; lia|].
    rewrite H1. cbn [mbind option_bind].
    destruct (set_prev_ok i (i - 1) e1) as (e2 & H2 & L2 & N2 & P2); [lia|unfold in_u; simpl; lia|].
    rewrite H2. cbn [mbind option_bind].
    destruct (IH (i + 1) e2) as (e3 & H3 & L3 & N3 & P3); [lia|lia|lia|].
    exists e3. split; [done|]. split; [lia|]. split; intros j.
    + rewrite N3, N2, N1. repeat case_decide; try lia; try done. f_equal. lia.
    + rewrite P3, P2, P1. repeat case_decide; try lia; try done. f_equal. lia.
Qed.

Lemma zlen_seqZ a m : 0 <= m -> zlen (seqZ a m) = m.
Proof. intros. unfold zlen. rewrite length_seqZ. lia. Qed.

Lemma zhd_seqZ a m : 0 < m -> zhd (seqZ a m) = a.
Proof. intros. by rewrite seqZ_cons. Qed.

(** The ends of a split of an interval. *)
Lemma seqZ_split a m A B :
  seqZ a m = A ++ B -> zlen A + zlen B = Z.max 0 m /\
  (A <> [] -> zlast A = a + zlen A - 1) /\ (B <> [] -> zhd B = a + zlen A).
Proof.
  intros HAB.
  assert (Hl : forall i x, (A ++ B) !! i = Some x -> x = a + Z.of_nat i).
  { intros i x Hi. rewrite <- HAB in Hi. apply lookup_seqZ in Hi as [-> _]. done. }
  split; [|split].
  - assert (length (A ++ B) = Z.to_nat m) as H by (by rewrite <- HAB, length_seqZ).
    rewrite length_app in H. unfold zlen. lia.
  - destruct A as [|x A _] using rev_ind; [done|]. intros _. rewrite zlast_snoc.
    rewrite (Hl (length A) x).
    + unfold zlen. rewrite length_app. simpl. lia.
    + rewrite <- app_assoc, lookup_app_r by lia. by rewrite Nat.sub_diag.
  - destruct B as [|x B]; [done|]. intros _. cbn [zhd List.hd]. apply Hl.
    rewrite lookup_app_r by lia. by rewrite Nat.sub_diag.
Qed.

Lemma handle_reset_ok ht :
  2 <= nelements ht < 65535 -> zlen (elem ht) = nelements ht + 1 ->
  exists ht', handle_reset ht = Some ht' /\ nelements ht' = nelements ht /\ ht_ok ht' (seqZ 1 (nelements ht)).
Proof.
  intros Hm Hsz. set (n := nelements ht) in *. unfold handle_reset. fold n.
  destruct (chain_ok (Z.to_nat n) 1 (elem ht)) as (e1 & H1 & L1 & N1 & P1); [lia|lia|lia|].
  rewrite H1. cbn [mbind option_bind].
  destruct (set_next_ok n 0 e1) as (e2 & H2 & L2 & N2 & P2); [lia|done|]. rewrite H2. cbn [mbind option_bind].
  destruct (set_prev_ok 0 n e2) as (e3 & H3 & L3 & N3 & P3); [lia|unfold in_u; simpl; lia|].
  rewrite H3. cbn [mbind option_bind]. eexists. split; [done|]. split; [done|].
  assert (HN : forall j, 0 <= j <= n -> nxt e3 j = Some (if decide (j = n) then 0 else j + 1)).
  { intros j Hj. rewrite N3, N2, N1. repeat case_decide; (done || lia). }
  assert (HP : forall j, 0 <= j <= n -> prv e3 j = Some (if decide (j = 0) then n else j - 1)).
  { intros j Hj. rewrite P3, P2, P1. repeat case_decide; (done || lia). }
  constructor; cbn [elem nelements].
  - intros A B HAB. destruct (seqZ_split 1 n A B HAB) as (Hlen & HA & HB).
    pose proof (zlen_nonneg A). pose proof (zlen_nonneg B).
    assert (EA : zlast A = zlen A).
    { destruct (decide (A = [])) as [->|Hne]; [done|]. rewrite HA by done. lia. }
    assert (EB : zhd B = if decide (zlen A = n) then 0 else zlen A + 1).
    { destruct B as [|b B].
      - rewrite zlen_nil in Hlen. rewrite decide_True by lia. done.
      - rewrite HB by done. rewrite zlen_cons in Hlen. pose proof (zlen_nonneg B). rewrite decide_False by lia. lia. }
    rewrite EA, EB, HN by lia. split; [done|]. case_decide as E.
    + rewrite HP by lia. by rewrite decide_True, E by done.
    + rewrite HP by lia. rewrite decide_False by lia. f_equal. lia.
  - intros h Hh Hn. destruct Hn. apply elem_of_seqZ. lia.
  - apply Forall_forall. intros h Hh%elem_of_seqZ. lia.
  - apply NoDup_seqZ.
  - lia.
  - done.
Qed.

Lemma handle_init_ok fill n :
  2 <= n < 65535 ->
  exists ht, handle_init true fill n = Some (Some ht) /\ nelements ht = n /\ ht_ok ht (seqZ 1 n).
Proof.
  intros Hn. unfold handle_init. rewrite (proj2 (Z.ltb_ge n 2)), (proj2 (Z.leb_gt _ _)) by lia. cbn [orb negb].
  destruct (handle_reset_ok (mkHT n (replicate (Z.to_nat (n + 1)) fill))) as (ht & -> & H2 & H3); [done| |].
  - cbn [elem nelements]. rewrite zlen_replicate. lia.
  - cbn [mbind option_bind]. eauto.
Qed.

Lemma resize_ok fill n e :
  zlen e <= n + 1 -> zlen (resize fill n e) = n + 1 /\ forall j, j < zlen e -> zget (resize fill n e) j = zget e j.
Proof.
  intros Hl. unfold resize. rewrite ztake_full by done. pose proof (zlen_nonneg e). split.
  - rewrite zlen_app, zlen_replicate. lia.
  - intros j Hj. by apply zget_app_l.
Qed.

Lemma append_new_ok e a old n :
  0 <= a <= old -> old + 1 <= n -> zlen e = n + 1 -> n < 65535 -> prv e 0 = Some a ->
  exists e', append_new old n e = Some e' /\ zlen e' = zlen e /\
    (forall j, nxt e' j = if decide (j = n) then Some 0 else if decide (j = a) then Some (old + 1) else nxt e j) /\
    (forall j, prv e' j = if decide (j = 0) then Some n else if decide (j = old + 1) then Some a else prv e j).
Proof.
  intros Ha Hn Hl Hmax Hp0.
  assert (Hprv : forall e, prv e 0 = Some a -> exists x, zget e 0 = Some x /\ prev x = a).
  { intros e0 Hp. unfold prv in Hp. destruct (zget e0 0) as [x|]; simplify_eq/=. eauto. }
  destruct (Hprv e Hp0) as (x & Hx & Hxa).
  destruct (set_next_ok a (old + 1) e) as (e1 & H1 & L1 & N1 & P1); [lia|unfold in_u; simpl; lia|].
  destruct (Hprv e1 ltac:(by rewrite P1)) as (y & Hy & Hya).
  destruct (set_prev_ok (old + 1) a e1) as (e2 & H2 & L2 & N2 & P2); [lia|unfold in_u; simpl; lia|].
  destruct (set_prev_ok 0 n e2) as (e3 & H3 & L3 & N3 & P3); [lia|unfold in_u; simpl; lia|].
  destruct (set_next_ok n 0 e3) as (e4 & H4 & L4 & N4 & P4); [lia|done|].
  exists e4. split.
  - unfold append_new. rewrite Hx. cbn [mbind option_bind]. rewrite Hxa.
    destruct (Z.eqb_spec a 0) as [Ea|Ea]; cbn [negb].
    + rewrite Ea in H1, H2. rewrite H1. cbn [mbind option_bind]. rewrite H2. cbn [mbind option_bind].
      by rewrite H3.
    + rewrite H1. cbn [mbind option_bind]. rewrite Hy. cbn [mbind option_bind]. rewrite Hya, H2.
      cbn [mbind option_bind]. by rewrite H3.
  - split; [lia|]. split; intros j.
    + rewrite N4. case_decide; [done|]. by rewrite N3, N2, N1.
    + rewrite P4, P3. case_decide; [done|]. by rewrite P2, P1.
Qed.

Lemma handle_extend_ok fill ht Q m :
  ht_ok ht Q -> 0 < m -> nelements ht + m < 65535 ->
  exists ht', handle_extend true fill ht m = Some (Some ht') /\ nelements ht' = nelements ht + m /\
    ht_ok ht' (Q ++ seqZ (nelements ht + 1) m).
Proof.
  intros Hht Hm Hmax. pose proof (ht_max _ _ Hht) as Hm0. pose proof (ht_size _ _ Hht) as Hsz.
  set (old := nelements ht) in *. set (n := old + m) in *.
  assert (Hw : ⟦old + m⟧32 = n) by (apply wrap_small; unfold in_u; simpl; lia).
  unfold handle_extend. fold old. rewrite Hw. rewrite (proj2 (Z.ltb_ge n 2)), (proj2 (Z.leb_gt _ _)) by lia.
  cbn [orb negb]. destruct (resize_ok fill n (elem ht)) as [Rl Rg]; [lia|].
  destruct (chain_ok (Z.to_nat (n - (old + 1))) (old + 2) (resize fill n (elem ht))) as (e1 & H1 & L1 & N1 & P1); [lia|lia|lia|].
  rewrite H1. cbn [mbind option_bind].
  pose proof (zlast_range ht Q Hht Q ltac:(done)) as Hz. fold old in Hz.
  assert (Hold : forall j, j <= old -> nxt e1 j = nxt (elem ht) j /\ prv e1 j = prv (elem ht) j).
  { intros j Hj. rewrite N1, P1, !decide_False by lia. unfold nxt, prv. by rewrite Rg by lia. }
  destruct (append_new_ok e1 (zlast Q) old n) as (e' & He & L' & N' & P'); [lia|lia|lia|lia| |].
  { rewrite (proj2 (Hold 0 ltac:(lia))). unfold prv. by rewrite (anchor ht Q Hht). }
  rewrite He. cbn [mbind option_bind]. eexists. split; [done|]. split; [done|].
  assert (HN : forall j, old < j <= n -> nxt e' j = Some (if decide (j = n) then 0 else j + 1)).
  { intros j Hj. rewrite N'. case_decide; [done|]. rewrite decide_False by lia.
    by rewrite N1, decide_True by lia. }
  assert (HP : forall j, old + 1 < j <= n -> prv e' j = Some (j - 1)).
  { intros j Hj. rewrite P', !decide_False by lia. by rewrite P1, decide_True by lia. }
  assert (HQr : forall x, x ∈ Q -> 1 <= x <= old) by apply (in_range ht Q Hht).
  constructor; cbn [elem nelements].
  - intros A B HAB. apply app_eq_app in HAB as (X & [[HQ ->]|[-> HS]]).
    + destruct (decide (X = [])) as [->|HX].
      * rewrite app_nil_r in HQ. subst A. simpl. rewrite zhd_seqZ by done.
        rewrite N', P', (decide_False (P := zlast Q = n)), decide_True, decide_False, decide_True by (done || lia). done.
      * destruct (ht_link _ _ Hht A X HQ) as [Hn Hpv].
        assert (HA : zlast A <= old /\ zlast A <> zlast Q).
        { split; [|rewrite HQ; apply (zlast_ne ht); [by rewrite <- HQ|done]].
          apply (zlast_range ht Q Hht). intros x Hx. rewrite HQ. apply elem_of_app. by left. }
        assert (Hhd : zhd (X ++ seqZ (old + 1) m) = zhd X) by (by destruct X).
        assert (HX' : 1 <= zhd X <= old) by (apply HQr; rewrite HQ; apply elem_of_app; right; by apply zhd_in).
        rewrite Hhd, N', P', !decide_False by lia. rewrite (proj1 (Hold (zlast A) ltac:(lia))), (proj2 (Hold (zhd X) ltac:(lia))).
        done.
    + destruct (decide (X = [])) as [->|HX].
      * simpl in HS. subst B. rewrite app_nil_r.
        rewrite zhd_seqZ by done.
        rewrite N', P', (decide_False (P := zlast Q = n)), decide_True, decide_False, decide_True by (done || lia). done.
      * rewrite zlast_app by done. destruct (seqZ_split (old + 1) m X B HS) as (Hl & Ha & Hb).
        rewrite Ha by done. assert (0 < zlen X) by (destruct X; [done|]; rewrite zlen_cons; pose proof (zlen_nonneg X); lia).
        pose proof (zlen_nonneg B). rewrite HN by lia. destruct B as [|b B].
        -- rewrite zlen_nil in Hl. rewrite decide_True by lia. split; [done|].
           rewrite zhd_nil, P', decide_True by done. f_equal. lia.
        -- rewrite Hb by done. rewrite zlen_cons in Hl. pose proof (zlen_nonneg B).
           rewrite decide_False by lia. split; [f_equal; lia|]. rewrite HP by lia. f_equal; lia.
  - intros h Hh Hn. assert (Hho : h <= old).
    { destruct (decide (h <= old)); [done|]. exfalso. apply Hn, elem_of_app. right. apply elem_of_seqZ. lia. }
    assert (HhQ : h ∉ Q) by (intros ?; apply Hn, elem_of_app; by left).
    pose proof (ht_used _ _ Hht h ltac:(lia) HhQ) as Hu. destruct (Hold h Hho) as [On Op].
    apply idx_eq.
    + rewrite N', !decide_False; [rewrite On; unfold nxt; by rewrite Hu| |lia]. intros ->.
      destruct (decide (Q = [])) as [->|Hne]; [rewrite zlast_nil in Hh; lia|]. by apply HhQ, zlast_in.
    + rewrite P', !decide_False by lia. rewrite Op. unfold prv. by rewrite Hu.
  - apply Forall_app. split; apply Forall_forall; intros x Hx; [pose proof (HQr x Hx); lia|].
    apply elem_of_seqZ in Hx. lia.
  - apply NoDup_app. split; [apply (ht_nodup _ _ Hht)|]. split; [|apply NoDup_seqZ].
    intros x Hx Hx2%elem_of_seqZ. pose proof (HQr x Hx). lia.
  - lia.
  - lia.
Qed.

(** ** Use of a table

    The tables that initialisation, allocation, extension and the release of
    handles in use lead to, with the handles in use. *)

Inductive hreach (fill : Index) : HandleTable -> list Z -> Prop :=
| hr_init n ht : handle_init true fill n = Some (Some ht) -> hreach fill ht []
| hr_alloc ht U h ht' : hreach fill ht U -> handle_alloc ht = Some (h, ht') -> h <> 0 -> hreach fill ht' (h :: U)
| hr_free ht U1 h U2 ht' :
    hreach fill ht (U1 ++ h :: U2) -> handle_free ht h = Some (Some ht') -> hreach fill ht' (U1 ++ U2)
| hr_extend ht U m ht' :
    hreach fill ht U -> 0 < m < 2 ^ 31 -> handle_extend true fill ht m = Some (Some ht') -> hreach fill ht' U.

Lemma handle_init_range fill n ht : handle_init true fill n = Some (Some ht) -> 2 <= n < 65535.
Proof. unfold handle_init. destruct (Z.ltb_spec n 2), (Z.leb_spec 65535 n); done || lia. Qed.

Lemma handle_extend_range fill ht m ht' :
  2 <= nelements ht < 65535 -> 0 < m < 2 ^ 31 -> handle_extend true fill ht m = Some (Some ht') -> nelements ht + m < 65535.
Proof.
  intros Hn Hm. unfold handle_extend. rewrite wrap_small by (unfold in_u; simpl; lia).
  destruct (Z.ltb_spec (nelements ht + m) 2), (Z.leb_spec 65535 (nelements ht + m)); done || lia.
Qed.

(** The handles 1 to [nelements] are free or in use, none is both. *)
Lemma hreach_ok fill ht U :
  hreach fill ht U -> exists Q, ht_ok ht Q /\ Q ++ U ≡ₚ seqZ 1 (nelements ht).
Proof.
  induction 1 as [n ht Hi|ht U h ht' _ (Q & Hht & HP) Ha Hh|ht U1 h U2 ht' _ (Q & Hht & HP) Hf|ht U m ht' _ (Q & Hht & HP) Hm He].
  - destruct (handle_init_ok fill n (handle_init_range _ _ _ Hi)) as (ht1 & Hi1 & Hn & Hok).
    assert (ht1 = ht) as -> by congruence. exists (seqZ 1 n). by rewrite app_nil_r, Hn.
  - destruct Q as [|q Q].
    + rewrite (handle_alloc_empty ht Hht) in Ha. simplify_eq.
    + destruct (handle_alloc_head ht q Q Hht) as (ht1 & Ha1 & Hn & Hok). rewrite Ha in Ha1. simplify_eq.
      exists Q. split; [done|]. rewrite Hn, <- HP. rewrite <- Permutation_middle. done.
  - assert (HhQ : h ∉ Q).
    { intros Hin. assert (Hnd : NoDup (Q ++ U1 ++ h :: U2)) by (rewrite HP; apply NoDup_seqZ).
      apply NoDup_app in Hnd as (_ & Hd & _). apply (Hd h Hin), elem_of_app. right. left. }
    assert (Hh : h ∈ seqZ 1 (nelements ht)).
    { rewrite <- HP. apply elem_of_app. right. apply elem_of_app. right. left. }
    apply elem_of_seqZ in Hh. destruct (handle_free_ok ht Q h Hht ltac:(lia) HhQ) as (ht1 & Hf1 & Hn & Hok).
    rewrite Hf in Hf1. simplify_eq. exists (Q ++ [h]). split; [done|]. rewrite Hn, <- HP.
    rewrite <- app_assoc. simpl. apply Permutation_app_head. apply Permutation_middle.
  - pose proof (handle_extend_range _ _ _ _ (ht_max _ _ Hht) Hm He) as Hr.
    destruct (handle_extend_ok fill ht Q m Hht ltac:(lia) Hr) as (ht1 & He1 & Hn & Hok).
    assert (ht1 = ht') as -> by congruence. eexists. split; [exact Hok|]. rewrite Hn.
    rewrite (seqZ_app 1 (nelements ht) m) by (pose proof (ht_max _ _ Hht); lia).
    rewrite <- HP, (Z.add_comm 1). rewrite <- !app_assoc. apply Permutation_app_head, Permutation_app_comm.
Qed.

(** Allocation from a table whose anchor points to [h] both ways, when [h]
    points to itself or to nothing. *)
Lemma alloc_selfloop n h e b :
  n < 65535 -> 1 <= h <= n -> zlen e = n + 1 ->
  zget e 0 = Some (mkIndex h h) -> zget e h = Some (mkIndex 0 b) -> b = 0 \/ b = h ->
  exists ht', handle_alloc (mkHT n e) = Some (h, ht') /\ nelements ht' = n /\ zlen (elem ht') = n + 1 /\
    (b = h -> zget (elem ht') 0 = Some (mkIndex h h) /\ zget (elem ht') h = Some idx0).
Proof.
  intros Hn Hh Hl Ha Hb Hbb. unfold handle_alloc. cbn [elem nelements]. rewrite Ha. cbn [mbind option_bind next].
  rewrite (proj2 (Z.eqb_neq h 0)) by lia. rewrite Hb. cbn [mbind option_bind next prev].
  destruct (set_next_ok b 0 e) as (e1 & H1 & L1 & N1 & P1); [lia|done|]. rewrite H1. cbn [mbind option_bind].
  assert (Hb1 : zget e1 h = Some (mkIndex 0 b)).
  { apply idx_eq; [rewrite N1; case_decide; [done|]|rewrite P1]; unfold nxt, prv; by rewrite Hb. }
  rewrite Hb1. cbn [mbind option_bind prev].
  destruct (set_prev_ok 0 b e1) as (e2 & H2 & L2 & N2 & P2); [lia|unfold in_u in *; simpl in *; lia|].
  rewrite H2. cbn [mbind option_bind].
  destruct (set_prev_ok h 0 e2) as (e3 & H3 & L3 & N3 & P3); [lia|done|]. rewrite H3. cbn [mbind option_bind].
  destruct (set_next_ok h 0 e3) as (e4 & H4 & L4 & N4 & P4); [lia|done|]. rewrite H4. cbn [mbind option_bind].
  eexists. split; [done|]. split; [done|]. split; [cbn; lia|]. intros ->. cbn [elem]. split; apply idx_eq.
  - rewrite N4, decide_False, N3, N2, N1, decide_False by lia. unfold nxt. by rewrite Ha.
  - rewrite P4, P3, decide_False, P2, decide_True by (done || lia). done.
  - by rewrite N4, decide_True.
  - by rewrite P4, P3, decide_True.
Qed.

(** The release of the only free handle, a second time. *)
Lemma double_free ht h :
  ht_ok ht [h] ->
  exists ht1 ht2 ht3, handle_free ht h = Some (Some ht1) /\
    handle_alloc ht1 = Some (h, ht2) /\ handle_alloc ht2 = Some (h, ht3).
Proof.
  intros Hht. pose proof (in_range ht _ Hht h ltac:(left)) as Hh. pose proof (ht_max _ _ Hht) as Hm.
  pose proof (ht_size _ _ Hht) as Hsz. pose proof (anchor ht _ Hht) as H0. change (zhd [h]) with h in H0.
  change (zlast [h]) with h in H0.
  assert (Hp : zget (elem ht) h = Some idx0).
  { apply idx_eq; [apply (ht_link _ _ Hht [h] [] eq_refl)|apply (ht_link _ _ Hht [] [h] eq_refl)]. }
  assert (Hw : in_u 16 h) by (unfold in_u; simpl; lia).
  unfold handle_free. rewrite (proj2 (Z.eqb_neq h 0)), (proj2 (Z.ltb_ge _ _)) by lia. cbn [orb].
  rewrite Hp. cbn [mbind option_bind next prev idx0 Z.eqb negb orb]. rewrite H0. cbn [mbind option_bind prev].
  destruct (set_prev_ok h h (elem ht)) as (e1 & H1 & L1 & N1 & P1); [lia|done|]. rewrite H1. cbn [mbind option_bind].
  destruct (set_prev_ok 0 h e1) as (e2 & H2 & L2 & N2 & P2); [lia|done|]. rewrite H2. cbn [mbind option_bind].
  assert (Hp2 : zget e2 h = Some (mkIndex 0 h)).
  { apply idx_eq; [rewrite N2, N1; unfold nxt; by rewrite Hp|].
    rewrite P2, decide_False by lia. by rewrite P1, decide_True. }
  rewrite Hp2. cbn [mbind option_bind prev].
  destruct (set_next_ok h h e2) as (e3 & H3 & L3 & N3 & P3); [lia|done|]. rewrite H3. cbn [mbind option_bind].
  destruct (set_next_ok h 0 e3) as (e4 & H4 & L4 & N4 & P4); [lia|done|]. rewrite H4. cbn [mbind option_bind].
  destruct (alloc_selfloop (nelements ht) h e4 h) as (ht2 & A2 & E2 & S2 & G2); [lia|lia|lia| | |by right|].
  - apply idx_eq; [rewrite N4, decide_False, N3, decide_False, N2, N1 by lia; unfold nxt; by rewrite H0|].
    by rewrite P4, P3, P2, decide_True.
  - apply idx_eq; [by rewrite N4, decide_True|]. rewrite P4, P3, P2, decide_False by lia. by rewrite P1, decide_True.
  - destruct (G2 eq_refl) as [G0 Gh]. destruct ht2 as [n2 el2]. cbn [nelements elem] in *. subst n2.
    destruct (alloc_selfloop (nelements ht) h el2 0) as (ht3 & A3 & _); [lia|lia|done|done|done|by left|]. eauto 8.
Qed.
