(* ===== verification/Table.v ===== *)
(** Dynamic tables (co/table.c, include/table.h): arrays that grow and whose
    entries keep their position, on top of handle tables.

    The code and its theorems are stated against the interface [HandleOps] of
    the handle tables; co/handle.c provides it ([Handle]). *)

From S2P Require Import Prelude TypeData Handle.
From stdpp Require Import list.

#[local] Open Scope Z_scope.

(** ** The interface of handle tables *)

(** The operations, on a type [T] of tables.  [None] is undefined behaviour,
    [Some None] a NULL result, or for [h_free] the end of the program. *)
Class HandleOps (T : Type) := {
  h_init : bool -> Z -> option (option T);
  h_extend : bool -> T -> Z -> option (option T);
  h_reset : T -> option T;
  h_alloc : T -> option (Z * T);
  h_free : T -> Z -> option (option T)
}.

(** What they promise: [h_rep t n Q] says that [t] manages the handles 1 to
    [n], of which those in [Q] are free. *)
Class HandleLaws (T : Type) `{HandleOps T} := {
  h_rep : T -> Z -> list Z -> Prop;
  h_rep_ok : forall t n Q, h_rep t n Q -> 2 <= n < 65535 /\ NoDup Q /\ Forall (fun h => 1 <= h <= n) Q;
  h_init_law : forall ok n,
    if ok && (2 <=? n) && (n <? 65535) then exists t, h_init ok n = Some (Some t) /\ h_rep t n (seqZ 1 n)
    else h_init ok n = Some None;
  h_extend_law : forall ok t n Q m, h_rep t n Q -> 0 < m -> n + m < 2 ^ 32 ->
    if ok && (n + m <? 65535)
    then exists t', h_extend ok t m = Some (Some t') /\ h_rep t' (n + m) (Q ++ seqZ (n + 1) m)
    else h_extend ok t m = Some None;
  h_reset_law : forall t n Q, h_rep t n Q -> exists t', h_reset t = Some t' /\ h_rep t' n (seqZ 1 n);
  h_alloc_none : forall t n, h_rep t n [] -> h_alloc t = Some (0, t);
  h_alloc_law : forall t n h Q, h_rep t n (h :: Q) -> exists t', h_alloc t = Some (h, t') /\ h_rep t' n Q;
  h_free_law : forall t n Q h, h_rep t n Q -> 1 <= h <= n -> h ∉ Q ->
    exists t', h_free t h = Some (Some t') /\ h_rep t' n (Q ++ [h])
}.

(** ** Model *)

Section Table.
Context {T : Type} `{HandleOps T}.
(** Whether a block of some bytes, and a table of some handles, can be had. *)
Context (xmalloc_ok handles_ok : Z -> bool).

(** The size of an element, a pointer; 0 is NULL. *)
Definition esize : Z := 8.

(** [VoidPtrTable] *)
Record Table := mkTable {
  t_min : Z;
  t_max : Z;
  t_cur : Z;
  t_n : Z;
  t_ht : option T;
  t_table : option (list Z)
}.

(** [TABLE_INIT] *)
Definition table_init : Table := mkTable 0 4294967295 0 0 None None.

(** [xrealloc] of the entries to [k] elements; the new ones are not set. *)
Definition grow (fill : Z) (k : Z) (l : list Z) : list Z :=
  ztake k l ++ replicate (Z.to_nat (k - zlen l)) fill.

(** [memset (p, 0, ...)] of [k] elements from [i] on. *)
Definition clear (i k : Z) (l : list Z) : option (list Z) :=
  if i + k <=? zlen l then Some (ztake i l ++ replicate (Z.to_nat k) 0 ++ zdrop (i + k) l) else None.

Definition OK : Z := retcode DDS_RETCODE_OK.
Definition OUT_OF_RESOURCES : Z := retcode DDS_RETCODE_OUT_OF_RESOURCES.
Definition PRECONDITION_NOT_MET : Z := retcode DDS_RETCODE_PRECONDITION_NOT_MET.

(** [table_set] *)
Definition table_set (dh : Table) (n : Z) : option (Table * Z) :=
  ht ← h_init (handles_ok n) n;
  match ht with
  | None => Some (mkTable (t_min dh) (t_max dh) (t_cur dh) (t_n dh) None (t_table dh), OUT_OF_RESOURCES)
  | Some ht =>
      let t := ⟦(n + 1) * esize⟧32 in
      if xmalloc_ok t then
        Some (mkTable (t_min dh) (t_max dh) n (t_n dh) (Some ht) (Some (replicate (Z.to_nat (n + 1)) 0)), OK)
      else
        Some (mkTable (t_min dh) (t_max dh) (t_cur dh) (t_n dh) None None, OUT_OF_RESOURCES)
  end.

(** [table_extend]; the block that could not be extended is shrunk again. *)
Definition table_extend (dh : Table) (n : Z) : option (Table * Z) :=
  ht ← t_ht dh;
  old ← t_table dh;
  let cur := t_cur dh in
  if negb (xmalloc_ok ⟦(cur + 1 + n) * esize⟧32) then Some (dh, OUT_OF_RESOURCES)
  else
    let table := grow 0 (⟦(cur + 1 + n) * esize⟧32 / esize) old in
    hs ← h_extend (handles_ok (cur + n)) ht n;
    match hs with
    | None =>
        let back := if xmalloc_ok ⟦(cur + 1) * esize⟧32 then Some (ztake (cur + 1) table) else None in
        Some (mkTable (t_min dh) (t_max dh) cur (t_n dh) (Some ht) back, OUT_OF_RESOURCES)
    | Some hs =>
        table ← clear (cur + 1) n table;
        Some (mkTable (t_min dh) (t_max dh) ⟦cur + n⟧32 (t_n dh) (Some hs) (Some table), OK)
    end.

(** [table_reset] *)
Definition table_reset (dh : Table) : option (Table * Z) :=
  match t_ht dh with
  | None => if t_min dh =? 0 then Some (dh, OK) else table_set dh (t_min dh)
  | Some ht =>
      if t_cur dh <=? t_min dh then
        dh ← (if t_n dh =? 0 then Some dh
              else
                ht ← h_reset ht;
                old ← t_table dh;
                table ← clear 0 (t_cur dh + 1) old;
                Some (mkTable (t_min dh) (t_max dh) (t_cur dh) 0 (Some ht) (Some table)));
        if t_cur dh <? t_min dh then table_extend dh (t_min dh - t_cur dh) else Some (dh, OK)
      else
        let dh := mkTable (t_min dh) (t_max dh) 0 0 None None in
        if t_min dh =? 0 then Some (dh, OK) else table_set dh (t_min dh)
  end.

(** [table_cleanup] *)
Definition table_cleanup (dh : Table) : Table :=
  match t_ht dh with
  | Some _ => mkTable 0 4294967295 0 0 None None
  | None => mkTable 0 4294967295 (t_cur dh) (t_n dh) None (t_table dh)
  end.

(** [table_require] *)
Definition table_require (dh : Table) (min max : Z) : option (Table * Z) :=
  if (max <? min) || (max <? t_cur dh) then Some (dh, PRECONDITION_NOT_MET)
  else
    let dh := mkTable (t_min dh) max (t_cur dh) (t_n dh) (t_ht dh) (t_table dh) in
    if min =? t_min dh then Some (dh, OK)
    else
      let dh := mkTable min max (t_cur dh) (t_n dh) (t_ht dh) (t_table dh) in
      if t_n dh =? 0 then table_reset dh
      else if t_cur dh <? min then table_extend dh (min - t_cur dh)
      else Some (dh, OK).

(** The number of elements [table_add] wants to add to a full table. *)
Definition add_inc (dh : Table) : Z :=
  let n := if t_min dh =? 0 then ⟦t_cur dh + 16⟧32 else ⟦t_cur dh + t_min dh⟧32 in
  let n := if t_max dh <? n then t_max dh else n in
  ⟦n - t_cur dh⟧32.

(** The first part of [table_add]: enlarge a full table. *)
Definition table_room (dh : Table) : option (Table * Z) :=
  if t_n dh =? t_cur dh then
    let n := add_inc dh in
    if n =? 0 then Some (dh, OUT_OF_RESOURCES)
    else if t_cur dh =? 0 then table_set dh n else table_extend dh n
  else Some (dh, OK).

(** [table_add]: the index, 0 on failure. *)
Definition table_add (dh : Table) : option (Table * Z) :=
  '(dh, error) ← table_room dh;
  if negb (error =? OK) then Some (dh, 0)
  else
    ht ← t_ht dh;
    '(h, ht) ← h_alloc ht;
    if h =? 0 then Some (mkTable (t_min dh) (t_max dh) (t_cur dh) (t_n dh) (Some ht) (t_table dh), 0)
    else Some (mkTable (t_min dh) (t_max dh) (t_cur dh) ⟦t_n dh + 1⟧32 (Some ht) (t_table dh), h).

(** [table_remove]: [Some None] is the end of the program. *)
Definition table_remove (dh : Table) (n : Z) : option (option Table) :=
  match t_ht dh with
  | None => Some (Some dh)
  | Some ht =>
      if (t_cur dh <? n) || (t_n dh =? 0) then Some (Some dh)
      else
        ht ← h_free ht n;
        match ht with
        | None => Some None
        | Some ht =>
            old ← t_table dh;
            table ← zset old n 0;
            let dh := mkTable (t_min dh) (t_max dh) (t_cur dh) (t_n dh - 1) (Some ht) (Some table) in
            if (t_n dh =? 0) && (t_min dh <? t_cur dh)
            then '(dh, _) ← table_reset dh; Some (Some dh)
            else Some (Some dh)
        end
  end.

(** [TABLE_ITEM_SET] *)
Definition table_item_set (dh : Table) (i v : Z) : option Table :=
  old ← t_table dh;
  table ← zset old i v;
  Some (mkTable (t_min dh) (t_max dh) (t_cur dh) (t_n dh) (t_ht dh) (Some table)).

(** [TABLE_ITEM_EXISTS] *)
Definition table_item_exists (dh : Table) (i : Z) : option bool :=
  if (i =? 0) || (t_cur dh <? i) then Some false
  else tb ← t_table dh; v ← zget tb i; Some (negb (v =? 0)).

(** [table_first] and [table_last]: the loops over [k] elements from [i] up,
    or from [i] down. *)
Fixpoint scan_up (k : nat) (i : Z) (tb : list Z) : option Z :=
  match k with
  | O => Some 0
  | S k => v ← zget tb i; if negb (v =? 0) then Some i else scan_up k (i + 1) tb
  end.

Fixpoint scan_down (k : nat) (i : Z) (tb : list Z) : option Z :=
  match k with
  | O => Some 0
  | S k => v ← zget tb i; if negb (v =? 0) then Some i else scan_down k (i - 1) tb
  end.

Definition table_first (dh : Table) : option Z :=
  if t_n dh =? 0 then Some 0 else tb ← t_table dh; scan_up (Z.to_nat (t_cur dh)) 1 tb.

Definition table_last (dh : Table) : option Z :=
  if t_n dh =? 0 then Some 0 else tb ← t_table dh; scan_down (Z.to_nat (t_cur dh)) (t_cur dh) tb.

End Table.
