(* ===== verification/TableProps.v ===== *)
(** Dynamic tables implement partial maps from indices to entries: the
    invariant, what every operation does to the map, and that co/handle.c
    provides the interface they are built on. *)

From S2P Require Import Prelude TypeData Handle Table.
From stdpp Require Import list.

#[local] Open Scope Z_scope.

(** ** Handle tables provide the interface *)

#[export] Instance handle_ops : HandleOps HandleTable := {|
  h_init ok n := handle_init ok idx0 n;
  h_extend ok t n := handle_extend ok idx0 t n;
  h_reset := handle_reset;
  h_alloc := handle_alloc;
  h_free := handle_free
|}.

#[export] Program Instance handle_laws : HandleLaws HandleTable := {|
  h_rep t n Q := ht_ok t Q /\ nelements t = n
|}.
Next Obligation.
  intros t n Q [Hht <-]. split; [apply (ht_max _ _ Hht)|]. split; [apply (ht_nodup _ _ Hht)|apply (ht_range _ _ Hht)].
Qed.
Next Obligation.
  intros ok n. destruct ok; simpl.
  - case_if E; zbool.
    + destruct (handle_init_ok idx0 n) as (t & ? & ? & ?); [lia|]. eauto.
    + unfold handle_init. destruct (Z.ltb_spec n 2); [done|]. destruct (Z.leb_spec 65535 n); [done|]. lia.
  - unfold handle_init. by destruct (_ || _).
Qed.
Next Obligation.
  intros ok t n Q m [Hht <-] Hm Hmax. pose proof (ht_max _ _ Hht). cbv beta. destruct ok; simpl.
  - case_if E; zbool.
    + destruct (handle_extend_ok idx0 t Q m) as (t' & ? & ? & ?); [done..|]. eauto.
    + unfold handle_extend. rewrite wrap_small by (unfold in_u; simpl; lia).
      rewrite (proj2 (Z.ltb_ge _ _)), (proj2 (Z.leb_le _ _)) by lia. done.
  - unfold handle_extend. by destruct (_ || _).
Qed.
Next Obligation.
  intros t n Q [Hht <-]. destruct (handle_reset_ok t) as (t' & ? & ? & ?);
    [apply (ht_max _ _ Hht)|apply (ht_size _ _ Hht)|eauto].
Qed.
Next Obligation. intros t n [Hht <-]. by apply handle_alloc_empty. Qed.
Next Obligation.
  intros t n h Q [Hht <-]. destruct (handle_alloc_head t h Q Hht) as (t' & ? & ? & ?). eauto.
Qed.
Next Obligation.
  intros t n Q h [Hht <-] Hh Hq. destruct (handle_free_ok t Q h) as (t' & ? & ? & ?); [done..|]. eauto.
Qed.

(** ** Tables *)

Section Props.
Context {T : Type} `{HandleLaws T}.
Context (xmalloc_ok handles_ok : Z -> bool).

(** An allocator that grants a block also grants a smaller one. *)
Context (Hmono : forall a b, xmalloc_ok a = true -> 0 <= b <= a -> xmalloc_ok b = true).

Implicit Types dh : Table (T := T).

(** The entries that are in use, when the handles [Q] are free. *)
Definition view dh (Q : list Z) (i : Z) : option Z :=
  if decide (1 <= i <= t_cur dh /\ i ∉ Q) then tb ← t_table dh; zget tb i else None.

Record tb_some dh (t : T) (tb : list Z) (Q : list Z) : Prop := mkTbSome {
  tb_rep : h_rep t (t_cur dh) Q;
  tb_ht : t_ht dh = Some t;
  tb_table : t_table dh = Some tb;
  tb_len : zlen tb = t_cur dh + 1;
  tb_free : forall h, h ∈ Q -> zget tb h = Some 0;
  tb_n : t_n dh = t_cur dh - zlen Q
}.

(** The table is well-formed with the free indices [Q]. *)
Definition tb_ok dh (Q : list Z) : Prop :=
  (t_ht dh = None /\ t_cur dh = 0 /\ t_n dh = 0 /\ Q = []) \/ exists t tb, tb_some dh t tb Q.

(** *** Memory *)

Lemma zget_replicate n i x : zget (replicate n x) i = if decide (0 <= i < Z.of_nat n) then Some x else (None : option Z).
Proof.
  unfold zget. case_decide as E.
  - rewrite (proj2 (Z.ltb_ge _ _)) by lia. apply lookup_replicate. split; [done|lia].
  - destruct (Z.ltb_spec i 0); [done|]. apply lookup_replicate_None. lia.
Qed.

Lemma extend_entries (old : list Z) cur n :
  zlen old = cur + 1 -> 0 <= cur -> 0 < n -> (cur + 1 + n) * esize < 2 ^ 32 ->
  exists tb, clear (cur + 1) n (grow 0 (⟦(cur + 1 + n) * esize⟧32 / esize) old) = Some tb /\
    zlen tb = cur + n + 1 /\ (forall i, i <= cur -> zget tb i = zget old i) /\
    (forall i, cur < i <= cur + n -> zget tb i = Some 0).
Proof.
  intros Hl Hc Hn Hs. unfold esize in *. rewrite wrap_small by (unfold in_u; lia). rewrite Z.div_mul by lia.
  unfold grow. rewrite ztake_full by lia. unfold clear.
  rewrite zlen_app, zlen_replicate, (proj2 (Z.leb_le _ _)) by lia. eexists. split; [done|].
  rewrite <- Hl, ztake_app_full. split; [|split].
  - rewrite !zlen_app, zlen_replicate. unfold zdrop. rewrite drop_ge; [rewrite zlen_nil; lia|].
    rewrite length_app, length_replicate. unfold zlen in *. lia.
  - intros i Hi. apply zget_app_l. lia.
  - intros i Hi. rewrite zget_app_r by lia. rewrite zget_app_l by (rewrite zlen_replicate; lia).
    rewrite zget_replicate. by rewrite decide_True by lia.
Qed.

Lemma shrink_entries (old : list Z) cur n :
  zlen old = cur + 1 -> 0 <= cur -> 0 < n -> (cur + 1 + n) * esize < 2 ^ 32 ->
  ztake (cur + 1) (grow 0 (⟦(cur + 1 + n) * esize⟧32 / esize) old) = old.
Proof.
  intros Hl Hc Hn Hs. unfold esize in *. rewrite wrap_small by (unfold in_u; lia). rewrite Z.div_mul by lia.
  unfold grow. rewrite (ztake_full old) by lia. by rewrite <- Hl, ztake_app_full.
Qed.

Lemma clear_all (old : list Z) k : zlen old = k -> clear 0 k old = Some (replicate (Z.to_nat k) 0).
Proof.
  intros Hl. unfold clear. rewrite (proj2 (Z.leb_le _ _)) by lia. unfold ztake, zdrop. simpl.
  rewrite drop_ge by (unfold zlen in Hl; lia). by rewrite app_nil_r.
Qed.

(** *** The map behind the table *)

Lemma view_some dh t tb Q i :
  tb_some dh t tb Q -> view dh Q i = if decide (1 <= i <= t_cur dh /\ i ∉ Q) then zget tb i else None.
Proof. intros Hs. unfold view. case_decide; [|done]. by rewrite (tb_table _ _ _ _ Hs). Qed.

Lemma view_none dh Q i : t_cur dh = 0 -> view dh Q i = None.
Proof. intros Hc. unfold view. rewrite decide_False by lia. done. Qed.

Lemma tb_cur dh t tb Q : tb_some dh t tb Q -> 2 <= t_cur dh < 65535.
Proof. intros Hs. apply (h_rep_ok _ _ _ (tb_rep _ _ _ _ Hs)). Qed.

(** A new table: all indices are free. *)
Lemma table_set_ok dh n :
  t_ht dh = None -> t_cur dh = 0 -> t_n dh = 0 ->
  exists dh' rc, table_set xmalloc_ok handles_ok dh n = Some (dh', rc) /\
    t_min dh' = t_min dh /\ t_max dh' = t_max dh /\
    ((rc = OK /\ t_cur dh' = n /\ exists t tb, tb_some dh' t tb (seqZ 1 n)) \/ (rc <> OK /\ tb_ok dh' [] /\ t_cur dh' = 0)).
Proof.
  intros Hh Hc Hn. unfold table_set. pose proof (h_init_law (handles_ok n) n) as Hi. case_if E in Hi.
  - destruct Hi as (t & -> & Hr). cbn [mbind option_bind]. zbool.
    destruct (xmalloc_ok _) eqn:Ex; eexists _, _; (split; [done|]); (split; [done|]); (split; [done|]).
    + left. split; [done|]. split; [done|]. eexists t, _. constructor; cbn; try done.
      * rewrite zlen_replicate. lia.
      * intros h Hh'%elem_of_seqZ. rewrite zget_replicate, decide_True by lia. done.
      * unfold zlen. rewrite length_seqZ, Hn. lia.
    + right. split; [done|]. split; [left; by rewrite Hc, Hn|done].
  - rewrite Hi. cbn [mbind option_bind]. eexists _, _. split; [done|]. split; [done|]. split; [done|].
    right. split; [done|]. split; [left; by rewrite Hc, Hn|done].
Qed.

(** Extending keeps the entries and adds free indices. *)
Lemma table_extend_ok dh t tb Q n :
  tb_some dh t tb Q -> 0 < n -> (t_cur dh + 1 + n) * esize < 2 ^ 32 ->
  exists dh' rc, table_extend xmalloc_ok handles_ok dh n = Some (dh', rc) /\
    t_min dh' = t_min dh /\ t_max dh' = t_max dh /\
    ((rc = OK /\ t_cur dh' = t_cur dh + n /\
      exists t' tb', tb_some dh' t' tb' (Q ++ seqZ (t_cur dh + 1) n) /\
        forall i, i <= t_cur dh -> zget tb' i = zget tb i) \/ (rc <> OK /\ dh' = dh)).
Proof.
  intros Hs Hn Hsz. pose proof (tb_cur _ _ _ _ Hs) as Hc. pose proof (tb_len _ _ _ _ Hs) as Hl.
  unfold table_extend. rewrite (tb_ht _ _ _ _ Hs), (tb_table _ _ _ _ Hs). cbn [mbind option_bind].
  destruct (xmalloc_ok _) eqn:Ex; cbn [negb]; [|eexists _, _; repeat (split; [done|]); by right].
  pose proof (h_extend_law (handles_ok (t_cur dh + n)) t _ Q n (tb_rep _ _ _ _ Hs) Hn) as He.
  specialize (He ltac:(unfold esize in Hsz; lia)). case_if E in He.
  - destruct He as (t' & -> & Hr). cbn [mbind option_bind]. zbool.
    destruct (extend_entries tb (t_cur dh) n Hl ltac:(lia) Hn Hsz) as (tb' & -> & Hl' & Hold & Hnew).
    cbn [mbind option_bind]. rewrite wrap_small by (unfold in_u; simpl; lia).
    eexists _, _. split; [done|]. split; [done|]. split; [done|]. left. split; [done|]. split; [done|].
    exists t', tb'. split; [|done]. constructor; cbn; try done.
    + intros h [Hh|Hh%elem_of_seqZ]%elem_of_app; [|apply Hnew; lia].
      destruct (h_rep_ok _ _ _ (tb_rep _ _ _ _ Hs)) as (_ & _ & Hr2).
      pose proof (proj1 (Forall_forall _ _) Hr2 h Hh) as Hrg. cbv beta in Hrg.
      rewrite Hold by lia. by apply (tb_free _ _ _ _ Hs).
    + rewrite (tb_n _ _ _ _ Hs), zlen_app. unfold zlen at 3. rewrite length_seqZ. lia.
  - rewrite He. cbn [mbind option_bind].
    rewrite (Hmono _ _ Ex) by (unfold esize in *; rewrite !wrap_small by (unfold in_u; lia); lia).
    rewrite shrink_entries by (done || lia). eexists _, _. split; [done|]. split; [done|]. split; [done|].
    right. split; [done|]. destruct dh. simpl in *. pose proof (tb_ht _ _ _ _ Hs) as Ht.
    pose proof (tb_table _ _ _ _ Hs) as Htb. simpl in *. by subst.
Qed.

(** *** Adding an entry *)

Lemma add_inc_small dh :
  0 <= t_cur dh < 65535 -> 0 <= t_min dh < 65536 -> t_cur dh <= t_max dh < 2 ^ 32 ->
  0 <= add_inc dh <= 65536 /\ t_cur dh + add_inc dh <= t_max dh.
Proof.
  intros Hc Hm Hx. unfold add_inc.
  set (n := if t_min dh =? 0 then ⟦t_cur dh + 16⟧32 else ⟦t_cur dh + t_min dh⟧32).
  assert (Hn : t_cur dh <= n <= t_cur dh + 65536).
  { unfold n. destruct (t_min dh =? 0); rewrite wrap_small by (unfold in_u; simpl; lia); lia. }
  destruct (Z.ltb_spec (t_max dh) n); rewrite wrap_small by (unfold in_u; simpl; lia); lia.
Qed.

(** The part of [table_add] that takes a free index. *)
Lemma take_free dh t tb h Q :
  tb_some dh t tb (h :: Q) ->
  exists t', h_alloc t = Some (h, t') /\ h <> 0 /\
    let dh' := mkTable (t_min dh) (t_max dh) (t_cur dh) ⟦t_n dh + 1⟧32 (Some t') (t_table dh) in
    tb_some dh' t' tb Q /\ view dh (h :: Q) h = None /\
    forall i, view dh' Q i = if decide (i = h) then Some 0 else view dh (h :: Q) i.
Proof.
  intros Hs. destruct (h_alloc_law _ _ _ _ (tb_rep _ _ _ _ Hs)) as (t' & Ha & Hr).
  destruct (h_rep_ok _ _ _ (tb_rep _ _ _ _ Hs)) as (Hm & Hnd & Hrg). inversion Hrg as [|? ? Hh Hrg']; subst.
  apply NoDup_cons in Hnd as [HhQ Hnd]. exists t'. split; [done|]. split; [lia|]. cbv zeta.
  pose proof (tb_n _ _ _ _ Hs) as Hn. rewrite zlen_cons in Hn. pose proof (zlen_nonneg Q) as HQ0.
  assert (Hle : zlen Q + 1 <= t_cur dh).
  { assert (Hinc : (length (h :: Q) <= length (seqZ 1 (t_cur dh)))%nat).
    { apply submseteq_length, NoDup_submseteq; [by constructor|]. intros x Hx. apply elem_of_seqZ.
      pose proof (proj1 (Forall_forall _ _) Hrg x Hx) as Hxr. cbv beta in Hxr. lia. }
    rewrite length_seqZ in Hinc. simpl in Hinc. unfold zlen. lia. }
  split; [|split].
  - constructor; cbn; try done; try apply Hs.
    + intros x Hx. apply (tb_free _ _ _ _ Hs). by right.
    + rewrite wrap_small by (unfold in_u; simpl; lia). lia.
  - rewrite (view_some _ _ _ _ _ Hs), decide_False; [done|]. intros [_ Hni]. apply Hni. left.
  - intros i. unfold view at 1. cbn [t_cur t_table]. rewrite (tb_table _ _ _ _ Hs). cbn [mbind option_bind].
    rewrite (view_some _ _ _ _ _ Hs). destruct (decide (i = h)) as [->|Hne].
    + rewrite decide_True by done. apply (tb_free _ _ _ _ Hs). left.
    + destruct (decide (1 <= i <= t_cur dh /\ i ∉ Q)) as [E|E],
        (decide (1 <= i <= t_cur dh /\ i ∉ h :: Q)) as [E'|E']; try done; exfalso.
      * apply E'. split; [apply E|]. intros [?|?]%elem_of_cons; [done|]. by apply E.
      * apply E. split; [apply E'|]. intros ?. apply E'. by right.
Qed.

(** The attributes are in the range of handles. *)
Definition tb_lim dh : Prop := 0 <= t_min dh < 65536 /\ t_cur dh <= t_max dh < 2 ^ 32.

(** A table with a free index, and the same entries as before. *)
Definition ready dh (Q : list Z) dh1 : Prop :=
  exists t tb h Q1, tb_some dh1 t tb (h :: Q1) /\ tb_lim dh1 /\ forall i, view dh1 (h :: Q1) i = view dh Q i.

Lemma all_free dh t tb n i : tb_some dh t tb (seqZ 1 n) -> t_cur dh = n -> view dh (seqZ 1 n) i = None.
Proof.
  intros Hs Hn. rewrite (view_some _ _ _ _ _ Hs). rewrite decide_False; [done|]. intros [Hi Hni].
  apply Hni, elem_of_seqZ. lia.
Qed.

(** The part of [table_add] that makes room. *)
Lemma make_room dh Q :
  tb_ok dh Q -> tb_lim dh ->
  exists dh1 rc, table_room xmalloc_ok handles_ok dh = Some (dh1, rc) /\
    ((rc = OK /\ ready dh Q dh1) \/ (rc <> OK /\ tb_ok dh1 Q /\ tb_lim dh1 /\ forall i, view dh1 Q i = view dh Q i)).
Proof.
  intros Hok [Hmin Hmax]. unfold table_room. destruct Hok as [(Hh & Hc & Hn & ->)|(t & tb & Hs)].
  - rewrite Hn, Hc. cbn [Z.eqb]. cbv zeta.
    destruct (add_inc_small dh) as [Hi Hi2]; [lia|lia|lia|].
    destruct (Z.eqb_spec (add_inc dh) 0) as [|Hnz].
    { eexists _, _. split; [done|]. right. split; [done|]. split; [by left|]. done. }
    destruct (table_set_ok dh (add_inc dh) Hh Hc Hn) as (dh1 & rc & -> & E1 & E2 & Hr).
    eexists _, _. split; [done|]. destruct Hr as [(Hrc & Hcur & t & tb & Hs)|(Hrc & Hok & Hcur)].
    + left. split; [done|]. assert (Hcons : seqZ 1 (add_inc dh) = 1 :: seqZ 2 (add_inc dh - 1)).
      { rewrite seqZ_cons by lia. done. }
      exists t, tb, 1, (seqZ 2 (add_inc dh - 1)). rewrite <- Hcons. split; [done|]. split; [split; lia|].
      intros i. rewrite (all_free _ _ _ _ _ Hs Hcur). by rewrite view_none.
    + right. split; [done|]. split; [done|]. split; [split; lia|]. intros i. by rewrite !view_none.
  - pose proof (tb_n _ _ _ _ Hs) as Hn. pose proof (tb_cur _ _ _ _ Hs) as Hc. destruct Q as [|h Q].
    + rewrite zlen_nil in Hn. rewrite (proj2 (Z.eqb_eq _ _)) by lia. cbv zeta.
      destruct (add_inc_small dh) as [Hi Hi2]; [lia|lia|lia|].
      destruct (Z.eqb_spec (add_inc dh) 0) as [|Hnz].
      { eexists _, _. split; [done|]. right. split; [done|]. split; [right; eauto|]. done. }
      rewrite (proj2 (Z.eqb_neq _ _)) by lia.
      destruct (table_extend_ok dh t tb [] (add_inc dh) Hs) as (dh1 & rc & -> & E1 & E2 & Hr); [lia|unfold esize; lia|].
      eexists _, _. split; [done|]. destruct Hr as [(Hrc & Hcur & t' & tb' & Hs' & Hold)|(Hrc & ->)].
      * left. split; [done|]. simpl in Hs'.
        assert (Hcons : seqZ (t_cur dh + 1) (add_inc dh) = t_cur dh + 1 :: seqZ (t_cur dh + 2) (add_inc dh - 1)).
        { rewrite seqZ_cons by lia. f_equal. f_equal; lia. }
        exists t', tb', (t_cur dh + 1), (seqZ (t_cur dh + 2) (add_inc dh - 1)). rewrite <- Hcons.
        split; [done|]. split; [split; lia|]. intros i.
        rewrite (view_some _ _ _ _ _ Hs), (view_some _ _ _ _ _ Hs').
        destruct (decide (1 <= i <= t_cur dh /\ i ∉ [])) as [Ei|Ei].
        -- rewrite decide_True; [apply Hold; lia|]. split; [lia|]. intros Hin%elem_of_seqZ. lia.
        -- rewrite decide_False; [done|]. intros [Hi1 Hi3]. apply Ei. split; [|by intros ?%elem_of_nil].
           destruct (decide (i <= t_cur dh)); [lia|]. exfalso. apply Hi3, elem_of_seqZ. lia.
      * right. split; [done|]. split; [right; eauto|]. done.
    + rewrite zlen_cons in Hn. pose proof (zlen_nonneg Q). rewrite (proj2 (Z.eqb_neq _ _)) by lia.
      eexists _, _. split; [done|]. left. split; [done|]. exists t, tb, h, Q. done.
Qed.

(** What [table_add] and [table_remove] do to the map. *)
Lemma table_add_ok dh Q :
  tb_ok dh Q -> tb_lim dh ->
  exists dh' h Q', table_add xmalloc_ok handles_ok dh = Some (dh', h) /\ tb_ok dh' Q' /\ tb_lim dh' /\
    ((h = 0 /\ forall i, view dh' Q' i = view dh Q i) \/
     (h <> 0 /\ view dh Q h = None /\ forall i, view dh' Q' i = if decide (i = h) then Some 0 else view dh Q i)).
Proof.
  intros Hok Hlim. unfold table_add. destruct (make_room dh Q Hok Hlim) as (dh1 & rc & -> & Hr).
  cbn [mbind option_bind]. destruct Hr as [(-> & t & tb & h & Q1 & Hs & Hl & Hv)|(Hrc & Hok1 & Hl & Hv)].
  - change (negb (OK =? OK)) with false. cbv iota. rewrite (tb_ht _ _ _ _ Hs). cbn [mbind option_bind].
    destruct (take_free dh1 t tb h Q1 Hs) as (t' & -> & Hh0 & Hs' & Hvh & Hv').
    cbn [mbind option_bind]. rewrite (proj2 (Z.eqb_neq _ _)) by done.
    eexists _, h, Q1. split; [done|]. split; [right; eauto|]. split; [done|]. right. split; [done|].
    split; [by rewrite <- Hv|]. intros i. by rewrite Hv', Hv.
  - rewrite (proj2 (Z.eqb_neq rc OK)) by done. cbn [negb]. eexists _, 0, Q. split; [done|]. split; [done|].
    split; [done|]. by left.
Qed.

Lemma table_reset_empty dh t tb Q :
  tb_some dh t tb Q -> tb_lim dh -> t_n dh = 0 -> t_min dh < t_cur dh ->
  exists dh' rc Q', table_reset xmalloc_ok handles_ok dh = Some (dh', rc) /\ tb_ok dh' Q' /\ tb_lim dh' /\
    forall i, view dh' Q' i = None.
Proof.
  intros Hs [Hmin Hmax] Hn Hc. unfold table_reset. rewrite (tb_ht _ _ _ _ Hs), (proj2 (Z.leb_gt _ _)) by lia.
  cbv zeta. cbn [t_min]. destruct (Z.eqb_spec (t_min dh) 0) as [Hm|Hm].
  - eexists _, _, []. split; [done|]. split; [by left|]. split; [split; cbn; lia|]. intros i. by apply view_none.
  - edestruct (table_set_ok (mkTable (t_min dh) (t_max dh) 0 0 None None) (t_min dh))
      as (dh1 & rc & -> & E1 & E2 & Hr); [done..|]. cbn [t_min t_max] in *.
    destruct Hr as [(Hrc & Hcur & t' & tb' & Hs')|(Hrc & Hok & Hcur)].
    + eexists _, _, _. split; [done|]. split; [right; eauto|]. split; [split; lia|]. intros i.
      by eapply all_free.
    + eexists _, _, []. split; [done|]. split; [done|]. split; [split; lia|]. intros i. by apply view_none.
Qed.

Lemma table_remove_ok dh Q h v :
  tb_ok dh Q -> tb_lim dh -> view dh Q h = Some v ->
  exists dh' Q', table_remove xmalloc_ok handles_ok dh h = Some (Some dh') /\ tb_ok dh' Q' /\ tb_lim dh' /\
    forall i, view dh' Q' i = if decide (i = h) then None else view dh Q i.
Proof.
  intros Hok Hlim Hv. destruct Hok as [(_ & Hc & _ & _)|(t & tb & Hs)]; [by rewrite view_none in Hv|].
  rewrite (view_some _ _ _ _ _ Hs) in Hv. case_decide as E; [|done]. destruct E as [Hh HhQ].
  pose proof (tb_n _ _ _ _ Hs) as Hn. pose proof (tb_cur _ _ _ _ Hs) as Hc. pose proof (tb_len _ _ _ _ Hs) as Hl.
  destruct (h_rep_ok _ _ _ (tb_rep _ _ _ _ Hs)) as (_ & Hnd & Hrg).
  assert (Hlt : zlen Q < t_cur dh).
  { assert (Hinc : (length (h :: Q) <= length (seqZ 1 (t_cur dh)))%nat).
    { apply submseteq_length, NoDup_submseteq; [by constructor|]. intros x [->|Hx]%elem_of_cons; apply elem_of_seqZ; [lia|].
      pose proof (proj1 (Forall_forall _ _) Hrg x Hx) as Hxr. cbv beta in Hxr. lia. }
    rewrite length_seqZ in Hinc. simpl in Hinc. unfold zlen. lia. }
  unfold table_remove. rewrite (tb_ht _ _ _ _ Hs), (proj2 (Z.ltb_ge _ _)), (proj2 (Z.eqb_neq _ _)) by lia.
  cbn [orb]. destruct (h_free_law _ _ _ _ (tb_rep _ _ _ _ Hs) Hh HhQ) as (t' & -> & Hr). cbn [mbind option_bind].
  rewrite (tb_table _ _ _ _ Hs). cbn [mbind option_bind]. pose proof (zset_Some tb h 0 ltac:(lia)) as Hz. rewrite Hz.
  cbn [mbind option_bind]. set (tb' := <[Z.to_nat h := 0]> tb) in *.
  set (dh1 := mkTable (t_min dh) (t_max dh) (t_cur dh) (t_n dh - 1) (Some t') (Some tb')).
  assert (Hs1 : tb_some dh1 t' tb' (Q ++ [h])).
  { constructor; cbn; try done.
    - by rewrite (zlen_zset _ _ _ _ Hz).
    - intros x [Hx| ->%list_elem_of_singleton]%elem_of_app; [|by eapply zget_zset_eq].
      rewrite (zget_zset_ne _ _ _ _ _ Hz) by (intros <-; done). by apply (tb_free _ _ _ _ Hs).
    - rewrite zlen_app, zlen_cons, zlen_nil. lia. }
  assert (Hv1 : forall i, view dh1 (Q ++ [h]) i = if decide (i = h) then None else view dh Q i).
  { intros i. rewrite (view_some _ _ _ _ _ Hs1), (view_some _ _ _ _ _ Hs). cbn [t_cur dh1].
    destruct (decide (i = h)) as [->|Hne].
    - rewrite decide_False; [done|]. intros [_ Hni]. apply Hni, elem_of_app. right. left.
    - assert (Hiff : i ∉ Q ++ [h] <-> i ∉ Q).
      { rewrite elem_of_app, list_elem_of_singleton. tauto. }
      destruct (decide (1 <= i <= t_cur dh /\ i ∉ Q ++ [h])) as [Ei|Ei], (decide (1 <= i <= t_cur dh /\ i ∉ Q)) as [Ej|Ej]; try tauto.
      by apply (zget_zset_ne _ _ _ _ _ Hz). }
  change (t_n dh1) with (t_n dh - 1). change (t_min dh1) with (t_min dh). change (t_cur dh1) with (t_cur dh).
  destruct ((t_n dh - 1 =? 0) && (t_min dh <? t_cur dh)) eqn:E; zbool.
  - destruct (table_reset_empty dh1 t' tb' _ Hs1 Hlim) as (dh' & rc & Q' & -> & Hok' & Hl' & Hv'); [cbn; lia|cbn; lia|].
    cbn [mbind option_bind]. exists dh', Q'. split; [done|]. split; [done|]. split; [done|]. intros i.
    rewrite Hv', <- Hv1. symmetry. rewrite (view_some _ _ _ _ _ Hs1). cbn [t_cur dh1].
    rewrite decide_False; [done|]. intros [Hi Hni].
    assert (Hinc : (length (i :: Q ++ [h]) <= length (seqZ 1 (t_cur dh)))%nat).
    { destruct (h_rep_ok _ _ _ (tb_rep _ _ _ _ Hs1)) as (_ & Hnd1 & Hrg1). cbn [t_cur dh1] in Hrg1.
      apply submseteq_length, NoDup_submseteq; [by constructor|]. intros x [->|Hx]%elem_of_cons; apply elem_of_seqZ; [lia|].
      pose proof (proj1 (Forall_forall _ _) Hrg1 x Hx) as Hxr. cbv beta in Hxr. lia. }
    rewrite length_seqZ in Hinc. simpl in Hinc. rewrite length_app in Hinc. simpl in Hinc. unfold zlen in *. lia.
  - exists dh1, (Q ++ [h]). split; [done|]. split; [right; eauto|]. done.
Qed.

End Props.
