(* ===== verification/CoreTheorems.v ===== *)
(** What the core data structures guarantee: skiplists and the random number
    generator behind them, handle tables, and the dynamic tables on top of
    them. *)

From stdpp Require Import gmap sorting.
From S2P Require Import Prelude TypeData Random Skiplist SkiplistProps SkiplistSpec.
From S2P Require Import Handle Table TableProps.
From stdpp Require Import list.

#[local] Open Scope Z_scope.

(** ** Concrete lists: integers under their own order *)

#[export] Program Instance int_eqf : ListEqf Z Z := {| fct d k := d - k; key d := d |}.
Next Obligation. simpl. lia. Qed.
Next Obligation. simpl. lia. Qed.
Next Obligation. simpl. lia. Qed.

(** An allocator that takes the next unused number, and refuses tall nodes. *)
Definition next_free (l : Skiplist Z) (k : nat) : option nat :=
  if (k <? 5)%nat then Some (fresh (dom (nodes l))) else None.

Lemma next_free_fresh l k q : next_free l k = Some q -> nodes l !! q = None.
Proof.
  unfold next_free. destruct (k <? 5)%nat; [|done]. intros [= <-].
  apply not_elem_of_dom, is_fresh.
Qed.

Definition seed1 : Rand := mkRand 0 0 12345.

Lemma seed1_ok : rand_ok seed1.
Proof. unfold rand_ok, seed1, MAX_RAND_BITS, in_u. simpl. lia. Qed.

Definition ops1 : list (@sl_op Z Z) :=
  [OpInsert 5; OpInsert 3; OpInsert 9; OpInsert 3; OpSearch 9; OpNext 5; OpDelete 5; OpSearch 5;
   OpInsert 7; OpDelete 4; OpHead; OpNext 3].

(** ** Skiplists *)

(** C28. A skiplist refines a sorted list: any sequence of searches,
    insertions and deletions from the empty list runs without touching memory
    outside its nodes, and gives the results of the sorted list, for every
    state of the random generator, and whichever allocations fail. *)
Theorem skiplist_refines {D K} `{ListEqf D K} alloc undef ops r :
  (forall (l : Skiplist D) k q, alloc l k = Some q -> nodes l !! q = None) -> rand_ok r ->
  exists l r' rs ds, exec_all alloc undef sl_init r ops = Some (l, r', rs) /\
    spec_run [] ops rs ds /\ holds l ds.
Proof.
  intros Hf Hr. destruct (exec_all_spec alloc undef Hf ops sl_init [] r) as (l & r' & rs & ds & ? & ? & ? & _).
  - exists []. split; [apply sl_init_repr|done].
  - done.
  - by exists l, r', rs, ds.
Qed.

Lemma skiplist_refines_witness :
  exists l r rs ds, exec_all next_free 0 sl_init seed1 ops1 = Some (l, r, rs) /\
    spec_run [] ops1 rs ds /\ holds l ds.
Proof. exact (skiplist_refines next_free 0 ops1 seed1 next_free_fresh seed1_ok). Defined.

Example ops1_results :
  (fun x => snd x) <$> exec_all next_free 0 sl_init seed1 ops1
  = Some [RInsert None; RInsert None; RInsert None; RInsert (Some 3); RElem (Some 9); RElem (Some 9);
          RDelete true; RElem None; RInsert None; RDelete false; RElem (Some 3); RElem (Some 7)].
Proof. vm_compute. reflexivity. Qed.

(** [sl_walk] visits the elements in increasing order of their keys, all
    of them unless the visitor stops it. *)
Theorem skiplist_walk_ordered {D K} `{ListEqf D K} {T} (visit : nat -> D -> T -> T * bool) l L arg :
  repr l L ->
  sl_walk visit l arg = Some (visit_list visit L arg) /\
  StronglySorted (fun d d' : D => fct d (key d') < 0) (dat <$> L).
Proof.
  intros Hr. split; [by apply sl_walk_repr|]. destruct Hr as [_ Hs].
  induction Hs as [|e L _ IH Hle]; [constructor|]. rewrite fmap_cons. constructor; [done|].
  by apply Forall_fmap.
Qed.

(** The skiplist of two elements that [link] builds. *)
Definition list2 : Skiplist Z :=
  mkSL 1 2 (Some 0%nat :: Some 1%nat :: replicate 14 None)
    {[0%nat := mkNode 3 [Some 1%nat]; 1%nat := mkNode 8 [None; None]]}.

Definition els2 : list (@El Z) := [mkEl 0 1 3; mkEl 1 2 8].

Lemma list2_repr : repr list2 els2.
Proof.
  split; [constructor|].
  - intros k A B Hk HAB.
    assert (Hs : A = [] /\ B = els2 \/ A = take 1 els2 /\ B = drop 1 els2 \/ A = els2 /\ B = []).
    { unfold els2 in *. destruct A as [|a [|b [|c A]]]; simpl in HAB; inversion HAB; subst; simpl; auto. }
    destruct Hs as [[-> ->]|[[-> ->]|[-> ->]]];
      do 16 (destruct k as [|k]; [vm_compute; reflexivity|]); exfalso; vm_compute in Hk; lia.
  - intros e He. unfold els2 in He. rewrite !elem_of_cons in He.
    destruct He as [->|[->|He]]; [by exists [Some 1%nat]|by exists [None; None]|by inversion He].
  - repeat constructor; simpl; lia.
  - apply (bool_decide_unpack _). vm_compute. exact I.
  - intros n [nd Hn]. unfold list2 in Hn. cbn [nodes] in Hn.
    destruct (decide (n = 0%nat)) as [->|]; [left|]. destruct (decide (n = 1%nat)) as [->|]; [right; left|].
    rewrite lookup_insert_ne, lookup_singleton_ne in Hn by done. done.
  - vm_compute. lia.
  - reflexivity.
  - reflexivity.
  - repeat constructor.
Qed.

Lemma skiplist_walk_ordered_witness :
  sl_walk (fun _ d acc => (acc ++ [d], true)) list2 [] = Some [3; 8] /\
  StronglySorted (fun d d' : Z => fct d (key d') < 0) [3; 8].
Proof. exact (skiplist_walk_ordered (fun _ d acc => (acc ++ [d], true)) list2 els2 [] list2_repr). Defined.

(** [sl_free_nodes] releases every node of the list, each once. *)
Theorem skiplist_free_complete {D K} `{ListEqf D K} (l : Skiplist D) L :
  repr l L -> exists l', sl_free_nodes l = Some l' /\ nodes l' = ∅.
Proof. apply sl_free_nodes_repr. Qed.

Lemma skiplist_free_complete_witness : exists l', sl_free_nodes list2 = Some l' /\ nodes l' = ∅.
Proof. exact (skiplist_free_complete list2 els2 list2_repr). Defined.

(** ** Random numbers *)

(** [random_level] terminates in every state of the generator, within
    120 bits, and its level is a valid index of the level arrays. *)
Theorem random_level_total r :
  rand_ok r -> exists level r', random_level r = Some (level, r') /\ 0 <= level < MAX_LEVELS /\ rand_ok r'.
Proof. apply random_level_ok. Qed.

Lemma random_level_total_witness :
  exists level r', random_level seed1 = Some (level, r') /\ 0 <= level < MAX_LEVELS /\ rand_ok r'.
Proof. exact (random_level_total seed1 seed1_ok). Defined.

(** [fastrandn] returns a number below its argument, without overflow,
    for the arguments its comment allows. *)
Theorem fastrandn_below n s : 0 < n < 2 ^ 16 -> 0 <= fst (fastrandn n s) < n.
Proof. apply fastrandn_range. Qed.

Lemma fastrandn_below_witness : 0 <= fst (fastrandn 65535 1) < 65535.
Proof. apply (fastrandn_below 65535 1). lia. Defined.

(** ** Handle tables *)

(** A table of 3 handles of which only [h] is free. *)
Definition table3 (h : Z) : HandleTable := mkHT 3 [mkIndex h h; idx0; idx0; idx0].

Lemma table3_reach : hreach idx0 (table3 3) [1; 2].
Proof.
  assert (H0 : hreach idx0 (mkHT 3 [mkIndex 1 3; mkIndex 2 0; mkIndex 3 1; mkIndex 0 2]) []) by (apply (hr_init idx0 3); reflexivity).
  assert (H1 : hreach idx0 (mkHT 3 [mkIndex 2 3; idx0; mkIndex 3 0; mkIndex 0 2]) [1]) by (by eapply (hr_alloc _ _ _ 1 _ H0)).
  assert (H2 : hreach idx0 (table3 3) [2; 1]) by (by eapply (hr_alloc _ _ _ 2 _ H1)).
  assert (H3 : hreach idx0 (mkHT 3 [idx0; idx0; idx0; idx0]) [3; 2; 1]) by (by eapply (hr_alloc _ _ _ 3 _ H2)).
  assert (H4 : hreach idx0 (table3 1) [3; 2]) by (by apply (hr_free _ _ [3; 2] 1 [] _ H3)).
  assert (H5 : hreach idx0 (mkHT 3 [idx0; idx0; idx0; idx0]) [1; 3; 2]) by (by eapply (hr_alloc _ _ _ 1 _ H4)).
  by apply (hr_free _ _ [1] 3 [2] _ H5).
Qed.

Lemma table3_ok : ht_ok (table3 3) [3].
Proof.
  destruct (handle_init_ok idx0 3 ltac:(lia)) as (t0 & E0 & _ & H0). vm_compute in E0. injection E0 as <-.
  destruct (handle_alloc_head _ 1 [2; 3] H0) as (t1 & E1 & _ & H1). vm_compute in E1. injection E1 as <-.
  destruct (handle_alloc_head _ 2 [3] H1) as (t2 & E2 & _ & H2). vm_compute in E2. injection E2 as <-. exact H2.
Qed.

(** C29. Whatever sequence of initialisation, allocations, extensions and
    releases of handles in use led to a table, every handle from 1 to the size
    of the table is either free or in use: an allocation gives 0 exactly when
    all are in use, and otherwise a handle that is not in use. *)
Theorem handle_alloc_fresh fill ht U :
  hreach fill ht U ->
  exists h ht', handle_alloc ht = Some (h, ht') /\ NoDup U /\
    (h = 0 <-> zlen U = nelements ht) /\ (h <> 0 -> (h ∉ U) /\ 1 <= h <= nelements ht).
Proof.
  intros Hr. destruct (hreach_ok fill ht U Hr) as (Q & Hht & HP). pose proof (ht_max _ _ Hht).
  assert (Hnd : NoDup (Q ++ U)) by (rewrite HP; apply NoDup_seqZ).
  assert (Hlen : zlen Q + zlen U = nelements ht).
  { apply Permutation_length in HP. rewrite length_app, length_seqZ in HP. unfold zlen. lia. }
  apply NoDup_app in Hnd as (_ & Hd & HndU). destruct Q as [|q Q].
  - exists 0, ht. split; [by apply handle_alloc_empty|]. split; [done|]. rewrite zlen_nil in Hlen. split; [split; intros; lia|done].
  - destruct (handle_alloc_head ht q Q Hht) as (ht' & Ha & _ & _). exists q, ht'. split; [done|]. split; [done|].
    pose proof (in_range ht _ Hht q ltac:(left)). rewrite zlen_cons in Hlen. pose proof (zlen_nonneg Q).
    split; [split; intros; lia|]. intros _. split; [|lia]. apply Hd. left.
Qed.

Lemma handle_alloc_fresh_witness :
  hreach idx0 (table3 3) [1; 2] /\
  exists h ht', handle_alloc (table3 3) = Some (h, ht') /\ NoDup [1; 2] /\
    (h = 0 <-> zlen [1; 2] = nelements (table3 3)) /\ (h <> 0 -> (h ∉ [1; 2]) /\ 1 <= h <= nelements (table3 3)).
Proof. split; [exact table3_reach|]. exact (handle_alloc_fresh idx0 (table3 3) [1; 2] table3_reach). Defined.

(** The release of a handle that is free already ends the program,
    unless it is the only free one. *)
Theorem handle_double_free_detected ht Q h :
  ht_ok ht Q -> h ∈ Q -> Q <> [h] -> handle_free ht h = Some None.
Proof. apply handle_free_again. Qed.

Lemma handle_double_free_detected_witness :
  exists ht, ht_ok ht [2; 3] /\ handle_free ht 3 = Some None.
Proof.
  destruct (handle_init_ok idx0 3 ltac:(lia)) as (t0 & _ & _ & H0).
  destruct (handle_alloc_head _ 1 [2; 3] H0) as (t1 & _ & _ & H1). exists t1. split; [exact H1|].
  apply (handle_double_free_detected t1 [2; 3] 3 H1); [right; left|discriminate].
Defined.

(** The second release of the only free handle is not noticed: the
    table hands that handle out twice afterwards. *)
Theorem handle_double_free_missed ht h :
  ht_ok ht [h] ->
  exists ht1 ht2 ht3, handle_free ht h = Some (Some ht1) /\
    handle_alloc ht1 = Some (h, ht2) /\ handle_alloc ht2 = Some (h, ht3).
Proof. apply double_free. Qed.

Lemma handle_double_free_missed_witness :
  exists ht1 ht2 ht3, handle_free (table3 3) 3 = Some (Some ht1) /\
    handle_alloc ht1 = Some (3, ht2) /\ handle_alloc ht2 = Some (3, ht3).
Proof. exact (handle_double_free_missed (table3 3) 3 table3_ok). Defined.

(** ** Dynamic tables *)

Section Tables.
Context {T : Type} `{HandleLaws T}.


(** [table_remove] of an index in use takes that entry out of the table
    and leaves all others in place, also when the table shrinks back to its
    minimum size. *)
Theorem table_remove_deletes (xmalloc_ok handles_ok : Z -> bool) (dh : Table (T := T)) Q h v :
  tb_ok dh Q -> tb_lim dh -> view dh Q h = Some v ->
  exists dh' Q', table_remove xmalloc_ok handles_ok dh h = Some (Some dh') /\ tb_ok dh' Q' /\ tb_lim dh' /\
    forall i, view dh' Q' i = if decide (i = h) then None else view dh Q i.
Proof. by apply table_remove_ok. Qed.

End Tables.

Definition always (_ : Z) : bool := true.

(** A table of co/handle.c handles with 16 entries, of which 1 is in use. *)
Definition table16 : Table (T := HandleTable) :=
  match table_add always always table_init with Some (dh, _) => dh | None => table_init end.

Lemma table16_ok : exists Q, tb_ok table16 Q /\ tb_lim table16 /\ view table16 Q 1 = Some 0.
Proof.
  destruct (table_add_ok always always (fun _ _ _ _ => eq_refl) (table_init (T := HandleTable)) [] ) as (dh & h & Q & E & Hok & Hl & Hv);
    [by left|by vm_compute|].
  assert (Hd : table16 = dh) by (unfold table16; by rewrite E).
  assert (Hh : h = 1).
  { transitivity (match table_add always always (table_init (T := HandleTable)) with Some (_, h) => h | None => 0 end);
      [by rewrite E|by vm_compute]. }
  subst h. exists Q. rewrite Hd. split; [done|]. split; [done|]. destruct Hv as [[? _]|(_ & _ & Hv)]; [done|]. by rewrite Hv.
Qed.


Lemma table_remove_deletes_witness :
  exists Q, view table16 Q 1 = Some 0 /\ exists dh' Q', table_remove always always table16 1 = Some (Some dh') /\ tb_ok dh' Q' /\ tb_lim dh' /\
    forall i, view dh' Q' i = if decide (i = 1) then None else view table16 Q i.
Proof.
  destruct table16_ok as (Q & Hok & Hl & Hv). exists Q. split; [exact Hv|].
  exact (table_remove_deletes always always table16 Q 1 0 Hok Hl Hv).
Defined.
