(* ===== verification/Str.v ===== *)
(** The string pool (co/str.c, include/str.h): reference-counted octet
    strings, the immutable ones shared through a hash table.

    A [String_t *] is an address of the store [strings]; the bytes a string
    holds, inline or in the string heap, are its [data].  An access to memory
    that is not there is [None]. *)

From stdpp Require Import gmap.
From S2P Require Import Prelude TypeData Scan.
From stdpp Require Import list.

#[local] Open Scope Z_scope.

(** ** Model *)

Definition MAX_HT : Z := 97.
Definition STRD_SIZE : Z := 8.

Definition STR_OK : Z := retcode DDS_RETCODE_OK.
Definition STR_ERR_NOMEM : Z := retcode DDS_RETCODE_OUT_OF_RESOURCES.
Definition STR_ERR_BAD : Z := retcode DDS_RETCODE_BAD_PARAMETER.

(** [String_t]; [users] is a field of 30 bits. *)
Record String_t := mkString { users : Z; mutable : bool; dynamic : bool; data : list Z }.

(** The static variables [str_ht], [str_allocs] and [str_alloc_max], and the
    strings that are allocated; a hash node is the address it refers to. *)
Record StrPool := mkStrPool {
  strings : gmap nat String_t;
  str_ht : list (list nat);
  str_allocs : Z;
  str_alloc_max : Z
}.

Definition str_empty : StrPool := mkStrPool ∅ (replicate (Z.to_nat MAX_HT) []) 0 0.

Definition set_strings (m : gmap nat String_t) (st : StrPool) : StrPool :=
  mkStrPool m (str_ht st) (str_allocs st) (str_alloc_max st).
Definition set_ht (t : list (list nat)) (st : StrPool) : StrPool :=
  mkStrPool (strings st) t (str_allocs st) (str_alloc_max st).
Definition add_allocs (n : Z) (st : StrPool) : StrPool :=
  let a := ⟦str_allocs st + n⟧64 in
  mkStrPool (strings st) (str_ht st) a (if str_alloc_max st <? a then a else str_alloc_max st).
Definition sub_allocs (n : Z) (st : StrPool) : StrPool :=
  mkStrPool (strings st) (str_ht st) ⟦str_allocs st - n⟧64 (str_alloc_max st).

Definition set_users (u : Z) (s : String_t) : String_t :=
  mkString (wrap 30 u) (mutable s) (dynamic s) (data s).
Definition set_data (d : list Z) (s : String_t) : String_t :=
  mkString (users s) (mutable s) (dynamic s) d.
Definition set_dynamic (b : bool) (s : String_t) : String_t :=
  mkString (users s) (mutable s) b (data s).

(** [str_hash (sp, l) % MAX_HT] *)
Definition str_hash (s : list Z) : Z := hashfc 0 s mod MAX_HT.

(** [str_lookup]: along the chain of a bucket. *)
Fixpoint str_lookup (m : gmap nat String_t) (chain : list nat) (s : list Z) : option (option nat) :=
  match chain with
  | [] => Some None
  | p :: chain =>
      sp ← m !! p;
      if bool_decide (data sp = s) then Some (Some p) else str_lookup m chain s
  end.

Section Str.
(** The memory manager: the address of a new [String_t], whether a hash node
    can be had, the largest block of the string heap, whether the heap and
    [xmalloc] grant a block of some bytes, and what a fresh block holds. *)
Context (string_alloc : StrPool -> option nat) (ref_ok : StrPool -> bool).
Context (heap_max : StrPool -> Z) (heap_ok xmalloc_ok : StrPool -> Z -> bool).
Context (str_extend : bool) (junk : nat -> Z).

(** The bytes from [i] to [n] of a fresh block. *)
Definition fresh_bytes (i n : Z) : list Z := junk <$> seq (Z.to_nat i) (Z.to_nat (n - i)).

Definition ALIGN4 (l : Z) : Z := (l + 3) / 4 * 4.

(** The storage of a string of more than [STRD_SIZE] bytes: [Some true] when
    it comes from [xmalloc]. *)
Definition str_storage (st : StrPool) (length : Z) : option bool :=
  if heap_ok st (ALIGN4 length) then Some false
  else if str_extend && xmalloc_ok st (ALIGN4 length) then Some true
  else None.

(** [str_set_data] *)
Definition str_set_data (sp : String_t) (s : option (list Z)) (length copy : Z) (st : StrPool)
  : option (String_t * StrPool * Z) :=
  let length := match s with None => 0 | Some _ => length end in
  if STRD_SIZE <? length then
    match str_storage st length with
    | None => Some (set_data [] sp, st, STR_ERR_NOMEM)
    | Some dyn =>
        mem ← s;
        bytes ← zslice mem 0 copy;
        let sp := if (dyn : bool) then set_dynamic true sp else sp in
        Some (set_data (bytes ++ fresh_bytes copy length) sp,
              if dyn then add_allocs length st else st, STR_OK)
    end
  else if length =? 0 then Some (set_data [] sp, st, STR_OK)
  else
    mem ← s;
    bytes ← zslice mem 0 copy;
    Some (set_data (bytes ++ fresh_bytes copy length) sp, st, STR_OK).

(** [str_set] *)
Definition str_set (s : option (list Z)) (length copy : Z) (mut : bool) (st : StrPool)
  : option (String_t * StrPool * Z) :=
  let sp := mkString 1 mut false [] in
  if (heap_max st <? length) && negb str_extend then Some (sp, st, STR_ERR_NOMEM)
  else str_set_data sp s length copy st.

(** [str_new]; a NULL result is [None]. *)
Definition str_new (str : option (list Z)) (length copy : Z) (mut : bool) (st : StrPool)
  : option (option nat * StrPool) :=
  let copy := if length <? copy then length else copy in
  let shared := negb mut && (length =? copy) in
  key ← (if shared then
           match str with
           | Some mem => zslice mem 0 length
           | None => if length =? 0 then Some [] else None
           end
         else Some []);
  chain ← zget (str_ht st) (str_hash key);
  hit ← (if shared then str_lookup (strings st) chain key else Some None);
  match hit with
  | Some p =>
      sp ← strings st !! p;
      Some (Some p, set_strings (<[p := set_users (users sp + 1) sp]> (strings st)) st)
  | None =>
      match string_alloc st with
      | None => Some (None, st)
      | Some p =>
          '(sp, st', error) ← str_set str length copy mut st;
          if negb (error =? STR_OK) then Some (None, st')
          else
            let st' := set_strings (<[p := sp]> (strings st')) st' in
            if shared && ref_ok st' then
              ht ← zset (str_ht st') (str_hash key) (p :: chain);
              Some (Some p, set_ht ht st')
            else Some (Some p, st')
      end
  end.

(** [str_new_cstr], of the C string [s] *)
Definition str_new_cstr (s : list Z) (st : StrPool) : option (option nat * StrPool) :=
  str_new (Some (s ++ [0])) (zlen s + 1) 4294967295 false st.

(** [str_ref] *)
Definition str_ref (sp : option nat) (st : StrPool) : option (option nat * StrPool) :=
  match sp with
  | None => Some (None, st)
  | Some p =>
      s ← strings st !! p;
      Some (Some p, set_strings (<[p := set_users (users s + 1) s]> (strings st)) st)
  end.

(** The hash node of [p] is taken out of its chain. *)
Fixpoint unchain (p : nat) (chain : list nat) : list nat :=
  match chain with
  | [] => []
  | q :: chain => if bool_decide (q = p) then chain else q :: unchain p chain
  end.

(** [str_unref] *)
Definition str_unref (sp : option nat) (st : StrPool) : option StrPool :=
  match sp with
  | None => Some st
  | Some p =>
      s ← strings st !! p;
      let s := set_users (users s - 1) s in
      if negb (users s =? 0) then Some (set_strings (<[p := s]> (strings st)) st)
      else
        st ← (if mutable s then Some st
              else
                chain ← zget (str_ht st) (str_hash (data s));
                ht ← zset (str_ht st) (str_hash (data s)) (unchain p chain);
                Some (set_ht ht st));
        let st := if (STRD_SIZE <? zlen (data s)) && dynamic s then sub_allocs (zlen (data s)) st else st in
        Some (set_strings (delete p (strings st)) st)
  end.

(** [str_set_chunk] *)
Definition str_set_chunk (p : nat) (s : list Z) (ofs chunk_length : Z) (st : StrPool) : option (StrPool * Z) :=
  sp ← strings st !! p;
  if zlen (data sp) <? ⟦ofs + chunk_length⟧64 then Some (st, STR_ERR_BAD)
  else
    bytes ← zslice s 0 chunk_length;
    _ ← zslice (data sp) ofs chunk_length;
    let d := ztake ofs (data sp) ++ bytes ++ zdrop (ofs + chunk_length) (data sp) in
    Some (set_strings (<[p := set_data d sp]> (strings st)) st, STR_OK).

(** [str_replace], the branch for a long string that stays long and changes
    its length: the block of a dynamic string is resized only.  A string left
    without a block is [None]. *)
Definition str_resize (sp : String_t) (mem : list Z) (length : Z) (realloc_ok : bool) (st : StrPool)
  : option (String_t * StrPool * Z) :=
  let store sp st := bytes ← zslice mem 0 length; Some (set_data bytes sp, st, STR_OK) in
  if dynamic sp then
    if xmalloc_ok st length then
      Some (set_data (ztake length (data sp) ++ fresh_bytes (zlen (data sp)) length) sp, st, STR_OK)
    else None
  else if realloc_ok then store sp st
  else if str_extend && xmalloc_ok st length then store (set_dynamic true sp) (add_allocs length st)
  else Some (set_data [] sp, st, STR_ERR_NOMEM).

(** [str_replace] of a string that exists *)
Definition str_replace_data (sp : String_t) (str : option (list Z)) (length : Z) (realloc_ok : bool) (st : StrPool)
  : option (String_t * StrPool * Z) :=
  let old := zlen (data sp) in
  let mem := default [] str in
  let length := match str with None => 0 | Some _ => length end in
  if (length <=? STRD_SIZE) && (STRD_SIZE <? old) then
    bytes ← zslice mem 0 length;
    let st := if dynamic sp then sub_allocs old st else st in
    Some (set_data bytes (set_dynamic false sp), st, STR_OK)
  else if STRD_SIZE <? length then
    if old <=? STRD_SIZE then str_set_data sp str length length st
    else if length =? old then
      bytes ← zslice mem 0 length; Some (set_data bytes sp, st, STR_OK)
    else str_resize sp mem length realloc_ok st
  else
    bytes ← zslice mem 0 length; Some (set_data bytes sp, st, STR_OK).

(** [str_replace] *)
Definition str_replace (p : option nat) (str : option (list Z)) (length : Z) (realloc_ok : bool) (st : StrPool)
  : option (StrPool * Z) :=
  match p with
  | None => Some (st, STR_ERR_BAD)
  | Some p =>
      sp ← strings st !! p;
      if negb (mutable sp) then Some (st, STR_ERR_BAD)
      else
        '(sp, st, rc) ← str_replace_data sp str length realloc_ok st;
        Some (set_strings (<[p := sp]> (strings st)) st, rc)
  end.

(** [str_copy]: [u.dp] is taken for the address of the bytes, also when they
    are stored inline. *)
Definition str_copy (sp : option nat) (st : StrPool) : option (option nat * StrPool) :=
  match sp with
  | None => Some (None, st)
  | Some p =>
      s ← strings st !! p;
      let n := zlen (data s) in
      if n =? 0 then str_new None 0 0 true st
      else if STRD_SIZE <? n then str_new (Some (data s)) n n true st
      else None
  end.

End Str.
