(* ===== verification/StrProps.v ===== *)
(** The string pool is a map from addresses to contents with a number of
    references; immutable strings of equal contents share one address as long
    as the hash table could take them. *)

From stdpp Require Import gmap.
From S2P Require Import Prelude TypeData Scan Str.
From stdpp Require Import list.

#[local] Open Scope Z_scope.

(** ** The abstract pool *)

Definition str_view (st : StrPool) : gmap nat (list Z * Z) := (fun s => (data s, users s)) <$> strings st.

Record st_ok (st : StrPool) : Prop := mkStOk {
  st_len : zlen (str_ht st) = MAX_HT;
  st_in : forall h chain p, zget (str_ht st) h = Some chain -> p ∈ chain ->
    exists s, strings st !! p = Some s /\ mutable s = false /\ str_hash (data s) = h;
  st_nodup : forall h chain, zget (str_ht st) h = Some chain -> NoDup chain;
  st_unique : forall h chain p q s1 s2, zget (str_ht st) h = Some chain -> p ∈ chain -> q ∈ chain ->
    strings st !! p = Some s1 -> strings st !! q = Some s2 -> data s1 = data s2 -> p = q;
  st_users : forall p s, strings st !! p = Some s -> 0 < users s < 2 ^ 30
}.

Lemma str_hash_range s : 0 <= str_hash s < MAX_HT.
Proof. apply Z.mod_pos_bound. reflexivity. Qed.

Lemma bucket st s : st_ok st -> exists chain, zget (str_ht st) (str_hash s) = Some chain.
Proof. intros Hst. apply zget_lookup_Some. rewrite (st_len _ Hst). apply str_hash_range. Qed.

Lemma str_empty_ok : st_ok str_empty.
Proof.
  assert (Hg : forall h chain, zget (str_ht str_empty) h = Some chain -> chain = []).
  { intros h chain Hz. pose proof (zget_Some _ _ _ Hz) as Hr. change (zlen (str_ht str_empty)) with 97 in Hr.
    unfold zget in Hz. destruct (h <? 0); [done|]. apply lookup_replicate in Hz. by destruct Hz. }
  constructor; [done|..].
  - intros h chain p Hz Hp. rewrite (Hg _ _ Hz) in Hp. by apply elem_of_nil in Hp.
  - intros h chain Hz. rewrite (Hg _ _ Hz). constructor.
  - intros h chain p q s1 s2 Hz Hp. rewrite (Hg _ _ Hz) in Hp. by apply elem_of_nil in Hp.
  - intros p s Hp. done.
Qed.

(** ** Lookup *)

Lemma str_lookup_ok st h chain s :
  st_ok st -> zget (str_ht st) h = Some chain ->
  match str_lookup (strings st) chain s with
  | Some (Some p) => p ∈ chain /\ exists sp, strings st !! p = Some sp /\ data sp = s
  | Some None => forall p sp, p ∈ chain -> strings st !! p = Some sp -> data sp <> s
  | None => False
  end.
Proof.
  intros Hst Hz. assert (Hall : forall p, p ∈ chain -> is_Some (strings st !! p)).
  { intros p Hp. destruct (st_in _ Hst _ _ _ Hz Hp) as (sp & ? & _). by exists sp. }
  clear Hz. induction chain as [|q chain IH]; simpl; [by intros p sp ?%elem_of_nil|].
  destruct (Hall q ltac:(left)) as [sq Hq]. rewrite Hq. simpl. case_bool_decide as Hd.
  - split; [left|]. by exists sq.
  - assert (Hall' : forall p, p ∈ chain -> is_Some (strings st !! p)) by (intros p Hp; apply Hall; by right).
    specialize (IH Hall'). destruct (str_lookup _ chain s) as [[p|]|]; [| |done].
    + destruct IH as [Hp Hs]. split; [by right|done].
    + intros p sp [->|Hp]%elem_of_cons Hsp; [congruence|by eapply IH].
Qed.

(** ** References *)

Lemma str_view_insert p s st : str_view (set_strings (<[p := s]> (strings st)) st) = <[p := (data s, users s)]> (str_view st).
Proof. unfold str_view, set_strings. cbn [strings]. by rewrite fmap_insert. Qed.

Lemma str_view_lookup st p c u : str_view st !! p = Some (c, u) <-> exists s, strings st !! p = Some s /\ data s = c /\ users s = u.
Proof.
  unfold str_view. rewrite lookup_fmap. split.
  - destruct (strings st !! p) as [s|]; simpl; [|done]. intros [= <- <-]. by exists s.
  - intros (s & -> & <- & <-). done.
Qed.

(** A change of the number of users of one string keeps the pool intact. *)
Lemma set_users_ok st p s u :
  st_ok st -> strings st !! p = Some s -> 0 < u < 2 ^ 30 ->
  st_ok (set_strings (<[p := set_users u s]> (strings st)) st) /\
  str_view (set_strings (<[p := set_users u s]> (strings st)) st) = <[p := (data s, u)]> (str_view st).
Proof.
  intros Hst Hp Hu. assert (Hw : wrap 30 u = u) by (apply wrap_small; unfold in_u; lia). split.
  - destruct Hst as [H1 H2 H3 H4 H5].
    assert (Hold : forall q sq, <[p := set_users u s]> (strings st) !! q = Some sq ->
              exists s0, strings st !! q = Some s0 /\ data s0 = data sq /\ mutable s0 = mutable sq /\ 0 < users sq < 2 ^ 30).
    { intros q sq Hq. destruct (decide (q = p)) as [->|Hne].
      - rewrite lookup_insert_eq in Hq. injection Hq as <-. exists s. cbn. rewrite Hw. done.
      - rewrite lookup_insert_ne in Hq by done. exists sq. split; [done|]. split; [done|]. split; [done|]. by eapply H5. }
    constructor; cbn [set_strings strings str_ht]; [done| |done| | ].
    + intros h chain q Hz Hq. destruct (H2 _ _ _ Hz Hq) as (sq & Hsq & Hm & Hh).
      destruct (decide (q = p)) as [->|Hne]; [|exists sq; by rewrite lookup_insert_ne].
      exists (set_users u s). rewrite lookup_insert_eq. simplify_eq. done.
    + intros h chain q r s1 s2 Hz Hq Hr Hs1 Hs2 Hd.
      destruct (Hold _ _ Hs1) as (t1 & ? & E1 & _), (Hold _ _ Hs2) as (t2 & ? & E2 & _).
      eapply H4; [exact Hz|done..|congruence].
    + intros q sq Hq. destruct (Hold _ _ Hq) as (? & _ & _ & _ & ?). done.
  - rewrite str_view_insert. cbn [set_users data users]. by rewrite Hw.
Qed.

Lemma str_ref_ok st p c u :
  st_ok st -> str_view st !! p = Some (c, u) -> u + 1 < 2 ^ 30 ->
  exists st', str_ref (Some p) st = Some (Some p, st') /\ st_ok st' /\ str_view st' = <[p := (c, u + 1)]> (str_view st).
Proof.
  intros Hst (s & Hp & <- & <-)%str_view_lookup Hu. unfold str_ref. rewrite Hp. cbn [mbind option_bind].
  pose proof (st_users _ Hst _ _ Hp). destruct (set_users_ok st p s (users s + 1) Hst Hp) as [? ?]; [lia|]. by eexists.
Qed.

(** ** Release *)

Lemma unchain_elem p chain q : NoDup chain -> q ∈ unchain p chain <-> q ∈ chain /\ q <> p.
Proof.
  induction 1 as [|r chain Hr Hnd IH]; simpl; [rewrite elem_of_nil; tauto|].
  case_bool_decide as E; rewrite !elem_of_cons, ?IH; [subst; split; [|tauto]|]; intuition congruence.
Qed.

Lemma unchain_nodup p chain : NoDup chain -> NoDup (unchain p chain).
Proof.
  induction 1 as [|r chain Hr Hnd IH]; simpl; [constructor|]. case_bool_decide as E; [done|]. constructor; [|done].
  rewrite unchain_elem by done. tauto.
Qed.

(** Taking the string [p] out of the table and the store. *)
Lemma drop_ok st st1 p s chain ht :
  st_ok st -> strings st !! p = Some s ->
  (if mutable s then ht = str_ht st
   else zget (str_ht st) (str_hash (data s)) = Some chain /\
        zset (str_ht st) (str_hash (data s)) (unchain p chain) = Some ht) ->
  strings st1 = delete p (strings st) -> str_ht st1 = ht -> st_ok st1.
Proof.
  intros Hst Hp Hht Es Et.
  assert (Hch : forall h c, zget ht h = Some c -> exists c0, zget (str_ht st) h = Some c0 /\
            forall q, q ∈ c -> q ∈ c0 /\ (q <> p)).
  { intros h c Hz. destruct (mutable s) eqn:Hm.
    - subst ht. exists c. split; [done|]. intros q Hq. split; [done|]. intros ->.
      destruct (st_in _ Hst _ _ _ Hz Hq) as (s' & Hs' & Hm' & _). congruence.
    - destruct Hht as [Hz0 Hset]. destruct (decide (h = str_hash (data s))) as [->|Hne].
      + rewrite (zget_zset_eq _ _ _ _ Hset) in Hz. injection Hz as <-. exists chain. split; [done|].
        intros q Hq. rewrite unchain_elem in Hq by (by eapply st_nodup). done.
      + rewrite (zget_zset_ne _ _ _ _ _ Hset) in Hz by done. exists c. split; [done|]. intros q Hq.
        split; [done|]. intros ->. destruct (st_in _ Hst _ _ _ Hz Hq) as (s' & Hs' & _ & Hh). congruence. }
  constructor; rewrite ?Es, ?Et.
  - rewrite <- (st_len _ Hst). destruct (mutable s); [by subst|]. destruct Hht as [_ Hset]. by apply zlen_zset in Hset.
  - intros h c q Hz Hq. destruct (Hch _ _ Hz) as (c0 & Hz0 & Hin). destruct (Hin _ Hq) as [Hq0 Hne].
    destruct (st_in _ Hst _ _ _ Hz0 Hq0) as (sq & ? & ? & ?). exists sq. by rewrite lookup_delete_ne.
  - intros h c Hz. destruct (mutable s).
    + subst ht. by eapply st_nodup.
    + destruct Hht as [Hz0 Hset]. destruct (decide (h = str_hash (data s))) as [->|Hne].
      * rewrite (zget_zset_eq _ _ _ _ Hset) in Hz. injection Hz as <-. apply unchain_nodup. by eapply st_nodup.
      * rewrite (zget_zset_ne _ _ _ _ _ Hset) in Hz by done. by eapply st_nodup.
  - intros h c q r s1 s2 Hz Hq Hr Hs1 Hs2. destruct (Hch _ _ Hz) as (c0 & Hz0 & Hin).
    apply lookup_delete_Some in Hs1 as [_ Hs1], Hs2 as [_ Hs2]. eapply st_unique; [done|done|by apply Hin|by apply Hin|done|done].
  - intros q sq [_ Hq]%lookup_delete_Some. by eapply st_users.
Qed.

Lemma str_unref_ok st p c u :
  st_ok st -> str_view st !! p = Some (c, u) ->
  exists st', str_unref (Some p) st = Some st' /\ st_ok st' /\
    str_view st' = (if u =? 1 then delete p (str_view st) else <[p := (c, u - 1)]> (str_view st)).
Proof.
  intros Hst (s & Hp & <- & <-)%str_view_lookup. unfold str_unref. rewrite Hp. cbn [mbind option_bind].
  pose proof (st_users _ Hst _ _ Hp) as Hu.
  assert (Hw : wrap 30 (users s - 1) = users s - 1) by (apply wrap_small; unfold in_u; lia).
  cbn [set_users users mutable dynamic data]. rewrite Hw.
  destruct (Z.eqb_spec (users s) 1) as [E|E].
  - rewrite E. cbn [Z.sub Z.eqb negb Z.pos_sub Z.opp Z.add].
    set (fin := fun st1 : StrPool => let st := if (STRD_SIZE <? zlen (data s)) && dynamic s then sub_allocs (zlen (data s)) st1 else st1 in
                          Some (set_strings (delete p (strings st)) st)).
    assert (Hfin : forall st1, exists st2, fin st1 = Some st2 /\ strings st2 = delete p (strings st1) /\ str_ht st2 = str_ht st1).
    { intros st1. unfold fin. cbv zeta. destruct (_ && _); by eexists. }
    destruct (mutable s) eqn:Hm.
    + destruct (Hfin st) as (st2 & Hf & Es & Et). exists st2. split; [exact Hf|]. split.
      * eapply (drop_ok st st2 p s [] (str_ht st)); try done. by rewrite Hm.
      * unfold str_view. by rewrite Es, fmap_delete.
    + destruct (bucket st (data s) Hst) as [chain Hz]. rewrite Hz. cbn [mbind option_bind].
      pose proof (zset_Some (str_ht st) (str_hash (data s)) (unchain p chain)) as Hset.
      rewrite Hset by (rewrite (st_len _ Hst); apply str_hash_range). cbn [mbind option_bind].
      destruct (Hfin (set_ht (<[Z.to_nat (str_hash (data s)) := unchain p chain]> (str_ht st)) st)) as (st2 & Hf & Es & Et).
      exists st2. split; [exact Hf|]. cbn [set_ht strings str_ht] in *. split.
      * eapply (drop_ok st st2 p s chain); [done|done| |exact Es|exact Et]. rewrite Hm. split; [done|].
        apply Hset. rewrite (st_len _ Hst). apply str_hash_range.
      * unfold str_view. by rewrite Es, fmap_delete.
  - rewrite (proj2 (Z.eqb_neq _ _)) by lia. cbn [negb].
    destruct (set_users_ok st p s (users s - 1) Hst Hp) as [H1 H2]; [lia|].
    eexists. split; [reflexivity|]. split; [exact H1|exact H2].
Qed.

(** ** Allocation *)

Section Alloc.
Context (string_alloc : StrPool -> option nat) (ref_ok : StrPool -> bool).
Context (heap_max : StrPool -> Z) (heap_ok xmalloc_ok : StrPool -> Z -> bool).
Context (str_extend : bool) (junk : nat -> Z).

(** The allocator gives addresses that are not in use. *)
Context (Hfresh : forall st p, string_alloc st = Some p -> strings st !! p = None).

Abbreviation new := (str_new string_alloc ref_ok heap_max heap_ok xmalloc_ok str_extend junk).
Abbreviation set := (str_set heap_max heap_ok xmalloc_ok str_extend junk).

Lemma zslice_all (s : list Z) : zslice s 0 (zlen s) = Some s.
Proof.
  pose proof (zlen_nonneg s). rewrite zslice_Some by lia. change (zdrop 0 s) with s. by rewrite ztake_full by lia.
Qed.

Lemma fresh_bytes_nil n : fresh_bytes junk n n = [].
Proof. unfold fresh_bytes. by rewrite Z.sub_diag. Qed.

(** A whole string is stored, or nothing is. *)
Lemma str_set_ok s st :
  exists sp st' rc, set (Some s) (zlen s) (zlen s) false st = Some (sp, st', rc) /\
    strings st' = strings st /\ str_ht st' = str_ht st /\
    (rc <> STR_OK \/ rc = STR_OK /\ data sp = s /\ users sp = 1 /\ mutable sp = false).
Proof.
  unfold str_set. destruct (_ && negb str_extend).
  { eexists _, _, _. split; [done|]. split; [done|]. split; [done|]. by left. }
  unfold str_set_data. pose proof (zlen_nonneg s). destruct (Z.ltb_spec STRD_SIZE (zlen s)).
  - destruct (str_storage _ _ _ st (zlen s)) as [dyn|].
    + cbn [mbind option_bind]. rewrite zslice_all. cbn [mbind option_bind]. rewrite fresh_bytes_nil, app_nil_r.
      destruct dyn; eexists _, _, _; (split; [done|]); (split; [done|]); (split; [done|]); by right.
    + eexists _, _, _. split; [done|]. split; [done|]. split; [done|]. by left.
  - destruct (Z.eqb_spec (zlen s) 0) as [E|E].
    + eexists _, _, _. split; [done|]. split; [done|]. split; [done|]. right. split; [done|]. cbn.
      destruct s; [done|]. rewrite zlen_cons in E. pose proof (zlen_nonneg s). lia.
    + cbn [mbind option_bind]. rewrite zslice_all. cbn [mbind option_bind]. rewrite fresh_bytes_nil, app_nil_r.
      eexists _, _, _. split; [done|]. split; [done|]. split; [done|]. by right.
Qed.

(** A new string that is not in the table. *)
Lemma add_ok st p sp :
  st_ok st -> strings st !! p = None -> users sp = 1 -> st_ok (set_strings (<[p := sp]> (strings st)) st).
Proof.
  intros [H1 H2 H3 H4 H5] Hp Hu.
  assert (Hne : forall h c q, zget (str_ht st) h = Some c -> q ∈ c -> q <> p).
  { intros h c q Hz Hq ->. destruct (H2 _ _ _ Hz Hq) as (? & ? & _). congruence. }
  constructor; cbn [set_strings strings str_ht]; [done| |done| |].
  - intros h c q Hz Hq. rewrite lookup_insert_ne by (by eapply not_eq_sym, Hne). by eapply H2.
  - intros h c q r s1 s2 Hz Hq Hr. rewrite !lookup_insert_ne by (by eapply not_eq_sym, Hne). by eapply H4.
  - intros q sq Hq. destruct (decide (q = p)) as [->|Hqp].
    + rewrite lookup_insert_eq in Hq. injection Hq as <-. lia.
    + rewrite lookup_insert_ne in Hq by done. by eapply H5.
Qed.

(** A string of the store that joins the table. *)
Lemma enter_ok st p sp chain ht :
  st_ok st -> strings st !! p = Some sp -> mutable sp = false ->
  zget (str_ht st) (str_hash (data sp)) = Some chain ->
  (forall q sq, q ∈ chain -> strings st !! q = Some sq -> data sq <> data sp) ->
  zset (str_ht st) (str_hash (data sp)) (p :: chain) = Some ht -> st_ok (set_ht ht st).
Proof.
  intros [H1 H2 H3 H4 H5] Hp Hm Hz Hno Hset. assert (Hpc : p ∉ chain) by (intros Hin; by eapply Hno).
  constructor; cbn [set_ht strings str_ht]; [by rewrite (zlen_zset _ _ _ _ Hset)|..|done].
  - intros h c q Hc Hq. destruct (decide (h = str_hash (data sp))) as [->|Hne].
    + rewrite (zget_zset_eq _ _ _ _ Hset) in Hc. injection Hc as <-. apply elem_of_cons in Hq as [->|Hq]; [by exists sp|by eapply H2].
    + rewrite (zget_zset_ne _ _ _ _ _ Hset) in Hc by done. by eapply H2.
  - intros h c Hc. destruct (decide (h = str_hash (data sp))) as [->|Hne].
    + rewrite (zget_zset_eq _ _ _ _ Hset) in Hc. injection Hc as <-. constructor; [done|by eapply H3].
    + rewrite (zget_zset_ne _ _ _ _ _ Hset) in Hc by done. by eapply H3.
  - intros h c q r s1 s2 Hc Hq Hr Hs1 Hs2 Hd. destruct (decide (h = str_hash (data sp))) as [->|Hne].
    + rewrite (zget_zset_eq _ _ _ _ Hset) in Hc. injection Hc as <-.
      apply elem_of_cons in Hq as [->|Hq], Hr as [->|Hr]; [done|exfalso; simplify_eq; by eapply Hno..|by eapply H4].
    + rewrite (zget_zset_ne _ _ _ _ _ Hset) in Hc by done. by eapply H4.
Qed.

Lemma str_new_ok st s :
  st_ok st -> (forall p c u, str_view st !! p = Some (c, u) -> u + 1 < 2 ^ 30) ->
  exists r st', new (Some s) (zlen s) (zlen s) false st = Some (r, st') /\ st_ok st' /\
    match r with
    | None => str_view st' = str_view st
    | Some p =>
        (exists u, str_view st !! p = Some (s, u) /\ str_view st' = <[p := (s, u + 1)]> (str_view st)) \/
        (str_view st !! p = None /\ str_view st' = <[p := (s, 1)]> (str_view st))
    end.
Proof.
  intros Hst Hu. unfold str_new. rewrite Z.ltb_irrefl, Z.eqb_refl. cbn [negb andb]. rewrite zslice_all.
  cbn [mbind option_bind]. destruct (bucket st s Hst) as [chain Hz]. rewrite Hz. cbn [mbind option_bind].
  pose proof (str_lookup_ok st _ chain s Hst Hz) as Hl. destruct (str_lookup _ chain s) as [[p|]|]; [..|done]; cbn [mbind option_bind].
  - destruct Hl as (Hpc & sp & Hp & Hd). rewrite Hp. cbn [mbind option_bind]. pose proof (st_users _ Hst _ _ Hp).
    assert (Hv : str_view st !! p = Some (s, users sp)) by (apply str_view_lookup; by exists sp).
    destruct (set_users_ok st p sp (users sp + 1) Hst Hp) as [Ho Hw]; [pose proof (Hu _ _ _ Hv); lia|].
    eexists (Some p), _. split; [reflexivity|]. split; [exact Ho|]. left. exists (users sp). by rewrite Hw, Hd.
  - destruct (string_alloc st) as [p|] eqn:Ha; [|by eexists None, _].
    pose proof (Hfresh _ _ Ha) as Hp.
    destruct (str_set_ok s st) as (sp & st' & rc & -> & Es & Et & Hrc). cbn [mbind option_bind].
    assert (Hst' : st_ok st').
    { destruct Hst as [H1 H2 H3 H4 H5]. constructor; rewrite ?Es, ?Et; assumption. }
    assert (Hvs : str_view st' = str_view st) by (unfold str_view; by rewrite Es).
    destruct Hrc as [Hrc|(-> & Hd & Hus & Hm)].
    { rewrite (proj2 (Z.eqb_neq _ _)) by done. eexists None, st'. done. }
    change (negb (STR_OK =? STR_OK)) with false. cbv iota zeta.
    assert (Hvn : str_view st !! p = None) by (unfold str_view; by rewrite lookup_fmap, Hp).
    set (st1 := set_strings (<[p := sp]> (strings st')) st').
    assert (Hst1 : st_ok st1) by (apply add_ok; [done|by rewrite Es|done]).
    assert (Hv1 : str_view st1 = <[p := (s, 1)]> (str_view st)).
    { unfold st1. by rewrite str_view_insert, Hvs, Hd, Hus. }
    destruct (ref_ok st1); [|eexists (Some p), st1; by eauto].
    change (str_ht st1) with (str_ht st'). rewrite Et.
    pose proof (zset_Some (str_ht st) (str_hash s) (p :: chain)) as Hset.
    rewrite Hset by (rewrite (st_len _ Hst); apply str_hash_range). cbn [mbind option_bind].
    eexists (Some p), _. split; [reflexivity|]. split; [|right; split; [done|exact Hv1]].
    eapply (enter_ok st1 p sp chain).
    + done.
    + apply lookup_insert_eq.
    + done.
    + rewrite Hd. cbn. by rewrite Et.
    + intros q sq Hq Hsq. destruct (decide (q = p)) as [->|Hne].
      * exfalso. destruct (st_in _ Hst _ _ _ Hz Hq) as (? & ? & _). congruence.
      * unfold st1 in Hsq. cbn [set_strings strings] in Hsq. rewrite lookup_insert_ne, Es in Hsq by done. rewrite Hd. by eapply Hl.
    + rewrite Hd. cbn. rewrite Et. apply Hset. rewrite (st_len _ Hst). apply str_hash_range.
Qed.

(** ** Operations as steps *)

Inductive StrOp := SNew (s : list Z) | SRef (p : nat) | SUnref (p : nat).

Definition str_run (op : StrOp) (st : StrPool) : option (option nat * StrPool) :=
  match op with
  | SNew s => new (Some s) (zlen s) (zlen s) false st
  | SRef p => str_ref (Some p) st
  | SUnref p => st ← str_unref (Some p) st; Some (None, st)
  end.

(** What the callers grant: counts stay below their 30 bits, and a string that
    is referred to or released exists. *)
Definition str_allowed (op : StrOp) (m : gmap nat (list Z * Z)) : Prop :=
  match op with
  | SNew _ => forall p c u, m !! p = Some (c, u) -> u + 1 < 2 ^ 30
  | SRef p => exists c u, m !! p = Some (c, u) /\ u + 1 < 2 ^ 30
  | SUnref p => exists c u, m !! p = Some (c, u)
  end.

(** The abstract pool. *)
Inductive str_spec (m : gmap nat (list Z * Z)) : StrOp -> option nat -> gmap nat (list Z * Z) -> Prop :=
| spec_shared s p u : m !! p = Some (s, u) -> str_spec m (SNew s) (Some p) (<[p := (s, u + 1)]> m)
| spec_fresh s p : m !! p = None -> str_spec m (SNew s) (Some p) (<[p := (s, 1)]> m)
| spec_failed s : str_spec m (SNew s) None m
| spec_ref p c u : m !! p = Some (c, u) -> str_spec m (SRef p) (Some p) (<[p := (c, u + 1)]> m)
| spec_unref p c u : m !! p = Some (c, u) -> u <> 1 -> str_spec m (SUnref p) None (<[p := (c, u - 1)]> m)
| spec_last p c : m !! p = Some (c, 1) -> str_spec m (SUnref p) None (delete p m).

Lemma str_run_ok op st :
  st_ok st -> str_allowed op (str_view st) ->
  exists r st', str_run op st = Some (r, st') /\ st_ok st' /\ str_spec (str_view st) op r (str_view st').
Proof.
  intros Hst Hop. destruct op as [s|p|p]; cbn [str_run str_allowed] in *.
  - destruct (str_new_ok st s Hst Hop) as (r & st' & Hn & Hst' & Hr). exists r, st'. split; [done|]. split; [done|].
    destruct r as [p|]; [|rewrite Hr; constructor]. destruct Hr as [(u & Hp & ->)|(Hp & ->)]; by constructor.
  - destruct Hop as (c & u & Hp & Hu). destruct (str_ref_ok st p c u Hst Hp Hu) as (st' & Hn & Hst' & Hv).
    exists (Some p), st'. split; [done|]. split; [done|]. rewrite Hv. by constructor.
  - destruct Hop as (c & u & Hp). destruct (str_unref_ok st p c u Hst Hp) as (st' & -> & Hst' & Hv).
    exists None, st'. split; [done|]. split; [done|]. rewrite Hv. destruct (Z.eqb_spec u 1) as [->|Hu]; by econstructor.
Qed.

(** ** Sharing *)

(** Every string is in the table. *)
Definition interned (st : StrPool) : Prop :=
  forall p s, strings st !! p = Some s -> mutable s = false /\
    exists chain, zget (str_ht st) (str_hash (data s)) = Some chain /\ p ∈ chain.

(** States that the three operations reach. *)
Inductive str_reach : StrPool -> Prop :=
| reach_empty : str_reach str_empty
| reach_step st op r st' :
    str_reach st -> str_allowed op (str_view st) -> str_run op st = Some (r, st') -> str_reach st'.

Lemma reach_ok st : str_reach st -> st_ok st.
Proof.
  induction 1 as [|st op r st' _ IH Hop Hrun]; [apply str_empty_ok|].
  destruct (str_run_ok op st IH Hop) as (r1 & st1 & Hr1 & Hok & _). congruence.
Qed.

Lemma set_users_interned st p s u :
  interned st -> strings st !! p = Some s -> interned (set_strings (<[p := set_users u s]> (strings st)) st).
Proof.
  intros Hi Hp q sq. cbn [set_strings strings str_ht]. destruct (decide (p = q)) as [<-|Hne].
  - rewrite lookup_insert_eq. intros [= <-]. exact (Hi p s Hp).
  - rewrite lookup_insert_ne by done. apply Hi.
Qed.

Lemma str_unref_interned st st' p :
  st_ok st -> interned st -> str_unref (Some p) st = Some st' -> interned st'.
Proof.
  intros Hst Hi. unfold str_unref. destruct (strings st !! p) as [s|] eqn:Hp; cbn [mbind option_bind]; [|done].
  destruct (Hi p s Hp) as [Hm (chain & Hz & Hin)].
  destruct (negb _); [intros [= <-]; by apply set_users_interned|].
  cbn [set_users mutable data dynamic]. rewrite Hm, Hz. cbn [mbind option_bind].
  destruct (zset _ _ (unchain p chain)) as [ht|] eqn:Hset; cbn [mbind option_bind]; [|done]. intros [= <-].
  assert (Hgoal : forall st1, str_ht st1 = ht -> strings st1 = delete p (strings st) -> interned st1).
  { intros st1 Et Es q sq. rewrite Es, Et. intros [Hne Hq]%lookup_delete_Some. destruct (Hi q sq Hq) as [Hmq (c & Hc & Hqc)].
    split; [done|]. destruct (decide (str_hash (data sq) = str_hash (data s))) as [Eh|Eh].
    - rewrite Eh in *. rewrite Hz in Hc. injection Hc as <-. exists (unchain p chain).
      split; [by eapply zget_zset_eq|]. apply unchain_elem; [by eapply st_nodup|done].
    - exists c. split; [|done]. rewrite (zget_zset_ne _ _ _ _ _ Hset) by congruence. done. }
  apply Hgoal; by destruct (_ && _).
Qed.

Lemma str_new_interned st st' s r :
  (forall st, ref_ok st = true) -> st_ok st -> interned st ->
  new (Some s) (zlen s) (zlen s) false st = Some (r, st') -> interned st'.
Proof.
  intros Href Hst Hi. unfold str_new. rewrite Z.ltb_irrefl, Z.eqb_refl. cbn [negb andb]. rewrite zslice_all.
  cbn [mbind option_bind]. destruct (bucket st s Hst) as [chain Hz]. rewrite Hz. cbn [mbind option_bind].
  pose proof (str_lookup_ok st _ chain s Hst Hz) as Hl. destruct (str_lookup _ chain s) as [[p|]|]; [..|done]; cbn [mbind option_bind].
  - destruct Hl as (_ & sp & Hp & _). rewrite Hp. cbn [mbind option_bind]. intros [= <- <-]. by apply set_users_interned.
  - destruct (string_alloc st) as [p|] eqn:Ha; [|by intros [= <- <-]]. pose proof (Hfresh _ _ Ha) as Hp.
    destruct (str_set_ok s st) as (sp & st1 & rc & -> & Es & Et & Hrc). cbn [mbind option_bind].
    assert (Hi1 : interned st1) by (intros q sq; rewrite Es, Et; apply Hi).
    destruct Hrc as [Hrc|(-> & Hd & Hus & Hm)]; [rewrite (proj2 (Z.eqb_neq _ _)) by done; by intros [= <- <-]|].
    change (negb (STR_OK =? STR_OK)) with false. cbv iota zeta. rewrite Href. cbn [set_strings str_ht]. rewrite Et.
    destruct (zset _ _ (p :: chain)) as [ht|] eqn:Hset; cbn [mbind option_bind]; [|done]. intros [= <- <-].
    intros q sq. cbn [set_ht strings str_ht set_strings]. rewrite Es. destruct (decide (p = q)) as [<-|Hne].
    + rewrite lookup_insert_eq. intros [= <-]. split; [done|]. rewrite Hd. exists (p :: chain).
      split; [by eapply zget_zset_eq|left].
    + rewrite lookup_insert_ne by done. intros Hq. destruct (Hi q sq Hq) as [Hmq (c & Hc & Hqc)]. split; [done|].
      destruct (decide (str_hash (data sq) = str_hash s)) as [Eh|Eh].
      * rewrite Eh in *. rewrite Hz in Hc. injection Hc as <-. exists (p :: chain). split; [by eapply zget_zset_eq|by right].
      * exists c. split; [|done]. by rewrite (zget_zset_ne _ _ _ _ _ Hset) by congruence.
Qed.

Lemma reach_interned st : (forall st, ref_ok st = true) -> str_reach st -> interned st.
Proof.
  intros Href. induction 1 as [|st op r st' Hreach IH Hop Hrun]; [by intros p s Hp|].
  pose proof (reach_ok _ Hreach) as Hst. destruct op as [s|p|p]; cbn [str_run] in Hrun.
  - by eapply str_new_interned.
  - unfold str_ref in Hrun. destruct (strings st !! p) as [s|] eqn:Hp; cbn [mbind option_bind] in Hrun; [|done].
    injection Hrun as <- <-. by apply set_users_interned.
  - destruct (str_unref (Some p) st) as [st1|] eqn:Hu; cbn [mbind option_bind] in Hrun; [|done].
    injection Hrun as <- <-. by eapply str_unref_interned.
Qed.

Lemma reach_shared st p q s1 s2 :
  (forall st, ref_ok st = true) -> str_reach st ->
  strings st !! p = Some s1 -> strings st !! q = Some s2 -> data s1 = data s2 -> p = q.
Proof.
  intros Href Hreach Hp Hq Hd. pose proof (reach_ok _ Hreach) as Hst. pose proof (reach_interned _ Href Hreach) as Hi.
  destruct (Hi p s1 Hp) as [_ (c & Hc & Hpc)], (Hi q s2 Hq) as [_ (c' & Hc' & Hqc)].
  rewrite <- Hd, Hc in Hc'. injection Hc' as <-. by eapply (st_unique _ Hst _ c p q s1 s2).
Qed.

End Alloc.
