(* ===== verification/Qos.v ===== *)
(** Quality of service policies (dds/uqos.c, include/uqos.h): the table of
    policies, validity of their values, and the compatibility of a writer
    and a reader.

    The code reads and writes the fields of a QoS structure through the
    offsets of its policy table; a structure is modelled as a function from
    policies to values ([PolVal]), of which those with an offset in the group
    are fields.  A value of another type than the policy's is [None]. *)

From Stdlib Require Import String.
From S2P Require Import Prelude CLib TypeData NMatch.
From stdpp Require Import list.

#[local] Open Scope Z_scope.

(** ** Values *)

(** [DDS_Duration_t] *)
Record Duration := mkDuration { sec : Z; nanosec : Z }.

Definition INFINITE_SEC : Z := 2147483647.
Definition INFINITE_NSEC : Z := 2147483647.
Definition INFINITE : Duration := mkDuration INFINITE_SEC INFINITE_NSEC.
Definition ZERO : Duration := mkDuration 0 0.
Definition LENGTH_UNLIMITED : Z := -1.

(** [DDS_OctetSeq] and [DDS_StringSeq] *)
Record OctetSeq := mkOctetSeq { os_maximum : Z; os_length : Z; os_esize : Z; os_buffer : option (list Z) }.
Record StringSeq := mkStringSeq { ss_maximum : Z; ss_length : Z; ss_buffer : option (list (option (list Z))) }.

(** [DDS_ResourceLimitsQosPolicy] and [DDS_DurabilityServiceQosPolicy] *)
Record ResourceLimits := mkLimits { max_samples : Z; max_instances : Z; max_samples_per_instance : Z }.
Record DurabilityService := mkDurService {
  service_cleanup_delay : Duration;
  ds_history_kind : Z;
  ds_history_depth : Z;
  ds_limits : ResourceLimits
}.

#[export] Instance Duration_eq_dec : EqDecision Duration.
Proof. solve_decision. Defined.
#[export] Instance ResourceLimits_eq_dec : EqDecision ResourceLimits.
Proof. solve_decision. Defined.

(** A policy value, by its C type.  [POctets] and [PNames] are the fields of a
    local entity, [PString] and [PStrings] those of a discovered one. *)
Inductive PolVal :=
| PInt (v : Z)
| PBool (v : Z)
| POctets (v : OctetSeq)
| PString (p : option nat)
| PNames (v : StringSeq)
| PStrings (p : option nat)
| PDuration (d : Duration)
| PKind (k : Z)
| PDurService (v : DurabilityService)
| PPresentation (scope coherent ordered : Z)
| PLiveliness (kind : Z) (lease : Duration)
| PReliability (kind : Z) (max_blocking : Duration)
| PHistory (kind depth : Z)
| PLimits (l : ResourceLimits)
| PLifecycle (nowriter disposed : Duration).

(** The kinds, in the order of their enumerations. *)
Definition BY_SOURCE_TIMESTAMP : Z := 1.
Definition TRANSIENT_LOCAL_DURABILITY : Z := 1.
Definition PERSISTENT_DURABILITY : Z := 3.
Definition KEEP_LAST_HISTORY : Z := 0.
Definition KEEP_ALL_HISTORY : Z := 1.
Definition AUTOMATIC_LIVELINESS : Z := 0.
Definition MANUAL_BY_TOPIC_LIVELINESS : Z := 2.
Definition EXCLUSIVE_OWNERSHIP : Z := 1.
Definition GROUP_PRESENTATION : Z := 2.
Definition RELIABLE_RELIABILITY : Z := 1.

(** ** Unified QoS *)

(** [UniQos_t]; a stored kind keeps the bits of its field. *)
Record UniQos := mkUniQos {
  user_data : option nat;
  topic_data : option nat;
  group_data : option nat;
  partition : option nat;
  durability_kind : Z;
  presentation_access_scope : Z;
  presentation_coherent_access : Z;
  presentation_ordered_access : Z;
  ownership_kind : Z;
  liveliness_kind : Z;
  reliability_kind : Z;
  destination_order_kind : Z;
  history_kind : Z;
  no_autodispose : Z;
  deadline : Duration;
  latency_budget : Duration;
  ownership_strength : Z;
  liveliness_lease_duration : Duration;
  reliability_max_blocking_time : Duration;
  transport_priority : Z;
  lifespan : Duration;
  history_depth : Z;
  resource_limits : ResourceLimits
}.

Definition set_user_data (x0 : option nat) (q : UniQos) : UniQos :=
    mkUniQos x0 (topic_data q) (group_data q) (partition q) (durability_kind q) (presentation_access_scope q)
    (presentation_coherent_access q) (presentation_ordered_access q) (ownership_kind q) (liveliness_kind q)
    (reliability_kind q) (destination_order_kind q) (history_kind q) (no_autodispose q) (deadline q)
    (latency_budget q) (ownership_strength q) (liveliness_lease_duration q) (reliability_max_blocking_time q)
    (transport_priority q) (lifespan q) (history_depth q) (resource_limits q).
Definition set_topic_data (x0 : option nat) (q : UniQos) : UniQos :=
    mkUniQos (user_data q) x0 (group_data q) (partition q) (durability_kind q) (presentation_access_scope q)
    (presentation_coherent_access q) (presentation_ordered_access q) (ownership_kind q) (liveliness_kind q)
    (reliability_kind q) (destination_order_kind q) (history_kind q) (no_autodispose q) (deadline q)
    (latency_budget q) (ownership_strength q) (liveliness_lease_duration q) (reliability_max_blocking_time q)
    (transport_priority q) (lifespan q) (history_depth q) (resource_limits q).
Definition set_group_data (x0 : option nat) (q : UniQos) : UniQos :=
    mkUniQos (user_data q) (topic_data q) x0 (partition q) (durability_kind q) (presentation_access_scope q)
    (presentation_coherent_access q) (presentation_ordered_access q) (ownership_kind q) (liveliness_kind q)
    (reliability_kind q) (destination_order_kind q) (history_kind q) (no_autodispose q) (deadline q)
    (latency_budget q) (ownership_strength q) (liveliness_lease_duration q) (reliability_max_blocking_time q)
    (transport_priority q) (lifespan q) (history_depth q) (resource_limits q).
Definition set_partition (x0 : option nat) (q : UniQos) : UniQos :=
    mkUniQos (user_data q) (topic_data q) (group_data q) x0 (durability_kind q) (presentation_access_scope q)
    (presentation_coherent_access q) (presentation_ordered_access q) (ownership_kind q) (liveliness_kind q)
    (reliability_kind q) (destination_order_kind q) (history_kind q) (no_autodispose q) (deadline q)
    (latency_budget q) (ownership_strength q) (liveliness_lease_duration q) (reliability_max_blocking_time q)
    (transport_priority q) (lifespan q) (history_depth q) (resource_limits q).
Definition set_durability (x0 : Z) (q : UniQos) : UniQos :=
    mkUniQos (user_data q) (topic_data q) (group_data q) (partition q) (wrap 2 x0) (presentation_access_scope
    q) (presentation_coherent_access q) (presentation_ordered_access q) (ownership_kind q) (liveliness_kind q)
    (reliability_kind q) (destination_order_kind q) (history_kind q) (no_autodispose q) (deadline q)
    (latency_budget q) (ownership_strength q) (liveliness_lease_duration q) (reliability_max_blocking_time q)
    (transport_priority q) (lifespan q) (history_depth q) (resource_limits q).
Definition set_presentation (x0 : Z) (x1 : Z) (x2 : Z) (q : UniQos) : UniQos :=
    mkUniQos (user_data q) (topic_data q) (group_data q) (partition q) (durability_kind q) (wrap 2 x0) (wrap 1
    x1) (wrap 1 x2) (ownership_kind q) (liveliness_kind q) (reliability_kind q) (destination_order_kind q)
    (history_kind q) (no_autodispose q) (deadline q) (latency_budget q) (ownership_strength q)
    (liveliness_lease_duration q) (reliability_max_blocking_time q) (transport_priority q) (lifespan q)
    (history_depth q) (resource_limits q).
Definition set_ownership (x0 : Z) (q : UniQos) : UniQos :=
    mkUniQos (user_data q) (topic_data q) (group_data q) (partition q) (durability_kind q)
    (presentation_access_scope q) (presentation_coherent_access q) (presentation_ordered_access q) (wrap 1 x0)
    (liveliness_kind q) (reliability_kind q) (destination_order_kind q) (history_kind q) (no_autodispose q)
    (deadline q) (latency_budget q) (ownership_strength q) (liveliness_lease_duration q)
    (reliability_max_blocking_time q) (transport_priority q) (lifespan q) (history_depth q) (resource_limits
    q).
Definition set_liveliness (x0 : Z) (x1 : Duration) (q : UniQos) : UniQos :=
    mkUniQos (user_data q) (topic_data q) (group_data q) (partition q) (durability_kind q)
    (presentation_access_scope q) (presentation_coherent_access q) (presentation_ordered_access q)
    (ownership_kind q) (wrap 2 x0) (reliability_kind q) (destination_order_kind q) (history_kind q)
    (no_autodispose q) (deadline q) (latency_budget q) (ownership_strength q) x1
    (reliability_max_blocking_time q) (transport_priority q) (lifespan q) (history_depth q) (resource_limits
    q).
Definition set_reliability (x0 : Z) (x1 : Duration) (q : UniQos) : UniQos :=
    mkUniQos (user_data q) (topic_data q) (group_data q) (partition q) (durability_kind q)
    (presentation_access_scope q) (presentation_coherent_access q) (presentation_ordered_access q)
    (ownership_kind q) (liveliness_kind q) (wrap 1 x0) (destination_order_kind q) (history_kind q)
    (no_autodispose q) (deadline q) (latency_budget q) (ownership_strength q) (liveliness_lease_duration q) x1
    (transport_priority q) (lifespan q) (history_depth q) (resource_limits q).
Definition set_destination_order (x0 : Z) (q : UniQos) : UniQos :=
    mkUniQos (user_data q) (topic_data q) (group_data q) (partition q) (durability_kind q)
    (presentation_access_scope q) (presentation_coherent_access q) (presentation_ordered_access q)
    (ownership_kind q) (liveliness_kind q) (reliability_kind q) (wrap 1 x0) (history_kind q) (no_autodispose
    q) (deadline q) (latency_budget q) (ownership_strength q) (liveliness_lease_duration q)
    (reliability_max_blocking_time q) (transport_priority q) (lifespan q) (history_depth q) (resource_limits
    q).
Definition set_history (x0 : Z) (x1 : Z) (q : UniQos) : UniQos :=
    mkUniQos (user_data q) (topic_data q) (group_data q) (partition q) (durability_kind q)
    (presentation_access_scope q) (presentation_coherent_access q) (presentation_ordered_access q)
    (ownership_kind q) (liveliness_kind q) (reliability_kind q) (destination_order_kind q) (wrap 1 x0)
    (no_autodispose q) (deadline q) (latency_budget q) (ownership_strength q) (liveliness_lease_duration q)
    (reliability_max_blocking_time q) (transport_priority q) (lifespan q) x1 (resource_limits q).
Definition set_no_autodispose (x0 : Z) (q : UniQos) : UniQos :=
    mkUniQos (user_data q) (topic_data q) (group_data q) (partition q) (durability_kind q)
    (presentation_access_scope q) (presentation_coherent_access q) (presentation_ordered_access q)
    (ownership_kind q) (liveliness_kind q) (reliability_kind q) (destination_order_kind q) (history_kind q)
    (wrap 1 x0) (deadline q) (latency_budget q) (ownership_strength q) (liveliness_lease_duration q)
    (reliability_max_blocking_time q) (transport_priority q) (lifespan q) (history_depth q) (resource_limits
    q).
Definition set_deadline (x0 : Duration) (q : UniQos) : UniQos :=
    mkUniQos (user_data q) (topic_data q) (group_data q) (partition q) (durability_kind q)
    (presentation_access_scope q) (presentation_coherent_access q) (presentation_ordered_access q)
    (ownership_kind q) (liveliness_kind q) (reliability_kind q) (destination_order_kind q) (history_kind q)
    (no_autodispose q) x0 (latency_budget q) (ownership_strength q) (liveliness_lease_duration q)
    (reliability_max_blocking_time q) (transport_priority q) (lifespan q) (history_depth q) (resource_limits
    q).
Definition set_latency_budget (x0 : Duration) (q : UniQos) : UniQos :=
    mkUniQos (user_data q) (topic_data q) (group_data q) (partition q) (durability_kind q)
    (presentation_access_scope q) (presentation_coherent_access q) (presentation_ordered_access q)
    (ownership_kind q) (liveliness_kind q) (reliability_kind q) (destination_order_kind q) (history_kind q)
    (no_autodispose q) (deadline q) x0 (ownership_strength q) (liveliness_lease_duration q)
    (reliability_max_blocking_time q) (transport_priority q) (lifespan q) (history_depth q) (resource_limits
    q).
Definition set_ownership_strength (x0 : Z) (q : UniQos) : UniQos :=
    mkUniQos (user_data q) (topic_data q) (group_data q) (partition q) (durability_kind q)
    (presentation_access_scope q) (presentation_coherent_access q) (presentation_ordered_access q)
    (ownership_kind q) (liveliness_kind q) (reliability_kind q) (destination_order_kind q) (history_kind q)
    (no_autodispose q) (deadline q) (latency_budget q) x0 (liveliness_lease_duration q)
    (reliability_max_blocking_time q) (transport_priority q) (lifespan q) (history_depth q) (resource_limits
    q).
Definition set_transport_priority (x0 : Z) (q : UniQos) : UniQos :=
    mkUniQos (user_data q) (topic_data q) (group_data q) (partition q) (durability_kind q)
    (presentation_access_scope q) (presentation_coherent_access q) (presentation_ordered_access q)
    (ownership_kind q) (liveliness_kind q) (reliability_kind q) (destination_order_kind q) (history_kind q)
    (no_autodispose q) (deadline q) (latency_budget q) (ownership_strength q) (liveliness_lease_duration q)
    (reliability_max_blocking_time q) x0 (lifespan q) (history_depth q) (resource_limits q).
Definition set_lifespan (x0 : Duration) (q : UniQos) : UniQos :=
    mkUniQos (user_data q) (topic_data q) (group_data q) (partition q) (durability_kind q)
    (presentation_access_scope q) (presentation_coherent_access q) (presentation_ordered_access q)
    (ownership_kind q) (liveliness_kind q) (reliability_kind q) (destination_order_kind q) (history_kind q)
    (no_autodispose q) (deadline q) (latency_budget q) (ownership_strength q) (liveliness_lease_duration q)
    (reliability_max_blocking_time q) (transport_priority q) x0 (history_depth q) (resource_limits q).
Definition set_resource_limits (x0 : ResourceLimits) (q : UniQos) : UniQos :=
    mkUniQos (user_data q) (topic_data q) (group_data q) (partition q) (durability_kind q)
    (presentation_access_scope q) (presentation_coherent_access q) (presentation_ordered_access q)
    (ownership_kind q) (liveliness_kind q) (reliability_kind q) (destination_order_kind q) (history_kind q)
    (no_autodispose q) (deadline q) (latency_budget q) (ownership_strength q) (liveliness_lease_duration q)
    (reliability_max_blocking_time q) (transport_priority q) (lifespan q) (history_depth q) x0.

#[export] Instance UniQos_eq_dec : EqDecision UniQos.
Proof. solve_decision. Defined.

(** [GroupQos_t]: the part of a publisher or subscriber the matching reads. *)
Record GroupQos := mkGroupQos {
  g_group_data : option nat;
  g_partition : option nat;
  g_access_scope : Z;
  g_coherent_access : Z;
  g_ordered_access : Z;
  g_no_autoenable : Z
}.

(** ** The policy table *)

(** [QTYPE] *)
Inductive QTYPE :=
| QT_INTEGER | QT_BOOLEAN | QT_OCTETSEQ | QT_PARTITION | QT_DURATION | QT_TIMESTAMP_TYPE
| QT_SHARED_EXCLUSIVE | QT_DURABILITY | QT_DURABILITY_SERVICE | QT_PRESENTATION | QT_LIVELINESS
| QT_RELIABILITY | QT_HISTORY | QT_RESOURCE_LIMITS | QT_READER_DATA_LIFECYCLE.

(** [QPAR] *)
Inductive QPAR :=
| QP_USER_DATA | QP_TOPIC_DATA | QP_GROUP_DATA | QP_DURABILITY | QP_DURABILITY_SERVICE
| QP_PRESENTATION | QP_DEADLINE | QP_LATENCY_BUDGET | QP_OWNERSHIP | QP_OWNERSHIP_STRENGTH
| QP_LIVELINESS | QP_TIME_BASED_FILTER | QP_PARTITION | QP_RELIABILITY | QP_TRANSPORT_PRIORITY
| QP_LIFESPAN | QP_DESTINATION_ORDER | QP_HISTORY | QP_RESOURCE_LIMITS | QP_ENTITY_FACTORY
| QP_WRITER_DATA_LIFECYCLE | QP_READER_DATA_LIFECYCLE.

#[export] Instance QPAR_eq_dec : EqDecision QPAR.
Proof. solve_decision. Defined.
#[export] Instance QTYPE_eq_dec : EqDecision QTYPE.
Proof. solve_decision. Defined.

(** [QP_MIN] to [QP_MAX] *)
Definition all_qpars : list QPAR := [
  QP_USER_DATA; QP_TOPIC_DATA; QP_GROUP_DATA; QP_DURABILITY; QP_DURABILITY_SERVICE;
  QP_PRESENTATION; QP_DEADLINE; QP_LATENCY_BUDGET; QP_OWNERSHIP; QP_OWNERSHIP_STRENGTH;
  QP_LIVELINESS; QP_TIME_BASED_FILTER; QP_PARTITION; QP_RELIABILITY; QP_TRANSPORT_PRIORITY;
  QP_LIFESPAN; QP_DESTINATION_ORDER; QP_HISTORY; QP_RESOURCE_LIMITS; QP_ENTITY_FACTORY;
  QP_WRITER_DATA_LIFECYCLE; QP_READER_DATA_LIFECYCLE].

(** [QGROUP] *)
Inductive QGROUP := QG_TOPIC | QG_WRITER | QG_READER | QG_DISC_TOPIC | QG_DISC_WRITER | QG_DISC_READER.

#[export] Instance QGROUP_eq_dec : EqDecision QGROUP.
Proof. solve_decision. Defined.

(** [g >= QG_DISC_TOPIC] *)
Definition is_disc (g : QGROUP) : bool :=
  match g with QG_TOPIC | QG_WRITER | QG_READER => false | _ => true end.

(** [DDS_QOS_POLICY_ID] *)
Definition policy_id (p : QPAR) : Z :=
  match p with
  | QP_USER_DATA => 1 | QP_DURABILITY => 2 | QP_PRESENTATION => 3 | QP_DEADLINE => 4
  | QP_LATENCY_BUDGET => 5 | QP_OWNERSHIP => 6 | QP_OWNERSHIP_STRENGTH => 7 | QP_LIVELINESS => 8
  | QP_TIME_BASED_FILTER => 9 | QP_PARTITION => 10 | QP_RELIABILITY => 11 | QP_DESTINATION_ORDER => 12
  | QP_HISTORY => 13 | QP_RESOURCE_LIMITS => 14 | QP_ENTITY_FACTORY => 15 | QP_WRITER_DATA_LIFECYCLE => 16
  | QP_READER_DATA_LIFECYCLE => 17 | QP_TOPIC_DATA => 18 | QP_GROUP_DATA => 19 | QP_TRANSPORT_PRIORITY => 20
  | QP_LIFESPAN => 21 | QP_DURABILITY_SERVICE => 22
  end.

(** [offsetof (UniQos_t, ...)], where the table gives one *)
Inductive uni_field :=
| F_user_data | F_topic_data | F_group_data | F_partition | F_deadline | F_latency_budget
| F_ownership_strength | F_transport_priority | F_lifespan | F_resource_limits.

(** [Q_DESC]; the offsets in the groups are whether there is one. *)
Record Q_DESC := mkDesc {
  check : bool;
  in_parent : bool;
  qtype : QTYPE;
  uni_ofs : option uni_field;
  init : PolVal;
  disc_init : PolVal;
  offsets : QGROUP -> bool
}.

Definition in_groups (t w r dt dw dr : bool) (g : QGROUP) : bool :=
  match g with
  | QG_TOPIC => t | QG_WRITER => w | QG_READER => r
  | QG_DISC_TOPIC => dt | QG_DISC_WRITER => dw | QG_DISC_READER => dr
  end.

Definition octets_init : PolVal := POctets (mkOctetSeq 0 0 1 None).
Definition unlimited : ResourceLimits := mkLimits LENGTH_UNLIMITED LENGTH_UNLIMITED LENGTH_UNLIMITED.

(** [qos_durability_service_init] *)
Definition qos_durability_service_init : DurabilityService := mkDurService ZERO KEEP_LAST_HISTORY 1 unlimited.

(** A policy whose initial value is the same for local and discovered entities. *)
Definition desc (check in_parent : bool) (t : QTYPE) (f : option uni_field) (v : PolVal) (gs : QGROUP -> bool) : Q_DESC :=
  mkDesc check in_parent t f v v gs.

(** One descriptor per policy, with the fields that the functions below read. *)
Definition qd_user_data : Q_DESC :=
  mkDesc false false QT_OCTETSEQ (Some F_user_data) octets_init (PString None)
    (in_groups false true true false true true).
Definition qd_topic_data : Q_DESC :=
  mkDesc false false QT_OCTETSEQ (Some F_topic_data) octets_init (PString None)
    (in_groups true false false true true true).
Definition qd_group_data : Q_DESC :=
  mkDesc false true QT_OCTETSEQ (Some F_group_data) octets_init (PString None)
    (in_groups false false false false true true).
Definition qd_durability : Q_DESC :=
  desc true false QT_DURABILITY None (PKind 0) (in_groups true true true true true true).
Definition qd_durability_service : Q_DESC :=
  desc false false QT_DURABILITY_SERVICE None (PDurService qos_durability_service_init)
    (in_groups true true false true true false).
Definition qd_presentation : Q_DESC :=
  desc true true QT_PRESENTATION None (PPresentation 0 0 0) (in_groups false false false false true true).
Definition qd_deadline : Q_DESC :=
  desc true false QT_DURATION (Some F_deadline) (PDuration INFINITE) (in_groups true true true true true true).
Definition qd_latency_budget : Q_DESC :=
  desc true false QT_DURATION (Some F_latency_budget) (PDuration ZERO) (in_groups true true true true true true).
Definition qd_ownership : Q_DESC :=
  desc true false QT_SHARED_EXCLUSIVE None (PKind 0) (in_groups true true true true true true).
Definition qd_ownership_strength : Q_DESC :=
  desc false false QT_INTEGER (Some F_ownership_strength) (PInt 0) (in_groups false true false false true false).
Definition qd_liveliness : Q_DESC :=
  desc true false QT_LIVELINESS None (PLiveliness AUTOMATIC_LIVELINESS INFINITE)
    (in_groups true true true true true true).
Definition qd_time_based_filter : Q_DESC :=
  desc false false QT_DURATION None (PDuration ZERO) (in_groups false false true false false true).
Definition qd_partition : Q_DESC :=
  mkDesc false true QT_PARTITION (Some F_partition) (PNames (mkStringSeq 0 0 None)) (PStrings None)
    (in_groups false false false false true true).
Definition qd_reliability : Q_DESC :=
  desc true false QT_RELIABILITY None (PReliability 0 (mkDuration 0 100000000))
    (in_groups true true true true true true).
Definition qd_transport_priority : Q_DESC :=
  desc false false QT_INTEGER (Some F_transport_priority) (PInt 0) (in_groups true true false true false false).
Definition qd_lifespan : Q_DESC :=
  desc false false QT_DURATION (Some F_lifespan) (PDuration INFINITE) (in_groups true true false true true false).
Definition qd_destination_order : Q_DESC :=
  desc true false QT_TIMESTAMP_TYPE None (PKind 0) (in_groups true true true true true true).
Definition qd_history : Q_DESC :=
  desc false false QT_HISTORY None (PHistory KEEP_LAST_HISTORY 1) (in_groups true true true true false false).
Definition qd_resource_limits : Q_DESC :=
  desc false false QT_RESOURCE_LIMITS (Some F_resource_limits) (PLimits unlimited)
    (in_groups true true true true false false).
Definition qd_entity_factory : Q_DESC :=
  desc false true QT_BOOLEAN None (PBool 1) (in_groups false false false false false false).
Definition qd_writer_data_lifecycle : Q_DESC :=
  desc false false QT_BOOLEAN None (PBool 1) (in_groups false true false false false false).
Definition qd_reader_data_lifecycle : Q_DESC :=
  desc false false QT_READER_DATA_LIFECYCLE None (PLifecycle INFINITE INFINITE)
    (in_groups false false true false false false).

(** [qos_descs] *)
Definition qos_desc (p : QPAR) : Q_DESC :=
  match p with
  | QP_USER_DATA => qd_user_data
  | QP_TOPIC_DATA => qd_topic_data
  | QP_GROUP_DATA => qd_group_data
  | QP_DURABILITY => qd_durability
  | QP_DURABILITY_SERVICE => qd_durability_service
  | QP_PRESENTATION => qd_presentation
  | QP_DEADLINE => qd_deadline
  | QP_LATENCY_BUDGET => qd_latency_budget
  | QP_OWNERSHIP => qd_ownership
  | QP_OWNERSHIP_STRENGTH => qd_ownership_strength
  | QP_LIVELINESS => qd_liveliness
  | QP_TIME_BASED_FILTER => qd_time_based_filter
  | QP_PARTITION => qd_partition
  | QP_RELIABILITY => qd_reliability
  | QP_TRANSPORT_PRIORITY => qd_transport_priority
  | QP_LIFESPAN => qd_lifespan
  | QP_DESTINATION_ORDER => qd_destination_order
  | QP_HISTORY => qd_history
  | QP_RESOURCE_LIMITS => qd_resource_limits
  | QP_ENTITY_FACTORY => qd_entity_factory
  | QP_WRITER_DATA_LIFECYCLE => qd_writer_data_lifecycle
  | QP_READER_DATA_LIFECYCLE => qd_reader_data_lifecycle
  end.

(** A QoS structure of some group. *)
Definition QosRec := QPAR -> PolVal.

(** ** Validity *)

Definition OK : Z := retcode DDS_RETCODE_OK.
Definition BAD_PARAMETER : Z := retcode DDS_RETCODE_BAD_PARAMETER.
Definition UNSUPPORTED : Z := retcode DDS_RETCODE_UNSUPPORTED.

Definition ok_if (b : bool) : Z := if b then OK else BAD_PARAMETER.

(** [qos_valid_duration] *)
Definition qos_valid_duration (d : Duration) : Z :=
  if (sec d =? INFINITE_SEC) && (nanosec d =? INFINITE_NSEC) then OK
  else if (sec d <? 0) || (INFINITE_SEC <=? sec d) || (1000000000 <=? nanosec d) then BAD_PARAMETER
  else OK.

(** [qt_resource_limits_valid] *)
Definition limits_invalid (l : ResourceLimits) : bool :=
  negb (max_samples l =? LENGTH_UNLIMITED) && (max_samples l <? 1) ||
  negb (max_instances l =? LENGTH_UNLIMITED) && (max_instances l <? 1) ||
  negb (max_samples_per_instance l =? LENGTH_UNLIMITED) && (max_samples_per_instance l <? 1) ||
  (⟦max_samples l⟧32 <? ⟦max_samples_per_instance l⟧32).

Definition qt_resource_limits_valid (l : ResourceLimits) : Z := ok_if (negb (limits_invalid l)).

(** [qt_durability_service_valid] *)
Definition qt_durability_service_valid (v : DurabilityService) : Z :=
  let ret := qos_valid_duration (service_cleanup_delay v) in
  if negb (ret =? OK) then ret
  else if negb (ds_history_kind v =? KEEP_LAST_HISTORY) && negb (ds_history_kind v =? KEEP_ALL_HISTORY) then UNSUPPORTED
  else if ds_history_depth v <? 1 then BAD_PARAMETER
  else ok_if (negb (limits_invalid (ds_limits v) ||
                    (⟦max_samples_per_instance (ds_limits v)⟧32 <? ⟦ds_history_depth v⟧32))).

(** [qt_presentation_valid] *)
Definition qt_presentation_valid (scope coherent ordered : Z) : Z :=
  if GROUP_PRESENTATION <? scope then UNSUPPORTED
  else if (coherent <? 0) || (1 <? coherent) then BAD_PARAMETER
  else if (ordered <? 0) || (1 <? ordered) then BAD_PARAMETER
  else OK.

(** [qt_liveliness_valid] *)
Definition qt_liveliness_valid (kind : Z) (d : Duration) : Z :=
  if MANUAL_BY_TOPIC_LIVELINESS <? kind then BAD_PARAMETER
  else
    let ret := qos_valid_duration d in
    if negb (ret =? OK) then ret
    else if (sec d =? 0) && (nanosec d =? 0) then BAD_PARAMETER
    else if negb (kind =? AUTOMATIC_LIVELINESS) && ((sec d =? INFINITE_SEC) || (nanosec d =? INFINITE_NSEC))
    then BAD_PARAMETER
    else OK.

(** [qt_history_valid] *)
Definition qt_history_valid (kind depth : Z) : Z :=
  if KEEP_ALL_HISTORY <? kind then BAD_PARAMETER
  else if (kind =? KEEP_LAST_HISTORY) && (depth <? 1) then BAD_PARAMETER
  else OK.

(** [qt_rd_lifecycle_valid] *)
Definition qt_rd_lifecycle_valid (nowriter disposed : Duration) (disc : bool) : Z :=
  if negb (qos_valid_duration nowriter =? 0) || negb (qos_valid_duration disposed =? 0) then BAD_PARAMETER
  else if negb disc && negb (bool_decide (nowriter = INFINITE) && bool_decide (disposed = INFINITE)) then 0
  else OK.

(** [qt_os_valid] and [qt_partition_valid] *)
Definition qt_os_valid (v : OctetSeq) : Z :=
  let null := match os_buffer v with None => true | Some _ => false end in
  ok_if (negb ((os_maximum v <? os_length v) || negb (os_length v =? 0) && null ||
               negb null && (os_maximum v =? 0) || negb (os_esize v =? 1))).

Definition qt_partition_valid (v : StringSeq) : option Z :=
  let null := match ss_buffer v with None => true | Some _ => false end in
  if (ss_maximum v <? ss_length v) || negb (ss_length v =? 0) && null || negb null && (ss_maximum v =? 0)
  then Some BAD_PARAMETER
  else
    names ← (if ss_length v =? 0 then Some [] else b ← ss_buffer v; zslice b 0 (ss_length v));
    Some (ok_if (forallb (fun s => match s with Some _ => true | None => false end) names)).

Definition qt_boolean_valid (v : Z) : Z := ok_if ((0 <=? v) && (v <=? 1)).
Definition qt_timestamp_valid (k : Z) : Z := ok_if (k <=? BY_SOURCE_TIMESTAMP).
Definition qt_shared_excl_valid (k : Z) : Z := ok_if (k <=? EXCLUSIVE_OWNERSHIP).
Definition qt_durability_valid (k : Z) (disc : bool) : Z :=
  ok_if (k <=? (if disc then PERSISTENT_DURABILITY else TRANSIENT_LOCAL_DURABILITY)).
Definition qt_reliability_valid (k : Z) (d : Duration) : Z :=
  if RELIABLE_RELIABILITY <? k then BAD_PARAMETER else qos_valid_duration d.

(** [qos_type_ops [t]->valid_fct]; integers have none. *)
Definition valid_fct (t : QTYPE) (v : PolVal) (disc : bool) : option Z :=
  match t, v with
  | QT_INTEGER, PInt _ => Some OK
  | QT_BOOLEAN, PBool v => Some (qt_boolean_valid v)
  | QT_OCTETSEQ, POctets v => Some (if disc then OK else qt_os_valid v)
  | QT_OCTETSEQ, PString _ => if disc then Some OK else None
  | QT_PARTITION, PNames v => if disc then Some OK else qt_partition_valid v
  | QT_PARTITION, PStrings _ => if disc then Some OK else None
  | QT_DURATION, PDuration d => Some (qos_valid_duration d)
  | QT_TIMESTAMP_TYPE, PKind k => Some (qt_timestamp_valid k)
  | QT_SHARED_EXCLUSIVE, PKind k => Some (qt_shared_excl_valid k)
  | QT_DURABILITY, PKind k => Some (qt_durability_valid k disc)
  | QT_DURABILITY_SERVICE, PDurService v => Some (qt_durability_service_valid v)
  | QT_PRESENTATION, PPresentation s c o => Some (qt_presentation_valid s c o)
  | QT_LIVELINESS, PLiveliness k d => Some (qt_liveliness_valid k d)
  | QT_RELIABILITY, PReliability k d => Some (qt_reliability_valid k d)
  | QT_HISTORY, PHistory k d => Some (qt_history_valid k d)
  | QT_RESOURCE_LIMITS, PLimits l => Some (qt_resource_limits_valid l)
  | QT_READER_DATA_LIFECYCLE, PLifecycle n d => Some (qt_rd_lifecycle_valid n d disc)
  | _, _ => None
  end.

(** Every policy of a list is valid: [qos_valid_qos_list] and
    [qos_valid_qos_group], whose third argument is not used. *)
Fixpoint valid_all (ps : list QPAR) (q : QosRec) : option bool :=
  match ps with
  | [] => Some true
  | p :: ps =>
      rc ← valid_fct (qtype (qos_desc p)) (q p) false;
      if negb (rc =? 0) then Some false else valid_all ps q
  end.

Definition in_group (g : QGROUP) (p : QPAR) : bool := offsets (qos_desc p) g.

Definition qos_valid_qos_group (g : QGROUP) (q : QosRec) : option bool :=
  valid_all (List.filter (in_group g) all_qpars) q.

(** [qos_participant_list], [qos_publisher_list] and [qos_subscriber_list] *)
Inductive QLIST := QL_PARTICIPANT | QL_PUBLISHER | QL_SUBSCRIBER.

Definition qos_ldesc (l : QLIST) : list QPAR :=
  match l with
  | QL_PARTICIPANT => [QP_USER_DATA; QP_ENTITY_FACTORY]
  | QL_PUBLISHER | QL_SUBSCRIBER => [QP_PRESENTATION; QP_PARTITION; QP_GROUP_DATA; QP_ENTITY_FACTORY]
  end.

Definition qos_valid_qos_list (l : QLIST) (q : QosRec) : option bool := valid_all (qos_ldesc l) q.

(** [qos_valid_topic_qos], [qos_valid_writer_qos] and [qos_valid_reader_qos] *)
Definition qos_valid_entity (g : QGROUP) (q : QosRec) : option bool :=
  match q QP_HISTORY, q QP_RESOURCE_LIMITS with
  | PHistory kind depth, PLimits l =>
      if (kind =? KEEP_LAST_HISTORY) && (⟦max_samples_per_instance l⟧32 <? ⟦depth⟧32) then Some false
      else qos_valid_qos_group g q
  | _, _ => None
  end.

Definition qos_valid_topic_qos : QosRec -> option bool := qos_valid_entity QG_TOPIC.
Definition qos_valid_writer_qos : QosRec -> option bool := qos_valid_entity QG_WRITER.
Definition qos_valid_reader_qos : QosRec -> option bool := qos_valid_entity QG_READER.

(** [qos_init_default_group] and [qos_init_default_list]: the default values
    of the fields of a group. *)
Definition qos_default (g : QGROUP) : QosRec := fun p =>
  let d := qos_desc p in
  if is_disc g && bool_decide (p ∈ [QP_USER_DATA; QP_TOPIC_DATA; QP_GROUP_DATA]) then PString None
  else if is_disc g && bool_decide (p = QP_PARTITION) then PStrings None
  else init d.

(** ** Compatibility of a writer and a reader *)

(** The test of [qt_duration_match] and [qt_liveliness_match]: the offered
    duration is not longer than the requested one. *)
Definition duration_match (w r : Duration) : bool :=
  negb ((sec r <? sec w) || (sec w =? sec r) && (nanosec r <? nanosec w)).

(** [qos_presentation_match] *)
Definition qos_presentation_match (w_sc r_sc w_co r_co w_order r_order : Z) : bool :=
  (r_sc <=? w_sc) && ((r_co =? 0) || (w_co =? r_co)) && ((r_order =? 0) || (w_order =? r_order)).

(** The duration at an offset. *)
Definition uni_duration (f : uni_field) (q : UniQos) : option Duration :=
  match f with
  | F_deadline => Some (deadline q)
  | F_latency_budget => Some (latency_budget q)
  | F_lifespan => Some (lifespan q)
  | _ => None
  end.

Definition qt_duration_match (w r : UniQos) (ofs : option uni_field) : option bool :=
  f ← ofs; dw ← uni_duration f w; dr ← uni_duration f r; Some (duration_match dw dr).
Definition qt_timestamp_match (w r : UniQos) : bool := destination_order_kind r <=? destination_order_kind w.
Definition qt_shared_excl_match (w r : UniQos) : bool := ownership_kind w =? ownership_kind r.
Definition qt_durability_match (w r : UniQos) : bool := durability_kind r <=? durability_kind w.
Definition qt_presentation_match (w r : UniQos) : bool :=
  qos_presentation_match (presentation_access_scope w) (presentation_access_scope r)
    (presentation_coherent_access w) (presentation_coherent_access r)
    (presentation_ordered_access w) (presentation_ordered_access r).
Definition qt_liveliness_match (w r : UniQos) : bool :=
  negb (liveliness_kind w <? liveliness_kind r) &&
  duration_match (liveliness_lease_duration w) (liveliness_lease_duration r).
Definition qt_reliability_match (w r : UniQos) : bool := reliability_kind r <=? reliability_kind w.

(** [qos_type_ops [t]->match_fct], for the types that have one. *)
Definition match_fct (t : QTYPE) (w r : UniQos) (ofs : option uni_field) : option bool :=
  match t with
  | QT_DURATION => qt_duration_match w r ofs
  | QT_TIMESTAMP_TYPE => Some (qt_timestamp_match w r)
  | QT_SHARED_EXCLUSIVE => Some (qt_shared_excl_match w r)
  | QT_DURABILITY => Some (qt_durability_match w r)
  | QT_PRESENTATION => Some (qt_presentation_match w r)
  | QT_LIVELINESS => Some (qt_liveliness_match w r)
  | QT_RELIABILITY => Some (qt_reliability_match w r)
  | _ => None
  end.

(** The presentation of an endpoint: that of its publisher or subscriber when
    it is given. *)
Definition presentation (q : UniQos) (g : option GroupQos) : Z * Z * Z :=
  match g with
  | Some g => (g_access_scope g, g_coherent_access g, g_ordered_access g)
  | None => (presentation_access_scope q, presentation_coherent_access q, presentation_ordered_access q)
  end.

(** [qos_match]: whether the two are compatible, and otherwise the id of the
    policy that is not. *)
Fixpoint qos_match_loop (ps : list QPAR) (w : UniQos) (wg : option GroupQos) (r : UniQos) (rg : option GroupQos)
  : option (bool * Z) :=
  match ps with
  | [] => Some (true, 0)
  | p :: ps =>
      let d := qos_desc p in
      if negb (check d) then qos_match_loop ps w wg r rg
      else
        let '(w_sc, w_co, w_or) := presentation w wg in
        let '(r_sc, r_co, r_or) := presentation r rg in
        if in_parent d && bool_decide (qtype d = QT_PRESENTATION) &&
           negb (qos_presentation_match w_sc r_sc w_co r_co w_or r_or)
        then Some (false, policy_id QP_PRESENTATION)
        else
          m ← match_fct (qtype d) w r (uni_ofs d);
          if negb m then Some (false, policy_id p) else qos_match_loop ps w wg r rg
  end.

Definition qos_match (w : UniQos) (wg : option GroupQos) (r : UniQos) (rg : option GroupQos) : option (bool * Z) :=
  qos_match_loop all_qpars w wg r rg.

(** [wildcards] *)
Fixpoint wildcards_from (bslash : bool) (sp : list Z) : bool :=
  match sp with
  | [] => false
  | c :: sp =>
      if c =? 92 then wildcards_from true sp
      else if negb bslash && ((c =? 91) || (c =? 63) || (c =? 42)) then true
      else wildcards_from false sp
  end.

Definition wildcards (sp : list Z) : bool := wildcards_from false sp.

(** [DEF_NPARTITIONS] *)
Definition DEF_NPARTITIONS : Z := 16.

Section Partition.
(** Whether [xmalloc] grants a block; [strdup] is not called. *)
Context (xmalloc_ok : Z -> bool) (strdup_ok : list Z -> bool).

(** The names of a partition set, as the code puts them in its arrays; a
    name is a C string, [None] a NULL one. *)
Definition part_names (p : option (list (option (list Z)))) : list (list Z * bool) :=
  match p with
  | None | Some [] => [([], false)]
  | Some names => (fun s => match s with Some s => (s, wildcards s) | None => ([], false) end) <$> names
  end.

(** How many of them are in the arrays. *)
Definition part_count (p : option (list (option (list Z)))) : Z :=
  match p with None => 0 | Some names => zlen names end.

(** One comparison; [res] is the result so far. *)
Definition part_match (res : Z) (w r : list Z * bool) : Z :=
  let '(ws, ww) := w in
  let '(rs, rw) := r in
  if (ww : bool) && negb rw then nmatch strdup_ok (Some ws) (Some rs) 0
  else if negb ww && (rw : bool) then nmatch strdup_ok (Some rs) (Some ws) 0
  else if negb ww && negb rw then strcmp ws rs
  else res.

(** The two loops, left at the first match. *)
Fixpoint part_inner (res : Z) (w : list Z * bool) (rs : list (list Z * bool)) : Z :=
  match rs with
  | [] => res
  | r :: rs => let res := part_match res w r in if res =? 0 then 0 else part_inner res w rs
  end.

Fixpoint part_outer (res : Z) (ws rs : list (list Z * bool)) : Z :=
  match ws with
  | [] => res
  | w :: ws => let res := part_inner res w rs in if res =? 0 then 0 else part_outer res ws rs
  end.

(** [qos_same_partition]; a NULL set is [None]. *)
Definition qos_same_partition (wp rp : option (list (option (list Z)))) : bool :=
  match wp, rp with
  | None, None => true
  | _, _ =>
      let n := part_count wp + part_count rp in
      if (DEF_NPARTITIONS <? n) && negb (xmalloc_ok (8 * n) && xmalloc_ok n) then false
      else part_outer 1 (part_names wp) (part_names rp) =? 0
  end.

End Partition.
