(* ===== verification/QosProps.v ===== *)
(** Compatibility of a writer and a reader: [qos_match] decides the relation
    between what is offered and what is requested, and [qos_same_partition]
    whether two partition sets have a name in common. *)

From S2P Require Import Prelude CLib TypeData NMatch Qos.
From stdpp Require Import list.

#[local] Open Scope Z_scope.
#[local] Set Warnings "-clear-no-such-hyp".

(** ** Durations *)

(** A duration in nanoseconds; the infinite one is longer than any other. *)
Definition ns (d : Duration) : Z := sec d * 1000000000 + nanosec d.

Definition valid_duration (d : Duration) : Prop := qos_valid_duration d = OK /\ 0 <= nanosec d.

Lemma valid_duration_cases d :
  valid_duration d -> d = INFINITE \/ 0 <= sec d < INFINITE_SEC /\ 0 <= nanosec d < 1000000000.
Proof.
  intros [Hv Hn]. unfold qos_valid_duration in Hv. destruct d as [s n]. cbn in *.
  destruct ((s =? INFINITE_SEC) && (n =? INFINITE_NSEC)) eqn:E; zbool; [left; by subst|].
  destruct ((s <? 0) || (INFINITE_SEC <=? s) || (1000000000 <=? n)) eqn:E2; [done|]. right. zbool. lia.
Qed.

Lemma duration_match_ns w r :
  valid_duration w -> valid_duration r -> duration_match w r = true <-> ns w <= ns r.
Proof.
  intros Hw%valid_duration_cases Hr%valid_duration_cases. unfold duration_match, ns.
  rewrite negb_true_iff, orb_false_iff, andb_false_iff, Z.ltb_ge, Z.eqb_neq, Z.ltb_ge.
  unfold INFINITE_SEC in *. destruct Hw as [->|Hw], Hr as [->|Hr]; cbn [sec nanosec INFINITE];
    unfold INFINITE_SEC, INFINITE_NSEC; lia.
Qed.

(** ** What is offered against what is requested *)

Section Compat.
Context (w : UniQos) (wg : option GroupQos) (r : UniQos) (rg : option GroupQos).

(** The presentation of an endpoint: that of its publisher or subscriber
    where one is given, else its own. *)
Definition scope_of (q : UniQos) (g : option GroupQos) : Z :=
  from_option g_access_scope (presentation_access_scope q) g.
Definition coherent_of (q : UniQos) (g : option GroupQos) : Z :=
  from_option g_coherent_access (presentation_coherent_access q) g.
Definition ordered_of (q : UniQos) (g : option GroupQos) : Z :=
  from_option g_ordered_access (presentation_ordered_access q) g.

Definition presentation_ok (wg rg : option GroupQos) : Prop :=
  scope_of r rg <= scope_of w wg /\
  (coherent_of r rg <> 0 -> coherent_of w wg = coherent_of r rg) /\
  (ordered_of r rg <> 0 -> ordered_of w wg = ordered_of r rg).

(** Policy [p] of the writer satisfies the reader. *)
Definition compatible (p : QPAR) : Prop :=
  match p with
  | QP_DURABILITY => durability_kind r <= durability_kind w
  | QP_PRESENTATION => presentation_ok wg rg
  | QP_DEADLINE => ns (deadline w) <= ns (deadline r)
  | QP_LATENCY_BUDGET => ns (latency_budget w) <= ns (latency_budget r)
  | QP_OWNERSHIP => ownership_kind w = ownership_kind r
  | QP_LIVELINESS =>
      liveliness_kind r <= liveliness_kind w /\
      ns (liveliness_lease_duration w) <= ns (liveliness_lease_duration r)
  | QP_RELIABILITY => reliability_kind r <= reliability_kind w
  | QP_DESTINATION_ORDER => destination_order_kind r <= destination_order_kind w
  | _ => True
  end.

(** The code compares the presentation twice, the second time without the
    publisher and the subscriber.  The second comparison changes nothing when
    what the endpoints have themselves is compatible whenever what they have
    from their publisher and subscriber is; so when neither is given. *)
Definition own_agrees : Prop := presentation_ok wg rg -> presentation_ok None None.

Definition tested (p : QPAR) : Prop := compatible p /\ (p = QP_PRESENTATION -> presentation_ok None None).

Lemma tested_compatible p : own_agrees -> tested p <-> compatible p.
Proof. intros Ho. split; [by intros [? _]|]. intros Hc. split; [done|]. intros ->. by apply Ho. Qed.

Definition durations_valid (q : UniQos) : Prop :=
  valid_duration (deadline q) /\ valid_duration (latency_budget q) /\ valid_duration (liveliness_lease_duration q).

Context (Hw : durations_valid w) (Hr : durations_valid r).

Lemma presentation_match_iff a b c d e f :
  qos_presentation_match a b c d e f = true <-> b <= a /\ (d <> 0 -> c = d) /\ (f <> 0 -> e = f).
Proof.
  unfold qos_presentation_match. rewrite !andb_true_iff, !orb_true_iff, Z.leb_le, !Z.eqb_eq. lia.
Qed.

(** The two tests of a checked policy. *)
Lemma policy_match p :
  check (qos_desc p) = true ->
  exists m, match_fct (qtype (qos_desc p)) w r (uni_ofs (qos_desc p)) = Some m /\
    (tested p <->
     (bool_decide (p = QP_PRESENTATION) = true ->
      let '(w_sc, w_co, w_or) := presentation w wg in
      let '(r_sc, r_co, r_or) := presentation r rg in
      qos_presentation_match w_sc r_sc w_co r_co w_or r_or = true) /\ m = true).
Proof.
  destruct Hw as (Hw1 & Hw2 & Hw3), Hr as (Hr1 & Hr2 & Hr3).
  intros Hc. destruct p; try discriminate Hc; (eexists; split; [reflexivity|]); unfold tested; cbn [compatible];
    unfold qt_timestamp_match, qt_shared_excl_match, qt_durability_match, qt_presentation_match, qt_liveliness_match,
      qt_reliability_match; rewrite ?bool_decide_false by done.
  - rewrite Z.leb_le. naive_solver.
  - rewrite bool_decide_true by done.
    assert (Hp : (let '(w_sc, w_co, w_or) := presentation w wg in let '(r_sc, r_co, r_or) := presentation r rg in
              qos_presentation_match w_sc r_sc w_co r_co w_or r_or = true) <-> presentation_ok wg rg)
      by (destruct wg, rg; apply presentation_match_iff).
    rewrite Hp, presentation_match_iff. unfold presentation_ok at 2. simpl. tauto.
  - rewrite duration_match_ns by done. naive_solver.
  - rewrite duration_match_ns by done. naive_solver.
  - rewrite Z.eqb_eq. naive_solver.
  - rewrite andb_true_iff, negb_true_iff, Z.ltb_ge, duration_match_ns by done. naive_solver.
  - rewrite Z.leb_le. naive_solver.
  - rewrite Z.leb_le. naive_solver.
Qed.

Lemma unchecked_tested p : check (qos_desc p) = false -> tested p.
Proof. intros Hc. split; [by destruct p|]. by intros ->. Qed.

Lemma is_presentation p : in_parent (qos_desc p) && bool_decide (qtype (qos_desc p) = QT_PRESENTATION) = bool_decide (p = QP_PRESENTATION).
Proof. by destruct p. Qed.

Lemma match_loop_ok ps :
  exists b id, qos_match_loop ps w wg r rg = Some (b, id) /\
    ((b = true /\ Forall tested ps) \/
     (b = false /\ exists ps1 p ps2, ps = ps1 ++ p :: ps2 /\ Forall tested ps1 /\ ~ tested p /\ id = policy_id p)).
Proof.
  induction ps as [|p ps IH]; cbn [qos_match_loop]; [eexists true, _; split; [done|left; done]|].
  destruct IH as (b & id & IH & Hb).
  assert (Hnext : tested p -> exists b id, qos_match_loop ps w wg r rg = Some (b, id) /\
    ((b = true /\ Forall tested (p :: ps)) \/
     (b = false /\ exists ps1 p' ps2, p :: ps = ps1 ++ p' :: ps2 /\ Forall tested ps1 /\ ~ tested p' /\ id = policy_id p'))).
  { intros Hp. exists b, id. split; [done|]. destruct Hb as [[-> Hb]|(-> & ps1 & p' & ps2 & -> & H1 & H2 & H3)].
    - left. split; [done|by constructor].
    - right. split; [done|]. exists (p :: ps1), p', ps2. split; [done|]. split; [by constructor|done]. }
  assert (Hstop : ~ tested p -> forall i, i = policy_id p -> exists b id, Some (false, i) = Some (b, id) /\
    ((b = true /\ Forall tested (p :: ps)) \/
     (b = false /\ exists ps1 p' ps2, p :: ps = ps1 ++ p' :: ps2 /\ Forall tested ps1 /\ ~ tested p' /\ id = policy_id p'))).
  { intros Hp i ->. exists false, (policy_id p). split; [done|]. right. split; [done|]. by exists [], p, ps. }
  destruct (check (qos_desc p)) eqn:Hc; cbn [negb]; [|by apply Hnext, unchecked_tested].
  destruct (policy_match p Hc) as (m & Hm & Hiff). rewrite Hm. rewrite is_presentation.
  destruct (presentation w wg) as [[a1 a2] a3], (presentation r rg) as [[b1 b2] b3].
  destruct (bool_decide (p = QP_PRESENTATION)) eqn:Hp; cbn [andb negb].
  - destruct (qos_presentation_match a1 b1 a2 b2 a3 b3) eqn:Hpm; cbn [negb].
    + destruct m; cbn; [apply Hnext, Hiff; done|]. apply Hstop; [|done]. intros [_ ?]%Hiff. done.
    + apply bool_decide_eq_true in Hp. subst p. apply Hstop; [|done]. intros [? _]%Hiff. naive_solver.
  - destruct m; cbn; [apply Hnext, Hiff; done|]. apply Hstop; [|done]. intros [_ ?]%Hiff. done.
Qed.

End Compat.

(** ** Partitions *)

(** A name without wildcards: a backslash quotes the character behind it, and
    no other character is an asterisk, a question mark or a bracket. *)
Inductive plain : list Z -> Prop :=
| plain_nil : plain []
| plain_last : plain [92]
| plain_quoted c s : plain s -> plain (92 :: c :: s)
| plain_char c s : c <> 92 -> c <> 42 -> c <> 63 -> c <> 91 -> plain s -> plain (c :: s).

(** Two names match when both are plain and equal, or when exactly one of them
    is plain and the other matches it as a pattern. *)
Definition name_match (a b : list Z) : Prop :=
  (plain a /\ plain b /\ a = b) \/
  (~ plain a /\ plain b /\ fnmatch a b 0 = 0) \/
  (plain a /\ ~ plain b /\ fnmatch b a 0 = 0).

(** The code does not see that a backslash can be quoted itself; it is right on
    names without two backslashes in a row. *)
Fixpoint single_bslashes (s : list Z) : bool :=
  match s with
  | [] => true
  | c :: s => negb ((c =? 92) && bool_decide (head s = Some 92)) && single_bslashes s
  end.

Lemma wildcards_plain s : single_bslashes s = true -> wildcards s = false <-> plain s.
Proof.
  unfold wildcards. induction s as [s IH] using (induction_ltof1 _ (@length Z)). unfold ltof in IH.
  destruct s as [|c s]; [by split; [constructor|]|]. cbn [single_bslashes wildcards_from].
  rewrite andb_true_iff. intros [Hc Hs]. destruct (Z.eqb_spec c 92) as [->|Hn].
  - destruct s as [|d s]; [by split; [constructor|]|]. cbn [head andb] in Hc. rewrite negb_true_iff, bool_decide_eq_false in Hc.
    cbn [wildcards_from]. destruct (Z.eqb_spec d 92) as [->|Hd]; [done|]. cbn [negb andb].
    cbn [single_bslashes] in Hs. apply andb_true_iff in Hs as [_ Hs]. rewrite IH by first [done|simpl; lia].
    split; [by constructor|]. inversion 1; by subst.
  - cbn [negb andb]. destruct ((c =? 91) || (c =? 63) || (c =? 42)) eqn:E; zbool.
    + split; [done|]. inversion 1; subst; lia.
    + rewrite IH by first [done|simpl; lia]. split; [intros; by constructor|]. inversion 1; by subst.
Qed.

(** The names of a partition set; an empty set stands for the empty name. *)
Definition names (p : option (list (option (list Z)))) : list (list Z) :=
  match p with
  | None | Some [] => [[]]
  | Some l => default [] <$> l
  end.

Section Part.
Context (xmalloc_ok : Z -> bool) (strdup_ok : list Z -> bool).

Definition tag (s : list Z) : list Z * bool := (s, wildcards s).

Lemma part_names_tag p : part_names p = tag <$> names p.
Proof.
  assert (H : forall l : list (option (list Z)),
    (fun s => match s with Some s => (s, wildcards s) | None => ([], false) end) <$> l = tag <$> (default [] <$> l)).
  { intros l. rewrite <- list_fmap_compose. apply list_fmap_ext. intros i [s|] _; done. }
  destruct p as [[|s l]|]; [done|apply (H (s :: l))|done].
Qed.

Lemma nmatch0 a b : nmatch strdup_ok (Some a) (Some b) 0 = 0 <-> fnmatch a b 0 = 0.
Proof.
  unfold nmatch. rewrite !Z.land_0_l. cbn [negb Z.eqb andb]. change (Z.lor 0 0) with 0. unfold NM_MATCH, NM_NOMATCH.
  destruct (Z.eqb_spec (fnmatch a b 0) 0) as [E|E]; [by rewrite E|]. split; [done|by intros ?].
Qed.

Lemma part_match_iff res a b : single_bslashes a = true -> single_bslashes b = true ->
  res <> 0 -> part_match strdup_ok res (tag a) (tag b) = 0 <-> name_match a b.
Proof.
  intros Ha%wildcards_plain Hb%wildcards_plain Hres. unfold part_match, tag, name_match. rewrite <- Ha, <- Hb.
  destruct (wildcards a), (wildcards b); cbn [andb negb].
  - naive_solver.
  - rewrite nmatch0. naive_solver.
  - rewrite nmatch0. naive_solver.
  - rewrite strcmp_eq. naive_solver.
Qed.

Lemma part_inner_iff res a rs :
  single_bslashes a = true -> Forall (fun b => single_bslashes b = true) rs ->
  res <> 0 -> part_inner strdup_ok res (tag a) (tag <$> rs) = 0 <-> Exists (name_match a) rs.
Proof.
  intros Ha Hrs. revert res. induction Hrs as [|b rs Hb Hrs IH]; intros res Hres.
  - split; [done|by intros ?%Exists_nil].
  - rewrite fmap_cons, Exists_cons, <- (part_match_iff res a b Ha Hb Hres). cbn [part_inner].
    destruct (Z.eqb_spec (part_match strdup_ok res (tag a) (tag b)) 0) as [E|E]; [tauto|]. rewrite IH by done. tauto.
Qed.

Lemma part_outer_iff res ws rs :
  Forall (fun a => single_bslashes a = true) ws -> Forall (fun b => single_bslashes b = true) rs ->
  res <> 0 -> part_outer strdup_ok res (tag <$> ws) (tag <$> rs) = 0 <-> Exists (fun a => Exists (name_match a) rs) ws.
Proof.
  intros Hws Hrs. revert res. induction Hws as [|a ws Ha Hws IH]; intros res Hres.
  - split; [done|by intros ?%Exists_nil].
  - rewrite fmap_cons, Exists_cons, <- (part_inner_iff res a rs Ha Hrs Hres). cbn [part_outer].
    destruct (Z.eqb_spec (part_inner strdup_ok res (tag a) (tag <$> rs)) 0) as [E|E]; [tauto|]. rewrite IH by done. tauto.
Qed.

Lemma same_partition_iff wp rp :
  (forall n, xmalloc_ok n = true) ->
  Forall (fun a => single_bslashes a = true) (names wp) -> Forall (fun b => single_bslashes b = true) (names rp) ->
  qos_same_partition xmalloc_ok strdup_ok wp rp = true <->
  exists a b, a ∈ names wp /\ b ∈ names rp /\ name_match a b.
Proof.
  intros Hx Hwp Hrp.
  assert (Hgen : (part_outer strdup_ok 1 (part_names wp) (part_names rp) =? 0) = true <->
                 exists a b, a ∈ names wp /\ b ∈ names rp /\ name_match a b).
  { rewrite Z.eqb_eq, !part_names_tag, part_outer_iff by done. rewrite Exists_exists. setoid_rewrite Exists_exists. naive_solver. }
  unfold qos_same_partition. destruct wp as [wp|], rp as [rp|]; rewrite ?Hx, ?andb_false_r; exact Hgen.
Qed.

End Part.
