(* ===== verification/QosSet.v ===== *)
(** Storage of QoS data (dds/uqos.c): conversion of the QoS structures of
    topics, writers and readers, local or discovered, to and from the unified
    form, and the table of unified data sets, which entities with equal QoS
    share.

    The strings are those of any implementation of [StrOps]; co/str.c is one
    ([QosStore]).  A [Strings_t] is a block of its own in [q_parts], a [Qos_t]
    one in [q_data].  An access to a block that does not exist is [None]. *)

From stdpp Require Import gmap.
From S2P Require Import Prelude CLib TypeData Scan.
From stdpp Require Import list.
From S2P Require Import Qos.

#[local] Open Scope Z_scope.

(** ** The interface of the string pool *)

Class StrOps (S : Type) := {
  s_new : list Z -> S -> option (option nat * S);
  s_ref : nat -> S -> option S;
  s_unref : nat -> S -> option S;
  s_get : S -> nat -> option (list Z)
}.

(** What it promises: a map from addresses to contents and numbers of
    references. *)
Class StrLaws (S : Type) `{StrOps S} := {
  s_view : S -> gmap nat (list Z * Z);
  s_ok : S -> Prop;
  s_get_law : forall s p, s_get s p = fst <$> s_view s !! p;
  s_pos_law : forall s p c u, s_ok s -> s_view s !! p = Some (c, u) -> 0 < u;
  s_new_law : forall s c, s_ok s -> (forall p d u, s_view s !! p = Some (d, u) -> u + 1 < 2 ^ 30) ->
    exists r s', s_new c s = Some (r, s') /\ s_ok s' /\
      match r with
      | None => s_view s' = s_view s
      | Some p =>
          (exists u, s_view s !! p = Some (c, u) /\ s_view s' = <[p := (c, u + 1)]> (s_view s)) \/
          (s_view s !! p = None /\ s_view s' = <[p := (c, 1)]> (s_view s))
      end;
  s_ref_law : forall s p c u, s_ok s -> s_view s !! p = Some (c, u) -> u + 1 < 2 ^ 30 ->
    exists s', s_ref p s = Some s' /\ s_ok s' /\ s_view s' = <[p := (c, u + 1)]> (s_view s);
  s_unref_law : forall s p c u, s_ok s -> s_view s !! p = Some (c, u) ->
    exists s', s_unref p s = Some s' /\ s_ok s' /\
      s_view s' = (if u =? 1 then delete p (s_view s) else <[p := (c, u - 1)]> (s_view s))
}.

Section Qos.
Context {S : Type} `{StrOps S}.

(** ** State *)

(** [Strings_t] *)
Record PartBlk := mkPart { p_len : Z; p_max : Z; p_buf : list (option nat) }.

(** [Qos_t] *)
Record Qos_t := mkQos { q_users : Z; q_qos : UniQos }.

Record QState := mkQState {
  q_strs : S;
  q_parts : gmap nat PartBlk;
  q_data : gmap nat Qos_t;
  qos_ht : list (list nat)
}.

Definition set_strs (s : S) (st : QState) : QState := mkQState s (q_parts st) (q_data st) (qos_ht st).
Definition set_parts (m : gmap nat PartBlk) (st : QState) : QState := mkQState (q_strs st) m (q_data st) (qos_ht st).
Definition set_qdata (m : gmap nat Qos_t) (st : QState) : QState := mkQState (q_strs st) (q_parts st) m (qos_ht st).
Definition set_qht (t : list (list nat)) (st : QState) : QState := mkQState (q_strs st) (q_parts st) (q_data st) t.

(** The memory manager: the address of a new block, of a block that is
    resized, of a new [Qos_t], and whether a table node can be had. *)
Context (part_alloc : QState -> option nat) (part_realloc : QState -> nat -> option nat).
Context (qos_alloc : QState -> option nat) (ref_ok : QState -> bool) (xmalloc_ok : Z -> bool).

(** The bytes of a data set in memory, padding and pointers included. *)
Context (uni_bytes : UniQos -> list Z).

Definition MAX_HASH : Z := 37.

(** [qos_hash (dp, sizeof (UniQos_t)) % MAX_HASH] *)
Definition qos_hash (q : UniQos) : Z := hashfc 0 (uni_bytes q) mod MAX_HASH.

(** [str_unref] of a pointer that may be NULL *)
Definition unref (p : option nat) (st : QState) : option QState :=
  match p with
  | None => Some st
  | Some p => s ← s_unref p (q_strs st); Some (set_strs s st)
  end.

Fixpoint unref_all (ps : list (option nat)) (st : QState) : option QState :=
  match ps with
  | [] => Some st
  | p :: ps => st ← unref p st; unref_all ps st
  end.

(** ** Octet sequences *)

Definition octet_seq_init : OctetSeq := mkOctetSeq 0 0 1 None.

(** [qos_octets2str] *)
Definition qos_octets2str (v : OctetSeq) (st : QState) : option (option nat * QState) :=
  if os_length v =? 0 then Some (None, st)
  else
    mem ← os_buffer v;
    bytes ← zslice mem 0 (os_length v);
    '(p, s) ← s_new bytes (q_strs st);
    Some (p, set_strs s st).

(** [qos_str2octets]; the pointer that is tested is the one of the sequence,
    not the new block. *)
Definition qos_str2octets (s : option (list Z)) : OctetSeq * Z :=
  let sp := octet_seq_init in
  match s with
  | None => (sp, OK)
  | Some d =>
      let null := match os_buffer sp with None => true | Some _ => false end in
      if null || (os_maximum sp <? zlen d) then
        if null then (sp, retcode DDS_RETCODE_OUT_OF_RESOURCES)
        else (mkOctetSeq (zlen d) (zlen d) (os_esize sp) (Some d), OK)
      else (mkOctetSeq (os_maximum sp) (zlen d) (os_esize sp) (Some d), OK)
  end.

(** The string pointer at an offset. *)
Definition uni_string (f : uni_field) (q : UniQos) : option (option nat) :=
  match f with
  | F_user_data => Some (user_data q)
  | F_topic_data => Some (topic_data q)
  | F_group_data => Some (group_data q)
  | _ => None
  end.

Definition set_uni_string (f : uni_field) (p : option nat) (q : UniQos) : option UniQos :=
  match f with
  | F_user_data => Some (set_user_data p q)
  | F_topic_data => Some (set_topic_data p q)
  | F_group_data => Some (set_group_data p q)
  | _ => None
  end.

(** [qt_os_set]: the source and the destination after the call. *)
Definition qt_os_set (src : PolVal) (q : UniQos) (f : uni_field) (disc : bool) (st : QState)
  : option (PolVal * UniQos * QState) :=
  match src, disc with
  | POctets v, false =>
      '(p, st) ← qos_octets2str v st; q ← set_uni_string f p q; Some (src, q, st)
  | PString p, true => q ← set_uni_string f p q; Some (PString None, q, st)
  | _, _ => None
  end.

(** [qt_os_update] *)
Definition qt_os_update (src : PolVal) (q : UniQos) (f : uni_field) (disc : bool) (st : QState)
  : option (PolVal * UniQos * QState) :=
  old ← uni_string f q;
  st ← unref old st;
  qt_os_set src q f disc st.

(** ** Partitions *)

(** The strings of the names, in order. *)
Fixpoint new_names (names : list (option (list Z))) (st : QState) : option (list (option nat) * QState) :=
  match names with
  | [] => Some ([], st)
  | n :: names =>
      n ← n;
      '(p, s) ← s_new (n ++ [0]) (q_strs st);
      '(ps, st) ← new_names names (set_strs s st);
      Some (p :: ps, st)
  end.

Definition seq_names (v : StringSeq) : option (list (option (list Z))) :=
  if ss_length v =? 0 then Some [] else b ← ss_buffer v; zslice b 0 (ss_length v).

(** [qt_partition_set] *)
Definition qt_partition_set (src : PolVal) (q : UniQos) (disc : bool) (st : QState)
  : option (PolVal * UniQos * QState) :=
  match src, disc with
  | PNames v, false =>
      if ss_length v =? 0 then Some (src, set_partition None q, st)
      else
        match part_alloc st with
        | None => Some (src, set_partition None q, st)
        | Some b =>
            names ← seq_names v;
            '(ps, st) ← new_names names st;
            let blk := mkPart (ss_length v) (ss_length v) ps in
            Some (src, set_partition (Some b) q, set_parts (<[b := blk]> (q_parts st)) st)
        end
  | PStrings p, true => Some (PStrings (partition q), set_partition p q, st)
  | _, _ => None
  end.

(** What [strcmp] sees when it is given a [String_t *]: the bytes of the
    length, its first member. *)
Fixpoint until_nul (l : list Z) : list Z :=
  match l with
  | [] => []
  | c :: l => if c =? 0 then [] else c :: until_nul l
  end.

Definition raw_string (s : list Z) : list Z := until_nul (le_bytes 8 (zlen s)).

(** The last loop of [qt_partition_update], from position [i]. *)
Fixpoint update_names (i : Z) (names : list (option (list Z))) (buf : list (option nat)) (st : QState)
  : option (list (option nat) * QState) :=
  match names with
  | [] => Some (buf, st)
  | n :: names =>
      n ← n;
      old ← zget buf i;
      same ← (match old with
              | None => Some false
              | Some p => d ← s_get (q_strs st) p; Some (strcmp n (raw_string d) =? 0)
              end);
      if (same : bool) then update_names (i + 1) names buf st
      else
        st ← unref old st;
        '(p, s) ← s_new (n ++ [0]) (q_strs st);
        buf ← zset buf i p;
        update_names (i + 1) names buf (set_strs s st)
  end.

(** [qt_partition_update] of a local entity with a partition, to a set that
    is not empty.  A block that moves when it shrinks is used through its old
    address. *)
Definition update_partition (b : nat) (v : StringSeq) (q : UniQos) (st : QState) : option (UniQos * QState) :=
  names ← seq_names v;
  blk ← q_parts st !! b;
  let n := ss_length v in
  let finish b blk st :=
    '(buf, st) ← update_names 0 names (p_buf blk) st;
    Some (set_partition (Some b) q, set_parts (<[b := mkPart (p_len blk) (p_max blk) buf]> (q_parts st)) st) in
  if (p_len blk <? n) && (p_max blk <? n) then
    match part_realloc st b with
    | None => Some (set_partition None q, st)
    | Some b' =>
        let blk := mkPart n n (ztake (p_len blk) (p_buf blk) ++ replicate (Z.to_nat (n - p_len blk)) None) in
        finish b' blk (set_parts (delete b (q_parts st)) st)
    end
  else if n <? p_len blk then
    st ← unref_all (ztake (p_len blk - n) (zdrop n (p_buf blk))) st;
    match part_realloc st b with
    | None => Some (set_partition None q, st)
    | Some b' =>
        if bool_decide (b' = b) then finish b (mkPart n n (ztake n (p_buf blk))) st else None
    end
  else finish b blk st.

(** [qt_partition_update] *)
Definition qt_partition_update (src : PolVal) (q : UniQos) (disc : bool) (st : QState)
  : option (PolVal * UniQos * QState) :=
  match src, disc with
  | PNames v, false =>
      match partition q with
      | None => if ss_length v =? 0 then Some (src, q, st) else qt_partition_set src q disc st
      | Some b =>
          if ss_length v =? 0 then
            blk ← q_parts st !! b;
            st ← unref_all (ztake (p_len blk) (p_buf blk)) st;
            Some (src, set_partition None q, set_parts (delete b (q_parts st)) st)
          else '(q, st) ← update_partition b v q st; Some (src, q, st)
      end
  | PStrings p, true => Some (PStrings (partition q), set_partition p q, st)
  | _, _ => None
  end.

(** ** Conversion to the unified form *)

Definition set_uni_duration (f : uni_field) (d : Duration) (q : UniQos) : option UniQos :=
  match f with
  | F_deadline => Some (set_deadline d q)
  | F_latency_budget => Some (set_latency_budget d q)
  | F_lifespan => Some (set_lifespan d q)
  | _ => None
  end.

Definition set_uni_int (f : uni_field) (v : Z) (q : UniQos) : option UniQos :=
  match f with
  | F_ownership_strength => Some (set_ownership_strength v q)
  | F_transport_priority => Some (set_transport_priority v q)
  | _ => None
  end.

Definition qt_int_set (v : Z) (q : UniQos) (ofs : option uni_field) : option UniQos := f ← ofs; set_uni_int f v q.
Definition qt_boolean_set (v : Z) (q : UniQos) : UniQos := set_no_autodispose (if v =? 0 then 1 else 0) q.
Definition qt_duration_set (d : Duration) (q : UniQos) (ofs : option uni_field) : option UniQos :=
  f ← ofs; set_uni_duration f d q.
Definition qt_timestamp_set (k : Z) (q : UniQos) : UniQos := set_destination_order k q.
Definition qt_shared_excl_set (k : Z) (q : UniQos) : UniQos := set_ownership k q.
Definition qt_durability_set (k : Z) (q : UniQos) : UniQos := set_durability k q.
Definition qt_durability_service_set (v : DurabilityService) (q : UniQos) : UniQos := q.
Definition qt_presentation_set (s c o : Z) (q : UniQos) : UniQos := set_presentation s c o q.
Definition qt_liveliness_set (k : Z) (d : Duration) (q : UniQos) : UniQos := set_liveliness k d q.
Definition qt_reliability_set (k : Z) (d : Duration) (q : UniQos) : UniQos := set_reliability k d q.
Definition qt_history_set (k d : Z) (q : UniQos) : UniQos := set_history k d q.
Definition qt_resource_limits_set (l : ResourceLimits) (q : UniQos) : UniQos := set_resource_limits l q.

(** The functions above, by type; the durability service is not stored. *)
Definition qt_plain_set (t : QTYPE) (src : PolVal) (q : UniQos) (ofs : option uni_field) : option UniQos :=
  match t, src with
  | QT_INTEGER, PInt v => qt_int_set v q ofs
  | QT_BOOLEAN, PBool v => Some (qt_boolean_set v q)
  | QT_DURATION, PDuration d => qt_duration_set d q ofs
  | QT_TIMESTAMP_TYPE, PKind k => Some (qt_timestamp_set k q)
  | QT_SHARED_EXCLUSIVE, PKind k => Some (qt_shared_excl_set k q)
  | QT_DURABILITY, PKind k => Some (qt_durability_set k q)
  | QT_DURABILITY_SERVICE, PDurService v => Some (qt_durability_service_set v q)
  | QT_PRESENTATION, PPresentation s c o => Some (qt_presentation_set s c o q)
  | QT_LIVELINESS, PLiveliness k d => Some (qt_liveliness_set k d q)
  | QT_RELIABILITY, PReliability k d => Some (qt_reliability_set k d q)
  | QT_HISTORY, PHistory k d => Some (qt_history_set k d q)
  | QT_RESOURCE_LIMITS, PLimits l => Some (qt_resource_limits_set l q)
  | _, _ => None
  end.

(** [qos_type_ops [t]->set_fct]; a type without one is left out. *)
Definition set_fct (t : QTYPE) (src : PolVal) (q : UniQos) (ofs : option uni_field) (disc : bool) (st : QState)
  : option (PolVal * UniQos * QState) :=
  match t with
  | QT_OCTETSEQ => f ← ofs; qt_os_set src q f disc st
  | QT_PARTITION => qt_partition_set src q disc st
  | QT_READER_DATA_LIFECYCLE => Some (src, q, st)
  | _ => q ← qt_plain_set t src q ofs; Some (src, q, st)
  end.

(** [qos_type_ops [t]->update_fct] *)
Definition update_fct (t : QTYPE) (src : PolVal) (q : UniQos) (ofs : option uni_field) (disc : bool) (st : QState)
  : option (PolVal * UniQos * QState) :=
  match t with
  | QT_OCTETSEQ => f ← ofs; qt_os_update src q f disc st
  | QT_PARTITION => qt_partition_update src q disc st
  | QT_READER_DATA_LIFECYCLE => None
  | _ => q ← qt_plain_set t src q ofs; Some (src, q, st)
  end.

(** The policies that are stored with the reader itself. *)
Definition kept_apart (p : QPAR) : bool :=
  match p with QP_TIME_BASED_FILTER | QP_READER_DATA_LIFECYCLE => true | _ => false end.

Definition uni_zero : UniQos :=
  mkUniQos None None None None 0 0 0 0 0 0 0 0 0 0 ZERO ZERO 0 ZERO ZERO 0 ZERO 0 (mkLimits 0 0 0).

Definition rec_set (p : QPAR) (v : PolVal) (r : QosRec) : QosRec := fun p' => if decide (p' = p) then v else r p'.

(** [qos_set]: the source structure, which discovery data is moved out of,
    and the unified form. *)
Fixpoint qos_set_loop (ps : list QPAR) (g : QGROUP) (r : QosRec) (q : UniQos) (st : QState)
  : option (QosRec * UniQos * QState) :=
  match ps with
  | [] => Some (r, q, st)
  | p :: ps =>
      let d := qos_desc p in
      if negb (offsets d g) || kept_apart p then
        match uni_ofs d with
        | None => qos_set_loop ps g r q st
        | Some _ =>
            '(_, q, st) ← set_fct (qtype d) (if is_disc g then disc_init d else init d) q (uni_ofs d) (is_disc g) st;
            qos_set_loop ps g r q st
        end
      else
        '(v, q, st) ← set_fct (qtype d) (r p) q (uni_ofs d) (is_disc g) st;
        qos_set_loop ps g (rec_set p v r) q st
  end.

Definition qos_set (g : QGROUP) (r : QosRec) (st : QState) : option (QosRec * UniQos * QState) :=
  qos_set_loop all_qpars g r uni_zero st.

(** ** Conversion from the unified form *)

Definition uni_int (f : uni_field) (q : UniQos) : option Z :=
  match f with
  | F_ownership_strength => Some (ownership_strength q)
  | F_transport_priority => Some (transport_priority q)
  | _ => None
  end.

Definition qt_int_get (q : UniQos) (ofs : option uni_field) : option PolVal := f ← ofs; PInt <$> uni_int f q.
Definition qt_boolean_get (q : UniQos) : PolVal := PBool (if no_autodispose q =? 0 then 1 else 0).
Definition qt_duration_get (q : UniQos) (ofs : option uni_field) : option PolVal := f ← ofs; PDuration <$> uni_duration f q.
Definition qt_timestamp_get (q : UniQos) : PolVal := PKind (destination_order_kind q).
Definition qt_shared_excl_get (q : UniQos) : PolVal := PKind (ownership_kind q).
Definition qt_durability_get (q : UniQos) : PolVal := PKind (durability_kind q).
Definition qt_durability_service_get (q : UniQos) : PolVal := PDurService qos_durability_service_init.
Definition qt_presentation_get (q : UniQos) : PolVal :=
  PPresentation (presentation_access_scope q) (presentation_coherent_access q) (presentation_ordered_access q).
Definition qt_liveliness_get (q : UniQos) : PolVal := PLiveliness (liveliness_kind q) (liveliness_lease_duration q).
Definition qt_reliability_get (q : UniQos) : PolVal := PReliability (reliability_kind q) (reliability_max_blocking_time q).
Definition qt_history_get (q : UniQos) : PolVal := PHistory (history_kind q) (history_depth q).
Definition qt_resource_limits_get (q : UniQos) : PolVal := PLimits (resource_limits q).

(** The functions above, by type. *)
Definition qt_plain_get (t : QTYPE) (q : UniQos) (ofs : option uni_field) : option PolVal :=
  match t with
  | QT_INTEGER => qt_int_get q ofs
  | QT_BOOLEAN => Some (qt_boolean_get q)
  | QT_DURATION => qt_duration_get q ofs
  | QT_TIMESTAMP_TYPE => Some (qt_timestamp_get q)
  | QT_SHARED_EXCLUSIVE => Some (qt_shared_excl_get q)
  | QT_DURABILITY => Some (qt_durability_get q)
  | QT_DURABILITY_SERVICE => Some (qt_durability_service_get q)
  | QT_PRESENTATION => Some (qt_presentation_get q)
  | QT_LIVELINESS => Some (qt_liveliness_get q)
  | QT_RELIABILITY => Some (qt_reliability_get q)
  | QT_HISTORY => Some (qt_history_get q)
  | QT_RESOURCE_LIMITS => Some (qt_resource_limits_get q)
  | _ => None
  end.

(** The contents of a string pointer that may be NULL. *)
Definition deref (p : option nat) (st : QState) : option (option (list Z)) :=
  match p with
  | None => Some None
  | Some p => d ← s_get (q_strs st) p; Some (Some d)
  end.

(** [qt_os_get] *)
Definition qt_os_get (q : UniQos) (f : uni_field) (disc : bool) (st : QState) : option (PolVal * QState) :=
  p ← uni_string f q;
  if disc then
    match p with
    | None => Some (PString None, st)
    | Some a => s ← s_ref a (q_strs st); Some (PString p, set_strs s st)
    end
  else d ← deref p st; Some (POctets (fst (qos_str2octets d)), st).

(** The C strings of a partition, and a new reference to each of them. *)
Fixpoint part_cstrings (ps : list (option nat)) (st : QState) : option (list (option (list Z))) :=
  match ps with
  | [] => Some []
  | p :: ps => p ← p; d ← s_get (q_strs st) p; s ← cstring d; l ← part_cstrings ps st; Some (Some s :: l)
  end.

Fixpoint part_refs (ps : list (option nat)) (st : QState) : option QState :=
  match ps with
  | [] => Some st
  | None :: ps => part_refs ps st
  | Some p :: ps => s ← s_ref p (q_strs st); part_refs ps (set_strs s st)
  end.

(** [qt_partition_get] *)
Definition qt_partition_get (q : UniQos) (disc : bool) (st : QState) : option (PolVal * QState) :=
  match partition q with
  | None => Some (if disc then PStrings None else PNames (mkStringSeq 0 0 None), st)
  | Some b =>
      blk ← q_parts st !! b;
      let ps := ztake (p_len blk) (p_buf blk) in
      if disc then
        match part_alloc st with
        | None => Some (PStrings None, st)
        | Some b' =>
            st ← part_refs ps st;
            Some (PStrings (Some b'), set_parts (<[b' := mkPart (p_len blk) (p_len blk) ps]> (q_parts st)) st)
        end
      else if xmalloc_ok (p_len blk * 8) then
        names ← part_cstrings ps st;
        Some (PNames (mkStringSeq (p_len blk) (p_len blk) (Some names)), st)
      else Some (PNames (mkStringSeq 0 0 None), st)
  end.

(** [qos_type_ops [t]->get_fct] *)
Definition get_fct (t : QTYPE) (q : UniQos) (ofs : option uni_field) (disc : bool) (st : QState)
  : option (PolVal * QState) :=
  match t with
  | QT_OCTETSEQ => f ← ofs; qt_os_get q f disc st
  | QT_PARTITION => qt_partition_get q disc st
  | _ => v ← qt_plain_get t q ofs; Some (v, st)
  end.

(** [qos_get]: the fields of the structure [r] that are stored are replaced. *)
Fixpoint qos_get_loop (ps : list QPAR) (g : QGROUP) (q : UniQos) (r : QosRec) (st : QState)
  : option (QosRec * QState) :=
  match ps with
  | [] => Some (r, st)
  | p :: ps =>
      let d := qos_desc p in
      if negb (offsets d g) || kept_apart p then qos_get_loop ps g q r st
      else
        '(v, st) ← get_fct (qtype d) q (uni_ofs d) (is_disc g) st;
        qos_get_loop ps g q (rec_set p v r) st
  end.

Definition qos_get (a : nat) (g : QGROUP) (r : QosRec) (st : QState) : option (QosRec * QState) :=
  qp ← q_data st !! a;
  qos_get_loop all_qpars g (q_qos qp) r st.

(** ** The table of data sets *)

(** [qos_lookup] *)
Fixpoint qos_lookup (m : gmap nat Qos_t) (chain : list nat) (q : UniQos) : option (option nat) :=
  match chain with
  | [] => Some None
  | a :: chain =>
      qp ← m !! a;
      if bool_decide (q_qos qp = q) then Some (Some a) else qos_lookup m chain q
  end.

(** [qos_add]; a NULL result is [None]. *)
Definition qos_add (q : UniQos) (st : QState) : option (option nat * QState) :=
  chain ← zget (qos_ht st) (qos_hash q);
  hit ← qos_lookup (q_data st) chain q;
  match hit with
  | Some a =>
      qp ← q_data st !! a;
      Some (Some a, set_qdata (<[a := mkQos ⟦q_users qp + 1⟧32 (q_qos qp)]> (q_data st)) st)
  | None =>
      match qos_alloc st with
      | None => Some (None, st)
      | Some a =>
          let st := set_qdata (<[a := mkQos 1 q]> (q_data st)) st in
          if ref_ok st then
            ht ← zset (qos_ht st) (qos_hash q) (a :: chain);
            Some (Some a, set_qht ht st)
          else Some (Some a, st)
      end
  end.

(** [qos_new] *)
Definition qos_new (g : QGROUP) (r : QosRec) (st : QState) : option (option nat * QosRec * QState) :=
  '(r, q, st) ← qos_set g r st;
  '(a, st) ← qos_add q st;
  Some (a, r, st).

(** The loop of [qos_update] over the policies. *)
Fixpoint qos_update_loop (ps : list QPAR) (g : QGROUP) (r : QosRec) (q : UniQos) (st : QState)
  : option (QosRec * UniQos * QState) :=
  match ps with
  | [] => Some (r, q, st)
  | p :: ps =>
      let d := qos_desc p in
      if negb (offsets d g) || kept_apart p then qos_update_loop ps g r q st
      else
        '(v, q, st) ← update_fct (qtype d) (r p) q (uni_ofs d) (is_disc g) st;
        qos_update_loop ps g (rec_set p v r) q st
  end.

(** The node of a data set is taken out of its chain. *)
Fixpoint remove_ref (a : nat) (chain : list nat) : list nat :=
  match chain with
  | [] => []
  | b :: chain => if bool_decide (b = a) then chain else b :: remove_ref a chain
  end.

(** [qos_update]: the pointer the entity keeps afterwards, and the return
    code. *)
Definition qos_update (ap : option nat) (g : QGROUP) (r : QosRec) (st : QState)
  : option (option nat * QosRec * QState * Z) :=
  let fresh := 
    '(a, r, st') ← qos_new g r
       (match ap with
        | Some a => match q_data st !! a with
                    | Some qp => set_qdata (<[a := mkQos ⟦q_users qp - 1⟧32 (q_qos qp)]> (q_data st)) st
                    | None => st
                    end
        | None => st
        end);
    match a with
    | Some _ => Some (a, r, st', OK)
    | None =>
        st' ← (match ap with
               | Some a =>
                   qp ← q_data st' !! a;
                   Some (set_qdata (<[a := mkQos ⟦q_users qp + 1⟧32 (q_qos qp)]> (q_data st')) st')
               | None => Some st'
               end);
        Some (ap, r, st', retcode DDS_RETCODE_OUT_OF_RESOURCES)
    end in
  match ap with
  | None => fresh
  | Some a =>
      qp ← q_data st !! a;
      if 1 <? q_users qp then fresh
      else
        let prev_h := qos_hash (q_qos qp) in
        '(r, q, st) ← qos_update_loop all_qpars g r (q_qos qp) st;
        let st := set_qdata (<[a := mkQos (q_users qp) q]> (q_data st)) st in
        let new_h := qos_hash q in
        if prev_h =? new_h then Some (ap, r, st, OK)
        else
          chain ← zget (qos_ht st) prev_h;
          if bool_decide (a ∈ chain) || ref_ok st then
            ht ← zset (qos_ht st) prev_h (remove_ref a chain);
            nchain ← zget ht new_h;
            ht ← zset ht new_h (a :: nchain);
            Some (ap, r, set_qht ht st, OK)
          else Some (ap, r, st, retcode DDS_RETCODE_OUT_OF_RESOURCES)
  end.

(** [partition_free], of a block that exists *)
Definition partition_free (b : option nat) (st : QState) : option QState :=
  match b with
  | None => Some st
  | Some b =>
      blk ← q_parts st !! b;
      st ← unref_all (ztake (p_len blk) (p_buf blk)) st;
      Some (set_parts (delete b (q_parts st)) st)
  end.

(** [qos_free] *)
Definition qos_free (ap : option nat) (st : QState) : option QState :=
  match ap with
  | None => Some st
  | Some a =>
      qp ← q_data st !! a;
      let users := ⟦q_users qp - 1⟧32 in
      if negb (users =? 0) then Some (set_qdata (<[a := mkQos users (q_qos qp)]> (q_data st)) st)
      else
        let q := q_qos qp in
        chain ← zget (qos_ht st) (qos_hash q);
        ht ← zset (qos_ht st) (qos_hash q) (remove_ref a chain);
        st ← unref (user_data q) (set_qht ht st);
        st ← unref (topic_data q) st;
        st ← unref (group_data q) st;
        st ← partition_free (partition q) st;
        Some (set_qdata (delete a (q_data st)) st)
  end.

(** ** Publishers and subscribers *)

(** The fields of the temporary data set that a group keeps. *)
Definition group_of (q : UniQos) : GroupQos :=
  mkGroupQos (group_data q) (partition q) (presentation_access_scope q) (presentation_coherent_access q)
    (presentation_ordered_access q) (no_autodispose q).

Definition load_group (gp : GroupQos) (q : UniQos) : UniQos :=
  set_group_data (g_group_data gp) (set_partition (g_partition gp) q).

(** [qos_group_new], [qos_group_update] and [qos_group_get]; [temp_uq] is the
    static variable. *)
Fixpoint group_set_loop (upd : bool) (ps : list QPAR) (r : QosRec) (q : UniQos) (st : QState) : option (UniQos * QState) :=
  match ps with
  | [] => Some (q, st)
  | p :: ps =>
      let d := qos_desc p in
      '(_, q, st) ← (if upd then update_fct else set_fct) (qtype d) (r p) q (uni_ofs d) false st;
      group_set_loop upd ps r q st
  end.

Definition qos_group_new (l : QLIST) (r : QosRec) (temp_uq : UniQos) (st : QState) : option (GroupQos * UniQos * QState) :=
  '(q, st) ← group_set_loop false (qos_ldesc l) r temp_uq st; Some (group_of q, q, st).

Definition qos_group_update (gp : GroupQos) (l : QLIST) (r : QosRec) (temp_uq : UniQos) (st : QState)
  : option (GroupQos * UniQos * QState) :=
  '(q, st) ← group_set_loop true (qos_ldesc l) r (load_group gp temp_uq) st; Some (group_of q, q, st).

Fixpoint group_get_loop (ps : list QPAR) (q : UniQos) (r : QosRec) (st : QState) : option (QosRec * QState) :=
  match ps with
  | [] => Some (r, st)
  | p :: ps =>
      let d := qos_desc p in
      '(v, st) ← get_fct (qtype d) q (uni_ofs d) false st;
      group_get_loop ps q (rec_set p v r) st
  end.

Definition qos_group_get (gp : GroupQos) (l : QLIST) (r : QosRec) (temp_uq : UniQos) (st : QState)
  : option (QosRec * QState) :=
  let q := set_no_autodispose (g_no_autoenable gp)
             (set_presentation (g_access_scope gp) (g_coherent_access gp) (g_ordered_access gp)
                (load_group gp temp_uq)) in
  group_get_loop (qos_ldesc l) q r st.

(** [qos_group_free] *)
Definition qos_group_free (gp : GroupQos) (st : QState) : option (GroupQos * QState) :=
  st ← unref (g_group_data gp) st;
  st ← partition_free (g_partition gp) st;
  Some (mkGroupQos None None (g_access_scope gp) (g_coherent_access gp) (g_ordered_access gp) (g_no_autoenable gp), st).

End Qos.
