(* ===== verification/QosStore.v ===== *)
(** The table of QoS data sets (dds/uqos.c), over any string pool that keeps
    the laws of [StrLaws]: the references that data sets hold on strings are
    never more than the pool counts, so no string is used after its release,
    and data sets that entities share are not changed for one of them. *)

From stdpp Require Import gmap.
From S2P Require Import Prelude CLib TypeData Scan QosSet.
From stdpp Require Import list.
From S2P Require Import Qos.

#[local] Open Scope Z_scope.
#[local] Set Warnings "-clear-no-such-hyp".

(** ** Sums over maps *)

Section Sum.
Context {V : Type} (f : V -> Z).

Definition msum (m : gmap nat V) : Z := map_fold (fun _ v n => f v + n) 0 m.

Lemma msum_empty : msum ∅ = 0.
Proof. apply map_fold_empty. Qed.

Lemma msum_insert m a v : m !! a = None -> msum (<[a := v]> m) = f v + msum m.
Proof. intros Ha. unfold msum. rewrite map_fold_insert_L; [done| |done]. intros. lia. Qed.

Lemma msum_delete m a v : m !! a = Some v -> msum m = f v + msum (delete a m).
Proof.
  intros Ha. rewrite <- (insert_delete_id m a v Ha) at 1. apply msum_insert. apply lookup_delete_eq.
Qed.

Lemma msum_update m a v w : m !! a = Some v -> msum (<[a := w]> m) = msum m - f v + f w.
Proof.
  intros Ha. rewrite (msum_delete m a v Ha). rewrite <- insert_delete_eq, msum_insert by apply lookup_delete_eq. lia.
Qed.

Context (Hf : forall v, 0 <= f v).

Lemma msum_nonneg m : 0 <= msum m.
Proof.
  induction m as [|a v m Ha IH] using map_ind; [rewrite msum_empty; lia|].
  rewrite msum_insert by done. pose proof (Hf v). lia.
Qed.

Lemma msum_ge m a v : m !! a = Some v -> f v <= msum m.
Proof. intros Ha. rewrite (msum_delete m a v Ha). pose proof (msum_nonneg (delete a m)). lia. Qed.

Lemma msum_pos m : 0 < msum m -> exists a v, m !! a = Some v /\ 0 < f v.
Proof.
  induction m as [|a v m Ha IH] using map_ind; [rewrite msum_empty; lia|].
  rewrite msum_insert by done. intros Hs. destruct (decide (0 < f v)) as [Hv|Hv].
  - exists a, v. by rewrite lookup_insert_eq.
  - destruct IH as (b & w & Hb & Hw); [lia|]. exists b, w. rewrite lookup_insert_ne by congruence. done.
Qed.
End Sum.

(** ** The effect of the string operations *)

Definition ind (p : option nat) (x : nat) : Z := if decide (p = Some x) then 1 else 0.

Lemma ind_nonneg p x : 0 <= ind p x.
Proof. unfold ind. case_decide; lia. Qed.

Section Strings.
Context {S : Type} `{StrLaws S}.

(** The number of references and the contents of a string. *)
Definition uses (s : S) (x : nat) : Z := default 0 (snd <$> s_view s !! x).
Definition cont (s : S) (x : nat) : option (list Z) := s_get s x.

(** No count is about to overflow its 30 bits. *)
Definition roomy (s : S) : Prop := forall x, uses s x + 1 < 2 ^ 30.

(** [s'] has what [s] has, but for strings that are not used any more. *)
Definition conts_kept (s s' : S) : Prop := forall x, 0 < uses s' x -> forall c, cont s x = Some c -> cont s' x = Some c.

Lemma uses_live s x : s_ok s -> 0 < uses s x <-> exists c, cont s x = Some c.
Proof.
  intros Hs. unfold uses, cont. rewrite s_get_law. destruct (s_view s !! x) as [[c u]|] eqn:E; simpl.
  - pose proof (s_pos_law _ _ _ _ Hs E). naive_solver.
  - split; [lia|by intros [? ?]].
Qed.

Lemma uses_nonneg s x : s_ok s -> 0 <= uses s x.
Proof.
  intros Hs. unfold uses. destruct (s_view s !! x) as [[c u]|] eqn:E; simpl; [|lia].
  pose proof (s_pos_law _ _ _ _ Hs E). lia.
Qed.

Lemma s_new_eff s c :
  s_ok s -> roomy s ->
  exists r s', s_new c s = Some (r, s') /\ s_ok s' /\ (forall x, uses s' x = uses s x + ind r x) /\
    conts_kept s s' /\ (forall x, r = Some x -> cont s' x = Some c).
Proof.
  intros Hs Hr. destruct (s_new_law s c Hs) as (r & s' & Hn & Hs' & Hv).
  { intros p d u E. specialize (Hr p). unfold uses in Hr. by rewrite E in Hr. }
  exists r, s'. split; [done|]. split; [done|]. unfold conts_kept, uses, cont. setoid_rewrite s_get_law.
  destruct r as [p|].
  - destruct Hv as [(u & E & ->)|(E & ->)].
    + split; [|split].
      * intros x. unfold ind. case_decide as Hx; [injection Hx as ->; rewrite lookup_insert_eq, E; done|].
        rewrite lookup_insert_ne by congruence. lia.
      * intros x _ d. destruct (decide (x = p)) as [->|Hx]; [by rewrite lookup_insert_eq, E|by rewrite lookup_insert_ne].
      * intros x [= ->]. by rewrite lookup_insert_eq.
    + split; [|split].
      * intros x. unfold ind. case_decide as Hx; [injection Hx as ->; rewrite lookup_insert_eq, E; done|].
        rewrite lookup_insert_ne by congruence. lia.
      * intros x _ d. destruct (decide (x = p)) as [->|Hx]; [by rewrite E|by rewrite lookup_insert_ne].
      * intros x [= ->]. by rewrite lookup_insert_eq.
  - rewrite Hv. split; [|split]; [|done|done]. intros x. unfold ind. rewrite decide_False by done. lia.
Qed.

Lemma s_ref_eff s p :
  s_ok s -> 0 < uses s p -> roomy s ->
  exists s', s_ref p s = Some s' /\ s_ok s' /\ (forall x, uses s' x = uses s x + ind (Some p) x) /\ conts_kept s s'.
Proof.
  intros Hs Hp Hr. unfold uses in Hp. destruct (s_view s !! p) as [[c u]|] eqn:E; simpl in Hp; [|lia].
  specialize (Hr p). unfold uses in Hr. rewrite E in Hr. simpl in Hr.
  destruct (s_ref_law s p c u Hs E Hr) as (s' & Hn & Hs' & Hv). exists s'. split; [done|]. split; [done|].
  unfold conts_kept, uses, cont. setoid_rewrite s_get_law. rewrite Hv. split.
  - intros x. unfold ind. case_decide as Hx; [injection Hx as ->; rewrite lookup_insert_eq, E; done|].
    rewrite lookup_insert_ne by congruence. lia.
  - intros x _ d. destruct (decide (x = p)) as [->|Hx]; [by rewrite lookup_insert_eq, E|by rewrite lookup_insert_ne].
Qed.

Lemma s_unref_eff s p :
  s_ok s -> 0 < uses s p ->
  exists s', s_unref p s = Some s' /\ s_ok s' /\ (forall x, uses s' x = uses s x - ind (Some p) x) /\ conts_kept s s'.
Proof.
  intros Hs Hp. unfold uses in Hp. destruct (s_view s !! p) as [[c u]|] eqn:E; simpl in Hp; [|lia].
  destruct (s_unref_law s p c u Hs E) as (s' & Hn & Hs' & Hv). exists s'. split; [done|]. split; [done|].
  unfold conts_kept, uses, cont. setoid_rewrite s_get_law. rewrite Hv. destruct (Z.eqb_spec u 1) as [->|Hu].
  - split.
    + intros x. unfold ind. case_decide as Hx; [injection Hx as ->; rewrite lookup_delete_eq, E; done|].
      rewrite lookup_delete_ne by congruence. lia.
    + intros x. destruct (decide (x = p)) as [->|Hx]; [|by rewrite lookup_delete_ne].
      rewrite lookup_delete_eq. intros Hx. by apply Z.lt_irrefl in Hx.
  - split.
    + intros x. unfold ind. case_decide as Hx; [injection Hx as ->; rewrite lookup_insert_eq, E; done|].
      rewrite lookup_insert_ne by congruence. lia.
    + intros x _ d. destruct (decide (x = p)) as [->|Hx]; [by rewrite lookup_insert_eq, E|by rewrite lookup_insert_ne].
Qed.

End Strings.

(** ** Fields of local entities *)

(** What the C types and the caller grant: kinds and nanoseconds are unsigned, and a buffer
    has the room that its sequence says. *)
Definition field_ok (v : PolVal) : Prop :=
  match v with
  | PKind k | PHistory k _ => 0 <= k
  | PDuration d => 0 <= nanosec d
  | PLiveliness k d | PReliability k d => 0 <= k /\ 0 <= nanosec d
  | PPresentation s _ _ => 0 <= s
  | POctets v => 0 <= os_length v /\ forall b, os_buffer v = Some b -> os_maximum v <= zlen b
  | PNames v => 0 <= ss_length v /\ forall b, ss_buffer v = Some b -> ss_maximum v <= zlen b
  | _ => True
  end.

Definition field_valid (p : QPAR) (v : PolVal) : Prop :=
  valid_fct (qtype (qos_desc p)) v false = Some OK /\ field_ok v.

(** The octets that a field holds. *)
Definition octets (v : PolVal) : list Z :=
  match v with
  | POctets v => ztake (os_length v) (default [] (os_buffer v))
  | _ => []
  end.

(** A policy that [qos_set] and [qos_get] transfer for a group. *)
Definition transferred (g : QGROUP) (p : QPAR) : bool := in_group g p && negb (kept_apart p).

Definition is_octets (p : QPAR) : bool := bool_decide (qtype (qos_desc p) = QT_OCTETSEQ).

(** The value of a plain policy in a data set, and what it should be when the
    field is [v]: the durability service is not kept. *)
Definition plain_view (q : UniQos) (p : QPAR) : option PolVal :=
  qt_plain_get (qtype (qos_desc p)) q (uni_ofs (qos_desc p)).

Definition kept_value (p : QPAR) (v : PolVal) : PolVal :=
  match p with QP_DURABILITY_SERVICE => PDurService qos_durability_service_init | _ => v end.

Definition same_strings (q q' : UniQos) : Prop :=
  user_data q' = user_data q /\ topic_data q' = topic_data q /\ group_data q' = group_data q /\ partition q' = partition q.

Lemma ok_if_OK b : ok_if b = OK -> b = true.
Proof. by destruct b. Qed.

Lemma valid_all_spec ps r : valid_all ps r = Some true -> forall p, p ∈ ps -> valid_fct (qtype (qos_desc p)) (r p) false = Some OK.
Proof.
  induction ps as [|p ps IH]; simpl; [by intros _ p ?%elem_of_nil|].
  destruct (valid_fct _ (r p) false) as [rc|] eqn:E; simpl; [|done].
  destruct (Z.eqb_spec rc 0) as [->|]; simpl; [|done]. intros Hps p' [->|Hp]%elem_of_cons; [done|by apply IH].
Qed.

Lemma all_qpars_complete p : p ∈ all_qpars.
Proof. apply (bool_decide_unpack _). by destruct p. Qed.

Lemma valid_group_spec g r :
  qos_valid_qos_group g r = Some true -> forall p, in_group g p = true -> valid_fct (qtype (qos_desc p)) (r p) false = Some OK.
Proof.
  unfold qos_valid_qos_group. generalize (valid_all_spec (List.filter (in_group g) all_qpars) r).
  intros Hspec Hv p Hp. apply Hspec; [exact Hv|]. apply list_elem_of_In, filter_In.
  split; [|exact Hp]. apply list_elem_of_In, all_qpars_complete.
Qed.

Lemma valid_entity_fields g r :
  qos_valid_entity g r = Some true -> (forall p, field_ok (r p)) -> forall p, in_group g p = true -> field_valid p (r p).
Proof.
  intros Hv Hf p Hp. split; [|done]. apply (valid_group_spec g); [|exact Hp]. revert Hv.
  unfold qos_valid_entity. generalize (qos_valid_qos_group g r). intros o.
  destruct (r QP_HISTORY); try discriminate 1. destruct (r QP_RESOURCE_LIMITS); try discriminate 1.
  by destruct (_ && _).
Qed.

(** The functions of the types, unfolded. *)
Ltac unfold_policy :=
  unfold qt_boolean_valid, qt_timestamp_valid, qt_shared_excl_valid, qt_durability_valid, qt_reliability_valid,
    qt_presentation_valid, qt_liveliness_valid, qt_history_valid,
    qt_boolean_set, qt_timestamp_set, qt_shared_excl_set, qt_durability_set, qt_durability_service_set,
    qt_presentation_set, qt_liveliness_set, qt_reliability_set, qt_history_set, qt_resource_limits_set,
    qt_boolean_get, qt_timestamp_get, qt_shared_excl_get, qt_durability_get, qt_durability_service_get,
    qt_presentation_get, qt_liveliness_get, qt_reliability_get, qt_history_get, qt_resource_limits_get in *.

Section Fields.
Context {S : Type} `{StrLaws S}.
Context (part_alloc : @QState S -> option nat).

Abbreviation set1 := (@set_fct S _ part_alloc).

Lemma wrap_kind w k : 0 <= k < 2 ^ w -> wrap w k = k.
Proof. intros. by apply wrap_small. Qed.

(** Storing a plain field, and the others afterwards. *)
Lemma plain_set_ok p v q :
  is_octets p = false -> p <> QP_PARTITION -> kept_apart p = false -> field_valid p v ->
  exists q', qt_plain_set (qtype (qos_desc p)) v q (uni_ofs (qos_desc p)) = Some q' /\
    same_strings q q' /\ plain_view q' p = Some (kept_value p v).
Proof.
  intros Ho Hp Hk [Hv Hf].
  destruct p; try discriminate Ho; try discriminate Hk; try done; destruct v; try discriminate Hv;
    (eexists; split; [reflexivity|]); (split; [done|]); unfold plain_view; cbn -[wrap Z.leb Z.ltb Z.pow] in *;
    unfold_policy; cbn -[wrap Z.leb Z.ltb Z.pow] in *; try reflexivity; try (injection Hv as Hv; try apply ok_if_OK in Hv).
  all: unfold GROUP_PRESENTATION,
    MANUAL_BY_TOPIC_LIVELINESS, RELIABLE_RELIABILITY, KEEP_ALL_HISTORY, TRANSIENT_LOCAL_DURABILITY,
    EXCLUSIVE_OWNERSHIP, BY_SOURCE_TIMESTAMP in Hv.
  all: rewrite ?wrap_kind; try reflexivity;
    repeat (let E := fresh in case_if E in Hv; [discriminate Hv|]); zbool; try lia.
  all: try (destruct (v =? 0); lia).
  all: destruct (Z.eqb_spec v 0); simpl; do 2 f_equal; lia.
Qed.

Lemma plain_set_other p p' v q q' :
  p <> p' -> kept_apart p = false -> p <> QP_ENTITY_FACTORY -> p' <> QP_ENTITY_FACTORY ->
  qt_plain_set (qtype (qos_desc p)) v q (uni_ofs (qos_desc p)) = Some q' -> plain_view q' p' = plain_view q p'.
Proof.
  intros Hne Hk He He' Hq. destruct p; try discriminate Hk; destruct v; try discriminate Hq; injection Hq as <-;
    destruct p'; done.
Qed.

(** One step over a plain policy, of a local entity. *)
Lemma set_step p v q st :
  is_octets p = false -> kept_apart p = false -> field_valid p v -> (p = QP_PARTITION -> v = init (qos_desc p)) ->
  partition q = None ->
  exists q', set1 (qtype (qos_desc p)) v q (uni_ofs (qos_desc p)) false st = Some (v, q', st) /\ same_strings q q' /\
    (p <> QP_PARTITION -> plain_view q' p = Some (kept_value p v)) /\
    (p <> QP_ENTITY_FACTORY -> forall p', p' <> p -> p' <> QP_ENTITY_FACTORY -> plain_view q' p' = plain_view q p').
Proof.
  intros Ho Hk Hv Hpart Hq. destruct (decide (p = QP_PARTITION)) as [->|Hp].
  - rewrite Hpart by done. exists (set_partition None q). split; [done|]. split; [by unfold same_strings; rewrite Hq|].
    split; [done|]. intros _ p' Hp' _. by destruct p'.
  - destruct (plain_set_ok p v q Ho Hp Hk Hv) as (q' & Hset & Hss & Hpv). exists q'. split; [|split; [done|split; [done|]]].
    + unfold set_fct. rewrite Hset. destruct p; done.
    + intros He p' Hp' He'. apply (plain_set_other p p' v); [by apply not_eq_sym|done..].
Qed.

Lemma init_valid p : kept_apart p = false -> field_valid p (init (qos_desc p)).
Proof. intros Hk. split; [by destruct p|]. destruct p; try discriminate Hk; cbn; try lia; done. Qed.

(** The policies after those with octets. *)
Section Loop.
Context (g : QGROUP) (r0 : QosRec).
Context (Hg : is_disc g = false) (Hr0 : forall p, in_group g p = true -> field_valid p (r0 p)).

Lemma local_not_partition : in_group g QP_PARTITION = false.
Proof. by destruct g. Qed.

Lemma not_entity_factory p : in_group g p = true -> p <> QP_ENTITY_FACTORY.
Proof. intros Hp ->. by destruct g. Qed.

Lemma rec_set_same r p : (forall p', r p' = r0 p') -> forall p', rec_set p (r p) r p' = r0 p'.
Proof. intros Hr p'. unfold rec_set. case_decide; [subst|]; apply Hr. Qed.

(** A policy that has no field in the group, nor a value of its own. *)
Definition untouched (p : QPAR) : Prop := transferred g p = false /\ uni_ofs (qos_desc p) = None.

(** Where a loop over the policies [ps] leaves the data set. *)
Definition loop_done (ps : list QPAR) (q q' : UniQos) : Prop :=
  same_strings q q' /\
  (forall p, p ∉ ps \/ untouched p -> p <> QP_ENTITY_FACTORY -> plain_view q' p = plain_view q p) /\
  (forall p, p ∈ ps -> transferred g p = true -> plain_view q' p = Some (kept_value p (r0 p))).

Lemma loop_done_cons p ps q q1 q' :
  p ∉ ps -> same_strings q q1 ->
  (forall p', p' <> p \/ untouched p' -> p' <> QP_ENTITY_FACTORY -> plain_view q1 p' = plain_view q p') ->
  (transferred g p = true -> plain_view q1 p = Some (kept_value p (r0 p))) ->
  loop_done ps q1 q' -> loop_done (p :: ps) q q'.
Proof.
  intros Hp (S1 & S2 & S3 & S4) Ho Hs ((T1 & T2 & T3 & T4) & Hnot & Hin). split; [|split].
  - unfold same_strings. repeat split; congruence.
  - intros p' Hp' He. destruct Hp' as [[Hp1 Hp2]%not_elem_of_cons|Hu].
    + rewrite Hnot by (done || by left). apply Ho; [by left|done].
    + rewrite Hnot by (done || by right). apply Ho; [by right|done].
  - intros p' [->|Hp']%elem_of_cons Ht; [|by apply Hin]. rewrite Hnot; [by apply Hs|by left|].
    apply not_entity_factory. unfold transferred in Ht. by apply andb_true_iff in Ht as [? _].
Qed.

Lemma set_loop_plain ps r q st :
  NoDup ps -> (forall p, p ∈ ps -> is_octets p = false) -> partition q = None -> (forall p, r p = r0 p) ->
  exists r' q', qos_set_loop part_alloc ps g r q st = Some (r', q', st) /\ (forall p, r' p = r0 p) /\ loop_done ps q q'.
Proof.
  intros Hnd. revert r q. induction Hnd as [|p ps Hp Hnd IH]; intros r q Ho Hq Hr; cbn [qos_set_loop].
  { exists r, q. split; [done|]. split; [done|]. split; [done|]. split; [done|]. by intros p ?%elem_of_nil. }
  assert (Hop : is_octets p = false) by (apply Ho; left).
  assert (Hops : forall p', p' ∈ ps -> is_octets p' = false) by (intros p' ?; apply Ho; by right).
  destruct (negb (offsets (qos_desc p) g) || kept_apart p) eqn:Hskip.
  - assert (Ht : transferred g p = false).
    { unfold transferred, in_group. destruct (offsets _ g), (kept_apart p); done. }
    destruct (uni_ofs (qos_desc p)) as [f|] eqn:Hf.
    + rewrite Hg, <- Hf.
      assert (Hk : kept_apart p = false) by (by destruct p).
      destruct (set_step p (init (qos_desc p)) q st Hop Hk (init_valid p Hk) ltac:(done) Hq) as (q1 & -> & Hss & _ & Hoth).
      cbn [mbind option_bind]. destruct (IH r q1 Hops) as (r' & q' & HL & Hr' & Hd); [|done|].
      { destruct Hss as (_ & _ & _ & ->). done. }
      exists r', q'. split; [done|]. split; [done|]. eapply loop_done_cons; [done|exact Hss| |by rewrite Ht|done].
      intros p' Hp'. apply Hoth; [by destruct p|]. destruct Hp' as [|[_ Hu]]; congruence.
    + destruct (IH r q Hops Hq Hr) as (r' & q' & HL & Hr' & Hd). exists r', q'. split; [done|]. split; [done|].
      eapply loop_done_cons; [done|done|done|by rewrite Ht|done].
  - apply orb_false_iff in Hskip as [Hin Hk]. apply negb_false_iff in Hin.
    assert (Hpp : p <> QP_PARTITION) by (intros ->; pose proof local_not_partition; unfold in_group in *; congruence).
    rewrite Hg, Hr. destruct (set_step p (r0 p) q st Hop Hk (Hr0 p Hin) ltac:(done) Hq) as (q1 & -> & Hss & Hpv & Hoth).
    cbn [mbind option_bind]. rewrite <- (Hr p).
    destruct (IH (rec_set p (r p) r) q1 Hops) as (r' & q' & HL & Hr' & Hd); [|by apply rec_set_same|].
    { destruct Hss as (_ & _ & _ & ->). done. }
    exists r', q'. split; [done|]. split; [done|]. eapply loop_done_cons; [done|exact Hss| |by intros _; apply Hpv|done].
    intros p' Hp'. apply Hoth; [apply not_entity_factory, Hin|]. destruct Hp' as [Hp'|[Hu _]]; [done|].
    intros ->. revert Hu. unfold transferred, in_group. by rewrite Hin, Hk.
Qed.
(** The update of the same policies. *)
Lemma update_loop_plain part_realloc ps r q st :
  NoDup ps -> (forall p, p ∈ ps -> is_octets p = false) -> partition q = None -> (forall p, r p = r0 p) ->
  exists r' q', qos_update_loop part_alloc part_realloc ps g r q st = Some (r', q', st) /\
    (forall p, r' p = r0 p) /\ loop_done ps q q'.
Proof.
  intros Hnd. revert r q. induction Hnd as [|p ps Hp Hnd IH]; intros r q Ho Hq Hr; cbn [qos_update_loop].
  { exists r, q. split; [done|]. split; [done|]. split; [done|]. split; [done|]. by intros p ?%elem_of_nil. }
  assert (Hop : is_octets p = false) by (apply Ho; left).
  assert (Hops : forall p', p' ∈ ps -> is_octets p' = false) by (intros p' ?; apply Ho; by right).
  destruct (negb (offsets (qos_desc p) g) || kept_apart p) eqn:Hskip.
  - assert (Ht : transferred g p = false).
    { unfold transferred, in_group. destruct (offsets _ g), (kept_apart p); done. }
    destruct (IH r q Hops Hq Hr) as (r' & q' & HL & Hr' & Hd). exists r', q'. split; [done|]. split; [done|].
    eapply loop_done_cons; [done|done|done|by rewrite Ht|done].
  - apply orb_false_iff in Hskip as [Hin Hk]. apply negb_false_iff in Hin.
    assert (Hpp : p <> QP_PARTITION) by (intros ->; pose proof local_not_partition; unfold in_group in *; congruence).
    rewrite Hg, Hr. destruct (set_step p (r0 p) q st Hop Hk (Hr0 p Hin) ltac:(done) Hq) as (q1 & Hset & Hss & Hpv & Hoth).
    replace (update_fct part_alloc part_realloc (qtype (qos_desc p)) (r0 p) q (uni_ofs (qos_desc p)) false st)
      with (Some (r0 p, q1, st)) by (rewrite <- Hset; destruct p; done).
    cbn [mbind option_bind]. rewrite <- (Hr p).
    destruct (IH (rec_set p (r p) r) q1 Hops) as (r' & q' & HL & Hr' & Hd); [|by apply rec_set_same|].
    { destruct Hss as (_ & _ & _ & ->). done. }
    exists r', q'. split; [done|]. split; [done|]. eapply loop_done_cons; [done|exact Hss| |by intros _; apply Hpv|done].
    intros p' Hp'. apply Hoth; [apply not_entity_factory, Hin|]. destruct Hp' as [Hp'|[Hu _]]; [done|].
    intros ->. revert Hu. unfold transferred, in_group. by rewrite Hin, Hk.
Qed.
End Loop.

(** ** Octets *)

(** The string that [old] was is released and [x] is new. *)
Record str_change (old x : option nat) (bytes : list Z) (s s' : S) : Prop := mkChange {
  sc_ok : s_ok s';
  sc_uses : forall y, uses s' y = uses s y - ind old y + ind x y;
  sc_cont : forall y c, 0 < uses s y - ind old y -> cont s y = Some c -> cont s' y = Some c;
  sc_new : forall y, x = Some y -> cont s' y = Some bytes;
  sc_empty : bytes = [] -> x = None
}.

Lemma ind_None y : ind None y = 0.
Proof. unfold ind. by rewrite decide_False. Qed.

Lemma str_change_refl s : s_ok s -> str_change None None [] s s.
Proof. intros Hs. constructor; [done| |done|done|done]. intros y. rewrite ind_None. lia. Qed.

Lemma octets2str_ok p v st :
  qtype (qos_desc p) = QT_OCTETSEQ -> field_valid p v -> s_ok (q_strs st) -> roomy (q_strs st) ->
  exists x s' w, v = POctets w /\ qos_octets2str w st = Some (x, set_strs s' st) /\
    str_change None x (octets v) (q_strs st) s'.
Proof.
  intros Ht [Hv Hf] Hs Hr. rewrite Ht in Hv. destruct v as [| |w| | | | | | | | | | | |]; try discriminate Hv.
  cbn [valid_fct] in Hv. injection Hv as Hv. unfold qt_os_valid in Hv. apply ok_if_OK in Hv. destruct Hf as [Hl Hb].
  unfold qos_octets2str. destruct (Z.eqb_spec (os_length w) 0) as [E|E].
  - exists None, (q_strs st), w. split; [done|]. split; [rewrite E; by destruct st|].
    assert (octets (POctets w) = []) as -> by (cbn; by rewrite E). by apply str_change_refl.
  - destruct (os_buffer w) as [b|] eqn:Eb; [|cbn in Hv; by rewrite orb_true_r in Hv].
    specialize (Hb b eq_refl). zbool.
    destruct (s_new_eff (q_strs st) (ztake (os_length w) b) Hs Hr) as (x & s' & Hn & Hs' & Hu & Hc & Hx).
    exists x, s', w. split; [done|].
    split.
    { rewrite (proj2 (Z.eqb_neq _ _)), Eb by done. cbn [mbind option_bind]. rewrite zslice_Some by lia.
      cbn [mbind option_bind]. change (zdrop 0 b) with b. by rewrite Hn. }
    assert (octets (POctets w) = ztake (os_length w) b) as -> by (cbn; by rewrite Eb).
    constructor; [done| | |exact Hx|].
    + intros y. rewrite Hu, ind_None. lia.
    + intros y c Hy. rewrite ind_None in Hy. apply Hc. rewrite Hu. pose proof (ind_nonneg x y). lia.
    + intros Hnil. pose proof (zlen_ztake b (os_length w) ltac:(lia)) as Hlen. rewrite Hnil, zlen_nil in Hlen. lia.
Qed.

(** [qt_os_update] of a field, when the old string is in use. *)
Lemma os_update_ok p v q f old st :
  qtype (qos_desc p) = QT_OCTETSEQ -> field_valid p v -> s_ok (q_strs st) -> roomy (q_strs st) ->
  uni_string f q = Some old -> (forall y, old = Some y -> 0 < uses (q_strs st) y) ->
  exists x s' q', qt_os_update v q f false st = Some (v, q', set_strs s' st) /\ set_uni_string f x q = Some q' /\
    str_change old x (octets v) (q_strs st) s'.
Proof.
  intros Ht Hv Hs Hr Hf Hold. unfold qt_os_update. rewrite Hf. cbn [mbind option_bind].
  assert (Hun : exists s1, unref old st = Some (set_strs s1 st) /\ s_ok s1 /\
            (forall y, uses s1 y = uses (q_strs st) y - ind old y) /\ conts_kept (q_strs st) s1).
  { destruct old as [y|]; cbn [unref].
    - destruct (s_unref_eff _ _ Hs (Hold y eq_refl)) as (s1 & -> & ? & ? & ?). by exists s1.
    - exists (q_strs st). split; [by destruct st|]. split; [done|]. split; [|by intros z _].
      intros z. rewrite ind_None. lia. }
  destruct Hun as (s1 & -> & Hs1 & Hu1 & Hc1). cbn [mbind option_bind].
  assert (Hr1 : roomy s1).
  { intros y. rewrite Hu1. specialize (Hr y). pose proof (ind_nonneg old y). lia. }
  destruct (octets2str_ok p v (set_strs s1 st) Ht Hv Hs1 Hr1) as (x & s' & w & -> & He & Hch).
  cbn [q_strs set_strs] in *. unfold qt_os_set. rewrite He. cbn [mbind option_bind].
  assert (Hset : exists q', set_uni_string f x q = Some q') by (destruct f; try discriminate Hf; by eexists).
  destruct Hset as [q' Hset]. rewrite Hset. cbn [mbind option_bind]. exists x, s', q'. split; [done|]. split; [done|].
  destruct Hch as [H1 H2 H3 H4 H5]. constructor; [done| | |done|done].
  - intros y. rewrite H2, Hu1, ind_None. lia.
  - intros y c Hy Hcy. apply H3; [rewrite Hu1, ind_None; lia|]. apply Hc1; [rewrite Hu1; lia|done].
Qed.

End Fields.
