(* ===== verification/QosTable.v ===== *)
(** The QoS of local topics, writers and readers as the application sees it:
    the table of shared data sets (dds/uqos.c) refines a map from entities to
    the QoS each was given last. *)

From stdpp Require Import gmap.
From S2P Require Import Prelude CLib TypeData Scan Str StrProps QosSet QosStore.
From stdpp Require Import list.
From S2P Require Import Qos.

#[local] Open Scope Z_scope.
#[local] Set Warnings "-clear-no-such-hyp".

(** ** Conversion of a whole structure *)

(** The policy that holds the octets of a group, and the policies after those
    with octets. *)
Definition data_par (g : QGROUP) : QPAR :=
  match g with QG_TOPIC | QG_DISC_TOPIC => QP_TOPIC_DATA | _ => QP_USER_DATA end.

Definition data_ptr (g : QGROUP) (q : UniQos) : option nat :=
  match g with QG_TOPIC | QG_DISC_TOPIC => topic_data q | _ => user_data q end.

Definition other_ptr (g : QGROUP) (q : UniQos) : option nat :=
  match g with QG_TOPIC | QG_DISC_TOPIC => user_data q | _ => topic_data q end.

Definition plain_qpars : list QPAR := drop 3 all_qpars.

Lemma all_qpars_split : all_qpars = QP_USER_DATA :: QP_TOPIC_DATA :: QP_GROUP_DATA :: plain_qpars.
Proof. done. Qed.

Lemma plain_qpars_nodup : NoDup plain_qpars.
Proof. by apply (bool_decide_unpack _). Qed.

Lemma plain_qpars_spec p : p ∈ plain_qpars <-> is_octets p = false.
Proof. split; [|intros Hp; by apply (bool_decide_unpack _); destruct p].
  intros Hp%(bool_decide_pack _). by destruct p. Qed.

(** A data set shows the QoS [r] of a local entity. *)
Definition plain_shows (g : QGROUP) (r : QosRec) (q : UniQos) : Prop :=
  forall p, is_octets p = false -> transferred g p = true -> plain_view q p = Some (kept_value p (r p)).

Definition no_parts (q : UniQos) : Prop := group_data q = None /\ partition q = None.

Section Table.
Context {S : Type} `{StrLaws S}.
Context (part_alloc : @QState S -> option nat) (part_realloc : @QState S -> nat -> option nat).
Context (qos_alloc : @QState S -> option nat) (ref_ok : @QState S -> bool) (xmalloc_ok : Z -> bool).
Context (uni_bytes : UniQos -> list Z).

Abbreviation QS := (@QState S).
Abbreviation hash := (qos_hash uni_bytes).

Lemma os_set_init q f (st : QS) :
  qt_os_set octets_init q f false st = (q' ← set_uni_string f None q; Some (octets_init, q', st)).
Proof. done. Qed.

Section Convert.
Context (g : QGROUP) (r : QosRec).
Context (Hg : is_disc g = false) (Hr : forall p, in_group g p = true -> field_valid p (r p)).

Lemma in_group_data : in_group g (data_par g) = true.
Proof. by destruct g. Qed.

Lemma data_octets : qtype (qos_desc (data_par g)) = QT_OCTETSEQ.
Proof. by destruct g. Qed.

Lemma loop_done_shows q q' : loop_done g r plain_qpars q q' -> plain_shows g r q'.
Proof. intros (_ & _ & Hin) p Hp Ht. apply Hin; [by apply plain_qpars_spec|done]. Qed.

(** The three policies with octets, when the one of the group is stored as [x]. *)
Lemma set_loop_head ps x s' (st : QS) :
  (forall q f q', set_uni_string f x q = Some q' ->
     qt_os_set (r (data_par g)) q f false st = Some (r (data_par g), q', set_strs s' st)) ->
  exists q1, qos_set_loop part_alloc (QP_USER_DATA :: QP_TOPIC_DATA :: QP_GROUP_DATA :: ps) g r uni_zero st =
      qos_set_loop part_alloc ps g (rec_set (data_par g) (r (data_par g)) r) q1 (set_strs s' st) /\
    no_parts q1 /\ data_ptr g q1 = x /\ other_ptr g q1 = None /\
    plain_view q1 QP_PRESENTATION = plain_view uni_zero QP_PRESENTATION.
Proof.
  intros Hos. destruct g; try discriminate Hg; cbn [data_par data_ptr other_ptr] in *; cbn [qos_set_loop];
    cbn -[qos_set_loop rec_set uni_zero qt_os_set]; rewrite ?os_set_init; cbn [mbind option_bind set_uni_string].
  all: erewrite Hos by reflexivity; cbn [mbind option_bind].
  all: rewrite !os_set_init; cbn [mbind option_bind set_uni_string]; rewrite ?os_set_init.
  all: cbn [mbind option_bind set_uni_string]; eexists; split; [reflexivity|done].
Qed.

Lemma qos_set_ok (st : QS) :
  s_ok (q_strs st) -> roomy (q_strs st) ->
  exists r' q x s', qos_set part_alloc g r st = Some (r', q, set_strs s' st) /\ (forall p, r' p = r p) /\
    str_change None x (octets (r (data_par g))) (q_strs st) s' /\
    no_parts q /\ data_ptr g q = x /\ other_ptr g q = None /\ plain_shows g r q /\
    (in_group g QP_PRESENTATION = false -> plain_view q QP_PRESENTATION = plain_view uni_zero QP_PRESENTATION).
Proof.
  intros Hs Hrm. destruct (octets2str_ok (data_par g) (r (data_par g)) st data_octets (Hr _ in_group_data) Hs Hrm)
    as (x & s' & w & Ew & He & Hch).
  assert (Hos : forall q f q', set_uni_string f x q = Some q' ->
    qt_os_set (r (data_par g)) q f false st = Some (r (data_par g), q', set_strs s' st)).
  { intros q f q' Hset. rewrite Ew. cbn [qt_os_set]. rewrite He. cbn [mbind option_bind]. by rewrite Hset. }
  unfold qos_set. rewrite all_qpars_split.
  destruct (set_loop_head plain_qpars x s' st Hos) as (q1 & -> & [Hn1 Hn2] & Hd & Ho & Hpr).
  destruct (set_loop_plain part_alloc g r Hg Hr plain_qpars (rec_set (data_par g) (r (data_par g)) r) q1 (set_strs s' st)
    plain_qpars_nodup (fun p => proj1 (plain_qpars_spec p)) Hn2) as (r' & q & HL & Hr' & Hdone); [by apply rec_set_same|].
  exists r', q, x, s'. split; [exact HL|]. split; [done|]. split; [done|].
  pose proof (loop_done_shows _ _ Hdone). destruct Hdone as ((E1 & E2 & E3 & E4) & Hunt & _).
  split; [split; congruence|]. split; [|split; [|split; [done|]]]; [destruct g; cbn [data_ptr other_ptr] in *; congruence..|].
  intros Hin. rewrite Hunt; [exact Hpr| |done]. right. split; [|done]. unfold transferred. by rewrite Hin.
Qed.

Lemma update_loop_head ps f q q1 s' (st : QS) :
  uni_ofs (qos_desc (data_par g)) = Some f ->
  qt_os_update (r (data_par g)) q f false st = Some (r (data_par g), q1, set_strs s' st) ->
  qos_update_loop part_alloc part_realloc (QP_USER_DATA :: QP_TOPIC_DATA :: QP_GROUP_DATA :: ps) g r q st =
  qos_update_loop part_alloc part_realloc ps g (rec_set (data_par g) (r (data_par g)) r) q1 (set_strs s' st).
Proof.
  intros Hof Hup. destruct g; try discriminate Hg; injection Hof as <-; cbn [data_par] in *;
    cbn [qos_update_loop]; cbn -[qos_update_loop rec_set qt_os_update]; by rewrite Hup.
Qed.

(** The update of a data set that has one user. *)
Lemma qos_update_loop_ok q (st : QS) :
  s_ok (q_strs st) -> roomy (q_strs st) -> no_parts q ->
  (forall y, data_ptr g q = Some y -> 0 < uses (q_strs st) y) ->
  exists r' q' x s', qos_update_loop part_alloc part_realloc all_qpars g r q st = Some (r', q', set_strs s' st) /\
    (forall p, r' p = r p) /\
    str_change (data_ptr g q) x (octets (r (data_par g))) (q_strs st) s' /\
    no_parts q' /\ data_ptr g q' = x /\ other_ptr g q' = other_ptr g q /\ plain_shows g r q'.
Proof.
  intros Hs Hrm [Hn1 Hn2] Hlive.
  assert (Hf : exists f, uni_ofs (qos_desc (data_par g)) = Some f /\ uni_string f q = Some (data_ptr g q))
    by (destruct g; eexists; split; reflexivity).
  destruct Hf as (f & Hof & Hus).
  destruct (os_update_ok (data_par g) (r (data_par g)) q f _ st data_octets (Hr _ in_group_data) Hs Hrm Hus Hlive)
    as (x & s' & q1 & Hup & Hset & Hch).
  assert (Hq1 : no_parts q1 /\ data_ptr g q1 = x /\ other_ptr g q1 = other_ptr g q).
  { destruct g; try discriminate Hg; injection Hof as <-; injection Hset as <-; done. }
  destruct Hq1 as ([Hm1 Hm2] & Hd & Ho).
  destruct (update_loop_plain part_alloc g r Hg Hr part_realloc plain_qpars (rec_set (data_par g) (r (data_par g)) r) q1 (set_strs s' st) plain_qpars_nodup
      (fun p => proj1 (plain_qpars_spec p)) Hm2) as (r' & q' & HL & Hr' & Hdone); [by apply rec_set_same|].
  exists r', q', x, s'. pose proof (loop_done_shows _ _ Hdone) as Hsh. destruct Hdone as ((E1 & E2 & E3 & E4) & _).
  split; [|split; [done|split; [done|split; [split; congruence|]]]].
  - rewrite all_qpars_split, (update_loop_head _ _ _ _ _ _ Hof Hup). exact HL.
  - split; [|split; [|done]]; destruct g; cbn [data_ptr other_ptr] in *; congruence.
Qed.

End Convert.

(** The conversion back; the octets are lost. *)
Lemma str2octets_empty d : fst (qos_str2octets d) = octet_seq_init.
Proof. by destruct d. Qed.

Lemma plain_view_Some g q p : is_disc g = false -> is_octets p = false -> transferred g p = true -> exists v, plain_view q p = Some v.
Proof. intros Hg Ho Ht. destruct g; try discriminate Hg; destruct p; try discriminate Ho; try discriminate Ht; by eexists. Qed.

Definition got (g : QGROUP) (q : UniQos) (r : QosRec) (p : QPAR) : PolVal :=
  if transferred g p then
    if is_octets p then POctets octet_seq_init else default (r p) (plain_view q p)
  else r p.

Lemma get_step g q (st : QS) r p :
  is_disc g = false -> (forall y, data_ptr g q = Some y -> 0 < uses (q_strs st) y) -> s_ok (q_strs st) ->
  transferred g p = true ->
  get_fct part_alloc xmalloc_ok (qtype (qos_desc p)) q (uni_ofs (qos_desc p)) (is_disc g) st = Some (got g q r p, st).
Proof.
  intros Hg Hlive Hs Ht. rewrite Hg. unfold got. rewrite Ht. destruct (is_octets p) eqn:Ho.
  - assert (Hp : p = data_par g) by (destruct g; try discriminate Hg; destruct p; try discriminate Ho; done).
    assert (Hd : exists d, deref (data_ptr g q) st = Some d).
    { destruct (data_ptr g q) as [y|]; [|by eexists]. cbn [deref].
      destruct (proj1 (uses_live _ _ Hs) (Hlive y eq_refl)) as [c Hc]. unfold cont in Hc. rewrite Hc. by eexists. }
    destruct Hd as [d Hd]. subst p.
    destruct g; try discriminate Hg; cbn -[deref]; cbn [data_ptr] in Hd; rewrite Hd; cbn [mbind option_bind]; by rewrite str2octets_empty.
  - destruct (plain_view_Some g q p Hg Ho Ht) as [v Hv]. rewrite Hv. unfold plain_view in Hv.
    assert (Hget : get_fct part_alloc xmalloc_ok (qtype (qos_desc p)) q (uni_ofs (qos_desc p)) false st =
      (v ← qt_plain_get (qtype (qos_desc p)) q (uni_ofs (qos_desc p)); Some (v, st))).
    { destruct g; try discriminate Hg; destruct p; try discriminate Ho; try discriminate Ht; reflexivity. }
    by rewrite Hget, Hv.
Qed.

Lemma got_rec_set g q r p v p' : p' <> p -> got g q (rec_set p v r) p' = got g q r p'.
Proof. intros Hp. unfold got, rec_set. by rewrite decide_False. Qed.

Lemma get_loop_ok g q ps r (st : QS) :
  is_disc g = false -> (forall y, data_ptr g q = Some y -> 0 < uses (q_strs st) y) -> s_ok (q_strs st) -> NoDup ps ->
  exists r2, qos_get_loop part_alloc xmalloc_ok ps g q r st = Some (r2, st) /\
    forall p, r2 p = if bool_decide (p ∈ ps) then got g q r p else r p.
Proof.
  intros Hg Hlive Hs Hnd. revert r. induction Hnd as [|p ps Hp Hnd IH]; intros r; cbn [qos_get_loop]; [by exists r|].
  destruct (transferred g p) eqn:Ht.
  - replace (negb _ || _) with false by (revert Ht; unfold transferred, in_group; by destruct (offsets _ g), (kept_apart p)).
    rewrite (get_step g q st r p) by done. cbn [mbind option_bind].
    destruct (IH (rec_set p (got g q r p) r)) as (r2 & HL & Hr2). exists r2. split; [done|]. intros p'. rewrite Hr2.
    destruct (decide (p' = p)) as [->|Hne].
    + rewrite bool_decide_false by done. rewrite bool_decide_true by left. unfold rec_set. by rewrite decide_True.
    + rewrite got_rec_set by done. unfold rec_set. rewrite decide_False by done.
      assert (Hiff : p' ∈ p :: ps <-> p' ∈ ps) by (rewrite elem_of_cons; tauto). by rewrite (bool_decide_ext _ _ Hiff).
  - replace (negb _ || _) with true by (revert Ht; unfold transferred, in_group; by destruct (offsets _ g), (kept_apart p)).
    destruct (IH r) as (r2 & HL & Hr2). exists r2. split; [done|]. intros p'. rewrite Hr2.
    destruct (decide (p' = p)) as [->|Hne].
    + rewrite bool_decide_false by done. rewrite bool_decide_true by left. unfold got. by rewrite Ht.
    + assert (Hiff : p' ∈ p :: ps <-> p' ∈ ps) by (rewrite elem_of_cons; tauto). by rewrite (bool_decide_ext _ _ Hiff).
Qed.
(** ** The table *)

Lemma hash_range q : 0 <= hash q < MAX_HASH.
Proof. apply Z.mod_pos_bound. reflexivity. Qed.

Definition tab_ok (ht : list (list nat)) (m : gmap nat Qos_t) : Prop :=
  zlen ht = MAX_HASH /\
  forall h chain, zget ht h = Some chain -> NoDup chain /\ forall a, a ∈ chain -> exists q, q_qos <$> m !! a = Some q /\ hash q = h.

Lemma tab_bucket ht m q : tab_ok ht m -> exists chain, zget ht (hash q) = Some chain.
Proof. intros [Hl _]. apply zget_lookup_Some. rewrite Hl. apply hash_range. Qed.

Lemma tab_set ht m q c : tab_ok ht m -> exists ht', zset ht (hash q) c = Some ht'.
Proof. intros [Hl _]. eexists. apply zset_Some. rewrite Hl. apply hash_range. Qed.

(** The table depends on the data sets that are in it only. *)
Lemma tab_ext ht m m' :
  tab_ok ht m -> (forall h chain a, zget ht h = Some chain -> a ∈ chain -> q_qos <$> m' !! a = q_qos <$> m !! a) -> tab_ok ht m'.
Proof.
  intros [Hl Ht] Heq. split; [done|]. intros h chain Hz. destruct (Ht _ _ Hz) as [Hnd Hin]. split; [done|].
  intros a Ha. rewrite (Heq _ _ _ Hz Ha). by apply Hin.
Qed.

(** A data set that joins its chain, and one that leaves it. *)
Lemma tab_enter ht ht' m a q chain :
  tab_ok ht m -> q_qos <$> m !! a = Some q -> zget ht (hash q) = Some chain -> a ∉ chain ->
  zset ht (hash q) (a :: chain) = Some ht' -> tab_ok ht' m.
Proof.
  intros [Hl Ht] Ha Hz Hn Hs. split; [by rewrite (zlen_zset _ _ _ _ Hs)|]. intros h c Hc.
  destruct (decide (h = hash q)) as [->|Hne]; [|rewrite (zget_zset_ne _ _ _ _ _ Hs) in Hc by done; by apply Ht].
  rewrite (zget_zset_eq _ _ _ _ Hs) in Hc. injection Hc as <-. destruct (Ht _ _ Hz) as [Hnd Hin].
  split; [by constructor|]. intros b [->|Hb]%elem_of_cons; [by exists q|by apply Hin].
Qed.

Lemma remove_ref_unchain a c : remove_ref a c = unchain a c.
Proof. induction c as [|b c IH]; simpl; [done|]. by rewrite IH. Qed.

Lemma tab_leave ht ht' m m' a q chain :
  tab_ok ht m -> q_qos <$> m !! a = Some q -> zget ht (hash q) = Some chain ->
  zset ht (hash q) (remove_ref a chain) = Some ht' -> (forall b, b <> a -> q_qos <$> m' !! b = q_qos <$> m !! b) ->
  tab_ok ht' m' /\ forall h c, zget ht' h = Some c -> a ∉ c.
Proof.
  intros [Hl Ht] Ha Hz Hs Heq. rewrite remove_ref_unchain in Hs. destruct (Ht _ _ Hz) as [Hnd Hin].
  assert (Hall : forall h c, zget ht' h = Some c ->
    NoDup c /\ forall b, b ∈ c -> b <> a /\ exists q, q_qos <$> m !! b = Some q /\ hash q = h).
  { intros h c Hc. destruct (decide (h = hash q)) as [->|Hne].
    - rewrite (zget_zset_eq _ _ _ _ Hs) in Hc. injection Hc as <-. split; [by apply unchain_nodup|].
      intros b Hb. apply unchain_elem in Hb as [Hb Hba]; [|done]. split; [done|by apply Hin].
    - rewrite (zget_zset_ne _ _ _ _ _ Hs) in Hc by done. destruct (Ht _ _ Hc) as [Hnd' Hin']. split; [done|].
      intros b Hb. split; [|by apply Hin']. intros ->. destruct (Hin' _ Hb) as (q' & Hq' & Hh). congruence. }
  split.
  - split; [by rewrite (zlen_zset _ _ _ _ Hs)|]. intros h c Hc. destruct (Hall _ _ Hc) as [Hnd' Hin']. split; [done|].
    intros b Hb. destruct (Hin' _ Hb) as [Hba ?]. by rewrite Heq.
  - intros h c Hc Hac. by destruct (Hall _ _ Hc) as [_ Hin']; destruct (Hin' _ Hac).
Qed.

Lemma qos_lookup_ok ht m q chain :
  tab_ok ht m -> zget ht (hash q) = Some chain ->
  match qos_lookup m chain q with
  | Some (Some a) => a ∈ chain /\ exists qp, m !! a = Some qp /\ q_qos qp = q
  | Some None => True
  | None => False
  end.
Proof.
  intros [_ Ht] Hz. destruct (Ht _ _ Hz) as [_ Hin]. clear Hz Ht.
  induction chain as [|b chain IH]; simpl; [done|]. destruct (Hin b ltac:(left)) as (q' & Hq' & _).
  destruct (m !! b) as [qp|] eqn:Eb; [|done]. cbn [mbind option_bind]. case_bool_decide as Hd.
  - split; [left|]. by exists qp.
  - assert (IH' := IH (fun a Ha => Hin a ltac:(by right))). destruct (qos_lookup m chain q) as [[a|]|]; [|done|done].
    destruct IH' as [? ?]. split; [by right|done].
Qed.

(** ** The store *)

(** References of a data set to a string; entities that have a pointer to a
    data set. *)
Definition nref (y : nat) (qp : Qos_t) : Z := ind (user_data (q_qos qp)) y + ind (topic_data (q_qos qp)) y.
Definition one (a b : nat) : Z := if decide (b = a) then 1 else 0.

Lemma nref_nonneg y qp : 0 <= nref y qp.
Proof. unfold nref. pose proof (ind_nonneg (user_data (q_qos qp)) y). pose proof (ind_nonneg (topic_data (q_qos qp)) y). lia. Qed.

Lemma one_nonneg a b : 0 <= one a b.
Proof. unfold one. case_decide; lia. Qed.

Definition users_of (m : gmap nat Qos_t) (a : nat) : Z := default 0 (q_users <$> m !! a).

(** The invariant; [held] gives the pointer of each entity, [pend] the
    references to strings that are not yet in the table. *)
Record store_ok (pend : nat -> Z) (st : QS) (held : gmap nat nat) : Prop := mkStoreOk {
  so_str : s_ok (q_strs st);
  so_tab : tab_ok (qos_ht st) (q_data st);
  so_data : forall a qp, q_data st !! a = Some qp -> no_parts (q_qos qp) /\ 0 < q_users qp;
  so_held : forall a, msum (one a) held = users_of (q_data st) a;
  so_refs : forall y, msum (nref y) (q_data st) + pend y <= uses (q_strs st) y
}.

(** Counts up to [k]. *)
Definition bounded (k : Z) (st : QS) : Prop :=
  (forall y, uses (q_strs st) y <= k) /\ (forall a, users_of (q_data st) a <= k).

(** The data sets of [st] are in [st'], whatever their users. *)
Definition sets_kept (st st' : QS) : Prop :=
  forall a qp, q_data st !! a = Some qp -> exists qp', q_data st' !! a = Some qp' /\ q_qos qp' = q_qos qp.

Lemma users_of_update m a qp b : users_of (<[a := qp]> m) b = if decide (a = b) then q_users qp else users_of m b.
Proof. unfold users_of. case_decide as E; [subst; by rewrite lookup_insert_eq|by rewrite lookup_insert_ne]. Qed.

Lemma nref_same_qos y qp qp' : q_qos qp' = q_qos qp -> nref y qp' = nref y qp.
Proof. unfold nref. by intros ->. Qed.

End Table.
