(* ===== verification/QosShare.v ===== *)
(** The operations on the table of QoS data sets: [qos_new], [qos_update],
    [qos_get] and [qos_free] of local entities keep the invariant of the
    store, and what one entity does is not seen by the others. *)

From stdpp Require Import gmap.
From S2P Require Import Prelude CLib TypeData Scan Str StrProps QosSet QosStore QosTable.
From stdpp Require Import list.
From S2P Require Import Qos.

#[local] Open Scope Z_scope.
#[local] Set Warnings "-clear-no-such-hyp".

Section Share.
Context {S : Type} `{StrLaws S}.
Context (part_alloc : @QState S -> option nat) (part_realloc : @QState S -> nat -> option nat).
Context (qos_alloc : @QState S -> option nat) (ref_ok : @QState S -> bool) (xmalloc_ok : Z -> bool).
Context (uni_bytes : UniQos -> list Z).

(** A new data set has an address that is not in use. *)
Context (Hqa : forall st a, qos_alloc st = Some a -> q_data st !! a = None).

Abbreviation QS := (@QState S).
Abbreviation hash := (qos_hash uni_bytes).
Abbreviation sok := (store_ok uni_bytes).
Abbreviation tab := (tab_ok uni_bytes).
Abbreviation add := (qos_add qos_alloc ref_ok uni_bytes).
Abbreviation new := (qos_new part_alloc qos_alloc ref_ok uni_bytes).
Abbreviation upd := (qos_update part_alloc part_realloc qos_alloc ref_ok uni_bytes).
Abbreviation fre := (qos_free uni_bytes).

Definition none : nat -> Z := fun _ => 0.

Lemma none_nonneg y : 0 <= none y.
Proof. unfold none. lia. Qed.

Lemma sok_weaken pend (st : QS) held : (forall y, 0 <= pend y) -> sok pend st held -> sok none st held.
Proof.
  intros Hp [? ? ? ? Hr]. constructor; try done. intros y. specialize (Hr y). specialize (Hp y). unfold none. lia.
Qed.

(** The references of a data set are counted. *)
Lemma nref_uses pend (st : QS) held a qp y :
  (forall y, 0 <= pend y) -> sok pend st held -> q_data st !! a = Some qp -> nref y qp <= uses (q_strs st) y.
Proof.
  intros Hp Hok Ha. pose proof (msum_ge (nref y) (nref_nonneg y) (q_data st) a qp Ha).
  pose proof (so_refs _ _ _ _ Hok y). specialize (Hp y). lia.
Qed.

Lemma holder_live pend (st : QS) held e a :
  sok pend st held -> held !! e = Some a -> exists qp, q_data st !! a = Some qp.
Proof.
  intros Hok He. pose proof (msum_ge (one a) (one_nonneg a) held e a He) as Hge.
  unfold one in Hge at 1. rewrite decide_True in Hge by done. rewrite (so_held _ _ _ _ Hok a) in Hge. unfold users_of in Hge.
  destruct (q_data st !! a) as [qp|]; [by exists qp|]. simpl in Hge. lia.
Qed.

Lemma sole_holder pend (st : QS) held e e' a qp :
  sok pend st held -> held !! e = Some a -> held !! e' = Some a -> q_data st !! a = Some qp -> q_users qp = 1 -> e' = e.
Proof.
  intros Hok He He' Ha Hu. destruct (decide (e' = e)) as [|Hne]; [done|].
  pose proof (so_held _ _ _ _ Hok a) as Hs. unfold users_of in Hs. rewrite Ha in Hs. simpl in Hs.
  rewrite (msum_delete _ _ _ _ He) in Hs.
  pose proof (msum_ge (one a) (one_nonneg a) (delete e held) e' a) as Hge.
  rewrite lookup_delete_ne in Hge by done. specialize (Hge He'). unfold one in Hs at 1, Hge at 1.
  rewrite decide_True in Hs, Hge by done. lia.
Qed.

(** ** Users *)

Lemma set_users_qos_same (m : gmap nat Qos_t) a qp u b :
  m !! a = Some qp -> q_qos <$> <[a := mkQos u (q_qos qp)]> m !! b = q_qos <$> m !! b.
Proof.
  intros Ha. destruct (decide (a = b)) as [->|Hne]; [by rewrite lookup_insert_eq, Ha|by rewrite lookup_insert_ne].
Qed.

Lemma qos_users_ok pend (st : QS) held held' a qp u :
  sok pend st held -> q_data st !! a = Some qp -> 0 < u ->
  (forall b, msum (one b) held' = if decide (a = b) then u else msum (one b) held) ->
  sok pend (set_qdata (<[a := mkQos u (q_qos qp)]> (q_data st)) st) held' /\
  sets_kept st (set_qdata (<[a := mkQos u (q_qos qp)]> (q_data st)) st).
Proof.
  intros [H1 H2 H3 H4 H5] Ha Hu Hheld. split.
  - constructor; cbn [set_qdata q_strs q_data qos_ht]; [done| | | |].
    + eapply tab_ext; [done|]. intros h chain b _ _. by apply set_users_qos_same.
    + intros b qb Hb. destruct (decide (a = b)) as [->|Hne].
      * rewrite lookup_insert_eq in Hb. injection Hb as <-. split; [exact (proj1 (H3 _ _ Ha))|done].
      * rewrite lookup_insert_ne in Hb by done. by eapply H3.
    + intros b. rewrite Hheld, users_of_update. case_decide; [done|apply H4].
    + intros y. rewrite (msum_update _ _ _ _ _ Ha), (nref_same_qos y qp (mkQos u (q_qos qp)) eq_refl). specialize (H5 y). lia.
  - intros b qb Hb. cbn [set_qdata q_data]. destruct (decide (a = b)) as [->|Hne].
    + rewrite lookup_insert_eq. eexists. split; [done|]. cbn. congruence.
    + rewrite lookup_insert_ne by done. by exists qb.
Qed.

Lemma msum_one_insert held e a b :
  held !! e = None -> msum (one b) (<[e := a]> held) = one b a + msum (one b) held.
Proof. apply msum_insert. Qed.

Lemma one_cases a b : one b a = if decide (a = b) then 1 else 0.
Proof. done. Qed.

(** ** [qos_add] *)

Lemma qos_add_ok pend (st : QS) held e q k :
  sok pend st held -> (forall y, pend y = nref y (mkQos 1 q)) -> held !! e = None -> no_parts q ->
  (forall b, users_of (q_data st) b <= k) -> k + 1 < 2 ^ 30 ->
  exists a st', add q st = Some (a, st') /\ q_strs st' = q_strs st /\
    match a with
    | None => st' = st
    | Some a => sok none st' (<[e := a]> held) /\ (exists qp, q_data st' !! a = Some qp /\ q_qos qp = q) /\ sets_kept st st' /\
                (forall b, users_of (q_data st') b <= k + 1)
    end.
Proof.
  intros Hok Hpend He Hnp Hk Hroom. unfold qos_add.
  destruct (tab_bucket uni_bytes _ _ q (so_tab _ _ _ _ Hok)) as [chain Hz]. rewrite Hz. cbn [mbind option_bind].
  pose proof (qos_lookup_ok uni_bytes _ _ q chain (so_tab _ _ _ _ Hok) Hz) as Hl.
  assert (Hp0 : forall y, 0 <= pend y) by (intros y; rewrite Hpend; apply nref_nonneg).
  destruct (qos_lookup (q_data st) chain q) as [[a|]|]; [| |done]; cbn [mbind option_bind].
  - destruct Hl as (_ & qp & Ha & Hq). rewrite Ha. cbn [mbind option_bind].
    pose proof (Hk a) as Hka. unfold users_of in Hka. rewrite Ha in Hka. simpl in Hka.
    destruct (so_data _ _ _ _ Hok a qp Ha) as [_ Hpos].
    rewrite (wrap_small 32 (q_users qp + 1)) by (unfold in_u; lia).
    destruct (qos_users_ok pend st held (<[e := a]> held) a qp (q_users qp + 1) Hok Ha) as [Hok' Hkept]; [lia| |].
    { intros b. rewrite msum_one_insert, one_cases, (so_held _ _ _ _ Hok b) by done. case_decide as E; [subst|lia].
      unfold users_of. rewrite Ha. simpl. lia. }
    eexists (Some a), _. split; [reflexivity|]. split; [done|]. split; [by eapply sok_weaken|]. split; [|split; [done|]].
    + exists (mkQos (q_users qp + 1) (q_qos qp)). cbn. by rewrite lookup_insert_eq.
    + intros b. cbn [set_qdata q_data]. rewrite users_of_update. case_decide; cbn; [lia|]. specialize (Hk b). lia.
  - destruct (qos_alloc st) as [a|] eqn:Ea; [|by exists None, st]. pose proof (Hqa _ _ Ea) as Ha.
    set (st1 := set_qdata (<[a := mkQos 1 q]> (q_data st)) st).
    assert (Hout : forall h c, zget (qos_ht st) h = Some c -> a ∉ c).
    { intros h c Hc Hac. destruct (proj2 (so_tab _ _ _ _ Hok) _ _ Hc) as [_ Hin]. destruct (Hin _ Hac) as (? & Hq & _). by rewrite Ha in Hq. }
    assert (Htab1 : tab (qos_ht st) (q_data st1)).
    { eapply tab_ext; [apply (so_tab _ _ _ _ Hok)|]. intros h c b Hc Hb. cbn. rewrite lookup_insert_ne; [done|].
      intros <-. by eapply Hout. }
    assert (Hok1 : forall ht, tab ht (q_data st1) -> sok none (set_qht ht st1) (<[e := a]> held)).
    { intros ht Hht. destruct Hok as [H1 H2 H3 H4 H5]. constructor; cbn [set_qht q_strs q_data qos_ht st1 set_qdata]; [done|done| | |].
      - intros b qb Hb. destruct (decide (a = b)) as [->|Hne].
        + rewrite lookup_insert_eq in Hb. by injection Hb as <-.
        + rewrite lookup_insert_ne in Hb by done. by eapply H3.
      - intros b. rewrite msum_one_insert, one_cases, users_of_update, H4 by done. case_decide as E; [subst|lia].
        unfold users_of. by rewrite Ha.
      - intros y. rewrite msum_insert by done. specialize (H5 y). rewrite Hpend in H5. unfold none. lia. }
    assert (Hrest : (exists qp, q_data st1 !! a = Some qp /\ q_qos qp = q) /\ sets_kept st st1 /\ forall b, users_of (q_data st1) b <= k + 1).
    { split; [|split].
      - exists (mkQos 1 q). cbn. by rewrite lookup_insert_eq.
      - intros b qb Hb. exists qb. cbn. rewrite lookup_insert_ne by congruence. done.
      - intros b. cbn [st1 set_qdata q_data]. rewrite users_of_update. specialize (Hk b). case_decide; cbn; [|lia].
        subst. unfold users_of in Hk. rewrite Ha in Hk. cbn in Hk. lia. }
    destruct (ref_ok st1).
    + change (qos_ht st1) with (qos_ht st). destruct (tab_set uni_bytes _ _ q (a :: chain) (so_tab _ _ _ _ Hok)) as [ht Hset].
      rewrite Hset. cbn [mbind option_bind]. eexists (Some a), _. split; [reflexivity|]. split; [done|]. split; [|exact Hrest].
      apply Hok1. eapply tab_enter; [exact Htab1| |exact Hz|by eapply Hout|exact Hset]. cbn. by rewrite lookup_insert_eq.
    + eexists (Some a), st1. split; [reflexivity|]. split; [done|]. split; [|exact Hrest].
      specialize (Hok1 (qos_ht st1) Htab1). by destruct st.
Qed.

(** ** What an entity sees *)

(** The data set at [a] shows the QoS [r]. *)
Definition shows (st : QS) (a : nat) (g : QGROUP) (r : QosRec) : Prop :=
  exists qp, q_data st !! a = Some qp /\ plain_shows g r (q_qos qp) /\
    (forall y, data_ptr g (q_qos qp) = Some y -> cont (q_strs st) y = Some (octets (r (data_par g)))) /\
    (octets (r (data_par g)) = [] -> data_ptr g (q_qos qp) = None).

Lemma data_ptr_nref g qp y : data_ptr g (q_qos qp) = Some y -> 0 < nref y qp.
Proof.
  unfold nref, ind. destruct g; cbn [data_ptr]; intros ->; repeat case_decide; first [lia|done].
Qed.

(** Strings in use keep their contents. *)
Lemma shows_kept (st st' : QS) a g r qp :
  shows st a g r -> q_data st !! a = Some qp -> (exists qp', q_data st' !! a = Some qp' /\ q_qos qp' = q_qos qp) ->
  (forall y c, 0 < nref y qp -> cont (q_strs st) y = Some c -> cont (q_strs st') y = Some c) -> shows st' a g r.
Proof.
  intros (qp0 & Ha & Hp & Hd & Hn) Ha' (qp' & Hq' & E) Hc. rewrite Ha' in Ha. injection Ha as <-.
  exists qp'. rewrite E. split; [done|]. split; [done|]. split; [|done].
  intros y Hy. apply Hc; [by eapply data_ptr_nref|by apply Hd].
Qed.

(** What every data set shows is kept; what the other entities see is kept. *)
Definition all_kept (st st' : QS) : Prop := forall a g r, shows st a g r -> shows st' a g r.

Definition frame (st st' : QS) (held : gmap nat nat) (e : nat) : Prop :=
  forall e' a g r, e' <> e -> held !! e' = Some a -> shows st a g r -> shows st' a g r.

Lemma all_kept_frame st st' held e : all_kept st st' -> frame st st' held e.
Proof. intros Hk e' a g r _ _. apply Hk. Qed.

Lemma all_kept_trans st1 st2 st3 : all_kept st1 st2 -> all_kept st2 st3 -> all_kept st1 st3.
Proof. intros H1 H2 a g r Hs. by apply H2, H1. Qed.

Lemma sets_all_kept (st st' : QS) held pend :
  (forall y, 0 <= pend y) -> sok pend st held -> sets_kept st st' ->
  (forall y c, 0 < uses (q_strs st) y -> cont (q_strs st) y = Some c -> cont (q_strs st') y = Some c) -> all_kept st st'.
Proof.
  intros Hp Hok Hk Hc a g r Hs. pose proof Hs as (qp & Ha & _).
  eapply shows_kept; [exact Hs|exact Ha|exact (Hk _ _ Ha)|]. intros y c Hy. apply Hc.
  pose proof (nref_uses _ _ _ _ _ y Hp Hok Ha). lia.
Qed.

(** ** [qos_new] *)

Lemma nref_data g q y u : other_ptr g q = None -> nref y (mkQos u q) = ind (data_ptr g q) y.
Proof.
  unfold nref. destruct g; cbn [data_ptr other_ptr q_qos]; intros ->; rewrite ind_None; lia.
Qed.

Lemma ind_le p y : ind p y <= 1.
Proof. unfold ind. case_decide; lia. Qed.

Section Op.
Context (g : QGROUP) (r : QosRec) (k : Z).
Context (Hg : is_disc g = false) (Hr : forall p, in_group g p = true -> field_valid p (r p)) (Hk : k + 1 < 2 ^ 30).

Lemma bounded_roomy (st : QS) : bounded k st -> roomy (q_strs st).
Proof. intros [Hb _] y. specialize (Hb y). lia. Qed.

Lemma qos_new_ok (st : QS) held e :
  sok none st held -> bounded k st -> held !! e = None ->
  exists a r' st', new g r st = Some (a, r', st') /\ (forall p, r' p = r p) /\ bounded (k + 1) st' /\ all_kept st st' /\
    match a with
    | None => sok none st' held /\ q_data st' = q_data st
    | Some a => sok none st' (<[e := a]> held) /\ shows st' a g r
    end.
Proof.
  intros Hok Hb He. pose proof (bounded_roomy _ Hb) as Hrm. unfold qos_new.
  destruct (qos_set_ok part_alloc g r Hg Hr st (so_str _ _ _ _ Hok) Hrm)
    as (r' & q & x & s' & -> & Hr' & Hch & Hnp & Hd & Ho & Hsh & _). cbn [mbind option_bind].
  set (st1 := set_strs s' st).
  assert (Hu1 : forall y, uses s' y = uses (q_strs st) y + ind x y).
  { intros y. rewrite (sc_uses _ _ _ _ _ Hch), ind_None. lia. }
  assert (Hok1 : sok (fun y => nref y (mkQos 1 q)) st1 held).
  { destruct Hok as [H1 H2 H3 H4 H5]. constructor; cbn [st1 set_strs q_strs q_data qos_ht]; [apply (sc_ok _ _ _ _ _ Hch)|done..|].
    intros y. rewrite (nref_data g), Hd, Hu1 by done. specialize (H5 y). unfold none in H5. lia. }
  assert (Hfr1 : all_kept st st1).
  { eapply (sets_all_kept st st1 held none none_nonneg); [exact Hok|by intros a qp Ha; exists qp|].
    intros y c Hy. apply (sc_cont _ _ _ _ _ Hch). rewrite ind_None. lia. }
  destruct (qos_add_ok _ st1 held e q k Hok1 (fun _ => eq_refl) He Hnp) as (a & st' & -> & Est & Hres); [apply Hb|done|].
  cbn [mbind option_bind]. exists a, r', st'. split; [done|]. split; [done|].
  assert (Hb1 : forall y, uses (q_strs st') y <= k + 1).
  { intros y. rewrite Est. cbn. rewrite Hu1. pose proof (proj1 Hb y). pose proof (ind_le x y). lia. }
  destruct a as [a|].
  - destruct Hres as (Hok' & (qp & Ha & Hq) & Hkept & Hus). split; [done|]. split; [|split; [done|]].
    + eapply all_kept_trans; [exact Hfr1|]. eapply (sets_all_kept st1 st'); [|exact Hok1|exact Hkept|].
      * intros y. apply nref_nonneg.
      * intros y c _. by rewrite Est.
    + exists qp. rewrite Hq, Est, Hd. split; [done|]. split; [done|].
      split; [apply (sc_new _ _ _ _ _ Hch)|apply (sc_empty _ _ _ _ _ Hch)].
  - subst st'. split; [split; [done|]|].
    + intros b. pose proof (proj2 Hb b). cbn. lia.
    + split; [done|]. split; [|done]. eapply sok_weaken; [|exact Hok1]. intros y. apply nref_nonneg.
Qed.

(** ** [qos_get] *)

Lemma qos_get_ok (st : QS) held e a r0 :
  sok none st held -> held !! e = Some a -> shows st a g r ->
  exists r2, qos_get part_alloc xmalloc_ok a g r0 st = Some (r2, st) /\
    forall p, r2 p = if transferred g p then if is_octets p then POctets octet_seq_init else kept_value p (r p) else r0 p.
Proof.
  intros Hok He (qp & Ha & Hp & Hd & _). unfold qos_get. rewrite Ha. cbn [mbind option_bind].
  destruct (get_loop_ok part_alloc part_realloc qos_alloc ref_ok xmalloc_ok uni_bytes g (q_qos qp) all_qpars r0 st Hg) as (r2 & Hget & Hr2).
  - intros y Hy%data_ptr_nref. pose proof (nref_uses _ _ _ _ _ y none_nonneg Hok Ha). lia.
  - apply (so_str _ _ _ _ Hok).
  - by apply (bool_decide_unpack _).
  - exists r2. split; [done|]. intros p. rewrite Hr2, bool_decide_true by apply all_qpars_complete.
    unfold got. destruct (transferred g p) eqn:Ht; [|done]. destruct (is_octets p) eqn:Ho; [done|]. by rewrite (Hp p Ho Ht).
Qed.
End Op.

(** ** [qos_free] *)

Lemma unref_opt_ok p (st : QS) :
  s_ok (q_strs st) -> (forall y, ind p y <= uses (q_strs st) y) ->
  exists s', unref p st = Some (set_strs s' st) /\ s_ok s' /\ (forall y, uses s' y = uses (q_strs st) y - ind p y) /\ conts_kept (q_strs st) s'.
Proof.
  intros Hs Hp. destruct p as [x|]; cbn [unref].
  - destruct (s_unref_eff (q_strs st) x Hs) as (s' & -> & H1 & H2 & H3); [|by exists s'].
    specialize (Hp x). unfold ind in Hp. rewrite decide_True in Hp by done. lia.
  - exists (q_strs st). split; [by destruct st|]. split; [done|]. split; [|by intros y _].
    intros y. rewrite ind_None. lia.
Qed.

(** The strings of a data set that goes. *)
Lemma release_ok qp (st : QS) :
  s_ok (q_strs st) -> no_parts (q_qos qp) -> (forall y, nref y qp <= uses (q_strs st) y) ->
  exists s', (st1 ← unref (user_data (q_qos qp)) st; st2 ← unref (topic_data (q_qos qp)) st1;
              st3 ← unref (group_data (q_qos qp)) st2; partition_free (partition (q_qos qp)) st3) = Some (set_strs s' st) /\
    s_ok s' /\ (forall y, uses s' y = uses (q_strs st) y - nref y qp) /\ conts_kept (q_strs st) s'.
Proof.
  intros Hs [E1 E2] Hn. unfold nref in *.
  destruct (unref_opt_ok (user_data (q_qos qp)) st Hs) as (s1 & -> & Hs1 & Hu1 & Hc1).
  { intros y. specialize (Hn y). pose proof (ind_nonneg (topic_data (q_qos qp)) y). lia. }
  cbn [mbind option_bind]. destruct (unref_opt_ok (topic_data (q_qos qp)) (set_strs s1 st) Hs1) as (s2 & -> & Hs2 & Hu2 & Hc2).
  { intros y. cbn. rewrite Hu1. specialize (Hn y). lia. }
  cbn [mbind option_bind]. rewrite E1, E2. cbn. exists s2. split; [done|]. split; [done|]. cbn in Hu2, Hc2. split.
  - intros y. rewrite Hu2, Hu1. lia.
  - intros y Hy c Hc. apply Hc2; [done|]. apply Hc1; [|done]. rewrite Hu2 in Hy. pose proof (ind_nonneg (topic_data (q_qos qp)) y). lia.
Qed.

Lemma qos_free_ok (st : QS) held e a k :
  sok none st held -> bounded k st -> k + 1 < 2 ^ 30 -> held !! e = Some a ->
  exists st', fre (Some a) st = Some st' /\ sok none st' (delete e held) /\ bounded k st' /\ frame st st' held e.
Proof.
  intros Hok Hb Hk He. destruct (holder_live _ _ _ _ _ Hok He) as [qp Ha]. unfold qos_free. rewrite Ha. cbn [mbind option_bind].
  destruct (so_data _ _ _ _ Hok a qp Ha) as [Hnp Hpos].
  assert (Hus : q_users qp <= k) by (pose proof (proj2 Hb a) as Hx; unfold users_of in Hx; by rewrite Ha in Hx).
  rewrite (wrap_small 32 (q_users qp - 1)) by (unfold in_u; lia).
  assert (Hheld : forall b, msum (one b) (delete e held) = users_of (q_data st) b - one b a).
  { intros b. pose proof (msum_delete (one b) held e a He) as Hm. rewrite (so_held _ _ _ _ Hok b) in Hm. lia. }
  destruct (Z.eqb_spec (q_users qp - 1) 0) as [E|E]; cbn [negb].
  - destruct (tab_bucket uni_bytes _ _ (q_qos qp) (so_tab _ _ _ _ Hok)) as [chain Hz]. rewrite Hz. cbn [mbind option_bind].
    destruct (tab_set uni_bytes _ _ (q_qos qp) (remove_ref a chain) (so_tab _ _ _ _ Hok)) as [ht Hset]. rewrite Hset. cbn [mbind option_bind].
    destruct (release_ok qp (set_qht ht st) (so_str _ _ _ _ Hok) Hnp) as (s' & Hrel & Hs' & Hu' & Hc').
    { intros y. exact (nref_uses _ _ _ _ _ y none_nonneg Hok Ha). }
    cbn [set_qht q_strs] in Hu', Hc'.
    exists (set_qdata (delete a (q_data st)) (set_strs s' (set_qht ht st))). split.
    { revert Hrel. destruct (unref (user_data (q_qos qp)) (set_qht ht st)) as [st1|]; cbn [mbind option_bind]; [|done].
      destruct (unref (topic_data (q_qos qp)) st1) as [st2|]; cbn [mbind option_bind]; [|done].
      destruct (unref (group_data (q_qos qp)) st2) as [st3|]; cbn [mbind option_bind]; [|done]. by intros ->. }
    assert (Hnew : forall b qb, delete a (q_data st) !! b = Some qb -> b <> a /\ q_data st !! b = Some qb).
    { intros b qb [Hne Hqb]%lookup_delete_Some. by split. }
    assert (Hu0 : forall b, users_of (delete a (q_data st)) b = users_of (q_data st) b - one b a).
    { intros b. unfold users_of, one. case_decide as Eb; [subst; rewrite lookup_delete_eq, Ha; simpl; lia|].
      rewrite lookup_delete_ne by done. lia. }
    split; [|split].
    + constructor; cbn [set_qdata set_strs set_qht q_strs q_data qos_ht]; [done| | | |].
      * eapply (tab_leave uni_bytes _ _ (q_data st)); [apply (so_tab _ _ _ _ Hok)|by rewrite Ha|exact Hz|exact Hset|].
        intros b Hba. by rewrite lookup_delete_ne.
      * intros b qb [_ Hqb]%Hnew. exact (so_data _ _ _ _ Hok b qb Hqb).
      * intros b. by rewrite Hheld, Hu0.
      * intros y. rewrite Hu'. pose proof (so_refs _ _ _ _ Hok y) as Hy. rewrite (msum_delete _ _ _ _ Ha) in Hy. lia.
    + split; cbn [set_qdata set_strs set_qht q_strs q_data qos_ht].
      * intros y. rewrite Hu'. pose proof (proj1 Hb y). pose proof (nref_nonneg y qp). lia.
      * intros b. rewrite Hu0. pose proof (proj2 Hb b). pose proof (one_nonneg b a). lia.
    + intros e' a' g r Hne He' Hsh. destruct (holder_live _ _ _ _ _ Hok He') as [qp' Ha'].
      assert (Haa : a' <> a) by (intros ->; apply Hne; eapply sole_holder; [exact Hok|exact He|exact He'|exact Ha|lia]).
      eapply shows_kept; [exact Hsh|exact Ha'| |].
      * exists qp'. cbn. by rewrite lookup_delete_ne.
      * intros y c Hy Hc. cbn. apply Hc'; [|done]. rewrite Hu'. pose proof (so_refs _ _ _ _ Hok y) as Hrf.
        rewrite (msum_delete _ _ _ _ Ha) in Hrf. unfold none in Hrf.
        pose proof (msum_ge (nref y) (nref_nonneg y) (delete a (q_data st)) a' qp') as Hge.
        rewrite lookup_delete_ne in Hge by done. specialize (Hge Ha'). lia.
  - destruct (qos_users_ok none st held (delete e held) a qp (q_users qp - 1) Hok Ha) as [Hok' Hkept]; [lia| |].
    { intros b. rewrite Hheld, one_cases. case_decide as Eb; [subst|rewrite (so_held _ _ _ _ Hok b); lia].
      unfold users_of. rewrite Ha. simpl. lia. }
    eexists. split; [reflexivity|]. split; [exact Hok'|]. split; [split|].
    + apply Hb.
    + intros b. cbn [set_qdata q_data]. rewrite users_of_update. case_decide; cbn; [lia|apply Hb].
    + apply all_kept_frame. eapply (sets_all_kept _ _ _ none none_nonneg); [exact Hok|exact Hkept|done].
Qed.

(** ** [qos_update] *)

(** The table after the data set at [a] has changed from [q] to [q']. *)
Definition rehash (a : nat) (q q' : UniQos) (st : QS) : option (list (list nat) * Z) :=
  if hash q =? hash q' then Some (qos_ht st, OK)
  else
    chain ← zget (qos_ht st) (hash q);
    if bool_decide (a ∈ chain) || ref_ok st then
      ht ← zset (qos_ht st) (hash q) (remove_ref a chain);
      nchain ← zget ht (hash q');
      ht ← zset ht (hash q') (a :: nchain);
      Some (ht, OK)
    else Some (qos_ht st, retcode DDS_RETCODE_OUT_OF_RESOURCES).

Lemma rehash_ok a qp q' m (st : QS) :
  tab (qos_ht st) m -> m !! a = Some qp -> q_data st = <[a := mkQos (q_users qp) q']> m ->
  exists ht rc, rehash a (q_qos qp) q' st = Some (ht, rc) /\ tab ht (q_data st).
Proof.
  intros Htab Ha Em. unfold rehash.
  assert (Hoth : forall b, b <> a -> q_qos <$> q_data st !! b = q_qos <$> m !! b) by (intros b Hb; by rewrite Em, lookup_insert_ne).
  assert (Hnew : q_qos <$> q_data st !! a = Some q') by (by rewrite Em, lookup_insert_eq).
  assert (Hold : q_qos <$> m !! a = Some (q_qos qp)) by (by rewrite Ha).
  destruct (Z.eqb_spec (hash (q_qos qp)) (hash q')) as [Eh|Eh].
  - eexists _, _. split; [done|]. destruct Htab as [Hl Ht]. split; [done|]. intros h chain Hz.
    destruct (Ht _ _ Hz) as [Hnd Hin]. split; [done|]. intros b Hb. destruct (Hin _ Hb) as (qb & Hqb & Hh).
    destruct (decide (b = a)) as [->|Hne]; [|rewrite Hoth by done; by exists qb].
    exists q'. split; [done|]. rewrite Hold in Hqb. injection Hqb as <-. congruence.
  - destruct (tab_bucket uni_bytes _ _ (q_qos qp) Htab) as [chain Hz]. rewrite Hz. cbn [mbind option_bind].
    destruct (bool_decide (a ∈ chain) || ref_ok st) eqn:Ec.
    + destruct (tab_set uni_bytes _ _ (q_qos qp) (remove_ref a chain) Htab) as [ht Hs]. rewrite Hs. cbn [mbind option_bind].
      destruct (tab_leave uni_bytes _ _ _ (q_data st) a _ _ Htab Hold Hz Hs Hoth) as [Htab' Hout].
      destruct (tab_bucket uni_bytes _ _ q' Htab') as [nchain Hnz]. rewrite Hnz. cbn [mbind option_bind].
      destruct (tab_set uni_bytes _ _ q' (a :: nchain) Htab') as [ht' Hs']. rewrite Hs'. cbn [mbind option_bind].
      eexists _, _. split; [done|]. eapply tab_enter; [exact Htab'|exact Hnew|exact Hnz|by eapply Hout|exact Hs'].
    + apply orb_false_iff in Ec as [Ec _]. apply bool_decide_eq_false in Ec.
      eexists _, _. split; [done|]. eapply tab_ext; [exact Htab|]. intros h c b Hc Hb. apply Hoth. intros ->.
      destruct (proj2 Htab _ _ Hc) as [_ Hin]. destruct (Hin _ Hb) as (qb & Hqb & Hh). congruence.
Qed.

Lemma qos_update_place a qp g r (st : QS) :
  q_data st !! a = Some qp -> q_users qp <= 1 ->
  upd (Some a) g r st =
    ('(r', q, st1) ← qos_update_loop part_alloc part_realloc all_qpars g r (q_qos qp) st;
     let st2 := set_qdata (<[a := mkQos (q_users qp) q]> (q_data st1)) st1 in
     '(ht, rc) ← rehash a (q_qos qp) q st2;
     Some (Some a, r', set_qht ht st2, rc)).
Proof.
  intros Ha Hu. unfold qos_update. rewrite Ha. cbn [mbind option_bind]. rewrite (proj2 (Z.ltb_ge _ _)) by done.
  destruct (qos_update_loop _ _ _ _ _ _ _) as [[[r' q] st1]|]; cbn [mbind option_bind]; [|done].
  unfold rehash. destruct (_ =? _); cbn [mbind option_bind]; [by destruct st1|].
  cbn [set_qdata qos_ht]. destruct (zget (qos_ht st1) _) as [chain|]; cbn [mbind option_bind]; [|done].
  destruct (_ || _); cbn [mbind option_bind]; [|by destruct st1].
  destruct (zset _ _ (remove_ref a chain)) as [ht|]; cbn [mbind option_bind]; [|done].
  destruct (zget ht _) as [nchain|]; cbn [mbind option_bind]; [|done]. by destruct (zset ht _ _).
Qed.

Lemma nref_split g y qp : nref y qp = ind (data_ptr g (q_qos qp)) y + ind (other_ptr g (q_qos qp)) y.
Proof. unfold nref. destruct g; cbn [data_ptr other_ptr]; lia. Qed.

Section Update.
Context (g : QGROUP) (r : QosRec) (k : Z).
Context (Hg : is_disc g = false) (Hr : forall p, in_group g p = true -> field_valid p (r p)) (Hk : k + 1 < 2 ^ 30).

(** What an update leaves: an error may come after the change. *)
Definition updated (st st' : QS) (held : gmap nat nat) (e a a' : nat) (rc : Z) : Prop :=
  sok none st' (<[e := a']> held) /\ bounded (k + 1) st' /\ frame st st' held e /\
  (shows st' a' g r \/ rc <> OK /\ a' = a /\ forall g0 r0, shows st a g0 r0 -> shows st' a g0 r0).

Lemma update_place_ok (st : QS) held e a qp :
  sok none st held -> bounded k st -> held !! e = Some a -> q_data st !! a = Some qp -> q_users qp = 1 ->
  exists r' st' rc, upd (Some a) g r st = Some (Some a, r', st', rc) /\ (forall p, r' p = r p) /\ updated st st' held e a a rc.
Proof.
  intros Hok Hb He Ha Hu. rewrite (qos_update_place _ _ _ _ _ Ha) by lia.
  destruct (so_data _ _ _ _ Hok a qp Ha) as [Hnp _].
  assert (Hrf : forall y, msum (nref y) (delete a (q_data st)) + nref y qp <= uses (q_strs st) y).
  { intros y. pose proof (so_refs _ _ _ _ Hok y) as Hy. rewrite (msum_delete _ _ _ _ Ha) in Hy. unfold none in Hy. lia. }
  destruct (qos_update_loop_ok part_alloc part_realloc g r Hg Hr (q_qos qp) st (so_str _ _ _ _ Hok)
    (bounded_roomy k Hk _ Hb) Hnp) as (r' & q' & x & s' & -> & Hr' & Hch & Hnp' & Hd & Ho & Hsh).
  { intros y Hy%data_ptr_nref. pose proof (nref_uses _ _ _ _ _ y none_nonneg Hok Ha). lia. }
  cbn [mbind option_bind]. cbv zeta. cbn [set_strs q_data q_strs q_parts qos_ht].
  set (st2 := set_qdata _ _).
  destruct (rehash_ok a qp q' (q_data st) st2 (so_tab _ _ _ _ Hok) Ha eq_refl) as (ht & rc & -> & Htab).
  cbn [mbind option_bind]. eexists r', _, rc. split; [reflexivity|]. split; [done|]. split; [|split; [|split]].
  - rewrite insert_id by done. constructor; cbn [set_qht q_strs q_data qos_ht].
    + apply (sc_ok _ _ _ _ _ Hch).
    + done.
    + intros b qb. cbn. destruct (decide (a = b)) as [->|Hne]; [rewrite lookup_insert_eq; intros [= <-]; split; [done|cbn; lia]|].
      rewrite lookup_insert_ne by done. apply (so_data _ _ _ _ Hok).
    + intros b. cbn. rewrite users_of_update, (so_held _ _ _ _ Hok b). case_decide as E; [|done]. subst. unfold users_of. by rewrite Ha.
    + intros y. cbn. rewrite (msum_update _ _ _ _ _ Ha), (msum_delete _ _ _ _ Ha), (sc_uses _ _ _ _ _ Hch).
      rewrite (nref_split g y (mkQos _ q')). cbn [q_qos]. rewrite Hd, Ho. specialize (Hrf y). rewrite (nref_split g y qp) in *. unfold none. lia.
  - split; cbn.
    + intros y. rewrite (sc_uses _ _ _ _ _ Hch). pose proof (proj1 Hb y). pose proof (ind_le x y).
      pose proof (ind_nonneg (data_ptr g (q_qos qp)) y). lia.
    + intros b. rewrite users_of_update. pose proof (proj2 Hb b). case_decide as E; cbn; [|lia].
      subst. unfold users_of in *. rewrite Ha in *. cbn in *. lia.
  - intros e' a' g' r1 Hne He' Hs1. destruct (holder_live _ _ _ _ _ Hok He') as [qp' Ha'].
    assert (Haa : a' <> a) by (intros ->; apply Hne; eapply sole_holder; [exact Hok|exact He|exact He'|exact Ha|exact Hu]).
    eapply shows_kept; [exact Hs1|exact Ha'| |].
    + exists qp'. cbn. by rewrite lookup_insert_ne.
    + intros y c Hy. cbn. apply (sc_cont _ _ _ _ _ Hch).
      pose proof (msum_ge (nref y) (nref_nonneg y) (delete a (q_data st)) a' qp') as Hge.
      rewrite lookup_delete_ne in Hge by done. specialize (Hge Ha'). specialize (Hrf y). rewrite (nref_split g y qp) in Hrf.
      pose proof (ind_nonneg (other_ptr g (q_qos qp)) y). lia.
  - left. exists (mkQos (q_users qp) q'). cbn [set_qht q_data st2 set_qdata q_strs set_strs q_qos]. rewrite lookup_insert_eq, Hd.
    split; [done|]. split; [done|]. split; [apply (sc_new _ _ _ _ _ Hch)|apply (sc_empty _ _ _ _ _ Hch)].
Qed.

(** A data set that is shared is left to the others. *)
Lemma update_shared_ok (st : QS) held e a qp :
  sok none st held -> bounded k st -> held !! e = Some a -> q_data st !! a = Some qp -> 1 < q_users qp ->
  exists a' r' st' rc, upd (Some a) g r st = Some (Some a', r', st', rc) /\ (forall p, r' p = r p) /\ updated st st' held e a a' rc.
Proof.
  intros Hok Hb He Ha Hu. unfold qos_update. rewrite Ha. cbn [mbind option_bind]. rewrite (proj2 (Z.ltb_lt _ _)) by done.
  assert (Hus : q_users qp <= k) by (pose proof (proj2 Hb a) as Hx; unfold users_of in Hx; by rewrite Ha in Hx).
  rewrite (wrap_small 32 (q_users qp - 1)) by (unfold in_u; lia).
  assert (Hheld : forall b, msum (one b) (delete e held) = users_of (q_data st) b - one b a).
  { intros b. pose proof (msum_delete (one b) held e a He) as Hm. rewrite (so_held _ _ _ _ Hok b) in Hm. lia. }
  set (st1 := set_qdata _ _).
  destruct (qos_users_ok none st held (delete e held) a qp (q_users qp - 1) Hok Ha) as [Hok1 Hkept1]; [lia| |].
  { intros b. rewrite Hheld, one_cases. case_decide as Eb; [subst|rewrite (so_held _ _ _ _ Hok b); lia].
    unfold users_of. rewrite Ha. simpl. lia. }
  fold st1 in Hok1, Hkept1.
  assert (Hb1 : bounded k st1).
  { split; [apply Hb|]. intros b. cbn. rewrite users_of_update. case_decide; cbn; [lia|apply Hb]. }
  assert (Hfr1 : all_kept st st1) by (eapply (sets_all_kept _ _ _ none none_nonneg); [exact Hok|exact Hkept1|done]).
  destruct (qos_new_ok g r k Hg Hr Hk st1 (delete e held) e Hok1 Hb1 (lookup_delete_eq _ _))
    as (na & r' & st' & -> & Hr' & Hb' & Hfr' & Hres). cbn [mbind option_bind].
  pose proof (all_kept_trans _ _ _ Hfr1 Hfr') as Hfr.
  destruct na as [a'|].
  - destruct Hres as [Hok' Hsh]. exists a', r', st', OK. split; [done|]. split; [done|]. split; [by rewrite insert_delete_eq in Hok'|].
    split; [done|]. split; [by apply all_kept_frame|by left].
  - destruct Hres as [Hok' Hdata].
    assert (Ha' : q_data st' !! a = Some (mkQos (q_users qp - 1) (q_qos qp))) by (rewrite Hdata; apply lookup_insert_eq).
    rewrite Ha'. cbn [mbind option_bind q_users q_qos].
    rewrite (wrap_small 32 (q_users qp - 1 + 1)) by (unfold in_u; lia). replace (q_users qp - 1 + 1) with (q_users qp) by lia.
    destruct (qos_users_ok none st' (delete e held) held a _ (q_users qp) Hok' Ha') as [Hok2 Hkept2]; [lia| |].
    { intros b. rewrite Hheld, (so_held _ _ _ _ Hok b), one_cases. case_decide as Eb; [subst|lia]. unfold users_of. rewrite Ha. simpl. lia. }
    pose proof (sets_all_kept _ _ _ none none_nonneg Hok' Hkept2 ltac:(done)) as Hfr2. cbn [q_qos] in *.
    pose proof (all_kept_trans _ _ _ Hfr Hfr2) as Hfr3.
    eexists a, r', _, _. split; [reflexivity|]. split; [done|]. split; [rewrite (insert_id held e a) by done; exact Hok2|].
    split; [|split; [exact (all_kept_frame _ _ _ _ Hfr3)|right; split; [done|split; [done|exact (Hfr3 a)]]]].
    split; [apply Hb'|]. intros b. cbn. rewrite users_of_update. case_decide; cbn; [lia|apply Hb'].
Qed.
End Update.

(** ** A new data set that is released again *)

(** What [qos_add] did: another user of a data set, or a data set of its own. *)
Lemma qos_add_cases pend (st st1 : QS) held q a :
  sok pend st held -> add q st = Some (Some a, st1) ->
  q_strs st1 = q_strs st /\
  match q_data st !! a with
  | Some qp => q_qos qp = q /\ st1 = set_qdata (<[a := mkQos ⟦q_users qp + 1⟧32 (q_qos qp)]> (q_data st)) st
  | None => q_data st1 = <[a := mkQos 1 q]> (q_data st)
  end.
Proof.
  intros Hok. unfold qos_add.
  destruct (tab_bucket uni_bytes _ _ q (so_tab _ _ _ _ Hok)) as [chain Hz]. rewrite Hz. cbn [mbind option_bind].
  pose proof (qos_lookup_ok uni_bytes _ _ q chain (so_tab _ _ _ _ Hok) Hz) as Hl.
  destruct (qos_lookup (q_data st) chain q) as [[b|]|]; [| |done]; cbn [mbind option_bind].
  - destruct Hl as (_ & qp & Ha & Hq). rewrite Ha. cbn [mbind option_bind]. intros [= <- <-]. rewrite Ha. done.
  - destruct (qos_alloc st) as [b|] eqn:Ea; [|done]. pose proof (Hqa _ _ Ea) as Ha. destruct (ref_ok _).
    + destruct (zset _ _ _) as [ht|]; cbn [mbind option_bind]; [|done]. intros [= <- <-]. by rewrite Ha.
    + intros [= <- <-]. by rewrite Ha.
Qed.

Lemma new_free g r (st st1 : QS) held e a r' k :
  is_disc g = false -> (forall p, in_group g p = true -> field_valid p (r p)) -> k + 2 < 2 ^ 30 ->
  sok none st held -> bounded k st -> held !! e = None ->
  new g r st = Some (Some a, r', st1) ->
  exists st2, fre (Some a) st1 = Some st2 /\ q_data st2 = q_data st /\
    forall y, uses (q_strs st2) y =
      uses (q_strs st) y + match q_data st !! a with Some qp => ind (data_ptr g (q_qos qp)) y | None => 0 end.
Proof.
  intros Hg Hr Hk Hok Hb He. unfold qos_new.
  destruct (qos_set_ok part_alloc g r Hg Hr st (so_str _ _ _ _ Hok) (bounded_roomy k ltac:(lia) _ Hb))
    as (r1 & q & x & s' & -> & Hr1 & Hch & Hnp & Hd & Ho & Hsh & _). cbn [mbind option_bind].
  assert (Hu1 : forall y, uses s' y = uses (q_strs st) y + ind x y).
  { intros y. rewrite (sc_uses _ _ _ _ _ Hch), ind_None. lia. }
  assert (Hok1 : sok (fun y => nref y (mkQos 1 q)) (set_strs s' st) held).
  { destruct Hok as [H1 H2 H3 H4 H5]. constructor; cbn [set_strs q_strs q_data qos_ht]; [apply (sc_ok _ _ _ _ _ Hch)|done..|].
    intros y. rewrite (nref_data g), Hd, Hu1 by done. specialize (H5 y). unfold none in H5. lia. }
  destruct (add q (set_strs s' st)) as [[na st1']|] eqn:Eadd; cbn [mbind option_bind]; [|done]. intros [= -> -> ->].
  destruct (qos_add_cases _ _ _ _ _ _ Hok1 Eadd) as [Est Hcase]. cbn [set_strs q_data q_strs] in Hcase, Est.
  destruct (qos_add_ok _ _ held e q k Hok1 (fun _ => eq_refl) He Hnp (proj2 Hb) ltac:(lia)) as (a' & st1'' & Eadd' & _ & Hres).
  rewrite Eadd in Eadd'. injection Eadd' as <- <-. destruct Hres as (Hok2 & (qp2 & Hqp2 & Eq2) & _ & _).
  destruct (q_data st !! a) as [qp|] eqn:Ea.
  - destruct Hcase as [Eq ->]. pose proof (so_data _ _ _ _ Hok a qp Ea) as [_ Hpos].
    pose proof (proj2 Hb a) as Hka. unfold users_of in Hka. rewrite Ea in Hka. simpl in Hka.
    unfold qos_free. cbn [set_qdata q_data]. rewrite lookup_insert_eq. cbn [mbind option_bind q_users q_qos].
    rewrite (wrap_small 32 (q_users qp + 1)) by (unfold in_u; lia). replace (q_users qp + 1 - 1) with (q_users qp) by lia.
    rewrite (wrap_small 32 (q_users qp)) by (unfold in_u; lia). rewrite (proj2 (Z.eqb_neq _ _)) by lia. cbn [negb].
    eexists. split; [reflexivity|]. cbn. split.
    + rewrite insert_insert_eq, insert_id; [done|]. by destruct qp.
    + intros y. rewrite Hu1, Eq, Hd. done.
  - unfold qos_free. rewrite Hcase, lookup_insert_eq. cbn [mbind option_bind q_users q_qos]. cbn [negb Z.eqb Z.sub wrap].
    change (⟦1 - 1⟧32 =? 0) with true. cbn [negb].
    destruct (tab_bucket uni_bytes _ _ q (so_tab _ _ _ _ Hok2)) as [chain Hz]. rewrite Hz. cbn [mbind option_bind].
    destruct (tab_set uni_bytes _ _ q (remove_ref a chain) (so_tab _ _ _ _ Hok2)) as [ht Hset]. rewrite Hset. cbn [mbind option_bind].
    destruct (release_ok (mkQos 1 q) (set_qht ht st1) (so_str _ _ _ _ Hok2) Hnp) as (s2 & Hrel & _ & Hu2 & _).
    { intros y. rewrite (nref_data g) by done. cbn. rewrite Est, Hd, Hu1. pose proof (uses_nonneg _ y (so_str _ _ _ _ Hok)). lia. }
    exists (set_qdata (delete a (q_data st1)) (set_strs s2 (set_qht ht st1))). split; [|split].
    + revert Hrel. cbn [q_qos]. destruct (unref (user_data q) (set_qht ht st1)) as [sa|]; cbn [mbind option_bind]; [|done].
      destruct (unref (topic_data q) sa) as [sb|]; cbn [mbind option_bind]; [|done].
      destruct (unref (group_data q) sb) as [sc|]; cbn [mbind option_bind]; [|done]. by intros ->.
    + cbn. rewrite Hcase, delete_insert_eq, delete_id; done.
    + intros y. cbn. rewrite Hu2. cbn. rewrite Est, (nref_data g), Hd, Hu1 by done. lia.
Qed.

End Share.
