(* ===== verification/QosGroup.v ===== *)
(** The QoS of publishers and subscribers (dds/uqos.c): what [qos_group_new]
    stores is what [qos_group_get] gives back, partition names included. *)

From stdpp Require Import gmap.
From S2P Require Import Prelude CLib TypeData Scan QosSet QosStore QosTable.
From stdpp Require Import list.
From S2P Require Import Qos.

#[local] Open Scope Z_scope.

(** A C string. *)
Definition c_string (s : list Z) : Prop := Forall (fun c => c <> 0) s.

Lemma cstring_nul s rest : c_string s -> cstring (s ++ 0 :: rest) = Some s.
Proof. induction 1 as [|c s Hc _ IH]; simpl; [done|]. rewrite (proj2 (Z.eqb_neq _ _)) by done. by rewrite IH. Qed.

(** The names that a partition policy holds. *)
Definition names_of (v : PolVal) : option (list (option (list Z))) :=
  match v with PNames v => seq_names v | _ => None end.

Section Group.
Context {S : Type} `{StrLaws S}.
Context (part_alloc : @QState S -> option nat) (part_realloc : @QState S -> nat -> option nat) (xmalloc_ok : Z -> bool).

(** Memory can be had. *)
Context (Hnew : forall c s r s', s_new c s = Some (r, s') -> r <> None).
Context (Hpart : forall st, part_alloc st <> None) (Hx : forall n, xmalloc_ok n = true).

Abbreviation QS := (@QState S).

(** Strings that exist stay. *)
Definition conts_mono (s s' : S) : Prop := forall y c, cont s y = Some c -> cont s' y = Some c.

Lemma s_new_mono c s k :
  s_ok s -> (forall y, uses s y <= k) -> k + 1 < 2 ^ 30 ->
  exists y s', s_new c s = Some (Some y, s') /\ s_ok s' /\ (forall y, uses s' y <= k + 1) /\
    conts_mono s s' /\ cont s' y = Some c.
Proof.
  intros Hs Hk Hr. destruct (s_new_eff s c Hs) as (r & s' & Hn & Hs' & Hu & Hc & Hy); [intros y; specialize (Hk y); lia|].
  destruct r as [y|]; [|by destruct (Hnew _ _ _ _ Hn)]. exists y, s'. split; [done|]. split; [done|]. split; [|split; [|by apply Hy]].
  - intros z. rewrite Hu. specialize (Hk z). unfold ind. case_decide; lia.
  - intros z d Hz. apply Hc; [|done]. rewrite Hu. pose proof (ind_nonneg (Some y) z).
    pose proof (proj2 (uses_live s z Hs) (ex_intro _ _ Hz)). lia.
Qed.

Definition named (s : S) (n : list Z) (p : option nat) : Prop := exists y, p = Some y /\ cont s y = Some (n ++ [0]).

Lemma named_mono s s' ns ps : conts_mono s s' -> Forall2 (named s) ns ps -> Forall2 (named s') ns ps.
Proof. intros Hm Hall. eapply Forall2_impl; [exact Hall|]. intros n p (y & -> & Hy). exists y. split; [done|by apply Hm]. Qed.

Lemma new_names_ok ns (st : QS) k :
  s_ok (q_strs st) -> (forall y, uses (q_strs st) y <= k) -> k + zlen ns < 2 ^ 30 ->
  exists ps s', new_names (Some <$> ns) st = Some (ps, set_strs s' st) /\ s_ok s' /\
    (forall y, uses s' y <= k + zlen ns) /\ conts_mono (q_strs st) s' /\ Forall2 (named s') ns ps.
Proof.
  revert st k. induction ns as [|n ns IH]; intros st k Hs Hk Hr; [|rewrite fmap_cons]; cbn [new_names].
  { exists [], (q_strs st). split; [by destruct st|]. split; [done|]. rewrite zlen_nil. split; [|split; [by intros y|constructor]].
    intros y. specialize (Hk y). lia. }
  cbn [mbind option_bind]. rewrite zlen_cons in *. pose proof (zlen_nonneg ns).
  destruct (s_new_mono (n ++ [0]) (q_strs st) k Hs Hk ltac:(lia)) as (y & s1 & -> & Hs1 & Hk1 & Hm1 & Hy). cbn [mbind option_bind].
  destruct (IH (set_strs s1 st) (k + 1) Hs1 Hk1 ltac:(lia)) as (ps & s' & HL & Hs' & Hk' & Hm' & Hall).
  rewrite HL. cbn [mbind option_bind].
  exists (Some y :: ps), s'. split; [done|]. split; [done|]. split; [|split].
  - intros z. specialize (Hk' z). lia.
  - intros z c Hz. by apply Hm', Hm1.
  - constructor; [|done]. exists y. split; [done|by apply Hm'].
Qed.

Lemma part_cstrings_ok ns ps (st : QS) :
  Forall c_string ns -> Forall2 (named (q_strs st)) ns ps -> part_cstrings ps st = Some (Some <$> ns).
Proof.
  intros Hc Hall. revert Hc. induction Hall as [|n p ns ps (y & -> & Hy) _ IH]; intros Hc; [done|].
  inversion Hc as [|? ? Hn Hns]; subst. cbn [part_cstrings mbind option_bind]. unfold cont in Hy. rewrite Hy. cbn [mbind option_bind].
  rewrite (cstring_nul n []) by done. cbn [mbind option_bind]. by rewrite IH.
Qed.

(** The partition that a policy is stored as. *)
Definition stored_names (st : QS) (ns : list (list Z)) (p : option nat) : Prop :=
  match p with
  | None => ns = []
  | Some b => exists ps, q_parts st !! b = Some (mkPart (zlen ns) (zlen ns) ps) /\ Forall2 (named (q_strs st)) ns ps
  end.

Lemma partition_set_ok v q (st : QS) k :
  valid_fct QT_PARTITION v false = Some OK -> field_ok v ->
  s_ok (q_strs st) -> (forall y, uses (q_strs st) y <= k) -> (forall l, names_of v = Some l -> k + zlen l < 2 ^ 30) ->
  exists ns x s' st', names_of v = Some (Some <$> ns) /\ qt_partition_set part_alloc v q false st = Some (v, set_partition x q, st') /\
    q_strs st' = s' /\ s_ok s' /\ (forall y, uses s' y <= k + zlen ns) /\ stored_names st' ns x.
Proof.
  intros Hv Hf Hs Hk Hroom. destruct v as [| | | |w| | | | | | | | | |]; try discriminate Hv. cbn [valid_fct] in Hv. cbn [names_of] in *.
  destruct Hf as [Hl0 Hb]. unfold qt_partition_set, seq_names in *. destruct (Z.eqb_spec (ss_length w) 0) as [E|E].
  { exists [], None, (q_strs st), st. split; [done|]. split; [done|]. split; [done|]. split; [done|]. split; [|done].
    intros y. rewrite zlen_nil. specialize (Hk y). lia. }
  unfold qt_partition_valid in Hv. rewrite (proj2 (Z.eqb_neq _ _)) in Hv by done.
  destruct (ss_buffer w) as [b|] eqn:Eb; [|cbn in Hv; rewrite orb_true_r in Hv; done]. specialize (Hb b eq_refl).
  cbn [negb andb orb] in Hv. rewrite orb_false_r in Hv. destruct ((_ <? _) || _) eqn:Ec; [done|]. zbool.
  cbn [mbind option_bind] in *. rewrite (zslice_Some b) in * by lia. cbn [mbind option_bind] in *. change (zdrop 0 b) with b in *.
  injection Hv as Hv. apply ok_if_OK in Hv.
  assert (Hns : exists ns, ztake (ss_length w) b = Some <$> ns).
  { clear -Hv. induction (ztake (ss_length w) b) as [|[n|] l IH]; [by exists []| |done].
    destruct (IH Hv) as [ns ->]. by exists (n :: ns). }
  destruct Hns as [ns Ens]. rewrite Ens in *.
  assert (Hlen : zlen ns = ss_length w).
  { pose proof (zlen_ztake b (ss_length w) ltac:(lia)) as Hlt. rewrite Ens in Hlt. unfold zlen in *. by rewrite length_fmap in Hlt. }
  destruct (part_alloc st) as [x|] eqn:Ep; [|by destruct (Hpart st)].
  destruct (new_names_ok ns st k Hs Hk) as (ps & s' & -> & Hs' & Hk' & Hm & Hall).
  { specialize (Hroom _ eq_refl). unfold zlen in *. rewrite length_fmap in Hroom. lia. }
  cbn [mbind option_bind]. eexists ns, (Some x), s', _. split; [done|]. split; [reflexivity|]. split; [done|]. split; [done|].
  split; [done|]. exists ps. cbn. rewrite lookup_insert_eq, Hlen. done.
Qed.

Lemma partition_get_ok ns q (st : QS) :
  Forall c_string ns -> stored_names st ns (partition q) ->
  exists v, qt_partition_get part_alloc xmalloc_ok q false st = Some (v, st) /\ names_of v = Some (Some <$> ns).
Proof.
  intros Hc Hst. unfold qt_partition_get. destruct (partition q) as [b|]; cbn [stored_names] in Hst.
  - destruct Hst as (ps & -> & Hall). cbn [mbind option_bind p_len p_buf]. rewrite Hx.
    assert (Hlen : zlen ps = zlen ns) by (apply Forall2_length in Hall; unfold zlen; lia).
    rewrite ztake_full by lia. rewrite (part_cstrings_ok ns) by done. cbn [mbind option_bind]. eexists. split; [done|].
    cbn [names_of]. unfold seq_names. cbn [ss_length ss_buffer].
    destruct (Z.eqb_spec (zlen ns) 0) as [E|E]; [by destruct ns|]. cbn [mbind option_bind].
    assert (Hl : zlen (Some <$> ns) = zlen ns) by (unfold zlen; by rewrite length_fmap).
    rewrite zslice_Some by (pose proof (zlen_nonneg ns); lia). change (zdrop 0 (Some <$> ns)) with (Some <$> ns).
    by rewrite ztake_full by lia.
  - subst ns. by eexists.
Qed.

Definition group_pars : list QPAR := [QP_PRESENTATION; QP_PARTITION; QP_GROUP_DATA; QP_ENTITY_FACTORY].

Lemma group_ldesc l : l <> QL_PARTICIPANT -> qos_ldesc l = group_pars.
Proof. by destruct l. Qed.

Section Valid.
Context (r : QosRec) (st : QS) (k : Z).
Context (Hv : forall p, p ∈ group_pars -> field_valid p (r p)).
Context (Hs : s_ok (q_strs st)) (Hk : forall y, uses (q_strs st) y <= k).
Context (Hroom : forall l, names_of (r QP_PARTITION) = Some l -> k + zlen l + 1 < 2 ^ 30).

(** The steps of the loop over the four policies. *)
Lemma set_plain_fct p v q (st0 : QS) :
  p = QP_PRESENTATION \/ p = QP_ENTITY_FACTORY ->
  set_fct part_alloc (qtype (qos_desc p)) v q (uni_ofs (qos_desc p)) false st0 =
  (q ← qt_plain_set (qtype (qos_desc p)) v q (uni_ofs (qos_desc p)); Some (v, q, st0)).
Proof. by intros [-> | ->]. Qed.

Lemma stored_names_mono (st1 : QS) s' ns x :
  conts_mono (q_strs st1) s' -> stored_names st1 ns x -> stored_names (set_strs s' st1) ns x.
Proof.
  intros Hm Hst. destruct x as [b|]; [|done]. destruct Hst as (ps & Hb & Hall). exists ps. split; [done|].
  by eapply named_mono.
Qed.

(** What the group keeps. *)
Lemma group_set_ok q0 :
  exists q st' ns, group_set_loop part_alloc part_realloc false group_pars r q0 st = Some (q, st') /\
    names_of (r QP_PARTITION) = Some (Some <$> ns) /\ stored_names st' ns (partition q) /\ s_ok (q_strs st') /\
    (forall y, group_data q = Some y -> exists c, cont (q_strs st') y = Some c) /\
    plain_view q QP_PRESENTATION = Some (r QP_PRESENTATION) /\ plain_view q QP_ENTITY_FACTORY = Some (r QP_ENTITY_FACTORY) /\
    0 <= no_autodispose q < 2.
Proof.
  unfold group_pars. cbn [group_set_loop].
  destruct (plain_set_ok QP_PRESENTATION (r QP_PRESENTATION) q0) as (q1 & Hq1 & _ & Hv1);
    [done|done|done|apply Hv; by left|]. cbn [kept_value] in Hv1.
  rewrite (set_plain_fct QP_PRESENTATION) by (by left). rewrite Hq1. cbn [mbind option_bind].
  destruct (Hv QP_PARTITION) as [Hv2 Hf2]; [by right; left|].
  destruct (partition_set_ok (r QP_PARTITION) q1 st k Hv2 Hf2 Hs Hk) as (ns & x & s2 & st2 & Hns & Hset & <- & Hs2 & Hk2 & Hst2).
  { intros l Hl. specialize (Hroom l Hl). lia. }
  change (set_fct part_alloc (qtype (qos_desc QP_PARTITION)) (r QP_PARTITION) q1 (uni_ofs (qos_desc QP_PARTITION)) false st)
    with (qt_partition_set part_alloc (r QP_PARTITION) q1 false st).
  rewrite Hset. cbn [mbind option_bind].
  assert (Hr2 : roomy (q_strs st2)).
  { intros y. specialize (Hk2 y). specialize (Hroom _ Hns). unfold zlen in *. rewrite length_fmap in Hroom. lia. }
  destruct (octets2str_ok QP_GROUP_DATA (r QP_GROUP_DATA) st2) as (gd & s3 & w & Ew & He & Hch);
    [done|apply Hv; by right; right; left|done|done|].
  change (set_fct part_alloc (qtype (qos_desc QP_GROUP_DATA)) (r QP_GROUP_DATA) (set_partition x q1) (uni_ofs (qos_desc QP_GROUP_DATA)) false st2)
    with (qt_os_set (r QP_GROUP_DATA) (set_partition x q1) F_group_data false st2).
  rewrite Ew. cbn [qt_os_set]. rewrite He. cbn [mbind option_bind set_uni_string].
  destruct (plain_set_ok QP_ENTITY_FACTORY (r QP_ENTITY_FACTORY) (set_group_data gd (set_partition x q1))) as (q4 & Hq4 & Hss & Hv4);
    [done|done|done|apply Hv; by right; right; right; left|]. cbn [kept_value] in Hv4.
  rewrite (set_plain_fct QP_ENTITY_FACTORY) by (by right). rewrite Hq4. cbn [mbind option_bind].
  exists q4, (set_strs s3 st2), ns. split; [done|]. split; [done|]. destruct Hss as (_ & _ & Egd & Epart).
  rewrite Egd, Epart. cbn [set_group_data set_partition group_data partition]. split; [|split; [apply (sc_ok _ _ _ _ _ Hch)|split; [|split; [|split; [done|]]]]].
  - apply stored_names_mono; [|done]. intros y c Hy. apply (sc_cont _ _ _ _ _ Hch); [|done]. rewrite ind_None.
    pose proof (proj2 (uses_live _ y Hs2) (ex_intro _ _ Hy)). lia.
  - intros y ->. eexists. by apply (sc_new _ _ _ _ _ Hch).
  - clear Hv4. destruct (r QP_ENTITY_FACTORY); try discriminate Hq4. injection Hq4 as <-. exact Hv1.
  - clear Hv4. destruct (r QP_ENTITY_FACTORY); try discriminate Hq4. injection Hq4 as <-. by apply (wrap_range 1).
Qed.

Lemma presentation_ranges v :
  field_valid QP_PRESENTATION v -> exists s c o, v = PPresentation s c o /\ 0 <= s < 4 /\ 0 <= c < 2 /\ 0 <= o < 2.
Proof.
  intros [Hp Hf]. destruct v as [| | | | | | | | |s c o| | | | |]; try discriminate Hp. exists s, c, o. split; [done|].
  cbn [valid_fct qos_desc desc qtype] in Hp. injection Hp as Hp. cbn [field_ok] in Hf.
  unfold qt_presentation_valid, GROUP_PRESENTATION in Hp.
  repeat (let E := fresh in case_if E in Hp; [discriminate Hp|]). zbool. lia.
Qed.
End Valid.

(** The conversion back, of a group whose fields have their widths. *)
Lemma group_get_ok gp ns r0 q0 (st : QS) :
  Forall c_string ns -> stored_names st ns (g_partition gp) -> s_ok (q_strs st) ->
  (forall y, g_group_data gp = Some y -> exists c, cont (q_strs st) y = Some c) ->
  0 <= g_access_scope gp < 4 -> 0 <= g_coherent_access gp < 2 -> 0 <= g_ordered_access gp < 2 -> 0 <= g_no_autoenable gp < 2 ->
  exists r2 vp, group_get_loop part_alloc xmalloc_ok group_pars
      (set_no_autodispose (g_no_autoenable gp)
         (set_presentation (g_access_scope gp) (g_coherent_access gp) (g_ordered_access gp) (load_group gp q0))) r0 st = Some (r2, st) /\
    names_of vp = Some (Some <$> ns) /\ r2 QP_PARTITION = vp /\ r2 QP_GROUP_DATA = POctets octet_seq_init /\
    r2 QP_PRESENTATION = PPresentation (g_access_scope gp) (g_coherent_access gp) (g_ordered_access gp) /\
    r2 QP_ENTITY_FACTORY = PBool (if g_no_autoenable gp =? 0 then 1 else 0).
Proof.
  intros Hc Hn Hs Hg Hw1 Hw2 Hw3 Hw4. set (q := set_no_autodispose _ _).
  destruct (partition_get_ok ns q st Hc Hn) as (vp & Hvp & Hnames).
  assert (Hd : exists d, deref (g_group_data gp) st = Some d).
  { destruct (g_group_data gp) as [y|]; [|by eexists]. destruct (Hg y eq_refl) as [c Hy]. unfold cont in Hy. cbn [deref]. rewrite Hy. by eexists. }
  destruct Hd as [d Hd]. unfold group_pars. cbn [group_get_loop].
  cbn -[rec_set q qt_partition_get deref qos_str2octets presentation_access_scope presentation_coherent_access presentation_ordered_access
        no_autodispose wrap group_data].
  rewrite Hvp. cbn [mbind option_bind]. unfold qt_os_get. cbn [uni_string mbind option_bind].
  change (group_data q) with (g_group_data gp). rewrite Hd. cbn [mbind option_bind]. rewrite str2octets_empty.
  assert (E1 : presentation_access_scope q = g_access_scope gp) by (by apply wrap_small).
  assert (E2 : presentation_coherent_access q = g_coherent_access gp) by (by apply wrap_small).
  assert (E3 : presentation_ordered_access q = g_ordered_access gp) by (by apply wrap_small).
  assert (E4 : no_autodispose q = g_no_autoenable gp) by (by apply wrap_small).
  unfold qt_presentation_get, qt_boolean_get. rewrite E1, E2, E3, E4. eexists _, vp. split; [reflexivity|]. split; [exact Hnames|]. split; [done|]. split; [done|]. by split.
Qed.

(** A group that is stored and read. *)
Lemma group_roundtrip l r r0 q0 q1 (st : QS) k :
  l <> QL_PARTICIPANT -> qos_valid_qos_list l r = Some true -> (forall p, field_ok (r p)) ->
  (forall ns, names_of (r QP_PARTITION) = Some (Some <$> ns) -> Forall c_string ns) ->
  s_ok (q_strs st) -> (forall y, uses (q_strs st) y <= k) ->
  (forall ns, names_of (r QP_PARTITION) = Some ns -> k + zlen ns + 1 < 2 ^ 30) ->
  exists gp q st' r2, qos_group_new part_alloc part_realloc l r q0 st = Some (gp, q, st') /\
    qos_group_get part_alloc xmalloc_ok gp l r0 q1 st' = Some (r2, st') /\
    r2 QP_PRESENTATION = r QP_PRESENTATION /\ r2 QP_ENTITY_FACTORY = r QP_ENTITY_FACTORY /\
    names_of (r2 QP_PARTITION) = names_of (r QP_PARTITION) /\ r2 QP_GROUP_DATA = POctets octet_seq_init.
Proof.
  intros Hl Hv Hf Hc Hs Hk Hroom. unfold qos_valid_qos_list in Hv. unfold qos_group_new, qos_group_get.
  rewrite group_ldesc in * by done.
  assert (Hfv : forall p, p ∈ group_pars -> field_valid p (r p)) by (intros p Hp; split; [by apply (valid_all_spec _ _ Hv)|done]).
  destruct (group_set_ok r st k Hfv Hs Hk Hroom q0) as (q & st' & ns & -> & Hns & Hst & Hs' & Hgd & Hp & He & Ha).
  cbn [mbind option_bind]. exists (group_of q), q, st'.
  destruct (presentation_ranges (r QP_PRESENTATION) (Hfv _ ltac:(left))) as (sc & co & od & Epr & Hsc & Hco & Hod).
  cbn in Hp. unfold qt_presentation_get in Hp. rewrite Epr in Hp. injection Hp as P1 P2 P3.
  cbn in He. unfold qt_boolean_get in He. injection He as He.
  destruct (group_get_ok (group_of q) ns r0 q1 st' (Hc _ Hns) Hst Hs' Hgd) as (r2 & vp & Hget & Hvn & E1 & E2 & E3 & E4).
  1-4: cbn; lia.
  cbn [group_of g_access_scope g_coherent_access g_ordered_access g_no_autoenable] in *. exists r2. split; [done|]. split; [exact Hget|].
  rewrite E3, E4, E1, E2, Hvn, Hns, Epr, <- He. split; [congruence|done].
Qed.

End Group.
