(* ===== verification/QosTheorems.v ===== *)
(** Theorems about the string pool and the QoS policies, against the
    interface of the pool where they need one; co/str.c is an instance of it. *)

From stdpp Require Import gmap.
From S2P Require Import Prelude CLib TypeData Scan NMatch Str StrProps QosSet QosStore QosTable QosShare QosGroup QosProps.
From stdpp Require Import list.
From S2P Require Import Qos.

#[local] Open Scope Z_scope.

(** ** The string pool as an implementation of the interface *)

Section Pool.
Context (string_alloc : StrPool -> option nat) (ref_ok : StrPool -> bool).
Context (heap_max : StrPool -> Z) (heap_ok xmalloc_ok : StrPool -> Z -> bool).
Context (str_extend : bool) (junk : nat -> Z).

#[local] Instance pool_ops : StrOps StrPool := {
  s_new c := str_new string_alloc ref_ok heap_max heap_ok xmalloc_ok str_extend junk (Some c) (zlen c) (zlen c) false;
  s_ref p st := '(_, st) ← str_ref (Some p) st; Some st;
  s_unref p := str_unref (Some p);
  s_get st p := data <$> strings st !! p
}.

Context (Hfresh : forall st p, string_alloc st = Some p -> strings st !! p = None).

#[local] Instance pool_laws : StrLaws StrPool.
Proof.
  refine {| s_view := str_view; s_ok := st_ok |}.
  - intros s p. cbn. unfold str_view. rewrite lookup_fmap. by destruct (strings s !! p).
  - intros s p c u Hs (x & Hp & _ & <-)%str_view_lookup. by apply (st_users _ Hs p x).
  - intros s c Hs Hu. by apply str_new_ok.
  - intros s p c u Hs Hp Hu. destruct (str_ref_ok s p c u Hs Hp Hu) as (s' & Hr & ?). exists s'. cbn [s_ref pool_ops]. by rewrite Hr.
  - intros s p c u Hs Hp. by apply str_unref_ok.
Defined.

(** The names of partitions are C strings, stored with their NUL. *)
Lemma new_cstr_new n st :
  zlen n + 1 <= 4294967295 ->
  str_new_cstr string_alloc ref_ok heap_max heap_ok xmalloc_ok str_extend junk n st = s_new (n ++ [0]) st.
Proof.
  intros Hn. cbn [s_new pool_ops]. unfold str_new_cstr, str_new. rewrite zlen_app. change (zlen [0]) with 1.
  destruct (Z.eq_dec (zlen n + 1) 4294967295) as [->|Hne]; [done|].
  rewrite (proj2 (Z.ltb_lt (zlen n + 1) 4294967295)) by lia. by rewrite Z.ltb_irrefl.
Qed.
End Pool.

(** ** Sequences of operations on entities *)

Inductive QosOp :=
| QNew (e : nat) (g : QGROUP) (r : QosRec)
| QUpdate (e : nat) (g : QGROUP) (r : QosRec)
| QFree (e : nat).

(** The QoS given is one that the public functions accept. *)
Definition qos_given (g : QGROUP) (r : QosRec) : Prop :=
  is_disc g = false /\ qos_valid_entity g r = Some true /\ forall p, field_ok (r p).

Definition op_given (op : QosOp) : Prop :=
  match op with QNew _ g r | QUpdate _ g r => qos_given g r | QFree _ => True end.

Section Ops.
Context {S : Type} `{StrLaws S}.
Context (part_alloc : @QState S -> option nat) (part_realloc : @QState S -> nat -> option nat).
Context (qos_alloc : @QState S -> option nat) (ref_ok : @QState S -> bool) (xmalloc_ok : Z -> bool).
Context (uni_bytes : UniQos -> list Z).

(** The store, the pointer that each entity keeps, and what each entity was
    given: one QoS, or several when an update has failed since. *)
Record World := mkWorld { w_st : @QState S; w_held : gmap nat nat; w_given : gmap nat (QGROUP * list QosRec) }.

Definition qos_start (s : S) : World := mkWorld (mkQState s ∅ ∅ (replicate (Z.to_nat MAX_HASH) [])) ∅ ∅.

Definition qos_op (op : QosOp) (w : World) : option World :=
  match op with
  | QNew e g r =>
      match w_held w !! e with
      | Some _ => Some w
      | None =>
          '(a, _, st) ← qos_new part_alloc qos_alloc ref_ok uni_bytes g r (w_st w);
          match a with
          | None => Some (mkWorld st (w_held w) (w_given w))
          | Some a => Some (mkWorld st (<[e := a]> (w_held w)) (<[e := (g, [r])]> (w_given w)))
          end
      end
  | QUpdate e g r =>
      match w_held w !! e, w_given w !! e with
      | Some a, Some (g', rs) =>
          if bool_decide (g' = g) then
            '(a', _, st, rc) ← qos_update part_alloc part_realloc qos_alloc ref_ok uni_bytes (Some a) g r (w_st w);
            a' ← a';
            Some (mkWorld st (<[e := a']> (w_held w)) (<[e := (g, if rc =? OK then [r] else r :: rs)]> (w_given w)))
          else Some w
      | _, _ => Some w
      end
  | QFree e =>
      match w_held w !! e with
      | Some a => st ← qos_free uni_bytes (Some a) (w_st w); Some (mkWorld st (delete e (w_held w)) (delete e (w_given w)))
      | None => Some w
      end
  end.

Fixpoint qos_ops (ops : list QosOp) (w : World) : option World :=
  match ops with
  | [] => Some w
  | op :: ops => w ← qos_op op w; qos_ops ops w
  end.

Context (Hqa : forall st a, qos_alloc st = Some a -> q_data st !! a = None).

(** What each entity was given is what its data set shows. *)
Definition entities_ok (st : @QState S) (held : gmap nat nat) (given : gmap nat (QGROUP * list QosRec)) : Prop :=
  forall e, match held !! e, given !! e with
            | Some a, Some (g, rs) => is_disc g = false /\ exists r, r ∈ rs /\ shows st a g r
            | None, None => True
            | _, _ => False
            end.

Definition world_ok (k : Z) (w : World) : Prop :=
  store_ok uni_bytes none (w_st w) (w_held w) /\ bounded k (w_st w) /\ entities_ok (w_st w) (w_held w) (w_given w).

Lemma bounded_weaken k k' (st : @QState S) : k <= k' -> bounded k st -> bounded k' st.
Proof. intros Hk [H1 H2]. split; [intros y; specialize (H1 y)|intros a; specialize (H2 a)]; lia. Qed.

(** An entity changes its pointer; the others see what they saw. *)
Lemma entities_set st st' held given e a g rs :
  entities_ok st held given -> frame st st' held e -> is_disc g = false -> (exists r, r ∈ rs /\ shows st' a g r) ->
  entities_ok st' (<[e := a]> held) (<[e := (g, rs)]> given).
Proof.
  intros He Hf Hg Hr e'. specialize (He e'). destruct (decide (e' = e)) as [->|Hne].
  - rewrite !lookup_insert_eq. done.
  - rewrite !lookup_insert_ne by done. destruct (held !! e') as [a'|] eqn:Eh, (given !! e') as [[g' rs']|]; try done.
    destruct He as (Hg' & r' & Hr' & Hs). split; [done|]. exists r'. split; [done|]. by eapply Hf.
Qed.

Lemma entities_delete st st' held given e :
  entities_ok st held given -> frame st st' held e -> entities_ok st' (delete e held) (delete e given).
Proof.
  intros He Hf e'. specialize (He e'). destruct (decide (e' = e)) as [->|Hne].
  - rewrite !lookup_delete_eq. done.
  - rewrite !lookup_delete_ne by done. destruct (held !! e') as [a'|] eqn:Eh, (given !! e') as [[g' rs']|]; try done.
    destruct He as (Hg' & r' & Hr' & Hs). split; [done|]. exists r'. split; [done|]. by eapply Hf.
Qed.

Lemma entities_kept st st' held given : entities_ok st held given -> all_kept st st' -> entities_ok st' held given.
Proof.
  intros He Hk e. specialize (He e). destruct (held !! e) as [a|], (given !! e) as [[g rs]|]; try done.
  destruct He as (Hg & r & Hr & Hs). split; [done|]. exists r. split; [done|]. by apply Hk.
Qed.

Lemma qos_op_ok op w k :
  op_given op -> world_ok k w -> k + 1 < 2 ^ 30 -> exists w', qos_op op w = Some w' /\ world_ok (k + 1) w'.
Proof.
  intros Hop (Hok & Hb & Hent) Hk. pose proof (bounded_weaken k (k + 1) _ ltac:(lia) Hb) as Hb1.
  assert (Hid : world_ok (k + 1) w) by done.
  destruct op as [e g r|e g r|e]; cbn [qos_op op_given] in *.
  - destruct Hop as (Hg & Hv & Hf). destruct (w_held w !! e) as [a|] eqn:Eh; [by exists w|].
    destruct (qos_new_ok part_alloc qos_alloc ref_ok uni_bytes Hqa g r k Hg (valid_entity_fields g r Hv Hf) Hk (w_st w) (w_held w) e Hok Hb Eh)
      as (a & r' & st' & -> & _ & Hb' & Hkept & Hres). cbn [mbind option_bind].
    destruct a as [a|]; (eexists; split; [reflexivity|]); (split; [apply Hres|split; [exact Hb'|]]).
    + cbn. eapply entities_set; [exact Hent|by apply all_kept_frame|done|]. exists r. split; [left|apply Hres].
    + cbn. by eapply entities_kept.
  - destruct Hop as (Hg & Hv & Hf). pose proof (valid_entity_fields g r Hv Hf) as Hfv.
    destruct (w_held w !! e) as [a|] eqn:Eh; [|by exists w].
    destruct (w_given w !! e) as [[g' rs]|] eqn:Eg; [|by exists w]. case_bool_decide as Egg; [subst g'|by exists w].
    pose proof (Hent e) as He. rewrite Eh, Eg in He. destruct He as (_ & r1 & Hr1 & Hs1).
    assert (Hupd : exists a' r' st' rc, qos_update part_alloc part_realloc qos_alloc ref_ok uni_bytes (Some a) g r (w_st w) = Some (Some a', r', st', rc) /\
              updated uni_bytes g r k (w_st w) st' (w_held w) e a a' rc).
    { destruct (holder_live _ _ _ _ _ _ Hok Eh) as [qp Ha]. destruct (so_data _ _ _ _ Hok a qp Ha) as [_ Hpos].
      destruct (decide (q_users qp = 1)) as [Hu|Hu].
      - destruct (update_place_ok part_alloc part_realloc qos_alloc ref_ok uni_bytes g r k Hg Hfv Hk (w_st w) (w_held w) e a qp Hok Hb Eh Ha Hu)
          as (r' & st' & rc & Hq & _ & Hup). by exists a, r', st', rc.
      - destruct (update_shared_ok part_alloc part_realloc qos_alloc ref_ok uni_bytes Hqa g r k Hg Hfv Hk (w_st w) (w_held w) e a qp Hok Hb Eh Ha ltac:(lia))
          as (a' & r' & st' & rc & Hq & _ & Hup). by exists a', r', st', rc. }
    destruct Hupd as (a' & r' & st' & rc & -> & Hok' & Hb' & Hfr & Hsh). cbn [mbind option_bind].
    eexists. split; [reflexivity|]. split; [exact Hok'|]. split; [exact Hb'|]. cbn [w_st w_held w_given].
    eapply entities_set; [exact Hent|exact Hfr|done|]. destruct Hsh as [Hsh|(Hrc & -> & Hsh)].
    + exists r. split; [|done]. destruct (rc =? OK); left.
    + exists r1. rewrite (proj2 (Z.eqb_neq _ _)) by done. split; [by right|by apply Hsh].
  - destruct (w_held w !! e) as [a|] eqn:Eh; [|by exists w].
    destruct (qos_free_ok uni_bytes (w_st w) (w_held w) e a k Hok Hb Hk Eh) as (st' & -> & Hok' & Hb' & Hfr). cbn [mbind option_bind].
    eexists. split; [reflexivity|]. split; [exact Hok'|]. split; [by eapply bounded_weaken; [|exact Hb']; lia|]. cbn. by eapply entities_delete.
Qed.

Lemma qos_ops_ok ops w k :
  Forall op_given ops -> world_ok k w -> k + zlen ops < 2 ^ 30 -> exists w', qos_ops ops w = Some w' /\ world_ok (k + zlen ops) w'.
Proof.
  intros Hops. revert w k. induction Hops as [|op ops Hop _ IH]; intros w k Hw Hk; cbn [qos_ops].
  { exists w. rewrite zlen_nil, Z.add_0_r. done. }
  rewrite zlen_cons in *. pose proof (zlen_nonneg ops). destruct (qos_op_ok op w k Hop Hw ltac:(lia)) as (w1 & -> & Hw1).
  cbn [mbind option_bind]. destruct (IH w1 (k + 1) Hw1 ltac:(lia)) as (w' & HL & Hw'). exists w'. split; [done|].
  by replace (k + (1 + zlen ops)) with (k + 1 + zlen ops) by lia.
Qed.

Lemma qos_start_ok s k : s_ok s -> (forall y, uses s y <= k) -> 0 <= k -> world_ok k (qos_start s).
Proof.
  intros Hs Hu Hk. split; [|split].
  - constructor; cbn; [done| |done| |].
    + split; [done|]. intros h chain Hz.
      assert (chain = []) as ->.
      { unfold zget in Hz. destruct (h <? 0); [done|]. by apply lookup_replicate in Hz as [? _]. }
      split; [constructor|]. by intros a ?%elem_of_nil.
    + intros a. rewrite msum_empty. done.
    + intros y. rewrite msum_empty. by apply uses_nonneg.
  - split; [done|]. intros a. cbn. done.
  - by intros e.
Qed.
End Ops.

(** ** Concrete parameters *)

Definition pool_next (st : StrPool) : option nat := Some (fresh (dom (strings st))).

Lemma pool_next_fresh st p : pool_next st = Some p -> strings st !! p = None.
Proof. intros [= <-]. apply not_elem_of_dom, is_fresh. Qed.

(** A pool with a heap of 1000 bytes that does not grow. *)
Definition pool1_ops : StrOps StrPool :=
  pool_ops pool_next (fun _ => true) (fun _ => 1000) (fun _ _ => true) (fun _ _ => false) false (fun _ => 0).

Definition pool1_laws : @StrLaws StrPool pool1_ops :=
  pool_laws pool_next (fun _ => true) (fun _ => 1000) (fun _ _ => true) (fun _ _ => false) false (fun _ => 0) pool_next_fresh.

Definition data_next (st : @QState StrPool) : option nat := Some (fresh (dom (q_data st))).
Definition parts_next (st : @QState StrPool) : option nat := Some (fresh (dom (q_parts st))).

Lemma data_next_fresh st a : data_next st = Some a -> q_data st !! a = None.
Proof. intros [= <-]. apply not_elem_of_dom, is_fresh. Qed.

Definition bytes0 (q : UniQos) : list Z := [durability_kind q; reliability_kind q].

(** The default QoS of a writer, with some user data. *)
Definition writer1 (d : list Z) : QosRec := fun p =>
  match p with
  | QP_USER_DATA => POctets (mkOctetSeq (zlen d) (zlen d) 1 (Some d))
  | _ => init (qos_desc p)
  end.

Lemma default_field_ok p : field_ok (init (qos_desc p)).
Proof. destruct p; cbn; try done; lia. Qed.

Lemma writer1_given d : d <> [] -> qos_given QG_WRITER (writer1 d).
Proof.
  intros Hd. split; [done|]. assert (0 < zlen d) by (destruct d; [done|rewrite zlen_cons; pose proof (zlen_nonneg d); lia]).
  split.
  - unfold qos_valid_entity. cbn -[qt_os_valid]. unfold qt_os_valid. cbn. rewrite Z.ltb_irrefl.
    rewrite (proj2 (Z.eqb_neq (zlen d) 0)) by lia. done.
  - intros p. destruct p; try apply (default_field_ok _). cbn. split; [lia|]. by intros b [= <-].
Qed.

(** ** Strings *)

(** C31. The string pool is a map from addresses to contents with a number of
    references: each of str_new, str_ref and str_unref runs without touching
    memory that is not there, keeps the invariant of the pool, and does what
    the abstract pool does. *)
Theorem str_pool_refines string_alloc ref_ok heap_max heap_ok xmalloc_ok str_extend junk op st :
  (forall st p, string_alloc st = Some p -> strings st !! p = None) ->
  st_ok st -> str_allowed op (str_view st) ->
  exists r st', str_run string_alloc ref_ok heap_max heap_ok xmalloc_ok str_extend junk op st = Some (r, st') /\
    st_ok st' /\ str_spec (str_view st) op r (str_view st').
Proof. intros. by apply str_run_ok. Qed.

Lemma str_pool_refines_witness :
  exists r st', str_run pool_next (fun _ => true) (fun _ => 1000) (fun _ _ => true) (fun _ _ => false) false (fun _ => 0)
      (SNew [104; 105]) str_empty = Some (r, st') /\
    st_ok st' /\ str_spec (str_view str_empty) (SNew [104; 105]) r (str_view st').
Proof.
  apply (str_pool_refines pool_next (fun _ => true) (fun _ => 1000) (fun _ _ => true) (fun _ _ => false) false (fun _ => 0));
    [exact pool_next_fresh|exact str_empty_ok|]. intros p c u Hp. done.
Defined.

(** As long as nodes for the hash table can be had, equal strings are
    stored once: two strings of a pool that the operations reach and that have
    the same contents are the same string. *)
Theorem strings_shared string_alloc ref_ok heap_max heap_ok xmalloc_ok str_extend junk st p q s1 s2 :
  (forall st p, string_alloc st = Some p -> strings st !! p = None) -> (forall st, ref_ok st = true) ->
  str_reach string_alloc ref_ok heap_max heap_ok xmalloc_ok str_extend junk st ->
  strings st !! p = Some s1 -> strings st !! q = Some s2 -> data s1 = data s2 -> p = q.
Proof. intros. by eapply reach_shared. Qed.

Definition pool_hi : StrPool :=
  default str_empty (snd <$> str_run pool_next (fun _ => true) (fun _ => 1000) (fun _ _ => true) (fun _ _ => false) false (fun _ => 0)
    (SNew [104; 105]) str_empty).

Lemma strings_shared_witness :
  exists s, strings pool_hi !! 0%nat = Some s /\ data s = [104; 105] /\
    (match str_lookup (strings pool_hi) [0%nat] [104; 105] with Some (Some q) => q | _ => 1%nat end) = 0%nat.
Proof.
  exists (mkString 1 false false [104; 105]). split; [by vm_compute|]. split; [done|].
  apply (strings_shared pool_next (fun _ => true) (fun _ => 1000) (fun _ _ => true) (fun _ _ => false) false (fun _ => 0) pool_hi
    _ 0%nat (mkString 1 false false [104; 105]) (mkString 1 false false [104; 105]));
    [exact pool_next_fresh|done| |by vm_compute|by vm_compute|done].
  apply (reach_step _ _ _ _ _ _ _ str_empty (SNew [104; 105]) (Some 0%nat)); [constructor|by intros p' c u Hp'|by vm_compute].
Defined.

(** ** Compatibility *)

(** C32. [qos_match] decides whether what a writer offers satisfies what a
    reader requests: it succeeds exactly when every policy is compatible, and
    otherwise gives the id of the first policy, in the order of the table, that
    is not.  Durations, which must be valid, are compared as times, the
    infinite one being the longest; the presentation is that of the publisher
    and of the subscriber where they are given.  The endpoints' own
    presentations, which the code compares as well, must be compatible when
    those are ([own_agrees]); without publisher and subscriber they are. *)
Theorem qos_match_decides w wg r rg :
  durations_valid w -> durations_valid r -> own_agrees w wg r rg ->
  exists b id, qos_match w wg r rg = Some (b, id) /\
    (b = true <-> forall p, compatible w wg r rg p) /\
    (b = false -> exists ps1 p ps2, all_qpars = ps1 ++ p :: ps2 /\ id = policy_id p /\
      ~ compatible w wg r rg p /\ Forall (compatible w wg r rg) ps1).
Proof.
  intros Hw Hr Ho. destruct (match_loop_ok w wg r rg Hw Hr all_qpars) as (b & id & Hm & Hb). exists b, id. split; [exact Hm|].
  assert (Hc : forall p, tested w wg r rg p <-> compatible w wg r rg p) by (intros p; by apply tested_compatible).
  destruct Hb as [[-> Hall]|(-> & ps1 & p & ps2 & E & H1 & H2 & H3)].
  - split; [|done]. split; [|done]. intros _ p. apply Hc, (proj1 (Forall_forall _ _) Hall), all_qpars_complete.
  - rewrite Hc in H2. split; [split; [done|intros Hall; by destruct (H2 (Hall p))]|]. intros _. exists ps1, p, ps2.
    split_and!; [done..|]. eapply Forall_impl; [exact H1|]. intros x. apply Hc.
Qed.

(** A writer that offers less reliability than a reader wants. *)
Definition best_effort : UniQos := set_deadline INFINITE (set_liveliness 0 INFINITE uni_zero).
Definition reliable : UniQos := set_reliability 1 ZERO best_effort.

Lemma qos_match_decides_witness :
  exists b id, qos_match best_effort None reliable None = Some (b, id) /\
    (b = true <-> forall p, compatible best_effort None reliable None p) /\
    (b = false -> exists ps1 p ps2, all_qpars = ps1 ++ p :: ps2 /\ id = policy_id p /\
      ~ compatible best_effort None reliable None p /\ Forall (compatible best_effort None reliable None) ps1).
Proof. apply (qos_match_decides best_effort None reliable None); [by split; [|split]..|intros H; exact H]. Defined.

(** A publisher that offers the scope of a topic to a writer whose own data
    set offers it too, and a reader that requests it. *)
Example presentation_offered :
  qos_match (set_presentation 1 0 0 reliable) (Some (mkGroupQos None None 1 0 0 0)) (set_presentation 1 0 0 best_effort) None
  = Some (true, 0).
Proof. reflexivity. Qed.

Example best_effort_not_reliable : qos_match best_effort None reliable None = Some (false, policy_id QP_RELIABILITY).
Proof. reflexivity. Qed.

(** C33. When memory for the temporary arrays can be had, and no name has two
    backslashes in a row, a publisher and a subscriber are in the same
    partition exactly when a name of one matches a name of the other: both
    without wildcards and equal, or just one of them with wildcards and the
    other matched by it as a pattern.  A wildcard is an asterisk, a question
    mark or a bracket that no backslash quotes; no partition at all is the
    empty name. *)
Theorem partitions_meet xmalloc_ok strdup_ok wp rp :
  (forall n, xmalloc_ok n = true) ->
  Forall (fun a => single_bslashes a = true) (names wp) -> Forall (fun b => single_bslashes b = true) (names rp) ->
  qos_same_partition xmalloc_ok strdup_ok wp rp = true <->
  exists a b, a ∈ names wp /\ b ∈ names rp /\ name_match a b.
Proof. apply same_partition_iff. Qed.

Lemma partitions_meet_witness :
  qos_same_partition (fun _ => true) (fun _ => true) (Some [Some [65; 42]; Some [66]]) (Some [Some [67]; Some [65; 66]]) = true <->
  exists a b, a ∈ names (Some [Some [65; 42]; Some [66]]) /\ b ∈ names (Some [Some [67]; Some [65; 66]]) /\ name_match a b.
Proof. apply (partitions_meet (fun _ => true) (fun _ => true)); [done|repeat constructor..]. Defined.

(** In the name of two backslashes and an asterisk the asterisk is a wildcard;
    the code takes it as quoted. *)
Example quoted_bslash : wildcards [92; 92; 42] = false /\ ~ plain [92; 92; 42] /\ fnmatch [92; 92; 42] [92; 65] 0 = 0.
Proof.
  split; [reflexivity|]. split; [|reflexivity]. intros H. inversion H as [| |? ? H2|]; subst; [|lia]. inversion H2; subst; lia.
Qed.

Example partitions_meet_ex :
  qos_same_partition (fun _ => true) (fun _ => true) (Some [Some [65; 42]; Some [66]]) (Some [Some [67]; Some [65; 66]]) = true.
Proof. reflexivity. Qed.

(** ** The table of data sets *)

(** C8. The QoS table refines a map from entities to the QoS they were given:
    after any sequence of creations, updates and deletions of local topics,
    writers and readers, short enough for the counts, no operation has used a
    string or data set that is gone, and for every entity [qos_get] returns
    the QoS of its last update, or after a failed one that of an update since,
    whatever the other entities that share its data set have done.  Octets
    come back empty and the durability service as its default. *)
Theorem qos_store_refines {S} `{StrLaws S} part_alloc part_realloc qos_alloc ref_ok xmalloc_ok uni_bytes ops s0 k :
  (forall (st : @QState S) a, qos_alloc st = Some a -> q_data st !! a = None) ->
  Forall op_given ops -> s_ok s0 -> (forall y, uses s0 y <= k) -> 0 <= k -> k + zlen ops < 2 ^ 30 ->
  exists w, qos_ops part_alloc part_realloc qos_alloc ref_ok uni_bytes ops (qos_start s0) = Some w /\
    forall e, match w_given w !! e with
              | None => w_held w !! e = None
              | Some (g, rs) => exists a r, w_held w !! e = Some a /\ r ∈ rs /\
                  forall r0, exists r2, qos_get part_alloc xmalloc_ok a g r0 (w_st w) = Some (r2, w_st w) /\
                    forall p, r2 p = if transferred g p
                                     then if is_octets p then POctets octet_seq_init else kept_value p (r p)
                                     else r0 p
              end.
Proof.
  intros Hqa Hops Hs Hu Hk0 Hk.
  destruct (qos_ops_ok part_alloc part_realloc qos_alloc ref_ok uni_bytes Hqa ops (qos_start s0) k Hops) as (w & Hw & Hok & _ & Hent).
  - by apply qos_start_ok.
  - done.
  - exists w. split; [done|]. intros e. specialize (Hent e). destruct (w_given w !! e) as [[g rs]|], (w_held w !! e) as [a|] eqn:Eh; try done.
    destruct Hent as (Hg & r & Hr & Hsh). exists a, r. split; [done|]. split; [done|]. intros r0. by eapply qos_get_ok.
Qed.

(** Two writers with the same QoS; one of them changes it. *)
Definition qos_ops1 : list QosOp :=
  [QNew 1 QG_WRITER (writer1 [7; 8]); QNew 2 QG_WRITER (writer1 [7; 8]); QUpdate 2 QG_WRITER (writer1 [9]); QFree 1].

Lemma qos_store_refines_witness :
  exists w, @qos_ops StrPool pool1_ops parts_next (fun _ _ => None) data_next (fun _ => true) bytes0 qos_ops1 (qos_start str_empty) = Some w /\
    forall e, match w_given w !! e with
              | None => w_held w !! e = None
              | Some (g, rs) => exists a r, w_held w !! e = Some a /\ r ∈ rs /\
                  forall r0, exists r2, @qos_get StrPool pool1_ops parts_next (fun _ => true) a g r0 (w_st w) = Some (r2, w_st w) /\
                    forall p, r2 p = if transferred g p
                                     then if is_octets p then POctets octet_seq_init else kept_value p (r p)
                                     else r0 p
              end.
Proof.
  apply (@qos_store_refines StrPool pool1_ops pool1_laws parts_next (fun _ _ => None) data_next (fun _ => true) (fun _ => true) bytes0 qos_ops1 str_empty 0).
  - exact data_next_fresh.
  - repeat constructor; by apply writer1_given.
  - exact str_empty_ok.
  - intros y. done.
  - done.
  - done.
Defined.

Example writers_share :
  (fun w => (w_held w !! 1%nat, w_held w !! 2%nat)) <$>
    @qos_ops StrPool pool1_ops parts_next (fun _ _ => None) data_next (fun _ => true) bytes0 (take 2 qos_ops1) (qos_start str_empty) =
  Some (Some 0%nat, Some 0%nat).
Proof. vm_compute. reflexivity. Qed.

(** A data set that is created and released leaves the table as it was;
    the references to the strings of the pool are as before when the data set
    was new, but when it was one that another entity has already, the
    reference that the conversion took on its octets is never given back. *)
Theorem qos_release_leaks {S} `{StrLaws S} part_alloc qos_alloc ref_ok uni_bytes g r (st st1 : @QState S) held e a r' k :
  (forall st a, qos_alloc st = Some a -> q_data st !! a = None) ->
  qos_given g r -> k + 2 < 2 ^ 30 -> store_ok uni_bytes none st held -> bounded k st -> held !! e = None ->
  qos_new part_alloc qos_alloc ref_ok uni_bytes g r st = Some (Some a, r', st1) ->
  exists st2, qos_free uni_bytes (Some a) st1 = Some st2 /\ q_data st2 = q_data st /\
    forall y, uses (q_strs st2) y =
      uses (q_strs st) y + match q_data st !! a with Some qp => ind (data_ptr g (q_qos qp)) y | None => 0 end.
Proof.
  intros Hqa (Hg & Hv & Hf) Hk Hok Hb He Hn.
  eapply (new_free part_alloc qos_alloc ref_ok uni_bytes Hqa g r); [done|by apply valid_entity_fields|exact Hk|exact Hok|exact Hb|exact He|exact Hn].
Qed.

Definition world_one : @World StrPool :=
  default (qos_start str_empty)
    (@qos_ops StrPool pool1_ops parts_next (fun _ _ => None) data_next (fun _ => true) bytes0 (take 1 qos_ops1) (qos_start str_empty)).

Lemma world_one_ok : @world_ok StrPool pool1_ops pool1_laws bytes0 1 world_one.
Proof.
  destruct (@qos_ops_ok StrPool pool1_ops pool1_laws parts_next (fun _ _ => None) data_next (fun _ => true) bytes0 data_next_fresh
    (take 1 qos_ops1) (qos_start str_empty) 0) as (w & Hw & Hok).
  - repeat constructor; by apply writer1_given.
  - apply qos_start_ok; [exact str_empty_ok|done|done].
  - done.
  - unfold world_one. rewrite Hw. exact Hok.
Qed.

(** The result of [qos_new] is the first data set. *)
Definition is_first (o : option (option nat * QosRec * @QState StrPool)) : bool :=
  match o with Some (Some 0%nat, _, _) => true | _ => false end.

Lemma is_first_spec o : is_first o = true -> exists r st, o = Some (Some 0%nat, r, st).
Proof. destruct o as [[[[[|a]|] r] st]|]; try done. by exists r, st. Qed.

Lemma world_two_shares :
  is_first (@qos_new StrPool pool1_ops parts_next data_next (fun _ => true) bytes0 QG_WRITER (writer1 [7; 8]) (w_st world_one)) = true.
Proof. vm_compute. reflexivity. Qed.

Lemma world_one_free : w_held world_one !! 2%nat = None.
Proof. vm_compute. reflexivity. Qed.

Lemma world_one_ptr :
  match q_data (w_st world_one) !! 0%nat with Some qp => ind (data_ptr QG_WRITER (q_qos qp)) 0%nat | None => 0 end = 1.
Proof. vm_compute. reflexivity. Qed.

(** One reference to the string of the first writer is left over. *)
Lemma qos_release_leaks_witness :
  exists r' st1 st2,
    @qos_new StrPool pool1_ops parts_next data_next (fun _ => true) bytes0 QG_WRITER (writer1 [7; 8]) (w_st world_one) = Some (Some 0%nat, r', st1) /\
    @qos_free StrPool pool1_ops bytes0 (Some 0%nat) st1 = Some st2 /\ q_data st2 = q_data (w_st world_one) /\
    @uses StrPool pool1_ops pool1_laws (q_strs st2) 0%nat = @uses StrPool pool1_ops pool1_laws (q_strs (w_st world_one)) 0%nat + 1.
Proof.
  destruct (is_first_spec _ world_two_shares) as (r' & st1 & E). destruct world_one_ok as (Hok & Hb & _).
  destruct (@qos_release_leaks StrPool pool1_ops pool1_laws parts_next data_next (fun _ => true) bytes0 QG_WRITER (writer1 [7; 8])
    (w_st world_one) st1 (w_held world_one) 2%nat 0%nat r' 1 data_next_fresh (writer1_given [7; 8] ltac:(done)) eq_refl Hok Hb
    world_one_free E) as (st2 & Hf & Hd & Hu).
  exists r', st1, st2. split; [exact E|]. split; [exact Hf|]. split; [exact Hd|]. by rewrite Hu, world_one_ptr.
Defined.

(** ** Publishers and subscribers *)

(** What a publisher or subscriber is given is what is read back: the
    presentation, the entity factory and the names of the partition, however
    many; the group data comes back empty. *)
Theorem group_qos_roundtrip {S} `{StrLaws S} part_alloc part_realloc xmalloc_ok l r r0 q0 q1 (st : @QState S) k :
  (forall c s p s', s_new c s = Some (p, s') -> p <> None) ->
  (forall st, part_alloc st <> None) -> (forall n, xmalloc_ok n = true) ->
  l <> QL_PARTICIPANT -> qos_valid_qos_list l r = Some true -> (forall p, field_ok (r p)) ->
  (forall ns, names_of (r QP_PARTITION) = Some (Some <$> ns) -> Forall c_string ns) ->
  s_ok (q_strs st) -> (forall y, uses (q_strs st) y <= k) ->
  (forall ns, names_of (r QP_PARTITION) = Some ns -> k + zlen ns + 1 < 2 ^ 30) ->
  exists gp q st' r2, qos_group_new part_alloc part_realloc l r q0 st = Some (gp, q, st') /\
    qos_group_get part_alloc xmalloc_ok gp l r0 q1 st' = Some (r2, st') /\
    r2 QP_PRESENTATION = r QP_PRESENTATION /\ r2 QP_ENTITY_FACTORY = r QP_ENTITY_FACTORY /\
    names_of (r2 QP_PARTITION) = names_of (r QP_PARTITION) /\ r2 QP_GROUP_DATA = POctets octet_seq_init.
Proof. intros. by eapply group_roundtrip. Qed.

Definition publisher1 : QosRec := fun p =>
  match p with
  | QP_PRESENTATION => PPresentation 1 0 1
  | QP_PARTITION => PNames (mkStringSeq 2 2 (Some [Some [65]; Some [66; 67]]))
  | _ => init (qos_desc p)
  end.

(** A pool whose heap grows as it has to. *)
Definition pool2_ops : StrOps StrPool :=
  pool_ops pool_next (fun _ => true) (fun _ => 1000) (fun _ _ => true) (fun _ _ => true) true (fun _ => 0).

Definition pool2_laws : @StrLaws StrPool pool2_ops :=
  pool_laws pool_next (fun _ => true) (fun _ => 1000) (fun _ _ => true) (fun _ _ => true) true (fun _ => 0) pool_next_fresh.

Lemma pool2_never_fails c s p s' : @s_new StrPool pool2_ops c s = Some (p, s') -> p <> None.
Proof.
  cbn [s_new pool2_ops pool_ops]. unfold str_new. rewrite Z.ltb_irrefl, Z.eqb_refl. cbn [negb andb]. rewrite zslice_all.
  cbn [mbind option_bind]. destruct (zget _ _) as [chain|]; cbn [mbind option_bind]; [|done].
  destruct (str_lookup _ _ _) as [[x|]|]; cbn [mbind option_bind]; [| |done].
  - destruct (strings s !! x); cbn [mbind option_bind]; [|done]. by intros [= <- _].
  - cbn [pool_next]. unfold str_set, str_set_data, str_storage. rewrite andb_false_r. cbn [mbind option_bind]. rewrite zslice_all.
    destruct (STRD_SIZE <? _); [|destruct (_ =? 0)]; cbn [mbind option_bind];
      change (negb (STR_OK =? STR_OK)) with false; cbv iota zeta; cbn [andb];
      destruct (zset _ _ _); cbn [mbind option_bind]; try done; by intros [= <- _].
Qed.

Lemma group_qos_roundtrip_witness :
  exists gp q st' r2, @qos_group_new StrPool pool2_ops parts_next (fun _ _ => None) QL_PUBLISHER publisher1 uni_zero (w_st (qos_start str_empty)) = Some (gp, q, st') /\
    @qos_group_get StrPool pool2_ops parts_next (fun _ => true) gp QL_PUBLISHER publisher1 uni_zero st' = Some (r2, st') /\
    r2 QP_PRESENTATION = publisher1 QP_PRESENTATION /\ r2 QP_ENTITY_FACTORY = publisher1 QP_ENTITY_FACTORY /\
    names_of (r2 QP_PARTITION) = names_of (publisher1 QP_PARTITION) /\ r2 QP_GROUP_DATA = POctets octet_seq_init.
Proof.
  apply (@group_qos_roundtrip StrPool pool2_ops pool2_laws parts_next (fun _ _ => None) (fun _ => true) QL_PUBLISHER publisher1 publisher1
    uni_zero uni_zero (w_st (qos_start str_empty)) 0).
  - exact pool2_never_fails.
  - done.
  - done.
  - done.
  - reflexivity.
  - intros p. destruct p; try apply (default_field_ok _); cbn; [lia|]. split; [lia|]. by intros b [= <-].
  - intros [|n1 [|n2 [|n3 ns]]] Hns; try discriminate Hns. injection Hns as <- <-. by repeat constructor.
  - exact str_empty_ok.
  - done.
  - by intros ns [= <-].
Defined.

(** ** Presentation *)

Lemma writer_durations r q :
  (forall p, in_group QG_WRITER p = true -> field_valid p (r p)) -> plain_shows QG_WRITER r q -> durations_valid q.
Proof.
  intros Hr Hp. unfold durations_valid, valid_duration.
  destruct (Hr QP_DEADLINE eq_refl) as [V1 F1], (Hr QP_LATENCY_BUDGET eq_refl) as [V2 F2], (Hr QP_LIVELINESS eq_refl) as [V3 F3].
  pose proof (Hp QP_DEADLINE eq_refl eq_refl) as P1. pose proof (Hp QP_LATENCY_BUDGET eq_refl eq_refl) as P2.
  pose proof (Hp QP_LIVELINESS eq_refl eq_refl) as P3. cbn in P1, P2, P3. injection P1 as P1. injection P2 as P2. injection P3 as P3.
  rewrite <- P1 in V1, F1. rewrite <- P2 in V2, F2. rewrite <- P3 in V3, F3. cbn [valid_fct qos_desc desc qtype] in V1, V2, V3.
  injection V1 as V1. injection V2 as V2. injection V3 as V3. cbn in F1, F2, F3. split; [done|]. split; [done|]. split; [|apply F3].
  unfold qt_liveliness_valid in V3. destruct (_ <? _); [done|]. destruct (Z.eqb_spec (qos_valid_duration (liveliness_lease_duration q)) OK) as [E|E]; [done|].
  cbn [negb] in V3. done.
Qed.

(** The presentation that a local writer has from its publisher does not
    count: [qos_match] also compares the fields of the writer's own data set,
    which [qos_set] leaves zero, so a discovered reader that requests a scope
    above that of the instance is never matched, whatever the publisher
    offers. *)
Theorem presentation_not_offered {S} `{StrLaws S} part_alloc r (st : @QState S) rq :
  qos_given QG_WRITER r -> s_ok (q_strs st) -> roomy (q_strs st) ->
  durations_valid rq -> 0 < presentation_access_scope rq ->
  exists r' q st', qos_set part_alloc QG_WRITER r st = Some (r', q, st') /\
    forall wg, exists id, qos_match q wg rq None = Some (false, id).
Proof.
  intros (Hg & Hv & Hf) Hs Hr Hd Hsc. pose proof (valid_entity_fields _ _ Hv Hf) as Hfv.
  destruct (qos_set_ok part_alloc QG_WRITER r eq_refl Hfv st Hs Hr) as (r' & q & x & s' & Hset & _ & _ & _ & _ & _ & Hsh & Hpr).
  exists r', q, (set_strs s' st). split; [done|]. intros wg. specialize (Hpr eq_refl). cbn in Hpr. injection Hpr as Hpr _ _.
  destruct (match_loop_ok q wg rq None (writer_durations r q Hfv Hsh) Hd all_qpars) as (b & id & Hm & Hb). exists id.
  destruct Hb as [[-> Hall]|[-> _]]; [|exact Hm]. exfalso.
  pose proof (proj1 (Forall_forall _ _) Hall QP_PRESENTATION (all_qpars_complete _)) as [_ Hpok]. specialize (Hpok eq_refl) as [Hpok _]. cbn in Hpok. lia.
Qed.

Definition topic_reader : UniQos := set_presentation 1 0 0 best_effort.

Lemma presentation_not_offered_witness :
  exists r' q st', @qos_set StrPool pool1_ops parts_next QG_WRITER (writer1 [7; 8]) (w_st (qos_start str_empty)) = Some (r', q, st') /\
    forall wg, exists id, qos_match q wg topic_reader None = Some (false, id).
Proof.
  apply (@presentation_not_offered StrPool pool1_ops pool1_laws parts_next (writer1 [7; 8]) (w_st (qos_start str_empty)) topic_reader).
  - by apply writer1_given.
  - exact str_empty_ok.
  - intros y. done.
  - by split; [|split].
  - reflexivity.
Defined.
