(* ===== verification/Timer.v ===== *)
(** Timers (co/timer.c, include/timer.h): a list of running timers ordered by
    the time they elapse at, linked through the timers themselves, and the
    manager that calls their functions.

    A [Timer_t *] is an address of the store [timers]; a callback function and
    a lock are numbers.  Each function runs under [tmr_lock] and is a function
    of the state; [tmr_manage], which gives the lock up around a callback, is
    a sequence of steps.  An access to a timer that does not exist, and a walk
    along a list that is not finite, is [None]. *)

From stdpp Require Import gmap.
From S2P Require Import Prelude.
From stdpp Require Import list.

#[local] Open Scope Z_scope.

(** ** State *)

Definition MAX_TIME_DIFF : Z := 2147483647.
Definition TMR_UNIT_MS : Z := 10.

(** [sys_ticksdiff]: the ticks from [old] to [new], modulo the width of
    [Ticks_t]. *)
Definition sys_ticksdiff (old new : Z) : Z :=
  if old <=? new then new - old else 2 ^ 64 - 1 - old + new + 1.

(** [Timer_t]; the name is for debugging. *)
Record Timer_t := mkTimer {
  next : option nat;
  time : Z;
  user : Z;
  tcbf : option nat;
  lockp : option nat
}.

(** The static variables. *)
Record Timers := mkTimers {
  timers : gmap nat Timer_t;
  tmr_list : option nat;
  tmr_callback_active : Z;
  active_timer : option nat;
  phead : option nat;
  ptail : option nat;
  cur_lockp : option nat;
  tmr_nactive : Z;
  tmr_ntimeouts : Z;
  tmr_nbusy : Z;
  tmr_nstarts : Z;
  tmr_nstops : Z
}.

Definition tmr_empty : Timers := mkTimers ∅ None 0 None None None None 0 0 0 0 0.

Definition set_timers (m : gmap nat Timer_t) (s : Timers) : Timers :=
  mkTimers m (tmr_list s) (tmr_callback_active s) (active_timer s) (phead s) (ptail s) (cur_lockp s)
    (tmr_nactive s) (tmr_ntimeouts s) (tmr_nbusy s) (tmr_nstarts s) (tmr_nstops s).
Definition set_list (p : option nat) (s : Timers) : Timers :=
  mkTimers (timers s) p (tmr_callback_active s) (active_timer s) (phead s) (ptail s) (cur_lockp s)
    (tmr_nactive s) (tmr_ntimeouts s) (tmr_nbusy s) (tmr_nstarts s) (tmr_nstops s).
Definition set_active (n : Z) (a : option nat) (s : Timers) : Timers :=
  mkTimers (timers s) (tmr_list s) ⟦n⟧32 a (phead s) (ptail s) (cur_lockp s)
    (tmr_nactive s) (tmr_ntimeouts s) (tmr_nbusy s) (tmr_nstarts s) (tmr_nstops s).
Definition set_pending (h t : option nat) (s : Timers) : Timers :=
  mkTimers (timers s) (tmr_list s) (tmr_callback_active s) (active_timer s) h t (cur_lockp s)
    (tmr_nactive s) (tmr_ntimeouts s) (tmr_nbusy s) (tmr_nstarts s) (tmr_nstops s).
Definition set_cur_lockp (l : option nat) (s : Timers) : Timers :=
  mkTimers (timers s) (tmr_list s) (tmr_callback_active s) (active_timer s) (phead s) (ptail s) l
    (tmr_nactive s) (tmr_ntimeouts s) (tmr_nbusy s) (tmr_nstarts s) (tmr_nstops s).
Definition count (dactive dtimeouts dbusy dstarts dstops : Z) (s : Timers) : Timers :=
  mkTimers (timers s) (tmr_list s) (tmr_callback_active s) (active_timer s) (phead s) (ptail s) (cur_lockp s)
    ⟦tmr_nactive s + dactive⟧32 ⟦tmr_ntimeouts s + dtimeouts⟧32 ⟦tmr_nbusy s + dbusy⟧32
    ⟦tmr_nstarts s + dstarts⟧32 ⟦tmr_nstops s + dstops⟧32.

Definition set_next (p : option nat) (t : Timer_t) : Timer_t := mkTimer p (time t) (user t) (tcbf t) (lockp t).
Definition set_tcbf (f : option nat) (t : Timer_t) : Timer_t := mkTimer (next t) (time t) (user t) f (lockp t).
Definition set_lockp (l : option nat) (t : Timer_t) : Timer_t := mkTimer (next t) (time t) (user t) (tcbf t) l.

Definition upd (a : nat) (f : Timer_t -> Timer_t) (s : Timers) : option Timers :=
  t ← timers s !! a; Some (set_timers (<[a := f t]> (timers s)) s).

(** ** Lists *)

(** A walk along a list to the first timer that [stop] accepts: the timer
    before it, none at the head, and itself, none at the end.  Lists are not
    longer than the number of timers. *)
Fixpoint walk (fuel : nat) (m : gmap nat Timer_t) (stop : nat -> Timer_t -> bool) (prev p : option nat)
  : option (option nat * option nat) :=
  match p with
  | None => Some (prev, None)
  | Some a =>
      match fuel with
      | O => None
      | S fuel =>
          t ← m !! a;
          if stop a t then Some (prev, Some a) else walk fuel m stop (Some a) (next t)
      end
  end.

Definition fuel_of (s : Timers) : nat := size (timers s).

(** [*pprev = p], in the timer list or the pending list. *)
Definition set_link (prev p : option nat) (s : Timers) : option Timers :=
  match prev with
  | None => Some (set_list p s)
  | Some a => upd a (set_next p) s
  end.

Definition set_plink (prev p : option nat) (s : Timers) : option Timers :=
  match prev with
  | None => Some (set_pending p (ptail s) s)
  | Some a => upd a (set_next p) s
  end.

(** ** Operations *)

(** [tmr_init] *)
Definition tmr_init (a : nat) (t : Timer_t) (s : Timers) : Timers :=
  set_timers (<[a := set_tcbf None t]> (timers s)) s.

(** [tmr_stop] *)
Definition tmr_stop (a : nat) (s : Timers) : option Timers :=
  t ← timers s !! a;
  match tcbf t with
  | None => Some s
  | Some _ =>
      s ← upd a (set_tcbf None) (count 0 0 0 0 1 s);
      '(pprev, p) ← walk (fuel_of s) (timers s) (fun b _ => bool_decide (b = a)) None (tmr_list s);
      match p, phead s with
      | None, None => Some s
      | Some _, _ =>
          t ← timers s !! a;
          set_link pprev (next t) (count (-1) 0 0 0 0 s)
      | None, Some _ =>
          let s := count (-1) 0 0 0 0 s in
          '(prev, p) ← walk (fuel_of s) (timers s) (fun b _ => bool_decide (b = a)) None (phead s);
          match p with
          | None => Some s
          | Some _ =>
              t ← timers s !! a;
              let s := match next t with None => set_pending (phead s) prev s | Some _ => s end in
              set_plink prev (next t) s
          end
      end
  end.

(** The loop condition of [tmr_start_lock]: the new timer comes after [p]. *)
Definition before (now time_t : Z) (p : Timer_t) : bool :=
  (MAX_TIME_DIFF <? sys_ticksdiff now (time p)) || (sys_ticksdiff now (time p) <? sys_ticksdiff now time_t).

(** [tmr_start_lock], with the clock read at [now] *)
Definition tmr_start_lock (a : nat) (ticks usr : Z) (fct : nat) (lp : option nat) (now : Z) (s : Timers) : option Timers :=
  t ← timers s !! a;
  s ← (match tcbf t with Some _ => tmr_stop a s | None => Some s end);
  let s := count 1 0 0 1 0 s in
  t ← timers s !! a;
  let tm := ⟦now + ticks⟧64 in
  let s := set_timers (<[a := mkTimer (next t) tm usr (Some fct) lp]> (timers s)) s in
  '(pprev, p) ← walk (fuel_of s) (timers s) (fun _ p => negb (before now tm p)) None (tmr_list s);
  s ← upd a (set_next p) s;
  set_link pprev (Some a) s.

(** [tmr_lock_enable] and [tmr_lock_disable] *)
Definition tmr_lock_enable (a : option nat) (lp : option nat) (s : Timers) : option Timers :=
  match a with
  | None => Some s
  | Some a => t ← timers s !! a; match tcbf t with Some _ => upd a (set_lockp lp) s | None => Some s end
  end.

Definition tmr_lock_disable (a : option nat) (s : Timers) : option Timers :=
  match a with
  | Some a => upd a (set_lockp None) s
  | None => Some (set_cur_lockp None s)
  end.

(** [tmr_remain] *)
Definition tmr_remain (a : nat) (now : Z) (s : Timers) : option Z :=
  t ← timers s !! a;
  match tcbf t with
  | None => Some MAX_TIME_DIFF
  | Some _ =>
      let d := sys_ticksdiff now (time t) in
      Some (if MAX_TIME_DIFF <=? d then 0 else d)
  end.

(** [tmr_pending_ms] *)
Definition tmr_pending_ms (now : Z) (s : Timers) : option Z :=
  match tmr_list s with
  | None => Some MAX_TIME_DIFF
  | Some a =>
      t ← timers s !! a;
      let d := sys_ticksdiff now (time t) in
      Some ⟦if MAX_TIME_DIFF <? d then 0 else ⟦d * TMR_UNIT_MS⟧64⟧32
  end.

(** ** The manager *)

(** Where [tmr_manage] is: not running, at the head of its loop with
    [tmr_lock] taken, about to try the lock of a timer that it has taken off
    the list, or in the callback of a timer. *)
Inductive Manager :=
| MIdle
| MLoop
| MTry (t : nat) (fct : nat) (usr : Z)
| MCall (t : nat) (fct : nat) (usr : Z).

(** The end of [tmr_manage]: timers whose lock was busy go back in front. *)
Definition tmr_finish (s : Timers) : option Timers :=
  match phead s with
  | None => Some s
  | Some h =>
      tail ← ptail s;
      s ← upd tail (set_next (tmr_list s)) s;
      Some (set_pending None (ptail s) (set_list (Some h) s))
  end.

(** One round of the loop of [tmr_manage], with the clock read at [now]. *)
Definition tmr_round (now : Z) (s : Timers) : option (Timers * Manager) :=
  match tmr_list s with
  | None => s ← tmr_finish s; Some (s, MIdle)
  | Some a =>
      t ← timers s !! a;
      let d := sys_ticksdiff now (time t) in
      if negb (d =? 0) && (d <? MAX_TIME_DIFF) then s ← tmr_finish s; Some (s, MIdle)
      else
        let s := set_list (next t) s in
        match tcbf t with
        | None => Some (s, MLoop)
        | Some fct =>
            s ← upd a (set_tcbf None) s;
            let s := set_cur_lockp (lockp t) (set_active (tmr_callback_active s) (Some a) s) in
            Some (count (-1) 1 0 0 0 s, MTry a fct (user t))
        end
  end.

(** The lock of the timer could not be taken. *)
Definition tmr_busy (a fct : nat) (s : Timers) : option Timers :=
  let s := count 1 0 1 0 0 s in
  match active_timer s with
  | None => Some s
  | Some _ =>
      let s := set_active (tmr_callback_active s) None s in
      s ← upd a (set_tcbf (Some fct)) s;
      s ← (match phead s with
           | Some _ => tail ← ptail s; upd tail (set_next (Some a)) s
           | None => Some (set_pending (Some a) (ptail s) s)
           end);
      s ← upd a (set_next None) s;
      Some (set_pending (phead s) (Some a) s)
  end.

(** Around the callback. *)
Definition tmr_call (s : Timers) : Timers := set_active (tmr_callback_active s + 1) (active_timer s) s.
Definition tmr_return (s : Timers) : Timers := set_active (tmr_callback_active s - 1) None s.

(** What any thread may do while [tmr_lock] is free, callbacks included. *)
Inductive TmrOp :=
| TInit (a : nat) (t : Timer_t)
| TStart (a : nat) (ticks usr : Z) (fct : nat) (lp : option nat)
| TStop (a : nat)
| TEnable (a : nat) (lp : option nat)
| TDisable (a : option nat).

Definition tmr_op (op : TmrOp) (now : Z) (s : Timers) : option Timers :=
  match op with
  | TInit a t => Some (tmr_init a t s)
  | TStart a ticks usr fct lp => tmr_start_lock a ticks usr fct lp now s
  | TStop a => tmr_stop a s
  | TEnable a lp => tmr_lock_enable (Some a) lp s
  | TDisable a => tmr_lock_disable a s
  end.

(** What happens to the timers: a call of [tmr_manage], whose second caller
    finds a callback active and leaves, the rounds of its loop, the attempt
    to take the lock of a timer, which is free or not, the end of a callback,
    and the operations. *)
Inductive TmrEvent :=
| EManage
| ERound
| ETry (free : bool)
| EReturn
| EOp (op : TmrOp).

Definition tmr_event (e : TmrEvent) (now : Z) (sm : Timers * Manager) : option (Timers * Manager) :=
  let '(s, m) := sm in
  match e, m with
  | EManage, _ => Some (if tmr_callback_active s =? 0 then (s, MLoop) else (s, m))
  | ERound, MLoop => tmr_round now s
  | ETry free, MTry a fct usr =>
      if bool_decide (cur_lockp s ≠ None) && negb free then s ← tmr_busy a fct s; Some (s, MLoop)
      else Some (tmr_call s, MCall a fct usr)
  | EReturn, MCall _ _ _ => Some (tmr_return s, MLoop)
  | EOp op, _ => s ← tmr_op op now s; Some (s, m)
  | _, _ => None
  end.
