(* ===== verification/TimerProps.v ===== *)
(** The pointer structure of the timers (co/timer.c): the two lists as lists
    of addresses, what each operation does to them and to the data of the
    timers. *)

From stdpp Require Import gmap.
From S2P Require Import Prelude Timer.
From stdpp Require Import list.

#[local] Open Scope Z_scope.
#[local] Set Warnings "-clear-no-such-hyp".

(** ** Lists *)

Fixpoint chain (m : gmap nat Timer_t) (p : option nat) (L : list nat) : Prop :=
  match L with
  | [] => p = None
  | a :: L => p = Some a /\ exists t, m !! a = Some t /\ chain m (next t) L
  end.

(** The timers without their links. *)
Definition data (m : gmap nat Timer_t) : gmap nat Timer_t := set_next None <$> m.

Definition tof (m : gmap nat Timer_t) (a : nat) : Z := from_option time 0 (m !! a).

Lemma chain_dom m p L : chain m p L -> forall a, a ∈ L -> is_Some (m !! a).
Proof.
  revert p; induction L as [|b L IH]; intros p; [intros _ a H; set_solver|].
  intros (-> & t & Ht & Hc) a [->|Ha]%elem_of_cons; [by eexists|by eapply IH].
Qed.

Lemma chain_frame m p L a t : a ∉ L -> chain m p L -> chain (<[a := t]> m) p L.
Proof.
  revert p; induction L as [|b L IH]; intros p Ha; [done|].
  intros (-> & u & Hu & Hc). split; [done|]. exists u. rewrite lookup_insert_ne by set_solver.
  split; [done|]. apply IH; set_solver.
Qed.

Lemma chain_alter_frame m p L a f : a ∉ L -> chain m p L -> chain (alter f a m) p L.
Proof.
  destruct (m !! a) as [t|] eqn:E; intros.
  - replace (alter f a m) with (<[a := f t]> m); [by apply chain_frame|].
    apply map_eq; intros b. rewrite lookup_insert, lookup_alter. case_decide; subst; [|done]. by rewrite E.
  - by rewrite alter_id by naive_solver.
Qed.

Lemma chain_alter m p L a f : (forall t, next (f t) = next t) -> chain m p L -> chain (alter f a m) p L.
Proof.
  intros Hf. revert p; induction L as [|b L IH]; intros p; [done|].
  intros (-> & u & Hu & Hc). split; [done|].
  exists (if decide (a = b) then f u else u). rewrite lookup_alter. case_decide; subst.
  - rewrite Hu, Hf. auto.
  - auto.
Qed.

Lemma chain_length m p L : chain m p L -> NoDup L -> (length L <= size m)%nat.
Proof.
  intros Hc Hn. rewrite <- size_dom, <- (size_list_to_set (C := gset nat) L) by done.
  apply subseteq_size. intros a Ha%elem_of_list_to_set. apply elem_of_dom. by eapply chain_dom.
Qed.

(** [walk] splits the list at the first timer that [stop] accepts. *)
Lemma walk_chain m stop L : forall fuel prev p,
  chain m p L -> (length L <= fuel)%nat ->
  exists L1 L2 q, L = L1 ++ L2 /\
    walk fuel m stop prev p = Some (match last L1 with Some a => Some a | None => prev end, q) /\
    chain m q L2 /\ q = head L2 /\
    (forall a t, a ∈ L1 -> m !! a = Some t -> stop a t = false) /\
    (forall a t, head L2 = Some a -> m !! a = Some t -> stop a t = true).
Proof.
  induction L as [|b L IH]; intros fuel prev p Hc Hf.
  - exists [], [], None. simpl in Hc; subst. destruct fuel; simpl; split_and!; auto; set_solver.
  - destruct Hc as (-> & t & Ht & Hc). destruct fuel as [|fuel]; [simpl in Hf; lia|]. simpl. rewrite Ht. simpl.
    destruct (stop b t) eqn:E.
    + exists [], (b :: L), (Some b). split_and!; simpl; eauto; [set_solver|naive_solver].
    + destruct (IH fuel (Some b) (next t) Hc) as (L1 & L2 & q & -> & Hw & Hq & He & H1 & H2); [simpl in Hf; lia|].
      exists (b :: L1), L2, q. split_and!; auto.
      * rewrite Hw. do 2 f_equal. rewrite last_cons. by destruct (last L1).
      * intros a u [->|Ha]%elem_of_cons Hu; [congruence|by eapply H1].
Qed.

(** [*pprev = q] for the list whose first pointer is [h]. *)
Definition relink (h prev q : option nat) (m : gmap nat Timer_t) : gmap nat Timer_t * option nat :=
  match prev with
  | None => (m, q)
  | Some a => (alter (set_next q) a m, h)
  end.

Lemma chain_relink m L2 q L' : forall L1 h,
  chain m h (L1 ++ L2) -> NoDup L1 -> (forall a, a ∈ L1 -> a ∉ L') -> chain m q L' ->
  chain (fst (relink h (last L1) q m)) (snd (relink h (last L1) q m)) (L1 ++ L').
Proof.
  induction L1 as [|b L1 IH]; intros h Hc Hn Hd Hq; [done|].
  destruct Hc as (-> & t & Ht & Hc). apply NoDup_cons in Hn as [Hb Hn].
  destruct L1 as [|c L1].
  - simpl in *. split; [done|]. exists (set_next q t). rewrite lookup_alter_eq, Ht. split; [done|].
    apply chain_alter_frame; [set_solver|done].
  - specialize (IH (next t) Hc Hn ltac:(set_solver) Hq). rewrite last_cons_cons.
    destruct (last (c :: L1)) as [x|] eqn:El; [|by apply last_None in El]. simpl in IH |- *.
    split; [done|]. exists t. split; [|exact IH].
    rewrite lookup_alter_ne; [done|]. intros ->. apply Hb. by apply last_Some_elem_of in El.
Qed.

(** ** Data *)

Lemma data_lookup m a : data m !! a = set_next None <$> m !! a.
Proof. apply lookup_fmap. Qed.

Lemma data_alter_next m q a : data (alter (set_next q) a m) = data m.
Proof.
  apply map_eq; intros b. rewrite !data_lookup, lookup_alter. case_decide as E; [rewrite <- E|done].
  by destruct (m !! _).
Qed.

Lemma data_relink h prev q m : data (fst (relink h prev q m)) = data m.
Proof. destruct prev; [apply data_alter_next|done]. Qed.

Lemma data_alter m a f : (forall t, set_next None (f t) = f (set_next None t)) -> data (alter f a m) = alter f a (data m).
Proof.
  intros Hf. apply map_eq; intros b. rewrite data_lookup, !lookup_alter. case_decide; [|by rewrite data_lookup].
  rewrite data_lookup. destruct (m !! _); simpl; [by rewrite Hf|done].
Qed.

Lemma data_insert m a t : data (<[a := t]> m) = <[a := set_next None t]> (data m).
Proof. apply fmap_insert. Qed.

Lemma data_tof m a : tof (data m) a = tof m a.
Proof. unfold tof. rewrite data_lookup. by destruct (m !! a). Qed.

Lemma upd_alter s a f t : timers s !! a = Some t -> upd a f s = Some (set_timers (alter f a (timers s)) s).
Proof.
  intros Ht. unfold upd. rewrite Ht. simpl. do 2 f_equal.
  apply map_eq; intros b. rewrite lookup_insert, lookup_alter. case_decide; subst; [by rewrite Ht|done].
Qed.

Lemma set_link_relink s prev q : (forall a, prev = Some a -> is_Some (timers s !! a)) ->
  set_link prev q s = Some (set_list (snd (relink (tmr_list s) prev q (timers s)))
                             (set_timers (fst (relink (tmr_list s) prev q (timers s))) s)).
Proof.
  intros H. destruct prev as [a|]; simpl; [|by destruct s].
  destruct (H a eq_refl) as [t Ht]. rewrite (upd_alter _ _ _ _ Ht). by destruct s.
Qed.

Lemma set_plink_relink s prev q : (forall a, prev = Some a -> is_Some (timers s !! a)) ->
  set_plink prev q s = Some (set_pending (snd (relink (phead s) prev q (timers s))) (ptail s)
                              (set_timers (fst (relink (phead s) prev q (timers s))) s)).
Proof.
  intros H. destruct prev as [a|]; simpl; [|by destruct s].
  destruct (H a eq_refl) as [t Ht]. rewrite (upd_alter _ _ _ _ Ht). by destruct s.
Qed.

(** ** The two lists *)

(** [L] is the timer list and [P] the list of elapsed timers whose lock was
    busy; the tail pointer is meaningful only when there are such timers. *)
Record shape (s : Timers) (L P : list nat) : Prop := {
  sh_list : chain (timers s) (tmr_list s) L;
  sh_pend : chain (timers s) (phead s) P;
  sh_tail : P = [] \/ ptail s = last P;
  sh_nodup : NoDup (P ++ L)
}.

Definition drop_timer (a : nat) (L : list nat) : list nat := filter (fun b => b ≠ a) L.

(** What an operation leaves alone. *)
Definition same_manager (s s' : Timers) : Prop :=
  tmr_callback_active s' = tmr_callback_active s /\ active_timer s' = active_timer s /\ cur_lockp s' = cur_lockp s.

Lemma drop_timer_notin a L : a ∉ L -> drop_timer a L = L.
Proof.
  unfold drop_timer. induction L as [|b L IH]; intros H; [done|].
  rewrite filter_cons, decide_True by set_solver. f_equal. apply IH. set_solver.
Qed.

Lemma drop_timer_split a L1 L2 : NoDup (L1 ++ a :: L2) -> drop_timer a (L1 ++ a :: L2) = L1 ++ L2.
Proof.
  intros (H1 & H & H2)%NoDup_app. apply NoDup_cons in H2 as [H2 _]. unfold drop_timer.
  rewrite filter_app, filter_cons, decide_False by naive_solver.
  f_equal; apply drop_timer_notin; set_solver.
Qed.

Lemma sh_nodup_list s L P : shape s L P -> NoDup L.
Proof. intros [_ _ _ (? & ? & ?)%NoDup_app]. done. Qed.

Lemma sh_nodup_pend s L P : shape s L P -> NoDup P.
Proof. intros [_ _ _ (? & ? & ?)%NoDup_app]. done. Qed.

Lemma shape_walk s L P : shape s L P -> (length L <= fuel_of s)%nat.
Proof. intros H. eapply chain_length; [apply H|by eapply sh_nodup_list]. Qed.

Lemma shape_pwalk s L P : shape s L P -> (length P <= fuel_of s)%nat.
Proof. intros H. eapply chain_length; [apply H|by eapply sh_nodup_pend]. Qed.

(** Changes that keep the links keep the lists. *)
Lemma shape_alter s s' L P a f :
  shape s L P -> (forall t, next (f t) = next t) -> timers s' = alter f a (timers s) ->
  tmr_list s' = tmr_list s -> phead s' = phead s -> ptail s' = ptail s -> shape s' L P.
Proof.
  intros [H1 H2 H3 H4] Hf Ht Hl Hh Hp. split; rewrite ?Ht, ?Hl, ?Hh, ?Hp; auto; by apply chain_alter.
Qed.

(** Searching a list for one of its members. *)
Lemma walk_find m fuel h L a :
  chain m h L -> NoDup L -> (length L <= fuel)%nat ->
  ((a ∉ L) /\ exists prev, walk fuel m (fun b _ => bool_decide (b = a)) None h = Some (prev, None)) \/
  (exists L1 L2, L = L1 ++ a :: L2 /\
     walk fuel m (fun b _ => bool_decide (b = a)) None h = Some (last L1, Some a)).
Proof.
  intros Hc Hn Hf. destruct (walk_chain m (fun b _ => bool_decide (b = a)) L fuel None h Hc Hf)
    as (L1 & L2 & q & -> & Hw & Hq & He & H1 & H2).
  assert (Ha : a ∉ L1).
  { intros Hin. destruct (chain_dom _ _ _ Hc a) as [t Ht]; [set_solver|].
    specialize (H1 a t Hin Ht). by apply bool_decide_eq_false in H1. }
  destruct L2 as [|b L2]; simpl in He; subst q.
  - left. split; [by rewrite app_nil_r|]. eauto.
  - right. exists L1, L2. destruct Hq as (_ & t & Ht & _). specialize (H2 b t eq_refl Ht).
    apply bool_decide_eq_true in H2 as ->. split; [done|]. rewrite Hw. by destruct (last L1).
Qed.

Lemma last_dom m h L1 L2 x : chain m h (L1 ++ L2) -> last L1 = Some x -> is_Some (m !! x).
Proof. intros Hc Hl%last_Some_elem_of. eapply chain_dom; [done|set_solver]. Qed.

(** [tmr_stop] takes the timer off the list that it is on. *)
Lemma shape_drop_list s s' L1 L2 P a q :
  shape s (L1 ++ a :: L2) P -> chain (timers s) q L2 ->
  timers s' = fst (relink (tmr_list s) (last L1) q (timers s)) ->
  tmr_list s' = snd (relink (tmr_list s) (last L1) q (timers s)) ->
  phead s' = phead s -> ptail s' = ptail s ->
  shape s' (L1 ++ L2) P.
Proof.
  intros [C1 C2 C3 C4] Hq Ht Hl Hh Hp.
  apply NoDup_app in C4 as (N1 & N2 & (N3 & N4 & [N5 N6]%NoDup_cons)%NoDup_app).
  split; rewrite ?Ht, ?Hl, ?Hh, ?Hp; [| |done|].
  - eapply chain_relink; [done..| |done]. set_solver.
  - destruct (last L1) as [x|] eqn:E; [|done]. apply chain_alter_frame; [|done].
    apply last_Some_elem_of in E. set_solver.
  - apply NoDup_app. split; [done|]. split; [set_solver|]. apply NoDup_app. set_solver.
Qed.

Lemma shape_drop_pend s s' L P1 P2 a q :
  shape s L (P1 ++ a :: P2) -> chain (timers s) q P2 ->
  timers s' = fst (relink (phead s) (last P1) q (timers s)) ->
  phead s' = snd (relink (phead s) (last P1) q (timers s)) ->
  tmr_list s' = tmr_list s -> ptail s' = (match q with None => last P1 | Some _ => ptail s end) ->
  shape s' L (P1 ++ P2).
Proof.
  intros [C1 C2 C3 C4] Hq Ht Hh Hl Hp.
  apply NoDup_app in C4 as ((N3 & N4 & [N5 N6]%NoDup_cons)%NoDup_app & N2 & N1).
  split; rewrite ?Ht, ?Hl, ?Hh, ?Hp.
  - destruct (last P1) as [x|] eqn:E; [|done]. apply chain_alter_frame; [|done].
    apply last_Some_elem_of in E. set_solver.
  - eapply chain_relink; [done..| |done]. set_solver.
  - destruct P2 as [|b P2]; simpl in Hq.
    + subst q. rewrite app_nil_r. by right.
    + destruct Hq as [-> _]. destruct C3 as [C3|C3]; [by destruct P1|]. right. rewrite C3.
      by rewrite !last_app_cons, last_cons_cons.
  - apply NoDup_app. split; [|split; [set_solver|done]]. apply NoDup_app. set_solver.
Qed.

Lemma tmr_stop_idle s a t : timers s !! a = Some t -> tcbf t = None -> tmr_stop a s = Some s.
Proof. intros Ht Hf. unfold tmr_stop. by rewrite Ht; simpl; rewrite Hf. Qed.

Lemma same_manager_refl s : same_manager s s.
Proof. done. Qed.

Lemma chain_suffix m L1 a L2 t : forall p, chain m p (L1 ++ a :: L2) -> m !! a = Some t -> chain m (next t) L2.
Proof. induction L1; intros p (_ & u & Hu & C) Ht; [by simplify_eq|by eapply IHL1]. Qed.

(** The timer that [tmr_stop] searches the lists for. *)
Definition tmr_disarm (a : nat) (s : Timers) : Timers :=
  set_timers (alter (set_tcbf None) a (timers s)) (count 0 0 0 0 1 s).

Lemma shape_disarm s L P a : shape s L P -> shape (tmr_disarm a s) L P.
Proof. intros H. by eapply (shape_alter s _ _ _ a (set_tcbf None)). Qed.

Lemma tmr_stop_in_list s L1 L2 P a t f :
  shape s (L1 ++ a :: L2) P -> timers s !! a = Some t -> tcbf t = Some f ->
  exists s', tmr_stop a s = Some s' /\ shape s' (drop_timer a (L1 ++ a :: L2)) P /\
    data (timers s') = alter (set_tcbf None) a (data (timers s)) /\ same_manager s s'.
Proof.
  intros Hs Ht Hf. unfold tmr_stop. rewrite Ht. simpl. rewrite Hf, (upd_alter _ a _ t) by done. simpl.
  fold (tmr_disarm a s). pose proof (shape_disarm s _ _ a Hs) as Hs1.
  assert (Ht1 : alter (set_tcbf None) a (timers s) !! a = Some (set_tcbf None t)) by (by rewrite lookup_alter_eq, Ht).
  destruct (walk_find (timers (tmr_disarm a s)) (fuel_of (tmr_disarm a s)) (tmr_list (tmr_disarm a s)) _ a (sh_list _ _ _ Hs1)
    (sh_nodup_list _ _ _ Hs1) (shape_walk _ _ _ Hs1)) as [(HaL & _)|(M1 & M2 & HM & Hw)]; [set_solver|].
  simpl in Hw. rewrite Hw. rewrite HM in *. simpl. rewrite Ht1. simpl.
  rewrite set_link_relink by (intros x Hx; by eapply last_dom; [apply Hs1|]).
  eexists. split; [done|]. split; [|split].
  - rewrite drop_timer_split by (by eapply sh_nodup_list).
    eapply shape_drop_list; [exact Hs1| |done..]. exact (chain_suffix _ M1 a M2 (set_tcbf None t) _ (sh_list _ _ _ Hs1) Ht1).
  - simpl. rewrite data_relink. by apply data_alter.
  - done.
Qed.

Lemma tmr_stop_in_pend s L P1 P2 a t f :
  shape s L (P1 ++ a :: P2) -> timers s !! a = Some t -> tcbf t = Some f ->
  exists s', tmr_stop a s = Some s' /\ shape s' L (drop_timer a (P1 ++ a :: P2)) /\
    data (timers s') = alter (set_tcbf None) a (data (timers s)) /\ same_manager s s'.
Proof.
  intros Hs Ht Hf. unfold tmr_stop. rewrite Ht. simpl. rewrite Hf, (upd_alter _ a _ t) by done. simpl.
  fold (tmr_disarm a s). pose proof (shape_disarm s _ _ a Hs) as Hs1.
  assert (Ht1 : alter (set_tcbf None) a (timers s) !! a = Some (set_tcbf None t)) by (by rewrite lookup_alter_eq, Ht).
  destruct (walk_find (timers (tmr_disarm a s)) (fuel_of (tmr_disarm a s)) (tmr_list (tmr_disarm a s)) _ a (sh_list _ _ _ Hs1)
    (sh_nodup_list _ _ _ Hs1) (shape_walk _ _ _ Hs1)) as [(HaL & prev & Hw)|(M1 & M2 & HM & Hw)].
  2:{ pose proof (sh_nodup _ _ _ Hs) as Hn. apply NoDup_app in Hn. set_solver. }
  simpl in Hw. rewrite Hw. clear Hw. simpl.
  destruct (walk_find (timers (tmr_disarm a s)) (fuel_of (tmr_disarm a s)) (phead (tmr_disarm a s)) _ a (sh_pend _ _ _ Hs1)
    (sh_nodup_pend _ _ _ Hs1) (shape_pwalk _ _ _ Hs1)) as [(HaP & _)|(M1 & M2 & HM & Hw)]; [set_solver|].
  rewrite HM in *. clear HM P1 P2.
  assert (exists h, phead s = Some h) as [h Hh] by (destruct Hs as [_ C _ _]; destruct M1, C as [C _]; eauto).
  rewrite Hh. change (fuel_of (count (-1) 0 0 0 0 (tmr_disarm a s))) with (fuel_of (tmr_disarm a s)).
  simpl in Hw. rewrite Hh in Hw. rewrite Hw. simpl. rewrite Ht1. simpl.
  set (s1 := match next t with None => _ | Some _ => _ end).
  assert (Hs2 : timers s1 = timers (tmr_disarm a s) /\ phead s1 = phead s /\ tmr_list s1 = tmr_list s /\ same_manager s s1 /\
    ptail s1 = match next t with None => last M1 | Some _ => ptail s end) by (subst s1; destruct (next t); done).
  clearbody s1. destruct Hs2 as (E1 & E2 & E3 & E4 & E5).
  rewrite set_plink_relink by (intros x Hx; rewrite E1; by eapply last_dom; [apply Hs1|]).
  eexists. split; [done|]. rewrite drop_timer_split by (by eapply sh_nodup_pend). split; [|split].
  - eapply shape_drop_pend; [exact Hs1|exact (chain_suffix _ M1 a M2 (set_tcbf None t) _ (sh_pend _ _ _ Hs1) Ht1)|..];
      simpl; rewrite ?E1, ?E2; done.
  - simpl. rewrite data_relink, E1. by apply data_alter.
  - done.
Qed.

Lemma tmr_stop_ok s L P a t :
  shape s L P -> timers s !! a = Some t -> (tcbf t ≠ None <-> a ∈ P ++ L) ->
  exists s', tmr_stop a s = Some s' /\ shape s' (drop_timer a L) (drop_timer a P) /\
    data (timers s') = alter (set_tcbf None) a (data (timers s)) /\ same_manager s s'.
Proof.
  intros Hs Ht Hin. destruct (tcbf t) as [f|] eqn:Ef.
  - assert (Ha : a ∈ P ++ L) by (by apply Hin). pose proof (sh_nodup _ _ _ Hs) as (_ & Hn & _)%NoDup_app.
    apply elem_of_app in Ha as [Ha|Ha].
    + rewrite (drop_timer_notin a L) by auto. apply list_elem_of_split in Ha as (P1 & P2 & ->).
      by eapply tmr_stop_in_pend.
    + rewrite (drop_timer_notin a P) by (intros HP; by apply (Hn a HP)). apply list_elem_of_split in Ha as (L1 & L2 & ->).
      by eapply tmr_stop_in_list.
  - exists s. rewrite !drop_timer_notin by set_solver. split_and!; [by eapply tmr_stop_idle|done| |done].
    rewrite <- data_alter by done. f_equal. symmetry. apply alter_id. intros u Hu. simplify_eq.
    destruct t; simpl in *; by subst.
Qed.

(** ** Starting *)

(** Into a list ordered by time, before the timers that elapse with it. *)
Fixpoint ins (f : nat -> Z) (tm : Z) (a : nat) (L : list nat) : list nat :=
  match L with
  | [] => [a]
  | b :: L => if f b <? tm then b :: ins f tm a L else a :: b :: L
  end.

Lemma ins_timer_split f tm a L1 L2 :
  (forall b, b ∈ L1 -> f b < tm) -> (forall b, head L2 = Some b -> tm <= f b) -> ins f tm a (L1 ++ L2) = L1 ++ a :: L2.
Proof.
  intros H1 H2. induction L1 as [|b L1 IH]; simpl.
  - destruct L2 as [|b L2]; [done|]. simpl. specialize (H2 b eq_refl). by destruct (Z.ltb_spec (f b) tm); [lia|].
  - pose proof (H1 b ltac:(set_solver)). destruct (Z.ltb_spec (f b) tm); [|lia]. f_equal. apply IH. set_solver.
Qed.

Lemma before_spec now ticks p :
  0 <= now < 2 ^ 63 -> 0 <= ticks < MAX_TIME_DIFF -> 0 <= time p < now + MAX_TIME_DIFF ->
  before now (now + ticks) p = (time p <? now + ticks).
Proof.
  unfold before, sys_ticksdiff, MAX_TIME_DIFF. intros H1 H2 H3.
  destruct (Z.leb_spec now (time p)), (Z.leb_spec now (now + ticks)); lia.
Qed.

Lemma drop_timer_nodup a L P : NoDup (P ++ L) -> NoDup (drop_timer a P ++ drop_timer a L).
Proof. intros H. unfold drop_timer. rewrite <- filter_app. by apply NoDup_filter. Qed.

Lemma drop_timer_in a b L : b ∈ drop_timer a L <-> (b ≠ a) /\ (b ∈ L).
Proof. unfold drop_timer. by rewrite list_elem_of_filter. Qed.

Lemma NoDup_insert (a : nat) P L1 L2 : NoDup (P ++ L1 ++ L2) -> a ∉ P ++ L1 ++ L2 -> NoDup (P ++ L1 ++ a :: L2).
Proof.
  intros H Ha. assert (E : P ++ L1 ++ a :: L2 ≡ₚ a :: P ++ L1 ++ L2).
  { rewrite !app_assoc. symmetry. apply Permutation_middle. }
  rewrite E. by apply NoDup_cons.
Qed.

(** The second half of [tmr_start_lock], for a timer on neither list. *)
Lemma insert_timer s L P a t u ticks now :
  shape s L P -> a ∉ P ++ L -> timers s !! a = Some t -> time u = now + ticks -> next u = next t ->
  0 <= now < 2 ^ 63 -> 0 <= ticks < MAX_TIME_DIFF ->
  (forall b, b ∈ L -> 0 <= tof (timers s) b < now + MAX_TIME_DIFF) ->
  exists s',
    (let s := set_timers (<[a := u]> (timers s)) s in
     '(pprev, p) ← walk (fuel_of s) (timers s) (fun _ p => negb (before now (now + ticks) p)) None (tmr_list s);
     s ← upd a (set_next p) s;
     set_link pprev (Some a) s) = Some s' /\
    shape s' (ins (tof (timers s)) (now + ticks) a L) P /\
    data (timers s') = <[a := set_next None u]> (data (timers s)) /\ same_manager s s'.
Proof.
  intros [C1 C2 C3 C4] Ha Ht Hu Hn Hnow Htk Hb. simpl.
  set (m := <[a := u]> (timers s)).
  assert (HaL : a ∉ L) by set_solver. assert (HaP : a ∉ P) by set_solver.
  assert (HL : chain m (tmr_list s) L) by (by apply chain_frame).
  assert (HP : chain m (phead s) P) by (by apply chain_frame).
  pose proof C4 as (N1 & N2 & N3)%NoDup_app.
  destruct (walk_chain m (fun _ p => negb (before now (now + ticks) p)) L (size m) None (tmr_list s) HL)
    as (L1 & L2 & q & -> & Hw & Hq & He & W1 & W2); [by eapply chain_length|].
  change (fuel_of (set_timers m s)) with (size m). rewrite Hw. simpl.
  assert (Hma : m !! a = Some u) by (by apply lookup_insert_eq).
  rewrite (upd_alter _ a _ u) by done. simpl.
  assert (Hpre : match last L1 with Some a => Some a | None => None end = last L1) by (by destruct (last L1)).
  rewrite Hpre, set_link_relink.
  2:{ intros x Hx. simpl. apply lookup_alter_is_Some. by eapply last_dom. }
  eexists. split; [done|]. simpl.
  assert (Htof : forall b, b ∈ L1 ++ L2 -> exists v, m !! b = Some v /\ tof (timers s) b = time v /\
    before now (now + ticks) v = (time v <? now + ticks)).
  { intros b Hbin. destruct (chain_dom _ _ _ HL b Hbin) as [v Hv]. exists v. split; [done|].
    specialize (Hb b Hbin). unfold m in Hv. rewrite lookup_insert_ne in Hv by (by intros ->).
    unfold tof in *. rewrite Hv in *. split; [done|]. by apply before_spec. }
  pose proof HaL as [HaL1 HaL2]%not_elem_of_app. apply NoDup_app in N3 as (M1 & M2 & M3).
  split; [|split; [|done]].
  - rewrite ins_timer_split.
    + split; simpl.
      * eapply chain_relink; [by apply (chain_alter_frame m _ (L1 ++ L2))|done| |].
        { intros x Hx [->|Hx']%elem_of_cons; [by apply HaL1|by eapply M2]. }
        split; [done|]. exists (set_next q u). rewrite lookup_alter_eq, Hma. split; [done|].
        by apply chain_alter_frame.
      * destruct (last L1) as [x|] eqn:E; simpl; [|by apply chain_alter_frame].
        apply last_Some_elem_of in E. apply chain_alter_frame; [|by apply chain_alter_frame].
        intros Hx. eapply (N2 x); [done|]. apply elem_of_app. by left.
      * done.
      * by apply NoDup_insert.
    + intros b Hbin. destruct (Htof b) as (v & Hv & -> & E); [apply elem_of_app; by left|].
      specialize (W1 b v Hbin Hv). rewrite E in W1. lia.
    + intros b Hh. destruct (Htof b) as (v & Hv & -> & E); [apply elem_of_app; right; by apply head_Some_elem_of|].
      specialize (W2 b v Hh Hv). rewrite E in W2. lia.
  - rewrite data_relink, data_alter_next. apply data_insert.
Qed.

Lemma ins_ext f g tm a L : (forall b, f b = g b) -> ins f tm a L = ins g tm a L.
Proof. intros H. induction L as [|b L IH]; simpl; [done|]. by rewrite H, IH. Qed.

Lemma tof_alter m a f b : (forall t, time (f t) = time t) -> tof (alter f a m) b = tof m b.
Proof. intros H. unfold tof. rewrite lookup_alter. case_decide; [subst|done]. destruct (m !! _); simpl; auto. Qed.

Lemma tof_insert m a t b : tof (<[a := t]> m) b = if decide (a = b) then time t else tof m b.
Proof. unfold tof. rewrite lookup_insert. by case_decide. Qed.

Lemma insert_alter_same (m : gmap nat Timer_t) a f t : <[a := t]> (alter f a m) = <[a := t]> m.
Proof. apply map_eq; intros b. rewrite !lookup_insert. case_decide; [done|]. by apply lookup_alter_ne. Qed.

Lemma data_some m a t : m !! a = Some t -> data m !! a = Some (set_next None t).
Proof. intros H. by rewrite data_lookup, H. Qed.

Lemma some_data m a t : data m !! a = Some t -> exists u, m !! a = Some u /\ t = set_next None u.
Proof. rewrite data_lookup. destruct (m !! a); naive_solver. Qed.

(** [tmr_start_lock] *)
Lemma tmr_start_ok s L P a t ticks usr fct lp now :
  shape s L P -> timers s !! a = Some t -> (tcbf t ≠ None <-> a ∈ P ++ L) ->
  0 <= now < 2 ^ 63 -> 0 <= ticks < MAX_TIME_DIFF ->
  (forall b, b ∈ L -> 0 <= tof (timers s) b < now + MAX_TIME_DIFF) ->
  exists s', tmr_start_lock a ticks usr fct lp now s = Some s' /\
    shape s' (ins (tof (timers s)) (now + ticks) a (drop_timer a L)) (drop_timer a P) /\
    data (timers s') = <[a := mkTimer None (now + ticks) usr (Some fct) lp]> (data (timers s)) /\ same_manager s s'.
Proof.
  intros Hs Ht Hin Hnow Htk Hb. unfold tmr_start_lock. rewrite Ht. simpl.
  destruct (tmr_stop_ok s L P a t Hs Ht Hin) as (s1 & E1 & Hs1 & Hd1 & Hm1).
  assert (E : match tcbf t with Some _ => tmr_stop a s | None => Some s end = Some s1).
  { destruct (tcbf t) eqn:Ef; [done|]. by rewrite <- E1, (tmr_stop_idle s a t). }
  rewrite E. clear E E1. simpl.
  assert (Htof : forall b, tof (timers s1) b = tof (timers s) b).
  { intros b. by rewrite <- data_tof, Hd1, tof_alter, data_tof. }
  assert (exists u, timers s1 !! a = Some u) as [u Hu].
  { destruct (some_data (timers s1) a (set_tcbf None (set_next None t))) as (u & Hu & _); [|eauto].
    by rewrite Hd1, lookup_alter_eq, (data_some _ _ _ Ht). }
  rewrite Hu. simpl. replace ⟦now + ticks⟧64 with (now + ticks).
  2:{ unfold wrap. rewrite Z.mod_small; [done|]. unfold MAX_TIME_DIFF in Htk. lia. }
  destruct (insert_timer (count 1 0 0 1 0 s1) (drop_timer a L) (drop_timer a P) a u
    (mkTimer (next u) (now + ticks) usr (Some fct) lp) ticks now) as (s' & Es & Hs' & Hd' & Hm'); try done.
  - by destruct Hs1.
  - intros [H|H]%elem_of_app; apply drop_timer_in in H; naive_solver.
  - intros b Hbin%drop_timer_in. simpl. rewrite Htof. naive_solver.
  - exists s'. split; [exact Es|]. rewrite (ins_ext _ (tof (timers s)) _ _ _ Htof) in Hs'. split; [done|].
    simpl in Hd'. rewrite Hd', Hd1, insert_alter_same. split; [done|].
    destruct Hm1 as (? & ? & ?), Hm' as (? & ? & ?). unfold same_manager in *; simpl in *. by split_and!; congruence.
Qed.

(** ** The manager *)

Lemma tmr_finish_ok s L P : shape s L P ->
  exists s', tmr_finish s = Some s' /\ shape s' (P ++ L) [] /\ data (timers s') = data (timers s) /\ same_manager s s'.
Proof.
  intros [C1 C2 C3 C4]. unfold tmr_finish. destruct P as [|b P].
  - simpl in C2. rewrite C2. exists s. done.
  - pose proof C2 as C2'. destruct C2' as [-> _]. destruct C3 as [|C3]; [done|]. rewrite C3.
    destruct (last (b :: P)) as [x|] eqn:El; [|by apply last_None in El]. simpl.
    assert (is_Some (timers s !! x)) as [t Ht] by (eapply chain_dom; [exact C2|by apply last_Some_elem_of]).
    rewrite (upd_alter _ _ _ _ Ht). simpl. eexists. split; [done|]. apply NoDup_app in C4 as (N1 & N2 & N3).
    assert (C2' : chain (timers s) (phead s) ((b :: P) ++ [])) by (by rewrite app_nil_r).
    pose proof (chain_relink (timers s) [] (tmr_list s) L (b :: P) (phead s) C2' N1 N2 C1) as Hr.
    rewrite El in Hr. simpl in Hr. split; [|split; [apply data_alter_next|done]].
    destruct Hr as [E Hr]. split; simpl; [split; [done|exact Hr]|done|by left|]. by apply (NoDup_app (b :: P) L).
Qed.

(** The end of the list of busy timers. *)
Lemma tmr_append s P a t :
  chain (timers s) (phead s) P -> (P = [] \/ ptail s = last P) -> NoDup P -> timers s !! a = Some t -> a ∉ P ->
  exists m h,
    (s ← (match phead s with
          | Some _ => tail ← ptail s; upd tail (set_next (Some a)) s
          | None => Some (set_pending (Some a) (ptail s) s)
          end);
     s ← upd a (set_next None) s;
     Some (set_pending (phead s) (Some a) s)) = Some (set_pending h (Some a) (set_timers m s)) /\
    chain m h (P ++ [a]) /\ data m = data (timers s) /\
    (forall p L, chain (timers s) p L -> a ∉ L -> (forall b, b ∈ P -> b ∉ L) -> chain m p L).
Proof.
  intros C2 C3 Hn Ht Ha. set (m1 := alter (set_next None) a (timers s)).
  exists (fst (relink (phead s) (last P) (Some a) m1)), (snd (relink (phead s) (last P) (Some a) m1)).
  split_and!.
  - destruct P as [|b P].
    + simpl in C2. rewrite C2. simpl. by rewrite (upd_alter _ a _ t).
    + pose proof C2 as [-> _]. destruct C3 as [|C3]; [done|]. rewrite C3.
      destruct (last (b :: P)) as [x|] eqn:El; [|by apply last_None in El]. simpl.
      assert (Hx : x ∈ b :: P) by (by apply last_Some_elem_of). assert (Hxa : x ≠ a) by (by intros ->).
      destruct (chain_dom _ _ _ C2 x Hx) as [u Hu]. rewrite (upd_alter _ _ _ _ Hu). simpl.
      rewrite (upd_alter _ a _ t) by (simpl; by rewrite lookup_alter_ne). simpl.
      unfold m1, set_pending, set_timers. simpl. rewrite alter_alter_ne by done. by destruct C2 as [-> _].
  - eapply chain_relink with (L2 := []); [rewrite app_nil_r; by apply chain_alter_frame|done| |].
    + intros b Hb ->%list_elem_of_singleton. done.
    + split; [done|]. exists (set_next None t). unfold m1. by rewrite lookup_alter_eq, Ht.
  - rewrite data_relink. apply data_alter_next.
  - intros p L C1 HaL HP. assert (chain m1 p L) by (by apply chain_alter_frame).
    destruct (last P) as [x|] eqn:El; [|done]. apply chain_alter_frame; [|done].
    apply HP. by apply last_Some_elem_of.
Qed.

Lemma tmr_busy_ok s L P a t fct :
  shape s L P -> timers s !! a = Some t -> a ∉ P ++ L -> active_timer s ≠ None ->
  exists s', tmr_busy a fct s = Some s' /\ shape s' L (P ++ [a]) /\
    data (timers s') = alter (set_tcbf (Some fct)) a (data (timers s)) /\
    tmr_callback_active s' = ⟦tmr_callback_active s⟧32 /\ active_timer s' = None.
Proof.
  intros Hs Ht [HaP HaL]%not_elem_of_app Hact. unfold tmr_busy. simpl. destruct (active_timer s); [|done].
  rewrite (upd_alter _ a _ t) by done. simpl.
  set (s1 := set_timers _ _). assert (Hs1 : shape s1 L P) by (by eapply (shape_alter s _ _ _ a (set_tcbf (Some fct)))).
  destruct (tmr_append s1 P a (set_tcbf (Some fct) t)) as (m & h & E & Hc & Hd & Hf);
    [apply Hs1|apply Hs1|by eapply sh_nodup_pend|simpl; by rewrite lookup_alter_eq, Ht|done|].
  simpl in E. rewrite E. eexists. split; [done|].
  pose proof (sh_nodup _ _ _ Hs1) as (N1 & N2 & N3)%NoDup_app. split; [|split; [|done]].
  - split; simpl; [by apply Hf; [apply Hs1|..]|done|right; by rewrite last_snoc|].
    rewrite <- app_assoc. by apply (NoDup_insert a P [] L); [apply Hs1|apply not_elem_of_app].
  - simpl. rewrite Hd. by apply data_alter.
Qed.

(** The first timer of the list is taken off it. *)
Lemma shape_pop s a L P t :
  shape s (a :: L) P -> timers s !! a = Some t -> shape (set_list (next t) s) L P.
Proof.
  intros [C1 C2 C3 C4] Ht. apply NoDup_app in C4 as (N1 & N2 & [N3 N4]%NoDup_cons).
  split; simpl; [|done|done|].
  - destruct C1 as (_ & u & Hu & C1). by simplify_eq.
  - apply NoDup_app. split_and!; [done| |done]. intros x Hx Hl. apply (N2 x Hx). apply elem_of_cons; by right.
Qed.

Lemma due_spec now t :
  0 <= now < 2 ^ 63 -> 0 <= time t < now + MAX_TIME_DIFF ->
  negb (sys_ticksdiff now (time t) =? 0) && (sys_ticksdiff now (time t) <? MAX_TIME_DIFF) = (now <? time t).
Proof. unfold sys_ticksdiff, MAX_TIME_DIFF. intros H1 H2. destruct (Z.leb_spec now (time t)); lia. Qed.

(** One round: nothing is due, or the first timer is taken. *)
Lemma tmr_round_wait s L P now :
  shape s L P -> 0 <= now < 2 ^ 63 -> (forall b, b ∈ L -> 0 <= tof (timers s) b < now + MAX_TIME_DIFF) ->
  (forall b, head L = Some b -> now < tof (timers s) b) ->
  exists s', tmr_round now s = Some (s', MIdle) /\ shape s' (P ++ L) [] /\ data (timers s') = data (timers s) /\
    same_manager s s'.
Proof.
  intros Hs Hnow Hb Hh. destruct (tmr_finish_ok _ _ _ Hs) as (s' & E & H). exists s'. split; [|exact H].
  unfold tmr_round. destruct L as [|a L]; pose proof (sh_list _ _ _ Hs) as C; simpl in C; [by rewrite C, E|].
  destruct C as (-> & t & Ht & _). specialize (Hb a ltac:(set_solver)). specialize (Hh a eq_refl).
  unfold tof in *. rewrite Ht in *. simpl in *. rewrite due_spec by done.
  destruct (Z.ltb_spec now (time t)); [|lia]. by rewrite E.
Qed.

Lemma tmr_round_fire s a L P now t fct :
  shape s (a :: L) P -> 0 <= now < 2 ^ 63 -> timers s !! a = Some t -> tcbf t = Some fct -> 0 <= time t <= now ->
  exists s', tmr_round now s = Some (s', MTry a fct (user t)) /\ shape s' L P /\
    data (timers s') = alter (set_tcbf None) a (data (timers s)) /\
    tmr_callback_active s' = ⟦tmr_callback_active s⟧32 /\ active_timer s' = Some a /\ cur_lockp s' = lockp t.
Proof.
  intros Hs Hnow Ht Hf Hd. unfold tmr_round. pose proof (sh_list _ _ _ Hs) as [-> _]. rewrite Ht. simpl.
  rewrite due_spec by (unfold MAX_TIME_DIFF; lia). destruct (Z.ltb_spec now (time t)); [lia|]. rewrite Hf.
  rewrite (upd_alter _ a _ t) by done. simpl. eexists. split; [done|]. split; [|split; [by apply data_alter|done]].
  by eapply (shape_alter (set_list (next t) s) _ _ _ a (set_tcbf None)); [eapply shape_pop|..].
Qed.
