(* ===== verification/TimerSpec.v ===== *)
(** The abstract timer service that co/timer.c implements: a finite map of
    armed alarms, of which the manager calls those that are due in the order
    of their times, and the lemmas that relate it to the lists of timers. *)

From stdpp Require Import gmap.
From S2P Require Import Prelude Timer TimerProps.
From stdpp Require Import list.

#[local] Open Scope Z_scope.
#[local] Set Warnings "-clear-no-such-hyp".

(** ** The specification *)

Record Alarm := mkAlarm { due : Z; arg : Z; callee : nat }.

(** The manager is not running; it looks for an alarm; it has taken an alarm
    and tries its lock; it is in the call of an alarm. *)
Inductive Phase := SIdle | SLoop | STry (a : nat) (al : Alarm) | SCall (a : nat) (al : Alarm).

(** The alarm that is taken but not yet called. *)
Definition is_taken (p : Phase) (a : nat) : Prop := match p with STry b _ => b = a | _ => False end.

(** The armed alarms; those that are set apart until the manager is done
    because their lock was busy; where the manager is. *)
Record Sched := mkSched { armed : gmap nat Alarm; waiting : gset nat; phase : Phase }.

Definition sched_empty : Sched := mkSched ∅ ∅ SIdle.

Definition runnable (σ : Sched) (a : nat) (al : Alarm) : Prop := armed σ !! a = Some al /\ (a ∉ waiting σ).

Inductive sched_step : TmrEvent -> Z -> Sched -> Sched -> Prop :=
| ss_manage now A W : sched_step EManage now (mkSched A W SIdle) (mkSched A W SLoop)
| ss_nested now A W a al : sched_step EManage now (mkSched A W (SCall a al)) (mkSched A W (SCall a al))
| ss_fire now σ a al :
    phase σ = SLoop -> runnable σ a al -> due al <= now ->
    (forall b bl, runnable σ b bl -> due al <= due bl) ->
    sched_step ERound now σ (mkSched (delete a (armed σ)) (waiting σ) (STry a al))
| ss_done now σ :
    phase σ = SLoop -> (forall b bl, runnable σ b bl -> now < due bl) ->
    sched_step ERound now σ (mkSched (armed σ) ∅ SIdle)
| ss_busy now A W a al :
    sched_step (ETry false) now (mkSched A W (STry a al)) (mkSched (<[a := al]> A) (W ∪ {[a]}) SLoop)
| ss_call free now A W a al : sched_step (ETry free) now (mkSched A W (STry a al)) (mkSched A W (SCall a al))
| ss_return now A W a al : sched_step EReturn now (mkSched A W (SCall a al)) (mkSched A W SLoop)
| ss_start now σ a ticks usr fct lp :
    ~ is_taken (phase σ) a ->
    sched_step (EOp (TStart a ticks usr fct lp)) now σ
      (mkSched (<[a := mkAlarm (now + ticks) usr fct]> (armed σ)) (waiting σ ∖ {[a]}) (phase σ))
| ss_stop now σ a :
    ~ is_taken (phase σ) a ->
    sched_step (EOp (TStop a)) now σ (mkSched (delete a (armed σ)) (waiting σ ∖ {[a]}) (phase σ))
| ss_stop_taken now A W a al :
    sched_step (EOp (TStop a)) now (mkSched A W (STry a al)) (mkSched (delete a A) (W ∖ {[a]}) SLoop)
| ss_init now σ a t : sched_step (EOp (TInit a t)) now σ σ
| ss_enable now σ a lp : sched_step (EOp (TEnable a lp)) now σ σ
| ss_disable now σ a : sched_step (EOp (TDisable a)) now σ σ.

(** ** Use of the timers

    Only one thread manages the timers; the clock does not run backwards and
    is read together with [tmr_lock]; a timer is initialised once and before
    its use, is neither restarted nor stopped between the moment it elapses
    and the attempt to take its lock, and has a delay of less than
    [MAX_TIME_DIFF] ticks.  A stop in that window takes the alarm back in the
    specification ([ss_stop_taken]); the code does not do that
    ([TimerTheorems.tmr_stop_lost]), so it is not permitted. *)

Definition taken (m : Manager) (a : nat) : bool := match m with MTry b _ _ => (a =? b)%nat | _ => false end.

Definition op_permitted (op : TmrOp) (s : Timers) (m : Manager) : bool :=
  match op with
  | TInit a _ => bool_decide (timers s !! a = None)
  | TStart a ticks _ _ _ =>
      bool_decide (is_Some (timers s !! a)) && (0 <=? ticks) && (ticks <? MAX_TIME_DIFF) && negb (taken m a)
  | TStop a => bool_decide (is_Some (timers s !! a)) && negb (taken m a)
  | TEnable a _ | TDisable (Some a) => bool_decide (is_Some (timers s !! a))
  | TDisable None => true
  end.

Definition permitted (e : TmrEvent) (c now : Z) (s : Timers) (m : Manager) : bool :=
  (c <=? now) && (now <? 2 ^ 63) &&
  match e, m with
  | EManage, (MIdle | MCall _ _ _) => true
  | ERound, MLoop | ETry _, MTry _ _ _ | EReturn, MCall _ _ _ => true
  | EOp op, (MIdle | MTry _ _ _ | MCall _ _ _) => op_permitted op s m
  | _, _ => false
  end.

(** A run along events at their times, when each is permitted. *)
Fixpoint tmr_run (evs : list (TmrEvent * Z)) (c : Z) (sm : Timers * Manager) : option (Timers * Manager * Z) :=
  match evs with
  | [] => Some (sm, c)
  | (e, now) :: evs => sm' ← tmr_event e now sm; tmr_run evs now sm'
  end.

Fixpoint run_permitted (evs : list (TmrEvent * Z)) (c : Z) (sm : Timers * Manager) : bool :=
  match evs with
  | [] => true
  | (e, now) :: evs =>
      permitted e c now (fst sm) (snd sm) &&
      match tmr_event e now sm with Some sm' => run_permitted evs now sm' | None => true end
  end.

Inductive sched_run : list (TmrEvent * Z) -> Sched -> Sched -> Prop :=
| sr_nil σ : sched_run [] σ σ
| sr_cons e now evs σ1 σ2 σ3 : sched_step e now σ1 σ2 -> sched_run evs σ2 σ3 -> sched_run ((e, now) :: evs) σ1 σ3.

(** ** Ordered lists *)

Fixpoint ordered (f : nat -> Z) (L : list nat) : Prop :=
  match L with
  | [] => True
  | a :: L => (forall b, b ∈ L -> f a <= f b) /\ ordered f L
  end.

Lemma ordered_app f L1 L2 :
  ordered f (L1 ++ L2) <-> ordered f L1 /\ ordered f L2 /\ forall a b, a ∈ L1 -> b ∈ L2 -> f a <= f b.
Proof.
  induction L1 as [|x L1 IH]; simpl.
  - split; [intros H; split_and!; [done..|]; by intros a b ?%elem_of_nil|naive_solver].
  - rewrite IH. setoid_rewrite elem_of_app. setoid_rewrite elem_of_cons. naive_solver.
Qed.

Lemma ordered_ext f g L : (forall a, a ∈ L -> f a = g a) -> ordered f L -> ordered g L.
Proof.
  induction L as [|x L IH]; [done|]. intros H [H1 H2]. split; [|apply IH; [set_solver|done]].
  intros b Hb. rewrite <- !H by set_solver. auto.
Qed.

Lemma ordered_drop f a L : ordered f L -> ordered f (drop_timer a L).
Proof.
  unfold drop_timer. induction L as [|x L IH]; [done|]. intros [H1 H2]. rewrite filter_cons.
  case_decide; [|by apply IH]. split; [|by apply IH]. intros b [_ Hb]%list_elem_of_filter. auto.
Qed.

Lemma ins_in f tm a L b : b ∈ ins f tm a L <-> (b = a) \/ (b ∈ L).
Proof. induction L as [|x L IH]; simpl; [set_solver|]. destruct (f x <? tm); set_solver. Qed.

Lemma ordered_ins f g tm a L :
  ordered f L -> a ∉ L -> g a = tm -> (forall b, b ≠ a -> g b = f b) -> ordered g (ins f tm a L).
Proof.
  intros H Ha Hg Hfg. induction L as [|x L IH]; simpl; [by split; [set_solver|]|].
  destruct H as [H1 H2]. assert (x ≠ a) by set_solver. destruct (Z.ltb_spec (f x) tm) as [Hx|Hx].
  - split; [|apply IH; [done|set_solver]]. intros b [->|Hb]%ins_in; [rewrite Hfg, Hg by done; lia|].
    rewrite !Hfg by set_solver. auto.
  - split; [|apply (ordered_ext f); [|done]].
    + intros b [->|Hb]%elem_of_cons; rewrite Hg, Hfg by set_solver; [lia|]. specialize (H1 b Hb). lia.
    + intros b Hb. symmetry. apply Hfg. set_solver.
Qed.

(** ** The relation *)

Definition alarm_of (t : Timer_t) : option Alarm := f ← tcbf t; Some (mkAlarm (time t) (user t) f).

Definition tries (m : Manager) : list nat := match m with MTry a _ _ => [a] | _ => [] end.

Definition phase_rel (D : gmap nat Timer_t) (active : Z) (at_ : option nat) (m : Manager) (p : Phase) : Prop :=
  match m with
  | MIdle => p = SIdle /\ active = 0
  | MLoop => p = SLoop /\ active = 0
  | MTry a f u =>
      active = 0 /\ at_ ≠ None /\ exists t, D !! a = Some t /\ tcbf t = None /\ p = STry a (mkAlarm (time t) u f) /\ user t = u
  | MCall a f u => (exists d, p = SCall a (mkAlarm d u f)) /\ active = 1
  end.

(** The timers with data [D] on the lists [L] and [P] at clock [c]. *)
Record timing (c : Z) (D : gmap nat Timer_t) (m : Manager) (σ : Sched) (L P : list nat) : Prop := {
  tm_armed : armed σ = omap alarm_of D;
  tm_in : forall a, a ∈ P ++ L <-> is_Some (armed σ !! a);
  tm_wait : waiting σ = list_to_set P;
  tm_order : ordered (tof D) (P ++ tries m ++ L);
  tm_range : forall a, a ∈ P ++ tries m ++ L -> 0 <= tof D a < c + MAX_TIME_DIFF;
  tm_past : forall a, a ∈ P ++ tries m -> tof D a <= c;
  tm_clock : 0 <= c
}.

Definition tmr_rel (c : Z) (s : Timers) (m : Manager) (σ : Sched) : Prop :=
  exists L P, shape s L P /\ timing c (data (timers s)) m σ L P /\
    phase_rel (data (timers s)) (tmr_callback_active s) (active_timer s) m (phase σ).

Lemma alarm_of_some t : is_Some (alarm_of t) <-> tcbf t ≠ None.
Proof. unfold alarm_of. destruct (tcbf t); simpl; split; try done; by intros [? ?]. Qed.

Lemma omap_disarm (D : gmap nat Timer_t) a : omap alarm_of (alter (set_tcbf None) a D) = delete a (omap alarm_of D).
Proof.
  apply map_eq; intros b. rewrite lookup_omap, lookup_alter, lookup_delete, lookup_omap.
  case_decide; [|done]. by destruct (D !! _).
Qed.

Lemma omap_rearm (D : gmap nat Timer_t) a f t : D !! a = Some t ->
  omap alarm_of (alter (set_tcbf (Some f)) a D) = <[a := mkAlarm (time t) (user t) f]> (omap alarm_of D).
Proof.
  intros Ht. apply map_eq; intros b. rewrite lookup_omap, lookup_alter, lookup_insert, lookup_omap.
  case_decide; [|done]. subst. by rewrite Ht.
Qed.

(** Changes that the specification does not see. *)
Lemma omap_same (D D' : gmap nat Timer_t) : (forall a, (D' !! a ≫= alarm_of) = (D !! a ≫= alarm_of)) -> omap alarm_of D' = omap alarm_of D.
Proof. intros H. apply map_eq; intros a. rewrite !lookup_omap. apply H. Qed.

Section Timing.
  Context (c : Z) (D : gmap nat Timer_t) (m : Manager) (σ : Sched) (L P : list nat) (Ht : timing c D m σ L P).

Lemma timing_tcbf a t : D !! a = Some t -> (tcbf t ≠ None <-> a ∈ P ++ L).
Proof.
  intros Ha. rewrite (tm_in _ _ _ _ _ _ Ht), (tm_armed _ _ _ _ _ _ Ht), lookup_omap, Ha. simpl.
  symmetry. apply alarm_of_some.
Qed.

Lemma timing_later now : c <= now -> timing now D m σ L P.
Proof.
  intros Hc. destruct Ht as [A1 A2 A3 A4 A5 A6 A7]. split; auto; [|intros a Ha; specialize (A6 a Ha); lia|lia].
  intros a Ha. specialize (A5 a Ha). lia.
Qed.

Lemma timing_stop a :
  timing c (alter (set_tcbf None) a D) m (mkSched (delete a (armed σ)) (waiting σ ∖ {[a]}) (phase σ))
    (drop_timer a L) (drop_timer a P).
Proof.
  destruct Ht as [A1 A2 A3 A4 A5 A6 A7].
  assert (Hin : forall b, b ∈ drop_timer a P ++ tries m ++ drop_timer a L -> b ∈ P ++ tries m ++ L).
  { intros b. rewrite !elem_of_app, !drop_timer_in. naive_solver. }
  split; simpl.
  - by rewrite omap_disarm, A1.
  - intros b. rewrite elem_of_app, !drop_timer_in, lookup_delete. case_decide; [subst|].
    + split; [naive_solver|]. by intros [? ?].
    + rewrite <- A2, elem_of_app. naive_solver.
  - rewrite A3. apply set_eq; intros b. rewrite elem_of_difference, !elem_of_list_to_set, elem_of_singleton, drop_timer_in.
    naive_solver.
  - apply (ordered_ext (tof D)); [intros b _; by rewrite tof_alter|].
    apply ordered_app in A4 as (O1 & (O2 & O3 & O4)%ordered_app & O5).
    apply ordered_app. split; [by apply ordered_drop|]. split.
    + apply ordered_app. split; [done|]. split; [by apply ordered_drop|]. intros x y Hx [_ Hy]%drop_timer_in. auto.
    + intros x y [_ Hx]%drop_timer_in Hy. apply O5; [done|].
      apply elem_of_app in Hy as [Hy|[_ Hy]%drop_timer_in]; apply elem_of_app; auto.
  - intros b Hb. rewrite tof_alter by done. auto.
  - intros b Hb. rewrite tof_alter by done. apply A6. rewrite !elem_of_app, drop_timer_in in *. naive_solver.
  - done.
Qed.

Lemma timing_start a ticks usr fct lp :
  0 <= ticks < MAX_TIME_DIFF -> a ∉ tries m ->
  timing c (<[a := mkTimer None (c + ticks) usr (Some fct) lp]> D) m
    (mkSched (<[a := mkAlarm (c + ticks) usr fct]> (armed σ)) (waiting σ ∖ {[a]}) (phase σ))
    (ins (tof D) (c + ticks) a (drop_timer a L)) (drop_timer a P).
Proof.
  intros Htk Hm. set (D' := <[a := _]> D).
  pose proof (timing_stop a) as [B1 B2 B3 B4 B5 B6 B7]. simpl in *.
  assert (Hf : forall b, b ≠ a -> tof D' b = tof (alter (set_tcbf None) a D) b).
  { intros b Hb. unfold D'. by rewrite tof_insert, decide_False, tof_alter. }
  assert (Ha : tof D' a = c + ticks) by (unfold D'; by rewrite tof_insert, decide_True).
  assert (Hne : forall b, b ∈ drop_timer a P ++ tries m ++ drop_timer a L -> b ≠ a).
  { intros b Hb ->. rewrite !elem_of_app, !drop_timer_in in Hb. naive_solver. }
  split; simpl.
  - unfold D'. rewrite (omap_insert_Some alarm_of D a _ (mkAlarm (c + ticks) usr fct)) by done.
    f_equal. apply Ht.
  - intros b. rewrite elem_of_app, ins_in, lookup_insert. case_decide; [subst; naive_solver|].
    specialize (B2 b). rewrite elem_of_app, lookup_delete_ne in B2 by done. naive_solver.
  - done.
  - apply ordered_app in B4 as (O1 & (O2 & O3 & O4)%ordered_app & O5).
    apply ordered_app. split; [|split].
    + eapply ordered_ext; [|exact O1]. intros b Hb. symmetry. apply Hf, Hne. apply elem_of_app. by left.
    + apply ordered_app. split; [|split].
      * eapply ordered_ext; [|exact O2]. intros b Hb. symmetry. apply Hf, Hne. rewrite !elem_of_app. auto.
      * apply ordered_ins; [|rewrite drop_timer_in; naive_solver|done|].
        -- eapply ordered_ext; [|exact O3]. intros b _. by rewrite tof_alter.
        -- intros b Hb. by rewrite Hf, tof_alter.
      * intros x y Hx [->|Hy]%ins_in; rewrite (Hf x) by (apply Hne; rewrite !elem_of_app; auto).
        -- rewrite Ha. pose proof (B6 x ltac:(rewrite elem_of_app; auto)). lia.
        -- rewrite (Hf y) by (apply Hne; rewrite !elem_of_app; auto). auto.
    + intros x y Hx Hy. rewrite (Hf x) by (apply Hne; rewrite !elem_of_app; auto).
      destruct (decide (y = a)) as [->|Hya].
      * rewrite Ha. pose proof (B6 x ltac:(rewrite elem_of_app; auto)). lia.
      * rewrite (Hf y) by done. apply O5; [done|]. rewrite elem_of_app, ins_in in *. naive_solver.
  - intros b Hb. destruct (decide (b = a)) as [->|Hba]; [rewrite Ha; unfold MAX_TIME_DIFF in *; lia|].
    rewrite Hf by done. apply B5. rewrite !elem_of_app, ins_in in *. naive_solver.
  - intros b Hb. rewrite Hf; [auto|]. apply Hne. rewrite !elem_of_app in *. naive_solver.
  - done.
Qed.

(** The manager moves on; a timer that it has taken is forgotten. *)
Lemma timing_move m' p : tries m' = [] -> timing c D m' (mkSched (armed σ) (waiting σ) p) L P.
Proof.
  intros Hm'. destruct Ht as [A1 A2 A3 A4 A5 A6 A7]. split; simpl; rewrite ?Hm'; simpl; try done.
  - apply ordered_app in A4 as (O1 & (O2 & O3 & O4)%ordered_app & O5). apply ordered_app. split; [done|]. split; [done|].
    intros x y Hx Hy. apply O5; [done|]. apply elem_of_app. by right.
  - intros a Ha. apply A5. rewrite !elem_of_app in *. destruct Ha as [?|?]; auto.
  - intros a Ha. apply A6. rewrite app_nil_r in Ha. apply elem_of_app. auto.
Qed.

Lemma timing_runnable a al : NoDup (P ++ L) -> runnable σ a al -> a ∈ L /\ tof D a = due al.
Proof.
  intros Hn [Ha Hw]. rewrite (tm_wait _ _ _ _ _ _ Ht), elem_of_list_to_set in Hw.
  assert (Hin : a ∈ P ++ L) by (apply (tm_in _ _ _ _ _ _ Ht); by eexists).
  apply elem_of_app in Hin as [Hin|Hin]; [done|]. split; [done|].
  rewrite (tm_armed _ _ _ _ _ _ Ht), lookup_omap in Ha. unfold tof. destruct (D !! a) as [t|]; [|done]. simpl in *.
  unfold alarm_of in Ha. destruct (tcbf t); [|done]. by injection Ha as <-.
Qed.

(** Every timer of the list is an alarm that can run. *)
Lemma timing_list a : NoDup (P ++ L) -> a ∈ L ->
  exists t f, D !! a = Some t /\ tcbf t = Some f /\ runnable σ a (mkAlarm (time t) (user t) f).
Proof.
  intros (_ & Hn & _)%NoDup_app Ha.
  assert (is_Some (armed σ !! a)) as [al Hal] by (apply (tm_in _ _ _ _ _ _ Ht); apply elem_of_app; by right).
  pose proof Hal as Hal'. rewrite (tm_armed _ _ _ _ _ _ Ht), lookup_omap in Hal'.
  destruct (D !! a) as [t|] eqn:E; [|done]. simpl in Hal'. unfold alarm_of in Hal'.
  destruct (tcbf t) as [f|] eqn:Ef; [|done]. simpl in Hal'. injection Hal' as <-.
  exists t, f. split_and!; [done..|]. split; [done|].
  rewrite (tm_wait _ _ _ _ _ _ Ht), elem_of_list_to_set. intros HP. by apply (Hn a).
Qed.

Lemma timing_done : tries m = [] ->
  timing c D MIdle (mkSched (armed σ) ∅ SIdle) (P ++ L) [].
Proof.
  intros Hm. destruct Ht as [A1 A2 A3 A4 A5 A6 A7]. rewrite Hm in *.
  split; simpl; auto. by intros a ?%elem_of_nil.
Qed.
End Timing.

Lemma timing_fire c D σ a L P t f p :
  timing c D MLoop σ (a :: L) P -> NoDup (P ++ a :: L) -> D !! a = Some t -> tcbf t = Some f -> time t <= c ->
  timing c (alter (set_tcbf None) a D) (MTry a f (user t)) (mkSched (delete a (armed σ)) (waiting σ) p) L P.
Proof.
  intros [A1 A2 A3 A4 A5 A6 A7] (N1 & N2 & [N3 N4]%NoDup_cons)%NoDup_app Ha Hf Hc. simpl in *.
  assert (Hta : tof D a = time t) by (unfold tof; by rewrite Ha).
  split; simpl; auto.
  - by rewrite omap_disarm, A1.
  - intros b. rewrite lookup_delete. case_decide as E; [subst b|].
    + split; [|by intros [? ?]]. intros [Hb|Hb]%elem_of_app; [|done]. exfalso. apply (N2 a Hb). apply elem_of_cons; auto.
    + rewrite <- A2, !elem_of_app, elem_of_cons. naive_solver.
  - eapply ordered_ext; [|exact A4]. intros b _. by rewrite tof_alter.
  - intros b Hb. rewrite tof_alter by done. auto.
  - intros b [Hb| ->%list_elem_of_singleton]%elem_of_app; rewrite tof_alter by done; [|lia].
    apply A6. by rewrite app_nil_r.
Qed.

Lemma timing_busy c D σ a L P t f u :
  timing c D (MTry a f u) σ L P -> D !! a = Some t -> user t = u ->
  timing c (alter (set_tcbf (Some f)) a D) MLoop
    (mkSched (<[a := mkAlarm (time t) u f]> (armed σ)) (waiting σ ∪ {[a]}) SLoop) L (P ++ [a]).
Proof.
  intros [A1 A2 A3 A4 A5 A6 A7] Ha Hu. simpl in *.
  assert (Htof : forall b, tof (alter (set_tcbf (Some f)) a D) b = tof D b) by (intros b; by rewrite tof_alter).
  split; simpl; rewrite <- ?app_assoc; simpl; auto.
  - by rewrite (omap_rearm _ _ _ t), A1, Hu.
  - intros b. rewrite lookup_insert. case_decide as E; [subst b|].
    + split; [by eexists|]. intros _. apply elem_of_app. right. apply elem_of_cons. by left.
    + rewrite <- A2, !elem_of_app, elem_of_cons. naive_solver.
  - rewrite list_to_set_app_L, A3. simpl. by rewrite (right_id_L ∅ (∪)).
  - eapply ordered_ext; [|exact A4]. done.
  - intros b Hb. rewrite Htof. auto.
  - intros b Hb. rewrite Htof. by apply A6.
Qed.

(** ** Simulation *)

Definition sim (e : TmrEvent) (now : Z) (s : Timers) (m : Manager) (σ : Sched) : Prop :=
  exists s' m' σ', tmr_event e now (s, m) = Some (s', m') /\ sched_step e now σ σ' /\ tmr_rel now s' m' σ'.

Lemma phase_rel_keep D D' n at_ m p :
  (forall a t, a ∈ tries m -> D !! a = Some t -> tcbf t = None ->
     exists t', D' !! a = Some t' /\ tcbf t' = None /\ time t' = time t /\ user t' = user t) ->
  phase_rel D n at_ m p -> phase_rel D' n at_ m p.
Proof.
  intros H. destruct m as [| |a f u|]; simpl; try done.
  intros (Hn & Ha & t & Ht & Hf & -> & Hu). split; [done|]. split; [done|].
  destruct (H a t) as (t' & ? & ? & Et & Eu); [set_solver|done..|]. exists t'. rewrite Et, Eu. done.
Qed.

Lemma rel_later c s m σ now : c <= now -> tmr_rel c s m σ -> tmr_rel now s m σ.
Proof.
  intros Hc (L & P & Hs & Ht & Hp). exists L, P. split; [done|]. split; [by eapply timing_later|done].
Qed.

Lemma sim_manage now s m σ : tmr_rel now s m σ -> (m = MIdle \/ exists a f u, m = MCall a f u) -> sim EManage now s m σ.
Proof.
  intros (L & P & Hs & Ht & Hp) Hm. destruct σ as [A W p]. unfold sim. simpl.
  destruct Hm as [->|(a & f & u & ->)]; simpl in Hp;
    [destruct Hp as [-> Hn]|destruct Hp as [[d ->] Hn]]; rewrite Hn; simpl.
  - eexists _, _, _. split; [done|]. split; [constructor|]. exists L, P. split; [done|].
    split; [by eapply (timing_move _ _ MIdle (mkSched A W SIdle))|done].
  - eexists _, _, _. split; [done|]. split; [constructor|]. exists L, P. split; [done|].
    split; [done|]. simpl. eauto.
Qed.

Lemma sim_return now s a f u σ : tmr_rel now s (MCall a f u) σ -> sim EReturn now s (MCall a f u) σ.
Proof.
  intros (L & P & Hs & Ht & Hp). destruct σ as [A W p]. simpl in Hp. destruct Hp as [[d ->] Hn].
  eexists _, _, _. split; [done|]. split; [constructor|]. exists L, P. split; [by destruct Hs|].
  split; [by eapply (timing_move _ _ _ (mkSched A W _))|]. simpl. by rewrite Hn.
Qed.

Lemma sim_try now s a f u σ free :
  tmr_rel now s (MTry a f u) σ -> sim (ETry free) now s (MTry a f u) σ.
Proof.
  intros (L & P & Hs & Ht & Hp). destruct σ as [A W p]. pose proof Hp as (Hn & Hat & t & Hta & Htf & Hph & Hu).
  simpl in Hph. subst p. unfold sim. simpl.
  destruct (bool_decide (cur_lockp s ≠ None) && negb free) eqn:E.
  - assert (free = false) as -> by (destruct free, (bool_decide (cur_lockp s ≠ None)); done).
    destruct (some_data _ _ _ Hta) as (t0 & Ht0 & ->).
    assert (HaL : a ∉ P ++ L).
    { intros Hin. apply (timing_tcbf _ _ _ _ _ _ Ht a _ Hta) in Hin. done. }
    destruct (tmr_busy_ok s L P a t0 f Hs Ht0 HaL Hat) as (s' & -> & Hs' & Hd & Hcb & _). simpl.
    eexists _, _, _. split; [done|]. split; [constructor|]. exists L, (P ++ [a]). split; [done|]. rewrite Hd, Hcb, Hn.
    split; [exact (timing_busy _ _ _ _ _ _ _ _ _ Ht Hta Hu)|done].
  - eexists _, _, _. split; [done|]. split; [constructor|]. exists L, P. split; [by destruct Hs|].
    split; [by eapply (timing_move _ _ _ _ _ _ Ht)|]. simpl. rewrite Hn. eauto.
Qed.

Section Round.
  Context (now : Z) (s : Timers) (σ : Sched) (L P : list nat).
  Context (Hnow : now < 2 ^ 63) (Hs : shape s L P) (Ht : timing now (data (timers s)) MLoop σ L P).
  Context (Hp : phase σ = SLoop) (Hn : tmr_callback_active s = 0).

Lemma round_order a b : head L = Some a -> b ∈ L -> tof (timers s) a <= tof (timers s) b.
Proof.
  intros Ha Hb. destruct L as [|x L']; simplify_eq/=. apply elem_of_cons in Hb as [->|Hb]; [done|].
  pose proof (tm_order _ _ _ _ _ _ Ht) as (_ & [Ho _] & _)%ordered_app. specialize (Ho b Hb). by rewrite !data_tof in Ho.
Qed.

Lemma round_range b : b ∈ L -> 0 <= tof (timers s) b < now + MAX_TIME_DIFF.
Proof. intros Hb. rewrite <- data_tof. apply (tm_range _ _ _ _ _ _ Ht). apply elem_of_app. by right. Qed.

Lemma round_runnable b bl a : head L = Some a -> runnable σ b bl -> tof (timers s) a <= due bl.
Proof.
  intros Ha Hb. destruct (timing_runnable _ _ _ _ _ _ Ht b bl (sh_nodup _ _ _ Hs) Hb) as [HbL <-].
  rewrite data_tof. by apply round_order.
Qed.

Lemma sim_fire a L' : L = a :: L' -> tof (timers s) a <= now -> sim ERound now s MLoop σ.
Proof.
  intros HL Hle. assert (HaL : a ∈ L) by (rewrite HL; apply elem_of_cons; by left).
  destruct (timing_list _ _ _ _ _ _ Ht a (sh_nodup _ _ _ Hs) HaL) as (t & f & Hta & Hf & Hrun).
  destruct (some_data _ _ _ Hta) as (t0 & Ht0 & ->). simpl in *.
  assert (Htof : tof (timers s) a = time t0) by (unfold tof; by rewrite Ht0).
  pose proof (round_range a HaL) as Hra. pose proof (tm_clock _ _ _ _ _ _ Ht) as Hc.
  pose proof round_runnable as Hmin. subst L.
  destruct (tmr_round_fire s a L' P now t0 f Hs) as (s' & E & Hs' & Hd & Hcb & Hact & _); [lia|done..|lia|].
  eexists _, _, _. split; [exact E|]. split.
  - apply (ss_fire _ σ a _ Hp Hrun); simpl; [lia|]. intros b bl Hb. rewrite <- Htof. by eapply Hmin.
  - exists L', P. split; [done|]. rewrite Hd, Hcb, Hact, Hn. split.
    + apply (timing_fire _ _ _ _ _ _ (set_next None t0)); simpl; try done; [apply Hs|lia].
    + simpl. split; [done|]. split; [done|]. exists (set_tcbf None (set_next None t0)). by rewrite lookup_alter_eq, Hta.
Qed.

Lemma sim_done : (forall a, head L = Some a -> now < tof (timers s) a) -> sim ERound now s MLoop σ.
Proof.
  intros Hw. pose proof (tm_clock _ _ _ _ _ _ Ht) as Hc.
  destruct (tmr_round_wait s L P now Hs) as (s' & E & Hs' & Hd & Hm1 & _ & _); [lia|apply round_range|done|].
  eexists _, _, _. split; [exact E|]. split.
  - apply (ss_done _ σ Hp). intros b bl Hb.
    destruct (timing_runnable _ _ _ _ _ _ Ht b bl (sh_nodup _ _ _ Hs) Hb) as [HbL _].
    destruct (head L) as [a|] eqn:Ha; [|destruct L; [by apply elem_of_nil in HbL|done]].
    specialize (Hw a eq_refl). pose proof (round_runnable b bl a Ha Hb). lia.
  - exists (P ++ L), []. split; [done|]. rewrite Hd, Hm1, Hn. split; [by eapply timing_done|done].
Qed.
End Round.

Lemma sim_round now s σ : now < 2 ^ 63 -> tmr_rel now s MLoop σ -> sim ERound now s MLoop σ.
Proof.
  intros Hnow (L & P & Hs & Ht & [Hp Hn]). destruct L as [|a L]; [by eapply sim_done|].
  destruct (Z.lt_ge_cases now (tof (timers s) a)) as [Hlt|Hge]; [|by eapply sim_fire].
  eapply sim_done; [done..|]. by intros ? [= <-].
Qed.

Section Ops.
  Context (now : Z) (s : Timers) (m : Manager) (σ : Sched) (L P : list nat).
  Context (Hs : shape s L P) (Ht : timing now (data (timers s)) m σ L P).
  Context (Hp : phase_rel (data (timers s)) (tmr_callback_active s) (active_timer s) m (phase σ)).

Lemma armed_iff a t : timers s !! a = Some t -> (tcbf t ≠ None <-> a ∈ P ++ L).
Proof. intros Ha. apply (timing_tcbf _ _ _ _ _ _ Ht a (set_next None t)). by apply data_some. Qed.

Lemma phase_taken a : is_taken (phase σ) a <-> a ∈ tries m.
Proof.
  destruct m as [| |b f u|b f u]; simpl in Hp |- *; rewrite ?list_elem_of_singleton, ?elem_of_nil.
  1,2: by destruct Hp as [-> _].
  - destruct Hp as (_ & _ & t & _ & _ & -> & _). simpl. naive_solver.
  - by destruct Hp as [[d ->] _].
Qed.

Lemma taken_tries a : taken m a = false -> a ∉ tries m.
Proof.
  destruct m; simpl; try (by intros _ ?%elem_of_nil). intros H ->%list_elem_of_singleton. by rewrite Nat.eqb_refl in H.
Qed.

Lemma sim_stop a : is_Some (timers s !! a) -> a ∉ tries m -> sim (EOp (TStop a)) now s m σ.
Proof.
  intros [t Ha] Htr. destruct (tmr_stop_ok s L P a t Hs Ha (armed_iff a t Ha)) as (s' & E & Hs' & Hd & Hcb & Hact & _).
  eexists s', m, _. unfold sim. simpl. rewrite E. split; [done|]. split; [constructor; by rewrite phase_taken|].
  exists (drop_timer a L), (drop_timer a P). split; [done|]. rewrite Hd, Hcb, Hact. split; [by apply timing_stop|].
  eapply phase_rel_keep; [|exact Hp]. intros b u _ Hb Hf. rewrite lookup_alter. case_decide; [|by eauto].
  subst b. rewrite Hb. by eexists.
Qed.

Lemma sim_start a ticks usr fct lp :
  now < 2 ^ 63 -> is_Some (timers s !! a) -> 0 <= ticks < MAX_TIME_DIFF -> a ∉ tries m ->
  sim (EOp (TStart a ticks usr fct lp)) now s m σ.
Proof.
  intros Hnow [t Ha] Htk Htr. pose proof (tm_clock _ _ _ _ _ _ Ht) as Hc.
  destruct (tmr_start_ok s L P a t ticks usr fct lp now Hs Ha (armed_iff a t Ha)) as (s' & E & Hs' & Hd & Hcb & Hact & _);
    [lia|done| |].
  { intros b Hb. rewrite <- data_tof. apply (tm_range _ _ _ _ _ _ Ht). rewrite !elem_of_app. auto. }
  eexists s', m, _. simpl. rewrite E. split; [done|]. split; [constructor; by rewrite phase_taken|].
  rewrite (ins_ext _ (tof (data (timers s)))) in Hs' by (intros b; by rewrite data_tof).
  eexists _, _. split; [exact Hs'|]. rewrite Hd, Hcb, Hact. split; [by apply timing_start|].
  eapply phase_rel_keep; [|exact Hp]. intros b u Hb Hu Hf. rewrite lookup_insert_ne by (by intros ->). eauto.
Qed.

(** A change of data that no one looks at. *)
Lemma sim_quiet s' : shape s' L P ->
  (forall b, (data (timers s') !! b ≫= alarm_of) = (data (timers s) !! b ≫= alarm_of)) ->
  (forall b t, data (timers s) !! b = Some t ->
     exists t', data (timers s') !! b = Some t' /\ time t' = time t /\ user t' = user t /\ tcbf t' = tcbf t) ->
  tmr_callback_active s' = tmr_callback_active s -> active_timer s' = active_timer s ->
  tmr_rel now s' m σ.
Proof.
  intros Hs' HD HE Hcb Hact. exists L, P. split; [done|]. rewrite Hcb, Hact. destruct Ht as [A1 A2 A3 A4 A5 A6 A7]. split.
  - assert (Hf : forall b, b ∈ P ++ tries m ++ L -> tof (data (timers s')) b = tof (data (timers s)) b).
    { intros b Hb. assert (is_Some (data (timers s) !! b)) as [t Hb'].
      { rewrite !elem_of_app in Hb. destruct Hb as [Hb|[Hb|Hb]].
        - rewrite data_lookup. apply fmap_is_Some. by apply (chain_dom _ _ _ (sh_pend _ _ _ Hs)).
        - destruct m; simpl in Hb; try by apply elem_of_nil in Hb. apply list_elem_of_singleton in Hb as ->.
          destruct Hp as (_ & _ & t' & ? & _). by eexists.
        - rewrite data_lookup. apply fmap_is_Some. by apply (chain_dom _ _ _ (sh_list _ _ _ Hs)). }
      destruct (HE b t Hb') as (t' & Ht' & Htm & _). unfold tof. by rewrite Hb', Ht'. }
    split; auto.
    + by rewrite (omap_same (data (timers s))).
    + eapply ordered_ext; [|exact A4]. intros b Hb. symmetry. auto.
    + intros b Hb. rewrite Hf; auto.
    + intros b Hb. rewrite Hf; [auto|]. rewrite !elem_of_app in *. naive_solver.
  - eapply phase_rel_keep; [|exact Hp]. intros b t _ Hb Hf. destruct (HE b t Hb) as (t' & ? & ? & ? & E). rewrite Hf in E. eauto.
Qed.

Lemma sim_init a t : timers s !! a = None -> tmr_rel now (tmr_init a t s) m σ.
Proof.
  intros Ha. assert (Hin : a ∉ P ++ L).
  { intros [H|H]%elem_of_app; [destruct (chain_dom _ _ _ (sh_pend _ _ _ Hs) a H) as [? E]|
      destruct (chain_dom _ _ _ (sh_list _ _ _ Hs) a H) as [? E]]; congruence. }
  apply not_elem_of_app in Hin as [HP HL].
  apply sim_quiet; try done; simpl.
  - destruct Hs as [C1 C2 C3 C4]. split; simpl; [by apply chain_frame|by apply chain_frame|done|done].
  - intros b. rewrite data_insert, lookup_insert. case_decide; [subst; by rewrite data_lookup, Ha|done].
  - intros b u Hb. rewrite data_insert, lookup_insert. case_decide; [subst; by rewrite data_lookup, Ha in Hb|eauto].
Qed.

Lemma sim_lockp a lp s' : timers s' = alter (set_lockp lp) a (timers s) ->
  tmr_list s' = tmr_list s -> phead s' = phead s -> ptail s' = ptail s ->
  tmr_callback_active s' = tmr_callback_active s -> active_timer s' = active_timer s -> tmr_rel now s' m σ.
Proof.
  intros E ? ? ? ? ?. apply sim_quiet; try done; rewrite ?E.
  - by eapply (shape_alter s _ _ _ a (set_lockp lp)).
  - intros b. rewrite data_alter, lookup_alter by done. case_decide; [subst|done]. by destruct (data (timers s) !! _).
  - intros b u Hb. rewrite data_alter, lookup_alter by done. case_decide; [subst; rewrite Hb; by eexists|eauto].
Qed.

Lemma sim_op op : now < 2 ^ 63 -> m ≠ MLoop -> op_permitted op s m = true -> sim (EOp op) now s m σ.
Proof.
  intros Hnow Hm H. destruct op as [a t|a ticks usr fct lp|a|a lp|[a|]]; simpl in H.
  - apply bool_decide_eq_true in H. eexists _, m, σ. split; [done|]. split; [constructor|]. by apply sim_init.
  - rewrite !andb_true_iff, bool_decide_eq_true, Z.leb_le, Z.ltb_lt in H. destruct H as [[[H1 H2] H3] H4].
    apply negb_true_iff in H4. apply sim_start; [done..|]. by apply taken_tries.
  - rewrite andb_true_iff, bool_decide_eq_true, negb_true_iff in H. destruct H. apply sim_stop; [done|by apply taken_tries].
  - apply bool_decide_eq_true in H as [t Ha]. unfold sim. simpl. rewrite Ha. simpl. destruct (tcbf t) eqn:E.
    + rewrite (upd_alter _ _ _ _ Ha). eexists _, m, σ. split; [done|]. split; [constructor|]. by eapply (sim_lockp a lp).
    + eexists _, m, σ. split; [done|]. split; [constructor|]. by exists L, P.
  - apply bool_decide_eq_true in H as [t Ha]. unfold sim. simpl. rewrite (upd_alter _ _ _ _ Ha).
    eexists _, m, σ. split; [done|]. split; [constructor|]. by eapply (sim_lockp a None).
  - eexists _, m, σ. split; [done|]. split; [constructor|]. exists L, P. split; [by destruct Hs|done].
Qed.
End Ops.

Lemma tmr_sim c s m σ e now :
  tmr_rel c s m σ -> permitted e c now s m = true -> sim e now s m σ.
Proof.
  unfold permitted. rewrite !andb_true_iff, Z.leb_le, Z.ltb_lt. intros Hr [[Hc Hnow] H].
  apply (rel_later c s m σ now Hc) in Hr.
  destruct e as [| |free| |op].
  - apply sim_manage; [done|]. destruct m; naive_solver.
  - destruct m; try done. by apply sim_round.
  - destruct m; try done. by apply sim_try.
  - destruct m; try done. by apply sim_return.
  - destruct Hr as (L & P & Hs & Ht & Hp). eapply sim_op; [done..|by destruct m|by destruct m].
Qed.

Lemma rel_empty : tmr_rel 0 tmr_empty MIdle sched_empty.
Proof.
  exists [], []. split; [|split].
  - split; simpl; auto. constructor.
  - split; simpl; try done; try (by intros a ?%elem_of_nil). intros a. rewrite lookup_empty.
    split; [by intros ?%elem_of_nil|by intros [? ?]].
  - done.
Qed.

Lemma tmr_run_sim evs : forall c s m σ,
  tmr_rel c s m σ -> run_permitted evs c (s, m) = true ->
  exists s' m' c' σ', tmr_run evs c (s, m) = Some (s', m', c') /\ sched_run evs σ σ' /\ tmr_rel c' s' m' σ'.
Proof.
  induction evs as [|[e now] evs IH]; intros c s m σ Hr Hp.
  - exists s, m, c, σ. split; [done|]. split; [constructor|done].
  - cbn [run_permitted fst snd] in Hp. apply andb_true_iff in Hp as [Hp1 Hp2].
    destruct (tmr_sim c s m σ e now Hr Hp1) as (s1 & m1 & σ1 & E & Hst & Hr1).
    cbn [tmr_run]. rewrite E in Hp2 |- *. cbn [mbind option_bind].
    destruct (IH now s1 m1 σ1 Hr1 Hp2) as (s' & m' & c' & σ' & E' & Hrun & Hr'). rewrite E'.
    exists s', m', c', σ'. split; [done|]. split; [by econstructor|done].
Qed.
