(* ===== verification/TimerTheorems.v ===== *)
(** Theorems on the timers of co/timer.c. *)

From stdpp Require Import gmap.
From S2P Require Import Prelude Timer TimerProps TimerSpec.
From stdpp Require Import list.
From Stdlib Require Import Sorted.

#[local] Open Scope Z_scope.
#[local] Set Warnings "-clear-no-such-hyp".

(** ** Lemmas *)

Lemma data_alarm m a : (data m !! a ≫= alarm_of) = (m !! a ≫= alarm_of).
Proof. rewrite data_lookup. by destruct (m !! a). Qed.

Lemma rel_armed c s m σ a : tmr_rel c s m σ -> armed σ !! a = (timers s !! a ≫= alarm_of).
Proof. intros (L & P & _ & Ht & _). by rewrite (tm_armed _ _ _ _ _ _ Ht), lookup_omap, data_alarm. Qed.

(** Nothing is set apart while the manager is not running. *)
Lemma sched_idle evs σ σ' : sched_run evs σ σ' ->
  (phase σ = SIdle -> waiting σ = ∅) -> phase σ' = SIdle -> waiting σ' = ∅.
Proof.
  induction 1 as [|e now evs σ1 σ2 σ3 Hst _ IH]; [done|]. intros H1. apply IH. clear IH.
  inversion Hst; subst; simpl in *; try done; try congruence; auto;
    intros Hi; rewrite (H1 Hi); set_solver.
Qed.

Definition agrees (m : Manager) (p : Phase) : Prop :=
  match m with
  | MIdle => p = SIdle
  | MLoop => p = SLoop
  | MTry a f u => exists d, p = STry a (mkAlarm d u f)
  | MCall a f u => exists d, p = SCall a (mkAlarm d u f)
  end.

Lemma rel_agrees c s m σ : tmr_rel c s m σ -> agrees m (phase σ).
Proof. intros (L & P & _ & _ & Hp). destruct m; simpl in *; naive_solver. Qed.

(** The lists of a state that implements [σ]. *)
Definition tmr_lists (s : Timers) (σ : Sched) : Prop :=
  exists L P, chain (timers s) (tmr_list s) L /\ chain (timers s) (phead s) P /\ NoDup (P ++ L) /\
    ordered (tof (timers s)) (P ++ L) /\ waiting σ = list_to_set P /\
    forall a, a ∈ P ++ L <-> is_Some (armed σ !! a).

Lemma rel_lists c s m σ : tmr_rel c s m σ -> tmr_lists s σ.
Proof.
  intros (L & P & Hs & Ht & _). destruct Hs as [C1 C2 _ C4], Ht as [_ A2 A3 A4 _ _ _].
  exists L, P. split_and!; [done..| |done|done].
  apply (ordered_ext (tof (data (timers s)))); [intros a _; apply data_tof|].
  apply ordered_app in A4 as (O1 & (O2 & O3 & O4)%ordered_app & O5). apply ordered_app. split; [done|]. split; [done|].
  intros x y Hx Hy. apply O5; [done|]. apply elem_of_app. by right.
Qed.

(** ** Refinement *)

(** C6. For every sequence of events that is permitted (one thread manages
    the timers; the clock does not run backwards and stays below 2^63; a
    timer is initialised once and before its use; it is neither restarted
    nor stopped between the moment the manager takes it as elapsed and the
    attempt to take its lock; delays are less than [MAX_TIME_DIFF]), no
    function of co/timer.c follows a bad pointer or walks a cyclic list, and
    what they do together is a run of the abstract timer service: starting
    and stopping change a finite map of alarms, a round of the manager takes
    an alarm that is due and not later than any other that can run or leaves
    when there is none, and the alarm that is taken is called with its own
    function and argument or, only when its lock was busy, armed again.  The
    state implements the service: the armed timers are those of the map, the
    alarm that the manager tries or calls is that of the service, and the two
    lists are finite, disjoint, ordered by time and hold the armed timers. *)
Theorem timers_refine evs :
  run_permitted evs 0 (tmr_empty, MIdle) = true ->
  exists s m c σ, tmr_run evs 0 (tmr_empty, MIdle) = Some (s, m, c) /\ sched_run evs sched_empty σ /\
    agrees m (phase σ) /\ (forall a, armed σ !! a = (timers s !! a ≫= alarm_of)) /\ tmr_lists s σ.
Proof.
  intros H. destruct (tmr_run_sim evs 0 tmr_empty MIdle sched_empty rel_empty H) as (s & m & c & σ & E & Hr & Hrel).
  exists s, m, c, σ. split; [done|]. split; [done|]. split; [by eapply rel_agrees|].
  split; [intros a; by eapply rel_armed|by eapply rel_lists].
Qed.

(** Two timers, one of them restarted from its own function while the other
    has a busy lock. *)
Definition timer0 : Timer_t := mkTimer None 0 0 None None.

Definition trace : list (TmrEvent * Z) :=
  [(EOp (TInit 1 timer0), 5); (EOp (TInit 2 timer0), 5);
   (EOp (TStart 1 20 7 100 None), 10); (EOp (TStart 2 10 8 200 (Some 50%nat)), 10);
   (EManage, 12); (ERound, 12);
   (EManage, 31); (ERound, 31); (ETry false, 31); (ERound, 31); (ETry true, 31);
   (EOp (TStart 1 20 7 100 None), 32); (EManage, 33); (EReturn, 33); (ERound, 34)].

Lemma timers_refine_witness :
  exists s m c σ, tmr_run trace 0 (tmr_empty, MIdle) = Some (s, m, c) /\ sched_run trace sched_empty σ /\
    agrees m (phase σ) /\ (forall a, armed σ !! a = (timers s !! a ≫= alarm_of)) /\ tmr_lists s σ.
Proof. apply (timers_refine trace). vm_compute. reflexivity. Defined.

Example trace_end :
  (fun '(s, m, c) => (tmr_list s, phead s, next <$> timers s !! 2%nat, next <$> timers s !! 1%nat, m)) <$>
    tmr_run trace 0 (tmr_empty, MIdle) = Some (Some 2%nat, None, Some (Some 1%nat), Some None, MIdle).
Proof. vm_compute. reflexivity. Qed.

(** ** A call of the manager *)

(** [k] timers called, whose locks are free and whose functions leave the
    timers alone. *)
Fixpoint calls (k : nat) (now : Z) : list (TmrEvent * Z) :=
  match k with
  | O => [(ERound, now)]
  | S k => (ERound, now) :: (ETry true, now) :: (EReturn, now) :: calls k now
  end.

Definition later (now : Z) (A : gmap nat Alarm) : gmap nat Alarm := filter (fun '(_, al) => now < due al) A.

(** The alarms that are due. *)
Definition elapsed (now : Z) (A : gmap nat Alarm) : gmap nat Alarm := filter (fun '(_, al) => due al <= now) A.

(** The calls of functions along a run: the timer, its function and the
    argument that the function is given. *)
Fixpoint called (evs : list (TmrEvent * Z)) (sm : Timers * Manager) : list (nat * nat * Z) :=
  match evs with
  | [] => []
  | (e, now) :: evs =>
      match tmr_event e now sm with
      | Some (s, m) => match e, m with ETry _, MCall a f u => [(a, f, u)] | _, _ => [] end ++ called evs (s, m)
      | None => []
      end
  end.

(** What the service calls for an alarm. *)
Definition alarm_call (x : nat * Alarm) : nat * nat * Z := (x.1, callee x.2, arg x.2).

Definition not_later (x y : nat * Alarm) : Prop := due x.2 <= due y.2.

Lemma elapsed_none now (A : gmap nat Alarm) : (forall a al, A !! a = Some al -> now < due al) -> elapsed now A = ∅.
Proof. intros H. apply map_empty_filter_2. intros a al Ha Hd. specialize (H a al Ha). lia. Qed.

Lemma elapsed_perm now (A : gmap nat Alarm) a al l : A !! a = Some al -> due al <= now ->
  l ≡ₚ map_to_list (elapsed now (delete a A)) -> (a, al) :: l ≡ₚ map_to_list (elapsed now A).
Proof.
  intros Ha Hd ->. unfold elapsed.
  rewrite <- (insert_delete_id A a al Ha) at 2. rewrite map_filter_insert_True by done.
  symmetry. apply map_to_list_insert. apply map_lookup_filter_None. left. apply lookup_delete_eq.
Qed.

Lemma later_all now (A : gmap nat Alarm) : (forall a al, A !! a = Some al -> now < due al) -> later now A = A.
Proof. intros H. apply map_filter_id. intros a al Ha. by eapply H. Qed.

Lemma later_delete now (A : gmap nat Alarm) a al : A !! a = Some al -> due al <= now -> later now (delete a A) = later now A.
Proof.
  intros Ha Hd. apply map_eq; intros b. apply option_eq; intros bl. unfold later.
  rewrite !map_lookup_filter_Some, lookup_delete_Some. split; [naive_solver|]. intros [Hb Hlt]. split; [|done].
  split; [|done]. intros ->. simplify_eq. lia.
Qed.

(** One timer: from the head of the loop back to it, or out. *)
Lemma call_one c s σ : 0 <= c < 2 ^ 63 -> tmr_rel c s MLoop σ ->
  (exists s' σ', tmr_event ERound c (s, MLoop) = Some (s', MIdle) /\ tmr_rel c s' MIdle σ' /\
     armed σ' = armed σ /\ forall b bl, runnable σ b bl -> c < due bl) \/
  (exists s1 s2 m1 m2 s' σ' a al, tmr_event ERound c (s, MLoop) = Some (s1, m1) /\
     tmr_event (ETry true) c (s1, m1) = Some (s2, m2) /\ m2 = MCall a (callee al) (arg al) /\
     tmr_event EReturn c (s2, m2) = Some (s', MLoop) /\
     tmr_rel c s' MLoop σ' /\ runnable σ a al /\ due al <= c /\ (forall b bl, runnable σ b bl -> due al <= due bl) /\
     armed σ' = delete a (armed σ) /\ waiting σ' = waiting σ).
Proof.
  intros Hc Hr. assert (Hb : (c <=? c) && (c <? 2 ^ 63) = true) by (apply andb_true_iff; lia).
  destruct (tmr_sim c s MLoop σ ERound c Hr) as (s1 & m1 & σ1 & E1 & Hst & Hr1); [unfold permitted; by rewrite Hb|].
  pose proof (rel_agrees _ _ _ _ Hr1) as Hg.
  inversion Hst as [| |? ? a al Hph Hrun Hd Hmin|? ? Hph Hno| | | | | | | | |]; subst; simpl in Hg.
  2:{ left. destruct m1; simpl in Hg; try done; try by destruct Hg. by exists s1, (mkSched (armed σ) ∅ SIdle). }
  right. destruct m1 as [| |b f u|]; simpl in Hg; try done; try by destruct Hg.
  destruct (tmr_sim c s1 _ _ (ETry true) c Hr1) as (s2 & m2 & σ2 & E2 & Hst2 & Hr2); [unfold permitted; by rewrite Hb|].
  pose proof (rel_agrees _ _ _ _ Hr2) as Hg2. inversion Hst2; subst; simpl in Hg2.
  destruct m2 as [| | |b2 f2 u2]; simpl in Hg2; try done; try by destruct Hg2.
  destruct Hg2 as [d2 Hg2]. injection Hg2 as <- ->.
  destruct (tmr_sim c s2 _ _ EReturn c Hr2) as (s3 & m3 & σ3 & E3 & Hst3 & Hr3); [unfold permitted; by rewrite Hb|].
  pose proof (rel_agrees _ _ _ _ Hr3) as Hg3. inversion Hst3; subst; simpl in Hg3.
  destruct m3; simpl in Hg3; try done; try by destruct Hg3.
  eexists s1, s2, _, _, s3, _, a, (mkAlarm d2 u2 f2). split; [done|]. split; [exact E2|]. split; [done|]. split; [exact E3|].
  split; [exact Hr3|]. done.
Qed.

Lemma call_all c n : 0 <= c < 2 ^ 63 -> forall s σ,
  size (armed σ) = n -> waiting σ = ∅ -> tmr_rel c s MLoop σ ->
  exists l s' σ', tmr_run (calls (length l) c) c (s, MLoop) = Some (s', MIdle, c) /\
    called (calls (length l) c) (s, MLoop) = map alarm_call l /\ l ≡ₚ map_to_list (elapsed c (armed σ)) /\
    StronglySorted not_later l /\ tmr_rel c s' MIdle σ' /\ armed σ' = later c (armed σ).
Proof.
  intros Hc. induction n as [n IH] using lt_wf_ind. intros s σ Hn Hw Hr.
  assert (Hrun : forall b bl, armed σ !! b = Some bl -> runnable σ b bl) by (intros b bl Hb; split; [done|rewrite Hw; set_solver]).
  destruct (call_one c s σ Hc Hr) as [(s' & σ' & E & Hr' & Ha & Hno)|
    (s1 & s2 & m1 & m2 & s3 & σ3 & a & al & E1 & E2 & Em & E3 & Hr3 & [Hal _] & Hd & Hmin & Ha & Hw3)].
  - exists [], s', σ'. cbn [length calls tmr_run called]. rewrite E. split; [done|]. split; [done|].
    rewrite later_all, elapsed_none by eauto. split; [by rewrite map_to_list_empty|]. split; [constructor|done].
  - assert (Hsz : size (armed σ) = S (size (armed σ3))).
    { rewrite Ha, <- (insert_delete_id (armed σ) a al Hal) at 1. apply map_size_insert_None, lookup_delete_eq. }
    destruct (IH (size (armed σ3)) ltac:(lia) s3 σ3 eq_refl ltac:(congruence) Hr3) as (l & s' & σ' & E & Hl & Hp & Hs & Hr' & Ha').
    exists ((a, al) :: l), s', σ'. cbn [length calls tmr_run called]. rewrite E1. cbn [mbind option_bind]. rewrite E2.
    cbn [mbind option_bind]. rewrite E3. cbn [mbind option_bind]. rewrite Hl, Em. split; [done|]. split; [done|].
    rewrite Ha in Hp, Ha'. split; [by apply elapsed_perm|].
    split; [constructor; [done|]|split; [done|]; rewrite Ha'; by eapply later_delete].
    apply Forall_forall. intros [b bl] Hin. rewrite Hp in Hin.
    apply elem_of_map_to_list, map_lookup_filter_Some in Hin as [Hin _]. apply lookup_delete_Some in Hin as [_ Hin].
    by eapply Hmin, Hrun.
Qed.

Lemma rel_omap s m c σ : tmr_rel c s m σ -> armed σ = omap alarm_of (timers s).
Proof. intros H. apply map_eq; intros a. rewrite lookup_omap. by eapply rel_armed. Qed.

(** C34. After any permitted run, a call of [tmr_manage] whose callbacks
    find their locks free and leave the timers alone returns.  The calls it
    makes are exactly those of the alarms that are due, each once, with the
    function and the argument with which the timer was started, in the order
    of their times; the alarms that are not yet due stay armed, and no
    other. *)
Theorem tmr_manage_calls evs s c now :
  run_permitted evs 0 (tmr_empty, MIdle) = true -> tmr_run evs 0 (tmr_empty, MIdle) = Some (s, MIdle, c) ->
  c <= now < 2 ^ 63 ->
  exists l s', tmr_run ((EManage, now) :: calls (length l) now) c (s, MIdle) = Some (s', MIdle, now) /\
    called ((EManage, now) :: calls (length l) now) (s, MIdle) = map alarm_call l /\
    l ≡ₚ map_to_list (elapsed now (omap alarm_of (timers s))) /\ StronglySorted not_later l /\
    omap alarm_of (timers s') = later now (omap alarm_of (timers s)).
Proof.
  intros Hp E Hc. destruct (tmr_run_sim evs 0 tmr_empty MIdle sched_empty rel_empty Hp) as (s0 & m0 & c0 & σ & E0 & Hr & Hrel).
  rewrite E in E0. injection E0 as <- <- <-.
  assert (Hc0 : 0 <= c) by (destruct Hrel as (? & ? & _ & Ht & _); apply Ht).
  pose proof (sched_idle _ _ _ Hr (fun _ => eq_refl) (rel_agrees _ _ _ _ Hrel)) as Hw.
  destruct (tmr_sim c s MIdle σ EManage now Hrel) as (s1 & m1 & σ1 & E1 & Hst & Hr1).
  { unfold permitted. rewrite !andb_true_iff. lia. }
  pose proof (rel_agrees _ _ _ _ Hr1) as Hg. pose proof (rel_agrees _ _ _ _ Hrel) as Hg0. simpl in Hg0.
  inversion Hst; subst; simpl in Hg, Hg0; [|done]. destruct m1; simpl in Hg; try done; try by destruct Hg.
  destruct (call_all now _ ltac:(lia) s1 (mkSched A W SLoop) eq_refl Hw Hr1) as (l & s' & σ' & E' & Hl & Hpm & Hs & Hr' & Ha).
  simpl in Hpm, Ha.
  exists l, s'. rewrite <- (rel_omap _ _ _ _ Hr'), <- (rel_omap _ _ _ _ Hrel).
  split; [cbn [tmr_run]; rewrite E1; exact E'|]. split; [cbn [called]; rewrite E1; exact Hl|done].
Qed.

(** The lock of the second timer of [trace] is free at 34. *)
Definition after_trace : Timers * Manager * Z :=
  Eval vm_compute in match tmr_run trace 0 (tmr_empty, MIdle) with Some x => x | None => (tmr_empty, MIdle, 0) end.

Lemma tmr_manage_calls_witness :
  exists l s', tmr_run ((EManage, 60) :: calls (length l) 60) 34 (fst (fst after_trace), MIdle) = Some (s', MIdle, 60) /\
    called ((EManage, 60) :: calls (length l) 60) (fst (fst after_trace), MIdle) = map alarm_call l /\
    l ≡ₚ map_to_list (elapsed 60 (omap alarm_of (timers (fst (fst after_trace))))) /\ StronglySorted not_later l /\
    omap alarm_of (timers s') = later 60 (omap alarm_of (timers (fst (fst after_trace)))).
Proof. apply (tmr_manage_calls trace); [vm_compute; reflexivity|vm_compute; reflexivity|lia]. Defined.

(** Both timers of [trace] are called, the one that was busy first. *)
Example called_after_trace :
  called ((EManage, 60) :: calls 2 60) (fst (fst after_trace), MIdle) = [(2%nat, 200%nat, 8); (1%nat, 100%nat, 7)].
Proof. vm_compute. reflexivity. Qed.

(** ** A timer stopped while it elapses *)

(** C36. Between the moment the manager takes an elapsed timer off its list
    and the moment it has its lock, [tmr_stop] has no effect: the timer no
    longer counts as active, so [tmr_stop] leaves the state as it is, the
    test for a timer that was just stopped does not see it, and when the lock
    is busy the timer is armed again with the function it had. *)
Theorem tmr_stop_lost evs s c now a f u :
  run_permitted evs 0 (tmr_empty, MIdle) = true -> tmr_run evs 0 (tmr_empty, MIdle) = Some (s, MTry a f u, c) ->
  cur_lockp s ≠ None -> c <= now < 2 ^ 63 ->
  exists s' t, tmr_run [(EOp (TStop a), now); (ETry false, now)] c (s, MTry a f u) = Some (s', MLoop, now) /\
    timers s' !! a = Some t /\ tcbf t = Some f /\ user t = u.
Proof.
  intros Hp E Hl Hc.
  destruct (tmr_run_sim evs 0 tmr_empty MIdle sched_empty rel_empty Hp) as (s0 & m0 & c0 & σ & E0 & _ & Hrel).
  rewrite E in E0. injection E0 as <- <- <-. destruct Hrel as (L & P & Hs & Ht & _ & Hact & t & Hta & Hf & _ & Hu).
  destruct (some_data _ _ _ Hta) as (t0 & Ht0 & ->).
  assert (HaL : a ∉ P ++ L) by (intros Hin; by apply (timing_tcbf _ _ _ _ _ _ Ht a _ Hta) in Hin).
  destruct (tmr_busy_ok s L P a t0 f Hs Ht0 HaL Hact) as (s' & E' & _ & Hd & _).
  destruct (some_data (timers s') a (set_tcbf (Some f) (set_next None t0))) as (t' & Ht' & Heq).
  { by rewrite Hd, lookup_alter_eq, Hta. }
  exists s', t'. cbn [tmr_run tmr_event tmr_op]. rewrite (tmr_stop_idle s a t0 Ht0) by done.
  cbn [mbind option_bind tmr_event].
  rewrite bool_decide_true by done. cbn [andb negb]. rewrite E'. cbn [mbind option_bind].
  split; [done|]. split; [done|]. pose proof (f_equal tcbf Heq). pose proof (f_equal user Heq). simpl in *. split; congruence.
Qed.

Definition window : list (TmrEvent * Z) := take 8 trace.

Definition at_window : Timers :=
  Eval vm_compute in match tmr_run window 0 (tmr_empty, MIdle) with Some (s, _, _) => s | None => tmr_empty end.

Lemma tmr_stop_lost_witness :
  exists s' t, tmr_run [(EOp (TStop 2), 31); (ETry false, 31)] 31 (at_window, MTry 2 200 8) = Some (s', MLoop, 31) /\
    timers s' !! 2%nat = Some t /\ tcbf t = Some 200%nat /\ user t = 8.
Proof. apply (tmr_stop_lost window); [vm_compute; reflexivity|vm_compute; reflexivity|discriminate|lia]. Defined.

(** A timer that is restarted in that window ends up on both lists, and the
    timers behind it are lost: timer 1 is armed but on neither list. *)
Example restart_in_window :
  (fun '(s, _, _) => (tmr_list s, phead s, next <$> timers s !! 2%nat, tcbf <$> timers s !! 1%nat)) <$>
    tmr_run [(EOp (TInit 1 timer0), 5); (EOp (TInit 2 timer0), 5);
             (EOp (TStart 1 50 7 100 None), 10); (EOp (TStart 2 10 8 200 (Some 50%nat)), 10);
             (EManage, 31); (ERound, 31); (EOp (TStart 2 0 8 200 (Some 50%nat)), 31); (ETry false, 31)]
      0 (tmr_empty, MIdle)
  = Some (Some 2%nat, Some 2%nat, Some None, Some (Some 100%nat)).
Proof. vm_compute. reflexivity. Qed.

(** ** Remaining times *)

Lemma remain_spec c now d : 0 <= c <= now -> now < 2 ^ 63 -> 0 <= d < c + MAX_TIME_DIFF ->
  (if MAX_TIME_DIFF <=? sys_ticksdiff now d then 0 else sys_ticksdiff now d) = Z.max 0 (d - now) /\
  (if MAX_TIME_DIFF <? sys_ticksdiff now d then 0 else sys_ticksdiff now d) = Z.max 0 (d - now).
Proof.
  unfold sys_ticksdiff, MAX_TIME_DIFF. intros.
  destruct (Z.leb_spec now d); split;
    repeat match goal with |- context [if ?x <=? ?y then _ else _] => destruct (Z.leb_spec x y)
                      | |- context [if ?x <? ?y then _ else _] => destruct (Z.ltb_spec x y) end; lia.
Qed.

(** While the manager is not running, [tmr_remain] of an armed timer is
    the number of ticks until it elapses, 0 if it already has, and
    [MAX_TIME_DIFF] for one that is not armed; [tmr_pending_ms] is the time
    until the first armed timer elapses in milliseconds, reduced to 32 bits,
    so that a first timer that is more than [429496729] ticks away gives a
    number that is too small, and [MAX_TIME_DIFF] when there is none. *)
Theorem tmr_remaining evs s c now :
  run_permitted evs 0 (tmr_empty, MIdle) = true -> tmr_run evs 0 (tmr_empty, MIdle) = Some (s, MIdle, c) ->
  c <= now < 2 ^ 63 ->
  (forall a t, timers s !! a = Some t ->
     tmr_remain a now s = Some (match tcbf t with Some _ => Z.max 0 (time t - now) | None => MAX_TIME_DIFF end)) /\
  ((forall a t, timers s !! a = Some t -> tcbf t = None) -> tmr_pending_ms now s = Some MAX_TIME_DIFF) /\
  (forall a t f, timers s !! a = Some t -> tcbf t = Some f ->
     (forall b u, timers s !! b = Some u -> tcbf u ≠ None -> time t <= time u) ->
     tmr_pending_ms now s = Some ⟦Z.max 0 (time t - now) * TMR_UNIT_MS⟧32).
Proof.
  intros Hp E Hc.
  destruct (tmr_run_sim evs 0 tmr_empty MIdle sched_empty rel_empty Hp) as (s0 & m0 & c0 & σ & E0 & Hr & Hrel).
  rewrite E in E0. injection E0 as <- <- <-.
  pose proof (sched_idle _ _ _ Hr (fun _ => eq_refl) (rel_agrees _ _ _ _ Hrel)) as Hw.
  destruct Hrel as (L & P & Hs & Ht & _). pose proof (tm_wait _ _ _ _ _ _ Ht) as HwP. rewrite Hw in HwP.
  assert (P = []) as ->.
  { destruct P as [|x P]; [done|]. exfalso. assert (x ∈ (∅ : gset nat)) by (rewrite HwP; set_solver). set_solver. }
  pose proof (tm_clock _ _ _ _ _ _ Ht) as Hc0.
  assert (Hrange : forall a t, timers s !! a = Some t -> a ∈ L -> 0 <= time t < c + MAX_TIME_DIFF).
  { intros a t Ha HaL. pose proof (tm_range _ _ _ _ _ _ Ht a HaL) as H. rewrite data_tof in H. unfold tof in H. by rewrite Ha in H. }
  pose proof (armed_iff c s MIdle σ L [] Ht) as Harm. simpl in Harm.
  split; [|split].
  - intros a t Ha. unfold tmr_remain. rewrite Ha. simpl. destruct (tcbf t) as [f|] eqn:Ef; [|done]. f_equal.
    eapply (remain_spec c now (time t)); [lia..|]. apply (Hrange a t Ha), (Harm a t Ha). by rewrite Ef.
  - intros Hno. unfold tmr_pending_ms. destruct (tmr_list s) as [a|] eqn:El; [exfalso|done].
    pose proof (sh_list _ _ _ Hs) as C. rewrite El in C. destruct L as [|b L]; [done|]. destruct C as ([= <-] & t & Hta & _).
    by apply (Harm a t Hta); [set_solver|eapply Hno].
  - intros a t f Ha Hf Hmin. assert (HaL : a ∈ L) by (apply (Harm a t Ha); by rewrite Hf).
    pose proof (sh_list _ _ _ Hs) as C. destruct L as [|b L]; [by apply elem_of_nil in HaL|].
    destruct C as (El & u & Hub & _). unfold tmr_pending_ms. rewrite El, Hub. simpl.
    assert (Hbu : tcbf u ≠ None) by (apply (Harm b u Hub); set_solver).
    assert (Heq : time u = time t).
    { pose proof (Hmin b u Hub Hbu). pose proof (round_order c s _ (b :: L) [] Hs
        (timing_move _ _ _ _ _ _ Ht MLoop SLoop eq_refl) b a eq_refl HaL) as Ho.
      unfold tof in Ho. rewrite Hub, Ha in Ho. simpl in Ho. lia. }
    rewrite Heq. destruct (remain_spec c now (time t)) as [_ Hd]; [lia..|by eapply Hrange|].
    rewrite <- Hd. f_equal. f_equal. unfold wrap. destruct (MAX_TIME_DIFF <? _) eqn:Eb; [done|].
    apply Z.ltb_ge in Eb. rewrite (Z.mod_small (_ * _)); [done|]. unfold sys_ticksdiff, MAX_TIME_DIFF, TMR_UNIT_MS in *.
    pose proof (Hrange a t Ha HaL). destruct (Z.leb_spec now (time t)); lia.
Qed.

Lemma tmr_remaining_witness :
  tmr_remain 1 45 (fst (fst after_trace)) = Some 7 /\ tmr_pending_ms 45 (fst (fst after_trace)) = Some 0.
Proof.
  destruct (tmr_remaining trace (fst (fst after_trace)) 34 45) as (H1 & _ & H3);
    [vm_compute; reflexivity|vm_compute; reflexivity|lia|].
  split.
  - refine (eq_trans (H1 1%nat (mkTimer None 52 7 (Some 100%nat) None) _) _); [vm_compute; reflexivity|reflexivity].
  - refine (eq_trans (H3 2%nat (mkTimer (Some 1%nat) 20 8 (Some 200%nat) (Some 50%nat)) 200%nat _ _ _) _);
      [vm_compute; reflexivity|reflexivity| |reflexivity].
    assert (Hall : map_Forall (fun _ u => 20 <= time u) (timers (fst (fst after_trace)))).
    { refine (bool_decide_eq_true_1 _ _). vm_compute. reflexivity. }
    intros b u Hb _. exact (Hall b u Hb).
Defined.

(** A first timer 4294967300 ms away is reported as 4 ms away. *)
Example pending_truncated :
  tmr_pending_ms 0 (set_list (Some 1%nat) (set_timers {[1%nat := mkTimer None 429496730 0 (Some 1%nat) None]} tmr_empty)) = Some 4.
Proof. vm_compute. reflexivity. Qed.
