(* ===== verification/Crc32.v ===== *)
(** Checksums (co/crc32.c): the table of feedback terms, the loop over a
    buffer, and the checksum of a name; equivalence with the shift register
    that works bit by bit. *)

From Stdlib Require Import String.
From S2P Require Import Prelude CLib.
From stdpp Require Import list.

#[local] Open Scope Z_scope.

Definition crc32_tab : list Z :=
  [
   0x00000000; 0x77073096; 0xee0e612c; 0x990951ba; 0x076dc419; 0x706af48f; 0xe963a535; 0x9e6495a3;
   0x0edb8832; 0x79dcb8a4; 0xe0d5e91e; 0x97d2d988; 0x09b64c2b; 0x7eb17cbd; 0xe7b82d07; 0x90bf1d91;
   0x1db71064; 0x6ab020f2; 0xf3b97148; 0x84be41de; 0x1adad47d; 0x6ddde4eb; 0xf4d4b551; 0x83d385c7;
   0x136c9856; 0x646ba8c0; 0xfd62f97a; 0x8a65c9ec; 0x14015c4f; 0x63066cd9; 0xfa0f3d63; 0x8d080df5;
   0x3b6e20c8; 0x4c69105e; 0xd56041e4; 0xa2677172; 0x3c03e4d1; 0x4b04d447; 0xd20d85fd; 0xa50ab56b;
   0x35b5a8fa; 0x42b2986c; 0xdbbbc9d6; 0xacbcf940; 0x32d86ce3; 0x45df5c75; 0xdcd60dcf; 0xabd13d59;
   0x26d930ac; 0x51de003a; 0xc8d75180; 0xbfd06116; 0x21b4f4b5; 0x56b3c423; 0xcfba9599; 0xb8bda50f;
   0x2802b89e; 0x5f058808; 0xc60cd9b2; 0xb10be924; 0x2f6f7c87; 0x58684c11; 0xc1611dab; 0xb6662d3d;
   0x76dc4190; 0x01db7106; 0x98d220bc; 0xefd5102a; 0x71b18589; 0x06b6b51f; 0x9fbfe4a5; 0xe8b8d433;
   0x7807c9a2; 0x0f00f934; 0x9609a88e; 0xe10e9818; 0x7f6a0dbb; 0x086d3d2d; 0x91646c97; 0xe6635c01;
   0x6b6b51f4; 0x1c6c6162; 0x856530d8; 0xf262004e; 0x6c0695ed; 0x1b01a57b; 0x8208f4c1; 0xf50fc457;
   0x65b0d9c6; 0x12b7e950; 0x8bbeb8ea; 0xfcb9887c; 0x62dd1ddf; 0x15da2d49; 0x8cd37cf3; 0xfbd44c65;
   0x4db26158; 0x3ab551ce; 0xa3bc0074; 0xd4bb30e2; 0x4adfa541; 0x3dd895d7; 0xa4d1c46d; 0xd3d6f4fb;
   0x4369e96a; 0x346ed9fc; 0xad678846; 0xda60b8d0; 0x44042d73; 0x33031de5; 0xaa0a4c5f; 0xdd0d7cc9;
   0x5005713c; 0x270241aa; 0xbe0b1010; 0xc90c2086; 0x5768b525; 0x206f85b3; 0xb966d409; 0xce61e49f;
   0x5edef90e; 0x29d9c998; 0xb0d09822; 0xc7d7a8b4; 0x59b33d17; 0x2eb40d81; 0xb7bd5c3b; 0xc0ba6cad;
   0xedb88320; 0x9abfb3b6; 0x03b6e20c; 0x74b1d29a; 0xead54739; 0x9dd277af; 0x04db2615; 0x73dc1683;
   0xe3630b12; 0x94643b84; 0x0d6d6a3e; 0x7a6a5aa8; 0xe40ecf0b; 0x9309ff9d; 0x0a00ae27; 0x7d079eb1;
   0xf00f9344; 0x8708a3d2; 0x1e01f268; 0x6906c2fe; 0xf762575d; 0x806567cb; 0x196c3671; 0x6e6b06e7;
   0xfed41b76; 0x89d32be0; 0x10da7a5a; 0x67dd4acc; 0xf9b9df6f; 0x8ebeeff9; 0x17b7be43; 0x60b08ed5;
   0xd6d6a3e8; 0xa1d1937e; 0x38d8c2c4; 0x4fdff252; 0xd1bb67f1; 0xa6bc5767; 0x3fb506dd; 0x48b2364b;
   0xd80d2bda; 0xaf0a1b4c; 0x36034af6; 0x41047a60; 0xdf60efc3; 0xa867df55; 0x316e8eef; 0x4669be79;
   0xcb61b38c; 0xbc66831a; 0x256fd2a0; 0x5268e236; 0xcc0c7795; 0xbb0b4703; 0x220216b9; 0x5505262f;
   0xc5ba3bbe; 0xb2bd0b28; 0x2bb45a92; 0x5cb36a04; 0xc2d7ffa7; 0xb5d0cf31; 0x2cd99e8b; 0x5bdeae1d;
   0x9b64c2b0; 0xec63f226; 0x756aa39c; 0x026d930a; 0x9c0906a9; 0xeb0e363f; 0x72076785; 0x05005713;
   0x95bf4a82; 0xe2b87a14; 0x7bb12bae; 0x0cb61b38; 0x92d28e9b; 0xe5d5be0d; 0x7cdcefb7; 0x0bdbdf21;
   0x86d3d2d4; 0xf1d4e242; 0x68ddb3f8; 0x1fda836e; 0x81be16cd; 0xf6b9265b; 0x6fb077e1; 0x18b74777;
   0x88085ae6; 0xff0f6a70; 0x66063bca; 0x11010b5c; 0x8f659eff; 0xf862ae69; 0x616bffd3; 0x166ccf45;
   0xa00ae278; 0xd70dd2ee; 0x4e048354; 0x3903b3c2; 0xa7672661; 0xd06016f7; 0x4969474d; 0x3e6e77db;
   0xaed16a4a; 0xd9d65adc; 0x40df0b66; 0x37d83bf0; 0xa9bcae53; 0xdebb9ec5; 0x47b2cf7f; 0x30b5ffe9;
   0xbdbdf21c; 0xcabac28a; 0x53b39330; 0x24b4a3a6; 0xbad03605; 0xcdd70693; 0x54de5729; 0x23d967bf;
   0xb3667a2e; 0xc4614ab8; 0x5d681b02; 0x2a6f2b94; 0xb40bbe37; 0xc30c8ea1; 0x5a05df1b; 0x2d02ef8d].

(** The loop of [crc32]; the bytes are those of the memory at [buf]. *)
Fixpoint crc32_loop (crc : Z) (buf : list Z) (size : nat) {struct size} : option Z :=
  match size with
  | O => Some crc
  | S size =>
      match buf with
      | [] => None
      | p :: buf => t ← crc32_tab !! Z.to_nat (Z.land (Z.lxor crc p) 255);
                    crc32_loop (Z.lxor t (Z.shiftr crc 8)) buf size
      end
  end.

Definition crc32 (crc : Z) (buf : list Z) (size : nat) : option Z :=
  crc ← crc32_loop (Z.lxor crc (2 ^ 32 - 1)) buf size; Some (Z.lxor crc (2 ^ 32 - 1)).

(** [crc32_char]: a string ends at its first zero byte. *)
Definition crc32_char (name : list Z) : option Z :=
  s ← cstring name; crc32 0 name (length s).

(** ** The shift register *)

Definition poly : Z := 0xedb88320.

(** The register is shifted towards its low end; the term that falls out is
    fed back through the polynomial. *)
Definition crc_bit (r : Z) : Z := Z.lxor (Z.shiftr r 1) (if Z.testbit r 0 then poly else 0).

Definition crc_byte (r b : Z) : Z := Nat.iter 8 crc_bit (Z.lxor r b).

Definition crc_reg (r : Z) (bytes : list Z) : Z := foldl crc_byte r bytes.

(** ** Equivalence *)

Lemma crc_bit_lxor x y : crc_bit (Z.lxor x y) = Z.lxor (crc_bit x) (crc_bit y).
Proof.
  unfold crc_bit. rewrite Z.lxor_spec, Z.shiftr_lxor. generalize (Z.shiftr x 1), (Z.shiftr y 1). intros a b.
  apply Z.bits_inj'. intros n Hn. rewrite !Z.lxor_spec.
  destruct (Z.testbit x 0), (Z.testbit y 0), (Z.testbit a n), (Z.testbit b n), (Z.testbit poly n) eqn:E;
    simpl xorb; rewrite ?Z.bits_0, ?E; reflexivity.
Qed.

Lemma crc_bits_lxor n x y : Nat.iter n crc_bit (Z.lxor x y) = Z.lxor (Nat.iter n crc_bit x) (Nat.iter n crc_bit y).
Proof. induction n as [|n IH]; simpl; [done|]. by rewrite IH, crc_bit_lxor. Qed.

(** Zeros at the low end are shifted out without feedback. *)
Lemma crc_bit_shiftl y n : 0 <= n -> crc_bit (Z.shiftl y (n + 1)) = Z.shiftl y n.
Proof.
  intros Hn. unfold crc_bit. rewrite Z.shiftl_spec_low by lia. rewrite Z.lxor_0_r, Z.shiftr_shiftl_l by lia. f_equal. lia.
Qed.

Lemma crc_bits_shiftl n y : Nat.iter n crc_bit (Z.shiftl y (Z.of_nat n)) = y.
Proof.
  induction n as [|n IH]; [apply Z.shiftl_0_r|]. rewrite Nat.iter_succ_r.
  replace (Z.of_nat (S n)) with (Z.of_nat n + 1) by lia. by rewrite crc_bit_shiftl, IH by lia.
Qed.

Lemma split_byte x : x = Z.lxor (Z.land x 255) (Z.shiftl (Z.shiftr x 8) 8).
Proof.
  apply Z.bits_inj'. intros n Hn. rewrite Z.lxor_spec, Z.land_spec. change 255 with (Z.ones 8).
  destruct (Z.lt_ge_cases n 8).
  - rewrite Z.ones_spec_low, Z.shiftl_spec_low by lia. by rewrite andb_true_r, xorb_false_r.
  - rewrite Z.ones_spec_high, Z.shiftl_spec, Z.shiftr_spec by lia. rewrite andb_false_r, xorb_false_l. f_equal. lia.
Qed.

Lemma crc32_tab_spec : crc32_tab = (fun i => Nat.iter 8 crc_bit (Z.of_nat i)) <$> seq 0 256.
Proof. vm_compute. reflexivity. Qed.

Lemma crc32_tab_lookup i : 0 <= i < 256 -> crc32_tab !! Z.to_nat i = Some (Nat.iter 8 crc_bit i).
Proof.
  intros Hi. rewrite crc32_tab_spec, list_lookup_fmap, lookup_seq_lt by lia. simpl. by rewrite Z2Nat.id by lia.
Qed.

Lemma crc_byte_tab r b : 0 <= b < 256 ->
  crc32_tab !! Z.to_nat (Z.land (Z.lxor r b) 255) = Some (Z.lxor (crc_byte r b) (Z.shiftr r 8)).
Proof.
  intros Hb. assert (Hl : 0 <= Z.land (Z.lxor r b) 255 < 256).
  { change 255 with (Z.ones 8). rewrite Z.land_ones by lia. apply Z.mod_pos_bound. lia. }
  rewrite crc32_tab_lookup by done. f_equal. unfold crc_byte. rewrite (split_byte (Z.lxor r b)) at 2.
  rewrite crc_bits_lxor, (crc_bits_shiftl 8). rewrite Z.shiftr_lxor.
  rewrite (Z.shiftr_div_pow2 b), (Z.div_small b) by (simpl; lia). by rewrite Z.lxor_0_r, Z.lxor_assoc, Z.lxor_nilpotent, Z.lxor_0_r.
Qed.

Lemma crc32_loop_reg bytes : forall r rest, Forall (fun b => 0 <= b < 256) bytes ->
  crc32_loop r (bytes ++ rest) (length bytes) = Some (crc_reg r bytes).
Proof.
  induction bytes as [|b bytes IH]; intros r rest H; [done|]. apply Forall_cons in H as [Hb H].
  cbn [length app crc32_loop]. rewrite crc_byte_tab by done. cbn [mbind option_bind].
  rewrite Z.lxor_assoc, Z.lxor_nilpotent, Z.lxor_0_r, IH by done. reflexivity.
Qed.

(** Composition: a buffer may be checked in pieces. *)
Lemma crc_reg_app r b1 b2 : crc_reg r (b1 ++ b2) = crc_reg (crc_reg r b1) b2.
Proof. apply foldl_app. Qed.

Lemma crc32_reg crc bytes rest : Forall (fun b => 0 <= b < 256) bytes ->
  crc32 crc (bytes ++ rest) (length bytes) = Some (Z.lxor (crc_reg (Z.lxor crc (2 ^ 32 - 1)) bytes) (2 ^ 32 - 1)).
Proof. intros H. unfold crc32. by rewrite crc32_loop_reg. Qed.

(** C35. [crc32] over the first bytes of a buffer is what the shift register
    with the polynomial 0xedb88320 computes bit by bit, with the register
    inverted before and after: the table holds the eight-step feedback of
    every byte, and no index leaves it; a buffer may be checked in pieces,
    the checksum of the first being the start of the second; [crc32_char] is
    the checksum of a string without its final zero. *)
Theorem crc32_shift_register crc b1 b2 rest :
  Forall (fun b => 0 <= b < 256) (b1 ++ b2) ->
  crc32 crc (b1 ++ b2 ++ rest) (length (b1 ++ b2))
    = Some (Z.lxor (crc_reg (Z.lxor crc (2 ^ 32 - 1)) (b1 ++ b2)) (2 ^ 32 - 1)) /\
  (crc1 ← crc32 crc (b1 ++ b2 ++ rest) (length b1); crc32 crc1 (b2 ++ rest) (length b2))
    = crc32 crc (b1 ++ b2 ++ rest) (length (b1 ++ b2)) /\
  (Forall (fun b => b ≠ 0) b1 ->
     crc32_char (b1 ++ 0 :: rest) = Some (Z.lxor (crc_reg (2 ^ 32 - 1) b1) (2 ^ 32 - 1))).
Proof.
  intros H. pose proof (proj1 (Forall_app _ _ _) H) as [H1 H2].
  assert (E : crc32 crc (b1 ++ b2 ++ rest) (length (b1 ++ b2))
    = Some (Z.lxor (crc_reg (Z.lxor crc (2 ^ 32 - 1)) (b1 ++ b2)) (2 ^ 32 - 1))) by (rewrite app_assoc; by apply crc32_reg).
  split; [done|]. split.
  - rewrite E, (crc32_reg _ b1) by done. cbn [mbind option_bind]. rewrite crc32_reg by done.
    by rewrite crc_reg_app, Z.lxor_assoc, Z.lxor_nilpotent, Z.lxor_0_r.
  - intros H0. assert (Hc : cstring (b1 ++ 0 :: rest) = Some b1).
    { clear -H0. induction b1 as [|b b1 IH]; [done|]. apply Forall_cons in H0 as [Hb H0]. simpl.
      destruct (Z.eqb_spec b 0); [done|]. by rewrite IH. }
    unfold crc32_char. rewrite Hc. cbn [mbind option_bind]. by apply (crc32_reg 0 b1).
Qed.

(** The check value of CRC-32: the checksum of 123456789. *)
Lemma crc32_shift_register_witness :
  crc32 0 (lit "12345"%string ++ lit "6789"%string ++ []) 9 = Some 0xcbf43926.
Proof.
  destruct (crc32_shift_register 0 (lit "12345"%string) (lit "6789"%string) []) as [H _].
  - repeat constructor; discriminate.
  - refine (eq_trans H _). vm_compute. reflexivity.
Defined.
