(* ===== verification/Seqnr.v ===== *)
(** Sequence numbers and sets (include/seqnr.h, include/set.h): 64-bit numbers
    in two halves with the macros that compare and step them, and bitmaps of
    32-bit words whose first element is the highest bit.  The lemmas show that
    a sequence number is used as the integer it stands for, which is how the
    protocol code is modelled. *)

From S2P Require Import Prelude.
From stdpp Require Import list.

#[local] Open Scope Z_scope.

(** ** Sequence numbers *)

Record SequenceNumber_t := mkSnr { high : Z; low : Z }.

Definition SEQNR_INC (s : SequenceNumber_t) : SequenceNumber_t :=
  let l := ⟦low s + 1⟧32 in
  mkSnr (if l =? 0 then ⟪high s + 1⟫32 else high s) l.

Definition SEQNR_DEC (s : SequenceNumber_t) : SequenceNumber_t :=
  mkSnr (if low s =? 0 then ⟪high s - 1⟫32 else high s) ⟦low s - 1⟧32.

Definition SEQNR_EQ (s1 s2 : SequenceNumber_t) : bool := (low s1 =? low s2) && (high s1 =? high s2).

Definition SEQNR_GT (s1 s2 : SequenceNumber_t) : bool :=
  (high s2 <? high s1) || (high s1 =? high s2) && (low s2 <? low s1).

Definition SEQNR_LT (s1 s2 : SequenceNumber_t) : bool :=
  (high s1 <? high s2) || (high s1 =? high s2) && (low s1 <? low s2).

Definition SEQNR_DELTA (s1 s2 : SequenceNumber_t) : Z :=
  if high s2 =? high s1 then ⟦low s2 - low s1⟧32
  else if high s2 =? ⟪high s1 + 1⟫32 then ⟦2 ^ 32 - 1 - low s1 + (low s2 + 1)⟧32
  else 2 ^ 32 - 1.

(** The halves of a number and the number of two halves. *)
Definition snr_of (n : Z) : SequenceNumber_t := mkSnr (n / 2 ^ 32) (n mod 2 ^ 32).
Definition snr_val (s : SequenceNumber_t) : Z := high s * 2 ^ 32 + low s.

Definition snr_ok (s : SequenceNumber_t) : Prop := in_s 32 (high s) /\ in_u 32 (low s).

Lemma snr_of_val s : snr_ok s -> snr_of (snr_val s) = s.
Proof.
  destruct s as [h l]. unfold snr_ok, snr_of, snr_val, in_u; simpl. intros [_ Hl]. f_equal.
  - rewrite Z.div_add_l by lia. rewrite Z.div_small; lia.
  - rewrite Z.add_comm, Z_mod_plus_full. apply Z.mod_small. lia.
Qed.

Lemma snr_val_of n : snr_val (snr_of n) = n.
Proof. unfold snr_val, snr_of; simpl. pose proof (Z.div_mod n (2 ^ 32)). lia. Qed.

Lemma SEQNR_INC_val s : snr_ok s -> snr_val s < 2 ^ 63 - 1 -> snr_val (SEQNR_INC s) = snr_val s + 1.
Proof.
  destruct s as [h l]. unfold snr_ok, snr_val, SEQNR_INC, in_u, in_s; cbn [high low]. intros [Hh Hl] Hv.
  destruct (Z.eq_dec l (2 ^ 32 - 1)) as [->|Hne].
  - change ⟦2 ^ 32 - 1 + 1⟧32 with 0. cbn [Z.eqb]. rewrite swrap_small; unfold in_s; lia.
  - rewrite wrap_small by (unfold in_u; lia). destruct (Z.eqb_spec (l + 1) 0); lia.
Qed.

Lemma SEQNR_DEC_val s : snr_ok s -> - 2 ^ 63 < snr_val s -> snr_val (SEQNR_DEC s) = snr_val s - 1.
Proof.
  destruct s as [h l]. unfold snr_ok, snr_val, SEQNR_DEC, in_u, in_s; cbn [high low]. intros [Hh Hl] Hv.
  destruct (Z.eqb_spec l 0) as [->|Hne].
  - change ⟦0 - 1⟧32 with (2 ^ 32 - 1). rewrite swrap_small; unfold in_s; lia.
  - rewrite wrap_small by (unfold in_u; lia). lia.
Qed.

Lemma SEQNR_LT_val s1 s2 : snr_ok s1 -> snr_ok s2 -> SEQNR_LT s1 s2 = (snr_val s1 <? snr_val s2).
Proof.
  destruct s1, s2. unfold snr_ok, snr_val, SEQNR_LT, in_u, in_s; cbn [high low]. intros [? ?] [? ?]. lia.
Qed.

Lemma SEQNR_GT_val s1 s2 : snr_ok s1 -> snr_ok s2 -> SEQNR_GT s1 s2 = (snr_val s2 <? snr_val s1).
Proof.
  destruct s1, s2. unfold snr_ok, snr_val, SEQNR_GT, in_u, in_s; cbn [high low]. intros [? ?] [? ?]. lia.
Qed.

Lemma SEQNR_EQ_val s1 s2 : snr_ok s1 -> snr_ok s2 -> SEQNR_EQ s1 s2 = (snr_val s1 =? snr_val s2).
Proof.
  destruct s1, s2. unfold snr_ok, snr_val, SEQNR_EQ, in_u, in_s; cbn [high low]. intros [? ?] [? ?]. lia.
Qed.

Lemma SEQNR_DELTA_val s1 s2 :
  snr_ok s1 -> snr_ok s2 -> 0 <= snr_val s2 - snr_val s1 < 2 ^ 32 -> SEQNR_DELTA s1 s2 = snr_val s2 - snr_val s1.
Proof.
  destruct s1 as [h1 l1], s2 as [h2 l2]. unfold snr_ok, snr_val, SEQNR_DELTA, in_u, in_s; cbn [high low].
  intros [? ?] [? ?] Hd. destruct (Z.eqb_spec h2 h1) as [->|Hne].
  - rewrite wrap_small; unfold in_u; lia.
  - assert (h2 = h1 + 1) as -> by lia. rewrite swrap_small by (unfold in_s; lia). rewrite Z.eqb_refl.
    rewrite wrap_small; unfold in_u; lia.
Qed.

(** ** Sets *)

(** The mask of element [i] in its word. *)
Definition set_mask (i : Z) : Z := Z.shiftl 1 (31 - Z.land i 31).

Definition SET_ADD (bm : list Z) (i : Z) : option (list Z) :=
  w ← zget bm (Z.shiftr i 5); zset bm (Z.shiftr i 5) (Z.lor w (set_mask i)).

Definition SET_REM (bm : list Z) (i : Z) : option (list Z) :=
  w ← zget bm (Z.shiftr i 5); zset bm (Z.shiftr i 5) (Z.land w (⟦Z.lnot (set_mask i)⟧32)).

Definition SET_CONTAINS (bm : list Z) (i : Z) : option bool :=
  w ← zget bm (Z.shiftr i 5); Some (negb (Z.land w (set_mask i) =? 0)).

(** ** Sets as sets *)

Lemma land_bit w k : 0 <= k -> negb (Z.land w (Z.shiftl 1 k) =? 0) = Z.testbit w k.
Proof.
  intros Hk. rewrite Z.shiftl_1_l. destruct (Z.testbit w k) eqn:E.
  - apply negb_true_iff, Z.eqb_neq. intros H. apply (f_equal (fun z => Z.testbit z k)) in H.
    rewrite Z.land_spec, Z.pow2_bits_true, E, Z.bits_0 in H by lia. done.
  - apply negb_false_iff, Z.eqb_eq. apply Z.bits_inj'. intros n Hn. rewrite Z.land_spec, Z.bits_0.
    destruct (Z.eq_dec n k) as [->|]; [by rewrite E|]. rewrite Z.pow2_bits_false by lia. apply andb_false_r.
Qed.

Lemma land31 i : Z.land i 31 = i mod 32.
Proof. apply (Z.land_ones i 5). lia. Qed.

Lemma shiftr5 i : Z.shiftr i 5 = i / 32.
Proof. apply (Z.shiftr_div_pow2 i 5). lia. Qed.

Lemma set_contains_bit bm i :
  SET_CONTAINS bm i = (w ← zget bm (i / 32); Some (Z.testbit w (31 - i mod 32))).
Proof.
  unfold SET_CONTAINS, set_mask. rewrite shiftr5, land31. destruct (zget bm (i / 32)); [|done]. simpl.
  rewrite land_bit; [done|]. pose proof (Z.mod_pos_bound i 32). lia.
Qed.

Lemma set_add_contains bm i bm' j : SET_ADD bm i = Some bm' ->
  SET_CONTAINS bm' j = (if j =? i then Some true else SET_CONTAINS bm j).
Proof.
  unfold SET_ADD. destruct (zget bm (Z.shiftr i 5)) as [w|] eqn:Ew; [|done]. simpl. intros Hs.
  rewrite !set_contains_bit. rewrite shiftr5 in *. pose proof (Z.mod_pos_bound i 32). pose proof (Z.mod_pos_bound j 32).
  pose proof (Z.div_mod i 32). pose proof (Z.div_mod j 32).
  assert (Hb : forall k, 0 <= k -> Z.testbit (Z.lor w (set_mask i)) k = Z.testbit w k || (k =? 31 - i mod 32)).
  { intros k Hk. unfold set_mask. rewrite land31, Z.lor_spec, Z.shiftl_1_l. f_equal.
    destruct (Z.eqb_spec k (31 - i mod 32)) as [->|]; [apply Z.pow2_bits_true; lia|apply Z.pow2_bits_false; lia]. }
  destruct (Z.eq_dec (j / 32) (i / 32)) as [E|E].
  - rewrite E, (zget_zset_eq _ _ _ _ Hs), Ew. simpl. rewrite Hb by lia.
    destruct (Z.eqb_spec j i) as [->|Hne]; [by rewrite Z.eqb_refl, orb_true_r|].
    destruct (Z.eqb_spec (31 - j mod 32) (31 - i mod 32)); [lia|]. by rewrite orb_false_r.
  - rewrite (zget_zset_ne _ _ (j / 32) _ _ Hs) by lia. destruct (Z.eqb_spec j i) as [->|]; [done|]. done.
Qed.

(** A fresh word of a set. *)
Lemma set_clear_contains bm n bm' j : zset bm (n / 32) 0 = Some bm' ->
  SET_CONTAINS bm' j = (if j / 32 =? n / 32 then Some false else SET_CONTAINS bm j).
Proof.
  intros Hs. rewrite !set_contains_bit. destruct (Z.eqb_spec (j / 32) (n / 32)) as [E|E].
  - rewrite E, (zget_zset_eq _ _ _ _ Hs). simpl. by rewrite Z.bits_0.
  - by rewrite (zget_zset_ne _ _ (j / 32) _ _ Hs) by lia.
Qed.
