(* ===== verification/Cache.v ===== *)
(** History caches (cache/cache.c, include/cache.h): the samples that a data
    reader or a data writer keeps, in one list for the whole cache and, when
    the topic has keys, in one list for each instance too.

    Samples ([Change_t]), list nodes ([CCREF]) and instances ([INSTANCE]) have
    addresses in a store of their own; an access to one that was released, a
    NULL pointer or the head of an empty list - whose place the code uses for a
    timestamp - is [Fault], and so is [fatal_printf].  An operation is a state
    transformer over the cache ([C]).

    The instances are in a list while there are few of them, otherwise in two
    skiplists, one by handle and one by hash of the key with a chain of
    instances for each hash.  The skiplists are modelled by what they are
    proved to implement (Skiplist.v, SkiplistSpec.v): sorted lists.

    Answers of the memory pools, of the monitor (the RTPS layer), of local
    readers and of waiting are part of the cache ([env]), calls that leave the
    cache are recorded ([events]).  The build is the one of the build
    files on a 64-bit platform, with neither BIGDATA nor WORDSIZE defined:
    handles, and counters of list elements, have 16 bits. *)

From stdpp Require Import gmap.
From S2P Require Import Prelude Seqnr.
From stdpp Require Import list.

#[local] Open Scope Z_scope.

(** ** Constants *)

Definition ALIVE : Z := 0.
Definition NOT_ALIVE_DISPOSED : Z := 1.
Definition NOT_ALIVE_UNREGISTERED : Z := 2.
Definition ZOMBIE : Z := 3.

Definition READ : Z := 0.
Definition NOT_READ : Z := 1.
Definition NEW : Z := 0.
Definition NOT_NEW : Z := 1.

Definition MAX_CHANGE_REFS : Z := 2047.
Definition MAX_INST_HANDLE : Z := 65535.
Definition MAX_LIST_CHANGES : Z := 65535.
Definition MAX_INST_LLIST : Z := 12.
Definition MIN_INST_LLIST : Z := 8.
Definition DNWRITERS : Z := 4.
Definition NWRITERS_INC : Z := 16.

(** [ReturnCode_t], as far as the cache uses it. *)
Inductive ReturnCode_t :=
| DDS_RETCODE_OK | DDS_RETCODE_BAD_PARAMETER | DDS_RETCODE_PRECONDITION_NOT_MET | DDS_RETCODE_OUT_OF_RESOURCES
| DDS_RETCODE_ALREADY_DELETED | DDS_RETCODE_TIMEOUT | DDS_RETCODE_NO_DATA.

#[export] Instance ReturnCode_eq_dec : EqDecision ReturnCode_t.
Proof. solve_decision. Defined.

(** Why a sample cannot be added. *)
Inductive RejectCause_t := RC_Accepted | RC_InstanceLimit | RC_SamplesLimit | RC_SamplesPerInstanceLimit.

(** [LH_LOOKUP], [LH_ADD_NEW_H], [LH_ADD_SET_H] *)
Inductive LookupMode := LH_LOOKUP | LH_ADD_NEW_H | LH_ADD_SET_H (h : Z).

(** The bits of an instance state. *)
Definition disposed (k : Z) : bool := negb (Z.land k NOT_ALIVE_DISPOSED =? 0).
Definition unregistered (k : Z) : bool := negb (Z.land k NOT_ALIVE_UNREGISTERED =? 0).

(** ** Data *)

(** A sample.  [c_u] are the three words of the union of sequence number and
    destinations, in writers, and generation counts, in readers.  [c_taken] is
    the part of [c_nrefs] that belongs to the proxies of the monitor. *)
Record Change_t := mkChg {
  c_nrefs : Z;
  c_wack : Z;
  c_taken : Z;
  c_urgent : bool;
  c_kind : Z;
  c_cached : bool;
  c_sstate : Z;
  c_vstate : Z;
  c_istate : Z;
  c_writer : Z;
  c_handle : Z;
  c_time : Z;
  c_length : Z;
  c_data : nat;
  c_u : Z * Z * Z
}.

Definition c_seqnr (c : Change_t) : SequenceNumber_t := let '(a, b, _) := c_u c in mkSnr ⟪a⟫32 b.
Definition c_disp_cnt (c : Change_t) : Z := let '(a, _, _) := c_u c in a.
Definition c_no_w_cnt (c : Change_t) : Z := let '(_, b, _) := c_u c in b.
Definition c_abs_cnt (c : Change_t) : Z := let '(_, _, d) := c_u c in d.

(** [c_dests]: two handles of 16 bits. *)
Definition c_dests (c : Change_t) : list Z := let '(_, _, d) := c_u c in [d mod 2 ^ 16; d / 2 ^ 16].

(** [CCREF]: a reference to a sample, and to the other reference to it. *)
Record CCREF := mkRef { r_mirror : option nat; r_change : nat }.

(** [CCLIST]: while it is empty the place of the pointers holds [l_time]. *)
Record CCLIST := mkList { l_refs : list nat; l_time : Z; l_nchanges : Z }.

(** An instance: [i_writers] are its first [i_nwriters] handles, sorted, and
    [i_wblock] is the size of the block that has them, when they are not
    embedded; [i_tbf] are its nodes of time-based filters. *)
Record INSTANCE := mkInst {
  i_list : CCLIST;
  i_handle : Z;
  i_hash : list Z;
  i_key : option (list Z);
  i_owner : Z;
  i_writers : list Z;
  i_wblock : option Z;
  i_ndata : Z;
  i_kind : Z;
  i_view : Z;
  i_wait : bool;
  i_deadlined : bool;
  i_inform : bool;
  i_recover : bool;
  i_registered : bool;
  i_disp_cnt : Z;
  i_no_w_cnt : Z;
  i_tbf : list nat
}.

Definition i_nwriters (i : INSTANCE) : Z := zlen (i_writers i).

(** The instances, in both formats. *)
Record InstSet := mkSet {
  hc_skiplists : bool;
  hc_inst_ll : list nat;
  hc_hashes : list (list Z * list nat);
  hc_handles : list (Z * nat)
}.

(** A local reader that matches a writer: its handle and its content filter. *)
Record CacheRef := mkCRef { cr_handle : Z; cr_filter : option (Change_t -> bool) }.

(** What the cache needs to know about the endpoint with some handle. *)
Record Entity := mkEnt { en_writer : bool; en_local : bool; en_prefix : list Z; en_eid : Z; en_strength : Z; en_lifespan : option Z }.

(** Calls of other components. *)
Inductive Event :=
| EvNew (cp : nat) (ip : option nat) (urgent : bool)
| EvRemove (cp : nat)
| EvUrgent (cp : nat)
| EvUnblock
| EvNotify
| EvFlush (ip : nat)
| EvTransfer (reader : Z) (cp : nat)
| EvRejected (limit : Z)
| EvDeadline
| EvLifespan
| EvAutopurgeNW
| EvAutopurgeDisp
| EvAlive (writer : Z)
| EvSignal
| EvMissed (h : Z)
| EvFiltered (node : nat)
| EvHandleDone (h : Z).

(** Answers from outside: whether allocations succeed; for each new sample
    whether each proxy that takes it wants to be acknowledged; whether a local
    reader is full; what is acknowledged while a writer waits, and whether it
    waits in vain. *)
Record Env := mkEnv {
  e_allocs : list bool;
  e_proxies : list (list bool);
  e_fulls : list bool;
  e_waits : list (list (option nat * SequenceNumber_t) * bool)
}.

(** The samples, lists and instances of a cache. *)
Record Store := mkStore {
  hc_changes : CCLIST;
  hc_ndata : Z;
  hc_set : InstSet;
  hc_ninstances : Z;
  chgs : gmap nat Change_t;
  refs : gmap nat CCREF;
  insts : gmap nat INSTANCE;
  next_addr : nat
}.

(** [HistoryCache_t]: the parts that change. *)
Record HistoryCache_t := mkHC {
  st : Store;
  hc_unacked : Z;
  hc_last_seqnr : SequenceNumber_t;
  hc_kind : Z;
  hc_view : Z;
  hc_disp_cnt : Z;
  hc_no_w_cnt : Z;
  hc_last_handle : Z;
  hc_recycle : bool;
  hc_monitor : bool;
  hc_notify : bool;
  hc_blocked : bool;
  hc_deadlined : bool;
  hc_dlc_idle : bool;
  hc_lsc_idle : bool;
  hc_apw_idle : bool;
  hc_apd_idle : bool;
  hc_sl_walk : Z;
  events : list Event;
  env : Env
}.

(** The parts of a cache that are set when it is created, the endpoint it
    belongs to, and the tables it looks into. *)
Record Conf := mkConf {
  hc_multi_inst : bool;
  hc_writer : bool;
  hc_durability : bool;
  hc_src_time : bool;
  hc_inst_order : bool;
  hc_auto_disp : bool;
  hc_must_ack : bool;
  hc_exclusive : bool;
  hc_liveliness : bool;
  hc_deadline : bool;
  hc_lifespan : bool;
  hc_tfilter : bool;
  hc_secure_h : bool;
  hc_ref_type : bool;
  hc_builtin : bool;
  hc_key_size : Z;
  hc_max_depth : Z;
  hc_max_inst : Z;
  hc_max_samples : Z;
  hc_readers : list CacheRef;
  in_listener : bool;
  entity_ptr : Z -> option Entity;
  hash_from_key : list Z -> option (list Z)
}.

(** ** Updates *)

Definition set_c_nrefs (x : Z) (c : Change_t) : Change_t :=
  mkChg x (c_wack c) (c_taken c) (c_urgent c) (c_kind c) (c_cached c) (c_sstate c) (c_vstate c) (c_istate c) (c_writer c) (c_handle c) (c_time c)
    (c_length c) (c_data c) (c_u c).
Definition set_c_wack (x : Z) (c : Change_t) : Change_t :=
  mkChg (c_nrefs c) x (c_taken c) (c_urgent c) (c_kind c) (c_cached c) (c_sstate c) (c_vstate c) (c_istate c) (c_writer c) (c_handle c) (c_time c)
    (c_length c) (c_data c) (c_u c).
Definition set_c_taken (x : Z) (c : Change_t) : Change_t :=
  mkChg (c_nrefs c) (c_wack c) x (c_urgent c) (c_kind c) (c_cached c) (c_sstate c) (c_vstate c) (c_istate c) (c_writer c) (c_handle c) (c_time c)
    (c_length c) (c_data c) (c_u c).
Definition set_c_urgent (x : bool) (c : Change_t) : Change_t :=
  mkChg (c_nrefs c) (c_wack c) (c_taken c) x (c_kind c) (c_cached c) (c_sstate c) (c_vstate c) (c_istate c) (c_writer c) (c_handle c) (c_time c)
    (c_length c) (c_data c) (c_u c).
Definition set_c_kind (x : Z) (c : Change_t) : Change_t :=
  mkChg (c_nrefs c) (c_wack c) (c_taken c) (c_urgent c) x (c_cached c) (c_sstate c) (c_vstate c) (c_istate c) (c_writer c) (c_handle c) (c_time c)
    (c_length c) (c_data c) (c_u c).
Definition set_c_cached (x : bool) (c : Change_t) : Change_t :=
  mkChg (c_nrefs c) (c_wack c) (c_taken c) (c_urgent c) (c_kind c) x (c_sstate c) (c_vstate c) (c_istate c) (c_writer c) (c_handle c) (c_time c)
    (c_length c) (c_data c) (c_u c).
Definition set_c_sstate (x : Z) (c : Change_t) : Change_t :=
  mkChg (c_nrefs c) (c_wack c) (c_taken c) (c_urgent c) (c_kind c) (c_cached c) x (c_vstate c) (c_istate c) (c_writer c) (c_handle c) (c_time c)
    (c_length c) (c_data c) (c_u c).
Definition set_c_vstate (x : Z) (c : Change_t) : Change_t :=
  mkChg (c_nrefs c) (c_wack c) (c_taken c) (c_urgent c) (c_kind c) (c_cached c) (c_sstate c) x (c_istate c) (c_writer c) (c_handle c) (c_time c)
    (c_length c) (c_data c) (c_u c).
Definition set_c_istate (x : Z) (c : Change_t) : Change_t :=
  mkChg (c_nrefs c) (c_wack c) (c_taken c) (c_urgent c) (c_kind c) (c_cached c) (c_sstate c) (c_vstate c) x (c_writer c) (c_handle c) (c_time c)
    (c_length c) (c_data c) (c_u c).
Definition set_c_handle (x : Z) (c : Change_t) : Change_t :=
  mkChg (c_nrefs c) (c_wack c) (c_taken c) (c_urgent c) (c_kind c) (c_cached c) (c_sstate c) (c_vstate c) (c_istate c) (c_writer c) x (c_time c)
    (c_length c) (c_data c) (c_u c).
Definition set_c_u (x : Z * Z * Z) (c : Change_t) : Change_t :=
  mkChg (c_nrefs c) (c_wack c) (c_taken c) (c_urgent c) (c_kind c) (c_cached c) (c_sstate c) (c_vstate c) (c_istate c) (c_writer c) (c_handle c)
    (c_time c) (c_length c) (c_data c) x.

Definition set_i_list (x : CCLIST) (i : INSTANCE) : INSTANCE :=
  mkInst x (i_handle i) (i_hash i) (i_key i) (i_owner i) (i_writers i) (i_wblock i) (i_ndata i) (i_kind i) (i_view i) (i_wait i) (i_deadlined i)
    (i_inform i) (i_recover i) (i_registered i) (i_disp_cnt i) (i_no_w_cnt i) (i_tbf i).
Definition set_i_owner (x : Z) (i : INSTANCE) : INSTANCE :=
  mkInst (i_list i) (i_handle i) (i_hash i) (i_key i) x (i_writers i) (i_wblock i) (i_ndata i) (i_kind i) (i_view i) (i_wait i) (i_deadlined i)
    (i_inform i) (i_recover i) (i_registered i) (i_disp_cnt i) (i_no_w_cnt i) (i_tbf i).
Definition set_i_writers (x : list Z) (i : INSTANCE) : INSTANCE :=
  mkInst (i_list i) (i_handle i) (i_hash i) (i_key i) (i_owner i) x (i_wblock i) (i_ndata i) (i_kind i) (i_view i) (i_wait i) (i_deadlined i)
    (i_inform i) (i_recover i) (i_registered i) (i_disp_cnt i) (i_no_w_cnt i) (i_tbf i).
Definition set_i_wblock (x : option Z) (i : INSTANCE) : INSTANCE :=
  mkInst (i_list i) (i_handle i) (i_hash i) (i_key i) (i_owner i) (i_writers i) x (i_ndata i) (i_kind i) (i_view i) (i_wait i) (i_deadlined i)
    (i_inform i) (i_recover i) (i_registered i) (i_disp_cnt i) (i_no_w_cnt i) (i_tbf i).
Definition set_i_ndata (x : Z) (i : INSTANCE) : INSTANCE :=
  mkInst (i_list i) (i_handle i) (i_hash i) (i_key i) (i_owner i) (i_writers i) (i_wblock i) x (i_kind i) (i_view i) (i_wait i) (i_deadlined i)
    (i_inform i) (i_recover i) (i_registered i) (i_disp_cnt i) (i_no_w_cnt i) (i_tbf i).
Definition set_i_kind (x : Z) (i : INSTANCE) : INSTANCE :=
  mkInst (i_list i) (i_handle i) (i_hash i) (i_key i) (i_owner i) (i_writers i) (i_wblock i) (i_ndata i) x (i_view i) (i_wait i) (i_deadlined i)
    (i_inform i) (i_recover i) (i_registered i) (i_disp_cnt i) (i_no_w_cnt i) (i_tbf i).
Definition set_i_view (x : Z) (i : INSTANCE) : INSTANCE :=
  mkInst (i_list i) (i_handle i) (i_hash i) (i_key i) (i_owner i) (i_writers i) (i_wblock i) (i_ndata i) (i_kind i) x (i_wait i) (i_deadlined i)
    (i_inform i) (i_recover i) (i_registered i) (i_disp_cnt i) (i_no_w_cnt i) (i_tbf i).
Definition set_i_wait (x : bool) (i : INSTANCE) : INSTANCE :=
  mkInst (i_list i) (i_handle i) (i_hash i) (i_key i) (i_owner i) (i_writers i) (i_wblock i) (i_ndata i) (i_kind i) (i_view i) x (i_deadlined i)
    (i_inform i) (i_recover i) (i_registered i) (i_disp_cnt i) (i_no_w_cnt i) (i_tbf i).
Definition set_i_deadlined (x : bool) (i : INSTANCE) : INSTANCE :=
  mkInst (i_list i) (i_handle i) (i_hash i) (i_key i) (i_owner i) (i_writers i) (i_wblock i) (i_ndata i) (i_kind i) (i_view i) (i_wait i) x (i_inform
    i) (i_recover i) (i_registered i) (i_disp_cnt i) (i_no_w_cnt i) (i_tbf i).
Definition set_i_inform (x : bool) (i : INSTANCE) : INSTANCE :=
  mkInst (i_list i) (i_handle i) (i_hash i) (i_key i) (i_owner i) (i_writers i) (i_wblock i) (i_ndata i) (i_kind i) (i_view i) (i_wait i) (i_deadlined
    i) x (i_recover i) (i_registered i) (i_disp_cnt i) (i_no_w_cnt i) (i_tbf i).
Definition set_i_recover (x : bool) (i : INSTANCE) : INSTANCE :=
  mkInst (i_list i) (i_handle i) (i_hash i) (i_key i) (i_owner i) (i_writers i) (i_wblock i) (i_ndata i) (i_kind i) (i_view i) (i_wait i) (i_deadlined
    i) (i_inform i) x (i_registered i) (i_disp_cnt i) (i_no_w_cnt i) (i_tbf i).
Definition set_i_registered (x : bool) (i : INSTANCE) : INSTANCE :=
  mkInst (i_list i) (i_handle i) (i_hash i) (i_key i) (i_owner i) (i_writers i) (i_wblock i) (i_ndata i) (i_kind i) (i_view i) (i_wait i) (i_deadlined
    i) (i_inform i) (i_recover i) x (i_disp_cnt i) (i_no_w_cnt i) (i_tbf i).
Definition set_i_disp_cnt (x : Z) (i : INSTANCE) : INSTANCE :=
  mkInst (i_list i) (i_handle i) (i_hash i) (i_key i) (i_owner i) (i_writers i) (i_wblock i) (i_ndata i) (i_kind i) (i_view i) (i_wait i) (i_deadlined
    i) (i_inform i) (i_recover i) (i_registered i) x (i_no_w_cnt i) (i_tbf i).
Definition set_i_no_w_cnt (x : Z) (i : INSTANCE) : INSTANCE :=
  mkInst (i_list i) (i_handle i) (i_hash i) (i_key i) (i_owner i) (i_writers i) (i_wblock i) (i_ndata i) (i_kind i) (i_view i) (i_wait i) (i_deadlined
    i) (i_inform i) (i_recover i) (i_registered i) (i_disp_cnt i) x (i_tbf i).
Definition set_i_tbf (x : list nat) (i : INSTANCE) : INSTANCE :=
  mkInst (i_list i) (i_handle i) (i_hash i) (i_key i) (i_owner i) (i_writers i) (i_wblock i) (i_ndata i) (i_kind i) (i_view i) (i_wait i) (i_deadlined
    i) (i_inform i) (i_recover i) (i_registered i) (i_disp_cnt i) (i_no_w_cnt i) x.

Definition set_hc_changes (x : CCLIST) (s : Store) : Store :=
  mkStore x (hc_ndata s) (hc_set s) (hc_ninstances s) (chgs s) (refs s) (insts s) (next_addr s).
Definition set_hc_ndata (x : Z) (s : Store) : Store :=
  mkStore (hc_changes s) x (hc_set s) (hc_ninstances s) (chgs s) (refs s) (insts s) (next_addr s).
Definition set_hc_set (x : InstSet) (s : Store) : Store :=
  mkStore (hc_changes s) (hc_ndata s) x (hc_ninstances s) (chgs s) (refs s) (insts s) (next_addr s).
Definition set_hc_ninstances (x : Z) (s : Store) : Store :=
  mkStore (hc_changes s) (hc_ndata s) (hc_set s) x (chgs s) (refs s) (insts s) (next_addr s).
Definition set_chgs (x : gmap nat Change_t) (s : Store) : Store :=
  mkStore (hc_changes s) (hc_ndata s) (hc_set s) (hc_ninstances s) x (refs s) (insts s) (next_addr s).
Definition set_refs (x : gmap nat CCREF) (s : Store) : Store :=
  mkStore (hc_changes s) (hc_ndata s) (hc_set s) (hc_ninstances s) (chgs s) x (insts s) (next_addr s).
Definition set_insts (x : gmap nat INSTANCE) (s : Store) : Store :=
  mkStore (hc_changes s) (hc_ndata s) (hc_set s) (hc_ninstances s) (chgs s) (refs s) x (next_addr s).
Definition set_next_addr (x : nat) (s : Store) : Store :=
  mkStore (hc_changes s) (hc_ndata s) (hc_set s) (hc_ninstances s) (chgs s) (refs s) (insts s) x.

Definition set_st (x : Store) (s : HistoryCache_t) : HistoryCache_t :=
  mkHC x (hc_unacked s) (hc_last_seqnr s) (hc_kind s) (hc_view s) (hc_disp_cnt s) (hc_no_w_cnt s) (hc_last_handle s) (hc_recycle s) (hc_monitor s)
    (hc_notify s) (hc_blocked s) (hc_deadlined s) (hc_dlc_idle s) (hc_lsc_idle s) (hc_apw_idle s) (hc_apd_idle s) (hc_sl_walk s) (events s) (env s).
Definition set_hc_unacked (x : Z) (s : HistoryCache_t) : HistoryCache_t :=
  mkHC (st s) x (hc_last_seqnr s) (hc_kind s) (hc_view s) (hc_disp_cnt s) (hc_no_w_cnt s) (hc_last_handle s) (hc_recycle s) (hc_monitor s) (hc_notify
    s) (hc_blocked s) (hc_deadlined s) (hc_dlc_idle s) (hc_lsc_idle s) (hc_apw_idle s) (hc_apd_idle s) (hc_sl_walk s) (events s) (env s).
Definition set_hc_last_seqnr (x : SequenceNumber_t) (s : HistoryCache_t) : HistoryCache_t :=
  mkHC (st s) (hc_unacked s) x (hc_kind s) (hc_view s) (hc_disp_cnt s) (hc_no_w_cnt s) (hc_last_handle s) (hc_recycle s) (hc_monitor s) (hc_notify s)
    (hc_blocked s) (hc_deadlined s) (hc_dlc_idle s) (hc_lsc_idle s) (hc_apw_idle s) (hc_apd_idle s) (hc_sl_walk s) (events s) (env s).
Definition set_hc_kind (x : Z) (s : HistoryCache_t) : HistoryCache_t :=
  mkHC (st s) (hc_unacked s) (hc_last_seqnr s) x (hc_view s) (hc_disp_cnt s) (hc_no_w_cnt s) (hc_last_handle s) (hc_recycle s) (hc_monitor s)
    (hc_notify s) (hc_blocked s) (hc_deadlined s) (hc_dlc_idle s) (hc_lsc_idle s) (hc_apw_idle s) (hc_apd_idle s) (hc_sl_walk s) (events s) (env s).
Definition set_hc_view (x : Z) (s : HistoryCache_t) : HistoryCache_t :=
  mkHC (st s) (hc_unacked s) (hc_last_seqnr s) (hc_kind s) x (hc_disp_cnt s) (hc_no_w_cnt s) (hc_last_handle s) (hc_recycle s) (hc_monitor s)
    (hc_notify s) (hc_blocked s) (hc_deadlined s) (hc_dlc_idle s) (hc_lsc_idle s) (hc_apw_idle s) (hc_apd_idle s) (hc_sl_walk s) (events s) (env s).
Definition set_hc_disp_cnt (x : Z) (s : HistoryCache_t) : HistoryCache_t :=
  mkHC (st s) (hc_unacked s) (hc_last_seqnr s) (hc_kind s) (hc_view s) x (hc_no_w_cnt s) (hc_last_handle s) (hc_recycle s) (hc_monitor s) (hc_notify
    s) (hc_blocked s) (hc_deadlined s) (hc_dlc_idle s) (hc_lsc_idle s) (hc_apw_idle s) (hc_apd_idle s) (hc_sl_walk s) (events s) (env s).
Definition set_hc_no_w_cnt (x : Z) (s : HistoryCache_t) : HistoryCache_t :=
  mkHC (st s) (hc_unacked s) (hc_last_seqnr s) (hc_kind s) (hc_view s) (hc_disp_cnt s) x (hc_last_handle s) (hc_recycle s) (hc_monitor s) (hc_notify
    s) (hc_blocked s) (hc_deadlined s) (hc_dlc_idle s) (hc_lsc_idle s) (hc_apw_idle s) (hc_apd_idle s) (hc_sl_walk s) (events s) (env s).
Definition set_hc_last_handle (x : Z) (s : HistoryCache_t) : HistoryCache_t :=
  mkHC (st s) (hc_unacked s) (hc_last_seqnr s) (hc_kind s) (hc_view s) (hc_disp_cnt s) (hc_no_w_cnt s) x (hc_recycle s) (hc_monitor s) (hc_notify s)
    (hc_blocked s) (hc_deadlined s) (hc_dlc_idle s) (hc_lsc_idle s) (hc_apw_idle s) (hc_apd_idle s) (hc_sl_walk s) (events s) (env s).
Definition set_hc_recycle (x : bool) (s : HistoryCache_t) : HistoryCache_t :=
  mkHC (st s) (hc_unacked s) (hc_last_seqnr s) (hc_kind s) (hc_view s) (hc_disp_cnt s) (hc_no_w_cnt s) (hc_last_handle s) x (hc_monitor s) (hc_notify
    s) (hc_blocked s) (hc_deadlined s) (hc_dlc_idle s) (hc_lsc_idle s) (hc_apw_idle s) (hc_apd_idle s) (hc_sl_walk s) (events s) (env s).
Definition set_hc_monitor (x : bool) (s : HistoryCache_t) : HistoryCache_t :=
  mkHC (st s) (hc_unacked s) (hc_last_seqnr s) (hc_kind s) (hc_view s) (hc_disp_cnt s) (hc_no_w_cnt s) (hc_last_handle s) (hc_recycle s) x (hc_notify
    s) (hc_blocked s) (hc_deadlined s) (hc_dlc_idle s) (hc_lsc_idle s) (hc_apw_idle s) (hc_apd_idle s) (hc_sl_walk s) (events s) (env s).
Definition set_hc_notify (x : bool) (s : HistoryCache_t) : HistoryCache_t :=
  mkHC (st s) (hc_unacked s) (hc_last_seqnr s) (hc_kind s) (hc_view s) (hc_disp_cnt s) (hc_no_w_cnt s) (hc_last_handle s) (hc_recycle s) (hc_monitor
    s) x (hc_blocked s) (hc_deadlined s) (hc_dlc_idle s) (hc_lsc_idle s) (hc_apw_idle s) (hc_apd_idle s) (hc_sl_walk s) (events s) (env s).
Definition set_hc_blocked (x : bool) (s : HistoryCache_t) : HistoryCache_t :=
  mkHC (st s) (hc_unacked s) (hc_last_seqnr s) (hc_kind s) (hc_view s) (hc_disp_cnt s) (hc_no_w_cnt s) (hc_last_handle s) (hc_recycle s) (hc_monitor
    s) (hc_notify s) x (hc_deadlined s) (hc_dlc_idle s) (hc_lsc_idle s) (hc_apw_idle s) (hc_apd_idle s) (hc_sl_walk s) (events s) (env s).
Definition set_hc_deadlined (x : bool) (s : HistoryCache_t) : HistoryCache_t :=
  mkHC (st s) (hc_unacked s) (hc_last_seqnr s) (hc_kind s) (hc_view s) (hc_disp_cnt s) (hc_no_w_cnt s) (hc_last_handle s) (hc_recycle s) (hc_monitor
    s) (hc_notify s) (hc_blocked s) x (hc_dlc_idle s) (hc_lsc_idle s) (hc_apw_idle s) (hc_apd_idle s) (hc_sl_walk s) (events s) (env s).
Definition set_hc_dlc_idle (x : bool) (s : HistoryCache_t) : HistoryCache_t :=
  mkHC (st s) (hc_unacked s) (hc_last_seqnr s) (hc_kind s) (hc_view s) (hc_disp_cnt s) (hc_no_w_cnt s) (hc_last_handle s) (hc_recycle s) (hc_monitor
    s) (hc_notify s) (hc_blocked s) (hc_deadlined s) x (hc_lsc_idle s) (hc_apw_idle s) (hc_apd_idle s) (hc_sl_walk s) (events s) (env s).
Definition set_hc_lsc_idle (x : bool) (s : HistoryCache_t) : HistoryCache_t :=
  mkHC (st s) (hc_unacked s) (hc_last_seqnr s) (hc_kind s) (hc_view s) (hc_disp_cnt s) (hc_no_w_cnt s) (hc_last_handle s) (hc_recycle s) (hc_monitor
    s) (hc_notify s) (hc_blocked s) (hc_deadlined s) (hc_dlc_idle s) x (hc_apw_idle s) (hc_apd_idle s) (hc_sl_walk s) (events s) (env s).
Definition set_hc_apw_idle (x : bool) (s : HistoryCache_t) : HistoryCache_t :=
  mkHC (st s) (hc_unacked s) (hc_last_seqnr s) (hc_kind s) (hc_view s) (hc_disp_cnt s) (hc_no_w_cnt s) (hc_last_handle s) (hc_recycle s) (hc_monitor
    s) (hc_notify s) (hc_blocked s) (hc_deadlined s) (hc_dlc_idle s) (hc_lsc_idle s) x (hc_apd_idle s) (hc_sl_walk s) (events s) (env s).
Definition set_hc_apd_idle (x : bool) (s : HistoryCache_t) : HistoryCache_t :=
  mkHC (st s) (hc_unacked s) (hc_last_seqnr s) (hc_kind s) (hc_view s) (hc_disp_cnt s) (hc_no_w_cnt s) (hc_last_handle s) (hc_recycle s) (hc_monitor
    s) (hc_notify s) (hc_blocked s) (hc_deadlined s) (hc_dlc_idle s) (hc_lsc_idle s) (hc_apw_idle s) x (hc_sl_walk s) (events s) (env s).
Definition set_hc_sl_walk (x : Z) (s : HistoryCache_t) : HistoryCache_t :=
  mkHC (st s) (hc_unacked s) (hc_last_seqnr s) (hc_kind s) (hc_view s) (hc_disp_cnt s) (hc_no_w_cnt s) (hc_last_handle s) (hc_recycle s) (hc_monitor
    s) (hc_notify s) (hc_blocked s) (hc_deadlined s) (hc_dlc_idle s) (hc_lsc_idle s) (hc_apw_idle s) (hc_apd_idle s) x (events s) (env s).
Definition set_events (x : list Event) (s : HistoryCache_t) : HistoryCache_t :=
  mkHC (st s) (hc_unacked s) (hc_last_seqnr s) (hc_kind s) (hc_view s) (hc_disp_cnt s) (hc_no_w_cnt s) (hc_last_handle s) (hc_recycle s) (hc_monitor
    s) (hc_notify s) (hc_blocked s) (hc_deadlined s) (hc_dlc_idle s) (hc_lsc_idle s) (hc_apw_idle s) (hc_apd_idle s) (hc_sl_walk s) x (env s).
Definition set_env (x : Env) (s : HistoryCache_t) : HistoryCache_t :=
  mkHC (st s) (hc_unacked s) (hc_last_seqnr s) (hc_kind s) (hc_view s) (hc_disp_cnt s) (hc_no_w_cnt s) (hc_last_handle s) (hc_recycle s) (hc_monitor
    s) (hc_notify s) (hc_blocked s) (hc_deadlined s) (hc_dlc_idle s) (hc_lsc_idle s) (hc_apw_idle s) (hc_apd_idle s) (hc_sl_walk s) (events s) x.

(** ** Operations as state transformers *)

Inductive Res (A : Type) := Ok (a : A) (s : HistoryCache_t) | Fault | Hang.
Arguments Ok {A} a s.
Arguments Fault {A}.
Arguments Hang {A}.

(** [Fault] is undefined behaviour or [fatal_printf], [Hang] a loop that needs
    more rounds than the fuel that was given. *)
Definition C (A : Type) : Type := HistoryCache_t -> Res A.

#[export] Instance C_ret : MRet C := fun _ a s => Ok a s.
#[export] Instance C_bind : MBind C := fun _ _ k m s =>
  match m s with Ok a s' => k a s' | Fault => Fault | Hang => Hang end.

Definition fault {A} : C A := fun _ => Fault.
Definition hang {A} : C A := fun _ => Hang.
Definition getc : C HistoryCache_t := fun s => Ok s s.
Definition modc (f : HistoryCache_t -> HistoryCache_t) : C () := fun s => Ok () (f s).
Definition modst (f : Store -> Store) : C () := modc (fun s => set_st (f (st s)) s).
Definition the {A} (o : option A) : C A := fun s => match o with Some a => Ok a s | None => Fault end.
Definition whenc (b : bool) (m : C ()) : C () := if b then m else mret ().

Definition emit (e : Event) : C () := modc (fun s => set_events (events s ++ [e]) s).

(** The next answer: allocations succeed when none is given. *)
Definition alloc : C bool := fun s =>
  let e := env s in
  match e_allocs e with
  | [] => Ok true s
  | b :: l => Ok b (set_env (mkEnv l (e_proxies e) (e_fulls e) (e_waits e)) s)
  end.
Definition proxies : C (list bool) := fun s =>
  let e := env s in
  match e_proxies e with
  | [] => Ok [] s
  | b :: l => Ok b (set_env (mkEnv (e_allocs e) l (e_fulls e) (e_waits e)) s)
  end.
Definition is_full : C bool := fun s =>
  let e := env s in
  match e_fulls e with
  | [] => Ok false s
  | b :: l => Ok b (set_env (mkEnv (e_allocs e) (e_proxies e) l (e_waits e)) s)
  end.
Definition next_wait : C (list (option nat * SequenceNumber_t) * bool) := fun s =>
  let e := env s in
  match e_waits e with
  | [] => Ok ([], true) s
  | w :: l => Ok w (set_env (mkEnv (e_allocs e) (e_proxies e) (e_fulls e) l) s)
  end.

(** Loads and stores. *)
Definition change (cp : nat) : C Change_t := s ← getc; the (chgs (st s) !! cp).
Definition put_change (cp : nat) (c : Change_t) : C () := modst (fun s => set_chgs (<[cp := c]> (chgs s)) s).
Definition upd_change (cp : nat) (f : Change_t -> Change_t) : C () := c ← change cp; put_change cp (f c).

Definition ref (rp : nat) : C CCREF := s ← getc; the (refs (st s) !! rp).
Definition put_ref (rp : nat) (r : CCREF) : C () := modst (fun s => set_refs (<[rp := r]> (refs s)) s).
Definition ref_change (rp : nat) : C Change_t := r ← ref rp; change (r_change r).

Definition inst (ip : nat) : C INSTANCE := s ← getc; the (insts (st s) !! ip).
Definition put_inst (ip : nat) (i : INSTANCE) : C () := modst (fun s => set_insts (<[ip := i]> (insts s)) s).
Definition upd_inst (ip : nat) (f : INSTANCE -> INSTANCE) : C () := i ← inst ip; put_inst ip (f i).

Definition new_addr : C nat := s ← getc; modst (fun s => set_next_addr (S (next_addr s)) s);; mret (next_addr (st s)).

(** ** Samples *)

(** [hc_change_new], the number and contents of the new sample given. *)
Definition hc_change_new (c : Change_t) : C (option nat) :=
  ok ← alloc;
  if (ok : bool) then cp ← new_addr; put_change cp (set_c_nrefs 1 c);; mret (Some cp) else mret None.

(** [hc_change_clone] *)
Definition hc_change_clone (cp : nat) : C (option nat) :=
  ok ← alloc;
  if (ok : bool) then
    c ← change cp; ncp ← new_addr;
    put_change ncp (set_c_taken 0 (set_c_wack 0 (set_c_nrefs 1 c)));; mret (Some ncp)
  else mret None.

(** [hc_change_dispose] *)
Definition hc_change_dispose (cp : nat) : C () := modst (fun s => set_chgs (delete cp (chgs s)) s).

(** [n] times [hc_change_free]: the sample goes with the last reference. *)
Definition change_release (n : Z) (cp : nat) : C () :=
  c ← change cp;
  let c' := set_c_nrefs (wrap 11 (c_nrefs c - n)) c in
  if c_nrefs c' =? 0 then hc_change_dispose cp else put_change cp c'.

Definition hc_change_free (cp : nat) : C () := change_release 1 cp.

(** One more reference: the counter has 11 bits. *)
Definition change_ref (cp : nat) : C () :=
  c ← change cp;
  let n := wrap 11 (c_nrefs c + 1) in
  put_change cp (set_c_nrefs n c);;
  if MAX_CHANGE_REFS <? n then fault else mret ().

(** ** Lists of references *)

(** [CCLIST *]: the list of the cache or that of an instance. *)
Inductive LIST := HIST | INST (ip : nat).

Definition get_list (lp : LIST) : C CCLIST :=
  match lp with
  | HIST => s ← getc; mret (hc_changes (st s))
  | INST ip => i ← inst ip; mret (i_list i)
  end.
Definition put_list (lp : LIST) (l : CCLIST) : C () :=
  match lp with HIST => modst (set_hc_changes l) | INST ip => upd_inst ip (set_i_list l) end.

(** [LIST_HEAD]: NULL when there is none, but also when an empty list has
    timestamp 0; with another one it is no pointer at all. *)
Definition list_head (lp : LIST) : C (option nat) :=
  l ← get_list lp;
  if l_nchanges l =? 0 then (if l_time l =? 0 then mret None else fault) else mret (head (l_refs l)).

(** [lp->l_head], [lp->l_tail] as nodes. *)
Definition first_ref (lp : LIST) : C nat :=
  l ← get_list lp; if l_nchanges l =? 0 then fault else the (head (l_refs l)).
Definition last_ref (lp : LIST) : C nat :=
  l ← get_list lp; if l_nchanges l =? 0 then fault else the (last (l_refs l)).
Definition first_change (lp : LIST) : C nat := rp ← first_ref lp; r ← ref rp; mret (r_change r).

(** The element behind another one; [None] when that is not in the list. *)
Fixpoint succ_of (p : nat) (l : list nat) : option (option nat) :=
  match l with
  | [] => None
  | q :: l => if decide (q = p) then Some (head l) else succ_of p l
  end.

(** [LIST_NEXT] *)
Definition list_next (lp : LIST) (rp : nat) : C (option nat) := l ← get_list lp; the (succ_of rp (l_refs l)).

(** [LIST_REMOVE] *)
Definition list_remove (lp : LIST) (rp : nat) : C () :=
  l ← get_list lp;
  if decide (rp ∈ l_refs l) then put_list lp (mkList (filter (.≠ rp) (l_refs l)) (l_time l) (l_nchanges l)) else fault.

(** The place of an earlier sample: [for (...; lrp && !FTIME_LT (...); ...)
    break;] ends in its first round, before [prev_lrp] is set. *)
Definition order_prev (lrp prev_lrp : option nat) (lt : nat -> C bool) : C (option nat) :=
  match lrp with
  | Some q => before ← lt q; if negb before then mret prev_lrp else mret prev_lrp
  | None => mret prev_lrp
  end.

Fixpoint insert_behind (rp p : nat) (l : list nat) : list nat :=
  match l with
  | [] => []
  | q :: l => if decide (q = p) then q :: rp :: l else q :: insert_behind rp p l
  end.

(** [FTIME_LT (cp->c_time, lrp->change->c_time)] *)
Definition earlier (cp lrp : nat) : C bool :=
  c ← change cp; c' ← ref_change lrp; mret (c_time c <? c_time c').

(** [ccref_add] *)
Definition ccref_add (lp : LIST) (cp : nat) (ordered : bool) : C (option nat) :=
  ok ← alloc;
  if negb ok then mret None else
  rp ← new_addr;
  put_ref rp (mkRef None cp);;
  change_ref cp;;
  l ← get_list lp;
  let n := ⟦l_nchanges l + 1⟧16 in
  if l_nchanges l =? 0 then put_list lp (mkList [rp] (l_time l) n);; mret (Some rp)
  else
    at_end ← (if negb ordered then mret true else q ← last_ref lp; b ← earlier cp q; mret (negb b));
    if (at_end : bool) then put_list lp (mkList (l_refs l ++ [rp]) (l_time l) n);; mret (Some rp)
    else
      prev ← order_prev (head (l_refs l)) None (earlier cp);
      match prev with
      | None => put_list lp (mkList (rp :: l_refs l) (l_time l) n);; mret (Some rp)
      | Some p => put_list lp (mkList (insert_behind rp p (l_refs l)) (l_time l) n);; mret (Some rp)
      end.

(** [ccref_delete] *)
Definition ccref_delete (rp : nat) : C () :=
  r ← ref rp;
  hc_change_free (r_change r);;
  modst (fun s => set_refs (delete rp (refs s)) s).

(** [ccref_remove_ref] *)
Definition ccref_remove_ref (lp : LIST) (rp : nat) : C () :=
  l ← get_list lp;
  let n := ⟦l_nchanges l - 1⟧16 in
  if n =? 0 then c ← ref_change rp; put_list lp (mkList [] (c_time c) 0)
  else
    put_list lp (mkList (l_refs l) (l_time l) n);;
    list_remove lp rp.

(** The first reference of a list to a sample. *)
Fixpoint find_ref (cp : nat) (l : list nat) : C (option nat) :=
  match l with
  | [] => mret None
  | rp :: l => r ← ref rp; if decide (r_change r = cp) then mret (Some rp) else find_ref cp l
  end.

(** [ccref_remove_change] *)
Definition ccref_remove_change (lp : LIST) (cp : nat) : C (option nat) :=
  l ← get_list lp;
  found ← (if l_nchanges l =? 0 then mret None else find_ref cp (l_refs l));
  match found with
  | None => mret None
  | Some rp => ccref_remove_ref lp rp;; mret (Some rp)
  end.

(** [ccref_list_delete] *)
Fixpoint ccref_list_delete_from (lp : LIST) (l : list nat) : C () :=
  match l with
  | [] => mret ()
  | rp :: l' =>
      whenc (match l' with [] => true | _ => false end)
        (c ← ref_change rp; put_list lp (mkList [] (c_time c) 0));;
      ccref_delete rp;;
      ccref_list_delete_from lp l'
  end.
Definition ccref_list_delete (lp : LIST) : C () :=
  l ← get_list lp;
  if l_nchanges l =? 0 then mret () else ccref_list_delete_from lp (l_refs l).

(** ** The set of instances *)

(** [memcmp] *)
Fixpoint memcmp (a b : list Z) : Z :=
  match a, b with
  | x :: a, y :: b => if x =? y then memcmp a b else x - y
  | _, _ => 0
  end.

(** [hash_cmp_fct] on the key of a node. *)
Definition hash_cmp (h data : list Z) : Z := memcmp h data.

(** [handle_cmp_fct]: handles compare as [short]. *)
Definition handle_cmp (h data : Z) : Z := ⟪h⟫16 - ⟪data⟫16.

(** [sl_search], [sl_insert] and [sl_delete] of lists that are sorted by [cmp]. *)
Fixpoint sl_search {K D} (cmp : K -> K -> Z) (k : K) (l : list (K * D)) : option D :=
  match l with
  | [] => None
  | (k', d) :: l => let r := cmp k' k in if r <? 0 then sl_search cmp k l else if r =? 0 then Some d else None
  end.
Fixpoint sl_insert {K D} (cmp : K -> K -> Z) (k : K) (d : D) (l : list (K * D)) : list (K * D) :=
  match l with
  | [] => [(k, d)]
  | (k', d') :: l' =>
      let r := cmp k' k in
      if r <? 0 then (k', d') :: sl_insert cmp k d l' else if r =? 0 then (k', d) :: l' else (k, d) :: l
  end.
Fixpoint sl_delete {K D} (cmp : K -> K -> Z) (k : K) (l : list (K * D)) : list (K * D) :=
  match l with
  | [] => []
  | (k', d) :: l' => let r := cmp k' k in if r <? 0 then (k', d) :: sl_delete cmp k l' else if r =? 0 then l' else l
  end.

Definition mod_set (f : InstSet -> InstSet) : C () := modst (fun s => set_hc_set (f (hc_set s)) s).

(** [hc_convert_to_short] *)
Definition to_short (t : InstSet) : InstSet := mkSet false (hc_handles t).*2 [] [].
Definition hc_convert_to_short : C () := mod_set to_short.

(** The loop of [hc_convert_to_long]; the result is what could not be
    converted. *)
Fixpoint convert_loop (l : list nat) (t : InstSet) : C (InstSet * list nat) :=
  match l with
  | [] => mret (t, [])
  | p :: l' =>
      i ← inst p;
      ok ← (if sl_search hash_cmp (i_hash i) (hc_hashes t) is Some _ then mret true else alloc);
      if negb ok then mret (t, l) else
      let chain := default [] (sl_search hash_cmp (i_hash i) (hc_hashes t)) in
      let t := mkSet true [] (sl_insert hash_cmp (i_hash i) (p :: chain) (hc_hashes t)) (hc_handles t) in
      ok ← (if sl_search handle_cmp (i_handle i) (hc_handles t) is Some _ then mret true else alloc);
      if negb ok then mret (t, l) else
      convert_loop l' (mkSet true [] (hc_hashes t) (sl_insert handle_cmp (i_handle i) p (hc_handles t)))
  end.

(** [hc_convert_to_long] *)
Definition hc_convert_to_long : C () :=
  ok1 ← alloc;
  if negb ok1 then mret () else
  ok2 ← alloc;
  if negb ok2 then mret () else
  s ← getc;
  '(t, rest) ← convert_loop (hc_inst_ll (hc_set (st s))) (mkSet true [] [] []);
  match rest with
  | [] => mod_set (fun _ => t)
  | _ => mod_set (fun _ => mkSet false ((hc_handles t).*2 ++ rest) [] [])
  end.

(** The first instance of a list with some property. *)
Fixpoint find_inst (f : INSTANCE -> bool) (l : list nat) : C (option nat) :=
  match l with
  | [] => mret None
  | p :: l => i ← inst p; if f i then mret (Some p) else find_inst f l
  end.

(** [hc_get_instance_handle] *)
Definition hc_get_instance_handle (h : Z) : C (option nat) :=
  s ← getc;
  let t := hc_set (st s) in
  if negb (hc_skiplists t) then find_inst (fun i => i_handle i =? h) (hc_inst_ll t)
  else mret (sl_search handle_cmp ⟦h⟧16 (hc_handles t)).

(** ** Instances *)

Section Cache.
Context (cf : Conf).

(** The key is (the start of) the hash, and is not kept. *)
Definition short_key : bool :=
  negb (hc_key_size cf =? 0) && (hc_key_size cf <=? 16) && negb (hc_secure_h cf).

Definition CAN_RECOVER (i : INSTANCE) : bool :=
  (l_nchanges (i_list i) =? 0) && unregistered (i_kind i) && i_recover i.

(** The loops of [hc_recoverable]: the instance that is empty for longest. *)
Fixpoint oldest (l : list nat) (old : option nat) : C (option nat) :=
  match l with
  | [] => mret old
  | p :: l =>
      i ← inst p;
      if CAN_RECOVER i then
        b ← match old with None => mret true | Some q => j ← inst q; mret (l_time (i_list i) <? l_time (i_list j)) end;
        oldest l (if b : bool then Some p else old)
      else oldest l old
  end.

(** [hc_recoverable] *)
Definition hc_recoverable : C (option nat) :=
  if hc_writer cf then mret None else
  s ← getc;
  let t := hc_set (st s) in
  oldest (if hc_skiplists t then (hc_handles t).*2 else hc_inst_ll t) None.

(** The result of a lookup: the instance, [*handle] and [*cause]. *)
Definition Found : Type := option nat * Z * option RejectCause_t.

(** [hc_check_limits] *)
Definition hc_check_limits (ip : nat) (ooo : Z) : C Found :=
  i ← inst ip; s ← getc;
  if hc_max_depth cf <=? i_ndata i then mret (None, 0, Some RC_SamplesPerInstanceLimit)
  else if hc_max_samples cf <=? ⟦hc_ndata (st s) + ooo⟧32 then mret (None, 0, Some RC_SamplesLimit)
  else mret (Some ip, i_handle i, Some RC_Accepted).

Definition adds (add : LookupMode) : bool := match add with LH_LOOKUP => false | _ => true end.

(** [HC_CHECK] *)
Definition HC_CHECK (p : nat) (add : LookupMode) (ooo : Z) (cause : bool) : C Found :=
  if cause && adds add && hc_must_ack cf then hc_check_limits p ooo
  else i ← inst p; mret (Some p, i_handle i, None).

(** ** Removal of instances *)

(** The monitor drops its references to a sample that is removed. *)
Definition mon_remove (cp : nat) : C () :=
  emit (EvRemove cp);;
  c ← change cp;
  put_change cp (set_c_taken 0 (set_c_wack 0 c));;
  change_release (c_taken c) cp.

(** The notification of the monitor that an unacknowledged sample goes. *)
Definition forget_acks (cp : nat) (wack : Z) : C () :=
  modc (fun s => set_hc_unacked ⟦hc_unacked s - wack⟧32 s);;
  s ← getc;
  whenc (hc_monitor s) (mon_remove cp).

Definition sub_ndata : C () := modst (fun s => set_hc_ndata ⟦hc_ndata s - 1⟧32 s).
Definition add_ndata : C () := modst (fun s => set_hc_ndata ⟦hc_ndata s + 1⟧32 s).
Definition sub_i_ndata (ip : nat) : C () := upd_inst ip (fun i => set_i_ndata ⟦i_ndata i - 1⟧32 i).
Definition add_i_ndata (ip : nat) : C () := upd_inst ip (fun i => set_i_ndata ⟦i_ndata i + 1⟧32 i).
Definition uncache (rp : nat) : C () := r ← ref rp; upd_change (r_change r) (set_c_cached false).

(** One round of the loop of [hc_free_instance] over the samples. *)
Definition free_sample (p : nat) : C () :=
  irp ← first_ref (INST p);
  r ← ref irp;
  c ← change (r_change r);
  whenc (c_kind c =? ALIVE) (sub_i_ndata p;; sub_ndata);;
  list_remove (INST p) irp;;
  upd_inst p (fun i => let l := i_list i in set_i_list (mkList (l_refs l) (l_time l) ⟦l_nchanges l - 1⟧16) i);;
  whenc (negb (c_wack c =? 0)) (forget_acks (r_change r) (c_wack c));;
  crp ← the (r_mirror r);
  ccref_delete irp;;
  ccref_remove_ref HIST crp;;
  uncache crp;;
  ccref_delete crp.

Fixpoint free_samples (fuel : nat) (p : nat) : C () :=
  i ← inst p;
  if l_nchanges (i_list i) =? 0 then mret ()
  else match fuel with O => hang | S fuel => free_sample p;; free_samples fuel p end.

(** The instance of a chain with some handle. *)
Definition chain_find (h : Z) (chain : list nat) : C (option nat) := find_inst (fun i => i_handle i =? h) chain.

(** The first part of [hc_free_instance]: the instance leaves its lists. *)
Definition unlink_instance (h : Z) : C (option nat) :=
  s ← getc;
  let t := hc_set (st s) in
  if negb (hc_skiplists t) then
    p ← find_inst (fun i => i_handle i =? h) (hc_inst_ll t);
    match p with
    | None => mret None
    | Some p => mod_set (fun t => mkSet false (filter (.≠ p) (hc_inst_ll t)) [] []);; mret (Some p)
    end
  else
    match sl_search handle_cmp ⟦h⟧16 (hc_handles t) with
    | None => mret None
    | Some p =>
        mod_set (fun t => mkSet true [] (hc_hashes t) (sl_delete handle_cmp ⟦h⟧16 (hc_handles t)));;
        i ← inst p;
        match sl_search hash_cmp (i_hash i) (hc_hashes t) with
        | None => mret (Some p)
        | Some chain =>
            if short_key || bool_decide (last chain = Some p) then
              mod_set (fun t => mkSet true [] (sl_delete hash_cmp (i_hash i) (hc_hashes t)) (hc_handles t));; mret (Some p)
            else
              q ← chain_find h chain;
              match q with
              | None => mret None
              | Some q =>
                  mod_set (fun t => mkSet true [] (sl_insert hash_cmp (i_hash i) (filter (.≠ q) chain) (hc_hashes t)) (hc_handles t));;
                  mret (Some q)
              end
        end
    end.

(** [hc_free_instance] *)
Definition hc_free_instance (h : Z) : C () :=
  p ← unlink_instance h;
  match p with
  | None => mret ()
  | Some p =>
      modst (fun s => set_hc_ninstances ⟦hc_ninstances s - 1⟧32 s);;
      i ← inst p;
      whenc (i_inform i) (emit (EvFlush p));;
      foldr (fun n m => emit (EvFiltered n);; m) (upd_inst p (set_i_tbf [])) (i_tbf i);;
      free_samples (S (length (l_refs (i_list i)))) p;;
      modst (fun s => set_insts (delete p (insts s)) s);;
      s ← getc;
      whenc (hc_skiplists (hc_set (st s)) && (hc_ninstances (st s) <=? MIN_INST_LLIST) && (hc_sl_walk s =? 0)) hc_convert_to_short
  end.

(** [hc_inst_free] *)
Definition hc_inst_free (h : Z) : C () := hc_free_instance h.

(** ** Lookup and addition of instances *)

(** The key of an instance, as it is compared in the short format. *)
Definition key_of (i : INSTANCE) : list Z :=
  match i_key i with Some k => k | None => take (Z.to_nat (hc_key_size cf)) (i_hash i) end.

(** The next handle that is not used, as long as none was ever reused. *)
Fixpoint new_handle (fuel : nat) : C Z :=
  match fuel with
  | O => hang
  | S fuel =>
      modc (fun s => if MAX_INST_HANDLE <=? hc_last_handle s then set_hc_recycle true (set_hc_last_handle 1 s)
                     else set_hc_last_handle ⟦hc_last_handle s + 1⟧16 s);;
      s ← getc;
      p ← (if hc_recycle s then hc_get_instance_handle (hc_last_handle s) else mret None);
      match p with None => mret (hc_last_handle s) | Some _ => new_handle fuel end
  end.

Definition HANDLE_FUEL : nat := N.to_nat 65536.

(** The chain of a hash, whose node must exist. *)
Definition get_chain (hash : list Z) : C (list nat) :=
  s ← getc; the (sl_search hash_cmp hash (hc_hashes (hc_set (st s)))).
Definition put_chain (hash : list Z) (chain : list nat) : C () :=
  mod_set (fun t => mkSet true [] (sl_insert hash_cmp hash chain (hc_hashes t)) (hc_handles t)).
Definition drop_chain (hash : list Z) : C () :=
  mod_set (fun t => mkSet true [] (sl_delete hash_cmp hash (hc_hashes t)) (hc_handles t)).

Definition new_instance (h : Z) (hash : list Z) (key : option (list Z)) : INSTANCE :=
  mkInst (mkList [] 0 0) h hash key 0 [] None 0 NOT_ALIVE_UNREGISTERED NEW false false false false false 0 0 [].

Definition not_accepted (cause : option RejectCause_t) : C Found := mret (None, 0, cause).

(** A new instance joins the lists, if there is memory for their nodes. *)
Definition link_instance (hash : list Z) (h : Z) (p : nat) : C bool :=
  s ← getc;
  if hc_skiplists (hc_set (st s)) then
    chain ← get_chain hash;
    put_chain hash (p :: chain);;
    ok ← (if sl_search handle_cmp h (hc_handles (hc_set (st s))) is Some _ then mret true else alloc);
    if (ok : bool) then
      mod_set (fun t => mkSet true [] (hc_hashes t) (sl_insert handle_cmp h p (hc_handles t)));; mret true
    else
      (match chain with [] => drop_chain hash | _ => put_chain hash chain end);; mret false
  else mod_set (fun t => mkSet false (hc_inst_ll t ++ [p]) [] []);; mret true.

(** The last part of [hc_get_instance_key]: a new instance is made, in place
    of [r_ip] if there is no room for another one. *)
Definition create_instance (hash : list Z) (key : option (list Z)) (linked : bool) (r_ip : option nat) (add : LookupMode) (handle : Z) : C Found :=
  match r_ip with Some r => i ← inst r; hc_inst_free (i_handle i) | None => mret () end;;
  ok ← alloc;
  if negb ok then
    empty ← (if linked then chain ← get_chain hash; mret (bool_decide (chain = [])) else mret false);
    whenc empty (drop_chain hash);;
    mret (None, handle, None)
  else
    h ← match add with LH_ADD_SET_H h => mret h | _ => new_handle HANDLE_FUEL end;
    key_ok ← (if short_key then mret true else match key with Some _ => alloc | None => fault end);
    if negb key_ok then not_accepted None else
    p ← new_addr;
    put_inst p (new_instance h hash (if short_key then None else key));;
    linked_ok ← link_instance hash h p;
    if negb linked_ok then
      modst (fun s => set_insts (delete p (insts s)) s);; not_accepted None
    else
      modst (fun s => set_hc_ninstances ⟦hc_ninstances s + 1⟧32 s);;
      mret (Some p, h, None).

(** No room: for instances, or for samples when the caller asks. *)
Definition no_instances (add : LookupMode) : C (bool * option nat) :=
  s ← getc;
  if negb (adds add) then mret (true, None)
  else if hc_max_inst cf <=? hc_ninstances (st s) then
    r ← hc_recoverable; mret (bool_decide (r = None), r)
  else mret (false, None).
Definition no_samples (ooo : Z) (cause : bool) : C bool :=
  s ← getc; mret (cause && (hc_max_samples cf <=? ⟦l_nchanges (hc_changes (st s)) + ooo⟧32)).

(** The part of [hc_get_instance_key] that works on skiplists. *)
Definition key_in_skiplists (hash : list Z) (key : option (list Z)) (r_ip0 : option nat)
    (handle : Z) (add : LookupMode) (ooo : Z) (cause : bool) : C Found :=
  s ← getc;
  '(full, r_ip) ← no_instances add;
  let r_ip := if adds add && (hc_max_inst cf <=? hc_ninstances (st s)) then r_ip else r_ip0 in
  crowded ← (if (full : bool) then mret true else no_samples ooo cause);
  let node := sl_search hash_cmp hash (hc_hashes (hc_set (st s))) in
  '(chain, is_new, failed) ← match node with
    | Some chain => mret (chain, false, None)
    | None =>
        if (crowded : bool) then
          if negb (adds add) then mret ([], false, Some None)
          else if hc_max_inst cf <=? hc_ninstances (st s) then mret ([], false, Some (Some RC_InstanceLimit))
          else mret ([], false, Some (Some RC_SamplesLimit))
        else ok ← alloc;
             if (ok : bool) then put_chain hash [];; mret ([], true, None) else mret ([], false, Some (Some RC_InstanceLimit))
    end;
  match failed with
  | Some c => not_accepted (if cause then c else None)
  | None =>
      if negb (adds add) || negb is_new then
        if short_key then p ← the (head chain); HC_CHECK p add ooo cause
        else
          q ← find_inst (fun i => bool_decide (i_key i = key)) chain;
          match q with
          | Some _ => p ← the (head chain); HC_CHECK p add ooo cause
          | None => if negb (adds add) then not_accepted None
                    else create_instance hash key true r_ip add handle
          end
      else create_instance hash key true r_ip add handle
  end.

(** [hc_get_instance_key], with a key and possibly its hash. *)
Definition hc_get_instance_key (hp : option (list Z)) (key : option (list Z)) (handle : Z) (add : LookupMode) (ooo : Z) (cause : bool) : C Found :=
  s ← getc;
  let sp := match key with Some k => Some k | None => take (Z.to_nat (hc_key_size cf)) <$> hp end in
  sp ← the sp;
  found ← (if hc_skiplists (hc_set (st s)) then mret None
           else find_inst (fun i => bool_decide (key_of i = sp)) (hc_inst_ll (hc_set (st s))));
  match found with
  | Some p => HC_CHECK p add ooo cause
  | None =>
      '(failed, r_ip) ← (if hc_skiplists (hc_set (st s)) then mret (None, None)
        else
          '(full, r_ip) ← no_instances add;
          if (full : bool) then mret (Some RC_InstanceLimit, r_ip) else
          crowded ← no_samples ooo cause;
          if (crowded : bool) then mret (Some RC_SamplesLimit, r_ip) else
          whenc (MAX_INST_LLIST <=? hc_ninstances (st s)) hc_convert_to_long;;
          mret (None, r_ip));
      match failed with
      | Some c => not_accepted (if cause then Some c else None)
      | None =>
          match (match hp with Some h => Some h | None => hash_from_key cf sp end) with
          | None => not_accepted (if cause then Some RC_InstanceLimit else None)
          | Some hash =>
              s ← getc;
              if hc_skiplists (hc_set (st s)) then key_in_skiplists hash key r_ip handle add ooo cause
              else create_instance hash key false r_ip add handle
          end
      end
  end.

(** [hc_register] *)
Definition hc_register (key : option (list Z)) : C (option nat * Z) :=
  match key with
  | None => mret (None, 0)
  | Some _ =>
      '(p, h, _) ← hc_get_instance_key None key 0 LH_ADD_NEW_H 0 false;
      match p with
      | None => mret (None, 0)
      | Some p => upd_inst p (set_i_registered true);; mret (Some p, h)
      end
  end.

(** [hc_lookup_key] *)
Definition hc_lookup_key (key : option (list Z)) : C (option nat * Z) :=
  match key with
  | None => mret (None, 0)
  | Some _ =>
      '(p, h, _) ← hc_get_instance_key None key 0 LH_LOOKUP 0 false;
      mret (p, match p with None => 0 | Some _ => h end)
  end.

(** [hc_lookup_hash] *)
Definition hc_lookup_hash (hp : option (list Z)) (key : option (list Z)) (handle : Z) (add : LookupMode) (ooo : Z) (cause : bool) : C Found :=
  match key with
  | None => mret (None, 0, None)
  | Some _ =>
      '(p, h, c) ← hc_get_instance_key hp key handle add ooo cause;
      whenc (bool_decide (p = None) && (ooo =? 0) && adds add) (modc (set_hc_blocked true));;
      mret (p, match p with None => 0 | Some _ => h end, c)
  end.

(** [hc_inst_done] *)
Definition hc_inst_done (key : option (list Z)) : C () :=
  '(p, h) ← hc_lookup_key key;
  match p with Some _ => hc_free_instance h | None => mret () end.

(** [hc_get_key]: the key of an instance, before the conversion to native
    data. *)
Definition hc_get_key (h : Z) : C (ReturnCode_t * list Z) :=
  if negb (hc_multi_inst cf) then mret (DDS_RETCODE_PRECONDITION_NOT_MET, []) else
  ip ← hc_get_instance_handle h;
  match ip with
  | None => mret (DDS_RETCODE_ALREADY_DELETED, [])
  | Some p => i ← inst p; mret (DDS_RETCODE_OK, key_of i)
  end.

(** [hc_accepts] *)
Definition hc_accepts (ooo : Z) : C bool :=
  s ← getc;
  let n := l_nchanges (hc_changes (st s)) in
  whenc ((ooo =? 0) && (n =? hc_max_samples cf)) (modc (set_hc_blocked true));;
  mret (⟦n + ooo⟧32 <? hc_max_samples cf).

End Cache.
