(* ===== verification/CacheAdd.v ===== *)
(** History caches: adding samples, with the limits on their number and the
    list of the writers of an instance, and removing them, with waiting for
    acknowledgements; unregistration and disposal of instances
    (cache/cache.c). *)

From stdpp Require Import gmap.
From S2P Require Import Prelude Seqnr Cache.
From stdpp Require Import list.

#[local] Open Scope Z_scope.

Section Add.
Context (cf : Conf).

(** ** Removing a sample *)

(** The second part of [hc_remove_i]: the sample leaves the lists, if it is
    still there. *)
Definition remove_change (ip : option nat) (cp : nat) : C () :=
  found ← match ip with
    | Some p =>
        irp ← ccref_remove_change (INST p) cp;
        match irp with
        | None => mret None
        | Some irp =>
            c ← change cp;
            if c_nrefs c <? 2 then fault else
            r ← ref irp;
            crp ← the (r_mirror r);
            ccref_delete irp;;
            ccref_remove_ref HIST crp;;
            c ← change cp;
            whenc (c_kind c =? ALIVE) (sub_i_ndata p;; sub_ndata);;
            mret (Some crp)
        end
    | None =>
        crp ← ccref_remove_change HIST cp;
        match crp with
        | None => mret None
        | Some crp =>
            c ← change cp;
            whenc (c_kind c =? ALIVE) sub_ndata;;
            if c_nrefs c <? 1 then fault else mret (Some crp)
        end
    end;
  match found with
  | None => mret ()
  | Some crp => uncache crp;; ccref_delete crp
  end.

(** [hc_remove_i]; [wait] is [hc_wait_acked]. *)
Definition remove_i (wait : option nat -> nat -> C bool) (ip : option nat) (cp : nat) (rel : bool) : C ReturnCode_t :=
  c ← change cp;
  failed ← (if hc_must_ack cf then
      if negb (c_wack c =? 0) then
        timeout ← wait ip cp; mret (if timeout : bool then Some DDS_RETCODE_TIMEOUT else None)
      else if negb (hc_writer cf) && rel then modc (set_hc_blocked true);; mret (Some DDS_RETCODE_NO_DATA)
      else mret None
    else
      whenc (negb (c_wack c =? 0)) (forget_acks cp (c_wack c));; mret None);
  match failed with
  | Some e => mret e
  | None => remove_change ip cp;; mret DDS_RETCODE_OK
  end.

(** ** Acknowledgements *)

(** The sample of a list with some sequence number. *)
Fixpoint find_seqnr (n : SequenceNumber_t) (l : list nat) : C (option nat) :=
  match l with
  | [] => mret None
  | rp :: l =>
      r ← ref rp; c ← change (r_change r);
      if SEQNR_EQ n (c_seqnr c) then mret (Some (r_change r)) else find_seqnr n l
  end.

Definition acked_change (lp : LIST) (n : SequenceNumber_t) : C (option nat) :=
  l ← get_list lp;
  if l_nchanges l =? 0 then mret None else
  f ← first_change lp; cf' ← change f;
  if l_nchanges l =? 1 then mret (if SEQNR_EQ n (c_seqnr cf') then Some f else None)
  else
    q ← last_ref lp; cl ← ref_change q;
    if SEQNR_LT n (c_seqnr cf') || SEQNR_GT n (c_seqnr cl) then mret None
    else find_seqnr n (l_refs l).

(** Nobody waits for a sample that has no acknowledgement outstanding. *)
Definition no_wait (ip : option nat) (cp : nat) : C bool := fault.

(** [hc_acknowledged]; the threads that are signalled are an event. *)
Definition hc_acknowledged (ip : option nat) (n : SequenceNumber_t) : C () :=
  match (if hc_multi_inst cf then INST <$> ip else Some HIST) with
  | None => mret ()
  | Some lp =>
      let ip := if hc_multi_inst cf then ip else None in
      cp ← acked_change lp n;
      match cp with
      | None => mret ()
      | Some cp =>
          modc (fun s => set_hc_unacked ⟦hc_unacked s - 1⟧32 s);;
          c ← change cp;
          let wack := wrap 11 (c_wack c - 1) in
          put_change cp (set_c_wack wack c);;
          if negb (wack =? 0) then mret () else
          l ← get_list lp;
          (if negb (hc_durability cf) || (unregistered (c_kind c) && (l_nchanges l =? 1))
           then _ ← remove_i no_wait ip cp false; mret () else mret ());;
          match ip with
          | Some p =>
              i ← inst p;
              whenc (unregistered (i_kind i) && (l_nchanges (i_list i) =? 0) && negb (i_registered i) && negb (i_wait i))
                (hc_free_instance cf (i_handle i))
          | None => mret ()
          end;;
          whenc (c_urgent c) (emit EvSignal);;
          s ← getc;
          whenc ((hc_unacked s =? 0) && hc_blocked s) (emit EvSignal)
      end
  end.

Fixpoint acknowledge_all (l : list (option nat * SequenceNumber_t)) : C () :=
  match l with
  | [] => mret ()
  | (ip, n) :: l => hc_acknowledged ip n;; acknowledge_all l
  end.

(** [hc_wait_acked], with [hc_wait_add] and [hc_wait_free] for one thread that
    waits: meanwhile acknowledgements arrive, and the sample may be gone
    afterwards. *)
Definition hc_wait_acked (ip : option nat) (cp : nat) : C bool :=
  s ← getc;
  whenc (hc_monitor s) (emit (EvUrgent cp));;
  if in_listener cf then mret false else
  busy ← match ip with Some p => i ← inst p; mret (i_wait i) | None => mret false end;
  if (busy : bool) then mret true else
  ok ← alloc;
  if negb ok then mret false else
  match ip with Some p => upd_inst p (set_i_wait true) | None => mret () end;;
  upd_change cp (set_c_urgent true);;
  '(acks, timeout) ← next_wait;
  acknowledge_all acks;;
  match ip with Some p => upd_inst p (set_i_wait false) | None => mret () end;;
  s ← getc;
  match chgs (st s) !! cp with
  | Some c => if c_cached c then put_change cp (set_c_urgent false c) else modc (set_hc_blocked false)
  | None => modc (set_hc_blocked false)
  end;;
  mret timeout.

(** [hc_remove_i] *)
Definition hc_remove_i : option nat -> nat -> bool -> C ReturnCode_t := remove_i hc_wait_acked.

(** ** The writers of an instance *)

(** The loop of [hc_lookup_handle]: [lp], [hp] are positions. *)
Fixpoint lookup_loop (fuel : nat) (writers : list Z) (w lp hp : Z) : option Z :=
  if lp <=? hp then
    match fuel with
    | O => None
    | S fuel =>
        let mp := lp + Z.shiftr (hp - lp) 1 in
        x ← zget writers mp;
        if w <? x then lookup_loop fuel writers w lp (mp - 1)
        else if x <? w then lookup_loop fuel writers w (mp + 1) hp
        else Some mp
    end
  else Some (- lp - 1).

(** [hc_lookup_handle] *)
Definition hc_lookup_handle (writers : list Z) (w : Z) : option Z :=
  lookup_loop (S (length writers)) writers w 0 ⟦zlen writers - 1⟧32.

(** [memmove] and store at a position. *)
Definition insert_at (k : Z) (x : Z) (l : list Z) : list Z := ztake k l ++ x :: zdrop k l.
Definition remove_at (k : Z) (l : list Z) : list Z := ztake k l ++ zdrop (k + 1) l.

(** [hc_add_writer_handle] *)
Definition hc_add_writer_handle (ip : nat) (writer index : Z) : C ReturnCode_t :=
  i ← inst ip;
  let n := i_nwriters i in
  let add := upd_inst ip (fun i => set_i_writers (insert_at index writer (i_writers i)) i);; mret DDS_RETCODE_OK in
  if n <? DNWRITERS then add
  else if n =? DNWRITERS then
    ok ← alloc;
    if (ok : bool) then upd_inst ip (set_i_wblock (Some NWRITERS_INC));; add else mret DDS_RETCODE_OUT_OF_RESOURCES
  else
    max ← the (i_wblock i);
    if n =? max then
      ok ← alloc;
      if (ok : bool) then upd_inst ip (set_i_wblock (Some (max + NWRITERS_INC)));; add else mret DDS_RETCODE_OUT_OF_RESOURCES
    else add.

(** [hc_rem_writer_handle] *)
Definition hc_rem_writer_handle (ip : nat) (index : Z) : C () :=
  upd_inst ip (fun i =>
    let l := remove_at index (i_writers i) in
    set_i_wblock (if zlen l =? DNWRITERS then None else i_wblock i) (set_i_writers l i)).

(** [writer_strength]: the strength, a signed number, as an unsigned one. *)
Definition writer_strength (h : Z) : Z :=
  match entity_ptr cf h with
  | Some e => if en_writer e then ⟦en_strength e⟧32 else 0
  | None => 0
  end.

(** [cmp_writer_guid]: of two local writers only the entity ids; the second
    entity is not checked to be a writer. *)
Definition cmp_writer_guid (h1 h2 : Z) : Z :=
  match entity_ptr cf h1, entity_ptr cf h2 with
  | Some p1, Some p2 =>
      if negb (en_writer p1) then -1
      else if en_local p1 && en_local p2 then ⟪en_eid p1 - en_eid p2⟫32
      else let r := memcmp (en_prefix p1) (en_prefix p2) in
           if r =? 0 then ⟪en_eid p1 - en_eid p2⟫32 else r
  | _, _ => -1
  end.

(** The loop of [hc_update_owner]. *)
Fixpoint best_writer (l : list Z) (high_w high_s : Z) : Z :=
  match l with
  | [] => high_w
  | h :: l =>
      let i_s := writer_strength h in
      if (high_w =? 0) || (high_s <? i_s) then best_writer l h i_s
      else if (i_s =? high_s) && (0 <? cmp_writer_guid high_w h) then best_writer l h high_s
      else best_writer l high_w high_s
  end.

(** [hc_update_owner] *)
Definition hc_update_owner (ip : nat) : C () := upd_inst ip (fun i => set_i_owner (best_writer (i_writers i) 0 0) i).

(** [hc_rem_writer_gone] *)
Definition hc_rem_writer_gone (ip : nat) (writer : Z) : C bool :=
  i ← inst ip;
  k ← the (hc_lookup_handle (i_writers i) writer);
  if k <? 0 then mret false else hc_rem_writer_handle ip k;; mret true.

(** ** Adding a sample *)

(** [hc_in_dest] *)
Definition hc_in_dest (h : Z) (c : Change_t) : bool := bool_decide (h ∈ c_dests c).

(** The samples that the local readers of a writer get; each is a copy, and
    counts as one more acknowledgement when its reader is full. *)
Fixpoint transfer (cp : nat) (l : list CacheRef) : C () :=
  match l with
  | [] => mret ()
  | xp :: l =>
      c ← change cp;
      whenc ((nth 0 (c_dests c) 0 =? 0) || hc_in_dest (cr_handle xp) c)
        (if match cr_filter xp with None => true | Some f => f c end then
           emit (EvTransfer (cr_handle xp) cp);;
           full ← is_full;
           whenc full (upd_change cp (fun c => set_c_wack (wrap 11 (c_wack c + 1)) c))
         else mret ());;
      transfer cp l
  end.

(** What the monitor is told about a new sample, whether it is urgent, and the
    references that its proxies take. *)
Definition urgent (ip : option INSTANCE) (c : Change_t) (s : HistoryCache_t) : bool :=
  (hc_must_ack cf &&
    (match ip with
     | Some i => negb (hc_max_depth cf =? MAX_LIST_CHANGES) && (Z.shiftr (hc_max_depth cf) 1 <=? i_ndata i)
     | None => false
     end
     || negb (hc_max_samples cf =? MAX_LIST_CHANGES) && (Z.shiftr (hc_max_samples cf) 1 <=? hc_ndata (st s))))
  || (c_kind c =? ZOMBIE) && (12 <? hc_unacked s).

Definition mon_new (ip : option nat) (cp : nat) : C () :=
  c ← change cp; s ← getc;
  i ← match ip with Some p => i ← inst p; mret (Some i) | None => mret None end;
  emit (EvNew cp ip (urgent i c s));;
  l ← proxies;
  let n := zlen l in
  upd_change cp (fun c => set_c_urgent false (set_c_taken (c_taken c + n)
    (set_c_wack (wrap 11 (c_wack c + zlen (filter (fun b => b = true) l))) (set_c_nrefs (wrap 11 (c_nrefs c + n)) c))));;
  c ← change cp;
  modc (fun s => set_hc_unacked ⟦hc_unacked s + c_wack c⟧32 s).

(** [hc_writer_lifespan] *)
Definition hc_writer_lifespan (wh : Z) : bool :=
  match entity_ptr cf wh with Some e => bool_decide (is_Some (en_lifespan e)) | None => false end.

(** The first part of [hc_add_i]: the two references. *)
Definition link_change (ip : option nat) (cp : nat) : C bool :=
  crp ← ccref_add HIST cp (hc_src_time cf);
  match crp with
  | None => mret false
  | Some crp =>
      ok ← match ip with
        | Some p =>
            irp ← ccref_add (INST p) cp (hc_src_time cf);
            match irp with
            | None => ccref_remove_ref HIST crp;; ccref_delete crp;; mret false
            | Some irp =>
                put_ref crp (mkRef (Some irp) cp);;
                put_ref irp (mkRef (Some crp) cp);;
                c ← change cp;
                whenc (c_kind c =? ALIVE) (add_i_ndata p;; add_ndata);; mret true
            end
        | None => c ← change cp; whenc (c_kind c =? ALIVE) add_ndata;; mret true
        end;
      whenc ok (upd_change cp (fun c => set_c_nrefs (wrap 11 (c_nrefs c - 1)) (set_c_cached true c)));;
      mret ok
  end.

(** [hc_add_i] *)
Definition hc_add_i (ip : option nat) (cp : nat) : C ReturnCode_t :=
  ok ← link_change ip cp;
  if negb ok then mret DDS_RETCODE_OUT_OF_RESOURCES else
  s ← getc;
  (if hc_monitor s then mon_new ip cp else whenc (hc_notify s) (emit EvNotify));;
  transfer cp (hc_readers cf);;
  c ← change cp;
  if hc_writer cf && negb (hc_durability cf) && (c_wack c =? 0) then
    _ ← hc_remove_i ip cp false;
    match ip with
    | Some p =>
        i ← inst p;
        whenc (unregistered (i_kind i) && (l_nchanges (i_list i) =? 0)) (hc_free_instance cf (i_handle i))
    | None => mret ()
    end;;
    mret DDS_RETCODE_OK
  else
    s ← getc;
    whenc ((c_kind c =? ALIVE) && hc_lifespan cf && hc_lsc_idle s && (hc_writer cf || hc_writer_lifespan (c_writer c)))
      (emit EvLifespan;; modc (set_hc_lsc_idle false));;
    mret DDS_RETCODE_OK.

(** The writers of an instance of a reader, when a sample arrives: [None] when
    the sample is not to be added. *)
Definition new_writer (ip : nat) (w : Z) : C bool :=
  i ← inst ip;
  match i_writers i with
  | [] => upd_inst ip (fun i => set_i_owner (if hc_exclusive cf then w else 0) (set_i_writers [w] i));; mret false
  | [w0] =>
      if w0 =? w then mret false
      else _ ← hc_add_writer_handle ip w (if w0 <? w then 1 else 0); mret true
  | ws =>
      order ← the (hc_lookup_handle ws w);
      if order <? 0 then _ ← hc_add_writer_handle ip w (- order - 1); mret true else mret false
  end.

Definition drop_writer (ip : nat) (w : Z) : C () :=
  i ← inst ip;
  if match i_writers i with [] => true | [w0] => w0 =? w | _ => false end
  then upd_inst ip (fun i => set_i_owner 0 (set_i_writers [] i))
  else
    gone ← hc_rem_writer_gone ip w;
    whenc (gone && hc_exclusive cf && (w =? i_owner i)) (hc_update_owner ip).

(** The part of [hc_add] for readers with instances; whether to go on. *)
Definition check_writers (ip : nat) (cp : nat) : C bool :=
  c ← change cp;
  '(go_on, is_new) ← (if unregistered (c_kind c) then
      drop_writer ip (c_writer c);;
      i ← inst ip;
      if i_nwriters i =? 0 then mret (true, false)
      else if c_kind c =? NOT_ALIVE_UNREGISTERED then mret (false, false)
      else put_change cp (set_c_kind (Z.land (c_kind c) 1) c);; mret (true, false)
    else n ← new_writer ip (c_writer c); mret (true, n));
  if negb go_on then mret false
  else if hc_exclusive cf then
    whenc is_new (hc_update_owner ip);;
    i ← inst ip;
    mret ((i_owner i =? 0) || (c_writer c =? i_owner i))
  else mret true.

(** A loop that removes the first sample of a list until there is room. *)
Fixpoint make_room (fuel : nat) (ip : option nat) (lp : LIST) (rel : bool) (full : C bool) : C ReturnCode_t :=
  cp ← first_change lp;
  e ← hc_remove_i ip cp rel;
  again ← (if decide (e = DDS_RETCODE_OK) then full else mret false);
  if (again : bool) then match fuel with O => hang | S fuel => make_room fuel ip lp rel full end else mret e.

Definition reject (e : ReturnCode_t) (limit : Z) : C () :=
  whenc (negb (bool_decide (e = DDS_RETCODE_OK)) && negb (hc_writer cf)) (emit (EvRejected limit)).

Definition instance_full (ip : nat) : C bool := i ← inst ip; mret (hc_max_depth cf <=? i_ndata i).
Definition depth_full : C bool := s ← getc; mret (hc_max_depth cf <=? hc_ndata (st s)).
Definition samples_full : C bool := s ← getc; mret (hc_max_samples cf <=? l_nchanges (hc_changes (st s))).

Definition set_disp_cnt (ip : option nat) (n : Z) : C () :=
  match ip with Some p => upd_inst p (set_i_disp_cnt n) | None => modc (set_hc_disp_cnt n) end.
Definition set_no_w_cnt (ip : option nat) (n : Z) : C () :=
  match ip with Some p => upd_inst p (set_i_no_w_cnt n) | None => modc (set_hc_no_w_cnt n) end.
Definition gen_counts (ip : option nat) : C (Z * Z) :=
  match ip with
  | Some p => i ← inst p; mret (i_disp_cnt i, i_no_w_cnt i)
  | None => s ← getc; mret (hc_disp_cnt s, hc_no_w_cnt s)
  end.
Definition set_view (ip : option nat) (v : Z) : C () :=
  match ip with Some p => upd_inst p (set_i_view v) | None => modc (set_hc_view v) end.

(** The last part of [hc_add]: numbers, counts and the new state. *)
Definition stamp (ip : option nat) (cp : nat) (kind : Z) : C () :=
  c ← change cp;
  whenc (hc_liveliness cf) (emit (EvAlive (c_writer c)));;
  (if hc_writer cf then
     modc (fun s => set_hc_last_seqnr (SEQNR_INC (hc_last_seqnr s)) s);;
     s ← getc;
     let n := hc_last_seqnr s in
     upd_change cp (fun c => set_c_u (⟦high n⟧32, low n, snd (c_u c)) c)
   else
     '(d, n) ← gen_counts ip;
     upd_change cp (fun c => set_c_sstate NOT_READ (set_c_u (d, n, snd (c_u c)) c)));;
  if c_kind c =? kind then mret () else
  '(d, n) ← gen_counts ip;
  (if disposed kind then
     whenc (c_kind c =? ALIVE) (set_disp_cnt ip ⟦d + 1⟧32;; set_view ip NEW);;
     s ← getc; whenc (hc_apd_idle s) (emit EvAutopurgeDisp)
   else whenc (unregistered kind)
     (whenc (c_kind c =? ALIVE)
        (set_no_w_cnt ip ⟦n + 1⟧32;; set_view ip NEW;;
         match ip with Some p => upd_inst p (set_i_recover false) | None => mret () end);;
      s ← getc; whenc (hc_apw_idle s) (emit EvAutopurgeNW)));;
  match ip with
  | Some p => upd_inst p (fun i => set_i_registered (i_registered i && negb (unregistered (c_kind c))) (set_i_kind (c_kind c) i))
  | None => modc (set_hc_kind (c_kind c))
  end.

(** The limit on the samples of the cache, and what is left of [hc_add]. *)
Definition add_checked (fuel : nat) (ip : option nat) (cp : nat) (kind : Z) (rel : bool) : C ReturnCode_t :=
  c ← change cp; s ← getc;
  e ← (if hc_ref_type cf && (hc_max_samples cf <=? l_nchanges (hc_changes (st s)))
          || (c_kind c =? ALIVE) && (hc_max_samples cf <=? hc_ndata (st s))
       then e ← make_room fuel ip HIST rel samples_full; reject e 2;; mret e
       else mret DDS_RETCODE_OK);
  if decide (e = DDS_RETCODE_OK) then stamp ip cp kind;; hc_add_i ip cp else mret e.

(** [hc_add] for a cache with instances. *)
Definition hc_add_multi (fuel : nat) (p : nat) (cp : nat) (kind : Z) (rel : bool) : C ReturnCode_t :=
  i ← inst p; s ← getc;
  whenc (i_deadlined i) (upd_inst p (set_i_deadlined false);; whenc (hc_dlc_idle s) (emit EvDeadline));;
  go_on ← (if hc_writer cf then mret true else check_writers p cp);
  if negb go_on then hc_change_free cp;; mret DDS_RETCODE_OK else
  c ← change cp;
  if negb (kind =? ALIVE) && negb (c_kind c =? ALIVE) && negb (hc_builtin cf) then
    upd_inst p (fun i => set_i_kind (Z.lor (i_kind i) (c_kind c)) i);;
    i ← inst p;
    whenc (unregistered (i_kind i) && (l_nchanges (i_list i) =? 0) && bool_decide (i_tbf i = [])) (hc_free_instance cf (i_handle i));;
    hc_change_free cp;; mret DDS_RETCODE_OK
  else
    i ← inst p;
    e ← (if hc_ref_type cf && (hc_max_depth cf <=? l_nchanges (i_list i)) || (c_kind c =? ALIVE) && (hc_max_depth cf <=? i_ndata i)
         then e ← make_room fuel (Some p) (INST p) rel (instance_full p); reject e 3;; mret e
         else mret DDS_RETCODE_OK);
    if decide (e = DDS_RETCODE_OK) then add_checked fuel (Some p) cp kind rel else mret e.

(** [hc_add] for a cache without instances. *)
Definition hc_add_single (fuel : nat) (cp : nat) (kind : Z) (rel : bool) : C ReturnCode_t :=
  s ← getc;
  whenc (hc_deadlined s) (modc (set_hc_deadlined false);; whenc (hc_dlc_idle s) (emit EvDeadline));;
  c ← change cp;
  e ← (if hc_ref_type cf && (hc_max_depth cf <=? l_nchanges (hc_changes (st s))) || (c_kind c =? ALIVE) && (hc_max_depth cf <=? hc_ndata (st s))
       then e ← make_room fuel None HIST rel depth_full; reject e 3;; mret e
       else mret DDS_RETCODE_OK);
  if decide (e = DDS_RETCODE_OK) then add_checked fuel None cp kind rel else mret e.

(** [hc_add], for the instance of the sample. *)
Definition hc_add (fuel : nat) (ip : option nat) (cp : nat) (rel : bool) : C ReturnCode_t :=
  match ip with
  | Some p => i ← inst p; hc_add_multi fuel p cp (i_kind i) rel
  | None => s ← getc; hc_add_single fuel cp (hc_kind s) rel
  end.

(** [hc_add_inst] *)
Definition hc_add_inst (fuel : nat) (cp : nat) (hci : option nat) (rel : bool) : C ReturnCode_t :=
  c ← change cp;
  ip ← (if hc_multi_inst cf then match hci with Some p => mret (Some p) | None => hc_get_instance_handle (c_handle c) end
        else mret None);
  e ← (if hc_multi_inst cf && bool_decide (ip = None) then mret DDS_RETCODE_BAD_PARAMETER else hc_add fuel ip cp rel);
  whenc (negb (bool_decide (e = DDS_RETCODE_OK))) (hc_change_free cp);;
  mret e.

(** The second [hc_add_key]: the instance is given by hash and key. *)
Definition hc_add_key (fuel : nat) (cp : nat) (hp : list Z) (key : option (list Z)) : C ReturnCode_t :=
  found ← (if hc_multi_inst cf then
      c ← change cp;
      '(p, h, cause) ← hc_get_instance_key cf (Some hp) key (c_handle c) LH_ADD_NEW_H 0 true;
      upd_change cp (set_c_handle h);;
      mret (p, bool_decide (p = None))
    else mret (None, false));
  let '(ip, failed) := found in
  if (failed : bool) then emit (EvRejected 1);; hc_change_free cp;; mret DDS_RETCODE_OUT_OF_RESOURCES
  else
    e ← hc_add fuel ip cp true;
    whenc (negb (bool_decide (e = DDS_RETCODE_OK))) (hc_change_free cp);; mret e.

(** ** Unregistration and disposal *)

(** [hc_release] *)
Definition hc_release (fuel : nat) (h : Z) (hci : option nat) (k w t : Z) (dests : list Z) : C ReturnCode_t :=
  s ← getc;
  if negb (hc_durability cf) && negb (hc_monitor s) && bool_decide (hc_readers cf = []) && negb (hc_deadline cf) then
    emit (EvAlive 0);; mret DDS_RETCODE_OK
  else if 2 <? zlen dests then mret DDS_RETCODE_OUT_OF_RESOURCES
  else
    let d := nth 0 dests 0 + 2 ^ 16 * nth 1 dests 0 in
    cp ← hc_change_new (mkChg 1 0 0 false k false 0 0 0 w h t 0 0 (0, 0, d));
    match cp with
    | None => mret DDS_RETCODE_OUT_OF_RESOURCES
    | Some cp => hc_add_inst fuel cp hci false
    end.

(** [hc_unregister], [hc_dispose] *)
Definition hc_unregister (fuel : nat) (h : Z) (hci : option nat) (t : Z) (dests : list Z) : C ReturnCode_t :=
  hc_release fuel h hci (if hc_auto_disp cf then ZOMBIE else NOT_ALIVE_UNREGISTERED) 0 t dests.
Definition hc_dispose (fuel : nat) (h : Z) (hci : option nat) (t : Z) (dests : list Z) : C ReturnCode_t :=
  hc_release fuel h hci NOT_ALIVE_DISPOSED 0 t dests.

(** ** Other operations *)

(** [hc_walk_instances]: the next instance is looked up before a visit. *)
Fixpoint walk (fuel : nat) (next : nat -> C (option nat)) (visit : nat -> C bool) (p : option nat) : C () :=
  match p with
  | None => mret ()
  | Some p =>
      match fuel with
      | O => hang
      | S fuel => q ← next p; go_on ← visit p; if (go_on : bool) then walk fuel next visit q else mret ()
      end
  end.
Definition next_inst (p : nat) : C (option nat) :=
  s ← getc; let t := hc_set (st s) in
  the (succ_of p (if hc_skiplists t then (hc_handles t).*2 else hc_inst_ll t)).
Definition hc_walk_instances (visit : nat -> C bool) : C () :=
  s ← getc;
  let t := hc_set (st s) in
  if negb (hc_skiplists t) then walk (S (length (hc_inst_ll t))) next_inst visit (head (hc_inst_ll t))
  else
    if hc_sl_walk s =? 3 then fault else
    modc (fun s => set_hc_sl_walk (hc_sl_walk s + 1) s);;
    walk (S (length (hc_handles t))) next_inst visit (head (hc_handles t).*2);;
    modc (fun s => set_hc_sl_walk (hc_sl_walk s - 1) s);;
    s ← getc;
    whenc ((hc_sl_walk s =? 0) && (hc_ninstances (st s) <=? MIN_INST_LLIST)) hc_convert_to_short.

(** [inst_rem_writer] *)
Definition inst_rem_writer (fuel : nat) (w t : Z) (ip : nat) : C bool :=
  i ← inst ip;
  match i_writers i with
  | [] => mret true
  | [w0] =>
      if w0 =? w then
        _ ← hc_release fuel (i_handle i) (Some ip) NOT_ALIVE_UNREGISTERED w t [];
        s ← getc; whenc (hc_apw_idle s) (emit EvAutopurgeNW);; mret true
      else
        gone ← hc_rem_writer_gone ip w;
        whenc (gone && hc_exclusive cf && (w =? i_owner i)) (hc_update_owner ip);; mret true
  | _ =>
      gone ← hc_rem_writer_gone ip w;
      whenc (gone && hc_exclusive cf && (w =? i_owner i)) (hc_update_owner ip);; mret true
  end.

(** [hc_rem_writer_removed], without time-based filters. *)
Definition hc_rem_writer_removed (fuel : nat) (w now : Z) : C () :=
  s ← getc;
  if negb (hc_multi_inst cf) || (hc_ninstances (st s) =? 0) then mret ()
  else hc_walk_instances (inst_rem_writer fuel w now).

(** [hc_seqnr_info] *)
Definition hc_seqnr_info : C (SequenceNumber_t * SequenceNumber_t) :=
  s ← getc;
  if l_nchanges (hc_changes (st s)) =? 0 then mret (SEQNR_INC (hc_last_seqnr s), hc_last_seqnr s)
  else cp ← first_change HIST; c ← change cp; mret (c_seqnr c, hc_last_seqnr s).

(** [hc_replay]: every sample is offered to the monitor, until that has no
    memory for one. *)
Fixpoint replay_loop (l : list nat) : C () :=
  match l with
  | [] => mret ()
  | rp :: l =>
      r ← ref rp; c ← change (r_change r);
      ip ← (if hc_multi_inst cf then hc_get_instance_handle (c_handle c) else mret None);
      emit (EvNew (r_change r) ip (c_urgent c));;
      ps ← proxies;
      let n := zlen ps in
      let wack := wrap 11 (c_wack c + zlen (filter (fun b => b = true) ps)) in
      put_change (r_change r) (set_c_taken (c_taken c + n) (set_c_wack wack (set_c_nrefs (wrap 11 (c_nrefs c + n)) c)));;
      whenc (negb (wack =? c_wack c)) (modc (fun s => set_hc_unacked ⟦⟦hc_unacked s + wack⟧32 - c_wack c⟧32 s));;
      again ← alloc;
      if (again : bool) then replay_loop l else mret ()
  end.
Definition hc_replay : C () :=
  s ← getc;
  if l_nchanges (hc_changes (st s)) =? 0 then mret () else replay_loop (l_refs (hc_changes (st s))).

(** [hc_wait_acks], when it does not wait: whether everything is acknowledged. *)
Definition all_acked : C bool := s ← getc; mret (hc_unacked s =? 0).

End Add.
