(* ===== verification/CacheGet.v ===== *)
(** History caches: reading and taking samples, giving them back, and the
    periodic checks of the deadline, lifespan and reader data lifecycle
    policies (cache/cache.c). *)

From stdpp Require Import gmap.
From S2P Require Import Prelude Seqnr Cache CacheAdd.
From stdpp Require Import list.

#[local] Open Scope Z_scope.

(** ** Skip masks *)

Definition SKM_READ : Z := 1.
Definition SKM_NOT_READ : Z := 2.
Definition SKM_NEW_VIEW : Z := 4.
Definition SKM_OLD_VIEW : Z := 8.
Definition SKM_ALIVE : Z := 16.
Definition SKM_DISPOSED : Z := 32.
Definition SKM_NO_WRITERS : Z := 64.

Definition has (mask bit : Z) : bool := negb (Z.land mask bit =? 0).

Section Get.
Context (cf : Conf).

(** [ReaderGet_t]: [g_out] are the samples that were found, in [cdata] or - when
    [g_entries] gives the size of its buffer - in [ccache]. *)
Record ReaderGet := mkGet {
  g_skipmask : Z;
  g_filter : option (Change_t -> bool);
  g_entries : option Z;
  g_changes_left : Z;
  g_nwritten : Z;
  g_disp_cnt : Z;
  g_no_w_cnt : Z;
  g_view : Z;
  g_kind : Z;
  g_handle : Z;
  g_next : bool;
  g_rem : bool;
  g_out : list nat
}.

Definition got (n : Z) (entries : option Z) (cp : nat) (d : ReaderGet) : ReaderGet :=
  mkGet (g_skipmask d) (g_filter d) entries (g_changes_left d - n) (g_nwritten d + n) (g_disp_cnt d) (g_no_w_cnt d) (g_view d) (g_kind d)
    (g_handle d) (g_next d) (g_rem d) (g_out d ++ [cp]).

(** The test of [hc_get_list], by the state of the instance. *)
Definition skipped (mask kind view : Z) (c : Change_t) : bool :=
  negb (mask =? 0) &&
  ((c_sstate c =? READ) && has mask SKM_READ
   || negb (c_sstate c =? READ) && has mask SKM_NOT_READ
   || (kind =? ALIVE) && has mask SKM_ALIVE
   || disposed kind && has mask SKM_DISPOSED
   || (kind =? NOT_ALIVE_UNREGISTERED) && has mask SKM_NO_WRITERS
   || (view =? NEW) && has mask SKM_NEW_VIEW
   || negb (view =? NEW) && has mask SKM_OLD_VIEW).

Definition filtered (filter : option (Change_t -> bool)) (c : Change_t) : bool :=
  match filter with
  | None => false
  | Some f => (c_length c =? 0) || negb (f c)
  end.

(** [hc_change_remove] *)
Definition hc_change_remove (lp : LIST) (ip : option nat) (rp : nat) : C () :=
  ccref_remove_ref lp rp;;
  r ← ref rp;
  c ← change (r_change r);
  match r_mirror r with
  | Some xrp =>
      p ← match lp with
        | HIST => match ip with Some p => mret (Some p) | None => p ← hc_get_instance_handle (c_handle c); p ← the p; mret (Some p) end
        | INST _ => mret ip
        end;
      let xlp := match lp with HIST => match p with Some p => INST p | None => HIST end | INST _ => HIST end in
      match p with Some p => whenc (c_kind c =? ALIVE) (sub_i_ndata p) | None => mret () end;;
      ccref_remove_ref xlp xrp;;
      ccref_delete xrp
  | None => mret ()
  end;;
  whenc (c_kind c =? ALIVE) sub_ndata;;
  ccref_delete rp.

(** [hc_unblock]; pending transfers of local writers are an event. *)
Definition hc_unblock : C () := modc (set_hc_blocked false);; emit EvUnblock.

(** The counts and states with which the list of an instance is read. *)
Definition get_states (ip : option nat) (d : ReaderGet) : C (Z * Z * Z * Z) :=
  match ip with
  | Some p => i ← inst p; mret (i_disp_cnt i, i_no_w_cnt i, i_view i, i_kind i)
  | None => mret (g_disp_cnt d, g_no_w_cnt d, g_view d, g_kind d)
  end.

(** A sample is handed out: its states are filled in, and it gets one more
    reference; [None] when there is no memory for the result. *)
Definition hand_out (ip : option nat) (disp_cnt no_w_cnt : Z) (cp : nat) (d : ReaderGet) : C (option ReaderGet) :=
  s ← getc;
  '(v, k) ← match ip with Some p => i ← inst p; mret (i_view i, i_kind i) | None => mret (hc_view s, hc_kind s) end;
  upd_change cp (fun c => set_c_istate k (set_c_vstate v (set_c_u
    (c_disp_cnt c, c_no_w_cnt c, ⟦disp_cnt + no_w_cnt - (c_disp_cnt c + c_no_w_cnt c)⟧32) c)));;
  change_ref cp;;
  match g_entries d with
  | None => upd_change cp (set_c_sstate READ);; mret (Some (got 1 None cp d))
  | Some max =>
      if zlen (g_out d) =? max then
        ok ← alloc;
        mret (if (ok : bool) then Some (got 1 (Some (zlen (g_out d) + 1)) cp d) else None)
      else mret (Some (got 1 (Some max) cp d))
  end.

(** The loop of [hc_get_list]; the result is whether to go on. *)
Fixpoint get_loop (fuel : nat) (lp : LIST) (ip : option nat) (disp_cnt no_w_cnt view kind : Z) (refp : option nat) (d : ReaderGet)
  : C (Z * ReaderGet) :=
  match refp with
  | None => mret (g_changes_left d, d)
  | Some refp =>
      match fuel with
      | O => hang
      | S fuel =>
          if g_changes_left d =? 0 then mret (0, d) else
          next ← list_next lp refp;
          r ← ref refp;
          let cp := r_change r in
          c ← change cp;
          if skipped (g_skipmask d) kind view c || filtered (g_filter d) c
          then get_loop fuel lp ip disp_cnt no_w_cnt view kind next d
          else
            o ← hand_out ip disp_cnt no_w_cnt cp d;
            match o with
            | None => mret (0, d)
            | Some d =>
                if g_rem d then
                  hc_change_remove lp ip refp;;
                  upd_change cp (set_c_cached false);;
                  s ← getc;
                  whenc (hc_blocked s) hc_unblock;;
                  l ← get_list lp;
                  if l_nchanges l =? 0 then mret (g_changes_left d, d)
                  else get_loop fuel lp ip disp_cnt no_w_cnt view kind next d
                else get_loop fuel lp ip disp_cnt no_w_cnt view kind next d
            end
      end
  end.

(** [hc_get_list] *)
Definition hc_get_list (lp : LIST) (ip : option nat) (d : ReaderGet) : C (Z * ReaderGet) :=
  '(disp_cnt, no_w_cnt, view, kind) ← get_states ip d;
  refp ← list_head lp;
  l ← get_list lp;
  get_loop (S (length (l_refs l))) lp ip disp_cnt no_w_cnt view kind refp d.

(** [hc_get_fct] *)
Definition hc_get_fct (ip : nat) (d : ReaderGet) : C (bool * ReaderGet) :=
  i ← inst ip;
  if negb (g_skipmask d =? 0) && ((i_view i =? NEW) && has (g_skipmask d) SKM_NEW_VIEW || negb (i_view i =? NEW) && has (g_skipmask d) SKM_OLD_VIEW)
     || negb (g_handle d =? 0) && (negb (g_next d) && negb (i_handle i =? g_handle d) || g_next d && (i_handle i <=? g_handle d))
  then mret (true, d)
  else
    '(cont, d) ← (if l_nchanges (i_list i) =? 0 then mret (1, d) else hc_get_list (INST ip) (Some ip) d);
    upd_inst ip (set_i_view NOT_NEW);;
    mret (if g_next d && negb (g_nwritten d =? 0) then false
          else if negb (g_handle d =? 0) && negb (g_next d) then false
          else negb (cont =? 0), d).

(** [hc_walk_instances] with data that is passed from visit to visit. *)
Fixpoint walk_with {D} (fuel : nat) (visit : nat -> D -> C (bool * D)) (p : option nat) (d : D) : C D :=
  match p with
  | None => mret d
  | Some p =>
      match fuel with
      | O => hang
      | S fuel => q ← next_inst p; '(go_on, d) ← visit p d; if (go_on : bool) then walk_with fuel visit q d else mret d
      end
  end.
Definition walk_instances {D} (visit : nat -> D -> C (bool * D)) (d : D) : C D :=
  s ← getc;
  let t := hc_set (st s) in
  if negb (hc_skiplists t) then walk_with (S (length (hc_inst_ll t))) visit (head (hc_inst_ll t)) d
  else
    if hc_sl_walk s =? 3 then fault else
    modc (fun s => set_hc_sl_walk (hc_sl_walk s + 1) s);;
    d ← walk_with (S (length (hc_handles t))) visit (head (hc_handles t).*2) d;
    modc (fun s => set_hc_sl_walk (hc_sl_walk s - 1) s);;
    s ← getc;
    whenc ((hc_sl_walk s =? 0) && (hc_ninstances (st s) <=? MIN_INST_LLIST)) hc_convert_to_short;;
    mret d.

Definition get_all (d : ReaderGet) : C ReaderGet :=
  s ← getc;
  if hc_multi_inst cf && (hc_inst_order cf || negb (g_handle d =? 0)) then
    if negb (g_handle d =? 0) && negb (g_next d) && hc_skiplists (hc_set (st s)) then
      ip ← hc_get_instance_handle (g_handle d);
      match ip with
      | Some p => '(_, d) ← hc_get_list (INST p) (Some p) d; mret d
      | None => mret d
      end
    else walk_instances hc_get_fct d
  else if l_nchanges (hc_changes (st s)) =? 0 then mret d
  else '(_, d) ← hc_get_list HIST None d; mret d.

(** [hc_get], without the order expression, and [hc_get_data]: the samples,
    whose number is the new [*nchanges]. *)
Definition start_get (entries : option Z) (nchanges skipmask : Z) (fp : option (Change_t -> bool)) (h : Z) (next rem : bool) : C ReaderGet :=
  s ← getc;
  mret (mkGet skipmask fp entries nchanges 0 (hc_disp_cnt s) (hc_no_w_cnt s) (hc_view s) (hc_kind s) h next rem []).
Definition hc_get (maximum nchanges skipmask : Z) (fp : option (Change_t -> bool)) (h : Z) (next rem : bool) : C (list nat) :=
  d ← start_get (Some maximum) nchanges skipmask fp h next rem;
  d ← get_all d; mret (g_out d).
Definition hc_get_data (nchanges skipmask : Z) (h : Z) (next rem : bool) : C (list nat) :=
  d ← start_get None nchanges skipmask None h next rem;
  d ← get_all d; mret (g_out d).

(** [hc_done] for one sample. *)
Definition done_change (cp : nat) : C () :=
  c ← change cp;
  (if c_cached c then put_change cp (set_c_sstate READ c)
   else if hc_multi_inst cf && unregistered (c_kind c) then
     ip ← hc_get_instance_handle (c_handle c);
     match ip with
     | Some p =>
         i ← inst p;
         if (l_nchanges (i_list i) =? 0) && (l_time (i_list i) =? c_time c) && negb (i_registered i) then
           whenc (hc_builtin cf) (emit (EvHandleDone (c_handle c)));;
           if hc_max_inst cf <? MAX_INST_HANDLE then put_inst p (set_i_recover true i) else hc_free_instance cf (i_handle i)
         else mret ()
     | None => mret ()
     end
   else mret ());;
  hc_change_free cp.

(** [hc_done] *)
Fixpoint hc_done (changes : list nat) : C () :=
  match changes with [] => mret () | cp :: l => done_change cp;; hc_done l end.

(** ** Availability *)

(** The test of [hc_check_list], by the state of the sample. *)
Definition check_skipped (mask view : Z) (c : Change_t) : bool :=
  negb (mask =? 0) &&
  ((c_sstate c =? READ) && has mask SKM_READ
   || negb (c_sstate c =? READ) && has mask SKM_NOT_READ
   || (c_kind c =? ALIVE) && has mask SKM_ALIVE
   || disposed (c_kind c) && has mask SKM_DISPOSED
   || unregistered (c_kind c) && has mask SKM_NO_WRITERS
   || (view =? NEW) && has mask SKM_NEW_VIEW
   || negb (view =? NEW) && has mask SKM_OLD_VIEW).

(** [hc_check_list]: the first sample that is not skipped decides, even when
    it does not match the query. *)
Fixpoint hc_check_list (l : list nat) (mask view : Z) (query : option (Change_t -> bool)) : C (option bool) :=
  match l with
  | [] => mret None
  | rp :: l =>
      c ← ref_change rp;
      if check_skipped mask view c then hc_check_list l mask view query
      else mret (Some match query with None => true | Some q => q c end)
  end.

(** [hc_check_fct] *)
Definition hc_check_fct (mask : Z) (query : option (Change_t -> bool)) (ip : nat) (matched : bool) : C (bool * bool) :=
  i ← inst ip;
  if negb (mask =? 0) && ((i_view i =? NEW) && has mask SKM_NEW_VIEW || negb (i_view i =? NEW) && has mask SKM_OLD_VIEW)
     || (l_nchanges (i_list i) =? 0)
  then mret (true, matched)
  else
    o ← hc_check_list (l_refs (i_list i)) mask (i_view i) query;
    mret match o with None => (true, matched) | Some b => (false, b) end.

(** [hc_avail_condition], and [hc_avail] without a query. *)
Definition hc_avail_condition (mask : Z) (query : option (Change_t -> bool)) : C bool :=
  if hc_multi_inst cf then walk_instances (hc_check_fct mask query) false
  else
    s ← getc;
    if l_nchanges (hc_changes (st s)) =? 0 then mret false
    else o ← hc_check_list (l_refs (hc_changes (st s))) mask (hc_view s) query; mret (default false o).
Definition hc_avail (mask : Z) : C bool := hc_avail_condition mask None.

(** ** Deadline, lifespan and reader data lifecycle *)

(** [CacheActCheck_t] *)
Record ActCheck := mkCheck { a_writer : Z; a_nalive : Z; a_now : Z; a_next : Z; a_period : Z }.
Definition set_a_next (t : Z) (a : ActCheck) : ActCheck := mkCheck (a_writer a) (a_nalive a) (a_now a) t (a_period a).
Definition set_a_period (w p : Z) (a : ActCheck) : ActCheck := mkCheck w (a_nalive a) (a_now a) (a_next a) p.
Definition add_alive (a : ActCheck) : ActCheck := mkCheck (a_writer a) (a_nalive a + 1) (a_now a) (a_next a) (a_period a).

Definition sooner (t : Z) (a : ActCheck) : ActCheck := if (a_next a =? 0) || (t <? a_next a) then set_a_next t a else a.

(** The time of the last sample of a list, or the time at which it became empty. *)
Definition tail_time (lp : LIST) : C Z :=
  l ← get_list lp;
  if l_nchanges l =? 0 then mret (l_time l) else q ← last_ref lp; c ← ref_change q; mret (c_time c).

(** [hc_inst_check_deadline] *)
Definition hc_inst_check_deadline (ip : nat) (a : ActCheck) : C (bool * ActCheck) :=
  i ← inst ip;
  if i_deadlined i then mret (false, a) else
  t ← tail_time (INST ip);
  let t := ⟪t + a_period a⟫64 in
  if t <? a_now a then put_inst ip (set_i_deadlined true i);; emit (EvMissed (i_handle i));; mret (false, a)
  else mret (true, sooner t a).

(** [hc_check_deadline] *)
Definition hc_check_deadline (a : ActCheck) : C ActCheck :=
  s ← getc;
  if negb (hc_deadline cf) || hc_deadlined s then mret a else
  t ← tail_time HIST;
  let a := set_a_next ⟪t + a_period a⟫64 a in
  if a_next a <? a_now a then
    modc (fun s => set_hc_dlc_idle true (set_hc_deadlined true s));; emit (EvMissed 0);; mret a
  else mret (add_alive a).

(** The period for a sample in a reader: the lifespan of its writer, if any. *)
Definition sample_period (c : Change_t) (a : ActCheck) : option ActCheck :=
  if hc_writer cf then Some a
  else match entity_ptr cf (c_writer c) with
       | Some e => p ← en_lifespan e; Some (if a_writer a =? c_writer c then a else set_a_period (c_writer c) p a)
       | None => None
       end.

(** The loop of [hc_inst_check_lifespan]; the result is whether a sample that
    still lives was found. *)
Fixpoint inst_lifespan_loop (fuel : nat) (ip : nat) (rp : option nat) (a : ActCheck) : C (bool * ActCheck) :=
  match rp with
  | None => mret (false, a)
  | Some rp =>
      match fuel with
      | O => hang
      | S fuel =>
          next ← list_next (INST ip) rp;
          r ← ref rp;
          let cp := r_change r in
          c ← change cp;
          match sample_period c a with
          | None => inst_lifespan_loop fuel ip next a
          | Some a =>
              let t := ⟪c_time c + a_period a⟫64 in
              if a_now a <? t then mret (true, sooner t a)
              else if hc_must_ack cf && negb (c_wack c =? 0) then mret (true, set_a_next (a_now a) a)
              else
                whenc (negb (c_wack c =? 0)) (forget_acks cp (c_wack c));;
                ccref_remove_ref (INST ip) rp;;
                c ← change cp;
                if c_nrefs c <? 2 then fault else
                whenc (c_kind c =? ALIVE) (sub_i_ndata ip);;
                crp ← the (r_mirror r);
                ccref_delete rp;;
                ccref_remove_ref HIST crp;;
                uncache crp;;
                whenc (c_kind c =? ALIVE) sub_ndata;;
                ccref_delete crp;;
                i ← inst ip;
                if (l_nchanges (i_list i) =? 0) && hc_writer cf && unregistered (i_kind i)
                then hc_free_instance cf (i_handle i);; mret (false, a)
                else inst_lifespan_loop fuel ip next a
          end
      end
  end.

(** [hc_inst_check_lifespan] *)
Definition hc_inst_check_lifespan (ip : nat) (a : ActCheck) : C (bool * ActCheck) :=
  i ← inst ip;
  if (l_nchanges (i_list i) =? 0) || negb (hc_writer cf) && (i_nwriters i =? 0) then mret (false, a)
  else rp ← first_ref (INST ip); inst_lifespan_loop (S (length (l_refs (i_list i)))) ip (Some rp) a.

(** The loop of [hc_check_lifespan]. *)
Fixpoint lifespan_loop (fuel : nat) (rp : option nat) (a : ActCheck) : C ActCheck :=
  match rp with
  | None => mret a
  | Some rp =>
      match fuel with
      | O => hang
      | S fuel =>
          next ← list_next HIST rp;
          r ← ref rp;
          let cp := r_change r in
          c ← change cp;
          match sample_period c a with
          | None => lifespan_loop fuel next a
          | Some a =>
              let t := ⟪c_time c + a_period a⟫64 in
              if a_now a <? t then mret (add_alive (sooner t a))
              else if hc_must_ack cf && negb (c_wack c =? 0) then mret (add_alive (set_a_next (a_now a) a))
              else
                whenc (negb (c_wack c =? 0)) (forget_acks cp (c_wack c));;
                ccref_remove_ref HIST rp;;
                uncache rp;;
                whenc (c_kind c =? ALIVE) sub_ndata;;
                ccref_delete rp;;
                lifespan_loop fuel next a
          end
      end
  end.

(** [hc_check_lifespan] *)
Definition hc_check_lifespan (a : ActCheck) : C ActCheck :=
  s ← getc;
  if l_nchanges (hc_changes (st s)) =? 0 then mret a
  else rp ← first_ref HIST; lifespan_loop (S (length (l_refs (hc_changes (st s))))) (Some rp) a.

(** [hc_inst_purge] *)
Fixpoint purge_loop (fuel : nat) (ip : nat) : C () :=
  i ← inst ip;
  if l_nchanges (i_list i) =? 0 then mret ()
  else match fuel with
       | O => hang
       | S fuel => cp ← first_change (INST ip); _ ← hc_remove_i cf (Some ip) cp false; purge_loop fuel ip
       end.
Definition hc_inst_purge (ip : nat) : C () :=
  i ← inst ip;
  purge_loop (S (length (l_refs (i_list i)))) ip;;
  hc_free_instance cf (i_handle i).

(** [hc_inst_check_autopurge_no_writer], [hc_inst_check_autopurge_disposed]:
    [gone] tests the state of the instance. *)
Definition hc_inst_check_autopurge (gone : Z -> bool) (ip : nat) (a : ActCheck) : C (bool * ActCheck) :=
  i ← inst ip;
  if gone (i_kind i) then
    t ← tail_time (INST ip);
    let t := ⟪t + a_period a⟫64 in
    if a_now a <? t then mret (true, sooner t a) else hc_inst_purge ip;; mret (false, a)
  else mret (false, a).

(** [GuardType_t], as far as caches handle it. *)
Inductive GuardType := GT_DEADLINE | GT_LIFESPAN | GT_AUTOP_NW | GT_AUTOP_DISP.

(** [hc_inst_qos_action] *)
Definition hc_inst_qos_action (purge_nw purge_dis : bool) (ty : GuardType) (ip : nat) (a : ActCheck) : C (bool * ActCheck) :=
  '(alive, a) ← match ty with
    | GT_DEADLINE => if hc_deadline cf then hc_inst_check_deadline ip a else mret (false, a)
    | GT_LIFESPAN => hc_inst_check_lifespan ip a
    | GT_AUTOP_NW => if purge_nw then hc_inst_check_autopurge unregistered ip a else mret (false, a)
    | GT_AUTOP_DISP => if purge_dis then hc_inst_check_autopurge disposed ip a else mret (false, a)
    end;
  mret (true, if alive : bool then add_alive a else a).

(** [hc_handle_xqos]: the time until the next check, if one is needed. *)
Definition hc_handle_xqos (purge_nw purge_dis : bool) (ty : GuardType) (w period now : Z) : C (option Z) :=
  let a := match ty with
    | GT_LIFESPAN => if hc_writer cf then mkCheck w 0 now 0 period else mkCheck 0 0 now 0 0
    | _ => mkCheck w 0 now 0 period
    end in
  a ← (if negb (hc_multi_inst cf) then
         match ty with GT_DEADLINE => hc_check_deadline a | GT_LIFESPAN => hc_check_lifespan a | _ => mret a end
       else walk_instances (hc_inst_qos_action purge_nw purge_dis ty) a);
  if a_nalive a =? 0 then
    modc (match ty with
          | GT_DEADLINE => set_hc_dlc_idle true | GT_LIFESPAN => set_hc_lsc_idle true
          | GT_AUTOP_NW => set_hc_apw_idle true | GT_AUTOP_DISP => set_hc_apd_idle true
          end);; mret None
  else mret (Some ⟪a_next a - a_now a⟫64).

End Get.
