(* ===== verification/CacheProps.v ===== *)
(** History caches: a calculus of weakest preconditions for the operations of
    Cache.v, the representation of a cache by the list of its samples, and the
    basic operations on lists of references. *)

From stdpp Require Import gmap.
From S2P Require Import Prelude Seqnr Cache.
From stdpp Require Import list.

#[local] Open Scope Z_scope.

(** ** Weakest preconditions *)

(** The operation neither has undefined behaviour nor hangs, and ends in a
    result and a state with [Q]. *)
Definition wp {A} (m : C A) (Q : A -> HistoryCache_t -> Prop) (s : HistoryCache_t) : Prop :=
  match m s with Ok a s' => Q a s' | _ => False end.

Lemma wp_ret {A} (a : A) Q s : Q a s -> wp (mret a) Q s.
Proof. done. Qed.

Lemma wp_bind {A B} (m : C A) (k : A -> C B) Q s : wp m (fun a s' => wp (k a) Q s') s -> wp (m ≫= k) Q s.
Proof. unfold wp, mbind, C_bind. by destruct (m s). Qed.

Lemma wp_bind_inv {A B} (m : C A) (k : A -> C B) Q s : wp (m ≫= k) Q s -> wp m (fun a s' => wp (k a) Q s') s.
Proof. unfold wp, mbind, C_bind. by destruct (m s). Qed.

Lemma wp_mono {A} (m : C A) (Q R : A -> HistoryCache_t -> Prop) s : wp m Q s -> (forall a s', Q a s' -> R a s') -> wp m R s.
Proof. unfold wp. destruct (m s); eauto. Qed.

Lemma wp_run {A} (m : C A) Q s : wp m Q s -> exists a s', m s = Ok a s' /\ Q a s'.
Proof. unfold wp. destruct (m s); eauto; done. Qed.

Lemma wp_getc Q s : Q s s -> wp getc Q s.
Proof. done. Qed.
Lemma wp_modc f Q s : Q tt (f s) -> wp (modc f) Q s.
Proof. done. Qed.
Lemma wp_modst f Q s : Q tt (set_st (f (st s)) s) -> wp (modst f) Q s.
Proof. done. Qed.
Lemma wp_the {A} (o : option A) a Q s : o = Some a -> Q a s -> wp (the o) Q s.
Proof. by intros ->. Qed.
Lemma wp_whenc (b : bool) m Q s : (b = true -> wp m Q s) -> (b = false -> Q tt s) -> wp (whenc b m) Q s.
Proof. intros. destruct b; [auto|by apply wp_ret; auto]. Qed.
Lemma wp_if {A} (b : bool) (m m' : C A) Q s : (b = true -> wp m Q s) -> (b = false -> wp m' Q s) -> wp (if b then m else m') Q s.
Proof. destruct b; eauto. Qed.

(** Operations that leave the store alone. *)
Definition quiet {A} (m : C A) : Prop := forall s (Q : A -> HistoryCache_t -> Prop), (forall a s', st s' = st s -> Q a s') -> wp m Q s.

Lemma quiet_ret {A} (a : A) : quiet (mret a).
Proof. intros s Q HQ. by apply wp_ret, HQ. Qed.
Lemma quiet_bind {A B} (m : C A) (k : A -> C B) : quiet m -> (forall a, quiet (k a)) -> quiet (m ≫= k).
Proof. intros Hm Hk s Q HQ. apply wp_bind, Hm. intros a s' E. apply Hk. intros b s'' E'. apply HQ. congruence. Qed.
Lemma quiet_when b m : quiet m -> quiet (whenc b m).
Proof. intros Hm. destruct b; [done|apply quiet_ret]. Qed.
Lemma quiet_getc : quiet getc.
Proof. intros s Q HQ. by apply HQ. Qed.
Lemma quiet_modc f : (forall s, st (f s) = st s) -> quiet (modc f).
Proof. intros Hf s Q HQ. by apply HQ. Qed.
Lemma quiet_emit e : quiet (emit e).
Proof. by apply quiet_modc. Qed.
Lemma quiet_alloc : quiet alloc.
Proof. intros s Q HQ. unfold wp, alloc. destruct (e_allocs (env s)); by apply HQ. Qed.
Lemma quiet_proxies : quiet proxies.
Proof. intros s Q HQ. unfold wp, proxies. destruct (e_proxies (env s)); by apply HQ. Qed.
Lemma quiet_is_full : quiet is_full.
Proof. intros s Q HQ. unfold wp, is_full. destruct (e_fulls (env s)); by apply HQ. Qed.
Lemma quiet_next_wait : quiet next_wait.
Proof. intros s Q HQ. unfold wp, next_wait. destruct (e_waits (env s)); by apply HQ. Qed.
Create HintDb quiet.
#[export] Hint Resolve quiet_ret quiet_bind quiet_when quiet_getc quiet_emit quiet_alloc quiet_proxies quiet_is_full quiet_next_wait : quiet.
#[export] Hint Extern 5 (quiet (modc _)) => (apply quiet_modc; intros; reflexivity) : quiet.

(** Loads and stores. *)
Lemma wp_change cp c Q s : chgs (st s) !! cp = Some c -> Q c s -> wp (change cp) Q s.
Proof. intros E HQ. unfold change. apply wp_bind, wp_getc. by eapply wp_the. Qed.
Lemma wp_ref rp r Q s : refs (st s) !! rp = Some r -> Q r s -> wp (ref rp) Q s.
Proof. intros E HQ. unfold ref. apply wp_bind, wp_getc. by eapply wp_the. Qed.
Lemma wp_inst ip i Q s : insts (st s) !! ip = Some i -> Q i s -> wp (inst ip) Q s.
Proof. intros E HQ. unfold inst. apply wp_bind, wp_getc. by eapply wp_the. Qed.
Lemma wp_ref_change rp r c Q s : refs (st s) !! rp = Some r -> chgs (st s) !! r_change r = Some c -> Q c s -> wp (ref_change rp) Q s.
Proof. intros E E' HQ. unfold ref_change. apply wp_bind. eapply wp_ref; [done|]. by eapply wp_change. Qed.
Lemma wp_put_change cp c Q s : Q tt (set_st (set_chgs (<[cp := c]> (chgs (st s))) (st s)) s) -> wp (put_change cp c) Q s.
Proof. done. Qed.
Lemma wp_put_inst ip i Q s : Q tt (set_st (set_insts (<[ip := i]> (insts (st s))) (st s)) s) -> wp (put_inst ip i) Q s.
Proof. done. Qed.
Lemma wp_put_ref rp r Q s : Q tt (set_st (set_refs (<[rp := r]> (refs (st s))) (st s)) s) -> wp (put_ref rp r) Q s.
Proof. done. Qed.
Lemma wp_upd_change cp c f Q s :
  chgs (st s) !! cp = Some c -> Q tt (set_st (set_chgs (<[cp := f c]> (chgs (st s))) (st s)) s) -> wp (upd_change cp f) Q s.
Proof. intros E HQ. unfold upd_change. apply wp_bind. by eapply wp_change. Qed.
Lemma wp_upd_inst ip i f Q s :
  insts (st s) !! ip = Some i -> Q tt (set_st (set_insts (<[ip := f i]> (insts (st s))) (st s)) s) -> wp (upd_inst ip f) Q s.
Proof. intros E HQ. unfold upd_inst. apply wp_bind. by eapply wp_inst. Qed.

(** ** The handle counter, the monitor and the memory *)

(** The allocations that the cache will make succeed. *)
Definition plenty (s : HistoryCache_t) : Prop := Forall (fun b => b = true) (e_allocs (env s)).

(** Operations that hand out no instance handles and leave the monitor alone. *)
Definition steady {A} (m : C A) : Prop := forall s,
  match m s with
  | Ok _ s' => hc_last_handle s' = hc_last_handle s /\ hc_recycle s' = hc_recycle s /\ hc_monitor s' = hc_monitor s
      /\ (plenty s -> plenty s')
  | _ => True
  end.

Lemma steady_wp {A} (m : C A) (Q : A -> HistoryCache_t -> Prop) s : steady m ->
  wp m (fun a s' => hc_last_handle s' = hc_last_handle s /\ hc_recycle s' = hc_recycle s -> Q a s') s -> wp m Q s.
Proof. intros Hm. specialize (Hm s). unfold wp. destruct (m s); [|done..]. destruct Hm as (? & ? & ? & ?). auto. Qed.
Lemma steady_monitor {A} (m : C A) (Q : A -> HistoryCache_t -> Prop) s : steady m ->
  wp m (fun a s' => hc_monitor s' = hc_monitor s /\ (plenty s -> plenty s') -> Q a s') s -> wp m Q s.
Proof. intros Hm. specialize (Hm s). unfold wp. destruct (m s); [|done..]. destruct Hm as (? & ? & ? & ?). auto. Qed.

Lemma steady_ret {A} (a : A) : steady (mret a).
Proof. done. Qed.
Lemma steady_bind {A B} (m : C A) (k : A -> C B) : steady m -> (forall a, steady (k a)) -> steady (m ≫= k).
Proof.
  intros Hm Hk s. specialize (Hm s). unfold mbind, C_bind. destruct (m s) as [a s1| |]; [|done..].
  specialize (Hk a s1). destruct (k a s1); [|done..]. destruct Hm as (? & ? & ? & ?), Hk as (? & ? & ? & ?). split_and!; [congruence..|auto].
Qed.
Lemma steady_modc f : (forall s, hc_last_handle (f s) = hc_last_handle s /\ hc_recycle (f s) = hc_recycle s /\ hc_monitor (f s) = hc_monitor s
  /\ env (f s) = env s) -> steady (modc f).
Proof. intros Hf s. destruct (Hf s) as (? & ? & ? & E). unfold modc, plenty. by rewrite E. Qed.
Lemma steady_modst f : steady (modst f).
Proof. done. Qed.
Lemma steady_getc : steady getc.
Proof. done. Qed.
Lemma steady_the {A} (o : option A) : steady (the o).
Proof. intros s. by destruct o. Qed.
Lemma steady_fault {A} : steady (@fault A).
Proof. done. Qed.
Lemma steady_hang {A} : steady (@hang A).
Proof. done. Qed.
Lemma steady_alloc : steady alloc.
Proof.
  intros s. unfold alloc. destruct (e_allocs (env s)) as [|b l] eqn:E; [done|]. split_and!; try done. unfold plenty. rewrite E. intros H. by apply Forall_cons in H as [_ ?].
Qed.
Lemma steady_proxies : steady proxies.
Proof. intros s. unfold proxies. by destruct (e_proxies (env s)). Qed.
Lemma steady_is_full : steady is_full.
Proof. intros s. unfold is_full. by destruct (e_fulls (env s)). Qed.
Lemma steady_next_wait : steady next_wait.
Proof. intros s. unfold next_wait. by destruct (e_waits (env s)). Qed.

Lemma wp_alloc (Q : bool -> HistoryCache_t -> Prop) s :
  (forall ok s', st s' = st s -> (ok = false -> ~ plenty s) -> Q ok s') -> wp alloc Q s.
Proof.
  intros HQ. unfold wp, alloc. destruct (e_allocs (env s)) as [|b l] eqn:E; apply HQ; try done.
  intros ->. unfold plenty. rewrite E. intros H. by apply Forall_cons in H as [? _].
Qed.

Create HintDb steady.
#[export] Hint Resolve steady_ret steady_modst steady_getc steady_the steady_fault steady_hang steady_alloc steady_proxies steady_is_full
  steady_next_wait : steady.

(** Goes through an operation, down to the operations that it calls. *)
Ltac steady_step :=
  match goal with
  | |- steady (mbind _ _) => apply steady_bind; [|intros]
  | |- steady (modc _) => apply steady_modc; intros; simpl; repeat case_match; done
  | |- steady (whenc ?b _) => destruct b; unfold whenc
  | |- steady (match ?x with _ => _ end) => destruct x
  end.
Ltac steady := intros; repeat first [solve [eauto with steady] | steady_step].

Lemma steady_find_inst f l : steady (find_inst f l).
Proof. induction l; simpl; unfold inst; steady. Qed.
Lemma steady_find_ref cp l : steady (find_ref cp l).
Proof. induction l; simpl; unfold ref; steady. Qed.
#[export] Hint Resolve steady_find_inst steady_find_ref : steady.

Lemma steady_lists : (forall lp, steady (get_list lp)) /\ (forall lp l, steady (put_list lp l)) /\ (forall lp rp, steady (ccref_remove_ref lp rp))
  /\ (forall lp rp, steady (list_remove lp rp)) /\ (forall n cp, steady (change_release n cp)) /\ (forall rp, steady (ccref_delete rp))
  /\ (forall rp, steady (uncache rp)) /\ (forall lp, steady (first_ref lp)) /\ (forall lp, steady (first_change lp)).
Proof.
  assert (G : forall lp, steady (get_list lp)) by (intros []; unfold get_list, inst; steady).
  assert (P : forall lp l, steady (put_list lp l)) by (intros []; unfold put_list, upd_inst, inst, put_inst; steady).
  assert (R : forall lp rp, steady (list_remove lp rp)) by (unfold list_remove; steady).
  assert (X : forall n cp, steady (change_release n cp)) by (unfold change_release, change, hc_change_dispose, put_change; steady).
  assert (F : forall lp, steady (first_ref lp)) by (unfold first_ref; steady).
  split_and!; try done.
  - unfold ccref_remove_ref, ref_change, ref, change. steady.
  - unfold ccref_delete, ref, hc_change_free. steady.
  - unfold uncache, ref, upd_change, change, put_change. steady.
  - unfold first_change, ref. steady.
Qed.

Lemma steady_basic : (forall cp, steady (change cp)) /\ (forall ip, steady (inst ip)) /\ (forall rp, steady (ref rp)) /\ (forall ip f, steady (upd_inst ip f))
  /\ (forall cp f, steady (upd_change cp f)) /\ (forall cp c, steady (put_change cp c)) /\ (forall e, steady (emit e)).
Proof. unfold change, inst, ref, upd_inst, upd_change, put_inst, put_change, change, inst, emit. split_and!; steady. Qed.

Lemma steady_ccref_add lp cp o : steady (ccref_add lp cp o).
Proof.
  pose proof steady_basic as (? & ? & ? & ? & ? & ? & ?). pose proof steady_lists as (? & ? & ? & ? & ? & ? & ? & ? & ?).
  assert (E : forall cp rp, steady (earlier cp rp)) by (unfold earlier, ref_change; steady).
  unfold ccref_add, new_addr, put_ref, change_ref, last_ref, order_prev, hc_change_free. steady.
Qed.

Lemma steady_mon_remove cp : steady (mon_remove cp).
Proof. pose proof steady_lists as (_ & _ & _ & _ & ? & _). unfold mon_remove, emit, change, put_change. steady. Qed.
Lemma steady_forget_acks cp w : steady (forget_acks cp w).
Proof. pose proof steady_mon_remove. unfold forget_acks. steady. Qed.
#[export] Hint Resolve steady_forget_acks : steady.

Lemma steady_free_samples fuel p : steady (free_samples fuel p).
Proof.
  pose proof steady_lists as (? & ? & ? & ? & ? & ? & ? & ? & ?).
  assert (steady (free_sample p)).
  { unfold free_sample, ref, change, sub_i_ndata, sub_ndata, upd_inst, inst, put_inst. steady. }
  induction fuel; simpl; unfold inst; steady.
Qed.
#[export] Hint Resolve steady_free_samples : steady.

Lemma steady_free_instance cf h : steady (hc_free_instance cf h).
Proof.
  assert (steady (unlink_instance cf h)) by (unfold unlink_instance, mod_set, inst, chain_find; steady).
  assert (F : forall (l : list nat) (m : C ()), steady m -> steady (foldr (fun n m => emit (EvFiltered n);; m) m l)).
  { induction l; simpl; unfold emit in *; steady. }
  unfold hc_free_instance, hc_convert_to_short, mod_set, inst, emit.
  apply steady_bind; [done|intros [p|]; [|steady]]. apply steady_bind; [steady|intros]. apply steady_bind; [steady|intros].
  apply steady_bind; [steady|intros]. apply steady_bind; [apply F; unfold upd_inst, inst, put_inst; steady|intros]. steady.
Qed.
#[export] Hint Resolve steady_free_instance : steady.

(** ** The samples of a cache *)

(** A sample with the addresses of everything that belongs to it: the
    references in the list of the cache and in that of its instance. *)
Record Sample := mkSample { x_rp : nat; x_irp : nat; x_cp : nat; x_ip : nat; x_alive : bool }.

Section Repr.
(** Whether there are instances, whether samples are ordered by time, and
    whether no sample may have acknowledgements outstanding. *)
Context (multi ordered calm : bool).

Definition nalive (L : list Sample) : Z := zlen (filter (fun x => x_alive x = true) L).
Definition of_inst (ip : nat) (L : list Sample) : list Sample := filter (fun x => x_ip x = ip) L.

(** How the list of an instance follows that of the cache. *)
Definition follows (a b : list nat) : Prop := if ordered then a ≡ₚ b else a = b.

(** The references that a cached sample has from its cache. *)
Definition own_refs : Z := if multi then 2 else 1.

(** With [calm], no acknowledgement of the sample is outstanding. *)
Record change_ok (s : Store) (x : Sample) (c : Change_t) : Prop := {
  co_alive : x_alive x = (c_kind c =? ALIVE);
  co_refs : own_refs + c_taken c <= c_nrefs c <= MAX_CHANGE_REFS;
  co_taken : 0 <= c_taken c;
  co_wack : if calm then c_wack c = 0 else True;
  co_handle : if multi then exists i, insts s !! x_ip x = Some i /\ i_handle i = c_handle c else True
}.

Record sample_ok (s : Store) (x : Sample) : Prop := {
  sm_rp : refs s !! x_rp x = Some (mkRef (if multi then Some (x_irp x) else None) (x_cp x));
  sm_irp : if multi then refs s !! x_irp x = Some (mkRef (Some (x_rp x)) (x_cp x)) else True;
  sm_chg : exists c, chgs s !! x_cp x = Some c /\ change_ok s x c
}.

Definition addrs (L : list Sample) : list nat := (x_rp <$> L) ++ (if multi then x_irp <$> L else []).

Record inst_ok (ip : nat) (i : INSTANCE) (L : list Sample) : Prop := {
  io_refs : follows (l_refs (i_list i)) (x_irp <$> of_inst ip L);
  io_n : l_nchanges (i_list i) = zlen (l_refs (i_list i));
  io_ndata : i_ndata i = nalive (of_inst ip L)
}.

(** The store holds the samples [L], in this order. *)
Record repr (s : Store) (L : list Sample) : Prop := {
  rp_hist : l_refs (hc_changes s) = x_rp <$> L;
  rp_n : l_nchanges (hc_changes s) = zlen L;
  rp_room : zlen L < 2 ^ 16;
  rp_ndata : hc_ndata s = nalive L;
  rp_addrs : NoDup (addrs L);
  rp_cps : NoDup (x_cp <$> L);
  rp_samples : Forall (sample_ok s) L;
  rp_insts : forall ip i, insts s !! ip = Some i -> if multi then inst_ok ip i L else True;
  rp_fresh : (forall a, a ∈ dom (refs s) -> (a < next_addr s)%nat) /\ (forall a, a ∈ dom (chgs s) -> (a < next_addr s)%nat)
             /\ (forall a, a ∈ dom (insts s) -> (a < next_addr s)%nat)
}.

(** No acknowledgement of the samples [L] is outstanding. *)
Definition acked (s : Store) (L : list Sample) : Prop := forall x c, x ∈ L -> chgs s !! x_cp x = Some c -> c_wack c = 0.

(** ** Lists of addresses *)

Lemma filter_ne_id (a : nat) (l : list nat) : a ∉ l -> filter (.≠ a) l = l.
Proof. induction l as [|b l IH]; [done|]. intros [? ?]%not_elem_of_cons. rewrite filter_cons_True by done. by rewrite IH. Qed.

Lemma filter_ne_mid (a : nat) (l1 l2 : list nat) : NoDup (l1 ++ a :: l2) -> filter (.≠ a) (l1 ++ a :: l2) = l1 ++ l2.
Proof.
  intros (_ & H1 & H2)%NoDup_app. apply NoDup_cons in H2 as [H2 _].
  rewrite filter_app, filter_cons_False by (intros []; done).
  rewrite !filter_ne_id; [done|done|]. intros Ha. eapply (H1 a); [done|left].
Qed.

Lemma zlen_filter_ne (a : nat) (l : list nat) : NoDup l -> a ∈ l -> zlen (filter (.≠ a) l) = zlen l - 1.
Proof.
  intros Hn (l1 & l2 & ->)%list_elem_of_split. rewrite filter_ne_mid by done. unfold zlen. rewrite !length_app. simpl. lia.
Qed.

Lemma follows_nodup a b : follows a b -> NoDup b -> NoDup a.
Proof. unfold follows. destruct ordered; [by intros ->|by intros ->]. Qed.
Lemma follows_in a b p : follows a b -> p ∈ a <-> p ∈ b.
Proof. unfold follows. destruct ordered; by intros ->. Qed.
Lemma follows_len a b : follows a b -> zlen a = zlen b.
Proof. unfold follows, zlen. destruct ordered; [by intros ->|by intros ->]. Qed.
Lemma follows_filter p a b : follows a b -> follows (filter (.≠ p) a) (filter (.≠ p) b).
Proof. unfold follows. destruct ordered; by intros ->. Qed.
Lemma follows_snoc p a b : follows a b -> follows (a ++ [p]) (b ++ [p]).
Proof. unfold follows. destruct ordered; by intros ->. Qed.

Lemma nalive_app L1 L2 : nalive (L1 ++ L2) = nalive L1 + nalive L2.
Proof. unfold nalive, zlen. rewrite filter_app, length_app. lia. Qed.
Lemma nalive_one x : nalive [x] = if x_alive x then 1 else 0.
Proof. unfold nalive. destruct (x_alive x) eqn:E; [rewrite filter_cons_True by done|rewrite filter_cons_False by congruence]; done. Qed.
Lemma nalive_cons x L : nalive (x :: L) = (if x_alive x then 1 else 0) + nalive L.
Proof. change (x :: L) with ([x] ++ L). by rewrite nalive_app, nalive_one. Qed.
Lemma nalive_nonneg L : 0 <= nalive L.
Proof. unfold nalive, zlen. lia. Qed.
Lemma nalive_le L : nalive L <= zlen L.
Proof. unfold nalive, zlen. pose proof (length_filter (fun x => x_alive x = true) L). lia. Qed.

Lemma of_inst_app ip L1 L2 : of_inst ip (L1 ++ L2) = of_inst ip L1 ++ of_inst ip L2.
Proof. apply filter_app. Qed.
Lemma of_inst_cons ip x L : of_inst ip (x :: L) = (if decide (x_ip x = ip) then [x] else []) ++ of_inst ip L.
Proof.
  unfold of_inst. destruct (decide (x_ip x = ip)); [by rewrite filter_cons_True|by rewrite filter_cons_False].
Qed.
Lemma of_inst_in ip x L : x ∈ of_inst ip L <-> x_ip x = ip /\ x ∈ L.
Proof. unfold of_inst. by rewrite list_elem_of_filter. Qed.
Lemma of_inst_le ip L : zlen (of_inst ip L) <= zlen L.
Proof. unfold of_inst, zlen. pose proof (length_filter (fun x => x_ip x = ip) L). lia. Qed.

End Repr.

(** ** Removing references from lists *)

Lemma wp_get_hist Q s : Q (hc_changes (st s)) s -> wp (get_list HIST) Q s.
Proof. done. Qed.
Lemma wp_get_ilist ip i Q s : insts (st s) !! ip = Some i -> Q (i_list i) s -> wp (get_list (INST ip)) Q s.
Proof. intros E HQ. unfold get_list. apply wp_bind. eapply wp_inst; [done|]. by apply wp_ret. Qed.
Lemma wp_put_hist l Q s : Q tt (set_st (set_hc_changes l (st s)) s) -> wp (put_list HIST l) Q s.
Proof. done. Qed.
Lemma wp_put_ilist ip i l Q s :
  insts (st s) !! ip = Some i -> Q tt (set_st (set_insts (<[ip := set_i_list l i]> (insts (st s))) (st s)) s) ->
  wp (put_list (INST ip) l) Q s.
Proof. intros E HQ. unfold put_list. by eapply wp_upd_inst. Qed.

(** A list with a correct counter. *)
Definition good_list (l : CCLIST) : Prop := l_nchanges l = zlen (l_refs l) /\ zlen (l_refs l) < 2 ^ 16 /\ NoDup (l_refs l).

Lemma good_count l rp : good_list l -> rp ∈ l_refs l -> ⟦l_nchanges l - 1⟧16 = l_nchanges l - 1 /\ 0 <= l_nchanges l - 1.
Proof.
  intros (E & Hlt & _) Hin. assert (zlen (l_refs l) <> 0).
  { unfold zlen. destruct (l_refs l); [by apply elem_of_nil in Hin|simpl; lia]. }
  assert (0 <= zlen (l_refs l)) by (unfold zlen; lia). rewrite E. split; [|lia]. apply wrap_small. unfold in_u. lia.
Qed.

Lemma filter_last (rp : nat) (l : list nat) : rp ∈ l -> NoDup l -> zlen l = 1 -> filter (.≠ rp) l = [].
Proof.
  intros Hin Hn Hl. pose proof (zlen_filter_ne rp l Hn Hin) as E. rewrite Hl in E.
  destruct (filter _ l); [done|]. unfold zlen in E. simpl in E. lia.
Qed.

Lemma wp_remove_hist rp r c Q s :
  let l := hc_changes (st s) in
  good_list l -> rp ∈ l_refs l -> refs (st s) !! rp = Some r -> chgs (st s) !! r_change r = Some c ->
  (forall t, Q tt (set_st (set_hc_changes (mkList (filter (.≠ rp) (l_refs l)) t (l_nchanges l - 1)) (st s)) s)) ->
  wp (ccref_remove_ref HIST rp) Q s.
Proof.
  intros l Hg Hin Hr Hc HQ. destruct (good_count _ _ Hg Hin) as [E ?].
  unfold ccref_remove_ref. apply wp_bind, wp_get_hist. fold l. rewrite E. apply wp_if; intros Hz; zbool.
  - apply wp_bind. eapply wp_ref_change; [done..|]. apply wp_put_hist. rewrite <- (filter_last rp (l_refs l)).
    + rewrite <- Hz. apply HQ.
    + done.
    + apply Hg.
    + destruct Hg as (<- & _). lia.
  - apply wp_bind, wp_put_hist. unfold list_remove. apply wp_bind, wp_get_hist. simpl.
    rewrite decide_True by done. apply wp_put_hist, HQ.
Qed.

Lemma wp_remove_inst ip i rp r c Q s :
  let l := i_list i in
  insts (st s) !! ip = Some i ->
  good_list l -> rp ∈ l_refs l -> refs (st s) !! rp = Some r -> chgs (st s) !! r_change r = Some c ->
  (forall t, Q tt (set_st (set_insts (<[ip := set_i_list (mkList (filter (.≠ rp) (l_refs l)) t (l_nchanges l - 1)) i]> (insts (st s))) (st s)) s)) ->
  wp (ccref_remove_ref (INST ip) rp) Q s.
Proof.
  intros l Hi Hg Hin Hr Hc HQ. destruct (good_count _ _ Hg Hin) as [E ?].
  unfold ccref_remove_ref. apply wp_bind. eapply wp_get_ilist; [done|]. fold l. rewrite E. apply wp_if; intros Hz; zbool.
  - apply wp_bind. eapply wp_ref_change; [done..|]. eapply wp_put_ilist; [done|]. rewrite <- (filter_last rp (l_refs l)).
    + rewrite <- Hz. apply HQ.
    + done.
    + apply Hg.
    + destruct Hg as (<- & _). lia.
  - apply wp_bind. eapply wp_put_ilist; [done|]. unfold list_remove. apply wp_bind.
    eapply wp_get_ilist; [simpl; apply lookup_insert_eq|]. simpl.
    rewrite decide_True by done. eapply wp_put_ilist; [simpl; apply lookup_insert_eq|]. simpl.
    rewrite insert_insert_eq. apply HQ.
Qed.

(** ** References to samples *)

Definition drop_refs (n : Z) (cp : nat) (c : Change_t) (m : gmap nat Change_t) : gmap nat Change_t :=
  if c_nrefs c =? n then delete cp m else <[cp := set_c_nrefs (c_nrefs c - n) c]> m.

Lemma wp_release n cp c Q s :
  chgs (st s) !! cp = Some c -> 0 <= n <= c_nrefs c /\ c_nrefs c <= MAX_CHANGE_REFS ->
  Q tt (set_st (set_chgs (drop_refs n cp c (chgs (st s))) (st s)) s) -> wp (change_release n cp) Q s.
Proof.
  intros Hc [Hn Hm] HQ. unfold MAX_CHANGE_REFS in *. unfold change_release. apply wp_bind. eapply wp_change; [done|]. simpl.
  rewrite wrap_small by (unfold in_u; lia). unfold drop_refs in HQ. apply wp_if; intros Hz; zbool.
  - rewrite (proj2 (Z.eqb_eq _ _)) in HQ by lia. done.
  - rewrite (proj2 (Z.eqb_neq _ _)) in HQ by lia. done.
Qed.

Lemma wp_delete rp r c Q s :
  refs (st s) !! rp = Some r -> chgs (st s) !! r_change r = Some c -> 1 <= c_nrefs c <= MAX_CHANGE_REFS ->
  Q tt (set_st (set_refs (delete rp (refs (st s))) (set_chgs (drop_refs 1 (r_change r) c (chgs (st s))) (st s))) s) ->
  wp (ccref_delete rp) Q s.
Proof.
  intros Hr Hc Hn HQ. unfold ccref_delete. apply wp_bind. eapply wp_ref; [done|]. apply wp_bind.
  eapply wp_release; [done|lia|]. done.
Qed.

Lemma wp_change_ref cp c Q s :
  chgs (st s) !! cp = Some c -> 0 <= c_nrefs c < MAX_CHANGE_REFS ->
  Q tt (set_st (set_chgs (<[cp := set_c_nrefs (c_nrefs c + 1) c]> (chgs (st s))) (st s)) s) -> wp (change_ref cp) Q s.
Proof.
  intros Hc Hn HQ. unfold MAX_CHANGE_REFS in *. unfold change_ref. apply wp_bind. eapply wp_change; [done|]. simpl.
  rewrite wrap_small by (unfold in_u; lia). apply wp_bind, wp_put_change. apply wp_if; intros Hz; [unfold MAX_CHANGE_REFS in *; zbool; lia|].
  apply wp_ret. done.
Qed.

(** The loop over all references of [ccref_remove_change]. *)
Lemma wp_find_ref cp l s (Q : option nat -> HistoryCache_t -> Prop) :
  (forall rp, rp ∈ l -> is_Some (refs (st s) !! rp)) ->
  (forall rp r, rp ∈ l -> refs (st s) !! rp = Some r -> r_change r = cp -> Q (Some rp) s) ->
  ((forall rp r, rp ∈ l -> refs (st s) !! rp = Some r -> r_change r <> cp) -> Q None s) ->
  wp (find_ref cp l) Q s.
Proof.
  revert Q. induction l as [|rp l IH]; intros Q Hd Hf Hn; simpl.
  { apply wp_ret, Hn. intros ? ? []%elem_of_nil. }
  destruct (Hd rp) as [r Hr]; [by left|]. apply wp_bind. eapply wp_ref; [done|].
  destruct (decide _).
  - apply wp_ret. by eapply Hf; [left|..].
  - apply IH.
    + intros. apply Hd. by right.
    + intros. eapply Hf; [by right|done..].
    + intros Hno. apply Hn. intros rp' r' [->|Hin]%elem_of_cons Hr'; [congruence|by eapply Hno].
Qed.

(** ** Changes of the store that keep the representation *)

Section Keep.
Context (multi ordered calm : bool).
#[local] Abbreviation repr := (repr multi ordered calm).
#[local] Abbreviation sample_ok := (sample_ok multi calm).
#[local] Abbreviation inst_ok := (inst_ok ordered).

Lemma repr_sample s L x : repr s L -> x ∈ L -> sample_ok s x.
Proof. intros H Hx. pose proof (rp_samples _ _ _ _ _ H) as Hs. by eapply Forall_forall in Hs. Qed.

Lemma repr_wack s L x c : repr s L -> x ∈ L -> calm = true -> chgs s !! x_cp x = Some c -> c_wack c = 0.
Proof.
  intros H Hx Hb Hc. destruct (repr_sample _ _ _ H Hx) as [_ _ (c' & Hc' & [_ _ _ Hw _])]. rewrite Hc in Hc'. injection Hc' as <-. by rewrite Hb in Hw.
Qed.

Lemma addrs_in_rp x L : x ∈ L -> x_rp x ∈ addrs multi L.
Proof. intros. apply elem_of_app. left. by apply list_elem_of_fmap_2. Qed.
Lemma addrs_in_irp x L : multi = true -> x ∈ L -> x_irp x ∈ addrs multi L.
Proof. intros -> ?. apply elem_of_app. right. by apply list_elem_of_fmap_2. Qed.

Lemma repr_good_hist s L : repr s L -> good_list (hc_changes s).
Proof.
  intros H. pose proof (rp_addrs _ _ _ _ _ H) as Hn. apply NoDup_app in Hn as [Hn _]. unfold good_list.
  rewrite (rp_hist _ _ _ _ _ H). unfold zlen. rewrite length_fmap. pose proof (rp_n _ _ _ _ _ H). pose proof (rp_room _ _ _ _ _ H).
  unfold zlen in *. by split_and!.
Qed.

Lemma repr_inst s L ip i : repr s L -> multi = true -> insts s !! ip = Some i -> inst_ok ip i L.
Proof. intros H Hm Hi. pose proof (rp_insts _ _ _ _ _ H _ _ Hi) as Ho. by rewrite Hm in Ho. Qed.

Lemma repr_good_inst s L ip i : repr s L -> multi = true -> insts s !! ip = Some i -> good_list (i_list i).
Proof.
  intros H Hm Hi. destruct (repr_inst _ _ _ _ H Hm Hi) as [Hr Hn _]. unfold good_list.
  pose proof (rp_addrs _ _ _ _ _ H) as Ha. rewrite Hm in Ha. apply NoDup_app in Ha as (_ & _ & Ha).
  pose proof (rp_room _ _ _ _ _ H). split_and!; [done| |].
  - rewrite (follows_len _ _ _ Hr). pose proof (of_inst_le ip L). unfold zlen in *. rewrite length_fmap. lia.
  - eapply follows_nodup; [done|]. unfold of_inst. eapply sublist_NoDup; [exact Ha|]. apply fmap_sublist, sublist_filter.
Qed.

Lemma addrs_perm_cons L1 x L2 : addrs multi (L1 ++ x :: L2) ≡ₚ addrs multi [x] ++ addrs multi (L1 ++ L2).
Proof. unfold addrs. destruct multi; rewrite !fmap_app, !fmap_cons; simpl; solve_Permutation. Qed.

(** The effect on the store of the removal of a sample, apart from the sample
    itself. *)
Record removed (s s' : Store) (x : Sample) : Prop := {
  rm_hist : l_refs (hc_changes s') = filter (.≠ x_rp x) (l_refs (hc_changes s));
  rm_n : l_nchanges (hc_changes s') = l_nchanges (hc_changes s) - 1;
  rm_ndata : hc_ndata s' = hc_ndata s - (if x_alive x then 1 else 0);
  rm_refs : refs s' = delete (x_rp x) (if multi then delete (x_irp x) (refs s) else refs s);
  rm_chgs : forall cp, cp <> x_cp x -> chgs s' !! cp = chgs s !! cp;
  rm_dom : is_Some (chgs s' !! x_cp x) -> is_Some (chgs s !! x_cp x);
  rm_insts : if multi then exists i l, insts s !! x_ip x = Some i
      /\ insts s' = <[x_ip x := set_i_ndata (i_ndata i - (if x_alive x then 1 else 0)) (set_i_list l i)]> (insts s)
      /\ l_refs l = filter (.≠ x_irp x) (l_refs (i_list i)) /\ l_nchanges l = l_nchanges (i_list i) - 1
    else insts s' = insts s;
  rm_next : next_addr s' = next_addr s;
  rm_set : hc_set s' = hc_set s /\ hc_ninstances s' = hc_ninstances s
}.

Lemma repr_removed s s' L1 x L2 : repr s (L1 ++ x :: L2) -> removed s s' x -> repr s' (L1 ++ L2).
Proof.
  intros H R. pose proof (rp_addrs _ _ _ _ _ H) as Ha. pose proof (rp_cps _ _ _ _ _ H) as Hc.
  pose proof (rp_samples _ _ _ _ _ H) as Hs. rewrite addrs_perm_cons in Ha. apply NoDup_app in Ha as (Hax & Hd & Ha).
  assert (Hother : forall y, y ∈ L1 ++ L2 -> x_cp y <> x_cp x).
  { intros y Hy E. rewrite fmap_app, fmap_cons in Hc. apply NoDup_app in Hc as (_ & Hc1 & Hc2).
    apply NoDup_cons in Hc2 as [Hc2 _]. apply elem_of_app in Hy as [Hy|Hy].
    - apply (Hc1 (x_cp y)); [by apply list_elem_of_fmap_2|]. rewrite E. left.
    - apply Hc2. rewrite <- E. by apply list_elem_of_fmap_2. }
  assert (Hz : zlen (L1 ++ x :: L2) = zlen (L1 ++ L2) + 1) by (unfold zlen; rewrite !length_app; simpl; lia).
  assert (Hrefs : forall a, a ∈ addrs multi (L1 ++ L2) -> refs s' !! a = refs s !! a).
  { intros a Hin. rewrite (rm_refs _ _ _ R).
    assert (a ∉ addrs multi [x]) as Hna by (intros ?; by apply (Hd a)).
    unfold addrs in Hna. destruct multi; simpl in Hna; apply not_elem_of_cons in Hna as [? Hna];
      [apply not_elem_of_cons in Hna as [? _]|]; by rewrite !lookup_delete_ne by done. }
  split.
  - rewrite (rm_hist _ _ _ R), (rp_hist _ _ _ _ _ H), !fmap_app, fmap_cons, filter_ne_mid; [done|].
    pose proof (rp_addrs _ _ _ _ _ H) as Ha'. apply NoDup_app in Ha' as [Ha' _]. by rewrite fmap_app, fmap_cons in Ha'.
  - rewrite (rm_n _ _ _ R), (rp_n _ _ _ _ _ H). lia.
  - pose proof (rp_room _ _ _ _ _ H). lia.
  - rewrite (rm_ndata _ _ _ R), (rp_ndata _ _ _ _ _ H), !nalive_app, nalive_cons. lia.
  - done.
  - rewrite fmap_app, fmap_cons in Hc. rewrite fmap_app. rewrite <- Permutation_middle in Hc. by apply NoDup_cons in Hc as [_ ?].
  - apply Forall_forall. intros y Hy. assert (Hy' : y ∈ L1 ++ x :: L2) by (rewrite elem_of_app, elem_of_cons; apply elem_of_app in Hy; tauto).
    destruct (repr_sample _ _ _ H Hy') as [Hrp Hirp (c & Hcc & [Hk Hn Ht Hw Hh])]. split.
    + rewrite Hrefs; [done|]. by apply addrs_in_rp.
    + destruct multi eqn:Hm; [|done]. rewrite Hrefs; [done|]. rewrite <- Hm. by apply addrs_in_irp.
    + exists c. rewrite (rm_chgs _ _ _ R) by by apply Hother. split; [done|]. split; [done..|].
      pose proof (rm_insts _ _ _ R) as Hi. destruct multi; [|done].
      destruct Hi as (i & l & Hi & -> & _ & _). destruct Hh as (j & Hj & Hjh).
      destruct (decide (x_ip y = x_ip x)) as [E|]; [|exists j; by rewrite lookup_insert_ne].
      eexists. rewrite E, lookup_insert_eq. split; [done|]. simpl. congruence.
  - intros ip i' Hi'. pose proof (rm_insts _ _ _ R) as Hi. destruct multi eqn:Hm; [|done].
    destruct Hi as (i & l & Hi & Ei & E1 & E2). rewrite Ei in Hi'.
    destruct (decide (ip = x_ip x)) as [->|Hne].
    + rewrite lookup_insert_eq in Hi'. simplify_eq. rewrite <- Hm in H.
      pose proof (repr_good_inst _ _ _ _ H Hm Hi) as (_ & _ & Hnd).
      destruct (repr_inst _ _ _ _ H Hm Hi) as [Hr Hn Hnda].
      assert (Ef : filter (.≠ x_irp x) (x_irp <$> of_inst (x_ip x) (L1 ++ x :: L2)) = x_irp <$> of_inst (x_ip x) (L1 ++ L2)).
      { rewrite !of_inst_app, of_inst_cons, decide_True by done. rewrite !fmap_app. simpl. apply filter_ne_mid.
        pose proof (rp_addrs _ _ _ _ _ H) as Ha'. rewrite Hm in Ha'. apply NoDup_app in Ha' as (_ & _ & Ha').
        eapply sublist_NoDup; [exact Ha'|]. rewrite <- fmap_cons, <- fmap_app. apply fmap_sublist.
        apply sublist_app; [apply sublist_filter|]. constructor. apply sublist_filter. }
      split; simpl.
      * rewrite E1, <- Ef. by apply follows_filter.
      * rewrite E2, E1, Hn. rewrite zlen_filter_ne; [done|done|]. rewrite (follows_in _ _ _ _ Hr).
        apply list_elem_of_fmap_2, of_inst_in. split; [done|]. rewrite elem_of_app. right. left.
      * rewrite Hnda, !of_inst_app, of_inst_cons, decide_True, !nalive_app, nalive_cons by done.
        change (nalive []) with 0. simpl. lia.
    + rewrite lookup_insert_ne in Hi' by done. rewrite <- Hm in H. destruct (repr_inst _ _ _ _ H Hm Hi') as [Hr Hn Hnda].
      assert (E : of_inst ip (L1 ++ x :: L2) = of_inst ip (L1 ++ L2)) by (rewrite !of_inst_app, of_inst_cons, decide_False by done; done).
      rewrite E in *. by split.
  - destruct (rp_fresh _ _ _ _ _ H) as (F1 & F2 & F3). pose proof (rm_next _ _ _ R). split_and!; intros a Ha'.
    + rewrite (rm_refs _ _ _ R) in Ha'. assert (a ∈ dom (refs s)) as Hin%F1; [|lia].
      repeat case_match; repeat (rewrite dom_delete in Ha'; apply elem_of_difference in Ha' as [Ha' _]); done.
    + assert (a ∈ dom (chgs s)) as Hin%F2; [|lia]. apply elem_of_dom. apply elem_of_dom in Ha'.
      destruct (decide (a = x_cp x)) as [->|]; [by apply (rm_dom _ _ _ R)|]. by rewrite (rm_chgs _ _ _ R) in Ha'.
    + assert (a ∈ dom (insts s)) as Hin%F3; [|lia]. pose proof (rm_insts _ _ _ R) as Hi. destruct multi.
      * destruct Hi as (i & l & Hi & Ei & _). rewrite Ei, dom_insert_lookup in Ha' by (by eexists). done.
      * by rewrite Hi in Ha'.
Qed.

(** The effect on the store of anything that leaves the lists alone. *)
Record tweaked (s s' : Store) (L : list Sample) : Prop := {
  tw_changes : hc_changes s' = hc_changes s;
  tw_ndata : hc_ndata s' = hc_ndata s;
  tw_refs : refs s' = refs s;
  tw_chgs : forall x c, x ∈ L -> chgs s !! x_cp x = Some c -> change_ok multi calm s x c ->
    exists c', chgs s' !! x_cp x = Some c' /\ c_kind c' = c_kind c /\ c_handle c' = c_handle c /\
      own_refs multi + c_taken c' <= c_nrefs c' <= MAX_CHANGE_REFS /\ 0 <= c_taken c' /\ (if calm then c_wack c' = 0 else True);
  tw_dom : forall cp, cp ∈ dom (chgs s') -> cp ∈ dom (chgs s) \/ (cp < next_addr s')%nat;
  tw_insts : forall ip i', insts s' !! ip = Some i' ->
    (exists i, insts s !! ip = Some i /\ i_list i' = i_list i /\ i_ndata i' = i_ndata i)
    \/ (ip < next_addr s')%nat /\ insts s !! ip = None /\ l_refs (i_list i') = [] /\ l_nchanges (i_list i') = 0 /\ i_ndata i' = 0;
  tw_kept : forall x i, x ∈ L -> insts s !! x_ip x = Some i -> exists i', insts s' !! x_ip x = Some i' /\ i_handle i' = i_handle i;
  tw_next : (next_addr s <= next_addr s')%nat
}.

Lemma sample_inst s L x : repr s L -> multi = true -> x ∈ L -> is_Some (insts s !! x_ip x).
Proof.
  intros H Hm Hx. destruct (repr_sample _ _ _ H Hx) as [_ _ (c & _ & [_ _ _ _ Hh])]. rewrite Hm in Hh.
  destruct Hh as (i & Hi & _). by eexists.
Qed.

Lemma repr_tweaked s s' L : repr s L -> tweaked s s' L -> repr s' L.
Proof.
  intros H T. split; try by destruct H.
  - rewrite (tw_changes _ _ _ T). by apply H.
  - rewrite (tw_changes _ _ _ T). by apply H.
  - rewrite (tw_ndata _ _ _ T). by apply H.
  - apply Forall_forall. intros x Hx. destruct (repr_sample _ _ _ H Hx) as [Hrp Hirp (c & Hc & Hok)].
    split; [by rewrite (tw_refs _ _ _ T)|by rewrite (tw_refs _ _ _ T)|].
    destruct (tw_chgs _ _ _ T _ _ Hx Hc Hok) as (c' & Hc' & Ek & Eh & Hn & Ht & Hw). destruct Hok as [Hk _ _ _ Hh].
    exists c'. split; [done|]. split; [by rewrite Ek|done..|]. destruct multi; [|done]. destruct Hh as (i & Hi & Ei).
    destruct (tw_kept _ _ _ T _ _ Hx Hi) as (i' & Hi' & Ei'). exists i'. split; [done|]. congruence.
  - intros ip i' Hi'. destruct multi eqn:Hm; [|done]. rewrite <- Hm in H.
    destruct (tw_insts _ _ _ T _ _ Hi') as [(i & Hi & El & En)|(_ & Hi & El & En & Ed)].
    + destruct (repr_inst _ _ _ _ H Hm Hi) as [Hr Hn Hnd]. split; [by rewrite El|by rewrite El|by rewrite En].
    + assert (E : of_inst ip L = []).
      { apply elem_of_nil_inv. intros x [E Hx]%of_inst_in. destruct (sample_inst _ _ _ H Hm Hx) as [j Hj]. congruence. }
      split; rewrite ?E, ?El, ?En, ?Ed; [|done..]. simpl. unfold follows. by destruct ordered.
  - destruct (rp_fresh _ _ _ _ _ H) as (F1 & F2 & F3). pose proof (tw_next _ _ _ T). split_and!; intros a Ha.
    + rewrite (tw_refs _ _ _ T) in Ha. apply F1 in Ha. lia.
    + apply (tw_dom _ _ _ T) in Ha as [Ha|Ha]; [apply F2 in Ha; lia|done].
    + apply elem_of_dom in Ha as [i' Hi'].
      destruct (tw_insts _ _ _ T _ _ Hi') as [(i & Hi & _)|(Hlt & _)]; [|done].
      assert (a ∈ dom (insts s)) as Hin by (apply elem_of_dom; by eexists). apply F3 in Hin. lia.
Qed.

End Keep.

(** The samples of a calm cache are those of the cache, and acknowledged. *)
Lemma repr_calm multi ordered calm s L : repr multi ordered calm s L <-> repr multi ordered false s L /\ (calm = true -> acked s L).
Proof.
  split.
  - intros H. split; [|intros Hb x c Hx Hc; by eapply repr_wack]. destruct H as [A1 A2 A3 A4 A5 A6 A7 A8 A9]. split; try done.
    eapply Forall_impl; [exact A7|]. intros x [B1 B2 (c & Hc & [C1 C2 C3 _ C5])]. split; [done..|]. exists c. split; [done|]. by split.
  - intros [[A1 A2 A3 A4 A5 A6 A7 A8 A9] Ha]. split; try done.
    apply Forall_forall. intros x Hx. rewrite Forall_forall in A7. destruct (A7 x Hx) as [B1 B2 (c & Hc & [C1 C2 C3 _ C5])].
    split; [done..|]. exists c. split; [done|]. split; try done. destruct calm; [|done]. by apply (Ha eq_refl x).
Qed.
