(* ===== verification/CacheInv.v ===== *)
(** History caches: removing samples keeps the representation of the cache by
    its samples, and removes exactly what is asked for. *)

From stdpp Require Import gmap.
From S2P Require Import Prelude Seqnr Cache CacheAdd CacheGet CacheProps.
From stdpp Require Import list.

#[local] Open Scope Z_scope.

Section Inv.
Context (multi ordered calm : bool).
#[local] Abbreviation repr := (repr multi ordered calm).

(** ** Facts about represented stores *)

Lemma NoDup_fmap_inj {A B} (f : A -> B) (l : list A) x y : NoDup (f <$> l) -> x ∈ l -> y ∈ l -> f x = f y -> x = y.
Proof.
  intros Hn [i Hi]%list_elem_of_lookup [j Hj]%list_elem_of_lookup E.
  assert (i = j) as ->; [|congruence]. eapply NoDup_lookup; [done|rewrite list_lookup_fmap, Hi; done|].
  rewrite list_lookup_fmap, Hj. simpl. by rewrite E.
Qed.

Lemma repr_cp_inj s L x y : repr s L -> x ∈ L -> y ∈ L -> x_cp x = x_cp y -> x = y.
Proof. intros H. eapply NoDup_fmap_inj, H. Qed.
Lemma repr_rp_inj s L x y : repr s L -> x ∈ L -> y ∈ L -> x_rp x = x_rp y -> x = y.
Proof. intros H. pose proof (rp_addrs _ _ _ _ _ H) as [Hn _]%NoDup_app. by apply NoDup_fmap_inj. Qed.
Lemma repr_irp_inj s L x y : repr s L -> multi = true -> x ∈ L -> y ∈ L -> x_irp x = x_irp y -> x = y.
Proof. intros H Hm. pose proof (rp_addrs _ _ _ _ _ H) as (_ & _ & Hn)%NoDup_app. rewrite Hm in Hn. by apply NoDup_fmap_inj. Qed.
Lemma repr_rp_irp s L x y : repr s L -> multi = true -> x ∈ L -> y ∈ L -> x_rp x <> x_irp y.
Proof.
  intros H Hm Hx Hy E. pose proof (rp_addrs _ _ _ _ _ H) as (_ & Hd & _)%NoDup_app. rewrite Hm in Hd.
  apply (Hd (x_rp x)); [by apply list_elem_of_fmap_2|]. rewrite E. by apply list_elem_of_fmap_2.
Qed.

Lemma repr_hist_in s L x : repr s L -> x ∈ L -> x_rp x ∈ l_refs (hc_changes s).
Proof. intros H Hx. rewrite (rp_hist _ _ _ _ _ H). by apply list_elem_of_fmap_2. Qed.
Lemma repr_inst_in s L x i : repr s L -> multi = true -> x ∈ L -> insts s !! x_ip x = Some i -> x_irp x ∈ l_refs (i_list i).
Proof.
  intros H Hm Hx Hi. destruct (repr_inst _ _ _ _ _ _ _ H Hm Hi) as [Hr _ _]. rewrite (follows_in _ _ _ _ Hr).
  apply list_elem_of_fmap_2, of_inst_in. done.
Qed.
Lemma repr_inst_of s L ip i irp : repr s L -> multi = true -> insts s !! ip = Some i -> irp ∈ l_refs (i_list i) ->
  exists x, x ∈ L /\ x_ip x = ip /\ x_irp x = irp.
Proof.
  intros H Hm Hi Hin. destruct (repr_inst _ _ _ _ _ _ _ H Hm Hi) as [Hr _ _]. rewrite (follows_in _ _ _ _ Hr) in Hin.
  apply list_elem_of_fmap in Hin as (x & -> & [<- Hx]%of_inst_in). eauto.
Qed.

Lemma nonempty_zlen {A} (a : A) l : a ∈ l -> 1 <= zlen l.
Proof. unfold zlen. destruct l; [by intros ?%elem_of_nil|simpl; lia]. Qed.

Lemma nalive_in x L : x ∈ L -> x_alive x = true -> 1 <= nalive L.
Proof. intros Hx Ha. unfold nalive. apply (nonempty_zlen x). by apply list_elem_of_filter. Qed.

Lemma repr_ndata_range s L : repr s L -> 0 <= hc_ndata s < 2 ^ 16.
Proof.
  intros H. rewrite (rp_ndata _ _ _ _ _ H). pose proof (nalive_nonneg L). pose proof (nalive_le L). pose proof (rp_room _ _ _ _ _ H). lia.
Qed.
Lemma repr_i_ndata_range s L ip i : repr s L -> multi = true -> insts s !! ip = Some i -> 0 <= i_ndata i < 2 ^ 16.
Proof.
  intros H Hm Hi. destruct (repr_inst _ _ _ _ _ _ _ H Hm Hi) as [_ _ Hn]. rewrite Hn.
  pose proof (nalive_nonneg (of_inst ip L)). pose proof (nalive_le (of_inst ip L)). pose proof (of_inst_le ip L).
  pose proof (rp_room _ _ _ _ _ H). lia.
Qed.
Lemma repr_alive_ndata s L x : repr s L -> x ∈ L -> x_alive x = true -> 1 <= hc_ndata s.
Proof. intros H Hx Ha. rewrite (rp_ndata _ _ _ _ _ H). by eapply nalive_in. Qed.
Lemma repr_alive_i_ndata s L x i : repr s L -> multi = true -> x ∈ L -> insts s !! x_ip x = Some i -> x_alive x = true -> 1 <= i_ndata i.
Proof.
  intros H Hm Hx Hi Ha. destruct (repr_inst _ _ _ _ _ _ _ H Hm Hi) as [_ _ Hn]. rewrite Hn.
  eapply nalive_in; [|done]. by apply of_inst_in.
Qed.

Lemma wrap_pred32 z : 1 <= z < 2 ^ 16 -> ⟦z - 1⟧32 = z - 1.
Proof. intros. apply wrap_small. unfold in_u. lia. Qed.
Lemma wrap_succ32 z : 0 <= z < 2 ^ 16 -> ⟦z + 1⟧32 = z + 1.
Proof. intros. apply wrap_small. unfold in_u. lia. Qed.

(** The monitor drops the references of its proxies, which changes nothing in
    the lists. *)
Lemma wp_forget_acks cp c w (Q : () -> HistoryCache_t -> Prop) s :
  chgs (st s) !! cp = Some c -> own_refs multi + c_taken c <= c_nrefs c <= MAX_CHANGE_REFS -> 0 <= c_taken c ->
  (forall s' c', st s' = set_chgs (<[cp := c']> (chgs (st s))) (st s) -> c_kind c' = c_kind c -> c_handle c' = c_handle c ->
     own_refs multi + c_taken c' <= c_nrefs c' <= MAX_CHANGE_REFS -> 0 <= c_taken c' <= c_taken c -> c_wack c' = c_wack c \/ c_wack c' = 0 -> Q tt s') ->
  wp (forget_acks cp w) Q s.
Proof.
  intros Hc Hn Ht HQ. unfold forget_acks. apply wp_bind, wp_modc. apply wp_bind, wp_getc. apply wp_whenc; intros _.
  - unfold mon_remove. apply wp_bind, wp_modc. apply wp_bind. eapply wp_change; [done|]. apply wp_bind, wp_put_change.
    assert (0 < own_refs multi) by (unfold own_refs; destruct multi; lia).
    eapply wp_release; [simpl; apply lookup_insert_eq|simpl; lia|]. simpl.
    eapply (HQ _ (set_c_nrefs (c_nrefs c - c_taken c) (set_c_taken 0 (set_c_wack 0 c)))); simpl; [|done|done|lia|lia|by right].
    unfold drop_refs. simpl. rewrite (proj2 (Z.eqb_neq _ _)) by lia. by rewrite insert_insert_eq.
  - eapply (HQ _ c); [|done|done|done|lia|by left]. simpl. rewrite insert_id by done. by destruct (st s).
Qed.

Lemma repr_put_change s L cp c c' : repr s L -> chgs s !! cp = Some c -> c_kind c' = c_kind c -> c_handle c' = c_handle c ->
  (cp ∈ x_cp <$> L -> own_refs multi + c_taken c' <= c_nrefs c' <= MAX_CHANGE_REFS /\ 0 <= c_taken c' /\ (if calm then c_wack c' = 0 else True)) ->
  repr (set_chgs (<[cp := c']> (chgs s)) s) L.
Proof.
  intros H Hc Ek Eh Hin. eapply repr_tweaked; [done|]. split; simpl; try done.
  - intros x c0 Hx Hc0 [_ Hn Ht Hw _]. destruct (decide (cp = x_cp x)) as [->|].
    + exists c'. rewrite Hc in Hc0. injection Hc0 as <-. rewrite lookup_insert_eq.
      destruct Hin as (? & ? & ?); [by apply list_elem_of_fmap_2|]. done.
    + exists c0. by rewrite lookup_insert_ne.
  - intros cp'. rewrite dom_insert_lookup by by eexists. by left.
  - intros ip i' Hi. left. by eexists.
  - intros x i _ Hi. by eexists.
Qed.

Lemma repr_put_inst s L ip i i' : repr s L -> insts s !! ip = Some i -> i_list i' = i_list i -> i_ndata i' = i_ndata i ->
  i_handle i' = i_handle i -> repr (set_insts (<[ip := i']> (insts s)) s) L.
Proof.
  intros H Hi El En Eh. eapply repr_tweaked; [done|]. split; simpl; try done.
  - intros x c Hx Hc [_ Hn Ht Hw _]. by exists c.
  - intros. by left.
  - intros ip' j Hj. left. destruct (decide (ip' = ip)) as [->|].
    + rewrite lookup_insert_eq in Hj. injection Hj as <-. by exists i.
    + rewrite lookup_insert_ne in Hj by done. by exists j.
  - intros x j _ Hj. destruct (decide (x_ip x = ip)) as [E|].
    + rewrite E, lookup_insert_eq. rewrite E, Hi in Hj. injection Hj as <-. by exists i'.
    + rewrite lookup_insert_ne by done. by exists j.
Qed.

(** Changes of the other parts of the store. *)
Lemma repr_same s s' L : repr s L -> hc_changes s' = hc_changes s -> hc_ndata s' = hc_ndata s -> refs s' = refs s -> chgs s' = chgs s ->
  insts s' = insts s -> next_addr s' = next_addr s -> repr s' L.
Proof.
  intros H E1 E2 E3 E4 E5 E6. eapply repr_tweaked; [done|]. split; rewrite ?E1, ?E2, ?E3, ?E4, ?E5, ?E6; try done.
  - intros x c Hx Hc [_ Hn Ht Hw _]. by exists c.
  - intros. by left.
  - intros ip i Hi. left. by exists i.
  - intros x i Hx Hi. by exists i.
Qed.

Lemma repr_delete_inst s L ip : repr s L -> multi = true -> of_inst ip L = [] -> repr (set_insts (delete ip (insts s)) s) L.
Proof.
  intros H Hm E. eapply repr_tweaked; [done|]. split; simpl; try done.
  - intros x c Hx Hc [_ Hn Ht Hw _]. by exists c.
  - intros. by left.
  - intros ip' i' [_ Hi]%lookup_delete_Some. left. by exists i'.
  - intros x i Hx Hi. exists i. rewrite lookup_delete_ne; [done|]. intros ->.
    assert (x ∈ of_inst (x_ip x) L) as Hin by (by apply of_inst_in). rewrite E in Hin. by apply elem_of_nil in Hin.
Qed.

Lemma repr_new_inst s L i : repr s L -> l_refs (i_list i) = [] -> l_nchanges (i_list i) = 0 -> i_ndata i = 0 ->
  repr (set_insts (<[next_addr s := i]> (insts s)) (set_next_addr (S (next_addr s)) s)) L.
Proof.
  intros H E1 E2 E3. assert (Hnone : insts s !! next_addr s = None).
  { destruct (insts s !! next_addr s) eqn:E; [|done]. destruct (rp_fresh _ _ _ _ _ H) as (_ & _ & F).
    assert (next_addr s ∈ dom (insts s)) as Hin by (apply elem_of_dom; by eexists). apply F in Hin. lia. }
  eapply repr_tweaked; [done|]. split; simpl; try done.
  - intros x c Hx Hc [_ Hn Ht Hw _]. by exists c.
  - intros. by left.
  - intros ip i' [[<- <-]|[Hne Hi]]%lookup_insert_Some; [right|left; by exists i']. split_and!; try done. lia.
  - intros x j Hx Hj. exists j. rewrite lookup_insert_ne; [done|congruence].
  - lia.
Qed.

(** ** Removing one sample *)

Lemma find_irp s L x i Q : repr (st s) L -> multi = true -> x ∈ L -> insts (st s) !! x_ip x = Some i ->
  Q (Some (x_irp x)) s -> wp (find_ref (x_cp x) (l_refs (i_list i))) Q s.
Proof.
  intros H Hm Hx Hi HQ.
  assert (Hall : forall rp, rp ∈ l_refs (i_list i) -> exists y, y ∈ L /\ x_irp y = rp /\ refs (st s) !! rp = Some (mkRef (Some (x_rp y)) (x_cp y))).
  { intros rp Hrp. destruct (repr_inst_of _ _ _ _ _ H Hm Hi Hrp) as (y & Hy & _ & <-). exists y. split; [done|]. split; [done|].
    destruct (repr_sample _ _ _ _ _ _ H Hy) as [_ Hirp _]. by rewrite Hm in Hirp. }
  apply wp_find_ref.
  - intros rp Hrp. destruct (Hall _ Hrp) as (y & _ & _ & E). by eexists.
  - intros rp r Hrp Hr E. destruct (Hall _ Hrp) as (y & Hy & <- & Er). rewrite Hr in Er. injection Er as ->. simpl in E.
    by rewrite (repr_cp_inj _ _ _ _ H Hy Hx E).
  - intros Hno. destruct (Hall (x_irp x)) as (y & Hy & Ey & Er); [by eapply repr_inst_in|].
    destruct (Hno _ _ (repr_inst_in _ _ _ _ H Hm Hx Hi) Er). by rewrite (repr_irp_inj _ _ _ _ H Hm Hy Hx Ey).
Qed.

Lemma find_rp s L x Q : repr (st s) L -> x ∈ L -> Q (Some (x_rp x)) s -> wp (find_ref (x_cp x) (l_refs (hc_changes (st s)))) Q s.
Proof.
  intros H Hx HQ. rewrite (rp_hist _ _ _ _ _ H).
  assert (Hall : forall rp, rp ∈ x_rp <$> L -> exists y, y ∈ L /\ x_rp y = rp /\ exists m, refs (st s) !! rp = Some (mkRef m (x_cp y))).
  { intros rp (y & -> & Hy)%list_elem_of_fmap. exists y. split; [done|]. split; [done|].
    destruct (repr_sample _ _ _ _ _ _ H Hy) as [Hrp _ _]. by eexists. }
  apply wp_find_ref.
  - intros rp Hrp. destruct (Hall _ Hrp) as (y & _ & _ & m & E). by eexists.
  - intros rp r Hrp Hr E. destruct (Hall _ Hrp) as (y & Hy & <- & m & Er). rewrite Hr in Er. injection Er as ->. simpl in E.
    by rewrite (repr_cp_inj _ _ _ _ H Hy Hx E).
  - intros Hno. destruct (Hall (x_rp x)) as (y & Hy & Ey & m & Er); [by apply list_elem_of_fmap_2|].
    destruct (Hno (x_rp x) _ (list_elem_of_fmap_2 _ _ _ Hx) Er). by rewrite (repr_rp_inj _ _ _ _ H Hy Hx Ey).
Qed.

Lemma find_ref_none cp l s (Q : option nat -> HistoryCache_t -> Prop) L : repr (st s) L -> cp ∉ x_cp <$> L ->
  (forall rp, rp ∈ l -> exists y m, y ∈ L /\ refs (st s) !! rp = Some (mkRef m (x_cp y))) ->
  Q None s -> wp (find_ref cp l) Q s.
Proof.
  intros H Hno Hall HQ. apply wp_find_ref; [| |done].
  - intros rp Hrp. destruct (Hall _ Hrp) as (y & m & _ & E). by eexists.
  - intros rp r Hrp Hr E. destruct (Hall _ Hrp) as (y & m & Hy & Er). rewrite Hr in Er. injection Er as ->. simpl in E.
    destruct Hno. rewrite <- E. by apply list_elem_of_fmap_2.
Qed.

Lemma drop_refs_ne n cp c m cp' : cp' <> cp -> drop_refs n cp c m !! cp' = m !! cp'.
Proof. intros. unfold drop_refs. case_match; [by rewrite lookup_delete_ne|by rewrite lookup_insert_ne]. Qed.

(** The removal of a sample from a cache with instances. *)
Lemma wp_remove_multi s L x (Q : () -> HistoryCache_t -> Prop) : multi = true -> repr (st s) L -> x ∈ L ->
  (forall s', removed multi (st s) (st s') x -> Q tt s') -> wp (remove_change (Some (x_ip x)) (x_cp x)) Q s.
Proof.
  intros Hm H Hx HQ. destruct (repr_sample _ _ _ _ _ _ H Hx) as [Hrp Hirp (c & Hc & [Hk Hn Ht _ Hh])].
  rewrite Hm in Hrp, Hirp, Hh. unfold own_refs in Hn. rewrite Hm in Hn. destruct Hh as (i & Hi & Eh).
  pose proof (repr_good_hist _ _ _ _ _ H) as Gh. pose proof (repr_good_inst _ _ _ _ _ _ _ H Hm Hi) as Gi.
  pose proof (repr_hist_in _ _ _ H Hx) as Inh. pose proof (repr_inst_in _ _ _ _ H Hm Hx Hi) as Ini.
  pose proof (repr_rp_irp _ _ _ _ H Hm Hx Hx) as Hne. pose proof (repr_ndata_range _ _ H). pose proof (repr_i_ndata_range _ _ _ _ H Hm Hi).
  unfold remove_change. apply wp_bind, wp_bind. unfold ccref_remove_change. apply wp_bind. eapply wp_get_ilist; [done|].
  apply wp_bind. rewrite (proj2 (Z.eqb_neq _ _)) by (destruct Gi as (-> & _ & _); pose proof (nonempty_zlen _ _ Ini); lia).
  eapply find_irp; [done..|]. apply wp_bind. eapply wp_remove_inst; [done..|]. intros t. apply wp_ret.
  apply wp_bind. eapply wp_change; [done|]. rewrite (proj2 (Z.ltb_ge _ _)) by lia.
  apply wp_bind. eapply wp_ref; [done|]. apply wp_bind, (wp_the _ (x_rp x)); [done|].
  apply wp_bind. eapply wp_delete; [done..|lia|]. unfold drop_refs. rewrite (proj2 (Z.eqb_neq _ _)) by lia. simpl.
  apply wp_bind. eapply wp_remove_hist; simpl; [done|done|by rewrite lookup_delete_ne|by apply lookup_insert_eq|]. intros t'.
  apply wp_bind. eapply wp_change; [simpl; apply lookup_insert_eq|]. simpl. rewrite <- Hk.
  apply wp_bind, wp_whenc; intros Ha.
  - apply wp_bind. unfold sub_i_ndata. eapply wp_upd_inst; [simpl; apply lookup_insert_eq|]. unfold sub_ndata. apply wp_modst. simpl.
    rewrite insert_insert_eq, !wrap_pred32 by (pose proof (repr_alive_ndata _ _ _ H Hx Ha); pose proof (repr_alive_i_ndata _ _ _ _ H Hm Hx Hi Ha); lia).
    apply wp_ret. unfold uncache. apply wp_bind, wp_bind. eapply wp_ref; [simpl; by rewrite lookup_delete_ne|].
    eapply wp_upd_change; [simpl; apply lookup_insert_eq|]. simpl. rewrite insert_insert_eq.
    eapply wp_delete; simpl; [by rewrite lookup_delete_ne|apply lookup_insert_eq|simpl; lia|]. simpl. apply HQ. simpl.
    split; simpl; rewrite ?Hm, ?Ha; try done; try lia; [|].
    + intros cp Hcp. rewrite drop_refs_ne, lookup_insert_ne by done. done.
    + exists i, (mkList (filter (.≠ x_irp x) (l_refs (i_list i))) t (l_nchanges (i_list i) - 1)). split_and!; try done; rewrite ?Z.sub_0_r; by destruct i.
  - apply wp_ret. unfold uncache. apply wp_bind, wp_bind. eapply wp_ref; [simpl; by rewrite lookup_delete_ne|].
    eapply wp_upd_change; [simpl; apply lookup_insert_eq|]. simpl. rewrite insert_insert_eq.
    eapply wp_delete; simpl; [by rewrite lookup_delete_ne|apply lookup_insert_eq|simpl; lia|]. simpl. apply HQ. simpl.
    split; simpl; rewrite ?Hm, ?Ha; try done; try lia; [|].
    + intros cp Hcp. rewrite drop_refs_ne, lookup_insert_ne by done. done.
    + exists i, (mkList (filter (.≠ x_irp x) (l_refs (i_list i))) t (l_nchanges (i_list i) - 1)). split_and!; try done; rewrite ?Z.sub_0_r; by destruct i.
Qed.

(** The removal of a sample from a cache without instances. *)
Lemma wp_remove_single s L x (Q : () -> HistoryCache_t -> Prop) : multi = false -> repr (st s) L -> x ∈ L ->
  (forall s', removed multi (st s) (st s') x -> Q tt s') -> wp (remove_change None (x_cp x)) Q s.
Proof.
  intros Hm H Hx HQ. destruct (repr_sample _ _ _ _ _ _ H Hx) as [Hrp _ (c & Hc & [Hk Hn Ht _ _])].
  rewrite Hm in Hrp. unfold own_refs in Hn. rewrite Hm in Hn.
  pose proof (repr_good_hist _ _ _ _ _ H) as Gh. pose proof (repr_hist_in _ _ _ H Hx) as Inh. pose proof (repr_ndata_range _ _ H).
  unfold remove_change. apply wp_bind, wp_bind. unfold ccref_remove_change. apply wp_bind, wp_get_hist.
  apply wp_bind. rewrite (proj2 (Z.eqb_neq _ _)) by (destruct Gh as (-> & _ & _); pose proof (nonempty_zlen _ _ Inh); lia).
  eapply find_rp; [done..|]. apply wp_bind. eapply wp_remove_hist; [done..|]. intros t. apply wp_ret.
  apply wp_bind. eapply wp_change; [done|]. rewrite <- Hk.
  apply wp_bind, wp_whenc; intros Ha; [unfold sub_ndata; apply wp_modst; simpl;
    rewrite wrap_pred32 by (pose proof (repr_alive_ndata _ _ _ H Hx Ha); lia)|];
    rewrite (proj2 (Z.ltb_ge _ _)) by lia; apply wp_ret; unfold uncache; apply wp_bind, wp_bind;
    (eapply wp_ref; [done|]); (eapply wp_upd_change; [done|]); simpl;
    (eapply wp_delete; simpl; [done|apply lookup_insert_eq|simpl; lia|]); apply HQ; simpl;
    (split; simpl; rewrite ?Hm, ?Ha; try done; try lia);
    intros cp Hcp; by rewrite drop_refs_ne, lookup_insert_ne by done.
Qed.

(** The last steps of every removal: both references go, one of them from the
    list of the cache. *)
Lemma wp_drop_both s (s0 : Store) L x c i l (Q : () -> HistoryCache_t -> Prop) : multi = true -> repr s0 L -> x ∈ L ->
  insts s0 !! x_ip x = Some i ->
  l_refs l = filter (.≠ x_irp x) (l_refs (i_list i)) -> l_nchanges l = l_nchanges (i_list i) - 1 ->
  hc_changes (st s) = hc_changes s0 -> refs (st s) = refs s0 -> insts (st s) = <[x_ip x := set_i_ndata (i_ndata i - (if x_alive x then 1 else 0)) (set_i_list l i)]> (insts s0) ->
  hc_set (st s) = hc_set s0 -> hc_ninstances (st s) = hc_ninstances s0 -> hc_ndata (st s) = hc_ndata s0 - (if x_alive x then 1 else 0) -> next_addr (st s) = next_addr s0 ->
  (forall cp, cp <> x_cp x -> chgs (st s) !! cp = chgs s0 !! cp) -> chgs (st s) !! x_cp x = Some c -> 2 <= c_nrefs c <= MAX_CHANGE_REFS ->
  (forall s', removed multi s0 (st s') x -> Q tt s') ->
  wp (ccref_delete (x_irp x);; ccref_remove_ref HIST (x_rp x);; uncache (x_rp x);; ccref_delete (x_rp x)) Q s.
Proof.
  intros Hm H Hx Hi E1 E2 F1 F2 F3 F6 F7 F4 F5 Hne Hc Hn HQ. destruct (repr_sample _ _ _ _ _ _ H Hx) as [Hrp Hirp _].
  rewrite Hm in Hrp, Hirp. pose proof (repr_good_hist _ _ _ _ _ H) as Gh. pose proof (repr_hist_in _ _ _ H Hx) as Inh.
  pose proof (repr_rp_irp _ _ _ _ H Hm Hx Hx) as Hd. rewrite <- F1 in Gh, Inh. rewrite <- F2 in Hrp, Hirp.
  apply wp_bind. eapply wp_delete; [done..|lia|]. unfold drop_refs. rewrite (proj2 (Z.eqb_neq _ _)) by lia. simpl.
  apply wp_bind. eapply wp_remove_hist; simpl; [done|done|by rewrite lookup_delete_ne|by apply lookup_insert_eq|]. intros t.
  apply wp_bind. unfold uncache. apply wp_bind. eapply wp_ref; [simpl; by rewrite lookup_delete_ne|].
  eapply wp_upd_change; [simpl; apply lookup_insert_eq|]. simpl. rewrite insert_insert_eq.
  eapply wp_delete; simpl; [by rewrite lookup_delete_ne|apply lookup_insert_eq|simpl; lia|]. simpl. apply HQ. simpl.
  split; simpl; rewrite ?Hm, ?F1, ?F2, ?F5; try done.
  - intros cp Hcp. rewrite drop_refs_ne, lookup_insert_ne by done. by apply Hne.
  - intros _. destruct (repr_sample _ _ _ _ _ _ H Hx) as [_ _ (c0 & Hc0 & _)]. by eexists.
  - exists i, l. done.
Qed.

(** One round of the loop of [hc_free_instance]. *)
Lemma wp_free_sample s L x i (Q : () -> HistoryCache_t -> Prop) : multi = true -> repr (st s) L -> x ∈ L ->
  insts (st s) !! x_ip x = Some i -> head (l_refs (i_list i)) = Some (x_irp x) ->
  (forall s', removed multi (st s) (st s') x -> Q tt s') -> wp (free_sample (x_ip x)) Q s.
Proof.
  intros Hm H Hx Hi Hhd HQ. destruct (repr_sample _ _ _ _ _ _ H Hx) as [Hrp Hirp (c & Hc & [Hk Hn Ht _ _])].
  rewrite Hm in Hrp, Hirp. pose proof Hn as Hn'. unfold own_refs in Hn'. rewrite Hm in Hn'.
  pose proof (repr_good_inst _ _ _ _ _ _ _ H Hm Hi) as Gi. pose proof (repr_inst_in _ _ _ _ H Hm Hx Hi) as Ini.
  destruct (good_count _ _ Gi Ini) as [Ew Hpos]. pose proof (repr_ndata_range _ _ H). pose proof (repr_i_ndata_range _ _ _ _ H Hm Hi).
  unfold free_sample. apply wp_bind. unfold first_ref. apply wp_bind. eapply wp_get_ilist; [done|].
  rewrite (proj2 (Z.eqb_neq _ _)) by lia. eapply wp_the; [done|]. apply wp_bind. eapply wp_ref; [done|].
  apply wp_bind. eapply wp_change; [done|]. simpl. rewrite <- Hk.
  (* the counters *)
  apply wp_bind. set (i1 := if x_alive x then set_i_ndata (i_ndata i - 1) i else i).
  set (s1 := set_st (set_hc_ndata (hc_ndata (st s) - (if x_alive x then 1 else 0)) (set_insts (<[x_ip x := i1]> (insts (st s))) (st s))) s).
  assert (wp (whenc (x_alive x) (sub_i_ndata (x_ip x);; sub_ndata)) (fun _ s' => s' = s1) s) as Hcnt.
  { apply wp_whenc; intros Ha.
    - apply wp_bind. unfold sub_i_ndata. eapply wp_upd_inst; [done|]. unfold sub_ndata. apply wp_modst. simpl. unfold s1, i1. rewrite Ha.
      by rewrite !wrap_pred32 by (pose proof (repr_alive_ndata _ _ _ H Hx Ha); pose proof (repr_alive_i_ndata _ _ _ _ H Hm Hx Hi Ha); lia).
    - unfold s1, i1. rewrite Ha. rewrite Z.sub_0_r, insert_id by done. by destruct s as [[]]. }
  eapply wp_mono; [exact Hcnt|]. intros [] ? ->.
  (* the list of the instance *)
  assert (El : i_list i1 = i_list i) by (unfold i1; by destruct (x_alive x)).
  apply wp_bind. unfold list_remove. apply wp_bind. eapply wp_get_ilist; [simpl; apply lookup_insert_eq|]. rewrite El, decide_True by done.
  eapply wp_put_ilist; [simpl; apply lookup_insert_eq|]. simpl. rewrite insert_insert_eq.
  apply wp_bind. eapply wp_upd_inst; [simpl; apply lookup_insert_eq|]. simpl. rewrite insert_insert_eq, Ew.
  set (l2 := mkList _ _ _).
  assert (Ei : set_i_list l2 i1 = set_i_ndata (i_ndata i - (if x_alive x then 1 else 0)) (set_i_list l2 i)).
  { unfold i1. destruct (x_alive x); [done|]. rewrite Z.sub_0_r. by destruct i. }
  change (set_i_list l2 (set_i_list _ i1)) with (set_i_list l2 i1). rewrite Ei.
  apply wp_bind, wp_whenc; intros Hz.
  - eapply wp_forget_acks; [done..|]. intros s2 c' E1 _ _ Hn2 Ht2 _. unfold own_refs in Hn2. rewrite Hm in Hn2.
    apply wp_bind, (wp_the _ (x_rp x)); [done|]. eapply (wp_drop_both _ (st s) L x c' i l2); rewrite ?E1; simpl; try done; try lia.
    + intros cp ?. by rewrite lookup_insert_ne.
    + apply lookup_insert_eq.
  - apply wp_bind, (wp_the _ (x_rp x)); [done|]. eapply (wp_drop_both _ (st s) L x c i l2); simpl; try done; try lia.
Qed.

Lemma removed_put_change s c' x s' : removed multi (set_chgs (<[x_cp x := c']> (chgs s)) s) s' x -> is_Some (chgs s !! x_cp x) ->
  removed multi s s' x.
Proof.
  intros R Hc. split; try apply R; [|done].
  intros cp Hcp. rewrite (rm_chgs _ _ _ _ R) by done. simpl. by rewrite lookup_insert_ne.
Qed.

Definition inst_of (x : Sample) : option nat := if multi then Some (x_ip x) else None.

Lemma wp_remove_change s L x (Q : () -> HistoryCache_t -> Prop) : repr (st s) L -> x ∈ L ->
  (forall s', removed multi (st s) (st s') x -> Q tt s') -> wp (remove_change (inst_of x) (x_cp x)) Q s.
Proof.
  intros H Hx HQ. unfold inst_of. destruct multi eqn:Hm.
  - rewrite <- Hm in H. eapply wp_remove_multi; [done..|]. by rewrite Hm.
  - rewrite <- Hm in H. eapply wp_remove_single; [done..|]. by rewrite Hm.
Qed.

(** ** Removing several samples *)

(** What stays when the samples [D] leave the store. *)
Record keep (s s' : Store) (D : list Sample) : Prop := {
  kp_set : hc_set s' = hc_set s /\ hc_ninstances s' = hc_ninstances s;
  kp_next : next_addr s' = next_addr s;
  kp_chgs : forall cp, cp ∉ x_cp <$> D -> chgs s' !! cp = chgs s !! cp;
  kp_none : forall ip, insts s !! ip = None -> insts s' !! ip = None;
  kp_other : forall ip, ip ∉ x_ip <$> D -> insts s' !! ip = insts s !! ip;
  kp_insts : forall ip i, insts s !! ip = Some i -> exists l n, insts s' !! ip = Some (set_i_ndata n (set_i_list l i))
}.

Lemma keep_removed s s' x : removed multi s s' x -> keep s s' [x].
Proof.
  intros R. split; try apply R.
  - intros cp Hcp. apply (rm_chgs _ _ _ _ R). intros ->. apply Hcp. left.
  - intros ip Hn. pose proof (rm_insts _ _ _ _ R) as Hi. destruct multi; [|by rewrite Hi].
    destruct Hi as (i & l & Hi & -> & _ & _). by rewrite lookup_insert_ne by congruence.
  - intros ip Hip. apply not_elem_of_cons in Hip as [Hne _]. pose proof (rm_insts _ _ _ _ R) as Hi. destruct multi; [|by rewrite Hi].
    destruct Hi as (i & l & Hi & -> & _ & _). by rewrite lookup_insert_ne by done.
  - intros ip i Hip. pose proof (rm_insts _ _ _ _ R) as Hi.
    assert (insts s !! ip = Some (set_i_ndata (i_ndata i) (set_i_list (i_list i) i))) as E by (by destruct i).
    destruct multi; [|rewrite Hi; eauto]. destruct Hi as (j & l & Hj & -> & _ & _).
    destruct (decide (ip = x_ip x)) as [->|]; [|rewrite lookup_insert_ne by done; eauto].
    rewrite lookup_insert_eq. rewrite Hip in Hj. injection Hj as <-. eauto.
Qed.

Lemma keep_refl s : keep s s [].
Proof. split; try done. intros ip i Hi. exists (i_list i), (i_ndata i). by destruct i. Qed.

Lemma keep_trans s s1 s2 D1 D2 : keep s s1 D1 -> keep s1 s2 D2 -> keep s s2 (D1 ++ D2).
Proof.
  intros [[A1 A2] B C D F E] [[A1' A2'] B' C' D' F' E']. split; [split; congruence|congruence| |auto| |].
  - intros cp Hcp. rewrite fmap_app, elem_of_app in Hcp. rewrite C', C; tauto.
  - intros ip Hip. rewrite fmap_app, elem_of_app in Hip. rewrite F', F; tauto.
  - intros ip i Hi. destruct (E _ _ Hi) as (l & n & Hi1). destruct (E' _ _ Hi1) as (l' & n' & ->). by exists l', n'.
Qed.

Lemma keep_perm s s' D D' : D ≡ₚ D' -> keep s s' D -> keep s s' D'.
Proof. intros E []. split; try done; intros a; rewrite <- E; auto. Qed.

Definition others (ip : nat) (L : list Sample) : list Sample := filter (fun x => x_ip x <> ip) L.

Lemma of_inst_nil s L ip i : repr s L -> multi = true -> insts s !! ip = Some i -> of_inst ip L = [] <-> l_nchanges (i_list i) = 0.
Proof.
  intros H Hm Hi. destruct (repr_inst _ _ _ _ _ _ _ H Hm Hi) as [Hr -> _]. rewrite (follows_len _ _ _ Hr).
  unfold zlen. rewrite length_fmap. destruct (of_inst ip L); simpl; split; (done || lia).
Qed.

Lemma others_all ip L : of_inst ip L = [] -> others ip L = L.
Proof.
  unfold of_inst, others. induction L as [|x L IH]; [done|]. destruct (decide (x_ip x = ip)).
  - by rewrite filter_cons_True.
  - rewrite filter_cons_False, filter_cons_True by done. intros. by rewrite IH.
Qed.

Lemma wp_free_samples fuel s L ip i (Q : () -> HistoryCache_t -> Prop) : multi = true -> repr (st s) L ->
  insts (st s) !! ip = Some i -> (length (of_inst ip L) <= fuel)%nat ->
  (forall s', repr (st s') (others ip L) -> keep (st s) (st s') (of_inst ip L) -> Q tt s') -> wp (free_samples fuel ip) Q s.
Proof.
  intros Hm. revert s L i Q. induction fuel as [|fuel IH]; intros s L i Q H Hi Hf HQ; simpl.
  - assert (E : of_inst ip L = []) by (destruct (of_inst ip L); [done|simpl in Hf; lia]).
    apply wp_bind. eapply wp_inst; [done|]. rewrite (proj1 (of_inst_nil _ _ _ _ H Hm Hi) E). apply wp_ret, HQ.
    + by rewrite others_all.
    + rewrite E. apply keep_refl.
  - apply wp_bind. eapply wp_inst; [done|]. destruct (Z.eqb_spec (l_nchanges (i_list i)) 0) as [Hz|Hz].
    + apply (of_inst_nil _ _ _ _ H Hm Hi) in Hz. apply wp_ret, HQ; [by rewrite others_all|]. rewrite Hz. apply keep_refl.
    + destruct (repr_inst _ _ _ _ _ _ _ H Hm Hi) as [_ Hn _].
      destruct (l_refs (i_list i)) as [|irp rest] eqn:El; [by rewrite Hn in Hz|].
      destruct (repr_inst_of _ _ _ _ irp H Hm Hi) as (x & Hx & E & Exi); [rewrite El; left|]. subst ip.
      apply wp_bind. eapply (wp_free_sample _ _ x i); [done..|by rewrite El, Exi|].
      intros s1 R. apply list_elem_of_split in Hx as (L1 & L2 & ->). pose proof (repr_removed _ _ _ _ _ _ _ _ H R) as H1.
      pose proof (keep_removed _ _ _ R) as K1. destruct (kp_insts _ _ _ K1 _ _ Hi) as (l & n & Hi1).
      assert (Eo : of_inst (x_ip x) (L1 ++ x :: L2) ≡ₚ [x] ++ of_inst (x_ip x) (L1 ++ L2)).
      { rewrite !of_inst_app, of_inst_cons, decide_True by done. simpl. by rewrite <- Permutation_middle. }
      eapply IH; [done|done| |].
      * rewrite Eo in Hf. simpl in Hf. lia.
      * intros s' H' K'. apply HQ.
        -- assert (others (x_ip x) (L1 ++ x :: L2) = others (x_ip x) (L1 ++ L2)) as ->; [|done].
           unfold others. rewrite !filter_app, filter_cons_False by (intros []; done). done.
        -- eapply keep_perm; [symmetry; exact Eo|]. by eapply keep_trans.
Qed.

End Inv.

Section Remove.
Context (cf : Conf) (calm : bool).
#[local] Abbreviation multi := (hc_multi_inst cf).
#[local] Abbreviation repr := (repr (hc_multi_inst cf) (hc_src_time cf) calm).

(** A reliable reader that keeps everything does not remove samples. *)
Definition keeps_all (rel : bool) : bool := hc_must_ack cf && negb (hc_writer cf) && rel.

Lemma wp_remove_i s L x rel (Q : ReturnCode_t -> HistoryCache_t -> Prop) : repr (st s) L -> x ∈ L ->
  (hc_must_ack cf = true -> forall c, chgs (st s) !! x_cp x = Some c -> c_wack c = 0) ->
  (keeps_all rel = true -> forall s', st s' = st s -> hc_blocked s' = true -> Q DDS_RETCODE_NO_DATA s') ->
  (keeps_all rel = false -> forall s', removed multi (st s) (st s') x -> Q DDS_RETCODE_OK s') ->
  wp (hc_remove_i cf (inst_of multi x) (x_cp x) rel) Q s.
Proof.
  intros H Hx Hwa HQ1 HQ2. destruct (repr_sample _ _ _ _ _ _ H Hx) as [_ _ (c & Hc & [Hk Hn Ht Hw Hh])].
  unfold keeps_all in *. unfold hc_remove_i, remove_i. apply wp_bind. eapply wp_change; [done|]. apply wp_bind.
  destruct (hc_must_ack cf) eqn:Hm.
  - rewrite (Hwa eq_refl c Hc). simpl in *. apply wp_if; intros Hr.
    + apply wp_bind, wp_modc, wp_ret, wp_ret. by apply HQ1.
    + apply wp_ret. apply wp_bind. eapply wp_remove_change; [done..|]. intros s' R. apply wp_ret. by apply HQ2.
  - apply wp_bind, wp_whenc; intros Hz.
    + eapply wp_forget_acks; [done..|]. intros s1 c' E1 Ek Eh Hn' Ht' Hw'. apply wp_ret. apply wp_bind.
      eapply (wp_remove_change _ _ _ s1 L); [|done|].
      * rewrite E1. eapply repr_put_change; [done..|]. intros _. split; [done|]. split; [lia|].
        destruct calm; [|done]. by destruct Hw' as [-> | ->].
      * intros s' R. apply wp_ret. apply HQ2; [done|]. rewrite E1 in R. eapply removed_put_change; [done|by eexists].
    + apply wp_ret, wp_bind. eapply wp_remove_change; [done..|]. intros s' R. apply wp_ret. by apply HQ2.
Qed.

End Remove.
