(* ===== verification/CacheSet.v ===== *)
(** History caches: the set of instances, in its two formats, is a map from
    handles and from keys to instances; instances are added to it and removed
    from it. *)

From stdpp Require Import gmap sorting.
From S2P Require Import Prelude Seqnr Cache CacheAdd CacheGet CacheProps CacheInv.
From stdpp Require Import list.

#[local] Open Scope Z_scope.

(** ** Sorted lists *)

(** A comparison function that is a total order of the keys with [ok]. *)
Record total_cmp {K} (cmp : K -> K -> Z) (ok : K -> Prop) : Prop := {
  tc_eq : forall a b, ok a -> ok b -> cmp a b = 0 <-> a = b;
  tc_flip : forall a b, ok a -> ok b -> cmp a b < 0 <-> 0 < cmp b a;
  tc_trans : forall a b c, ok a -> ok b -> ok c -> cmp a b < 0 -> cmp b c < 0 -> cmp a c < 0
}.

Section Sorted.
Context {K D : Type} (cmp : K -> K -> Z) (ok : K -> Prop) (T : total_cmp cmp ok).
Implicit Types (l : list (K * D)).

Definition key_lt (x y : K * D) : Prop := cmp x.1 y.1 < 0.
Definition sl_ok l : Prop := StronglySorted key_lt l /\ Forall (fun x => ok x.1) l.

Lemma sl_ok_cons x l : sl_ok (x :: l) <-> ok x.1 /\ Forall (key_lt x) l /\ sl_ok l.
Proof.
  unfold sl_ok. rewrite Forall_cons. split.
  - intros [Hs [? ?]]. inversion_clear Hs. done.
  - intros (? & ? & ? & ?). split; [by constructor|done].
Qed.

Lemma cmp_cases a b : ok a -> ok b -> cmp a b < 0 \/ a = b /\ cmp a b = 0 \/ 0 < cmp a b.
Proof. intros Ha Hb. pose proof (tc_eq _ _ T a b Ha Hb). destruct (Z.lt_trichotomy (cmp a b) 0) as [?|[?|?]]; [by left|right; left; tauto|right; by right]. Qed.

Lemma sl_search_spec k l d : sl_ok l -> ok k -> sl_search cmp k l = Some d <-> (k, d) ∈ l.
Proof.
  intros Hl Hk. induction l as [|[k' d'] l IH]; simpl; [by rewrite elem_of_nil|].
  apply sl_ok_cons in Hl as (Hk' & Hlt & Hl). simpl in Hk'. specialize (IH Hl).
  assert (Hnot : 0 < cmp k' k -> (k, d) ∉ l).
  { intros Hgt Hin. rewrite Forall_forall in Hlt. specialize (Hlt _ Hin). unfold key_lt in Hlt. simpl in Hlt. lia. }
  destruct (cmp_cases k' k Hk' Hk) as [Hc|[[-> Hc]|Hc]].
  - rewrite (proj2 (Z.ltb_lt _ _)) by done. rewrite IH, elem_of_cons. split; [by right|]. intros [E|]; [|done].
    injection E as -> ->. assert (cmp k' k' = 0) by (by apply (tc_eq _ _ T)). lia.
  - rewrite Hc. simpl. rewrite elem_of_cons. split; [intros E; left; congruence|]. intros [E|Hin]; [congruence|].
    rewrite Forall_forall in Hlt. specialize (Hlt _ Hin). unfold key_lt in Hlt. simpl in Hlt. lia.
  - rewrite (proj2 (Z.ltb_ge _ _)), (proj2 (Z.eqb_neq _ _)) by lia. rewrite elem_of_cons. split; [done|]. intros [E|Hin].
    + injection E as -> ->. assert (cmp k' k' = 0) by (by apply (tc_eq _ _ T)). lia.
    + by destruct Hnot.
Qed.

Lemma sl_search_none k l : sl_ok l -> ok k -> sl_search cmp k l = None <-> k ∉ l.*1.
Proof.
  intros Hl Hk. split.
  - intros E ([k' d] & -> & Hin)%list_elem_of_fmap. simpl in *. by rewrite (proj2 (sl_search_spec k' l d Hl Hk) Hin) in E.
  - intros Hn. destruct (sl_search cmp k l) as [d|] eqn:E; [|done]. apply sl_search_spec in E; [|done..].
    destruct Hn. apply list_elem_of_fmap. by exists (k, d).
Qed.

Lemma sl_insert_new k d l : sl_ok l -> ok k -> k ∉ l.*1 -> sl_insert cmp k d l ≡ₚ (k, d) :: l /\ sl_ok (sl_insert cmp k d l).
Proof.
  intros Hl Hk. induction l as [|[k' d'] l IH]; simpl; [intros _|intros Hn].
  { split; [done|]. apply sl_ok_cons. split; [done|]. split; [constructor|done]. }
  apply not_elem_of_cons in Hn as [Hne Hn]. pose proof Hl as Hl0. apply sl_ok_cons in Hl as (Hk' & Hlt & Hl). simpl in Hk'.
  destruct (IH Hl Hn) as [Hp Hs]. destruct (cmp_cases k' k Hk' Hk) as [Hc|[[-> Hc]|Hc]]; [|done|].
  - rewrite (proj2 (Z.ltb_lt _ _)) by done. split; [rewrite Hp; constructor|]. apply sl_ok_cons. split; [done|]. split; [|done].
    rewrite Hp. by constructor.
  - rewrite (proj2 (Z.ltb_ge _ _)), (proj2 (Z.eqb_neq _ _)) by lia. split; [done|]. apply sl_ok_cons. split; [done|]. split; [|done].
    assert (Hc' : cmp k k' < 0) by (by apply (tc_flip _ _ T)). constructor; [done|]. rewrite Forall_forall in Hlt |- *. intros [k2 d2] Hin.
    specialize (Hlt _ Hin). unfold key_lt in *. simpl in *. destruct Hl as [_ Hok]. rewrite Forall_forall in Hok.
    eapply (tc_trans _ _ T k k' k2); [done..|by apply (Hok (k2, d2))|done|done].
Qed.

Lemma sl_insert_same k d d' l : sl_ok l -> ok k -> (k, d) ∈ l ->
  exists l1 l2, l = l1 ++ (k, d) :: l2 /\ sl_insert cmp k d' l = l1 ++ (k, d') :: l2.
Proof.
  intros Hl Hk. induction l as [|[k1 d1] l IH]; simpl; [by intros ?%elem_of_nil|]. intros Hin.
  apply sl_ok_cons in Hl as (Hk' & Hlt & Hl). simpl in Hk'. apply elem_of_cons in Hin as [E|Hin].
  - injection E as -> ->. assert (cmp k1 k1 = 0) as E by (by apply (tc_eq _ _ T)). rewrite E. simpl. by exists [], l.
  - rewrite Forall_forall in Hlt. specialize (Hlt _ Hin). unfold key_lt in Hlt. simpl in Hlt. rewrite (proj2 (Z.ltb_lt _ _)) by done.
    destruct (IH Hl Hin) as (l1 & l2 & -> & ->). by exists ((k1, d1) :: l1), l2.
Qed.

Lemma sl_delete_spec k d l : sl_ok l -> ok k -> (k, d) ∈ l -> l ≡ₚ (k, d) :: sl_delete cmp k l /\ sl_ok (sl_delete cmp k l).
Proof.
  intros Hl Hk. induction l as [|[k1 d1] l IH]; simpl; [by intros ?%elem_of_nil|]. intros Hin.
  apply sl_ok_cons in Hl as (Hk' & Hlt & Hl). simpl in Hk'. apply elem_of_cons in Hin as [E|Hin].
  - injection E as -> ->. assert (cmp k1 k1 = 0) as E by (by apply (tc_eq _ _ T)). rewrite E. simpl. done.
  - pose proof Hlt as Hlt'. rewrite Forall_forall in Hlt'. specialize (Hlt' _ Hin). unfold key_lt in Hlt'. simpl in Hlt'.
    rewrite (proj2 (Z.ltb_lt _ _)) by done. destruct (IH Hl Hin) as [Hp Hs]. split; [rewrite Hp at 1; constructor|].
    apply sl_ok_cons. split; [done|]. split; [|done]. rewrite Hp in Hlt. by apply Forall_cons in Hlt as [_ ?].
Qed.

Lemma sl_ok_replace l1 k d d' l2 : sl_ok (l1 ++ (k, d) :: l2) -> sl_ok (l1 ++ (k, d') :: l2).
Proof.
  induction l1 as [|x l1 IH]; simpl; rewrite !sl_ok_cons; [done|]. intros (? & Hx & ?).
  rewrite !Forall_app, !Forall_cons in Hx |- *. destruct Hx as (? & ? & ?). split_and!; auto.
Qed.

Lemma sl_delete_insert k d d' l : sl_ok l -> ok k -> (k, d) ∈ l -> sl_delete cmp k (sl_insert cmp k d' l) = sl_delete cmp k l.
Proof.
  intros Hl Hk. induction l as [|[k1 d1] l IH]; simpl; [by intros ?%elem_of_nil|]. intros Hin.
  apply sl_ok_cons in Hl as (Hk' & Hlt & Hl). simpl in Hk'. apply elem_of_cons in Hin as [E|Hin].
  - injection E as -> ->. assert (cmp k1 k1 = 0) as E by (by apply (tc_eq _ _ T)). rewrite E. simpl. by rewrite E.
  - rewrite Forall_forall in Hlt. specialize (Hlt _ Hin). unfold key_lt in Hlt. simpl in Hlt. rewrite (proj2 (Z.ltb_lt _ _)) by done.
    simpl. rewrite (proj2 (Z.ltb_lt _ _)) by done. by rewrite IH.
Qed.

Lemma sl_ok_nodup l : sl_ok l -> NoDup l.*1.
Proof.
  induction l as [|[k d] l IH]; simpl; [by constructor|]. intros (Hk & Hlt & Hl)%sl_ok_cons. constructor; [|by apply IH].
  intros ([k' d'] & -> & Hin)%list_elem_of_fmap. rewrite Forall_forall in Hlt. specialize (Hlt _ Hin). unfold key_lt in Hlt. simpl in *.
  assert (cmp k' k' = 0) by (by apply (tc_eq _ _ T)). lia.
Qed.

End Sorted.

(** Handles compare as signed numbers, hashes byte by byte. *)
Lemma handle_total : total_cmp handle_cmp (in_u 16).
Proof.
  unfold handle_cmp. split.
  - intros a b Ha Hb. split; [|intros ->; lia]. intros E. assert (E' : ⟪a⟫16 = ⟪b⟫16) by lia.
    rewrite <- (wrap_small 16 a), <- (wrap_small 16 b), <- (wrap_swrap 16 a), <- (wrap_swrap 16 b), E' by done. done.
  - intros. lia.
  - intros. lia.
Qed.

Lemma hash_total : total_cmp hash_cmp (fun h => length h = 16%nat).
Proof.
  unfold hash_cmp. split.
  - intros a b Ha Hb. rewrite <- Hb in Ha. clear Hb. revert b Ha. induction a as [|x a IH]; intros [|y b]; simpl; try done.
    intros E. case_match; zbool; [subst y; rewrite IH by lia; split; congruence|]. split; [lia|congruence].
  - intros a b Ha Hb. rewrite <- Hb in Ha. clear Hb. revert b Ha. induction a as [|x a IH]; intros [|y b]; simpl; try done.
    intros E. rewrite (Z.eqb_sym y x). case_match; zbool; [subst y; rewrite IH by lia; done|lia].
  - intros a b c Ha Hb Hc. rewrite <- Hc in Ha, Hb. clear Hc. revert b c Ha Hb. induction a as [|x a IH]; intros [|y b] [|z c]; simpl; try done.
    intros [= Ha] [= Hb] E1 E2. destruct (Z.eqb_spec x y); destruct (Z.eqb_spec y z); destruct (Z.eqb_spec x z); try lia.
    by eapply (IH b c).
Qed.

(** ** The set of instances *)

Definition members (t : InstSet) : list nat := if hc_skiplists t then (hc_handles t).*2 else hc_inst_ll t.

Section Insts.
Context (cf : Conf).

(** What the cache relies on of [DDS_HashFromKey]: a hash has 16 bytes, and a
    short key is the start of its hash.  Long keys may collide. *)
Record hash_laws : Prop := {
  hl_len : forall k h, hash_from_key cf k = Some h -> length h = 16%nat;
  hl_short : short_key cf = true -> forall k h, hash_from_key cf k = Some h -> take (Z.to_nat (hc_key_size cf)) h = k
}.

(** No instance of the cache has the hash of [k] with another key. *)
Definition no_collision (s : Store) (k : list Z) : Prop :=
  forall p i, insts s !! p = Some i -> hash_from_key cf k = Some (i_hash i) -> key_of cf i = k.

(** The skiplists have every instance, alone in the chain of its hash; a hash
    with [spare] may have an empty chain. *)
Record long_ok (spare : list Z -> Prop) (s : Store) : Prop := {
  lo_handles : sl_ok handle_cmp (in_u 16) (hc_handles (hc_set s));
  lo_handle : forall h p, (h, p) ∈ hc_handles (hc_set s) -> exists i, insts s !! p = Some i /\ i_handle i = h;
  lo_hashes : sl_ok hash_cmp (fun h => length h = 16%nat) (hc_hashes (hc_set s));
  lo_chain : forall h ch, (h, ch) ∈ hc_hashes (hc_set s) ->
    ch = [] /\ spare h \/ exists p i, ch = [p] /\ insts s !! p = Some i /\ i_hash i = h;
  lo_all : forall p i, insts s !! p = Some i -> (i_hash i, [p]) ∈ hc_hashes (hc_set s)
}.

Record inst_key_ok (i : INSTANCE) : Prop := {
  ik_handle : 0 < i_handle i < 2 ^ 16;
  ik_hash : hash_from_key cf (key_of cf i) = Some (i_hash i);
  ik_key : if short_key cf then i_key i = None else is_Some (i_key i)
}.

(** The instances of the set: as many as are counted, with different handles,
    keys and hashes (so that no two keys in the cache collide), in the format
    that the set has. *)
Record set_okx (spare : list Z -> Prop) (s : Store) : Prop := {
  so_dom : forall p, p ∈ members (hc_set s) <-> is_Some (insts s !! p);
  so_nodup : NoDup (members (hc_set s));
  so_n : hc_ninstances s = zlen (members (hc_set s)) /\ hc_ninstances s < 2 ^ 16;
  so_handles : forall p q i j, insts s !! p = Some i -> insts s !! q = Some j -> i_handle i = i_handle j -> p = q;
  so_keys : forall p q i j, insts s !! p = Some i -> insts s !! q = Some j -> key_of cf i = key_of cf j -> p = q;
  so_hashes : forall p q i j, insts s !! p = Some i -> insts s !! q = Some j -> i_hash i = i_hash j -> p = q;
  so_inst : forall p i, insts s !! p = Some i -> inst_key_ok i;
  so_format : if hc_skiplists (hc_set s) then long_ok spare s else hc_hashes (hc_set s) = [] /\ hc_handles (hc_set s) = [];
  so_max : MAX_INST_LLIST <= hc_max_inst cf \/ hc_skiplists (hc_set s) = false /\ hc_ninstances s <= hc_max_inst cf
}.

(** When a new key is longer than a hash and there is no memory for it, the
    node of its hash stays behind. *)
Definition set_ok : Store -> Prop := set_okx (fun _ => short_key cf = false).

(** The set depends on what identifies an instance only. *)
Definition ident (i : INSTANCE) : Z * list Z * option (list Z) := (i_handle i, i_hash i, i_key i).

Definition same_insts (s s' : Store) : Prop :=
  hc_set s' = hc_set s /\ hc_ninstances s' = hc_ninstances s /\ forall ip, ident <$> insts s' !! ip = ident <$> insts s !! ip.

Lemma same_insts_some s s' p i' : same_insts s s' -> insts s' !! p = Some i' -> exists i, insts s !! p = Some i /\ ident i' = ident i.
Proof. intros (_ & _ & H) E. specialize (H p). rewrite E in H. destruct (insts s !! p) as [i|]; [|done]. exists i. split; [done|]. by apply (inj Some) in H. Qed.
Lemma same_insts_back s s' p i : same_insts s s' -> insts s !! p = Some i -> exists i', insts s' !! p = Some i' /\ ident i' = ident i.
Proof. intros (_ & _ & H) E. specialize (H p). rewrite E in H. destruct (insts s' !! p) as [i'|]; [|done]. exists i'. split; [done|]. by apply (inj Some) in H. Qed.

Lemma key_of_ident i i' : ident i' = ident i -> key_of cf i' = key_of cf i.
Proof. intros [= E1 E2 E3]. unfold key_of. by rewrite E2, E3. Qed.

Lemma set_ok_same spare s s' : set_okx spare s -> same_insts s s' -> set_okx spare s'.
Proof.
  intros H S. pose proof S as (E1 & E2 & E3). split; rewrite ?E1, ?E2; try apply H.
  - intros p. rewrite (so_dom _ _ H). split; intros [i Hi].
    + destruct (same_insts_back _ _ _ _ S Hi) as (i' & -> & _). by eexists.
    + destruct (same_insts_some _ _ _ _ S Hi) as (i' & -> & _). by eexists.
  - intros p q i j Hi Hj E. destruct (same_insts_some _ _ _ _ S Hi) as (i0 & Hi0 & [= A _ _]).
    destruct (same_insts_some _ _ _ _ S Hj) as (j0 & Hj0 & [= B _ _]). eapply (so_handles _ _ H); [done..|congruence].
  - intros p q i j Hi Hj E. destruct (same_insts_some _ _ _ _ S Hi) as (i0 & Hi0 & A%key_of_ident).
    destruct (same_insts_some _ _ _ _ S Hj) as (j0 & Hj0 & B%key_of_ident). eapply (so_keys _ _ H); [done..|congruence].
  - intros p q i j Hi Hj E. destruct (same_insts_some _ _ _ _ S Hi) as (i0 & Hi0 & [= _ A _]).
    destruct (same_insts_some _ _ _ _ S Hj) as (j0 & Hj0 & [= _ B _]). eapply (so_hashes _ _ H); [done..|congruence].
  - intros p i Hi. destruct (same_insts_some _ _ _ _ S Hi) as (i0 & Hi0 & A). pose proof (key_of_ident _ _ A).
    injection A as A1 A2 A3. destruct (so_inst _ _ H _ _ Hi0) as [B1 B2 B3].
    split; [by rewrite A1|congruence|by rewrite A3].
  - pose proof (so_format _ _ H) as F. destruct (hc_skiplists (hc_set s)); [|done]. destruct F as [F1 F2 F3 F4 F5].
    split; rewrite ?E1; try done.
    + intros h p Hp. destruct (F2 _ _ Hp) as (i & Hi & <-). destruct (same_insts_back _ _ _ _ S Hi) as (i' & Hi' & [= A _ _]). eauto.
    + intros h ch Hp. destruct (F4 _ _ Hp) as [?|(p & i & -> & Hi & <-)]; [by left|right].
      destruct (same_insts_back _ _ _ _ S Hi) as (i' & Hi' & [= _ A _]). eauto.
    + intros p i' Hi'. destruct (same_insts_some _ _ _ _ S Hi') as (i & Hi & [= _ -> _]). eauto.
Qed.

Lemma same_keep s s' D : keep s s' D -> same_insts s s'.
Proof.
  intros [[E1 E2] _ _ Hn _ Hi]. split; [done|]. split; [done|]. intros ip. destruct (insts s !! ip) as [i|] eqn:E.
  - destruct (Hi _ _ E) as (l & n & ->). done.
  - by rewrite Hn.
Qed.

Lemma same_insts_refl s : same_insts s s.
Proof. done. Qed.
Lemma same_insts_trans s s1 s2 : same_insts s s1 -> same_insts s1 s2 -> same_insts s s2.
Proof. intros (A & B & C) (A' & B' & C'). split; [congruence|]. split; [congruence|]. intros ip. by rewrite C', C. Qed.

Lemma same_put_inst s ip i i' : insts s !! ip = Some i -> ident i' = ident i -> same_insts s (set_insts (<[ip := i']> (insts s)) s).
Proof.
  intros Hi E. split; [done|]. split; [done|]. intros ip'. simpl. destruct (decide (ip' = ip)) as [->|].
  - rewrite lookup_insert_eq, Hi. simpl. by rewrite E.
  - by rewrite lookup_insert_ne.
Qed.

(** ** Finding instances *)

Lemma wp_find_inst f l s (Q : option nat -> HistoryCache_t -> Prop) :
  (forall p, p ∈ l -> is_Some (insts (st s) !! p)) ->
  (forall p i, p ∈ l -> insts (st s) !! p = Some i -> f i = true -> Q (Some p) s) ->
  ((forall p i, p ∈ l -> insts (st s) !! p = Some i -> f i = false) -> Q None s) ->
  wp (find_inst f l) Q s.
Proof.
  revert Q. induction l as [|p l IH]; intros Q Hd Hf Hn; simpl.
  { apply wp_ret, Hn. intros ? ? []%elem_of_nil. }
  destruct (Hd p) as [i Hi]; [by left|]. apply wp_bind. eapply wp_inst; [done|]. apply wp_if; intros Hb.
  - apply wp_ret. by eapply Hf; [left|..].
  - apply IH.
    + intros. apply Hd. by right.
    + intros. eapply Hf; [by right|done..].
    + intros Hno. apply Hn. intros p' i' [->|Hin]%elem_of_cons Hi'; [congruence|by eapply Hno].
Qed.

Definition has_handle (s : Store) (h : Z) (o : option nat) : Prop :=
  match o with
  | Some p => exists i, insts s !! p = Some i /\ i_handle i = h
  | None => forall p i, insts s !! p = Some i -> i_handle i <> h
  end.
Definition has_key (s : Store) (k : list Z) (o : option nat) : Prop :=
  match o with
  | Some p => exists i, insts s !! p = Some i /\ key_of cf i = k
  | None => forall p i, insts s !! p = Some i -> key_of cf i <> k
  end.

Lemma has_key_dec s k : (exists p i, insts s !! p = Some i /\ key_of cf i = k) \/ has_key s k None.
Proof.
  destruct (decide (Exists (fun x => key_of cf (snd x) = k) (map_to_list (insts s)))) as [He|Hn].
  - apply Exists_exists in He as ([p i] & Hin%elem_of_map_to_list & E). left. eauto.
  - right. intros p i Hi E. apply Hn, Exists_exists. exists (p, i). split; [by apply elem_of_map_to_list|done].
Qed.

(** A key that the cache does not have and that does not collide has a new
    hash; no key of a cache with short keys collides. *)
Definition fresh_key (s : Store) (k : list Z) : Prop := forall p i, insts s !! p = Some i -> hash_from_key cf k <> Some (i_hash i).

Lemma fresh_no_key s k : has_key s k None -> no_collision s k -> fresh_key s k.
Proof. intros Hno Hc p i Hi E. by apply (Hno p i Hi), (Hc p i). Qed.

Lemma fresh_has_key spare s k : set_okx spare s -> fresh_key s k -> has_key s k None.
Proof. intros H Hf p i Hi <-. apply (Hf p i Hi). by destruct (so_inst _ _ H _ _ Hi). Qed.

Lemma short_no_collision (W : hash_laws) spare s k : set_okx spare s -> short_key cf = true -> no_collision s k.
Proof.
  intros H Hs p i Hi E. destruct (so_inst _ _ H _ _ Hi) as [_ A _].
  rewrite <- (hl_short W Hs _ _ E). by rewrite (hl_short W Hs _ _ A).
Qed.

Lemma has_handle_some spare s h p i o : set_okx spare s -> has_handle s h o -> insts s !! p = Some i -> i_handle i = h -> o = Some p.
Proof.
  intros H Ho Hi E. destruct o as [q|]; [|by destruct (Ho _ _ Hi)].
  destruct Ho as (j & Hj & Ej). f_equal. eapply (so_handles _ _ H); [done..|congruence].
Qed.

(** [hc_get_instance_handle] finds the instance with a handle. *)
Lemma wp_get_instance_handle spare h s (Q : option nat -> HistoryCache_t -> Prop) : set_okx spare (st s) -> in_u 16 h ->
  (forall o, has_handle (st s) h o -> Q o s) -> wp (hc_get_instance_handle h) Q s.
Proof.
  intros H Hh HQ. unfold hc_get_instance_handle. apply wp_bind, wp_getc. pose proof (so_format _ _ H) as F.
  pose proof (so_dom _ _ H) as Hd. unfold members in Hd. destruct (hc_skiplists (hc_set (st s))) eqn:Hs; simpl.
  - apply wp_ret, HQ. rewrite wrap_small by done. destruct (sl_search _ _ _) as [p|] eqn:E.
    + apply (sl_search_spec _ _ handle_total) in E; [|apply F|done]. by apply (lo_handle _ _ F) in E.
    + intros p i Hi <-. apply (sl_search_none _ _ handle_total) in E; [|apply F|done]. apply E.
      assert (is_Some (insts (st s) !! p)) as Hp by by eexists. apply Hd in Hp. apply list_elem_of_fmap in Hp as ([h' p'] & -> & Hin).
      simpl in *. destruct (lo_handle _ _ F _ _ Hin) as (j & Hj & Ej). rewrite Hi in Hj. injection Hj as <-.
      apply list_elem_of_fmap. exists (h', p'). by rewrite Ej.
  - apply wp_find_inst.
    + intros p Hp. by apply Hd.
    + intros p i Hp Hi Hb%Z.eqb_eq. apply HQ. by exists i.
    + intros Hno. apply HQ. intros p i Hi. assert (p ∈ hc_inst_ll (hc_set (st s))) as Hp by (apply Hd; by eexists).
      by apply Z.eqb_neq, (Hno p).
Qed.

(** ** Removing an instance *)

(** An instance leaves the lists of the set. *)
Record unlinked (t t' : InstSet) (p : nat) (i : INSTANCE) : Prop := {
  ul_members : members t ≡ₚ p :: members t';
  ul_format : hc_skiplists t' = hc_skiplists t;
  ul_long : if hc_skiplists t then
      hc_inst_ll t' = [] /\ hc_handles t ≡ₚ (i_handle i, p) :: hc_handles t' /\ sl_ok handle_cmp (in_u 16) (hc_handles t')
      /\ hc_hashes t ≡ₚ (i_hash i, [p]) :: hc_hashes t' /\ sl_ok hash_cmp (fun h => length h = 16%nat) (hc_hashes t')
    else hc_hashes t' = [] /\ hc_handles t' = []
}.

Lemma hash_length (L : hash_laws) i : inst_key_ok i -> length (i_hash i) = 16%nat.
Proof. intros K. eapply hl_len, ik_hash; done. Qed.

Lemma handle_u16 i : inst_key_ok i -> in_u 16 (i_handle i).
Proof. intros [? _ _]. unfold in_u. lia. Qed.

Lemma member_perm (a : nat) l : NoDup l -> a ∈ l -> l ≡ₚ a :: filter (.≠ a) l.
Proof. intros Hn (l1 & l2 & ->)%list_elem_of_split. rewrite filter_ne_mid by done. by rewrite <- Permutation_middle. Qed.

Lemma wp_unlink (W : hash_laws) spare s p i (Q : option nat -> HistoryCache_t -> Prop) : set_okx spare (st s) -> insts (st s) !! p = Some i ->
  (forall s' t', st s' = set_hc_set t' (st s) -> unlinked (hc_set (st s)) t' p i -> Q (Some p) s') ->
  wp (unlink_instance cf (i_handle i)) Q s.
Proof.
  intros H Hi HQ. pose proof (so_inst _ _ H _ _ Hi) as K. pose proof (so_nodup _ _ H) as Hnd. pose proof (so_format _ _ H) as F.
  assert (Hp : p ∈ members (hc_set (st s))) by (apply (so_dom _ _ H); by eexists).
  unfold unlink_instance. apply wp_bind, wp_getc. destruct (hc_skiplists (hc_set (st s))) eqn:Hs; simpl.
  - rewrite wrap_small by by apply handle_u16. destruct F as [F1 F2 F3 F4 F5].
    assert (Hin : (i_handle i, p) ∈ hc_handles (hc_set (st s))).
    { unfold members in Hp. rewrite Hs in Hp. apply list_elem_of_fmap in Hp as ([h q] & -> & Hin). simpl in *.
      destruct (F2 _ _ Hin) as (j & Hj & <-). rewrite Hi in Hj. by injection Hj as <-. }
    pose proof (F5 _ _ Hi) as Hch.
    rewrite (proj2 (sl_search_spec _ _ handle_total _ _ p F1 (handle_u16 _ K)) Hin).
    apply wp_bind, wp_modst. simpl. apply wp_bind. eapply wp_inst; [done|]. simpl.
    rewrite (proj2 (sl_search_spec _ _ hash_total _ _ [p] F3 (hash_length W _ K)) Hch).
    simpl. rewrite bool_decide_true, orb_true_r by done. apply wp_bind, wp_modst. apply wp_ret. simpl. eapply HQ; [done|].
    destruct (sl_delete_spec _ _ handle_total _ _ _ F1 (handle_u16 _ K) Hin) as [P1 S1].
    destruct (sl_delete_spec _ _ hash_total _ _ _ F3 (hash_length W _ K) Hch) as [P2 S2].
    split; simpl; [|done|by rewrite Hs]. unfold members. rewrite Hs. simpl. by rewrite P1 at 1.
  - unfold members in Hp, Hnd. rewrite Hs in Hp, Hnd.
    assert (Hd : forall q, q ∈ hc_inst_ll (hc_set (st s)) -> is_Some (insts (st s) !! q)).
    { intros q Hq. apply (so_dom _ _ H). unfold members. by rewrite Hs. }
    apply wp_bind. apply wp_find_inst; [done| |].
    + intros q j Hq Hj E%Z.eqb_eq. rewrite (so_handles _ _ H _ _ _ _ Hj Hi E). apply wp_bind, wp_modst, wp_ret. eapply HQ; [done|].
      split; simpl; [|done|by rewrite Hs]. unfold members. rewrite Hs. simpl. by apply member_perm.
    + intros Hno. specialize (Hno _ _ Hp Hi). zbool. lia.
Qed.

Lemma set_ok_unlinked spare s s' t' p i : set_okx spare s -> insts s !! p = Some i -> unlinked (hc_set s) t' p i ->
  hc_set s' = t' -> hc_ninstances s' = hc_ninstances s - 1 -> (forall q, q <> p -> ident <$> insts s' !! q = ident <$> insts s !! q) ->
  insts s' !! p = None -> set_okx spare s'.
Proof.
  intros H Hi U Et En Hins Hnone. pose proof (so_nodup _ _ H) as Hnd. rewrite (ul_members _ _ _ _ U) in Hnd. apply NoDup_cons in Hnd as [Hnp Hnd].
  assert (Hsome : forall q j', insts s' !! q = Some j' -> q <> p /\ exists j, insts s !! q = Some j /\ ident j' = ident j).
  { intros q j' Hq. assert (q <> p) as Hne by congruence. split; [done|]. specialize (Hins q Hne). rewrite Hq in Hins.
    destruct (insts s !! q) as [j|]; [|done]. exists j. split; [done|]. by apply (inj Some) in Hins. }
  assert (Hback : forall q j, q <> p -> insts s !! q = Some j -> exists j', insts s' !! q = Some j' /\ ident j' = ident j).
  { intros q j Hne Hq. specialize (Hins q Hne). rewrite Hq in Hins. destruct (insts s' !! q) as [j'|]; [|done]. exists j'. split; [done|]. by apply (inj Some) in Hins. }
  split; rewrite ?Et.
  - intros q. split.
    + intros Hq. assert (q ∈ members (hc_set s)) as [j Hj]%(so_dom _ _ H) by (rewrite (ul_members _ _ _ _ U); by right).
      destruct (Hback q j) as (j' & -> & _); [by intros ->|done|by eexists].
    + intros [j' Hj']. destruct (Hsome _ _ Hj') as (Hne & j & Hj & _).
      assert (q ∈ members (hc_set s)) as Hq by (apply (so_dom _ _ H); by eexists). rewrite (ul_members _ _ _ _ U) in Hq.
      by apply elem_of_cons in Hq as [|].
  - done.
  - rewrite En. destruct (so_n _ _ H) as [-> Hlt].
    unfold zlen. rewrite (ul_members _ _ _ _ U). simpl. pose proof (so_n _ _ H) as [A B]. unfold zlen in *. split; [lia|].
    rewrite (ul_members _ _ _ _ U) in A. simpl in A. lia.
  - intros q r j k Hj Hk E. destruct (Hsome _ _ Hj) as (_ & j0 & Hj0 & [= A _ _]). destruct (Hsome _ _ Hk) as (_ & k0 & Hk0 & [= B _ _]).
    eapply (so_handles _ _ H); [done..|congruence].
  - intros q r j k Hj Hk E. destruct (Hsome _ _ Hj) as (_ & j0 & Hj0 & A%key_of_ident). destruct (Hsome _ _ Hk) as (_ & k0 & Hk0 & B%key_of_ident).
    eapply (so_keys _ _ H); [done..|congruence].
  - intros q r j k Hj Hk E. destruct (Hsome _ _ Hj) as (_ & j0 & Hj0 & [= _ A _]). destruct (Hsome _ _ Hk) as (_ & k0 & Hk0 & [= _ B _]).
    eapply (so_hashes _ _ H); [done..|congruence].
  - intros q j Hj. destruct (Hsome _ _ Hj) as (_ & j0 & Hj0 & A). pose proof (key_of_ident _ _ A) as A'.
    destruct (so_inst _ _ H _ _ Hj0) as [B1 B2 B3]. injection A as A1 A2 A3. split; [by rewrite A1|congruence|by rewrite A3].
  - pose proof (so_format _ _ H) as F. pose proof (ul_long _ _ _ _ U) as UL. rewrite (ul_format _ _ _ _ U).
    destruct (hc_skiplists (hc_set s)) eqn:Hs; [|done]. destruct F as [F1 F2 F3 F4 F5]. destruct UL as (U1 & U2 & U3 & U4 & U5).
    assert (Hpm : forall q, q ∈ members t' -> q <> p) by (intros q Hq ->; done).
    split; rewrite ?Et; try done.
    + intros h q Hq. destruct (F2 h q) as (j & Hj & <-); [rewrite U2; by right|].
      destruct (Hback q j) as (j' & Hj' & [= A _ _]); [|done|by exists j'].
      apply Hpm. unfold members. rewrite (ul_format _ _ _ _ U), Hs. by apply (list_elem_of_fmap_2 snd _ (i_handle j, q)).
    + intros h ch Hq. destruct (F4 h ch) as [?|(q & j & -> & Hj & Eh)]; [rewrite U4; by right|by left|right].
      assert (q <> p) as Hne.
      { intros ->. rewrite Hi in Hj. injection Hj as <-. pose proof (sl_ok_nodup _ _ hash_total _ F3) as Hn. rewrite U4 in Hn. simpl in Hn.
        apply NoDup_cons in Hn as [Hn _]. apply Hn. rewrite Eh. by apply (list_elem_of_fmap_2 fst _ (h, [p])). }
      destruct (Hback q j Hne Hj) as (j' & Hj' & [= _ A _]). exists q, j'. split; [done|]. split; [done|congruence].
    + intros q j' Hj'. destruct (Hsome _ _ Hj') as (Hne & j & Hj & [= _ -> _]). pose proof (F5 _ _ Hj) as Hin. rewrite U4 in Hin.
      apply elem_of_cons in Hin as [E|]; [|done]. injection E as _ E. congruence.
  - destruct (so_max _ _ H) as [?|[? ?]]; [by left|right]. rewrite (ul_format _ _ _ _ U), En. split; [done|lia].
Qed.

Lemma set_ok_short spare s : set_okx spare s -> hc_skiplists (hc_set s) = true -> set_okx spare (set_hc_set (to_short (hc_set s)) s).
Proof.
  intros H Hs. assert (E : members (to_short (hc_set s)) = members (hc_set s)) by (unfold members, to_short; by rewrite Hs).
  split; simpl; rewrite ?E; try apply H; [done|].
  left. destruct (so_max _ _ H) as [?|[? _]]; [done|congruence].
Qed.

(** What an instance leaves behind when it is removed with its samples [D]. *)
Record freed (s s' : Store) (p : nat) (D : list Sample) : Prop := {
  fd_gone : insts s' !! p = None;
  fd_chgs : forall cp, cp ∉ x_cp <$> D -> chgs s' !! cp = chgs s !! cp;
  fd_insts : forall q, q <> p -> insts s' !! q = insts s !! q;
  fd_next : next_addr s' = next_addr s
}.

#[local] Abbreviation multi := (hc_multi_inst cf).
#[local] Abbreviation repr := (repr (hc_multi_inst cf) (hc_src_time cf) false).

Lemma wp_foldr_emit l (m : C ()) s Q : (forall s', st s' = st s -> wp m Q s') -> wp (foldr (fun n m => emit (EvFiltered n);; m) m l) Q s.
Proof. revert s. induction l as [|n l IH]; intros s Hm; simpl; [by apply Hm|]. apply wp_bind, wp_modc. by apply IH. Qed.

Lemma wp_free_instance (W : hash_laws) spare s L p i (Q : () -> HistoryCache_t -> Prop) : multi = true -> repr (st s) L -> set_okx spare (st s) ->
  insts (st s) !! p = Some i ->
  (forall s', repr (st s') (others p L) -> set_okx spare (st s') -> freed (st s) (st s') p (of_inst p L) ->
     (hc_skiplists (hc_set (st s)) = false \/ MIN_INST_LLIST < hc_ninstances (st s) - 1 -> unlinked (hc_set (st s)) (hc_set (st s')) p i) -> hc_ninstances (st s') = hc_ninstances (st s) - 1 -> Q tt s') ->
  wp (hc_free_instance cf (i_handle i)) Q s.
Proof.
  intros Hm H S Hi HQ. unfold hc_free_instance. apply wp_bind. eapply wp_unlink; [done..|]. intros s1 t' E1 U.
  apply wp_bind, wp_modst. set (s2 := set_st _ s1).
  assert (H2 : repr (st s2) L) by (eapply repr_same; [exact H|simpl; by rewrite E1..]).
  assert (Hi2 : insts (st s2) !! p = Some i) by (simpl; by rewrite E1).
  apply wp_bind. eapply wp_inst; [done|]. apply wp_bind.
  assert (wp (whenc (i_inform i) (emit (EvFlush p))) (fun _ s' => st s' = st s2) s2) as He.
  { apply wp_whenc; intros _; [by apply wp_modc|done]. }
  eapply wp_mono; [exact He|]. intros [] s3 E3. clear He. apply wp_bind, wp_foldr_emit. intros s4 E4. rewrite E3 in E4.
  eapply wp_upd_inst; [by rewrite E4|]. set (i5 := set_i_tbf [] i). apply wp_bind. set (s5 := set_st _ s4).
  assert (H5 : repr (st s5) L) by (simpl; rewrite E4; by eapply repr_put_inst).
  assert (Hi5 : insts (st s5) !! p = Some i5) by (simpl; apply lookup_insert_eq).
  eapply wp_free_samples; [done..| |].
  { destruct (repr_inst _ _ _ _ _ _ _ H Hm Hi) as [Hr _ _]. apply follows_len in Hr. unfold zlen in Hr. rewrite length_fmap in Hr. lia. }
  intros s6 H6 K6. apply wp_bind, wp_modst. set (s7 := set_st _ s6).
  assert (Hnil : of_inst p (others p L) = []).
  { unfold of_inst, others. rewrite list_filter_filter. apply elem_of_nil_inv. intros x ([E Hne] & _)%list_elem_of_filter. done. }
  assert (H7 : repr (st s7) (others p L)) by (by apply repr_delete_inst).
  assert (Hother : forall q, q <> p -> insts (st s5) !! q = insts (st s) !! q).
  { intros q Hq. simpl. rewrite lookup_insert_ne by done. rewrite E4. simpl. by rewrite E1. }
  assert (F : freed (st s) (st s7) p (of_inst p L)).
  { split; simpl.
    - apply lookup_delete_eq.
    - intros cp Hcp. rewrite (kp_chgs _ _ _ K6) by done. simpl. rewrite E4. simpl. by rewrite E1.
    - intros q Hq. rewrite lookup_delete_ne by done. rewrite (kp_other _ _ _ K6); [by apply Hother|].
      intros (x & -> & [E _]%of_inst_in)%list_elem_of_fmap. done.
    - rewrite (kp_next _ _ _ K6). simpl. rewrite E4. simpl. by rewrite E1. }
  assert (S7 : set_okx spare (st s7)).
  { destruct (kp_set _ _ _ K6) as [A B]. eapply set_ok_unlinked; [exact S|done|exact U|..]; simpl.
    - rewrite A. simpl. rewrite E4. simpl. by rewrite E1.
    - rewrite B. simpl. rewrite E4. simpl. rewrite E1. simpl. destruct (so_n _ _ S) as [En Hlt].
      assert (p ∈ members (hc_set (st s))) as Hp by (apply (so_dom _ _ S); by eexists). pose proof (nonempty_zlen _ _ Hp).
      rewrite wrap_pred32; [done|]. lia.
    - intros q Hq. f_equal. apply (fd_insts _ _ _ _ F _ Hq).
    - apply lookup_delete_eq. }
  assert (E7 : hc_set (st s7) = t' /\ hc_ninstances (st s7) = hc_ninstances (st s) - 1).
  { destruct (kp_set _ _ _ K6) as [A B]. simpl. rewrite A, B. simpl. rewrite E4. simpl. rewrite E1. simpl. split; [done|].
    destruct (so_n _ _ S) as [En Hlt]. assert (p ∈ members (hc_set (st s))) as Hp by (apply (so_dom _ _ S); by eexists).
    pose proof (nonempty_zlen _ _ Hp). rewrite wrap_pred32; [done|]. lia. }
  destruct E7 as [E7 E8].
  apply wp_bind, wp_getc. apply wp_whenc; intros Hs; [|apply HQ; [done..| |done]; intros _; by rewrite E7].
  apply andb_true_iff in Hs as [Hs _]. apply andb_true_iff in Hs as [Hs Hle]. zbool.
  unfold hc_convert_to_short, mod_set. apply wp_modst. apply HQ; simpl.
  - eapply repr_same; [exact H7|done..].
  - apply (set_ok_short _ _ S7). done.
  - by destruct F.
  - intros Hlt. rewrite <- E8 in Hlt. rewrite E7 in Hs.
    destruct Hlt as [Hf|Hlt]; [|simpl in *; lia]. rewrite (ul_format _ _ _ _ U) in Hs. congruence.
  - done.
Qed.

End Insts.
