(* ===== verification/CacheLook.v ===== *)
(** History caches: looking up instances by their key, in both formats of the
    set of instances, and adding new ones. *)

From stdpp Require Import gmap sorting.
From S2P Require Import Prelude Seqnr Cache CacheAdd CacheGet CacheProps CacheInv CacheSet.
From stdpp Require Import list.

#[local] Open Scope Z_scope.

Section Look.
Context (cf : Conf) (W : hash_laws cf).
#[local] Abbreviation multi := (hc_multi_inst cf).
#[local] Abbreviation repr := (repr (hc_multi_inst cf) (hc_src_time cf) false).
#[local] Abbreviation short_key := (short_key cf).
#[local] Abbreviation key_of := (key_of cf).

Lemma inst_hash_len spare s p i : set_okx cf spare s -> insts s !! p = Some i -> length (i_hash i) = 16%nat.
Proof. intros H Hi. eapply hash_length; [done|]. by eapply so_inst. Qed.
Lemma inst_handle_ok spare s p i : set_okx cf spare s -> insts s !! p = Some i -> in_u 16 (i_handle i).
Proof. intros H Hi. eapply handle_u16. by eapply so_inst. Qed.

(** ** The conversion to skiplists *)

Definition by_handle (x : nat * INSTANCE) : Z * nat := (i_handle (snd x), fst x).
Definition by_hash (x : nat * INSTANCE) : list Z * list nat := (i_hash (snd x), [fst x]).

(** The instances [P] are in the skiplists. *)
Record converted (s : Store) (t : InstSet) (P : list (nat * INSTANCE)) : Prop := {
  cv_insts : Forall (fun x => insts s !! fst x = Some (snd x)) P;
  cv_handles : hc_handles t ≡ₚ by_handle <$> P;
  cv_hashes : hc_hashes t ≡ₚ by_hash <$> P;
  cv_sorted : sl_ok handle_cmp (in_u 16) (hc_handles t) /\ sl_ok hash_cmp (fun h => length h = 16%nat) (hc_hashes t);
  cv_ll : hc_skiplists t = true /\ hc_inst_ll t = []
}.

Lemma wp_convert_loop spare l t P s (Q : InstSet * list nat -> HistoryCache_t -> Prop) : set_okx cf spare (st s) ->
  converted (st s) t P -> NoDup (P.*1 ++ l) -> (forall p, p ∈ l -> is_Some (insts (st s) !! p)) ->
  (forall s' t' P' rest, st s' = st s -> (rest = [] -> converted (st s) t' P') -> (hc_handles t').*2 ≡ₚ P'.*1 -> P'.*1 ++ rest ≡ₚ P.*1 ++ l ->
     Q (t', rest) s') ->
  wp (convert_loop l t) Q s.
Proof.
  intros H. revert t P s H. induction l as [|p l IH]; intros t P s H C Hn Hl HQ; simpl.
  { apply wp_ret. eapply (HQ s t P); [done|done| |done]. rewrite (cv_handles _ _ _ C). by rewrite <- list_fmap_compose. }
  destruct (Hl p) as [i Hi]; [by left|]. apply wp_bind. eapply wp_inst; [done|].
  assert (Hfresh : p ∉ P.*1) by (intros Hp; apply NoDup_app in Hn as (_ & Hd & _); apply (Hd p Hp); by left).
  destruct C as [C1 C2 C3 [C4 C4'] [C5 C6]].
  assert (Hh : i_hash i ∉ (hc_hashes t).*1).
  { rewrite C3, <- list_fmap_compose. intros ([q j] & E & Hin)%list_elem_of_fmap. rewrite Forall_forall in C1. specialize (C1 _ Hin). simpl in *.
    apply Hfresh, list_elem_of_fmap. exists (q, j). split; [|done]. by eapply (so_hashes _ _ _ H). }
  assert (Hnh : i_handle i ∉ (hc_handles t).*1).
  { rewrite C2, <- list_fmap_compose. intros ([q j] & E & Hin)%list_elem_of_fmap. rewrite Forall_forall in C1. specialize (C1 _ Hin). simpl in *.
    apply Hfresh, list_elem_of_fmap. exists (q, j). split; [|done]. by eapply (so_handles _ _ _ H). }
  assert (Hsnd : forall (X : list (Z * nat)), X ≡ₚ by_handle <$> P -> X.*2 ≡ₚ P.*1) by (intros X ->; by rewrite <- list_fmap_compose).
  rewrite (proj2 (sl_search_none _ _ hash_total _ _ C4' (inst_hash_len _ _ _ _ H Hi)) Hh). simpl.
  apply wp_bind, quiet_alloc. intros ok1 s1 E1. destruct ok1; simpl.
  2:{ apply wp_ret. eapply (HQ s1 t P); [done|done|by apply Hsnd|done]. }
  rewrite (proj2 (sl_search_none _ _ handle_total _ _ C4 (inst_handle_ok _ _ _ _ H Hi)) Hnh). simpl.
  apply wp_bind, quiet_alloc. intros ok2 s2 E2. rewrite E1 in E2. destruct ok2; simpl.
  2:{ apply wp_ret. eapply (HQ s2 _ P); [done|done|by apply Hsnd|done]. }
  destruct (sl_insert_new _ _ hash_total _ [p] _ C4' (inst_hash_len _ _ _ _ H Hi) Hh) as [A1 A2].
  destruct (sl_insert_new _ _ handle_total _ p _ C4 (inst_handle_ok _ _ _ _ H Hi) Hnh) as [B1 B2].
  assert (Hp1 : ((p, i) :: P).*1 ++ l ≡ₚ P.*1 ++ p :: l) by (simpl; by rewrite Permutation_middle).
  eapply (IH _ ((p, i) :: P)).
  - by rewrite E2.
  - rewrite E2. split; simpl; [by constructor|by rewrite B1, C2|by rewrite A1, C3|done|done].
  - by rewrite Hp1.
  - intros q Hq. rewrite E2. apply Hl. by right.
  - intros s' t' P' rest Es Hc Hm Hp. apply (HQ s' t' P'); [congruence| |done|by rewrite Hp].
    rewrite <- E2. done.
Qed.

Lemma set_ok_converted spare s t P : set_okx cf spare s -> MAX_INST_LLIST <= hc_max_inst cf -> converted s t P ->
  P.*1 ≡ₚ members (hc_set s) -> set_okx cf spare (set_hc_set t s).
Proof.
  intros H Hmax [C1 C2 C3 [C4 C4'] [C5 C6]] HP.
  assert (E : members t ≡ₚ members (hc_set s)) by (unfold members at 1; rewrite C5, C2, <- list_fmap_compose; exact HP).
  rewrite Forall_forall in C1. split; simpl; try apply H; [| | | |by left].
  - intros p. rewrite E. apply H.
  - rewrite E. apply H.
  - destruct (so_n _ _ _ H) as [-> ?]. unfold zlen. by rewrite E.
  - rewrite C5. split; simpl; try done.
    + intros h p. rewrite C2. intros ([q j] & [= -> ->] & Hin)%list_elem_of_fmap. exists j. split; [|done]. apply (C1 _ Hin).
    + intros h ch. rewrite C3. intros ([q j] & [= -> ->] & Hin)%list_elem_of_fmap. right. exists q, j. split; [done|]. split; [|done].
      apply (C1 _ Hin).
    + intros p i Hi. rewrite C3. assert (p ∈ P.*1) as ([q j] & -> & Hin)%list_elem_of_fmap.
      { rewrite HP. apply (so_dom _ _ _ H). by eexists. }
      simpl in *. pose proof (C1 _ Hin) as Hj. simpl in Hj. rewrite Hi in Hj. injection Hj as <-.
      apply list_elem_of_fmap. by exists (q, i).
Qed.

(** A different order of the instances in the short format. *)
Lemma set_ok_reorder spare s l : set_okx cf spare s -> hc_skiplists (hc_set s) = false -> l ≡ₚ members (hc_set s) ->
  set_okx cf spare (set_hc_set (mkSet false l [] []) s).
Proof.
  intros H Hs E. split; simpl; try apply H; [..|done|].
  - intros p. unfold members. simpl. rewrite E. apply H.
  - unfold members. simpl. rewrite E. apply H.
  - destruct (so_n _ _ _ H) as [-> ?]. unfold members at 2. simpl. unfold zlen. by rewrite E.
  - destruct (so_max _ _ _ H) as [?|[? ?]]; [by left|by right].
Qed.

Lemma wp_convert_to_long spare s (Q : () -> HistoryCache_t -> Prop) : set_okx cf spare (st s) -> hc_skiplists (hc_set (st s)) = false ->
  MAX_INST_LLIST <= hc_ninstances (st s) ->
  (forall s' t, st s' = set_hc_set t (st s) -> set_okx cf spare (st s') -> Q tt s') -> wp hc_convert_to_long Q s.
Proof.
  intros H Hs Hn HQ.
  assert (Hmax : MAX_INST_LLIST <= hc_max_inst cf) by (destruct (so_max _ _ _ H) as [?|[_ ?]]; lia).
  assert (Hsame : forall s', st s' = st s -> Q tt s').
  { intros s' E. apply (HQ s' (hc_set (st s))); [rewrite E; by destruct (st s)|by rewrite E]. }
  unfold hc_convert_to_long. apply wp_bind, quiet_alloc. intros ok1 s1 E1. destruct ok1; simpl; [|by apply wp_ret, Hsame].
  apply wp_bind, quiet_alloc. intros ok2 s2 E2. rewrite E1 in E2. destruct ok2; simpl; [|by apply wp_ret, Hsame].
  apply wp_bind, wp_getc. apply wp_bind. pose proof (so_dom _ _ _ H) as Hd. pose proof (so_nodup _ _ _ H) as Hnd.
  assert (Em : members (hc_set (st s)) = hc_inst_ll (hc_set (st s))) by (unfold members; by rewrite Hs).
  eapply (wp_convert_loop spare _ _ []).
  - by rewrite E2.
  - split; simpl; try done. split; split; constructor.
  - simpl. by rewrite E2, <- Em.
  - intros p Hp. rewrite E2 in Hp |- *. rewrite <- Em in Hp. by apply Hd.
  - intros s' t' P' rest Es Hc Hm Hp. rewrite E2 in Es, Hc, Hp. simpl in Hp. rewrite <- Em in Hp.
    destruct rest as [|r rest].
    + apply wp_modst. eapply HQ; [by rewrite Es|]. rewrite Es. simpl. eapply set_ok_converted; [done..|by apply Hc|].
      by rewrite app_nil_r in Hp.
    + apply wp_modst. eapply HQ; [by rewrite Es|]. rewrite Es. simpl. apply set_ok_reorder; [done..|]. by rewrite Hm, Hp.
Qed.

(** ** New handles *)

(** As long as no handle was reused, the used ones are the first ones. *)
Definition last_ok (s : HistoryCache_t) : Prop :=
  0 <= hc_last_handle s <= MAX_INST_HANDLE /\
  (hc_recycle s = false -> forall p i, insts (st s) !! p = Some i -> i_handle i <= hc_last_handle s).

Definition unused (s : Store) (h : Z) : Prop := forall p i, insts s !! p = Some i -> i_handle i <> h.

(** The number of handles that are tried before [f]. *)
Definition distance (last f : Z) : Z := if last <? f then f - last else MAX_INST_HANDLE - last + f.

Lemma wp_new_handle spare fuel s f (Q : Z -> HistoryCache_t -> Prop) : set_okx cf spare (st s) -> last_ok s ->
  0 < f <= MAX_INST_HANDLE -> unused (st s) f -> distance (hc_last_handle s) f <= Z.of_nat fuel ->
  (forall h s', st s' = st s -> last_ok s' -> (hc_recycle s' = false -> h <= hc_last_handle s') -> 0 < h < 2 ^ 16 -> unused (st s) h -> Q h s') ->
  wp (new_handle fuel) Q s.
Proof.
  intros H. revert s H. unfold MAX_INST_HANDLE in *. induction fuel as [|fuel IH]; intros s H [L1 L2] Hf Hu Hd HQ; simpl.
  { unfold distance, MAX_INST_HANDLE in *. destruct (Z.ltb_spec (hc_last_handle s) f); lia. }
  set (g := fun s => if MAX_INST_HANDLE <=? hc_last_handle s then set_hc_recycle true (set_hc_last_handle 1 s)
                     else set_hc_last_handle ⟦hc_last_handle s + 1⟧16 s).
  assert (G : st (g s) = st s /\ 0 < hc_last_handle (g s) <= 65535 /\ last_ok (g s)
    /\ (hc_last_handle (g s) = f \/ distance (hc_last_handle (g s)) f <= Z.of_nat fuel)
    /\ (hc_recycle (g s) = false -> unused (st s) (hc_last_handle (g s)))).
  { unfold g, distance, last_ok, MAX_INST_HANDLE in *. destruct (Z.leb_spec 65535 (hc_last_handle s)); simpl.
    - split_and!; try done; try lia. destruct (Z.ltb_spec (hc_last_handle s) f); [lia|]. destruct (Z.ltb_spec 1 f); [right; lia|left; lia].
    - rewrite wrap_small by (unfold in_u; lia). split_and!; try done; try lia.
      + intros Hr p i Hi. specialize (L2 Hr p i Hi). lia.
      + destruct (Z.ltb_spec (hc_last_handle s) f); destruct (Z.ltb_spec (hc_last_handle s + 1) f); lia.
      + intros Hr p i Hi E. specialize (L2 Hr p i Hi). lia. }
  destruct G as (G1 & G2 & G3 & G4 & G5). apply wp_bind, (wp_modc g).
  apply wp_bind, wp_getc. apply wp_bind.
  assert (Hdone : unused (st s) (hc_last_handle (g s)) -> Q (hc_last_handle (g s)) (g s)).
  { intros Hun. apply HQ; try done; lia. }
  destruct (hc_recycle (g s)) eqn:Hr.
  - eapply (wp_get_instance_handle cf spare); [by rewrite G1|unfold in_u; lia|]. rewrite G1. intros [p|] Ho.
    + destruct G4 as [E|G4]; [destruct Ho as (i & Hi & E'); destruct (Hu _ _ Hi); congruence|].
      eapply IH; [by rewrite G1|done|done|by rewrite G1|done|]. rewrite G1. exact HQ.
    + apply wp_ret. by apply Hdone.
  - apply wp_ret, wp_ret. by apply Hdone, G5.
Qed.

(** With less than 65535 instances some handle is unused. *)
Lemma unused_handle spare s : set_okx cf spare s -> hc_ninstances s < MAX_INST_HANDLE -> exists f, 0 < f <= MAX_INST_HANDLE /\ unused s f.
Proof.
  intros H Hn. unfold MAX_INST_HANDLE in *.
  set (hs := (fun p => from_option i_handle 0 (insts s !! p)) <$> members (hc_set s)).
  assert (Hin : forall p i, insts s !! p = Some i -> i_handle i ∈ hs).
  { intros p i Hi. apply list_elem_of_fmap. exists p. rewrite Hi. split; [done|]. apply (so_dom _ _ _ H). by eexists. }
  destruct (decide (Exists (fun f => f ∉ hs) (seqZ 1 65535))) as [Hex|Hall].
  - apply Exists_exists in Hex as (f & Hf & Hno). apply elem_of_seqZ in Hf. exists f. split; [lia|]. intros p i Hi <-. by apply Hno, (Hin p).
  - exfalso. assert (length (seqZ 1 65535) <= length hs)%nat as Hlen.
    { apply submseteq_length, NoDup_submseteq; [apply NoDup_seqZ|]. intros f Hf. destruct (decide (f ∈ hs)); [done|].
      destruct Hall. apply Exists_exists. by exists f. }
    rewrite length_seqZ in Hlen. unfold hs in Hlen. rewrite length_fmap in Hlen. destruct (so_n _ _ _ H) as [E _]. unfold zlen in E. lia.
Qed.

(** ** New instances *)

(** The hash of a key that is being added may have an empty chain. *)
Definition spare (hash : list Z) (h : list Z) : Prop := short_key = false \/ h = hash.

Lemma set_ok_spare (P Q : list Z -> Prop) s : (forall h, P h -> Q h) -> set_okx cf P s -> set_okx cf Q s.
Proof.
  intros HPQ H. split; try apply H. pose proof (so_format _ _ _ H) as F. destruct (hc_skiplists (hc_set s)); [|done].
  destruct F as [F1 F2 F3 F4 F5]. split; try done. intros h ch Hin. destruct (F4 _ _ Hin) as [[? ?]|?]; [left; auto|by right].
Qed.

Lemma hash_len k hash : hash_from_key cf k = Some hash -> length hash = 16%nat.
Proof. by apply hl_len. Qed.

(** The empty chain is taken away again. *)
Lemma set_ok_drop s k hash : set_okx cf (spare hash) s -> hc_skiplists (hc_set s) = true -> hash_from_key cf k = Some hash ->
  (hash, []) ∈ hc_hashes (hc_set s) ->
  set_ok cf (set_hc_set (mkSet true [] (sl_delete hash_cmp hash (hc_hashes (hc_set s))) (hc_handles (hc_set s))) s).
Proof.
  intros H Hs Hk Hin. pose proof (so_format _ _ _ H) as F. rewrite Hs in F. destruct F as [F1 F2 F3 F4 F5].
  destruct (sl_delete_spec _ _ hash_total _ _ _ F3 (hash_len _ _ Hk) Hin) as [P1 P2].
  assert (E : members (mkSet true [] (sl_delete hash_cmp hash (hc_hashes (hc_set s))) (hc_handles (hc_set s))) = members (hc_set s)).
  { unfold members. by rewrite Hs. }
  split; simpl; rewrite ?E; try apply H.
  - split; simpl; try done.
    + intros h ch Hh. destruct (F4 h ch) as [[-> [?| ->]]|?]; [rewrite P1; by right|by left| |by right].
      exfalso. pose proof (sl_ok_nodup _ _ hash_total _ F3) as Hn. rewrite P1 in Hn. simpl in Hn. apply NoDup_cons in Hn as [Hn _].
      apply Hn. by apply (list_elem_of_fmap_2 fst _ (hash, [])).
    + intros p i Hi. pose proof (F5 _ _ Hi) as Hp. rewrite P1 in Hp. by apply elem_of_cons in Hp as [|].
  - destruct (so_max _ _ _ H) as [?|[? _]]; [by left|congruence].
Qed.

(** An instance joins the set. *)
Lemma set_ok_new hash s s' p i : set_okx cf (spare hash) s -> inst_key_ok cf i -> hash = i_hash i -> unused s (i_handle i) ->
  fresh_key cf s (key_of i) -> insts s !! p = None -> insts s' = <[p := i]> (insts s) -> hc_ninstances s' = hc_ninstances s + 1 ->
  hc_ninstances s < MAX_INST_HANDLE -> (MAX_INST_LLIST <= hc_max_inst cf \/ hc_ninstances s < hc_max_inst cf) ->
  members (hc_set s') ≡ₚ p :: members (hc_set s) -> hc_skiplists (hc_set s') = hc_skiplists (hc_set s) ->
  (if hc_skiplists (hc_set s) then
     hc_inst_ll (hc_set s') = [] /\ hc_handles (hc_set s') ≡ₚ (i_handle i, p) :: hc_handles (hc_set s) /\ sl_ok handle_cmp (in_u 16) (hc_handles (hc_set s'))
     /\ (exists H', hc_hashes (hc_set s) ≡ₚ (hash, []) :: H' /\ hc_hashes (hc_set s') ≡ₚ (hash, [p]) :: H')
     /\ sl_ok hash_cmp (fun h => length h = 16%nat) (hc_hashes (hc_set s'))
   else hc_hashes (hc_set s') = [] /\ hc_handles (hc_set s') = []) ->
  set_ok cf s'.
Proof.
  intros H K Eh Hun Hfr Hp Ei En Hlt Hmx Hm Hs Hf. unfold MAX_INST_HANDLE in *.
  pose proof (fresh_has_key _ _ _ _ H Hfr) as Hkey.
  assert (Hhash : forall q j, insts s !! q = Some j -> i_hash j <> i_hash i).
  { intros q j Hj E. apply (Hfr q j Hj). rewrite E. by destruct K. }
  assert (Hmem : p ∉ members (hc_set s)) by (intros Hin; apply (so_dom _ _ _ H) in Hin as [? ?]; congruence).
  assert (Hcase : forall q j, insts s' !! q = Some j -> q = p /\ j = i \/ q <> p /\ insts s !! q = Some j).
  { intros q j Hj. rewrite Ei in Hj. apply lookup_insert_Some in Hj as [[<- <-]|[? ?]]; [by left|right; done]. }
  split.
  - intros q. rewrite Hm, elem_of_cons, (so_dom _ _ _ H). rewrite Ei. destruct (decide (q = p)) as [->|Hne].
    + rewrite lookup_insert_eq. split; [by eexists|by left].
    + rewrite lookup_insert_ne by done. tauto.
  - rewrite Hm. by constructor; [|apply H].
  - destruct (so_n _ _ _ H) as [E _]. unfold zlen in *. rewrite Hm. simpl. lia.
  - intros q r j k Hj Hk E. destruct (Hcase _ _ Hj) as [[-> ->]|[? Hj0]]; destruct (Hcase _ _ Hk) as [[-> ->]|[? Hk0]]; [done| | |].
    + by destruct (Hun _ _ Hk0).
    + by destruct (Hun _ _ Hj0).
    + by eapply (so_handles _ _ _ H).
  - intros q r j k Hj Hk E. destruct (Hcase _ _ Hj) as [[-> ->]|[? Hj0]]; destruct (Hcase _ _ Hk) as [[-> ->]|[? Hk0]]; [done| | |].
    + by destruct (Hkey _ _ Hk0).
    + by destruct (Hkey _ _ Hj0).
    + by eapply (so_keys _ _ _ H).
  - intros q r j k Hj Hk E. destruct (Hcase _ _ Hj) as [[-> ->]|[? Hj0]]; destruct (Hcase _ _ Hk) as [[-> ->]|[? Hk0]]; [done| | |].
    + by destruct (Hhash _ _ Hk0).
    + by destruct (Hhash _ _ Hj0).
    + by eapply (so_hashes _ _ _ H).
  - intros q j Hj. destruct (Hcase _ _ Hj) as [[-> ->]|[? Hj0]]; [done|]. by eapply (so_inst _ _ _ H).
  - rewrite Hs. pose proof (so_format _ _ _ H) as F. destruct (hc_skiplists (hc_set s)); [|done].
    destruct F as [F1 F2 F3 F4 F5]. destruct Hf as (G1 & G2 & G3 & (H' & G4 & G4') & G5). split; try done.
    + intros h q. rewrite G2. intros [E|Hin]%elem_of_cons.
      * injection E as -> ->. exists i. by rewrite Ei, lookup_insert_eq.
      * destruct (F2 _ _ Hin) as (j & Hj & Ej). exists j. rewrite Ei, lookup_insert_ne; [done|congruence].
    + intros h ch. rewrite G4'. intros [E|Hin]%elem_of_cons.
      * injection E as -> ->. right. exists p, i. rewrite Ei, lookup_insert_eq. by split_and!.
      * destruct (F4 h ch) as [[-> [?| ->]]|(q & j & -> & Hj & Ej)]; [rewrite G4; by right|by left| |].
        -- exfalso. pose proof (sl_ok_nodup _ _ hash_total _ F3) as Hn. rewrite G4 in Hn. simpl in Hn. apply NoDup_cons in Hn as [Hn _].
           apply Hn. by apply (list_elem_of_fmap_2 fst _ (hash, [])).
        -- right. exists q, j. split; [done|]. split; [|done]. rewrite Ei, lookup_insert_ne; [done|congruence].
    + intros q j Hj. rewrite G4'. destruct (Hcase _ _ Hj) as [[-> ->]|[? Hj0]]; [rewrite Eh; by left|right].
      pose proof (F5 _ _ Hj0) as Hin. rewrite G4 in Hin. apply elem_of_cons in Hin as [E|]; [|done]. injection E as _ E. done.
  - rewrite Hs, En. destruct (so_max _ _ _ H) as [?|[? ?]]; [by left|]. destruct Hmx as [?|?]; [by left|]. right. split; [done|lia].
Qed.

(** What adding an instance may do to the others: one that is empty may be
    reused. *)
Record added (s s' : HistoryCache_t) (L : list Sample) (k : list Z) (o : option nat) (h : Z) : Prop := {
  ad_repr : repr (st s') L;
  ad_set : set_ok cf (st s');
  ad_last : last_ok s';
  ad_chgs : chgs (st s') = chgs (st s);
  ad_insts : forall q j, insts (st s) !! q = Some j -> insts (st s') !! q = Some j \/ CAN_RECOVER j = true;
  ad_new : forall q j, insts (st s') !! q = Some j -> insts (st s) !! q = Some j \/ exists h hash key, j = new_instance h hash key;
  ad_inst : match o with Some p => exists i, insts (st s') !! p = Some i /\ key_of i = k /\ i_handle i = h | None => True end
}.

Lemma last_ok_sub s s' : last_ok s -> hc_last_handle s' = hc_last_handle s -> hc_recycle s' = hc_recycle s ->
  (forall p i', insts (st s') !! p = Some i' -> exists i, insts (st s) !! p = Some i /\ i_handle i' = i_handle i) -> last_ok s'.
Proof.
  intros [L1 L2] E1 E2 Hs. unfold last_ok. rewrite E1, E2. split; [done|]. intros Hr p i' Hi'.
  destruct (Hs _ _ Hi') as (i & Hi & ->). by eapply L2.
Qed.

(** The instance that is reused is taken out of the cache. *)
Lemma wp_reuse hash s L r_ip (Q : () -> HistoryCache_t -> Prop) : multi = true -> repr (st s) L -> set_okx cf (spare hash) (st s) -> last_ok s ->
  (match r_ip with Some r => exists i, insts (st s) !! r = Some i /\ CAN_RECOVER i = true /\ hc_max_inst cf <= hc_ninstances (st s) | None => True end) ->
  (forall s', repr (st s') L -> set_okx cf (spare hash) (st s') -> last_ok s' -> chgs (st s') = chgs (st s) ->
     (forall q j, insts (st s) !! q = Some j -> insts (st s') !! q = Some j \/ CAN_RECOVER j = true) ->
     (forall q j, insts (st s') !! q = Some j -> insts (st s) !! q = Some j) ->
     hc_skiplists (hc_set (st s')) = hc_skiplists (hc_set (st s)) ->
     ((hash, []) ∈ hc_hashes (hc_set (st s)) -> (hash, []) ∈ hc_hashes (hc_set (st s'))) ->
     hc_ninstances (st s') = hc_ninstances (st s) - (if r_ip is Some _ then 1 else 0) ->
     Q tt s') ->
  wp (match r_ip with Some r => i ← inst r; hc_inst_free cf (i_handle i) | None => mret () end) Q s.
Proof.
  intros Hm H S HL Hr HQ. destruct r_ip as [r|].
  2:{ apply wp_ret, HQ; try done; [|lia]. intros. by left. }
  destruct Hr as (i & Hi & Hrec & Hmx). apply wp_bind. eapply wp_inst; [done|]. unfold hc_inst_free.
  assert (Hnil : of_inst r L = []).
  { apply (of_inst_nil _ _ _ _ _ _ _ H Hm Hi). unfold CAN_RECOVER in Hrec. by zbool. }
  apply steady_wp; [apply steady_free_instance|]. eapply wp_free_instance; [done..|]. rewrite Hnil, others_all by done.
  intros s' H' S' F HU En [E1 E2].
  assert (U : unlinked (hc_set (st s)) (hc_set (st s')) r i).
  { apply HU. unfold MIN_INST_LLIST. destruct (so_max _ _ _ S) as [Hx|[Hx _]]; [right; unfold MAX_INST_LLIST in Hx; lia|by left]. }
  apply HQ; try done.
  - eapply last_ok_sub; [done..|]. intros p j Hj. destruct (decide (p = r)) as [->|]; [by rewrite (fd_gone _ _ _ _ F) in Hj|].
    rewrite (fd_insts _ _ _ _ F) in Hj by done. eauto.
  - apply map_eq. intros cp. apply (fd_chgs _ _ _ _ F). by intros ?%elem_of_nil.
  - intros q j Hj. destruct (decide (q = r)) as [->|]; [right; congruence|left]. by rewrite (fd_insts _ _ _ _ F).
  - intros q j Hj. destruct (decide (q = r)) as [->|]; [by rewrite (fd_gone _ _ _ _ F) in Hj|]. by rewrite (fd_insts _ _ _ _ F) in Hj.
  - apply U.
  - intros Hin. pose proof (ul_long _ _ _ _ U) as UL. pose proof (so_format _ _ _ S) as Fm.
    destruct (hc_skiplists (hc_set (st s))); [|destruct Fm as [Fm _]; rewrite Fm in Hin; by apply elem_of_nil in Hin].
    destruct UL as (_ & _ & _ & P & _). rewrite P in Hin. apply elem_of_cons in Hin as [[= _ ?]|]; done.
Qed.

Lemma wp_get_chain hash chain s (Q : list nat -> HistoryCache_t -> Prop) : set_okx cf (spare hash) (st s) -> hc_skiplists (hc_set (st s)) = true ->
  length hash = 16%nat -> (hash, chain) ∈ hc_hashes (hc_set (st s)) -> Q chain s -> wp (get_chain hash) Q s.
Proof.
  intros S Hs Hl Hin HQ. unfold get_chain. apply wp_bind, wp_getc. eapply wp_the; [|done].
  pose proof (so_format _ _ _ S) as F. rewrite Hs in F. by apply (sl_search_spec _ _ hash_total _ _ _ (lo_hashes _ _ F) Hl).
Qed.

Lemma handle_fuel : Z.of_nat HANDLE_FUEL = 65536.
Proof. exact (N_nat_Z 65536). Qed.
#[local] Opaque HANDLE_FUEL.

(** A new instance joins the lists of the set [T]. *)
Record linked (hash : list Z) (h : Z) (p : nat) (T t : InstSet) : Prop := {
  lk_members : members t ≡ₚ p :: members T;
  lk_format : hc_skiplists t = hc_skiplists T;
  lk_long : if hc_skiplists T then
      hc_inst_ll t = [] /\ hc_handles t ≡ₚ (h, p) :: hc_handles T /\ sl_ok handle_cmp (in_u 16) (hc_handles t)
      /\ (exists H', hc_hashes T ≡ₚ (hash, []) :: H' /\ hc_hashes t ≡ₚ (hash, [p]) :: H')
      /\ sl_ok hash_cmp (fun h => length h = 16%nat) (hc_hashes t)
    else hc_hashes t = [] /\ hc_handles t = []
}.

Lemma wp_link_instance s (S1 : Store) T hash h p (Q : bool -> HistoryCache_t -> Prop) : hc_set S1 = T -> hc_set (st s) = T -> set_okx cf (spare hash) S1 -> length hash = 16%nat -> 0 < h < 2 ^ 16 -> unused S1 h ->
  (hc_skiplists T = true -> (hash, []) ∈ hc_hashes T) ->
  (forall s' t, st s' = set_hc_set t (st s) -> hc_last_handle s' = hc_last_handle s /\ hc_recycle s' = hc_recycle s -> linked hash h p T t -> Q true s') ->
  (forall s', hc_skiplists T = true -> st s' = set_hc_set (mkSet true [] (sl_delete hash_cmp hash (hc_hashes T)) (hc_handles T)) (st s) ->
     hc_last_handle s' = hc_last_handle s /\ hc_recycle s' = hc_recycle s -> Q false s') ->
  wp (link_instance hash h p) Q s.
Proof.
  intros E1 ET S Hlen Hh Hun Hin1 HQ1 HQ2. unfold link_instance. apply wp_bind, wp_getc. rewrite ET. destruct (hc_skiplists T) eqn:Hs.
  - pose proof (so_format _ _ _ S) as Fm. rewrite E1, Hs in Fm. destruct Fm as [F6 F2 F3 F4 F5]. rewrite E1 in F6, F2, F3.
    specialize (Hin1 eq_refl). pose proof (proj2 (sl_search_spec _ _ hash_total _ _ _ F3 Hlen) Hin1) as Hse.
    apply wp_bind. unfold get_chain. apply wp_bind, wp_getc. rewrite ET. eapply wp_the; [exact Hse|].
    apply wp_bind, wp_modst. apply wp_bind.
    assert (Hno : h ∉ (hc_handles T).*1).
    { intros ([h' q] & -> & Hq)%list_elem_of_fmap. destruct (F2 _ _ Hq) as (j & Hj & Ej). by destruct (Hun _ _ Hj). }
    rewrite (proj2 (sl_search_none _ _ handle_total h _ F6 ltac:(unfold in_u; lia)) Hno).
    apply steady_wp; [apply steady_alloc|]. apply quiet_alloc. intros ok s6 E6 A6.
    destruct (sl_insert_same _ _ hash_total hash [] [p] _ F3 Hlen Hin1) as (l1 & l2 & EH & Eins).
    destruct ok; simpl.
    + apply wp_bind, wp_modst. apply wp_ret.
      destruct (sl_insert_new _ _ handle_total h p _ F6 ltac:(unfold in_u; lia) Hno) as [G1 G2].
      apply (HQ1 _ (mkSet true [] (sl_insert hash_cmp hash [p] (hc_hashes T)) (sl_insert handle_cmp h p (hc_handles T)))).
      * simpl. rewrite E6. simpl. by rewrite ET.
      * exact A6.
      * split; simpl; [unfold members; rewrite Hs; simpl; by rewrite G1|by rewrite Hs|]. rewrite Hs. split; [done|]. split; [done|]. split; [done|].
        rewrite Eins, EH. split; [exists (l1 ++ l2); by rewrite !Permutation_middle|]. rewrite EH in F3. by eapply sl_ok_replace.
    + apply wp_bind, wp_modst. apply wp_ret. apply HQ2; [done| |exact A6]. simpl. rewrite E6. simpl. rewrite ET. simpl.
      by rewrite (sl_delete_insert _ _ hash_total _ [] _ _ F3 Hlen Hin1).
  - apply wp_bind, wp_modst. apply wp_ret. apply (HQ1 _ (mkSet false (hc_inst_ll T ++ [p]) [] [])); [simpl; by rewrite ET|done|].
    split; simpl; rewrite ?Hs; try done. unfold members. rewrite Hs. simpl. by rewrite Permutation_app_comm.
Qed.

(** The new instance is made. *)
Lemma wp_create_instance s L k hash linked r_ip handle (Q : Found -> HistoryCache_t -> Prop) : multi = true -> repr (st s) L ->
  set_okx cf (spare hash) (st s) -> last_ok s -> hash_from_key cf k = Some hash -> fresh_key cf (st s) k ->
  linked = hc_skiplists (hc_set (st s)) -> (linked = true -> (hash, []) ∈ hc_hashes (hc_set (st s))) ->
  (match r_ip with
   | Some r => exists i, insts (st s) !! r = Some i /\ CAN_RECOVER i = true /\ hc_max_inst cf <= hc_ninstances (st s)
   | None => hc_ninstances (st s) < MAX_INST_HANDLE /\ (MAX_INST_LLIST <= hc_max_inst cf \/ hc_ninstances (st s) < hc_max_inst cf)
   end) ->
  (forall o h c s', added s s' L k o h -> Q (o, h, c) s') ->
  wp (create_instance cf hash (Some k) linked r_ip LH_ADD_NEW_H handle) Q s.
Proof.
  intros Hm H S HL Hk Hno -> Hlink Hr HQ. unfold create_instance. apply wp_bind.
  eapply wp_reuse; [done..| |]; [by destruct r_ip|].
  intros s1 H1 S1 L1 C1 I1 I1' F1 K1 N1. rewrite <- F1 in *.
  assert (Hno1 : fresh_key cf (st s1) k) by (intros p i Hi; apply (Hno p), I1'; done).
  assert (Hn1 : hc_ninstances (st s1) < MAX_INST_HANDLE /\ (MAX_INST_LLIST <= hc_max_inst cf \/ hc_ninstances (st s1) < hc_max_inst cf)).
  { destruct r_ip as [r|]; [|rewrite Z.sub_0_r in N1; rewrite N1; exact Hr]. destruct Hr as (i & _ & _ & Hmx).
    destruct (so_n _ _ _ S) as [_ Hlt]. unfold MAX_INST_HANDLE. split; [lia|].
    destruct (so_max _ _ _ S) as [?|[_ ?]]; [by left|right; lia]. }
  clear Hr N1. assert (Hin1 : hc_skiplists (hc_set (st s1)) = true -> (hash, []) ∈ hc_hashes (hc_set (st s1))) by auto. clear K1 Hlink.
  (* results without a new instance *)
  assert (Hfail : forall s' h c, repr (st s') L -> set_ok cf (st s') -> chgs (st s') = chgs (st s1) -> insts (st s') = insts (st s1) ->
    last_ok s' -> Q (None, h, c) s').
  { intros s' h c A1 A2 A3 A4 A5. apply HQ. split; try done; [congruence| |].
    - intros q j Hj. rewrite A4. by apply I1.
    - intros q j. rewrite A4. left. by apply I1'. }
  assert (Hset : hc_skiplists (hc_set (st s1)) = false \/ short_key = false -> set_ok cf (st s1)).
  { intros [Hs|Hs].
    - split; try apply S1. pose proof (so_format _ _ _ S1) as Fm. by rewrite Hs in Fm |- *.
    - eapply set_ok_spare; [|exact S1]. intros h _. exact Hs. }
  assert (Hdrop : forall s' h c t, st s' = set_hc_set t (st s1) -> hc_skiplists (hc_set (st s1)) = true ->
    t = mkSet true [] (sl_delete hash_cmp hash (hc_hashes (hc_set (st s1)))) (hc_handles (hc_set (st s1))) -> last_ok s' -> Q (None, h, c) s').
  { intros s' h c t E Hs -> Hl. apply Hfail; rewrite ?E; try done.
    - eapply repr_same; [exact H1|done..].
    - eapply set_ok_drop; [done..|]. by apply Hin1. }
  assert (Hlen : length hash = 16%nat) by by eapply hash_len.
  apply wp_bind, steady_wp; [apply steady_alloc|]. apply quiet_alloc. intros ok s2 E2 [A2 B2]. destruct ok; simpl.
  2:{ apply wp_bind. destruct (hc_skiplists (hc_set (st s1))) eqn:Hs.
      - apply wp_bind. eapply wp_get_chain; rewrite ?E2; [done|done|done|by apply Hin1|].
        apply wp_ret. simpl. apply wp_bind, wp_modst. apply wp_ret. eapply Hdrop; [simpl; by rewrite E2|done|done|].
        eapply last_ok_sub; [exact L1|done|done|]. simpl. rewrite E2. eauto.
      - apply wp_ret. simpl. apply wp_bind, wp_ret, wp_ret. apply Hfail; rewrite ?E2; try done; [apply Hset; by left|].
        eapply last_ok_sub; [exact L1|done|done|]. rewrite E2. eauto. }
  assert (L2 : last_ok s2) by (eapply last_ok_sub; [exact L1|done|done|]; rewrite E2; eauto).
  destruct (unused_handle _ _ S1) as (f & Hf & Huf); [lia|].
  apply wp_bind. eapply (wp_new_handle (spare hash) _ _ f); [by rewrite E2|done|done|by rewrite E2| |].
  { rewrite handle_fuel. unfold distance, MAX_INST_HANDLE in *. destruct L2 as [L2 _]. unfold MAX_INST_HANDLE in *. case_match; lia. }
  rewrite E2. intros h s3 E3 L3 Hle Hh Hun.
  apply wp_bind.
  assert (wp (if short_key then mret true else alloc) (fun ok s4 => st s4 = st s1 /\ hc_last_handle s4 = hc_last_handle s3 /\
    hc_recycle s4 = hc_recycle s3 /\ (ok = false -> short_key = false)) s3) as Hka.
  { destruct short_key; [by apply wp_ret|]. apply steady_wp; [apply steady_alloc|]. apply quiet_alloc. intros ok s4 E4 [? ?]. by rewrite E4. }
  eapply wp_mono; [exact Hka|]. intros ok s4 (E4 & A4 & B4 & Hok). clear Hka.
  assert (L4 : last_ok s4) by (eapply last_ok_sub; [exact L3|done|done|]; rewrite E3, E4; eauto).
  destruct ok; simpl.
  2:{ apply wp_ret. apply Hfail; rewrite ?E4; try done. apply Hset. right. by apply Hok. }
  apply wp_bind. unfold new_addr. apply wp_bind, wp_getc. apply wp_bind, wp_modst. apply wp_ret. rewrite E4. set (p := next_addr (st s1)).
  apply wp_bind, wp_put_inst. set (i := new_instance _ _ _). simpl.
  assert (Hp : insts (st s1) !! p = None).
  { destruct (insts (st s1) !! p) eqn:E; [|done]. destruct (rp_fresh _ _ _ _ _ H1) as (_ & _ & F).
    assert (p ∈ dom (insts (st s1))) as Hin by (apply elem_of_dom; by eexists). apply F in Hin. unfold p in Hin. lia. }
  assert (Hki : key_of i = k).
  { unfold key_of, i, new_instance. simpl. destruct short_key eqn:Hs; simpl; [|done]. by apply (hl_short _ W Hs). }
  assert (K : inst_key_ok cf i).
  { split; [done|by rewrite Hki|]. unfold i. simpl. destruct short_key; [done|by eexists]. }
  apply wp_bind. remember (hc_set (st s1)) as T eqn:ET.
  set (S5 := set_insts (<[p := i]> (insts (st s1))) (set_next_addr (Datatypes.S p) (st s1))). set (s5 := set_st _ _).
  assert (E5 : st s5 = S5) by (unfold s5; simpl; by rewrite ?E4).
  assert (H5 : repr S5 L) by (by apply repr_new_inst).
  assert (Hinsts : insts S5 = <[p := i]> (insts (st s1))) by done.
  assert (Hne : forall q j, insts (st s1) !! q = Some j -> q <> p) by congruence.
  eapply (wp_link_instance _ (st s1) T); [done|rewrite E5; simpl; done|done..| |]; rewrite ?E5.
  - intros s6 t E6 [A6 B6] [Pm Fm Lg]. simpl in A6, B6. simpl.
    apply wp_bind, wp_modst, wp_ret. apply HQ. split; simpl; rewrite ?E6; simpl.
    + eapply repr_same; [exact H5|done..].
    + eapply (set_ok_new hash (st s1) _ p i); rewrite <- ?ET; simpl; try done.
      * by rewrite Hki.
      * rewrite wrap_succ32; [done|]. destruct (so_n _ _ _ S1) as [En Hlt]. rewrite En in *. unfold zlen in *. lia.
      * apply Hn1.
      * apply Hn1.
    + destruct L4 as [L4 L4']. split; simpl; rewrite A6; [done|]. rewrite B6. intros Hr q j Hj. rewrite ?E6 in Hj. simpl in Hj.
      apply lookup_insert_Some in Hj as [[<- <-]|[_ Hj]]; [simpl; rewrite A4; apply Hle; congruence|]. apply (L4' Hr q). by rewrite E4.
    + done.
    + intros q j Hj. destruct (I1 _ _ Hj) as [Hj1|?]; [left|by right]. rewrite lookup_insert_ne; [done|]. by apply not_eq_sym, (Hne _ j).
    + intros q j [[<- <-]|[_ Hj]]%lookup_insert_Some; [right; by do 3 eexists|left; by apply I1'].
    + exists i. by rewrite lookup_insert_eq.
  - intros s6 Hs E6 [A6 B6]. simpl in A6, B6. simpl. apply wp_bind, wp_modst. unfold not_accepted. apply wp_ret. apply Hfail; simpl; rewrite ?E6; simpl.
    + eapply repr_same; [eapply (repr_delete_inst _ _ _ _ _ p H5 Hm)|done..].
      apply elem_of_nil_inv. intros x [E Hx]%of_inst_in. destruct (sample_inst _ _ _ _ _ _ H1 Hm Hx) as [j Hj]. rewrite E in Hj. congruence.
    + eapply set_ok_same; [eapply set_ok_drop; [exact S1|by rewrite <- ?ET|exact Hk|rewrite <- ?ET; by apply Hin1]|].
      split; [simpl; by rewrite <- ?ET|]. split; [done|]. intros q. simpl. by rewrite delete_insert_id.
    + done.
    + by rewrite delete_insert_id.
    + eapply last_ok_sub; [exact L4|done|done|]. simpl. rewrite ?E6, ?E4. simpl. intros q j Hj.
      rewrite delete_insert_id in Hj by done. eauto.
Qed.

End Look.
