(* ===== verification/CacheKey.v ===== *)
(** History caches: [hc_get_instance_key] on every branch - the instance with a
    key is found in both formats of the set, and otherwise made when that is
    asked for - and the functions that use it. *)

From stdpp Require Import gmap sorting.
From S2P Require Import Prelude Seqnr Cache CacheAdd CacheGet CacheProps CacheInv CacheSet CacheLook.
From stdpp Require Import list.

#[local] Open Scope Z_scope.

Section Key.
Context (cf : Conf) (W : hash_laws cf).
#[local] Abbreviation multi := (hc_multi_inst cf).
#[local] Abbreviation repr := (repr (hc_multi_inst cf) (hc_src_time cf) false).
#[local] Abbreviation key_of := (key_of cf).

(** ** Room for another instance *)

Definition reusable (s : Store) (o : option nat) : Prop :=
  match o with Some r => exists i, insts s !! r = Some i /\ CAN_RECOVER i = true | None => True end.

Lemma wp_oldest l old s (Q : option nat -> HistoryCache_t -> Prop) : (forall p, p ∈ l -> is_Some (insts (st s) !! p)) -> reusable (st s) old ->
  (forall o, reusable (st s) o -> Q o s) -> wp (oldest l old) Q s.
Proof.
  revert old. induction l as [|p l IH]; intros old Hl Ho HQ; simpl; [by apply wp_ret, HQ|].
  destruct (Hl p) as [i Hi]; [by left|]. assert (Hl' : forall q, q ∈ l -> is_Some (insts (st s) !! q)) by (intros; apply Hl; by right).
  apply wp_bind. eapply wp_inst; [done|]. apply wp_if; intros Hr; [|by apply IH].
  apply wp_bind. assert (Hp : reusable (st s) (Some p)) by (by exists i).
  assert (wp (match old with None => mret true | Some q => j ← inst q; mret (l_time (i_list i) <? l_time (i_list j)) end) (fun _ s' => s' = s) s) as Hb.
  { destruct old as [q|]; [|done]. destruct Ho as (j & Hj & _). apply wp_bind. by eapply wp_inst. }
  eapply wp_mono; [exact Hb|]. intros b ? ->. apply IH; [done|by destruct b|done].
Qed.

Lemma wp_recoverable spare s (Q : option nat -> HistoryCache_t -> Prop) : set_okx cf spare (st s) ->
  (forall o, reusable (st s) o -> Q o s) -> wp (hc_recoverable cf) Q s.
Proof.
  intros H HQ. unfold hc_recoverable. apply wp_if; intros _; [by apply wp_ret, HQ|]. apply wp_bind, wp_getc.
  apply wp_oldest; [|done|done]. intros p Hp. by apply (so_dom _ _ _ H).
Qed.

(** [no_instances] fails when nothing is to be added, or there are too many and
    none can be reused. *)
Lemma wp_no_instances spare add s (Q : bool * option nat -> HistoryCache_t -> Prop) : set_okx cf spare (st s) ->
  (adds add = false -> Q (true, None) s) ->
  (adds add = true -> hc_max_inst cf <= hc_ninstances (st s) -> Q (true, None) s) ->
  (adds add = true -> hc_max_inst cf <= hc_ninstances (st s) -> forall r, reusable (st s) (Some r) -> Q (false, Some r) s) ->
  (adds add = true -> hc_ninstances (st s) < hc_max_inst cf -> Q (false, None) s) ->
  wp (no_instances cf add) Q s.
Proof.
  intros H Q1 Q2 Q3 Q4. unfold no_instances. apply wp_bind, wp_getc. destruct (adds add) eqn:Ha; simpl; [|by apply wp_ret, Q1].
  apply wp_if; intros Hm; zbool; [|apply wp_ret, Q4; done || lia]. apply wp_bind. eapply wp_recoverable; [done|]. intros [r|] Hr; apply wp_ret.
  - rewrite bool_decide_false by done. by apply Q3.
  - rewrite bool_decide_true by done. by apply Q2.
Qed.

Lemma same_no_instances spare add s : set_okx cf spare (st s) -> wp (no_instances cf add) (fun _ s' => s' = s) s.
Proof. intros S. by eapply wp_no_instances. Qed.

Lemma wp_no_samples ooo cause s (Q : bool -> HistoryCache_t -> Prop) : (forall b, Q b s) -> wp (no_samples cf ooo cause) Q s.
Proof. intros HQ. unfold no_samples. apply wp_bind, wp_getc. by apply wp_ret. Qed.

Lemma wp_check p i add ooo cause s (Q : Found -> HistoryCache_t -> Prop) : insts (st s) !! p = Some i ->
  (forall c, Q (Some p, i_handle i, c) s) ->
  (cause && adds add && hc_must_ack cf = true -> forall c, Q (None, 0, Some c) s) ->
  wp (HC_CHECK cf p add ooo cause) Q s.
Proof.
  intros Hi Q1 Q2. unfold HC_CHECK. apply wp_if; intros Hb.
  - unfold hc_check_limits. apply wp_bind. eapply wp_inst; [done|]. apply wp_bind, wp_getc.
    apply wp_if; intros _; [by apply wp_ret, Q2|]. apply wp_if; intros _; apply wp_ret; auto.
  - apply wp_bind. eapply wp_inst; [done|]. apply wp_ret, Q1.
Qed.

(** ** The key is known *)

Definition hash_ok (hp : option (list Z)) (k : list Z) : Prop := match hp with Some h => hash_from_key cf k = Some h | None => True end.

Lemma key_chain spare s p i hash : set_okx cf spare s -> hc_skiplists (hc_set s) = true -> insts s !! p = Some i -> hash = i_hash i ->
  sl_search hash_cmp hash (hc_hashes (hc_set s)) = Some [p].
Proof.
  intros S Hs Hi ->. pose proof (so_format _ _ _ S) as F. rewrite Hs in F.
  apply (sl_search_spec _ _ hash_total); [apply F|by eapply inst_hash_len|]. by apply (lo_all _ _ F).
Qed.

Lemma key_hash_of spare s p i k : set_okx cf spare s -> insts s !! p = Some i -> key_of i = k -> hash_from_key cf k = Some (i_hash i).
Proof. intros S Hi <-. by destruct (so_inst _ _ _ S _ _ Hi). Qed.

Lemma long_key_field i k : inst_key_ok cf i -> short_key cf = false -> key_of i = k -> i_key i = Some k.
Proof. intros [_ _ K] Hs <-. rewrite Hs in K. destruct K as [k' K]. unfold Cache.key_of. by rewrite K. Qed.

Lemma wp_get_key_found s p i k hp handle add ooo cause (Q : Found -> HistoryCache_t -> Prop) : set_ok cf (st s) -> insts (st s) !! p = Some i ->
  key_of i = k -> hash_ok hp k ->
  (forall c, Q (Some p, i_handle i, c) s) ->
  (cause && adds add && hc_must_ack cf = true -> forall c, Q (None, 0, Some c) s) ->
  wp (hc_get_instance_key cf hp (Some k) handle add ooo cause) Q s.
Proof.
  intros S Hi Ek Hhp Q1 Q2. unfold hc_get_instance_key. apply wp_bind, wp_getc. simpl.
  pose proof (so_dom _ _ _ S p) as Hd. assert (Hp : p ∈ members (hc_set (st s))) by (apply Hd; by eexists).
  apply wp_bind, (wp_the _ k); [done|]. apply wp_bind. destruct (hc_skiplists (hc_set (st s))) eqn:Hs.
  - apply wp_ret. apply wp_bind, wp_ret. simpl.
    assert (Hh : match hp with Some h => Some h | None => hash_from_key cf k end = Some (i_hash i)).
    { pose proof (key_hash_of _ _ _ _ _ S Hi Ek) as E. destruct hp as [h|]; [|done]. simpl in Hhp. congruence. }
    rewrite Hh. apply wp_bind, wp_getc. rewrite Hs. unfold key_in_skiplists. apply wp_bind, wp_getc. apply wp_bind.
    eapply wp_mono; [exact (same_no_instances _ _ _ S)|]. intros [full r] ? ->. apply wp_bind. rewrite (key_chain _ _ _ _ _ S Hs Hi eq_refl).
    assert (wp (if full then mret true else no_samples cf ooo cause) (fun _ s' => s' = s) s) as Hc by (destruct full; done).
    eapply wp_mono; [exact Hc|]. intros crowded ? ->. apply wp_bind, wp_ret. simpl. rewrite orb_true_r.
    apply wp_if; intros Hsh.
    + apply wp_bind, (wp_the _ p); [done|]. by eapply wp_check.
    + pose proof (long_key_field i k (so_inst _ _ _ S _ _ Hi) Hsh Ek) as Eki. apply wp_bind, wp_bind. eapply wp_inst; [done|].
      rewrite bool_decide_true by done. apply wp_ret. apply wp_bind, (wp_the _ p); [done|]. by eapply wp_check.
  - unfold members in Hp. rewrite Hs in Hp.
    apply wp_find_inst.
    + intros q Hq. apply (so_dom _ _ _ S). unfold members. by rewrite Hs.
    + intros q j Hq Hj E%bool_decide_eq_true. assert (q = p) as -> by (eapply (so_keys _ _ _ S); [done..|congruence]).
      by eapply (wp_check p i).
    + intros Hno. specialize (Hno _ _ Hp Hi). simpl in Hno. apply bool_decide_eq_false in Hno. done.
Qed.

(** ** The key is new *)

Lemma chain_none s k hash : set_ok cf s -> hc_skiplists (hc_set s) = true -> fresh_key cf s k -> hash_from_key cf k = Some hash ->
  sl_search hash_cmp hash (hc_hashes (hc_set s)) = None
  \/ short_key cf = false /\ sl_search hash_cmp hash (hc_hashes (hc_set s)) = Some [] /\ (hash, []) ∈ hc_hashes (hc_set s).
Proof.
  intros S Hs Hno Hk. destruct (sl_search _ _ _) as [ch|] eqn:E; [right|by left].
  pose proof (so_format _ _ _ S) as F. rewrite Hs in F. apply (sl_search_spec _ _ hash_total) in E; [|apply F|by eapply hl_len].
  destruct (lo_chain _ _ F _ _ E) as [[-> ?]|(p & i & -> & Hi & Eh)]; [done|exfalso].
  apply (Hno p i Hi). by rewrite Eh.
Qed.

Lemma find_key_none s l k (Q : option nat -> HistoryCache_t -> Prop) : (forall p, p ∈ l -> is_Some (insts (st s) !! p)) -> has_key cf (st s) k None ->
  Q None s -> wp (find_inst (fun i => bool_decide (key_of i = k)) l) Q s.
Proof.
  intros Hl Hno HQ. apply wp_find_inst; [done| |done]. intros p i _ Hi E%bool_decide_eq_true. by destruct (Hno p i Hi).
Qed.

(** A lookup alone changes nothing. *)
Lemma wp_lookup_none s k hp handle ooo cause (Q : Found -> HistoryCache_t -> Prop) : set_ok cf (st s) -> fresh_key cf (st s) k -> hash_ok hp k ->
  (forall c, Q (None, 0, c) s) -> wp (hc_get_instance_key cf hp (Some k) handle LH_LOOKUP ooo cause) Q s.
Proof.
  intros S Hno Hhp HQ. unfold hc_get_instance_key. apply wp_bind, wp_getc. simpl.
  apply wp_bind, (wp_the _ k); [done|]. apply wp_bind. destruct (hc_skiplists (hc_set (st s))) eqn:Hs.
  - apply wp_ret. apply wp_bind, wp_ret. simpl.
    destruct (match hp with Some h => Some h | None => hash_from_key cf k end) as [hash|] eqn:Eh; [|by apply wp_ret].
    assert (Hk : hash_from_key cf k = Some hash) by (destruct hp; simpl in *; congruence).
    apply wp_bind, wp_getc. rewrite Hs. unfold key_in_skiplists. apply wp_bind, wp_getc. apply wp_bind.
    unfold no_instances. apply wp_bind, wp_getc. simpl. apply wp_ret. apply wp_bind, wp_ret. apply wp_bind.
    destruct (chain_none _ _ _ S Hs Hno Hk) as [->|(Hsh & -> & _)]; apply wp_ret; [by apply wp_ret|]. simpl. rewrite Hsh.
    apply wp_bind, wp_ret. by apply wp_ret.
  - apply find_key_none; [|by eapply fresh_has_key|].
    + intros q Hq. apply (so_dom _ _ _ S). unfold members. by rewrite Hs.
    + apply wp_bind, wp_bind. unfold no_instances. apply wp_bind, wp_getc. simpl. apply wp_ret, wp_ret. by apply wp_ret.
Qed.

Lemma steady_convert_to_long : steady hc_convert_to_long.
Proof.
  assert (steady_loop : forall l t, steady (convert_loop l t)).
  { induction l as [|p l IH]; intros t; simpl; [steady|]. unfold inst. apply steady_bind; [steady|intros i].
    apply steady_bind; [case_match; steady|intros ok]. destruct ok; simpl; [|steady].
    apply steady_bind; [case_match; steady|intros ok]. destruct ok; simpl; [|steady]. apply IH. }
  unfold hc_convert_to_long, mod_set. apply steady_bind; [steady|intros ok]. destruct ok; simpl; [|steady].
  apply steady_bind; [steady|intros ok]. destruct ok; simpl; [|steady]. apply steady_bind; [steady|intros s].
  apply steady_bind; [apply steady_loop|intros [t rest]]. destruct rest; steady.
Qed.

Lemma added_none s s' L k h : repr (st s') L -> set_ok cf (st s') -> last_ok s' -> chgs (st s') = chgs (st s) -> insts (st s') = insts (st s) ->
  added cf s s' L k None h.
Proof. intros H S HL E1 E2. split; try done; intros q j Hj; left; congruence. Qed.

Lemma added_from s s1 s' L k o h : chgs (st s1) = chgs (st s) -> insts (st s1) = insts (st s) -> added cf s1 s' L k o h -> added cf s s' L k o h.
Proof. intros E1 E2 [A B C D F G I]. rewrite E1 in D. rewrite E2 in F, G. by split. Qed.

(** The part that works on skiplists: the hash gets a node, then there is a
    new instance. *)
Lemma wp_skiplists_new s L k hash r0 handle ooo cause (Q : Found -> HistoryCache_t -> Prop) : multi = true -> repr (st s) L -> set_ok cf (st s) ->
  last_ok s -> hc_skiplists (hc_set (st s)) = true -> hash_from_key cf k = Some hash -> fresh_key cf (st s) k ->
  hc_ninstances (st s) < MAX_INST_HANDLE ->
  (forall r i, r0 = Some r -> insts (st s) !! r = Some i -> hc_ninstances (st s) < hc_max_inst cf -> False) -> reusable (st s) r0 ->
  (forall o h c s', added cf s s' L k o h -> Q (o, h, c) s') ->
  wp (key_in_skiplists cf hash (Some k) r0 handle LH_ADD_NEW_H ooo cause) Q s.
Proof.
  intros Hm H S HL Hs Hk Hno Hn Hr0 Hr0' HQ. unfold key_in_skiplists. apply wp_bind, wp_getc. apply wp_bind.
  assert (Hmax : MAX_INST_LLIST <= hc_max_inst cf) by (destruct (so_max _ _ _ S) as [?|[? _]]; [done|congruence]).
  assert (Hsp : forall h, short_key cf = false -> spare cf hash h) by (intros; by left).
  assert (Hfail : forall c, Q (None, 0, c) s) by (intros c; apply HQ, added_none; done).
  assert (K : wp (no_instances cf LH_ADD_NEW_H) (fun '(_, r) s' => s' = s /\
    (let r' := if adds LH_ADD_NEW_H && (hc_max_inst cf <=? hc_ninstances (st s)) then r else r0 in
     match r' with
     | Some r => exists i, insts (st s) !! r = Some i /\ CAN_RECOVER i = true /\ hc_max_inst cf <= hc_ninstances (st s)
     | None => hc_ninstances (st s) < MAX_INST_HANDLE /\ (MAX_INST_LLIST <= hc_max_inst cf \/ hc_ninstances (st s) < hc_max_inst cf) end)) s).
  { simpl. eapply wp_no_instances; [exact S|done|..]; simpl.
    - intros _ Hle. split; [done|]. rewrite (proj2 (Z.leb_le _ _)) by done. split; [done|by left].
    - intros _ Hle r (i & Hi & Hr). split; [done|]. rewrite (proj2 (Z.leb_le _ _)) by done. by exists i.
    - intros _ Hlt. split; [done|]. rewrite (proj2 (Z.leb_gt _ _)) by done. destruct r0 as [r|]; [|split; [done|by left]].
      destruct Hr0' as (i & Hi & _). by destruct (Hr0 r i). }
  eapply wp_mono; [exact K|]. clear K. intros [full r] ? [-> Hr]. cbv zeta in Hr |- *. set (r_ip := if _ && _ then r else r0) in *. clearbody r_ip.
  apply wp_bind. assert (wp (if full then mret true else no_samples cf ooo cause) (fun _ s' => s' = s) s) as Hc by (destruct full; done).
  eapply wp_mono; [exact Hc|]. clear Hc. intros crowded ? ->. apply wp_bind.
  destruct (chain_none _ _ _ S Hs Hno Hk) as [Hnone|(Hsh & -> & Hin)].
  - rewrite Hnone. destruct crowded.
    { change (negb (adds LH_ADD_NEW_H)) with false. cbv iota. apply wp_if; intros _; apply wp_ret, wp_ret; destruct cause; apply Hfail. }
    apply wp_bind, steady_wp; [apply steady_alloc|]. apply quiet_alloc. intros ok s1 E1 [A1 B1]. destruct ok.
    2:{ apply wp_ret, wp_ret. apply HQ, added_none; rewrite ?E1; try done. eapply last_ok_sub; [exact HL|done|done|]. rewrite E1. eauto. }
    apply wp_bind, wp_modst. simpl. apply wp_ret. simpl. rewrite E1. pose proof (so_format _ _ _ S) as F. rewrite Hs in F.
    assert (Hlen : length hash = 16%nat) by by eapply hl_len.
    assert (Hh : hash ∉ (hc_hashes (hc_set (st s))).*1) by (by apply (sl_search_none _ _ hash_total); [apply F|done|]).
    destruct (sl_insert_new _ _ hash_total hash [] _ (lo_hashes _ _ F) Hlen Hh) as [P1 P2].
    set (t := mkSet true [] (sl_insert hash_cmp hash [] (hc_hashes (hc_set (st s)))) (hc_handles (hc_set (st s)))). set (s2 := set_st _ s1).
    assert (E2 : st s2 = set_hc_set t (st s)) by done.
    eapply (wp_create_instance _ W _ L); rewrite ?E2; simpl; try done.
    + eapply repr_same; [exact H|done..].
    + assert (Em : members t = members (hc_set (st s))) by (unfold members, t; by rewrite Hs).
      split; simpl; rewrite ?Em; try apply S; [|by left]. destruct F as [F1 F2 F3 F4 F5]. split; simpl; try done.
      * intros h ch. rewrite P1. intros [[= -> ->]|Hin]%elem_of_cons; [left; split; [done|by right]|].
        destruct (F4 _ _ Hin) as [[? ?]|?]; [left; split; [done|by left]|by right].
      * intros p i Hi. rewrite P1. right. by apply F5.
    + eapply last_ok_sub; [exact HL|done|done|]. rewrite E2. simpl. eauto.
    + intros _. rewrite P1. left.
    + intros o h c s' A. apply HQ. eapply added_from; [..|exact A]; by rewrite E2.
  - apply wp_ret. simpl. rewrite Hsh. apply wp_bind, wp_ret.
    eapply (wp_create_instance _ W _ L); simpl; try done. eapply set_ok_spare; [|exact S]. exact Hsp.
Qed.

(** [hc_get_instance_key] with a key that no instance has. *)
Lemma wp_get_key_new s L k hp handle ooo cause (Q : Found -> HistoryCache_t -> Prop) : multi = true -> repr (st s) L -> set_ok cf (st s) ->
  last_ok s -> fresh_key cf (st s) k -> hash_ok hp k -> hc_ninstances (st s) < MAX_INST_HANDLE ->
  (forall o h c s', added cf s s' L k o h -> Q (o, h, c) s') ->
  wp (hc_get_instance_key cf hp (Some k) handle LH_ADD_NEW_H ooo cause) Q s.
Proof.
  intros Hm H S HL Hno Hhp Hn HQ. unfold hc_get_instance_key. apply wp_bind, wp_getc. simpl.
  assert (Hfail : forall c, Q (None, 0, c) s) by (intros c; apply HQ, added_none; done).
  apply wp_bind, (wp_the _ k); [done|]. apply wp_bind. destruct (hc_skiplists (hc_set (st s))) eqn:Hs.
  - apply wp_ret. apply wp_bind, wp_ret. simpl.
    destruct (match hp with Some h => Some h | None => hash_from_key cf k end) as [hash|] eqn:Eh; [|apply wp_ret, Hfail].
    assert (Hk : hash_from_key cf k = Some hash) by (destruct hp; simpl in *; congruence).
    apply wp_bind, wp_getc. rewrite Hs. by eapply wp_skiplists_new.
  - apply find_key_none; [|by eapply fresh_has_key|].
    { intros q Hq. apply (so_dom _ _ _ S). unfold members. by rewrite Hs. }
    apply wp_bind, wp_bind.
    assert (K : forall r, reusable (st s) r ->
      match r with Some _ => hc_max_inst cf <= hc_ninstances (st s) | None => hc_ninstances (st s) < hc_max_inst cf end ->
      wp (crowded ← no_samples cf ooo cause;
          if (crowded : bool) then mret (Some RC_SamplesLimit, r) else
          whenc (MAX_INST_LLIST <=? hc_ninstances (st s)) hc_convert_to_long;; mret (None, r))
        (fun '(f, r') s1 => r' = r /\ (f = None \/ s1 = s) /\ exists t, st s1 = set_hc_set t (st s) /\ set_ok cf (st s1) /\ last_ok s1) s).
    { intros r Hr Hmx. apply wp_bind, wp_no_samples. intros crowded. apply wp_if; intros _.
      { apply wp_ret. split; [done|]. split; [by right|]. exists (hc_set (st s)). split_and!; [by destruct s as [[]]|done..]. }
      apply wp_bind, wp_whenc; intros Hb; zbool.
      - apply steady_wp; [apply steady_convert_to_long|]. eapply (wp_convert_to_long _ W); [exact S|done|done|]. intros s1 t E1 S1 [A B].
        apply wp_ret. split; [done|]. split; [by left|]. exists t. split; [done|]. split; [done|].
        eapply last_ok_sub; [exact HL|done|done|]. rewrite E1. simpl. eauto.
      - apply wp_ret. split; [done|]. split; [by left|]. exists (hc_set (st s)). split_and!; [by destruct s as [[]]|done..]. }
    assert (Kn : forall r, reusable (st s) r ->
      match r with Some _ => hc_max_inst cf <= hc_ninstances (st s) | None => hc_ninstances (st s) < hc_max_inst cf end ->
      wp (crowded ← no_samples cf ooo cause;
          if (crowded : bool) then mret (Some RC_SamplesLimit, r) else
          whenc (MAX_INST_LLIST <=? hc_ninstances (st s)) hc_convert_to_long;; mret (None, r))
        (fun '(failed, r_ip) s1 => wp (match failed with
          | Some c => not_accepted (if cause then Some c else None)
          | None => match (match hp with Some h => Some h | None => hash_from_key cf k end) with
              | None => not_accepted (if cause then Some RC_InstanceLimit else None)
              | Some hash => s ← getc;
                  if hc_skiplists (hc_set (st s)) then key_in_skiplists cf hash (Some k) r_ip handle LH_ADD_NEW_H ooo cause
                  else create_instance cf hash (Some k) false r_ip LH_ADD_NEW_H handle
              end end) Q s1) s).
    { intros r Hr Hmx. eapply wp_mono; [exact (K r Hr Hmx)|]. clear K. intros [f r'] s1 (-> & Hf & t & E1 & S1 & HL1).
      assert (H1 : repr (st s1) L) by (rewrite E1; eapply repr_same; [exact H|done..]).
      assert (Hfail1 : forall c, Q (None, 0, c) s1) by (intros c; apply HQ, added_none; rewrite ?E1 in *; done).
      destruct f as [c|]; [apply wp_ret, Hfail1|]. destruct (match hp with Some h => Some h | None => hash_from_key cf k end) as [hash|] eqn:Eh; [|apply wp_ret, Hfail1].
      assert (Hk : hash_from_key cf k = Some hash) by (destruct hp; simpl in *; congruence).
      assert (Hno1 : fresh_key cf (st s1) k) by (by rewrite E1).
      assert (En : hc_ninstances (st s1) = hc_ninstances (st s)) by (by rewrite E1).
      assert (Ei : insts (st s1) = insts (st s)) by (by rewrite E1).
      assert (Ec : chgs (st s1) = chgs (st s)) by (by rewrite E1).
      apply wp_bind, wp_getc. destruct (hc_skiplists (hc_set (st s1))) eqn:Hs1.
      - eapply wp_skiplists_new; try done; [lia| | |].
        + intros r0 i -> _. lia.
        + destruct r as [r|]; [|done]. destruct Hr as (i & Hi & Hrec). exists i. by rewrite Ei.
        + intros o h c s' A. apply HQ. by eapply added_from.
      - eapply (wp_create_instance _ W _ L); try done.
        + eapply set_ok_spare; [|exact S1]. intros h ?. by left.
        + destruct r as [r|]; [|split; [lia|right; lia]]. destruct Hr as (i & Hi & Hrec). exists i. rewrite Ei. split_and!; [done..|lia].
        + intros o h c s' A. apply HQ. by eapply added_from. }
    eapply wp_no_instances; [exact S|done|..]; simpl.
    + intros _ _. apply wp_ret, wp_ret. destruct cause; apply Hfail.
    + intros _ Hle r Hr. eapply wp_mono; [by apply (Kn (Some r))|]. by intros [f r'] s1.
    + intros _ Hlt. eapply wp_mono; [by apply (Kn None)|]. by intros [f r'] s1.
Qed.

End Key.
