(* ===== verification/CacheWriters.v ===== *)
(** History caches: the list of the writers of an instance is a sorted set of
    handles, searched by bisection, and its owner is a strongest writer. *)

From stdpp Require Import gmap sorting.
From S2P Require Import Prelude Seqnr Cache CacheAdd CacheProps.
From stdpp Require Import list.

#[local] Open Scope Z_scope.

(** ** Bisection *)

(** The place of [w] in a sorted list: where it is, or between which elements
    it belongs. *)
Definition place (w : Z) (ws : list Z) (k : Z) : Prop :=
  (0 <= k /\ exists l1 l2, ws = l1 ++ w :: l2 /\ zlen l1 = k)
  \/ (k < 0 /\ exists l1 l2, ws = l1 ++ l2 /\ zlen l1 = - k - 1 /\ Forall (fun x => x < w) l1 /\ Forall (fun x => w < x) l2).

Lemma sorted_app_lt (l1 l2 : list Z) x y : StronglySorted Z.lt (l1 ++ l2) -> x ∈ l1 -> y ∈ l2 -> x < y.
Proof. intros H. by apply (StronglySorted_app_1_elem_of Z.lt l1 l2). Qed.

Lemma lookup_loop_place fuel w (A B D : list Z) : StronglySorted Z.lt (A ++ B ++ D) -> zlen B <= Z.of_nat fuel ->
  Forall (fun x => x < w) A -> Forall (fun x => w < x) D ->
  exists k, lookup_loop fuel (A ++ B ++ D) w (zlen A) (zlen A + zlen B - 1) = Some k /\ place w (A ++ B ++ D) k.
Proof.
  revert A B D. induction fuel as [|fuel IH]; intros A B D Hs Hf HA HD.
  - assert (B = []) as -> by (destruct B; [done|unfold zlen in Hf; simpl in Hf; lia]). simpl.
    rewrite (proj2 (Z.leb_gt _ _)) by (unfold zlen; simpl; lia). eexists. split; [done|]. right.
    split; [unfold zlen; lia|]. exists A, D. split_and!; try done. lia.
  - simpl. destruct (Z.leb_spec (zlen A) (zlen A + zlen B - 1)) as [Hle|Hle].
    2:{ assert (B = []) as -> by (destruct B; [done|unfold zlen in *; simpl in Hle; lia]).
        eexists. split; [done|]. right. split; [unfold zlen; lia|]. exists A, D. split_and!; try done. lia. }
    set (m := Z.shiftr (zlen A + zlen B - 1 - zlen A) 1). assert (Hm : 0 <= m < zlen B).
    { unfold m. rewrite Z.shiftr_div_pow2 by lia. change (2 ^ 1) with 2. pose proof (Z.div_mod (zlen A + zlen B - 1 - zlen A) 2).
      pose proof (Z.mod_pos_bound (zlen A + zlen B - 1 - zlen A) 2). lia. }
    clearbody m. assert (exists B1 x B2, B = B1 ++ x :: B2 /\ zlen B1 = m) as (B1 & x & B2 & -> & Hl).
    { destruct (lookup_lt_is_Some_2 B (Z.to_nat m)) as [x Hx]; [unfold zlen in Hm; lia|]. exists (take (Z.to_nat m) B), x, (drop (S (Z.to_nat m)) B).
      split; [by rewrite take_drop_middle|]. unfold zlen in *. rewrite length_take. lia. }
    assert (Hx : zget (A ++ (B1 ++ x :: B2) ++ D) (zlen A + m) = Some x).
    { rewrite zget_app_r by lia. rewrite <- app_assoc, zget_app_r by lia. replace (zlen A + m - zlen A - zlen B1) with 0 by lia. apply zget_cons_0. }
    rewrite Hx. simpl. rewrite zlen_app, zlen_cons in *.
    assert (E1 : A ++ (B1 ++ x :: B2) ++ D = A ++ B1 ++ (x :: B2 ++ D)) by (by rewrite <- !app_assoc).
    assert (E2 : A ++ (B1 ++ x :: B2) ++ D = (A ++ B1 ++ [x]) ++ B2 ++ D) by (by rewrite <- !app_assoc).
    destruct (Z.ltb_spec w x) as [Hlt|Hge].
    + rewrite E1 in Hs |- *. replace (zlen A + m - 1) with (zlen A + zlen B1 - 1) by lia. apply IH; [done|pose proof (zlen_nonneg B2); lia|done|].
      apply Forall_forall. intros y Hy. apply elem_of_cons in Hy as [->|Hy]; [done|].
      rewrite app_assoc in Hs. apply StronglySorted_app_1_r in Hs. inversion_clear Hs as [|?? _ Hx']. rewrite Forall_forall in Hx'.
      specialize (Hx' y Hy). lia.
    + destruct (Z.ltb_spec x w) as [Hlt|Hge'].
      * rewrite E2. replace (zlen A + m + 1) with (zlen (A ++ B1 ++ [x])) by (rewrite !zlen_app, zlen_cons, zlen_nil; lia).
        replace (zlen A + (zlen B1 + (1 + zlen B2)) - 1) with (zlen (A ++ B1 ++ [x]) + zlen B2 - 1) by (rewrite !zlen_app, zlen_cons, zlen_nil; lia).
        apply IH; [by rewrite <- E2|pose proof (zlen_nonneg B1); lia| |done]. apply Forall_forall. intros y Hy.
        rewrite app_assoc in Hy. apply elem_of_app in Hy as [Hy|Hy]; [|by apply list_elem_of_singleton in Hy as ->].
        rewrite E1 in Hs. rewrite app_assoc in Hs. apply (sorted_app_lt _ _ y x) in Hs; [lia|done|left].
      * assert (w = x) as -> by lia. eexists. split; [done|]. left. split; [pose proof (zlen_nonneg A); lia|].
        exists (A ++ B1), (B2 ++ D). split; [by rewrite <- !app_assoc|]. rewrite zlen_app. lia.
Qed.

Definition handles_ok (ws : list Z) : Prop := StronglySorted Z.lt ws /\ Forall (fun w => 0 < w < 2 ^ 16) ws.

Lemma sorted_nodup ws : StronglySorted Z.lt ws -> NoDup ws.
Proof.
  induction 1 as [|x ws _ IH Hx]; constructor; [|done]. intros Hin. rewrite Forall_forall in Hx. specialize (Hx _ Hin). lia.
Qed.

Lemma handles_none : handles_ok [].
Proof. split; constructor. Qed.
Lemma handles_one w : 0 < w < 2 ^ 16 -> handles_ok [w].
Proof. intros. split; constructor; done || constructor. Qed.

Lemma handles_len ws : handles_ok ws -> zlen ws < 2 ^ 16.
Proof.
  intros [Hs Hr]. assert (length ws <= length (seqZ 1 65535))%nat as Hl.
  { apply submseteq_length, NoDup_submseteq; [by apply sorted_nodup|]. intros w Hw. rewrite Forall_forall in Hr. specialize (Hr _ Hw).
    apply elem_of_seqZ. lia. }
  rewrite length_seqZ in Hl. unfold zlen. lia.
Qed.

Lemma lookup_place ws w : handles_ok ws -> ws <> [] -> exists k, hc_lookup_handle ws w = Some k /\ place w ws k.
Proof.
  intros H Hne. unfold hc_lookup_handle. pose proof (handles_len _ H). assert (1 <= zlen ws) by (destruct ws; [done|rewrite zlen_cons; pose proof (zlen_nonneg ws); lia]).
  rewrite wrap_small by (unfold in_u; lia). destruct H as [Hs _].
  destruct (lookup_loop_place (S (length ws)) w [] ws []) as (k & E & Hp); try done.
  - by rewrite app_nil_r.
  - unfold zlen. lia.
  - rewrite app_nil_r in *. exists k. by split.
Qed.

(** ** Adding and removing handles *)

Lemma insert_place w (l1 l2 : list Z) k : zlen l1 = k -> insert_at k w (l1 ++ l2) = l1 ++ w :: l2.
Proof. intros <-. unfold insert_at. by rewrite ztake_app_full, zdrop_app_full. Qed.

Lemma remove_place w (l1 l2 : list Z) k : zlen l1 = k -> remove_at k (l1 ++ w :: l2) = l1 ++ l2.
Proof.
  intros <-. unfold remove_at. rewrite ztake_app_full. f_equal.
  replace (l1 ++ w :: l2) with ((l1 ++ [w]) ++ l2) by (by rewrite <- app_assoc).
  replace (zlen l1 + 1) with (zlen (l1 ++ [w])) by (by rewrite zlen_app, zlen_cons, zlen_nil). apply zdrop_app_full.
Qed.

Lemma writers_sorted_insert w (l1 l2 : list Z) : handles_ok (l1 ++ l2) -> 0 < w < 2 ^ 16 -> Forall (fun x => x < w) l1 -> Forall (fun x => w < x) l2 ->
  handles_ok (l1 ++ w :: l2).
Proof.
  intros [Hs Hr] Hw H1 H2. apply StronglySorted_app in Hs as (Hx & Hs1 & Hs2). apply Forall_app in Hr as [Hr1 Hr2]. split.
  - apply StronglySorted_app. split; [|split; [done|by constructor]]. intros x y Hx1 [->|Hy]%elem_of_cons; [|by apply Hx].
    rewrite Forall_forall in H1. by apply H1.
  - apply Forall_app. by split; [|constructor].
Qed.

Lemma writers_sorted_delete w (l1 l2 : list Z) : handles_ok (l1 ++ w :: l2) -> handles_ok (l1 ++ l2) /\ w ∉ l1 ++ l2.
Proof.
  intros [Hs Hr]. pose proof (sorted_nodup _ Hs) as Hn. apply StronglySorted_app in Hs as (Hx & Hs1 & Hs2). inversion_clear Hs2 as [|?? Hs3 Hw].
  apply Forall_app in Hr as [Hr1 Hr2]. apply Forall_cons in Hr2 as [_ Hr2]. split; [split|].
  - apply StronglySorted_app. split; [|done]. intros x y ? ?. apply Hx; [done|by right].
  - apply Forall_app. done.
  - rewrite <- Permutation_middle in Hn. by apply NoDup_cons in Hn as [? _].
Qed.

Section Writers.
Context (cf : Conf).

(** ** The owner *)

(** The ownership strength of a writer, a signed number; a writer that is gone
    has none. *)
Definition strength (h : Z) : Z :=
  match entity_ptr cf h with
  | Some e => if en_writer e then en_strength e else 0
  | None => 0
  end.

(** [o] is a writer of greatest strength. *)
Definition strongest (ws : list Z) (o : Z) : Prop :=
  if decide (ws = []) then o = 0 else o ∈ ws /\ forall w, w ∈ ws -> strength w <= strength o.

(** The code reads strengths as unsigned numbers; that is right when none is
    negative. *)
Definition strengths_ok : Prop := hc_exclusive cf = true -> forall h e, entity_ptr cf h = Some e -> 0 <= en_strength e < 2 ^ 31.

Lemma writer_strength_ok : strengths_ok -> hc_exclusive cf = true -> forall h, writer_strength cf h = strength h.
Proof.
  intros Hs Hex h. unfold writer_strength, strength. destruct (entity_ptr cf h) as [e|] eqn:E; [|done]. destruct (en_writer e); [|done].
  apply wrap_small. pose proof (Hs Hex h e E). unfold in_u. lia.
Qed.

Lemma best_writer_max l hw hs seen : (forall h, writer_strength cf h = strength h) -> Forall (fun w => 0 < w) (seen ++ l) ->
  (hw = 0 /\ seen = [] \/ hw ∈ seen /\ hs = strength hw /\ forall w, w ∈ seen -> strength w <= hs) -> strongest (seen ++ l) (best_writer cf l hw hs).
Proof.
  intros Hws. revert hw hs seen. induction l as [|h l IH]; intros hw hs seen Hpos Hinv; simpl.
  - rewrite app_nil_r. unfold strongest. case_decide as E.
    + destruct Hinv as [[? _]|[Hin _]]; [done|]. rewrite E in Hin. by apply elem_of_nil in Hin.
    + destruct Hinv as [[_ ?]|(? & -> & ?)]; [done|by split].
  - assert (Eapp : seen ++ h :: l = (seen ++ [h]) ++ l) by (by rewrite <- app_assoc).
    assert (Hh : 0 < h) by (apply Forall_app in Hpos as [_ Hpos]; by apply Forall_cons in Hpos as [? _]).
    rewrite (Hws h).
    assert (Hnew : forall hw' hs', hw' ∈ seen ++ [h] -> hs' = strength hw' -> (forall w, w ∈ seen -> strength w <= hs') ->
      strength h <= hs' -> strongest (seen ++ h :: l) (best_writer cf l hw' hs')).
    { intros hw' hs' Hin Es Hmax Hle. rewrite Eapp. apply IH; [by rewrite <- Eapp|]. right. split_and!; try done.
      intros w [Hw|Hw]%elem_of_app; [by apply Hmax|]. by apply list_elem_of_singleton in Hw as ->. }
    assert (Hself : h ∈ seen ++ [h]) by (apply elem_of_app; right; left).
    destruct (Z.eqb_spec hw 0) as [->|Hne]; simpl.
    + apply Hnew; [done|done| |lia]. destruct Hinv as [[_ ->]|[Hin _]]; [by intros ? ?%elem_of_nil|].
      rewrite Forall_forall in Hpos. specialize (Hpos 0). exfalso. enough (0 < 0) by lia. apply Hpos, elem_of_app. by left.
    + destruct Hinv as [[? _]|(Hin & -> & Hmax)]; [done|].
      destruct (Z.ltb_spec (strength hw) (strength h)); [apply Hnew; try done; intros w Hw; specialize (Hmax _ Hw); lia|].
      case_match eqn:Eb.
      * apply andb_true_iff in Eb as [Eb _]. apply Z.eqb_eq in Eb. rewrite <- Eb in *. by apply Hnew.
      * apply Hnew; try done. apply elem_of_app. by left.
Qed.

Context (Hst : strengths_ok).

Lemma best_writer_strongest ws : hc_exclusive cf = true -> handles_ok ws -> strongest ws (best_writer cf ws 0 0).
Proof.
  intros Hex [_ Hr]. apply (best_writer_max ws 0 0 []); [by apply writer_strength_ok| |by left]. simpl. eapply Forall_impl; [exact Hr|]. simpl. intros; lia.
Qed.

(** ** The writers of an instance *)

Record writers_ok (i : INSTANCE) : Prop := {
  wo_sorted : handles_ok (i_writers i);
  wo_block : DNWRITERS < zlen (i_writers i) -> exists max, i_wblock i = Some max /\ zlen (i_writers i) <= max;
  wo_owner : if hc_exclusive cf then strongest (i_writers i) (i_owner i) else i_owner i = 0
}.

(** Only the writers and the owner of an instance are changed. *)
Definition with_writers (ws : list Z) (b : option Z) (o : Z) (i : INSTANCE) : INSTANCE := set_i_owner o (set_i_wblock b (set_i_writers ws i)).

Lemma with_writers_same i : i = with_writers (i_writers i) (i_wblock i) (i_owner i) i.
Proof. by destruct i. Qed.
Lemma with_writers_twice a b o a' b' o' i : with_writers a b o (with_writers a' b' o' i) = with_writers a b o i.
Proof. done. Qed.

(** The state of an instance whose writers were changed. *)
Definition put (p : nat) (i : INSTANCE) (s : Store) : Store := set_insts (<[p := i]> (insts s)) s.

Lemma put_lookup p i s : insts (put p i s) !! p = Some i.
Proof. apply lookup_insert_eq. Qed.
Lemma put_twice p i i' s : put p i (put p i' s) = put p i s.
Proof. unfold put. simpl. by rewrite insert_insert_eq. Qed.
Lemma put_same p i s : insts s !! p = Some i -> put p i s = s.
Proof. intros. unfold put. rewrite insert_id by done. by destruct s. Qed.

Lemma wp_add_writer s p i w k (Q : ReturnCode_t -> HistoryCache_t -> Prop) l1 l2 : insts (st s) !! p = Some i -> writers_ok i -> 0 < w < 2 ^ 16 ->
  i_writers i = l1 ++ l2 -> zlen l1 = k -> Forall (fun x => x < w) l1 -> Forall (fun x => w < x) l2 ->
  (forall e s' b, st s' = put p (with_writers (l1 ++ w :: l2) b (i_owner i) i) (st s) ->
     (DNWRITERS < zlen (l1 ++ w :: l2) -> exists max, b = Some max /\ zlen (l1 ++ w :: l2) <= max) -> Q e s') ->
  (forall e s', st s' = st s -> Q e s') ->
  wp (hc_add_writer_handle p w k) Q s.
Proof.
  intros Hi [Hs Hb _] Hw E Hk H1 H2 HQ1 HQ2. unfold hc_add_writer_handle. apply wp_bind. eapply wp_inst; [done|]. cbv zeta.
  assert (Hadd : forall s' i' b, insts (st s') !! p = Some i' -> st s' = put p i' (st s) -> i' = set_i_wblock b i ->
    (DNWRITERS < zlen (i_writers i) + 1 -> exists max, b = Some max /\ zlen (i_writers i) + 1 <= max) ->
    wp (upd_inst p (fun i => set_i_writers (insert_at k w (i_writers i)) i);; mret DDS_RETCODE_OK) Q s').
  { intros s' i' b Hi' Es -> Hblk. apply wp_bind. eapply wp_upd_inst; [done|]. apply wp_ret. eapply (HQ1 _ _ b).
    - simpl. rewrite Es. simpl. rewrite insert_insert_eq, E, (insert_place _ _ _ _ Hk). done.
    - replace (zlen (l1 ++ w :: l2)) with (zlen (i_writers i) + 1) by (rewrite E, !zlen_app, zlen_cons; lia). done. }
  unfold i_nwriters, DNWRITERS, NWRITERS_INC in *. apply wp_if; intros Hn; zbool.
  { eapply (Hadd s i (i_wblock i)); [done|by rewrite put_same|by destruct i|lia]. }
  apply wp_if; intros Hn'; zbool.
  { apply wp_bind, quiet_alloc. intros ok s1 E1. destruct ok; [|by apply wp_ret, HQ2]. apply wp_bind. eapply wp_upd_inst; [by rewrite E1|].
    eapply Hadd; [simpl; apply lookup_insert_eq|simpl; by rewrite E1|done|]. intros _. eexists. split; [done|lia]. }
  destruct Hb as (max & Eb & Hle); [lia|]. apply wp_bind, (wp_the _ max); [done|]. apply wp_if; intros Hm; zbool.
  - apply wp_bind, quiet_alloc. intros ok s1 E1. destruct ok; [|by apply wp_ret, HQ2]. apply wp_bind. eapply wp_upd_inst; [by rewrite E1|].
    eapply Hadd; [simpl; apply lookup_insert_eq|simpl; by rewrite E1|done|]. intros _. eexists. split; [done|lia].
  - eapply (Hadd s i (Some max)); [done|by rewrite put_same|rewrite <- Eb; by destruct i|]. intros _. eexists. split; [done|lia].
Qed.

(** What may become of the writers [old] when [w] writes. *)
Definition joined (w : Z) (old ws : list Z) : Prop := ws = old \/ forall x, x ∈ ws <-> x ∈ old \/ x = w.

Lemma wp_new_writer s p i w (Q : bool -> HistoryCache_t -> Prop) : insts (st s) !! p = Some i -> writers_ok i -> 0 < w < 2 ^ 16 ->
  (forall s' ws b o, st s' = put p (with_writers ws b o i) (st s) -> writers_ok (with_writers ws b o i) -> joined w (i_writers i) ws -> Q false s') ->
  (forall s' ws b, st s' = put p (with_writers ws b (i_owner i) i) (st s) -> handles_ok ws ->
     (DNWRITERS < zlen ws -> exists max, b = Some max /\ zlen ws <= max) -> joined w (i_writers i) ws -> Q true s') ->
  wp (new_writer cf p w) Q s.
Proof.
  intros Hi Hok Hw Q1 Q2. pose proof Hok as [Hs Hb Ho]. unfold new_writer. apply wp_bind. eapply wp_inst; [done|].
  assert (Hsame : Q false s).
  { eapply (Q1 _ (i_writers i) (i_wblock i) (i_owner i)); rewrite <- ?with_writers_same; [by rewrite put_same|done|by left]. }
  assert (Hadd : forall k l1 l2, i_writers i = l1 ++ l2 -> zlen l1 = k -> Forall (fun x => x < w) l1 -> Forall (fun x => w < x) l2 ->
    wp (hc_add_writer_handle p w k) (fun _ s' => Q true s') s).
  { intros k l1 l2 E Hk H1 H2. eapply wp_add_writer; [done..| |].
    - intros e s' b E' Hblk. eapply Q2; [exact E'| |done|].
      + rewrite E in Hs. by apply writers_sorted_insert.
      + right. intros x. rewrite E, !elem_of_app, elem_of_cons. tauto.
    - intros e s' E'. eapply (Q2 _ (i_writers i) (i_wblock i)); rewrite <- ?with_writers_same; [by rewrite put_same|done|done|by left]. }
  destruct (i_writers i) as [|w0 [|w1 ws]] eqn:E.
  - apply wp_bind. eapply wp_upd_inst; [done|]. apply wp_ret.
    eapply (Q1 _ [w] (i_wblock i) (if hc_exclusive cf then w else 0)); [simpl; unfold put; by destruct i| |].
    + split; simpl; [by apply handles_one|done|]. destruct (hc_exclusive cf); [|done].
      unfold strongest. simpl. split; [left|]. intros x ->%list_elem_of_singleton. done.
    + right. intros x. rewrite elem_of_nil, list_elem_of_singleton. tauto.
  - apply wp_if; intros Hz; zbool; [by apply wp_ret|]. apply wp_bind. destruct (Z.ltb_spec w0 w).
    + eapply wp_mono; [apply (Hadd 1 [w0] []); try done; by repeat constructor|]. intros e s' H'. by apply wp_ret.
    + eapply wp_mono; [apply (Hadd 0 [] [w0]); try done; constructor; [lia|constructor]|]. intros e s' H'. by apply wp_ret.
  - rewrite <- E in *. destruct (lookup_place _ w Hs) as (k & Ek & Hp); [by rewrite E|].
    apply wp_bind, (wp_the _ k); [done|]. apply wp_if; intros Hk; zbool; [|by apply wp_ret].
    destruct Hp as [[? _]|(_ & l1 & l2 & El & Hl & H1 & H2)]; [lia|]. apply wp_bind.
    eapply wp_mono; [by apply (Hadd _ l1 l2)|]. intros e s' H'. by apply wp_ret.
Qed.

Lemma strongest_sub ws ws' o : strongest ws o -> o <> 0 -> ws' <> [] -> (forall x, x ∈ ws' -> x ∈ ws) -> o ∈ ws' -> strongest ws' o.
Proof. unfold strongest. intros H ? ? Hs Hin. rewrite decide_False by done. case_decide; [done|]. split; [done|]. intros w Hw. by apply H, Hs. Qed.

Lemma wp_update_owner s p i (Q : () -> HistoryCache_t -> Prop) : insts (st s) !! p = Some i ->
  Q tt (set_st (put p (set_i_owner (best_writer cf (i_writers i) 0 0) i) (st s)) s) -> wp (hc_update_owner cf p) Q s.
Proof. intros Hi HQ. unfold hc_update_owner. by eapply wp_upd_inst. Qed.

Lemma wp_drop_writer s p i w (Q : () -> HistoryCache_t -> Prop) : insts (st s) !! p = Some i -> writers_ok i -> 0 < w < 2 ^ 16 ->
  (forall s' ws b o, st s' = put p (with_writers ws b o i) (st s) -> writers_ok (with_writers ws b o i) ->
     (forall x, x ∈ ws <-> x ∈ i_writers i /\ x <> w) -> Q tt s') ->
  wp (drop_writer cf p w) Q s.
Proof.
  intros Hi Hok Hw HQ. pose proof Hok as [Hs Hb Ho]. unfold drop_writer. apply wp_bind. eapply wp_inst; [done|].
  assert (Hempty : (forall x, x ∈ i_writers i -> x = w) -> wp (upd_inst p (fun i => set_i_owner 0 (set_i_writers [] i))) Q s).
  { intros Hall. eapply wp_upd_inst; [done|]. eapply (HQ _ [] (i_wblock i) 0); [simpl; unfold put; by destruct i| |].
    - split; simpl; [apply handles_none|done|]. by destruct (hc_exclusive cf).
    - intros x. rewrite elem_of_nil. split; [done|]. intros [? Hne]. by apply Hne, Hall. }
  assert (Hgone : i_writers i <> [] -> (forall w0, i_writers i = [w0] -> w0 <> w) -> wp (gone ← hc_rem_writer_gone p w;
      whenc (gone && hc_exclusive cf && (w =? i_owner i)) (hc_update_owner cf p)) Q s).
  { intros Hne Hone. apply wp_bind. unfold hc_rem_writer_gone. apply wp_bind. eapply wp_inst; [done|].
    destruct (lookup_place _ w Hs Hne) as (k & Ek & Hp). apply wp_bind, (wp_the _ k); [done|]. destruct Hp as [[Hk (l1 & l2 & E & Hl)]|(Hk & l1 & l2 & E & Hl & H1 & H2)].
    - rewrite (proj2 (Z.ltb_ge _ _)) by done. apply wp_bind. unfold hc_rem_writer_handle. eapply wp_upd_inst; [done|]. apply wp_ret. simpl.
      rewrite E, (remove_place _ _ _ _ Hl). rewrite E in Hs. destruct (writers_sorted_delete _ _ _ Hs) as [Hs' Hnot].
      set (b := if _ =? _ then _ else _).
      assert (Hb' : DNWRITERS < zlen (l1 ++ l2) -> exists max, b = Some max /\ zlen (l1 ++ l2) <= max).
      { intros Hlt. unfold b. rewrite (proj2 (Z.eqb_neq _ _)) by lia. rewrite E, zlen_app, zlen_cons in Hb. rewrite zlen_app in *.
        destruct Hb as (max & -> & ?); [lia|]. exists max. split; [done|lia]. }
      assert (Hin : forall x, x ∈ l1 ++ l2 <-> x ∈ i_writers i /\ x <> w).
      { intros x. rewrite E, !elem_of_app, elem_of_cons. split; [|tauto]. intros Hx. split; [tauto|]. intros ->. apply Hnot, elem_of_app. done. }
      assert (Hne' : l1 ++ l2 <> []).
      { intros En. apply app_nil in En as [-> ->]. simpl in E. by destruct (Hone w). }
      destruct (hc_exclusive cf) eqn:Hex; simpl.
      + destruct (Z.eqb_spec w (i_owner i)) as [Eo|Eo].
        * eapply wp_update_owner; [simpl; apply lookup_insert_eq|]. eapply (HQ _ (l1 ++ l2) b (best_writer cf (l1 ++ l2) 0 0)).
          -- unfold put. simpl. rewrite insert_insert_eq. by destruct i.
          -- split; simpl; [done..|]. rewrite Hex. by apply best_writer_strongest.
          -- done.
        * apply wp_ret. eapply (HQ _ (l1 ++ l2) b (i_owner i)); [simpl; unfold put; by destruct i| |done].
          split; simpl; [done..|]. rewrite Hex. unfold strongest in *. rewrite decide_False in Ho by done. rewrite decide_False by done. destruct Ho as [Hi1 Hi2].
          split; [apply Hin; done|]. intros x Hx. by apply Hi2, Hin.
      + apply wp_ret. eapply (HQ _ (l1 ++ l2) b (i_owner i)); [simpl; unfold put; by destruct i| |done].
        split; simpl; [done..|]. by rewrite Hex.
    - rewrite (proj2 (Z.ltb_lt _ _)) by done. apply wp_ret. simpl. apply wp_ret.
      eapply (HQ _ (i_writers i) (i_wblock i) (i_owner i)); rewrite <- ?with_writers_same; [by rewrite put_same|done|].
      intros x. split; [|tauto]. intros Hx. split; [done|]. intros ->. rewrite E in Hx. apply elem_of_app in Hx as [Hx|Hx].
      + rewrite Forall_forall in H1. specialize (H1 _ Hx). lia.
      + rewrite Forall_forall in H2. specialize (H2 _ Hx). lia. }
  destruct (i_writers i) as [|w0 [|w1 ws]] eqn:E.
  - apply Hempty. by intros ? ?%elem_of_nil.
  - apply wp_if; intros Hz; zbool.
    + apply Hempty. by intros ? ->%list_elem_of_singleton.
    + apply Hgone; [done|]. intros ? [= <-]. done.
  - by apply Hgone.
Qed.

(** Whether [hc_add] goes on with a sample, given the writers and the owner
    that its instance now has. *)
Definition admits (c : Change_t) (ws : list Z) (o : Z) : bool :=
  if unregistered (c_kind c) && negb (bool_decide (ws = [])) && (c_kind c =? NOT_ALIVE_UNREGISTERED) then false
  else if hc_exclusive cf then (o =? 0) || (c_writer c =? o) else true.

(** Only the kind of a sample whose writer is not the last one changes. *)
Definition kind_after (c : Change_t) (ws : list Z) : Z :=
  if unregistered (c_kind c) && negb (bool_decide (ws = [])) && negb (c_kind c =? NOT_ALIVE_UNREGISTERED) then Z.land (c_kind c) 1 else c_kind c.

Lemma set_kind_same c : set_c_kind (c_kind c) c = c.
Proof. by destruct c. Qed.

Lemma wp_check_writers s p i cp c (Q : bool -> HistoryCache_t -> Prop) : insts (st s) !! p = Some i -> chgs (st s) !! cp = Some c ->
  writers_ok i -> 0 < c_writer c < 2 ^ 16 ->
  (forall s' ws b o, st s' = set_chgs (<[cp := set_c_kind (kind_after c ws) c]> (chgs (st s))) (put p (with_writers ws b o i) (st s)) ->
     writers_ok (with_writers ws b o i) ->
     (if unregistered (c_kind c) then forall x, x ∈ ws <-> x ∈ i_writers i /\ x <> c_writer c else joined (c_writer c) (i_writers i) ws) ->
     Q (admits c ws o) s') ->
  wp (check_writers cf p cp) Q s.
Proof.
  intros Hi Hc Hok Hw HQ. unfold check_writers. apply wp_bind. eapply wp_change; [done|].
  (* the test of the owner *)
  assert (Hlast : forall s1 ws b o, insts (st s1) !! p = Some (with_writers ws b o i) ->
    Q (if hc_exclusive cf then (o =? 0) || (c_writer c =? o) else true) s1 ->
    wp (if hc_exclusive cf then whenc false (hc_update_owner cf p);; i ← inst p; mret ((i_owner i =? 0) || (c_writer c =? i_owner i)) else mret true) Q s1).
  { intros s1 ws b o Hi1 HQ1. destruct (hc_exclusive cf); [|by apply wp_ret]. simpl. apply wp_bind, wp_ret. apply wp_bind. eapply wp_inst; [done|].
    by apply wp_ret. }
  assert (Hid : forall i1, set_chgs (<[cp := c]> (chgs (st s))) (put p i1 (st s)) = put p i1 (st s)) by (intros; rewrite insert_id by done; by destruct (st s)).
  apply wp_bind. unfold kind_after, admits in HQ. destruct (unregistered (c_kind c)) eqn:Hu; simpl in HQ.
  - apply wp_bind. eapply wp_drop_writer; [done..|]. intros s1 ws b o E1 Hok1 Hws. specialize (HQ). simpl.
    assert (Hi1 : insts (st s1) !! p = Some (with_writers ws b o i)) by (rewrite E1; apply put_lookup).
    apply wp_bind. eapply wp_inst; [done|]. unfold i_nwriters. simpl.
    assert (Ez : (zlen ws =? 0) = bool_decide (ws = [])) by (by destruct ws). rewrite Ez. case_bool_decide as Hnil; simpl.
    + apply wp_ret. simpl. eapply Hlast; [done|]. specialize (HQ s1 ws b o). rewrite bool_decide_true in HQ by done. simpl in HQ.
      rewrite set_kind_same, Hid in HQ. by apply HQ.
    + destruct (Z.eqb_spec (c_kind c) NOT_ALIVE_UNREGISTERED) as [Ek|Ek]; simpl in *.
      * apply wp_ret. simpl. apply wp_ret. specialize (HQ s1 ws b o). rewrite bool_decide_false in HQ by done. simpl in HQ.
        rewrite set_kind_same, Hid in HQ. by apply HQ.
      * apply wp_bind, wp_put_change, wp_ret. simpl. eapply Hlast; [simpl; rewrite E1; apply put_lookup|].
        match goal with |- Q _ ?s2 => specialize (HQ s2 ws b o) end. rewrite bool_decide_false in HQ by done. simpl in HQ.
        apply HQ; [by rewrite E1|done..].
  - apply wp_bind. eapply wp_new_writer; [done..| |].
    + intros s1 ws b o E1 Hok1 Hws. apply wp_ret. simpl. eapply Hlast; [rewrite E1; apply put_lookup|].
      eapply (HQ s1 ws b o); [|done..]. rewrite set_kind_same, Hid. done.
    + intros s1 ws b E1 Hs1 Hb1 Hws. apply wp_ret. simpl. destruct (hc_exclusive cf) eqn:Hex; simpl.
      * apply wp_bind. eapply wp_update_owner; [rewrite E1; apply put_lookup|]. apply wp_bind. eapply wp_inst; [simpl; apply lookup_insert_eq|].
        apply wp_ret. simpl. eapply (HQ (set_st _ s1) ws b (best_writer cf ws 0 0)); [|split; simpl; [done..|]; rewrite Hex; by apply best_writer_strongest|done].
        rewrite set_kind_same, Hid. simpl. rewrite E1. unfold put. simpl. rewrite insert_insert_eq. by destruct i.
      * apply wp_ret. eapply (HQ s1 ws b (i_owner i)); [|split; simpl; [done..|]; rewrite Hex; pose proof (wo_owner _ Hok) as Ho; by rewrite Hex in Ho|done].
        rewrite set_kind_same, Hid. done.
Qed.

End Writers.
