(* ===== verification/CacheGrow.v ===== *)
(** History caches: a sample is added to the lists of the cache and of its
    instance. *)

From stdpp Require Import gmap sorting.
From S2P Require Import Prelude Seqnr Cache CacheAdd CacheProps CacheInv.
From stdpp Require Import list.

#[local] Open Scope Z_scope.

(** ** One list *)

Definition list_at (lp : LIST) (s : Store) : option CCLIST :=
  match lp with HIST => Some (hc_changes s) | INST ip => i_list <$> insts s !! ip end.
Definition with_list (lp : LIST) (l : CCLIST) (s : Store) : Store :=
  match lp with
  | HIST => set_hc_changes l s
  | INST ip => match insts s !! ip with Some i => set_insts (<[ip := set_i_list l i]> (insts s)) s | None => s end
  end.

Lemma wp_get_list lp l Q s : list_at lp (st s) = Some l -> Q l s -> wp (get_list lp) Q s.
Proof.
  destruct lp as [|ip]; simpl; [by intros [= <-]|]. intros E HQ. destruct (insts (st s) !! ip) as [i|] eqn:Hi; [|done]. simpl in E.
  injection E as <-. by eapply wp_get_ilist.
Qed.
Lemma wp_put_list lp l l' Q s : list_at lp (st s) = Some l' -> Q tt (set_st (with_list lp l (st s)) s) -> wp (put_list lp l) Q s.
Proof.
  destruct lp as [|ip]; simpl; [done|]. intros E HQ. destruct (insts (st s) !! ip) as [i|] eqn:Hi; [|done]. by eapply wp_put_ilist.
Qed.

Definition add_ref (rp cp : nat) (c : Change_t) (s : Store) : Store :=
  set_chgs (<[cp := set_c_nrefs (c_nrefs c + 1) c]> (chgs s)) (set_refs (<[rp := mkRef None cp]> (refs s)) (set_next_addr (S rp) s)).

Lemma list_at_add_ref lp rp cp c s : list_at lp (add_ref rp cp c s) = list_at lp s.
Proof. by destruct lp. Qed.

Lemma wp_earlier cp c rp r c' (Q : bool -> HistoryCache_t -> Prop) s : chgs (st s) !! cp = Some c -> refs (st s) !! rp = Some r ->
  chgs (st s) !! r_change r = Some c' -> (forall b, Q b s) -> wp (earlier cp rp) Q s.
Proof. intros Hc Hr Hc' HQ. unfold earlier. apply wp_bind. eapply wp_change; [done|]. apply wp_bind. eapply wp_ref_change; [done..|]. by apply wp_ret. Qed.

Lemma wp_ccref_add lp cp ordered s l c (Q : option nat -> HistoryCache_t -> Prop) : list_at lp (st s) = Some l -> good_list l ->
  zlen (l_refs l) + 1 < 2 ^ 16 -> chgs (st s) !! cp = Some c -> 0 <= c_nrefs c < MAX_CHANGE_REFS ->
  (forall q, q ∈ l_refs l -> q <> next_addr (st s) /\ exists r c', refs (st s) !! q = Some r /\ chgs (st s) !! r_change r = Some c') ->
  (forall s', st s' = st s -> ~ plenty s -> Q None s') ->
  (forall s' l', let rp := next_addr (st s) in
     st s' = with_list lp (mkList l' (l_time l) (l_nchanges l + 1)) (add_ref rp cp c (st s)) ->
     l' = l_refs l ++ [rp] \/ ordered = true /\ l' = rp :: l_refs l -> Q (Some rp) s') ->
  wp (ccref_add lp cp ordered) Q s.
Proof.
  intros Hl Hg Hroom Hc Hn Hrefs HQ1 HQ2. unfold ccref_add. apply wp_bind, wp_alloc. intros ok s1 E1 Hp.
  destruct ok; simpl; [|apply wp_ret, HQ1; auto].
  apply wp_bind. unfold new_addr. apply wp_bind, wp_getc. apply wp_bind, wp_modst, wp_ret. rewrite E1. set (rp := next_addr (st s)) in *.
  apply wp_bind, wp_put_ref. apply wp_bind. eapply wp_change_ref; [done|done|].
  set (s2 := set_st _ _). assert (E2 : st s2 = add_ref rp cp c (st s)) by done. clearbody s2.
  assert (Hl2 : list_at lp (st s2) = Some l) by (by rewrite E2, list_at_add_ref).
  apply wp_bind. eapply wp_get_list; [done|]. destruct Hg as (Eg & Hlt & Hnd).
  assert (En : ⟦l_nchanges l + 1⟧16 = l_nchanges l + 1).
  { apply wrap_small. unfold in_u. pose proof (zlen_nonneg (l_refs l)). lia. }
  rewrite En. cbv zeta. apply wp_if; intros Hz; zbool.
  { assert (l_refs l = []) as Enil by (destruct (l_refs l); [done|rewrite zlen_cons in *; pose proof (zlen_nonneg l0); lia]).
    apply wp_bind. eapply wp_put_list; [done|]. apply wp_ret. eapply HQ2; [simpl; by rewrite E2|]. left. by rewrite Enil. }
  assert (Hc2 : chgs (st s2) !! cp = Some (set_c_nrefs (c_nrefs c + 1) c)) by (rewrite E2; simpl; apply lookup_insert_eq).
  assert (Hrefs2 : forall q, q ∈ l_refs l -> exists r c', refs (st s2) !! q = Some r /\ chgs (st s2) !! r_change r = Some c').
  { intros q Hq. destruct (Hrefs q Hq) as (Hne & r & c' & Hr & Hc'). rewrite E2. simpl. exists r.
    destruct (decide (r_change r = cp)) as [->|]; [exists (set_c_nrefs (c_nrefs c + 1) c)|exists c']; rewrite lookup_insert_ne by done; (split; [done|]).
    - apply lookup_insert_eq.
    - by rewrite lookup_insert_ne. }
  assert (Hlast : exists q, last (l_refs l) = Some q /\ q ∈ l_refs l).
  { destruct (last (l_refs l)) as [q|] eqn:E; [exists q; split; [done|by apply last_Some_elem_of]|]. apply last_None in E.
    rewrite E in Eg. unfold zlen in Eg. simpl in Eg. lia. }
  apply wp_bind. assert (wp (if negb ordered then mret true else q ← last_ref lp; b ← earlier cp q; mret (negb b))
    (fun b s' => s' = s2 /\ (b = false -> ordered = true)) s2) as He.
  { destruct ordered; [|by apply wp_ret]. simpl. destruct Hlast as (q & Eq & Hq). destruct (Hrefs2 _ Hq) as (r & c' & Hr & Hc').
    apply wp_bind. unfold last_ref. apply wp_bind. eapply wp_get_list; [done|]. rewrite (proj2 (Z.eqb_neq _ _)) by done.
    eapply wp_the; [done|]. apply wp_bind. eapply wp_earlier; [done..|]. intros b. by apply wp_ret. }
  eapply wp_mono; [exact He|]. intros at_end ? [-> Ho]. clear He. apply wp_if; intros He; subst at_end.
  - apply wp_bind. eapply wp_put_list; [done|]. apply wp_ret. eapply HQ2; [simpl; by rewrite E2|by left].
  - apply wp_bind. assert (wp (order_prev (head (l_refs l)) None (earlier cp)) (fun o s' => s' = s2 /\ o = None) s2) as Ho'.
    { destruct (l_refs l) as [|q rest] eqn:E; simpl; [by apply wp_ret|]. destruct (Hrefs2 q) as (r & c' & Hr & Hc'); [left|].
      apply wp_bind. eapply wp_earlier; [done..|]. intros b. by destruct b. }
    eapply wp_mono; [exact Ho'|]. intros o ? [-> ->]. apply wp_bind. eapply wp_put_list; [done|]. apply wp_ret.
    eapply HQ2; [simpl; by rewrite E2|]. right. auto.
Qed.

(** ** Both lists *)

Section Grow.
Context (multi ordered calm : bool).
#[local] Abbreviation repr := (repr multi ordered calm).

(** The store with one more sample. *)
Record grown (s s' : Store) (L L' : list Sample) (x : Sample) : Prop := {
  gr_hist : l_refs (hc_changes s') = x_rp <$> L' /\ l_nchanges (hc_changes s') = zlen L';
  gr_order : L' = L ++ [x] \/ ordered = true /\ L' = x :: L;
  gr_ndata : hc_ndata s' = hc_ndata s + (if x_alive x then 1 else 0);
  gr_refs : refs s' = if multi then <[x_irp x := mkRef (Some (x_rp x)) (x_cp x)]> (<[x_rp x := mkRef (Some (x_irp x)) (x_cp x)]> (refs s))
    else <[x_rp x := mkRef None (x_cp x)]> (refs s);
  gr_fresh : (next_addr s <= x_rp x < next_addr s')%nat /\ (multi = true -> (next_addr s <= x_irp x < next_addr s' /\ x_irp x <> x_rp x)%nat)
    /\ (next_addr s <= next_addr s')%nat;
  gr_cp : (x_cp x ∉ x_cp <$> L) /\ (x_cp x < next_addr s)%nat;
  gr_chgs : exists c, chgs s' = <[x_cp x := c]> (chgs s) /\ change_ok multi calm s' x c;
  gr_insts : if multi then exists i l, insts s !! x_ip x = Some i
      /\ insts s' = <[x_ip x := set_i_ndata (i_ndata i + (if x_alive x then 1 else 0)) (set_i_list l i)]> (insts s)
      /\ (l_refs l = l_refs (i_list i) ++ [x_irp x] \/ ordered = true /\ l_refs l = x_irp x :: l_refs (i_list i)) /\ l_nchanges l = l_nchanges (i_list i) + 1
    else insts s' = insts s;
  gr_set : hc_set s' = hc_set s /\ hc_ninstances s' = hc_ninstances s
}.

Lemma repr_addrs_old s L a : repr s L -> a ∈ addrs multi L -> (a < next_addr s)%nat.
Proof.
  intros H Ha. destruct (rp_fresh _ _ _ _ _ H) as (F & _). apply F, elem_of_dom. unfold addrs in Ha. apply elem_of_app in Ha as [Ha|Ha].
  - apply list_elem_of_fmap in Ha as (y & -> & Hy). destruct (repr_sample _ _ _ _ _ _ H Hy) as [E _ _]. by eexists.
  - destruct multi eqn:Hm; [|by apply elem_of_nil in Ha]. apply list_elem_of_fmap in Ha as (y & -> & Hy). rewrite <- Hm in H.
    destruct (repr_sample _ _ _ _ _ _ H Hy) as [_ E _]. rewrite Hm in E. by eexists.
Qed.

Lemma grown_perm s s' L L' x : grown s s' L L' x -> L' ≡ₚ x :: L.
Proof. intros G. destruct (gr_order _ _ _ _ _ G) as [->|[_ ->]]; [|done]. by rewrite Permutation_app_comm. Qed.

Lemma repr_grown s s' L L' x : repr s L -> grown s s' L L' x -> zlen L + 1 < 2 ^ 16 -> repr s' L'.
Proof.
  intros H G Hroom. pose proof (grown_perm _ _ _ _ _ G) as HP. destruct (gr_fresh _ _ _ _ _ G) as (Fr & Fi & Fn).
  destruct (gr_chgs _ _ _ _ _ G) as (c & Ec & Hok). destruct (gr_cp _ _ _ _ _ G) as [Hcp Hlt].
  assert (Hold : forall y, y ∈ L -> x_cp y <> x_cp x) by (intros y Hy E; apply Hcp; rewrite <- E; by apply list_elem_of_fmap_2).
  assert (Hrefs : forall a, (a < next_addr s)%nat -> refs s' !! a = refs s !! a).
  { intros a Ha. rewrite (gr_refs _ _ _ _ _ G). destruct multi; [|by rewrite lookup_insert_ne by lia].
    destruct Fi as [? ?]; [done|]. by rewrite !lookup_insert_ne by lia. }
  split.
  - apply G.
  - apply G.
  - unfold zlen. rewrite HP. simpl. unfold zlen in Hroom. lia.
  - rewrite (gr_ndata _ _ _ _ _ G), (rp_ndata _ _ _ _ _ H). unfold nalive, zlen. rewrite HP. change (filter _ (x :: L)) with (filter (fun x => x_alive x = true) (x :: L)).
    pose proof (nalive_cons x L) as E. unfold nalive, zlen in E. lia.
  - assert (addrs multi L' ≡ₚ addrs multi [x] ++ addrs multi L) as ->.
    { destruct (gr_order _ _ _ _ _ G) as [->|[_ ->]].
      - rewrite (addrs_perm_cons _ L x []). by rewrite app_nil_r.
      - apply (addrs_perm_cons _ [] x L). }
    assert (Ha : forall a, a ∈ addrs multi L -> (a < next_addr s)%nat) by (intros; by eapply repr_addrs_old).
    apply NoDup_app. split; [|split; [|apply H]].
    + unfold addrs. destruct multi; simpl; [|repeat constructor; by intros ?%elem_of_nil]. destruct Fi as [? ?]; [done|].
      apply NoDup_cons. split; [|apply NoDup_singleton]. rewrite list_elem_of_singleton. congruence.
    + intros a Hin Hin'. specialize (Ha _ Hin'). unfold addrs in Hin. destruct multi; simpl in Hin; apply elem_of_cons in Hin as [->|Hin]; try lia;
        [|by apply elem_of_nil in Hin]. destruct Fi as [? ?]; [done|]. apply list_elem_of_singleton in Hin as ->. lia.
  - rewrite HP. simpl. constructor; [done|]. apply H.
  - apply Forall_forall. intros y Hy. rewrite HP in Hy. apply elem_of_cons in Hy as [->|Hy].
    + split.
      * rewrite (gr_refs _ _ _ _ _ G). destruct multi; [|apply lookup_insert_eq]. destruct Fi as [? ?]; [done|].
        rewrite lookup_insert_ne by lia. apply lookup_insert_eq.
      * rewrite (gr_refs _ _ _ _ _ G). destruct multi; [|done]. apply lookup_insert_eq.
      * exists c. rewrite Ec, lookup_insert_eq. done.
    + destruct (repr_sample _ _ _ _ _ _ H Hy) as [Hrp Hirp (d & Hd & [K1 K2 K3 K4 K5])]. split.
      * rewrite Hrefs; [done|]. eapply repr_addrs_old; [done|]. by apply addrs_in_rp.
      * destruct multi eqn:Hm; [|done]. rewrite Hrefs; [done|]. eapply repr_addrs_old; [by rewrite Hm|]. rewrite Hm. by apply addrs_in_irp.
      * exists d. rewrite Ec, lookup_insert_ne by (apply not_eq_sym; by apply Hold). split; [done|]. split; [done..|].
        pose proof (gr_insts _ _ _ _ _ G) as Gi. destruct multi; [|done]. destruct Gi as (i & l & Hi & -> & _). destruct K5 as (j & Hj & Ej).
        destruct (decide (x_ip y = x_ip x)) as [E|]; [|exists j; by rewrite lookup_insert_ne by congruence].
        rewrite E in Hj |- *. rewrite Hi in Hj. injection Hj as <-. eexists. rewrite lookup_insert_eq. split; [done|]. simpl. done.
  - intros ip i' Hi'. pose proof (gr_insts _ _ _ _ _ G) as Gi. destruct multi eqn:Hm; [|done]. destruct Gi as (i & l & Hi & Ei & El & En).
    rewrite Ei in Hi'. rewrite <- Hm in H. destruct (decide (ip = x_ip x)) as [->|Hne].
    + rewrite lookup_insert_eq in Hi'. injection Hi' as <-. destruct (repr_inst _ _ _ _ _ _ _ H Hm Hi) as [Hr Hn Hnd]. split; simpl.
      * pose proof (gr_order _ _ _ _ _ G) as Go. unfold follows in *. destruct ordered.
        -- assert (x_irp <$> of_inst (x_ip x) L' ≡ₚ x_irp x :: (x_irp <$> of_inst (x_ip x) L)) as ->.
           { unfold of_inst. rewrite HP, filter_cons_True by done. done. }
           rewrite <- Hr. destruct El as [->|[_ ->]]; [by rewrite Permutation_app_comm|done].
        -- destruct El as [->|[? _]]; [|done]. destruct Go as [->|[? _]]; [|done].
           rewrite of_inst_app, fmap_app, <- Hr. f_equal. unfold of_inst. by rewrite filter_cons_True by done.
      * rewrite En, Hn. destruct El as [->|[_ ->]]; rewrite ?zlen_app, ?zlen_cons, ?zlen_nil; lia.
      * rewrite Hnd. unfold nalive, of_inst, zlen. rewrite HP, (filter_cons_True (fun y => x_ip y = x_ip x)) by done.
        pose proof (nalive_cons x (of_inst (x_ip x) L)) as E. unfold nalive, of_inst, zlen in E. lia.
    + rewrite lookup_insert_ne in Hi' by done. destruct (repr_inst _ _ _ _ _ _ _ H Hm Hi') as [Hr Hn Hnd].
      assert (of_inst ip L' = of_inst ip L) as E.
      { destruct (gr_order _ _ _ _ _ G) as [->|[_ ->]]; rewrite ?of_inst_app, !of_inst_cons, decide_False by congruence; [apply app_nil_r|done]. }
      split; rewrite ?E; done.
  - destruct (rp_fresh _ _ _ _ _ H) as (F1 & F2 & F3). split_and!; intros a Ha.
    + rewrite (gr_refs _ _ _ _ _ G) in Ha. destruct multi; repeat rewrite dom_insert in Ha; rewrite ?elem_of_union, ?elem_of_singleton in Ha.
      * destruct Fi as [? ?]; [done|]. destruct Ha as [->|[->|Ha%F1]]; lia.
      * destruct Ha as [->|Ha%F1]; lia.
    + rewrite Ec, dom_insert, elem_of_union, elem_of_singleton in Ha. destruct Ha as [->|Ha%F2]; lia.
    + pose proof (gr_insts _ _ _ _ _ G) as Gi. assert (a ∈ dom (insts s)) as Ha'%F3; [|lia]. destruct multi; [|by rewrite Gi in Ha].
      destruct Gi as (i & l & Hi & Ei & _). rewrite Ei, dom_insert_lookup in Ha by (by eexists). done.
Qed.

End Grow.
