(* ===== verification/CacheDepth.v ===== *)
(** History caches: [hc_add] in the cache of a reader with instances - room is
    made in the instance of the sample, and the sample joins both lists. *)

From stdpp Require Import gmap sorting.
From S2P Require Import Prelude Seqnr Cache CacheAdd CacheGet CacheProps CacheInv CacheWriters CacheGrow.
From stdpp Require Import list.

#[local] Open Scope Z_scope.

(** ** The last samples of an instance *)

Section Evict.
Context (ip : nat).

(** The samples without the first [k] of an instance. *)
Fixpoint evict (k : nat) (L : list Sample) : list Sample :=
  match L, k with
  | [], _ => []
  | _, O => L
  | x :: L', S k' => if decide (x_ip x = ip) then evict k' L' else x :: evict k L'
  end.

Lemma evict_0 L : evict 0 L = L.
Proof. by destruct L. Qed.

Lemma evict_of_inst k L : of_inst ip (evict k L) = drop k (of_inst ip L).
Proof.
  revert k. induction L as [|x L IH]; intros k; [by destruct k|]. destruct k as [|k]; [done|].
  simpl evict. rewrite of_inst_cons. case_decide as E; simpl; [by rewrite IH|]. rewrite of_inst_cons, decide_False by done. simpl. by rewrite IH.
Qed.

Lemma evict_others k L : others ip (evict k L) = others ip L.
Proof.
  revert k. induction L as [|x L IH]; intros k; [done|]. destruct k as [|k]; [done|]. simpl. unfold others in *. case_decide as E.
  - rewrite filter_cons_False by (intros []; done). by rewrite IH.
  - rewrite !filter_cons_True by done. by rewrite IH.
Qed.

Lemma evict_sublist k L : sublist (evict k L) L.
Proof.
  revert k. induction L as [|x L IH]; intros k; [constructor|]. destruct k as [|k]; [done|]. simpl. case_decide; by constructor.
Qed.

(** The first sample of an instance goes. *)
Lemma evict_first L x rest : of_inst ip L = x :: rest -> exists L1 L2, L = L1 ++ x :: L2 /\ of_inst ip (L1 ++ L2) = rest /\
  x_ip x = ip /\ (forall k, evict (S k) L = evict k (L1 ++ L2)).
Proof.
  induction L as [|y L IH]; [done|]. rewrite of_inst_cons. case_decide as E; simpl.
  - intros [= -> <-]. exists [], L. split_and!; try done. intros k. simpl. by rewrite decide_True.
  - intros (L1 & L2 & -> & E2 & E3 & E4)%IH. exists (y :: L1), L2. split_and!; try done.
    + simpl. rewrite of_inst_cons, decide_False by done. done.
    + intros k. simpl. rewrite decide_False by done. destruct k as [|k]; simpl.
      * by rewrite (E4 0%nat), evict_0.
      * rewrite decide_False by done. by rewrite <- E4.
Qed.

End Evict.

(** ** Both references *)

Section Link.
Context (cf : Conf).
#[local] Abbreviation multi := (hc_multi_inst cf).
#[local] Abbreviation repr := (repr (hc_multi_inst cf) (hc_src_time cf) (hc_must_ack cf)).

Lemma repr_time s L l t n : repr s L -> l_refs l = x_rp <$> L -> (next_addr s <= n)%nat ->
  repr (set_hc_changes (mkList (l_refs l) t (zlen L)) (set_next_addr n s)) L.
Proof.
  intros H El Hn. destruct H as [H1 H2 H3 H4 H5 H6 H7 H8 (F1 & F2 & F3)]. split; simpl; try done.
  - eapply Forall_impl; [exact H7|]. intros x [A B (c & Hc & [])]. split; [done..|]. exists c. done.
  - split_and!; intros a Ha; [apply F1 in Ha|apply F2 in Ha|apply F3 in Ha]; lia.
Qed.

(** Two references come, and that of the caller goes. *)
Lemma linked_change c : 0 <= c_nrefs c -> c_nrefs c + 2 <= 2047 ->
  (fun c0 => set_c_nrefs (wrap 11 (c_nrefs c0 - 1)) (set_c_cached true c0)) (set_c_nrefs (c_nrefs c + 1 + 1) (set_c_nrefs (c_nrefs c + 1) c))
  = set_c_cached true (set_c_nrefs (c_nrefs c + 1) c).
Proof. intros. simpl. rewrite wrap_small by (unfold in_u; lia). unfold set_c_nrefs. simpl. by rewrite Z.add_simpl_r. Qed.

(** The references of a list of the cache are old, and lead to samples. *)
Lemma hist_refs s L q : repr s L -> q ∈ l_refs (hc_changes s) ->
  q <> next_addr s /\ exists r c, refs s !! q = Some r /\ chgs s !! r_change r = Some c.
Proof.
  intros H Hq. rewrite (rp_hist _ _ _ _ _ H) in Hq. apply list_elem_of_fmap in Hq as (y & -> & Hy).
  pose proof (repr_addrs_old _ _ _ _ _ (x_rp y) H (addrs_in_rp _ _ _ Hy)). split; [lia|].
  destruct (repr_sample _ _ _ _ _ _ H Hy) as [Hr _ (c & Hc & _)]. by eexists _, c.
Qed.
Lemma inst_refs s L p i q : repr s L -> multi = true -> insts s !! p = Some i -> q ∈ l_refs (i_list i) ->
  (q < next_addr s)%nat /\ exists y, y ∈ L /\ refs s !! q = Some (mkRef (Some (x_rp y)) (x_cp y)) /\ is_Some (chgs s !! x_cp y).
Proof.
  intros H Hm Hi Hq. destruct (repr_inst_of _ _ _ _ _ _ _ _ H Hm Hi Hq) as (y & Hy & _ & <-).
  split; [apply (repr_addrs_old _ _ _ _ _ _ H); by apply addrs_in_irp|].
  destruct (repr_sample _ _ _ _ _ _ H Hy) as [_ Hr (c & Hc & _)]. rewrite Hm in Hr. exists y. split_and!; [done..|by eexists].
Qed.

(** The store when the reference of the cache was added. *)
Definition half (s : Store) (cp : nat) (c : Change_t) (l1 : list nat) : Store :=
  set_hc_changes (mkList l1 (l_time (hc_changes s)) (l_nchanges (hc_changes s) + 1)) (add_ref (next_addr s) cp c s).

Definition one_more (a : nat) (l l1 : list nat) : Prop := l1 = l ++ [a] \/ hc_src_time cf = true /\ l1 = a :: l.

Lemma one_more_perm a l l1 : one_more a l l1 -> l1 ≡ₚ a :: l.
Proof. intros [->|[_ ->]]; [by rewrite Permutation_app_comm|done]. Qed.
Lemma one_more_undo a l l1 : one_more a l l1 -> a ∉ l -> filter (.≠ a) l1 = l.
Proof.
  intros [->|[_ ->]] Ha.
  - rewrite filter_app, filter_ne_id by done. rewrite filter_cons_False by (intros []; done). apply app_nil_r.
  - rewrite filter_cons_False by (intros []; done). by apply filter_ne_id.
Qed.

(** There was no memory for the second reference. *)
Lemma wp_undo s (s0 : Store) L cp c l1 (Q : bool -> HistoryCache_t -> Prop) : repr s0 L -> zlen L + 1 < 2 ^ 16 ->
  chgs s0 !! cp = Some c -> 0 < c_nrefs c < MAX_CHANGE_REFS -> st s = half s0 cp c l1 -> one_more (next_addr s0) (l_refs (hc_changes s0)) l1 ->
  (forall s', repr (st s') L -> chgs (st s') = chgs s0 -> Q false s') ->
  wp (ccref_remove_ref HIST (next_addr s0);; ccref_delete (next_addr s0);; mret false) Q s.
Proof.
  intros H Hroom Hc Hn E Hl HQ. pose proof (repr_good_hist _ _ _ _ _ H) as (Gn & _ & Gd). pose proof (rp_n _ _ _ _ _ H) as En.
  assert (Hfresh : next_addr s0 ∉ l_refs (hc_changes s0)) by (intros Hin; by destruct (hist_refs _ _ _ H Hin)).
  pose proof (one_more_perm _ _ _ Hl) as HP.
  apply wp_bind. eapply wp_remove_hist; rewrite ?E; simpl.
  - unfold good_list. simpl. rewrite En in *. unfold zlen. rewrite HP. simpl. unfold zlen in *. split_and!; [lia..|]. by apply NoDup_cons.
  - rewrite HP. left.
  - apply lookup_insert_eq.
  - apply lookup_insert_eq.
  - intros t. rewrite (one_more_undo _ _ _ Hl Hfresh). apply wp_bind. unfold MAX_CHANGE_REFS in *.
    eapply wp_delete; simpl; [apply lookup_insert_eq|apply lookup_insert_eq|simpl; unfold MAX_CHANGE_REFS; lia|].
    unfold drop_refs. simpl. rewrite (proj2 (Z.eqb_neq _ _)) by lia. rewrite insert_insert_eq.
    assert (set_c_nrefs (c_nrefs c + 1 - 1) (set_c_nrefs (c_nrefs c + 1) c) = c) as -> by (unfold set_c_nrefs; simpl; rewrite Z.add_simpl_r; by destruct c).
    rewrite (insert_id (chgs s0)) by done. assert (refs s0 !! next_addr s0 = None) as Hrp.
    { destruct (refs s0 !! next_addr s0) eqn:E'; [|done]. destruct (rp_fresh _ _ _ _ _ H) as (F1 & _).
      assert (next_addr s0 ∈ dom (refs s0)) as Hin%F1 by (apply elem_of_dom; by eexists). lia. }
    rewrite delete_insert_id by done. apply wp_ret, HQ; [|done]. simpl.
    replace (l_nchanges (hc_changes s0) + 1 - 1) with (zlen L) by lia.
    eapply (repr_time s0 L (hc_changes s0) t (S (next_addr s0))) in H; [|by apply H|lia]. exact H.
Qed.

(** Both references were added. *)
Lemma grown_both s (s0 : Store) L cp c p i l1 l2 t2 : multi = true -> repr s0 L -> chgs s0 !! cp = Some c -> cp ∉ x_cp <$> L ->
  0 <= c_taken c < c_nrefs c -> c_nrefs c + 2 <= MAX_CHANGE_REFS -> c_wack c = 0 ->
  insts s0 !! p = Some i -> i_handle i = c_handle c ->
  let rp := next_addr s0 in let irp := S rp in let a := c_kind c =? ALIVE in
  one_more rp (l_refs (hc_changes s0)) l1 -> one_more irp (l_refs (i_list i)) l2 ->
  hc_changes s = mkList l1 (l_time (hc_changes s0)) (l_nchanges (hc_changes s0) + 1) ->
  hc_ndata s = hc_ndata s0 + (if a then 1 else 0) ->
  refs s = <[irp := mkRef (Some rp) cp]> (<[rp := mkRef (Some irp) cp]> (refs s0)) ->
  chgs s = <[cp := set_c_cached true (set_c_nrefs (c_nrefs c + 1) c)]> (chgs s0) ->
  insts s = <[p := set_i_ndata (i_ndata i + (if a then 1 else 0)) (set_i_list (mkList l2 t2 (l_nchanges (i_list i) + 1)) i)]> (insts s0) ->
  hc_set s = hc_set s0 -> hc_ninstances s = hc_ninstances s0 -> next_addr s = S irp ->
  exists L' x, grown multi (hc_src_time cf) (hc_must_ack cf) s0 s L L' x /\ x_cp x = cp /\ x_ip x = p /\ x_alive x = a.
Proof.
  intros Hm H Hc Hcp Ht Hn Hw Hi Hh rp irp a Hl1 Hl2 E1 E2 E3 E4 E5 E6 E7 E8. set (x := mkSample rp irp cp p a).
  assert (Hlt : (cp < rp)%nat) by (destruct (rp_fresh _ _ _ _ _ H) as (_ & F & _); apply F, elem_of_dom; by eexists).
  rewrite (rp_hist _ _ _ _ _ H) in Hl1.
  assert (exists L', (L' = L ++ [x] \/ hc_src_time cf = true /\ L' = x :: L) /\ l1 = x_rp <$> L') as (L' & Ho & El).
  { destruct Hl1 as [->|[Ho ->]]; [exists (L ++ [x])|exists (x :: L)]; (split; [auto|]); [by rewrite fmap_app|done]. }
  exists L', x. split; [|done]. split.
  - rewrite E1. simpl. split; [done|]. rewrite (rp_n _ _ _ _ _ H). destruct Ho as [->|[_ ->]]; rewrite ?zlen_app, ?zlen_cons, ?zlen_nil; lia.
  - done.
  - done.
  - by rewrite Hm.
  - rewrite E8. unfold irp, rp in *. simpl. split_and!; lia.
  - done.
  - eexists. split; [exact E4|]. split; simpl; [done| |lia|by destruct (hc_must_ack cf)|].
    + unfold own_refs. rewrite Hm. lia.
    + rewrite Hm, E5. eexists. rewrite lookup_insert_eq. done.
  - rewrite Hm. eexists i, _. split_and!; [done|exact E5| |done]. exact Hl2.
  - done.
Qed.

Lemma wp_count s p i (a : bool) (Q : () -> HistoryCache_t -> Prop) : insts (st s) !! p = Some i -> 0 <= i_ndata i < 2 ^ 16 ->
  0 <= hc_ndata (st s) < 2 ^ 16 ->
  (forall s', st s' = set_hc_ndata (hc_ndata (st s) + (if a then 1 else 0))
     (set_insts (<[p := set_i_ndata (i_ndata i + (if a then 1 else 0)) i]> (insts (st s))) (st s)) -> Q tt s') ->
  wp (whenc a (add_i_ndata p;; add_ndata)) Q s.
Proof.
  intros Hi H1 H2 HQ. apply wp_whenc; intros ->.
  - apply wp_bind. unfold add_i_ndata. eapply wp_upd_inst; [done|]. unfold add_ndata. apply wp_modst, HQ. simpl. by rewrite !wrap_succ32 by lia.
  - apply HQ. rewrite !Z.add_0_r. replace (set_i_ndata (i_ndata i) i) with i by (by destruct i). rewrite insert_id by done. by destruct (st s).
Qed.

(** The counters and the sample, when both references are there. *)
Lemma wp_link_end s3 (s : Store) L cp c p i l1 l2 t2 (Q : bool -> HistoryCache_t -> Prop) : multi = true -> repr s L -> chgs s !! cp = Some c -> cp ∉ x_cp <$> L ->
  0 <= c_taken c < c_nrefs c -> c_nrefs c + 2 <= 2047 -> c_wack c = 0 -> insts s !! p = Some i -> i_handle i = c_handle c ->
  let rp := next_addr s in let c2 := set_c_nrefs (c_nrefs c + 1 + 1) (set_c_nrefs (c_nrefs c + 1) c) in
  one_more rp (l_refs (hc_changes s)) l1 -> one_more (S rp) (l_refs (i_list i)) l2 ->
  hc_changes (st s3) = mkList l1 (l_time (hc_changes s)) (l_nchanges (hc_changes s) + 1) -> hc_ndata (st s3) = hc_ndata s ->
  refs (st s3) = <[S rp := mkRef (Some rp) cp]> (<[rp := mkRef (Some (S rp)) cp]> (refs s)) -> chgs (st s3) = <[cp := c2]> (chgs s) ->
  insts (st s3) = <[p := set_i_list (mkList l2 t2 (l_nchanges (i_list i) + 1)) i]> (insts s) ->
  hc_set (st s3) = hc_set s -> hc_ninstances (st s3) = hc_ninstances s -> next_addr (st s3) = S (S rp) ->
  (forall s' L' x, grown multi (hc_src_time cf) (hc_must_ack cf) s (st s') L L' x -> x_cp x = cp -> x_ip x = p ->
     x_alive x = (c_kind c =? ALIVE) -> chgs (st s') !! cp = Some (set_c_cached true (set_c_nrefs (c_nrefs c + 1) c)) -> Q true s') ->
  wp (whenc (c_kind c =? ALIVE) (add_i_ndata p;; add_ndata);; upd_change cp (fun c => set_c_nrefs (wrap 11 (c_nrefs c - 1)) (set_c_cached true c));; mret true) Q s3.
Proof.
  intros Hm H Hc Hcp Ht Hn Hw Hi Hh rp c2 Hl1 Hl2 C1 C2 C3 C4 C5 C6 C7 C8 HQ.
  pose proof (repr_ndata_range _ _ _ _ _ H) as Hr1. pose proof (repr_i_ndata_range _ _ _ _ _ _ _ H Hm Hi) as Hr2.
  apply wp_bind. eapply wp_count; [rewrite C5; apply lookup_insert_eq|exact Hr2|by rewrite C2|]. intros s4 E4. rewrite C2, C5, insert_insert_eq in E4.
  assert (C4' : chgs (st s4) = <[cp := c2]> (chgs s)) by (by rewrite E4).
  apply wp_bind. eapply wp_upd_change; [rewrite C4'; apply lookup_insert_eq|]. unfold c2. rewrite C4', insert_insert_eq, linked_change by lia.
  apply wp_ret. set (s5 := set_st _ s4).
  assert (E5 : st s5 = set_chgs (<[cp := set_c_cached true (set_c_nrefs (c_nrefs c + 1) c)]> (chgs s)) (st s4)) by done. clearbody s5.
  destruct (grown_both (st s5) s L cp c p i l1 l2 t2 Hm H Hc Hcp Ht Hn Hw Hi Hh Hl1 Hl2) as (L' & x & G & X1 & X2 & X3);
    [..|eapply (HQ s5 L' x); [exact G|exact X1|exact X2|exact X3|rewrite E5; apply lookup_insert_eq]]; rewrite E5; simpl; rewrite ?E4; done.
Qed.

Lemma wp_link s L cp c p i (Q : bool -> HistoryCache_t -> Prop) : multi = true -> repr (st s) L -> zlen L + 1 < 2 ^ 16 ->
  chgs (st s) !! cp = Some c -> cp ∉ x_cp <$> L -> 0 <= c_taken c < c_nrefs c -> c_nrefs c + 2 <= MAX_CHANGE_REFS -> c_wack c = 0 ->
  insts (st s) !! p = Some i -> i_handle i = c_handle c ->
  (forall s', repr (st s') L -> chgs (st s') = chgs (st s) -> ~ plenty s -> Q false s') ->
  (forall s' L' x, grown multi (hc_src_time cf) (hc_must_ack cf) (st s) (st s') L L' x -> x_cp x = cp -> x_ip x = p ->
     x_alive x = (c_kind c =? ALIVE) -> chgs (st s') !! cp = Some (set_c_cached true (set_c_nrefs (c_nrefs c + 1) c)) -> Q true s') ->
  wp (link_change cf (Some p) cp) Q s.
Proof.
  intros Hm H Hroom Hc Hcp Ht Hn Hw Hi Hh Q1 Q2. unfold link_change.
  pose proof (repr_good_hist _ _ _ _ _ H) as Gh. pose proof (repr_good_inst _ _ _ _ _ _ _ H Hm Hi) as Gi.
  pose proof (rp_n _ _ _ _ _ H) as En. unfold MAX_CHANGE_REFS in *.
  assert (Hlt : (cp < next_addr (st s))%nat) by (destruct (rp_fresh _ _ _ _ _ H) as (_ & F & _); apply F, elem_of_dom; by eexists).
  apply wp_bind, steady_monitor; [apply steady_ccref_add|]. eapply (wp_ccref_add HIST); [done|exact Gh|destruct Gh as (<- & _); lia|exact Hc|unfold MAX_CHANGE_REFS; lia|..].
  { intros q Hq. by eapply hist_refs. }
  { intros s1 E1 Hp _. apply wp_ret, Q1; [by rewrite E1..|done]. }
  intros s1 l1 rp E1 Hl1 [_ Hp1]. change (st s1 = half (st s) cp c l1) in E1. apply wp_bind, wp_bind.
  assert (Hi1 : list_at (INST p) (st s1) = Some (i_list i)) by (rewrite E1; simpl; by rewrite Hi).
  assert (Hle : zlen (l_refs (i_list i)) + 1 < 2 ^ 16).
  { destruct (repr_inst _ _ _ _ _ _ _ H Hm Hi) as [Hr _ _]. rewrite (follows_len _ _ _ Hr). pose proof (of_inst_le p L).
    unfold zlen in *. rewrite length_fmap. lia. }
  assert (En1 : next_addr (st s1) = S rp) by (by rewrite E1).
  eapply (wp_ccref_add (INST p)); [exact Hi1|exact Gi|exact Hle|rewrite E1; apply lookup_insert_eq|simpl; unfold MAX_CHANGE_REFS; lia|..].
  { intros q Hq. destruct (inst_refs _ _ _ _ _ H Hm Hi Hq) as (Hold & y & Hy & Hr & d & Hd). rewrite En1. split; [unfold rp; lia|].
    rewrite E1. simpl. eexists _, d. rewrite lookup_insert_ne by lia. split; [done|]. simpl. rewrite lookup_insert_ne; [done|].
    intros ->. apply Hcp. by apply list_elem_of_fmap_2. }
  { intros s2 E2 Hp2. eapply wp_mono.
    - eapply (wp_undo _ _ L cp c l1 (fun b s' => b = false /\ repr (st s') L /\ chgs (st s') = chgs (st s)));
        [exact H|done|exact Hc|unfold MAX_CHANGE_REFS; lia|by rewrite E2|exact Hl1|done].
    - intros b s3 (-> & H3 & E3). simpl. apply wp_ret. apply Q1; auto. }
  intros s2 l2 irp E2 Hl2. unfold irp in *. clear irp. rewrite En1 in *. simpl in E2. rewrite E1 in E2. simpl in E2. rewrite Hi in E2.
  apply wp_bind, wp_put_ref, wp_bind, wp_put_ref. simpl. rewrite E2. simpl.
  apply wp_bind. eapply wp_change; [simpl; apply lookup_insert_eq|]. simpl.
  assert (Hmap : <[S rp := mkRef (Some rp) cp]> (<[rp := mkRef (Some (S rp)) cp]> (<[S rp := mkRef None cp]> (<[rp := mkRef None cp]> (refs (st s))))) =
    <[S rp := mkRef (Some rp) cp]> (<[rp := mkRef (Some (S rp)) cp]> (refs (st s)))).
  { rewrite (insert_insert_ne _ rp (S rp)) by lia. by rewrite !insert_insert_eq. }
  change (next_addr (st s)) with rp. rewrite Hmap. clear Hmap. set (a := c_kind c =? ALIVE).
  set (s3 := set_st _ (set_st _ s2)).
  assert (E3 : hc_changes (st s3) = mkList l1 (l_time (hc_changes (st s))) (l_nchanges (hc_changes (st s)) + 1) /\ hc_ndata (st s3) = hc_ndata (st s) /\
    refs (st s3) = <[S rp := mkRef (Some rp) cp]> (<[rp := mkRef (Some (S rp)) cp]> (refs (st s))) /\
    chgs (st s3) = <[cp := set_c_nrefs (c_nrefs c + 1 + 1) (set_c_nrefs (c_nrefs c + 1) c)]> (<[cp := set_c_nrefs (c_nrefs c + 1) c]> (chgs (st s))) /\
    insts (st s3) = <[p := set_i_list (mkList l2 (l_time (i_list i)) (l_nchanges (i_list i) + 1)) i]> (insts (st s)) /\
    hc_set (st s3) = hc_set (st s) /\ hc_ninstances (st s3) = hc_ninstances (st s) /\ next_addr (st s3) = S (S rp)) by (split_and!; reflexivity).
  clearbody s3. destruct E3 as (C1 & C2 & C3 & C4 & C5 & C6 & C7 & C8). rewrite insert_insert_eq in C4.
  apply wp_bind. eapply wp_mono; [eapply wp_bind_inv, (wp_link_end s3 (st s) L cp c p i l1 l2 _ Q);
    [exact Hm|exact H|exact Hc|exact Hcp|exact Ht|exact Hn|exact Hw|exact Hi|exact Hh|exact Hl1|exact Hl2|exact C1|exact C2|exact C3|exact C4
    |exact C5|exact C6|exact C7|exact C8|exact Q2]|].
  intros [] s' Hs'. apply wp_ret. exact Hs'.
Qed.

End Link.

(** ** Room in an instance *)

Section Room.
Context (cf : Conf).
#[local] Abbreviation multi := (hc_multi_inst cf).
#[local] Abbreviation depth := (hc_max_depth cf).
#[local] Abbreviation repr := (repr (hc_multi_inst cf) (hc_src_time cf) (hc_must_ack cf)).

(** The rounds of the loop of [hc_add] over the samples of an instance. *)
Fixpoint rounds (l : list Sample) : nat :=
  match l with
  | [] => O
  | _ :: l' => if depth <=? nalive l' then S (rounds l') else 1%nat
  end.

(** How many samples make room for a new one. *)
Definition evictions (l : list Sample) : nat :=
  if hc_ref_type cf && (depth <=? zlen l) || (depth <=? nalive l) then rounds l else O.

Lemma rounds_le l : (rounds l <= length l)%nat.
Proof. induction l; simpl; [lia|]. case_match; lia. Qed.

Lemma rounds_room l : 1 <= depth -> nalive (drop (rounds l) l) < depth.
Proof.
  intros Hd. induction l as [|x l IH]; simpl; [unfold nalive, zlen; simpl; lia|]. destruct (Z.leb_spec depth (nalive l)); simpl; [done|]. by rewrite drop_0.
Qed.

Lemma evictions_room l : 1 <= depth -> nalive (drop (evictions l) l) < depth.
Proof.
  intros Hd. unfold evictions. case_match eqn:E; [by apply rounds_room|]. rewrite drop_0. apply orb_false_iff in E as [_ E]. zbool. done.
Qed.

Lemma nalive_all l : Forall (fun x => x_alive x = true) l -> nalive l = zlen l.
Proof. induction 1 as [|x l E _ IH]; [done|]. rewrite nalive_cons, zlen_cons, E, IH. lia. Qed.

(** When all samples are data, as many go as are too many. *)
Lemma rounds_exact l : 1 <= depth -> Forall (fun x => x_alive x = true) l -> depth <= zlen l -> Z.of_nat (rounds l) = zlen l + 1 - depth.
Proof.
  intros Hd. induction l as [|x l IH]; intros Hall Hl; [unfold zlen in *; simpl in *; lia|]. apply Forall_cons in Hall as [_ Hall].
  simpl. rewrite (nalive_all l) by done. rewrite zlen_cons in *. destruct (Z.leb_spec depth (zlen l)); [|lia]. rewrite Nat2Z.inj_succ, IH by done. lia.
Qed.

Lemma evictions_exact l : 1 <= depth -> Forall (fun x => x_alive x = true) l -> evictions l = Z.to_nat (zlen l + 1 - depth).
Proof.
  intros Hd Hall. unfold evictions. rewrite (nalive_all l) by done.
  destruct (Z.leb_spec depth (zlen l)) as [Hl|Hl]; rewrite ?andb_true_r, ?andb_false_r, ?orb_true_r; simpl; [|lia].
  rewrite <- (rounds_exact l) by done. by rewrite Nat2Z.id.
Qed.

Lemma first_of_inst s L p i x rest : repr s L -> multi = true -> hc_src_time cf = false -> insts s !! p = Some i -> of_inst p L = x :: rest ->
  head (l_refs (i_list i)) = Some (x_irp x) /\ l_nchanges (i_list i) <> 0.
Proof.
  intros H Hm Ho Hi E. destruct (repr_inst _ _ _ _ _ _ _ H Hm Hi) as [Hr Hn _]. unfold follows in Hr. rewrite Ho in Hr.
  rewrite Hn, Hr, E. split; [done|]. unfold zlen. simpl. lia.
Qed.

Lemma wp_make_room fuel s L p i rel (Q : ReturnCode_t -> HistoryCache_t -> Prop) : multi = true -> hc_src_time cf = false -> 1 <= depth ->
  repr (st s) L -> insts (st s) !! p = Some i -> of_inst p L <> [] -> (length (of_inst p L) <= S fuel)%nat ->
  (keeps_all cf rel = true -> forall s', st s' = st s -> Q DDS_RETCODE_NO_DATA s') ->
  (keeps_all cf rel = false -> forall s', let k := rounds (of_inst p L) in repr (st s') (evict p k L) ->
     keep (st s) (st s') (take k (of_inst p L)) -> Q DDS_RETCODE_OK s') ->
  wp (make_room cf fuel (Some p) (INST p) rel (instance_full cf p)) Q s.
Proof.
  intros Hm Ho Hd. revert s L i Q. induction fuel as [|fuel IH]; intros s L i Q H Hi Hne Hf Q1 Q2.
  all: destruct (of_inst p L) as [|x rest] eqn:E; [done|]; destruct (evict_first _ _ _ _ E) as (L1 & L2 & -> & Er & Ep & Ev).
  all: destruct (first_of_inst _ _ _ _ _ _ H Hm Ho Hi E) as [Hhd Hn]; assert (Hx : x ∈ L1 ++ x :: L2) by (rewrite elem_of_app; right; left).
  all: destruct (repr_sample _ _ _ _ _ _ H Hx) as [_ Hirp _]; rewrite Hm in Hirp.
  all: simpl make_room; apply wp_bind; unfold first_change, first_ref; apply wp_bind, wp_bind; (eapply wp_get_ilist; [done|]);
    rewrite (proj2 (Z.eqb_neq _ _)) by done; (eapply wp_the; [done|]); apply wp_bind; (eapply wp_ref; [done|]); apply wp_ret; simpl.
  all: assert (Ein : inst_of multi x = Some p) by (unfold inst_of; rewrite Hm; by f_equal).
  all: apply wp_bind; rewrite <- Ein at 1; (eapply (wp_remove_i cf (hc_must_ack cf) s (L1 ++ x :: L2)); [done|done|intros; by eapply repr_wack|..]).
  1, 3: intros Hk s' E' _; apply wp_bind; rewrite decide_False by done; apply wp_ret; apply wp_ret; by apply Q1.
  all: intros Hk s1 R; pose proof (repr_removed _ _ _ _ _ _ _ _ H R) as H1; pose proof (keep_removed _ _ _ _ R) as K1;
    destruct (kp_insts _ _ _ K1 _ _ Hi) as (l1 & n1 & Hi1).
  all: apply wp_bind; rewrite decide_True by done; unfold instance_full; apply wp_bind; (eapply wp_inst; [done|]); apply wp_ret;
    destruct (repr_inst _ _ _ _ _ _ _ H1 Hm Hi1) as [_ _ ->]; rewrite Er.
  - simpl in Hf. assert (rest = []) as -> by (destruct rest; [done|simpl in Hf; lia]).
    destruct (Z.leb_spec depth (nalive [])) as [Hl|Hl]; [unfold nalive, zlen in Hl; simpl in Hl; lia|]. apply wp_ret, Q2; [done|..].
    + simpl. rewrite (proj2 (Z.leb_gt _ _)), Ev, evict_0 by done. done.
    + simpl. rewrite (proj2 (Z.leb_gt _ _)) by done. done.
  - simpl in Q2. destruct (Z.leb_spec depth (nalive rest)) as [Hl|Hl].
    + eapply (IH s1 (L1 ++ L2) _ Q H1 Hi1); rewrite ?Er.
      * intros ->. unfold nalive, zlen in Hl. simpl in Hl. lia.
      * simpl in Hf. lia.
      * congruence.
      * intros _ s2 k H2 K2. apply Q2; [done|by rewrite Ev|]. simpl. by eapply (keep_trans _ _ _ [x]).
    + apply wp_ret, Q2; [done|..]; [by rewrite Ev, evict_0|done].
Qed.

End Room.
