(* ===== verification/CacheKeep.v ===== *)
(** History caches: [hc_add] on every branch, in the cache of a reader with
    instances that keeps samples in the order of their arrival. *)

From stdpp Require Import gmap sorting.
From S2P Require Import Prelude Seqnr Cache CacheAdd CacheGet CacheProps CacheInv CacheWriters CacheGrow CacheDepth.
From stdpp Require Import list.

#[local] Open Scope Z_scope.

Section Keep.
Context (cf : Conf).
#[local] Abbreviation multi := (hc_multi_inst cf).
#[local] Abbreviation depth := (hc_max_depth cf).
#[local] Abbreviation repr := (repr (hc_multi_inst cf) (hc_src_time cf) (hc_must_ack cf)).

(** ** The monitor stays as it is *)

Lemma steady_acks : (forall ip n, steady (hc_acknowledged cf ip n)) /\ (forall wait ip cp rel, (forall ip cp, steady (wait ip cp)) -> steady (remove_i cf wait ip cp rel)).
Proof.
  pose proof steady_lists as (G & P & R & X1 & X2 & X3 & X4 & X5 & X6).
  assert (steady_change : forall cp, steady (change cp)) by (intros; unfold change; steady).
  assert (steady_inst : forall ip, steady (inst ip)) by (intros; unfold inst; steady).
  assert (C : forall lp cp, steady (ccref_remove_change lp cp)) by (intros; unfold ccref_remove_change; steady).
  assert (steady_remove : forall ip cp, steady (remove_change ip cp)).
  { intros. unfold remove_change, ref, sub_i_ndata, sub_ndata, upd_inst, put_inst. steady. }
  assert (steady_remove_i : forall wait ip cp rel, (forall ip cp, steady (wait ip cp)) -> steady (remove_i cf wait ip cp rel)).
  { intros wait ip cp rel Hw. unfold remove_i. steady. }
  split; [|done]. assert (F : forall n l, steady (find_seqnr n l)) by (intros n; induction l; simpl; unfold ref; steady).
  intros ip n. unfold hc_acknowledged, acked_change, last_ref, ref_change, ref, put_change, emit. steady.
  all: apply steady_remove_i; intros; apply steady_fault.
Qed.

Lemma steady_remove_i ip cp rel : steady (hc_remove_i cf ip cp rel).
Proof.
  destruct steady_acks as [A R]. apply R. clear ip cp. intros ip cp.
  assert (steady_all : forall l, steady (acknowledge_all cf l)) by (induction l as [|[]]; simpl; steady).
  unfold hc_wait_acked, emit, inst, upd_inst, put_inst, upd_change, change, put_change. unfold inst. steady.
Qed.

Lemma steady_make_room fuel ip lp rel full : steady full -> steady (make_room cf fuel ip lp rel full).
Proof.
  intros Hf. pose proof steady_lists as (_ & _ & _ & _ & _ & _ & _ & _ & ?).
  induction fuel; simpl; apply steady_bind; try done; intros; (apply steady_bind; [apply steady_remove_i|]); steady.
Qed.

Lemma steady_stamp ip cp kind : steady (stamp cf ip cp kind).
Proof.
  pose proof steady_basic as (? & ? & ? & ? & ? & ? & ?).
  unfold stamp, gen_counts, set_disp_cnt, set_no_w_cnt, set_view. steady.
Qed.

Lemma steady_link ip cp : steady (link_change cf ip cp).
Proof.
  pose proof steady_basic as (? & ? & ? & ? & ? & ? & ?). pose proof steady_lists as (? & ? & ? & ? & ? & ? & ? & ? & ?).
  pose proof steady_ccref_add.
  unfold link_change, put_ref, add_i_ndata, add_ndata. steady.
Qed.

Lemma steady_check_writers p cp : steady (check_writers cf p cp).
Proof.
  pose proof steady_basic as (? & ? & ? & ? & ? & ? & ?).
  unfold check_writers, new_writer, drop_writer, hc_rem_writer_gone, hc_rem_writer_handle, hc_update_owner, hc_add_writer_handle. steady.
Qed.

(** ** The parts of [hc_add] *)

(** What samples and lists depend on in an instance. *)
Definition agree (i i' : INSTANCE) : Prop := i_list i' = i_list i /\ i_ndata i' = i_ndata i /\ i_handle i' = i_handle i.
Definition same_core (c c' : Change_t) : Prop :=
  c_kind c' = c_kind c /\ c_handle c' = c_handle c /\ c_nrefs c' = c_nrefs c /\ c_taken c' = c_taken c /\ c_wack c' = c_wack c /\ c_time c' = c_time c.

(** Only the instance [p] differs from [S0], in what does not matter. *)
Definition only (p : nat) (i : INSTANCE) (S0 s : Store) : Prop := exists i', s = put p i' S0 /\ agree i i'.

Lemma wp_upd_only p i S0 f s (Q : () -> HistoryCache_t -> Prop) : only p i S0 (st s) -> (forall i, agree i (f i)) ->
  (forall s', only p i S0 (st s') -> Q tt s') -> wp (upd_inst p f) Q s.
Proof.
  intros (i' & E & A1 & A2 & A3) Hf HQ. eapply wp_upd_inst; [rewrite E; apply put_lookup|]. apply HQ. simpl. rewrite E.
  change (only p i S0 (put p (f i') (put p i' S0))). rewrite put_twice. exists (f i'). split; [done|]. destruct (Hf i') as (B1 & B2 & B3). split_and!; congruence.
Qed.

Lemma wp_stamp s p cp kind c i (Q : () -> HistoryCache_t -> Prop) : hc_writer cf = false -> chgs (st s) !! cp = Some c -> c_kind c = ALIVE ->
  insts (st s) !! p = Some i ->
  (forall s' c', only p i (set_chgs (<[cp := c']> (chgs (st s))) (st s)) (st s') -> same_core c c' -> Q tt s') -> wp (stamp cf (Some p) cp kind) Q s.
Proof.
  intros Hw Hc Hk Hi HQ. unfold stamp. rewrite Hw. apply wp_bind. eapply wp_change; [done|].
  apply wp_bind, quiet_when; [apply quiet_emit|]. intros _ s1 E1. apply wp_bind. unfold gen_counts. apply wp_bind, wp_bind. eapply wp_inst; [by rewrite E1|].
  apply wp_ret. eapply wp_upd_change; [by rewrite E1|]. simpl. rewrite E1. set (c1 := set_c_sstate _ _). set (S0 := set_chgs _ (st s)).
  set (s2 := set_st S0 s1). assert (E2 : only p i S0 (st s2)).
  { exists i. split; [|done]. symmetry. by apply put_same. }
  specialize (HQ) as HQ'. assert (HQ2 : forall s', only p i S0 (st s') -> Q tt s') by (intros s' Ho; by eapply (HQ s' c1)). clear HQ HQ'. clearbody s2.
  rewrite Hk, Z.eqb_refl. simpl. apply wp_if; intros Hz; [by apply wp_ret, HQ2|].
  apply wp_bind, wp_bind. destruct E2 as (i2 & E2 & A2). eapply wp_inst; [rewrite E2; apply put_lookup|]. apply wp_ret. apply wp_bind.
  assert (Ho : only p i S0 (st s2)) by (by exists i2). clear E2.
  assert (Hend : forall s3, only p i S0 (st s3) -> wp (upd_inst p (fun i => set_i_registered (i_registered i && negb (unregistered ALIVE)) (set_i_kind ALIVE i))) Q s3)
    by (intros s3 H3; eapply wp_upd_only; [done|done|done]).
  apply wp_if; intros Hd.
  - apply wp_bind, wp_bind. eapply wp_upd_only; [done|done|]. intros s3 H3. eapply wp_upd_only; [done|done|]. intros s4 H4.
    apply wp_bind, wp_getc, quiet_when; [apply quiet_emit|]. intros _ s5 E5. apply Hend. by rewrite E5.
  - apply wp_whenc; intros Hu; [|by apply Hend].
    apply wp_bind, wp_bind. eapply wp_upd_only; [done|done|]. intros s3 H3. apply wp_bind. eapply wp_upd_only; [done|done|]. intros s4 H4.
    eapply wp_upd_only; [done|done|]. intros s5 H5. apply wp_bind, wp_getc, quiet_when; [apply quiet_emit|]. intros _ s6 E6. apply Hend. by rewrite E6.
Qed.

(** [hc_add_i] for a reader: the sample joins the lists, or there is no memory. *)
Lemma wp_add_i s L cp c p i (Q : ReturnCode_t -> HistoryCache_t -> Prop) : multi = true -> hc_src_time cf = false ->
  hc_writer cf = false -> hc_readers cf = [] -> hc_monitor s = false -> repr (st s) L -> zlen L + 1 < 2 ^ 16 ->
  chgs (st s) !! cp = Some c -> cp ∉ x_cp <$> L -> c_taken c = 0 -> c_nrefs c = 1 -> c_wack c = 0 ->
  insts (st s) !! p = Some i -> i_handle i = c_handle c ->
  (forall s', repr (st s') L -> chgs (st s') = chgs (st s) -> ~ plenty s -> Q DDS_RETCODE_OUT_OF_RESOURCES s') ->
  (forall s' x, repr (st s') (L ++ [x]) -> x_cp x = cp -> x_ip x = p -> x_alive x = (c_kind c =? ALIVE) ->
     (exists c', chgs (st s') !! cp = Some c' /\ c_cached c' = true /\ c_nrefs c' = 2) -> Q DDS_RETCODE_OK s') ->
  wp (hc_add_i cf (Some p) cp) Q s.
Proof.
  intros Hm Ho Hw Hr Hmon H Hroom Hc Hcp Ht Hn Hwa Hi Hh Q1 Q2. unfold hc_add_i. apply wp_bind, steady_monitor; [apply steady_link|].
  eapply (wp_link cf s L cp c p i); [done..|lia|unfold MAX_CHANGE_REFS; lia|done|done|done| |].
  { intros s1 H1 E1 Hp _. simpl. by apply wp_ret, Q1. }
  intros s1 L1 x G X1 X2 X3 Hc1 [Hmon1 _]. simpl.
  assert (L1 = L ++ [x]) as -> by (destruct (gr_order _ _ _ _ _ _ _ _ G) as [->|[? _]]; [done|congruence]).
  apply wp_bind, wp_getc. rewrite Hmon1, Hmon. apply wp_bind, quiet_when; [apply quiet_emit|]. intros _ s2 E2.
  rewrite Hr. apply wp_bind, wp_ret. apply wp_bind. eapply wp_change; [by rewrite E2|]. rewrite Hw. simpl.
  apply wp_bind, wp_getc. apply wp_bind, quiet_when; [apply quiet_bind; [apply quiet_emit|intros; by apply quiet_modc]|]. intros _ s3 E3.
  apply wp_ret, (Q2 _ x); rewrite ?E3, ?E2; try done.
  - by eapply repr_grown.
  - eexists. split; [exact Hc1|]. simpl. split; [done|lia].
Qed.

(** The limit on the samples of the cache is not reached. *)
Lemma wp_add_checked fuel rel s L cp c p i kind (Q : ReturnCode_t -> HistoryCache_t -> Prop) : multi = true -> hc_src_time cf = false ->
  hc_writer cf = false -> hc_readers cf = [] -> hc_monitor s = false -> repr (st s) L -> zlen L + 1 < 2 ^ 16 -> zlen L < hc_max_samples cf ->
  chgs (st s) !! cp = Some c -> cp ∉ x_cp <$> L -> c_kind c = ALIVE -> c_taken c = 0 -> c_nrefs c = 1 -> c_wack c = 0 ->
  insts (st s) !! p = Some i -> i_handle i = c_handle c ->
  (forall s', repr (st s') L -> is_Some (chgs (st s') !! cp) -> ~ plenty s -> Q DDS_RETCODE_OUT_OF_RESOURCES s') ->
  (forall s' x, repr (st s') (L ++ [x]) -> x_cp x = cp -> x_ip x = p -> x_alive x = true ->
     (exists c', chgs (st s') !! cp = Some c' /\ c_cached c' = true /\ c_nrefs c' = 2) -> Q DDS_RETCODE_OK s') ->
  wp (add_checked cf fuel (Some p) cp kind rel) Q s.
Proof.
  intros Hm Ho Hw Hr Hmon H Hroom Hmax Hc Hcp Hk Ht Hn Hwa Hi Hh Q1 Q2. unfold add_checked. apply wp_bind. eapply wp_change; [done|].
  apply wp_bind, wp_getc. rewrite (rp_n _ _ _ _ _ H), (rp_ndata _ _ _ _ _ H). pose proof (nalive_le L).
  rewrite !(proj2 (Z.leb_gt _ _)), !andb_false_r by lia. simpl. apply wp_bind, wp_ret. simpl.
  apply wp_bind, steady_monitor; [apply steady_stamp|]. eapply wp_stamp; [done..|].
  intros s1 c1 (i1 & E1 & A1 & A2 & A3) (B1 & B2 & B3 & B4 & B5 & B6) [Hmon1 Hp1].
  assert (H1 : repr (st s1) L).
  { rewrite E1. unfold put. eapply (repr_put_inst _ _ _ (set_chgs _ (st s)) L p i i1); [|done|done|done|done].
    eapply repr_put_change; [done|done|done|done|]. done. }
  eapply (wp_add_i s1 L cp c1 p i1); try done; [congruence|by rewrite E1; simpl; apply lookup_insert_eq|congruence..|by rewrite E1; apply put_lookup|congruence| |].
  - intros s2 H2 E2 Hp2. apply Q1; [done| |auto]. rewrite E2, E1. simpl. rewrite lookup_insert_eq. by eexists.
  - intros s2 x H2 X1 X2 X3 Hc2. eapply (Q2 _ x); try done. by rewrite X3, B1, Hk.
Qed.

(** A sample that is not in the lists goes. *)
Lemma repr_drop s L cp : repr s L -> cp ∉ x_cp <$> L -> repr (set_chgs (delete cp (chgs s)) s) L.
Proof.
  intros H Hcp. eapply repr_tweaked; [done|]. split; simpl; try done.
  - intros x c Hx Hc [_ Hn Ht Hw _]. exists c. rewrite lookup_delete_ne; [done|]. intros ->. apply Hcp. by apply list_elem_of_fmap_2.
  - intros a. rewrite dom_delete. rewrite elem_of_difference. intros [Ha _]. by left.
  - intros ip i Hi. left. by exists i.
  - intros x i _ Hi. by exists i.
Qed.

(** What becomes of a new sample and of those that are there. *)
Inductive added_to (p cp : nat) (w : Z) (L : list Sample) (rel : bool) (enough : Prop) (s' : Store) : ReturnCode_t -> Prop :=
  | a_refused i' : hc_exclusive cf = true -> insts s' !! p = Some i' -> i_owner i' <> 0 -> i_owner i' <> w -> repr s' L -> chgs s' !! cp = None ->
      added_to p cp w L rel enough s' DDS_RETCODE_OK
  | a_blocked : keeps_all cf rel = true -> (0 < evictions cf (of_inst p L))%nat -> repr s' L -> is_Some (chgs s' !! cp) ->
      added_to p cp w L rel enough s' DDS_RETCODE_NO_DATA
  | a_no_memory : ~ enough -> repr s' (evict p (evictions cf (of_inst p L)) L) -> is_Some (chgs s' !! cp) -> added_to p cp w L rel enough s' DDS_RETCODE_OUT_OF_RESOURCES
  | a_added x : (keeps_all cf rel = true -> evictions cf (of_inst p L) = O) ->
      repr s' (evict p (evictions cf (of_inst p L)) L ++ [x]) -> x_cp x = cp -> x_ip x = p -> x_alive x = true ->
      (exists c, chgs s' !! cp = Some c /\ c_cached c = true /\ c_nrefs c = 2) -> added_to p cp w L rel enough s' DDS_RETCODE_OK.

(** Room in the instance, when there is a limit to reach. *)
Lemma wp_instance_room fuel s L p i rel (Q : ReturnCode_t -> HistoryCache_t -> Prop) : multi = true -> hc_src_time cf = false -> 1 <= depth ->
  repr (st s) L -> insts (st s) !! p = Some i -> (length (of_inst p L) <= fuel)%nat ->
  (keeps_all cf rel = true -> (0 < evictions cf (of_inst p L))%nat -> forall s', st s' = st s -> Q DDS_RETCODE_NO_DATA s') ->
  ((keeps_all cf rel = true -> evictions cf (of_inst p L) = O) -> forall s', repr (st s') (evict p (evictions cf (of_inst p L)) L) ->
     keep (st s) (st s') (take (evictions cf (of_inst p L)) (of_inst p L)) -> Q DDS_RETCODE_OK s') ->
  wp (if hc_ref_type cf && (depth <=? l_nchanges (i_list i)) || (depth <=? i_ndata i)
      then e ← make_room cf fuel (Some p) (INST p) rel (instance_full cf p); reject cf e 3;; mret e else mret DDS_RETCODE_OK) Q s.
Proof.
  intros Hm Ho Hd H Hi Hf Q1 Q2. destruct (repr_inst _ _ _ _ _ _ _ H Hm Hi) as [Hr Hn Hnd].
  assert (En : l_nchanges (i_list i) = zlen (of_inst p L)).
  { rewrite Hn, (follows_len _ _ _ Hr). unfold zlen. by rewrite length_fmap. }
  rewrite En, Hnd. unfold evictions in *. destruct (hc_ref_type cf && (depth <=? zlen (of_inst p L)) || (depth <=? nalive (of_inst p L))) eqn:Hb.
  - assert (Hne : of_inst p L <> []).
    { intros E. rewrite E in Hb. change (zlen []) with 0 in Hb. change (nalive []) with 0 in Hb. rewrite !(proj2 (Z.leb_gt _ _)), andb_false_r in Hb by lia. done. }
    apply wp_bind. eapply (wp_make_room cf fuel s L p i rel); [done..|lia| |].
    + intros Hk s1 E1. apply wp_bind, quiet_when; [apply quiet_emit|]. intros _ s2 E2. apply wp_ret, Q1; [done| |congruence].
      destruct (of_inst p L) as [|x l]; [done|]. simpl. case_match; lia.
    + intros Hk s1 k H1 K1. apply wp_bind, quiet_when; [apply quiet_emit|]. intros _ s2 E2. apply wp_ret, Q2; [congruence|by rewrite E2..].
  - apply wp_ret, Q2; [done|by rewrite evict_0|apply keep_refl].
Qed.

Lemma wp_add_multi fuel s L p i cp c rel (Q : ReturnCode_t -> HistoryCache_t -> Prop) : multi = true -> hc_src_time cf = false ->
  hc_writer cf = false -> hc_readers cf = [] -> hc_monitor s = false -> repr (st s) L -> zlen L + 1 < 2 ^ 16 -> zlen L < hc_max_samples cf ->
  1 <= depth -> (length (of_inst p L) <= fuel)%nat ->
  chgs (st s) !! cp = Some c -> cp ∉ x_cp <$> L -> c_kind c = ALIVE -> c_taken c = 0 -> c_nrefs c = 1 -> c_wack c = 0 -> 0 < c_writer c < 2 ^ 16 ->
  insts (st s) !! p = Some i -> i_handle i = c_handle c -> strengths_ok cf -> writers_ok cf i ->
  (forall e s', added_to p cp (c_writer c) L rel (plenty s) (st s') e -> Q e s') ->
  wp (hc_add cf fuel (Some p) cp rel) Q s.
Proof.
  intros Hm Ho Hwr Hrd Hmon H Hroom Hmax Hd Hf Hc Hcp Hk Ht Hn Hwa Hw Hi Hh Hst Hok HQ.
  unfold hc_add. apply wp_bind. eapply wp_inst; [done|]. unfold hc_add_multi. apply wp_bind. eapply wp_inst; [done|]. apply wp_bind, wp_getc.
  (* the deadline *)
  apply wp_bind. set (i1 := if i_deadlined i then set_i_deadlined false i else i).
  assert (Hi1 : agree i i1 /\ writers_ok cf i1) by (unfold i1; destruct (i_deadlined i); [split; [done|]; by destruct Hok|done]).
  assert (wp (whenc (i_deadlined i) (upd_inst p (set_i_deadlined false);; whenc (hc_dlc_idle s) (emit EvDeadline)))
    (fun _ s' => st s' = put p i1 (st s) /\ hc_monitor s' = false /\ (plenty s -> plenty s')) s) as Hdl.
  { apply wp_whenc; intros E; unfold i1; rewrite E; [|by rewrite put_same]. apply wp_bind. eapply wp_upd_inst; [done|]. by destruct (hc_dlc_idle s). }
  eapply wp_mono; [exact Hdl|]. intros [] s1 (E1 & Hmon1 & Hp1). clear Hdl. clearbody i1. destruct Hi1 as [(A1 & A2 & A3) Hok1].
  (* the writers *)
  rewrite Hwr. apply wp_bind, steady_monitor; [apply steady_check_writers|].
  eapply (wp_check_writers cf Hst s1 p i1 cp c); [rewrite E1; apply put_lookup|by rewrite E1|done|done|].
  intros s2 ws b o E2 _ _ [Hmon2 Hp2]. set (i2 := with_writers ws b o i1) in *.
  assert (Hka : kind_after c ws = c_kind c) by (unfold kind_after; by rewrite Hk). rewrite Hka, set_kind_same in E2.
  assert (E2' : st s2 = put p i2 (st s)).
  { rewrite E2, E1, put_twice. simpl. rewrite insert_id by done. by destruct (st s). }
  clear E2. assert (H2 : repr (st s2) L) by (rewrite E2'; by eapply repr_put_inst).
  assert (Hc2 : chgs (st s2) !! cp = Some c) by (by rewrite E2'). assert (Hi2 : insts (st s2) !! p = Some i2) by (rewrite E2'; apply put_lookup).
  assert (Hh2 : i_handle i2 = c_handle c) by (simpl; congruence).
  apply wp_if; intros Ha.
  { apply wp_bind. unfold hc_change_free. eapply wp_release; [done|unfold MAX_CHANGE_REFS; lia|]. apply wp_ret, HQ. unfold drop_refs. rewrite Hn. simpl.
    unfold admits in Ha. rewrite Hk in Ha. simpl in Ha. destruct (hc_exclusive cf) eqn:Hex; [|done].
    apply negb_true_iff, orb_false_iff in Ha as [Ho1 Ho2]. zbool.
    apply (a_refused p cp (c_writer c) L rel _ _ i2); [done|done|done|by apply not_eq_sym|eapply repr_drop; done|apply lookup_delete_eq]. }
  apply wp_bind. eapply wp_change; [done|]. rewrite Hk, Z.eqb_refl, andb_false_r. simpl.
  (* room in the instance *)
  apply wp_bind. eapply wp_inst; [done|]. apply wp_bind, steady_monitor.
  { case_match; [|apply steady_ret]. pose proof steady_basic as (? & ? & ? & ? & ? & ? & ?).
    apply steady_bind; [apply steady_make_room; unfold instance_full; steady|]. intros e. unfold reject. steady. }
  eapply (wp_instance_room fuel s2 L p i2 rel); [done..| |].
  - intros Hka' Hpos s3 E3 _. rewrite decide_False by done. apply wp_ret, HQ. apply a_blocked; rewrite ?E3; try done.
  - intros Hka' s3 H3 K3 [Hmon3 Hp3]. rewrite decide_True by done.
    set (k := evictions cf (of_inst p L)) in *.
    destruct (kp_insts _ _ _ K3 _ _ Hi2) as (l3 & n3 & Hi3).
    pose proof (evict_sublist p k L) as Hsub. pose proof (sublist_length _ _ Hsub) as Hlen.
    assert (Hc3 : chgs (st s3) !! cp = Some c).
    { rewrite (kp_chgs _ _ _ K3); [done|]. intros Hin. apply Hcp. apply list_elem_of_fmap in Hin as (y & -> & Hy).
      apply list_elem_of_fmap_2. apply (of_inst_in p). eapply elem_of_sublist; [exact Hy|apply sublist_take]. }
    eapply (wp_add_checked fuel rel s3 (evict p k L) cp c p); [done|done|done|done|congruence|done|unfold zlen in *; lia|unfold zlen in *; lia|done| |done|done|done|done|done| | |].
    + intros Hin. apply Hcp. apply list_elem_of_fmap in Hin as (y & -> & Hy). apply list_elem_of_fmap_2. by eapply elem_of_sublist.
    + done.
    + intros s4 H4 Hc4 Hp4. apply HQ. apply a_no_memory; [auto 7|done|done].
    + intros s4 x H4 X1 X2 X3 Hc4. apply HQ. by eapply a_added.
Qed.

End Keep.
