(* ===== verification/CacheTake.v ===== *)
(** History caches: [hc_get] hands out the first samples of the cache that are
    asked for, and takes them out of it when that is asked for too. *)

From stdpp Require Import gmap sorting.
From S2P Require Import Prelude Seqnr Cache CacheAdd CacheGet CacheProps CacheInv CacheSet.
From stdpp Require Import list.

#[local] Open Scope Z_scope.

Section Take.
Context (cf : Conf).
#[local] Abbreviation multi := (hc_multi_inst cf).
#[local] Abbreviation repr := (repr (hc_multi_inst cf) (hc_src_time cf) false).

(** ** One sample is taken *)

(** A sample with further references stays, with those. *)
Definition stays (x : Sample) (s s' : Store) : Prop := forall c, chgs s !! x_cp x = Some c -> own_refs multi < c_nrefs c ->
  exists c', chgs s' !! x_cp x = Some c' /\ c_kind c' = c_kind c /\ c_nrefs c' = c_nrefs c - own_refs multi.

Lemma wp_take_multi s L x (Q : () -> HistoryCache_t -> Prop) : multi = true -> set_ok cf (st s) -> repr (st s) L -> x ∈ L ->
  (forall s', removed multi (st s) (st s') x -> stays x (st s) (st s') -> Q tt s') -> wp (hc_change_remove HIST None (x_rp x)) Q s.
Proof.
  intros Hm Hs H Hx HQ. destruct (repr_sample _ _ _ _ _ _ H Hx) as [Hrp Hirp (c & Hc & [Hk Hn Ht _ Hh])].
  rewrite Hm in Hrp, Hirp, Hh. unfold own_refs in Hn. rewrite Hm in Hn. destruct Hh as (i & Hi & Eh).
  pose proof (repr_good_hist _ _ _ _ _ H) as Gh. pose proof (repr_good_inst _ _ _ _ _ _ _ H Hm Hi) as Gi.
  pose proof (repr_hist_in _ _ _ _ _ _ H Hx) as Inh. pose proof (repr_inst_in _ _ _ _ _ _ _ H Hm Hx Hi) as Ini.
  pose proof (repr_rp_irp _ _ _ _ _ _ _ H Hm Hx Hx) as Hne. pose proof (repr_ndata_range _ _ _ _ _ H). pose proof (repr_i_ndata_range _ _ _ _ _ _ _ H Hm Hi).
  unfold hc_change_remove. apply wp_bind. eapply wp_remove_hist; [done..|]. intros t.
  apply wp_bind. eapply wp_ref; [done|]. apply wp_bind. eapply wp_change; [done|]. cbn [r_mirror r_change].
  apply wp_bind, wp_bind, wp_bind. assert (S1 : forall s1, insts s1 = insts (st s) -> hc_set s1 = hc_set (st s) -> hc_ninstances s1 = hc_ninstances (st s) -> set_ok cf s1).
  { intros s1 E1 E2 E3. eapply set_ok_same; [exact Hs|]. split; [done|]. split; [done|]. by rewrite E1. }
  eapply wp_get_instance_handle; [by apply S1|unfold in_u; pose proof (ik_handle _ _ (so_inst _ _ _ Hs _ _ Hi)); lia|]. intros o Ho.
  assert (o = Some (x_ip x)) as -> by (eapply has_handle_some; [by apply S1|exact Ho|exact Hi|done]). clear Ho.
  apply wp_bind, (wp_the _ (x_ip x)); [done|]. apply wp_ret. simpl.
  rewrite <- Hk. set (a := x_alive x).
  set (l2 := fun t => mkList (filter (.≠ x_irp x) (l_refs (i_list i))) t (l_nchanges (i_list i) - 1)).
  assert (Ha : a = true -> 1 <= hc_ndata (st s) /\ 1 <= i_ndata i).
  { intros Ha. split; [by eapply repr_alive_ndata|by eapply repr_alive_i_ndata]. }
  (* the counter of the instance *)
  apply wp_bind. set (s1 := set_st _ s). set (i1 := set_i_ndata (i_ndata i - (if a then 1 else 0)) i).
  assert (wp (whenc a (sub_i_ndata (x_ip x))) (fun _ s' => st s' = set_insts (<[x_ip x := i1]> (insts (st s))) (st s1)) s1) as Hcnt.
  { apply wp_whenc; intros E.
    - unfold sub_i_ndata. eapply wp_upd_inst; [done|]. simpl. unfold i1. rewrite E, wrap_pred32 by (destruct (Ha E); lia). done.
    - unfold i1. rewrite E, Z.sub_0_r. replace (set_i_ndata (i_ndata i) i) with i by (by destruct i). rewrite insert_id by done. by destruct (st s). }
  eapply wp_mono; [exact Hcnt|]. intros [] s2 E2. clear Hcnt.
  apply wp_bind. eapply (wp_remove_inst (x_ip x) i1); rewrite ?E2; [apply lookup_insert_eq|done|done|simpl; by apply Hirp|done|].
  intros t2. simpl. rewrite insert_insert_eq.
  eapply wp_delete; [done|done|simpl; lia|]. unfold drop_refs. simpl. rewrite (proj2 (Z.eqb_neq _ _)) by lia.
  assert (Hst : forall s4, chgs (st s4) = drop_refs 1 (x_cp x) (set_c_nrefs (c_nrefs c - 1) c) (<[x_cp x := set_c_nrefs (c_nrefs c - 1) c]> (chgs (st s))) ->
    stays x (st s) (st s4)).
  { intros s4 E4 c0 Hc0. rewrite Hc in Hc0. injection Hc0 as <-. unfold own_refs. rewrite Hm. intros Hlt. rewrite E4. unfold drop_refs. simpl.
    rewrite (proj2 (Z.eqb_neq _ _)) by lia. rewrite lookup_insert_eq. eexists. split; [done|]. simpl. split; [done|lia]. }
  assert (Hend : forall s3, st s3 = set_refs (delete (x_irp x) (refs (st s))) (set_chgs (<[x_cp x := set_c_nrefs (c_nrefs c - 1) c]> (chgs (st s)))
      (set_hc_ndata (hc_ndata (st s) - (if a then 1 else 0)) (set_insts (<[x_ip x := set_i_list (l2 t2) i1]> (insts (st s)))
        (set_hc_changes (mkList (filter (.≠ x_rp x) (l_refs (hc_changes (st s)))) t (l_nchanges (hc_changes (st s)) - 1)) (st s))))) ->
    wp (ccref_delete (x_rp x)) Q s3).
  { intros s3 E3. eapply wp_delete; rewrite ?E3; simpl; [by rewrite lookup_delete_ne|apply lookup_insert_eq|simpl; lia|]. apply HQ; [|by apply Hst]. simpl.
    split; simpl; rewrite ?Hm; try done.
    - intros cp Hcp. by rewrite drop_refs_ne, lookup_insert_ne by done.
    - by exists i, (l2 t2). }
  apply wp_bind, wp_whenc; intros E.
  - unfold sub_ndata. apply wp_modst, Hend. simpl. rewrite E, wrap_pred32 by (destruct (Ha E); lia). done.
  - apply Hend. rewrite E, Z.sub_0_r. done.
Qed.

Lemma wp_take_single s L x (Q : () -> HistoryCache_t -> Prop) : multi = false -> repr (st s) L -> x ∈ L ->
  (forall s', removed multi (st s) (st s') x -> stays x (st s) (st s') -> Q tt s') -> wp (hc_change_remove HIST None (x_rp x)) Q s.
Proof.
  intros Hm H Hx HQ. destruct (repr_sample _ _ _ _ _ _ H Hx) as [Hrp _ (c & Hc & [Hk Hn Ht _ _])].
  rewrite Hm in Hrp. unfold own_refs in Hn. rewrite Hm in Hn.
  pose proof (repr_good_hist _ _ _ _ _ H) as Gh. pose proof (repr_hist_in _ _ _ _ _ _ H Hx) as Inh. pose proof (repr_ndata_range _ _ _ _ _ H).
  unfold hc_change_remove. apply wp_bind. eapply wp_remove_hist; [done..|]. intros t.
  apply wp_bind. eapply wp_ref; [done|]. apply wp_bind. eapply wp_change; [done|]. cbn [r_mirror r_change]. rewrite <- Hk.
  assert (Hst : forall s4, chgs (st s4) = drop_refs 1 (x_cp x) c (chgs (st s)) -> stays x (st s) (st s4)).
  { intros s4 E4 c0 Hc0. rewrite Hc in Hc0. injection Hc0 as <-. unfold own_refs. rewrite Hm. intros Hlt. rewrite E4. unfold drop_refs.
    rewrite (proj2 (Z.eqb_neq _ _)) by lia. rewrite lookup_insert_eq. eexists. split; [done|]. done. }
  apply wp_bind, wp_ret. apply wp_bind, wp_whenc; intros Ha; [unfold sub_ndata; apply wp_modst; simpl;
    rewrite wrap_pred32 by (pose proof (repr_alive_ndata _ _ _ _ _ _ H Hx Ha); lia)|];
    (eapply wp_delete; simpl; [done|done|simpl; lia|]); (apply HQ; [|by apply Hst]); simpl;
    (split; simpl; rewrite ?Hm, ?Ha; try done; try lia);
    intros cp Hcp; by rewrite drop_refs_ne by done.
Qed.

Lemma wp_take s L x (Q : () -> HistoryCache_t -> Prop) : (multi = true -> set_ok cf (st s)) -> repr (st s) L -> x ∈ L ->
  (forall s', removed multi (st s) (st s') x -> stays x (st s) (st s') -> Q tt s') -> wp (hc_change_remove HIST None (x_rp x)) Q s.
Proof.
  intros Hs H Hx HQ. destruct (bool_dec multi true) as [Hm|Hm%not_true_is_false]; [eapply wp_take_multi|eapply wp_take_single]; eauto.
Qed.

(** ** The samples that are asked for *)

(** The bits of a mask that stand for the states of a sample: whether it was
    read, whether its instance is new, and whether its instance is alive,
    disposed or without writers (SKM_READ to SKM_NO_WRITERS of cache.h, in
    this order). *)
Definition sample_bit (c : Change_t) : Z := if c_sstate c =? READ then 0 else 1.
Definition view_bit (v : Z) : Z := if v =? NEW then 2 else 3.
Definition kind_bit (k : Z) : Z := if k =? ALIVE then 4 else if k =? NOT_ALIVE_UNREGISTERED then 6 else 5.

(** The view and the kind of the instance of a sample; a cache without
    instances has them itself. *)
Definition view_of (s : HistoryCache_t) (x : Sample) : Z :=
  if multi then from_option i_view NEW (insts (st s) !! x_ip x) else hc_view s.
Definition kind_of (s : HistoryCache_t) (x : Sample) : Z :=
  if multi then from_option i_kind ALIVE (insts (st s) !! x_ip x) else hc_kind s.

(** A sample is asked for when none of its states is in the mask and, with a
    query, it has data for which the query holds. *)
Definition asked (mask : Z) (fp : option (Change_t -> bool)) (s : HistoryCache_t) (x : Sample) : bool :=
  match chgs (st s) !! x_cp x with
  | Some c =>
      negb (Z.testbit mask (sample_bit c)) && negb (Z.testbit mask (view_bit (view_of s x))) &&
      negb (Z.testbit mask (kind_bit (kind_of s x))) &&
      match fp with Some f => negb (c_length c =? 0) && f c | None => true end
  | None => false
  end.

(** What the code tests: a sample is not skipped by the mask, and passes the
    filter. *)
Definition wanted (mask : Z) (fp : option (Change_t -> bool)) (kind view : Z) (s : Store) (x : Sample) : bool :=
  match chgs s !! x_cp x with
  | Some c => negb (skipped mask kind view c || filtered fp c)
  | None => false
  end.

Lemma has_bit mask k : 0 <= k -> has mask (2 ^ k) = Z.testbit mask k.
Proof.
  intros Hk. unfold has. destruct (Z.testbit mask k) eqn:E.
  - rewrite negb_true_iff, Z.eqb_neq. intros H. assert (Z.testbit (Z.land mask (2 ^ k)) k = true) as H'.
    { by rewrite Z.land_spec, E, Z.pow2_bits_true. }
    by rewrite H, Z.bits_0 in H'.
  - rewrite negb_false_iff, Z.eqb_eq. apply Z.bits_inj'. intros j Hj. rewrite Z.land_spec, Z.bits_0.
    destruct (decide (j = k)) as [->|Hne]; [by rewrite E|]. by rewrite Z.pow2_bits_false, andb_false_r by lia.
Qed.

Lemma skipped_bits mask kind view c : in_u 2 kind ->
  skipped mask kind view c =
  Z.testbit mask (sample_bit c) || Z.testbit mask (view_bit view) || Z.testbit mask (kind_bit kind).
Proof.
  intros Hk. unfold skipped. destruct (Z.eqb_spec mask 0) as [->|_]; [by rewrite !Z.bits_0|]. cbn [negb andb].
  change SKM_READ with (2 ^ 0). change SKM_NOT_READ with (2 ^ 1). change SKM_NEW_VIEW with (2 ^ 2). change SKM_OLD_VIEW with (2 ^ 3).
  change SKM_ALIVE with (2 ^ 4). change SKM_DISPOSED with (2 ^ 5). change SKM_NO_WRITERS with (2 ^ 6). rewrite !has_bit by done.
  generalize (Z.testbit mask) as b; intros b. unfold sample_bit, view_bit, kind_bit. destruct (c_sstate c =? READ), (view =? NEW); cbn [negb andb orb];
    assert (kind = 0 \/ kind = 1 \/ kind = 2 \/ kind = 3) as [->|[->|[->| ->]]] by (unfold in_u in Hk; lia); cbn;
    repeat match goal with |- context [b ?n] => destruct (b n) end; done.
Qed.

Lemma low_bits mask k : 0 <= mask < 4 -> 2 <= k -> Z.testbit mask k = false.
Proof.
  intros Hm Hk. apply Z.bits_above_log2; [lia|]. destruct (decide (mask = 0)) as [->|]; [simpl; lia|].
  apply Z.lt_le_trans with 2; [|done]. apply Z.log2_lt_pow2; lia.
Qed.

(** The code hands out what is asked for, except that it takes the states of a
    cache with instances from the cache instead of from the instances. *)
Lemma wanted_asked mask fp s x : in_u 2 (hc_kind s) -> multi = false \/ 0 <= mask < 4 ->
  wanted mask fp (hc_kind s) (hc_view s) (st s) x = asked mask fp s x.
Proof.
  intros Hk Hm. unfold wanted, asked. destruct (chgs (st s) !! x_cp x) as [c|]; [|done]. rewrite skipped_bits by done.
  assert (Z.testbit mask (view_bit (hc_view s)) = Z.testbit mask (view_bit (view_of s x)) /\
          Z.testbit mask (kind_bit (hc_kind s)) = Z.testbit mask (kind_bit (kind_of s x))) as [-> ->].
  { destruct Hm as [Hm|Hm]; [unfold view_of, kind_of; by rewrite Hm|].
    split; rewrite !low_bits; try done; unfold view_bit, kind_bit; repeat case_match; lia. }
  unfold filtered. destruct fp as [f|]; repeat match goal with |- context [Z.testbit ?m ?n] => destruct (Z.testbit m n) end; try done.
  by destruct (c_length c =? 0), (f c).
Qed.

(** The first [n] of them, and the others. *)
Fixpoint pick (f : Sample -> bool) (n : nat) (L : list Sample) : list Sample :=
  match L, n with
  | [], _ | _, O => []
  | x :: L', S n' => if f x then x :: pick f n' L' else pick f n L'
  end.
Fixpoint leave (f : Sample -> bool) (n : nat) (L : list Sample) : list Sample :=
  match L, n with
  | [], _ => []
  | _, O => L
  | x :: L', S n' => if f x then leave f n' L' else x :: leave f n L'
  end.

Lemma pick_take f n L : pick f n L = take n (filter (fun x => f x = true) L).
Proof.
  revert n. induction L as [|x L IH]; intros [|n]; try done. simpl pick. destruct (f x) eqn:E.
  - rewrite filter_cons_True by done. simpl. by rewrite IH.
  - rewrite filter_cons_False by congruence. apply IH.
Qed.

Lemma leave_perm f n L : L ≡ₚ pick f n L ++ leave f n L.
Proof.
  revert n. induction L as [|x L IH]; intros [|n]; try done. simpl. destruct (f x); simpl; [by rewrite <- IH|].
  by rewrite <- Permutation_middle, <- IH.
Qed.
Lemma leave_sublist f n L : sublist (leave f n L) L.
Proof. revert n. induction L as [|x L IH]; intros [|n]; try done. simpl. destruct (f x); by constructor. Qed.

Lemma pick_ext f g n L : (forall x, x ∈ L -> f x = g x) -> pick f n L = pick g n L /\ leave f n L = leave g n L.
Proof.
  revert n. induction L as [|x L IH]; intros [|n] H; try done. simpl. rewrite (H x) by left.
  destruct (IH n) as [E1 E2]; [intros; apply H; by right|]. destruct (IH (S n)) as [E3 E4]; [intros; apply H; by right|].
  destruct (g x); by rewrite ?E1, ?E2, ?E3, ?E4.
Qed.

Lemma succ_of_mid a l1 l2 : a ∉ l1 -> succ_of a (l1 ++ a :: l2) = Some (head l2).
Proof.
  induction l1 as [|b l1 IH]; intros Ha; simpl; [by rewrite decide_True|].
  apply not_elem_of_cons in Ha as [? ?]. rewrite decide_False by done. auto.
Qed.

(** ** Handing out *)

(** There is room for [n] more samples in the buffer of the caller. *)
Definition room_for (n : Z) (d : ReaderGet) : Prop := match g_entries d with Some max => zlen (g_out d) + n <= max | None => True end.

Lemma wp_hand_out s cp c dc nc d (Q : option ReaderGet -> HistoryCache_t -> Prop) : chgs (st s) !! cp = Some c -> 0 <= c_nrefs c < MAX_CHANGE_REFS ->
  room_for 1 d ->
  (forall s' c', st s' = set_chgs (<[cp := c']> (chgs (st s))) (st s) -> c_kind c' = c_kind c -> c_handle c' = c_handle c ->
     c_nrefs c' = c_nrefs c + 1 -> c_taken c' = c_taken c -> c_wack c' = c_wack c -> Q (Some (got 1 (g_entries d) cp d)) s') ->
  wp (hand_out None dc nc cp d) Q s.
Proof.
  intros Hc Hn Hr HQ. unfold hand_out. apply wp_bind, wp_getc. apply wp_bind, wp_ret. apply wp_bind. eapply wp_upd_change; [done|]. cbn beta.
  set (c1 := set_c_istate _ _). apply wp_bind. eapply wp_change_ref; [simpl; apply lookup_insert_eq|done|]. simpl. rewrite insert_insert_eq.
  set (c2 := set_c_nrefs (c_nrefs c1 + 1) c1). unfold room_for in Hr. destruct (g_entries d) as [max|].
  - rewrite (proj2 (Z.eqb_neq _ _)) by lia. apply wp_ret. by eapply (HQ _ c2).
  - apply wp_bind. eapply wp_upd_change; [simpl; apply lookup_insert_eq|]. simpl. rewrite insert_insert_eq. apply wp_ret. by eapply (HQ _ (set_c_sstate READ c2)).
Qed.

(** What a read of the samples [R], behind [D], does. *)
Record handed (f : Sample -> bool) (n : nat) (D R : list Sample) (rem : bool) (s s' : Store) : Prop := {
  hd_repr : repr s' (if rem then D ++ leave f n R else D ++ R);
  hd_set : multi = true -> set_ok cf s';
  hd_refs : forall x c, x ∈ pick f n R -> chgs s !! x_cp x = Some c ->
    exists c', chgs s' !! x_cp x = Some c' /\ c_kind c' = c_kind c /\ c_nrefs c' = c_nrefs c + 1 - (if rem then own_refs multi else 0);
  hd_other : forall cp, cp ∉ x_cp <$> R -> chgs s' !! cp = chgs s !! cp
}.

Lemma handed_none f n D R rem s : repr s (D ++ R) -> (multi = true -> set_ok cf s) -> pick f n R = [] -> leave f n R = R -> handed f n D R rem s s.
Proof. intros H Hs E1 E2. split; [rewrite E2; by destruct rem|done|rewrite E1; by intros ? ? ?%elem_of_nil|done]. Qed.

Lemma handed_skip f n D x R rem s s' : f x = false -> x_cp x ∉ x_cp <$> R -> handed f (S n) (D ++ [x]) R rem s s' -> handed f (S n) D (x :: R) rem s s'.
Proof.
  intros Hf Hx [H1 H2 H3 H4]. split.
  - simpl. rewrite Hf. rewrite <- !app_assoc in H1. done.
  - done.
  - simpl. rewrite Hf. intros y c Hy. by apply H3.
  - intros cp [? ?]%not_elem_of_cons. by apply H4.
Qed.

Lemma handed_pick f g n D D' x R (rem : bool) s s1 s' : f x = true -> (forall y, y ∈ R -> g y = f y) -> x_cp x ∉ x_cp <$> R ->
  D' = (if rem then D else D ++ [x]) -> (forall cp, cp <> x_cp x -> chgs s1 !! cp = chgs s !! cp) ->
  (forall c, chgs s !! x_cp x = Some c -> exists c', chgs s1 !! x_cp x = Some c' /\ c_kind c' = c_kind c /\
     c_nrefs c' = c_nrefs c + 1 - (if rem then own_refs multi else 0)) ->
  handed g n D' R rem s1 s' -> handed f (S n) D (x :: R) rem s s'.
Proof.
  intros Hf Hg Hx -> Ho Hc [H1 H2 H3 H4]. destruct (pick_ext g f n R Hg) as [E1 E2]. rewrite E1 in H3. rewrite E2 in H1. split.
  - simpl. rewrite Hf. destruct rem; [done|]. by rewrite <- app_assoc in H1.
  - done.
  - simpl. rewrite Hf. intros y c [->|Hy]%elem_of_cons Hy'.
    + rewrite H4 by done. by apply Hc.
    + apply H3; [done|]. rewrite Ho; [done|]. intros E. apply Hx. rewrite <- E. apply list_elem_of_fmap_2.
      eapply elem_of_sublist; [exact Hy|]. rewrite pick_take. etrans; [apply sublist_take|apply sublist_filter].
  - intros cp [? ?]%not_elem_of_cons. rewrite H4 by done. by apply Ho.
Qed.

Lemma room_got n entries cp d : n <> 0 -> room_for n d -> g_entries d = entries -> room_for (n - 1) (got 1 entries cp d).
Proof. unfold room_for. intros Hn Hr <-. simpl. destruct (g_entries d); [|done]. rewrite zlen_app, zlen_cons, zlen_nil. lia. Qed.

(** After a sample was handed out it is taken, if that is asked for. *)
Lemma wp_take_step {A} s D x R c (k : C A) (Q : A -> HistoryCache_t -> Prop) : repr (st s) (D ++ x :: R) -> (multi = true -> set_ok cf (st s)) ->
  chgs (st s) !! x_cp x = Some c -> own_refs multi < c_nrefs c ->
  (forall s', repr (st s') (D ++ R) -> (multi = true -> set_ok cf (st s')) -> (forall cp, cp <> x_cp x -> chgs (st s') !! cp = chgs (st s) !! cp) ->
     (exists c', chgs (st s') !! x_cp x = Some c' /\ c_kind c' = c_kind c /\ c_nrefs c' = c_nrefs c - own_refs multi) -> wp k Q s') ->
  wp (hc_change_remove HIST None (x_rp x);; upd_change (x_cp x) (set_c_cached false);; s ← getc; whenc (hc_blocked s) hc_unblock;; k) Q s.
Proof.
  intros H Hs Hc Hn HQ. apply wp_bind. eapply wp_take; [exact Hs|exact H|rewrite elem_of_app; right; left|]. intros s1 Rm St.
  destruct (St _ Hc Hn) as (c1 & Hc1 & Ek & En). pose proof (repr_removed _ _ _ _ _ _ _ _ H Rm) as H1.
  assert (Hnew : x_cp x ∉ x_cp <$> D ++ R).
  { pose proof (rp_cps _ _ _ _ _ H) as Hc'. rewrite fmap_app, fmap_cons, <- Permutation_middle in Hc'. rewrite fmap_app. by apply NoDup_cons in Hc' as [? _]. }
  apply wp_bind. eapply wp_upd_change; [done|]. cbn beta. set (s2 := set_st _ s1).
  assert (E2 : st s2 = set_chgs (<[x_cp x := set_c_cached false c1]> (chgs (st s1))) (st s1)) by done. clearbody s2.
  apply wp_bind, wp_getc. apply wp_bind, quiet_when; [apply quiet_bind; [by apply quiet_modc|intros; apply quiet_emit]|]. intros [] s3 E3. rewrite E2 in E3.
  apply HQ; rewrite E3.
  - by eapply repr_put_change.
  - intros Hm. eapply set_ok_same; [apply (Hs Hm)|]. eapply same_insts_trans; [eapply same_keep, keep_removed, Rm|done].
  - intros cp Hcp. simpl. rewrite lookup_insert_ne by done. by apply (rm_chgs _ _ _ _ Rm).
  - simpl. rewrite lookup_insert_eq. by eexists.
Qed.

Lemma wp_get_loop R : forall fuel D s d dc nc view kind (Q : Z * ReaderGet -> HistoryCache_t -> Prop),
  repr (st s) (D ++ R) -> (multi = true -> set_ok cf (st s)) -> (length R < fuel)%nat -> 0 <= g_changes_left d -> room_for (g_changes_left d) d ->
  (forall x c, x ∈ R -> chgs (st s) !! x_cp x = Some c -> c_nrefs c < MAX_CHANGE_REFS) ->
  let f := wanted (g_skipmask d) (g_filter d) kind view (st s) in let n := Z.to_nat (g_changes_left d) in
  (forall s' r d', handed f n D R (g_rem d) (st s) (st s') -> g_out d' = g_out d ++ (x_cp <$> pick f n R) -> Q (r, d') s') ->
  wp (get_loop fuel HIST None dc nc view kind (x_rp <$> head R) d) Q s.
Proof.
  induction R as [|x R IH]; intros fuel D s d dc nc view kind Q H Hs Hf Hl Hr Hrefs f n HQ.
  { destruct fuel as [|fuel]; [simpl in Hf; lia|]. simpl. apply wp_ret, HQ; [by apply handed_none|by rewrite app_nil_r]. }
  destruct fuel as [|fuel]; [simpl in Hf; lia|]. simpl. unfold n in *. clear n. apply wp_if; intros Hz; zbool.
  { apply wp_ret, HQ; rewrite Hz; [by apply handed_none|by rewrite app_nil_r]. }
  assert (Hx : x ∈ D ++ x :: R) by (rewrite elem_of_app; right; left).
  destruct (repr_sample _ _ _ _ _ _ H Hx) as [Hrp _ (c & Hc & [Hk Hn Ht Hw _])].
  pose proof (rp_addrs _ _ _ _ _ H) as [Hnd _]%NoDup_app. pose proof (rp_cps _ _ _ _ _ H) as Hcps.
  assert (HxD : x_rp x ∉ x_rp <$> D).
  { rewrite fmap_app, fmap_cons in Hnd. apply NoDup_app in Hnd as (_ & Hd & _). intros Hin. apply (Hd _ Hin). left. }
  assert (HxR : x_cp x ∉ x_cp <$> R).
  { rewrite fmap_app, fmap_cons in Hcps. apply NoDup_app in Hcps as (_ & _ & Hcps). by apply NoDup_cons in Hcps as [? _]. }
  unfold list_next. apply wp_bind, wp_bind, wp_get_hist. eapply wp_the.
  { rewrite (rp_hist _ _ _ _ _ H), fmap_app, fmap_cons. by apply succ_of_mid. }
  replace (head (x_rp <$> R)) with (x_rp <$> head R) by (by destruct R).
  apply wp_bind. eapply wp_ref; [done|]. cbn [r_change]. apply wp_bind. eapply wp_change; [done|].
  assert (Ef : f x = negb (skipped (g_skipmask d) kind view c || filtered (g_filter d) c)) by (unfold f, wanted; by rewrite Hc).
  assert (En : Z.to_nat (g_changes_left d) = S (Z.to_nat (g_changes_left d - 1))) by lia. rewrite En in HQ.
  assert (Hrefs' : forall y c, y ∈ R -> chgs (st s) !! x_cp y = Some c -> c_nrefs c < MAX_CHANGE_REFS) by (intros y c' Hy; apply Hrefs; by right).
  apply wp_if; intros Hskip; rewrite Hskip in Ef; simpl in Ef.
  { eapply (IH fuel (D ++ [x]) s d); try done; [by rewrite <- app_assoc|simpl in Hf; lia|]. intros s' r d' Hh Ho. rewrite En in Hh, Ho. apply HQ.
    - by apply handed_skip.
    - rewrite Ho. simpl. fold f. by rewrite Ef. }
  apply wp_bind. eapply wp_hand_out; [done| |unfold room_for in *; destruct (g_entries d); [lia|done]|].
  { unfold own_refs in Hn. destruct multi; pose proof (Hrefs x c); unfold MAX_CHANGE_REFS in *; specialize (Hrefs x c); (split; [lia|]); apply Hrefs; (left || done). }
  intros s1 c1 E1 B1 B2 B3 B4 B5. cbn [g_rem got]. set (d1 := got 1 (g_entries d) (x_cp x) d).
  assert (H1 : repr (st s1) (D ++ x :: R)).
  { rewrite E1. eapply repr_put_change; [exact H|exact Hc|done|done|]. intros _. split; [|split; [lia|done]].
    pose proof (Hrefs x c ltac:(left) Hc). lia. }
  assert (Hs1 : multi = true -> set_ok cf (st s1)) by (intros Hm; eapply set_ok_same; [by apply Hs|by rewrite E1]).
  assert (Hc1 : chgs (st s1) !! x_cp x = Some c1) by (rewrite E1; apply lookup_insert_eq).
  assert (Ho1 : forall cp, cp <> x_cp x -> chgs (st s1) !! cp = chgs (st s) !! cp) by (intros cp Hcp; rewrite E1; simpl; by rewrite lookup_insert_ne).
  assert (Hne : forall y, y ∈ R -> x_cp y <> x_cp x) by (intros y Hy E; apply HxR; rewrite <- E; by apply list_elem_of_fmap_2).
  (* what comes after this sample *)
  assert (Hnext : forall s2 D', (forall cp, cp <> x_cp x -> chgs (st s2) !! cp = chgs (st s) !! cp) -> repr (st s2) (D' ++ R) -> (multi = true -> set_ok cf (st s2)) ->
    D' = (if g_rem d then D else D ++ [x]) ->
    (exists c', chgs (st s2) !! x_cp x = Some c' /\ c_kind c' = c_kind c /\ c_nrefs c' = c_nrefs c + 1 - (if g_rem d then own_refs multi else 0)) ->
    wp (get_loop fuel HIST None dc nc view kind (x_rp <$> head R) d1) Q s2).
  { intros s2 D' Ho2 H2 Hs2 ED Hc2. eapply (IH fuel D' s2 d1); [done|done|simpl in Hf; lia|simpl; lia|by apply room_got| |].
    - intros y c' Hy. rewrite Ho2 by auto. by apply Hrefs'.
    - cbn [g_changes_left g_rem d1 got]. intros s' r d' Hh Ho.
      assert (Hg : forall y, y ∈ R -> wanted (g_skipmask d) (g_filter d) kind view (st s2) y = f y) by (intros y Hy; unfold wanted, f; rewrite Ho2 by auto; done).
      apply HQ.
      + eapply (handed_pick f (wanted (g_skipmask d) (g_filter d) kind view (st s2)) _ D D' x R _ _ (st s2)); try done.
        intros c0 Hc0. rewrite Hc in Hc0. by injection Hc0 as <-.
      + rewrite Ho. simpl. fold f. rewrite Ef. destruct (pick_ext _ f (Z.to_nat (g_changes_left d - 1)) R Hg) as [-> _]. by rewrite <- app_assoc. }
  apply wp_if; intros Hrem; rewrite Hrem in Hnext, HQ.
  - eapply (wp_take_step s1 D x R c1); [exact H1|exact Hs1|exact Hc1|lia|]. intros s2 H2 Hs2 Ho2 (c2 & Hc2 & Ek2 & En2).
    apply wp_bind, wp_get_hist. apply wp_if; intros Hemp; zbool.
    + rewrite (rp_n _ _ _ _ _ H2) in Hemp. assert (D = [] /\ R = []) as [-> ->] by (unfold zlen in Hemp; destruct D, R; simpl in Hemp; done || lia).
      apply wp_ret, HQ.
      * eapply (handed_pick f f _ [] [] x [] _ _ (st s2) (st s2)); try done; [intros cp Hcp; rewrite Ho2 by done; by apply Ho1| |].
        -- intros c0 Hc0. rewrite Hc in Hc0. injection Hc0 as <-. exists c2. split; [done|]. split; [congruence|lia].
        -- by apply handed_none; [|done|destruct (Z.to_nat _)..].
      * simpl. fold f. by rewrite Ef.
    + eapply (Hnext s2 D); [intros cp Hcp; rewrite Ho2 by done; by apply Ho1|done|done|done|]. exists c2. split; [done|]. split; [congruence|lia].
  - eapply (Hnext s1 (D ++ [x])); [done|by rewrite <- app_assoc|done|done|]. exists c1. split; [done|]. split; [done|lia].
Qed.

(** [hc_get] on the whole cache. *)
Lemma wp_get_all {A} (k : ReaderGet -> C A) entries n mask fp rem s L (Q : A -> HistoryCache_t -> Prop) :
  multi = false \/ hc_inst_order cf = false -> repr (st s) L -> (multi = true -> set_ok cf (st s)) -> 0 <= n ->
  match entries with Some max => n <= max | None => True end ->
  (forall x c, x ∈ L -> chgs (st s) !! x_cp x = Some c -> c_nrefs c < MAX_CHANGE_REFS) ->
  let f := wanted mask fp (hc_kind s) (hc_view s) (st s) in
  (forall s' d', handed f (Z.to_nat n) [] L rem (st s) (st s') -> g_out d' = x_cp <$> pick f (Z.to_nat n) L -> wp (k d') Q s') ->
  wp (d ← start_get entries n mask fp 0 false rem; d ← get_all cf d; k d) Q s.
Proof.
  intros Hord H Hs Hn Hmax Hrefs f HQ. unfold start_get. apply wp_bind, wp_bind, wp_getc, wp_ret. apply wp_bind. unfold get_all. apply wp_bind, wp_getc. cbn [g_handle].
  replace (multi && _) with false by (destruct Hord as [-> | ->]; [done|by destruct multi]). rewrite (rp_n _ _ _ _ _ H).
  apply wp_if; intros Hz; zbool.
  { assert (L = []) as -> by (unfold zlen in Hz; destruct L; simpl in Hz; done || lia). apply wp_ret, HQ; [by apply handed_none|done]. }
  apply wp_bind. unfold hc_get_list, get_states. apply wp_bind, wp_ret. apply wp_bind. unfold list_head. apply wp_bind, wp_get_hist.
  rewrite (rp_n _ _ _ _ _ H), (proj2 (Z.eqb_neq _ _)) by done. apply wp_ret. apply wp_bind, wp_get_hist. rewrite (rp_hist _ _ _ _ _ H), length_fmap.
  replace (head (x_rp <$> L)) with (x_rp <$> head L) by (by destruct L).
  eapply (wp_get_loop L (S (length L)) []); [done|done|lia|done| |done|].
  - unfold room_for. simpl. by destruct entries.
  - intros s' r d' Hh Ho. apply wp_ret. by apply HQ.
Qed.

End Take.
