(* ===== verification/CacheTheorems.v ===== *)
(** What the history cache guarantees: instances are found by key and by handle
    in both formats of their set, are added, reused and freed without
    disturbing each other, the last samples of an instance are kept and handed
    out in their order, samples leave all lists at once - and where the code
    does not do what it means to. *)

From stdpp Require Import gmap sorting.
From S2P Require Import Prelude Seqnr Cache CacheAdd CacheGet CacheProps CacheInv CacheSet CacheLook CacheKey CacheWriters CacheGrow CacheDepth CacheKeep CacheTake.
From stdpp Require Import list.

#[local] Open Scope Z_scope.

(** ** Running operations *)

Lemma ok_wp {A} (m : C A) s a s' (Q : A -> HistoryCache_t -> Prop) : m s = Ok a s' -> Q a s' -> wp m Q s.
Proof. unfold wp. by intros ->. Qed.

Section Results.
Context (cf : Conf).
#[local] Abbreviation multi := (hc_multi_inst cf).
#[local] Abbreviation repr := (repr (hc_multi_inst cf) (hc_src_time cf) false).




(** C18. [hc_remove_i] removes a sample from the list of the cache and from that
    of its instance, with the counters, and no other sample - unless the cache
    is that of a reliable reader that keeps everything: then it returns
    NO_DATA, removes nothing and marks the cache as blocked.  When the cache
    must wait for acknowledgements, none of the sample may be outstanding. *)
Theorem remove_sample_correct s L1 x L2 rel : repr (st s) (L1 ++ x :: L2) ->
  (hc_must_ack cf = true -> forall c, chgs (st s) !! x_cp x = Some c -> c_wack c = 0) ->
  exists e s', hc_remove_i cf (if multi then Some (x_ip x) else None) (x_cp x) rel s = Ok e s' /\
    (if hc_must_ack cf && negb (hc_writer cf) && rel then e = DDS_RETCODE_NO_DATA /\ st s' = st s /\ hc_blocked s' = true
     else e = DDS_RETCODE_OK /\ repr (st s') (L1 ++ L2) /\ same_insts (st s) (st s')).
Proof.
  intros H Hwa. assert (wp (hc_remove_i cf (inst_of multi x) (x_cp x) rel) (fun e s' =>
    if hc_must_ack cf && negb (hc_writer cf) && rel then e = DDS_RETCODE_NO_DATA /\ st s' = st s /\ hc_blocked s' = true
    else e = DDS_RETCODE_OK /\ repr (st s') (L1 ++ L2) /\ same_insts (st s) (st s')) s) as (e & s' & E & HQ)%wp_run; [|by exists e, s'].
  eapply wp_remove_i; [done|rewrite elem_of_app; right; left|done|..]; unfold keeps_all; intros ->; [done|]. intros s' R. split; [done|]. split.
  - by eapply repr_removed.
  - by eapply same_keep, keep_removed.
Qed.


(** C13. [hc_add] of a sample with data in the cache of a reader with instances
    and a history depth of at least 1, whose samples are kept in the order of
    arrival, which has no monitor and feeds no other cache, holds fewer samples
    than the limit of the cache and, when it waits for acknowledgements, has
    none outstanding.  The new sample comes last, and of its instance the
    oldest samples go until it has no more than the depth of the history -
    that is, the last ones stay; nothing else is lost.  Or nothing changes: the
    sample is dropped when, with exclusive ownership, another writer owns the
    instance, and refused by a reliable reader that keeps everything when the
    instance has reached the depth.  Or, last, memory ran out after room had
    been made. *)
Theorem keep_last_correct fuel s L p i cp c rel : multi = true -> hc_src_time cf = false -> hc_writer cf = false -> hc_readers cf = [] ->
  hc_monitor s = false -> strengths_ok cf -> repr (st s) L -> (hc_must_ack cf = true -> acked (st s) L) ->
  zlen L + 1 < 2 ^ 16 -> zlen L < hc_max_samples cf -> 1 <= hc_max_depth cf ->
  (length (of_inst p L) <= fuel)%nat -> insts (st s) !! p = Some i -> writers_ok cf i ->
  chgs (st s) !! cp = Some c -> cp ∉ x_cp <$> L -> c_kind c = ALIVE -> c_taken c = 0 -> c_nrefs c = 1 -> c_wack c = 0 -> 0 < c_writer c < 2 ^ 16 ->
  c_handle c = i_handle i ->
  exists e s', hc_add cf fuel (Some p) cp rel s = Ok e s' /\
    (e = DDS_RETCODE_OK /\ hc_exclusive cf = true /\ repr (st s') L /\ chgs (st s') !! cp = None /\
       (exists i', insts (st s') !! p = Some i' /\ i_owner i' <> 0 /\ i_owner i' <> c_writer c)
     \/ e = DDS_RETCODE_NO_DATA /\ keeps_all cf rel = true /\ hc_max_depth cf <= zlen (of_inst p L) /\ repr (st s') L
     \/ exists L', sublist L' L /\ others p L' = others p L /\ nalive (of_inst p L') < hc_max_depth cf /\
          (Forall (fun x => x_alive x = true) (of_inst p L) ->
             of_inst p L' = drop (Z.to_nat (zlen (of_inst p L) + 1 - hc_max_depth cf)) (of_inst p L)) /\
          (e = DDS_RETCODE_OUT_OF_RESOURCES /\ ~ plenty s /\ repr (st s') L'
           \/ e = DDS_RETCODE_OK /\ exists x, repr (st s') (L' ++ [x]) /\ x_cp x = cp /\ x_ip x = p /\ x_alive x = true)).
Proof.
  intros Hm Ho Hwr Hrd Hmon Hst H Hack Hroom Hmax Hd Hf Hi Hok Hc Hcp Hk Ht Hn Hwa Hw Hh.
  assert (Hcalm : CacheProps.repr multi (hc_src_time cf) (hc_must_ack cf) (st s) L) by (by apply repr_calm).
  assert (wp (hc_add cf fuel (Some p) cp rel) (fun e s' => added_to cf p cp (c_writer c) L rel (plenty s) (st s') e) s) as (e & s' & E & HA)%wp_run
    by (by eapply wp_add_multi).
  exists e, s'. split; [done|]. set (k := evictions cf (of_inst p L)) in *.
  assert (HL : sublist (evict p k L) L /\ others p (evict p k L) = others p L /\ nalive (of_inst p (evict p k L)) < hc_max_depth cf /\
    (Forall (fun x => x_alive x = true) (of_inst p L) ->
       of_inst p (evict p k L) = drop (Z.to_nat (zlen (of_inst p L) + 1 - hc_max_depth cf)) (of_inst p L))).
  { rewrite evict_of_inst. split_and!; [apply evict_sublist|apply evict_others|by apply evictions_room|].
    intros Hall. unfold k. by rewrite evictions_exact. }
  destruct HA as [i' Hex Hi' Ho1 Ho2 HR Hgone|Hka Hpos HR ?|Hp HR ?|x ? HR ? ? ? ?]; apply repr_calm in HR as [HR _].
  - left. by eauto 10.
  - right; left. split_and!; [done..| |done]. unfold k, evictions in Hpos. pose proof (nalive_le (of_inst p L)).
    destruct (hc_ref_type cf && (hc_max_depth cf <=? zlen (of_inst p L))) eqn:E1; [apply andb_true_iff in E1 as [_ E1]; lia|].
    destruct (Z.leb_spec (hc_max_depth cf) (nalive (of_inst p L))); [lia|]. simpl in Hpos. lia.
  - right; right. exists (evict p k L). split_and!; try apply HL. by left.
  - right; right. exists (evict p k L). split_and!; try apply HL. right. split; [done|]. by exists x.
Qed.


(** ** Where the code fails *)

Lemma remove_other s L x p i rel c : multi = true -> keeps_all cf rel = false -> repr (st s) L -> x ∈ L -> insts (st s) !! p = Some i -> x_ip x <> p ->
  chgs (st s) !! x_cp x = Some c -> c_wack c = 0 -> hc_remove_i cf (Some p) (x_cp x) rel s = Ok DDS_RETCODE_OK s.
Proof.
  intros Hm Ha H Hx Hi Hne Hc Hw.
  assert (wp (hc_remove_i cf (Some p) (x_cp x) rel) (fun e s' => e = DDS_RETCODE_OK /\ s' = s) s) as (e & s' & E & -> & ->)%wp_run; [|done].
  unfold hc_remove_i, remove_i. apply wp_bind. eapply wp_change; [done|]. rewrite Hw. simpl. apply wp_bind.
  eapply (wp_mono _ (fun e s' => e = None /\ s' = s)).
  { unfold keeps_all in Ha. destruct (hc_must_ack cf); [|by apply wp_bind, wp_ret]. simpl in Ha. by rewrite Ha. }
  intros ? ? [-> ->]. apply wp_bind.
  unfold remove_change. apply wp_bind, wp_bind. unfold ccref_remove_change. apply wp_bind. eapply wp_get_ilist; [done|]. apply wp_bind.
  assert (wp (if l_nchanges (i_list i) =? 0 then mret None else find_ref (x_cp x) (l_refs (i_list i))) (fun o s' => o = None /\ s' = s) s) as Hf.
  { apply wp_if; intros _; [done|].
    assert (Hall : forall rp, rp ∈ l_refs (i_list i) -> exists y, y ∈ L /\ x_ip y = p /\ refs (st s) !! rp = Some (mkRef (Some (x_rp y)) (x_cp y))).
    { intros rp Hrp. destruct (repr_inst_of _ _ _ _ _ _ _ _ H Hm Hi Hrp) as (y & Hy & Ey & <-). exists y. split; [done|]. split; [done|].
      destruct (repr_sample _ _ _ _ _ _ H Hy) as [_ Hirp _]. by rewrite Hm in Hirp. }
    apply wp_find_ref; [| |done].
    - intros rp Hrp. destruct (Hall _ Hrp) as (y & _ & _ & E). by eexists.
    - intros rp r Hrp Hr E. destruct (Hall _ Hrp) as (y & Hy & Ey & Er). rewrite Hr in Er. injection Er as ->. simpl in E.
      destruct Hne. rewrite <- Ey. by rewrite (repr_cp_inj _ _ _ _ _ _ _ H Hy Hx E). }
  eapply wp_mono; [exact Hf|]. intros o ? [-> ->]. by repeat apply wp_ret.
Qed.

Lemma add_checked_hangs s L x p i cp c d kind rel fuel : multi = true -> keeps_all cf rel = false -> repr (st s) (x :: L) ->
  insts (st s) !! p = Some i -> x_ip x <> p -> chgs (st s) !! x_cp x = Some d -> c_wack d = 0 -> chgs (st s) !! cp = Some c ->
  hc_max_samples cf <= zlen (x :: L) -> hc_ref_type cf = true \/ c_kind c = ALIVE /\ hc_max_samples cf <= hc_ndata (st s) ->
  add_checked cf fuel (Some p) cp kind rel s = Hang.
Proof.
  intros Hm Ha H Hi Hne Hd Hw Hc Hmax Hfull.
  assert (Hx : x ∈ x :: L) by left. pose proof (remove_other s _ x p i rel d Hm Ha H Hx Hi Hne Hd Hw) as Hrem.
  pose proof (rp_n _ _ _ _ _ H) as Hn. pose proof (rp_hist _ _ _ _ _ H) as Hh. destruct (repr_sample _ _ _ _ _ _ H Hx) as [Hrp _ _].
  assert (Hnz : zlen (x :: L) <> 0) by (rewrite zlen_cons; pose proof (zlen_nonneg L); lia).
  assert (Hfirst : first_change HIST s = Ok (x_cp x) s).
  { unfold first_change, first_ref, ref, get_list, mbind, C_bind, getc, mret, C_ret. rewrite Hn. rewrite (proj2 (Z.eqb_neq _ _)) by done.
    rewrite Hh. simpl. by rewrite Hrp. }
  assert (Hsf : samples_full cf s = Ok true s).
  { unfold samples_full, mbind, C_bind, getc, mret, C_ret. rewrite Hn. by rewrite (proj2 (Z.leb_le _ _)). }
  assert (Hloop : forall f, make_room cf f (Some p) HIST rel (samples_full cf) s = Hang).
  { induction f as [|f IH]; simpl; unfold mbind, C_bind; rewrite Hfirst, Hrem, decide_True, Hsf by done; done. }
  assert (Hch : change cp s = Ok c s) by (unfold change, mbind, C_bind, getc, the; by rewrite Hc).
  assert (Hb : hc_ref_type cf && (hc_max_samples cf <=? l_nchanges (hc_changes (st s))) || (c_kind c =? ALIVE) && (hc_max_samples cf <=? hc_ndata (st s)) = true).
  { rewrite Hn, (proj2 (Z.leb_le _ _)) by done. destruct Hfull as [->|[-> Hle]]; [done|]. rewrite (proj2 (Z.leb_le _ _) Hle). apply orb_true_r. }
  unfold add_checked, mbind, C_bind, getc. rewrite Hch. simpl. rewrite Hb, Hloop. done.
Qed.

Lemma hang_bind {A B} (m : C A) (f : A -> C B) s a s' : m s = Ok a s' -> f a s' = Hang -> (m ≫= f) s = Hang.
Proof. unfold mbind, C_bind. by intros ->. Qed.

(** C40. When a keyed cache with shared ownership, which is not that of a
    reliable reader that keeps everything, is full as a whole, and its oldest
    sample, of which no acknowledgement is outstanding, belongs to another
    instance than a new sample with data, whose instance is below the depth of
    the history, then [hc_add] loops forever: it asks for the removal of that
    oldest sample from the instance of the new one, where it is not, and tries
    again. *)
Theorem full_cache_hangs s L x p i cp c d rel fuel : multi = true -> keeps_all cf rel = false -> hc_exclusive cf = false ->
  repr (st s) (x :: L) -> x_ip x <> p -> chgs (st s) !! x_cp x = Some d -> c_wack d = 0 ->
  insts (st s) !! p = Some i -> writers_ok cf i -> chgs (st s) !! cp = Some c -> c_kind c = ALIVE -> 0 < c_writer c < 2 ^ 16 ->
  zlen (of_inst p (x :: L)) < hc_max_depth cf -> hc_max_samples cf <= zlen (x :: L) ->
  hc_ref_type cf = true \/ hc_max_samples cf <= hc_ndata (st s) ->
  hc_add cf fuel (Some p) cp rel s = Hang.
Proof.
  intros Hm Hka Hex H Hne Hd Hwa Hi Hok Hc Hk Hw Hdepth Hmax Hfull.
  assert (Hst : strengths_ok cf) by (unfold strengths_ok; by rewrite Hex).
  assert (Hinst : forall s1 j, insts (st s1) !! p = Some j -> inst p s1 = Ok j s1) by (intros s1 j Hj; unfold inst, mbind, C_bind, getc, the; by rewrite Hj).
  unfold hc_add. eapply hang_bind; [by apply Hinst|]. unfold hc_add_multi. eapply hang_bind; [by apply Hinst|]. eapply hang_bind; [done|].
  set (i1 := if i_deadlined i then set_i_deadlined false i else i).
  assert (Hi1 : i_list i1 = i_list i /\ i_ndata i1 = i_ndata i /\ i_handle i1 = i_handle i /\ writers_ok cf i1)
    by (unfold i1; destruct (i_deadlined i); [split_and!; try done; by destruct Hok|done]).
  assert (wp (whenc (i_deadlined i) (upd_inst p (set_i_deadlined false);; whenc (hc_dlc_idle s) (emit EvDeadline)))
    (fun _ s' => st s' = put p i1 (st s)) s) as ([] & s1 & E1 & F1)%wp_run.
  { apply wp_whenc; intros E; unfold i1; rewrite E; [|by rewrite put_same]. apply wp_bind. eapply wp_upd_inst; [done|]. by destruct (hc_dlc_idle s). }
  eapply hang_bind; [exact E1|]. clear E1. clearbody i1. destruct Hi1 as (A1 & A2 & A3 & Hok1).
  assert (wp (if hc_writer cf then mret true else check_writers cf p cp) (fun go s' => go = true /\ exists i2, st s' = put p i2 (st s) /\
    i_list i2 = i_list i /\ i_ndata i2 = i_ndata i /\ i_handle i2 = i_handle i) s1) as (go & s2 & E2 & -> & i2 & F2 & B1 & B2 & B3)%wp_run.
  { destruct (hc_writer cf); [apply wp_ret; split; [done|by exists i1]|].
    eapply (wp_check_writers cf Hst s1 p i1 cp c); [rewrite F1; apply put_lookup|by rewrite F1|done|done|].
    intros s2 ws b o F2 _ _. split; [unfold admits; by rewrite Hk, Hex|]. exists (with_writers ws b o i1). split; [|by simpl].
    assert (Hkk : kind_after c ws = c_kind c) by (unfold kind_after; by rewrite Hk).
    rewrite F2, F1, put_twice, Hkk, set_kind_same. simpl. rewrite insert_id by done. by destruct (st s). }
  eapply hang_bind; [exact E2|]. clear E2 F1. cbn [negb].
  assert (Hi2 : insts (st s2) !! p = Some i2) by (rewrite F2; apply put_lookup).
  assert (H2 : repr (st s2) (x :: L)) by (rewrite F2; by eapply repr_put_inst).
  eapply (hang_bind (change cp) _ s2 c s2); [unfold change, mbind, C_bind, getc, the; rewrite F2; simpl; by rewrite Hc|].
  rewrite Hk, Z.eqb_refl, andb_false_r. cbn [andb]. eapply hang_bind; [by apply Hinst|].
  destruct (repr_inst _ _ _ _ _ _ _ H2 Hm Hi2) as [Hr Hn Hnd].
  assert (En : l_nchanges (i_list i2) = zlen (of_inst p (x :: L))) by (rewrite Hn, (follows_len _ _ _ Hr); unfold zlen; by rewrite length_fmap).
  pose proof (nalive_le (of_inst p (x :: L))). rewrite En, Hnd, !(proj2 (Z.leb_gt _ _)), andb_false_r by lia. cbn [orb andb].
  eapply hang_bind; [done|]. rewrite decide_True by done.
  rewrite F2 in H2, Hi2. eapply (add_checked_hangs s2 L x p i2 cp c d); rewrite ?F2; try done. by destruct Hfull; [left|right].
Qed.

(** A sample that arrives out of order, with the order by source timestamp,
    goes to the front of the list, however late it is: the loop that looks for
    its place stops in its first round. *)
Theorem late_sample_first lp cp c q r d l s : list_at lp (st s) = Some l -> good_list l -> l_nchanges l + 1 < 2 ^ 16 ->
  last (l_refs l) = Some q -> q <> next_addr (st s) -> refs (st s) !! q = Some r -> chgs (st s) !! r_change r = Some d ->
  chgs (st s) !! cp = Some c -> 0 <= c_nrefs c < MAX_CHANGE_REFS -> c_time c < c_time d ->
  (forall q', q' ∈ l_refs l -> q' <> next_addr (st s) /\ exists r c', refs (st s) !! q' = Some r /\ chgs (st s) !! r_change r = Some c') ->
  (forall b rest, e_allocs (env s) = b :: rest -> b = true) ->
  exists rp s' l', ccref_add lp cp true s = Ok (Some rp) s' /\ list_at lp (st s') = Some l' /\ l_refs l' = rp :: l_refs l.
Proof.
  intros Hl Hg Hroom Hlast Hq Hr Hd Hc Hn Hlt Hrefs Ha.
  assert (wp (ccref_add lp cp true) (fun o s' => exists rp l', o = Some rp /\ list_at lp (st s') = Some l' /\ l_refs l' = rp :: l_refs l) s)
    as (o & s' & E & rp & l' & -> & H1 & H2)%wp_run; [|by exists rp, s', l'].
  assert (exists s1, alloc s = Ok true s1 /\ st s1 = st s) as (s1 & Es1 & E1).
  { unfold alloc. destruct (e_allocs (env s)) as [|b rest] eqn:E; [by exists s|]. rewrite (Ha b rest) by done. eexists. by split. }
  unfold ccref_add. apply wp_bind. eapply ok_wp; [exact Es1|]. simpl.
  apply wp_bind. unfold new_addr. apply wp_bind, wp_getc. apply wp_bind, wp_modst, wp_ret. rewrite E1. set (rp := next_addr (st s)) in *.
  apply wp_bind, wp_put_ref. apply wp_bind. eapply wp_change_ref; [done|done|].
  set (s2 := set_st _ _). assert (E2 : st s2 = add_ref rp cp c (st s)) by done. clearbody s2.
  assert (Hl2 : list_at lp (st s2) = Some l) by (by rewrite E2, list_at_add_ref).
  apply wp_bind. eapply wp_get_list; [done|]. destruct Hg as (Eg & _ & _). pose proof (zlen_nonneg (l_refs l)).
  rewrite wrap_small by (unfold in_u; lia). cbv zeta.
  assert (Hnz : l_nchanges l <> 0) by (rewrite Eg; destruct (l_refs l); [done|rewrite zlen_cons; pose proof (zlen_nonneg l0); lia]).
  rewrite (proj2 (Z.eqb_neq _ _)) by done.
  assert (Hc2 : chgs (st s2) !! cp = Some (set_c_nrefs (c_nrefs c + 1) c)) by (rewrite E2; simpl; apply lookup_insert_eq).
  assert (Hrefs2 : forall q, q ∈ l_refs l -> exists r c', refs (st s2) !! q = Some r /\ chgs (st s2) !! r_change r = Some c').
  { intros q' Hq'. destruct (Hrefs q' Hq') as (Hne & r' & c' & Hr' & Hc'). rewrite E2. simpl. exists r'.
    destruct (decide (r_change r' = cp)) as [->|]; [exists (set_c_nrefs (c_nrefs c + 1) c)|exists c']; rewrite lookup_insert_ne by done; (split; [done|]).
    - apply lookup_insert_eq.
    - by rewrite lookup_insert_ne. }
  assert (Hd2 : exists d2, chgs (st s2) !! r_change r = Some d2 /\ c_time d2 = c_time d).
  { rewrite E2. simpl. destruct (decide (r_change r = cp)) as [E|]; [|exists d; by rewrite lookup_insert_ne].
    rewrite E in *. rewrite Hc in Hd. injection Hd as <-. lia. }
  destruct Hd2 as (d2 & Hd2 & Ed). simpl. apply wp_bind, wp_bind. unfold last_ref. apply wp_bind. eapply wp_get_list; [done|].
  rewrite (proj2 (Z.eqb_neq _ _)) by done. eapply wp_the; [done|]. apply wp_bind. unfold earlier at 1. apply wp_bind. eapply wp_change; [done|].
  apply wp_bind. eapply wp_ref_change; [rewrite E2; simpl; by rewrite lookup_insert_ne|done|]. apply wp_ret. simpl. rewrite Ed, (proj2 (Z.ltb_lt _ _)) by done.
  apply wp_ret. simpl. apply wp_bind. assert (wp (order_prev (head (l_refs l)) None (earlier cp)) (fun o s' => s' = s2 /\ o = None) s2) as Ho'.
  { destruct (l_refs l) as [|q' rest] eqn:E; simpl; [by apply wp_ret|]. destruct (Hrefs2 q') as (r' & c' & Hr' & Hc'); [left|].
    apply wp_bind. eapply wp_earlier; [done..|]. intros b. by destruct b. }
  eapply wp_mono; [exact Ho'|]. intros o ? [-> ->]. apply wp_bind. eapply wp_put_list; [done|]. apply wp_ret.
  exists rp, (mkList (rp :: l_refs l) (l_time l) (l_nchanges l + 1)). split; [done|]. split; [|done]. destruct lp as [|ip]; [done|].
  simpl in Hl2. simpl. destruct (insts (st s2) !! ip) as [i|] eqn:Hi; [|done]. simpl. by rewrite lookup_insert_eq.
Qed.

(** Reading from an instance that has no samples left, in the skiplist
    format, takes the time at which it became empty for the address of its
    first sample. *)
Theorem get_empty_instance_faults maximum n mask fp h rem s p i : multi = true -> hc_skiplists (hc_set (st s)) = true -> in_u 16 h -> h <> 0 ->
  sl_search handle_cmp h (hc_handles (hc_set (st s))) = Some p -> insts (st s) !! p = Some i -> l_nchanges (i_list i) = 0 -> l_time (i_list i) <> 0 ->
  hc_get cf maximum n mask fp h false rem s = Fault.
Proof.
  intros Hm Hs Hu Hh Hp Hi Hn Ht.
  assert (Ei : inst p s = Ok i s) by (unfold inst, mbind, C_bind, getc, the; by rewrite Hi).
  assert (Eh : hc_get_instance_handle h s = Ok (Some p) s).
  { unfold hc_get_instance_handle, mbind, C_bind, getc. rewrite Hs. simpl. by rewrite wrap_small, Hp by done. }
  assert (Ef : list_head (INST p) s = Fault).
  { unfold list_head, get_list, mbind, C_bind. rewrite Ei. simpl. by rewrite Hn, (proj2 (Z.eqb_neq _ _) Ht). }
  assert (El : forall d, hc_get_list (INST p) (Some p) d s = Fault).
  { intros d. unfold hc_get_list, get_states, mbind, C_bind. rewrite Ei. simpl. by rewrite Ef. }
  unfold hc_get, start_get, get_all, mbind, C_bind, getc. simpl. rewrite Hm, (proj2 (Z.eqb_neq _ _) Hh), Hs. simpl. rewrite orb_true_r. simpl.
  by rewrite Eh, El.
Qed.

(** C38. Two instances with long keys of the same hash share a chain; when the
    last one of it is freed, the whole chain goes, and no key of that hash is
    found any more, though the others are still in the list of handles. *)
Theorem free_drops_chain s h p i chain q j : hc_skiplists (hc_set (st s)) = true -> in_u 16 h ->
  sl_ok hash_cmp (fun h => length h = 16%nat) (hc_hashes (hc_set (st s))) -> sl_ok handle_cmp (in_u 16) (hc_handles (hc_set (st s))) ->
  sl_search handle_cmp h (hc_handles (hc_set (st s))) = Some p -> insts (st s) !! p = Some i -> length (i_hash i) = 16%nat ->
  sl_search hash_cmp (i_hash i) (hc_hashes (hc_set (st s))) = Some (chain ++ [p]) ->
  q ∈ chain -> insts (st s) !! q = Some j -> (i_handle j, q) ∈ hc_handles (hc_set (st s)) -> i_handle j <> h ->
  exists s', unlink_instance cf h s = Ok (Some p) s' /\ sl_search hash_cmp (i_hash i) (hc_hashes (hc_set (st s'))) = None /\
    (i_handle j, q) ∈ hc_handles (hc_set (st s')) /\ insts (st s') !! q = Some j.
Proof.
  intros Hs Hh Ho Hl Hp Hi Hlen Hch Hq Hj Hqh Hne.
  apply (sl_search_spec _ _ hash_total) in Hch as Hin; [|done..].
  destruct (sl_delete_spec _ _ hash_total _ _ _ Ho Hlen Hin) as [P1 S1].
  apply (sl_search_spec _ _ handle_total) in Hp as Hin'; [|done..].
  destruct (sl_delete_spec _ _ handle_total _ _ _ Hl Hh Hin') as [P2 S2].
  set (t := mkSet true [] (sl_delete hash_cmp (i_hash i) (hc_hashes (hc_set (st s)))) (sl_delete handle_cmp h (hc_handles (hc_set (st s))))).
  assert (wp (unlink_instance cf h) (fun o s' => o = Some p /\ hc_set (st s') = t /\ insts (st s') = insts (st s)) s) as (o & s' & E & -> & Et & Ei)%wp_run.
  { unfold unlink_instance. apply wp_bind, wp_getc. rewrite Hs. simpl. rewrite wrap_small, Hp by done. apply wp_bind, wp_modst. simpl.
    apply wp_bind. eapply wp_inst; [done|]. simpl. rewrite Hch. rewrite last_snoc, bool_decide_true, orb_true_r by done. apply wp_bind, wp_modst. by apply wp_ret. }
  exists s'. split; [done|]. rewrite Et, Ei. simpl. split; [|split; [|done]].
  - apply (sl_search_none _ _ hash_total); [done..|]. pose proof (sl_ok_nodup _ _ hash_total _ Ho) as Hn. rewrite P1 in Hn. simpl in Hn.
    by apply NoDup_cons in Hn as [? _].
  - rewrite P2 in Hqh. apply elem_of_cons in Hqh as [[= ? ?]|]; done.
Qed.

End Results.

(** ** A cache to try the theorems on *)

(** Keys of four bytes. *)
Definition hash4 (k : list Z) : option (list Z) := if decide (length k = 4%nat) then Some (k ++ replicate 12 0) else None.

Definition demo_conf (writer must_ack src_time exclusive : bool) (max_samples : Z) : Conf :=
  mkConf true writer true src_time false false must_ack exclusive false false false false false false false 4 1 16 max_samples [] false (fun _ => None) hash4.

Definition demo_sample (handle time refs : Z) : Change_t := mkChg refs 0 0 false ALIVE (2 <=? refs) NOT_READ 0 0 7 handle time 8 1 (0, 0, 0).

(** Two instances; the first one has a sample, and there is a new sample for
    the second one. *)
Definition demo_inst (h : Z) (key : list Z) (l : CCLIST) (n : Z) : INSTANCE :=
  mkInst l h (key ++ replicate 12 0) None 0 [] None n ALIVE NEW false false false false false 0 0 [].
Definition demo_inst0 : INSTANCE := demo_inst 1 [1; 2; 3; 4] (mkList [2%nat] 0 1) 1.
Definition demo_inst5 : INSTANCE := demo_inst 2 [5; 6; 7; 8] (mkList [] 0 0) 0.
Definition demo_store : Store :=
  mkStore (mkList [1%nat] 0 1) 1 (mkSet false [0%nat; 5%nat] [] []) 2
    (<[3%nat := demo_sample 1 5 2]> (<[6%nat := demo_sample 2 9 1]> ∅))
    (<[1%nat := mkRef (Some 2%nat) 3]> (<[2%nat := mkRef (Some 1%nat) 3]> ∅))
    (<[0%nat := demo_inst0]> (<[5%nat := demo_inst5]> ∅)) 7.
Definition demo (st : Store) : HistoryCache_t :=
  mkHC st 0 (mkSnr 0 0) ALIVE NEW 0 0 2 false false false false false true true true true 0 [] (mkEnv [] [] [] []).
Definition demo_x : Sample := mkSample 1 2 3 0 true.


Lemma demo_inst_cases (P : nat -> INSTANCE -> Prop) : P 0%nat demo_inst0 -> P 5%nat demo_inst5 -> forall p i, insts demo_store !! p = Some i -> P p i.
Proof. intros H0 H5 p i. unfold demo_store. cbn [insts]. intros [[<- <-]|[_ [[<- <-]|[_ Hi]]%lookup_insert_Some]]%lookup_insert_Some; done. Qed.


Lemma demo_repr t m : repr true t m demo_store [demo_x].
Proof.
  split; simpl; try done.
  - apply (bool_decide_unpack _). by vm_compute.
  - apply (bool_decide_unpack _). by vm_compute.
  - constructor; [|constructor]. split; [done..|]. eexists. split; [done|]. split; try done.
    + by destruct m.
    + by exists demo_inst0.
  - apply demo_inst_cases; split; try done; simpl; unfold follows; by destruct t.
  - split_and!; intros a; rewrite !dom_insert, dom_empty, !elem_of_union, !elem_of_singleton, elem_of_empty; lia.
Qed.






Lemma remove_sample_correct_witness : exists s', hc_remove_i (demo_conf false false false false 9) (Some 0%nat) 3 true (demo demo_store) = Ok DDS_RETCODE_OK s'.
Proof.
  destruct (remove_sample_correct (demo_conf false false false false 9) (demo demo_store) [] demo_x [] true) as (e & s' & E & -> & _).
  - apply demo_repr.
  - done.
  - by exists s'.
Defined.


(** A second sample for the first instance, in a cache of depth 1. *)
Definition second_store : Store := set_chgs (<[6%nat := demo_sample 1 9 1]> (chgs demo_store)) demo_store.

Lemma second_repr t m : repr true t m second_store [demo_x].
Proof.
  eapply repr_tweaked; [apply demo_repr|]. split; try done.
  - intros x c ->%list_elem_of_singleton Hc [_ Hn Ht Hw _]. by exists c.
  - intros cp. unfold second_store. cbn [chgs set_chgs]. rewrite dom_insert_lookup; [by left|]. by eexists.
  - intros ip i Hi. left. by exists i.
  - intros x i _ Hi. by exists i.
Qed.

Lemma keep_last_correct_witness : exists s' x, hc_add (demo_conf false false false false 9) 5 (Some 0%nat) 6 true (demo second_store) = Ok DDS_RETCODE_OK s' /\
  repr true false false (st s') [x] /\ x_cp x = 6%nat.
Proof.
  destruct (keep_last_correct (demo_conf false false false false 9) 5 (demo second_store) [demo_x] 0 demo_inst0 6 (demo_sample 1 9 1) true)
    as (e & s' & E & [(_ & Hex & _)|[(_ & Hk & _)|(L' & _ & Ho & _ & Hd & [(_ & Hp & _)|(-> & x & H & Hx & _)])]]).
  - done.
  - done.
  - done.
  - done.
  - done.
  - intros _ h e. done.
  - apply second_repr.
  - done.
  - done.
  - done.
  - done.
  - simpl. lia.
  - done.
  - split; simpl; [apply handles_none|done|done].
  - done.
  - simpl. rewrite list_elem_of_singleton. done.
  - done.
  - done.
  - done.
  - done.
  - done.
  - done.
  - done.
  - done.
  - destruct Hp. constructor.
  - exists s', x. split; [done|]. split; [|done]. assert (L' = []) as ->; [|done].
    assert (of_inst 0 L' = []) as E1 by (by rewrite Hd by repeat constructor). by rewrite (others_all _ _ E1) in Ho.
Defined.


Definition deep_conf : Conf :=
  mkConf true false true false false false false false false false false false false false false 4 3 16 1 [] false (fun _ => None) hash4.

Lemma full_cache_hangs_witness : hc_add deep_conf 1000 (Some 5%nat) 6 true (demo demo_store) = Hang.
Proof.
  apply (full_cache_hangs deep_conf (demo demo_store) [] demo_x 5 demo_inst5 6 (demo_sample 2 9 1) (demo_sample 1 5 2)).
  - done.
  - done.
  - done.
  - apply demo_repr.
  - done.
  - done.
  - done.
  - done.
  - split; simpl; [apply handles_none|done|done].
  - done.
  - done.
  - done.
  - done.
  - done.
  - by right.
Defined.

(** A sample with time 3 comes after one with time 5. *)
Definition late_store : Store := set_chgs (<[6%nat := demo_sample 1 3 1]> (chgs demo_store)) demo_store.
Lemma late_sample_first_witness : exists rp s' l', ccref_add HIST 6 true (demo late_store) = Ok (Some rp) s' /\ list_at HIST (st s') = Some l' /\ l_refs l' = [rp; 1%nat].
Proof.
  apply (late_sample_first HIST 6 (demo_sample 1 3 1) 1 (mkRef (Some 2%nat) 3) (demo_sample 1 5 2) (mkList [1%nat] 0 1) (demo late_store)).
  - done.
  - split; [done|]. split; [done|]. apply NoDup_singleton.
  - done.
  - done.
  - done.
  - done.
  - done.
  - done.
  - done.
  - done.
  - intros q ->%list_elem_of_singleton. split; [done|]. by eexists _, _.
  - done.
Defined.

(** An instance that became empty at time 7. *)
Definition empty_store : Store :=
  mkStore (mkList [] 7 0) 0 (mkSet true [] [(demo_inst0.(i_hash), [0%nat])] [(1, 0%nat)]) 1 ∅ ∅
    (<[0%nat := demo_inst 1 [1; 2; 3; 4] (mkList [] 7 0) 0]> ∅) 1.
Lemma get_empty_instance_faults_witness : hc_get (demo_conf false false false false 9) 4 4 0 None 1 false true (demo empty_store) = Fault.
Proof.
  apply (get_empty_instance_faults (demo_conf false false false false 9) 4 4 0 None 1 true (demo empty_store) 0 (demo_inst 1 [1; 2; 3; 4] (mkList [] 7 0) 0)); done.
Defined.

(** Two instances in the chain of one hash. *)
Definition chain_hash : list Z := replicate 16 3.
Definition chain_inst (h : Z) (key : list Z) : INSTANCE := mkInst (mkList [] 0 0) h chain_hash (Some key) 0 [] None 0 ALIVE NEW false false false false false 0 0 [].
Definition long_conf : Conf :=
  mkConf true false true false false false false false false false false false false false false 20 1 16 9 [] false (fun _ => None) (fun _ => Some chain_hash).
Definition chain_store : Store :=
  mkStore (mkList [] 0 0) 0 (mkSet true [] [(chain_hash, [1%nat; 0%nat])] [(1, 0%nat); (2, 1%nat)]) 2 ∅ ∅
    (<[0%nat := chain_inst 1 (replicate 20 1)]> (<[1%nat := chain_inst 2 (replicate 20 2)]> ∅)) 2.
Lemma free_drops_chain_witness : exists s', unlink_instance long_conf 1 (demo chain_store) = Ok (Some 0%nat) s'.
Proof.
  destruct (free_drops_chain long_conf (demo chain_store) 1 0 (chain_inst 1 (replicate 20 1)) [1%nat] 1 (chain_inst 2 (replicate 20 2))) as (s' & E & _).
  - done.
  - done.
  - split; repeat constructor.
  - split; [|by repeat constructor]. repeat constructor.
  - done.
  - done.
  - done.
  - done.
  - by left.
  - done.
  - simpl. right. left.
  - done.
  - by exists s'.
Defined.
