(* ===== verification/Clist.v ===== *)
(** Lists of changes (rtps/rtps_clist.c, rtps/rtps_priv.h, rtps/rtps_check.c):
    the nodes by which a proxy remembers which sequence numbers it has
    received and which are missing.

    A [CCLIST], a circular list through its nodes, is the list of its nodes;
    [nchanges] is its length.  Sequence numbers are the integers they stand for: the code's pairs of an
    int32 and a uint32 wrap at 2^63, which is not modelled; for smaller numbers
    the lemmas of [Seqnr] show that the operations agree.
    What [mds_pool_alloc] answers is a list of booleans, and an
    allocation beyond the list succeeds. *)

From S2P Require Import Prelude.
From stdpp Require Import list.

#[local] Open Scope Z_scope.

Inductive ChangeState_t :=
| CS_NEW | CS_REQUESTED | CS_UNSENT | CS_UNDERWAY | CS_UNACKED | CS_ACKED | CS_MISSING | CS_RECEIVED | CS_LOST.

#[export] Instance ChangeState_eq_dec : EqDecision ChangeState_t.
Proof. solve_decision. Defined.

(** A change: its sequence number and its sample. *)
Record Change_t := mkChange { c_seqnr : Z; c_data : nat }.

(** The union of a node: the change, or a range of sequence numbers. *)
Inductive CCREF_u :=
| UChange (change : Change_t)
| URange (first last : Z).

Record CCREF := mkRef { state : ChangeState_t; u : CCREF_u }.

Definition relevant (rp : CCREF) : bool := match u rp with UChange _ => true | URange _ _ => false end.

(** The first and the last sequence number of a node. *)
Definition ref_first (rp : CCREF) : Z := match u rp with UChange cp => c_seqnr cp | URange first _ => first end.
Definition ref_last (rp : CCREF) : Z := match u rp with UChange cp => c_seqnr cp | URange _ last => last end.

Definition alloc (al : list bool) : bool * list bool := match al with [] => (true, []) | b :: al => (b, al) end.

(** [LIST_ADD_TAIL] or [LIST_ADD_HEAD] *)
Definition list_add (tail : bool) (rp : CCREF) (l : list CCREF) : list CCREF := if tail then l ++ [rp] else rp :: l.

(** [ccref_add_received]: a change that others use is cloned.  [None] when
    there is no memory. *)
Definition ccref_add_received (shared clone_ok : bool) (l : list CCREF) (cp : Change_t) (cpsnr : Z) (tail : bool)
  (al : list bool) : option (list CCREF) * list bool :=
  if shared && negb clone_ok then (None, al)
  else
    let '(ok, al) := alloc al in
    (if ok then Some (list_add tail (mkRef CS_RECEIVED (UChange (mkChange cpsnr (c_data cp)))) l) else None, al).

(** [ccref_add_gap]: a range at the end of the list with the same state is
    extended. *)
Definition ccref_add_gap (l : list CCREF) (first last : Z) (tail : bool) (st : ChangeState_t) (al : list bool)
  : option (list CCREF) * list bool :=
  let new := let '(ok, al) := alloc al in
             (if ok then Some (list_add tail (mkRef st (URange first last)) l) else None, al) in
  if tail then
    match list.last l with
    | Some (mkRef xst (URange xfirst _)) =>
        if decide (xst = st) then (Some (removelast l ++ [mkRef xst (URange xfirst last)]), al) else new
    | _ => new
    end
  else
    match l with
    | mkRef xst (URange _ xlast) :: l' =>
        if decide (xst = st) then (Some (mkRef xst (URange first xlast) :: l'), al) else new
    | _ => new
    end.

(** [ccref_insert_gap]: the node that is to be inserted, behind a position of
    the list that the caller knows. *)
Definition ccref_insert_gap (first last : Z) (st : ChangeState_t) (al : list bool) : option CCREF * list bool :=
  let '(ok, al) := alloc al in (if ok then Some (mkRef st (URange first last)) else None, al).

(** [rtps_range_check], the consistency check of the debug build: the nodes
    follow each other without holes and no range is empty. *)
Fixpoint range_check_from (prev : option Z) (l : list CCREF) : bool :=
  match l with
  | [] => true
  | rp :: l =>
      negb (ref_first rp =? 0) && negb (ref_last rp =? 0) && (ref_first rp <=? ref_last rp) &&
      match prev with None => true | Some p => (p <? ref_first rp) && (p + 1 =? ref_first rp) end &&
      range_check_from (Some (ref_last rp)) l
  end.

Definition rtps_range_check (l : list CCREF) : bool := range_check_from None l.
