(* ===== verification/Sfrr.v ===== *)
(** The reliable stateful reader (rtps/rtps_sfrr.c): the proxy that a reader
    keeps for a remote writer, and what it does with the DATA, GAP and
    HEARTBEAT messages of the writer.

    A handler is a function on the proxy; what it hands to the history cache,
    reports as lost and answers to the writer is appended to [delivered],
    [lost] and [acks].  The answers of the parts around it are arguments
    ([Answers]): whether the cache accepts another sample, whether it is full
    when a sample is added, whether memory is available.  Fragments of samples
    (DATAFRAG) are not modelled, so that [fragments] is NULL everywhere.
    Sequence numbers are the integers they stand for: the code's pairs of an
    int32 and a uint32 wrap at 2^63, which is not modelled; for smaller numbers
    the lemmas of [Seqnr] show that the operations agree.
    [None] is the use of the wrong member of a union. *)

From S2P Require Import Prelude Seqnr Clist.
From stdpp Require Import list.

#[local] Open Scope Z_scope.

Inductive RWAState_t := RWAS_WAITING | RWAS_MAY_ACK | RWAS_MUST_ACK.

(** An ACKNACK message: base, number of bits, bitmap. *)
Record AckNack := mkAck { ack_base : Z; ack_bits : Z; ack_map : list Z }.

(** [RemWriter_t], with the [data_queued] counter of its reader. *)
Record RemWriter_t := mkRW {
  rw_changes : list CCREF;
  rw_seqnr_next : Z;
  rw_blocked : bool;
  rw_heartbeats : bool;
  rw_last_hb : Z;
  rw_hb_no_data : Z;
  rw_astate : RWAState_t;
  rw_peer_alive : bool;
  rw_hbrsp_timer : bool;
  data_queued : Z;
  delivered : list Change_t;
  lost : Z;
  acks : list AckNack
}.

Definition set_changes (l : list CCREF) (r : RemWriter_t) : RemWriter_t :=
  mkRW l (rw_seqnr_next r) (rw_blocked r) (rw_heartbeats r) (rw_last_hb r) (rw_hb_no_data r) (rw_astate r)
    (rw_peer_alive r) (rw_hbrsp_timer r) (data_queued r) (delivered r) (lost r) (acks r).
Definition set_seqnr_next (n : Z) (r : RemWriter_t) : RemWriter_t :=
  mkRW (rw_changes r) n (rw_blocked r) (rw_heartbeats r) (rw_last_hb r) (rw_hb_no_data r) (rw_astate r)
    (rw_peer_alive r) (rw_hbrsp_timer r) (data_queued r) (delivered r) (lost r) (acks r).
Definition set_blocked (b : bool) (r : RemWriter_t) : RemWriter_t :=
  mkRW (rw_changes r) (rw_seqnr_next r) b (rw_heartbeats r) (rw_last_hb r) (rw_hb_no_data r) (rw_astate r)
    (rw_peer_alive r) (rw_hbrsp_timer r) (data_queued r) (delivered r) (lost r) (acks r).
Definition set_alive (no_data : Z) (r : RemWriter_t) : RemWriter_t :=
  mkRW (rw_changes r) (rw_seqnr_next r) (rw_blocked r) (rw_heartbeats r) (rw_last_hb r) no_data (rw_astate r)
    true (if rw_peer_alive r then rw_hbrsp_timer r else false) (data_queued r) (delivered r) (lost r) (acks r).
Definition set_hb (hbs : bool) (count no_data : Z) (r : RemWriter_t) : RemWriter_t :=
  mkRW (rw_changes r) (rw_seqnr_next r) (rw_blocked r) hbs count no_data (rw_astate r)
    (rw_peer_alive r) (rw_hbrsp_timer r) (data_queued r) (delivered r) (lost r) (acks r).
Definition set_astate (a : RWAState_t) (timer : bool) (r : RemWriter_t) : RemWriter_t :=
  mkRW (rw_changes r) (rw_seqnr_next r) (rw_blocked r) (rw_heartbeats r) (rw_last_hb r) (rw_hb_no_data r) a
    (rw_peer_alive r) timer (data_queued r) (delivered r) (lost r) (acks r).
Definition queue (d : Z) (r : RemWriter_t) : RemWriter_t :=
  mkRW (rw_changes r) (rw_seqnr_next r) (rw_blocked r) (rw_heartbeats r) (rw_last_hb r) (rw_hb_no_data r) (rw_astate r)
    (rw_peer_alive r) (rw_hbrsp_timer r) ⟦data_queued r + d⟧32 (delivered r) (lost r) (acks r).
Definition deliver (cp : Change_t) (r : RemWriter_t) : RemWriter_t :=
  mkRW (rw_changes r) (rw_seqnr_next r) (rw_blocked r) (rw_heartbeats r) (rw_last_hb r) (rw_hb_no_data r) (rw_astate r)
    (rw_peer_alive r) (rw_hbrsp_timer r) (data_queued r) (delivered r ++ [cp]) (lost r) (acks r).
Definition samples_lost (n : Z) (r : RemWriter_t) : RemWriter_t :=
  mkRW (rw_changes r) (rw_seqnr_next r) (rw_blocked r) (rw_heartbeats r) (rw_last_hb r) (rw_hb_no_data r) (rw_astate r)
    (rw_peer_alive r) (rw_hbrsp_timer r) (data_queued r) (delivered r) (lost r + n) (acks r).
Definition send_acknack (a : AckNack) (r : RemWriter_t) : RemWriter_t :=
  mkRW (rw_changes r) (rw_seqnr_next r) (rw_blocked r) (rw_heartbeats r) (rw_last_hb r) (rw_hb_no_data r) (rw_astate r)
    (rw_peer_alive r) (rw_hbrsp_timer r) (data_queued r) (delivered r) (lost r) (acks r ++ [a]).

(** What the parts around the proxy answer to one message: whether the cache
    has room for the sample ([hc_lookup_hash], [hc_accepts]), whether it is
    full when samples are added to it ([reader_cache_add_inst]), whether the
    change has other users and can be cloned, whether nodes and a timer can be
    allocated, and what the bitmap holds before it is filled. *)
Record Answers := mkAns {
  accepts : bool;
  full : list bool;
  shared : bool;
  clone_ok : bool;
  allocs : list bool;
  timer_ok : bool;
  junk : list Z
}.

Section Reader.
  (** [cache_acks]: samples are acknowledged by the cache;
      [heartbeat_resp_delay]: ACKNACKs are delayed. *)
  Context (cache_acks heartbeat_resp_delay : bool).

(** ** Delivery *)

Definition processable (rp : CCREF) : bool := bool_decide (state rp = CS_LOST) || bool_decide (state rp = CS_RECEIVED).

(** The loop of [sfr_process_samples] over the list [l]. *)
Fixpoint process_loop (l : list CCREF) (fl : list bool) (r : RemWriter_t) : RemWriter_t :=
  match l with
  | [] => set_changes [] r
  | rp :: l' =>
      if negb (processable rp) then set_changes l r
      else if negb (ref_first rp =? rw_seqnr_next r) then set_changes l r
      else match u rp with
           | UChange cp =>
               if bool_decide (state rp = CS_RECEIVED) then
                 let '(is_full, fl) := match fl with [] => (false, []) | b :: fl => (b, fl) end in
                 if is_full then set_changes l (set_blocked true r)
                 else process_loop l' fl (set_seqnr_next (c_seqnr cp + 1) (queue (-1) (deliver cp r)))
               else process_loop l' fl (set_seqnr_next (c_seqnr cp + 1) (queue (-1) r))
           | URange _ last => process_loop l' fl (set_seqnr_next (last + 1) r)
           end
  end.

Definition sfr_process_samples (fl : list bool) (r : RemWriter_t) : RemWriter_t := process_loop (rw_changes r) fl r.

(** ** DATA *)

(** The node of the list that covers a sequence number, with the nodes before
    and behind it. *)
Fixpoint find_ref (snr : Z) (l : list CCREF) : option (list CCREF * CCREF * list CCREF) :=
  match l with
  | [] => None
  | rp :: l =>
      if match u rp with
         | UChange cp => c_seqnr cp =? snr
         | URange first last => negb (snr <? first) && negb (last <? snr)
         end
      then Some ([], rp, l)
      else '(l1, x, l2) ← find_ref snr l; Some (rp :: l1, x, l2)
  end.

(** Appending or prepending the node of a sample, or of an ignored one. *)
Definition add_sample (cp : Change_t) (ignore tail : bool) (ans : Answers) (l : list CCREF) (al : list bool)
  : option (list CCREF) * list bool :=
  if ignore then ccref_add_gap l (c_seqnr cp) (c_seqnr cp) tail CS_RECEIVED al
  else ccref_add_received (shared ans) (clone_ok ans) l cp (c_seqnr cp) tail al.

(** The numbers from [first] to [last] behind the list are missing: a missing
    range at its end is extended. *)
Definition missing_after (l : list CCREF) (first last : Z) (al : list bool) : option (list CCREF) * list bool :=
  match list.last l with
  | Some (mkRef CS_MISSING (URange tfirst _)) =>
      (Some (removelast l ++ [mkRef CS_MISSING (URange tfirst last)]), al)
  | _ => ccref_add_gap l first last true CS_MISSING al
  end.

(** A sample behind the list: the numbers in between are missing. *)
Definition data_after (cp : Change_t) (ignore : bool) (ans : Answers) (l : list CCREF) (seqnr_last : Z)
  : list CCREF * bool :=
  let gap_first := seqnr_last + 1 in
  let '(ol, al) :=
    if negb (gap_first =? c_seqnr cp) then
      missing_after l gap_first (c_seqnr cp - 1) (allocs ans)
    else (Some l, allocs ans) in
  match ol with
  | None => (l, false)
  | Some l => match fst (add_sample cp ignore true ans l al) with
              | None => (l, false)
              | Some l => (l, true)
              end
  end.

(** The numbers from [first] to [last] in front of the list are missing.  The
    state of the last node decides whether a range at its head is extended. *)
Definition data_missing_before (l : list CCREF) (first last : Z) (al : list bool) : option (list CCREF) * list bool :=
  let tail_missing := match list.last l with Some rp => bool_decide (state rp = CS_MISSING) | None => false end in
  match l with
  | mkRef st (URange _ hlast) :: l' =>
      if tail_missing then (Some (mkRef st (URange first hlast) :: l'), al)
      else ccref_add_gap l first last false CS_MISSING al
  | _ => ccref_add_gap l first last false CS_MISSING al
  end.

(** A sample in front of the list. *)
Definition data_before (cp : Change_t) (ignore : bool) (ans : Answers) (l : list CCREF) (seqnr_first : Z)
  : list CCREF * bool :=
  let gap_last := seqnr_first - 1 in
  let '(ol, al) :=
    if negb (gap_last =? c_seqnr cp) then
      data_missing_before l (c_seqnr cp + 1) gap_last (allocs ans)
    else (Some l, allocs ans) in
  match ol with
  | None => (l, false)
  | Some l => match fst (add_sample cp ignore false ans l al) with
              | None => (l, false)
              | Some l => (l, true)
              end
  end.

(** A sample whose number the list covers: the missing range is split around
    it.  The outcome says whether the end of the branch is reached, and
    whether [data_queued] was incremented on the way. *)
Definition data_inside (cp : Change_t) (ignore : bool) (ans : Answers) (l : list CCREF)
  : option (list CCREF * bool * bool) :=
  match find_ref (c_seqnr cp) l with
  | None => Some (l, false, false)
  | Some (l1, rp, l2) =>
      if negb (bool_decide (state rp = CS_MISSING)) then Some (l, false, false)
      else
        match u rp with
        | UChange _ => None
        | URange first last =>
            let '(g1, al) :=
              if first <? c_seqnr cp then
                let '(g, al) := ccref_insert_gap first (c_seqnr cp - 1) CS_MISSING (allocs ans) in
                ((fun g => [g]) <$> g, al)
              else (Some [], allocs ans) in
            match g1 with
            | None => Some (l, false, false)
            | Some g1 =>
                let '(g2, al) :=
                  if c_seqnr cp <? last then
                    let '(g, al) := ccref_insert_gap (c_seqnr cp + 1) last CS_MISSING al in
                    ((fun g => [g]) <$> g, al)
                  else (Some [], al) in
                match g2 with
                | None => Some (l1 ++ g1 ++ rp :: l2, false, false)
                | Some g2 =>
                    if ignore then
                      Some (l1 ++ g1 ++ mkRef CS_RECEIVED (URange (c_seqnr cp) (c_seqnr cp)) :: g2 ++ l2, true, false)
                    else if shared ans && negb (clone_ok ans) then Some (l1 ++ g1 ++ rp :: g2 ++ l2, false, false)
                    else Some (l1 ++ g1 ++ mkRef CS_RECEIVED (UChange cp) :: g2 ++ l2, true, true)
                end
            end
        end
  end.

(** A sample for a proxy that has samples queued. *)
Definition data_queue (cp : Change_t) (ignore : bool) (ans : Answers) (r : RemWriter_t) (l : list CCREF)
  (seqnr_first seqnr_last : Z) : option RemWriter_t :=
  if seqnr_last <? c_seqnr cp then
    let '(l, ok) := data_after cp ignore ans l seqnr_last in
    let r := set_changes l r in
    Some (if ok then
            let r := queue 1 r in
            match l with
            | rp :: _ => if processable rp && rw_heartbeats r then sfr_process_samples (full ans) r else r
            | [] => r
            end
          else r)
  else if c_seqnr cp <? seqnr_first then
    let '(l, ok) := data_before cp ignore ans l seqnr_first in
    let r := set_changes l r in
    Some (if ok then
            let r := queue 1 r in
            match l with
            | rp :: _ => if processable rp && rw_heartbeats r then sfr_process_samples (full ans) r else r
            | [] => r
            end
          else r)
  else
    '(l, ok, q) ← data_inside cp ignore ans l;
    let r := set_changes l r in
    let r := if (q : bool) then queue 1 r else r in
    Some (if (ok : bool) then
            match l with
            | rp :: _ => if processable rp && rw_heartbeats r then sfr_process_samples (full ans) r else r
            | [] => r
            end
          else r).

(** The change has another user after the attempt to add it to the cache. *)
Definition in_use (ans : Answers) : Answers :=
  mkAns (accepts ans) (full ans) true (clone_ok ans) (allocs ans) (timer_ok ans) (junk ans).

(** The first node of an empty list. *)
Definition add_first_node (cp : Change_t) (ignore : bool) (ans : Answers) (r : RemWriter_t) : RemWriter_t :=
  match fst (add_sample cp ignore true ans [] (allocs ans)) with
  | None => r
  | Some l => queue 1 (set_changes l r)
  end.

(** [sfr_rel_data] for a DATA message. *)
Definition sfr_rel_data (cp : Change_t) (ignore : bool) (ans : Answers) (r : RemWriter_t) : option RemWriter_t :=
  let r := set_alive 0 r in
  if c_seqnr cp <? rw_seqnr_next r then Some r
  else
    let ooo := negb (rw_seqnr_next r =? c_seqnr cp) in
    if negb ignore && negb (accepts ans) then Some (if ooo then r else set_blocked true r)
    else
      match rw_changes r, last (rw_changes r) with
      | head :: _, Some tail => data_queue cp ignore ans r (rw_changes r) (ref_first head) (ref_last tail)
      | _, _ =>
          Some (if ooo then add_first_node cp ignore ans r
                else if ignore then set_seqnr_next (rw_seqnr_next r + 1) r
                else if shared ans && negb (clone_ok ans) then r
                else match full ans with
                     | true :: _ => add_first_node cp ignore (in_use ans) r
                     | _ => set_seqnr_next (rw_seqnr_next r + 1) (deliver cp r)
                     end)
      end.

(** ** GAP *)

(** [sfr_rel_gap_set]: the part from [first] to [last] of the range [rp] is
    received; the nodes that take its place. *)
Definition sfr_rel_gap_set (st : ChangeState_t) (rfirst rlast first last : Z) (al : list bool)
  : list CCREF * list bool :=
  let finish l al st' :=
    if last <? rlast then
      let '(g, al) := ccref_insert_gap (last + 1) rlast st' al in
      (match g with Some g => l ++ [g] | None => l end, al)
    else (l, al) in
  if rfirst <? first then
    let '(g, al) := ccref_insert_gap first last CS_RECEIVED al in
    match g with
    | None => ([mkRef st (URange rfirst rlast)], al)
    | Some g => finish [mkRef st (URange rfirst (first - 1)); g] al st
    end
  else finish [mkRef CS_RECEIVED (URange rfirst last)] al st.

(** The walk over the list for a range that overlaps it.  The nodes that
    [sfr_rel_gap_set] inserts end before the rest of the range, and the walk
    passes over them. *)
Fixpoint gap_walk (l : list CCREF) (first last : Z) (al : list bool) : list CCREF * list bool :=
  match l with
  | [] => ([], al)
  | rp :: l =>
      match u rp with
      | UChange cp =>
          let first := if negb (c_seqnr cp <? first) then first + 1 else first in
          let '(l, al) := if last <? first then (l, al) else gap_walk l first last al in
          (rp :: l, al)
      | URange rfirst rlast =>
          if rlast <? first then let '(l, al) := gap_walk l first last al in (rp :: l, al)
          else
            let s2 := if rlast <? last then rlast else last in
            let '(nodes, al) :=
              if negb (bool_decide (state rp = CS_RECEIVED)) then sfr_rel_gap_set (state rp) rfirst rlast first s2 al
              else ([rp], al) in
            let first := s2 + 1 in
            let '(l, al) := if last <? first then (l, al) else gap_walk l first last al in
            (nodes ++ l, al)
      end
  end.

(** A gap behind or in front of the list, after the numbers in between, from
    [mfirst] to [mlast], have become missing. *)
Definition gap_beside (tail : bool) (mfirst mlast first last : Z) (l : list CCREF) (al : list bool)
  : list CCREF * list bool :=
  let '(ol, al) := if negb (mlast <? mfirst) then ccref_add_gap l mfirst mlast tail CS_MISSING al else (Some l, al) in
  match ol with
  | None => (l, al)
  | Some l => let '(ol, al) := ccref_add_gap l first last tail CS_RECEIVED al in
              (match ol with Some l => l | None => l end, al)
  end.

(** [sfr_rel_gap_range] *)
Definition sfr_rel_gap_range (first last : Z) (al : list bool) (r : RemWriter_t) : RemWriter_t * list bool :=
  if last <? rw_seqnr_next r then (r, al)
  else
    let first := if first <? rw_seqnr_next r then rw_seqnr_next r else first in
    let l := rw_changes r in
    let '(l, al) :=
      match l, list.last l with
      | head :: _, Some tail =>
          if ref_last tail <? first then gap_beside true (ref_last tail + 1) (first - 1) first last l al
          else if last <? ref_first head then gap_beside false (last + 1) (ref_first head - 1) first last l al
          else gap_walk l first last al
      | _, _ => let '(ol, al) := ccref_add_gap [] first last true CS_RECEIVED al in
                (match ol with Some l => l | None => [] end, al)
      end in
    (set_changes l r, al).

(** The runs of irrelevant numbers in the list of a GAP message. *)
Fixpoint gap_bits (k : nat) (i : Z) (bm : list Z) (base : Z) (run : option Z) (al : list bool) (r : RemWriter_t)
  : option RemWriter_t :=
  match k with
  | O => Some (match run with Some first => fst (sfr_rel_gap_range first (base + i - 1) al r) | None => r end)
  | S k =>
      b ← SET_CONTAINS bm i;
      if (b : bool) then gap_bits k (i + 1) bm base (Some (match run with Some first => first | None => base + i end)) al r
      else
        let '(r, al) := match run with Some first => sfr_rel_gap_range first (base + i - 1) al r | None => (r, al) end in
        gap_bits k (i + 1) bm base None al r
  end.

(** [sfr_rel_gap] *)
Definition sfr_rel_gap (gap_start base numbits : Z) (bitmap : list Z) (ans : Answers) (r : RemWriter_t)
  : option RemWriter_t :=
  let r := set_alive 0 r in
  let '(r, al) := if gap_start <? base then sfr_rel_gap_range gap_start (base - 1) (allocs ans) r else (r, allocs ans) in
  r ← gap_bits (Z.to_nat numbits) 0 bitmap base None al r;
  Some (match rw_changes r with
        | rp :: _ => if processable rp then sfr_process_samples (full ans) r else r
        | [] => r
        end).

(** ** ACKNACK *)

(** The numbers of a range: [false] when the whole walk ends. *)
Fixpoint ack_range (k : nat) (st : ChangeState_t) (snr last : Z) (r : RemWriter_t) (n : Z) (bm : list Z)
  : option (Z * list Z) :=
  match k with
  | O => Some (n, bm)
  | S k =>
      if last <? snr then Some (n, bm)
      else if bool_decide (st = CS_RECEIVED) && cache_acks then Some (n, bm)
      else if rw_blocked r && negb (rw_seqnr_next r =? snr) then Some (n, bm)
      else
        bm ← (if bool_decide (st = CS_MISSING) then SET_ADD bm n else Some bm);
        let n := n + 1 in
        if 256 <=? n then Some (n, bm)
        else
          bm ← (if Z.land n 31 =? 0 then zset bm (Z.shiftr n 5) 0 else Some bm);
          ack_range k st (snr + 1) last r n bm
  end.

(** The loop of [sfr_rel_do_ack_nl] over the list. *)
Fixpoint ack_loop (l : list CCREF) (r : RemWriter_t) (n : Z) (bm : list Z) : option (Z * list Z) :=
  match l with
  | [] => Some (n, bm)
  | rp :: l =>
      match u rp with
      | UChange _ =>
          if bool_decide (state rp = CS_RECEIVED) && cache_acks then Some (n, bm)
          else if rw_blocked r then Some (n, bm)
          else
            bm ← (if bool_decide (state rp = CS_MISSING) then SET_ADD bm n else Some bm);
            let n := n + 1 in
            if 256 <=? n then Some (n, bm)
            else
              bm ← (if Z.land n 31 =? 0 then zset bm (Z.shiftr n 5) 0 else Some bm);
              ack_loop l r n bm
      | URange first last =>
          '(n, bm) ← ack_range (Z.to_nat (256 - n)) (state rp) first last r n bm;
          if 256 <=? n then Some (n, bm) else ack_loop l r n bm
      end
  end.

(** [sfr_rel_do_ack_nl] *)
Definition sfr_rel_do_ack_nl (ans : Answers) (r : RemWriter_t) : option RemWriter_t :=
  bm ← zset (junk ans) 0 0;
  '(n, bm) ← ack_loop (rw_changes r) r 0 bm;
  Some (send_acknack (mkAck (rw_seqnr_next r) n bm) r).

(** [sfr_rel_do_ack] *)
Definition sfr_rel_do_ack (ans : Answers) (r : RemWriter_t) : option RemWriter_t :=
  sfr_rel_do_ack_nl ans (if heartbeat_resp_delay then set_astate (rw_astate r) false r else r).

(** ** HEARTBEAT *)

(** The numbers before [first_sn] that are missing are lost.  Gives the number
    of samples lost as well. *)
Fixpoint hb_mark (l : list CCREF) (snr first_sn : Z) (al : list bool) : list CCREF * Z * list bool :=
  match l with
  | [] => ([], 0, al)
  | rp :: l' =>
      if negb (snr <? first_sn) then (l, 0, al)
      else
        match u rp with
        | UChange cp =>
            let '(l', n, al) := hb_mark l' (snr + 1) first_sn al in
            if negb (bool_decide (state rp = CS_RECEIVED)) then (mkRef CS_LOST (UChange cp) :: l', n + 1, al)
            else (rp :: l', n, al)
        | URange first last =>
            let st := if bool_decide (state rp = CS_RECEIVED) then CS_RECEIVED else CS_LOST in
            if negb (last <? first_sn) then
              let '(g, al) := ccref_insert_gap first_sn last (state rp) al in
              (mkRef st (URange first (first_sn - 1)) :: match g with Some g => g :: l' | None => l' end, 0, al)
            else
              let '(l', n, al) := hb_mark l' (last + 1) first_sn al in
              (mkRef st (URange first last) :: l', n, al)
        end
  end.

(** The numbers from [first] to [last] in front of the list are missing: a
    missing range at its head is extended. *)
Definition hb_missing_before (l : list CCREF) (first last : Z) (al : list bool) : option (list CCREF) * list bool :=
  match l with
  | mkRef CS_MISSING (URange _ hlast) :: l' => (Some (mkRef CS_MISSING (URange first hlast) :: l'), al)
  | _ => ccref_add_gap l first last false CS_MISSING al
  end.

(** The numbers from [first_sn] to [last_sn] that the list does not cover are
    missing. *)
Definition hb_gaps (first_sn last_sn : Z) (al : list bool) (r : RemWriter_t) : RemWriter_t * bool :=
  let l := rw_changes r in
  if last_sn <? rw_seqnr_next r then (r, true)
  else
    match l, last l with
    | head :: _, Some tail =>
        let seqnr_first := ref_first head in
        let seqnr_last := ref_last tail in
        let '(ol, al) :=
          if first_sn <? seqnr_first then hb_missing_before l first_sn (seqnr_first - 1) al else (Some l, al) in
        match ol with
        | None => (r, false)
        | Some l =>
            let r := set_changes l r in
            if seqnr_last <? last_sn then
              match fst (missing_after l (seqnr_last + 1) last_sn al) with
              | Some l => (set_changes l r, true)
              | None => (r, false)
              end
            else (r, true)
        end
    | _, _ => match fst (ccref_add_gap [] first_sn last_sn true CS_MISSING al) with
              | Some l => (set_changes l r, true)
              | None => (r, false)
              end
    end.

(** The timer of a delayed response is allocated if need be and started; no
    timer means that the response is sent at once. *)
Definition start_response (ans : Answers) (r : RemWriter_t) : RemWriter_t * bool :=
  if heartbeat_resp_delay then
    let timer := rw_hbrsp_timer r || timer_ok ans in
    (set_astate (rw_astate r) timer r, negb timer)
  else (r, true).

(** Numbers before [first_sn] will not come any more; what was held back for
    them is delivered. *)
Definition hb_lost (first_sn : Z) (ans : Answers) (r : RemWriter_t) : RemWriter_t * list bool :=
  match rw_changes r with
  | [] => (r, allocs ans)
  | head :: _ =>
      let seqnr_first := ref_first head in
      let '(l, nlost, al) := hb_mark (rw_changes r) seqnr_first first_sn (allocs ans) in
      let r := set_changes l r in
      let r := if nlost =? 0 then r else samples_lost nlost r in
      (if negb (first_sn <? seqnr_first) && (rw_seqnr_next r <? first_sn) then
         sfr_process_samples (full ans) (set_seqnr_next seqnr_first r)
       else r, al)
  end.

(** The part of [sfr_rel_heartbeat] that brings the list up to date: the
    outcome says whether the end of the handler is reached. *)
Definition hb_update (first_sn last_sn : Z) (ans : Answers) (r : RemWriter_t) : RemWriter_t * bool :=
  let '(r, al) := hb_lost first_sn ans r in
  let r :=
    if rw_seqnr_next r <? first_sn then
      set_seqnr_next first_sn (samples_lost (SEQNR_DELTA (snr_of (rw_seqnr_next r)) (snr_of first_sn)) r)
    else r in
  let first_sn := if first_sn <? rw_seqnr_next r then rw_seqnr_next r else first_sn in
  hb_gaps first_sn last_sn al r.

(** [sfr_rel_heartbeat] *)
Definition sfr_rel_heartbeat (first_sn last_sn count : Z) (final liveliness : bool) (ans : Answers) (r : RemWriter_t)
  : option RemWriter_t :=
  let wakeup := negb (rw_peer_alive r) in
  let r := set_alive (rw_hb_no_data r) r in
  if liveliness && final then Some r
  else if count =? rw_last_hb r then Some r
  else
    let r := set_hb true count (if rw_hb_no_data r <? 3 then rw_hb_no_data r + 1 else rw_hb_no_data r) r in
    let '(r, send_ack) :=
      if negb final then
        let r := set_astate RWAS_MUST_ACK (rw_hbrsp_timer r) r in
        if wakeup then (r, true) else start_response ans r
      else (if liveliness then r else set_astate RWAS_MAY_ACK (rw_hbrsp_timer r) r, false) in
    let '(r, go_on) := hb_update first_sn last_sn ans r in
    if negb go_on then Some r
    else
      let '(r, send_ack) :=
        match rw_astate r with
        | RWAS_MAY_ACK =>
            match rw_changes r with
            | _ :: _ => start_response ans (set_astate RWAS_MUST_ACK (rw_hbrsp_timer r) r)
            | [] => (set_astate RWAS_WAITING (rw_hbrsp_timer r) r, send_ack)
            end
        | _ => (r, send_ack)
        end in
      if (send_ack : bool) then sfr_rel_do_ack_nl ans r else Some r.

(** ** The proxy *)

(** A new proxy ([rtps_matched_writer_add], [sfr_rel_start]); its first
    ACKNACK, which is empty, is sent, and the timer that repeats it runs. *)
Definition sfr_rel_start (ans : Answers) : RemWriter_t :=
  mkRW [] 1 false false 0 0 RWAS_WAITING false (timer_ok ans) 0 [] 0 [mkAck 0 0 (junk ans)].

(** [sfr_rel_alive_to]: the timer of the first ACKNACK has elapsed. *)
Definition sfr_rel_alive_to (ans : Answers) (r : RemWriter_t) : RemWriter_t := send_acknack (mkAck 0 0 (junk ans)) r.

(** [sfr_restart]: the writer has restarted. *)
Definition sfr_restart (ans : Answers) (r : RemWriter_t) : RemWriter_t :=
  mkRW [] 0 (rw_blocked r) (rw_heartbeats r) (rw_last_hb r) 0 RWAS_WAITING false (rw_hbrsp_timer r || timer_ok ans)
    (data_queued r) (delivered r) (lost r) (acks r ++ [mkAck 0 0 (junk ans)]).

(** [sfr_rel_finish] *)
Definition sfr_rel_finish (r : RemWriter_t) : RemWriter_t := set_changes [] (set_astate (rw_astate r) false r).

(** [rtps_reader_unblock]: the cache has room again. *)
Definition rtps_reader_unblock (ans : Answers) (r : RemWriter_t) : RemWriter_t :=
  if rw_blocked r then sfr_process_samples (full ans) (set_blocked false r) else r.

(** What happens to a proxy. *)
Inductive RwEvent :=
| EvData (cp : Change_t) (ignore : bool)
| EvGap (gap_start base numbits : Z) (bitmap : list Z)
| EvHeartbeat (first_sn last_sn count : Z) (final liveliness : bool)
| EvAliveTo
| EvDoAck
| EvUnblock.

Definition rw_event (e : RwEvent) (ans : Answers) (r : RemWriter_t) : option RemWriter_t :=
  match e with
  | EvData cp ignore => sfr_rel_data cp ignore ans r
  | EvGap start base numbits bitmap => sfr_rel_gap start base numbits bitmap ans r
  | EvHeartbeat first last count final live => sfr_rel_heartbeat first last count final live ans r
  | EvAliveTo => Some (sfr_rel_alive_to ans r)
  | EvDoAck => sfr_rel_do_ack ans r
  | EvUnblock => Some (rtps_reader_unblock ans r)
  end.

Fixpoint rw_run (evs : list (RwEvent * Answers)) (r : RemWriter_t) : option RemWriter_t :=
  match evs with
  | [] => Some r
  | (e, ans) :: evs => r ← rw_event e ans r; rw_run evs r
  end.

End Reader.
