(* ===== verification/SfrrProps.v ===== *)
(** Lemmas on the reliable reader (rtps/rtps_sfrr.c): the list of changes of a
    proxy covers an interval of sequence numbers, every operation of the
    handlers keeps it so, and what is delivered has no duplicates and leaves
    out only what the writer excused. *)

From S2P Require Import Prelude Seqnr Clist Sfrr.
From stdpp Require Import list.

#[local] Open Scope Z_scope.
#[local] Set Warnings "-clear-no-such-hyp".

(** ** Intervals *)

(** The nodes of [l] cover the numbers from [a] to [b - 1] in order. *)
Fixpoint cov (a : Z) (l : list CCREF) (b : Z) : Prop :=
  match l with
  | [] => a = b
  | rp :: l => ref_first rp = a /\ a <= ref_last rp /\ cov (ref_last rp + 1) l b
  end.

Lemma cov_app a l1 l2 b : cov a (l1 ++ l2) b <-> exists c, cov a l1 c /\ cov c l2 b.
Proof.
  revert a; induction l1 as [|rp l1 IH]; intros a; simpl.
  - split; [by exists a|by intros (c & -> & H)].
  - rewrite IH. naive_solver.
Qed.

Lemma cov_le a l b : cov a l b -> a <= b.
Proof. revert a; induction l as [|rp l IH]; intros a; simpl; [lia|]. intros (_ & H & Hc%IH). lia. Qed.

Lemma cov_nonempty a l b : cov a l b -> l ≠ [] -> a < b.
Proof. destruct l as [|rp l]; [done|]. intros (_ & H & Hc%cov_le) _. lia. Qed.

Lemma cov_head a rp l b : cov a (rp :: l) b -> ref_first rp = a.
Proof. by intros [H _]. Qed.

Lemma cov_tail a l b rp : cov a l b -> last l = Some rp -> ref_last rp = b - 1.
Proof.
  intros Hc Hl. destruct l as [|x l] using rev_ind; [done|]. rewrite last_snoc in Hl. injection Hl as ->.
  apply cov_app in Hc as (c & _ & _ & _ & H). simpl in H. lia.
Qed.

Lemma removelast_snoc {A} (l : list A) x : removelast (l ++ [x]) = l.
Proof. apply removelast_last. Qed.

(** ** The state of the last node *)

Definition tail_missing (l : list CCREF) : Prop := exists rp, last l = Some rp /\ state rp = CS_MISSING.

Lemma tail_missing_app l1 l2 : tail_missing (l1 ++ l2) <-> tail_missing l2 \/ l2 = [] /\ tail_missing l1.
Proof.
  unfold tail_missing. destruct l2 as [|x l2] using rev_ind.
  - rewrite app_nil_r. simpl. naive_solver.
  - rewrite app_assoc, !last_snoc. split; [by left|]. intros [H|[H _]]; [done|]. by destruct l2.
Qed.

Lemma tail_missing_cons x l : l ≠ [] -> tail_missing (x :: l) <-> tail_missing l.
Proof.
  intros Hl. rewrite (tail_missing_app [x] l). split; [|by left]. intros [H|[H _]]; done.
Qed.

Lemma tail_missing_single rp : tail_missing [rp] <-> state rp = CS_MISSING.
Proof. unfold tail_missing. simpl. naive_solver. Qed.

Lemma tail_missing_snoc l rp : tail_missing (l ++ [rp]) <-> state rp = CS_MISSING.
Proof. rewrite tail_missing_app, tail_missing_single. naive_solver. Qed.

(** ** Allocations that succeed *)

Definition granted (al : list bool) : Prop := Forall (fun b => b = true) al.

Lemma alloc_granted al : granted al -> exists al', alloc al = (true, al') /\ granted al'.
Proof. intros H. destruct H as [|b al -> H]; simpl; eexists; (split; [done|]); [constructor|done]. Qed.

Section Proxy.
  (** What the writer has sent, and what it has declared not to send. *)
  Context (sent : Change_t -> Prop) (excused : Z -> Prop).

(** ** Nodes *)

Definition ref_ok (rp : CCREF) : Prop :=
  match u rp with
  | UChange cp => state rp = CS_RECEIVED /\ sent cp
  | URange first last =>
      state rp = CS_MISSING \/ (state rp = CS_RECEIVED \/ state rp = CS_LOST) /\ forall s, first <= s <= last -> excused s
  end.

Record placed (a b : Z) (l : list CCREF) : Prop := { pl_cov : cov a l b; pl_ok : Forall ref_ok l }.

Lemma placed_app a b l1 l2 : placed a b (l1 ++ l2) <-> exists c, placed a c l1 /\ placed c b l2.
Proof.
  split.
  - intros [(c & H1 & H2)%cov_app (F1 & F2)%Forall_app]. exists c. by split; split.
  - intros (c & [H1 F1] & [H2 F2]). split; [apply cov_app; eauto|by apply Forall_app].
Qed.

Lemma placed_nil a b : placed a b [] <-> a = b.
Proof. split; [by intros [H _]|by split]. Qed.

Lemma placed_single a b rp : placed a b [rp] <-> ref_first rp = a /\ a <= ref_last rp /\ b = ref_last rp + 1 /\ ref_ok rp.
Proof.
  split.
  - intros [(H1 & H2 & H3) F]. simpl in H3. apply Forall_cons in F as [F _]. split_and!; [done|done|by symmetry|done].
  - intros (H1 & H2 & -> & F). split; [done|by apply Forall_singleton].
Qed.

Lemma placed_cons a b rp l : placed a b (rp :: l) <-> ref_first rp = a /\ a <= ref_last rp /\ ref_ok rp /\ placed (ref_last rp + 1) b l.
Proof.
  rewrite (placed_app a b [rp] l). setoid_rewrite placed_single. split.
  - intros (c & (H1 & H2 & -> & H4) & H5). auto.
  - intros (H1 & H2 & H3 & H4). exists (ref_last rp + 1). auto.
Qed.

(** A range with a state. *)
Definition range_ok (st : ChangeState_t) (first last : Z) : Prop :=
  st = CS_MISSING \/ (st = CS_RECEIVED \/ st = CS_LOST) /\ forall s, first <= s <= last -> excused s.

Lemma placed_range st first last b : first <= last -> b = last + 1 -> range_ok st first last ->
  placed first b [mkRef st (URange first last)].
Proof. intros H1 -> H2. apply placed_single. done. Qed.

Lemma range_ok_sub st f l f' l' : range_ok st f l -> f <= f' -> l' <= l -> range_ok st f' l'.
Proof. intros [->|[Hs H]] H1 H2; [by left|]. right. split; [done|]. intros s Hs'. apply H. lia. Qed.

Lemma range_ok_join st f l f' l' : range_ok st f l -> range_ok st f' l' -> f' = l + 1 -> range_ok st f l'.
Proof.
  intros [->|[Hs H]] H' E; [by left|]. destruct H' as [->|[_ H']]; [by left|]. right. split; [done|].
  intros s Hs'. destruct (Z.le_gt_cases s l); [apply H|apply H']; lia.
Qed.

(** ** Delivery *)

(** Everything before [f] has been delivered or excused, in order and once. *)
Record history (f : Z) (del : list Change_t) : Prop := {
  hi_sent : Forall sent del;
  hi_once : forall i j cp cq, (i < j)%nat -> del !! i = Some cp -> del !! j = Some cq -> c_seqnr cp < c_seqnr cq;
  hi_below : forall cp, cp ∈ del -> c_seqnr cp < f;
  hi_all : forall s, 1 <= s < f -> excused s \/ exists cp, cp ∈ del /\ c_seqnr cp = s
}.

Lemma history_skip f f' del : history f del -> f <= f' -> (forall s, f <= s < f' -> excused s) -> history f' del.
Proof.
  intros [H1 H2 H3 H4] Hf HX. split; [done|done| |].
  - intros cp Hcp. specialize (H3 cp Hcp). lia.
  - intros s Hs. destruct (Z.lt_ge_cases s f); [apply H4; lia|left; apply HX; lia].
Qed.

Lemma history_deliver f del cp : history f del -> c_seqnr cp = f -> sent cp -> history (f + 1) (del ++ [cp]).
Proof.
  intros [H1 H2 H3 H4] Hf HS. split.
  - apply Forall_app. split; [done|by apply Forall_singleton].
  - intros i j c1 c2 Hij Hi Hj. apply lookup_snoc_Some in Hj as [[Hj1 Hj]|[Hj1 <-]].
    + rewrite lookup_app_l in Hi by lia. exact (H2 i j c1 c2 Hij Hi Hj).
    + rewrite lookup_app_l in Hi by lia. apply list_elem_of_lookup_2 in Hi. apply H3 in Hi. lia.
  - intros c [Hc|Hc%list_elem_of_singleton]%elem_of_app; [apply H3 in Hc; lia|subst; lia].
  - intros s Hs. destruct (Z.eq_dec s f) as [->|Hne].
    + right. exists cp. split; [apply elem_of_app; right; by apply list_elem_of_singleton|done].
    + destruct (H4 s ltac:(lia)) as [|(c & Hc & E)]; [by left|]. right. exists c. split; [apply elem_of_app; by left|done].
Qed.

(** Where delivery stands. *)
Definition front (l : list CCREF) (next : Z) : Z := match l with [] => next | rp :: _ => Z.min next (ref_first rp) end.

Lemma front_placed a b l next : placed a b l -> l ≠ [] -> front l next = Z.min next a.
Proof. intros [H _]. destruct l as [|rp l]; [done|]. intros _. simpl. destruct H as [-> _]. done. Qed.

(** ** [sfr_process_samples] *)

Definition processed (b : Z) (l : list CCREF) (fl : list bool) (r r' : RemWriter_t) : Prop :=
  placed (rw_seqnr_next r') b (rw_changes r') /\ history (rw_seqnr_next r') (delivered r') /\
  rw_seqnr_next r <= rw_seqnr_next r' /\ (tail_missing (rw_changes r') -> tail_missing l) /\
  (fl = [] -> match rw_changes r' with rp :: _ => processable rp = false | [] => True end).

Lemma processed_cons b rp l fl fl' r r1 r' :
  rw_seqnr_next r <= rw_seqnr_next r1 -> (fl = [] -> fl' = []) -> processed b l fl' r1 r' -> processed b (rp :: l) fl r r'.
Proof.
  intros Hle Hfl (H1 & H2 & H3 & H4 & H5). split_and!; [done|done|lia| |by intros ?%Hfl%H5].
  intros Ht%H4. apply (tail_missing_app [rp] l). by left.
Qed.

Lemma process_ok l : forall fl r b,
  placed (rw_seqnr_next r) b l -> history (rw_seqnr_next r) (delivered r) -> processed b l fl r (process_loop l fl r).
Proof.
  induction l as [|rp l IH]; intros fl r b Hp Hh; simpl; [done|].
  destruct (processable rp) eqn:Epr; simpl; [|done].
  pose proof Hp as Hp0. apply placed_cons in Hp as (Hf & Hle & Hok & Hp).
  rewrite Hf, Z.eqb_refl. simpl. unfold ref_ok in Hok.
  destruct rp as [st [cp|first last]]; unfold ref_first, ref_last in Hf, Hle, Hp; simpl in *.
  - destruct Hok as [-> HS]. rewrite bool_decide_true by done.
    assert (Hnext : forall fl', processed b l fl' (set_seqnr_next (c_seqnr cp + 1) (queue (-1) (deliver cp r)))
      (process_loop l fl' (set_seqnr_next (c_seqnr cp + 1) (queue (-1) (deliver cp r))))).
    { intros fl'. apply IH; simpl; [done|]. rewrite Hf. by apply history_deliver. }
    destruct fl as [|[] fl]; simpl; [|done|]; eapply processed_cons, Hnext; simpl; try done; lia.
  - eapply processed_cons, IH; simpl; [lia|done|done|].
    apply (history_skip (rw_seqnr_next r)); [done|lia|]. intros s Hs.
    destruct Hok as [->|[_ HX]]; [done|]. apply HX. lia.
Qed.

(** ** Growing the list *)

(** The last node of a list and its state. *)
Definition tail_state (l : list CCREF) (st : ChangeState_t) : Prop := exists rp, last l = Some rp /\ state rp = st.

Lemma tail_state_snoc l rp : tail_state (l ++ [rp]) (state rp).
Proof. exists rp. by rewrite last_snoc. Qed.

Lemma add_tail_new a b l rp : placed a b l -> ref_first rp = b -> b <= ref_last rp -> ref_ok rp -> placed a (ref_last rp + 1) (l ++ [rp]).
Proof. intros H1 H2 H3 H4. apply placed_app. exists b. split; [done|]. by apply placed_single. Qed.

Lemma add_tail_extend a b l st f x y : placed a b (l ++ [mkRef st (URange f x)]) -> b <= y -> range_ok st b y ->
  placed a (y + 1) (l ++ [mkRef st (URange f y)]).
Proof.
  intros (c & H1 & H2)%placed_app Hy Hr. apply placed_single in H2 as (<- & Hx & -> & Hok). unfold ref_first, ref_last in *.
  simpl in *. apply placed_app. exists f. split; [done|]. apply placed_range; [lia|done|].
  by eapply (range_ok_join st f x); [exact Hok|exact Hr|].
Qed.

Lemma add_gap_tail a b l last st al :
  placed a b l -> l ≠ [] -> b <= last -> range_ok st b last -> granted al ->
  exists l' al', ccref_add_gap l b last true st al = (Some l', al') /\ placed a (last + 1) l' /\ l' ≠ [] /\
    granted al' /\ tail_state l' st.
Proof.
  intros Hp Hl Hb Hr Hal. destruct (alloc_granted al Hal) as (al' & Ea & Hal').
  assert (Hnew : placed a (last + 1) (l ++ [mkRef st (URange b last)])).
  { by apply (add_tail_new a b l (mkRef st (URange b last))). }
  assert (Hnew' : (let '(ok, al) := alloc al in (if ok then Some (list_add true (mkRef st (URange b last)) l) else None, al))
    = (Some (l ++ [mkRef st (URange b last)]), al')) by (by rewrite Ea).
  unfold ccref_add_gap. rewrite Hnew'. clear Hnew'.
  assert (Hgoal : exists l' al'0, (Some (l ++ [mkRef st (URange b last)]), al') = (Some l', al'0) /\
    placed a (last + 1) l' /\ l' ≠ [] /\ granted al'0 /\ tail_state l' st).
  { eexists _, _. split; [done|]. split_and!; [done|by destruct l|done|]. apply (tail_state_snoc l (mkRef st _)). }
  destruct l as [|[xst [cp|xf xl]] l] using rev_ind; [done| |]; rewrite last_snoc; [exact Hgoal|].
  destruct (decide (xst = st)) as [->|]; [|exact Hgoal]. rewrite removelast_snoc.
  eexists _, _. split; [done|]. split_and!; [by eapply add_tail_extend|by destruct l|done|].
  apply (tail_state_snoc l (mkRef st _)).
Qed.

Lemma add_gap_head a b l first st al :
  placed a b l -> l ≠ [] -> first <= a - 1 -> range_ok st first (a - 1) -> granted al ->
  exists l' al', ccref_add_gap l first (a - 1) false st al = (Some l', al') /\ placed first b l' /\ l' ≠ [] /\
    granted al' /\ (tail_missing l' <-> tail_missing l).
Proof.
  intros Hp Hl Hb Hr Hal. destruct (alloc_granted al Hal) as (al' & Ea & Hal').
  unfold ccref_add_gap. rewrite Ea. cbn [list_add].
  assert (Hnew : placed first b (mkRef st (URange first (a - 1)) :: l)).
  { apply placed_cons. unfold ref_first, ref_last. simpl. split_and!; [done|lia|done|].
    by replace (a - 1 + 1) with a by lia. }
  assert (Hgoal : exists l' al'0, (Some (mkRef st (URange first (a - 1)) :: l), al') = (Some l', al'0) /\
    placed first b l' /\ l' ≠ [] /\ granted al'0 /\ (tail_missing l' <-> tail_missing l)).
  { eexists _, _. split; [done|]. split_and!; [done|done|done|]. by apply tail_missing_cons. }
  destruct l as [|[xst [cp|xf xl]] l]; [done|exact Hgoal|]. destruct (decide (xst = st)) as [->|]; [|exact Hgoal].
  eexists _, _. split; [done|]. apply placed_cons in Hp as (Hf & Hx & Hok & Hp). unfold ref_first, ref_last in *. simpl in *.
  split_and!; [|done|done|].
  - apply placed_cons. unfold ref_first, ref_last. simpl. split_and!; [done|lia| |done].
    eapply (range_ok_join st first (a - 1)); [exact Hr|exact Hok|lia].
  - destruct l as [|y l]; [by rewrite !tail_missing_single|by rewrite !tail_missing_cons by done].
Qed.

Lemma missing_after_ok a b l last al :
  placed a b l -> l ≠ [] -> b <= last -> granted al ->
  exists l' al', missing_after l b last al = (Some l', al') /\ placed a (last + 1) l' /\ l' ≠ [] /\ granted al'.
Proof.
  intros Hp Hl Hb Hal. assert (Hm : range_ok CS_MISSING b last) by (by left). unfold missing_after.
  destruct (add_gap_tail a b l last CS_MISSING al) as (l' & al' & E & H1 & H2 & H3 & _); try done.
  destruct l as [|[xst [xcp|xf xl]] l] using rev_ind; [done| |]; rewrite last_snoc.
  - exists l', al'. split; [|done]. by destruct xst.
  - destruct (decide (xst = CS_MISSING)) as [->|Hx]; [|exists l', al'; split; [|done]; by destruct xst].
    rewrite removelast_snoc. eexists _, _. split; [done|]. split_and!; [|by destruct l|done].
    by eapply add_tail_extend.
Qed.

Lemma hb_missing_before_ok a b l first al :
  placed a b l -> l ≠ [] -> first < a -> granted al ->
  exists l' al', hb_missing_before l first (a - 1) al = (Some l', al') /\ placed first b l' /\ l' ≠ [] /\ granted al'.
Proof.
  intros Hp Hl Hb Hal.
  destruct (add_gap_head a b l first CS_MISSING al) as (l' & al' & E & H1 & H2 & H3 & _); try done; [lia|by left|].
  assert (Hst : forall st xf xl l0, l = mkRef st (URange xf xl) :: l0 -> st = CS_MISSING ->
    exists l' al', (Some (mkRef CS_MISSING (URange first xl) :: l0), al) = (Some l', al') /\ placed first b l' /\ l' ≠ [] /\ granted al').
  { intros st xf xl l0 -> ->. apply placed_cons in Hp as (Hf & Hx & Hok & Hp). unfold ref_first, ref_last in *. simpl in *.
    eexists _, _. split; [reflexivity|]. split_and!; [|done|done]. apply placed_cons. unfold ref_first, ref_last. simpl.
    split_and!; [done|lia|by left|done]. }
  unfold hb_missing_before. destruct l as [|[st [xcp|xf xl]] l]; [done| |].
  - exists l', al'. split; [|done]. by destruct st.
  - destruct (decide (st = CS_MISSING)) as [->|Hx]; [by eapply Hst|]. exists l', al'. split; [|done]. by destruct st.
Qed.

Lemma data_missing_before_ok a b l first al :
  placed a b l -> l ≠ [] -> first < a -> ~ tail_missing l -> granted al ->
  exists l' al', data_missing_before l first (a - 1) al = (Some l', al') /\ placed first b l' /\ l' ≠ [] /\ granted al' /\
    (tail_missing l' <-> tail_missing l).
Proof.
  intros Hp Hl Hb Ht Hal. unfold data_missing_before.
  assert (Htm : match last l with Some rp => bool_decide (state rp = CS_MISSING) | None => false end = false).
  { destruct (last l) as [rp|] eqn:El; [|done]. apply bool_decide_eq_false. intros E. apply Ht. by exists rp. }
  rewrite Htm. destruct (add_gap_head a b l first CS_MISSING al) as (l' & al' & E & H); try done; [lia|by left|].
  exists l', al'. split; [|done]. by destruct l as [|[st [xcp|xf xl]] l].
Qed.

Section Sample.
  Context (cp : Change_t) (ignore : bool) (ans : Answers).
  Context (Hcp : if ignore then excused (c_seqnr cp) else sent cp) (Hclone : clone_ok ans = true) (Hal : granted (allocs ans)).

Lemma sample_range : ignore = true -> range_ok CS_RECEIVED (c_seqnr cp) (c_seqnr cp).
Proof. intros E. rewrite E in Hcp. right. split; [by left|]. intros s Hs. by replace s with (c_seqnr cp) by lia. Qed.

Lemma change_eta (c : Change_t) : mkChange (c_seqnr c) (c_data c) = c.
Proof. by destruct c. Qed.

Lemma add_received_ok l tail al : granted al ->
  exists al', ccref_add_received (shared ans) (clone_ok ans) l cp (c_seqnr cp) tail al
    = (Some (list_add tail (mkRef CS_RECEIVED (UChange cp)) l), al') /\ granted al'.
Proof.
  intros Ha. destruct (alloc_granted al Ha) as (al' & Ea & Ha'). unfold ccref_add_received.
  rewrite Hclone, andb_false_r, Ea, change_eta. by exists al'.
Qed.

Lemma add_sample_tail a l al :
  placed a (c_seqnr cp) l -> l ≠ [] -> granted al ->
  exists l', fst (add_sample cp ignore true ans l al) = Some l' /\ placed a (c_seqnr cp + 1) l' /\ l' ≠ [] /\
    tail_state l' CS_RECEIVED.
Proof.
  intros Hp Hl Ha. unfold add_sample. pose proof sample_range as Hsr. destruct ignore.
  - destruct (add_gap_tail a (c_seqnr cp) l (c_seqnr cp) CS_RECEIVED al) as (l' & al' & -> & H1 & H2 & _ & H3); try done.
    { by apply Hsr. } by exists l'.
  - destruct (add_received_ok l true al Ha) as (al' & -> & _). simpl. eexists. split; [done|]. split_and!.
    + by apply (add_tail_new a (c_seqnr cp) l (mkRef CS_RECEIVED (UChange cp))).
    + by destruct l.
    + apply (tail_state_snoc l (mkRef CS_RECEIVED (UChange cp))).
Qed.

Lemma add_sample_head b l al :
  placed (c_seqnr cp + 1) b l -> l ≠ [] -> granted al ->
  exists l', fst (add_sample cp ignore false ans l al) = Some l' /\ placed (c_seqnr cp) b l' /\ l' ≠ [] /\
    (tail_missing l' <-> tail_missing l).
Proof.
  intros Hp Hl Ha. unfold add_sample. pose proof sample_range as Hsr. destruct ignore.
  - destruct (add_gap_head (c_seqnr cp + 1) b l (c_seqnr cp) CS_RECEIVED al) as (l' & al' & E & H1 & H2 & _ & H3); try done.
    { lia. } { replace (c_seqnr cp + 1 - 1) with (c_seqnr cp) by lia. by apply Hsr. }
    replace (c_seqnr cp + 1 - 1) with (c_seqnr cp) in E by lia. rewrite E. by exists l'.
  - destruct (add_received_ok l false al Ha) as (al' & -> & _). simpl. eexists. split; [done|]. split_and!.
    + apply placed_cons. unfold ref_first, ref_last. simpl. by split_and!.
    + done.
    + by apply tail_missing_cons.
Qed.

Lemma data_after_ok a b l :
  placed a b l -> l ≠ [] -> b <= c_seqnr cp ->
  exists l', data_after cp ignore ans l (b - 1) = (l', true) /\ placed a (c_seqnr cp + 1) l' /\ l' ≠ [] /\
    tail_state l' CS_RECEIVED.
Proof.
  intros Hp Hl Hb. unfold data_after. replace (b - 1 + 1) with b by lia.
  destruct (Z.eqb_spec b (c_seqnr cp)) as [->|Hne]; simpl.
  - destruct (add_sample_tail a l (allocs ans) Hp Hl Hal) as (l' & -> & H). by exists l'.
  - destruct (missing_after_ok a b l (c_seqnr cp - 1) (allocs ans)) as (l1 & al1 & -> & H1 & H2 & H3); try done; [lia|].
    replace (c_seqnr cp - 1 + 1) with (c_seqnr cp) in H1 by lia.
    destruct (add_sample_tail a l1 al1 H1 H2 H3) as (l' & -> & H). by exists l'.
Qed.

Lemma data_before_ok a b l :
  placed a b l -> l ≠ [] -> c_seqnr cp < a -> ~ tail_missing l ->
  exists l', data_before cp ignore ans l a = (l', true) /\ placed (c_seqnr cp) b l' /\ l' ≠ [] /\
    (tail_missing l' <-> tail_missing l).
Proof.
  intros Hp Hl Hb Ht. unfold data_before. destruct (Z.eqb_spec (a - 1) (c_seqnr cp)) as [E|Hne]; simpl.
  - replace a with (c_seqnr cp + 1) in Hp by lia.
    destruct (add_sample_head b l (allocs ans) Hp Hl Hal) as (l' & -> & H). by exists l'.
  - destruct (data_missing_before_ok a b l (c_seqnr cp + 1) (allocs ans)) as (l1 & al1 & -> & H1 & H2 & H3 & H4);
      try done; [lia|].
    destruct (add_sample_head b l1 al1 H1 H2 H3) as (l' & -> & H5 & H6 & H7). exists l'. by rewrite H7, H4.
Qed.

Lemma find_ref_ok a b l :
  placed a b l -> a <= c_seqnr cp < b ->
  exists l1 rp l2, find_ref (c_seqnr cp) l = Some (l1, rp, l2) /\ l = l1 ++ rp :: l2 /\
    ref_first rp <= c_seqnr cp <= ref_last rp.
Proof.
  revert a; induction l as [|rp l IH]; intros a Hp Hs; [apply placed_nil in Hp; lia|].
  apply placed_cons in Hp as (Hf & Hle & Hok & Hp). simpl. unfold ref_first, ref_last in *.
  destruct (Z.le_gt_cases (c_seqnr cp) (ref_last rp)) as [H|H]; unfold ref_last in H.
  - exists [], rp, l. split; [|split; [done|lia]]. destruct (u rp) as [c|first last].
    + destruct (Z.eqb_spec (c_seqnr c) (c_seqnr cp)); [done|lia].
    + destruct (Z.ltb_spec (c_seqnr cp) first); [lia|]. destruct (Z.ltb_spec last (c_seqnr cp)); [lia|done].
  - destruct (IH _ Hp ltac:(lia)) as (l1 & x & l2 & -> & -> & Hx). exists (rp :: l1), x, l2. split; [|done].
    destruct (u rp) as [c|first last].
    + destruct (Z.eqb_spec (c_seqnr c) (c_seqnr cp)); [lia|done].
    + destruct (Z.ltb_spec last (c_seqnr cp)); [|lia]. by rewrite andb_false_r.
Qed.

Lemma insert_gap_ok first last st al : granted al ->
  exists al', ccref_insert_gap first last st al = (Some (mkRef st (URange first last)), al') /\ granted al'.
Proof. intros (al' & Ea & Ha)%alloc_granted. exists al'. unfold ccref_insert_gap. by rewrite Ea. Qed.

(** The nodes that take the place of a missing range around a sample. *)
Definition split_nodes (first last : Z) : list CCREF :=
  (if first <? c_seqnr cp then [mkRef CS_MISSING (URange first (c_seqnr cp - 1))] else []) ++
  [mkRef CS_RECEIVED (if ignore then URange (c_seqnr cp) (c_seqnr cp) else UChange cp)] ++
  (if c_seqnr cp <? last then [mkRef CS_MISSING (URange (c_seqnr cp + 1) last)] else []).

Lemma split_nodes_placed first last : first <= c_seqnr cp <= last -> placed first (last + 1) (split_nodes first last).
Proof.
  intros Hs. unfold split_nodes. apply placed_app. exists (c_seqnr cp). split.
  - destruct (Z.ltb_spec first (c_seqnr cp)); [apply placed_range; [lia|lia|by left]|apply placed_nil; lia].
  - apply placed_app. exists (c_seqnr cp + 1). split.
    + pose proof sample_range as Hsr. destruct ignore; [by apply placed_range; [|..|apply Hsr]|].
      apply placed_single. unfold ref_first, ref_last. simpl. split_and!; done.
    + destruct (Z.ltb_spec (c_seqnr cp) last); [apply placed_range; [lia|lia|by left]|apply placed_nil; lia].
Qed.

Lemma data_inside_ok a b l :
  placed a b l -> a <= c_seqnr cp < b ->
  exists l' ok q, data_inside cp ignore ans l = Some (l', ok, q) /\ placed a b l' /\ l' ≠ [] /\
    (tail_missing l' -> tail_missing l).
Proof.
  intros Hp Hs. destruct (find_ref_ok a b l Hp Hs) as (l1 & rp & l2 & E & -> & Hr). unfold data_inside. rewrite E.
  destruct (decide (state rp = CS_MISSING)) as [Hst|Hst].
  2:{ rewrite bool_decide_false by done. simpl. eexists _, _, _. split; [done|]. split_and!; [done|by destruct l1|done]. }
  rewrite bool_decide_true by done. simpl.
  apply placed_app in Hp as (c & Hp1 & Hp2). apply placed_cons in Hp2 as (Hf & Hle & Hok & Hp2).
  destruct rp as [st ur]; simpl in Hst; subst st. unfold ref_ok in Hok. unfold ref_first, ref_last in *. simpl in *.
  destruct ur as [cq|first last]; [by destruct Hok|]. subst first.
  destruct (insert_gap_ok c (c_seqnr cp - 1) CS_MISSING (allocs ans) Hal) as (al1 & E1 & Hal1).
  set (al2 := if c <? c_seqnr cp then al1 else allocs ans).
  assert (Hal2 : granted al2) by (unfold al2; by destruct (c <? c_seqnr cp)).
  destruct (insert_gap_ok (c_seqnr cp + 1) last CS_MISSING al2 Hal2) as (al3 & E3 & _).
  exists (l1 ++ split_nodes c last ++ l2), true, (negb ignore). split; [|split_and!].
  - unfold split_nodes, al2 in *. rewrite E1. destruct (c <? c_seqnr cp); simpl; rewrite E3; destruct (c_seqnr cp <? last); simpl;
      rewrite Hclone, andb_false_r; by destruct ignore.
  - apply placed_app. exists c. split; [done|]. apply placed_app. exists (last + 1). split; [|done]. by apply split_nodes_placed.
  - intros H. apply (f_equal length) in H. unfold split_nodes in H. rewrite !length_app in H. simpl in H. lia.
  - rewrite app_assoc, tail_missing_app. intros [H|[-> _]].
    + rewrite (cons_middle _ l1 l2), app_assoc. apply tail_missing_app. by left.
    + by apply tail_missing_snoc.
Qed.
End Sample.

(** ** Gaps *)

(** A part of a range becomes received. *)
Lemma gap_set_ok st a rlast first last al :
  range_ok st a rlast -> a <= first -> first <= last <= rlast -> (forall s, first <= s <= last -> excused s) -> granted al ->
  exists nodes al', sfr_rel_gap_set st a rlast first last al = (nodes, al') /\ placed a (rlast + 1) nodes /\ granted al' /\
    nodes ≠ [] /\ (tail_missing nodes -> st = CS_MISSING).
Proof.
  intros Hst Ha Hl HX Hal. unfold sfr_rel_gap_set.
  assert (HR : range_ok CS_RECEIVED first last) by (right; auto).
  assert (Hfin : forall l al, placed a (last + 1) l -> granted al -> l ≠ [] -> (tail_missing l -> st = CS_MISSING) ->
    exists nodes al', (if last <? rlast then
        let '(g, al) := ccref_insert_gap (last + 1) rlast st al in (match g with Some g => l ++ [g] | None => l end, al)
      else (l, al)) = (nodes, al') /\ placed a (rlast + 1) nodes /\ granted al' /\ nodes ≠ [] /\ (tail_missing nodes -> st = CS_MISSING)).
  { intros l al0 Hp Hal0 Hne Ht. destruct (Z.ltb_spec last rlast).
    - destruct (insert_gap_ok (last + 1) rlast st al0 Hal0) as (al' & -> & Hal'). eexists _, _. split; [reflexivity|].
      split_and!; [|done|by destruct l|by rewrite tail_missing_snoc].
      eapply (add_tail_new a (last + 1) l (mkRef st (URange (last + 1) rlast))); [done|done|unfold ref_last; simpl; lia|].
      eapply (range_ok_sub st a rlast); [done|lia|done].
    - eexists _, _. split; [reflexivity|]. by replace rlast with last by lia. }
  destruct (Z.ltb_spec a first).
  - destruct (insert_gap_ok first last CS_RECEIVED al Hal) as (al1 & -> & Hal1). apply Hfin; [|done|done|].
    + apply placed_cons. unfold ref_first, ref_last. simpl. split_and!; [done|lia| |].
      * eapply (range_ok_sub st a rlast); [done|lia|lia].
      * replace (first - 1 + 1) with first by lia. apply placed_range; [lia|done|done].
    + rewrite tail_missing_cons, tail_missing_single by done. done.
  - apply Hfin; [|done|done|by rewrite tail_missing_single]. replace a with first by lia. apply placed_range; [lia|done|done].
Qed.

(** Nodes in the place of one node and a rest in the place of another. *)
Definition follows (l' l : list CCREF) : Prop := (l' = [] -> l = []) /\ (tail_missing l' -> tail_missing l).

Lemma follows_nodes nodes rp l' l :
  nodes ≠ [] -> (tail_missing nodes -> state rp = CS_MISSING) -> follows l' l -> follows (nodes ++ l') (rp :: l).
Proof.
  intros Hne Hn [H1 H2]. split; [intros H; by destruct nodes|]. rewrite tail_missing_app. intros [H|[-> H]].
  - assert (l ≠ []) by (intros ->; by destruct (H2 H) as (? & ? & _)). rewrite tail_missing_cons by done. auto.
  - rewrite (H1 eq_refl), tail_missing_single. auto.
Qed.

Lemma follows_cons rp l' l : follows l' l -> follows (rp :: l') (rp :: l).
Proof. intros H. apply (follows_nodes [rp]); [done|by rewrite tail_missing_single|done]. Qed.

Lemma gap_walk_ok l : forall a b first last al,
  placed a b l -> a <= first <= last -> (forall s, first <= s <= last -> excused s) -> granted al ->
  exists l' al', gap_walk l first last al = (l', al') /\ placed a b l' /\ granted al' /\ follows l' l.
Proof.
  induction l as [|rp l IH]; intros a b first last al Hp Ha HX Hal; simpl; [by eexists _, _|].
  apply placed_cons in Hp as (Hf & Hle & Hok & Hp).
  assert (Hrest : forall first' al, ref_last rp + 1 <= first' -> first <= first' -> granted al ->
    exists l' al', (if last <? first' then (l, al) else gap_walk l first' last al) = (l', al') /\ placed (ref_last rp + 1) b l' /\
      granted al' /\ follows l' l).
  { intros first' al0 H1 H2 H3. destruct (Z.ltb_spec last first'); [by eexists _, _|].
    apply (IH (ref_last rp + 1)); [done|lia| |done]. intros s Hs. apply HX. lia. }
  assert (Hkeep : forall l', placed (ref_last rp + 1) b l' -> placed a b (rp :: l')) by (intros; by apply placed_cons).
  unfold ref_ok in Hok. unfold ref_first, ref_last in *. destruct (u rp) as [cp|rfirst rlast] eqn:Eu.
  - destruct (Hrest (if negb (c_seqnr cp <? first) then first + 1 else first) al) as (l' & al' & -> & H1 & H2 & H3);
      [destruct (Z.ltb_spec (c_seqnr cp) first); simpl; lia..|done|].
    eexists _, _. split; [reflexivity|]. split_and!; [by apply Hkeep|done|by apply follows_cons].
  - subst rfirst. destruct (Z.ltb_spec rlast first) as [Hlt|Hge].
    + destruct (IH (rlast + 1) b first last al) as (l' & al' & -> & H1 & H2 & H3); [done|lia|done|done|].
      eexists _, _. split; [reflexivity|]. split_and!; [by apply Hkeep|done|by apply follows_cons].
    + set (s2 := if rlast <? last then rlast else last).
      assert (Hs2 : first <= s2 <= rlast /\ s2 <= last /\ (last < s2 + 1 \/ s2 = rlast)).
      { unfold s2. destruct (Z.ltb_spec rlast last); lia. }
      assert (Hn : exists nodes al', (if negb (bool_decide (state rp = CS_RECEIVED)) then
          sfr_rel_gap_set (state rp) a rlast first s2 al else ([rp], al)) = (nodes, al') /\ placed a (rlast + 1) nodes /\
          granted al' /\ nodes ≠ [] /\ (tail_missing nodes -> state rp = CS_MISSING)).
      { destruct (bool_decide (state rp = CS_RECEIVED)); simpl.
        - eexists _, _. split; [reflexivity|]. split_and!; [|done|done|by rewrite tail_missing_single].
          apply placed_single. unfold ref_ok, ref_first, ref_last. rewrite Eu. done.
        - apply gap_set_ok; [done|lia|lia| |done]. intros s Hs. apply HX. lia. }
      destruct Hn as (nodes & al1 & -> & Hn1 & Hn2 & Hn3 & Hn4).
      destruct (Z.ltb_spec last (s2 + 1)).
      * eexists _, _. split; [reflexivity|]. split_and!; [apply placed_app; eauto|done|]. by apply follows_nodes.
      * destruct (Hrest (s2 + 1) al1) as (l' & al' & E & H1 & H2 & H3); [lia|lia|done|].
        destruct (Z.ltb_spec last (s2 + 1)); [lia|]. rewrite E. eexists _, _. split; [reflexivity|].
        split_and!; [apply placed_app; eauto|done|]. by apply follows_nodes.
Qed.

(** A gap beside the list. *)
Lemma gap_after_ok a b l first last al :
  placed a b l -> l ≠ [] -> b <= first <= last -> (forall s, first <= s <= last -> excused s) -> granted al ->
  exists l' al', gap_beside true b (first - 1) first last l al = (l', al') /\ placed a (last + 1) l' /\ granted al' /\
    l' ≠ [] /\ ~ tail_missing l'.
Proof.
  intros Hp Hl Hb HX Hal. unfold gap_beside.
  assert (Hm : exists l1 al1, (if negb (first - 1 <? b) then ccref_add_gap l b (first - 1) true CS_MISSING al else (Some l, al))
    = (Some l1, al1) /\ placed a first l1 /\ l1 ≠ [] /\ granted al1).
  { destruct (Z.ltb_spec (first - 1) b); simpl.
    - eexists _, _. split; [reflexivity|]. by replace first with b by lia.
    - destruct (add_gap_tail a b l (first - 1) CS_MISSING al) as (l1 & al1 & E & H1 & H2 & H3 & _); try done; [by left|].
      replace (first - 1 + 1) with first in H1 by lia. by eexists _, _. }
  destruct Hm as (l1 & al1 & -> & H1 & H2 & H3).
  destruct (add_gap_tail a first l1 last CS_RECEIVED al1) as (l' & al' & -> & H4 & H5 & H6 & H7); try done; [lia|right; auto|].
  eexists _, _. split; [reflexivity|]. split_and!; try done. intros (rp & E & Hrp). destruct H7 as (rp' & E' & Hrp'). congruence.
Qed.

Lemma gap_before_ok a b l first last al :
  placed a b l -> l ≠ [] -> first <= last < a -> (forall s, first <= s <= last -> excused s) -> granted al ->
  exists l' al', gap_beside false (last + 1) (a - 1) first last l al = (l', al') /\ placed first b l' /\ granted al' /\
    l' ≠ [] /\ (tail_missing l' <-> tail_missing l).
Proof.
  intros Hp Hl Hb HX Hal. unfold gap_beside.
  assert (Hm : exists l1 al1, (if negb (a - 1 <? last + 1) then ccref_add_gap l (last + 1) (a - 1) false CS_MISSING al else (Some l, al))
    = (Some l1, al1) /\ placed (last + 1) b l1 /\ l1 ≠ [] /\ granted al1 /\ (tail_missing l1 <-> tail_missing l)).
  { destruct (Z.ltb_spec (a - 1) (last + 1)); simpl.
    - eexists _, _. split; [reflexivity|]. by replace (last + 1) with a by lia.
    - destruct (add_gap_head a b l (last + 1) CS_MISSING al) as (l1 & al1 & E & H1 & H2 & H3 & H4); try done; [by left|].
      by eexists _, _. }
  destruct Hm as (l1 & al1 & -> & H1 & H2 & H3 & H4).
  destruct (add_gap_head (last + 1) b l1 first CS_RECEIVED al1) as (l' & al' & E & H5 & H6 & H7 & H8); try done; [lia| |].
  { right. split; [by left|]. intros s Hs. apply HX. lia. }
  replace (last + 1 - 1) with last in E by lia. rewrite E. eexists _, _. split; [reflexivity|]. by rewrite H8, H4.
Qed.

(** ** Heartbeats *)

Lemma hb_mark_ok l : forall a b first_sn al,
  placed a b l -> (forall s, s < first_sn -> excused s) -> granted al ->
  exists l' n al', hb_mark l a first_sn al = (l', n, al') /\ placed a b l' /\ granted al' /\ follows l' l.
Proof.
  induction l as [|rp l IH]; intros a b first_sn al Hp HX Hal; simpl; [by eexists _, _, _|].
  destruct (Z.ltb_spec a first_sn) as [Hlt|Hge]; simpl; [|by eexists _, _, _].
  pose proof Hp as Hp0. apply placed_cons in Hp as (Hf & Hle & Hok & Hp).
  pose proof Hok as Hok0. unfold ref_ok in Hok. unfold ref_first, ref_last in *. destruct (u rp) as [cp|first last] eqn:Eu.
  - destruct Hok as [Hst HS]. rewrite bool_decide_true by done. subst a.
    destruct (IH (c_seqnr cp + 1) b first_sn al) as (l' & n & al' & -> & H1 & H2 & H3); try done.
    eexists _, _, _. split; [reflexivity|]. split_and!; [|done|by apply follows_cons].
    apply placed_cons. unfold ref_first, ref_last. rewrite Eu. done.
  - subst first.
    set (st := if bool_decide (state rp = CS_RECEIVED) then CS_RECEIVED else CS_LOST).
    assert (Hst : st = CS_RECEIVED \/ st = CS_LOST) by (unfold st; destruct (bool_decide _); auto).
    destruct (Z.ltb_spec last first_sn) as [Hl|Hl]; simpl.
    + destruct (IH (last + 1) b first_sn al) as (l' & n & al' & -> & H1 & H2 & H3); try done.
      eexists _, _, _. split; [reflexivity|]. split_and!; [|done|].
      * apply placed_cons. unfold ref_first, ref_last. simpl. split_and!; try done. right. split; [done|].
        intros s Hs. apply HX. lia.
      * apply (follows_nodes [_]); [done| |done]. rewrite tail_missing_single. simpl. intros E. destruct Hst; congruence.
    + destruct (insert_gap_ok first_sn last (state rp) al Hal) as (al' & -> & Hal'). eexists _, _, _. split; [reflexivity|].
      split_and!; [|done|].
      * apply placed_cons. unfold ref_first, ref_last. simpl. split_and!; [done|lia| |].
        { right. split; [done|]. intros s Hs. apply HX. lia. }
        replace (first_sn - 1 + 1) with first_sn by lia. apply placed_cons. unfold ref_first, ref_last. simpl.
        split_and!; [done|done| |done]. eapply (range_ok_sub (state rp) a last); [done|lia|done].
      * apply (follows_nodes [_; _]); [done| |done]. rewrite tail_missing_cons, tail_missing_single by done. done.
Qed.

(** ** The invariant *)

Definition inv (r : RemWriter_t) : Prop :=
  1 <= rw_seqnr_next r /\
  exists a b, 1 <= a /\ placed a b (rw_changes r) /\ history (front (rw_changes r) (rw_seqnr_next r)) (delivered r) /\
    (tail_missing (rw_changes r) -> a <= rw_seqnr_next r).

Lemma inv_same r r' : rw_changes r' = rw_changes r -> rw_seqnr_next r' = rw_seqnr_next r -> delivered r' = delivered r -> inv r -> inv r'.
Proof. intros E1 E2 E3. unfold inv. by rewrite E1, E2, E3. Qed.

(** The list is replaced by one that starts where delivery stands or where it
    started before. *)
Lemma inv_list r r' a b a' b' l' :
  1 <= rw_seqnr_next r -> 1 <= a -> placed a b (rw_changes r) -> history (front (rw_changes r) (rw_seqnr_next r)) (delivered r) ->
  rw_changes r' = l' -> rw_seqnr_next r' = rw_seqnr_next r -> delivered r' = delivered r ->
  placed a' b' l' -> l' ≠ [] -> rw_changes r ≠ [] -> (a' = a \/ rw_seqnr_next r <= a' <= a) ->
  (tail_missing l' -> a' <= rw_seqnr_next r) -> inv r'.
Proof.
  intros Hn Ha Hp Hh E1 E2 E3 Hp' Hl' Hl Haa Ht. unfold inv. rewrite E1, E2, E3. split; [done|]. exists a', b'.
  rewrite (front_placed a b _ _ Hp Hl) in Hh. rewrite (front_placed a' b' _ _ Hp' Hl').
  split_and!; [lia|done| |done]. replace (Z.min (rw_seqnr_next r) a') with (Z.min (rw_seqnr_next r) a) by lia. done.
Qed.

Lemma inv_process fl r : inv r -> inv (sfr_process_samples fl r).
Proof.
  intros (Hn & a & b & Ha & Hp & Hh & Ht). unfold sfr_process_samples.
  destruct (rw_changes r) as [|rp l] eqn:El.
  { simpl. apply (inv_same r); simpl; try done. split; [done|]. exists a, b. by rewrite El. }
  destruct (Z.eq_dec a (rw_seqnr_next r)) as [E|Hne].
  - subst a. rewrite (front_placed _ _ _ _ Hp), Z.min_id in Hh by done.
    destruct (process_ok (rp :: l) fl r b Hp Hh) as (H1 & H2 & Hmono & H3 & _).
    split; [lia|]. exists (rw_seqnr_next (process_loop (rp :: l) fl r)), b. split_and!; [lia|done| |lia].
    destruct (rw_changes (process_loop (rp :: l) fl r)) as [|x lx] eqn:Ex; [done|].
    rewrite (front_placed _ _ _ _ H1), Z.min_id by done. done.
  - assert (E : process_loop (rp :: l) fl r = set_changes (rp :: l) r).
    { simpl. apply placed_cons in Hp as (Hf & _). rewrite Hf. destruct (Z.eqb_spec a (rw_seqnr_next r)); [done|].
      simpl. by destruct (negb (processable rp)). }
    rewrite E. split; [done|]. exists a, b. done.
Qed.

Lemma inv_process_if (c : bool) fl r : inv r -> inv (if c then sfr_process_samples fl r else r).
Proof. intros H. destruct c; [by apply inv_process|done]. Qed.

(** ** DATA *)

Section Data.
  Context (cp : Change_t) (ignore : bool) (ans : Answers).
  Context (Hcp : if ignore then excused (c_seqnr cp) else sent cp) (Hclone : clone_ok ans = true) (Hal : granted (allocs ans)).

Lemma first_node_ok r ans' : clone_ok ans' = true -> allocs ans' = allocs ans ->
  inv r -> rw_changes r = [] -> rw_seqnr_next r <= c_seqnr cp -> inv (add_first_node cp ignore ans' r).
Proof.
  intros Hc Ha (Hn & a & b & _ & _ & Hh & _) El Hs. rewrite El in Hh. simpl in Hh.
  destruct (alloc_granted _ Hal) as (al' & Ea & _).
  assert (E : fst (add_sample cp ignore true ans' [] (allocs ans')) =
    Some [mkRef CS_RECEIVED (if ignore then URange (c_seqnr cp) (c_seqnr cp) else UChange cp)]).
  { unfold add_sample, ccref_add_gap, ccref_add_received. simpl. rewrite Hc, Ha, andb_false_r, Ea. simpl.
    rewrite change_eta. by destruct ignore. }
  assert (Hp : placed (c_seqnr cp) (c_seqnr cp + 1) [mkRef CS_RECEIVED (if ignore then URange (c_seqnr cp) (c_seqnr cp) else UChange cp)]).
  { clear E. pose proof (sample_range cp ignore Hcp) as Hsr. destruct ignore; [by apply placed_range; [|..|apply Hsr]|].
    apply placed_single. unfold ref_first, ref_last. simpl. split_and!; done. }
  unfold add_first_node. rewrite E. split; [done|]. exists (c_seqnr cp), (c_seqnr cp + 1).
  split_and!; [lia|done| |by intros ?%tail_missing_single].
  rewrite (front_placed _ _ _ _ Hp) by done. simpl. by rewrite Z.min_l by lia.
Qed.

Lemma data_queue_ok r a b l : 
  1 <= a -> 1 <= rw_seqnr_next r -> rw_changes r = l -> l ≠ [] -> placed a b l -> history (front l (rw_seqnr_next r)) (delivered r) ->
  (tail_missing l -> a <= rw_seqnr_next r) -> rw_seqnr_next r <= c_seqnr cp ->
  exists r', data_queue cp ignore ans r l a (b - 1) = Some r' /\ inv r'.
Proof.
  intros Ha Hn El Hl Hp Hh Ht Hs. unfold data_queue.
  assert (Hend : forall l' r', rw_changes r' = l' -> inv r' ->
    inv (match l' with rp :: _ => if processable rp && rw_heartbeats r' then sfr_process_samples (full ans) r' else r' | [] => r' end)).
  { intros l' r' _ Hi. destruct l'; [done|]. by apply inv_process_if. }
  destruct (Z.ltb_spec (b - 1) (c_seqnr cp)) as [Hafter|Hb1].
  - destruct (data_after_ok cp ignore ans Hcp Hclone Hal a b l) as (l' & -> & Hp' & Hl' & (rp & Hlast & Hst)); [done..|lia|].
    eexists. split; [reflexivity|]. apply Hend; [done|].
    eapply (inv_list r _ a b a (c_seqnr cp + 1) l'); try done; rewrite ?El; try done; [by left|].
    intros (rp' & E & E'). congruence.
  - destruct (Z.ltb_spec (c_seqnr cp) a) as [Hbefore|Ha1].
    + assert (Hnt : ~ tail_missing l) by (intros Htm%Ht; lia).
      destruct (data_before_ok cp ignore ans Hcp Hclone Hal a b l) as (l' & -> & Hp' & Hl' & Htl); [done..|].
      eexists. split; [reflexivity|]. apply Hend; [done|].
      eapply (inv_list r _ a b (c_seqnr cp) b l'); try done; rewrite ?El; try done; [lia|by rewrite Htl].
    + destruct (data_inside_ok cp ignore ans Hcp Hclone Hal a b l) as (l' & ok & q & -> & Hp' & Hl' & Htl); [done|lia|].
      eexists. split; [reflexivity|].
      assert (Hi : inv (if q : bool then queue 1 (set_changes l' r) else set_changes l' r)).
      { eapply (inv_list r _ a b a b l'); rewrite ?El; try done; [by destruct q..|by left|auto]. }
      destruct ok; [|done]. by apply Hend; [destruct q|].
Qed.

Lemma inv_data r : inv r -> exists r', sfr_rel_data cp ignore ans r = Some r' /\ inv r'.
Proof.
  intros Hi0. unfold sfr_rel_data. assert (Hi : inv (set_alive 0 r)) by (by apply (inv_same r)).
  set (r1 := set_alive 0 r) in *. clearbody r1. clear Hi0 r.
  destruct (Z.ltb_spec (c_seqnr cp) (rw_seqnr_next r1)) as [|Hs]; [by eexists|].
  destruct (negb ignore && negb (accepts ans)).
  { eexists. split; [reflexivity|]. destruct (negb _); [done|by apply (inv_same r1)]. }
  pose proof Hi as (Hn & a & b & Ha & Hp & Hh & Ht).
  destruct (rw_changes r1) as [|head l] eqn:El.
  - eexists. split; [reflexivity|]. destruct (Z.eqb_spec (rw_seqnr_next r1) (c_seqnr cp)) as [E|Hne]; simpl.
    2:{ apply first_node_ok; try done. }
    assert (Hdel : ignore = false -> inv (set_seqnr_next (rw_seqnr_next r1 + 1) (deliver cp r1))).
    { intros Ei. rewrite Ei in Hcp. split; [simpl; lia|]. exists 1, 1. simpl. rewrite El. simpl. split_and!; [lia|done| |by intros (? & ? & _)].
      apply history_deliver; [exact Hh|by symmetry|done]. }
    assert (Hfull : inv (add_first_node cp ignore (in_use ans) r1)) by (by apply first_node_ok).
    destruct ignore.
    + split; [simpl; lia|]. exists 1, 1. simpl. rewrite El. simpl. split_and!; [lia|done| |by intros (? & ? & _)].
      apply (history_skip (rw_seqnr_next r1)); [exact Hh|lia|]. intros s Hs'. by replace s with (c_seqnr cp) by lia.
    + rewrite Hclone, andb_false_r. destruct (full ans) as [|[] fl]; [by apply Hdel|exact Hfull|by apply Hdel].
  - assert (Htl : exists tail, last (head :: l) = Some tail).
    { destruct (last (head :: l)) eqn:E; [by eexists|by apply last_None in E]. }
    destruct Htl as [tail Etl]. rewrite Etl.
    rewrite (cov_tail a _ b tail (pl_cov _ _ _ Hp) Etl), (cov_head a head l b (pl_cov _ _ _ Hp)).
    by eapply data_queue_ok.
Qed.
End Data.

(** ** GAP *)

(** No range of the message starts before the list and reaches into it: all
    numbers from [m] on are behind the start of the list, or all numbers to
    [last] are in front of it. *)
Definition clear_of_list (m last : Z) (r : RemWriter_t) : Prop :=
  match rw_changes r with
  | [] => True
  | rp :: _ => ref_first rp <= Z.max m (rw_seqnr_next r) \/ last < ref_first rp
  end.

Lemma clear_later m m' last r : m <= m' -> clear_of_list m last r -> clear_of_list m' last r.
Proof. unfold clear_of_list. intros Hm. destruct (rw_changes r); [done|]. lia. Qed.

Lemma clear_placed a b m last r : placed a b (rw_changes r) -> (rw_changes r ≠ [] -> a <= Z.max m (rw_seqnr_next r)) -> clear_of_list m last r.
Proof.
  intros [Hc _] Ha. unfold clear_of_list. destruct (rw_changes r) as [|rp l]; [done|]. destruct Hc as [<- _]. left. by apply Ha.
Qed.

Lemma gap_range_list r a b first last al :
  1 <= rw_seqnr_next r -> 1 <= a -> placed a b (rw_changes r) -> rw_changes r ≠ [] ->
  (tail_missing (rw_changes r) -> a <= rw_seqnr_next r) ->
  rw_seqnr_next r <= first <= last -> (forall s, first <= s <= last -> excused s) -> granted al ->
  (a <= first \/ last < a) ->
  exists l' al' a' b', (if b - 1 <? first then gap_beside true (b - 1 + 1) (first - 1) first last (rw_changes r) al
     else if last <? a then gap_beside false (last + 1) (a - 1) first last (rw_changes r) al
     else gap_walk (rw_changes r) first last al) = (l', al') /\ placed a' b' l' /\ l' ≠ [] /\ granted al' /\
     (a' = a \/ rw_seqnr_next r <= a' <= a) /\ a' <= first /\ (tail_missing l' -> a' <= rw_seqnr_next r).
Proof.
  intros Hn Ha Hp Hl Ht Hf HX Hal Hclear. pose proof (cov_nonempty _ _ _ (pl_cov _ _ _ Hp) Hl) as Hab.
  destruct (Z.ltb_spec (b - 1) first) as [H1|H1]; [|destruct (Z.ltb_spec last a) as [H2|H2]].
  - replace (b - 1 + 1) with b by lia.
    destruct (gap_after_ok a b (rw_changes r) first last al) as (l' & al' & -> & P1 & P2 & P3 & P4); try done; [lia|].
    exists l', al', a, (last + 1). split_and!; try done; [by left|lia].
  - destruct (gap_before_ok a b (rw_changes r) first last al) as (l' & al' & -> & P1 & P2 & P3 & P4); try done; [lia|].
    exists l', al', first, b. split_and!; try done; [lia|]. rewrite P4. intros Htm%Ht. lia.
  - destruct (gap_walk_ok (rw_changes r) a b first last al) as (l' & al' & -> & P1 & P2 & P3 & P4); try done; [lia|].
    exists l', al', a, b. split_and!; try done; [by intros H%P3|by left|lia|auto].
Qed.

Lemma gap_range_ok first last al r :
  inv r -> granted al -> first <= last -> (forall s, first <= s <= last -> excused s) -> clear_of_list first last r ->
  exists r' al', sfr_rel_gap_range first last al r = (r', al') /\ inv r' /\ granted al' /\
    forall m mlast, first <= m -> last <= mlast -> clear_of_list first mlast r -> clear_of_list m mlast r'.
Proof.
  intros Hi Hal Hf HX Hclear. unfold sfr_rel_gap_range.
  destruct (Z.ltb_spec last (rw_seqnr_next r)) as [Hold|Hnew].
  { exists r, al. split_and!; try done. intros m mlast Hm _. by apply clear_later. }
  set (first' := if first <? rw_seqnr_next r then rw_seqnr_next r else first).
  assert (Ef : first' = Z.max first (rw_seqnr_next r)) by (unfold first'; destruct (Z.ltb_spec first (rw_seqnr_next r)); lia).
  assert (HX' : forall s, first' <= s <= last -> excused s) by (intros s Hs; apply HX; lia).
  pose proof Hi as (Hn & a & b & Ha & Hp & Hh & Ht). destruct (rw_changes r) as [|head l] eqn:El.
  - destruct (alloc_granted al Hal) as (al' & Ea & Hal'). simpl. rewrite Ea. simpl. eexists _, _. split; [reflexivity|].
    assert (Hpl : placed first' (last + 1) [mkRef CS_RECEIVED (URange first' last)]).
    { apply placed_range; [lia|done|right; auto]. }
    split_and!; [|done|].
    + split; [done|]. exists first', (last + 1). split_and!; [lia|done| |by intros ?%tail_missing_single].
      rewrite (front_placed _ _ _ _ Hpl) by done. simpl. by rewrite Z.min_l by lia.
    + intros m mlast Hm _ _. eapply clear_placed; [exact Hpl|]. simpl. lia.
  - destruct (list.last (head :: l)) as [tail|] eqn:Etl; [|by apply last_None in Etl].
    rewrite (cov_tail a _ b tail (pl_cov _ _ _ Hp) Etl), (cov_head a head l b (pl_cov _ _ _ Hp)).
    assert (Hcl : a <= first' \/ last < a).
    { unfold clear_of_list in Hclear. rewrite El, (cov_head a head l b (pl_cov _ _ _ Hp)) in Hclear. lia. }
    destruct (gap_range_list r a b first' last al) as (l' & al' & a' & b' & E & P1 & P2 & P3 & P4 & P5 & P6);
      rewrite ?El; try done; [lia|].
    rewrite El in E. rewrite E. eexists _, _. split; [reflexivity|]. split_and!; [|done|].
    + eapply (inv_list r _ a b a' b' l'); rewrite ?El; try done.
    + intros m mlast Hm _ _. eapply clear_placed; [exact P1|]. simpl. lia.
Qed.

(** The numbers that the bits of a GAP message name. *)
Definition bit_set (bm : list Z) (base s : Z) (n : Z) : Prop :=
  exists i, 0 <= i < n /\ s = base + i /\ SET_CONTAINS bm i = Some true.

Lemma gap_bits_ok bm base n : (forall s, bit_set bm base s n -> excused s) -> (forall i, 0 <= i < n -> is_Some (SET_CONTAINS bm i)) ->
  forall k i run al r,
  Z.of_nat k = n - i -> 0 <= i -> inv r -> granted al ->
  match run with
  | Some f => base <= f < base + i /\ (forall s, f <= s < base + i -> excused s) /\ clear_of_list f (base + n - 1) r
  | None => clear_of_list (base + i) (base + n - 1) r
  end ->
  exists r', gap_bits k i bm base run al r = Some r' /\ inv r'.
Proof.
  intros HX Hbm. induction k as [|k IH]; intros i run al r Hk Hi Hinv Hal Hrun; simpl.
  - eexists. split; [reflexivity|]. destruct run as [f|]; [|done]. destruct Hrun as (Hf & HXf & Hcl).
    destruct (gap_range_ok f (base + i - 1) al r) as (r' & al' & -> & Hi' & _); try done; [lia|intros s Hs; apply HXf; lia|].
    replace (base + i - 1) with (base + n - 1) by lia. done.
  - destruct (Hbm i ltac:(lia)) as [bit Eb]. rewrite Eb. simpl. destruct bit.
    + assert (Hxi : excused (base + i)) by (apply HX; exists i; split; [lia|done]).
      apply IH; [lia|lia|done|done|]. destruct run as [f|].
      * destruct Hrun as (Hf & HXf & Hcl). split; [lia|]. split; [|done]. intros s Hs.
        destruct (Z.eq_dec s (base + i)) as [->|]; [done|apply HXf; lia].
      * split; [lia|]. split; [|done]. intros s Hs. by replace s with (base + i) by lia.
    + destruct run as [f|].
      * destruct Hrun as (Hf & HXf & Hcl).
        destruct (gap_range_ok f (base + i - 1) al r) as (r' & al' & -> & Hi' & Hal' & Hcl'); try done;
          [lia|intros s Hs; apply HXf; lia| |].
        { unfold clear_of_list in *. destruct (rw_changes r); [done|]. lia. }
        apply IH; [lia|lia|done|done|]. apply Hcl'; [lia|lia|done].
      * apply IH; [lia|lia|done|done|]. eapply clear_later; [|exact Hrun]. lia.
Qed.

Lemma inv_gap start base numbits bm ans r :
  (forall s, start <= s < base \/ bit_set bm base s numbits -> excused s) ->
  0 <= numbits -> (forall i, 0 <= i < numbits -> is_Some (SET_CONTAINS bm i)) ->
  clear_of_list (Z.min start base) (base + numbits - 1) r -> granted (allocs ans) -> inv r ->
  exists r', sfr_rel_gap start base numbits bm ans r = Some r' /\ inv r'.
Proof.
  intros HX Hn Hbm Hcl Hal Hi0. unfold sfr_rel_gap.
  assert (Hi : inv (set_alive 0 r)) by (by apply (inv_same r)).
  assert (Hcl1 : clear_of_list (Z.min start base) (base + numbits - 1) (set_alive 0 r)) by done.
  set (r1 := set_alive 0 r) in *. clearbody r1. clear Hi0 Hcl r.
  assert (H1 : exists r2 al, (if start <? base then sfr_rel_gap_range start (base - 1) (allocs ans) r1 else (r1, allocs ans)) = (r2, al) /\
    inv r2 /\ granted al /\ clear_of_list (base + 0) (base + numbits - 1) r2).
  { destruct (Z.ltb_spec start base) as [Hlt|Hge].
    - replace (Z.min start base) with start in Hcl1 by lia.
      destruct (gap_range_ok start (base - 1) (allocs ans) r1) as (r2 & al & -> & Hi2 & Hal2 & Hcl2); try done; [lia| | |].
      { intros s Hs. apply HX. left. lia. }
      { unfold clear_of_list in *. destruct (rw_changes r1); [done|]. lia. }
      exists r2, al. split_and!; try done. apply Hcl2; [lia|lia|done].
    - eexists _, _. split; [reflexivity|]. split_and!; try done. eapply clear_later; [|exact Hcl1]. lia. }
  destruct H1 as (r2 & al & -> & Hi2 & Hal2 & Hcl2).
  destruct (gap_bits_ok bm base numbits) with (k := Z.to_nat numbits) (i := 0) (run := @None Z) (al := al) (r := r2)
    as (r3 & -> & Hi3); try done; [intros s Hs; apply HX; by right|lia|].
  simpl. eexists. split; [reflexivity|]. destruct (rw_changes r3); [done|]. by apply inv_process_if.
Qed.

(** ** HEARTBEAT *)

Lemma hb_gaps_ok last_sn al r : inv r -> granted al ->
  exists r' ok, hb_gaps (rw_seqnr_next r) last_sn al r = (r', ok) /\ inv r'.
Proof.
  intros Hi Hal. unfold hb_gaps. destruct (Z.ltb_spec last_sn (rw_seqnr_next r)) as [|Hls]; [by eexists _, _|].
  pose proof Hi as (Hn & a & b & Ha & Hp & Hh & Ht). destruct (rw_changes r) as [|head l] eqn:El.
  - destruct (alloc_granted al Hal) as (al' & Ea & _). simpl. rewrite Ea. simpl. eexists _, _. split; [reflexivity|].
    assert (Hpl : placed (rw_seqnr_next r) (last_sn + 1) [mkRef CS_MISSING (URange (rw_seqnr_next r) last_sn)]).
    { apply placed_range; [lia|done|by left]. }
    split; [done|]. exists (rw_seqnr_next r), (last_sn + 1). split_and!; [lia|done| |simpl; lia].
    rewrite (front_placed _ _ _ _ Hpl) by done. simpl. by rewrite Z.min_id.
  - destruct (last (head :: l)) as [tail|] eqn:Etl; [|by apply last_None in Etl].
    rewrite (cov_tail a _ b tail (pl_cov _ _ _ Hp) Etl), (cov_head a head l b (pl_cov _ _ _ Hp)).
    assert (H1 : exists l1 al1 a1, (if rw_seqnr_next r <? a then hb_missing_before (head :: l) (rw_seqnr_next r) (a - 1) al
        else (Some (head :: l), al)) = (Some l1, al1) /\ placed a1 b l1 /\ l1 ≠ [] /\ granted al1 /\
        (a1 = a \/ rw_seqnr_next r <= a1 <= a) /\ a1 <= rw_seqnr_next r).
    { destruct (Z.ltb_spec (rw_seqnr_next r) a) as [Hlt|Hge].
      - destruct (hb_missing_before_ok a b (head :: l) (rw_seqnr_next r) al) as (l1 & al1 & -> & P1 & P2 & P3); try done.
        exists l1, al1, (rw_seqnr_next r). split_and!; try done; lia.
      - exists (head :: l), al, a. split_and!; try done. by left. }
    destruct H1 as (l1 & al1 & a1 & -> & P1 & P2 & P3 & P4 & P5).
    destruct (Z.ltb_spec (b - 1) last_sn) as [Hlt|Hge].
    + replace (b - 1 + 1) with b by lia.
      destruct (missing_after_ok a1 b l1 last_sn al1) as (l2 & al2 & -> & Q1 & Q2 & Q3); try done; [lia|].
      eexists _, _. split; [reflexivity|]. eapply (inv_list r _ a b a1 (last_sn + 1) l2); rewrite ?El; try done.
    + eexists _, _. split; [reflexivity|]. eapply (inv_list r _ a b a1 b l1); rewrite ?El; try done.
Qed.

(** Delivery may go on at the first number the writer still has. *)
Lemma inv_forward r r' f :
  inv r -> (forall s, s < f -> excused s) -> rw_seqnr_next r < f ->
  rw_changes r' = rw_changes r -> rw_seqnr_next r' = f -> delivered r' = delivered r -> inv r'.
Proof.
  intros (Hn & a & b & Ha & Hp & Hh & Ht) HX Hf E1 E2 E3. unfold inv. rewrite E1, E2, E3. split; [lia|].
  exists a, b. split_and!; try done; [|intros H%Ht; lia].
  eapply history_skip; [exact Hh|destruct (rw_changes r); simpl; lia|]. intros s Hs. apply HX.
  destruct (rw_changes r); simpl in Hs; lia.
Qed.

Lemma hb_lost_ok first_sn ans r :
  inv r -> (forall s, s < first_sn -> excused s) -> granted (allocs ans) ->
  exists r' al, hb_lost first_sn ans r = (r', al) /\ inv r' /\ granted al.
Proof.
  intros Hi HX Hal. pose proof Hi as (Hn & a & b & Ha & Hp & Hh & Ht). unfold hb_lost.
  destruct (rw_changes r) as [|head l] eqn:El; [by eexists _, _|]. rewrite (cov_head a head l b (pl_cov _ _ _ Hp)).
  destruct (hb_mark_ok (head :: l) a b first_sn (allocs ans) Hp HX Hal) as (l' & n & al & -> & Hp' & Hal' & Hf1 & Hf2).
  assert (Hl' : l' ≠ []) by (by intros ?%Hf1).
  cbn zeta. set (r1 := if n =? 0 then set_changes l' r else samples_lost n (set_changes l' r)).
  assert (E1 : rw_changes r1 = l' /\ rw_seqnr_next r1 = rw_seqnr_next r /\ delivered r1 = delivered r) by (unfold r1; by destruct (n =? 0)).
  clearbody r1. destruct E1 as (E1 & E2 & E3). rewrite (front_placed _ _ _ _ Hp) in Hh by done.
  eexists _, _. split; [reflexivity|]. split; [|done]. rewrite E2.
  destruct (Z.ltb_spec first_sn a) as [H1|H1]; simpl.
  { split; [lia|]. exists a, b. rewrite E1, E2, E3, (front_placed _ _ _ _ Hp') by done. split_and!; try done. intros H%Hf2. auto. }
  destruct (Z.ltb_spec (rw_seqnr_next r) first_sn) as [H2|H2]; simpl.
  2:{ split; [lia|]. exists a, b. rewrite E1, E2, E3, (front_placed _ _ _ _ Hp') by done. split_and!; try done. intros H%Hf2. auto. }
  apply inv_process. split; [simpl; lia|]. exists a, b. simpl. rewrite E1, E3, (front_placed _ _ _ _ Hp') by done.
  split_and!; try done; try lia. eapply history_skip; [exact Hh|lia|]. intros s Hs. apply HX. lia.
Qed.

Lemma hb_update_ok first_sn last_sn ans r :
  inv r -> (forall s, s < first_sn -> excused s) -> granted (allocs ans) ->
  exists r' ok, hb_update first_sn last_sn ans r = (r', ok) /\ inv r'.
Proof.
  intros Hi HX Hal. unfold hb_update. destruct (hb_lost_ok first_sn ans r Hi HX Hal) as (r1 & al & -> & Hi1 & Hal1). clear Hi.
  cbn zeta. set (r2 := if rw_seqnr_next r1 <? first_sn then
    set_seqnr_next first_sn (samples_lost (SEQNR_DELTA (snr_of (rw_seqnr_next r1)) (snr_of first_sn)) r1) else r1).
  assert (H2 : inv r2 /\ first_sn <= rw_seqnr_next r2).
  { unfold r2. destruct (Z.ltb_spec (rw_seqnr_next r1) first_sn) as [Hlt|Hge]; [|done].
    split; [by eapply (inv_forward r1 _ first_sn)|simpl; lia]. }
  clearbody r2. destruct H2 as [Hi2 Hge].
  assert (E : (if first_sn <? rw_seqnr_next r2 then rw_seqnr_next r2 else first_sn) = rw_seqnr_next r2).
  { destruct (Z.ltb_spec first_sn (rw_seqnr_next r2)); lia. }
  rewrite E. by apply hb_gaps_ok.
Qed.
End Proxy.

(** ** ACKNACK messages can be built *)

Section Ack.
  Context (cache_acks heartbeat_resp_delay : bool).

Lemma set_add_some bm n : zlen bm = 8 -> 0 <= n < 256 -> exists bm', SET_ADD bm n = Some bm' /\ zlen bm' = 8.
Proof.
  intros Hl Hn. unfold SET_ADD. assert (0 <= Z.shiftr n 5 < 8).
  { rewrite Z.shiftr_div_pow2 by lia. split; [apply Z.div_pos; lia|apply Z.div_lt_upper_bound; lia]. }
  destruct (zget_lookup_Some bm (Z.shiftr n 5)) as [w ->]; [lia|]. simpl. rewrite zset_Some by lia.
  eexists. split; [done|]. by rewrite <- Hl; unfold zlen; rewrite length_insert.
Qed.

Lemma zset_word bm n : zlen bm = 8 -> 0 <= n < 256 -> exists bm', zset bm (Z.shiftr n 5) 0 = Some bm' /\ zlen bm' = 8.
Proof.
  intros Hl Hn. assert (0 <= Z.shiftr n 5 < 8).
  { rewrite Z.shiftr_div_pow2 by lia. split; [apply Z.div_pos; lia|apply Z.div_lt_upper_bound; lia]. }
  rewrite zset_Some by lia. eexists. split; [done|]. by rewrite <- Hl; unfold zlen; rewrite length_insert.
Qed.

Definition ack_some (o : option (Z * list Z)) : Prop := exists n bm, o = Some (n, bm) /\ zlen bm = 8 /\ 0 <= n <= 256.

(** One element of the bitmap. *)
Lemma ack_step (missing : bool) n bm (k : Z -> list Z -> option (Z * list Z)) :
  zlen bm = 8 -> 0 <= n < 256 -> (forall bm', zlen bm' = 8 -> n + 1 < 256 -> ack_some (k (n + 1) bm')) ->
  ack_some (bm ← (if missing then SET_ADD bm n else Some bm);
            if 256 <=? n + 1 then Some (n + 1, bm)
            else bm ← (if Z.land (n + 1) 31 =? 0 then zset bm (Z.shiftr (n + 1) 5) 0 else Some bm); k (n + 1) bm).
Proof.
  intros Hl Hn Hk.
  assert (H1 : exists bm1, (if missing then SET_ADD bm n else Some bm) = Some bm1 /\ zlen bm1 = 8).
  { destruct missing; [by apply set_add_some|by exists bm]. }
  destruct H1 as (bm1 & -> & Hl1). simpl. destruct (Z.leb_spec 256 (n + 1)) as [H|H].
  { exists (n + 1), bm1. split; [done|]. split; [done|lia]. }
  destruct (Z.land (n + 1) 31 =? 0); [|by apply Hk].
  destruct (zset_word bm1 (n + 1) Hl1 ltac:(lia)) as (bm2 & -> & Hl2). simpl. by apply Hk.
Qed.

Lemma ack_range_some k : forall st snr last r n bm,
  zlen bm = 8 -> 0 <= n < 256 -> ack_some (ack_range cache_acks k st snr last r n bm).
Proof.
  assert (Hstop : forall n bm, zlen bm = 8 -> 0 <= n < 256 -> ack_some (Some (n, bm))).
  { intros n bm Hl Hn. exists n, bm. split; [done|]. split; [done|lia]. }
  induction k as [|k IH]; intros st snr last r n bm Hl Hn; simpl; [by apply Hstop|].
  destruct (last <? snr); [by apply Hstop|]. destruct (_ && cache_acks); [by apply Hstop|].
  destruct (rw_blocked r && _); [by apply Hstop|].
  apply (ack_step _ n bm (fun n bm => ack_range cache_acks k st (snr + 1) last r n bm)); [done|done|].
  intros bm' Hl' Hn'. apply IH; [done|lia].
Qed.

Lemma ack_loop_some l : forall r n bm, zlen bm = 8 -> 0 <= n < 256 -> ack_some (ack_loop cache_acks l r n bm).
Proof.
  assert (Hstop : forall n bm, zlen bm = 8 -> 0 <= n <= 256 -> ack_some (Some (n, bm))).
  { intros n bm Hl Hn. by exists n, bm. }
  induction l as [|rp l IH]; intros r n bm Hl Hn; simpl; [apply Hstop; [done|lia]|].
  destruct (u rp) as [cp|first last].
  - destruct (_ && cache_acks); [apply Hstop; [done|lia]|]. destruct (rw_blocked r); [apply Hstop; [done|lia]|].
    apply (ack_step _ n bm (fun n bm => ack_loop cache_acks l r n bm)); [done|done|].
    intros bm' Hl' Hn'. apply IH; [done|lia].
  - destruct (ack_range_some (Z.to_nat (256 - n)) (state rp) first last r n bm Hl Hn) as (n1 & bm1 & -> & Hl1 & Hn1). simpl.
    destruct (Z.leb_spec 256 n1); [by apply Hstop|]. apply IH; [done|lia].
Qed.

Lemma do_ack_some ans r : zlen (junk ans) = 8 ->
  exists n bm, sfr_rel_do_ack_nl cache_acks ans r = Some (send_acknack (mkAck (rw_seqnr_next r) n bm) r).
Proof.
  intros Hj. unfold sfr_rel_do_ack_nl. rewrite zset_Some by lia. simpl.
  destruct (ack_loop_some (rw_changes r) r 0 (<[0%nat := 0]> (junk ans))) as (n & bm & E & _).
  { by rewrite <- Hj; unfold zlen; rewrite length_insert. } { lia. }
  change (Z.to_nat 0) with 0%nat. rewrite E. by exists n, bm.
Qed.
End Ack.
