(* ===== verification/SfrrKept.v ===== *)
(** What a reliable reader has received it keeps: until it is delivered, a
    sample stays in the list of changes; and only an ACKNACK adds to [acks]. *)

From S2P Require Import Prelude Seqnr Clist Sfrr SfrrProps.
From stdpp Require Import list.

#[local] Open Scope Z_scope.

(** ** Lists *)

Definition sample_node (cp : Change_t) : CCREF := mkRef CS_RECEIVED (UChange cp).

(** The received samples stay. *)
Definition stays (l l' : list CCREF) : Prop := forall cp, sample_node cp ∈ l -> sample_node cp ∈ l'.

#[export] Instance stays_refl : Reflexive stays.
Proof. by intros l cp. Qed.

#[export] Instance stays_trans : Transitive stays.
Proof. intros l1 l2 l3 H1 H2 cp H. by apply H2, H1. Qed.

Lemma stays_app l1 l1' l2 l2' : stays l1 l1' -> stays l2 l2' -> stays (l1 ++ l2) (l1' ++ l2').
Proof. intros H1 H2 cp. rewrite !elem_of_app. intros [H|H]; [left; by apply H1|right; by apply H2]. Qed.

Lemma stays_cons x l l' : stays l l' -> stays (x :: l) (x :: l').
Proof. intros H. apply (stays_app [x] [x]); [done|done]. Qed.

(** A range goes, or changes. *)
Lemma stays_range st first last l : stays (mkRef st (URange first last) :: l) l.
Proof. intros cp. by intros [H|H]%elem_of_cons. Qed.

Lemma stays_more l x : stays l (x ++ l).
Proof. intros cp H. apply elem_of_app. by right. Qed.

Lemma stays_snoc l x : stays l (l ++ x).
Proof. intros cp H. apply elem_of_app. by left. Qed.

Lemma stays_range_cons st first last x l l' : stays l l' -> stays (mkRef st (URange first last) :: l) (x :: l').
Proof. intros H. etrans; [apply stays_range|]. etrans; [exact H|]. apply (stays_more l' [x]). Qed.

(** The last node is a range that changes. *)
Lemma stays_tail l st first last x : list.last l = Some (mkRef st (URange first last)) -> stays l (removelast l ++ [x]).
Proof.
  intros [l' ->]%last_Some. rewrite removelast_snoc. apply stays_app; [done|]. intros cp H%list_elem_of_singleton. done.
Qed.

Lemma stays_list_add tail rp l : stays l (list_add tail rp l).
Proof. destruct tail; [apply stays_snoc|apply (stays_more l [rp])]. Qed.

Lemma stays_add_gap l first last tail st al l' : (ccref_add_gap l first last tail st al).1 = Some l' -> stays l l'.
Proof.
  unfold ccref_add_gap. assert (Hnew : forall x, x = (let '(ok, al) := alloc al in (if ok then Some (list_add tail (mkRef st (URange first last)) l) else None, al)) -> x.1 = Some l' -> stays l l').
  { intros x ->. destruct (alloc al) as [[] al']; [|done]. intros [= <-]. apply stays_list_add. }
  destruct tail.
  - destruct (list.last l) as [[xst [cp|xf xl]]|] eqn:El; try (by apply Hnew). case_decide; [|by apply Hnew]. intros [= <-]. by eapply stays_tail.
  - destruct l as [|[xst [cp|xf xl]] l]; try (by apply Hnew). case_decide; [|by apply Hnew]. intros [= <-]. by apply stays_range_cons.
Qed.

Lemma stays_add_sample cp ignore tail ans l al l' : (add_sample cp ignore tail ans l al).1 = Some l' -> stays l l'.
Proof.
  unfold add_sample. destruct ignore; [apply stays_add_gap|]. unfold ccref_add_received. destruct (_ && _); [done|]. destruct (alloc al) as [[] al']; [|done].
  intros [= <-]. apply stays_list_add.
Qed.

Lemma stays_missing_after l first last al l' : (missing_after l first last al).1 = Some l' -> stays l l'.
Proof.
  unfold missing_after. destruct (list.last l) as [[st [cp|f x]]|] eqn:El; [destruct st; apply stays_add_gap| |apply stays_add_gap].
  destruct st; try apply stays_add_gap. intros [= <-]. by eapply stays_tail.
Qed.

Lemma stays_missing_before l first last al l' : (data_missing_before l first last al).1 = Some l' -> stays l l'.
Proof.
  unfold data_missing_before. destruct l as [|[st [cp|f x]] l]; [apply stays_add_gap|apply stays_add_gap|]. destruct (match list.last _ with Some _ => _ | None => _ end); [|apply stays_add_gap].
  intros [= <-]. by apply stays_range_cons.
Qed.

Lemma stays_hb_before l first last al l' : (hb_missing_before l first last al).1 = Some l' -> stays l l'.
Proof.
  unfold hb_missing_before. destruct l as [|[st [cp|f x]] l]; [apply stays_add_gap|destruct st; apply stays_add_gap|]. destruct st; try apply stays_add_gap.
  intros [= <-]. by apply stays_range_cons.
Qed.

Lemma stays_data_after cp ignore ans l n : stays l (data_after cp ignore ans l n).1.
Proof.
  unfold data_after. destruct (negb _).
  - destruct (missing_after _ _ _ _) as [[l1|] al] eqn:E; [|done]. apply (f_equal fst) in E. apply stays_missing_after in E. destruct (add_sample _ _ _ _ _ _).1 as [l2|] eqn:E2; [|done].
    apply stays_add_sample in E2. by etrans.
  - destruct (add_sample _ _ _ _ _ _).1 as [l2|] eqn:E2; [|done]. by apply stays_add_sample in E2.
Qed.

Lemma stays_data_before cp ignore ans l n : stays l (data_before cp ignore ans l n).1.
Proof.
  unfold data_before. destruct (negb _).
  - destruct (data_missing_before _ _ _ _) as [[l1|] al] eqn:E; [|done]. apply (f_equal fst) in E. apply stays_missing_before in E. destruct (add_sample _ _ _ _ _ _).1 as [l2|] eqn:E2; [|done].
    apply stays_add_sample in E2. by etrans.
  - destruct (add_sample _ _ _ _ _ _).1 as [l2|] eqn:E2; [|done]. by apply stays_add_sample in E2.
Qed.

Lemma find_ref_split snr l l1 rp l2 : find_ref snr l = Some (l1, rp, l2) -> l = l1 ++ rp :: l2.
Proof.
  revert l1. induction l as [|x l IH]; intros l1; cbn [find_ref]; [done|]. destruct (match u x with UChange _ => _ | URange _ _ => _ end); [by intros [= <- <- <-]|].
  destruct (find_ref snr l) as [[[m y] l']|] eqn:E; [|done]. cbn. intros [= <- <- <-]. cbn. f_equal. by apply IH.
Qed.

Lemma stays_data_inside cp ignore ans l l' ok q : data_inside cp ignore ans l = Some (l', ok, q) -> stays l l'.
Proof.
  unfold data_inside. destruct (find_ref _ l) as [[[l1 rp] l2]|] eqn:Ef; [|by intros [= <- _ _]]. apply find_ref_split in Ef as ->. destruct (negb _); [by intros [= <- _ _]|].
  destruct rp as [st [c|first last]]; [done|]. cbn [u state].
  assert (Hsame : forall g1 x, stays (l1 ++ mkRef st (URange first last) :: l2) (l1 ++ g1 ++ x ++ l2)).
  { intros g1 x. apply stays_app; [done|]. etrans; [apply stays_range|]. etrans; [apply (stays_more _ x)|apply stays_more]. }
  destruct (if first <? _ then _ else _) as [[g1|] al]; [|by intros [= <- _ _]]. destruct (if _ <? last then _ else _) as [[g2|] al2].
  2:{ intros [= <- _ _]. apply stays_app; [done|]. apply stays_more. }
  destruct ignore; [intros [= <- _ _]; apply (Hsame g1 (_ :: g2))|]. destruct (_ && _); intros [= <- _ _]; apply (Hsame g1 (_ :: g2)).
Qed.

Lemma stays_gap_walk l : forall first last al, stays l (gap_walk l first last al).1.
Proof.
  induction l as [|rp l IH]; intros first last al; cbn [gap_walk]; [done|]. destruct rp as [st [cp|rfirst rlast]]; cbn [u].
  - match goal with |- context [if last <? ?f then _ else _] => destruct (last <? f); [by apply stays_cons|]; specialize (IH f last al) end.
    destruct (gap_walk _ _ _ _) as [l' al']. by apply stays_cons.
  - destruct (rlast <? first); [specialize (IH first last al); destruct (gap_walk _ _ _ _) as [l' al']; by apply stays_cons|].
    destruct (if negb _ then _ else _) as [nodes al1]. match goal with |- context [if last <? ?f then _ else _] => destruct (last <? f) end.
    + etrans; [apply stays_range|apply stays_more].
    + match goal with |- context [gap_walk l ?f last al1] => specialize (IH f last al1) end. destruct (gap_walk _ _ _ _) as [l' al']. etrans; [apply stays_range|]. etrans; [exact IH|apply stays_more].
Qed.

Lemma stays_gap_beside tail mfirst mlast first last l al : stays l (gap_beside tail mfirst mlast first last l al).1.
Proof.
  unfold gap_beside. destruct (negb _).
  - destruct (ccref_add_gap _ _ _ _ CS_MISSING _) as [[l1|] al1] eqn:E; [|done]. apply (f_equal fst) in E. apply stays_add_gap in E.
    destruct (ccref_add_gap l1 _ _ _ _ _) as [[l2|] al2] eqn:E2; [|done]. apply (f_equal fst) in E2. apply stays_add_gap in E2. by etrans.
  - destruct (ccref_add_gap l _ _ _ _ _) as [[l2|] al2] eqn:E2; [|done]. apply (f_equal fst) in E2. by apply stays_add_gap in E2.
Qed.

Lemma stays_hb_mark l : forall snr first_sn al, stays l (hb_mark l snr first_sn al).1.1.
Proof.
  induction l as [|rp l IH]; intros snr first_sn al; cbn [hb_mark]; [done|]. destruct (negb _); [done|]. destruct rp as [st [cp|first last]]; cbn [u state].
  - specialize (IH (snr + 1) first_sn al). destruct (hb_mark _ _ _ _) as [[l' n] al']. cbn in IH. destruct (negb _) eqn:Es; [|by apply stays_cons].
    intros c [H|H]%elem_of_cons; [|right; by apply IH]. injection H as <- <-. by rewrite bool_decide_true in Es.
  - destruct (negb _).
    + destruct (ccref_insert_gap _ _ _ _) as [[g|] al']; cbn; [|by apply stays_range_cons]. apply stays_range_cons. apply (stays_more l [g]).
    + specialize (IH (last + 1) first_sn al). destruct (hb_mark _ _ _ _) as [[l' n] al']. by apply stays_range_cons.
Qed.

(** ** Proxies *)

(** The reader has the sample: it was delivered or waits in the list. *)
Definition held (cp : Change_t) (r : RemWriter_t) : Prop := cp ∈ delivered r \/ sample_node cp ∈ rw_changes r.

(** No sample is given up, and no ACKNACK is sent. *)
Definition keeps (r r' : RemWriter_t) : Prop := (forall cp, held cp r -> held cp r') /\ acks r' = acks r.

#[export] Instance keeps_refl : Reflexive keeps.
Proof. by intros r. Qed.

#[export] Instance keeps_trans : Transitive keeps.
Proof. intros r1 r2 r3 [H1 E1] [H2 E2]. split; [auto|congruence]. Qed.

Lemma keeps_list r r' : stays (rw_changes r) (rw_changes r') -> delivered r' = delivered r -> acks r' = acks r -> keeps r r'.
Proof. intros Hs Ed Ea. split; [|done]. intros cp [H|H]; [left; by rewrite Ed|right; by apply Hs]. Qed.

(** The other fields. *)
Lemma keeps_same r r' : rw_changes r' = rw_changes r -> delivered r' = delivered r -> acks r' = acks r -> keeps r r'.
Proof. intros El. apply keeps_list. by rewrite El. Qed.

Lemma keeps_process_loop l : forall fl r, (forall cp, cp ∈ delivered r \/ sample_node cp ∈ l -> held cp (process_loop l fl r)) /\ acks (process_loop l fl r) = acks r.
Proof.
  induction l as [|rp l IH]; intros fl r; cbn [process_loop]; [done|]. destruct (negb _); [done|]. destruct (negb _); [done|].
  destruct rp as [st [c|first last]]; cbn [u state].
  - case_bool_decide as Hst; [subst st|].
    + assert (Hgo : forall fl, let r1 := set_seqnr_next (c_seqnr c + 1) (queue (-1) (deliver c r)) in
        (forall cp, cp ∈ delivered r \/ sample_node cp ∈ sample_node c :: l -> held cp (process_loop l fl r1)) /\ acks (process_loop l fl r1) = acks r).
      { intros fl1 r1. destruct (IH fl1 r1) as [H1 H2]. split; [|by rewrite H2]. intros cp [H|H]; apply H1; cbn.
        - left. apply elem_of_app. by left.
        - apply elem_of_cons in H as [H|H]; [|by right]. injection H as ->. left. apply elem_of_app. right. by left. }
      destruct fl as [|[] fl]; [apply (Hgo [])|done|apply (Hgo fl)].
    + match goal with |- context [process_loop l fl ?r1] => destruct (IH fl r1) as [H1 H2] end. split; [|by rewrite H2]. intros cp [H|H]; apply H1; [by left|].
      apply elem_of_cons in H as [H|H]; [|by right]. by injection H as <- <-.
  - match goal with |- context [process_loop l fl ?r1] => destruct (IH fl r1) as [H1 H2] end. split; [|by rewrite H2]. intros cp [H|H]; apply H1; [by left|].
    apply elem_of_cons in H as [H|H]; [done|by right].
Qed.

Lemma keeps_process fl r : keeps r (sfr_process_samples fl r).
Proof. destruct (keeps_process_loop (rw_changes r) fl r) as [H1 H2]. by split. Qed.

Lemma keeps_process_if (b : bool) fl r r' : keeps r r' -> keeps r (if b then sfr_process_samples fl r' else r').
Proof. intros H. destruct b; [|done]. etrans; [exact H|apply keeps_process]. Qed.

Lemma keeps_queued l (ok : bool) fl r r' : keeps r r' ->
  keeps r (if ok then let r := queue 1 r' in match l with rp :: _ => if processable rp && rw_heartbeats r then sfr_process_samples fl r else r | [] => r end else r').
Proof.
  intros H. destruct ok; [|done]. cbv zeta. assert (H1 : keeps r (queue 1 r')) by (etrans; [exact H|by apply keeps_same]). destruct l; [done|]. by apply keeps_process_if.
Qed.

Lemma keeps_data cp ignore ans r r' : sfr_rel_data cp ignore ans r = Some r' -> keeps r r'.
Proof.
  unfold sfr_rel_data. set (r0 := set_alive 0 r). assert (H0 : keeps r r0) by by apply keeps_same. destruct (c_seqnr cp <? _); [by intros [= <-]|].
  destruct (_ && _); [intros [= <-]; destruct (negb _); [done|]; etrans; [exact H0|by apply keeps_same]|].
  assert (Hfirst : forall ans, rw_changes r0 = [] -> keeps r0 (add_first_node cp ignore ans r0)).
  { intros ans' El. unfold add_first_node. destruct (add_sample _ _ _ _ _ _).1 as [l1|] eqn:E; [|done]. apply keeps_list; [by rewrite El; apply stays_add_sample in E|done|done]. }
  assert (Hempty : forall x, rw_changes r0 = [] -> x = (if negb (rw_seqnr_next r0 =? c_seqnr cp) then add_first_node cp ignore ans r0
      else if ignore then set_seqnr_next (rw_seqnr_next r0 + 1) r0
      else if shared ans && negb (clone_ok ans) then r0
      else match full ans with true :: _ => add_first_node cp ignore (in_use ans) r0 | _ => set_seqnr_next (rw_seqnr_next r0 + 1) (deliver cp r0) end) -> keeps r x).
  { intros x El ->. etrans; [exact H0|]. destruct (negb _); [by apply Hfirst|]. destruct ignore; [by apply keeps_same|]. destruct (_ && _); [done|].
    assert (Hd : keeps r0 (set_seqnr_next (rw_seqnr_next r0 + 1) (deliver cp r0))).
    { split; [|done]. intros c [H|H]; [left|by right]. cbn. apply elem_of_app. by left. }
    destruct (full ans) as [|[] fl]; [done|by apply Hfirst|done]. }
  destruct (rw_changes r0) as [|head l] eqn:El; [by intros [= <-]; apply Hempty|]. destruct (last (head :: l)) as [tail|] eqn:Et; [|by apply last_None in Et].
  unfold data_queue. destruct (ref_last tail <? _).
  - pose proof (stays_data_after cp ignore ans (head :: l) (ref_last tail)) as Hs. destruct (data_after _ _ _ _ _) as [l' ok]. cbn in Hs. intros [= <-]. apply keeps_queued. etrans; [exact H0|].
    apply keeps_list; [by rewrite El|done|done].
  - destruct (_ <? ref_first head).
    + pose proof (stays_data_before cp ignore ans (head :: l) (ref_first head)) as Hs. destruct (data_before _ _ _ _ _) as [l' ok]. cbn in Hs. intros [= <-]. apply keeps_queued. etrans; [exact H0|].
      apply keeps_list; [by rewrite El|done|done].
    + destruct (data_inside _ _ _ _) as [[[l' ok] q]|] eqn:Ed; [|done]. cbn. intros [= <-]. apply stays_data_inside in Ed.
      assert (H1 : keeps r (if q then queue 1 (set_changes l' r0) else set_changes l' r0)).
      { etrans; [exact H0|]. destruct q; (apply keeps_list; [by rewrite El|done|done]). }
      destruct ok; [|done]. destruct l'; [done|]. by apply keeps_process_if.
Qed.

Lemma keeps_gap_range first last al r : keeps r (sfr_rel_gap_range first last al r).1.
Proof.
  unfold sfr_rel_gap_range. destruct (last <? _); [done|]. cbv zeta. set (first1 := if first <? _ then _ else _).
  set (x := match rw_changes r with [] => _ | _ :: _ => _ end). assert (Hs : stays (rw_changes r) x.1).
  { unfold x. destruct (rw_changes r) as [|head l] eqn:El; [by intros cp H%elem_of_nil|]. destruct (list.last (head :: l)) as [tail|] eqn:Et; [|by apply last_None in Et].
    destruct (_ <? first1); [apply stays_gap_beside|]. destruct (last <? _); [apply stays_gap_beside|apply stays_gap_walk]. }
  destruct x as [l' al']. by apply keeps_list.
Qed.

Lemma keeps_gap_bits k : forall i bm base run al r r', gap_bits k i bm base run al r = Some r' -> keeps r r'.
Proof.
  induction k as [|k IH]; intros i bm base run al r r'; cbn [gap_bits].
  - intros [= <-]. destruct run; [apply keeps_gap_range|done].
  - destruct (SET_CONTAINS bm i) as [[]|]; cbn; [apply IH| |done]. destruct run as [first|]; [|apply IH].
    pose proof (keeps_gap_range first (base + i - 1) al r) as H. destruct (sfr_rel_gap_range _ _ _ _) as [r1 al1]. cbn in H. intros H2%IH. by etrans.
Qed.

Lemma keeps_gap start base n bm ans r r' : sfr_rel_gap start base n bm ans r = Some r' -> keeps r r'.
Proof.
  unfold sfr_rel_gap. set (r0 := set_alive 0 r). assert (H0 : keeps r r0) by by apply keeps_same.
  set (x := if start <? base then _ else _). assert (H1 : keeps r0 x.1) by (unfold x; destruct (start <? base); [apply keeps_gap_range|done]).
  destruct x as [r1 al]. cbn in H1. destruct (gap_bits _ _ _ _ _ _ _) as [r2|] eqn:E; [|done]. apply keeps_gap_bits in E. cbn. intros [= <-].
  assert (H2 : keeps r r2) by (etrans; [exact H0|]; by etrans). destruct (rw_changes r2); [done|]. by apply keeps_process_if.
Qed.

Lemma keeps_response hrd ans r : keeps r (start_response hrd ans r).1.
Proof. unfold start_response. destruct hrd; [by apply keeps_same|done]. Qed.

Lemma keeps_hb_lost first_sn ans r : keeps r (hb_lost first_sn ans r).1.
Proof.
  unfold hb_lost. destruct (rw_changes r) as [|head l] eqn:El; [done|]. rewrite <- El. pose proof (stays_hb_mark (rw_changes r) (ref_first head) first_sn (allocs ans)) as Hs.
  destruct (hb_mark _ _ _ _) as [[l' n] al]. cbn in Hs. assert (H1 : keeps r (set_changes l' r)) by by apply keeps_list. cbv zeta. cbn [fst].
  set (r1 := if n =? 0 then _ else _). assert (H2 : keeps r r1) by (unfold r1; destruct (n =? 0); [done|]; etrans; [exact H1|by apply keeps_same]).
  destruct (_ && _); [|done]. etrans; [exact H2|]. etrans; [by apply (keeps_same _ (set_seqnr_next (ref_first head) r1))|apply keeps_process].
Qed.

Lemma keeps_hb_gaps first_sn last_sn al r : keeps r (hb_gaps first_sn last_sn al r).1.
Proof.
  unfold hb_gaps. destruct (last_sn <? _); [done|]. destruct (rw_changes r) as [|head l] eqn:El; [|destruct (last (head :: l)) as [tail|] eqn:Et; [|by apply last_None in Et]].
  { destruct (ccref_add_gap _ _ _ _ _ _).1 as [l'|]; [|done]. apply keeps_list; [rewrite El; by intros cp H%elem_of_nil|done|done]. }
  rewrite <- El. set (x := if first_sn <? ref_first head then _ else _). assert (Hs : forall l', x.1 = Some l' -> stays (rw_changes r) l').
  { intros l'. unfold x. destruct (_ <? _); [apply stays_hb_before|by intros [= <-]]. }
  destruct x as [[l'|] al']; [|done]. specialize (Hs l' eq_refl). assert (H1 : keeps r (set_changes l' r)) by by apply keeps_list.
  destruct (_ <? last_sn); [|done]. destruct (missing_after _ _ _ _).1 as [l2|] eqn:E; [|done]. apply stays_missing_after in E. apply keeps_list; [by etrans|done|done].
Qed.

Lemma keeps_hb_update first_sn last_sn ans r : keeps r (hb_update first_sn last_sn ans r).1.
Proof.
  unfold hb_update. pose proof (keeps_hb_lost first_sn ans r) as H1. destruct (hb_lost _ _ _) as [r1 al]. cbn in H1. etrans; [exact H1|]. etrans; [|apply keeps_hb_gaps].
  destruct (_ <? first_sn); [by apply keeps_same|done].
Qed.

(** ** Events *)

(** An event keeps what the reader has; it sends no ACKNACK, an empty one, or
    one that [sfr_rel_do_ack_nl] makes of the new state. *)
Definition kept_event (cache_acks : bool) (ans : Answers) (r r' : RemWriter_t) : Prop :=
  (forall cp, held cp r -> held cp r') /\
  (acks r' = acks r \/ (exists ap, acks r' = acks r ++ [ap] /\ ack_base ap = 0 /\ ack_bits ap = 0) \/
   exists r1, sfr_rel_do_ack_nl cache_acks ans r1 = Some r' /\ acks r1 = acks r).

Lemma keeps_event ca ans r r' : keeps r r' -> kept_event ca ans r r'.
Proof. intros [H1 H2]. split; [done|by left]. Qed.

Lemma do_ack_event ca ans r r1 r' : keeps r r1 -> sfr_rel_do_ack_nl ca ans r1 = Some r' -> kept_event ca ans r r'.
Proof.
  intros [H1 H2] E. split; [|right; right; by exists r1]. intros cp H%H1. unfold sfr_rel_do_ack_nl in E. destruct (zset _ _ _) as [bm|]; [|done]. cbn in E.
  destruct (ack_loop _ _ _ _ _) as [[n bm']|]; [|done]. cbn in E. by injection E as <-.
Qed.

Lemma keeps_heartbeat ca hrd first_sn last_sn count final live ans r r' : sfr_rel_heartbeat ca hrd first_sn last_sn count final live ans r = Some r' -> kept_event ca ans r r'.
Proof.
  unfold sfr_rel_heartbeat. set (r0 := set_alive _ r). assert (H0 : keeps r r0) by by apply keeps_same. destruct (live && final); [intros [= <-]; by apply keeps_event|].
  destruct (count =? _); [intros [= <-]; by apply keeps_event|]. cbv zeta. set (r1 := set_hb _ _ _ r0). assert (H1 : keeps r r1) by (etrans; [exact H0|by apply keeps_same]).
  match goal with |- context [let '(_, _) := ?x in let '(_, _) := hb_update _ _ _ _ in _] => set (y := x) end.
  assert (H2 : keeps r y.1).
  { unfold y. destruct (negb final).
    - destruct (negb (rw_peer_alive r)); cbn [fst]; [etrans; [exact H1|by apply keeps_same]|]. etrans; [exact H1|]. etrans; [|apply keeps_response]. by apply keeps_same.
    - cbn [fst]. destruct live; [done|]. etrans; [exact H1|by apply keeps_same]. }
  destruct y as [r2 send]. cbn in H2. pose proof (keeps_hb_update first_sn last_sn ans r2) as H3. destruct (hb_update _ _ _ _) as [r3 go]. cbn in H3.
  assert (H03 : keeps r r3) by by etrans. destruct (negb go); [intros [= <-]; by apply keeps_event|].
  match goal with |- context [let '(_, _) := ?x in if _ then _ else _] => set (z := x) end.
  assert (H4 : keeps r z.1).
  { unfold z. destruct (rw_astate r3); [done| |done]. destruct (rw_changes r3); [etrans; [exact H03|by apply keeps_same]|]. etrans; [exact H03|]. etrans; [|apply keeps_response]. by apply keeps_same. }
  destruct z as [r4 [|]]; cbn in H4; [by apply do_ack_event|]. intros [= <-]. by apply keeps_event.
Qed.

Lemma event_kept ca hrd e ans r r' : rw_event ca hrd e ans r = Some r' -> kept_event ca ans r r'.
Proof.
  destruct e as [cp ignore|start base n bm|first last count final live| | |]; cbn [rw_event].
  - intros E. by eapply keeps_event, keeps_data.
  - intros E. by eapply keeps_event, keeps_gap.
  - apply keeps_heartbeat.
  - intros [= <-]. split; [done|]. right; left. eexists. by split.
  - unfold sfr_rel_do_ack. apply do_ack_event. destruct hrd; [by apply keeps_same|done].
  - intros [= <-]. apply keeps_event. unfold rtps_reader_unblock. destruct (rw_blocked r); [|done]. etrans; [|apply keeps_process]. by apply keeps_same.
Qed.
