(* ===== verification/SfrrTheorems.v ===== *)
(** Theorems on the reliable reader (rtps/rtps_sfrr.c). *)

From S2P Require Import Prelude Seqnr Clist Sfrr SfrrProps.
From stdpp Require Import list.

#[local] Open Scope Z_scope.
#[local] Set Warnings "-clear-no-such-hyp".

(** ** Runs *)

(** The sequence numbers that an event tells the reader not to wait for:
    samples to be ignored, gaps, and what is before the first sample that the
    writer still has. *)
Definition excuses (e : RwEvent) (s : Z) : Prop :=
  match e with
  | EvData cp ignore => ignore = true /\ s = c_seqnr cp
  | EvGap start base numbits bm => start <= s < base \/ bit_set bm base s numbits
  | EvHeartbeat first_sn _ _ _ _ => s < first_sn
  | _ => False
  end.

Definition excused_by (evs : list (RwEvent * Answers)) (s : Z) : Prop := exists e ans, (e, ans) ∈ evs /\ excuses e s.

Definition sent_by (evs : list (RwEvent * Answers)) (cp : Change_t) : Prop := exists ans, (EvData cp false, ans) ∈ evs.

(** Memory is available, and a GAP message that starts before the list of
    changes does not reach into it. *)
Definition clear_of_listb (m last : Z) (r : RemWriter_t) : bool :=
  match rw_changes r with
  | [] => true
  | rp :: _ => (ref_first rp <=? Z.max m (rw_seqnr_next r)) || (last <? ref_first rp)
  end.

Definition permitted (e : RwEvent) (ans : Answers) (r : RemWriter_t) : bool :=
  forallb id (allocs ans) && clone_ok ans && (zlen (junk ans) =? 8) &&
  match e with
  | EvGap start base numbits bm =>
      (0 <=? numbits) && (numbits <=? 32 * zlen bm) && clear_of_listb (Z.min start base) (base + numbits - 1) r
  | _ => true
  end.

Section Runs.
  Context (cache_acks heartbeat_resp_delay : bool).

Fixpoint run_permitted (evs : list (RwEvent * Answers)) (r : RemWriter_t) : bool :=
  match evs with
  | [] => true
  | (e, ans) :: evs =>
      permitted e ans r &&
      match rw_event cache_acks heartbeat_resp_delay e ans r with Some r => run_permitted evs r | None => true end
  end.

(** ** One event *)

Section Step.
  Context (sent : Change_t -> Prop) (excused : Z -> Prop) (ans : Answers).
  Context (Hal : granted (allocs ans)) (Hclone : clone_ok ans = true) (Hjunk : zlen (junk ans) = 8).

Lemma inv_ack r : inv sent excused r -> exists r', sfr_rel_do_ack_nl cache_acks ans r = Some r' /\ inv sent excused r'.
Proof.
  intros Hi. destruct (do_ack_some cache_acks ans r Hjunk) as (n & bm & ->). eexists. split; [done|]. by apply (inv_same _ _ r).
Qed.

Lemma inv_response r : inv sent excused r -> inv sent excused (fst (start_response heartbeat_resp_delay ans r)).
Proof. intros Hi. unfold start_response. destruct heartbeat_resp_delay; [by apply (inv_same _ _ r)|done]. Qed.

Lemma inv_heartbeat first_sn last_sn count final live r :
  (forall s, s < first_sn -> excused s) -> inv sent excused r ->
  exists r', sfr_rel_heartbeat cache_acks heartbeat_resp_delay first_sn last_sn count final live ans r = Some r' /\ inv sent excused r'.
Proof.
  intros HX Hi. unfold sfr_rel_heartbeat.
  destruct (live && final); [eexists; split; [done|]; by apply (inv_same _ _ r)|].
  destruct (count =? _); [eexists; split; [done|]; by apply (inv_same _ _ r)|].
  set (r1 := set_hb true _ _ _). assert (Hi1 : inv sent excused r1) by (by apply (inv_same _ _ r)). clearbody r1.
  set (p := if negb final then _ else _).
  assert (Hp : inv sent excused (fst p)).
  { unfold p. destruct (negb final).
    - destruct (negb (rw_peer_alive r)); [by apply (inv_same _ _ r1)|]. apply inv_response. by apply (inv_same _ _ r1).
    - simpl. destruct live; [done|by apply (inv_same _ _ r1)]. }
  destruct p as [r2 send_ack]. simpl in Hp.
  destruct (hb_update_ok sent excused first_sn last_sn ans r2 Hp HX Hal) as (r3 & ok & -> & Hi3).
  destruct ok; simpl; [|by eexists].
  set (q := match rw_astate r3 with RWAS_MAY_ACK => _ | _ => _ end).
  assert (Hq : inv sent excused (fst q)).
  { unfold q. destruct (rw_astate r3); [done| |done]. destruct (rw_changes r3) eqn:El; [by apply (inv_same _ _ r3)|].
    apply inv_response. by apply (inv_same _ _ r3). }
  destruct q as [r4 [|]]; simpl in Hq; [by apply inv_ack|by eexists].
Qed.

Lemma inv_event e r : permitted e ans r = true ->
  (forall s, excuses e s -> excused s) -> (forall cp, e = EvData cp false -> sent cp) -> inv sent excused r ->
  exists r', rw_event cache_acks heartbeat_resp_delay e ans r = Some r' /\ inv sent excused r'.
Proof.
  intros Hp HX HS Hi. destruct e as [cp ignore|start base numbits bm|first_sn last_sn count final live| | |]; simpl.
  - apply inv_data; try done. destruct ignore; [by apply HX|by apply HS].
  - unfold permitted in Hp. rewrite !andb_true_iff, !Z.leb_le in Hp. destruct Hp as [_ [[Hn Hb] Hc]].
    apply (inv_gap sent excused); try done.
    + intros i Hi'. rewrite set_contains_bit. destruct (zget_lookup_Some bm (i / 32)) as [w ->]; [|by eexists].
      split; [apply Z.div_pos; lia|apply Z.div_lt_upper_bound; lia].
    + unfold clear_of_list, clear_of_listb in *. destruct (rw_changes r); [done|].
      apply orb_true_iff in Hc. rewrite Z.leb_le, Z.ltb_lt in Hc. done.
  - by apply inv_heartbeat.
  - eexists. split; [done|]. by apply (inv_same _ _ r).
  - unfold sfr_rel_do_ack. apply inv_ack. destruct heartbeat_resp_delay; [by apply (inv_same _ _ r)|done].
  - eexists. split; [done|]. unfold rtps_reader_unblock. destruct (rw_blocked r); [|done].
    apply inv_process. by apply (inv_same _ _ r).
Qed.
End Step.

Lemma permitted_answers e ans r : permitted e ans r = true ->
  granted (allocs ans) /\ clone_ok ans = true /\ zlen (junk ans) = 8.
Proof.
  unfold permitted. rewrite !andb_true_iff, Z.eqb_eq. intros [[[H1 H2] H3] _]. split_and!; try done.
  apply Forall_forall. intros b Hb. rewrite forallb_forall in H1. apply H1. by apply list_elem_of_In.
Qed.

Lemma rw_run_inv sent excused evs : forall r,
  (forall e ans s, (e, ans) ∈ evs -> excuses e s -> excused s) -> (forall cp ans, (EvData cp false, ans) ∈ evs -> sent cp) ->
  inv sent excused r -> run_permitted evs r = true ->
  exists r', rw_run cache_acks heartbeat_resp_delay evs r = Some r' /\ inv sent excused r'.
Proof.
  induction evs as [|[e ans] evs IH]; intros r HX HS Hi Hp; [by eexists|].
  cbn [run_permitted] in Hp. apply andb_true_iff in Hp as [Hp1 Hp2].
  destruct (permitted_answers e ans r Hp1) as (Hal & Hcl & Hj).
  destruct (inv_event sent excused ans Hal Hcl Hj e r Hp1) as (r1 & E & Hi1); [|intros cp ->|done|].
  - intros s Hs. eapply (HX e ans); [|done]. left.
  - eapply (HS cp ans). left.
  - cbn [rw_run]. rewrite E in Hp2 |- *. cbn [mbind option_bind]. apply IH; [| |done|done].
    + intros e' ans' s Hin. eapply HX. by right.
    + intros cp ans' Hin. eapply HS. by right.
Qed.

Lemma inv_start sent excused ans : inv sent excused (sfr_rel_start ans).
Proof.
  split; [simpl; lia|]. exists 1, 1. simpl. split_and!; [lia|by split| |by intros (? & ? & _)].
  split; [done|intros i j cp cq _ H; by rewrite lookup_nil in H|by intros ? ?%elem_of_nil|lia].
Qed.
End Runs.

(** ** Reliable delivery *)

Lemma cov_range_check l : forall a b prev, cov a l b -> 1 <= a -> (match prev with Some p => p + 1 = a | None => True end) ->
  range_check_from prev l = true.
Proof.
  induction l as [|rp l IH]; intros a b prev Hc Ha Hp; simpl; [done|]. destruct Hc as (Hf & Hle & Hc).
  rewrite (IH (ref_last rp + 1) b (Some (ref_last rp))) by (done || lia). rewrite Hf, !andb_true_iff, !negb_true_iff.
  split_and!; try done; [lia..|]. destruct prev as [p|]; [|done]. lia.
Qed.

(** C3. For any sequence of DATA, GAP and HEARTBEAT messages, in any order,
    repeated or missing, of response timers and of a cache that is full and
    has room again, as long as memory is available and no GAP that starts
    before the list of changes reaches into it: every handler returns; the
    samples handed to the cache are samples that the writer has sent, in
    strictly increasing order of their sequence numbers, so that none is
    delivered twice; every number before the place where delivery stands has
    been delivered or was excused by the writer, so that no sample is skipped;
    and the consistency check of the list never fails. *)
Theorem reader_reliable (cache_acks heartbeat_resp_delay : bool) evs ans :
  run_permitted cache_acks heartbeat_resp_delay evs (sfr_rel_start ans) = true ->
  exists r, rw_run cache_acks heartbeat_resp_delay evs (sfr_rel_start ans) = Some r /\
    Forall (sent_by evs) (delivered r) /\
    (forall i j cp cq, (i < j)%nat -> delivered r !! i = Some cp -> delivered r !! j = Some cq -> c_seqnr cp < c_seqnr cq) /\
    (forall cp, cp ∈ delivered r -> c_seqnr cp < front (rw_changes r) (rw_seqnr_next r)) /\
    (forall s, 1 <= s < front (rw_changes r) (rw_seqnr_next r) ->
       excused_by evs s \/ exists cp, cp ∈ delivered r /\ c_seqnr cp = s) /\
    rtps_range_check (rw_changes r) = true.
Proof.
  intros Hp. destruct (rw_run_inv cache_acks heartbeat_resp_delay (sent_by evs) (excused_by evs) evs (sfr_rel_start ans))
    as (r & E & Hn & a & b & Ha & [Hc _] & [H1 H2 H3 H4] & _); [intros e x s ? ?; by exists e, x|intros cp x ?; by exists x|apply inv_start|done|].
  exists r. split_and!; try done. by apply (cov_range_check _ a b None).
Qed.

(** Samples 1 to 7 arrive out of order, with repetitions, a gap, a lost sample
    and a cache that is full once. *)
Definition yes : Answers := mkAns true [] false true [] true (replicate 8 0).
Definition once_full : Answers := mkAns true [true] false true [] true (replicate 8 0).
Definition data (n : Z) : RwEvent * Answers := (EvData (mkChange n (Z.to_nat n)) false, yes).

Definition session : list (RwEvent * Answers) :=
  [data 3; data 3; (EvHeartbeat 1 6 1 false false, yes); data 1; (EvGap 2 3 0 [], yes);
   data 6; (EvGap 5 5 1 [2 ^ 31], yes); (EvData (mkChange 4 4) false, once_full); (EvUnblock, yes);
   (EvHeartbeat 9 10 2 false false, yes); data 10; data 9].

Lemma reader_reliable_witness :
  (delivered <$> rw_run false true session (sfr_rel_start yes) = Some (map (fun n => mkChange n (Z.to_nat n)) [1; 3; 4; 6; 9; 10])) /\
  exists r, rw_run false true session (sfr_rel_start yes) = Some r /\
    Forall (sent_by session) (delivered r) /\
    (forall i j cp cq, (i < j)%nat -> delivered r !! i = Some cp -> delivered r !! j = Some cq -> c_seqnr cp < c_seqnr cq) /\
    (forall cp, cp ∈ delivered r -> c_seqnr cp < front (rw_changes r) (rw_seqnr_next r)) /\
    (forall s, 1 <= s < front (rw_changes r) (rw_seqnr_next r) ->
       excused_by session s \/ exists cp, cp ∈ delivered r /\ c_seqnr cp = s) /\
    rtps_range_check (rw_changes r) = true.
Proof. split; [vm_compute; reflexivity|]. apply (reader_reliable false true session yes). vm_compute. reflexivity. Defined.

(** ** Acknowledgements *)

Definition missing_in (l : list CCREF) (s : Z) : bool :=
  existsb (fun rp => bool_decide (state rp = CS_MISSING) && (ref_first rp <=? s) && (s <=? ref_last rp)) l.

Lemma cov_bounds l : forall a b rp, cov a l b -> rp ∈ l -> a <= ref_first rp /\ ref_last rp < b.
Proof.
  induction l as [|x l IH]; intros a b rp Hc Hin; [by apply elem_of_nil in Hin|]. destruct Hc as (Hf & Hle & Hc).
  pose proof (cov_le _ _ _ Hc). apply elem_of_cons in Hin as [->|Hin]; [lia|]. destruct (IH _ _ _ Hc Hin). lia.
Qed.

Lemma missing_in_node l1 rp l2 a b s : cov a (l1 ++ rp :: l2) b -> ref_first rp <= s <= ref_last rp ->
  missing_in (l1 ++ rp :: l2) s = bool_decide (state rp = CS_MISSING).
Proof.
  intros Hc Hs. unfold missing_in. rewrite existsb_app. simpl.
  apply cov_app in Hc as (c & Hc1 & Hf & _ & Hc2).
  assert (Hno : forall l, (forall x, x ∈ l -> s < ref_first x \/ ref_last x < s) ->
    existsb (fun rp => bool_decide (state rp = CS_MISSING) && (ref_first rp <=? s) && (s <=? ref_last rp)) l = false).
  { intros l. induction l as [|x l IH]; intros H; [done|]. simpl. rewrite IH by (intros y Hy; apply H; by right).
    rewrite orb_false_r. destruct (H x ltac:(left)); lia. }
  rewrite (Hno l1), (Hno l2).
  - destruct (bool_decide _), (Z.leb_spec (ref_first rp) s), (Z.leb_spec s (ref_last rp)); simpl; lia || done.
  - intros x Hx. destruct (cov_bounds _ _ _ _ Hc2 Hx). lia.
  - intros x Hx. destruct (cov_bounds _ _ _ _ Hc1 Hx). lia.
Qed.

Section Bits.
  Context (M : Z -> bool).

(** The first [n] bits are right; the rest of the current word is clear. *)
Definition bits_ok (n : Z) (bm : list Z) : Prop := zlen bm = 8 /\ forall i, 0 <= i < n -> SET_CONTAINS bm i = Some (M i).
Definition word_clear (n : Z) (bm : list Z) : Prop := forall j, n <= j < 32 * (n / 32 + 1) -> SET_CONTAINS bm j = Some false.

Lemma ack_step_bits n bm (Q : option (Z * list Z) -> Prop) (k : Z -> list Z -> option (Z * list Z)) :
  bits_ok n bm -> word_clear n bm -> 0 <= n < 256 ->
  (forall bm', n + 1 < 256 -> bits_ok (n + 1) bm' -> word_clear (n + 1) bm' -> Q (k (n + 1) bm')) ->
  (forall bm', n + 1 = 256 -> bits_ok 256 bm' -> Q (Some (256, bm'))) ->
  Q (bm ← (if M n then SET_ADD bm n else Some bm);
     if 256 <=? n + 1 then Some (n + 1, bm)
     else bm ← (if Z.land (n + 1) 31 =? 0 then zset bm (Z.shiftr (n + 1) 5) 0 else Some bm); k (n + 1) bm).
Proof.
  intros [Hl Hb] Hw Hn Hk Hend.
  assert (H1 : exists bm1, (if M n then SET_ADD bm n else Some bm) = Some bm1 /\ bits_ok (n + 1) bm1 /\
    forall j, n + 1 <= j < 32 * (n / 32 + 1) -> SET_CONTAINS bm1 j = Some false).
  { pose proof (Z.div_mod n 32). pose proof (Z.mod_pos_bound n 32). destruct (M n) eqn:EM.
    - destruct (set_add_some bm n Hl Hn) as (bm1 & E & Hl1). exists bm1. split; [done|].
      pose proof (set_add_contains bm n bm1) as Hc. split; [split; [done|]|].
      + intros i Hi. rewrite (Hc i E). destruct (Z.eqb_spec i n) as [->|]; [by rewrite EM|apply Hb; lia].
      + intros j Hj. rewrite (Hc j E). destruct (Z.eqb_spec j n); [lia|]. apply Hw. lia.
    - exists bm. split; [done|]. split; [split; [done|]|].
      + intros i Hi. destruct (Z.eq_dec i n) as [->|]; [rewrite EM; apply Hw; lia|apply Hb; lia].
      + intros j Hj. apply Hw. lia. }
  destruct H1 as (bm1 & -> & Hb1 & Hw1). simpl. destruct (Z.leb_spec 256 (n + 1)) as [H|H].
  { replace (n + 1) with 256 in * by lia. by apply Hend; [lia|]. }
  rewrite land31. destruct (Z.eqb_spec ((n + 1) mod 32) 0) as [E|E].
  - destruct (zset_word bm1 (n + 1)) as (bm2 & E2 & Hl2); [apply Hb1|lia|]. rewrite E2. simpl.
    rewrite shiftr5 in E2. pose proof (set_clear_contains bm1 (n + 1) bm2) as Hc.
    pose proof (Z.div_mod (n + 1) 32). apply Hk; [done| |].
    + split; [done|]. intros i Hi. rewrite (Hc i E2). destruct (Z.eqb_spec (i / 32) ((n + 1) / 32)) as [Ei|]; [|by apply Hb1].
      pose proof (Z.div_mod i 32). pose proof (Z.mod_pos_bound i 32). lia.
    + intros j Hj. rewrite (Hc j E2). destruct (Z.eqb_spec (j / 32) ((n + 1) / 32)) as [Ej|Ej]; [done|].
      pose proof (Z.div_mod j 32). pose proof (Z.mod_pos_bound j 32). lia.
  - apply Hk; [done|done|]. intros j Hj. apply Hw1.
    pose proof (Z.div_mod (n + 1) 32). pose proof (Z.mod_pos_bound (n + 1) 32). pose proof (Z.div_mod n 32). pose proof (Z.mod_pos_bound n 32).
    assert ((n + 1) / 32 = n / 32) by lia. lia.
Qed.

Context (r : RemWriter_t) (Hr : rw_blocked r = false) (base : Z).

Definition ack_upto (m : Z) (o : option (Z * list Z)) : Prop :=
  exists n bm, o = Some (n, bm) /\ n = Z.min 256 (m - base) /\ bits_ok n bm /\ (n < 256 -> word_clear n bm).

Lemma ack_range_bits st last : forall k snr bm,
  (forall s, snr <= s <= last -> M (s - base) = bool_decide (st = CS_MISSING)) -> snr <= last + 1 ->
  Z.of_nat k = 256 - (snr - base) -> 0 <= snr - base < 256 -> bits_ok (snr - base) bm -> word_clear (snr - base) bm ->
  ack_upto (last + 1) (ack_range false k st snr last r (snr - base) bm).
Proof.
  induction k as [|k IH]; intros snr bm HM Hs Hk Hn Hb Hw; [lia|]. cbn [ack_range].
  destruct (Z.ltb_spec last snr) as [Hend|Hin].
  { exists (snr - base), bm. split; [done|]. split; [lia|done]. }
  rewrite andb_false_r, Hr, <- (HM snr) by lia. cbn [andb].
  apply (ack_step_bits (snr - base) bm _ (fun n bm => ack_range false k st (snr + 1) last r n bm)); [done..| |].
  - intros bm' Hn' Hb' Hw'. replace (snr - base + 1) with (snr + 1 - base) in * by lia.
    apply IH; [intros s Hs'; apply HM; lia|lia..|done|done].
  - intros bm' Hn' Hb'. exists 256, bm'. split; [done|]. split; [lia|]. split; [done|lia].
Qed.

Lemma ack_loop_bits l : forall a b bm,
  cov a l b -> (forall l1 rp l2 s, l = l1 ++ rp :: l2 -> ref_first rp <= s <= ref_last rp -> M (s - base) = bool_decide (state rp = CS_MISSING)) ->
  0 <= a - base < 256 -> bits_ok (a - base) bm -> word_clear (a - base) bm -> ack_upto b (ack_loop false l r (a - base) bm).
Proof.
  induction l as [|rp l IH]; intros a b bm Hc HM Hn Hb Hw.
  { simpl in Hc. subst b. exists (a - base), bm. split; [done|]. split; [lia|done]. }
  destruct Hc as (Hf & Hle & Hc). pose proof (cov_le _ _ _ Hc) as Hlast. cbn [ack_loop].
  assert (HM' : forall l1 x l2 s, l = l1 ++ x :: l2 -> ref_first x <= s <= ref_last x -> M (s - base) = bool_decide (state x = CS_MISSING)).
  { intros l1 x l2 s -> Hs. by apply (HM (rp :: l1) x l2). }
  assert (HMrp : forall s, ref_first rp <= s <= ref_last rp -> M (s - base) = bool_decide (state rp = CS_MISSING)) by (intros s; by apply (HM [] rp l)).
  unfold ref_first, ref_last in *. destruct (u rp) as [cp|first last].
  - rewrite andb_false_r, Hr. subst a. rewrite <- (HMrp (c_seqnr cp)) by lia.
    apply (ack_step_bits (c_seqnr cp - base) bm _ (fun n bm => ack_loop false l r n bm)); [done..| |].
    + intros bm' Hn' Hb' Hw'. replace (c_seqnr cp - base + 1) with (c_seqnr cp + 1 - base) in * by lia. by apply IH; [| |lia|..].
    + intros bm' Hn' Hb'. exists 256, bm'. split; [done|]. split; [lia|]. split; [done|lia].
  - subst first. destruct (ack_range_bits (state rp) last (Z.to_nat (256 - (a - base))) a bm) as (n & bm1 & -> & Hn1 & Hb1 & Hw1);
      try done; [lia..|]. cbn [mbind option_bind].
    destruct (Z.leb_spec 256 n) as [H|H].
    + exists n, bm1. split; [done|]. split; [lia|]. split; [done|lia].
    + replace n with (last + 1 - base) in * by lia. by apply IH; [| |lia|..|apply Hw1; lia].
Qed.
End Bits.

(** How many numbers the list covers. *)
Definition listed (l : list CCREF) : Z := foldr (fun rp n => ref_last rp - ref_first rp + 1 + n) 0 l.

Lemma cov_listed l : forall a b, cov a l b -> listed l = b - a.
Proof.
  induction l as [|rp l IH]; intros a b Hc; [simpl in *; lia|]. destruct Hc as (Hf & _ & Hc).
  cbn [listed foldr]. fold (listed l). rewrite (IH _ _ Hc). lia.
Qed.

(** What [sfr_rel_do_ack_nl] makes of a list that starts where delivery
    stands. *)
Lemma do_ack_exact sent excused r ans : inv sent excused r -> rw_blocked r = false -> (forall rp l, rw_changes r = rp :: l -> ref_first rp = rw_seqnr_next r) -> zlen (junk ans) = 8 ->
  cov (rw_seqnr_next r) (rw_changes r) (rw_seqnr_next r + listed (rw_changes r)) /\
  exists n bm, sfr_rel_do_ack_nl false ans r = Some (send_acknack (mkAck (rw_seqnr_next r) n bm) r) /\
    n = Z.min 256 (listed (rw_changes r)) /\
    forall i, 0 <= i < n -> SET_CONTAINS bm i = Some (missing_in (rw_changes r) (rw_seqnr_next r + i)).
Proof.
  intros (_ & a & b & _ & [Hc _] & _) Hbl Hhead Hj.
  assert (Hc' : cov (rw_seqnr_next r) (rw_changes r) (rw_seqnr_next r + listed (rw_changes r))).
  { pose proof (cov_listed _ _ _ Hc) as Hls. destruct (rw_changes r) as [|rp l] eqn:El; [simpl in *; lia|].
    pose proof (Hhead rp l eq_refl) as Hh. rewrite (cov_head _ _ _ _ Hc) in Hh. rewrite <- Hh, Hls.
    by replace (a + (b - a)) with b by lia. }
  split; [done|]. unfold sfr_rel_do_ack_nl. rewrite zset_Some by lia. cbn [mbind option_bind].
  set (M := fun i => missing_in (rw_changes r) (rw_seqnr_next r + i)).
  assert (Hz : zset (junk ans) (0 / 32) 0 = Some (<[Z.to_nat 0 := 0]> (junk ans))) by (apply (zset_Some (junk ans) 0 0); lia).
  destruct (ack_loop_bits M r Hbl (rw_seqnr_next r) (rw_changes r) (rw_seqnr_next r) (rw_seqnr_next r + listed (rw_changes r))
    (<[Z.to_nat 0 := 0]> (junk ans))) as (n & bm & El & Hn & [_ Hb] & _); rewrite ?Z.sub_diag.
  - done.
  - intros l1 rp l2 s El Hs. unfold M. replace (rw_seqnr_next r + (s - rw_seqnr_next r)) with s by lia.
    rewrite El in Hc' |- *. by eapply missing_in_node.
  - lia.
  - split; [|lia]. by rewrite <- Hj; unfold zlen; rewrite length_insert.
  - intros j Hjr. rewrite (set_clear_contains _ 0 _ j Hz). change (0 / 32) with 0 in *. rewrite (Z.div_small j 32) by lia. done.
  - rewrite Z.sub_diag in El. rewrite El. cbn [mbind option_bind]. exists n, bm. split; [done|]. split; [lia|exact Hb].
Qed.

(** C17. When the list of changes starts at the next number to be delivered,
    and neither the cache acknowledges samples itself nor is it full, an
    ACKNACK message is right: its base is the next number, it has one bit for
    every number of the list, 256 at most, and a bit is set exactly when its
    number is missing; what the bitmap held before does not matter. *)
Theorem acknack_exact (heartbeat_resp_delay : bool) evs ans0 r ans :
  run_permitted false heartbeat_resp_delay evs (sfr_rel_start ans0) = true ->
  rw_run false heartbeat_resp_delay evs (sfr_rel_start ans0) = Some r ->
  rw_blocked r = false ->
  (forall rp l, rw_changes r = rp :: l -> ref_first rp = rw_seqnr_next r) ->
  zlen (junk ans) = 8 ->
  exists n bm, sfr_rel_do_ack_nl false ans r = Some (send_acknack (mkAck (rw_seqnr_next r) n bm) r) /\
    n = Z.min 256 (listed (rw_changes r)) /\
    forall i, 0 <= i < n -> SET_CONTAINS bm i = Some (missing_in (rw_changes r) (rw_seqnr_next r + i)).
Proof.
  intros Hp E Hbl Hhead Hj. destruct (rw_run_inv false heartbeat_resp_delay (sent_by evs) (excused_by evs) evs (sfr_rel_start ans0))
    as (r' & E' & Hi); [intros e x s ? ?; by exists e, x|intros cp x ?; by exists x|apply inv_start|done|].
  rewrite E in E'. injection E' as <-. by apply (do_ack_exact _ _ r ans Hi).
Qed.

(** 300 samples of which 40 to 299 are missing, with a bitmap that was full. *)
Definition ones : Answers := mkAns true [] false true [] true (replicate 8 (2 ^ 32 - 1)).
Definition session2 : list (RwEvent * Answers) := [(EvHeartbeat 1 300 1 true false, yes); data 300; data 3; data 2; data 39].

Definition after_session2 : RemWriter_t :=
  Eval vm_compute in match rw_run false true session2 (sfr_rel_start yes) with Some r => r | None => sfr_rel_start yes end.

Lemma acknack_exact_witness :
  exists n bm, sfr_rel_do_ack_nl false ones after_session2 = Some (send_acknack (mkAck 1 n bm) after_session2) /\
    n = Z.min 256 (listed (rw_changes after_session2)) /\
    forall i, 0 <= i < n -> SET_CONTAINS bm i = Some (missing_in (rw_changes after_session2) (1 + i)).
Proof.
  apply (acknack_exact true session2 yes after_session2 ones); [vm_compute; reflexivity|vm_compute; reflexivity|reflexivity| |reflexivity].
  intros rp l [= <- _]. reflexivity.
Defined.

(** ** What goes wrong *)

Definition gap (first last : Z) : RwEvent * Answers := (EvGap first (last + 1) 0 [], yes).
Definition heartbeat (first last count : Z) : RwEvent * Answers := (EvHeartbeat first last count false false, yes).

(** A GAP that starts before the list of changes and ends inside it
    breaks the list: after samples 5, 6 and 10 a gap from 3 to 5 counts the
    numbers of the samples one by one, and then takes a missing range that
    it does not reach for one that it covers.  The list holds the range from 7
    to 5, number 6 is missing although it was received, and sample 6 is
    delivered twice. *)
Theorem gap_delivers_twice :
  (rtps_range_check ∘ rw_changes <$> rw_run false false [data 5; data 6; data 10; gap 3 5] (sfr_rel_start yes) = Some false) /\
  (map c_seqnr ∘ delivered <$>
     rw_run false false [data 5; data 6; data 10; gap 3 5; gap 1 4; heartbeat 5 10 1; data 6; data 7; data 8; data 9]
       (sfr_rel_start yes) = Some [5; 6; 6; 7; 8; 9; 10]).
Proof. split; vm_compute; reflexivity. Qed.

(** Samples that arrive before the first heartbeat are not delivered by it:
    they wait for the next DATA or GAP message. *)
Example held_back :
  (fun r => (delivered r, rw_seqnr_next r)) <$> rw_run false false [data 2; data 1; heartbeat 1 2 1; heartbeat 1 2 2] (sfr_rel_start yes)
  = Some ([], 1).
Proof. vm_compute. reflexivity. Qed.

(** A heartbeat moves the next number past a sample that the cache had no room
    for: the sample stays at the head of the list, and nothing is delivered
    any more although the cache has room again. *)
Example stuck_behind :
  (fun r => (map c_seqnr (delivered r), rw_seqnr_next r, map ref_first (rw_changes r))) <$>
    rw_run false false [heartbeat 1 3 1; (EvData (mkChange 1 1) false, once_full);
       (EvHeartbeat 3 3 2 false false, once_full); (EvUnblock, yes); data 3; (EvUnblock, yes)]
      (sfr_rel_start yes)
  = Some ([], 3, [1; 2; 3]).
Proof. vm_compute. reflexivity. Qed.

(** The bitmap counts from the first node, which is behind the next number
    when samples arrive out of order: numbers 2 and 3 are requested instead of
    6 and 7. *)
Example bitmap_shifted :
  (fun r => last (acks r)) <$> rw_run false true [heartbeat 1 1 1; data 1; data 5; data 8; (EvDoAck, yes)] (sfr_rel_start yes)
  = Some (Some (mkAck 2 4 (2 ^ 30 + 2 ^ 29 :: replicate 7 0))).
Proof. vm_compute. reflexivity. Qed.
