(* ===== verification/Mem.v ===== *)
(** Memory as the marshalling code and the heaps see it: bytes at addresses.  An access to
    an address that is not allocated is [None]; no write allocates. *)

From stdpp Require Import gmap.
From S2P Require Import Prelude.
From stdpp Require Import list.

#[local] Open Scope Z_scope.

Abbreviation Mem := (gmap Z Z).

Fixpoint load (m : Mem) (a : Z) (n : nat) : option (list Z) :=
  match n with
  | O => Some []
  | S n => b ← m !! a; bs ← load m (a + 1) n; Some (b :: bs)
  end.

Fixpoint store (m : Mem) (a : Z) (bs : list Z) : option Mem :=
  match bs with
  | [] => Some m
  | b :: bs => _ ← m !! a; store (<[a := b]> m) (a + 1) bs
  end.

(** Numbers of [n] bytes, in the byte order of the machine. *)
Definition load_num (m : Mem) (a : Z) (n : nat) : option Z := le_val <$> load m a n.
Definition store_num (m : Mem) (a : Z) (n : nat) (v : Z) : option Mem := store m a (le_bytes n v).

(** A pointer. *)
Definition load_ptr (m : Mem) (a : Z) : option Z := load_num m a 8.

(** [strlen], which visits at most every byte of the memory. *)
Fixpoint strlen_from (fuel : nat) (m : Mem) (a : Z) : option Z :=
  match fuel with
  | O => None
  | S fuel => b ← m !! a; if b =? 0 then Some 0 else n ← strlen_from fuel m (a + 1); Some (n + 1)
  end.
Definition strlen (m : Mem) (a : Z) : option Z := strlen_from (S (size m)) m a.

(** The bytes of an area, all zero. *)
Fixpoint zeros (a : Z) (n : nat) : Mem :=
  match n with O => ∅ | S n => <[a := 0]> (zeros (a + 1) n) end.

(** ** Lemmas *)

Definition allocated (m : Mem) (a : Z) (n : Z) : Prop := forall i, a <= i < a + n -> is_Some (m !! i).

(** [m'] differs from [m] in the area only. *)
Definition changed (m m' : Mem) (a n : Z) : Prop := forall i, (i < a \/ a + n <= i) -> m' !! i = m !! i.

Lemma load_len m a n bs : load m a n = Some bs -> length bs = n.
Proof.
  revert a bs. induction n as [|n IH]; intros a bs; cbn; [by intros [= <-]|].
  destruct (m !! a); [|done]. cbn. destruct (load m (a + 1) n) eqn:E; [|done]. intros [= <-]. cbn. f_equal. eauto.
Qed.

Lemma load_lookup m a n bs (i : nat) :
  load m a n = Some bs -> (i < n)%nat -> m !! (a + Z.of_nat i) = bs !! i.
Proof.
  revert a bs i. induction n as [|n IH]; intros a bs i; cbn; [lia|].
  destruct (m !! a) as [b|] eqn:Eb; [|done]. cbn. destruct (load m (a + 1) n) as [bs'|] eqn:E; [|done].
  intros [= <-] Hi. destruct i as [|i]; cbn; [by rewrite Z.add_0_r|].
  etransitivity; [|exact (IH _ _ i E ltac:(lia))]. f_equal. lia.
Qed.

Lemma load_intro m a bs :
  (forall i b, bs !! i = Some b -> m !! (a + Z.of_nat i) = Some b) -> load m a (length bs) = Some bs.
Proof.
  revert a. induction bs as [|b bs IH]; intros a H; [done|]. cbn.
  pose proof (H 0%nat b eq_refl) as H0. rewrite Z.add_0_r in H0. rewrite H0. cbn. rewrite IH; [done|].
  intros i x Hx. rewrite <- (H (S i) x Hx). f_equal. lia.
Qed.

Lemma load_agree m m' a n :
  (forall i, a <= i < a + Z.of_nat n -> m' !! i = m !! i) -> load m' a n = load m a n.
Proof.
  revert a. induction n as [|n IH]; intros a H; [done|]. cbn. rewrite (H a) by lia.
  rewrite IH; [done|]. intros i Hi. apply H. lia.
Qed.

Lemma load_app m a n1 n2 :
  load m a (n1 + n2) = (bs1 ← load m a n1; bs2 ← load m (a + Z.of_nat n1) n2; Some (bs1 ++ bs2)).
Proof.
  revert a. induction n1 as [|n1 IH]; intros a; cbn.
  - rewrite Z.add_0_r. by destruct (load m a n2).
  - destruct (m !! a); [|done]. cbn. rewrite IH. destruct (load m (a + 1) n1); [|done]. cbn.
    replace (a + 1 + Z.of_nat n1) with (a + Z.pos (Pos.of_succ_nat n1)) by lia.
    by destruct (load m _ n2).
Qed.

Lemma allocated_load m a n : allocated m a (Z.of_nat n) -> is_Some (load m a n).
Proof.
  revert a. induction n as [|n IH]; intros a H; [by exists []|]. cbn.
  destruct (H a) as [b Hb]; [lia|]. rewrite Hb. cbn.
  destruct (IH (a + 1)) as [bs Hbs]; [intros i Hi; apply H; lia|]. rewrite Hbs. by exists (b :: bs).
Qed.

Lemma store_ok m a bs : allocated m a (zlen bs) -> is_Some (store m a bs).
Proof.
  revert m a. induction bs as [|b bs IH]; intros m a H; [by exists m|]. cbn.
  autorewrite with zlen in H. destruct (H a) as [x Hx]; [zlen_lia|]. rewrite Hx. cbn. apply IH.
  intros i Hi. destruct (decide (i = a)) as [->|]; [rewrite lookup_insert_eq; by eexists|].
  rewrite lookup_insert_ne by done. apply H. lia.
Qed.

Lemma store_out m a bs m' : store m a bs = Some m' -> changed m m' a (zlen bs).
Proof.
  revert m a. induction bs as [|b bs IH]; intros m a; cbn; [by intros [= <-]|].
  destruct (m !! a) eqn:E; [|done]. cbn. intros H i Hi. autorewrite with zlen in Hi.
  rewrite (IH _ _ H) by zlen_lia. apply lookup_insert_ne. zlen_lia.
Qed.

Lemma store_in m a bs m' (i : nat) :
  store m a bs = Some m' -> (i < length bs)%nat -> m' !! (a + Z.of_nat i) = bs !! i.
Proof.
  revert m a i. induction bs as [|b bs IH]; intros m a i; cbn; [lia|].
  destruct (m !! a) eqn:E; [|done]. cbn. intros H Hi. destruct i as [|i]; cbn.
  - rewrite Z.add_0_r. rewrite (store_out _ _ _ _ H) by lia. apply lookup_insert_eq.
  - etransitivity; [|exact (IH _ _ i H ltac:(lia))]. f_equal. lia.
Qed.

Lemma store_load m a bs m' : store m a bs = Some m' -> load m' a (length bs) = Some bs.
Proof.
  intros H. apply load_intro. intros i b Hi. rewrite (store_in _ _ _ _ i H); [done|]. by apply lookup_lt_Some in Hi.
Qed.

Lemma store_dom m a bs m' : store m a bs = Some m' -> forall i, is_Some (m' !! i) <-> is_Some (m !! i).
Proof.
  revert m a. induction bs as [|b bs IH]; intros m a; cbn; [by intros [= <-]|].
  destruct (m !! a) eqn:E; [|done]. cbn. intros H i. rewrite (IH _ _ H i).
  destruct (decide (i = a)) as [->|]; [rewrite lookup_insert_eq, E; split; by eexists|by rewrite lookup_insert_ne].
Qed.

Lemma store_app m a bs1 bs2 : store m a (bs1 ++ bs2) = (m' ← store m a bs1; store m' (a + zlen bs1) bs2).
Proof.
  revert m a. induction bs1 as [|b bs1 IH]; intros m a; [by cbn; rewrite Z.add_0_r|].
  cbn. destruct (m !! a); [|done]. cbn. rewrite IH. destruct (store _ (a + 1) bs1); [|done]. cbn.
  f_equal. zlen_lia.
Qed.

Lemma changed_refl m a n : changed m m a n.
Proof. by intros i Hi. Qed.

Lemma changed_trans m1 m2 m3 a n b k lo hi :
  changed m1 m2 a n -> changed m2 m3 b k ->
  (0 < n -> lo <= a /\ a + n <= lo + hi) -> (0 < k -> lo <= b /\ b + k <= lo + hi) -> changed m1 m3 lo hi.
Proof.
  intros H1 H2 Ha Hb i Hi. rewrite H2, H1; [done| |].
  - destruct (decide (0 < n)); [specialize (Ha ltac:(done)); lia|lia].
  - destruct (decide (0 < k)); [specialize (Hb ltac:(done)); lia|lia].
Qed.

#[global] Arguments load_num : simpl never.
#[global] Arguments load_ptr : simpl never.
#[global] Arguments store_num : simpl never.
#[global] Arguments strlen : simpl never.

Lemma allocated_sub m a n b k : allocated m a n -> a <= b -> b + k <= a + n -> allocated m b k.
Proof. intros H ? ? i Hi. apply H. lia. Qed.

Lemma zeros_allocated k : forall a, allocated (zeros a k) a (Z.of_nat k).
Proof.
  induction k as [|k IH]; intros a i Hi; [lia|]. cbn. destruct (decide (i = a)) as [->|]; [by rewrite lookup_insert_eq|].
  rewrite lookup_insert_ne by done. apply IH. lia.
Qed.

(** ** Areas of memory *)

(** Nothing changes outside [P], and nothing is allocated or released. *)
Definition within (P : Z -> Prop) (m m' : Mem) : Prop :=
  (forall i, ~ P i -> m' !! i = m !! i) /\ (forall i, is_Some (m' !! i) <-> is_Some (m !! i)).

Definition agrees (P : Z -> Prop) (m m' : Mem) : Prop := forall i, P i -> m' !! i = m !! i.

Lemma within_refl P m : within P m m.
Proof. by split. Qed.

Lemma within_trans (P Q R : Z -> Prop) m1 m2 m3 :
  within P m1 m2 -> within Q m2 m3 -> (forall i, P i -> R i) -> (forall i, Q i -> R i) -> within R m1 m3.
Proof.
  intros [H1 D1] [H2 D2] HP HQ. split; [|intros i; by rewrite D2]. intros i Hi. rewrite H2, H1; [done| |]; intros ?; apply Hi; auto.
Qed.

Lemma within_mono (P Q : Z -> Prop) m m' : within P m m' -> (forall i, P i -> Q i) -> within Q m m'.
Proof. intros [H D] HPQ. split; [|done]. intros i Hi. apply H. intros ?. by apply Hi, HPQ. Qed.

Lemma within_store m a bs m' : store m a bs = Some m' -> within (fun i => a <= i < a + zlen bs) m m'.
Proof. intros H. split; [|exact (store_dom _ _ _ _ H)]. intros i Hi. apply (store_out _ _ _ _ H). lia. Qed.

Lemma within_allocated P m m' a n : within P m m' -> allocated m a n -> allocated m' a n.
Proof. intros [_ D] H i Hi. apply D. by apply H. Qed.

Lemma agrees_mono (P Q : Z -> Prop) m m' : agrees P m m' -> (forall i, Q i -> P i) -> agrees Q m m'.
Proof. intros H HPQ i Hi. apply H. by apply HPQ. Qed.

(** What is read in [P] does not depend on a change outside of it. *)
Lemma agrees_before (P Q : Z -> Prop) m1 m2 m : agrees P m2 m -> within Q m1 m2 -> (forall i, P i -> ~ Q i) -> agrees P m1 m.
Proof. intros H [HQ _] HD i Hi. rewrite (H i Hi). apply HQ. by apply HD. Qed.

Lemma agrees_load (P : Z -> Prop) m m' a k : agrees P m m' -> (forall i, a <= i < a + Z.of_nat k -> P i) -> load m' a k = load m a k.
Proof. intros H HP. apply load_agree. intros i Hi. apply H. by apply HP. Qed.
