(* ===== verification/Xcdr.v ===== *)
(** Marshalling of native data to CDR (xtypes/xcdr.c, first half), with the
    type descriptions it is driven by (include/type_data.h).

    The native sample is in the memory [m]; the output buffer is a memory of
    its own whose addresses are the offsets [delta] that the code counts with,
    and NULL ([None]) when only the length is wanted.  The result is the new
    buffer and offset, where offset 0 reports an error; [None] is undefined
    behaviour: an access outside the sample or the buffer, a type that does not
    exist, or an exhausted recursion depth.  Dynamic data ([DynData_t]) and the
    debug output are not modelled, so that [dynamic] and [dump] are 0. *)

From stdpp Require Import gmap.
From S2P Require Import Prelude TypeData Mem.
From stdpp Require Import list.

#[local] Open Scope Z_scope.

(** ** Types *)

Inductive Extensibility_t := FINAL | EXTENSIBLE | MUTABLE.

#[export] Instance Extensibility_eq_dec : EqDecision Extensibility_t.
Proof. solve_decision. Defined.

Record XMember := mkXMember {
  is_key : bool;
  is_optional : bool;
  is_shareable : bool;
  must_understand : bool;
  member_id : Z;
  xm_id : Z;
  xm_offset : Z
}.

(** [UnionMember]: [nlabels] is the length of [labels]. *)
Record UnionMember := mkUMember {
  um_member : XMember;
  is_default : bool;
  labels : list Z
}.

(** [Type] with the extensions that depend on its kind. *)
Inductive XType :=
| XPrim (k : TypeKind)
| XEnum (bound : Z)
| XBitSet (bit_bound : Z)
| XAlias (scope base_type : Z)
| XArray (scope : Z) (shared : bool) (element_type element_size : Z) (bound : list Z)
| XSequence (scope : Z) (shared : bool) (element_type element_size bound : Z)
| XString (bound : Z)
| XUnion (ext : Extensibility_t) (scope size : Z) (members : list UnionMember)
| XStruct (ext : Extensibility_t) (scope size : Z) (keyed optional : bool) (members : list XMember).

(** The type libraries by scope, each with the types of its domain. *)
Definition XLibs := list (option (list (option XType))).

Fixpoint real_type (fuel : nat) (types : list (option XType)) (id : Z) : option (option XType) :=
  match fuel with
  | O => None
  | S fuel => t ← zget types id;
              match t with
              | Some (XAlias _ base) => real_type fuel types base
              | t => Some t
              end
  end.

(** [real_type_ptr]: the inner option is NULL. *)
Definition real_type_ptr (libs : XLibs) (scope id : Z) : option (option XType) :=
  match zget libs scope with
  | Some (Some types) => real_type (S (length types)) types id
  | _ => Some None
  end.

(** ** Formats and offsets *)

Inductive CDRFormat := CF_Native | CF_CDR | CF_CDR_Key | CF_CDR_PaddedKey.

#[export] Instance CDRFormat_eq_dec : EqDecision CDRFormat.
Proof. solve_decision. Defined.

Definition CF_Key (f : CDRFormat) : bool := match f with CF_CDR_Key | CF_CDR_PaddedKey => true | _ => false end.

Definition XT_PID_UNDERST : Z := 0x4000.
Definition XT_PID_ID_MASK : Z := 0x3fff.
Definition XT_PID_EXTENDED : Z := 0x3f01.
Definition XT_PID_LIST_END : Z := 0x3f02.
Definition XT_PID_IGNORE : Z := 0x3f03.
Definition MAX_MKFDS : nat := 8.

Definition ALIGN (delta boundary : Z) : Z := Z.land (delta + boundary - 1) (Z.lnot (boundary - 1)).

(** Bytes at an offset of the output, when there is one. *)
Definition put (o : option Mem) (delta : Z) (bs : list Z) : option (option Mem) :=
  match o with None => Some None | Some b => Some <$> store b delta bs end.

Definition CDR_ALIGN (do_write : bool) (o : option Mem) (delta boundary : Z) : option (option Mem * Z) :=
  let delta' := ALIGN delta boundary in
  o ← (if do_write then put o delta (replicate (Z.to_nat (delta' - delta)) 0) else Some o);
  Some (o, delta').

Definition swapped (swap : bool) (bs : list Z) : list Z := if swap then rev bs else bs.

(** [qsort] on the member ids. *)
Fixpoint insert_by_id (mp : XMember) (l : list XMember) : list XMember :=
  match l with
  | [] => [mp]
  | x :: l => if member_id mp <=? member_id x then mp :: x :: l else x :: insert_by_id mp l
  end.
Definition sort_by_id (l : list XMember) : list XMember := foldr insert_by_id [] l.

(** A member id is below its predecessor's. *)
Fixpoint descends (prev : Z) (l : list XMember) : bool :=
  match l with [] => false | mp :: l => (member_id mp <? prev) || descends (member_id mp) l end.

(** The product of the bounds of an array, an [unsigned]. *)
Definition array_nelems (bound : list Z) : option Z :=
  match bound with [] => None | b :: bound => Some (fold_left (fun n b => ⟦n * b⟧32) bound b) end.

(** [strlen_bound] *)
Fixpoint strlen_bound (m : Mem) (s : Z) (bound : nat) : option Z :=
  match bound with
  | O => Some 0
  | S bound => b ← m !! s; if b =? 0 then Some 0 else n ← strlen_bound m (s + 1) bound; Some (n + 1)
  end.

(** [cdr_union_label] *)
Definition cdr_union_label (m : Mem) (tp : XType) (data : Z) : option Z :=
  match tp with
  | XPrim (DDS_CHAR_8_TYPE | DDS_BYTE_TYPE | DDS_BOOLEAN_TYPE) => load_num m data 1
  | XPrim DDS_UINT_16_TYPE => load_num m data 2
  | XPrim DDS_INT_16_TYPE => swrap 16 <$> load_num m data 2
  | XPrim (DDS_CHAR_32_TYPE | DDS_UINT_32_TYPE) => load_num m data 4
  | XPrim DDS_INT_32_TYPE => swrap 32 <$> load_num m data 4
  | XPrim (DDS_UINT_64_TYPE | DDS_INT_64_TYPE) => swrap 64 <$> load_num m data 8
  | XEnum bound => if bound <=? 8 then load_num m data 1 else if bound <=? 16 then load_num m data 2 else load_num m data 4
  | _ => Some 0
  end.

Section Generate.
  (** The types, the native data, whether memory is available, and [GenInfo_t]. *)
  Context (libs : XLibs) (m : Mem) (xmalloc_ok : bool) (dformat : CDRFormat) (key_mode swap : bool).

  (** [cdr_generate], one level deeper: type, buffer, offset, source, whether
      it is a key field, whether the source is a pointer to the data. *)
  Context (cdr_generate : XType -> option Mem -> Z -> Z -> bool -> bool -> option (option Mem * Z)).

(** A number of [n] bytes at an offset that is a multiple of [al]. *)
Definition gen_num (n : nat) (al : Z) (o : option Mem) (offset src : Z) (kf : bool) : option (option Mem * Z) :=
  if negb key_mode || kf then
    '(o, delta) ← CDR_ALIGN true o offset al;
    o ← (match o with
         | None => Some None
         | Some _ => bs ← load m src n; put o delta (swapped swap bs)
         end);
    Some (o, delta + Z.of_nat n)
  else Some (o, offset).

Definition gen_float128 (o : option Mem) (offset src : Z) (kf : bool) : option (option Mem * Z) :=
  if negb key_mode || kf then
    '(o, delta) ← CDR_ALIGN true o offset 8;
    o ← (match o with
         | None => Some None
         | Some _ => b1 ← load m src 8; b2 ← load m (src + 8) 8;
                     put o delta (swapped swap b1 ++ swapped swap b2)
         end);
    Some (o, delta + 16)
  else Some (o, offset).

Definition gen_string (bound : Z) (o : option Mem) (offset src : Z) (kf : bool) : option (option Mem * Z) :=
  if negb key_mode || kf then
    '(ptr, len) ← (if negb (src =? 0) then
                     if negb (bound =? 0) then len ← strlen_bound m src (Z.to_nat bound); Some (src, len)
                     else ptr ← load_ptr m src;
                          if negb (ptr =? 0) then len ← strlen m ptr; Some (ptr, ⟦len⟧32) else Some (ptr, 0)
                   else Some (0, 0));
    let len := ⟦len + 1⟧32 in
    '(o, delta) ← CDR_ALIGN true o offset 4;
    o ← put o delta (swapped swap (le_bytes 4 len));
    let delta := delta + 4 in
    '(o, delta) ← (if negb (ptr =? 0) then
                     o ← (match o with
                          | None => Some None
                          | Some _ => bs ← (if 1 <? len then load m ptr (Z.to_nat (len - 1)) else Some []);
                                      o ← put o delta bs;
                                      put o (delta + len - 1) [0]
                          end);
                     Some (o, delta + len)
                   else o ← put o delta [0]; Some (o, delta + 1));
    if key_mode && bool_decide (dformat = CF_CDR_PaddedKey) && negb (bound =? 0) && (len <=? bound) then
      o ← put o delta (replicate (Z.to_nat (bound - len + 1)) 0);
      Some (o, delta + bound - len + 1)
    else Some (o, delta)
  else Some (o, offset).

(** The parameter header of a member of a mutable type. *)
Definition gen_header (mp : XMember) (do_write : bool) (o : option Mem) (delta : Z) : option (option Mem * Z) :=
  let flag := if must_understand mp then XT_PID_UNDERST else 0 in
  if XT_PID_EXTENDED <=? member_id mp then
    o ← (if do_write then put o delta (swapped swap (le_bytes 2 (Z.lor XT_PID_EXTENDED flag)) ++
                                       swapped swap (le_bytes 2 8) ++ swapped swap (le_bytes 4 (member_id mp)))
         else Some o);
    Some (o, delta + 12)
  else
    o ← (if do_write then put o delta (swapped swap (le_bytes 2 (Z.lor (member_id mp) flag))) else Some o);
    Some (o, delta + 4).

(** The length of the member is filled in. *)
Definition gen_backpatch (mp : XMember) (o : option Mem) (delta n : Z) : option (option Mem) :=
  if XT_PID_EXTENDED <=? member_id mp then put o (delta - 4) (swapped swap (le_bytes 4 (n - delta)))
  else put o (delta - 2) (swapped swap (le_bytes 2 (n - delta))).

(** [cdr_generate_member] *)
Definition cdr_generate_member (scope : Z) (mp : XMember) (mutable all_key : bool) (o : option Mem) (offset src : Z)
  : option (option Mem * Z) :=
  '(src', skip_optional, go_on) ←
    (if negb (src =? 0) then
       if is_shareable mp || is_optional mp then
         p ← load_ptr m (src + xm_offset mp);
         Some (if negb (p =? 0) then (p, false, true)
               else if negb (is_optional mp) then (src, false, false)
               else (src, true, true))
       else Some (src + xm_offset mp, false, true)
     else Some (src, false, true));
  if negb go_on then Some (o, 0)
  else
    let do_write := negb (src =? 0) && match o with Some _ => true | None => false end in
    let add_header := mutable && negb skip_optional in
    '(o, delta) ← (if add_header then '(o, delta) ← CDR_ALIGN do_write o offset 4; gen_header mp do_write o delta
                   else if negb mutable && is_optional mp then CDR_ALIGN do_write o offset 4
                   else Some (o, offset));
    '(o, n) ← (if negb skip_optional then
                 tp ← real_type_ptr libs scope (xm_id mp);
                 tp ← tp;
                 cdr_generate tp o delta src' (is_key mp || all_key) (is_shareable mp)
               else Some (o, delta));
    if (n =? 0) && negb skip_optional then Some (o, 0)
    else if add_header && do_write then
      '(o, n) ← CDR_ALIGN do_write o n 4;
      o ← gen_backpatch mp o delta n;
      Some (o, n)
    else if negb mutable && is_optional mp then
      match o with
      | None => None
      | Some _ => o ← put o delta (swapped swap (le_bytes 4 (n - delta))); Some (o, n)
      end
    else Some (o, n).

(** [cdr_generate_eol] *)
Definition cdr_generate_eol (o : option Mem) (offset : Z) : option (option Mem * Z) :=
  '(o, delta) ← CDR_ALIGN true o offset 4;
  o ← put o delta (swapped swap (le_bytes 2 XT_PID_LIST_END) ++ [0; 0]);
  Some (o, delta + 4).

(** A run of members. *)
Fixpoint gen_members (l : list XMember) (scope : Z) (mutable all_key : bool) (o : option Mem) (offset src : Z)
  : option (option Mem * Z) :=
  match l with
  | [] => Some (o, offset)
  | mp :: l =>
      '(o, n) ← cdr_generate_member scope mp mutable all_key o offset src;
      if n =? 0 then Some (o, 0) else gen_members l scope mutable all_key o n src
  end.

Definition use_member (keyed : bool) (mp : XMember) : bool := negb key_mode || is_key mp || negb keyed.

(** [cdr_generate_struct_cdr] *)
Definition cdr_generate_struct_cdr (scope : Z) (keyed : bool) (members : list XMember) (o : option Mem) (offset src : Z)
  : option (option Mem * Z) :=
  gen_members (filter (fun mp => use_member keyed mp = true) members) scope false (negb keyed) o offset src.

(** [cdr_generate_mutable_unordered] *)
Definition cdr_generate_mutable_unordered (scope : Z) (members : list XMember) (o : option Mem) (offset src : Z)
  : option (option Mem * Z) :=
  '(o, n) ← gen_members members scope true false o offset src;
  if (n =? 0) && negb (bool_decide (members = [])) then Some (o, 0) else cdr_generate_eol o n.

(** [cdr_generate_mutable_ordered] *)
Definition cdr_generate_mutable_ordered (scope : Z) (keyed : bool) (members : list XMember) (o : option Mem)
  (offset src : Z) : option (option Mem * Z) :=
  let fds := filter (fun mp => is_key mp || negb keyed = true) members in
  if (MAX_MKFDS <? length fds)%nat && negb xmalloc_ok then Some (o, 0)
  else
    let fds := if descends 0 fds then sort_by_id fds else fds in
    gen_members fds scope false (negb keyed) o offset src.

(** [cdr_generate_struct] *)
Definition cdr_generate_struct (ext : Extensibility_t) (scope : Z) (keyed : bool) (members : list XMember)
  (o : option Mem) (offset src : Z) : option (option Mem * Z) :=
  if negb (bool_decide (ext = MUTABLE)) then cdr_generate_struct_cdr scope keyed members o offset src
  else if negb key_mode then cdr_generate_mutable_unordered scope members o offset src
  else cdr_generate_mutable_ordered scope keyed members o offset src.

(** The member of a union with a label, or the default member. *)
Fixpoint find_label (label : Z) (def : option UnionMember) (l : list UnionMember) : option UnionMember :=
  match l with
  | [] => def
  | mp :: l =>
      if is_default mp then find_label label (Some mp) l
      else if bool_decide (label ∈ labels mp) then Some mp
      else find_label label def l
  end.

(** [cdr_generate_union] *)
Definition cdr_generate_union (ext : Extensibility_t) (scope : Z) (members : list UnionMember) (o : option Mem)
  (offset src : Z) : option (option Mem * Z) :=
  let plist := bool_decide (ext = MUTABLE) && negb key_mode in
  match members with
  | [] => None
  | mp :: rest =>
      if (key_mode && negb (is_key (um_member mp))) || (src =? 0) then Some (o, offset)
      else
        tp ← real_type_ptr libs scope (xm_id (um_member mp));
        match tp with
        | None => Some (o, 0)
        | Some tp =>
            label ← cdr_union_label m tp src;
            let label := ⟪label⟫32 in
            '(o, delta) ← cdr_generate_member scope (um_member mp) plist false o offset src;
            if delta =? 0 then Some (o, 0)
            else
              match find_label label None rest with
              | None => Some (o, 0)
              | Some xmp =>
                  '(o, delta) ← cdr_generate_member scope (um_member xmp) plist false o delta src;
                  if delta =? 0 then Some (o, 0)
                  else if plist then cdr_generate_eol o delta
                  else Some (o, delta)
              end
        end
  end.

(** The elements of an array or a sequence. *)
Fixpoint gen_elems (k : nat) (etp : XType) (shared : bool) (element_size : Z) (o : option Mem) (delta src : Z)
  (kf : bool) : option (option Mem * Z) :=
  match k with
  | O => Some (o, delta)
  | S k =>
      '(o, delta) ← cdr_generate etp o delta src kf shared;
      if delta =? 0 then Some (o, 0)
      else gen_elems k etp shared element_size o delta (if shared then src + 8 else src + element_size) kf
  end.

(** [cdr_generate_array] *)
Definition cdr_generate_array (scope : Z) (shared : bool) (element_type element_size : Z) (bound : list Z)
  (o : option Mem) (offset src : Z) (kf : bool) : option (option Mem * Z) :=
  if key_mode && negb kf then Some (o, offset)
  else
    nelems ← array_nelems bound;
    etp ← real_type_ptr libs scope element_type;
    match etp with
    | None => Some (o, 0)
    | Some etp => gen_elems (Z.to_nat nelems) etp shared element_size o offset src kf
    end.

(** [cdr_generate_seqmap] *)
Definition cdr_generate_seqmap (scope : Z) (shared : bool) (element_type element_size : Z)
  (o : option Mem) (offset src : Z) (kf : bool) : option (option Mem * Z) :=
  etp ← real_type_ptr libs scope element_type;
  match etp with
  | None => Some (o, 0)
  | Some etp =>
      '(nelem, src) ← (if negb (src =? 0) then
                         nelem ← load_num m (src + 4) 4; buffer ← load_ptr m (src + 16); Some (nelem, buffer)
                       else Some (0, src));
      if key_mode && negb kf then Some (o, offset)
      else
        '(o, delta) ← CDR_ALIGN true o offset 4;
        o ← put o delta (swapped swap (le_bytes 4 nelem));
        gen_elems (Z.to_nat nelem) etp shared element_size o (delta + 4) src kf
  end.

(** The body of [cdr_generate]. *)
Definition gen_body (tp : XType) (o : option Mem) (offset src : Z) (kf sf : bool) : option (option Mem * Z) :=
  src ← (if sf then if negb (src =? 0) then load_ptr m src else Some 0 else Some src);
  match tp with
  | XPrim (DDS_CHAR_8_TYPE | DDS_BYTE_TYPE | DDS_BOOLEAN_TYPE) => gen_num 1 1 o offset src kf
  | XPrim (DDS_INT_16_TYPE | DDS_UINT_16_TYPE) => gen_num 2 2 o offset src kf
  | XPrim (DDS_CHAR_32_TYPE | DDS_INT_32_TYPE | DDS_UINT_32_TYPE | DDS_FLOAT_32_TYPE) => gen_num 4 4 o offset src kf
  | XPrim (DDS_INT_64_TYPE | DDS_UINT_64_TYPE | DDS_FLOAT_64_TYPE) => gen_num 8 8 o offset src kf
  | XPrim DDS_FLOAT_128_TYPE => gen_float128 o offset src kf
  | XEnum bound => if bound <=? 16 then gen_num 2 2 o offset src kf else gen_num 4 4 o offset src kf
  | XBitSet bit_bound =>
      if bit_bound <=? 8 then gen_num 1 1 o offset src kf
      else if bit_bound <=? 16 then gen_num 2 2 o offset src kf
      else if bit_bound <=? 32 then gen_num 4 4 o offset src kf
      else gen_num 8 8 o offset src kf
  | XString bound => gen_string bound o offset src kf
  | XStruct ext scope _ keyed _ members =>
      if negb key_mode || kf then cdr_generate_struct ext scope keyed members o offset src else Some (o, offset)
  | XUnion ext scope _ members =>
      if negb key_mode || kf then cdr_generate_union ext scope members o offset src else Some (o, offset)
  | XArray scope shared element_type element_size bound =>
      if negb key_mode || kf then cdr_generate_array scope shared element_type element_size bound o offset src kf
      else Some (o, offset)
  | XSequence scope shared element_type element_size _ =>
      if negb key_mode || kf then cdr_generate_seqmap scope shared element_type element_size o offset src kf
      else Some (o, offset)
  | _ => Some (o, 0)
  end.

End Generate.

(** [cdr_generate], with a bound on the depth of types. *)
Fixpoint cdr_generate (fuel : nat) (libs : XLibs) (m : Mem) (xmalloc_ok : bool) (dformat : CDRFormat)
  (key_mode swap : bool) (tp : XType) (o : option Mem) (offset src : Z) (kf sf : bool) : option (option Mem * Z) :=
  match fuel with
  | O => None
  | S fuel => gen_body libs m xmalloc_ok dformat key_mode swap
                (cdr_generate fuel libs m xmalloc_ok dformat key_mode swap) tp o offset src kf sf
  end.

(** ** The functions of the interface *)

(** [xt_real_type]: the type of an alias. *)
Definition xt_real_type (libs : XLibs) (tp : XType) : option XType :=
  match tp with
  | XAlias scope base => types ← zget libs scope; types ← types; t ← real_type (S (length types)) types base; t
  | _ => Some tp
  end.

Definition gen_format (key msize : bool) : CDRFormat :=
  if key then if msize then CF_CDR_PaddedKey else CF_CDR_Key else CF_CDR.

(** [cdr_marshalled_size] of a type that is not NULL. *)
Definition cdr_marshalled_size (fuel : nat) (libs : XLibs) (m : Mem) (xmalloc_ok : bool) (hsize data : Z) (tp : XType)
  (key msize : bool) : option (Z * DDS_ReturnCode_t) :=
  tp ← xt_real_type libs tp;
  match tp with
  | XStruct _ _ _ _ _ _ | XSequence _ _ _ _ _ | XArray _ _ _ _ _ | XUnion _ _ _ _ =>
      '(_, length) ← cdr_generate fuel libs m xmalloc_ok (gen_format key msize) key false tp None hsize data key false;
      Some (if length =? 0 then (0, DDS_RETCODE_BAD_PARAMETER) else (length - hsize, DDS_RETCODE_OK))
  | _ => Some (0, DDS_RETCODE_BAD_PARAMETER)
  end.

(** [cdr_marshall] into a buffer at the offsets from [hsize]. *)
Definition cdr_marshall (fuel : nat) (libs : XLibs) (m : Mem) (xmalloc_ok : bool) (dest : Mem) (hsize data : Z)
  (tp : XType) (key msize swap : bool) : option (Mem * Z * DDS_ReturnCode_t) :=
  if negb key && (data =? 0) then Some (dest, 0, DDS_RETCODE_BAD_PARAMETER)
  else
    tp ← xt_real_type libs tp;
    match tp with
    | XStruct _ _ _ _ _ _ | XUnion _ _ _ _ =>
        '(o, n) ← cdr_generate fuel libs m xmalloc_ok (gen_format key msize) key swap tp (Some dest) hsize data key false;
        dest ← o;
        let length := ⟦n - hsize⟧64 in
        if length =? 0 then Some (dest, 0, DDS_RETCODE_BAD_PARAMETER)
        else
          let length' := ALIGN length 4 in
          dest ← store dest (hsize + length) (replicate (Z.to_nat (length' - length)) 0);
          Some (dest, length', DDS_RETCODE_OK)
    | _ => Some (dest, 0, DDS_RETCODE_BAD_PARAMETER)
    end.
