(* ===== verification/XcdrParse.v ===== *)
(** Unmarshalling of CDR data (xtypes/xcdr.c, second half): one traversal of
    the marshalled data by type, which copies the data to a native structure,
    copies the key fields, computes one of the lengths needed for that, or
    finds the offset of a field.

    [src] is the marshalled data, whose addresses are the offsets [sofs] that
    the code counts with; [ps_mem] the memory with the destination.  The result
    is the new offset, 0 for an error, and the new state; [None] is undefined
    behaviour.  The actions on dynamic data and the debug output are not
    modelled. *)

From stdpp Require Import gmap.
From S2P Require Import Prelude TypeData Mem Xcdr.
From stdpp Require Import list.

#[local] Open Scope Z_scope.

Inductive ParseAction := PA_GetNative | PA_GetCDRKey | PA_GetCDRKeyLength | PA_GetAuxLength | PA_GetOffset.

#[export] Instance ParseAction_eq_dec : EqDecision ParseAction.
Proof. solve_decision. Defined.

Definition PA_CopyData (a : ParseAction) : bool := match a with PA_GetNative | PA_GetCDRKey => true | _ => false end.

(** [ParseInfo]: what does not change during a parse... *)
Record ParseInfo := mkPI {
  action : ParseAction;
  sformat : CDRFormat;
  pdformat : CDRFormat;
  aux_dst : Z;
  field : Z;
  int_swap : bool;
  cnv_swap : bool;
  pkey_mode : bool
}.

(** ... and what does.  [want_label] says that [label] is not NULL; [lab] is
    the variable it points to, [None] before it is set.  [ps_allocs] are the
    answers of the allocator. *)
Record PState := mkPS {
  ps_mem : Mem;
  dst : Z;
  dofs : Z;
  aux_ofs : Z;
  dlength : Z;
  want_label : bool;
  lab : option Z;
  ps_allocs : list (option Z)
}.

Definition set_mem (m : Mem) (s : PState) : PState :=
  mkPS m (dst s) (dofs s) (aux_ofs s) (dlength s) (want_label s) (lab s) (ps_allocs s).
Definition set_dst (d o : Z) (s : PState) : PState :=
  mkPS (ps_mem s) d o (aux_ofs s) (dlength s) (want_label s) (lab s) (ps_allocs s).
Definition set_dofs (o : Z) (s : PState) : PState := set_dst (dst s) o s.
Definition set_aux (a : Z) (s : PState) : PState :=
  mkPS (ps_mem s) (dst s) (dofs s) a (dlength s) (want_label s) (lab s) (ps_allocs s).
Definition set_dlength (n : Z) (s : PState) : PState :=
  mkPS (ps_mem s) (dst s) (dofs s) (aux_ofs s) n (want_label s) (lab s) (ps_allocs s).
Definition set_label (w : bool) (l : option Z) (s : PState) : PState :=
  mkPS (ps_mem s) (dst s) (dofs s) (aux_ofs s) (dlength s) w l (ps_allocs s).
Definition set_allocs (al : list (option Z)) (s : PState) : PState :=
  mkPS (ps_mem s) (dst s) (dofs s) (aux_ofs s) (dlength s) (want_label s) (lab s) al.

(** [Alloc]: the address, or NULL. *)
Definition Alloc (s : PState) : Z * PState :=
  match ps_allocs s with
  | Some a :: al => (a, set_allocs al s)
  | None :: al => (0, set_allocs al s)
  | [] => (0, s)
  end.

(** Bytes to the destination, [i] bytes behind [dofs]. *)
Definition put_dst (i : Z) (bs : list Z) (s : PState) : option PState :=
  m ← store (ps_mem s) (dst s + dofs s + i) bs; Some (set_mem m s).

(** [CDR_ALIGN (ip->dofs, boundary, 1, ip->dst)] *)
Definition align_dst (boundary : Z) (s : PState) : option PState :=
  let o := ALIGN (dofs s) boundary in
  s ← put_dst 0 (replicate (Z.to_nat (o - dofs s)) 0) s; Some (set_dofs o s).

(** [pid_parse_header]: the new offset, the id, the length and the flag. *)
Definition pid_parse_header (src : Mem) (swap : bool) (sofs : Z) : option (Z * Z * Z * bool) :=
  h ← load src sofs 4;
  let s_pid := le_val (swapped swap (take 2 h)) in
  let s_len := le_val (swapped swap (drop 2 h)) in
  let sofs := sofs + 4 in
  let id := Z.land s_pid XT_PID_ID_MASK in
  let understand := negb (Z.land s_pid XT_PID_UNDERST =? 0) in
  if (id <? XT_PID_EXTENDED) || (id =? XT_PID_LIST_END) || (id =? XT_PID_IGNORE) then Some (sofs, id, s_len, understand)
  else if id =? XT_PID_EXTENDED then
    if negb (s_len =? 8) then Some (0, id, 0, understand)
    else
      x ← load src sofs 8;
      Some (sofs + 8, Z.land (le_val (swapped swap (take 4 x))) 0xfffffff, le_val (swapped swap (drop 4 x)), understand)
  else Some (0, id, 0, understand).

(** [cdr_field_ofs]: the offset and the size of a field. *)
Definition cdr_field_ofs (tp : XType) (ofs : Z) : Z * Z :=
  let simple n := (ALIGN ofs n, n) in
  match tp with
  | XPrim (DDS_BOOLEAN_TYPE | DDS_BYTE_TYPE | DDS_CHAR_8_TYPE) => simple 1
  | XPrim (DDS_INT_16_TYPE | DDS_UINT_16_TYPE) => simple 2
  | XPrim (DDS_INT_32_TYPE | DDS_UINT_32_TYPE | DDS_CHAR_32_TYPE | DDS_FLOAT_32_TYPE) => simple 4
  | XPrim (DDS_INT_64_TYPE | DDS_UINT_64_TYPE | DDS_FLOAT_64_TYPE) => simple 8
  | XPrim DDS_FLOAT_128_TYPE => simple 16
  | XEnum bound => if bound <=? 8 then simple 1 else if bound <=? 16 then simple 2 else simple 4
  | XBitSet bound =>
      if bound <=? 8 then simple 1 else if bound <=? 16 then simple 2 else if bound <=? 32 then simple 4 else simple 8
  | XArray _ _ _ s bound =>
      (ALIGN ofs (if s =? 1 then 1 else if s =? 2 then 2 else if s =? 4 then 4 else 8), fold_left Z.mul bound s)
  | XSequence _ _ _ _ _ => (ALIGN ofs 8, 24)
  | XString bound => (ofs, bound)
  | XUnion _ _ size _ => (ALIGN ofs 8, size)
  | XStruct _ _ size _ _ _ => (ALIGN ofs 8, size)
  | _ => (0, 0)
  end.

Section Parse.
  Context (libs : XLibs) (src : Mem) (xmalloc_ok : bool) (ip : ParseInfo).

  (** [cdr_parse], one level deeper: type, whether it is a key field, offset. *)
  Context (cdr_parse : XType -> bool -> Z -> PState -> option (Z * PState)).

  (** The bound on the number of parameters in a list. *)
  Context (pfuel : nat).

Definition in_cdr (key : bool) : bool := bool_decide (sformat ip = CF_CDR) || key.
Definition wanted (key : bool) : bool := negb (pkey_mode ip) || key.

(** The discriminator, when it is asked for; [None] stands for an error. *)
Definition take_label (v : option Z) (s : PState) : option PState :=
  if want_label s then
    match v with None => None | Some v => Some (set_label false (Some v) s) end
  else Some s.

(** The bytes of a number are copied to the destination. *)
Definition copy_num (n : nat) (al : Z) (sofs : Z) (s : PState) : option PState :=
  bs ← load src sofs n;
  s ← (if CF_Key (pdformat ip) then align_dst al s else Some s);
  s ← put_dst 0 (swapped (cnv_swap ip) bs) s;
  Some (if CF_Key (pdformat ip) then set_dofs (dofs s + Z.of_nat n) s else s).

(** A number of [n] bytes, which as a discriminator has the value [value] of
    its bytes in the byte order of the machine. *)
Definition get_num (n : nat) (value : Z -> option Z) (key : bool) (sofs : Z) (s : PState) : option (Z * PState) :=
  let sofs := if in_cdr key then ALIGN sofs (Z.of_nat n) else sofs in
  os ← (if wanted key then
          s ← (if bool_decide (action ip = PA_GetCDRKeyLength) then
                 Some (set_dofs (ALIGN (dofs s) (Z.of_nat n) + Z.of_nat n) s)
               else if PA_CopyData (action ip) then copy_num n (Z.of_nat n) sofs s
               else Some s);
          if want_label s then
            bs ← load src sofs n;
            Some (take_label (value (le_val (swapped (int_swap ip) bs))) s)
          else Some (Some s)
        else Some (Some s));
  match os with
  | None => Some (0, s)
  | Some s => Some (if in_cdr key then sofs + Z.of_nat n else sofs, s)
  end.

Definition get_float128 (key : bool) (sofs : Z) (s : PState) : option (Z * PState) :=
  let sofs := if in_cdr key then ALIGN sofs 8 else sofs in
  s ← (if wanted key then
         if bool_decide (action ip = PA_GetCDRKeyLength) then Some (set_dofs (ALIGN (dofs s) 8 + 16) s)
         else if PA_CopyData (action ip) then copy_num 16 8 sofs s
         else Some s
       else Some s);
  Some (if in_cdr key then sofs + 16 else sofs, s).

(** The lengths that depend on a string of length [l]. *)
Definition string_length (bound l : Z) (s : PState) : PState :=
  if bool_decide (action ip = PA_GetAuxLength) && (bound =? 0) then set_dlength (dlength s + l) s
  else if CF_Key (pdformat ip) then
    let o := ALIGN (dofs s) 4 + 4 in
    set_dofs (o + if negb (bound =? 0) && bool_decide (pdformat ip = CF_CDR_PaddedKey) then ⟦bound + 1⟧32 else l) s
  else s.

(** A bounded string is copied. *)
Definition copy_bounded (bound l sofs : Z) (s : PState) : option (option (Z * PState)) :=
  if ⟦bound + 1⟧32 <? l then Some None
  else
    s ← (if 1 <? l then bs ← load src sofs (Z.to_nat (l - 1)); put_dst 0 bs s else Some s);
    s ← (if CF_Key (pdformat ip) then
           if bool_decide (pdformat ip = CF_CDR_PaddedKey) && (⟦l - 1⟧32 <? ⟦bound + 1⟧32) then
             s ← put_dst (l - 1) (replicate (Z.to_nat ⟦bound + 2 - l⟧32) 0) s;
             Some (set_dofs (dofs s + ⟦bound + 1⟧32) s)
           else s ← put_dst (l - 1) [0] s; Some (set_dofs (dofs s + l) s)
         else if l <=? ⟦bound + 1⟧32 then put_dst (l - 1) (replicate (Z.to_nat ⟦bound + 2 - l⟧32) 0) s
         else Some s);
    Some (Some (if bool_decide (sformat ip = CF_CDR_PaddedKey) then sofs + ⟦bound - l⟧32 else sofs, s)).

(** An unbounded string is copied: into the key, to a block of its own, or to
    the space behind the structure. *)
Definition copy_unbounded (l sofs : Z) (s : PState) : option (option PState) :=
  if CF_Key (pdformat ip) then
    s ← (if negb (l =? 0) then bs ← load src sofs (Z.to_nat l); put_dst 0 bs s else Some s);
    Some (Some (set_dofs (dofs s + l) s))
  else if CF_Key (sformat ip) then
    let '(dcp, s) := if negb (l =? 0) then Alloc s else (0, s) in
    if negb (l =? 0) && (dcp =? 0) then Some None
    else
      s ← put_dst 0 (le_bytes 8 dcp) s;
      if negb (l =? 0) then
        bs ← load src sofs (Z.to_nat l); m ← store (ps_mem s) dcp bs; Some (Some (set_mem m s))
      else Some (Some s)
  else
    '(dcp, s) ← (if negb (l =? 0) then
                   let dcp := aux_dst ip + aux_ofs s in
                   bs ← load src sofs (Z.to_nat l); m ← store (ps_mem s) dcp bs; Some (dcp, set_mem m s)
                 else Some (0, s));
    s ← put_dst 0 (le_bytes 8 dcp) s;
    Some (Some (set_aux (aux_ofs s + l) s)).

(** [cdr_parse_string] *)
Definition cdr_parse_string (bound : Z) (key : bool) (sofs : Z) (s : PState) : option (Z * PState) :=
  if negb (in_cdr key) then Some (sofs, s)
  else
    let sofs := ALIGN sofs 4 in
    lb ← load src sofs 4;
    let l := le_val (swapped (int_swap ip) lb) in
    let sofs := sofs + 4 in
    if pkey_mode ip && negb key then Some (if bool_decide (sformat ip = CF_CDR) then sofs + l else sofs, s)
    else
      s ← (if bool_decide (action ip = PA_GetCDRKey) && key then
             s ← align_dst 4 s;
             s ← put_dst 0 (swapped (negb (eqb (int_swap ip) (cnv_swap ip))) (le_bytes 4 l)) s;
             Some (set_dofs (dofs s + 4) s)
           else Some s);
      if negb (PA_CopyData (action ip)) then Some (sofs + l, string_length bound l s)
      else if negb (bound =? 0) then
        r ← copy_bounded bound l sofs s;
        Some (match r with None => (0, s) | Some (sofs, s) => (sofs + l, s) end)
      else
        r ← copy_unbounded l sofs s;
        Some (match r with None => (0, s) | Some s => (sofs + l, s) end).

(** The place of a member in the destination: [false] when nothing is parsed,
    with the offset to return. *)
Definition enter_member (mp : XMember) (tp : XType) (plen sofs : Z) (s : PState) : option (PState * bool * Z) :=
  match action ip with
  | PA_GetNative =>
      let a := dst s + dofs s + xm_offset mp in
      if is_optional mp || is_shareable mp then
        if is_optional mp && (plen =? 0) then
          m ← store (ps_mem s) a (le_bytes 8 0); Some (set_mem m s, false, sofs)
        else
          p ← load_ptr (ps_mem s) a;
          if CF_Key (sformat ip) then
            if p =? 0 then Some (s, false, 0) else Some (set_dst p 0 s, true, sofs)
          else
            let '(o, esize) := cdr_field_ofs tp (aux_ofs s) in
            m ← store (ps_mem s) a (le_bytes 8 (aux_dst ip + o));
            Some (set_dst (aux_dst ip + o) 0 (set_aux (o + esize) (set_mem m s)), true, sofs)
      else Some (set_dst a 0 s, true, sofs)
  | PA_GetAuxLength =>
      if (is_optional mp || is_shareable mp) && negb (plen =? 0) then
        let '(o, esize) := cdr_field_ofs tp (dlength s) in Some (set_dlength (o + esize) s, true, sofs)
      else Some (s, true, sofs)
  | _ => Some (s, true, sofs)
  end.

(** [cdr_parse_member] *)
Definition cdr_parse_member (scope : Z) (mp : XMember) (plen : Z) (key : bool) (sofs : Z) (s : PState)
  : option (Z * PState) :=
  tp ← real_type_ptr libs scope (xm_id mp);
  match tp with
  | None => Some (0, s)
  | Some tp =>
      let prev_dst := dst s in
      let prev_dofs := dofs s in
      '(s, go_on, r) ← enter_member mp tp plen sofs s;
      if negb go_on then Some (r, s)
      else
        '(n, s) ← cdr_parse tp key sofs s;
        if n =? 0 then Some (0, s)
        else
          let s := if bool_decide (action ip = PA_GetNative) then set_dst prev_dst prev_dofs s else s in
          if negb (plen =? 0) then
            let sofs := sofs + plen in
            Some (if sofs <? n then 0 else sofs, s)
          else Some (n, s)
  end.

(** [cdr_parse_cdr_unordered], from member [i]. *)
Fixpoint parse_unordered (l : list XMember) (i : Z) (scope : Z) (keyed key : bool) (sofs : Z) (s : PState)
  : option (Z * PState) :=
  match l with
  | [] => Some (sofs, s)
  | mp :: l =>
      let key_member := key && (is_key mp || negb keyed) in
      if CF_Key (sformat ip) && negb key_member then parse_unordered l (i + 1) scope keyed key sofs s
      else
        '(sofs, plen, ok) ← (if is_optional mp then
                               '(n, id, plen, _) ← pid_parse_header src (int_swap ip) sofs;
                               Some (n, plen, negb (n =? 0) && (id =? member_id mp))
                             else Some (sofs, 0, true));
        if negb ok then Some (0, s)
        else if bool_decide (action ip = PA_GetOffset) && (field ip =? i) then Some (sofs, s)
        else
          '(sofs, s) ← cdr_parse_member scope mp plen key_member sofs s;
          if sofs =? 0 then Some (0, s) else parse_unordered l (i + 1) scope keyed key sofs s
  end.

Definition cdr_parse_cdr_unordered (scope : Z) (keyed : bool) (members : list XMember) (key : bool) (sofs : Z)
  (s : PState) : option (Z * PState) := parse_unordered members 0 scope keyed key sofs s.

(** The key members, or all of them when none is marked. *)
Definition key_members (keyed key : bool) (members : list XMember) : list XMember :=
  if key then filter (fun mp => is_key mp || negb keyed = true) members else [].

(** The members one after the other. *)
Fixpoint parse_ordered (l : list XMember) (scope : Z) (sofs : Z) (s : PState) : option (Z * PState) :=
  match l with
  | [] => Some (sofs, s)
  | mp :: l =>
      '(sofs, s) ← cdr_parse_member scope mp 0 true sofs s;
      if sofs =? 0 then Some (0, s) else parse_ordered l scope sofs s
  end.

(** [cdr_parse_cdr_ordered] *)
Definition cdr_parse_cdr_ordered (scope : Z) (keyed : bool) (members : list XMember) (key : bool) (sofs : Z)
  (s : PState) : option (Z * PState) :=
  let fds := key_members keyed key members in
  if (length fds <=? 1)%nat || negb (descends 0 fds) then cdr_parse_cdr_unordered scope keyed members key sofs s
  else if (MAX_MKFDS <? length fds)%nat && negb xmalloc_ok then Some (0, s)
  else parse_ordered (sort_by_id fds) scope sofs s.

(** The optional members are cleared. *)
Fixpoint clear_optional (l : list XMember) (s : PState) : option PState :=
  match l with
  | [] => Some s
  | mp :: l =>
      s ← (if is_optional mp then
             m ← store (ps_mem s) (dst s + dofs s + xm_offset mp) (le_bytes 8 0); Some (set_mem m s)
           else Some s);
      clear_optional l s
  end.

(** The first member with an id, and its index. *)
Fixpoint find_member (id i : Z) (l : list XMember) : option (XMember * Z) :=
  match l with
  | [] => None
  | mp :: l => if member_id mp =? id then Some (mp, i) else find_member id (i + 1) l
  end.

(** The loop of [cdr_parse_mutable_unordered]. *)
Fixpoint parse_plist (k : nat) (scope : Z) (keyed : bool) (members : list XMember) (key : bool) (sofs : Z) (s : PState)
  : option (Z * PState) :=
  match k with
  | O => None
  | S k =>
      '(n, id, plen, understand) ← pid_parse_header src (int_swap ip) sofs;
      if n =? 0 then Some (0, s)
      else if id =? XT_PID_LIST_END then Some (n, s)
      else
        match find_member id 0 members with
        | Some (mp, i) =>
            if bool_decide (action ip = PA_GetOffset) && (field ip =? i) then Some (n, s)
            else
              '(sofs, s) ← cdr_parse_member scope mp plen (key && (is_key mp || negb keyed)) n s;
              if sofs =? 0 then Some (0, s) else parse_plist k scope keyed members key sofs s
        | None => if (understand : bool) then Some (0, s) else parse_plist k scope keyed members key (n + plen) s
        end
  end.

(** [cdr_parse_mutable_unordered] *)
Definition cdr_parse_mutable_unordered (scope : Z) (keyed optional : bool) (members : list XMember) (key : bool)
  (sofs : Z) (s : PState) : option (Z * PState) :=
  s ← (if optional && bool_decide (action ip = PA_GetNative) then clear_optional members s else Some s);
  parse_plist pfuel scope keyed members key sofs s.

(** The headers of a parameter list: where each key member is, and its length.
    [None] inside is an error. *)
Fixpoint parse_headers (k : nat) (keyed : bool) (members : list XMember) (found : list (Z * (Z * Z))) (sofs : Z)
  : option (option (list (Z * (Z * Z)) * Z)) :=
  match k with
  | O => None
  | S k =>
      '(n, id, plen, understand) ← pid_parse_header src (int_swap ip) sofs;
      if n =? 0 then Some None
      else if id =? XT_PID_LIST_END then Some (Some (found, n))
      else
        let hits := length (filter (fun mp => (is_key mp || negb keyed) && (member_id mp =? id) = true) members) in
        if ((0 <? hits)%nat && existsb (fun f => f.1 =? id) found) || (1 <? hits)%nat then Some None
        else if (understand : bool) then Some None
        else parse_headers k keyed members (if (0 <? hits)%nat then (id, (n, plen)) :: found else found) (n + plen)
  end.

Fixpoint parse_found (l : list XMember) (found : list (Z * (Z * Z))) (scope : Z) (s : PState) : option (bool * PState) :=
  match l with
  | [] => Some (true, s)
  | mp :: l =>
      let '(o, plen) := match find (fun f => f.1 =? member_id mp) found with Some f => f.2 | None => (0, 0) end in
      '(n, s) ← cdr_parse_member scope mp plen true o s;
      if n =? 0 then Some (false, s) else parse_found l found scope s
  end.

(** [cdr_parse_mutable_ordered] *)
Definition cdr_parse_mutable_ordered (scope : Z) (keyed optional : bool) (members : list XMember) (key : bool)
  (sofs : Z) (s : PState) : option (Z * PState) :=
  let fds := key_members keyed key members in
  if (length fds <=? 1)%nat then cdr_parse_mutable_unordered scope keyed optional members key sofs s
  else if (MAX_MKFDS <? length fds)%nat && negb xmalloc_ok then Some (0, s)
  else
    r ← parse_headers pfuel keyed members [] sofs;
    match r with
    | None => Some (0, s)
    | Some (found, n) =>
        if negb (length found =? length fds)%nat then Some (0, s)
        else
          '(ok, s) ← parse_found (if descends 0 fds then sort_by_id fds else fds) found scope s;
          Some (if (ok : bool) then n else 0, s)
    end.

(** [cdr_parse_struct] *)
Definition cdr_parse_struct (ext : Extensibility_t) (scope : Z) (keyed optional : bool) (members : list XMember)
  (key : bool) (sofs : Z) (s : PState) : option (Z * PState) :=
  if negb (bool_decide (ext = MUTABLE)) then cdr_parse_cdr_unordered scope keyed members key sofs s
  else if CF_Key (sformat ip) then cdr_parse_cdr_ordered scope keyed members key sofs s
  else if negb (CF_Key (pdformat ip)) then cdr_parse_mutable_unordered scope keyed optional members key sofs s
  else cdr_parse_mutable_ordered scope keyed optional members key sofs s.

Definition valid_discriminant (tp : XType) : bool :=
  match tp with
  | XPrim (DDS_BOOLEAN_TYPE | DDS_BYTE_TYPE | DDS_INT_16_TYPE | DDS_UINT_16_TYPE | DDS_INT_32_TYPE | DDS_UINT_32_TYPE
          | DDS_INT_64_TYPE | DDS_UINT_64_TYPE | DDS_CHAR_8_TYPE | DDS_CHAR_32_TYPE) => true
  | XEnum _ => true
  | _ => false
  end.

(** The discriminator of a union: [None] inside is an error. *)
Definition parse_discriminant (scope : Z) (mp : XMember) (key : bool) (sofs : Z) (s : PState)
  : option (option (Z * PState)) :=
  tp ← real_type_ptr libs scope (xm_id mp);
  match tp with
  | Some tp =>
      if valid_discriminant tp then
        '(n, s) ← cdr_parse tp (key && is_key mp) sofs (set_label true (lab s) s);
        Some (if n =? 0 then None else Some (n, s))
      else Some None
  | None => Some None
  end.

(** The first member with an id, and whether it is the discriminator. *)
Fixpoint find_umember (id : Z) (first : bool) (l : list UnionMember) : option (UnionMember * bool) :=
  match l with
  | [] => None
  | mp :: l => if member_id (um_member mp) =? id then Some (mp, first) else find_umember id false l
  end.

(** The label of a member is that of the union; [None] when the union has none
    yet. *)
Definition label_fits (mp : UnionMember) (s : PState) : option bool :=
  if is_default mp then Some true else l ← lab s; Some (bool_decide (l ∈ labels mp)).

(** The parameter list of a mutable union. *)
Fixpoint parse_uplist (k : nat) (scope : Z) (members : list UnionMember) (key got_disc got_id : bool) (sofs : Z)
  (s : PState) : option (Z * PState) :=
  match k with
  | O => None
  | S k =>
      '(n, id, plen, understand) ← pid_parse_header src (int_swap ip) sofs;
      if n =? 0 then Some (0, s)
      else if id =? XT_PID_LIST_END then Some (n, s)
      else
        match find_umember id true members with
        | None => if (understand : bool) then Some (0, s) else parse_uplist k scope members key got_disc got_id n s
        | Some (mp, first) =>
            if negb got_disc then
              if negb first then Some (0, s)
              else
                r ← parse_discriminant scope (um_member mp) key n s;
                match r with
                | None => Some (0, s)
                | Some (_, s) => parse_uplist k scope members key true got_id n (set_label false (lab s) s)
                end
            else if got_id then Some (0, s)
            else if plen =? 0 then
              s ← (if bool_decide (action ip = PA_GetNative) then put_dst 0 (le_bytes 8 0) s else Some s);
              parse_uplist k scope members key got_disc true n s
            else
              fits ← label_fits mp s;
              if negb fits then Some (0, s)
              else
                '(r, s) ← cdr_parse_member scope (um_member mp) plen (key && is_key (um_member mp)) n s;
                if r =? 0 then Some (0, s) else parse_uplist k scope members key got_disc true n s
        end
  end.

(** The member of a union with a label: a member with several labels, none of
    which is the one looked for, ends the search with an error. *)
Fixpoint select_label (label : Z) (def : option UnionMember) (l : list UnionMember) : option UnionMember :=
  match l with
  | [] => def
  | mp :: l =>
      if is_default mp then select_label label (Some mp) l
      else if bool_decide (label ∈ labels mp) then Some mp
      else if (1 <? length (labels mp))%nat then None
      else select_label label def l
  end.

(** [cdr_parse_union] *)
Definition cdr_parse_union (ext : Extensibility_t) (scope : Z) (members : list UnionMember) (key : bool) (sofs : Z)
  (s : PState) : option (Z * PState) :=
  let s := set_label (want_label s) None s in
  if bool_decide (sformat ip = CF_CDR) && bool_decide (ext = MUTABLE) then
    parse_uplist pfuel scope members key false false sofs s
  else
    match members with
    | [] => None
    | mp :: _ =>
        r ← parse_discriminant scope (um_member mp) key sofs s;
        match r with
        | None => Some (0, s)
        | Some (n, s) =>
            label ← lab s;
            match select_label label None members with
            | None => Some (0, s)
            | Some mp =>
                '(sofs, plen, ok) ← (if is_optional (um_member mp) then
                                       '(n, id, plen, _) ← pid_parse_header src (int_swap ip) n;
                                       Some (n, plen, negb (n =? 0) && (id =? member_id (um_member mp)))
                                     else Some (n, 0, true));
                if negb ok then Some (0, s)
                else cdr_parse_member scope (um_member mp) plen (key && is_key (um_member mp)) sofs s
            end
        end
    end.

(** The elements of an array, at distances of [size] from [o]. *)
Fixpoint parse_elems (k : nat) (etp : XType) (size o : Z) (key : bool) (sofs : Z) (s : PState) : option (Z * PState) :=
  match k with
  | O => Some (sofs, s)
  | S k =>
      '(n, s) ← cdr_parse etp key sofs (set_dofs o s);
      let n := ⟦n⟧32 in
      if n =? 0 then Some (0, s) else parse_elems k etp size (o + size) key n s
  end.

(** [cdr_parse_array] *)
Definition cdr_parse_array (scope element_type element_size : Z) (bound : list Z) (key : bool) (sofs : Z) (s : PState)
  : option (Z * PState) :=
  nelems ← array_nelems bound;
  etp ← real_type_ptr libs scope element_type;
  match etp with
  | None => Some (0, s)
  | Some etp => parse_elems (Z.to_nat nelems) etp ⟦element_size⟧32 (dofs s) key sofs s
  end.

(** The descriptor of a sequence in the destination: [None] inside is an
    error. *)
Definition enter_seq (etp : XType) (element_size nelem : Z) (key : bool) (s : PState) : option (option PState) :=
  if negb (PA_CopyData (action ip)) then
    Some (Some
      (if bool_decide (action ip = PA_GetAuxLength) then
         set_dlength ((cdr_field_ofs etp (dlength s)).1 + ⟦nelem * ⟦element_size⟧32⟧32) s
       else if CF_Key (pdformat ip) && wanted key then set_dofs (ALIGN (dofs s) 4 + 4) s
       else s))
  else if negb (wanted key) then Some (Some s)
  else if CF_Key (pdformat ip) then
    s ← align_dst 4 s;
    s ← put_dst 0 (swapped (negb (eqb (int_swap ip) (cnv_swap ip))) (le_bytes 4 nelem)) s;
    Some (Some (set_dofs (dofs s + 4) s))
  else
    os ← (if CF_Key (sformat ip) then
            let '(dp, s) := if negb (nelem =? 0) then Alloc s else (1, s) in
            if negb (nelem =? 0) && (dp =? 0) then Some None
            else s ← put_dst 16 (le_bytes 8 0) s; Some (Some s)
          else
            let o := (cdr_field_ofs etp (aux_ofs s)).1 in
            s ← put_dst 16 (le_bytes 8 (aux_dst ip + o)) s;
            Some (Some (set_aux (o + nelem * element_size) s)));
    match os with
    | None => Some None
    | Some s => s ← put_dst 0 (le_bytes 4 nelem ++ le_bytes 4 nelem ++ le_bytes 4 element_size ++ le_bytes 4 1) s;
                Some (Some s)
    end.

(** The elements of a sequence whose descriptor is at [seq]. *)
Fixpoint parse_seq (k : nat) (etp : XType) (size seq o : Z) (key : bool) (sofs : Z) (s : PState) : option (Z * PState) :=
  match k with
  | O => Some (sofs, s)
  | S k =>
      s ← (if PA_CopyData (action ip) && wanted key && negb (CF_Key (pdformat ip)) then
             buffer ← load_ptr (ps_mem s) (seq + 16); Some (set_dst buffer o s)
           else Some s);
      '(n, s) ← cdr_parse etp key sofs s;
      let n := ⟦n⟧32 in
      if n =? 0 then Some (0, s) else parse_seq k etp size seq ⟦o + size⟧32 key n s
  end.

(** [cdr_parse_seqmap] *)
Definition cdr_parse_seqmap (scope element_type element_size bound : Z) (key : bool) (sofs : Z) (s : PState)
  : option (Z * PState) :=
  etp ← real_type_ptr libs scope element_type;
  match etp with
  | None => Some (0, s)
  | Some etp =>
      let sofs := ALIGN sofs 4 in
      nb ← load src sofs 4;
      let nelem := le_val (swapped (int_swap ip) nb) in
      let sofs := sofs + 4 in
      if negb (bound =? 0) && (bound <? nelem) then Some (0, s)
      else
        let seq := dst s + dofs s in
        r ← enter_seq etp element_size nelem key s;
        match r with
        | None => Some (0, s)
        | Some s => parse_seq (Z.to_nat nelem) etp ⟦element_size⟧32 seq 0 key sofs s
        end
  end.

(** The body of [cdr_parse]. *)
Definition parse_body (tp : XType) (key : bool) (sofs : Z) (s : PState) : option (Z * PState) :=
  match tp with
  | XPrim (DDS_CHAR_8_TYPE | DDS_BYTE_TYPE | DDS_BOOLEAN_TYPE) => get_num 1 Some key sofs s
  | XPrim DDS_INT_16_TYPE => get_num 2 (fun v => Some ⟪v⟫16) key sofs s
  | XPrim DDS_UINT_16_TYPE => get_num 2 Some key sofs s
  | XPrim (DDS_CHAR_32_TYPE | DDS_INT_32_TYPE) => get_num 4 (fun v => Some ⟪v⟫32) key sofs s
  | XPrim DDS_UINT_32_TYPE => get_num 4 Some key sofs s
  | XPrim DDS_FLOAT_32_TYPE => get_num 4 (fun _ => None) key sofs s
  | XPrim (DDS_INT_64_TYPE | DDS_UINT_64_TYPE) => get_num 8 (fun v => Some ⟪v⟫64) key sofs s
  | XPrim DDS_FLOAT_64_TYPE => get_num 8 (fun _ => None) key sofs s
  | XPrim DDS_FLOAT_128_TYPE => get_float128 key sofs s
  | XEnum bound => if bound <=? 16 then get_num 2 Some key sofs s else get_num 4 (fun v => Some ⟪v⟫32) key sofs s
  | XBitSet bound =>
      if bound <=? 8 then get_num 1 Some key sofs s
      else if bound <=? 16 then get_num 2 Some key sofs s
      else if bound <=? 32 then get_num 4 (fun v => Some ⟪v⟫32) key sofs s
      else get_num 8 (fun v => Some ⟪v⟫64) key sofs s
  | XString bound => cdr_parse_string bound key sofs s
  | XArray scope _ element_type element_size bound => cdr_parse_array scope element_type element_size bound key sofs s
  | XSequence scope _ element_type element_size bound => cdr_parse_seqmap scope element_type element_size bound key sofs s
  | XUnion ext scope _ members => cdr_parse_union ext scope members key sofs s
  | XStruct ext scope _ keyed optional members => cdr_parse_struct ext scope keyed optional members key sofs s
  | _ => Some (0, s)
  end.

End Parse.

(** [cdr_parse], with a bound on the depth of types. *)
Fixpoint cdr_parse (fuel : nat) (libs : XLibs) (src : Mem) (xmalloc_ok : bool) (ip : ParseInfo)
  (tp : XType) (key : bool) (sofs : Z) (s : PState) : option (Z * PState) :=
  match fuel with
  | O => None
  | S fuel => parse_body libs src xmalloc_ok ip (cdr_parse fuel libs src xmalloc_ok ip) (S (size src)) tp key sofs s
  end.

(** ** The functions of the interface *)

Definition is_aggregate (tp : XType) : option Z :=
  match tp with XStruct _ _ size _ _ _ | XUnion _ _ size _ => Some size | _ => None end.

(** [cdr_unmarshalled_size] *)
Definition cdr_unmarshalled_size (fuel : nat) (libs : XLibs) (src : Mem) (xmalloc_ok : bool) (hsize : Z) (tp : XType)
  (key msize swap : bool) (size : Z) : option (Z * DDS_ReturnCode_t) :=
  tp ← xt_real_type libs tp;
  match is_aggregate tp with
  | None => Some (0, DDS_RETCODE_BAD_PARAMETER)
  | Some tsize =>
      if negb (size =? 0) && (size <? tsize) then Some (0, DDS_RETCODE_BAD_PARAMETER)
      else
        let ip := mkPI PA_GetAuxLength (gen_format key msize) CF_Native 0 0 swap swap key in
        '(n, s) ← cdr_parse fuel libs src xmalloc_ok ip tp true hsize (mkPS ∅ 0 hsize 0 0 false None []);
        Some (if n =? 0 then (dlength s, DDS_RETCODE_BAD_PARAMETER)
              else (dlength s + (if size =? 0 then tsize else size), DDS_RETCODE_OK))
  end.

(** [cdr_unmarshall] *)
Definition cdr_unmarshall (fuel : nat) (libs : XLibs) (src : Mem) (xmalloc_ok : bool) (allocs : list (option Z))
  (m : Mem) (dest hsize : Z) (tp : XType) (key msize swap : bool) (size : Z) : option (Mem * DDS_ReturnCode_t) :=
  tp ← xt_real_type libs tp;
  match is_aggregate tp with
  | None => Some (m, DDS_RETCODE_BAD_PARAMETER)
  | Some tsize =>
      if negb (size =? 0) && (size <? tsize) then Some (m, DDS_RETCODE_BAD_PARAMETER)
      else
        let aux := dest + (if size =? 0 then tsize else size) in
        let ip := mkPI PA_GetNative (gen_format key msize) CF_Native aux 0 swap swap key in
        '(n, s) ← cdr_parse fuel libs src xmalloc_ok ip tp true hsize (mkPS m dest 0 0 0 false None allocs);
        Some (ps_mem s, if n =? 0 then DDS_RETCODE_BAD_PARAMETER else DDS_RETCODE_OK)
  end.

(** [cdr_key_size] *)
Definition cdr_key_size (fuel : nat) (libs : XLibs) (src : Mem) (xmalloc_ok : bool) (dhsize hsize : Z) (tp : XType)
  (key msize swap iswap : bool) : option (Z * DDS_ReturnCode_t) :=
  tp ← xt_real_type libs tp;
  match is_aggregate tp with
  | None => Some (0, DDS_RETCODE_BAD_PARAMETER)
  | Some _ =>
      let ip := mkPI PA_GetCDRKeyLength (if key then CF_CDR_Key else CF_CDR)
                  (if msize then CF_CDR_PaddedKey else CF_CDR_Key) 0 0 iswap swap true in
      '(n, s) ← cdr_parse fuel libs src xmalloc_ok ip tp true hsize (mkPS ∅ 0 dhsize 0 0 false None []);
      Some (if n =? 0 then (0, DDS_RETCODE_BAD_PARAMETER) else (dofs s - dhsize, DDS_RETCODE_OK))
  end.

(** [cdr_key_fields] into the memory at [dest]. *)
Definition cdr_key_fields (fuel : nat) (libs : XLibs) (src : Mem) (xmalloc_ok : bool) (m : Mem) (dest dhsize hsize : Z)
  (tp : XType) (key msize swap iswap : bool) : option (Mem * DDS_ReturnCode_t) :=
  tp ← xt_real_type libs tp;
  match is_aggregate tp with
  | None => Some (m, DDS_RETCODE_BAD_PARAMETER)
  | Some _ =>
      let ip := mkPI PA_GetCDRKey (if key then CF_CDR_Key else CF_CDR)
                  (if msize then CF_CDR_PaddedKey else CF_CDR_Key) 0 0 iswap swap true in
      '(n, s) ← cdr_parse fuel libs src xmalloc_ok ip tp true hsize (mkPS m (dest - dhsize) dhsize 0 0 false None []);
      Some (ps_mem s, if n =? 0 then DDS_RETCODE_BAD_PARAMETER else DDS_RETCODE_OK)
  end.

(** [cdr_field_offset] *)
Definition cdr_field_offset (fuel : nat) (libs : XLibs) (src : Mem) (xmalloc_ok : bool) (hsize fld : Z) (tp : XType)
  (swap : bool) : option (Z * DDS_ReturnCode_t) :=
  tp ← xt_real_type libs tp;
  match is_aggregate tp with
  | None => Some (0, DDS_RETCODE_BAD_PARAMETER)
  | Some _ =>
      let ip := mkPI PA_GetOffset CF_CDR CF_Native 0 ⟦fld⟧8 swap swap false in
      '(n, _) ← cdr_parse fuel libs src xmalloc_ok ip tp true hsize (mkPS ∅ 0 hsize 0 0 false None []);
      Some (if n =? 0 then (0, DDS_RETCODE_BAD_PARAMETER) else (n, DDS_RETCODE_OK))
  end.
