(* ===== verification/XcdrSpec.v ===== *)
(** What marshalled and native data mean: values, their CDR encoding, and the
    memory that represents a value.  The types for which the two halves of
    xtypes/xcdr.c agree are [ok_type]. *)

From stdpp Require Import gmap.
From S2P Require Import Prelude TypeData Mem Xcdr XcdrParse.
From stdpp Require Import list.

#[local] Open Scope Z_scope.
#[local] Set Warnings "-register-all".

(** A value: the bytes of a number in the byte order of the machine, the
    characters of a string, the members of a structure where an optional member
    may be absent, the discriminator and the member of a union, elements. *)
Inductive XVal :=
| VNum (bs : list Z)
| VStr (cs : list Z)
| VStruct (fs : list (option XVal))
| VUnion (d v : XVal)
| VElems (vs : list XVal).

Definition ty (libs : XLibs) (scope id : Z) : option XType := mjoin (real_type_ptr libs scope id).

(** Numbers, by the number of their bytes.  Enumerations of up to 8 bits and
    128-bit floats are left out: their sizes or byte orders differ between the
    functions. *)
Definition num_size (tp : XType) : option nat :=
  match tp with
  | XPrim (DDS_CHAR_8_TYPE | DDS_BYTE_TYPE | DDS_BOOLEAN_TYPE) => Some 1%nat
  | XPrim (DDS_INT_16_TYPE | DDS_UINT_16_TYPE) => Some 2%nat
  | XPrim (DDS_CHAR_32_TYPE | DDS_INT_32_TYPE | DDS_UINT_32_TYPE | DDS_FLOAT_32_TYPE) => Some 4%nat
  | XPrim (DDS_INT_64_TYPE | DDS_UINT_64_TYPE | DDS_FLOAT_64_TYPE) => Some 8%nat
  | XEnum b => if b <=? 8 then None else if b <=? 16 then Some 2%nat else Some 4%nat
  | XBitSet b => if b <=? 8 then Some 1%nat else if b <=? 16 then Some 2%nat else if b <=? 32 then Some 4%nat else Some 8%nat
  | _ => None
  end.

(** The value of a discriminator, on the side of the writer and of the reader. *)
Definition writer_label (tp : XType) (bs : list Z) : Z :=
  match tp with
  | XPrim DDS_INT_16_TYPE => ⟪⟪le_val bs⟫16⟫32
  | _ => ⟪le_val bs⟫32
  end.
Definition reader_label (tp : XType) (bs : list Z) : Z :=
  match tp with
  | XPrim DDS_INT_16_TYPE => ⟪le_val bs⟫16
  | XPrim (DDS_CHAR_32_TYPE | DDS_INT_32_TYPE) => ⟪le_val bs⟫32
  | XPrim (DDS_INT_64_TYPE | DDS_UINT_64_TYPE) => ⟪le_val bs⟫64
  | XEnum b => if b <=? 16 then le_val bs else ⟪le_val bs⟫32
  | _ => le_val bs
  end.

Definition pad (pos al : Z) : list Z := replicate (Z.to_nat (ALIGN pos al - pos)) 0.

Section Spec.
  Context (libs : XLibs) (swap : bool).

(** ** Encoding *)

(** The header of a parameter with [n] bytes; the short form has a length of 16
    bits. *)
Definition enc_header (mp : XMember) (n : Z) : option (list Z) :=
  let flag := if must_understand mp then XT_PID_UNDERST else 0 in
  if XT_PID_EXTENDED <=? member_id mp then
    Some (swapped swap (le_bytes 2 (Z.lor XT_PID_EXTENDED flag)) ++ swapped swap (le_bytes 2 8) ++
          swapped swap (le_bytes 4 (member_id mp)) ++ swapped swap (le_bytes 4 n))
  else if n <? 65536 then Some (swapped swap (le_bytes 2 (Z.lor (member_id mp) flag)) ++ swapped swap (le_bytes 2 n))
  else None.

Definition header_len (mp : XMember) : Z := if XT_PID_EXTENDED <=? member_id mp then 12 else 4.

Definition enc_eol (pos : Z) : list Z := pad pos 4 ++ swapped swap (le_bytes 2 XT_PID_LIST_END) ++ [0; 0].

(** A string fits a bound. *)
Definition str_ok (bound : Z) (cs : list Z) : bool :=
  forallb (fun c => (0 <? c) && (c <? 256)) cs && (zlen cs <? 2 ^ 32 - 1) && ((bound =? 0) || (zlen cs <=? bound)).

Definition enc_body_with (enc : XType -> XVal -> Z -> option (list Z)) :=
  fix members (mutable : bool) (scope : Z) (ms : list XMember) (fs : list (option XVal)) (pos : Z) {struct ms}
    : option (list Z) :=
  match ms, fs with
  | [], [] => Some []
  | mp :: ms, None :: fs => if is_optional mp then members mutable scope ms fs pos else None
  | mp :: ms, Some v :: fs =>
      tp ← ty libs scope (xm_id mp);
      b ← (if mutable then
             let start := ALIGN pos 4 + header_len mp in
             body ← enc tp v start;
             let stop := start + zlen body in
             h ← enc_header mp (ALIGN stop 4 - start);
             Some (pad pos 4 ++ h ++ body ++ pad stop 4)
           else enc tp v pos);
      r ← members mutable scope ms fs (pos + zlen b);
      Some (b ++ r)
  | _, _ => None
  end.

Definition enc_elems_with (enc : XType -> XVal -> Z -> option (list Z)) (tp : XType) :=
  fix elems (vs : list XVal) (pos : Z) : option (list Z) :=
  match vs with
  | [] => Some []
  | v :: vs => b ← enc tp v pos; r ← elems vs (pos + zlen b); Some (b ++ r)
  end.

(** The CDR encoding of a value at an offset; [None] when the value is not one
    of the type, or is too long for its length fields. *)
Fixpoint enc (fuel : nat) (tp : XType) (v : XVal) (pos : Z) : option (list Z) :=
  match fuel with
  | O => None
  | S fuel =>
      match tp, v with
      | XString bound, VStr cs =>
          if str_ok bound cs then Some (pad pos 4 ++ swapped swap (le_bytes 4 (zlen cs + 1)) ++ cs ++ [0]) else None
      | XStruct ext scope _ _ _ ms, VStruct fs =>
          let mutable := bool_decide (ext = MUTABLE) in
          b ← enc_body_with (enc fuel) mutable scope ms fs pos;
          Some (b ++ if mutable then enc_eol (pos + zlen b) else [])
      | XUnion _ scope _ (mp :: ms), VUnion (VNum d) v =>
          dtp ← ty libs scope (xm_id (um_member mp));
          b1 ← enc fuel dtp (VNum d) pos;
          xmp ← find_label (writer_label dtp d) None ms;
          vtp ← ty libs scope (xm_id (um_member xmp));
          b2 ← enc fuel vtp v (pos + zlen b1);
          if writer_label dtp d =? reader_label dtp d then Some (b1 ++ b2) else None
      | XArray scope _ et _ bound, VElems vs =>
          etp ← ty libs scope et;
          n ← array_nelems bound;
          if zlen vs =? n then enc_elems_with (enc fuel) etp vs pos else None
      | XSequence scope _ et esize bound, VElems vs =>
          etp ← ty libs scope et;
          if (zlen vs * esize <? 2 ^ 32) && (zlen vs <? 2 ^ 32) && ((bound =? 0) || (zlen vs <=? bound)) then
            r ← enc_elems_with (enc fuel) etp vs (ALIGN pos 4 + 4);
            Some (pad pos 4 ++ swapped swap (le_bytes 4 (zlen vs)) ++ r)
          else None
      | _, VNum bs =>
          n ← num_size tp;
          if (length bs =? n)%nat && forallb is_byte bs then Some (pad pos (Z.of_nat n) ++ swapped swap bs) else None
      | _, _ => None
      end
  end.

(** ** Native data *)

(** The memory at an address has the bytes. *)
Definition at_mem (m : Mem) (a : Z) (bs : list Z) : Prop := load m a (length bs) = Some bs.

(** The memory [m] has the value at the address [a]. *)
Fixpoint repr (fuel : nat) (m : Mem) (a : Z) (tp : XType) (v : XVal) : Prop :=
  match fuel with
  | O => False
  | S fuel =>
      match tp, v with
      | XString bound, VStr cs =>
          if bound =? 0 then
            exists p, load_ptr m a = Some p /\
              ((p = 0 /\ cs = []) \/ (0 < p /\ at_mem m p (cs ++ [0])))
          else at_mem m a cs /\ (zlen cs < bound -> m !! (a + zlen cs) = Some 0)
      | XStruct _ scope _ _ _ ms, VStruct fs =>
          Forall2 (fun mp f => exists tp, ty libs scope (xm_id mp) = Some tp /\
            if is_optional mp then
              exists p, load_ptr m (a + xm_offset mp) = Some p /\
                match f with None => p = 0 | Some v => 0 < p /\ repr fuel m p tp v end
            else match f with None => False | Some v => repr fuel m (a + xm_offset mp) tp v end) ms fs
      | XUnion _ scope _ (mp :: ms), VUnion (VNum d) v =>
          exists dtp xmp vtp, ty libs scope (xm_id (um_member mp)) = Some dtp /\
            repr fuel m a dtp (VNum d) /\
            find_label (writer_label dtp d) None ms = Some xmp /\
            ty libs scope (xm_id (um_member xmp)) = Some vtp /\
            repr fuel m (a + xm_offset (um_member xmp)) vtp v
      | XArray scope _ et esize _, VElems vs =>
          exists etp, ty libs scope et = Some etp /\
            forall i v, vs !! i = Some v -> repr fuel m (a + Z.of_nat i * esize) etp v
      | XSequence scope _ et esize _, VElems vs =>
          exists etp p, ty libs scope et = Some etp /\
            load_num m (a + 4) 4 = Some (zlen vs) /\ load_ptr m (a + 16) = Some p /\
            (vs <> [] -> 0 < p) /\
            forall i v, vs !! i = Some v -> repr fuel m (p + Z.of_nat i * esize) etp v
      | _, VNum bs => num_size tp = Some (length bs) /\ at_mem m a bs
      | _, _ => False
      end
  end.

(** ** Types *)

(** The bytes of the native data of a type. *)
Definition nsize (tp : XType) : Z :=
  match tp with
  | XString bound => if bound =? 0 then 8 else bound + 1
  | XStruct _ _ size _ _ _ | XUnion _ _ size _ => size
  | XArray _ _ _ esize bound => esize * default 0 (array_nelems bound)
  | XSequence _ _ _ _ _ => 24
  | _ => match num_size tp with Some n => Z.of_nat n | None => 0 end
  end.

(** The area of a member in a structure. *)
Definition member_size (scope : Z) (mp : XMember) : Z :=
  if is_optional mp then 8 else match ty libs scope (xm_id mp) with Some tp => nsize tp | None => 0 end.

Definition disjoint_from (scope : Z) (mp : XMember) (ms : list XMember) : bool :=
  forallb (fun x => (xm_offset mp + member_size scope mp <=? xm_offset x) ||
                    (xm_offset x + member_size scope x <=? xm_offset mp)) ms.

Fixpoint layout_ok (scope size : Z) (ms : list XMember) : bool :=
  match ms with
  | [] => true
  | mp :: ms => (0 <=? xm_offset mp) && (xm_offset mp + member_size scope mp <=? size) && disjoint_from scope mp ms &&
                layout_ok scope size ms
  end.

(** Ids differ, and are ids that a parameter header can have.  The id of the
    end of a list is not one of them: the parser does not tell them apart. *)
Fixpoint ids_ok (ms : list XMember) : bool :=
  match ms with
  | [] => true
  | mp :: ms => (0 <=? member_id mp) && (member_id mp <? 2 ^ 28) && negb (member_id mp =? XT_PID_LIST_END) &&
                forallb (fun x => negb (member_id mp =? member_id x)) ms &&
                ids_ok ms
  end.

Definition is_string (tp : XType) : bool := match tp with XString _ => true | _ => false end.
Definition is_mutable (tp : XType) : bool := match tp with XStruct MUTABLE _ _ _ _ _ => true | _ => false end.
Definition is_seq (tp : XType) : bool := match tp with XSequence _ _ _ _ _ => true | _ => false end.

(** The types that survive a round trip.  [al] says that the offset of the data
    is known to be a multiple of 4, which a parameter list needs. *)
Fixpoint ok_type (fuel : nat) (al : bool) (tp : XType) : bool :=
  match fuel with
  | O => false
  | S fuel =>
      match tp with
      | XString bound => (0 <=? bound) && (bound <? 2 ^ 32 - 2)
      | XStruct ext scope size _ optional ms =>
          let mutable := bool_decide (ext = MUTABLE) in
          implb mutable al && layout_ok scope size ms && (0 <=? size) && (size <? 2 ^ 32) &&
          match ms with [] => false | mp :: _ => negb (is_optional mp) end &&
          (negb mutable || ids_ok ms) &&
          forallb (fun mp => negb (is_shareable mp) && (negb (is_optional mp) || (mutable && optional)) &&
            match ty libs scope (xm_id mp) with
            | Some tp => ok_type fuel mutable tp && negb (is_optional mp && is_string tp)
            | None => false
            end) ms
      | XUnion ext scope size (mp :: ms) =>
          negb (bool_decide (ext = MUTABLE)) && (0 <=? size) && (size <? 2 ^ 32) &&
          negb (is_default mp) && bool_decide (labels mp = []) && (xm_offset (um_member mp) =? 0) &&
          negb (is_optional (um_member mp)) && negb (is_shareable (um_member mp)) &&
          match ty libs scope (xm_id (um_member mp)) with
          | Some dtp =>
              valid_discriminant dtp && ok_type fuel false dtp && (nsize dtp <=? size) &&
              forallb (fun x =>
                negb (is_optional (um_member x)) && negb (is_shareable (um_member x)) &&
                (length (labels x) <=? 1)%nat && (nsize dtp <=? xm_offset (um_member x)) &&
                match ty libs scope (xm_id (um_member x)) with
                | Some tp => ok_type fuel false tp && (xm_offset (um_member x) + nsize tp <=? size)
                | None => false
                end) ms
          | None => false
          end
      | XArray scope shared et esize bound =>
          negb shared &&
          match ty libs scope et, array_nelems bound with
          | Some etp, Some n =>
              (0 <? n) && (esize =? nsize etp) && (fold_left Z.mul bound esize =? esize * n) && (esize * n <? 2 ^ 32) &&
              negb (is_seq etp) && ok_type fuel (al && is_mutable etp) etp
          | _, _ => false
          end
      | XSequence scope shared et esize bound =>
          negb shared && (0 <=? bound) &&
          match ty libs scope et with
          | Some etp => (esize =? nsize etp) && (esize <? 2 ^ 32) && ok_type fuel (is_mutable etp) etp
          | None => false
          end
      | _ => match num_size tp with Some _ => true | None => false end
      end
  end.

(** ** The space behind a structure *)

(** The offset behind the data that a value needs outside its own area. *)
Definition aux_members_with (aux_end : XType -> XVal -> Z -> Z) :=
  fix members (scope : Z) (ms : list XMember) (fs : list (option XVal)) (ofs : Z) : Z :=
  match ms, fs with
  | mp :: ms, f :: fs =>
      members scope ms fs
        (match f, ty libs scope (xm_id mp) with
         | Some v, Some tp =>
             aux_end tp v (if is_optional mp then let '(o, esize) := cdr_field_ofs tp ofs in o + esize else ofs)
         | _, _ => ofs
         end)
  | _, _ => ofs
  end.

Fixpoint aux_end (fuel : nat) (tp : XType) (v : XVal) (ofs : Z) : Z :=
  match fuel with
  | O => ofs
  | S fuel =>
      match tp, v with
      | XString bound, VStr cs => if bound =? 0 then ofs + (zlen cs + 1) else ofs
      | XStruct _ scope _ _ _ ms, VStruct fs => aux_members_with (aux_end fuel) scope ms fs ofs
      | XUnion _ scope _ (mp :: ms), VUnion (VNum d) v =>
          match ty libs scope (xm_id (um_member mp)) with
          | Some dtp => match find_label (writer_label dtp d) None ms with
                        | Some xmp => match ty libs scope (xm_id (um_member xmp)) with
                                      | Some vtp => aux_end fuel vtp v ofs
                                      | None => ofs
                                      end
                        | None => ofs
                        end
          | None => ofs
          end
      | XArray scope _ et _ _, VElems vs =>
          match ty libs scope et with Some etp => foldl (fun o v => aux_end fuel etp v o) ofs vs | None => ofs end
      | XSequence scope _ et esize _, VElems vs =>
          match ty libs scope et with
          | Some etp => foldl (fun o v => aux_end fuel etp v o) ((cdr_field_ofs etp ofs).1 + zlen vs * esize) vs
          | None => ofs
          end
      | _, _ => ofs
      end
  end.

(** ** What [ok_type] says *)

Lemma ok_struct n al ext sc size keyed opt ms :
  ok_type (S n) al (XStruct ext sc size keyed opt ms) = true ->
  let mutable := bool_decide (ext = MUTABLE) in
  (mutable = true -> al = true) /\ layout_ok sc size ms = true /\ 0 <= size < 2 ^ 32 /\
  (exists mp ms', ms = mp :: ms' /\ is_optional mp = false) /\ (mutable = true -> ids_ok ms = true) /\
  Forall (fun mp => is_shareable mp = false /\ (is_optional mp = true -> mutable = true /\ opt = true) /\
    exists tp, ty libs sc (xm_id mp) = Some tp /\ ok_type n mutable tp = true /\
      (is_optional mp = true -> is_string tp = false)) ms.
Proof.
  intros H mutable. cbn [ok_type] in H. fold mutable in H. repeat (apply andb_true_iff in H as [H ?]).
  split; [by intros E; rewrite E in H; destruct al|]. split; [done|]. split; [zbool_lia|].
  split; [destruct ms as [|mp ms]; [done|]; exists mp, ms; split; [done|]; by apply negb_true_iff|].
  split; [intros E; by rewrite E in *|]. apply Forall_forall. intros mp Hmp%list_elem_of_In.
  match goal with HF : forallb _ ms = true |- _ => rewrite forallb_forall in HF; specialize (HF mp Hmp) as [[Hx1 Hx2]%andb_true_iff Hx3]%andb_true_iff end.
  split; [by apply negb_true_iff|]. split; [by intros E; rewrite E in Hx2; apply andb_true_iff in Hx2|].
  destruct (ty libs sc (xm_id mp)) as [tp|]; [|done]. exists tp. split; [done|]. apply andb_true_iff in Hx3 as [Hx3 Hx4]. split; [done|].
  intros E. rewrite E in Hx4. by destruct (is_string tp).
Qed.

Lemma ok_union n al ext sc size mps :
  ok_type (S n) al (XUnion ext sc size mps) = true ->
  exists mp ms dtp, mps = mp :: ms /\ bool_decide (ext = MUTABLE) = false /\ 0 <= size < 2 ^ 32 /\ is_default mp = false /\ labels mp = [] /\
    xm_offset (um_member mp) = 0 /\ is_optional (um_member mp) = false /\ is_shareable (um_member mp) = false /\
    ty libs sc (xm_id (um_member mp)) = Some dtp /\ valid_discriminant dtp = true /\ ok_type n false dtp = true /\ nsize dtp <= size /\
    Forall (fun x => is_optional (um_member x) = false /\ is_shareable (um_member x) = false /\ (length (labels x) <= 1)%nat /\
      nsize dtp <= xm_offset (um_member x) /\
      exists tp, ty libs sc (xm_id (um_member x)) = Some tp /\ ok_type n false tp = true /\
        xm_offset (um_member x) + nsize tp <= size) ms.
Proof.
  intros H. destruct mps as [|mp ms]; [done|]. cbn [ok_type] in H. repeat (apply andb_true_iff in H as [H ?]).
  destruct (ty libs sc (xm_id (um_member mp))) as [dtp|] eqn:Et; [|done]. exists mp, ms, dtp.
  repeat match goal with HH : _ && _ = true |- _ => apply andb_true_iff in HH as [? ?] end.
  repeat match goal with HH : negb _ = true |- _ => apply negb_true_iff in HH end.
  split_and!; try done; try zbool_lia; [by eapply bool_decide_eq_true_1|]. apply Forall_forall. intros x Hx%list_elem_of_In.
  match goal with HF : forallb _ ms = true |- _ => rewrite forallb_forall in HF; specialize (HF x Hx); cbn beta in HF end.
  repeat match goal with HH : _ && _ = true |- _ => apply andb_true_iff in HH as [? ?] end.
  repeat match goal with HH : negb _ = true |- _ => apply negb_true_iff in HH end.
  split_and!; try done; [by apply Nat.leb_le|zbool_lia|]. destruct (ty libs sc (xm_id (um_member x))) as [tp|]; [|done]. exists tp.
  match goal with HH : _ && _ = true |- _ => apply andb_true_iff in HH as [? ?] end. split_and!; [done|done|zbool_lia].
Qed.

Lemma ok_array n al sc sh et esize bound :
  ok_type (S n) al (XArray sc sh et esize bound) = true ->
  exists etp k, sh = false /\ ty libs sc et = Some etp /\ array_nelems bound = Some k /\ 0 < k /\ esize = nsize etp /\
    fold_left Z.mul bound esize = esize * k /\ esize * k < 2 ^ 32 /\ is_seq etp = false /\ ok_type n (al && is_mutable etp) etp = true.
Proof.
  intros H. cbn [ok_type] in H. apply andb_true_iff in H as [Hs H]. destruct (ty libs sc et) as [etp|]; [|done].
  destruct (array_nelems bound) as [k|]; [|done]. exists etp, k. repeat (apply andb_true_iff in H as [H ?]).
  split_and!; try done; try (by apply negb_true_iff); zbool_lia.
Qed.

Lemma ok_seq n al sc sh et esize bound :
  ok_type (S n) al (XSequence sc sh et esize bound) = true ->
  exists etp, sh = false /\ 0 <= bound /\ ty libs sc et = Some etp /\ esize = nsize etp /\ esize < 2 ^ 32 /\
    ok_type n (is_mutable etp) etp = true.
Proof.
  intros H. cbn [ok_type] in H. apply andb_true_iff in H as [[Hs Hb]%andb_true_iff H]. destruct (ty libs sc et) as [etp|]; [|done].
  exists etp. repeat (apply andb_true_iff in H as [H ?]). split_and!; try done; try (by apply negb_true_iff); zbool_lia.
Qed.

Lemma nsize_nonneg n : forall al tp, ok_type n al tp = true -> 0 <= nsize tp.
Proof.
  induction n as [|n IH]; [done|]. intros al tp H. destruct tp as [k|b|b|? ?|sc sh et es bd|sc sh et es bd|bd|ext sc size ms|ext sc size keyed opt ms].
  - unfold nsize. destruct (num_size _); lia.
  - unfold nsize. destruct (num_size _); lia.
  - unfold nsize. destruct (num_size _); lia.
  - done.
  - apply ok_array in H as (etp & k & _ & _ & Hk & Hk0 & -> & _ & _ & _ & H). apply IH in H. cbn. rewrite Hk. cbn. nia.
  - done.
  - cbn in H. cbn. case_if C; zbool_lia.
  - apply ok_union in H as (? & ? & ? & _ & _ & ? & _). cbn. lia.
  - apply ok_struct in H as (_ & _ & ? & _). cbn. lia.
Qed.

End Spec.
