(* ===== verification/XcdrGen.v ===== *)
(** The marshalling functions write the encoding of the value that the memory
    holds, and the length that they compute without a buffer is its length. *)

From stdpp Require Import gmap.
From S2P Require Import Prelude TypeData Mem Xcdr XcdrParse XcdrSpec.
From stdpp Require Import list.

#[local] Open Scope Z_scope.
#[local] Arguments le_bytes : simpl never.
#[local] Arguments ALIGN : simpl never.
#[local] Arguments swapped : simpl never.

(** ** Alignment *)

Lemma ALIGN_pow d k : 0 <= k -> ALIGN d (2 ^ k) = (d + 2 ^ k - 1) / 2 ^ k * 2 ^ k.
Proof.
  intros Hk. unfold ALIGN. rewrite <- Z.ldiff_land. replace (2 ^ k - 1) with (Z.ones k) by (rewrite Z.ones_equiv; lia).
  rewrite Z.ldiff_ones_r by done. by rewrite Z.shiftl_mul_pow2, Z.shiftr_div_pow2.
Qed.

Definition al_ok (al : Z) : Prop := al = 1 \/ al = 2 \/ al = 4 \/ al = 8 \/ al = 16.

Lemma al_pow al : al_ok al -> exists k, 0 <= k /\ al = 2 ^ k.
Proof. intros [->|[->|[->|[->| ->]]]]; [exists 0|exists 1|exists 2|exists 3|exists 4]; done. Qed.

Lemma ALIGN_spec d al : al_ok al -> d <= ALIGN d al < d + al /\ ALIGN d al mod al = 0.
Proof.
  intros (k & Hk & ->)%al_pow. rewrite ALIGN_pow by done. assert (0 < 2 ^ k) by lia.
  rewrite Z.mod_mul by lia. Z.div_mod_to_equations. nia.
Qed.

Lemma ALIGN_id d al : al_ok al -> d mod al = 0 -> ALIGN d al = d.
Proof.
  intros (k & Hk & ->)%al_pow Hd. rewrite ALIGN_pow by done. assert (0 < 2 ^ k) by lia.
  apply Z.mod_divide in Hd as [q ->]; [|lia]. replace (q * 2 ^ k + 2 ^ k - 1) with (q * 2 ^ k + (2 ^ k - 1)) by lia.
  rewrite Z.div_add_l, Z.div_small by lia. lia.
Qed.

Lemma ALIGN_idem d al : al_ok al -> ALIGN (ALIGN d al) al = ALIGN d al.
Proof. intros H. apply ALIGN_id; [done|]. by apply ALIGN_spec. Qed.

Lemma ALIGN_1 d : ALIGN d 1 = d.
Proof. apply ALIGN_id; [by left|]. apply Z.mod_1_r. Qed.

Lemma ALIGN_sandwich d e : d <= e <= ALIGN d 4 -> ALIGN e 4 = ALIGN d 4.
Proof.
  intros H. assert (H4 : al_ok 4) by (unfold al_ok; lia). destruct (ALIGN_spec d 4 H4) as [? ?], (ALIGN_spec e 4 H4) as [? ?].
  Z.div_mod_to_equations. lia.
Qed.

Ltac al := unfold al_ok; lia.

Lemma pad_len pos al : al_ok al -> zlen (pad pos al) = ALIGN pos al - pos.
Proof. intros H. unfold pad. rewrite zlen_replicate. pose proof (ALIGN_spec pos al H). lia. Qed.

Lemma length_swapped swap bs : length (swapped swap bs) = length bs.
Proof. destruct swap; [apply length_rev|done]. Qed.

Lemma zlen_swapped swap bs : zlen (swapped swap bs) = zlen bs.
Proof. unfold zlen. by rewrite length_swapped. Qed.

Lemma swapped_swapped swap bs : swapped swap (swapped swap bs) = bs.
Proof. destruct swap; [apply rev_involutive|done]. Qed.

Lemma zlen_le_bytes n z : zlen (le_bytes n z) = Z.of_nat n.
Proof. unfold zlen. by rewrite length_le_bytes. Qed.

#[export] Hint Rewrite zlen_swapped zlen_le_bytes @zlen_replicate : zlen.

(** ** Buffers *)

(** [b'] is [b] with the bytes [bs] at [pos]. *)
Definition stored (b : Mem) (pos : Z) (bs : list Z) (b' : Mem) : Prop := store b pos bs = Some b'.

(** The outcome of writing, with and without a buffer. *)
Definition wrote (o : option Mem) (pos : Z) (bs : list Z) (o' : option Mem) : Prop :=
  match o with None => o' = None | Some b => exists b', o' = Some b' /\ stored b pos bs b' end.

Definition room (o : option Mem) (pos n : Z) : Prop := match o with None => True | Some b => allocated b pos n end.

Lemma stored_allocated b pos bs b' a n : stored b pos bs b' -> allocated b a n -> allocated b' a n.
Proof. intros H Ha i Hi. apply (store_dom _ _ _ _ H). by apply Ha. Qed.

Lemma room_sub o pos n p k : room o pos n -> pos <= p -> p + k <= pos + n -> room o p k.
Proof. destruct o; [|done]. apply allocated_sub. Qed.

Lemma room_wrote o pos bs o' p n : wrote o pos bs o' -> room o p n -> room o' p n.
Proof. destruct o as [b|]; cbn; [|by intros ->]. intros (b' & -> & H). by apply (stored_allocated _ _ _ _ _ _ H). Qed.

Lemma wrote_app o pos bs1 o1 bs2 o2 :
  wrote o pos bs1 o1 -> wrote o1 (pos + zlen bs1) bs2 o2 -> wrote o pos (bs1 ++ bs2) o2.
Proof.
  destruct o as [b|]; cbn; [|intros ->; done]. intros (b1 & -> & H1). cbn. intros (b2 & -> & H2). exists b2.
  split; [done|]. unfold stored in *. by rewrite store_app, H1.
Qed.

Lemma wrote_nil o pos o' : wrote o pos [] o' <-> o' = o.
Proof. destruct o; cbn; [|done]. unfold stored. cbn. split; [intros (? & -> & [= ->]); done|intros ->; eauto]. Qed.

Lemma put_wrote o pos bs : room o pos (zlen bs) -> exists o', put o pos bs = Some o' /\ wrote o pos bs o'.
Proof.
  destruct o as [b|]; cbn; [|intros _; by exists None]. intros H. destruct (store_ok _ _ _ H) as [b' Hb].
  rewrite Hb. cbn. exists (Some b'). split; [done|]. by exists b'.
Qed.

(** Any writes that end with the bytes in place are a write of the bytes. *)
Lemma stored_intro b pos bs b' :
  changed b b' pos (zlen bs) -> load b' pos (length bs) = Some bs -> allocated b pos (zlen bs) -> stored b pos bs b'.
Proof.
  intros Hc Hl Ha. destruct (store_ok _ _ _ Ha) as [b2 H2]. unfold stored. rewrite H2. f_equal. apply map_eq. intros i.
  destruct (decide (pos <= i < pos + zlen bs)) as [Hi|Hi].
  - set (j := Z.to_nat (i - pos)). replace i with (pos + Z.of_nat j) by lia.
    assert (j < length bs)%nat by (unfold j, zlen in *; lia).
    by rewrite (store_in _ _ _ _ _ H2), (load_lookup _ _ _ _ _ Hl).
  - rewrite (store_out _ _ _ _ H2) by lia. symmetry. apply Hc. lia.
Qed.

(** Bytes in the middle are replaced. *)
Lemma wrote_patch o pos x y z o1 y' o2 :
  wrote o pos (x ++ y ++ z) o1 -> room o pos (zlen (x ++ y ++ z)) -> length y' = length y ->
  wrote o1 (pos + zlen x) y' o2 -> wrote o pos (x ++ y' ++ z) o2.
Proof.
  destruct o as [b|]; cbn; [|intros -> _ _; done]. intros (b1 & -> & H1) Hr Hy. cbn. intros (b2 & -> & H2). exists b2.
  split; [done|]. assert (Hyz : zlen y' = zlen y) by (unfold zlen; by rewrite Hy).
  assert (Hlen : zlen (x ++ y' ++ z) = zlen (x ++ y ++ z)) by (autorewrite with zlen; lia).
  apply stored_intro; [| |by rewrite Hlen].
  - intros i Hi. rewrite Hlen in Hi. autorewrite with zlen in Hi.
    rewrite (store_out _ _ _ _ H2), (store_out _ _ _ _ H1); [done| |]; autorewrite with zlen; zlen_lia.
  - apply load_intro. intros i c Hc. apply lookup_app_Some in Hc as [Hc|[Hx Hc]].
    + pose proof (lookup_lt_Some _ _ _ Hc). rewrite (store_out _ _ _ _ H2) by (unfold zlen; lia).
      rewrite (store_in _ _ _ _ _ H1) by (rewrite length_app; lia). by rewrite lookup_app_l.
    + apply lookup_app_Some in Hc as [Hc|[Hyl Hc]].
      * replace (pos + Z.of_nat i) with (pos + zlen x + Z.of_nat (i - length x)) by (unfold zlen; lia).
        rewrite (store_in _ _ _ _ _ H2); [done|]. by apply lookup_lt_Some in Hc.
      * pose proof (lookup_lt_Some _ _ _ Hc). rewrite (store_out _ _ _ _ H2) by (unfold zlen in *; lia).
        rewrite (store_in _ _ _ _ _ H1) by (rewrite !length_app; lia).
        rewrite lookup_app_r, lookup_app_r by lia. by rewrite <- Hy.
Qed.

(** Bytes that are left as they are. *)
Lemma wrote_skip o pos n : room o pos n -> 0 <= n -> exists y, zlen y = n /\ wrote o pos y o.
Proof.
  destruct o as [b|]; cbn; intros H Hn; [|exists (replicate (Z.to_nat n) 0); by rewrite zlen_replicate; split; [lia|]].
  destruct (allocated_load b pos (Z.to_nat n)) as [y Hy]; [by rewrite Z2Nat.id|].
  pose proof (load_len _ _ _ _ Hy) as Hl. exists y. assert (zlen y = n) as Hz by (unfold zlen; lia). split; [done|]. exists b. split; [done|].
  apply stored_intro; [apply changed_refl|by rewrite Hl|by rewrite Hz].
Qed.

Lemma CDR_ALIGN_ok o pos al :
  al_ok al -> room o pos (ALIGN pos al - pos) ->
  exists o', CDR_ALIGN true o pos al = Some (o', ALIGN pos al) /\ wrote o pos (pad pos al) o'.
Proof.
  intros Hal Hr. unfold CDR_ALIGN. destruct (put_wrote o pos (pad pos al)) as (o' & E & Hw); [by rewrite pad_len|].
  unfold pad in E. rewrite E. cbn. by exists o'.
Qed.

(** ** Members, elements, values *)

Lemma Forall2_with_l {A B} (P : A -> B -> Prop) (Q R : A -> Prop) l k :
  Forall2 P l k -> Forall Q l -> Forall R l -> Forall2 (fun x y => P x y /\ (Q x /\ R x)) l k.
Proof. induction 1; intros HQ HR; inversion HQ; inversion HR; constructor; auto. Qed.

Section Gen.
  Context (libs : XLibs) (m : Mem) (xmalloc_ok swap : bool).

(** A generator of values writes the encoding [bs] of the value at [src]. *)
Definition good (G : XType -> option Mem -> Z -> Z -> bool -> bool -> option (option Mem * Z))
  (tp : XType) (pos : Z) (bs : list Z) (src : Z) : Prop :=
  forall o kf, room o pos (zlen bs) ->
    exists o', G tp o pos src kf false = Some (o', pos + zlen bs) /\ wrote o pos bs o'.

Lemma num_al tp n : num_size tp = Some n -> al_ok (Z.of_nat n) /\ (0 < n)%nat.
Proof.
  intros H. unfold num_size in H. repeat case_match; simplify_eq/=; split; first [al|lia].
Qed.

Lemma enc_num_inv n tp bs pos b :
  enc libs swap n tp (VNum bs) pos = Some b ->
  exists k, num_size tp = Some k /\ length bs = k /\ Forall byte_ok bs /\ b = pad pos (Z.of_nat k) ++ swapped swap bs.
Proof.
  destruct n as [|n]; [done|]. intros H. cbn in H. assert (Hn : exists k, num_size tp = Some k /\
    (if (length bs =? k)%nat && forallb is_byte bs then Some (pad pos (Z.of_nat k) ++ swapped swap bs) else None) = Some b).
  { destruct tp as [k|x|x| | | | |? ? ? [|? ?]|]; cbn in H |- *; try done; destruct (_ : option nat) as [k'|]; cbn in H; try done; eauto. }
  destruct Hn as (k & Ek & E). exists k. case_if C in E; [|done]. injection E as <-.
  apply andb_true_iff in C as [C1%Nat.eqb_eq C2]. split; [done|]. split; [done|]. split; [|done].
  apply Forall_forall. intros x Hx%list_elem_of_In. rewrite forallb_forall in C2.
  specialize (C2 x Hx). unfold is_byte in C2. unfold byte_ok. zbool_lia.
Qed.

(** The effect of a write of the right length, in the form in which the code
    counts. *)
Lemma gen_num_ok src bs k :
  at_mem m src bs -> length bs = k -> al_ok (Z.of_nat k) ->
  forall o pos kf, room o pos (zlen (pad pos (Z.of_nat k) ++ swapped swap bs)) ->
  exists o', gen_num m false swap k (Z.of_nat k) o pos src kf =
    Some (o', pos + zlen (pad pos (Z.of_nat k) ++ swapped swap bs)) /\
    wrote o pos (pad pos (Z.of_nat k) ++ swapped swap bs) o'.
Proof.
  intros Hm Hk Hal o pos kf Hr. autorewrite with zlen in *. rewrite pad_len in * by done.
  unfold gen_num. cbn [negb orb]. destruct (CDR_ALIGN_ok o pos (Z.of_nat k)) as (o1 & -> & H1); [done|eapply room_sub; [done|lia|zlen_lia]|].
  cbn. assert (Hr1 : room o1 (ALIGN pos (Z.of_nat k)) (zlen (swapped swap bs))).
  { eapply room_wrote; [done|]. rewrite zlen_swapped. eapply room_sub; [done| |]; pose proof (ALIGN_spec pos _ Hal); lia. }
  destruct (put_wrote _ _ _ Hr1) as (o2 & E2 & H2). exists o2.
  assert (E : match o1 with None => Some None | Some _ => bs0 ← load m src k; put o1 (ALIGN pos (Z.of_nat k)) (swapped swap bs0) end
              = Some o2).
  { unfold at_mem in Hm. rewrite Hk in Hm. destruct o1; [by rewrite Hm|done]. }
  rewrite E. cbn. split; [do 2 f_equal; unfold zlen in *; lia|].
  eapply wrote_app; [done|]. rewrite pad_len by done. by replace (pos + _) with (ALIGN pos (Z.of_nat k)) by lia.
Qed.

Lemma at_mem_app a x y : at_mem m a (x ++ y) <-> at_mem m a x /\ at_mem m (a + zlen x) y.
Proof.
  unfold at_mem. rewrite length_app, load_app. unfold zlen. split.
  - intros E. destruct (load m a (length x)) as [x'|] eqn:Ex; [|done]. cbn in E.
    destruct (load m _ (length y)) as [y'|] eqn:Ey; [|done]. cbn in E. injection E as E.
    apply app_inj_1 in E as [-> ->]; [done|]. by apply load_len in Ex.
  - by intros [-> ->].
Qed.

Lemma at_mem_lookup a bs i b : at_mem m a bs -> bs !! i = Some b -> m !! (a + Z.of_nat i) = Some b.
Proof. intros H Hi. rewrite (load_lookup _ _ _ _ i H); [done|]. by apply lookup_lt_Some in Hi. Qed.

Lemma allocated_size a n : allocated m a (Z.of_nat n) -> (n <= size m)%nat.
Proof.
  intros H. assert (Hs : list_to_set (C := gset Z) (seqZ a (Z.of_nat n)) ⊆ dom m).
  { intros i Hi. apply elem_of_list_to_set, elem_of_seqZ in Hi. apply elem_of_dom. by apply H. }
  apply subseteq_size in Hs. rewrite size_list_to_set, length_seqZ, size_dom in Hs by apply NoDup_seqZ. lia.
Qed.

Lemma strlen_from_ok cs : forall fuel a,
  at_mem m a (cs ++ [0]) -> Forall (fun c => c <> 0) cs -> (length cs < fuel)%nat -> strlen_from fuel m a = Some (zlen cs).
Proof.
  induction cs as [|c cs IH]; intros [|fuel] a Hm Hc Hf; try (cbn in Hf; lia); cbn.
  - unfold at_mem in Hm. cbn in Hm. by destruct (m !! a) as [b|]; [|done]; injection Hm as ->.
  - unfold at_mem in Hm. cbn in Hm. destruct (m !! a) as [b|] eqn:Eb; [|done]. cbn in Hm.
    destruct (load m (a + 1) (length (cs ++ [0]))) eqn:E; [|done]. injection Hm as -> ->. cbn.
    inversion Hc; subst. destruct (Z.eqb_spec c 0); [done|]. rewrite (IH fuel (a + 1)) by (done || (cbn in Hf; lia)). cbn.
    f_equal. zlen_lia.
Qed.

Lemma strlen_ok a cs : at_mem m a (cs ++ [0]) -> Forall (fun c => c <> 0) cs -> strlen m a = Some (zlen cs).
Proof.
  intros Hm Hc. apply strlen_from_ok; [done|done|]. enough (length (cs ++ [0%Z]) <= size m)%nat by (rewrite length_app in *; cbn in *; lia).
  apply allocated_size with a. intros i Hi. replace i with (a + Z.of_nat (Z.to_nat (i - a))) by lia.
  destruct (lookup_lt_is_Some_2 (cs ++ [0]) (Z.to_nat (i - a))) as [b Hb]; [lia|]. rewrite (at_mem_lookup _ _ _ _ Hm Hb). by eexists.
Qed.

Lemma strlen_bound_ok cs : forall bound a,
  at_mem m a cs -> Forall (fun c => c <> 0) cs -> (length cs <= bound)%nat ->
  ((length cs < bound)%nat -> m !! (a + zlen cs) = Some 0) -> strlen_bound m a bound = Some (zlen cs).
Proof.
  induction cs as [|c cs IH]; intros [|bound] a Hm Hc Hl Hz; try done; try (cbn in Hl; lia); cbn.
  - specialize (Hz ltac:(cbn; lia)). rewrite zlen_nil, Z.add_0_r in Hz. by rewrite Hz.
  - unfold at_mem in Hm. cbn in Hm. destruct (m !! a) as [b|] eqn:Eb; [|done]. cbn in Hm.
    destruct (load m (a + 1) (length cs)) eqn:E; [|done]. injection Hm as -> ->. cbn.
    inversion Hc; subst. destruct (Z.eqb_spec c 0); [done|].
    rewrite (IH bound (a + 1)); [cbn; f_equal; zlen_lia|done|done|cbn in Hl; lia|].
    intros Hlt. rewrite <- Hz by (cbn; lia). f_equal. zlen_lia.
Qed.

Lemma str_ok_inv bound cs :
  str_ok bound cs = true -> Forall (fun c => 0 < c < 256) cs /\ zlen cs < 2 ^ 32 - 1 /\ (bound = 0 \/ zlen cs <= bound).
Proof.
  unfold str_ok. intros H. apply andb_true_iff in H as [[H1 H2]%andb_true_iff H3]. split; [|split; zbool_lia].
  apply Forall_forall. intros x Hx%list_elem_of_In. rewrite forallb_forall in H1. specialize (H1 x Hx). zbool_lia.
Qed.

(** Where the characters of a string are. *)
Definition str_source (bound src : Z) : option (Z * Z) :=
  if negb (src =? 0) then
    if negb (bound =? 0) then len ← strlen_bound m src (Z.to_nat bound); Some (src, len)
    else ptr ← load_ptr m src;
         if negb (ptr =? 0) then len ← strlen m ptr; Some (ptr, ⟦len⟧32) else Some (ptr, 0)
  else Some (0, 0).

Lemma str_source_ok n bound src cs :
  repr libs (S n) m src (XString bound) (VStr cs) -> str_ok bound cs = true -> 0 <= bound -> 0 < src ->
  exists ptr, str_source bound src = Some (ptr, zlen cs) /\ ((ptr = 0 /\ cs = []) \/ (0 < ptr /\ at_mem m ptr cs)).
Proof.
  intros Hr (Hc & Hl & Hb)%str_ok_inv Hbn Hs. cbn in Hr. unfold str_source.
  destruct (Z.eqb_spec src 0) as [|_]; [lia|]. cbn [negb].
  assert (Hnz : Forall (fun c => c <> 0) cs) by (eapply Forall_impl; [exact Hc|]; cbn; lia).
  destruct (Z.eqb_spec bound 0) as [->|Hb0]; cbn [negb].
  - destruct Hr as (p & -> & [[-> ->]|[Hp Hm]]); cbn; [by exists 0; split; [|left]|].
    destruct (Z.eqb_spec p 0); [lia|]. cbn. rewrite (strlen_ok _ _ Hm Hnz). cbn. exists p.
    rewrite wrap_small by (split; [zlen_lia|lia]). split; [done|]. right. split; [done|]. by apply at_mem_app in Hm as [? _].
  - destruct Hr as [Hm Hz]. rewrite (strlen_bound_ok cs); [|done|done|unfold zlen in *; lia|intros ?; apply Hz; unfold zlen in *; lia].
    cbn. exists src. split; [done|]. by right.
Qed.

Lemma gen_string_ok n bound src cs :
  repr libs (S n) m src (XString bound) (VStr cs) -> str_ok bound cs = true -> 0 <= bound -> 0 < src ->
  forall o pos kf, let bs := pad pos 4 ++ swapped swap (le_bytes 4 (zlen cs + 1)) ++ cs ++ [0] in
  room o pos (zlen bs) ->
  exists o', gen_string m CF_CDR false swap bound o pos src kf = Some (o', pos + zlen bs) /\ wrote o pos bs o'.
Proof.
  intros Hr Hok Hbn Hs o pos kf bs Hroom. destruct (str_source_ok _ _ _ _ Hr Hok Hbn Hs) as (ptr & Esrc & Hptr).
  apply str_ok_inv in Hok as (_ & Hl & _). assert (H4 : al_ok 4) by al. pose proof (ALIGN_spec pos 4 H4) as [HA _].
  assert (Hlen : zlen bs = ALIGN pos 4 - pos + 4 + zlen cs + 1) by (unfold bs; autorewrite with zlen; rewrite pad_len by done; cbn; lia).
  unfold gen_string. cbn [negb orb]. fold (str_source bound src). rewrite Esrc. cbn [mbind option_bind].
  rewrite wrap_small by (split; [zlen_lia|lia]).
  destruct (CDR_ALIGN_ok o pos 4 H4) as (o1 & -> & H1); [eapply room_sub; [done|lia|zlen_lia]|]. cbn [mbind option_bind].
  assert (Hr1 : forall p k, ALIGN pos 4 <= p -> p + k <= pos + zlen bs -> room o1 p k).
  { intros p k ? ?. eapply room_wrote; [done|]. eapply room_sub; [done|lia|lia]. }
  destruct (put_wrote o1 (ALIGN pos 4) (swapped swap (le_bytes 4 (zlen cs + 1)))) as (o2 & -> & H2);
    [apply Hr1; autorewrite with zlen; zlen_lia|]. cbn [mbind option_bind].
  assert (Hr2 : forall p k, ALIGN pos 4 <= p -> p + k <= pos + zlen bs -> room o2 p k).
  { intros p k ? ?. eapply room_wrote; [exact H2|]. by apply Hr1. }
  assert (H12 : wrote o pos (pad pos 4 ++ swapped swap (le_bytes 4 (zlen cs + 1))) o2).
  { eapply wrote_app; [done|]. rewrite pad_len by done. by replace (pos + _) with (ALIGN pos 4) by lia. }
  assert (Hfin : forall o3, wrote o2 (ALIGN pos 4 + 4) (cs ++ [0]) o3 -> wrote o pos bs o3).
  { intros o3 H3. unfold bs. rewrite app_assoc. eapply wrote_app; [done|].
    autorewrite with zlen. rewrite pad_len by done. by replace (pos + _) with (ALIGN pos 4 + 4) by lia. }
  destruct Hptr as [[-> ->]|[Hp Hm]].
  - cbn [Z.eqb negb]. destruct (put_wrote o2 (ALIGN pos 4 + 4) [0]) as (o3 & -> & H3); [apply Hr2; zlen_lia|].
    cbn. exists o3. split; [do 2 f_equal; zlen_lia|by apply Hfin].
  - destruct (Z.eqb_spec ptr 0); [lia|]. cbn [negb].
    destruct (put_wrote o2 (ALIGN pos 4 + 4) cs) as (o3 & E3 & H3); [apply Hr2; zlen_lia|].
    destruct (put_wrote o3 (ALIGN pos 4 + 4 + zlen cs) [0]) as (o4 & E4 & H4').
    { eapply room_wrote; [exact H3|]. apply Hr2; [zlen_lia|]. cbn. zlen_lia. }
    set (X := match o2 with None => _ | Some _ => _ end).
    assert (EX : X = Some o4).
    { unfold X. destruct o2 as [b2|]; [|cbn in E3; injection E3 as <-; cbn in E4; injection E4 as <-; done].
      assert (El : (if 1 <? zlen cs + 1 then load m ptr (Z.to_nat (zlen cs + 1 - 1)) else Some []) = Some cs).
      { case_if C; [|f_equal; apply Z.ltb_ge in C; destruct cs; [done|exfalso; zlen_lia]].
        replace (Z.to_nat (zlen cs + 1 - 1)) with (length cs) by (unfold zlen; lia). exact Hm. }
      rewrite El. cbn [mbind option_bind]. rewrite E3. cbn [mbind option_bind].
      by replace (ALIGN pos 4 + 4 + (zlen cs + 1) - 1) with (ALIGN pos 4 + 4 + zlen cs) by lia. }
    rewrite EX. cbn. exists o4. split; [do 2 f_equal; lia|]. apply Hfin. by eapply wrote_app.
Qed.

(** *** Elements *)

Lemma gen_elems_ok E G etp esize vs : forall pos bs src,
  enc_elems_with E etp vs pos = Some bs -> 0 <= pos -> 0 <= esize -> 0 < src ->
  (forall i v p b, vs !! i = Some v -> E etp v p = Some b -> 0 <= p -> good G etp p b (src + Z.of_nat i * esize) /\ 0 < zlen b) ->
  forall o kf, room o pos (zlen bs) ->
  exists o', gen_elems G (length vs) etp false esize o pos src kf = Some (o', pos + zlen bs) /\ wrote o pos bs o'.
Proof.
  induction vs as [|v vs IH]; intros pos bs src He Hp Hes Hs HG o kf Hr; cbn in He.
  { injection He as <-. cbn. exists o. rewrite zlen_nil, Z.add_0_r. by rewrite wrote_nil. }
  destruct (E etp v pos) as [b|] eqn:Eb; [|done]. cbn in He.
  destruct (enc_elems_with E etp vs (pos + zlen b)) as [r|] eqn:Er; [|done]. cbn in He. injection He as <-.
  destruct (HG 0%nat v pos b eq_refl Eb Hp) as [Hg Hb]. replace (src + Z.of_nat 0 * esize) with src in Hg by lia.
  autorewrite with zlen in Hr. destruct (Hg o kf) as (o1 & E1 & H1); [eapply room_sub; [done|lia|zlen_lia]|].
  cbn [gen_elems length]. rewrite E1. cbn [mbind option_bind]. destruct (Z.eqb_spec (pos + zlen b) 0); [lia|].
  destruct (IH _ _ (src + esize) Er ltac:(lia) Hes ltac:(lia)) with (o := o1) (kf := kf) as (o2 & E2 & H2).
  - intros i v' p b' Hi He Hpp. destruct (HG (S i) v' p b' Hi He Hpp) as [Hg' ?]. split; [|done].
    by replace (src + esize + Z.of_nat i * esize) with (src + Z.of_nat (S i) * esize) by lia.
  - eapply room_wrote; [exact H1|]. eapply room_sub; [done|zlen_lia|lia].
  - exists o2. rewrite E2. split; [do 2 f_equal; zlen_lia|]. by eapply wrote_app.
Qed.

(** *** Members *)

(** A member that is neither optional nor shared, outside of a parameter list. *)
Lemma gen_member_plain G scope mp tp all_key o pos bs src :
  is_optional mp = false -> is_shareable mp = false -> ty libs scope (xm_id mp) = Some tp ->
  good G tp pos bs (src + xm_offset mp) -> 0 < zlen bs -> 0 <= pos -> 0 < src -> room o pos (zlen bs) ->
  exists o', cdr_generate_member libs m swap G scope mp false all_key o pos src = Some (o', pos + zlen bs) /\ wrote o pos bs o'.
Proof.
  intros Ho Hsh Ht Hg Hb Hp Hs Hr. unfold cdr_generate_member. destruct (Z.eqb_spec src 0); [lia|]. rewrite Ho, Hsh. cbn.
  unfold ty in Ht. destruct (real_type_ptr libs scope (xm_id mp)) as [[tp'|]|]; try done. cbn in Ht. injection Ht as ->.
  cbn. destruct (Hg o (is_key mp || all_key) Hr) as (o' & -> & Hw). cbn. destruct (Z.eqb_spec (pos + zlen bs) 0); [lia|].
  cbn. by exists o'.
Qed.

Lemma gen_members_plain E G scope ms all_key : forall fs pos bs src,
  enc_body_with libs swap E false scope ms fs pos = Some bs ->
  Forall2 (fun mp f => is_optional mp = false /\ is_shareable mp = false /\ forall tp v p b, f = Some v ->
    ty libs scope (xm_id mp) = Some tp -> E tp v p = Some b -> 0 <= p ->
    good G tp p b (src + xm_offset mp) /\ 0 < zlen b) ms fs ->
  0 <= pos -> 0 < src ->
  forall o, room o pos (zlen bs) ->
  exists o', gen_members libs m swap G ms scope false all_key o pos src = Some (o', pos + zlen bs) /\ wrote o pos bs o'.
Proof.
  induction ms as [|mp ms IH]; intros fs pos bs src He HF Hp Hs o Hr; inversion HF as [|? f ? fs' (Ho & Hsh & HG) HF']; subst; cbn in He.
  { injection He as <-. cbn. exists o. rewrite zlen_nil, Z.add_0_r. by rewrite wrote_nil. }
  rewrite Ho in He. destruct f as [v|]; [|done]. destruct (ty libs scope (xm_id mp)) as [tp|] eqn:Et; [|done]. cbn in He.
  destruct (E tp v pos) as [b|] eqn:Eb; [|done]. cbn in He.
  destruct (enc_body_with _ _ _ _ _ ms fs' (pos + zlen b)) as [r|] eqn:Er; [|done]. cbn in He. injection He as <-.
  destruct (HG tp v pos b eq_refl eq_refl Eb Hp) as [Hg Hb]. autorewrite with zlen in Hr.
  destruct (gen_member_plain G scope mp tp all_key o pos b src) as (o1 & E1 & H1); try done; [eapply room_sub; [done|lia|zlen_lia]|].
  cbn [gen_members]. rewrite E1. cbn [mbind option_bind]. destruct (Z.eqb_spec (pos + zlen b) 0); [lia|].
  destruct (IH _ _ _ src Er HF' ltac:(lia) Hs o1) as (o2 & E2 & H2).
  { eapply room_wrote; [exact H1|]. eapply room_sub; [done|zlen_lia|lia]. }
  exists o2. rewrite E2. split; [do 2 f_equal; zlen_lia|]. by eapply wrote_app.
Qed.

(** The offset at which the code is when the encoding is at [pos]: without a
    buffer the padding behind a parameter is left to the next one. *)
Definition near (o : option Mem) (q pos : Z) : Prop :=
  match o with Some _ => q = pos | None => ALIGN q 4 = ALIGN pos 4 end.

Lemma near_wrote o pos bs o' q p : wrote o pos bs o' -> near o' q p <-> near o q p.
Proof. destruct o; cbn; [by intros (? & -> & _)|by intros ->]. Qed.

Lemma near_refl o p : near o p p.
Proof. by destruct o. Qed.

Lemma header_len_pos mp : 4 <= header_len mp.
Proof. unfold header_len. case_if C; lia. Qed.

Lemma enc_header_len mp n h : enc_header swap mp n = Some h -> zlen h = header_len mp.
Proof.
  unfold enc_header, header_len. case_if C; [intros [= <-]; by autorewrite with zlen|]. case_if C2; [|done].
  intros [= <-]. by autorewrite with zlen.
Qed.

(** The two parts of a header: the length is filled in later. *)
Definition head_id (mp : XMember) : list Z :=
  let flag := if must_understand mp then XT_PID_UNDERST else 0 in
  if XT_PID_EXTENDED <=? member_id mp then
    swapped swap (le_bytes 2 (Z.lor XT_PID_EXTENDED flag)) ++ swapped swap (le_bytes 2 8) ++
    swapped swap (le_bytes 4 (member_id mp))
  else swapped swap (le_bytes 2 (Z.lor (member_id mp) flag)).
Definition head_len (mp : XMember) (n : Z) : list Z :=
  if XT_PID_EXTENDED <=? member_id mp then swapped swap (le_bytes 4 n) else swapped swap (le_bytes 2 n).

Lemma enc_header_parts mp n h : enc_header swap mp n = Some h -> h = head_id mp ++ head_len mp n.
Proof.
  unfold enc_header, head_id, head_len. case_if C; [intros [= <-]; by rewrite <- !app_assoc|]. case_if C2; [|done]. by intros [= <-].
Qed.

Lemma head_lens mp n : zlen (head_id mp) + zlen (head_len mp n) = header_len mp.
Proof. unfold head_id, head_len, header_len. case_if C; by autorewrite with zlen. Qed.

Lemma head_len_len mp n k : length (head_len mp n) = length (head_len mp k).
Proof. unfold head_len. case_if C; by rewrite !length_swapped, !length_le_bytes. Qed.

Definition has_buffer (o : option Mem) : bool := match o with Some _ => true | None => false end.

Lemma put_None bs p : put None p bs = Some None.
Proof. done. Qed.

Lemma gen_header_ok mp o delta :
  room o delta (header_len mp) ->
  exists o' y, gen_header swap mp (has_buffer o) o delta = Some (o', delta + header_len mp) /\
    length y = length (head_len mp 0) /\ wrote o delta (head_id mp ++ y) o'.
Proof.
  intros Hr. pose proof (head_lens mp 0) as Hl.
  destruct (put_wrote o delta (head_id mp)) as (o1 & E1 & H1); [eapply room_sub; [done|lia|zlen_lia]|].
  destruct (wrote_skip o1 (delta + zlen (head_id mp)) (zlen (head_len mp 0))) as (y & Hy & H2); [|zlen_lia|].
  { eapply room_wrote; [exact H1|]. eapply room_sub; [done|zlen_lia|lia]. }
  exists o1, y. split; [|split; [unfold zlen in Hy; lia|by eapply wrote_app]].
  unfold gen_header, head_id, header_len in *. destruct o as [b|]; cbn [has_buffer].
  - case_if C; rewrite E1; cbn; f_equal.
  - case_if C; cbn; cbn in E1; injection E1 as <-; done.
Qed.

Lemma gen_backpatch_ok mp o start n :
  gen_backpatch swap mp o start n = put o (start - header_len mp + zlen (head_id mp)) (head_len mp (n - start)).
Proof.
  pose proof (head_lens mp (n - start)) as Hl. unfold gen_backpatch, head_len, header_len in *.
  case_if C; autorewrite with zlen in Hl; f_equal; lia.
Qed.

Lemma align_near o q pos :
  near o q pos -> room o pos (ALIGN pos 4 - pos) ->
  exists o', CDR_ALIGN (has_buffer o) o q 4 = Some (o', ALIGN pos 4) /\ wrote o pos (pad pos 4) o'.
Proof.
  destruct o as [b|]; cbn; intros Hq Hr.
  - subst q. apply (CDR_ALIGN_ok (Some b) pos 4); [al|done].
  - exists None. unfold CDR_ALIGN. cbn. by rewrite Hq.
Qed.

(** A member of a parameter list that is present. *)
Lemma gen_member_param G scope mp tp o q pos h body src src' :
  let start := ALIGN pos 4 + header_len mp in let stop := start + zlen body in
  let bs := pad pos 4 ++ h ++ body ++ pad stop 4 in
  is_shareable mp = false -> ty libs scope (xm_id mp) = Some tp ->
  (if is_optional mp then load_ptr m (src + xm_offset mp) = Some src' else src' = src + xm_offset mp) ->
  0 < src' -> good G tp start body src' ->
  enc_header swap mp (ALIGN stop 4 - start) = Some h ->
  0 < src -> 0 <= pos -> near o q pos -> room o pos (zlen bs) ->
  exists o' q', cdr_generate_member libs m swap G scope mp true false o q src = Some (o', q') /\
    wrote o pos bs o' /\ near o q' (pos + zlen bs) /\ 0 < q'.
Proof.
  intros start stop bs Hsh Ht Hsrc Hs' Hg Hh Hs Hp Hq Hr. assert (H4 : al_ok 4) by al.
  pose proof (ALIGN_spec pos 4 H4) as [HA HA0]. pose proof (ALIGN_spec stop 4 H4) as [HB HB0]. pose proof (header_len_pos mp) as Hhl.
  pose proof (enc_header_len _ _ _ Hh) as Hhz. rewrite (enc_header_parts _ _ _ Hh) in Hhz.
  assert (Hz : zlen bs = ALIGN stop 4 - pos).
  { unfold bs. rewrite (enc_header_parts _ _ _ Hh). rewrite !zlen_app, !pad_len by done. rewrite zlen_app in Hhz. unfold stop, start in *. lia. }
  pose proof (zlen_nonneg body) as Hbn. unfold cdr_generate_member. destruct (Z.eqb_spec src 0); [lia|]. rewrite Hsh. cbn [negb orb andb].
  assert (Esrc : (if is_optional mp then p ← load_ptr m (src + xm_offset mp);
      Some (if negb (p =? 0) then (p, false, true) else if negb (is_optional mp) then (src, false, false) else (src, true, true))
     else Some (src + xm_offset mp, false, true)) = Some (src', false, true)).
  { destruct (is_optional mp); [|by rewrite Hsrc]. rewrite Hsrc. cbn. destruct (Z.eqb_spec src' 0); [lia|done]. }
  rewrite Esrc. cbn [mbind option_bind negb andb]. fold (has_buffer o).
  destruct (align_near o q pos Hq) as (o1 & -> & H1); [eapply room_sub; [done|lia|lia]|]. cbn [mbind option_bind].
  assert (Hb1 : has_buffer o = has_buffer o1) by (destruct o; cbn in H1; [destruct H1 as (? & -> & _)|subst]; done).
  assert (Hr1 : forall p k, ALIGN pos 4 <= p -> p + k <= pos + zlen bs -> room o1 p k).
  { intros p k ? ?. eapply room_wrote; [done|]. eapply room_sub; [done|lia|lia]. }
  rewrite Hb1. destruct (gen_header_ok mp o1 (ALIGN pos 4)) as (o2 & y & -> & Hy & H2); [apply Hr1; unfold stop, start in *; lia|].
  cbn [mbind option_bind]. unfold ty in Ht. destruct (real_type_ptr libs scope (xm_id mp)) as [[tp'|]|]; try done.
  cbn in Ht. injection Ht as ->. cbn [mbind option_bind]. fold start.
  assert (Hyl : zlen (head_id mp ++ y) = header_len mp).
  { rewrite <- (head_lens mp 0), zlen_app. unfold zlen. by rewrite Hy. }
  assert (Hr2 : forall p k, ALIGN pos 4 <= p -> p + k <= pos + zlen bs -> room o2 p k).
  { intros p k ? ?. eapply room_wrote; [exact H2|]. by apply Hr1. }
  destruct (Hg o2 (is_key mp || false)) as (o3 & -> & H3); [apply Hr2; unfold stop, start in *; lia|]. cbn [mbind option_bind].
  fold stop. assert (stop <> 0) by (unfold stop, start; lia). destruct (Z.eqb_spec stop 0); [done|]. cbn [andb].
  assert (H123 : wrote o pos ((pad pos 4 ++ head_id mp) ++ y ++ body) o3).
  { rewrite <- app_assoc. eapply wrote_app; [exact H1|]. rewrite pad_len by done. replace (pos + (ALIGN pos 4 - pos)) with (ALIGN pos 4) by lia.
    rewrite app_assoc. eapply wrote_app; [exact H2|]. by rewrite Hyl. }
  destruct o as [b|].
  - cbn [has_buffer andb] in *. cbn in H1. destruct H1 as (b1 & -> & H1). cbn [has_buffer].
    destruct (CDR_ALIGN_ok o3 stop 4 H4) as (o4 & -> & H4').
    { eapply room_wrote; [exact H3|]. apply Hr2; unfold stop, start in *; lia. }
    cbn [mbind option_bind]. rewrite gen_backpatch_ok.
    assert (H1234 : wrote (Some b) pos ((pad pos 4 ++ head_id mp) ++ y ++ (body ++ pad stop 4)) o4).
    { replace ((pad pos 4 ++ head_id mp) ++ y ++ body ++ pad stop 4) with (((pad pos 4 ++ head_id mp) ++ y ++ body) ++ pad stop 4)
        by (by rewrite <- !app_assoc). eapply wrote_app; [exact H123|].
      rewrite !zlen_app, pad_len by done. rewrite zlen_app in Hyl.
      by replace (pos + _) with stop by (unfold stop, start; lia). }
    destruct (put_wrote o4 (start - header_len mp + zlen (head_id mp)) (head_len mp (ALIGN stop 4 - start))) as (o5 & -> & H5).
    { eapply room_wrote; [exact H1234|]. eapply room_sub; [exact Hr| |]; pose proof (head_lens mp (ALIGN stop 4 - start)); unfold start in *; zlen_lia. }
    cbn [mbind option_bind]. exists o5, (ALIGN stop 4). split; [done|]. split; [|cbn; split; lia].
    replace bs with ((pad pos 4 ++ head_id mp) ++ head_len mp (ALIGN stop 4 - start) ++ (body ++ pad stop 4))
      by (unfold bs; rewrite (enc_header_parts _ _ _ Hh); by rewrite <- !app_assoc).
    assert (Hyz : zlen y = zlen (head_len mp 0)) by (unfold zlen; by rewrite Hy).
    eapply wrote_patch; [exact H1234| |by rewrite Hy; apply head_len_len|].
    + eapply room_sub; [exact Hr|lia|]. rewrite Hz, !zlen_app, !pad_len by done. rewrite zlen_app in Hyl. unfold stop, start in *; lia.
    + rewrite zlen_app, pad_len by done. by replace (pos + _) with (start - header_len mp + zlen (head_id mp)) by (unfold start; lia).
  - cbn in H1. subst o1. cbn [has_buffer andb negb] in *. exists o3, stop. split; [done|]. cbn in H2. subst o2. cbn in H3. subst o3. split; [done|].
    split; [|unfold stop, start; lia]. cbn. rewrite Hz. replace (pos + (ALIGN stop 4 - pos)) with (ALIGN stop 4) by lia. by rewrite ALIGN_idem.
Qed.

(** A member of a parameter list that is absent. *)
Lemma gen_member_absent G scope mp o q src :
  is_optional mp = true -> load_ptr m (src + xm_offset mp) = Some 0 -> 0 < src ->
  cdr_generate_member libs m swap G scope mp true false o q src = Some (o, q).
Proof.
  intros Ho Hl Hs. unfold cdr_generate_member. destruct (Z.eqb_spec src 0); [lia|]. rewrite Ho, orb_true_r, Hl. cbn.
  by rewrite andb_false_r.
Qed.

(** What the lemmas need of a member and its value. *)
Definition member_good (E : XType -> XVal -> Z -> option (list Z))
  (G : XType -> option Mem -> Z -> Z -> bool -> bool -> option (option Mem * Z)) (scope src : Z) (mp : XMember)
  (f : option XVal) : Prop :=
  is_shareable mp = false /\
  match f with
  | None => is_optional mp = true /\ load_ptr m (src + xm_offset mp) = Some 0
  | Some v => exists tp src', ty libs scope (xm_id mp) = Some tp /\ 0 < src' /\
      (if is_optional mp then load_ptr m (src + xm_offset mp) = Some src' else src' = src + xm_offset mp) /\
      forall p b, E tp v p = Some b -> 0 <= p -> good G tp p b src'
  end.

Lemma gen_members_param E G scope ms : forall fs pos bs src o q,
  enc_body_with libs swap E true scope ms fs pos = Some bs ->
  Forall2 (member_good E G scope src) ms fs ->
  (0 < q \/ exists v fs', fs = Some v :: fs') ->
  0 <= pos -> 0 < src -> near o q pos -> room o pos (zlen bs) ->
  exists o' q', gen_members libs m swap G ms scope true false o q src = Some (o', q') /\
    wrote o pos bs o' /\ near o q' (pos + zlen bs) /\ 0 < q'.
Proof.
  induction ms as [|mp ms IH]; intros fs pos bs src o q He HF Hq Hp Hs Hn Hr;
    inversion HF as [|? f ? fs' (Hsh & Hf) HF']; subst; cbn in He.
  { injection He as <-. destruct Hq as [Hq|(? & ? & ?)]; [|done]. exists o, q. cbn. rewrite zlen_nil, Z.add_0_r. by rewrite wrote_nil. }
  destruct f as [v|].
  - destruct Hf as (tp & src' & Et & Hs' & Hsrc & Hg). rewrite Et in He. cbn in He.
    set (start := ALIGN pos 4 + header_len mp) in *. destruct (E tp v start) as [body|] eqn:Eb; [|done]. cbn in He.
    set (stop := start + zlen body) in *. destruct (enc_header swap mp (ALIGN stop 4 - start)) as [h|] eqn:Eh; [|done]. cbn in He.
    set (b := pad pos 4 ++ h ++ body ++ pad stop 4) in *.
    destruct (enc_body_with _ _ _ _ _ ms fs' (pos + zlen b)) as [r|] eqn:Er; [|done]. cbn in He. injection He as <-.
    rewrite zlen_app in Hr. pose proof (header_len_pos mp). assert (H4 : al_ok 4) by al. pose proof (ALIGN_spec pos 4 H4) as [HA _].
    destruct (gen_member_param G scope mp tp o q pos h body src src') as (o1 & q1 & E1 & H1 & Hn1 & Hq1); try done.
    { apply Hg; [done|]. unfold start. lia. }
    { fold start stop b. eapply room_sub; [done|lia|zlen_lia]. }
    fold start stop b in H1, Hn1. cbn [gen_members]. rewrite E1. cbn [mbind option_bind]. destruct (Z.eqb_spec q1 0); [lia|].
    destruct (IH fs' _ _ src o1 q1 Er HF') as (o2 & q2 & E2 & H2 & Hn2 & Hq2); [by left|zlen_lia|done|by apply (near_wrote _ _ _ _ _ _ H1)| |].
    { eapply room_wrote; [exact H1|]. eapply room_sub; [done|zlen_lia|lia]. }
    exists o2, q2. split; [done|]. split; [by eapply wrote_app|]. split; [|done].
    rewrite zlen_app, Z.add_assoc. by apply (near_wrote _ _ _ _ _ _ H1).
  - destruct Hf as [Ho Hl]. rewrite Ho in He. destruct Hq as [Hq|(? & ? & ?)]; [|done].
    cbn [gen_members]. rewrite gen_member_absent by done. cbn [mbind option_bind]. destruct (Z.eqb_spec q 0); [lia|].
    apply IH with fs'; [done|done|by left|done|done|done|done].
Qed.

(** *** The encoding is not empty *)

Lemma eol_len pos : zlen (enc_eol swap pos) = ALIGN pos 4 - pos + 4.
Proof. unfold enc_eol. autorewrite with zlen. rewrite pad_len by al. lia. Qed.

Lemma enc_num_pos n tp d pos b : enc libs swap n tp (VNum d) pos = Some b -> 0 < zlen b.
Proof.
  intros (k & Hk & Hl & _ & ->)%enc_num_inv. apply num_al in Hk as [_ ?]. rewrite zlen_app, zlen_swapped.
  assert (zlen d = Z.of_nat k) by (unfold zlen; lia). zlen_lia.
Qed.

Lemma enc_pos n : forall tp v pos bs al, ok_type libs n al tp = true -> enc libs swap n tp v pos = Some bs -> 0 < zlen bs.
Proof.
  induction n as [|n IH]; [done|]. intros tp v pos bs al Hok He.
  assert (Hnum : forall d, v = VNum d -> 0 < zlen bs).
  { intros d ->. by apply enc_num_pos in He. }
  destruct tp as [k|b|b|sc base|sc sh et es bound|sc sh et es bound|bound|ext sc size ms|ext sc size keyed opt ms]; cbn in He, Hok;
    destruct v as [d|cs|fs|[d| | | |] v|vs]; try done; try (by eapply Hnum); try (by destruct ms).
  - destruct (ty libs sc et) as [etp|]; [|done]. cbn in He. destruct (array_nelems bound) as [n0|]; [|by destruct (negb sh)]. cbn in He.
    destruct (Z.eqb_spec (zlen vs) n0) as [<-|]; [|done]. assert (Hv : 0 < zlen vs) by zbool_lia.
    destruct vs as [|v vs]; [done|]. cbn in He. destruct (enc libs swap n etp v pos) as [b|] eqn:Eb; [|done]. cbn in He.
    destruct (enc_elems_with _ etp vs _) as [r|]; [|done]. cbn in He. injection He as <-.
    assert (0 < zlen b) by (eapply (IH etp v pos b (al && is_mutable etp)); [|done]; repeat (apply andb_true_iff in Hok as [? Hok]; try done); zbool; done).
    rewrite zlen_app. zlen_lia.
  - destruct (ty libs sc et) as [etp|]; [|done]. cbn in He. case_if C in He; [|done]. destruct (enc_elems_with _ etp vs _) as [r|]; [|done].
    cbn in He. injection He as <-. rewrite !zlen_app, zlen_swapped, zlen_le_bytes. zlen_lia.
  - case_if C in He; [|done]. injection He as <-. rewrite !zlen_app, zlen_swapped, zlen_le_bytes. zlen_lia.
  - destruct ms as [|mp ms]; [done|]. destruct (ty libs sc (xm_id (um_member mp))) as [dtp|]; [|by rewrite !andb_false_r in Hok]. cbn in He.
    destruct (enc libs swap n dtp (VNum d) pos) as [b1|] eqn:E1; [|done]. cbn in He.
    apply enc_num_pos in E1.
    destruct (find_label _ _ _) as [xmp|]; [|done]. cbn in He. destruct (ty libs sc (xm_id (um_member xmp))) as [vtp|]; [|done]. cbn in He.
    destruct (enc libs swap n vtp v _) as [b2|]; [|done]. cbn in He. case_if C in He; [|done]. injection He as <-. rewrite zlen_app. zlen_lia.
  - destruct (enc_body_with _ _ _ _ _ _ _ _) as [b|] eqn:Eb; [|done]. cbn in He. injection He as <-. rewrite zlen_app.
    destruct (bool_decide (ext = MUTABLE)) eqn:Em; [rewrite eol_len; pose proof (ALIGN_spec (pos + zlen b) 4 ltac:(al)); zlen_lia|].
    destruct ms as [|mp ms]; [by rewrite !andb_false_r in Hok|]. destruct fs as [|[v|] fs]; cbn in Eb; [done| |].
    + destruct (ty libs sc (xm_id mp)) as [tp|] eqn:Et; [|done]. cbn in Eb. destruct (enc libs swap n tp v pos) as [b1|] eqn:E1; [|done]. cbn in Eb.
      destruct (enc_body_with _ _ _ _ _ ms fs _) as [r|]; [|done]. cbn in Eb. injection Eb as <-. rewrite zlen_app.
      assert (0 < zlen b1); [|zlen_lia]. apply andb_true_iff in Hok as [_ Hok]. cbn [forallb] in Hok. rewrite Et in Hok.
      apply andb_true_iff in Hok as [[_ [Hok _]%andb_true_iff]%andb_true_iff _]. by eapply (IH tp v pos b1 false).
    + destruct (is_optional mp); [|done]. cbn in Hok. by rewrite !andb_false_r in Hok.
Qed.

(** *** Discriminators *)

Lemma swrap_64_32 z : ⟪⟪z⟫64⟫32 = ⟪z⟫32.
Proof. rewrite <- (swrap_wrap 32), <- (swrap_wrap 32 z). f_equal. unfold wrap, swrap. Z.div_mod_to_equations. lia. Qed.

Lemma union_label_ok n dtp d src :
  valid_discriminant dtp = true -> repr libs (S n) m src dtp (VNum d) ->
  exists l, cdr_union_label m dtp src = Some l /\ ⟪l⟫32 = writer_label dtp d.
Proof.
  intros Hv Hr. assert (Hm : num_size dtp = Some (length d) /\ at_mem m src d).
  { destruct dtp as [k|b|b|? ?|? ? ? ? ?|? ? ? ? ?|b|? ? ? ms|]; try done; by destruct k. }
  destruct Hm as [Hk Hm]. assert (Hl : forall k, length d = k -> load_num m src k = Some (le_val d)).
  { intros k <-. unfold load_num. unfold at_mem in Hm. by rewrite Hm. }
  destruct dtp as [k|b|b|? ?|? ? ? ? ?|? ? ? ? ?|b|? ? ? ms|]; try done.
  - destruct k; cbn in Hv; try done; cbn in Hk; injection Hk as Hk; cbn; rewrite Hl by done; cbn; eexists; (split; [done|]);
      rewrite ?swrap_swrap, ?swrap_64_32; done.
  - cbn in Hk. cbn. destruct (b <=? 8); [done|]. destruct (b <=? 16); injection Hk as Hk; rewrite Hl by done; by eexists.
Qed.

(** *** All types *)

Lemma gen_body_num G tp o pos src k kf :
  num_size tp = Some k ->
  gen_body libs m xmalloc_ok CF_CDR false swap G tp o pos src kf false = gen_num m false swap k (Z.of_nat k) o pos src kf.
Proof.
  intros Hk. destruct tp as [t|b|b|? ?|? ? ? ? ?|? ? ? ? ?|b|? ? ? ms|]; try done; cbn in Hk |- *;
    [destruct t; try done|destruct (b <=? 8) eqn:C8, (b <=? 16) eqn:C16; try done|destruct (b <=? 8), (b <=? 16), (b <=? 32)];
    by injection Hk as <-.
Qed.

Lemma repr_num n src tp d : repr libs (S n) m src tp (VNum d) -> num_size tp = Some (length d) /\ at_mem m src d.
Proof. destruct tp as [t|b|b|? ?|? ? ? ? ?|? ? ? ? ?|b|? ? ? [|? ?]|]; done. Qed.

(** The generator one level deeper is right. *)
Definition level (n : nat) (G : XType -> option Mem -> Z -> Z -> bool -> bool -> option (option Mem * Z)) : Prop :=
  forall tp v pos bs src al, ok_type libs n al tp = true -> repr libs n m src tp v -> enc libs swap n tp v pos = Some bs ->
    0 <= pos -> 0 < src -> good G tp pos bs src.

Lemma gen_struct_ok n G al ext sc size keyed opt ms fs pos bs src :
  level n G -> ok_type libs (S n) al (XStruct ext sc size keyed opt ms) = true ->
  repr libs (S n) m src (XStruct ext sc size keyed opt ms) (VStruct fs) ->
  enc libs swap (S n) (XStruct ext sc size keyed opt ms) (VStruct fs) pos = Some bs -> 0 <= pos -> 0 < src ->
  forall o, room o pos (zlen bs) ->
  exists o', cdr_generate_struct libs m xmalloc_ok false swap G ext sc keyed ms o pos src = Some (o', pos + zlen bs) /\ wrote o pos bs o'.
Proof.
  intros HG Hok Hr He Hp Hs o Hroom. apply ok_struct in Hok as (_ & Hlay & _ & (mp0 & ms0 & Hms & Ho0) & _ & HF).
  cbn [repr] in Hr. cbn [enc] in He. set (mutable := bool_decide (ext = MUTABLE)) in *.
  destruct (enc_body_with _ _ _ _ _ _ _ _) as [b|] eqn:Eb; [|done]. cbn in He. injection He as <-. rewrite zlen_app in *.
  assert (Hoff : Forall (fun mp => 0 <= xm_offset mp) ms).
  { clear -Hlay. induction ms as [|mp ms IH]; [constructor|]. cbn in Hlay. repeat (apply andb_true_iff in Hlay as [Hlay ?]).
    constructor; [zbool_lia|by apply IH]. }
  unfold cdr_generate_struct. fold mutable. destruct mutable eqn:Em; cbn [negb].
  - assert (HM : Forall2 (member_good (enc libs swap n) G sc src) ms fs).
    { eapply Forall2_impl; [exact (Forall2_with_l _ _ _ _ _ Hr HF Hoff)|]. cbn.
      intros mp f [(tp & Et & Hf) ((Hsh & _ & tp' & Et' & Hok' & _) & Hmo)]. rewrite Et in Et'. injection Et' as <-. split; [done|].
      destruct (is_optional mp) eqn:Eo.
      - destruct Hf as (p & Hl & Hf). destruct f as [v|]; [|by subst p]. destruct Hf as [Hp0 Hf]. exists tp, p.
        split_and!; try done. intros q b0 Hb0 Hq0. by eapply (HG tp v q b0 p true).
      - destruct f as [v|]; [|done]. exists tp, (src + xm_offset mp). split_and!; try done; [lia|].
        intros q b0 Hb0 Hq0. eapply (HG tp v q b0); try done. lia. }
    unfold cdr_generate_mutable_unordered. assert (Hfs : exists v fs', fs = Some v :: fs').
    { subst ms. inversion HM as [|? f ? fs' [_ Hf]]; subst. destruct f as [v|]; [by exists v, fs'|]. destruct Hf as [Hf _]. congruence. }
    rewrite eol_len in *. pose proof (ALIGN_spec (pos + zlen b) 4 ltac:(al)) as [HA _].
    destruct (gen_members_param _ G sc ms fs pos b src o pos Eb HM) as (o1 & q & -> & H1 & Hn & Hq);
      [by right|done|done|apply near_refl|eapply room_sub; [done|lia|zlen_lia]|].
    cbn [mbind option_bind]. destruct (Z.eqb_spec q 0); [lia|]. cbn [andb]. unfold cdr_generate_eol.
    assert (EA : exists o2, CDR_ALIGN true o1 q 4 = Some (o2, ALIGN (pos + zlen b) 4) /\ wrote o1 (pos + zlen b) (pad (pos + zlen b) 4) o2).
    { destruct o as [bb|]; cbn in Hn, H1; [destruct H1 as (b1 & -> & H1); subst q; apply CDR_ALIGN_ok; [al|]|].
      - eapply (room_wrote (Some bb)); [by exists b1|]. eapply room_sub; [done|zlen_lia|lia].
      - subst o1. exists None. unfold CDR_ALIGN. cbn. by rewrite Hn. }
    destruct EA as (o2 & -> & H2). cbn [mbind option_bind].
    destruct (put_wrote o2 (ALIGN (pos + zlen b) 4) (swapped swap (le_bytes 2 XT_PID_LIST_END) ++ [0; 0])) as (o3 & -> & H3).
    { eapply room_wrote; [exact H2|]. eapply room_wrote; [exact H1|]. eapply room_sub; [done|zlen_lia|autorewrite with zlen; lia]. }
    cbn. exists o3. split; [do 2 f_equal; lia|]. eapply wrote_app; [exact H1|]. unfold enc_eol. eapply wrote_app; [exact H2|].
    rewrite pad_len by al. by replace (pos + zlen b + _) with (ALIGN (pos + zlen b) 4) by lia.
  - unfold cdr_generate_struct_cdr. rewrite app_nil_r. rewrite zlen_nil, Z.add_0_r in *.
    assert (Hfil : filter (fun mp => use_member false keyed mp = true) ms = ms).
    { clear. induction ms as [|mp ms IH]; [done|]. rewrite filter_cons_True by done. by rewrite IH. }
    rewrite Hfil. apply (gen_members_plain (enc libs swap n) G sc ms (negb keyed) fs); [done| |done|done|done].
    eapply Forall2_impl; [exact (Forall2_with_l _ _ _ _ _ Hr HF Hoff)|]. cbn.
    intros mp f [(tp & Et & Hf) ((Hsh & Ho & tp' & Et' & Hok' & _) & Hmo)]. rewrite Et in Et'. injection Et' as <-.
    destruct (is_optional mp) eqn:Eo; [by destruct (Ho eq_refl)|]. split_and!; [done|done|].
    intros tp1 v p b0 -> Et1 Hb0 Hp0. rewrite Et in Et1. injection Et1 as <-. split; [|by eapply enc_pos].
    eapply (HG tp v p b0); try done. lia.
Qed.

Lemma find_label_in l x : forall ms def, find_label l def ms = Some x -> x ∈ ms \/ def = Some x.
Proof.
  induction ms as [|mp ms IH]; intros def; cbn; [by right|]. case_if C; [intros H; destruct (IH _ H) as [?|[= ->]]; left; by constructor|].
  case_if C2; [intros [= ->]; left; constructor|]. intros H. destruct (IH _ H) as [?|?]; [left; by constructor|by right].
Qed.

Lemma gen_union_ok n G al ext sc size mps d v pos bs src :
  level n G -> ok_type libs (S n) al (XUnion ext sc size mps) = true ->
  repr libs (S n) m src (XUnion ext sc size mps) (VUnion (VNum d) v) ->
  enc libs swap (S n) (XUnion ext sc size mps) (VUnion (VNum d) v) pos = Some bs -> 0 <= pos -> 0 < src ->
  forall o, room o pos (zlen bs) ->
  exists o', cdr_generate_union libs m false swap G ext sc mps o pos src = Some (o', pos + zlen bs) /\ wrote o pos bs o'.
Proof.
  intros HG Hok Hr He Hp Hs o Hroom.
  apply ok_union in Hok as (mp & ms & dtp & -> & Hext & _ & _ & _ & Hoff & Ho & Hsh & Et & Hv & Hokd & _ & HF).
  cbn [repr] in Hr. destruct Hr as (dtp' & xmp & vtp & Et' & Hrd & Hfl & Etv & Hrv). rewrite Et in Et'. injection Et' as <-.
  cbn [enc] in He. rewrite Et in He. cbn in He. destruct (enc libs swap n dtp (VNum d) pos) as [b1|] eqn:E1; [|done]. cbn in He.
  rewrite Hfl in He. cbn in He. rewrite Etv in He. cbn in He. destruct (enc libs swap n vtp v (pos + zlen b1)) as [b2|] eqn:E2; [|done].
  cbn in He. case_if C in He; [|done]. injection He as <-. rewrite zlen_app in *.
  destruct (find_label_in _ _ _ _ Hfl) as [Hin|]; [|done].
  rewrite Forall_forall in HF. destruct (HF xmp Hin) as (Hox & Hshx & _ & Hxoff & vtp' & Etv' & Hokv & _). rewrite Etv in Etv'. injection Etv' as <-.
  pose proof (nsize_nonneg libs n _ _ Hokd) as Hns. pose proof (enc_num_pos _ _ _ _ _ E1) as Hb1.
  destruct n as [|n]; [done|]. destruct (union_label_ok n dtp d src Hv Hrd) as (l & Hl & Hlab).
  unfold cdr_generate_union. destruct (Z.eqb_spec src 0); [lia|]. cbn [andb orb].
  unfold ty in Et. destruct (real_type_ptr libs sc (xm_id (um_member mp))) as [[?|]|] eqn:Er; try done. cbn in Et. injection Et as ->.
  cbn [mbind option_bind]. rewrite Hl. cbn [mbind option_bind]. rewrite Hlab, Hext. cbn [andb].
  destruct (gen_member_plain G sc (um_member mp) dtp false o pos b1 src) as (o1 & -> & H1); try done;
    [by unfold ty; rewrite Er|rewrite Hoff, Z.add_0_r; by eapply HG|eapply room_sub; [done|lia|zlen_lia]|].
  cbn [mbind option_bind]. destruct (Z.eqb_spec (pos + zlen b1) 0); [lia|]. rewrite Hfl.
  pose proof (enc_pos _ _ _ _ _ _ Hokv E2) as Hb2.
  destruct (gen_member_plain G sc (um_member xmp) vtp false o1 (pos + zlen b1) b2 src) as (o2 & -> & H2); try done;
    [eapply HG; try done; lia|lia|eapply room_wrote; [exact H1|]; eapply room_sub; [done|lia|lia]|].
  cbn [mbind option_bind]. destruct (Z.eqb_spec (pos + zlen b1 + zlen b2) 0); [lia|].
  exists o2. split; [do 2 f_equal; lia|]. by eapply wrote_app.
Qed.

Lemma gen_array_ok n G al sc sh et esize bound vs pos bs src kf :
  level n G -> ok_type libs (S n) al (XArray sc sh et esize bound) = true ->
  repr libs (S n) m src (XArray sc sh et esize bound) (VElems vs) ->
  enc libs swap (S n) (XArray sc sh et esize bound) (VElems vs) pos = Some bs -> 0 <= pos -> 0 < src ->
  forall o, room o pos (zlen bs) ->
  exists o', cdr_generate_array libs false G sc sh et esize bound o pos src kf = Some (o', pos + zlen bs) /\ wrote o pos bs o'.
Proof.
  intros HG Hok Hr He Hp Hs o Hroom. apply ok_array in Hok as (etp & k & -> & Et & Hk & Hk0 & Hes & _ & _ & _ & Hoke).
  cbn [repr] in Hr. destruct Hr as (etp' & Et' & Hr). rewrite Et in Et'. injection Et' as <-.
  cbn [enc] in He. rewrite Et, Hk in He. cbn in He. destruct (Z.eqb_spec (zlen vs) k) as [Hvk|]; [|done].
  pose proof (nsize_nonneg libs n _ _ Hoke) as Hns. unfold cdr_generate_array. cbn [andb]. rewrite Hk. cbn [mbind option_bind].
  unfold ty in Et. destruct (real_type_ptr libs sc et) as [[?|]|]; try done. cbn in Et. injection Et as ->. cbn [mbind option_bind].
  replace (Z.to_nat k) with (length vs) by (unfold zlen in Hvk; lia).
  apply (gen_elems_ok (enc libs swap n) G etp esize vs pos bs src); try done; [lia|].
  intros i v p b Hi Hb Hp0. split; [|by eapply enc_pos]. eapply HG; try done; [by apply Hr|]. nia.
Qed.

Lemma gen_seq_ok n G al sc sh et esize bound vs pos bs src kf :
  level n G -> ok_type libs (S n) al (XSequence sc sh et esize bound) = true ->
  repr libs (S n) m src (XSequence sc sh et esize bound) (VElems vs) ->
  enc libs swap (S n) (XSequence sc sh et esize bound) (VElems vs) pos = Some bs -> 0 <= pos -> 0 < src ->
  forall o, room o pos (zlen bs) ->
  exists o', cdr_generate_seqmap libs m false swap G sc sh et esize o pos src kf = Some (o', pos + zlen bs) /\ wrote o pos bs o'.
Proof.
  intros HG Hok Hr He Hp Hs o Hroom. apply ok_seq in Hok as (etp & -> & _ & Et & Hes & _ & Hoke).
  cbn [repr] in Hr. destruct Hr as (etp' & p & Et' & Hlen & Hptr & Hp0 & Hr). rewrite Et in Et'. injection Et' as <-.
  cbn [enc] in He. rewrite Et in He. cbn in He. case_if C in He; [|done].
  destruct (enc_elems_with _ etp vs _) as [r|] eqn:Er; [|done]. cbn in He. injection He as <-.
  pose proof (nsize_nonneg libs n _ _ Hoke) as Hns. assert (H4 : al_ok 4) by al. pose proof (ALIGN_spec pos 4 H4) as [HA _].
  rewrite !zlen_app, zlen_swapped, zlen_le_bytes, pad_len in * by done.
  unfold cdr_generate_seqmap. unfold ty in Et. destruct (real_type_ptr libs sc et) as [[?|]|]; try done. cbn in Et. injection Et as ->.
  cbn [mbind option_bind]. destruct (Z.eqb_spec src 0); [lia|]. cbn [negb]. rewrite Hlen. cbn [mbind option_bind]. rewrite Hptr.
  cbn [mbind option_bind andb]. destruct (CDR_ALIGN_ok o pos 4 H4) as (o1 & -> & H1); [eapply room_sub; [done|lia|zlen_lia]|]. cbn [mbind option_bind].
  destruct (put_wrote o1 (ALIGN pos 4) (swapped swap (le_bytes 4 (zlen vs)))) as (o2 & -> & H2).
  { eapply room_wrote; [exact H1|]. autorewrite with zlen. eapply room_sub; [done|lia|zlen_lia]. }
  cbn [mbind option_bind]. replace (Z.to_nat (zlen vs)) with (length vs) by (unfold zlen; lia).
  assert (Hroom2 : room o2 (ALIGN pos 4 + 4) (zlen r)).
  { eapply room_wrote; [exact H2|]. eapply room_wrote; [exact H1|]. eapply room_sub; [done|lia|lia]. }
  assert (EL : exists o3, gen_elems G (length vs) etp false esize o2 (ALIGN pos 4 + 4) p kf = Some (o3, ALIGN pos 4 + 4 + zlen r) /\
    wrote o2 (ALIGN pos 4 + 4) r o3).
  { destruct vs as [|v0 vs0]; [cbn in Er; injection Er as <-; exists o2; cbn; rewrite zlen_nil, Z.add_0_r; by rewrite wrote_nil|].
    specialize (Hp0 ltac:(done)). apply (gen_elems_ok (enc libs swap n) G etp esize); try done; [lia|lia|].
    intros i v q b Hi Hb Hq0. split; [|by eapply enc_pos]. eapply HG; try done; [by apply Hr|]. nia. }
  destruct EL as (o3 & -> & H3). exists o3. split; [do 2 f_equal; lia|]. eapply wrote_app; [exact H1|]. rewrite pad_len by done.
  replace (pos + (ALIGN pos 4 - pos)) with (ALIGN pos 4) by lia. eapply wrote_app; [exact H2|]. by autorewrite with zlen.
Qed.

Lemma gen_ok n : level n (cdr_generate n libs m xmalloc_ok CF_CDR false swap).
Proof.
  induction n as [|n IH]; [done|]. intros tp v pos bs src al Hok Hr He Hp Hs o kf Hroom. cbn [cdr_generate].
  set (G := cdr_generate n libs m xmalloc_ok CF_CDR false swap) in *.
  assert (Hnum : forall d, v = VNum d -> exists o', gen_body libs m xmalloc_ok CF_CDR false swap G tp o pos src kf false =
    Some (o', pos + zlen bs) /\ wrote o pos bs o').
  { intros d ->. pose proof He as He'. apply enc_num_inv in He' as (k & Hk & Hl & _ & ->). apply repr_num in Hr as [_ Hm].
    rewrite (gen_body_num _ _ _ _ _ _ _ Hk). apply gen_num_ok; [done|done|by apply num_al in Hk as [? _]|done]. }
  destruct tp as [k|b|b|sc base|sc sh et es bound|sc sh et es bound|bound|ext sc size ms|ext sc size keyed opt ms];
    destruct v as [d|cs|fs|[d| | | |] v|vs]; try (by apply (Hnum _ eq_refl)); try done; try (by destruct ms).
  - by eapply gen_array_ok.
  - by eapply gen_seq_ok.
  - assert (Hb : 0 <= bound) by (cbn in Hok; zbool_lia). cbn in He. case_if C in He; [|done]. injection He as <-.
    cbn [gen_body mbind option_bind]. by eapply gen_string_ok.
  - by eapply gen_union_ok.
  - by eapply gen_struct_ok.
Qed.

End Gen.
