(* ===== verification/XcdrRead.v ===== *)
(** Unmarshalling the encoding of a value gives memory that holds the value,
    and the length computed beforehand is the space that this takes. *)

From stdpp Require Import gmap.
From S2P Require Import Prelude TypeData Mem Xcdr XcdrParse XcdrSpec XcdrGen.
From stdpp Require Import list.

#[local] Open Scope Z_scope.
#[local] Arguments le_bytes : simpl never.
#[local] Arguments ALIGN : simpl never.
#[local] Arguments swapped : simpl never.
#[local] Arguments load : simpl never.
#[local] Arguments store : simpl never.

(** ** Space *)

Lemma field_ofs_fst libs n al tp ofs : ok_type libs n al tp = true -> ofs <= (cdr_field_ofs tp ofs).1.
Proof.
  intros H. assert (HA : forall k, al_ok k -> ofs <= ALIGN ofs k) by (intros k Hk; by apply ALIGN_spec).
  destruct n as [|n]; [done|]. destruct tp as [k|b|b|? ?|? ? ? es ?|? ? ? ? ?|b|? ? ? ms|]; try (destruct k; try done); cbn in H |- *;
    repeat case_match; try done; cbn; try (apply HA; al); lia.
Qed.

Lemma field_ofs_snd libs n al tp ofs :
  ok_type libs n al tp = true -> is_string tp = false -> (cdr_field_ofs tp ofs).2 = nsize tp.
Proof.
  intros H Hs. destruct n as [|n]; [done|]. destruct tp as [k|b|b|? ?|sc sh et es bd|? ? ? ? ?|b|? ? ? ms|]; try done.
  - by destruct k.
  - cbn in H. unfold cdr_field_ofs, nsize, num_size. by destruct (b <=? 8), (b <=? 16).
  - unfold cdr_field_ofs, nsize, num_size. by destruct (b <=? 8), (b <=? 16), (b <=? 32).
  - apply ok_array in H as (etp & k & _ & _ & Hk & _ & _ & Hf & _). cbn. by rewrite Hk, Hf.
Qed.

Section Aux.
  Context (libs : XLibs).

Lemma aux_mono n : forall tp v ofs al, ok_type libs n al tp = true -> ofs <= aux_end libs n tp v ofs.
Proof.
  induction n as [|n IH]; [done|]. intros tp v ofs al Hok.
  assert (HE : forall etp al' vs o, ok_type libs n al' etp = true -> o <= foldl (fun o v => aux_end libs n etp v o) o vs).
  { intros etp al' vs. induction vs as [|v' vs IHv]; intros o He; cbn; [lia|]. pose proof (IH etp v' o al' He). specialize (IHv (aux_end libs n etp v' o) He). lia. }
  destruct tp as [k|b|b|sc base|sc sh et es bound|sc sh et es bound|bound|ext sc size ms|ext sc size keyed opt ms];
    destruct v as [d|cs|fs|[d| | | |] v|vs]; try (cbn [aux_end]; lia); try (destruct ms; cbn [aux_end]; lia).
  - apply ok_array in Hok as (etp & k & _ & Et & _ & _ & _ & _ & _ & _ & He). cbn [aux_end]. rewrite Et. by eapply HE.
  - apply ok_seq in Hok as (etp & _ & _ & Et & Hes & _ & He). cbn [aux_end]. rewrite Et. pose proof (nsize_nonneg libs n _ _ He).
    pose proof (field_ofs_fst libs n _ etp ofs He). etransitivity; [|by eapply HE]. pose proof (zlen_nonneg vs). nia.
  - cbn [aux_end]. case_if C; zlen_lia.
  - apply ok_union in Hok as (mp & ms' & dtp & -> & _ & _ & _ & _ & _ & _ & _ & Et & _ & _ & _ & HF). cbn [aux_end]. rewrite Et.
    destruct (find_label _ _ _) as [xmp|] eqn:Ef; [|lia]. destruct (find_label_in _ _ _ _ Ef) as [Hin|]; [|done].
    rewrite Forall_forall in HF. destruct (HF xmp Hin) as (_ & _ & _ & _ & vtp & Ev & Hv & _). rewrite Ev. by eapply IH.
  - apply ok_struct in Hok as (_ & _ & _ & _ & _ & HF). cbn [aux_end]. revert fs ofs.
    induction HF as [|mp ms (_ & _ & tp & Et & Ht & Hns) HF IHm]; intros fs ofs; [cbn; lia|]. destruct fs as [|f fs]; [cbn; lia|].
    cbn [aux_members_with]. etransitivity; [|apply IHm]. destruct f as [v|]; [|lia]. rewrite Et.
    etransitivity; [|by eapply IH]. destruct (is_optional mp) eqn:Eo; [|lia].
    pose proof (field_ofs_fst libs n _ tp ofs Ht). pose proof (field_ofs_snd libs n _ tp ofs Ht (Hns eq_refl)) as H2.
    pose proof (nsize_nonneg libs n _ _ Ht). destruct (cdr_field_ofs tp ofs) as [o esz]. cbn in *. lia.
Qed.

End Aux.

(** Decisions between constructors, and the monad, compute. *)
Ltac run := cbn;
  repeat match goal with
  | |- context [bool_decide (?a = ?b)] =>
      let x := eval vm_compute in (bool_decide (a = b)) in
      lazymatch x with true => idtac | false => idtac end; change (bool_decide (a = b)) with x; cbn
  end.

(** ** Areas of memory *)

(** The area of a value and the space behind the structure that it uses. *)
Definition area (d n a e : Z) (i : Z) : Prop := d <= i < d + n \/ a <= i < e.

Lemma load_ptr_val m a v : at_mem m a (le_bytes 8 v) -> 0 <= v < 2 ^ 64 -> load_ptr m a = Some v.
Proof.
  unfold at_mem. rewrite length_le_bytes. intros H Hv. unfold load_ptr, load_num. rewrite H. cbn [fmap option_fmap option_map].
  rewrite le_val_bytes. f_equal. apply wrap_small. unfold in_u. lia.
Qed.

Lemma store_at m a bs m' : store m a bs = Some m' -> at_mem m' a bs.
Proof. apply store_load. Qed.

(** ** Reading into a native structure *)

Section Native.
  Context (libs : XLibs) (src : Mem) (xmalloc_ok swap : bool) (aux : Z).

Definition nip : ParseInfo := mkPI PA_GetNative CF_CDR CF_Native aux 0 swap swap false.

Lemma put_dst_ok i bs s :
  allocated (ps_mem s) (dst s + dofs s + i) (zlen bs) ->
  exists m', put_dst i bs s = Some (set_mem m' s) /\ store (ps_mem s) (dst s + dofs s + i) bs = Some m'.
Proof. intros H. destruct (store_ok _ _ _ H) as [m' E]. exists m'. unfold put_dst. by rewrite E. Qed.

Lemma at_mem_pad m pos al bs : al_ok al -> at_mem m pos (pad pos al ++ bs) -> at_mem m (ALIGN pos al) bs.
Proof. intros Hal [_ H]%at_mem_app. rewrite pad_len in H by done. by replace (pos + (ALIGN pos al - pos)) with (ALIGN pos al) in H by lia. Qed.

Lemma at_mem_load m a bs k : at_mem m a bs -> length bs = k -> load m a k = Some bs.
Proof. by intros H <-. Qed.

(** A number, which is a discriminator when [l] is not [None]. *)
Lemma get_num_ok bs k value l key pos s :
  at_mem src pos (pad pos (Z.of_nat k) ++ swapped swap bs) -> length bs = k -> al_ok (Z.of_nat k) ->
  want_label s = (match l with Some _ => true | None => false end) ->
  (forall x, l = Some x -> value (le_val bs) = Some x) ->
  allocated (ps_mem s) (dst s + dofs s) (zlen bs) ->
  exists m', get_num src nip k value key pos s =
      Some (pos + zlen (pad pos (Z.of_nat k) ++ swapped swap bs),
            set_mem m' (match l with Some x => set_label false (Some x) s | None => s end)) /\
    store (ps_mem s) (dst s + dofs s) bs = Some m'.
Proof.
  intros Hm Hk Hal Hw Hv Ha. apply at_mem_pad in Hm; [|done]. pose proof (at_mem_load _ _ _ k Hm) as Hload.
  rewrite length_swapped in Hload. specialize (Hload Hk). rewrite zlen_app, pad_len, zlen_swapped by done.
  destruct (put_dst_ok 0 bs s) as (m' & E1 & E2); [by rewrite Z.add_0_r|]. rewrite Z.add_0_r in E2. exists m'. split; [|done].
  unfold get_num, in_cdr, wanted, copy_num. run. rewrite Hload. run. rewrite swapped_swapped, E1. run.
  assert (Ez : pos + (ALIGN pos (Z.of_nat k) - pos + zlen bs) = ALIGN pos (Z.of_nat k) + Z.of_nat k) by (unfold zlen; lia).
  destruct l as [x|]; rewrite Hw.
  - rewrite (Hv x eq_refl). unfold take_label. run. rewrite Hw, Ez. done.
  - run. by rewrite Ez.
Qed.

Definition num_value (tp : XType) : Z -> option Z :=
  match tp with
  | XPrim DDS_INT_16_TYPE => fun v => Some ⟪v⟫16
  | XPrim (DDS_CHAR_32_TYPE | DDS_INT_32_TYPE) => fun v => Some ⟪v⟫32
  | XPrim (DDS_FLOAT_32_TYPE | DDS_FLOAT_64_TYPE) => fun _ => None
  | XPrim (DDS_INT_64_TYPE | DDS_UINT_64_TYPE) => fun v => Some ⟪v⟫64
  | XEnum b => if b <=? 16 then Some else fun v => Some ⟪v⟫32
  | XBitSet b => if b <=? 16 then Some else if b <=? 32 then fun v => Some ⟪v⟫32 else fun v => Some ⟪v⟫64
  | _ => Some
  end.

Lemma parse_body_num ip P pf tp k key pos s :
  num_size tp = Some k -> parse_body libs src xmalloc_ok ip P pf tp key pos s = get_num src ip k (num_value tp) key pos s.
Proof.
  intros Hk. destruct tp as [t|b|b|? ?|? ? ? ? ?|? ? ? ? ?|b|? ? ? ms|]; try done; cbn in Hk |- *;
    [destruct t; try done|destruct (b <=? 8) eqn:C8; [done|]; destruct (b <=? 16) eqn:C16; try done
    |destruct (b <=? 8) eqn:C8, (b <=? 16) eqn:C16, (b <=? 32) eqn:C32; try (exfalso; zbool_lia)];
    by injection Hk as <-.
Qed.

Lemma num_value_label tp d : valid_discriminant tp = true -> num_value tp (le_val d) = Some (reader_label tp d).
Proof. destruct tp as [t|b|b|? ?|? ? ? ? ?|? ? ? ? ?|b|? ? ? ms|]; try done; cbn; [by destruct t|by case_if C]. Qed.
(** What a reader of values needs, and what it does. *)
Definition read_pre (n : nat) (tp : XType) (v : XVal) (s : PState) : Prop :=
  let d := dst s + dofs s in let e := aux_end libs n tp v (aux_ofs s) in
  0 <= aux_ofs s /\ want_label s = false /\ 0 < d /\ d + nsize tp <= aux + aux_ofs s /\ 0 < aux /\ aux + e < 2 ^ 64 /\
  allocated (ps_mem s) d (nsize tp) /\ allocated (ps_mem s) (aux + aux_ofs s) (e - aux_ofs s).

Definition read_post (n : nat) (tp : XType) (v : XVal) (s s' : PState) : Prop :=
  let d := dst s + dofs s in let e := aux_end libs n tp v (aux_ofs s) in
  let A := area d (nsize tp) (aux + aux_ofs s) (aux + e) in
  aux_ofs s' = e /\ want_label s' = false /\ (is_seq tp = false -> dst s' = dst s) /\ within A (ps_mem s) (ps_mem s') /\
  (forall m, agrees A (ps_mem s') m -> repr libs n m d tp v).

Definition reads (n : nat) (P : XType -> bool -> Z -> PState -> option (Z * PState)) : Prop :=
  forall tp v pos bs al key s, ok_type libs n al tp = true -> enc libs swap n tp v pos = Some bs ->
    (al = true -> pos mod 4 = 0) -> 0 <= pos -> pos + zlen bs < 2 ^ 32 -> at_mem src pos bs -> read_pre n tp v s ->
    exists s', P tp key pos s = Some (pos + zlen bs, s') /\ read_post n tp v s s'.

(** *** Strings *)

Lemma at_mem_agree (P : Z -> Prop) m m' a bs :
  at_mem m a bs -> agrees P m m' -> (forall i, a <= i < a + zlen bs -> P i) -> at_mem m' a bs.
Proof. unfold at_mem. intros H HA HP. rewrite <- H. by eapply agrees_load. Qed.

Lemma load_len_field pos cs rest :
  at_mem src pos (pad pos 4 ++ swapped swap (le_bytes 4 (zlen cs + 1)) ++ cs ++ rest) -> zlen cs < 2 ^ 32 - 1 ->
  exists lb, load src (ALIGN pos 4) 4 = Some lb /\ le_val (swapped swap lb) = zlen cs + 1 /\
    at_mem src (ALIGN pos 4 + 4) (cs ++ rest).
Proof.
  intros H Hl. apply at_mem_pad in H; [|al]. apply at_mem_app in H as [H1 H2]. rewrite zlen_swapped, zlen_le_bytes in H2.
  exists (swapped swap (le_bytes 4 (zlen cs + 1))). split; [apply at_mem_load; [done|by rewrite length_swapped, length_le_bytes]|].
  split; [|done]. rewrite swapped_swapped, le_val_bytes. apply wrap_small. split; [zlen_lia|]. cbn. lia.
Qed.

Lemma read_unbounded n cs pos bs key s :
  enc libs swap (S n) (XString 0) (VStr cs) pos = Some bs -> at_mem src pos bs -> read_pre (S n) (XString 0) (VStr cs) s ->
  exists s', cdr_parse_string src nip 0 key pos s = Some (pos + zlen bs, s') /\ read_post (S n) (XString 0) (VStr cs) s s'.
Proof.
  intros He Hm (Ha & Hw & Hd & Hda & Haux & Hb & Al1 & Al2). cbn in He. case_if C in He; [|done]. injection He as <-.
  apply str_ok_inv in C as (_ & Hl & _). unfold read_post. cbn [aux_end nsize] in *. change (0 =? 0) with true in *. cbv iota in *. pose proof (ALIGN_spec pos 4 ltac:(al)) as [HA _].
  destruct (load_len_field pos cs [0] Hm Hl) as (lb & Elb & Hlb & Hcs). pose proof (at_mem_load _ _ _ _ Hcs eq_refl) as Lcs.
  pose proof (zlen_nonneg cs) as Hcn.
  assert (H0 : zlen [0] = 1) by done. rewrite !zlen_app, zlen_swapped, zlen_le_bytes, H0, pad_len by al.
  set (d := dst s + dofs s) in *. set (p := aux + aux_ofs s) in *.
  assert (Hz : zlen (cs ++ [0]) = zlen cs + 1) by (by rewrite zlen_app).
  destruct (store_ok (ps_mem s) p (cs ++ [0])) as [m1 E1]; [eapply allocated_sub; [exact Al2|lia|lia]|].
  destruct (store_ok m1 d (le_bytes 8 p)) as [m2 E2]; [rewrite zlen_le_bytes; eapply stored_allocated; [exact E1|exact Al1]|].
  eexists. split; [|split_and!].
  - unfold cdr_parse_string, in_cdr. run. rewrite Elb. run. rewrite Hlb. unfold copy_unbounded. run.
    destruct (Z.eqb_spec (zlen cs + 1) 0); [zlen_lia|]. cbn [negb].
    replace (Z.to_nat (zlen cs + 1)) with (length (cs ++ [0])) by (rewrite <- Hz; unfold zlen; lia).
    rewrite Lcs. run. fold p. rewrite E1. run. unfold put_dst. run. fold d. rewrite Z.add_0_r, E2. run.
    do 2 f_equal. lia.
  - run. lia.
  - done.
  - done.
  - run. eapply within_trans; [exact (within_store _ _ _ _ E1)|exact (within_store _ _ _ _ E2)| |]; intros i Hi; unfold area.
    + right. rewrite Hz in Hi. lia.
    + left. rewrite zlen_le_bytes in Hi. lia.
  - run. intros m HA'. exists p. split.
    + apply load_ptr_val; [|unfold p; lia]. eapply at_mem_agree; [exact (store_at _ _ _ _ E2)|exact HA'|]. rewrite zlen_le_bytes. intros i Hi. left. lia.
    + right. split; [unfold p; lia|]. eapply at_mem_agree; [|exact HA'|intros i Hi; right; rewrite Hz in Hi; lia].
      eapply at_mem_agree; [exact (store_at _ _ _ _ E1)| |intros i Hi; exact Hi]. intros i Hi.
      apply (store_out _ _ _ _ E2). rewrite zlen_le_bytes. rewrite Hz in Hi. lia.
Qed.

Lemma read_bounded n bound cs pos bs key s :
  0 < bound < 2 ^ 32 - 2 ->
  enc libs swap (S n) (XString bound) (VStr cs) pos = Some bs -> at_mem src pos bs -> read_pre (S n) (XString bound) (VStr cs) s ->
  exists s', cdr_parse_string src nip bound key pos s = Some (pos + zlen bs, s') /\ read_post (S n) (XString bound) (VStr cs) s s'.
Proof.
  intros Hbd He Hm (Ha & Hw & Hd & Hda & Haux & Hb & Al1 & Al2). cbn in He. case_if C in He; [|done]. injection He as <-.
  apply str_ok_inv in C as (_ & Hl & Hlb'). destruct Hlb' as [|Hlb']; [lia|]. pose proof (ALIGN_spec pos 4 ltac:(al)) as [HA _].
  unfold read_post. cbn [aux_end nsize] in *. destruct (Z.eqb_spec bound 0) as [|Hb0]; [lia|].
  destruct (load_len_field pos cs [0] Hm Hl) as (lb & Elb & Hlb & Hcs).
  apply at_mem_app in Hcs as [Hcs _]. pose proof (at_mem_load _ _ _ _ Hcs eq_refl) as Lcs.
  assert (H0 : zlen [0] = 1) by done. rewrite !zlen_app, zlen_swapped, zlen_le_bytes, H0, pad_len by al. pose proof (zlen_nonneg cs) as Hcn.
  set (d := dst s + dofs s) in *. set (z := replicate (Z.to_nat (bound + 1 - zlen cs)) 0).
  assert (Hz : zlen z = bound + 1 - zlen cs) by (unfold z; rewrite zlen_replicate; lia).
  destruct (store_ok (ps_mem s) d cs) as [m1 E1]; [eapply allocated_sub; [exact Al1|lia|lia]|].
  destruct (store_ok m1 (d + zlen cs) z) as [m2 E2]; [eapply stored_allocated; [exact E1|]; eapply allocated_sub; [exact Al1|lia|lia]|].
  exists (set_mem m2 s). split; [|split_and!].
  - unfold cdr_parse_string, in_cdr. run. rewrite Elb. run. rewrite Hlb.
    assert (Ecb : copy_bounded src nip bound (zlen cs + 1) (ALIGN pos 4 + 4) s = Some (Some (ALIGN pos 4 + 4, set_mem m2 s))).
    { unfold copy_bounded. run. rewrite (wrap_small 32 (bound + 1)) by (split; lia). destruct (Z.ltb_spec (bound + 1) (zlen cs + 1)); [lia|].
      destruct (Z.leb_spec (zlen cs + 1) (bound + 1)); [|lia]. rewrite wrap_small by (split; lia).
      replace (bound + 2 - (zlen cs + 1)) with (bound + 1 - zlen cs) by lia. fold z.
      replace (zlen cs + 1 - 1) with (zlen cs) by lia. assert (Ep : (if 1 <? zlen cs + 1 then bs ← load src (ALIGN pos 4 + 4) (Z.to_nat (zlen cs));
        put_dst 0 bs s else Some s) = Some (set_mem m1 s)).
      { destruct (Z.ltb_spec 1 (zlen cs + 1)) as [|Hlt].
        - replace (Z.to_nat (zlen cs)) with (length cs) by (unfold zlen; lia). rewrite Lcs. run. unfold put_dst. fold d. by rewrite Z.add_0_r, E1.
        - destruct cs; [cbn in E1; injection E1 as <-; by destruct s|exfalso; rewrite zlen_cons in Hlt; zlen_lia]. }
      rewrite Ep. run. unfold put_dst. run. fold d. by rewrite E2. }
    destruct (Z.eqb_spec bound 0) as [|_]; [lia|]. run. rewrite Ecb. run. do 2 f_equal. lia.
  - done.
  - done.
  - done.
  - run. eapply within_trans; [exact (within_store _ _ _ _ E1)|exact (within_store _ _ _ _ E2)| |]; intros i Hi; left; cbn beta in Hi; lia.
  - intros m HA'. cbn [repr]. destruct (Z.eqb_spec bound 0) as [|_]; [lia|]. cbn [ps_mem set_mem] in HA'. split.
    + eapply at_mem_agree; [|exact HA'|intros i Hi; left; lia].
      eapply at_mem_agree; [exact (store_at _ _ _ _ E1)| |intros i Hi; exact Hi]. intros i Hi. apply (store_out _ _ _ _ E2). lia.
    + intros Hlt. rewrite (HA' (d + zlen cs)) by (left; lia). 
      pose proof (store_in _ _ _ _ 0%nat E2 ltac:(unfold z; rewrite length_replicate; lia)) as Hin.
      rewrite Z.add_0_r in Hin. rewrite Hin. unfold z. apply lookup_replicate_2. lia.
Qed.

(** *** Members *)

(** The memory [m] has the member at the address [a] of its structure. *)
Definition member_repr (n : nat) (m : Mem) (a scope : Z) (mp : XMember) (f : option XVal) : Prop :=
  exists tp, ty libs scope (xm_id mp) = Some tp /\
    if is_optional mp then
      exists p, load_ptr m (a + xm_offset mp) = Some p /\
        match f with None => p = 0 | Some v => 0 < p /\ repr libs n m p tp v end
    else match f with None => False | Some v => repr libs n m (a + xm_offset mp) tp v end.

(** The end of the space that one member uses. *)
Definition member_end (n : nat) (scope : Z) (mp : XMember) (f : option XVal) (ofs : Z) : Z :=
  match f, ty libs scope (xm_id mp) with
  | Some v, Some tp =>
      aux_end libs n tp v (if is_optional mp then let '(o, esize) := cdr_field_ofs tp ofs in o + esize else ofs)
  | _, _ => ofs
  end.

Lemma aux_members_cons n scope mp ms f fs ofs :
  aux_members_with libs (aux_end libs n) scope (mp :: ms) (f :: fs) ofs =
  aux_members_with libs (aux_end libs n) scope ms fs (member_end n scope mp f ofs).
Proof. done. Qed.

Definition member_ok (n : nat) (mutable : bool) (scope : Z) (mp : XMember) (tp : XType) : Prop :=
  is_shareable mp = false /\ ty libs scope (xm_id mp) = Some tp /\ ok_type libs n mutable tp = true /\
  (is_optional mp = true -> is_string tp = false) /\ 0 <= xm_offset mp.

(** The state of the reader is fit to write the member, with [e] the end of the
    space used. *)
Definition space (s : PState) (a k e : Z) : Prop :=
  0 <= aux_ofs s /\ want_label s = false /\ 0 < a /\ a + k <= aux + aux_ofs s /\ 0 < aux /\ aux + e < 2 ^ 64 /\
  allocated (ps_mem s) a k /\ allocated (ps_mem s) (aux + aux_ofs s) (e - aux_ofs s).

Lemma read_pre_space n tp v s : read_pre n tp v s <-> space s (dst s + dofs s) (nsize tp) (aux_end libs n tp v (aux_ofs s)).
Proof. done. Qed.

(** The outcome of reading a part: where the reader is, and what it wrote. *)
Definition moved (s s' : PState) (P : Z -> Prop) (e : Z) : Prop :=
  aux_ofs s' = e /\ want_label s' = false /\ dst s' = dst s /\ dofs s' = dofs s /\ within P (ps_mem s) (ps_mem s').

Lemma read_member n P mutable scope mp tp v pos body plen key s :
  reads n P -> member_ok n mutable scope mp tp -> enc libs swap n tp v pos = Some body -> (mutable = true -> pos mod 4 = 0) ->
  0 <= pos -> pos + zlen body < 2 ^ 32 -> at_mem src pos body ->
  (plen = 0 \/ zlen body <= plen) -> (is_optional mp = true -> 0 < plen) ->
  space s (dst s + dofs s + xm_offset mp) (member_size libs scope mp) (member_end n scope mp (Some v) (aux_ofs s)) ->
  exists s', cdr_parse_member libs nip P scope mp plen key pos s = Some (if plen =? 0 then pos + zlen body else pos + plen, s') /\
    let A := area (dst s + dofs s + xm_offset mp) (member_size libs scope mp) (aux + aux_ofs s)
               (aux + member_end n scope mp (Some v) (aux_ofs s)) in
    moved s s' A (member_end n scope mp (Some v) (aux_ofs s)) /\
    forall m, agrees A (ps_mem s') m -> member_repr n m (dst s + dofs s) scope mp (Some v).
Proof.
  intros HP (Hsh & Et & Hok & Hstr & Hoff) He Hal Hp Hlim Hm Hpl Hop (Ha & Hw & Hd & Hda & Haux & Hb & Al1 & Al2).
  pose proof (enc_pos libs swap n _ _ _ _ _ Hok He) as Hbp. pose proof (nsize_nonneg libs n _ _ Hok) as Hns.
  unfold member_size, member_end in *. rewrite Et in *. set (a := dst s + dofs s + xm_offset mp) in *.
  unfold ty in Et. destruct (real_type_ptr libs scope (xm_id mp)) as [[?|]|] eqn:Er; try done. cbn in Et. injection Et as ->.
  assert (Hfin : forall s1, (let s2 := (if bool_decide (action nip = PA_GetNative) then set_dst (dst s) (dofs s) s1 else s1) in
    if negb (plen =? 0) then Some (if pos + plen <? pos + zlen body then 0 else pos + plen, s2) else Some (pos + zlen body, s2)) =
    Some (if plen =? 0 then pos + zlen body else pos + plen, set_dst (dst s) (dofs s) s1)).
  { intros s1. run. destruct (Z.eqb_spec plen 0); [done|]. run. destruct (Z.ltb_spec (pos + plen) (pos + zlen body)); [lia|done]. }
  unfold cdr_parse_member. rewrite Er. cbn [mbind option_bind]. unfold enter_member. cbn [action nip]. rewrite Hsh, orb_false_r.
  fold a. destruct (is_optional mp) eqn:Eo.
  - specialize (Hop eq_refl). assert (Hp0 : (plen =? 0) = false) by (apply Z.eqb_neq; lia). rewrite Hp0 in Hfin |- *. cbn [andb].
    pose proof (field_ofs_fst libs n _ tp (aux_ofs s) Hok) as Hf1. pose proof (field_ofs_snd libs n _ tp (aux_ofs s) Hok (Hstr eq_refl)) as Hf2.
    destruct (cdr_field_ofs tp (aux_ofs s)) as [o esize]. cbn [fst snd] in Hf1, Hf2. subst esize.
    pose proof (aux_mono libs n tp v (o + nsize tp) _ Hok) as Hmono. set (e := aux_end libs n tp v (o + nsize tp)) in *.
    destruct (store_ok (ps_mem s) a (le_bytes 8 (aux + o))) as [m1 E1]; [by rewrite zlen_le_bytes|].
    destruct (allocated_load (ps_mem s) a 8) as [pb Lp]; [exact Al1|]. unfold load_ptr, load_num. rewrite Lp.
    change (CF_Key (sformat nip)) with false. cbn [fmap option_fmap option_map mbind option_bind aux_dst nip]. rewrite E1. cbn [mbind option_bind negb].
    set (s0 := set_dst (aux + o) 0 (set_aux (o + nsize tp) (set_mem m1 s))).
    assert (W1 : within (fun i => a <= i < a + 8) (ps_mem s) m1) by (pose proof (within_store _ _ _ _ E1) as W; by rewrite zlen_le_bytes in W).
    destruct (HP tp v pos body mutable key s0 Hok He Hal Hp Hlim Hm) as (s1 & Es1 & Hx1 & Hx2 & _ & Hx3 & Hx4).
    { unfold read_pre. cbn. rewrite Z.add_0_r. fold e. split_and!; try done; try lia.
      - eapply within_allocated; [exact W1|]. eapply allocated_sub; [exact Al2|lia|lia].
      - eapply within_allocated; [exact W1|]. eapply allocated_sub; [exact Al2|lia|lia]. }
    rewrite Es1. cbn [mbind option_bind]. destruct (Z.eqb_spec (pos + zlen body) 0); [lia|]. eexists. split; [exact (Hfin _)|].
    unfold s0 in Hx1, Hx3, Hx4. cbn in Hx1, Hx3, Hx4. rewrite Z.add_0_r in Hx3, Hx4. fold e in Hx1, Hx3, Hx4.
    split; [split_and!; try done; cbn; eapply within_trans; [exact W1|exact Hx3| |]; intros i Hi; [left; exact Hi|right; destruct Hi; lia]|].
    intros m HA. cbn in HA. exists tp. split; [by unfold ty; rewrite Er|]. rewrite Eo. exists (aux + o). fold a. split.
    + apply load_ptr_val; [|lia]. eapply at_mem_agree; [exact (store_at _ _ _ _ E1)| |intros i Hi; rewrite zlen_le_bytes in Hi; exact Hi].
      eapply agrees_before; [|exact Hx3|]; [eapply agrees_mono; [exact HA|]; intros i Hi; left; exact Hi|].
      intros i Hi [Hj|Hj]; lia.
    + split; [lia|]. apply Hx4. eapply agrees_mono; [exact HA|]. intros i [Hi|Hi]; right; lia.
  - cbn [mbind option_bind negb]. destruct (HP tp v pos body mutable key (set_dst a 0 s) Hok He Hal Hp Hlim Hm) as (s1 & Es1 & Hx1 & Hx2 & _ & Hx3 & Hx4).
    { unfold read_pre. cbn. rewrite Z.add_0_r. split_and!; try done; lia. }
    rewrite Es1. cbn [mbind option_bind]. destruct (Z.eqb_spec (pos + zlen body) 0); [lia|]. eexists. split; [exact (Hfin _)|].
    cbn in Hx1, Hx3, Hx4. rewrite Z.add_0_r in Hx3, Hx4. split; [by split_and!|].
    intros m HA. exists tp. split; [by unfold ty; rewrite Er|]. rewrite Eo. fold a. by apply Hx4.
Qed.

(** *** Members of a structure *)

Definition slot (scope a : Z) (mp : XMember) (i : Z) : Prop := a + xm_offset mp <= i < a + xm_offset mp + member_size libs scope mp.

(** The areas of the members, and the space from [p] to [q]. *)
Definition mems_area (scope a : Z) (ms : list XMember) (p q i : Z) : Prop := Exists (fun mp => slot scope a mp i) ms \/ p <= i < q.

Definition cleared (m : Mem) (a : Z) (ms : list XMember) : Prop :=
  Forall (fun mp => is_optional mp = true -> load_ptr m (a + xm_offset mp) = Some 0) ms.

Definition mems_end (n : nat) (scope : Z) := aux_members_with libs (aux_end libs n) scope.

Definition mems_ok (n : nat) (mutable : bool) (scope : Z) (ms : list XMember) : Prop :=
  Forall (fun mp => is_shareable mp = false /\ (is_optional mp = true -> mutable = true) /\
    exists tp, ty libs scope (xm_id mp) = Some tp /\ ok_type libs n mutable tp = true /\
      (is_optional mp = true -> is_string tp = false)) ms.

Lemma member_end_mono n mutable scope mp f ofs tp : member_ok n mutable scope mp tp -> ofs <= member_end n scope mp f ofs.
Proof.
  intros (_ & Et & Hok & Hs & _). unfold member_end. destruct f as [v|]; [|lia]. rewrite Et.
  etransitivity; [|by eapply aux_mono]. destruct (is_optional mp); [|lia].
  pose proof (field_ofs_fst libs n _ tp ofs Hok). pose proof (field_ofs_snd libs n _ tp ofs Hok (Hs eq_refl)).
  pose proof (nsize_nonneg libs n _ _ Hok). destruct (cdr_field_ofs tp ofs). cbn in *. lia.
Qed.

Lemma mems_end_mono n mutable scope ms : mems_ok n mutable scope ms -> Forall (fun mp => 0 <= xm_offset mp) ms ->
  forall fs ofs, ofs <= mems_end n scope ms fs ofs.
Proof.
  unfold mems_end. induction 1 as [|mp ms (Hs & _ & tp & Et & Hok & Hst) _ IH]; intros HO fs ofs; [done|].
  apply Forall_cons in HO as [Ho HO]. destruct fs as [|f fs]; [done|]. rewrite aux_members_cons. etransitivity; [|by apply IH].
  eapply (member_end_mono n mutable scope mp f ofs tp). by split_and!.
Qed.

Lemma layout_cons scope size mp ms : layout_ok libs scope size (mp :: ms) = true ->
  0 <= xm_offset mp /\ xm_offset mp + member_size libs scope mp <= size /\ layout_ok libs scope size ms = true /\
  Forall (fun x => forall a i, slot scope a mp i -> slot scope a x i -> False) ms.
Proof.
  cbn. intros H. repeat (apply andb_true_iff in H as [H ?]). split_and!; try done; try zbool_lia.
  apply Forall_forall. intros x Hx%list_elem_of_In a i [? ?] [? ?]. 
  match goal with HD : disjoint_from _ _ _ _ = true |- _ => unfold disjoint_from in HD; rewrite forallb_forall in HD; specialize (HD x Hx); cbn beta in HD end.
  zbool_lia.
Qed.

Lemma layout_offsets scope size ms : layout_ok libs scope size ms = true -> Forall (fun mp => 0 <= xm_offset mp) ms.
Proof. induction ms as [|mp ms IH]; intros H; [done|]. apply layout_cons in H as (? & _ & H & _). constructor; auto. Qed.

Lemma layout_in scope size ms a i : layout_ok libs scope size ms = true -> Exists (fun mp => slot scope a mp i) ms -> a <= i < a + size.
Proof.
  intros H HE. revert H. induction HE as [mp ms H1|mp ms _ IH]; intros H; apply layout_cons in H as (? & ? & ? & _); [unfold slot in H1; lia|auto].
Qed.

(** The area of a member is apart from those of the members behind it. *)
Lemma slot_apart scope size mp ms a i : layout_ok libs scope size (mp :: ms) = true ->
  slot scope a mp i -> Exists (fun x => slot scope a x i) ms -> False.
Proof.
  intros H Hi HE. apply layout_cons in H as (_ & _ & _ & HF). apply Exists_exists in HE as (x & Hx & Hxi). rewrite Forall_forall in HF. by eapply HF.
Qed.

Lemma space_sub s a k e a' k' e' :
  space s a k e -> a <= a' -> a' + k' <= a + k -> e' <= e -> space s a' k' e'.
Proof.
  intros (? & ? & ? & ? & ? & ? & Al1 & Al2) ? ? ?. unfold space. split_and!; try done; try lia.
  - eapply allocated_sub; [exact Al1|lia|lia].
  - eapply allocated_sub; [exact Al2|lia|lia].
Qed.

Lemma space_moved s s' P a k e e' : space s a k e -> moved s s' P e' -> aux_ofs s <= e' -> space s' a k e.
Proof.
  intros (? & ? & ? & ? & ? & ? & Al1 & Al2) (E & ? & ? & ? & HW) ?. unfold space. rewrite E. split_and!; try done; try lia.
  - by eapply within_allocated.
  - eapply within_allocated; [exact HW|]. eapply allocated_sub; [exact Al2|lia|lia].
Qed.

Lemma cleared_within (P : Z -> Prop) m m' a ms : within P m m' ->
  Forall (fun mp => is_optional mp = true -> forall i, a + xm_offset mp <= i < a + xm_offset mp + 8 -> ~ P i) ms -> cleared m a ms -> cleared m' a ms.
Proof.
  intros [HW _] HD HC. unfold cleared in *. rewrite Forall_forall in *. intros mp Hmp Ho. rewrite <- (HC mp Hmp Ho). unfold load_ptr, load_num.
  rewrite (load_agree m m'); [done|]. intros i Hi. apply HW, (HD mp Hmp Ho). lia.
Qed.

(** The first of the members to be read. *)
Lemma read_head n P mutable scope size mp ms v fs tp pos body plen key s :
  reads n P -> mems_ok n mutable scope (mp :: ms) -> layout_ok libs scope size (mp :: ms) = true ->
  ty libs scope (xm_id mp) = Some tp -> enc libs swap n tp v pos = Some body -> (mutable = true -> pos mod 4 = 0) ->
  0 <= pos -> pos + zlen body < 2 ^ 32 -> at_mem src pos body -> (plen = 0 \/ zlen body <= plen) -> (is_optional mp = true -> 0 < plen) ->
  let a := dst s + dofs s in let e1 := member_end n scope mp (Some v) (aux_ofs s) in
  space s a size (mems_end n scope (mp :: ms) (Some v :: fs) (aux_ofs s)) ->
  exists s1, cdr_parse_member libs nip P scope mp plen key pos s = Some (if plen =? 0 then pos + zlen body else pos + plen, s1) /\
    moved s s1 (mems_area scope a [mp] (aux + aux_ofs s) (aux + e1)) e1 /\
    (forall m, agrees (mems_area scope a [mp] (aux + aux_ofs s) (aux + e1)) (ps_mem s1) m -> member_repr n m a scope mp (Some v)) /\
    space s1 a size (mems_end n scope ms fs e1) /\ (cleared (ps_mem s) a ms -> cleared (ps_mem s1) a ms).
Proof.
  intros HP Hms HL Et He Hal Hp Hlim Hm Hpl Hop a e1 Hsp. apply Forall_cons in Hms as [(Hsh & Hmu & tp' & Et' & Hok & Hstr) Hms].
  assert (tp' = tp) as -> by congruence. pose proof (layout_offsets _ _ _ HL) as [Ho HO]%Forall_cons. pose proof (layout_cons _ _ _ _ HL) as (_ & Hsz & HL' & HF).
  assert (HM : member_ok n mutable scope mp tp) by (by split_and!).
  pose proof (member_end_mono n mutable scope mp (Some v) (aux_ofs s) tp HM) as Hmono. fold e1 in Hmono.
  pose proof (mems_end_mono n mutable scope ms Hms HO fs e1) as Hmono2.
  assert (Hend : mems_end n scope (mp :: ms) (Some v :: fs) (aux_ofs s) = mems_end n scope ms fs e1) by apply aux_members_cons. rewrite Hend in Hsp.
  destruct (read_member n P mutable scope mp tp v pos body plen key s HP HM He Hal Hp Hlim Hm Hpl Hop) as (s1 & E1 & HMv & HR).
  { eapply space_sub; [exact Hsp|unfold a; lia|lia|fold e1; lia]. }
  cbn zeta in HMv, HR. fold a e1 in HMv, HR.
  assert (HA : forall i, area (a + xm_offset mp) (member_size libs scope mp) (aux + aux_ofs s) (aux + e1) i <->
      mems_area scope a [mp] (aux + aux_ofs s) (aux + e1) i).
  { intros i. unfold area, mems_area, slot. rewrite Exists_cons, Exists_nil. tauto. }
  assert (HMv' : moved s s1 (mems_area scope a [mp] (aux + aux_ofs s) (aux + e1)) e1).
  { destruct HMv as (? & ? & ? & ? & ?). split_and!; try done. eapply within_mono; [done|]. apply HA. }
  exists s1. split; [exact E1|]. split; [exact HMv'|]. split; [|split].
  - intros m Hag. apply HR. eapply agrees_mono; [exact Hag|]. apply HA.
  - by eapply space_moved.
  - intros HC. destruct HMv' as (_ & _ & _ & _ & HW). eapply cleared_within; [exact HW| |exact HC]. apply Forall_forall. intros x Hx Hxo i Hi Hin.
    assert (Hxs : slot scope a x i) by (unfold slot, member_size; rewrite Hxo; lia).
    assert (Hxin : Exists (fun x => slot scope a x i) ms) by (apply Exists_exists; eauto).
    destruct Hin as [[Hin|Hin%Exists_nil]%Exists_cons|Hin]; [by eapply slot_apart|done|].
    pose proof (layout_in _ _ _ _ _ HL' Hxin). destruct Hsp as (_ & _ & _ & Hda & _). lia.
Qed.

(** What the first member is and what the others are hold together. *)
Lemma read_join n scope size mp ms f fs s s1 s' :
  let a := dst s + dofs s in let p := aux + aux_ofs s in
  forall e1 e2, layout_ok libs scope size (mp :: ms) = true -> a + size <= p -> aux_ofs s <= e1 <= e2 ->
  moved s s1 (mems_area scope a [mp] p (aux + e1)) e1 ->
  (forall m, agrees (mems_area scope a [mp] p (aux + e1)) (ps_mem s1) m -> member_repr n m a scope mp f) ->
  moved s1 s' (mems_area scope a ms (aux + e1) (aux + e2)) e2 ->
  (forall m, agrees (mems_area scope a ms (aux + e1) (aux + e2)) (ps_mem s') m -> Forall2 (member_repr n m a scope) ms fs) ->
  moved s s' (mems_area scope a (mp :: ms) p (aux + e2)) e2 /\
  (forall m, agrees (mems_area scope a (mp :: ms) p (aux + e2)) (ps_mem s') m -> Forall2 (member_repr n m a scope) (mp :: ms) (f :: fs)).
Proof.
  intros a p e1 e2 HL Hsz He (? & ? & ? & ? & HW1) HR1 (? & ? & ? & ? & HW2) HR2.
  assert (HA1 : forall i, mems_area scope a [mp] p (aux + e1) i -> mems_area scope a (mp :: ms) p (aux + e2) i).
  { intros i [[Hi|Hi%Exists_nil]%Exists_cons|Hi]; [left; by left|done|right; lia]. }
  assert (HA2 : forall i, mems_area scope a ms (aux + e1) (aux + e2) i -> mems_area scope a (mp :: ms) p (aux + e2) i).
  { intros i [Hi|Hi]; [left; by right|right; unfold p in *; lia]. }
  split.
  - split_and!; try done; try congruence. by eapply within_trans.
  - intros m Hag. constructor; [|apply HR2; by eapply agrees_mono]. apply HR1. eapply agrees_before; [|exact HW2|].
    + eapply agrees_mono; [exact Hag|exact HA1].
    + pose proof (layout_cons _ _ _ _ HL) as (? & ? & HL' & _).
      intros i [[Hi|Hi%Exists_nil]%Exists_cons|Hi] [Hj|Hj].
      * by eapply slot_apart.
      * unfold slot, p in *. lia.
      * done.
      * done.
      * pose proof (layout_in _ _ _ _ _ HL' Hj). lia.
      * lia.
Qed.

Lemma members_read_nil n scope s ofs :
  let a := dst s + dofs s in aux_ofs s = ofs -> want_label s = false ->
  moved s s (mems_area scope a [] (aux + ofs) (aux + ofs)) ofs /\
  (forall m, agrees (mems_area scope a [] (aux + ofs) (aux + ofs)) (ps_mem s) m -> Forall2 (member_repr n m a scope) [] []).
Proof. intros a H1 H2. split; [split_and!; try done; apply within_refl|]. by constructor. Qed.

Lemma read_members_plain n P scope size keyed key ms : forall fs pos bs i s,
  reads n P -> mems_ok n false scope ms -> layout_ok libs scope size ms = true ->
  enc_body_with libs swap (enc libs swap n) false scope ms fs pos = Some bs ->
  0 <= pos -> pos + zlen bs < 2 ^ 32 -> at_mem src pos bs ->
  let a := dst s + dofs s in let e := mems_end n scope ms fs (aux_ofs s) in
  space s a size e ->
  exists s', parse_unordered libs src nip P ms i scope keyed key pos s = Some (pos + zlen bs, s') /\
    moved s s' (mems_area scope a ms (aux + aux_ofs s) (aux + e)) e /\
    (forall m, agrees (mems_area scope a ms (aux + aux_ofs s) (aux + e)) (ps_mem s') m -> Forall2 (member_repr n m a scope) ms fs).
Proof.
  induction ms as [|mp ms IH]; intros fs pos bs i s HP Hms HL He Hp Hlim Hm a e Hsp.
  { destruct fs; [|done]. injection He as <-. exists s. cbn. split; [by rewrite Z.add_0_r|]. apply members_read_nil; [done|apply Hsp]. }
  pose proof Hms as [(Hsh & Hmu & tp & Et & Hok & Hstr) Hms']%Forall_cons. pose proof (layout_cons _ _ _ _ HL) as (_ & _ & HL' & _).
  assert (Ho : is_optional mp = false) by (destruct (is_optional mp); [by discriminate (Hmu eq_refl)|done]).
  destruct fs as [|[v|] fs]; cbn in He; [done| |by rewrite Ho in He]. rewrite Et in He. cbn in He.
  destruct (enc libs swap n tp v pos) as [b|] eqn:Eb; [|done]. cbn in He. 
  destruct (enc_body_with _ _ _ _ _ ms fs _) as [r|] eqn:Er; [|done]. injection He as <-. apply at_mem_app in Hm as [Hm1 Hm2]. rewrite zlen_app in *.
  pose proof (enc_pos libs swap n _ _ _ _ _ Hok Eb) as Hb. pose proof (zlen_nonneg r).
  destruct (read_head n P false scope size mp ms v fs tp pos b 0 (key && (is_key mp || negb keyed)) s) as (s1 & E1 & HM1 & HR1 & Hsp1 & _);
    try done; try lia; try (by left); [by rewrite Ho|]. 
  fold a in HM1, HR1, Hsp1. set (e1 := member_end n scope mp (Some v) (aux_ofs s)) in *.
  pose proof HM1 as (Hao & _ & Hds & Hdo & _).
  destruct (IH fs (pos + zlen b) r (i + 1) s1 HP Hms' HL' Er) as (s' & E' & HM' & HR'); try done; try lia.
  { by rewrite Hds, Hdo, Hao. }
  rewrite Hds, Hdo, Hao in HM', HR'. fold a in HM', HR'. exists s'. split.
  - unfold parse_unordered; fold (parse_unordered libs src nip P). change (CF_Key (sformat nip)) with false. rewrite Ho. cbn [andb mbind option_bind negb].
    change (bool_decide (action nip = PA_GetOffset)) with false. cbn [andb]. rewrite E1. cbn [mbind option_bind].
    change (0 =? 0) with true. cbv iota. destruct (Z.eqb_spec (pos + zlen b) 0); [lia|]. rewrite E'. do 2 f_equal. lia.
  - pose proof (layout_offsets _ _ _ HL') as HO. pose proof (mems_end_mono n false scope ms Hms' HO fs e1).
    apply (read_join n scope size mp ms (Some v) fs s s1 s' e1); try done; [apply Hsp|]. split; [|done].
    eapply (member_end_mono n false scope mp (Some v) (aux_ofs s) tp). pose proof (layout_offsets _ _ _ HL) as [? ?]%Forall_cons. by split_and!.
Qed.

(** *** Parameter lists *)

Lemma header_id id (u : bool) : 0 <= id < 2 ^ 14 -> Z.land ⟦Z.lor id (if u then XT_PID_UNDERST else 0)⟧16 XT_PID_ID_MASK = id.
Proof.
  intros H. unfold wrap. rewrite <- (Z.land_ones _ 16) by lia. rewrite <- Z.land_assoc.
  change (Z.land (Z.ones 16) XT_PID_ID_MASK) with (Z.ones 14). rewrite Z.land_lor_distr_l, (Z.land_ones id) by lia.
  rewrite Z.mod_small by lia. replace (Z.land _ (Z.ones 14)) with 0 by (by destruct u). apply Z.lor_0_r.
Qed.

(** The parts of a header are loaded. *)
Lemma load_words k pos x y rest :
  length x = k -> length y = k -> at_mem src pos (swapped swap x ++ swapped swap y ++ rest) ->
  exists h, load src pos (k + k) = Some h /\ le_val (swapped swap (take k h)) = le_val x /\ le_val (swapped swap (drop k h)) = le_val y /\
    at_mem src (pos + 2 * Z.of_nat k) rest.
Proof.
  intros Hx Hy H. rewrite app_assoc in H. apply at_mem_app in H as [H1 H2]. rewrite zlen_app, !zlen_swapped in H2.
  exists (swapped swap x ++ swapped swap y). split; [apply at_mem_load; [done|by rewrite length_app, !length_swapped, Hx, Hy]|].
  rewrite take_app_length', drop_app_length', !swapped_swapped by (by rewrite length_swapped). split_and!; try done.
  by replace (pos + 2 * Z.of_nat k) with (pos + (zlen x + zlen y)) by (unfold zlen; lia).
Qed.

Lemma parse_header mp k h pos rest :
  enc_header swap mp k = Some h -> 0 <= member_id mp < 2 ^ 28 -> 0 <= k < 2 ^ 32 -> at_mem src pos (h ++ rest) ->
  exists u, pid_parse_header src swap pos = Some (pos + header_len mp, member_id mp, k, u).
Proof.
  intros He Hid Hk Hm. unfold enc_header, header_len in *. unfold pid_parse_header.
  destruct (Z.leb_spec XT_PID_EXTENDED (member_id mp)) as [Hx|Hx]; [|destruct (Z.ltb_spec k 65536); [|done]]; injection He as <-; rewrite <- !app_assoc in Hm.
  - apply (load_words 2) in Hm as (hd & E1 & H1 & H2 & Hm); [|by rewrite length_le_bytes..].
    apply (load_words 4) in Hm as (x & E2 & H3 & H4 & _); [|by rewrite length_le_bytes..].
    change (2 + 2)%nat with 4%nat in E1. change (4 + 4)%nat with 8%nat in E2. change (2 * Z.of_nat 2) with 4 in E2.
    rewrite E1. cbn [mbind option_bind]. rewrite H1, H2, !le_val_bytes. change (8 * Z.of_nat 2) with 16. rewrite header_id by done.
    change (⟦8⟧16) with 8. run. rewrite E2. cbn [mbind option_bind]. rewrite H3, H4, !le_val_bytes. change (8 * Z.of_nat 4) with 32.
    rewrite !wrap_small by (split; lia). eexists. do 4 f_equal; [lia|]. change 0xfffffff with (Z.ones 28). rewrite Z.land_ones, Z.mod_small; lia.
  - apply (load_words 2) in Hm as (hd & E1 & H1 & H2 & Hm); [|by rewrite length_le_bytes..]. change (2 + 2)%nat with 4%nat in E1.
    rewrite E1. cbn [mbind option_bind]. rewrite H1, H2, !le_val_bytes. change (8 * Z.of_nat 2) with 16.
    rewrite header_id by (split; [|etransitivity; [exact Hx|]]; done || lia). destruct (Z.ltb_spec (member_id mp) XT_PID_EXTENDED); [|lia]. cbn [orb].
    rewrite (wrap_small 16 k) by (split; lia). by eexists.
Qed.

Lemma parse_list_end pos : at_mem src (ALIGN pos 4) (swapped swap (le_bytes 2 XT_PID_LIST_END) ++ [0; 0]) -> pos mod 4 = 0 ->
  exists k u, pid_parse_header src swap pos = Some (pos + 4, XT_PID_LIST_END, k, u).
Proof.
  intros Hm Hp. rewrite ALIGN_id in Hm; [|al|done]. assert (H0 : [0; 0] = swapped swap (le_bytes 2 0)) by (by destruct swap). rewrite H0 in Hm.
  rewrite <- (app_nil_r (swapped swap (le_bytes 2 0))) in Hm. apply (load_words 2) in Hm as (h & E1 & H1 & H2 & _); [|by rewrite length_le_bytes..].
  unfold pid_parse_header. change (2 + 2)%nat with 4%nat in E1. rewrite E1. cbn [mbind option_bind]. rewrite H1, H2, !le_val_bytes. by repeat eexists.
Qed.

Lemma ids_app pre mp ms : ids_ok (pre ++ mp :: ms) = true -> 0 <= member_id mp < 2 ^ 28 /\ member_id mp <> XT_PID_LIST_END /\
  forall i, find_member (member_id mp) i (pre ++ mp :: ms) = Some (mp, i + zlen pre).
Proof.
  induction pre as [|x pre IH]; cbn; intros H; repeat (apply andb_true_iff in H as [H ?]).
  - split_and!; [zbool_lia..|]. intros i. rewrite Z.eqb_refl, Z.add_0_r. done.
  - destruct IH as (IH1 & IH0 & IH2); [done|]. split; [done|split; [done|]]. intros i. rewrite IH2.
    match goal with HF : forallb _ _ = true |- _ => rewrite forallb_app in HF; apply andb_true_iff in HF as [_ HF]; cbn in HF; apply andb_true_iff in HF as [HF _] end.
    destruct (member_id x =? member_id mp); [done|]. do 2 f_equal. rewrite zlen_cons. lia.
Qed.

(** A member that is present in a parameter list. *)
Lemma enc_param n scope mp ms v fs pos bs tp :
  enc_body_with libs swap (enc libs swap n) true scope (mp :: ms) (Some v :: fs) pos = Some bs -> ty libs scope (xm_id mp) = Some tp -> pos mod 4 = 0 ->
  exists body h r, let start := pos + header_len mp in let stop := ALIGN (start + zlen body) 4 in
    enc libs swap n tp v start = Some body /\ enc_header swap mp (stop - start) = Some h /\
    enc_body_with libs swap (enc libs swap n) true scope ms fs stop = Some r /\
    zlen h = header_len mp /\ start mod 4 = 0 /\ stop mod 4 = 0 /\ start + zlen body <= stop /\
    bs = h ++ body ++ pad (start + zlen body) 4 ++ r /\ pos + zlen bs = stop + zlen r.
Proof.
  intros H Et Hp. cbn [enc_body_with] in H. rewrite Et in H. cbn [mbind option_bind] in H. rewrite ALIGN_id in H; [|al|done]. cbv zeta in H.
  destruct (enc libs swap n tp v _) as [body|] eqn:Eb; [|done]. cbn [mbind option_bind] in H. destruct (enc_header _ _ _) as [h|] eqn:Eh; [|done].
  cbn [mbind option_bind] in H. pose proof (enc_header_len swap mp _ _ Eh) as Hl.
  pose proof (ALIGN_spec (pos + header_len mp + zlen body) 4 ltac:(al)) as (? & ?).
  assert (Hpad : pad pos 4 = []) by (unfold pad; rewrite ALIGN_id; [|al|done]; by rewrite Z.sub_diag). rewrite Hpad in H. cbn [app] in H.
  assert (Hz : pos + zlen (h ++ body ++ pad (pos + header_len mp + zlen body) 4) = ALIGN (pos + header_len mp + zlen body) 4)
    by (rewrite !zlen_app, pad_len by al; lia). rewrite Hz in H.
  destruct (enc_body_with _ _ _ _ _ _ _ _) as [r|] eqn:Er; [|done]. cbn [mbind option_bind] in H. injection H as <-.
  exists body, h, r. cbv zeta. split_and!; try done; try lia.
  - unfold header_len. case_match; rewrite Z.add_mod, Hp by lia; done.
  - by rewrite <- !app_assoc.
  - rewrite zlen_app. lia.
Qed.

(** The header of the first member that is present, and what is behind it. *)
Lemma param_at n scope mp ms v fs pos bs tp :
  enc_body_with libs swap (enc libs swap n) true scope (mp :: ms) (Some v :: fs) pos = Some bs -> ty libs scope (xm_id mp) = Some tp ->
  ok_type libs n true tp = true -> 0 <= member_id mp < 2 ^ 28 -> pos mod 4 = 0 -> 0 <= pos -> pos + zlen bs < 2 ^ 32 ->
  at_mem src pos (bs ++ enc_eol swap (pos + zlen bs)) ->
  exists start stop body r u, pid_parse_header src swap pos = Some (start, member_id mp, stop - start, u) /\
    enc libs swap n tp v start = Some body /\ at_mem src start body /\
    enc_body_with libs swap (enc libs swap n) true scope ms fs stop = Some r /\ at_mem src stop (r ++ enc_eol swap (stop + zlen r)) /\
    start mod 4 = 0 /\ stop mod 4 = 0 /\ 0 < start /\ 0 < zlen body /\ start + zlen body <= stop /\ pos + zlen bs = stop + zlen r /\ (length r < length bs)%nat.
Proof.
  intros He Et Hok Hid Hpm Hp Hlim Hm.
  destruct (enc_param _ _ _ _ _ _ _ _ _ He Et Hpm) as (body & h & r & Eb & Eh & Er & Hhl & Hst & Hsp4 & Hle & -> & Hz).
  set (start := pos + header_len mp) in *. set (stop := ALIGN (start + zlen body) 4) in *. pose proof (zlen_nonneg r). pose proof (header_len_pos mp).
  pose proof (enc_pos libs swap n _ _ _ _ _ Hok Eb) as Hb. rewrite Hz in Hm, Hlim |- *. rewrite <- !app_assoc in Hm.
  destruct (parse_header mp (stop - start) h pos _ Eh Hid ltac:(lia) Hm) as [u Eu]. fold start in Eu.
  apply at_mem_app in Hm as [_ Hm]. rewrite Hhl in Hm. fold start in Hm. apply at_mem_app in Hm as [Hm1 Hm]. apply at_mem_app in Hm as [_ Hm].
  rewrite pad_len in Hm by al. fold stop in Hm. replace (start + zlen body + (stop - (start + zlen body))) with stop in Hm by lia.
  exists start, stop, body, r, u. split_and!; try done; try lia. rewrite !length_app. unfold zlen in Hhl. lia.
Qed.

Lemma agrees_ptr (P : Z -> Prop) m m' a : agrees P m m' -> (forall i, a <= i < a + 8 -> P i) -> load_ptr m' a = load_ptr m a.
Proof. intros H HP. unfold load_ptr, load_num. by rewrite (agrees_load P m m' a 8). Qed.

Lemma read_plist n P scope size keyed key : forall ms pre k fs pos bs s,
  reads n P -> mems_ok n true scope ms -> layout_ok libs scope size ms = true -> ids_ok (pre ++ ms) = true ->
  enc_body_with libs swap (enc libs swap n) true scope ms fs pos = Some bs -> pos mod 4 = 0 ->
  0 <= pos -> pos + zlen bs + 4 < 2 ^ 32 -> at_mem src pos (bs ++ enc_eol swap (pos + zlen bs)) -> (length bs < k)%nat ->
  let a := dst s + dofs s in let e := mems_end n scope ms fs (aux_ofs s) in
  space s a size e -> cleared (ps_mem s) a ms ->
  exists s', parse_plist libs src nip P k scope keyed (pre ++ ms) key pos s = Some (pos + zlen bs + 4, s') /\ (pos + zlen bs) mod 4 = 0 /\
    moved s s' (mems_area scope a ms (aux + aux_ofs s) (aux + e)) e /\
    (forall m, agrees (mems_area scope a ms (aux + aux_ofs s) (aux + e)) (ps_mem s') m -> Forall2 (member_repr n m a scope) ms fs).
Proof.
  induction ms as [|mp ms IH]; intros pre k fs pos bs s HP Hms HL Hids He Hpm Hp Hlim Hm Hk a e Hsp HC.
  { destruct fs; [|done]. injection He as <-. destruct k as [|k]; [cbn in Hk; lia|]. exists s. cbn [app] in Hm. rewrite zlen_nil, Z.add_0_r in *.
    unfold enc_eol in Hm. apply at_mem_pad in Hm; [|al]. destruct (parse_list_end pos Hm Hpm) as (l & u & El).
    split; [|split; [done|apply members_read_nil; [done|apply Hsp]]].
    cbn [parse_plist int_swap nip]. rewrite El. cbn [mbind option_bind]. destruct (Z.eqb_spec (pos + 4) 0); [lia|]. done. }
  pose proof Hms as [(Hsh & Hmu & tp & Et & Hok & Hstr) Hms']%Forall_cons. pose proof (layout_cons _ _ _ _ HL) as (_ & _ & HL' & _).
  pose proof HC as [HC1 HC']%Forall_cons. pose proof (layout_offsets _ _ _ HL) as [Hoff HO]%Forall_cons.
  assert (HM : member_ok n true scope mp tp) by (by split_and!). pose proof (ids_app _ _ _ Hids) as (Hid & Hid2 & Hfind).
  assert (Hids' : ids_ok ((pre ++ [mp]) ++ ms) = true) by (by rewrite <- app_assoc).
  destruct fs as [|[v|] fs]; [done| |].
  - destruct (param_at _ _ _ _ _ _ _ _ _ He Et Hok Hid Hpm Hp ltac:(lia) Hm)
      as (start & stop & body & r & u & Eu & Eb & Hm1 & Er & Hm2 & Hst & Hsp4 & Hs0 & Hb & Hle & Hz & Hlen).
    rewrite Hz in Hlim |- *. pose proof (zlen_nonneg r).
    destruct k as [|k]; [lia|].
    destruct (read_head n P true scope size mp ms v fs tp start body (stop - start) (key && (is_key mp || negb keyed)) s) as (s1 & E1 & HM1 & HR1 & Hsp1 & HC1');
      try done; try lia.
    fold a in HM1, HR1, Hsp1, HC1'. set (e1 := member_end n scope mp (Some v) (aux_ofs s)) in *. pose proof HM1 as (Hao & _ & Hds & Hdo & _).
    assert (E0 : (stop - start =? 0) = false) by (apply Z.eqb_neq; lia). rewrite E0 in E1. replace (start + (stop - start)) with stop in E1 by lia.
    destruct (IH (pre ++ [mp]) k fs stop r s1 HP Hms' HL' Hids' Er) as (s' & E' & Hmod & HM' & HR'); try done; try lia.
    { by rewrite Hds, Hdo, Hao. }
    { rewrite Hds, Hdo. by apply HC1'. }
    rewrite Hds, Hdo, Hao in HM', HR'. fold a in HM', HR'. exists s'. rewrite <- app_assoc in E'. split; [|split; [done|]].
    + cbn [parse_plist]. change (int_swap nip) with swap. rewrite Eu. cbn [mbind option_bind]. destruct (Z.eqb_spec start 0); [lia|].
      destruct (Z.eqb_spec (member_id mp) XT_PID_LIST_END); [done|]. rewrite Hfind. change (bool_decide (action nip = PA_GetOffset)) with false.
      cbn [andb]. rewrite E1. cbn [mbind option_bind]. destruct (Z.eqb_spec stop 0); [lia|]. exact E'.
    + apply (read_join n scope size mp ms (Some v) fs s s1 s' e1); try done; [apply Hsp|].
      split; [by eapply member_end_mono|exact (mems_end_mono n true scope ms Hms' HO fs e1)].
  - cbn [enc_body_with] in He. destruct (is_optional mp) eqn:Eo; [|done].
    destruct (IH (pre ++ [mp]) k fs pos bs s HP Hms' HL' Hids' He) as (s' & E' & Hmod & HM' & HR'); try done.
    rewrite <- app_assoc in E'. exists s'. split; [exact E'|]. split; [done|]. destruct Hsp as (_ & Hw & _ & Hda & _).
    apply (read_join n scope size mp ms None fs s s s' (aux_ofs s)); try done.
    + split; [lia|exact (mems_end_mono n true scope ms Hms' HO fs _)].
    + intros m Hag. exists tp. split; [done|]. rewrite Eo. exists 0. split; [|done]. rewrite <- (HC1 eq_refl).
      eapply agrees_ptr; [exact Hag|]. intros i Hi. left. left. unfold slot, member_size. by rewrite Eo.
Qed.

Lemma clear_ok scope size ms : forall s, layout_ok libs scope size ms = true ->
  let a := dst s + dofs s in allocated (ps_mem s) a size ->
  exists m, clear_optional ms s = Some (set_mem m s) /\ within (fun i => Exists (fun mp => slot scope a mp i) ms) (ps_mem s) m /\ cleared m a ms.
Proof.
  induction ms as [|mp ms IH]; intros s HL a Ha.
  { exists (ps_mem s). cbn. split_and!; [by destruct s|apply within_refl|constructor]. }
  pose proof (layout_cons _ _ _ _ HL) as (Ho & Hsz & HL' & _). cbn [clear_optional]. destruct (is_optional mp) eqn:Eo; cbn [mbind option_bind].
  - assert (Hm : member_size libs scope mp = 8) by (unfold member_size; by rewrite Eo).
    destruct (store_ok (ps_mem s) (a + xm_offset mp) (le_bytes 8 0)) as [m1 E1]; [rewrite zlen_le_bytes; eapply allocated_sub; [exact Ha|lia|lia]|].
    fold a. rewrite E1. cbn [mbind option_bind]. pose proof (within_store _ _ _ _ E1) as HW1. rewrite zlen_le_bytes in HW1.
    destruct (IH (set_mem m1 s) HL') as (m & E & HW & HC); [cbn; by eapply within_allocated|]. cbn [dst dofs set_mem ps_mem] in *. fold a in HW, HC.
    exists m. split; [exact E|]. split.
    + eapply within_trans; [exact HW1|exact HW| |]; intros i Hi; [left; unfold slot; rewrite Hm; exact Hi|right; exact Hi].
    + constructor; [|exact HC]. intros _. transitivity (load_ptr m1 (a + xm_offset mp)).
      * destruct HW as [HW _]. unfold load_ptr, load_num. rewrite (load_agree m1 m); [done|]. intros i Hi. apply HW. intros HE.
        eapply slot_apart; [exact HL| |exact HE]. unfold slot. rewrite Hm. exact Hi.
      * apply load_ptr_val; [exact (store_at _ _ _ _ E1)|lia].
  - destruct (IH s HL' Ha) as (m & E & HW & HC). exists m. split; [exact E|]. split; [eapply within_mono; [exact HW|by right]|]. constructor; [by rewrite Eo|exact HC].
Qed.

Lemma repr_members n m a ext scope size keyed opt ms fs :
  Forall2 (member_repr n m a scope) ms fs -> repr libs (S n) m a (XStruct ext scope size keyed opt ms) (VStruct fs).
Proof. done. Qed.

Lemma eol_zlen q : 4 <= zlen (enc_eol swap q) /\ (q mod 4 = 0 -> zlen (enc_eol swap q) = 4).
Proof.
  unfold enc_eol. rewrite !zlen_app, zlen_swapped, zlen_le_bytes, pad_len by al. assert (E0 : zlen [0; 0] = 2) by done. rewrite E0.
  pose proof (ALIGN_spec q 4 ltac:(al)). split; [lia|]. intros Hq. rewrite ALIGN_id; [lia|al|done].
Qed.

Lemma ok_struct_mems n al ext scope size keyed opt ms : ok_type libs (S n) al (XStruct ext scope size keyed opt ms) = true ->
  mems_ok n (bool_decide (ext = MUTABLE)) scope ms.
Proof.
  intros Hok. pose proof (ok_struct libs _ _ _ _ _ _ _ _ Hok) as (_ & _ & _ & _ & _ & HF). eapply Forall_impl; [exact HF|]. cbn beta.
  intros mp (? & Hop & ?). split_and!; try done. intros. by apply Hop.
Qed.

Lemma read_struct n P pf ext scope size keyed opt ms v pos bs al key s :
  reads n P -> let tp := XStruct ext scope size keyed opt ms in
  ok_type libs (S n) al tp = true -> enc libs swap (S n) tp v pos = Some bs -> (al = true -> pos mod 4 = 0) -> 0 <= pos ->
  pos + zlen bs < 2 ^ 32 -> at_mem src pos bs -> (length bs < pf)%nat -> read_pre (S n) tp v s ->
  exists s', cdr_parse_struct libs src xmalloc_ok nip P pf ext scope keyed opt ms key pos s = Some (pos + zlen bs, s') /\ read_post (S n) tp v s s'.
Proof.
  intros HP tp Hok He Hal Hp Hlim Hm Hpf Hpre. destruct v as [|?|fs| |]; try done. rewrite read_pre_space in Hpre.
  pose proof (ok_struct libs _ _ _ _ _ _ _ _ Hok) as (Hmu & HL & Hs & _ & Hids & HF). cbv zeta in *. cbn [nsize tp aux_end] in Hpre. fold (mems_end n) in Hpre.
  pose proof (ok_struct_mems _ _ _ _ _ _ _ _ Hok) as Hms.
  set (a := dst s + dofs s) in *. set (e := mems_end n scope ms fs (aux_ofs s)) in *.
  assert (HA : forall i, mems_area scope a ms (aux + aux_ofs s) (aux + e) i -> area a size (aux + aux_ofs s) (aux + e) i).
  { intros i [Hi|Hi]; [left; by eapply layout_in|by right]. }
  cbn [enc tp] in He. destruct (enc_body_with _ _ _ _ _ _ _ _) as [b|] eqn:Eb; [|done]. cbn [mbind option_bind] in He. injection He as <-.
  assert (HQ : exists s', cdr_parse_struct libs src xmalloc_ok nip P pf ext scope keyed opt ms key pos s =
      Some (pos + zlen (b ++ (if bool_decide (ext = MUTABLE) then enc_eol swap (pos + zlen b) else [])), s') /\
      aux_ofs s' = e /\ want_label s' = false /\ dst s' = dst s /\ within (mems_area scope a ms (aux + aux_ofs s) (aux + e)) (ps_mem s) (ps_mem s') /\
      (forall m, agrees (mems_area scope a ms (aux + aux_ofs s) (aux + e)) (ps_mem s') m -> Forall2 (member_repr n m a scope) ms fs)).
  2: { destruct HQ as (s' & E' & H1 & H2 & H3 & HW & HR). exists s'. split; [exact E'|]. unfold read_post. cbn [nsize tp aux_end]. fold (mems_end n). fold a e.
       split_and!; try done; [by eapply within_mono|]. intros m Hag. apply repr_members, HR. by eapply agrees_mono. }
  unfold cdr_parse_struct. destruct (bool_decide (ext = MUTABLE)) eqn:Ex; cbn [negb].
  - change (CF_Key (sformat nip)) with false. change (CF_Key (pdformat nip)) with false. cbn [negb]. unfold cdr_parse_mutable_unordered.
    assert (HX : exists m, (if opt && bool_decide (action nip = PA_GetNative) then clear_optional ms s else Some s) = Some (set_mem m s) /\
       within (fun i => Exists (fun mp => slot scope a mp i) ms) (ps_mem s) m /\ cleared m a ms).
    { change (bool_decide (action nip = PA_GetNative)) with true. rewrite andb_true_r. destruct opt; [eapply clear_ok; [exact HL|apply Hpre]|].
      exists (ps_mem s). split_and!; [by destruct s|apply within_refl|]. eapply Forall_impl; [exact HF|]. cbn beta. intros mp (_ & Hop & _) Ho. by destruct (Hop Ho). }
    destruct HX as (m0 & -> & HW0 & HC0). cbn [mbind option_bind]. specialize (Hal (Hmu eq_refl)).
    rewrite zlen_app in Hlim. destruct (eol_zlen (pos + zlen b)) as [Hel' Hel].
    destruct (read_plist n P scope size keyed key ms [] pf fs pos b (set_mem m0 s) HP Hms HL (Hids eq_refl) Eb Hal Hp) as (s' & E' & Hmod & HM' & HR'); try done.
    { lia. } { rewrite length_app in Hpf. lia. } { destruct Hpre as (? & ? & ? & ? & ? & ? & ? & ?). split_and!; try done; by eapply within_allocated. }
    cbn [app dst dofs set_mem aux_ofs ps_mem] in *. fold a e in HM', HR'. exists s'. split; [rewrite E', zlen_app, Hel by done; do 2 f_equal; lia|].
    destruct HM' as (? & ? & ? & ? & HW'). split_and!; try done. eapply within_trans; [exact HW0|exact HW'| |done]. intros i Hi. by left.
  - destruct (read_members_plain n P scope size keyed key ms fs pos b 0 s HP Hms HL Eb) as (s' & E' & (? & ? & ? & ? & ?) & HR'); try done.
    { rewrite app_nil_r in Hlim. lia. } { by rewrite app_nil_r in Hm. }
    exists s'. rewrite app_nil_r. by split_and!.
Qed.

(** *** Elements *)

(** A parameter list ends at a multiple of 4. *)
Lemma enc_mutable_end n tp v pos bs : is_mutable tp = true -> enc libs swap n tp v pos = Some bs -> (pos + zlen bs) mod 4 = 0.
Proof.
  intros Hm He. destruct n as [|n]; [done|]. destruct tp as [| | | | | | | |ext scope size keyed opt ms]; try done. destruct ext; try done.
  destruct v as [|?|fs| |]; try done. cbn [enc] in He. change (bool_decide (MUTABLE = MUTABLE)) with true in He. cbv iota zeta in He.
  destruct (enc_body_with _ _ _ _ _ _ _ _) as [b|]; [|done]. cbn [mbind option_bind] in He. injection He as <-.
  rewrite zlen_app. unfold enc_eol. rewrite !zlen_app, pad_len, zlen_swapped, zlen_le_bytes by al. assert (E0 : zlen [0; 0] = 2) by done. rewrite E0.
  pose proof (ALIGN_spec (pos + zlen b) 4 ltac:(al)) as [_ Hmod].
  replace (pos + (zlen b + (ALIGN (pos + zlen b) 4 - (pos + zlen b) + (Z.of_nat 2 + 2)))) with (ALIGN (pos + zlen b) 4 + 1 * 4) by lia.
  by rewrite Z.mod_add.
Qed.

Definition elems_end (n : nat) (etp : XType) (vs : list XVal) (ofs : Z) : Z := foldl (fun o v => aux_end libs n etp v o) ofs vs.

Lemma elems_end_mono n al etp vs : ok_type libs n al etp = true -> forall ofs, ofs <= elems_end n etp vs ofs.
Proof.
  intros Hok. unfold elems_end. induction vs as [|v vs IH]; intros ofs; cbn; [lia|]. etransitivity; [|apply IH]. by eapply aux_mono.
Qed.

Definition elems_post (n : nat) (etp : XType) (a : Z) (vs : list XVal) (s s' : PState) : Prop :=
  let e := elems_end n etp vs (aux_ofs s) in
  let A := area a (zlen vs * nsize etp) (aux + aux_ofs s) (aux + e) in
  aux_ofs s' = e /\ want_label s' = false /\ within A (ps_mem s) (ps_mem s') /\
  forall m, agrees A (ps_mem s') m -> forall (i : nat) v, vs !! i = Some v -> repr libs n m (a + Z.of_nat i * nsize etp) etp v.

Lemma elems_pre n etp al v vs a s s0 :
  ok_type libs n al etp = true -> space s a (zlen (v :: vs) * nsize etp) (elems_end n etp (v :: vs) (aux_ofs s)) ->
  dst s0 + dofs s0 = a -> ps_mem s0 = ps_mem s -> aux_ofs s0 = aux_ofs s -> want_label s0 = want_label s ->
  read_pre n etp v s0.
Proof.
  intros Hok (? & ? & ? & Hda & ? & ? & Al1 & Al2) Ea Em Eo Ew. unfold read_pre. rewrite Ea, Em, Eo, Ew. pose proof (nsize_nonneg libs n _ _ Hok).
  pose proof (elems_end_mono n _ etp vs Hok (aux_end libs n etp v (aux_ofs s))) as Hmono. cbn [elems_end foldl] in *. rewrite zlen_cons in *.
  pose proof (zlen_nonneg vs). unfold elems_end in *. cbn [foldl] in *. split_and!; try done; try nia; [eapply allocated_sub; [exact Al1|lia|nia]|eapply allocated_sub; [exact Al2|lia|lia]].
Qed.

Lemma elems_space n etp al v vs a s s0 s1 :
  ok_type libs n al etp = true -> space s a (zlen (v :: vs) * nsize etp) (elems_end n etp (v :: vs) (aux_ofs s)) ->
  ps_mem s0 = ps_mem s -> aux_ofs s0 = aux_ofs s -> read_post n etp v s0 s1 ->
  space s1 (a + nsize etp) (zlen vs * nsize etp) (elems_end n etp vs (aux_ofs s1)).
Proof.
  intros Hok (? & ? & ? & Hda & ? & ? & Al1 & Al2) Em Eo (Hx1 & Hx2 & _ & HW & _). rewrite Em in HW. rewrite Eo in Hx1. unfold space. rewrite Hx1, Hx2.
  pose proof (nsize_nonneg libs n _ _ Hok). pose proof (aux_mono libs n etp v (aux_ofs s) _ Hok). rewrite zlen_cons in *. pose proof (zlen_nonneg vs).
  unfold elems_end in *. cbn [foldl] in *. split_and!; try done; try nia.
  - eapply within_allocated; [exact HW|]. eapply allocated_sub; [exact Al1|lia|nia].
  - eapply within_allocated; [exact HW|]. eapply allocated_sub; [exact Al2|lia|lia].
Qed.

Lemma elems_join n etp al v vs a s s0 s1 s' :
  ok_type libs n al etp = true -> space s a (zlen (v :: vs) * nsize etp) (elems_end n etp (v :: vs) (aux_ofs s)) ->
  dst s0 + dofs s0 = a -> ps_mem s0 = ps_mem s -> aux_ofs s0 = aux_ofs s -> read_post n etp v s0 s1 ->
  elems_post n etp (a + nsize etp) vs s1 s' -> elems_post n etp a (v :: vs) s s'.
Proof.
  intros Hok (_ & _ & _ & Hda & _) Ea Em Eo (H1 & _ & _ & HW & HR) (H1' & H2' & HW' & HR'). rewrite Ea, Eo in *. rewrite Em in *. rewrite H1 in *.
  pose proof (nsize_nonneg libs n _ _ Hok) as Hn. pose proof (aux_mono libs n etp v (aux_ofs s) _ Hok) as Hm1.
  pose proof (elems_end_mono n _ etp vs Hok (aux_end libs n etp v (aux_ofs s))) as Hm2. rewrite zlen_cons in Hda. pose proof (zlen_nonneg vs) as Hvs.
  unfold elems_post, elems_end in *. cbn [foldl] in *. set (e1 := aux_end libs n etp v (aux_ofs s)) in *. set (e := foldl _ e1 vs) in *. rewrite zlen_cons.
  assert (HA1 : forall i, area a (nsize etp) (aux + aux_ofs s) (aux + e1) i -> area a ((1 + zlen vs) * nsize etp) (aux + aux_ofs s) (aux + e) i) by (intros i [?|?]; [left; nia|right; lia]).
  assert (HA2 : forall i, area (a + nsize etp) (zlen vs * nsize etp) (aux + e1) (aux + e) i -> area a ((1 + zlen vs) * nsize etp) (aux + aux_ofs s) (aux + e) i) by (intros i [?|?]; [left; nia|right; lia]).
  split_and!; try done; [by eapply within_trans|]. intros m Hag [|i] w Hi.
  - injection Hi as ->. replace (a + _) with a by lia. apply HR. eapply agrees_before; [eapply agrees_mono; [exact Hag|exact HA1]|exact HW'|].
    intros j [?|?] [?|?]; nia.
  - cbn in Hi. replace (a + _) with (a + nsize etp + Z.of_nat i * nsize etp) by lia. eapply HR'; [eapply agrees_mono; [exact Hag|exact HA2]|done].
Qed.

Lemma elems_nil n etp a s : want_label s = false -> elems_post n etp a [] s s.
Proof. intros H. split; [done|]. split; [done|]. split; [apply within_refl|]. by intros m _ [|i]. Qed.

Lemma enc_elems_cons n etp v vs pos bs :
  enc_elems_with (enc libs swap n) etp (v :: vs) pos = Some bs ->
  exists b r, enc libs swap n etp v pos = Some b /\ enc_elems_with (enc libs swap n) etp vs (pos + zlen b) = Some r /\ bs = b ++ r.
Proof.
  cbn. destruct (enc libs swap n etp v pos) as [b|]; [|done]. cbn. destruct (enc_elems_with _ _ _ _) as [r|] eqn:E; [|done]. cbn. intros [= <-]. by exists b, r.
Qed.

Lemma read_elems n P etp al key : reads n P -> ok_type libs n (al && is_mutable etp) etp = true -> is_seq etp = false ->
  forall vs o pos bs s, enc_elems_with (enc libs swap n) etp vs pos = Some bs -> (al = true -> pos mod 4 = 0 \/ is_mutable etp = false) -> 0 <= pos -> pos + zlen bs < 2 ^ 32 -> at_mem src pos bs ->
  space s (dst s + o) (zlen vs * nsize etp) (elems_end n etp vs (aux_ofs s)) ->
  exists s', parse_elems P (length vs) etp (nsize etp) o key pos s = Some (pos + zlen bs, s') /\ dst s' = dst s /\ elems_post n etp (dst s + o) vs s s'.
Proof.
  intros HP Hok Hseq. induction vs as [|v vs IH]; intros o pos bs s He Hal Hp Hlim Hm Hsp.
  { injection He as <-. exists s. cbn. rewrite Z.add_0_r. split_and!; try done. apply elems_nil, Hsp. }
  apply enc_elems_cons in He as (b & r & Eb & Er & ->). apply at_mem_app in Hm as [Hm1 Hm2]. rewrite zlen_app in *.
  pose proof (enc_pos libs swap n _ _ _ _ _ Hok Eb) as Hb. pose proof (zlen_nonneg r).
  assert (Hpm : al && is_mutable etp = true -> pos mod 4 = 0) by (intros [Ha Hmu]%andb_true_iff; destruct (Hal Ha); [done|congruence]).
  destruct (HP etp v pos b _ key (set_dofs o s) Hok Eb Hpm Hp ltac:(lia) Hm1) as (s1 & E1 & HR1).
  { by eapply (elems_pre n etp _ v vs (dst s + o) s). }
  assert (Hd1 : dst s1 = dst s) by (destruct HR1 as (_ & _ & Hd & _); by apply Hd).
  destruct (IH (o + nsize etp) (pos + zlen b) r s1 Er) as (s' & E' & Hd' & HR'); try done; try lia.
  { intros Ha. destruct (is_mutable etp) eqn:Emu; [left|by right]. by eapply enc_mutable_end. }
  { rewrite Hd1, Z.add_assoc. by eapply (elems_space n etp _ v vs (dst s + o) s (set_dofs o s)). }
  exists s'. split; [|split; [congruence|]].
  - cbn [parse_elems length]. rewrite E1. cbn [mbind option_bind]. rewrite wrap_small by (split; lia). destruct (Z.eqb_spec (pos + zlen b) 0); [lia|].
    rewrite E'. do 2 f_equal. lia.
  - rewrite Hd1, Z.add_assoc in HR'. by eapply (elems_join n etp _ v vs (dst s + o) s (set_dofs o s) s1 s').
Qed.

Lemma ty_real scope id tp : ty libs scope id = Some tp -> real_type_ptr libs scope id = Some (Some tp).
Proof. unfold ty. by destruct (real_type_ptr libs scope id) as [[?|]|]; cbn; intros [= ->]. Qed.

Lemma read_array n P scope sh et esize bound v pos bs al key s :
  reads n P -> let tp := XArray scope sh et esize bound in
  ok_type libs (S n) al tp = true -> enc libs swap (S n) tp v pos = Some bs -> (al = true -> pos mod 4 = 0) -> 0 <= pos ->
  pos + zlen bs < 2 ^ 32 -> at_mem src pos bs -> read_pre (S n) tp v s ->
  exists s', cdr_parse_array libs P scope et esize bound key pos s = Some (pos + zlen bs, s') /\ read_post (S n) tp v s s'.
Proof.
  intros HP tp Hok He Hal Hp Hlim Hm Hpre. destruct v as [|?| | |vs]; try done. rewrite read_pre_space in Hpre.
  apply ok_array in Hok as (etp & k & -> & Et & Hk & Hk0 & -> & Hfold & Hmax & Hseq & Hok). cbn [enc tp] in He. rewrite Et, Hk in He. cbn [mbind option_bind] in He.
  destruct (Z.eqb_spec (zlen vs) k) as [<-|]; [|done]. cbn [nsize tp aux_end] in Hpre. rewrite Et, Hk in Hpre. cbn [default] in Hpre.
  rewrite (Z.mul_comm (nsize etp)) in Hpre. fold (elems_end n etp vs (aux_ofs s)) in Hpre. pose proof (nsize_nonneg libs n _ _ Hok).
  destruct (read_elems n P etp al key HP Hok Hseq vs (dofs s) pos bs s He ltac:(by left; apply Hal) Hp Hlim Hm Hpre) as (s' & E' & Hd & H1 & H2 & HW & HR).
  exists s'. split.
  - unfold cdr_parse_array. rewrite Hk, (ty_real _ _ _ Et). cbn [mbind option_bind]. unfold zlen. rewrite Nat2Z.id. rewrite wrap_small; [exact E'|].
    split; [done|nia].
  - unfold read_post. cbn [nsize tp aux_end]. rewrite Et, Hk. cbn [default]. rewrite (Z.mul_comm (nsize etp)). split_and!; try done.
    intros m Hag. exists etp. split; [done|]. by apply HR.
Qed.

Lemma read_seq_elems n P etp key seq buf : reads n P -> ok_type libs n (is_mutable etp) etp = true ->
  forall vs o pos bs s, enc_elems_with (enc libs swap n) etp vs pos = Some bs -> (is_mutable etp = true -> pos mod 4 = 0) -> 0 <= pos -> pos + zlen bs < 2 ^ 32 -> at_mem src pos bs ->
  0 <= o -> o + zlen vs * nsize etp < 2 ^ 32 -> seq + 24 <= buf + o -> load_ptr (ps_mem s) (seq + 16) = Some buf ->
  space s (buf + o) (zlen vs * nsize etp) (elems_end n etp vs (aux_ofs s)) ->
  exists s', parse_seq nip P (length vs) etp (nsize etp) seq o key pos s = Some (pos + zlen bs, s') /\ elems_post n etp (buf + o) vs s s'.
Proof.
  intros HP Hok. pose proof (nsize_nonneg libs n _ _ Hok) as Hn. induction vs as [|v vs IH]; intros o pos bs s He Hal Hp Hlim Hm Ho Hsz Hbuf Hptr Hsp.
  { injection He as <-. exists s. cbn. rewrite Z.add_0_r. split; [done|]. apply elems_nil, Hsp. }
  apply enc_elems_cons in He as (b & r & Eb & Er & ->). apply at_mem_app in Hm as [Hm1 Hm2]. rewrite zlen_app in *. rewrite zlen_cons in Hsz.
  pose proof (enc_pos libs swap n _ _ _ _ _ Hok Eb) as Hb. pose proof (zlen_nonneg r). pose proof (zlen_nonneg vs).
  set (s0 := set_dst buf o s).
  destruct (HP etp v pos b _ key s0 Hok Eb Hal Hp ltac:(lia) Hm1) as (s1 & E1 & HR1).
  { by eapply (elems_pre n etp _ v vs (buf + o) s). }
  pose proof HR1 as (_ & _ & _ & [HW1 _] & _). cbn [s0 dst dofs set_dst aux_ofs ps_mem] in HW1.
  assert (Hptr1 : load_ptr (ps_mem s1) (seq + 16) = Some buf).
  { rewrite <- Hptr. unfold load_ptr, load_num. rewrite (load_agree (ps_mem s) (ps_mem s1)); [done|]. intros i Hi. apply HW1.
    destruct Hsp as (_ & _ & _ & Hda & _). rewrite zlen_cons in Hda. intros [?|?]; nia. }
  destruct (IH (o + nsize etp) (pos + zlen b) r s1 Er) as (s' & E' & HR'); try done; try nia.
  { intros Hmu. by eapply enc_mutable_end. }
  { rewrite Z.add_assoc. by eapply (elems_space n etp _ v vs (buf + o) s s0). }
  exists s'. split.
  - cbn [parse_seq length]. unfold wanted. run. rewrite Hptr. run. fold s0. rewrite E1. run. rewrite (wrap_small 32 (pos + zlen b)) by (split; lia).
    destruct (Z.eqb_spec (pos + zlen b) 0); [lia|]. rewrite wrap_small by (split; nia). rewrite E'. do 2 f_equal. lia.
  - rewrite Z.add_assoc in HR'. by eapply (elems_join n etp _ v vs (buf + o) s s0 s1 s').
Qed.

(** The descriptor of a sequence. *)
Definition seq_desc (k esize p : Z) : list Z := (le_bytes 4 k ++ le_bytes 4 k ++ le_bytes 4 esize ++ le_bytes 4 1) ++ le_bytes 8 p.

Lemma enter_seq_ok etp esize k key s :
  let d := dst s + dofs s in let o := (cdr_field_ofs etp (aux_ofs s)).1 in
  allocated (ps_mem s) d 24 ->
  exists m, enter_seq nip etp esize k key s = Some (Some (set_mem m (set_aux (o + k * esize) s))) /\
    within (fun i => d <= i < d + 24) (ps_mem s) m /\ at_mem m d (seq_desc k esize (aux + o)).
Proof.
  intros d o Ha. set (b1 := le_bytes 4 k ++ le_bytes 4 k ++ le_bytes 4 esize ++ le_bytes 4 1). set (b2 := le_bytes 8 (aux + o)).
  assert (Hb1 : zlen b1 = 16) by (unfold b1; by rewrite !zlen_app, !zlen_le_bytes). assert (Hb2 : zlen b2 = 8) by apply zlen_le_bytes.
  destruct (store_ok (ps_mem s) (d + 16) b2) as [m1 E1]; [eapply allocated_sub; [exact Ha|lia|lia]|].
  destruct (store_ok m1 d b1) as [m2 E2]; [eapply stored_allocated; [exact E1|eapply allocated_sub; [exact Ha|lia|lia]]|].
  exists m2. split; [|split].
  - unfold enter_seq, wanted. run. unfold put_dst. run. fold d o b2. rewrite E1. run. fold d b1. rewrite Z.add_0_r, E2. done.
  - eapply within_trans; [exact (within_store _ _ _ _ E1)|exact (within_store _ _ _ _ E2)| |]; intros i Hi; cbn beta in *; lia.
  - unfold seq_desc. fold b1 b2. apply at_mem_app. split; [exact (store_at _ _ _ _ E2)|]. rewrite Hb1.
    eapply at_mem_agree; [exact (store_at _ _ _ _ E1)| |intros i Hi; exact Hi]. intros i Hi. apply (store_out _ _ _ _ E2). lia.
Qed.

Lemma seq_desc_len k esize p : zlen (seq_desc k esize p) = 24.
Proof. unfold seq_desc. by rewrite !zlen_app, !zlen_le_bytes. Qed.

Lemma seq_desc_fields m d k esize p : at_mem m d (seq_desc k esize p) -> 0 <= k < 2 ^ 32 -> 0 <= p < 2 ^ 64 ->
  load_num m (d + 4) 4 = Some k /\ load_ptr m (d + 16) = Some p.
Proof.
  intros [H1 H2]%at_mem_app Hk Hp. rewrite !zlen_app, !zlen_le_bytes in H2. apply at_mem_app in H1 as [_ H1].
  rewrite zlen_le_bytes in H1. change (Z.of_nat 4) with 4 in H1. apply at_mem_app in H1 as [H1 _]. split; [|by apply load_ptr_val].
  unfold load_num. rewrite (at_mem_load _ _ _ 4%nat H1) by apply length_le_bytes. cbn [fmap option_fmap option_map].
  rewrite le_val_bytes. f_equal. apply wrap_small. split; [lia|]. cbn. lia.
Qed.

Lemma read_seq n P scope sh et esize bound v pos bs al key s :
  reads n P -> let tp := XSequence scope sh et esize bound in
  ok_type libs (S n) al tp = true -> enc libs swap (S n) tp v pos = Some bs -> 0 <= pos ->
  pos + zlen bs < 2 ^ 32 -> at_mem src pos bs -> read_pre (S n) tp v s ->
  exists s', cdr_parse_seqmap libs src nip P scope et esize bound key pos s = Some (pos + zlen bs, s') /\ read_post (S n) tp v s s'.
Proof.
  intros HP tp Hok He Hp Hlim Hm Hpre. destruct v as [|?| | |vs]; try done. destruct Hpre as (Ha & Hw & Hd & Hda & Haux & Hb & Al1 & Al2).
  apply ok_seq in Hok as (etp & -> & Hbd & Et & -> & Hmax & Hok). cbn [enc tp] in He. rewrite Et in He. cbn [mbind option_bind] in He.
  case_if C in He; [|done]. apply andb_true_iff in C as [[C1%Z.ltb_lt C2%Z.ltb_lt]%andb_true_iff C3]. destruct (enc_elems_with _ _ _ _) as [r|] eqn:Er; [|done].
  cbn [mbind option_bind] in He. injection He as <-. unfold read_post. cbn [nsize tp aux_end] in *. rewrite Et in *.
  fold (elems_end n etp vs ((cdr_field_ofs etp (aux_ofs s)).1 + zlen vs * nsize etp)) in *.
  pose proof (field_ofs_fst libs n _ etp (aux_ofs s) Hok) as Hof. pose proof (nsize_nonneg libs n _ _ Hok) as Hn. pose proof (zlen_nonneg vs) as Hvs.
  assert (HK : 0 <= zlen vs * nsize etp) by nia.
  destruct (enter_seq_ok etp (nsize etp) (zlen vs) key s Al1) as (m1 & E1 & HW1 & Hdesc).
  set (o := (cdr_field_ofs etp (aux_ofs s)).1) in *. set (d := dst s + dofs s) in *. set (s1 := set_mem m1 (set_aux (o + zlen vs * nsize etp) s)) in *.
  set (e := elems_end n etp vs (o + zlen vs * nsize etp)) in *.
  assert (Hmono : o + zlen vs * nsize etp <= e) by (by eapply elems_end_mono).
  apply at_mem_pad in Hm; [|al]. apply at_mem_app in Hm as [Hm1 Hm2]. rewrite zlen_swapped, zlen_le_bytes in Hm2. change (Z.of_nat 4) with 4 in Hm2.
  rewrite !zlen_app, zlen_swapped, zlen_le_bytes, pad_len in * by al. change (Z.of_nat 4) with 4 in *. pose proof (zlen_nonneg r).
  pose proof (ALIGN_spec pos 4 ltac:(al)) as [HAl HAm].
  destruct (seq_desc_fields _ _ _ _ _ Hdesc ltac:(lia) ltac:(lia)) as [Hlen Hptr].
  destruct (read_seq_elems n P etp key d (aux + o) HP Hok vs 0 (ALIGN pos 4 + 4) r s1 Er) as (s' & E' & H1 & H2 & HW & HR); try done; try lia.
  { intros _. by rewrite Z.add_mod, HAm by lia. }
  { rewrite Z.add_0_r. unfold space, s1. cbn [aux_ofs set_mem set_aux want_label ps_mem]. fold e. split_and!; try done; try lia.
    - eapply within_allocated; [exact HW1|]. eapply allocated_sub; [exact Al2|lia|lia].
    - eapply within_allocated; [exact HW1|]. eapply allocated_sub; [exact Al2|lia|lia]. }
  rewrite Z.add_0_r in HW, HR. change (aux_ofs s1) with (o + zlen vs * nsize etp) in *. fold e in HW, HR, H1. change (ps_mem s1) with m1 in HW.
  assert (HA : forall i, area (aux + o) (zlen vs * nsize etp) (aux + (o + zlen vs * nsize etp)) (aux + e) i -> aux + aux_ofs s <= i < aux + e) by (intros i [?|?]; lia).
  exists s'. split; [|split_and!; try done].
  - unfold cdr_parse_seqmap. rewrite (ty_real _ _ _ Et). cbn [mbind option_bind].
    rewrite (at_mem_load _ _ _ 4%nat Hm1) by (by rewrite length_swapped, length_le_bytes). cbn [mbind option_bind]. change (int_swap nip) with swap.
    rewrite swapped_swapped, le_val_bytes, wrap_small by (split; [lia|cbn; lia]).
    assert (Hbc : negb (bound =? 0) && (bound <? zlen vs) = false) by (destruct (Z.eqb_spec bound 0), (Z.ltb_spec bound (zlen vs)); try done; zbool_lia).
    rewrite Hbc, E1. cbn [mbind option_bind]. fold d. unfold zlen at 1. rewrite Nat2Z.id, (wrap_small 32 (nsize etp)) by (split; lia).
    rewrite E'. do 2 f_equal. lia.
  - eapply within_trans; [exact HW1|exact HW| |]; intros i Hi; [left; exact Hi|right; by apply HA].
  - intros m Hag. exists etp, (aux + o).
    assert (Hd' : at_mem m d (seq_desc (zlen vs) (nsize etp) (aux + o))).
    { eapply at_mem_agree; [|exact Hag|intros i Hi; left; rewrite seq_desc_len in Hi; exact Hi].
      eapply at_mem_agree; [exact Hdesc| |intros i Hi; exact Hi]. intros i Hi. rewrite seq_desc_len in Hi. destruct HW as [HW _]. apply HW.
      intros Hj%HA. lia. }
    destruct (seq_desc_fields _ _ _ _ _ Hd' ltac:(lia) ltac:(lia)) as [Hlen' Hptr']. split_and!; try done; try lia.
    apply HR. eapply agrees_mono; [exact Hag|]. intros i Hi. right. by apply HA.
Qed.

(** *** Unions *)

(** A reader of discriminators. *)
Definition reads_label (n : nat) (P : XType -> bool -> Z -> PState -> option (Z * PState)) : Prop :=
  forall tp d pos bs key s, valid_discriminant tp = true -> enc libs swap n tp (VNum d) pos = Some bs -> at_mem src pos bs ->
    want_label s = true -> allocated (ps_mem s) (dst s + dofs s) (nsize tp) ->
    exists m, P tp key pos s = Some (pos + zlen bs, set_mem m (set_label false (Some (reader_label tp d)) s)) /\
      store (ps_mem s) (dst s + dofs s) d = Some m.

Lemma select_label_find l ms : Forall (fun x => (length (labels x) <= 1)%nat) ms -> forall def, select_label l def ms = find_label l def ms.
Proof.
  induction 1 as [|x ms Hx _ IH]; intros def; [done|]. cbn. rewrite !IH. destruct (is_default x); [done|]. destruct (bool_decide _); [done|].
  by destruct (labels x) as [|? [|? ?]]; cbn in Hx; [| |lia].
Qed.

Lemma nsize_num tp k : num_size tp = Some k -> nsize tp = Z.of_nat k.
Proof. intros H. unfold nsize. destruct tp; try done; by rewrite H. Qed.

Lemma repr_num_intro n m a tp d k : num_size tp = Some k -> length d = k -> at_mem m a d -> repr libs (S n) m a tp (VNum d).
Proof. intros H <- Hm. destruct tp as [| | | | | | |? ? ? [|]|]; cbn; try done; by rewrite H. Qed.

Lemma enc_union_inv n ext scope size mp ms v pos bs dtp :
  enc libs swap (S n) (XUnion ext scope size (mp :: ms)) v pos = Some bs -> ty libs scope (xm_id (um_member mp)) = Some dtp ->
  exists d w b1 b2 xmp vtp, v = VUnion (VNum d) w /\ enc libs swap n dtp (VNum d) pos = Some b1 /\
    find_label (writer_label dtp d) None ms = Some xmp /\ ty libs scope (xm_id (um_member xmp)) = Some vtp /\
    enc libs swap n vtp w (pos + zlen b1) = Some b2 /\ writer_label dtp d = reader_label dtp d /\ bs = b1 ++ b2.
Proof.
  intros He Et. destruct v as [|?| |[d| | | |] w|]; try done. cbn [enc] in He. rewrite Et in He. cbn [mbind option_bind] in He.
  destruct (enc libs swap n dtp (VNum d) pos) as [b1|] eqn:E1; [|done]. cbn [mbind option_bind] in He.
  destruct (find_label _ _ _) as [xmp|] eqn:Ef; [|done]. cbn [mbind option_bind] in He.
  destruct (ty libs scope (xm_id (um_member xmp))) as [vtp|] eqn:Ev; [|done]. cbn [mbind option_bind] in He.
  destruct (enc libs swap n vtp w _) as [b2|] eqn:E2; [|done]. cbn [mbind option_bind] in He.
  destruct (Z.eqb_spec (writer_label dtp d) (reader_label dtp d)); [|done]. injection He as <-. by exists d, w, b1, b2, xmp, vtp.
Qed.

Lemma read_union n P pf ext scope size mps v pos bs al key s :
  reads n P -> reads_label n P -> let tp := XUnion ext scope size mps in
  ok_type libs (S n) al tp = true -> enc libs swap (S n) tp v pos = Some bs -> 0 <= pos ->
  pos + zlen bs < 2 ^ 32 -> at_mem src pos bs -> read_pre (S n) tp v s ->
  exists s', cdr_parse_union libs src nip P pf ext scope mps key pos s = Some (pos + zlen bs, s') /\ read_post (S n) tp v s s'.
Proof.
  intros HP HPl tp Hok He Hp Hlim Hm Hpre. rewrite read_pre_space in Hpre.
  apply ok_union in Hok as (mp & ms & dtp & -> & Hext & Hs & Hdef & Hlab & Hof & Hopt & Hsh & Et & Hvd & Hokd & Hdsz & HF).
  destruct (enc_union_inv _ _ _ _ _ _ _ _ _ _ He Et) as (d & w & b1 & b2 & xmp & vtp & -> & E1 & Ef & Ev & E2 & Hwl & ->). clear He.
  unfold read_post. cbn [aux_end nsize tp] in *. rewrite Et, Ef, Ev in *.
  destruct (find_label_in _ _ _ _ Ef) as [Hin|]; [|done]. pose proof HF as HF'. rewrite Forall_forall in HF'.
  destruct (HF' _ Hin) as (Ho & Hsx & _ & Hxo & vtp' & Ev' & Hokv & Hxs). assert (vtp' = vtp) as -> by congruence.
  destruct (enc_num_inv libs swap n _ _ _ _ E1) as (k & Hk & Hdk & _ & _). pose proof (nsize_num _ _ Hk) as Hnd.
  assert (Hzd : zlen d = nsize dtp) by (unfold zlen; lia). pose proof (enc_num_pos libs swap _ _ _ _ _ E1) as Hb1. pose proof (enc_pos libs swap _ _ _ _ _ _ Hokv E2) as Hb2.
  rewrite zlen_app in *. apply at_mem_app in Hm as [Hm1 Hm2].
  destruct (HPl dtp d pos b1 (key && is_key (um_member mp)) (set_label true None s) Hvd E1 Hm1 eq_refl) as (m1 & P1 & S1).
  { destruct Hpre as (_ & _ & _ & _ & _ & _ & Al0 & _). cbn. eapply allocated_sub; [exact Al0|lia|lia]. }
  cbn [dst dofs set_label ps_mem] in S1. pose proof (within_store _ _ _ _ S1) as HW1. rewrite Hzd in HW1.
  set (s1 := set_mem m1 (set_label false (Some (reader_label dtp d)) (set_label true None s))) in *.
  set (a := dst s + dofs s) in *. pose proof (nsize_nonneg libs n _ _ Hokv) as Hnv. pose proof (aux_mono libs n vtp w (aux_ofs s) _ Hokv) as Hmono.
  assert (Hms : member_size libs scope (um_member xmp) = nsize vtp) by (unfold member_size; by rewrite Ho, Ev).
  assert (Hend : member_end n scope (um_member xmp) (Some w) (aux_ofs s) = aux_end libs n vtp w (aux_ofs s)) by (unfold member_end; by rewrite Ev, Ho).
  destruct (read_member n P false scope (um_member xmp) vtp w (pos + zlen b1) b2 0 (key && is_key (um_member xmp)) s1 HP) as (s' & E' & (H1 & H2 & H3 & H4 & HW) & HR);
    try done; try lia; [split_and!; try done; try lia; by rewrite Ho|by rewrite Ho| |].
  { unfold space. rewrite Hms. change (aux_ofs s1) with (aux_ofs s). rewrite Hend. change (dst s1 + dofs s1) with a. destruct Hpre as (? & ? & ? & ? & ? & ? & Al1 & Al2).
    split_and!; try done; try lia; (eapply within_allocated; [exact HW1|]); [eapply allocated_sub; [exact Al1|lia|lia]|exact Al2]. }
  change (dst s1 + dofs s1) with a in *. change (aux_ofs s1) with (aux_ofs s) in *. change (ps_mem s1) with m1 in *. change (dst s1) with (dst s) in *.
  rewrite Hms, Hend in *. set (e := aux_end libs n vtp w (aux_ofs s)) in *.
  exists s'. split; [|split_and!; try done].
  - unfold cdr_parse_union. change (bool_decide (sformat nip = CF_CDR)) with true. rewrite Hext. cbn [andb]. unfold parse_discriminant.
    rewrite (ty_real _ _ _ Et). cbn [mbind option_bind]. rewrite Hvd. change (set_label true _ _) with (set_label true None s). rewrite P1. cbn [mbind option_bind].
    destruct (Z.eqb_spec (pos + zlen b1) 0); [lia|]. cbn [mbind option_bind s1 lab set_mem set_label]. fold s1. cbn [select_label]. rewrite Hdef, Hlab.
    change (bool_decide (_ ∈ [])) with false. change (1 <? length [])%nat with false. cbv iota.
    rewrite select_label_find by (eapply Forall_impl; [exact HF|]; cbn beta; tauto). rewrite <- Hwl, Ef, Ho. cbn [mbind option_bind negb].
    rewrite E'. change (0 =? 0) with true. cbv iota. do 2 f_equal. lia.
  - eapply within_trans; [exact HW1|exact HW| |]; intros i Hi; cbn beta in Hi; [left; lia|]. destruct Hi as [?|?]; [left; lia|by right].
  - intros m Hag. exists dtp, xmp, vtp. split; [done|]. split; [|split_and!; try done].
    + destruct n as [|n]; [done|]. eapply repr_num_intro; [exact Hk|done|]. eapply at_mem_agree; [exact (store_at _ _ _ _ S1)| |intros i Hi; exact Hi].
      eapply agrees_before; [|exact HW|]; [eapply agrees_mono; [exact Hag|]; intros i Hi; left; fold a in Hi; lia|].
      intros i Hi [?|?]; fold a in Hi; destruct Hpre as (_ & _ & _ & Hda & _); lia.
    + destruct (HR m) as (tp' & Etp & Hr); [eapply agrees_mono; [exact Hag|]; intros i [?|?]; [left; lia|by right]|]. rewrite Ho in Hr.
      by replace tp' with vtp in Hr by congruence.
Qed.

(** *** All types *)

Lemma at_mem_size pos bs : at_mem src pos bs -> (length bs < S (size src))%nat.
Proof.
  intros H. enough (length bs <= size src)%nat by lia. apply allocated_size with pos. intros i Hi.
  destruct (lookup_lt_is_Some_2 bs (Z.to_nat (i - pos))) as [b Hb]; [lia|]. replace i with (pos + Z.of_nat (Z.to_nat (i - pos))) by lia.
  rewrite (at_mem_lookup _ _ _ _ _ H Hb). by eexists.
Qed.

Lemma read_label n : reads_label n (cdr_parse n libs src xmalloc_ok nip).
Proof.
  intros tp d pos bs key s Hvd He Hm Hw Ha. destruct n as [|n]; [done|]. destruct (enc_num_inv _ _ _ _ _ _ _ He) as (k & Hk & Hl & _ & ->).
  cbn [cdr_parse]. rewrite (parse_body_num _ _ _ _ _ _ _ _ Hk). pose proof (num_al _ _ Hk) as [Hal _]. rewrite (nsize_num _ _ Hk) in Ha.
  destruct (get_num_ok d k (num_value tp) (Some (reader_label tp d)) key pos s Hm Hl Hal Hw) as (m & E & Hst).
  { intros x [= <-]. by apply num_value_label. } { unfold zlen. by rewrite Hl. }
  exists m. by split.
Qed.

Lemma read_num n tp d pos bs key s :
  enc libs swap (S n) tp (VNum d) pos = Some bs -> at_mem src pos bs -> read_pre (S n) tp (VNum d) s ->
  exists s', cdr_parse (S n) libs src xmalloc_ok nip tp key pos s = Some (pos + zlen bs, s') /\ read_post (S n) tp (VNum d) s s'.
Proof.
  intros He Hm (Ha & Hw & Hd & Hda & Haux & Hb & Al1 & Al2). destruct (enc_num_inv _ _ _ _ _ _ _ He) as (k & Hk & Hl & _ & ->).
  pose proof (num_al _ _ Hk) as [Hal _]. rewrite (nsize_num _ _ Hk) in Al1.
  destruct (get_num_ok d k (num_value tp) None key pos s Hm Hl Hal Hw) as (m & E & Hst); [done|unfold zlen; by rewrite Hl|].
  assert (Hae : aux_end libs (S n) tp (VNum d) (aux_ofs s) = aux_ofs s) by (by destruct tp as [| | | | | | |? ? ? [|]|]).
  exists (set_mem m s). split; [cbn [cdr_parse]; by rewrite (parse_body_num _ _ _ _ _ _ _ _ Hk)|]. unfold read_post. rewrite Hae, (nsize_num _ _ Hk).
  assert (Hz : zlen d = Z.of_nat k) by (unfold zlen; lia). pose proof (within_store _ _ _ _ Hst) as HW. rewrite Hz in HW.
  split_and!; try done; [eapply within_mono; [exact HW|]; intros i Hi; by left|].
  intros m' Hag. eapply repr_num_intro; [done|done|]. eapply at_mem_agree; [exact (store_at _ _ _ _ Hst)|exact Hag|]. intros i Hi. left. lia.
Qed.

Theorem read_ok n : reads n (cdr_parse n libs src xmalloc_ok nip).
Proof.
  induction n as [|n IH]; [done|]. intros tp v pos bs al key s Hok He Hal Hp Hlim Hm Hpre. pose proof (at_mem_size _ _ Hm) as Hsz. pose proof (read_label n) as HL.
  assert (HN : (exists d, v = VNum d) \/ forall d, v <> VNum d) by (destruct v; [left; by eexists|by right..]). destruct HN as [[d ->]|HN]; [by eapply read_num|].
  destruct tp as [k|b|b|? ?|sc sh et es bd|sc sh et es bd|bd|ext sc size ms|ext sc size keyed opt ms];
    try (destruct v; try done; exfalso; by eapply HN).
  - by eapply (read_array n _ sc sh et es bd v pos bs al key s IH).
  - by eapply (read_seq n _ sc sh et es bd v pos bs al key s IH).
  - destruct v as [|cs| | |]; try done. cbn in Hok. cbn [cdr_parse parse_body]. destruct (Z.eqb_spec bd 0) as [->|Hb0]; [by eapply (read_unbounded n)|].
    eapply (read_bounded n); try done. zbool_lia.
  - by eapply (read_union n _ _ ext sc size ms v pos bs al key s IH HL).
  - by eapply (read_struct n _ _ ext sc size keyed opt ms v pos bs al key s IH).
Qed.

End Native.
