(* ===== verification/XcdrSize.v ===== *)
(** The space that unmarshalling needs is what the traversal that computes
    lengths finds: [cdr_unmarshalled_size] before [cdr_unmarshall]. *)

From stdpp Require Import gmap.
From S2P Require Import Prelude TypeData Mem Xcdr XcdrParse XcdrSpec XcdrGen XcdrRead.
From stdpp Require Import list.

#[local] Open Scope Z_scope.
#[local] Arguments le_bytes : simpl never.
#[local] Arguments ALIGN : simpl never.
#[local] Arguments swapped : simpl never.
#[local] Arguments load : simpl never.

Section Length.
  Context (libs : XLibs) (src : Mem) (xmalloc_ok swap : bool).

Definition lip : ParseInfo := mkPI PA_GetAuxLength CF_CDR CF_Native 0 0 swap swap false.

(** The length grows from [s] to [s'] by the space of the value. *)
Definition counted (s s' : PState) (e : Z) : Prop := dlength s' = e /\ want_label s' = false.

Definition counts (n : nat) (P : XType -> bool -> Z -> PState -> option (Z * PState)) : Prop :=
  forall tp v pos bs al key s, ok_type libs n al tp = true -> enc libs swap n tp v pos = Some bs ->
    (al = true -> pos mod 4 = 0) -> 0 <= pos -> pos + zlen bs < 2 ^ 32 -> at_mem src pos bs -> want_label s = false ->
    exists s', P tp key pos s = Some (pos + zlen bs, s') /\ counted s s' (aux_end libs n tp v (dlength s)).

Definition counts_label (n : nat) (P : XType -> bool -> Z -> PState -> option (Z * PState)) : Prop :=
  forall tp d pos bs key s, valid_discriminant tp = true -> enc libs swap n tp (VNum d) pos = Some bs -> at_mem src pos bs ->
    want_label s = true -> P tp key pos s = Some (pos + zlen bs, set_label false (Some (reader_label tp d)) s).

Lemma count_num bs k value l key pos s :
  at_mem src pos (pad pos (Z.of_nat k) ++ swapped swap bs) -> length bs = k -> al_ok (Z.of_nat k) ->
  want_label s = (match l with Some _ => true | None => false end) -> (forall x, l = Some x -> value (le_val bs) = Some x) ->
  get_num src lip k value key pos s =
    Some (pos + zlen (pad pos (Z.of_nat k) ++ swapped swap bs), match l with Some x => set_label false (Some x) s | None => s end).
Proof.
  intros Hm Hk Hal Hw Hv. apply at_mem_pad in Hm; [|done]. pose proof (at_mem_load _ _ _ k Hm) as Hload.
  rewrite length_swapped in Hload. specialize (Hload Hk). rewrite zlen_app, pad_len, zlen_swapped by done.
  assert (Ez : pos + (ALIGN pos (Z.of_nat k) - pos + zlen bs) = ALIGN pos (Z.of_nat k) + Z.of_nat k) by (unfold zlen; lia). rewrite Ez.
  unfold get_num, in_cdr, wanted. run. rewrite Hw. destruct l as [x|]; [|done]. rewrite Hload. run. rewrite swapped_swapped, (Hv x eq_refl).
  unfold take_label. by rewrite Hw.
Qed.

Lemma count_label n : counts_label n (cdr_parse n libs src xmalloc_ok lip).
Proof.
  intros tp d pos bs key s Hvd He Hm Hw. destruct n as [|n]; [done|]. destruct (enc_num_inv _ _ _ _ _ _ _ He) as (k & Hk & Hl & _ & ->).
  cbn [cdr_parse]. erewrite parse_body_num by exact Hk. pose proof (num_al _ _ Hk) as [Hal _].
  apply (count_num d k (num_value tp) (Some (reader_label tp d)) key pos s Hm Hl Hal Hw). intros x [= <-]. by apply num_value_label.
Qed.

Lemma count_string n bound cs pos bs key s :
  enc libs swap (S n) (XString bound) (VStr cs) pos = Some bs -> at_mem src pos bs -> want_label s = false ->
  exists s', cdr_parse_string src lip bound key pos s = Some (pos + zlen bs, s') /\ counted s s' (aux_end libs (S n) (XString bound) (VStr cs) (dlength s)).
Proof.
  intros He Hm Hw. cbn in He. case_if C in He; [|done]. injection He as <-. apply str_ok_inv in C as (_ & Hl & _).
  destruct (load_len_field _ _ pos cs [0] Hm Hl) as (lb & Elb & Hlb & _). assert (H0 : zlen [0] = 1) by done.
  rewrite !zlen_app, zlen_swapped, zlen_le_bytes, H0, pad_len by al. eexists. split.
  - unfold cdr_parse_string, in_cdr. run. rewrite Elb. run. rewrite Hlb. do 2 f_equal. lia.
  - unfold string_length. run. destruct (bound =? 0); by split.
Qed.

Lemma count_member n P mutable scope mp tp v pos body plen key s :
  counts n P -> member_ok libs n mutable scope mp tp -> enc libs swap n tp v pos = Some body -> (mutable = true -> pos mod 4 = 0) ->
  0 <= pos -> pos + zlen body < 2 ^ 32 -> at_mem src pos body ->
  (plen = 0 \/ zlen body <= plen) -> (is_optional mp = true -> 0 < plen) -> want_label s = false ->
  exists s', cdr_parse_member libs lip P scope mp plen key pos s = Some (if plen =? 0 then pos + zlen body else pos + plen, s') /\
    counted s s' (member_end libs n scope mp (Some v) (dlength s)).
Proof.
  intros HP (Hsh & Et & Hok & Hstr & Hoff) He Hal Hp Hlim Hm Hpl Hop Hw. pose proof (enc_pos libs swap n _ _ _ _ _ Hok He) as Hbp.
  unfold cdr_parse_member, member_end. rewrite (ty_real _ _ _ _ Et), Et. cbn [mbind option_bind]. unfold enter_member. cbn [action lip]. rewrite Hsh, orb_false_r.
  assert (Hfin : forall s1 : PState, (if negb (plen =? 0) then Some (if pos + plen <? pos + zlen body then 0 else pos + plen, s1) else Some (pos + zlen body, s1)) =
    Some (if plen =? 0 then pos + zlen body else pos + plen, s1)).
  { intros s1. destruct (Z.eqb_spec plen 0); [done|]. cbn [negb]. destruct (Z.ltb_spec (pos + plen) (pos + zlen body)); [lia|done]. }
  set (s0 := if is_optional mp then set_dlength ((cdr_field_ofs tp (dlength s)).1 + (cdr_field_ofs tp (dlength s)).2) s else s).
  assert (Ens : (if is_optional mp && negb (plen =? 0) then let '(o, esize) := cdr_field_ofs tp (dlength s) in Some (set_dlength (o + esize) s, true, pos)
                 else Some (s, true, pos)) = Some (s0, true, pos)).
  { unfold s0. destruct (is_optional mp); [|done]. specialize (Hop eq_refl). destruct (Z.eqb_spec plen 0); [lia|]. cbn [andb negb]. by destruct (cdr_field_ofs tp (dlength s)). }
  rewrite Ens. cbn [mbind option_bind negb].
  destruct (HP tp v pos body mutable key s0 Hok He Hal Hp Hlim Hm) as (s1 & Es1 & H1 & H2); [unfold s0; by destruct (is_optional mp)|].
  rewrite Es1. cbn [mbind option_bind]. destruct (Z.eqb_spec (pos + zlen body) 0); [lia|]. change (bool_decide (PA_GetAuxLength = PA_GetNative)) with false. cbv iota zeta.
  rewrite Hfin. exists s1. split; [done|]. split; [|done]. rewrite H1. unfold s0. destruct (is_optional mp); [|done]. by destruct (cdr_field_ofs tp (dlength s)).
Qed.

Lemma count_members_plain n P scope keyed key ms : forall fs pos bs i s,
  counts n P -> mems_ok libs n false scope ms -> Forall (fun mp => 0 <= xm_offset mp) ms ->
  enc_body_with libs swap (enc libs swap n) false scope ms fs pos = Some bs ->
  0 <= pos -> pos + zlen bs < 2 ^ 32 -> at_mem src pos bs -> want_label s = false ->
  exists s', parse_unordered libs src lip P ms i scope keyed key pos s = Some (pos + zlen bs, s') /\ counted s s' (mems_end libs n scope ms fs (dlength s)).
Proof.
  induction ms as [|mp ms IH]; intros fs pos bs i s HP Hms HO He Hp Hlim Hm Hw.
  { destruct fs; [|done]. injection He as <-. exists s. cbn. by rewrite Z.add_0_r. }
  apply Forall_cons in HO as [Hof HO]. pose proof Hms as [(Hsh & Hmu & tp & Et & Hok & Hstr) Hms']%Forall_cons.
  assert (Ho : is_optional mp = false) by (destruct (is_optional mp); [by discriminate (Hmu eq_refl)|done]).
  destruct fs as [|[v|] fs]; cbn in He; [done| |by rewrite Ho in He]. rewrite Et in He. cbn in He.
  destruct (enc libs swap n tp v pos) as [b|] eqn:Eb; [|done]. cbn in He.
  destruct (enc_body_with _ _ _ _ _ ms fs _) as [r|] eqn:Er; [|done]. injection He as <-. apply at_mem_app in Hm as [Hm1 Hm2]. rewrite zlen_app in *.
  pose proof (enc_pos libs swap n _ _ _ _ _ Hok Eb) as Hb. pose proof (zlen_nonneg r).
  destruct (count_member n P false scope mp tp v pos b 0 (key && (is_key mp || negb keyed)) s HP) as (s1 & E1 & H1 & H2); try done; try lia; [by rewrite Ho|].
  destruct (IH fs (pos + zlen b) r (i + 1) s1 HP Hms' HO Er) as (s' & E' & H1' & H2'); try done; try lia.
  exists s'. split; [|split; [by rewrite H1', H1|done]].
  unfold parse_unordered; fold (parse_unordered libs src lip P). change (CF_Key (sformat lip)) with false. rewrite Ho. cbn [andb mbind option_bind negb].
  change (bool_decide (action lip = PA_GetOffset)) with false. cbn [andb]. rewrite E1. cbn [mbind option_bind].
  change (0 =? 0) with true. cbv iota. destruct (Z.eqb_spec (pos + zlen b) 0); [lia|]. rewrite E'. do 2 f_equal. lia.
Qed.

Lemma count_plist n P scope keyed key : forall ms pre k fs pos bs s,
  counts n P -> mems_ok libs n true scope ms -> Forall (fun mp => 0 <= xm_offset mp) ms -> ids_ok (pre ++ ms) = true ->
  enc_body_with libs swap (enc libs swap n) true scope ms fs pos = Some bs -> pos mod 4 = 0 ->
  0 <= pos -> pos + zlen bs + 4 < 2 ^ 32 -> at_mem src pos (bs ++ enc_eol swap (pos + zlen bs)) -> (length bs < k)%nat -> want_label s = false ->
  exists s', parse_plist libs src lip P k scope keyed (pre ++ ms) key pos s = Some (pos + zlen bs + 4, s') /\ (pos + zlen bs) mod 4 = 0 /\
    counted s s' (mems_end libs n scope ms fs (dlength s)).
Proof.
  induction ms as [|mp ms IH]; intros pre k fs pos bs s HP Hms HO Hids He Hpm Hp Hlim Hm Hk Hw.
  { destruct fs; [|done]. injection He as <-. destruct k as [|k]; [cbn in Hk; lia|]. exists s. cbn [app] in Hm. rewrite zlen_nil, Z.add_0_r in *.
    unfold enc_eol in Hm. apply at_mem_pad in Hm; [|al]. destruct (parse_list_end _ _ pos Hm Hpm) as (l & u & El). split; [|done].
    cbn [parse_plist int_swap lip]. rewrite El. cbn [mbind option_bind]. destruct (Z.eqb_spec (pos + 4) 0); [lia|]. done. }
  apply Forall_cons in HO as [Hof HO]. pose proof Hms as [(Hsh & Hmu & tp & Et & Hok & Hstr) Hms']%Forall_cons.
  assert (HM : member_ok libs n true scope mp tp) by (by split_and!). pose proof (ids_app _ _ _ Hids) as (Hid & Hid2 & Hfind).
  assert (Hids' : ids_ok ((pre ++ [mp]) ++ ms) = true) by (by rewrite <- app_assoc).
  destruct fs as [|[v|] fs]; [done| |].
  - destruct (param_at _ _ _ _ _ _ _ _ _ _ _ _ He Et Hok Hid Hpm Hp ltac:(lia) Hm)
      as (start & stop & body & r & u & Eu & Eb & Hm1 & Er & Hm2 & Hst & Hsp4 & Hs0 & Hb & Hle & Hz & Hlen).
    rewrite Hz in Hlim |- *. pose proof (zlen_nonneg r).
    destruct k as [|k]; [lia|].
    destruct (count_member n P true scope mp tp v start body (stop - start) (key && (is_key mp || negb keyed)) s HP) as (s1 & E1 & H1 & H2); try done; try lia.
    assert (E0 : (stop - start =? 0) = false) by (apply Z.eqb_neq; lia). rewrite E0 in E1. replace (start + (stop - start)) with stop in E1 by lia.
    destruct (IH (pre ++ [mp]) k fs stop r s1 HP Hms' HO Hids' Er) as (s' & E' & Hmod & H1' & H2'); try done; try lia.
    exists s'. rewrite <- app_assoc in E'. split; [|split; [done|split; [by rewrite H1', H1|done]]].
    cbn [parse_plist]. change (int_swap lip) with swap. rewrite Eu. cbn [mbind option_bind]. destruct (Z.eqb_spec start 0); [lia|].
    destruct (Z.eqb_spec (member_id mp) XT_PID_LIST_END); [done|]. rewrite Hfind. change (bool_decide (action lip = PA_GetOffset)) with false.
    cbn [andb]. rewrite E1. cbn [mbind option_bind]. destruct (Z.eqb_spec stop 0); [lia|]. exact E'.
  - cbn [enc_body_with] in He. destruct (is_optional mp) eqn:Eo; [|done].
    destruct (IH (pre ++ [mp]) k fs pos bs s HP Hms' HO Hids' He) as (s' & E' & HR'); try done. rewrite <- app_assoc in E'. by exists s'.
Qed.

Lemma count_struct n P pf ext scope size keyed opt ms v pos bs al key s :
  counts n P -> let tp := XStruct ext scope size keyed opt ms in
  ok_type libs (S n) al tp = true -> enc libs swap (S n) tp v pos = Some bs -> (al = true -> pos mod 4 = 0) -> 0 <= pos ->
  pos + zlen bs < 2 ^ 32 -> at_mem src pos bs -> (length bs < pf)%nat -> want_label s = false ->
  exists s', cdr_parse_struct libs src xmalloc_ok lip P pf ext scope keyed opt ms key pos s = Some (pos + zlen bs, s') /\
    counted s s' (aux_end libs (S n) tp v (dlength s)).
Proof.
  intros HP tp Hok He Hal Hp Hlim Hm Hpf Hw. destruct v as [|?|fs| |]; try done. pose proof (ok_struct_mems _ _ _ _ _ _ _ _ _ Hok) as Hms.
  pose proof (ok_struct libs _ _ _ _ _ _ _ _ Hok) as (Hmu & HL & _ & _ & Hids & _). cbv zeta in *. pose proof (layout_offsets _ _ _ _ HL) as HO.
  cbn [enc tp] in He. destruct (enc_body_with _ _ _ _ _ _ _ _) as [b|] eqn:Eb; [|done]. cbn [mbind option_bind] in He. injection He as <-.
  unfold cdr_parse_struct. destruct (bool_decide (ext = MUTABLE)) eqn:Ex; cbn [negb].
  - change (CF_Key (sformat lip)) with false. change (CF_Key (pdformat lip)) with false. cbn [negb]. unfold cdr_parse_mutable_unordered.
    change (bool_decide (action lip = PA_GetNative)) with false. rewrite andb_false_r. cbn [mbind option_bind]. specialize (Hal (Hmu eq_refl)).
    rewrite zlen_app in Hlim. destruct (eol_zlen swap (pos + zlen b)) as [Hel' Hel].
    destruct (count_plist n P scope keyed key ms [] pf fs pos b s HP Hms HO (Hids eq_refl) Eb Hal Hp) as (s' & E' & Hmod & HC); try done; try lia.
    { rewrite length_app in Hpf. lia. }
    exists s'. split; [|exact HC]. cbn [app] in E'. rewrite E', zlen_app, Hel by done. do 2 f_equal. lia.
  - rewrite app_nil_r in *. destruct (count_members_plain n P scope keyed key ms fs pos b 0 s HP Hms HO Eb) as (s' & E' & HC); try done. by exists s'.
Qed.

Lemma count_elems n P etp al key : counts n P -> ok_type libs n (al && is_mutable etp) etp = true ->
  forall vs o pos bs s, enc_elems_with (enc libs swap n) etp vs pos = Some bs -> (al = true -> pos mod 4 = 0 \/ is_mutable etp = false) -> 0 <= pos -> pos + zlen bs < 2 ^ 32 -> at_mem src pos bs ->
  want_label s = false ->
  exists s', parse_elems P (length vs) etp (nsize etp) o key pos s = Some (pos + zlen bs, s') /\ counted s s' (elems_end libs n etp vs (dlength s)).
Proof.
  intros HP Hok. induction vs as [|v vs IH]; intros o pos bs s He Hal Hp Hlim Hm Hw.
  { injection He as <-. exists s. cbn. by rewrite Z.add_0_r. }
  apply enc_elems_cons in He as (b & r & Eb & Er & ->). apply at_mem_app in Hm as [Hm1 Hm2]. rewrite zlen_app in *.
  pose proof (enc_pos libs swap n _ _ _ _ _ Hok Eb) as Hb. pose proof (zlen_nonneg r).
  assert (Hpm : al && is_mutable etp = true -> pos mod 4 = 0) by (intros [Ha Hmu]%andb_true_iff; destruct (Hal Ha); [done|congruence]).
  destruct (HP etp v pos b _ key (set_dofs o s) Hok Eb Hpm Hp ltac:(lia) Hm1 Hw) as (s1 & E1 & H1 & H2).
  destruct (IH (o + nsize etp) (pos + zlen b) r s1 Er) as (s' & E' & H1' & H2'); try done; try lia.
  { intros Ha. destruct (is_mutable etp) eqn:Emu; [left|by right]. by eapply enc_mutable_end. }
  exists s'. split; [|split; [by rewrite H1', H1|done]].
  cbn [parse_elems length]. rewrite E1. cbn [mbind option_bind]. rewrite wrap_small by (split; lia). destruct (Z.eqb_spec (pos + zlen b) 0); [lia|].
  rewrite E'. do 2 f_equal. lia.
Qed.

Lemma count_array n P scope sh et esize bound v pos bs al key s :
  counts n P -> let tp := XArray scope sh et esize bound in
  ok_type libs (S n) al tp = true -> enc libs swap (S n) tp v pos = Some bs -> (al = true -> pos mod 4 = 0) -> 0 <= pos ->
  pos + zlen bs < 2 ^ 32 -> at_mem src pos bs -> want_label s = false ->
  exists s', cdr_parse_array libs P scope et esize bound key pos s = Some (pos + zlen bs, s') /\ counted s s' (aux_end libs (S n) tp v (dlength s)).
Proof.
  intros HP tp Hok He Hal Hp Hlim Hm Hw. destruct v as [|?| | |vs]; try done.
  apply ok_array in Hok as (etp & k & -> & Et & Hk & Hk0 & -> & Hfold & Hmax & Hseq & Hok). cbn [enc tp] in He. rewrite Et, Hk in He. cbn [mbind option_bind] in He.
  destruct (Z.eqb_spec (zlen vs) k) as [<-|]; [|done]. pose proof (nsize_nonneg libs n _ _ Hok).
  destruct (count_elems n P etp al key HP Hok vs (dofs s) pos bs s He ltac:(by left; apply Hal) Hp Hlim Hm Hw) as (s' & E' & HC).
  exists s'. split; [|unfold tp; cbn [aux_end]; by rewrite Et].
  unfold cdr_parse_array. rewrite Hk, (ty_real _ _ _ _ Et). cbn [mbind option_bind]. unfold zlen. rewrite Nat2Z.id. rewrite wrap_small; [exact E'|]. split; [done|nia].
Qed.

Lemma count_seq_elems n P etp size key seq : counts n P -> ok_type libs n (is_mutable etp) etp = true ->
  forall vs o pos bs s, enc_elems_with (enc libs swap n) etp vs pos = Some bs -> (is_mutable etp = true -> pos mod 4 = 0) -> 0 <= pos -> pos + zlen bs < 2 ^ 32 -> at_mem src pos bs ->
  want_label s = false ->
  exists s', parse_seq lip P (length vs) etp size seq o key pos s = Some (pos + zlen bs, s') /\ counted s s' (elems_end libs n etp vs (dlength s)).
Proof.
  intros HP Hok. induction vs as [|v vs IH]; intros o pos bs s He Hal Hp Hlim Hm Hw.
  { injection He as <-. exists s. cbn. by rewrite Z.add_0_r. }
  apply enc_elems_cons in He as (b & r & Eb & Er & ->). apply at_mem_app in Hm as [Hm1 Hm2]. rewrite zlen_app in *.
  pose proof (enc_pos libs swap n _ _ _ _ _ Hok Eb) as Hb. pose proof (zlen_nonneg r).
  destruct (HP etp v pos b _ key s Hok Eb Hal Hp ltac:(lia) Hm1 Hw) as (s1 & E1 & H1 & H2).
  destruct (IH ⟦o + size⟧32 (pos + zlen b) r s1 Er) as (s' & E' & H1' & H2'); try done; try lia.
  { intros Hmu. by eapply enc_mutable_end. }
  exists s'. split; [|split; [by rewrite H1', H1|done]].
  cbn [parse_seq length]. change (PA_CopyData (action lip)) with false. cbn [andb mbind option_bind]. rewrite E1. cbn [mbind option_bind].
  rewrite (wrap_small 32 (pos + zlen b)) by (split; lia). destruct (Z.eqb_spec (pos + zlen b) 0); [lia|]. rewrite E'. do 2 f_equal. lia.
Qed.

Lemma count_seq n P scope sh et esize bound v pos bs al key s :
  counts n P -> let tp := XSequence scope sh et esize bound in
  ok_type libs (S n) al tp = true -> enc libs swap (S n) tp v pos = Some bs -> 0 <= pos ->
  pos + zlen bs < 2 ^ 32 -> at_mem src pos bs -> want_label s = false ->
  exists s', cdr_parse_seqmap libs src lip P scope et esize bound key pos s = Some (pos + zlen bs, s') /\ counted s s' (aux_end libs (S n) tp v (dlength s)).
Proof.
  intros HP tp Hok He Hp Hlim Hm Hw. destruct v as [|?| | |vs]; try done.
  apply ok_seq in Hok as (etp & -> & Hbd & Et & -> & Hmax & Hok). cbn [enc tp] in He. rewrite Et in He. cbn [mbind option_bind] in He.
  case_if C in He; [|done]. apply andb_true_iff in C as [[C1%Z.ltb_lt C2%Z.ltb_lt]%andb_true_iff C3]. destruct (enc_elems_with _ _ _ _) as [r|] eqn:Er; [|done].
  cbn [mbind option_bind] in He. injection He as <-. pose proof (nsize_nonneg libs n _ _ Hok) as Hn. pose proof (zlen_nonneg vs) as Hvs.
  assert (HK : 0 <= zlen vs * nsize etp) by nia.
  apply at_mem_pad in Hm; [|al]. apply at_mem_app in Hm as [Hm1 Hm2]. rewrite zlen_swapped, zlen_le_bytes in Hm2. change (Z.of_nat 4) with 4 in Hm2.
  rewrite !zlen_app, zlen_swapped, zlen_le_bytes, pad_len in * by al. change (Z.of_nat 4) with 4 in *. pose proof (zlen_nonneg r).
  pose proof (ALIGN_spec pos 4 ltac:(al)) as [HAl HAm].
  set (s1 := set_dlength ((cdr_field_ofs etp (dlength s)).1 + zlen vs * nsize etp) s).
  destruct (count_seq_elems n P etp (nsize etp) key (dst s + dofs s) HP Hok vs 0 (ALIGN pos 4 + 4) r s1 Er) as (s' & E' & HC); try done; try lia.
  { intros _. by rewrite Z.add_mod, HAm by lia. }
  exists s'. split; [|unfold tp; cbn [aux_end]; by rewrite Et].
  unfold cdr_parse_seqmap. rewrite (ty_real _ _ _ _ Et). cbn [mbind option_bind].
  rewrite (at_mem_load _ _ _ 4%nat Hm1) by (by rewrite length_swapped, length_le_bytes). cbn [mbind option_bind]. change (int_swap lip) with swap.
  rewrite swapped_swapped, le_val_bytes, wrap_small by (split; [lia|cbn; lia]).
  assert (Hbc : negb (bound =? 0) && (bound <? zlen vs) = false) by (destruct (Z.eqb_spec bound 0), (Z.ltb_spec bound (zlen vs)); try done; zbool_lia).
  rewrite Hbc. unfold enter_seq. run. rewrite !(wrap_small 32 (nsize etp)), (wrap_small 32 (zlen vs * nsize etp)) by (split; lia). fold s1.
  unfold zlen at 1. rewrite Nat2Z.id, E'. do 2 f_equal. lia.
Qed.

Lemma count_union n P pf ext scope size mps v pos bs al key s :
  counts n P -> counts_label n P -> let tp := XUnion ext scope size mps in
  ok_type libs (S n) al tp = true -> enc libs swap (S n) tp v pos = Some bs -> 0 <= pos ->
  pos + zlen bs < 2 ^ 32 -> at_mem src pos bs -> want_label s = false ->
  exists s', cdr_parse_union libs src lip P pf ext scope mps key pos s = Some (pos + zlen bs, s') /\ counted s s' (aux_end libs (S n) tp v (dlength s)).
Proof.
  intros HP HPl tp Hok He Hp Hlim Hm Hw.
  apply ok_union in Hok as (mp & ms & dtp & -> & Hext & Hs & Hdef & Hlab & Hof & Hopt & Hsh & Et & Hvd & Hokd & Hdsz & HF).
  destruct (enc_union_inv _ _ _ _ _ _ _ _ _ _ _ _ He Et) as (d & w & b1 & b2 & xmp & vtp & -> & E1 & Ef & Ev & E2 & Hwl & ->). clear He.
  unfold tp. cbn [aux_end]. rewrite Et, Ef, Ev in *.
  destruct (find_label_in _ _ _ _ Ef) as [Hin|]; [|done]. pose proof HF as HF'. rewrite Forall_forall in HF'.
  destruct (HF' _ Hin) as (Ho & Hsx & _ & Hxo & vtp' & Ev' & Hokv & Hxs). assert (vtp' = vtp) as -> by congruence.
  pose proof (enc_num_pos libs swap _ _ _ _ _ E1) as Hb1. pose proof (enc_pos libs swap _ _ _ _ _ _ Hokv E2) as Hb2. pose proof (nsize_nonneg libs n _ _ Hokd).
  rewrite zlen_app in *. apply at_mem_app in Hm as [Hm1 Hm2].
  pose proof (HPl dtp d pos b1 (key && is_key (um_member mp)) (set_label true None s) Hvd E1 Hm1 eq_refl) as P1.
  set (s1 := set_label false (Some (reader_label dtp d)) (set_label true None s)) in *.
  destruct (count_member n P false scope (um_member xmp) vtp w (pos + zlen b1) b2 0 (key && is_key (um_member xmp)) s1 HP) as (s' & E' & H1 & H2);
    try done; try lia; [split_and!; try done; try lia; by rewrite Ho|by rewrite Ho|].
  exists s'. split; [|split; [rewrite H1; unfold member_end; by rewrite Ev, Ho|done]].
  unfold cdr_parse_union. change (bool_decide (sformat lip = CF_CDR)) with true. rewrite Hext. cbn [andb]. unfold parse_discriminant.
  rewrite (ty_real _ _ _ _ Et). cbn [mbind option_bind]. rewrite Hvd. change (set_label true _ _) with (set_label true None s). rewrite P1. cbn [mbind option_bind].
  destruct (Z.eqb_spec (pos + zlen b1) 0); [lia|]. cbn [mbind option_bind s1 lab set_label]. fold s1. cbn [select_label]. rewrite Hdef, Hlab.
  change (bool_decide (_ ∈ [])) with false. change (1 <? length [])%nat with false. cbv iota.
  rewrite select_label_find by (eapply Forall_impl; [exact HF|]; cbn beta; tauto). rewrite <- Hwl, Ef, Ho. cbn [mbind option_bind negb].
  rewrite E'. change (0 =? 0) with true. cbv iota. do 2 f_equal. lia.
Qed.

Theorem count_ok n : counts n (cdr_parse n libs src xmalloc_ok lip).
Proof.
  induction n as [|n IH]; [done|]. intros tp v pos bs al key s Hok He Hal Hp Hlim Hm Hw. pose proof (at_mem_size _ _ _ Hm) as Hsz. pose proof (count_label n) as HL.
  assert (HN : (exists d, v = VNum d) \/ forall d, v <> VNum d) by (destruct v; [left; by eexists|by right..]). destruct HN as [[d ->]|HN].
  { destruct (enc_num_inv _ _ _ _ _ _ _ He) as (k & Hk & Hl & _ & ->). pose proof (num_al _ _ Hk) as [Hal' _]. exists s. split.
    - cbn [cdr_parse]. erewrite parse_body_num by exact Hk. by apply (count_num d k (num_value tp) None).
    - by destruct tp as [| | | | | | |? ? ? [|]|]. }
  destruct tp as [k|b|b|? ?|sc sh et es bd|sc sh et es bd|bd|ext sc size ms|ext sc size keyed opt ms];
    try (destruct v; try done; exfalso; by eapply HN).
  - by eapply (count_array n _ sc sh et es bd v pos bs al key s IH).
  - by eapply (count_seq n _ sc sh et es bd v pos bs al key s IH).
  - destruct v as [|cs| | |]; try done. by eapply (count_string n).
  - by eapply (count_union n _ _ ext sc size ms v pos bs al key s IH HL).
  - by eapply (count_struct n _ _ ext sc size keyed opt ms v pos bs al key s IH).
Qed.

End Length.
