(* ===== verification/XcdrTheorems.v ===== *)
(** What CDR marshalling promises (xtypes/xcdr.c): the bytes written are the
    encoding of the value and the length computed beforehand is theirs;
    unmarshalling them gives the value back in one block of exactly the length
    computed beforehand; and where the two halves disagree. *)

From stdpp Require Import gmap.
From S2P Require Import Prelude TypeData Mem Xcdr XcdrParse XcdrSpec XcdrGen XcdrRead XcdrSize.
From stdpp Require Import list.

#[local] Open Scope Z_scope.
#[local] Arguments le_bytes : simpl never.
#[local] Arguments ALIGN : simpl never.
#[local] Arguments swapped : simpl never.
#[local] Arguments load : simpl never.
#[local] Arguments store : simpl never.

(** ** The length of an encoding does not depend on the byte order *)

Section Swap.
  Context (libs : XLibs) (s1 s2 : bool).

Definition same_len (a b : option (list Z)) : Prop :=
  match a, b with Some x, Some y => zlen x = zlen y | None, None => True | _, _ => False end.

Lemma same_len_bind (a b : option (list Z)) f g :
  same_len a b -> (forall x y, a = Some x -> b = Some y -> zlen x = zlen y -> same_len (f x) (g y)) -> same_len (a ≫= f) (b ≫= g).
Proof. destruct a as [x|], b as [y|]; cbn; try done. intros H HF. by apply HF. Qed.

Lemma header_same mp k : same_len (enc_header s1 mp k) (enc_header s2 mp k).
Proof. unfold enc_header. repeat case_match; cbn; try done; by rewrite !zlen_app, !zlen_swapped, !zlen_le_bytes. Qed.

Lemma body_same n mutable scope ms : (forall tp v pos, same_len (enc libs s1 n tp v pos) (enc libs s2 n tp v pos)) -> forall fs pos,
  same_len (enc_body_with libs s1 (enc libs s1 n) mutable scope ms fs pos) (enc_body_with libs s2 (enc libs s2 n) mutable scope ms fs pos).
Proof.
  intros IH. induction ms as [|mp ms IHm]; intros fs pos; destruct fs as [|[v|] fs]; cbn [enc_body_with]; try done; [|by case_match].
  destruct (ty libs scope (xm_id mp)) as [tp|]; [|done]. cbn [mbind option_bind]. apply same_len_bind.
  - destruct mutable; [|apply IH]. apply same_len_bind; [apply IH|]. intros x y _ _ Hxy. rewrite Hxy. apply same_len_bind; [apply header_same|].
    intros h h' _ _ Hh. cbn. rewrite !zlen_app. lia.
  - intros x y _ _ Hxy. rewrite Hxy. apply same_len_bind; [apply IHm|]. intros r r' _ _ Hr. cbn. rewrite !zlen_app. lia.
Qed.

Lemma elems_same n etp vs : (forall tp v pos, same_len (enc libs s1 n tp v pos) (enc libs s2 n tp v pos)) -> forall pos,
  same_len (enc_elems_with (enc libs s1 n) etp vs pos) (enc_elems_with (enc libs s2 n) etp vs pos).
Proof.
  intros IH. induction vs as [|v vs IHv]; intros pos; cbn [enc_elems_with]; [done|]. apply same_len_bind; [apply IH|].
  intros x y _ _ Hxy. rewrite Hxy. apply same_len_bind; [apply IHv|]. intros r r' _ _ Hr. cbn. rewrite !zlen_app. lia.
Qed.

Lemma enc_same n : forall tp v pos, same_len (enc libs s1 n tp v pos) (enc libs s2 n tp v pos).
Proof.
  induction n as [|n IH]; [done|]. intros tp v pos.
  assert (HN : forall k bs, same_len (if (length bs =? k)%nat && forallb is_byte bs then Some (pad pos (Z.of_nat k) ++ swapped s1 bs) else None)
                              (if (length bs =? k)%nat && forallb is_byte bs then Some (pad pos (Z.of_nat k) ++ swapped s2 bs) else None)).
  { intros k bs. case_match; cbn; [|done]. by rewrite !zlen_app, !zlen_swapped. }
  destruct tp as [k|b|b|sc base|sc sh et es bound|sc sh et es bound|bound|ext sc size ms|ext sc size keyed opt ms];
    destruct v as [d|cs|fs|[d| | | |] v|vs]; cbn [enc]; try done; try (destruct (num_size _); [apply HN|done]); try (by destruct ms).
  - destruct (ty libs sc et) as [etp|]; [|done]. cbn [mbind option_bind]. destruct (array_nelems bound) as [q|]; [|done]. cbn [mbind option_bind]. case_match; [by apply elems_same|done].
  - destruct (ty libs sc et) as [etp|]; [|done]. cbn [mbind option_bind]. case_match; [|done]. apply same_len_bind; [by apply elems_same|].
    intros x y _ _ Hxy. cbn. rewrite !zlen_app, !zlen_swapped. lia.
  - case_match; [|done]. cbn. by rewrite !zlen_app, !zlen_swapped.
  - destruct ms as [|mp ms]; [done|]. destruct (ty libs sc _) as [dtp|]; [|done]. cbn [mbind option_bind]. apply same_len_bind; [apply IH|].
    intros x y _ _ Hxy. destruct (find_label _ _ _) as [xmp|]; [|done]. cbn [mbind option_bind]. destruct (ty libs sc _) as [vtp|]; [|done]. cbn [mbind option_bind].
    rewrite Hxy. apply same_len_bind; [apply IH|]. intros x' y' _ _ Hxy'. case_match; [|done]. cbn. rewrite !zlen_app. lia.
  - apply same_len_bind; [by apply body_same|]. intros x y _ _ Hxy. cbn. rewrite !zlen_app, Hxy. f_equal. case_match; [|done].
    unfold enc_eol. by rewrite !zlen_app, !zlen_swapped.
Qed.

End Swap.

(** ** Marshalling *)

(** The type is an aggregate for which the two halves agree, and the memory at
    [data] has a value of the type. *)
Record marshallable (n : nat) (libs : XLibs) (swap : bool) (hsize : Z) (tp rtp : XType) (tsize : Z) (v : XVal) (bs : list Z) : Prop := {
  ma_real : xt_real_type libs tp = Some rtp;
  ma_aggregate : is_aggregate rtp = Some tsize;
  ma_type : ok_type libs n (hsize mod 4 =? 0) rtp = true;
  ma_enc : enc libs swap n rtp v hsize = Some bs;
  ma_start : 0 <= hsize;
  ma_size : hsize + zlen bs < 2 ^ 32 - 4
}.

Lemma marshall_size n libs swap m xm hsize data tp rtp tsize v bs :
  marshallable n libs swap hsize tp rtp tsize v bs -> 0 < data -> repr libs n m data rtp v ->
  cdr_marshalled_size n libs m xm hsize data tp false false = Some (zlen bs, DDS_RETCODE_OK).
Proof.
  intros [Hr Hag Hok He Hh Hs] Hd Hm. unfold cdr_marshalled_size. rewrite Hr. cbn [mbind option_bind].
  pose proof (enc_same libs swap false n rtp v hsize) as Hsame. rewrite He in Hsame. destruct (enc libs false n rtp v hsize) as [bs'|] eqn:E'; [|done]. cbn in Hsame.
  destruct (gen_ok libs m xm false n rtp v hsize bs' data _ Hok Hm E' Hh Hd None false I) as (o' & Eg & _).
  pose proof (enc_pos libs swap n _ _ _ _ _ Hok He) as Hb. change (gen_format false false) with CF_CDR.
  destruct rtp; try done; rewrite Eg; cbn [mbind option_bind]; (destruct (Z.eqb_spec (hsize + zlen bs') 0); [lia|]); do 2 f_equal; lia.
Qed.

Lemma marshall_bytes n libs swap m xm dest hsize data tp rtp tsize v bs :
  marshallable n libs swap hsize tp rtp tsize v bs -> 0 < data -> repr libs n m data rtp v ->
  allocated dest hsize (ALIGN (zlen bs) 4) ->
  exists dest', cdr_marshall n libs m xm dest hsize data tp false false swap = Some (dest', ALIGN (zlen bs) 4, DDS_RETCODE_OK) /\
    store dest hsize (bs ++ pad (zlen bs) 4) = Some dest'.
Proof.
  intros [Hr Hag Hok He Hh Hs] Hd Hm Ha. unfold cdr_marshall. destruct (Z.eqb_spec data 0); [lia|]. cbn [andb negb]. rewrite Hr. cbn [mbind option_bind].
  pose proof (ALIGN_spec (zlen bs) 4 ltac:(al)) as [Hal _]. pose proof (enc_pos libs swap n _ _ _ _ _ Hok He) as Hb.
  destruct (gen_ok libs m xm swap n rtp v hsize bs data _ Hok Hm He Hh Hd (Some dest) false) as (o' & Eg & b & -> & Hst); [eapply allocated_sub; [exact Ha|lia|lia]|].
  destruct (store_ok b (hsize + zlen bs) (pad (zlen bs) 4)) as [dest' E2].
  { rewrite pad_len by al. eapply stored_allocated; [exact Hst|]. eapply allocated_sub; [exact Ha|lia|lia]. }
  exists dest'. split; [|rewrite store_app, Hst; exact E2]. change (gen_format false false) with CF_CDR.
  destruct rtp; try done; rewrite Eg; cbn [mbind option_bind]; replace (hsize + zlen bs - hsize) with (zlen bs) by lia;
    rewrite wrap_small by (split; lia); cbv zeta; (destruct (Z.eqb_spec (zlen bs) 0); [lia|]); unfold pad in E2; by rewrite E2.
Qed.

(** ** Unmarshalling *)

Definition block_size (size tsize : Z) : Z := if size =? 0 then tsize else size.

Lemma unmarshall_size n libs swap src xm hsize tp rtp tsize v bs size :
  marshallable n libs swap hsize tp rtp tsize v bs -> at_mem src hsize bs -> size = 0 \/ tsize <= size ->
  cdr_unmarshalled_size n libs src xm hsize tp false false swap size = Some (aux_end libs n rtp v 0 + block_size size tsize, DDS_RETCODE_OK).
Proof.
  intros [Hr Hag Hok He Hh Hs] Hm Hsz. unfold cdr_unmarshalled_size. rewrite Hr. cbn [mbind option_bind]. rewrite Hag.
  assert (Hc : negb (size =? 0) && (size <? tsize) = false) by (destruct (Z.eqb_spec size 0), (Z.ltb_spec size tsize); try done; lia). rewrite Hc.
  destruct (count_ok libs src xm swap n rtp v hsize bs (hsize mod 4 =? 0) true (mkPS ∅ 0 hsize 0 0 false None [])) as (s' & E & H1 & _); try done; [by intros ->%Z.eqb_eq|lia|].
  change (mkPI _ _ _ _ _ _ _ _) with (lip swap). rewrite E. cbn [mbind option_bind]. pose proof (enc_pos libs swap n _ _ _ _ _ Hok He).
  destruct (Z.eqb_spec (hsize + zlen bs) 0); [lia|]. by rewrite H1.
Qed.

Lemma aggregate_nsize rtp tsize : is_aggregate rtp = Some tsize -> nsize rtp = tsize.
Proof. by destruct rtp; try done; cbn; intros [= ->]. Qed.

Lemma unmarshall_value n libs swap src xm allocs m hsize tp rtp tsize v bs size d :
  let total := aux_end libs n rtp v 0 + block_size size tsize in
  marshallable n libs swap hsize tp rtp tsize v bs -> at_mem src hsize bs -> size = 0 \/ tsize <= size ->
  0 < d -> d + total < 2 ^ 64 -> allocated m d total ->
  exists m', cdr_unmarshall n libs src xm allocs m d hsize tp false false swap size = Some (m', DDS_RETCODE_OK) /\
    changed m m' d total /\ forall m'', agrees (fun i => d <= i < d + total) m' m'' -> repr libs n m'' d rtp v.
Proof.
  intros total [Hr Hag Hok He Hh Hs] Hm Hsz Hd Hlim Ha. unfold cdr_unmarshall. rewrite Hr. cbn [mbind option_bind]. rewrite Hag.
  assert (Hc : negb (size =? 0) && (size <? tsize) = false) by (destruct (Z.eqb_spec size 0), (Z.ltb_spec size tsize); try done; lia). rewrite Hc.
  fold (block_size size tsize). pose proof (aux_mono libs n rtp v 0 _ Hok) as Hmono. pose proof (aggregate_nsize _ _ Hag) as Hns.
  pose proof (nsize_nonneg libs n _ _ Hok) as Hn.
  assert (Hts : tsize <= block_size size tsize) by (unfold block_size; destruct (Z.eqb_spec size 0); lia).
  destruct (read_ok libs src xm swap (d + block_size size tsize) n rtp v hsize bs (hsize mod 4 =? 0) true (mkPS m d 0 0 0 false None allocs)) as (s' & E & _ & _ & _ & [HW _] & HR);
    try done; [by intros ->%Z.eqb_eq|lia| |].
  { unfold read_pre. cbn. rewrite Hns. split_and!; try done; try lia; (eapply allocated_sub; [exact Ha|lia|lia]). }
  change (mkPI _ _ _ _ _ _ _ _) with (nip swap (d + block_size size tsize)). rewrite E. cbn [mbind option_bind].
  pose proof (enc_pos libs swap n _ _ _ _ _ Hok He). destruct (Z.eqb_spec (hsize + zlen bs) 0); [lia|]. cbn [dst dofs aux_ofs ps_mem] in HW, HR. rewrite Z.add_0_r in HW, HR.
  exists (ps_mem s'). split; [done|]. rewrite Hns in *.
  assert (HA : forall i, area d tsize (d + block_size size tsize + 0) (d + block_size size tsize + aux_end libs n rtp v 0) i -> d <= i < d + total) by (intros i [?|?]; lia).
  split.
  - intros i Hi. apply HW. intros Hj%HA. lia.
  - intros m'' Hag'. apply HR. eapply agrees_mono; [exact Hag'|exact HA].
Qed.

(** ** A sample *)

Module Sample.

Definition mb (i id off : Z) (o : bool) : XMember := mkXMember false o false false i id off.
Definition um (i id off : Z) (d : bool) (ls : list Z) : UnionMember := mkUMember (mb i id off false) d ls.

(** Bytes in memory. *)
Definition bytes (a : Z) (l : list Z) (m : Mem) : Mem := fold_right (fun '(i, b) m => <[a + i := b]> m) m (zip (seqZ 0 (zlen l)) l).

Definition i32 : XType := XPrim DDS_INT_32_TYPE.
Definition i16 : XType := XPrim DDS_INT_16_TYPE.

(** A mutable structure of a byte, a string, a sequence of structures, an
    optional structure with an extended id, an array, a structure, a union and
    an optional number, which the type library has by an alias. *)
Definition inner : XType := XStruct MUTABLE 0 16 false false [mb 1 1 0 false; mb 2 2 8 false].
Definition choice : XType := XUnion FINAL 0 8 [um 0 8 0 false []; um 1 1 4 false [5]; um 2 3 4 true []].
Definition outer : XType :=
  XStruct MUTABLE 0 88 false true
    [mb 1 3 0 false; mb 2 2 8 false; mb 5 6 16 false; mb 20000 4 40 true; mb 7 7 48 false; mb 8 4 56 false; mb 9 9 72 false; mb 10 1 80 true].
Definition libs : XLibs :=
  [Some [None; Some i32; Some (XString 0); Some (XPrim DDS_BYTE_TYPE); Some inner; Some (XAlias 0 10); Some (XSequence 0 false 4 16 0);
         Some (XArray 0 false 8 2 [2; 2]); Some i16; Some choice; Some outer]].

Definition native : Mem :=
  bytes 1000 ([7] ++ replicate 7 0 ++ le_bytes 8 2000 ++ (le_bytes 4 2 ++ le_bytes 4 2 ++ le_bytes 4 16 ++ le_bytes 4 1 ++ le_bytes 8 3000) ++
              le_bytes 8 4000 ++ [1; 2; 3; 4; 5; 6; 7; 8] ++ (le_bytes 8 99 ++ le_bytes 8 2000) ++ [5; 0; 0; 0; 9; 8; 7; 6] ++ le_bytes 8 0)
  (bytes 2000 [72; 73; 74; 0] (bytes 3000 (le_bytes 8 1 ++ le_bytes 8 2000 ++ le_bytes 8 77 ++ le_bytes 8 2002)
  (bytes 4000 (le_bytes 8 55 ++ le_bytes 8 2001) ∅))).

Definition pair (n : Z) (s : list Z) : XVal := VStruct [Some (VNum (le_bytes 4 n)); Some (VStr s)].
Definition value : XVal :=
  VStruct [Some (VNum [7]); Some (VStr [72; 73; 74]); Some (VElems [pair 1 [72; 73; 74]; pair 77 [74]]); Some (pair 55 [73; 74]);
           Some (VElems [VNum [1; 2]; VNum [3; 4]; VNum [5; 6]; VNum [7; 8]]); Some (pair 99 [72; 73; 74]);
           Some (VUnion (VNum [5; 0]) (VNum [9; 8; 7; 6])); None].
Definition cdr : list Z := Eval vm_compute in default [] (enc libs true 5 outer value 4).

Lemma sample_ok : marshallable 5 libs true 4 (XAlias 0 10) outer 88 value cdr.
Proof. split; vm_compute; done. Qed.

Lemma pair_repr n a i s p :
  load native a 4 = Some (le_bytes 4 i) -> load_ptr native (a + 8) = Some p -> 0 < p ->
  load native p (length (s ++ [0])) = Some (s ++ [0]) -> repr libs (S (S n)) native a inner (pair i s).
Proof.
  intros H1 H2 Hp H3. cbn [repr inner pair]. repeat constructor.
  - exists i32. split; [done|]. cbn. split; [done|]. unfold at_mem. rewrite Z.add_0_r. exact H1.
  - exists (XString 0). split; [done|]. cbn. exists p. split; [done|]. by right.
Qed.

Lemma native_repr : repr libs 5 native 1000 outer value.
Proof.
  assert (HP : forall a i s p, load native a 4 = Some (le_bytes 4 i) -> load_ptr native (a + 8) = Some p -> 0 < p ->
    load native p (length (s ++ [0])) = Some (s ++ [0]) -> forall n, repr libs (S (S n)) native a inner (pair i s)) by (intros; by eapply pair_repr).
  repeat constructor; eexists; (split; [reflexivity|]); cbn -[repr load_ptr pair].
  - split; [reflexivity|]. by vm_compute.
  - exists 2000. split; [by vm_compute|]. right. split; [done|]. by vm_compute.
  - exists inner, 3000. split_and!; [done|by vm_compute|by vm_compute|done|]. intros [|[|[|i]]] v; intros [= <-]; eapply HP; by vm_compute.
  - exists 4000. split; [by vm_compute|]. split; [done|]. eapply HP; by vm_compute.
  - exists i16. split; [done|]. intros [|[|[|[|[|i]]]]] v; intros [= <-]; (split; [done|by vm_compute]).
  - eapply HP; by vm_compute.
  - exists i16, (um 1 1 4 false [5]), i32. split_and!; try done; by vm_compute.
  - exists 0. split; [by vm_compute|done].
Qed.

End Sample.

(** ** The promises *)

(** C10. [cdr_marshall] of a value in native memory writes the CDR encoding of
    the value, followed by zeros up to a multiple of 4, which are up to three
    bytes more than [cdr_marshalled_size] gives, and leaves the rest of the
    destination as it was; the length that [cdr_marshalled_size] gives
    beforehand is that of the encoding.  This is for structures and unions of
    the types [ok_type] (listed at the round trip below), data instead of keys,
    an encoding that exists and ends below 2^32 - 4, and a destination with room
    for the zeros too. *)
Theorem cdr_marshall_encodes n libs swap m xm dest hsize data tp rtp tsize v bs :
  marshallable n libs swap hsize tp rtp tsize v bs -> 0 < data -> repr libs n m data rtp v ->
  allocated dest hsize (ALIGN (zlen bs) 4) ->
  cdr_marshalled_size n libs m xm hsize data tp false false = Some (zlen bs, DDS_RETCODE_OK) /\
  exists dest', cdr_marshall n libs m xm dest hsize data tp false false swap = Some (dest', ALIGN (zlen bs) 4, DDS_RETCODE_OK) /\
    store dest hsize (bs ++ pad (zlen bs) 4) = Some dest'.
Proof. intros H Hd Hr Ha. split; [by eapply marshall_size|by eapply marshall_bytes]. Qed.

(** C11. [cdr_unmarshall] of the encoding of a value makes a well-typed native
    structure with the value, in one block: the length that
    [cdr_unmarshalled_size] gives beforehand is enough, nothing outside of the
    block is changed, and nothing outside of it is part of the value.  This is
    for structures and unions of the types [ok_type], data instead of keys, an
    encoding that ends below 2^32 - 4, a size of the structure that is 0 or at
    least that of its type, and a block below the end of the address space; for
    a type that [ok_type] excludes, [narrow_enum] is a write outside a member. *)
Theorem cdr_unmarshall_one_block n libs swap src xm xm' allocs m hsize tp rtp tsize v bs size d :
  marshallable n libs swap hsize tp rtp tsize v bs -> at_mem src hsize bs -> size = 0 \/ tsize <= size -> 0 < d ->
  exists total, cdr_unmarshalled_size n libs src xm hsize tp false false swap size = Some (total, DDS_RETCODE_OK) /\
    (d + total < 2 ^ 64 -> allocated m d total ->
     exists m', cdr_unmarshall n libs src xm' allocs m d hsize tp false false swap size = Some (m', DDS_RETCODE_OK) /\
       changed m m' d total /\ forall m'', agrees (fun i => d <= i < d + total) m' m'' -> repr libs n m'' d rtp v).
Proof.
  intros H Hm Hs Hd. eexists. split; [by eapply unmarshall_size|]. intros. by eapply unmarshall_value.
Qed.

(** C5. A value that is marshalled, in either byte order, and unmarshalled into
    a block of the length that is asked for is the same value, for structures
    and unions of the types for which the two halves of the code agree, data
    instead of keys, and an encoding that ends below 2^32 - 4.  [ok_type] admits numbers but enumerations of at most 8
    bits and 128-bit floats; strings; structures with at least one member, whose
    members are inside the structure and disjoint, not shareable, the first not
    optional, optional ones in mutable structures only and no strings, and ids
    of mutable structures that differ, are below 2^28 and not that of the end of
    a list; mutable structures at aligned offsets only: at the top with a header
    size that is a multiple of 4, in mutable structures and in sequences; unions
    that are not mutable, with at most one label per member and no optional or
    shareable member; sequences; arrays, but not of sequences; no shared
    elements. *)
Theorem cdr_roundtrip n libs swap m xm dest hsize data tp rtp tsize v bs allocs m2 d :
  marshallable n libs swap hsize tp rtp tsize v bs -> 0 < data -> repr libs n m data rtp v ->
  allocated dest hsize (ALIGN (zlen bs) 4) -> 0 < d ->
  exists dest' k total, cdr_marshall n libs m xm dest hsize data tp false false swap = Some (dest', k, DDS_RETCODE_OK) /\
    cdr_unmarshalled_size n libs dest' xm hsize tp false false swap 0 = Some (total, DDS_RETCODE_OK) /\
    (d + total < 2 ^ 64 -> allocated m2 d total ->
     exists m2', cdr_unmarshall n libs dest' xm allocs m2 d hsize tp false false swap 0 = Some (m2', DDS_RETCODE_OK) /\
       repr libs n m2' d rtp v).
Proof.
  intros H Hd Hr Ha Hd2. destruct (marshall_bytes _ _ _ _ xm _ _ _ _ _ _ _ _ H Hd Hr Ha) as (dest' & E & Hst).
  assert (Hm : at_mem dest' hsize bs) by (apply store_at, at_mem_app in Hst as [Hst _]; exact Hst).
  exists dest'. eexists. eexists. split; [exact E|]. split; [eapply unmarshall_size; [exact H|exact Hm|by left]|]. intros Hl Ha2.
  destruct (unmarshall_value n libs swap dest' xm allocs m2 hsize tp rtp tsize v bs 0 d H Hm) as (m' & E' & _ & HR); try done; [by left|].
  exists m'. split; [exact E'|]. by apply HR.
Qed.

(** A bounded string whose length field is 0 makes the parser clear the byte
    in front of the string: the last byte of the member before it, or the byte
    before the block. *)
Theorem cdr_string_underflow src swap aux bound hsize key s lb :
  0 < bound < 2 ^ 32 - 2 -> load src (ALIGN hsize 4) 4 = Some lb -> le_val (swapped swap lb) = 0 ->
  let d := dst s + dofs s in allocated (ps_mem s) (d - 1) (bound + 2) ->
  exists s', cdr_parse_string src (nip swap aux) bound key hsize s = Some (ALIGN hsize 4 + 4, s') /\ ps_mem s' !! (d - 1) = Some 0.
Proof.
  intros Hb El Hl d Ha. set (z := replicate (Z.to_nat (bound + 2)) 0).
  assert (Hz : zlen z = bound + 2) by (unfold z; rewrite zlen_replicate; lia).
  destruct (store_ok (ps_mem s) (d - 1) z) as [m' E']; [by rewrite Hz|]. exists (set_mem m' s). split.
  - unfold cdr_parse_string, in_cdr. run. rewrite El. run. rewrite Hl. destruct (Z.eqb_spec bound 0); [lia|]. run. unfold copy_bounded. run.
    destruct (Z.ltb_spec ⟦bound + 1⟧32 0); [pose proof (wrap_range 32 (bound + 1) ltac:(lia)); lia|].
    destruct (Z.leb_spec 0 ⟦bound + 1⟧32); [|lia]. rewrite Z.sub_0_r, (wrap_small 32 (bound + 2)) by (split; lia). unfold put_dst. fold d z.
    replace (d + (0 - 1)) with (d - 1) by lia. rewrite E'. run. do 2 f_equal. lia.
  - pose proof (store_in _ _ _ _ 0%nat E' ltac:(unfold z; rewrite length_replicate; lia)) as Hin. rewrite Z.add_0_r in Hin.
    cbn [ps_mem set_mem]. rewrite Hin. unfold z. apply lookup_replicate_2. lia.
Qed.

Lemma cdr_marshall_encodes_witness :
  cdr_marshalled_size 5 Sample.libs Sample.native true 4 1000 (XAlias 0 10) false false = Some (zlen Sample.cdr, DDS_RETCODE_OK) /\
  exists dest', cdr_marshall 5 Sample.libs Sample.native true (zeros 4 200) 4 1000 (XAlias 0 10) false false true =
      Some (dest', ALIGN (zlen Sample.cdr) 4, DDS_RETCODE_OK) /\
    store (zeros 4 200) 4 (Sample.cdr ++ pad (zlen Sample.cdr) 4) = Some dest'.
Proof.
  apply (cdr_marshall_encodes 5 Sample.libs true Sample.native true (zeros 4 200) 4 1000 (XAlias 0 10) Sample.outer 88 Sample.value Sample.cdr).
  - exact Sample.sample_ok.
  - reflexivity.
  - exact Sample.native_repr.
  - eapply allocated_sub; [apply zeros_allocated|reflexivity|vm_compute; discriminate].
Defined.

Lemma cdr_unmarshall_one_block_witness :
  exists total, cdr_unmarshalled_size 5 Sample.libs (Sample.bytes 4 Sample.cdr ∅) true 4 (XAlias 0 10) false false true 0 = Some (total, DDS_RETCODE_OK) /\
    (500 + total < 2 ^ 64 -> allocated (zeros 500 300) 500 total ->
     exists m', cdr_unmarshall 5 Sample.libs (Sample.bytes 4 Sample.cdr ∅) true [] (zeros 500 300) 500 4 (XAlias 0 10) false false true 0 =
         Some (m', DDS_RETCODE_OK) /\
       changed (zeros 500 300) m' 500 total /\
       forall m'', agrees (fun i => 500 <= i < 500 + total) m' m'' -> repr Sample.libs 5 m'' 500 Sample.outer Sample.value).
Proof.
  apply (cdr_unmarshall_one_block 5 Sample.libs true (Sample.bytes 4 Sample.cdr ∅) true true [] (zeros 500 300) 4 (XAlias 0 10) Sample.outer 88
           Sample.value Sample.cdr 0 500).
  - exact Sample.sample_ok.
  - vm_compute. reflexivity.
  - left. reflexivity.
  - reflexivity.
Defined.

Lemma cdr_roundtrip_witness :
  exists dest' k total,
    cdr_marshall 5 Sample.libs Sample.native true (zeros 4 200) 4 1000 (XAlias 0 10) false false true = Some (dest', k, DDS_RETCODE_OK) /\
    cdr_unmarshalled_size 5 Sample.libs dest' true 4 (XAlias 0 10) false false true 0 = Some (total, DDS_RETCODE_OK) /\
    (500 + total < 2 ^ 64 -> allocated (zeros 500 300) 500 total ->
     exists m2', cdr_unmarshall 5 Sample.libs dest' true [] (zeros 500 300) 500 4 (XAlias 0 10) false false true 0 = Some (m2', DDS_RETCODE_OK) /\
       repr Sample.libs 5 m2' 500 Sample.outer Sample.value).
Proof.
  apply (cdr_roundtrip 5 Sample.libs true Sample.native true (zeros 4 200) 4 1000 (XAlias 0 10) Sample.outer 88 Sample.value Sample.cdr []
           (zeros 500 300) 500).
  - exact Sample.sample_ok.
  - reflexivity.
  - exact Sample.native_repr.
  - eapply allocated_sub; [apply zeros_allocated|reflexivity|vm_compute; discriminate].
  - reflexivity.
Defined.

Lemma cdr_string_underflow_witness :
  exists s', cdr_parse_string (zeros 4 4) (nip false 104) 3 true 4 (mkPS (Sample.bytes 99 [1; 1; 1; 1; 1; 1] ∅) 100 0 0 0 false None []) = Some (8, s') /\
    ps_mem s' !! 99 = Some 0.
Proof.
  apply (cdr_string_underflow (zeros 4 4) false 104 3 4 true (mkPS (Sample.bytes 99 [1; 1; 1; 1; 1; 1] ∅) 100 0 0 0 false None []) [0; 0; 0; 0]).
  - split; reflexivity.
  - vm_compute. reflexivity.
  - vm_compute. reflexivity.
  - intros i Hi. cbn in Hi. assert (i = 99 \/ i = 100 \/ i = 101 \/ i = 102 \/ i = 103) as [->|[->|[->|[->| ->]]]] by lia; vm_compute; eexists; reflexivity.
Defined.

(** ** Where writing and reading disagree *)

Section Findings.
  Import Sample.

(** An optional member of a structure that is not mutable: its length is
    written over it, and what is written is not accepted. *)
Example optional_in_final :
  let t := XStruct FINAL 0 16 false true [mb 0 1 0 false; mb 1 1 8 true] in
  let libs := [Some [None; Some i32; Some t]] in
  let m := bytes 1000 (le_bytes 8 5 ++ le_bytes 8 2000) (bytes 2000 (le_bytes 4 77) ∅) in
  cdr_marshalled_size 3 libs m true 4 1000 t false false = None /\
  exists dest, cdr_marshall 3 libs m true (zeros 4 40) 4 1000 t false false false = Some (dest, 8, DDS_RETCODE_OK) /\
    load dest 4 8 = Some [5; 0; 0; 0; 4; 0; 0; 0] /\
    cdr_unmarshalled_size 3 libs dest true 4 t false false false 0 = Some (0, DDS_RETCODE_BAD_PARAMETER).
Proof. cbv zeta. split; [by vm_compute|]. eexists. split; [by vm_compute|]. by vm_compute. Qed.

(** The field of a nested structure is taken for the field that is looked for. *)
Example nested_field_offset :
  let n := XStruct FINAL 0 8 false false [mb 0 1 0 false; mb 1 1 4 false] in
  let t := XStruct FINAL 0 12 false false [mb 0 2 0 false; mb 1 1 8 false] in
  cdr_field_offset 3 [Some [None; Some i32; Some n; Some t]] (zeros 4 12) true 4 1 t false = Some (8, DDS_RETCODE_OK).
Proof. by vm_compute. Qed.

(** A member whose id is that of the end of a list ends the list. *)
Example list_end_member :
  let t := XStruct MUTABLE 0 8 false false [mb XT_PID_LIST_END 1 0 false; mb 1 1 4 false] in
  let libs := [Some [None; Some i32; Some t]] in
  exists dest m', cdr_marshall 3 libs (bytes 1000 [1; 2; 3; 4; 5; 6; 7; 8] ∅) true (zeros 4 40) 4 1000 t false false false =
      Some (dest, 28, DDS_RETCODE_OK) /\
    cdr_unmarshall 3 libs dest true [] (zeros 100 8) 100 4 t false false false 0 = Some (m', DDS_RETCODE_OK) /\
    load m' 100 8 = Some [0; 0; 0; 0; 0; 0; 0; 0].
Proof. cbv zeta. eexists _, _. split; [by vm_compute|]. split; [by vm_compute|]. by vm_compute. Qed.

(** An enumeration of 8 bits is read as 16 bits: the byte behind it is lost. *)
Example narrow_enum :
  let t := XStruct FINAL 0 2 false false [mb 0 2 0 false; mb 1 1 1 false] in
  exists m', cdr_unmarshall 3 [Some [None; Some (XEnum 8); Some (XPrim DDS_BYTE_TYPE); Some t]] (bytes 4 [3; 0; 4; 9] ∅) true []
      (bytes 100 [1; 1; 1] ∅) 100 4 t false false false 0 = Some (m', DDS_RETCODE_OK) /\ load m' 100 3 = Some [3; 4; 9].
Proof. cbv zeta. eexists. split; [by vm_compute|]. by vm_compute. Qed.

(** A mutable structure whose first member is optional and absent cannot be
    marshalled without a header before it. *)
Example absent_first_member :
  let t := XStruct MUTABLE 0 16 false true [mb 0 1 0 true; mb 1 1 8 false] in
  let libs := [Some [None; Some i32; Some t]] in let m := bytes 1000 (replicate 16 0) ∅ in
  cdr_marshalled_size 3 libs m true 0 1000 t false false = Some (0, DDS_RETCODE_BAD_PARAMETER) /\
  cdr_marshalled_size 3 libs m true 4 1000 t false false = Some (12, DDS_RETCODE_OK).
Proof. by vm_compute. Qed.

End Findings.
