(* ===== verification/Heap.v ===== *)
(** Heaps (co/heap.c): a storage allocator on blocks of memory given by the
    user.  A free chunk starts with a header that links it to the next free
    chunk in the order of addresses; a chunk in use starts with a header with
    the number of its heap and the size that was asked for.

    The memory is bytes at addresses; [None] is an access outside of it.  Where
    the code ends the program with [fatal_printf], the result is [Some None].
    The checks for valgrind are compiled to nothing. *)

From stdpp Require Import gmap.
From S2P Require Import Prelude Mem.
From stdpp Require Import list.

#[local] Open Scope Z_scope.

Definition MAX_HEAPS : Z := 16.
Definition HEAP_END : Z := 2 ^ 64 - 1.
Definition HEAP_ALIGN : Z := 16.
Definition HEAP_SHIFT : Z := 4.

(** A [size_t] rounded up to a number of headers. *)
Definition HEAP_ROUND (s : Z) : Z := Z.land ⟦s + HEAP_ALIGN - 1⟧64 (Z.lnot (HEAP_ALIGN - 1)).

(** [HEAP_HDR_ST] *)
Record HEAP_HDR := mkHdr { hh_addr : Z; hh_size : Z }.

(** [HEAP_ST]: the fields of the header at an address. *)
Definition h_next (m : Mem) (p : Z) : option Z := load_num m p 8.
Definition h_size (m : Mem) (p : Z) : option Z := load_num m (p + 8) 8.
Definition set_h_next (m : Mem) (p v : Z) : option Mem := store_num m p 8 v.
Definition set_h_size (m : Mem) (p v : Z) : option Mem := store_num m (p + 8) 8 v.

(** The first header that is not used. *)
Fixpoint free_hdr (heaps : list HEAP_HDR) (i : Z) : Z :=
  match heaps with [] => i | h :: heaps => if hh_size h =? 0 then i else free_hdr heaps (i + 1) end.

(** [heap_init]: the return code, and the number of the heap. *)
Definition heap_init (heaps : list HEAP_HDR) (m : Mem) (addr size : Z) : option (list HEAP_HDR * Mem * Z * option Z) :=
  if (addr =? 0) || (size <? 64) then Some (heaps, m, 1, None)
  else
    let i := free_hdr heaps 0 in
    if MAX_HEAPS <=? i then Some (heaps, m, 2, None)
    else
      heaps ← zset heaps i (mkHdr addr size);
      let hp := addr in
      let first := hp + 16 in
      let last := hp + 16 * (Z.shiftr size HEAP_SHIFT - 1) in
      m ← set_h_next m hp first;
      m ← set_h_size m hp 0;
      m ← set_h_next m first last;
      m ← set_h_next m last hp;
      m ← set_h_size m first (Z.shiftl ((last - first) / 16) HEAP_SHIFT);
      m ← set_h_size m last HEAP_END;
      Some (heaps, m, 0, Some (i + 1)).

(** The heap with a number: [Some None] when there is none. *)
Definition heap_hdr (heaps : list HEAP_HDR) (heap_id : Z) : option (option HEAP_HDR) :=
  if (heap_id =? 0) || (MAX_HEAPS <? heap_id) then Some None
  else h ← zget heaps (heap_id - 1); Some (if hh_size h =? 0 then None else Some h).

(** [heap_discard] *)
Definition heap_discard (heaps : list HEAP_HDR) (heap_id : Z) : option (list HEAP_HDR) :=
  h ← heap_hdr heaps heap_id;
  match h with None => Some heaps | Some _ => zset heaps (heap_id - 1) (mkHdr 0 0) end.

(** The loop of [heap_alloc]: the header before the first that is large
    enough. *)
Fixpoint find_fit (fuel : nat) (m : Mem) (nsize prev : Z) : option Z :=
  match fuel with
  | O => None
  | S fuel =>
      nx ← h_next m prev;
      s ← h_size m nx;
      if s <? nsize then find_fit fuel m nsize nx else Some prev
  end.

(** A walk along the free chunks visits at most every header of the heap. *)
Definition heap_fuel (h : HEAP_HDR) : nat := S (Z.to_nat (hh_size h / 16)).

(** [heap_alloc]: the address, 0 for NULL. *)
Definition heap_alloc (heaps : list HEAP_HDR) (m : Mem) (heap_id size : Z) : option (Mem * Z) :=
  h ← heap_hdr heaps heap_id;
  match h with
  | None => Some (m, 0)
  | Some h =>
      if size =? 0 then Some (m, 0)
      else
        let nsize := ⟦HEAP_ROUND size + 16⟧64 in
        prev ← find_fit (heap_fuel h) m nsize (hh_addr h);
        p ← h_next m prev;
        ps ← h_size m p;
        if ps =? HEAP_END then Some (m, 0)
        else
          pn ← h_next m p;
          m ← (if ps =? nsize then set_h_next m prev pn
               else
                 let sp := p + nsize in
                 m ← set_h_next m prev sp;
                 m ← set_h_next m sp pn;
                 set_h_size m sp ⟦ps - nsize⟧64);
          m ← set_h_size m p size;
          m ← set_h_next m p heap_id;
          Some (m, p + 16)
  end.

(** The header before the place of [tp] among the free chunks. *)
Fixpoint find_place (fuel : nat) (m : Mem) (tp prev : Z) : option Z :=
  match fuel with
  | O => None
  | S fuel => nx ← h_next m prev; if nx <? tp then find_place fuel m tp nx else Some prev
  end.

(** [heap_free_chunk] *)
Definition heap_free_chunk (h : HEAP_HDR) (m : Mem) (tp : Z) : option (option Mem) :=
  prev ← find_place (heap_fuel h) m tp (hh_addr h);
  ps ← h_size m prev;
  ts ← h_size m tp;
  r ← (if prev + ps =? tp then m ← set_h_size m prev ⟦ps + ts⟧64; Some (Some (m, prev))
       else if prev + ps <? tp then
         pn ← h_next m prev;
         m ← set_h_next m tp pn;
         m ← set_h_next m prev tp;
         Some (Some (m, tp))
       else Some None);
  match r with
  | None => Some None
  | Some (m, tp) =>
      nx ← h_next m tp;
      ns ← h_size m nx;
      ts ← h_size m tp;
      if negb (ns =? HEAP_END) && (tp + ts =? nx) then
        m ← set_h_size m tp ⟦ts + ns⟧64;
        nn ← h_next m nx;
        m ← set_h_next m tp nn;
        Some (Some m)
      else Some (Some m)
  end.

(** [heap_free] *)
Definition heap_free (heaps : list HEAP_HDR) (m : Mem) (addr : Z) : option (option Mem) :=
  if addr =? 0 then Some (Some m)
  else
    let tp := addr - 16 in
    s ← h_size m tp;
    let ts := ⟦HEAP_ROUND s + 16⟧64 in
    m ← set_h_size m tp ts;
    if s =? 0 then Some None
    else
      nx ← h_next m tp;
      let heap_id := ⟦nx⟧32 in
      if (nx =? 0) || (MAX_HEAPS <? heap_id) then Some None
      else
        h ← zget heaps (heap_id - 1);
        if (hh_size h =? 0) || (tp <? hh_addr h + 16) || (hh_addr h + hh_size h - 16 <? tp + ts) then Some None
        else heap_free_chunk h m tp.

(** [heap_realloc]: the address is cast to a pointer to a header before
    [sizeof (HEAP_ST)] is subtracted, which subtracts that many headers. *)
Definition heap_realloc (heaps : list HEAP_HDR) (m : Mem) (addr new_size : Z) : option (option (Mem * Z)) :=
  if (new_size =? 0) || (addr =? 0) then Some (Some (m, 0))
  else
    let tp := addr - 16 * 16 in
    s ← h_size m tp;
    let ts := ⟦HEAP_ROUND s + 16⟧64 in
    m ← set_h_size m tp ts;
    if s =? 0 then Some None
    else
      nx ← h_next m tp;
      let heap_id := ⟦nx⟧32 in
      if MAX_HEAPS <? heap_id then Some None
      else
        h ← zget heaps (heap_id - 1);
        if (hh_size h =? 0) || (addr <? hh_addr h) || (hh_addr h + hh_size h - 16 <? addr + ts) then Some None
        else
          let nsize := ⟦HEAP_ROUND new_size + 16⟧64 in
          if ts =? nsize then m ← set_h_size m tp new_size; Some (Some (m, addr))
          else if nsize <? ts then
            let sp := tp + nsize in
            m ← set_h_size m sp (ts - nsize);
            r ← heap_free_chunk h m sp;
            match r with
            | None => Some None
            | Some m => m ← set_h_size m tp new_size; Some (Some (m, addr))
            end
          else
            let ext_size := ⟦nsize - ts⟧32 in
            prev ← find_place (heap_fuel h) m tp (hh_addr h);
            pn ← h_next m prev;
            ps ← h_size m pn;
            if negb (ps =? HEAP_END) && (pn =? tp + ts) && (ext_size <=? ps) then
              nn ← h_next m pn;
              m ← (if ext_size =? ps then set_h_next m prev nn
                   else
                     let sp := tp + nsize in
                     m ← set_h_next m sp nn;
                     ps ← h_size m pn;
                     m ← set_h_size m sp ⟦ps - ext_size⟧64;
                     set_h_next m prev sp);
              m ← set_h_size m tp new_size;
              Some (Some (m, addr))
            else
              '(m, naddr) ← heap_alloc heaps m heap_id new_size;
              if naddr =? 0 then Some (Some (m, 0))
              else
                ts ← h_size m tp;
                bs ← load m addr (Z.to_nat ⟦ts - 16⟧64);
                m ← store m naddr bs;
                r ← heap_free_chunk h m tp;
                match r with None => Some None | Some m => Some (Some (m, naddr)) end.

(** The sum, and the maximum, of the sizes of the free chunks. *)
Fixpoint sum_free (fuel : nat) (m : Mem) (hp size : Z) : option Z :=
  match fuel with
  | O => None
  | S fuel => s ← h_size m hp; if s =? HEAP_END then Some size else nx ← h_next m hp; sum_free fuel m nx ⟦size + s⟧64
  end.

Fixpoint max_free (fuel : nat) (m : Mem) (hp size : Z) : option Z :=
  match fuel with
  | O => None
  | S fuel => s ← h_size m hp; if s =? HEAP_END then Some size else nx ← h_next m hp; max_free fuel m nx (Z.max size s)
  end.

(** [heap_avail] and [heap_max] *)
Definition heap_avail (heaps : list HEAP_HDR) (m : Mem) (heap_id : Z) : option Z :=
  if (heap_id =? 0) || (MAX_HEAPS <? heap_id) then Some 0
  else h ← zget heaps (heap_id - 1); s ← sum_free (S (heap_fuel h)) m (hh_addr h) 0; Some ⟦s - 16⟧64.
Definition heap_max (heaps : list HEAP_HDR) (m : Mem) (heap_id : Z) : option Z :=
  if (heap_id =? 0) || (MAX_HEAPS <? heap_id) then Some 0
  else h ← zget heaps (heap_id - 1); s ← max_free (S (heap_fuel h)) m (hh_addr h) 0; Some ⟦s - 16⟧64.
