(* ===== verification/HeapProps.v ===== *)
(** The chunks of a heap: the headers in its memory describe a sequence of free
    and used chunks that fills the heap, in which no two free chunks are
    neighbours.  Allocation and release keep such a sequence. *)

From stdpp Require Import gmap.
From S2P Require Import Prelude Mem Heap.
From stdpp Require Import list.

#[local] Open Scope Z_scope.

(** ** Words *)

Definition word_at (a i : Z) : Prop := a <= i < a + 8.

Lemma zlen_word v : zlen (le_bytes 8 v) = 8.
Proof. unfold zlen. by rewrite length_le_bytes. Qed.

Lemma store_word m a v : allocated m a 8 -> exists m', store_num m a 8 v = Some m'.
Proof. intros H. apply store_ok. by rewrite zlen_word. Qed.

Lemma store_word_within m a v m' : store_num m a 8 v = Some m' -> within (word_at a) m m'.
Proof. intros H. apply within_store in H. by rewrite zlen_word in H. Qed.

Lemma store_word_same m a v m' : store_num m a 8 v = Some m' -> in_u 64 v -> load_num m' a 8 = Some v.
Proof.
  intros H Hv. apply store_load in H. rewrite length_le_bytes in H. unfold load_num. rewrite H. cbn [fmap option_fmap option_map].
  by rewrite le_val_bytes, wrap_small.
Qed.

Lemma load_word_within (P : Z -> Prop) m m' a : within P m m' -> (forall i, word_at a i -> ~ P i) -> load_num m' a 8 = load_num m a 8.
Proof. intros [H _] HP. unfold load_num. f_equal. apply load_agree. intros i Hi. apply H, HP. exact Hi. Qed.

(** A store leaves the other words as they are. *)
Lemma store_word_other m a v m' b : store_num m a 8 v = Some m' -> b + 8 <= a \/ a + 8 <= b -> load_num m' b 8 = load_num m b 8.
Proof. intros H Hb. eapply load_word_within; [by eapply store_word_within|]. unfold word_at. lia. Qed.

(** ** Sizes *)

Lemma HEAP_ROUND_div s : 0 <= s < 2 ^ 64 - 15 -> HEAP_ROUND s = 16 * ((s + 15) / 16).
Proof.
  intros H. unfold HEAP_ROUND, HEAP_ALIGN. rewrite wrap_small by (split; lia). change (16 - 1) with (Z.ones 4). rewrite <- Z.ldiff_land, Z.ldiff_ones_r by lia.
  rewrite Z.shiftl_mul_pow2, Z.shiftr_div_pow2 by lia. replace (s + 16 - 1) with (s + 15) by lia. change (2 ^ 4) with 16. lia.
Qed.

(** ** Chunks *)

Inductive Chunk := CHead | CFree (n : Z) | CUsed (r : Z).

(** The bytes of a chunk, and the size in its header.  The first header of the
    heap only starts the list of free chunks. *)
Definition csize (c : Chunk) : Z := match c with CHead => 16 | CFree n => n | CUsed r => HEAP_ROUND r + 16 end.
Definition cword (c : Chunk) : Z := match c with CHead => 0 | CFree n => n | CUsed r => r end.
Definition linked (c : Chunk) : bool := match c with CUsed _ => false | _ => true end.
Definition is_free (c : Chunk) : bool := match c with CFree _ => true | _ => false end.

Definition chunk_ok (c : Chunk) : Prop :=
  match c with
  | CHead => True
  | CFree n => 16 <= n < 2 ^ 64 - 1 /\ n mod 16 = 0
  | CUsed r => 0 < r < 2 ^ 64 - 31
  end.

Fixpoint clen (l : list Chunk) : Z := match l with [] => 0 | c :: l => csize c + clen l end.

(** The first linked chunk from [a], or [e]. *)
Fixpoint ff (l : list Chunk) (a e : Z) : Z :=
  match l with [] => e | c :: l => if linked c then a else ff l (a + csize c) e end.

(** No two neighbours are free; [b] says that the chunk before is. *)
Fixpoint apart (b : bool) (l : list Chunk) : Prop :=
  match l with [] => True | c :: l => b && is_free c = false /\ apart (is_free c) l end.

(** The last chunk is free. *)
Fixpoint ends (b : bool) (l : list Chunk) : bool := match l with [] => b | c :: l => ends (is_free c) l end.

Lemma apart_app b l1 l2 : apart b (l1 ++ l2) <-> apart b l1 /\ apart (ends b l1) l2.
Proof. revert b. induction l1 as [|c l1 IH]; intros b; cbn; [tauto|]. rewrite IH. tauto. Qed.

Lemma ends_app b l1 l2 : ends b (l1 ++ l2) = ends (ends b l1) l2.
Proof. revert b. induction l1 as [|c l1 IH]; intros b; cbn; [done|apply IH]. Qed.

Lemma apart_false b l : apart b l -> apart false l.
Proof. destruct l as [|c l]; cbn; [done|]. by intros [_ ?]. Qed.

Lemma clen_app l1 l2 : clen (l1 ++ l2) = clen l1 + clen l2.
Proof. induction l1 as [|c l1 IH]; cbn; lia. Qed.

Lemma csize_pos c : chunk_ok c -> 16 <= csize c /\ csize c mod 16 = 0.
Proof.
  destruct c as [|n|r]; cbn; [done|lia|]. intros H. rewrite HEAP_ROUND_div by lia. replace (16 * ((r + 15) / 16) + 16) with (((r + 15) / 16 + 1) * 16) by lia.
  rewrite Z.mod_mul by lia. split; [|done]. Z.to_euclidean_division_equations. lia.
Qed.

Lemma used_fits r : 0 < r < 2 ^ 64 - 31 -> r + 16 <= csize (CUsed r) < r + 32.
Proof. intros H. cbn. rewrite HEAP_ROUND_div by lia. Z.to_euclidean_division_equations. lia. Qed.

Lemma clen_ok l : Forall chunk_ok l -> 16 * zlen l <= clen l /\ clen l mod 16 = 0.
Proof.
  induction 1 as [|c l Hc _ [IH1 IH2]]; [done|]. apply csize_pos in Hc as [H1 H2]. cbn [clen]. rewrite zlen_cons. split; [lia|].
  by rewrite Z.add_mod, H2, IH2 by lia.
Qed.

Lemma ff_app l1 l2 a e : ff (l1 ++ l2) a e = ff l1 a (ff l2 (a + clen l1) e).
Proof.
  revert a. induction l1 as [|c l1 IH]; intros a; cbn; [by rewrite Z.add_0_r|]. case_match; [done|]. rewrite IH. do 2 f_equal. lia.
Qed.

Lemma ff_used u a e : Forall (fun c => linked c = false) u -> ff u a e = e.
Proof. intros H. revert a. induction H as [|c u Hc _ IH]; intros a; cbn; [done|]. by rewrite Hc. Qed.

Lemma ff_range l a e : Forall chunk_ok l -> a + clen l <= e -> a <= ff l a e <= e.
Proof.
  intros H. revert a. induction H as [|c l Hc Hl IH]; intros a He; cbn; [cbn in He; lia|]. apply csize_pos in Hc as [Hc _]. cbn in He.
  pose proof (clen_ok _ Hl). case_match; [unfold zlen in *; lia|]. specialize (IH (a + csize c)). lia.
Qed.

(** The chunks up to the next linked one. *)
Lemma split_used l : exists u, Forall (fun c => linked c = false) u /\ (l = u \/ exists c r, l = u ++ c :: r /\ linked c = true).
Proof.
  induction l as [|c l (u & Hu & H)]; [exists []; by split; [|left]|]. destruct (linked c) eqn:Ec; [exists []; split; [done|right; by exists c, l]|].
  exists (c :: u). split; [by constructor|]. destruct H as [->|(c' & r & -> & Hc')]; [by left|right; by exists c', r].
Qed.

(** ** Chunks in memory *)

Section Tiled.
  Context (id : Z).

(** The headers of the chunks from [a]; [e] is the linked header behind them. *)
Fixpoint tiled (m : Mem) (l : list Chunk) (a e : Z) : Prop :=
  match l with
  | [] => True
  | c :: l =>
      h_size m a = Some (cword c) /\ h_next m a = Some (if linked c then ff l (a + csize c) e else id) /\ tiled m l (a + csize c) e
  end.

Lemma tiled_app m l1 l2 a e : tiled m (l1 ++ l2) a e <-> tiled m l1 a (ff l2 (a + clen l1) e) /\ tiled m l2 (a + clen l1) e.
Proof.
  revert a. induction l1 as [|c l1 IH]; intros a; cbn; [rewrite Z.add_0_r; tauto|]. rewrite IH, ff_app.
  replace (a + csize c + clen l1) with (a + (csize c + clen l1)) by lia. tauto.
Qed.

(** Only linked headers depend on what is behind them. *)
Lemma tiled_used m u a e e' : Forall (fun c => linked c = false) u -> tiled m u a e -> tiled m u a e'.
Proof. intros H. revert a. induction H as [|c u Hc _ IH]; intros a; cbn; [done|]. rewrite Hc. intros (? & ? & ?). split_and!; auto. Qed.

(** Changes outside of the headers do not matter. *)
Lemma tiled_within (P : Z -> Prop) m m' l a e : Forall chunk_ok l -> within P m m' -> (forall i, a <= i < a + clen l -> ~ P i) ->
  tiled m l a e -> tiled m' l a e.
Proof.
  intros H. revert a. induction H as [|c l Hc Hl IH]; intros a HW HP; cbn; [done|]. intros (H1 & H2 & H3). apply csize_pos in Hc as [Hc _].
  cbn in HP. pose proof (clen_ok _ Hl) as [Hl0 _]. unfold zlen in Hl0.
  split_and!; [| |apply IH; [done| |done]; intros i Hi; apply HP; lia].
  - rewrite <- H1. unfold h_size. eapply load_word_within; [exact HW|]. intros i Hi. apply HP. unfold word_at in Hi. lia.
  - rewrite <- H2. unfold h_next. eapply load_word_within; [exact HW|]. intros i Hi. apply HP. unfold word_at in Hi. lia.
Qed.

End Tiled.

(** ** Heaps *)

Definition heap_last (h : HEAP_HDR) : Z := hh_addr h + 16 * (hh_size h / 16 - 1).

Definition not_head (c : Chunk) : Prop := linked c = is_free c.

Record heap_ok (m : Mem) (h : HEAP_HDR) (id : Z) (l : list Chunk) : Prop := {
  ho_id : 1 <= id <= 16;
  ho_range : 0 < hh_addr h /\ 64 <= hh_size h /\ hh_addr h + hh_size h < 2 ^ 64;
  ho_chunks : Forall (fun c => chunk_ok c /\ not_head c) l;
  ho_apart : apart false l;
  ho_len : hh_addr h + 16 + clen l = heap_last h;
  ho_tiled : tiled id m (CHead :: l) (hh_addr h) (heap_last h);
  ho_end : h_size m (heap_last h) = Some HEAP_END;
  ho_mem : allocated m (hh_addr h) (hh_size h)
}.

Lemma chunks_ok l : Forall (fun c => chunk_ok c /\ not_head c) l -> Forall chunk_ok l.
Proof. intros H. eapply Forall_impl; [exact H|]. by intros c [? _]. Qed.

Lemma clen_elem c l : Forall chunk_ok l -> c ∈ l -> csize c <= clen l.
Proof.
  intros H (x & y & ->)%list_elem_of_split. apply Forall_app in H as [Hx [_ Hy]%Forall_cons]. rewrite clen_app. cbn.
  pose proof (clen_ok _ Hx). pose proof (clen_ok _ Hy). pose proof (zlen_nonneg x). pose proof (zlen_nonneg y). lia.
Qed.

(** The free sizes of a list. *)
Fixpoint sum_sizes (s : Z) (l : list Chunk) : Z := match l with [] => s | CFree n :: l => sum_sizes ⟦s + n⟧64 l | _ :: l => sum_sizes s l end.
Fixpoint max_sizes (s : Z) (l : list Chunk) : Z := match l with [] => s | CFree n :: l => max_sizes (Z.max s n) l | _ :: l => max_sizes s l end.

Lemma sum_sizes_used u l s : Forall (fun c => linked c = false) u -> sum_sizes s (u ++ l) = sum_sizes s l.
Proof. induction 1 as [|c u Hc _ IH]; [done|]. by destruct c. Qed.

Lemma max_sizes_used u l s : Forall (fun c => linked c = false) u -> max_sizes s (u ++ l) = max_sizes s l.
Proof. induction 1 as [|c u Hc _ IH]; [done|]. by destruct c. Qed.

(** The largest is the size of a chunk, and no chunk is larger. *)
Lemma max_sizes_ok s l : s <= max_sizes s l /\ (max_sizes s l = s \/ CFree (max_sizes s l) ∈ l) /\ (forall n, CFree n ∈ l -> n <= max_sizes s l).
Proof.
  revert s. induction l as [|c l IH]; intros s; cbn; [split_and!; [lia|by left|intros n Hn; by apply elem_of_nil in Hn]|].
  destruct c as [|k|k]; [specialize (IH s)|specialize (IH (Z.max s k))|specialize (IH s)]; destruct IH as (H1 & H2 & H3).
  2:{ split_and!; [lia| |intros n [[= ->]|Hn]%elem_of_cons; [lia|auto]].
      destruct H2 as [H2|H2]; [|right; by right]. rewrite H2. destruct (Z.max_spec s k) as [[_ ->]|[_ ->]]; [right; left|by left]. }
  all: split_and!; [done|destruct H2; [by left|right; by right]|intros n [?|Hn]%elem_of_cons; [done|auto]].
Qed.

Section Walk.
  Context (id : Z) (m : Mem) (e : Z).

Definition fits (nsize : Z) (c : Chunk) : Prop := match c with CFree n => nsize <= n | _ => False end.

Lemma used_not_fit nsize c : linked c = false -> ~ fits nsize c.
Proof. destruct c; [done|done|]. by intros _ []. Qed.

(** The walk of [heap_alloc] from a linked chunk. *)
Lemma find_fit_ok nsize : nsize <= HEAP_END -> h_size m e = Some HEAP_END -> forall fuel p l a,
  linked p = true -> Forall (fun c => chunk_ok c /\ not_head c) l -> tiled id m (p :: l) a e -> (length l < fuel)%nat ->
  (Forall (fun c => ~ fits nsize c) l /\ exists prev, find_fit fuel m nsize a = Some prev /\ h_next m prev = Some e) \/
  exists x p' u n r, p :: l = x ++ p' :: u ++ CFree n :: r /\ linked p' = true /\ Forall (fun c => linked c = false) u /\ nsize <= n /\
    find_fit fuel m nsize a = Some (a + clen x).
Proof.
  intros Hns He. induction fuel as [|fuel IH]; intros p l a Hp Hl Ht Hf; [lia|]. destruct Ht as (_ & Hn & Ht). rewrite Hp in Hn.
  cbn [find_fit]. rewrite Hn. cbn [mbind option_bind]. destruct (split_used l) as (u & Hu & [->|(c & r & -> & Hc)]).
  - left. rewrite ff_used by done. rewrite He. cbn [mbind option_bind]. destruct (Z.ltb_spec HEAP_END nsize); [lia|]. split.
    + eapply Forall_impl; [exact Hu|]. apply used_not_fit.
    + exists a. split; [done|]. by rewrite Hn, ff_used.
  - apply Forall_app in Hl as [Hlu Hl]. apply Forall_cons in Hl as [[Hc1 Hc2] Hr]. unfold not_head in Hc2. rewrite Hc in Hc2. destruct c as [|n|]; try done.
    rewrite ff_app, ff_used by done. cbn [ff linked]. apply tiled_app in Ht as [_ Ht]. pose proof Ht as (Hs & _ & _). rewrite Hs. cbn [mbind option_bind cword].
    rewrite length_app in Hf. cbn in Hf.
    destruct (Z.ltb_spec n nsize) as [Hlt|Hge].
    + destruct (IH (CFree n) r (a + csize p + clen u) eq_refl Hr Ht ltac:(lia)) as [(HF & prev & E & Hprev)|(x & p' & u' & n' & r' & E & Hp' & Hu' & Hn' & Ef)].
      * left. split; [|by exists prev]. apply Forall_app. split; [eapply Forall_impl; [exact Hu|]; apply used_not_fit|]. constructor; [cbn; lia|done].
      * right. exists (p :: u ++ x), p', u', n', r'. split_and!; try done; [cbn; by rewrite <- app_assoc, E|]. rewrite Ef. f_equal. cbn. rewrite clen_app. lia.
    + right. exists [], p, u, n, r. split_and!; try done. cbn. f_equal. lia.
Qed.

(** The walk of [heap_free_chunk] to the last linked chunk of a part. *)
Lemma find_place_ok : forall fuel x p u a, let l := x ++ p :: u in
  match x with [] => True | c :: _ => linked c = true end -> linked p = true -> Forall (fun c => linked c = false) u ->
  Forall chunk_ok l -> a + clen l <= e -> tiled id m l a e -> (length x < fuel)%nat -> find_place fuel m (a + clen l) a = Some (a + clen x).
Proof.
  induction fuel as [|fuel IH]; intros x p u a l Hx Hp Hu Hl Hlen Ht Hf; [lia|]. cbn [find_place]. unfold l in *.
  destruct x as [|c x].
  - destruct Ht as (_ & Hn & _). cbn [app] in *. rewrite Hp, ff_used in Hn by done. rewrite Hn. cbn [mbind option_bind].
    match goal with |- context [?q <? ?t] => destruct (Z.ltb_spec q t) end; [lia|]. f_equal. cbn. lia.
  - destruct Ht as (_ & Hn & Ht). rewrite Hx in Hn. cbn [app] in *. fold (app x (p :: u)) in *. rewrite Hn. cbn [mbind option_bind].
    apply Forall_cons in Hl as [Hco Hl]. cbn [clen] in *. apply csize_pos in Hco as [Hco _].
    assert (Hsplit : exists v x', Forall (fun c => linked c = false) v /\ match x' with [] => True | c :: _ => linked c = true end /\ x = v ++ x').
    { destruct (split_used x) as (v & Hv & [->|(d & z & -> & Hd)]); [exists v, []; by rewrite app_nil_r|by exists v, (d :: z)]. }
    destruct Hsplit as (v & x' & Hv & Hx' & ->). rewrite <- app_assoc in *. apply Forall_app in Hl as [Hvo Hl]. apply tiled_app in Ht as [_ Ht].
    assert (Hhd : ff (v ++ x' ++ p :: u) (a + csize c) e = a + csize c + clen v).
    { rewrite ff_app, ff_used by done. destruct x' as [|c' x']; cbn [app ff]; [by rewrite Hp|by rewrite Hx']. }
    rewrite Hhd. rewrite clen_app in Hlen |- *. pose proof (clen_ok _ Hvo) as [? _]. pose proof (zlen_nonneg v).
    assert (0 < clen (x' ++ p :: u)) by (pose proof (clen_ok _ Hl) as [HH _]; rewrite zlen_app, zlen_cons in HH; pose proof (zlen_nonneg x'); pose proof (zlen_nonneg u); lia).
    match goal with |- context [?q <? ?t] => destruct (Z.ltb_spec q t) end; [|lia].
    replace (a + (csize c + (clen v + clen (x' ++ p :: u)))) with (a + csize c + clen v + clen (x' ++ p :: u)) by lia.
    rewrite (IH x' p u (a + csize c + clen v)); [f_equal; cbn; rewrite clen_app; lia|done|done|done|done|lia|done|cbn in Hf; rewrite length_app in Hf; lia].
Qed.

(** The walks of [heap_avail] and [heap_max]. *)
Lemma free_sizes_ok : h_size m e = Some HEAP_END -> forall fuel p l a s,
  linked p = true -> chunk_ok p -> Forall (fun c => chunk_ok c /\ not_head c) l -> tiled id m (p :: l) a e -> (length l + 1 < fuel)%nat ->
  sum_free fuel m a s = Some (sum_sizes ⟦s + cword p⟧64 l) /\ max_free fuel m a s = Some (max_sizes (Z.max s (cword p)) l).
Proof.
  intros He. induction fuel as [|fuel IH]; intros p l a s Hp Hpo Hl Ht Hf; [lia|]. destruct Ht as (Hs & Hn & Ht). rewrite Hp in Hn. cbn [sum_free max_free].
  rewrite Hs, Hn. cbn [mbind option_bind]. destruct (Z.eqb_spec (cword p) HEAP_END) as [E|_]; [destruct p; cbn in *; unfold HEAP_END in *; lia|].
  destruct (split_used l) as (u & Hu & [->|(c & r & -> & Hc)]).
  - destruct fuel as [|fuel]; [lia|]. cbn [sum_free max_free]. rewrite (ff_used u), He by done. cbn [mbind option_bind]. rewrite Z.eqb_refl.
    by rewrite <- (app_nil_r u), sum_sizes_used, max_sizes_used.
  - apply Forall_app in Hl as [Hlu Hl]. apply Forall_cons in Hl as [[Hc1 Hc2] Hr]. unfold not_head in Hc2. rewrite Hc in Hc2. destruct c as [|n|]; try done.
    apply tiled_app in Ht as [_ Ht]. rewrite ff_app, ff_used by done. cbn [ff linked]. rewrite sum_sizes_used, max_sizes_used by done. cbn [sum_sizes max_sizes].
    rewrite length_app in Hf. cbn in Hf. split; eapply (IH (CFree n) r); done || lia.
Qed.

End Walk.

(** ** Changing a part of a heap *)

(** A word of the memory after stores. *)
Ltac wload :=
  unfold h_next, h_size in *;
  repeat match goal with
  | E : store_num ?m ?a 8 ?v = Some ?m' |- context [load_num ?m' ?b 8] =>
      first [ rewrite (store_word_other m a v m' b E) by lia
            | replace b with a by lia; rewrite (store_word_same m a v m' E) by first [done | split; lia] ]
  end.

(** One more store in an area. *)
Lemma store_step (P : Z -> Prop) m m1 a v :
  within P m m1 -> allocated m a 8 -> (forall i, word_at a i -> P i) -> exists m2, store_num m1 a 8 v = Some m2 /\ within P m m2.
Proof.
  intros HW Ha HP. destruct (store_word m1 a v) as [m2 E]; [by eapply within_allocated|]. exists m2. split; [done|].
  eapply within_trans; [exact HW|exact (store_word_within _ _ _ _ E)|done|exact HP].
Qed.

Section Change.
  Context (id : Z).

(** A part that starts with a linked chunk is replaced by one of its length. *)
Lemma replace_part m m' x p w p' w' r a e :
  tiled id m (x ++ (p :: w) ++ r) a e -> Forall chunk_ok (x ++ (p :: w) ++ r) -> linked p = true -> linked p' = true ->
  clen (p' :: w') = clen (p :: w) -> within (fun i => a + clen x <= i < a + clen x + clen (p :: w)) m m' ->
  tiled id m' (p' :: w') (a + clen x) (ff r (a + clen x + clen (p :: w)) e) -> tiled id m' (x ++ (p' :: w') ++ r) a e.
Proof.
  intros Ht Hok Hp Hp' Hlen HW Hn'. rewrite tiled_app in Ht |- *. rewrite tiled_app in Ht |- *. rewrite Hlen. destruct Ht as (Hx & Hn & Hr).
  apply Forall_app in Hok as [Hox Hok]. apply Forall_app in Hok as [Hon Hor]. split_and!; [|exact Hn'|].
  - assert (E : ff ((p' :: w') ++ r) (a + clen x) e = ff ((p :: w) ++ r) (a + clen x) e) by (cbn [app ff]; by rewrite Hp, Hp'). rewrite E.
    eapply tiled_within; [exact Hox|exact HW| |exact Hx]. intros i Hi Hj. cbn beta in Hj. lia.
  - eapply tiled_within; [exact Hor|exact HW| |exact Hr]. intros i Hi Hj. cbn beta in Hj. lia.
Qed.

(** The used chunks behind a linked one stay when they are not written to. *)
Lemma keep_used (P : Z -> Prop) m m' u a e e' : Forall chunk_ok u -> Forall (fun c => linked c = false) u -> within P m m' ->
  (forall i, a <= i < a + clen u -> ~ P i) -> tiled id m u a e -> tiled id m' u a e'.
Proof. intros Ho Hu HW HP Ht. eapply tiled_used; [exact Hu|]. by eapply tiled_within. Qed.

(** The memory after a chunk of [n] bytes is taken by a block of [k] bytes. *)
Lemma take_chunk m x p u n r k a e :
  tiled id m (x ++ (p :: u ++ [CFree n]) ++ r) a e -> Forall chunk_ok (x ++ (p :: u ++ [CFree n]) ++ r) ->
  linked p = true -> Forall (fun c => linked c = false) u -> chunk_ok (CUsed k) -> csize (CUsed k) <= n ->
  in_u 64 id -> 0 < a -> a + clen (x ++ (p :: u ++ [CFree n]) ++ r) <= e -> e < 2 ^ 64 -> allocated m a (e - a) ->
  let prev := a + clen x in let q := a + clen x + clen (p :: u) in let ns := csize (CUsed k) in
  let rest := if n =? ns then [] else [CFree (n - ns)] in
  exists pn m', h_next m prev = Some q /\ h_size m q = Some n /\ h_next m q = Some pn /\
    (m ← (if n =? ns then set_h_next m prev pn else m ← set_h_next m prev (q + ns); m ← set_h_next m (q + ns) pn; set_h_size m (q + ns) (n - ns));
     m ← set_h_size m q k; set_h_next m q id) = Some m' /\
    within (fun i => word_at prev i \/ q <= i < q + n) m m' /\
    tiled id m' (p :: u ++ CUsed k :: rest) prev (ff r (q + n) e).
Proof.
  intros Ht Hok Hp Hu Hk Hn Hid Ha Hlen He Hal prev q ns rest.
  pose proof Ht as Ht0. rewrite tiled_app in Ht0. destruct Ht0 as (_ & Ht0). rewrite tiled_app in Ht0. destruct Ht0 as (Ht0 & _).
  fold prev in Ht0. destruct Ht0 as (Hps & Hpn & Ht0). rewrite Hp, ff_app, ff_used in Hpn by done. cbn [ff linked] in Hpn.
  rewrite tiled_app in Ht0. destruct Ht0 as (Htu & Hqs & Hqn & _). cbn [linked ff cword] in Hqs, Hqn.
  pose proof Hok as Hok0. apply Forall_app in Hok0 as [Hox Hok0]. apply Forall_app in Hok0 as [Hok0 Hor]. apply Forall_cons in Hok0 as [Hpo Hok0].
  apply Forall_app in Hok0 as [Huo [Hno _]%Forall_cons].
  pose proof (csize_pos _ Hpo) as [Hp16 _]. pose proof (csize_pos _ Hk) as [Hk16 Hkm]. fold ns in Hk16, Hkm, Hn.
  pose proof (clen_ok _ Hox) as [Hx0 _]. pose proof (clen_ok _ Huo) as [Hu0 _]. pose proof (clen_ok _ Hor) as [Hr0 _].
  pose proof (zlen_nonneg x). pose proof (zlen_nonneg u). pose proof (zlen_nonneg r).
  rewrite !clen_app in Hlen. cbn [clen] in Hlen. rewrite clen_app in Hlen. cbn [clen] in Hlen.
  assert (Hq : q = prev + csize p + clen u) by (unfold q, prev; cbn [clen]; lia). rewrite <- Hq in Hpn, Hqs, Hqn.
  destruct Hno as [Hnr Hnm]. cbn [csize] in *. set (pn := ff r (prev + clen (p :: u ++ [CFree n])) e) in *.
  assert (Hend : prev + clen (p :: u ++ [CFree n]) = q + n) by (cbn [clen]; rewrite clen_app; cbn [clen csize]; lia).
  assert (Hpnr : in_u 64 pn) by (pose proof (ff_range r (q + n) e Hor ltac:(unfold prev in *; lia)) as Hf; unfold pn; rewrite Hend; unfold prev in *; split; lia).
  set (P := fun i => word_at prev i \/ q <= i < q + n).
  assert (Hmem : forall b, a <= b -> b + 8 <= e -> allocated m b 8) by (intros b ? ?; eapply allocated_sub; [exact Hal|lia|lia]).
  exists pn.
  assert (HM : exists m', (m ← (if n =? ns then set_h_next m prev pn else m ← set_h_next m prev (q + ns); m ← set_h_next m (q + ns) pn; set_h_size m (q + ns) (n - ns));
     m ← set_h_size m q k; set_h_next m q id) = Some m' /\ within P m m' /\
     h_next m' prev = Some (if n =? ns then pn else q + ns) /\ h_size m' prev = Some (cword p) /\ h_next m' q = Some id /\ h_size m' q = Some k /\
     (n <> ns -> h_next m' (q + ns) = Some pn /\ h_size m' (q + ns) = Some (n - ns))).
  { unfold set_h_next, set_h_size. assert (Hkr : in_u 64 k) by (cbn in Hk; split; lia).
    destruct (Z.eqb_spec n ns) as [->|Hne].
    - destruct (store_step P m m prev pn (within_refl _ _)) as (m1 & E1 & W1); [apply Hmem; lia|unfold P, word_at; lia|].
      destruct (store_step P m m1 (q + 8) k W1) as (m2 & E2 & W2); [apply Hmem; lia|unfold P, word_at; lia|].
      destruct (store_step P m m2 q id W2) as (m3 & E3 & W3); [apply Hmem; lia|unfold P, word_at; lia|].
      exists m3. rewrite E1. cbn [mbind option_bind]. rewrite E2. cbn [mbind option_bind]. split_and!; try done; wload; done.
    - assert (16 <= n - ns) by (Z.to_euclidean_division_equations; lia).
      destruct (store_step P m m prev (q + ns) (within_refl _ _)) as (m1 & E1 & W1); [apply Hmem; lia|unfold P, word_at; lia|].
      destruct (store_step P m m1 (q + ns) pn W1) as (m2 & E2 & W2); [apply Hmem; lia|unfold P, word_at; lia|].
      destruct (store_step P m m2 (q + ns + 8) (n - ns) W2) as (m3 & E3 & W3); [apply Hmem; lia|unfold P, word_at; lia|].
      destruct (store_step P m m3 (q + 8) k W3) as (m4 & E4 & W4); [apply Hmem; lia|unfold P, word_at; lia|].
      destruct (store_step P m m4 q id W4) as (m5 & E5 & W5); [apply Hmem; lia|unfold P, word_at; lia|].
      exists m5. rewrite E1. cbn [mbind option_bind]. rewrite E2. cbn [mbind option_bind]. rewrite E3. cbn [mbind option_bind]. rewrite E4. cbn [mbind option_bind].
      split_and!; try done; [wload..|intros _; split; wload]; done. }
  destruct HM as (m' & E & HW & Hn1 & Hs1 & Hn2 & Hs2 & Hn3). exists m'. split_and!; try done.
  rewrite <- Hend. fold pn.
    assert (Hrest : ff (CUsed k :: rest) q pn = if n =? ns then pn else q + ns).
    { unfold rest. cbn [ff linked csize]. fold ns. by destruct (n =? ns). }
    split_and!; [done|rewrite Hp, ff_app, ff_used by done; rewrite <- Hq, Hrest; done|]. rewrite tiled_app. split.
    + eapply keep_used; [done|done|exact HW| |exact Htu]. unfold P, word_at. lia.
    + rewrite <- Hq. split_and!; [done|done|]. cbn [csize]. fold ns. unfold rest. destruct (Z.eqb_spec n ns) as [|Hne]; [done|]. by destruct (Hn3 Hne).
Qed.

End Change.

(** ** Allocation *)

(** The addresses and sizes of the blocks in use. *)
Fixpoint blocks (l : list Chunk) (a : Z) : list (Z * Z) :=
  match l with
  | [] => []
  | CUsed r :: l => (a + 16, r) :: blocks l (a + csize (CUsed r))
  | c :: l => blocks l (a + csize c)
  end.

Lemma blocks_app l1 l2 a : blocks (l1 ++ l2) a = blocks l1 a ++ blocks l2 (a + clen l1).
Proof.
  revert a. induction l1 as [|c l1 IH]; intros a; cbn [app blocks clen]; [by rewrite Z.add_0_r|].
  destruct c; cbn [app]; by rewrite IH, Z.add_assoc.
Qed.

Lemma blocks_range l a p r : Forall chunk_ok l -> (p, r) ∈ blocks l a -> 0 < r /\ a + 16 <= p /\ p + r <= a + clen l.
Proof.
  intros H. revert a. induction H as [|c l Hc Hl IH]; intros a Hin; [by apply elem_of_nil in Hin|]. pose proof (csize_pos _ Hc) as [Hp _].
  pose proof (clen_ok _ Hl) as [Hl0 _]. pose proof (zlen_nonneg l).
  destruct c as [|n|k]; cbn [blocks clen] in *; [specialize (IH _ Hin); lia|specialize (IH _ Hin); lia|].
  apply elem_of_cons in Hin as [[= -> ->]|Hin]; [|specialize (IH _ Hin); lia]. pose proof (used_fits k Hc). cbn in Hc. lia.
Qed.

(** The blocks keep their contents. *)
Definition keeps (l : list (Z * Z)) (m m' : Mem) : Prop := forall p r i, (p, r) ∈ l -> p <= i < p + r -> m' !! i = m !! i.

(** A change in a part leaves the blocks of the other parts alone. *)
Lemma keeps_part (P : Z -> Prop) x n r k a m m' : Forall chunk_ok (x ++ n ++ r) -> within P m m' ->
  (forall i, P i -> a + clen x <= i < a + clen x + clen n) -> keeps k m m' ->
  keeps (blocks x a ++ k ++ blocks r (a + clen x + clen n)) m m'.
Proof.
  intros Hok [HW _] HP Hk p q i Hin Hi. apply Forall_app in Hok as [Hx Hok]. apply Forall_app in Hok as [Hn Hr].
  apply elem_of_app in Hin as [Hin|[Hin|Hin]%elem_of_app]; [|by eapply Hk|].
  - apply HW. intros Hj%HP. apply blocks_range in Hin; [|done]. lia.
  - apply HW. intros Hj%HP. apply blocks_range in Hin; [|done]. lia.
Qed.

Lemma keeps_used (P : Z -> Prop) u a m m' : Forall chunk_ok u -> within P m m' -> (forall i, P i -> i < a \/ a + clen u <= i) -> keeps (blocks u a) m m'.
Proof. intros Hu [HW _] HP p q i Hin Hi. apply HW. intros Hj%HP. apply blocks_range in Hin; [|done]. lia. Qed.

Section Alloc.
  Context (heaps : list HEAP_HDR) (h : HEAP_HDR) (id : Z).

(** A list whose first chunk is the head of the heap. *)
Lemma head_part x p u t l : x ++ p :: u ++ t = CHead :: l -> exists l1, x ++ p :: u = CHead :: l1 /\ l = l1 ++ t.
Proof. destruct x as [|c x]; cbn; intros [= -> <-]; [by exists u|]. exists (x ++ p :: u). by rewrite <- app_assoc. Qed.

(** A part of a heap is replaced. *)
Lemma heap_ok_part m m' l l' x p w p' w' r :
  heap_ok m h id l -> CHead :: l = x ++ (p :: w) ++ r -> CHead :: l' = x ++ (p' :: w') ++ r -> linked p = true -> linked p' = true ->
  clen (p' :: w') = clen (p :: w) -> Forall (fun c => chunk_ok c /\ not_head c) l' -> apart false l' ->
  let a := hh_addr h + clen x in within (fun i => a <= i < a + clen (p :: w)) m m' ->
  tiled id m' (p' :: w') a (ff r (a + clen (p :: w)) (heap_last h)) -> heap_ok m' h id l'.
Proof.
  intros [Hi Hr Hc Hap Hl Ht He Hm] E E' Hp Hp' Hlen Hc' Hap' a HW Hn.
  assert (Hok : Forall chunk_ok (x ++ (p :: w) ++ r)) by (rewrite <- E; constructor; [done|by apply chunks_ok]).
  assert (Hlen' : clen (CHead :: l') = clen (CHead :: l)) by (rewrite E, E', !clen_app, Hlen; lia). cbn [clen csize] in Hlen'.
  assert (Hend : a + clen (p :: w) + clen r = heap_last h) by (rewrite <- Hl; assert (HE : clen (CHead :: l) = clen x + (clen (p :: w) + clen r)) by (by rewrite E, !clen_app); cbn [clen csize] in HE; unfold a; cbn [clen]; lia).
  apply Forall_app in Hok as Hok'. destruct Hok' as [_ [_ HokR]%Forall_app]. pose proof (clen_ok _ HokR) as [? _]. pose proof (zlen_nonneg r).
  split; try done; [lia| | |by eapply within_allocated].
  - rewrite E'. eapply (replace_part id m m' x p w); [by rewrite <- E|done..].
  - rewrite <- He. unfold h_size. eapply load_word_within; [exact HW|]. unfold word_at. intros i Hi1 Hi2. cbn beta in Hi2. lia.
Qed.

(** The blocks of a heap, by its parts. *)
Lemma blocks_part l x n r a : CHead :: l = x ++ n ++ r -> blocks l (a + 16) = blocks x a ++ blocks n (a + clen x) ++ blocks r (a + clen x + clen n).
Proof. intros E. change (blocks l (a + 16)) with (blocks (CHead :: l) a). by rewrite E, !blocks_app. Qed.

Lemma blocks_linked p l a : linked p = true -> blocks (p :: l) a = blocks l (a + csize p).
Proof. by destruct p. Qed.

Lemma heap_fuel_ok m l : heap_ok m h id l -> (length l < heap_fuel h)%nat /\ heap_last h + 16 <= hh_addr h + hh_size h.
Proof.
  intros [Hi Hr Hc Hap Hl Ht He Hm]. pose proof (clen_ok _ (chunks_ok _ Hc)) as [Hl0 _]. unfold heap_fuel, heap_last, zlen in *.
  split; [lia|]. Z.to_euclidean_division_equations. lia.
Qed.

(** What allocation makes of a chunk of [n] bytes. *)
Definition taken (k n : Z) : list Chunk := CUsed k :: (if n =? csize (CUsed k) then [] else [CFree (n - csize (CUsed k))]).

Lemma taken_ok k n : chunk_ok (CUsed k) -> chunk_ok (CFree n) -> csize (CUsed k) <= n ->
  clen (taken k n) = n /\ Forall (fun c => chunk_ok c /\ not_head c) (taken k n).
Proof.
  intros Hk [Hn Hm] Hle. pose proof (csize_pos _ Hk) as [H16 Hm16]. unfold taken. set (ns := csize (CUsed k)) in *.
  destruct (Z.eqb_spec n ns) as [->|Hne]; cbn [clen]; fold ns; [split; [lia|]; by constructor|]. cbn [csize]. split; [lia|].
  constructor; [done|]. constructor; [|done]. split; [|done]. cbn [chunk_ok]. Z.to_euclidean_division_equations. lia.
Qed.

Lemma heap_alloc_ok m l size : heap_ok m h id l -> heap_hdr heaps id = Some (Some h) -> 0 < size < 2 ^ 64 - 31 ->
  let ns := csize (CUsed size) in
  (Forall (fun c => ~ fits ns c) l /\ heap_alloc heaps m id size = Some (m, 0)) \/
  exists l1 n l2 m', l = l1 ++ CFree n :: l2 /\ ns <= n /\
    heap_alloc heaps m id size = Some (m', hh_addr h + 16 + clen l1 + 16) /\ heap_ok m' h id (l1 ++ taken size n ++ l2) /\ keeps (blocks l (hh_addr h + 16)) m m'.
Proof.
  intros Hh Hid Hs ns. pose proof (heap_fuel_ok _ _ Hh) as [Hfuel Hlast]. pose proof Hh as [Hi Hr Hc Hap Hl Ht He Hm].
  assert (Hk : chunk_ok (CUsed size)) by (cbn; lia). pose proof (used_fits size Hs) as Hfit. fold ns in Hfit. pose proof (chunks_ok _ Hc) as Hok.
  unfold heap_alloc. rewrite Hid. cbn [mbind option_bind]. destruct (Z.eqb_spec size 0) as [|_]; [lia|].
  assert (Hns : ⟦HEAP_ROUND size + 16⟧64 = ns) by (apply wrap_small; unfold ns in *; cbn [csize] in *; split; lia). rewrite Hns.
  destruct (find_fit_ok id m (heap_last h) ns ltac:(unfold HEAP_END; lia) He (heap_fuel h) CHead l (hh_addr h) eq_refl Hc Ht Hfuel)
    as [(HF & prev & E & Hprev)|(x & p & u & n & r & El & Hp & Hu & Hn & E)]; rewrite E; cbn [mbind option_bind].
  { left. split; [done|]. rewrite Hprev. cbn [mbind option_bind]. rewrite He. done. }
  right. destruct (head_part x p u (CFree n :: r) l (eq_sym El)) as (l1 & E1 & ->).
  assert (ET : CHead :: l1 ++ CFree n :: r = x ++ (p :: u ++ [CFree n]) ++ r) by (rewrite El; cbn; by rewrite <- app_assoc).
  assert (ET' : CHead :: l1 ++ taken size n ++ r = x ++ (p :: u ++ taken size n) ++ r) by (rewrite app_comm_cons, <- E1, <- !app_assoc; cbn [app]; by rewrite <- app_assoc).
  assert (HokT : Forall chunk_ok (x ++ (p :: u ++ [CFree n]) ++ r)) by (rewrite <- ET; by constructor).
  pose proof HokT as [_ [[HokP [HokU [Hn0 _]%Forall_cons]%Forall_app]%Forall_cons _]%Forall_app]%Forall_app.
  destruct (taken_ok size n Hk Hn0 Hn) as [Htl Htc]. pose proof (csize_pos _ HokP) as [HP16 _]. pose proof (clen_ok _ HokU) as [HU0 _]. pose proof (zlen_nonneg u).
  assert (Hq : hh_addr h + clen x + (csize p + clen u) = hh_addr h + 16 + clen l1) by (assert (HE : clen (x ++ p :: u) = 16 + clen l1) by (by rewrite E1); rewrite clen_app in HE; cbn [clen] in HE; lia).
  rewrite ET in Ht. destruct (take_chunk id m x p u n r size (hh_addr h) (heap_last h) Ht HokT Hp Hu Hk Hn) as (pn & m' & F1 & F2 & F3 & F4 & HW & Ht');
    [split; lia|lia|rewrite <- ET; cbn [clen csize] in *; lia|lia|eapply allocated_sub; [exact Hm|lia|lia]|].
  cbn [clen] in F1, F2, F3, F4, HW, Ht'. rewrite Hq in F1, F2, F3, F4, HW, Ht'. fold ns in F4. set (q := hh_addr h + 16 + clen l1) in *.
  assert (HN : clen (p :: u ++ [CFree n]) = csize p + clen u + n) by (cbn [clen]; rewrite clen_app; cbn [clen csize]; lia).
  exists l1, n, r, m'. split; [done|]. split; [done|]. split; [|split].
  - rewrite F1. cbn [mbind option_bind]. rewrite F2. cbn [mbind option_bind]. cbn in Hn0. destruct (Z.eqb_spec n HEAP_END) as [|_]; [unfold HEAP_END in *; lia|].
    rewrite F3. cbn [mbind option_bind]. rewrite (wrap_small 64 (n - ns)) by (split; lia).
    match goal with |- (?A ≫= _) = _ => destruct A as [m1|]; [|done] end. cbn [mbind option_bind] in F4 |- *.
    destruct (set_h_size m1 q size) as [m2|]; [|done]. cbn [mbind option_bind] in F4 |- *. by rewrite F4.
  - eapply (heap_ok_part m m' _ _ x p (u ++ [CFree n]) p (u ++ taken size n) r Hh ET ET' Hp Hp).
    + rewrite HN. cbn [clen]. rewrite clen_app, Htl. lia.
    + apply Forall_app in Hc as [Hc1 [_ Hc2]%Forall_cons]. apply Forall_app. split; [done|]. by apply Forall_app.
    + apply apart_app in Hap as [Hap1 [_ Hap2]]. apply apart_app. split; [done|]. split; [by rewrite andb_false_r|]. cbn [is_free] in *.
      destruct (n =? csize (CUsed size)); [by eapply apart_false|done].
    + eapply within_mono; [exact HW|]. rewrite HN. unfold word_at. intros i Hj. cbn beta in Hj. lia.
    + rewrite HN. by replace (hh_addr h + clen x + (csize p + clen u + n)) with (q + n) by lia.
  - rewrite (blocks_part _ _ _ _ _ ET). apply (keeps_part _ x (p :: u ++ [CFree n]) r _ _ _ _ HokT HW).
    + rewrite HN. unfold word_at. intros i Hj. cbn beta in Hj. lia.
    + rewrite blocks_linked, blocks_app, app_nil_r by done. apply (keeps_used _ _ _ _ _ HokU HW). unfold word_at. intros i Hj. cbn beta in Hj. lia.
Qed.

End Alloc.

(** ** Release *)

(** A free chunk is combined with a free neighbour behind it. *)
Definition merged (k : Z) (y : list Chunk) : Z * list Chunk := match y with CFree n :: y => (k + n, y) | _ => (k, y) end.

Section Release.
  Context (h : HEAP_HDR) (id : Z).

Lemma merge_ok m e tp k y : tiled id m y (tp + k) e -> Forall (fun c => chunk_ok c /\ not_head c) y -> tp + k + clen y = e ->
  h_size m e = Some HEAP_END -> h_next m tp = Some (ff y (tp + k) e) -> h_size m tp = Some k -> allocated m tp 16 -> 0 < tp -> 16 <= k -> e < 2 ^ 64 ->
  let '(k', y') := merged k y in
  exists m', (nx ← h_next m tp; ns ← h_size m nx; ts ← h_size m tp;
      if negb (ns =? HEAP_END) && (tp + ts =? nx) then m ← set_h_size m tp ⟦ts + ns⟧64; nn ← h_next m nx; m ← set_h_next m tp nn; Some (Some m)
      else Some (Some m)) = Some (Some m') /\
    within (fun i => tp <= i < tp + 16) m m' /\ h_next m' tp = Some (ff y' (tp + k') e) /\ h_size m' tp = Some k'.
Proof.
  intros Ht Hy He Hend Hn Hs Ha Htp Hk He64. rewrite Hn. cbn [mbind option_bind].
  assert (Hnm : forall z b, Forall (fun c => chunk_ok c /\ not_head c) z -> tiled id m z b e -> tp + k < b -> b + clen z = e ->
    exists ns, h_size m (ff z b e) = Some ns /\ tp + k < ff z b e).
  { intros z b Hz. revert b. induction Hz as [|c z [Hc Hh] Hz IH]; intros b Hz1 Hz2 Hz3; cbn in *; [exists HEAP_END; split; [done|lia]|].
    pose proof (csize_pos _ Hc) as [? _]. destruct Hz1 as (H1 & H2 & H3). destruct (linked c); [by exists (cword c)|]. apply IH; [done|lia|lia]. }
  destruct y as [|c y]; [|destruct c as [|n|r]].
  - cbn [merged ff]. cbn in He. rewrite Hend. cbn [mbind option_bind]. rewrite Hs. cbn [mbind option_bind]. rewrite Z.eqb_refl. cbn [negb andb].
    exists m. split_and!; first [done|apply within_refl].
  - apply Forall_cons in Hy as [[_ Hh] _]. done.
  - cbn [merged ff linked] in *. destruct Ht as (H1 & H2 & _). rewrite H1. cbn [mbind option_bind cword]. rewrite Hs. cbn [mbind option_bind].
    apply Forall_cons in Hy as [[[Hc _] _] Hy]. destruct (Z.eqb_spec n HEAP_END) as [|_]; [unfold HEAP_END in *; lia|]. rewrite Z.eqb_refl. cbn [negb andb].
    cbn [clen csize linked] in *. pose proof (clen_ok _ (chunks_ok _ Hy)) as [? _]. pose proof (zlen_nonneg y).
    pose proof (ff_range y (tp + k + n) e (chunks_ok _ Hy) ltac:(lia)) as Hff.
    rewrite wrap_small by (split; lia). unfold set_h_size, set_h_next.
    destruct (store_step (fun i => tp <= i < tp + 16) m m (tp + 8) (k + n) (within_refl _ _)) as (m1 & E1 & W1);
      [eapply allocated_sub; [exact Ha|lia|lia]|unfold word_at; lia|].
    destruct (store_step (fun i => tp <= i < tp + 16) m m1 tp (ff y (tp + k + n) e) W1) as (m2 & E2 & W2);
      [eapply allocated_sub; [exact Ha|lia|lia]|unfold word_at; lia|].
    exists m2. rewrite E1. cbn [mbind option_bind]. assert (Hn1 : h_next m1 (tp + k) = Some (ff y (tp + k + n) e)) by (wload; done).
    rewrite Hn1. cbn [mbind option_bind]. rewrite E2. split_and!; try done; wload; [|done]. do 2 f_equal. lia.
  - cbn [merged]. destruct Ht as (H1 & H2 & H3). apply Forall_cons in Hy as [[Hc Hh] Hy]. pose proof (csize_pos _ Hc) as [? _]. cbn [ff linked clen] in *.
    destruct (Hnm y (tp + k + csize (CUsed r)) Hy H3 ltac:(lia) ltac:(lia)) as (ns & E & Hlt). rewrite E. cbn [mbind option_bind]. rewrite Hs. cbn [mbind option_bind].
    destruct (Z.eqb_spec (tp + k) (ff y (tp + k + csize (CUsed r)) e)) as [|_]; [lia|]. rewrite andb_false_r. exists m. split_and!; first [done|apply within_refl].
Qed.

(** What [merged] takes from the chunks behind. *)
Definition absorbed (y : list Chunk) : list Chunk := match y with CFree n :: _ => [CFree n] | _ => [] end.

Lemma merged_ok k y : Forall (fun c => chunk_ok c /\ not_head c) y -> apart false y ->
  let '(k', y') := merged k y in
  y = absorbed y ++ y' /\ k' = k + clen (absorbed y) /\ Forall (fun c => chunk_ok c /\ not_head c) y' /\ apart true y' /\
  clen (absorbed y) mod 16 = 0 /\ 0 <= clen (absorbed y) /\ (forall a, blocks (absorbed y) a = []).
Proof.
  intros Hy Ha. destruct y as [|[|n|r] y]; cbn; [split_and!; done || lia| | |].
  - by apply Forall_cons in Hy as [[_ Hh] _].
  - apply Forall_cons in Hy as [[[Hn Hm] _] Hy]. rewrite !Z.add_0_r. split_and!; try done; try lia; by apply Ha.
  - split_and!; try done; try lia; by apply Ha.
Qed.

(** The chunk in front of a used chunk is the head, used, or free and next to it. *)
Lemma place_cases p u : linked p = true -> chunk_ok p -> Forall chunk_ok u -> Forall (fun c => linked c = false) u ->
  (exists k, p = CFree k /\ u = []) \/ (cword p < csize p + clen u /\ forall b, ends b (p :: u) = false).
Proof.
  intros Hp Hpo Huo Hu. destruct u as [|c u] using rev_ind; [destruct p as [|k|]; [right; by split|left; by exists k|done]|]. right. clear IHu. split.
  - pose proof (clen_ok _ Huo) as [H0 _]. rewrite zlen_app in H0. pose proof (zlen_nonneg u). assert (zlen [c] = 1) by done. destruct p; cbn in *; [lia|lia|done].
  - intros b. apply Forall_app in Hu as [_ [Hc _]%Forall_cons]. cbn. rewrite ends_app. by destruct c.
Qed.

(** Two ways to insert the released chunk: into the free chunk in front of it,
    or behind the last linked one.  [x'] is what is left in front of it. *)
Lemma free_part m l x p u r y : let e := heap_last h in
  heap_ok m h id l -> CHead :: l = x ++ (p :: u ++ [CUsed r]) ++ y -> linked p = true -> Forall (fun c => linked c = false) u ->
  let prev := hh_addr h + clen x in let q := prev + clen (p :: u) in let c := csize (CUsed r) in
  forall m0, set_h_size m q c = Some m0 ->
  find_place (heap_fuel h) m0 q (hh_addr h) = Some prev /\ h_size m0 prev = Some (cword p) /\ h_next m0 prev = Some (ff y (q + c) e) /\
  h_size m0 q = Some c /\ tiled id m0 y (q + c) e /\ tiled id m0 u (prev + csize p) q /\ within (word_at (q + 8)) m m0.
Proof.
  intros e Hh El Hp Hu prev q c m0 E0. unfold set_h_size in E0. pose proof (heap_fuel_ok _ _ _ _ Hh) as [Hfuel Hlast]. pose proof Hh as [Hi Hr Hc Hap Hl Ht He Hm]. rewrite El in Ht.
  assert (HokT : Forall chunk_ok (x ++ (p :: u ++ [CUsed r]) ++ y)) by (rewrite <- El; constructor; [done|by apply chunks_ok]).
  pose proof HokT as [HokX [[HokP [HokU [HokR _]%Forall_cons]%Forall_app]%Forall_cons HokY]%Forall_app]%Forall_app.
  pose proof (csize_pos _ HokP) as [HP16 _]. pose proof (csize_pos _ HokR) as [HR16 _]. fold c in HR16. pose proof (clen_ok _ HokU) as [HU0 _]. pose proof (clen_ok _ HokX) as [HX0 _].
  pose proof (clen_ok _ HokY) as [HY0 _]. pose proof (zlen_nonneg u). pose proof (zlen_nonneg x). pose proof (zlen_nonneg y).
  assert (HE : 16 + clen l = clen x + (csize p + (clen u + c) + clen y)).
  { change (16 + clen l) with (clen (CHead :: l)). rewrite El, clen_app, clen_app. cbn [clen]. rewrite clen_app. cbn [clen]. fold c. lia. }
  assert (Hq : q = prev + csize p + clen u) by (unfold q; cbn [clen]; lia).
  assert (Hcr : in_u 64 c) by (split; lia).
  pose proof (store_word_within _ _ _ _ E0) as HW. replace (x ++ (p :: u ++ [CUsed r]) ++ y) with ((x ++ p :: u) ++ CUsed r :: y) in Ht, HokT by (rewrite <- !app_assoc; cbn; by rewrite <- app_assoc).
  rewrite tiled_app in Ht. assert (Hcx : hh_addr h + clen (x ++ p :: u) = q) by (rewrite clen_app; cbn [clen]; unfold prev in *; lia). rewrite Hcx in Ht. cbn [ff linked tiled] in Ht. fold c in Ht.
  destruct Ht as (Ht1 & _ & _ & Ht2). apply Forall_app in HokT as [Hok1 _].
  assert (Hm0 : tiled id m0 (x ++ p :: u) (hh_addr h) (ff y (q + c) e)).
  { eapply tiled_within; [exact Hok1|exact HW| |exact Ht1]. rewrite Hcx. unfold word_at. lia. }
  pose proof Hm0 as Hm0'. rewrite tiled_app in Hm0'. fold prev in Hm0'. destruct Hm0' as (_ & Hps & Hpn & Htu). rewrite Hp, ff_used in Hpn by done.
  split_and!; try done.
  - rewrite <- Hcx. apply (find_place_ok id m0 (ff y (q + c) e)); try done.
    + destruct x as [|d x]; [done|]. by injection El as <- _.
    + rewrite Hcx. pose proof (ff_range y (q + c) e HokY ltac:(unfold prev, e in *; lia)). lia.
    + assert (Hlen : length (CHead :: l) = length (x ++ (p :: u ++ [CUsed r]) ++ y)) by (by rewrite El). rewrite !length_app in Hlen. cbn in Hlen. lia.
  - wload. done.
  - eapply tiled_within; [exact HokY|exact HW| |exact Ht2]. unfold word_at. lia.
  - eapply tiled_used; [done|exact Htu].
Qed.

Lemma last_linked l : exists x p u, CHead :: l = x ++ p :: u /\ linked p = true /\ Forall (fun c => linked c = false) u.
Proof.
  induction l as [|c l (x & p & u & E & Hp & Hu)] using rev_ind; [by exists [], CHead, []|]. destruct (linked c) eqn:Ec; [by exists (CHead :: l), c, []|].
  exists x, p, (u ++ [c]). split_and!; try done; [|apply Forall_app; split; [done|by constructor]]. by rewrite app_comm_cons, E, <- app_assoc.
Qed.

(** The chunks after a release. *)
Lemma freed_chunks z w k y : Forall (fun c => chunk_ok c /\ not_head c) (z ++ w ++ y) -> apart false z -> ends false z = false -> apart false y ->
  clen w = k -> 16 <= k -> k + clen y < 2 ^ 64 - 1 ->
  let '(k', y') := merged k y in
  Forall (fun c => chunk_ok c /\ not_head c) (z ++ CFree k' :: y') /\ apart false (z ++ CFree k' :: y') /\ clen (w ++ absorbed y) = k' /\
  (forall a, blocks (z ++ CFree k' :: y') a = blocks z a ++ blocks y (a + clen z + k)).
Proof.
  intros Hok Hz Hez Hy Hw Hk Hlim. apply Forall_app in Hok as [Hcz [Hcw Hcy]%Forall_app]. pose proof (merged_ok k y Hcy Hy) as HM.
  destruct (merged k y) as [k' y']. destruct HM as (E & -> & Hcy' & Hay' & Hm & Hpos & Hb).
  pose proof (clen_ok _ (chunks_ok _ Hcw)) as [_ Hm2]. rewrite Hw in Hm2. pose proof (clen_ok _ (chunks_ok _ Hcy')) as [Hy0 _]. pose proof (zlen_nonneg y').
  assert (clen y = clen (absorbed y) + clen y') by (rewrite E at 1; apply clen_app).
  split_and!.
  - apply Forall_app. split; [done|]. constructor; [|done]. split; [|done]. cbn [chunk_ok]. rewrite Z.add_mod, Hm, Hm2 by lia. split; [lia|done].
  - apply apart_app. split; [done|]. split; [by rewrite Hez|done].
  - rewrite clen_app. lia.
  - intros a. rewrite blocks_app. f_equal. cbn [blocks csize]. rewrite E at 2. rewrite blocks_app, Hb. cbn [app]. f_equal. lia.
Qed.

Lemma free_into m l x k r y : heap_ok m h id l -> l = x ++ CFree k :: CUsed r :: y ->
  let b := hh_addr h + 16 in let q := b + clen (x ++ [CFree k]) in let c := csize (CUsed r) in
  forall m0, set_h_size m q c = Some m0 ->
  exists l' m', heap_free_chunk h m0 q = Some (Some m') /\ heap_ok m' h id l' /\
    blocks l' b = blocks (x ++ [CFree k]) b ++ blocks y (q + c) /\ keeps (blocks l' b) m m'.
Proof.
  intros Hh El b q c m0 E0. pose proof (heap_fuel_ok _ _ _ _ Hh) as [_ Hlast]. pose proof Hh as [Hi Hr Hc Hap Hl Ht He Hm]. set (e := heap_last h) in *.
  assert (ET : CHead :: l = (CHead :: x) ++ (CFree k :: [] ++ [CUsed r]) ++ y) by (by rewrite El).
  assert (Hq : q = hh_addr h + clen (CHead :: x) + clen [CFree k]) by (unfold q, b; rewrite clen_app; cbn [clen csize]; lia).
  rewrite Hq in E0. destruct (free_part m l (CHead :: x) (CFree k) [] r y Hh ET eq_refl ltac:(done) m0 E0) as (F1 & F2 & F3 & F4 & F5 & _ & HW0).
  rewrite <- Hq in *. set (prev := hh_addr h + clen (CHead :: x)) in *. fold c e in F1, F2, F3, F4, F5. cbn [clen csize cword] in *.
  subst l. pose proof Hc as [Hcx [[[Hk Hkm] _] [[Hco _] Hcy]%Forall_cons]%Forall_cons]%Forall_app. pose proof (csize_pos _ Hco) as [Hc16 _]. fold c in Hc16.
  rewrite clen_app in Hl. cbn [clen csize] in Hl. fold c in Hl. pose proof (clen_ok _ (chunks_ok _ Hcx)) as [Hx0 _]. pose proof (clen_ok _ (chunks_ok _ Hcy)) as [Hy0 _].
  pose proof (zlen_nonneg x). pose proof (zlen_nonneg y). change (csize (CUsed r)) with c in Hc16.
  set (P := fun i => prev <= i < prev + (k + c)). assert (WP : within P m m0) by (eapply within_mono; [exact HW0|]; unfold P, word_at; lia).
  destruct (store_step P m m0 (prev + 8) (k + c) WP) as (m1 & E1 & W1); [eapply allocated_sub; [exact Hm|lia|lia]|unfold P, word_at; lia|].
  assert (HW01 : within (word_at (prev + 8)) m0 m1) by (by eapply store_word_within).
  pose proof (merge_ok m1 e prev (k + c) y) as HM. pose proof (freed_chunks x [CFree k; CUsed r] (k + c) y Hc) as HF.
  apply apart_app in Hap as [Hapx (Hex & _ & Hapy)]. rewrite andb_true_r in Hex.
  specialize (HF Hapx Hex Hapy ltac:(cbn [clen csize]; lia) ltac:(lia) ltac:(lia)). destruct (merged (k + c) y) as [k' y'] eqn:Em.
  pose proof (merged_ok (k + c) y Hcy Hapy) as HG. rewrite Em in HG. destruct HG as (Ey & Hk' & _ & _ & _ & Hg & Hgb). destruct HF as (HF1 & HF2 & HF3 & HF4).
  destruct HM as (m' & E' & W' & N' & S').
  { replace (prev + (k + c)) with (q + c) by lia. eapply tiled_within; [exact (chunks_ok _ Hcy)|exact HW01| |exact F5]. unfold word_at. lia. }
  { done. } { lia. }
  { rewrite <- He. unfold h_size. transitivity (load_num m0 (e + 8) 8); [eapply load_word_within; [exact HW01|unfold word_at; lia]|].
    eapply load_word_within; [exact HW0|unfold word_at; lia]. }
  { replace (prev + (k + c)) with (q + c) by lia. wload. exact F3. }
  { wload. done. }
  { eapply within_allocated; [exact W1|]. eapply allocated_sub; [exact Hm|lia|lia]. } { lia. } { lia. } { lia. }
  assert (ET1 : CHead :: x ++ CFree k :: CUsed r :: y = (CHead :: x) ++ (CFree k :: CUsed r :: absorbed y) ++ y') by (cbn; by rewrite Ey at 1).
  assert (HN : clen (CFree k :: CUsed r :: absorbed y) = k') by exact HF3.
  assert (W2 : within (fun i => prev <= i < prev + k') m m') by (eapply within_trans; [exact W1|exact W'| |]; intros i Hj; unfold P in *; cbn beta in *; lia).
  exists (x ++ CFree k' :: y'), m'. split; [|split; [|split]].
  - unfold heap_free_chunk. rewrite F1. cbn [mbind option_bind]. rewrite F2. cbn [mbind option_bind]. rewrite F4. cbn [mbind option_bind].
    destruct (Z.eqb_spec (prev + k) q) as [_|]; [|lia].
    assert (E1' : set_h_size m0 prev ⟦k + c⟧64 = Some m1) by (rewrite wrap_small by (split; lia); exact E1). rewrite E1'. cbn [mbind option_bind]. exact E'.
  - eapply (heap_ok_part h id m m' _ _ (CHead :: x) (CFree k) (CUsed r :: absorbed y) (CFree k') [] y' Hh ET1); try done; rewrite HN; [cbn [clen csize]; lia| |];
      change (hh_addr h + clen (CHead :: x)) with prev; [done|]. split_and!; [done| |done]. cbn [linked ff csize]. by rewrite N'.
  - rewrite HF4, blocks_app. cbn [blocks]. rewrite app_nil_r. f_equal. f_equal. unfold q, b. rewrite clen_app. cbn [clen csize]. lia.
  - unfold b. rewrite (blocks_part (x ++ CFree k' :: y') (CHead :: x) [CFree k'] y') by done. cbn [blocks clen csize]. rewrite Z.add_0_r, <- HN.
    apply (keeps_part _ (CHead :: x) (CFree k :: CUsed r :: absorbed y) y' [] _ _ _ ltac:(rewrite <- ET1; constructor; [done|by apply chunks_ok]) W2); [|by intros ? ? ? ?%elem_of_nil].
    rewrite HN. by change (hh_addr h + clen (CHead :: x)) with prev.
Qed.

Lemma free_behind m l l1 x p u r y : heap_ok m h id l -> l = l1 ++ CUsed r :: y -> CHead :: l1 = x ++ p :: u -> linked p = true ->
  Forall (fun c => linked c = false) u -> cword p < csize p + clen u -> ends false l1 = false ->
  let b := hh_addr h + 16 in let q := b + clen l1 in let c := csize (CUsed r) in
  forall m0, set_h_size m q c = Some m0 ->
  exists l' m', heap_free_chunk h m0 q = Some (Some m') /\ heap_ok m' h id l' /\
    blocks l' b = blocks l1 b ++ blocks y (q + c) /\ keeps (blocks l' b) m m'.
Proof.
  intros Hh El E1 Hp Hu Hlt Hez b q c m0 E0. pose proof (heap_fuel_ok _ _ _ _ Hh) as [_ Hlast]. pose proof Hh as [Hi Hr Hc Hap Hl Ht He Hm]. set (e := heap_last h) in *.
  assert (ET : CHead :: l = x ++ (p :: u ++ [CUsed r]) ++ y) by (rewrite El, app_comm_cons, E1, <- !app_assoc; cbn; by rewrite <- app_assoc).
  assert (Hlen1 : 16 + clen l1 = clen x + (csize p + clen u)) by (change (16 + clen l1) with (clen (CHead :: l1)); by rewrite E1, clen_app).
  set (prev := hh_addr h + clen x). assert (Hprev : prev = hh_addr h + clen x) by done. assert (Hqb : q = hh_addr h + 16 + clen l1) by done.
  assert (Hq : q = prev + clen (p :: u)) by (unfold q, b, prev; cbn [clen]; lia).
  rewrite Hq in E0. destruct (free_part m l x p u r y Hh ET Hp Hu m0 E0) as (F1 & F2 & F3 & F4 & F5 & F6 & HW0). fold prev in F1, F2, F3, F4, F5, F6, HW0, E0.
  rewrite <- Hq in *. fold c e in F1, F2, F3, F4, F5. subst l. pose proof Hc as [Hc1 [[Hco _] Hcy]%Forall_cons]%Forall_app. pose proof (csize_pos _ Hco) as [Hc16 _]. fold c in Hc16.
  assert (Hc1' : Forall chunk_ok (x ++ p :: u)) by (rewrite <- E1; constructor; [done|by apply chunks_ok]). pose proof Hc1' as [Hcx [Hcp Hcu]%Forall_cons]%Forall_app.
  rewrite clen_app in Hl. cbn [clen] in Hl, Hq. fold c in Hl. pose proof (csize_pos _ Hcp) as [Hp16 _]. pose proof (clen_ok _ Hcx) as [Hx0 _]. pose proof (clen_ok _ Hcu) as [Hu0 _].
  pose proof (clen_ok _ (chunks_ok _ Hcy)) as [Hy0 _]. pose proof (zlen_nonneg x). pose proof (zlen_nonneg y). pose proof (zlen_nonneg u).
  pose proof (ff_range y (q + c) e (chunks_ok _ Hcy) ltac:(lia)) as Hff.
  set (P := fun i => word_at prev i \/ q <= i < q + c). assert (WP : within P m m0) by (eapply within_mono; [exact HW0|]; unfold P, word_at; lia).
  destruct (store_step P m m0 q (ff y (q + c) e) WP) as (m1 & E2 & W1); [eapply allocated_sub; [exact Hm|lia|lia]|unfold P, word_at; lia|].
  destruct (store_step P m m1 prev q W1) as (m2 & E3 & W2); [eapply allocated_sub; [exact Hm|lia|lia]|unfold P, word_at; lia|].
  pose proof (merge_ok m2 e q c y) as HM. pose proof (freed_chunks l1 [CUsed r] c y Hc) as HF. apply apart_app in Hap as [Hapx (_ & Hapy)].
  specialize (HF Hapx Hez Hapy ltac:(cbn [clen]; fold c; lia) ltac:(lia) ltac:(lia)). destruct (merged c y) as [k' y'] eqn:Em.
  pose proof (merged_ok c y Hcy Hapy) as HG. rewrite Em in HG. destruct HG as (Ey & Hk' & _ & _ & _ & Hg & Hgb). destruct HF as (HF1 & HF2 & HF3 & HF4).
  assert (Htail : forall (Q : Z -> Prop), (forall i, q + c <= i -> ~ Q i) -> forall n n', within Q n n' -> tiled id n y (q + c) e -> tiled id n' y (q + c) e).
  { intros Q HQ n n' HW Hn. eapply tiled_within; [exact (chunks_ok _ Hcy)|exact HW| |exact Hn]. intros i Hj. apply HQ. lia. }
  destruct HM as (m' & E' & W' & N' & S').
  { eapply (Htail (word_at prev)); [unfold word_at; lia|by eapply store_word_within|]. eapply (Htail (word_at q)); [unfold word_at; lia|by eapply store_word_within|done]. }
  { done. } { lia. } { rewrite <- He. unfold h_size. eapply load_word_within; [exact W2|unfold P, word_at; lia]. }
  { wload. done. } { wload. done. } { eapply within_allocated; [exact W2|]. eapply allocated_sub; [exact Hm|lia|lia]. } { lia. } { lia. } { lia. }
  assert (ET1 : CHead :: l1 ++ CUsed r :: y = x ++ (p :: u ++ CUsed r :: absorbed y) ++ y').
  { rewrite app_comm_cons, E1, <- !app_assoc. cbn. rewrite <- app_assoc. cbn. by rewrite Ey at 1. }
  assert (ET2 : CHead :: l1 ++ CFree k' :: y' = x ++ (p :: u ++ [CFree k']) ++ y') by (rewrite app_comm_cons, E1, <- !app_assoc; cbn; by rewrite <- app_assoc).
  assert (HN : clen (p :: u ++ CUsed r :: absorbed y) = csize p + clen u + k') by (cbn [clen app] in HF3 |- *; rewrite clen_app; cbn [clen]; lia).
  assert (W3 : within (fun i => word_at prev i \/ q <= i < q + k') m m') by (eapply within_trans; [exact W2|exact W'| |]; intros i Hj; unfold P, word_at in *; cbn beta in *; lia).
  assert (W4 : within (fun i => word_at prev i \/ q <= i < q + 16) m0 m').
  { eapply within_trans; [exact (store_word_within _ _ _ _ E2)| |unfold word_at; lia|intros i Hj; exact Hj].
    eapply within_trans; [exact (store_word_within _ _ _ _ E3)|exact W'|intros i Hj; by left|intros i Hj; by right]. }
  exists (l1 ++ CFree k' :: y'), m'. split; [|split; [|split]].
  - unfold heap_free_chunk. rewrite F1. cbn [mbind option_bind]. rewrite F2. cbn [mbind option_bind]. rewrite F4. cbn [mbind option_bind].
    destruct (Z.eqb_spec (prev + cword p) q) as [|_]; [lia|]. destruct (Z.ltb_spec (prev + cword p) q) as [_|]; [|lia]. rewrite F3. cbn [mbind option_bind].
    assert (E2' : set_h_next m0 q (ff y (q + c) e) = Some m1) by exact E2. assert (E3' : set_h_next m1 prev q = Some m2) by exact E3.
    rewrite E2'. cbn [mbind option_bind]. rewrite E3'. cbn [mbind option_bind]. exact E'.
  - eapply (heap_ok_part h id m m' _ _ x p (u ++ CUsed r :: absorbed y) p (u ++ [CFree k']) y' Hh ET1 ET2 Hp Hp); try done; rewrite HN; fold prev.
    + cbn [clen]. rewrite clen_app. cbn [clen csize]. lia.
    + eapply within_mono; [exact W3|]. unfold word_at. intros i Hj. cbn beta in Hj. lia.
    + split_and!.
      * rewrite <- F2. unfold h_size. transitivity (load_num m2 (prev + 8) 8); [eapply load_word_within; [exact W'|unfold word_at; lia]|]. wload. done.
      * rewrite Hp, ff_app, ff_used by done. cbn [ff linked]. replace (prev + csize p + clen u) with q by lia.
        unfold h_next. transitivity (load_num m2 prev 8); [eapply load_word_within; [exact W'|unfold word_at; lia]|]. wload. done.
      * rewrite tiled_app. replace (prev + csize p + clen u) with q by lia. split.
        -- eapply keep_used; [done|done|exact W4| |exact F6]. unfold word_at. lia.
        -- split_and!; [done| |done]. cbn [linked ff csize]. rewrite N'. do 2 f_equal. lia.
  - by rewrite HF4.
  - unfold b. rewrite (blocks_part _ _ _ _ _ ET2), blocks_linked, blocks_app, app_nil_r by done.
    replace (clen (p :: u ++ [CFree k'])) with (clen (p :: u ++ CUsed r :: absorbed y)) by (rewrite HN; cbn [clen]; rewrite clen_app; cbn [clen csize]; lia).
    apply (keeps_part _ x (p :: u ++ CUsed r :: absorbed y) y' _ _ _ _ ltac:(rewrite <- ET1; constructor; [done|by apply chunks_ok]) W3).
    + rewrite HN. fold prev. unfold word_at. intros i Hj. cbn beta in Hj. lia.
    + apply (keeps_used _ _ _ _ _ Hcu W3). fold prev. unfold word_at. intros i Hj. cbn beta in Hj. lia.
Qed.

(** A used chunk is released: [m0] is the memory after the total size of the
    chunk has been stored in its header. *)
Lemma heap_free_chunk_ok m l l1 r y : heap_ok m h id l -> l = l1 ++ CUsed r :: y ->
  let b := hh_addr h + 16 in let q := b + clen l1 in let c := csize (CUsed r) in
  forall m0, set_h_size m q c = Some m0 ->
  exists l' m', heap_free_chunk h m0 q = Some (Some m') /\ heap_ok m' h id l' /\
    blocks l' b = blocks l1 b ++ blocks y (q + c) /\ keeps (blocks l' b) m m'.
Proof.
  intros Hh El b q c m0 E0. destruct (last_linked l1) as (x & p & u & Ex & Hp & Hu).
  pose proof Hh as [_ _ Hc _ _ _ _ _]. rewrite El in Hc. apply Forall_app in Hc as [Hc _].
  assert (Hok : Forall chunk_ok (x ++ p :: u)) by (rewrite <- Ex; constructor; [done|by apply chunks_ok]). apply Forall_app in Hok as [_ [Hpo Huo]%Forall_cons].
  destruct (place_cases p u Hp Hpo Huo Hu) as [(k & -> & ->)|[Hlt Hez]].
  - destruct x as [|d x]; [done|]. injection Ex as <- ->. eapply (free_into m l x k r y Hh); [|exact E0]. by rewrite El, <- app_assoc.
  - eapply (free_behind m l l1 x p u r y Hh El Ex Hp Hu Hlt); [|exact E0]. specialize (Hez (ends false x)). rewrite <- ends_app, <- Ex in Hez. exact Hez.
Qed.

End Release.
