(* ===== verification/HeapTheorems.v ===== *)
(** What a heap promises (co/heap.c): whatever a user allocates, releases and
    writes, blocks stay apart and keep their contents, and an allocation fails
    only when there is no room between the blocks.  And where it breaks: sizes
    near 2^64, and [heap_realloc]. *)

From stdpp Require Import gmap.
From S2P Require Import Prelude Mem Heap HeapProps.
From stdpp Require Import list.

#[local] Open Scope Z_scope.
#[local] Arguments le_bytes : simpl never.

(** ** The functions on a heap in order *)

(** The table has the heap. *)
Definition has_heap (heaps : list HEAP_HDR) (id : Z) (h : HEAP_HDR) : Prop := zget heaps (id - 1) = Some h.

Lemma heap_hdr_ok heaps id h : has_heap heaps id h -> 1 <= id <= 16 -> hh_size h <> 0 -> heap_hdr heaps id = Some (Some h).
Proof.
  intros Hz Hid Hs. unfold heap_hdr, MAX_HEAPS. destruct (Z.eqb_spec id 0), (Z.ltb_spec 16 id); try lia. cbn [orb]. rewrite Hz. cbn [mbind option_bind].
  by destruct (Z.eqb_spec (hh_size h) 0).
Qed.

Lemma heap_free_ok heaps h id m l l1 r y : heap_ok m h id l -> has_heap heaps id h -> l = l1 ++ CUsed r :: y ->
  let b := hh_addr h + 16 in let q := b + clen l1 in
  exists l' m', heap_free heaps m (q + 16) = Some (Some m') /\ heap_ok m' h id l' /\
    blocks l' b = blocks l1 b ++ blocks y (q + csize (CUsed r)) /\ keeps (blocks l' b) m m'.
Proof.
  intros Hh Hz El b q. pose proof (heap_fuel_ok _ _ _ _ Hh) as [_ Hlast]. pose proof Hh as [Hi Hr Hc Hap Hl Ht He Hm]. rewrite El in Hc, Hl, Ht.
  set (c := csize (CUsed r)). apply Forall_app in Hc as [Hc1 [[Hco _] Hcy]%Forall_cons]. pose proof (csize_pos _ Hco) as [Hc16 _]. fold c in Hc16.
  pose proof (clen_ok _ (chunks_ok _ Hc1)) as [Hx0 _]. pose proof (clen_ok _ (chunks_ok _ Hcy)) as [Hy0 _]. pose proof (zlen_nonneg l1). pose proof (zlen_nonneg y).
  rewrite clen_app in Hl. cbn [clen] in Hl. fold c in Hl. rewrite app_comm_cons, tiled_app in Ht. cbn [clen csize] in Ht.
  replace (hh_addr h + (16 + clen l1)) with q in Ht by (unfold q, b; lia). destruct Ht as (_ & Hs & Hn & _). cbn [linked cword] in Hs, Hn.
  assert (Hq : q = hh_addr h + 16 + clen l1) by done.
  destruct (store_word m (q + 8) c) as [m0 E0]; [eapply allocated_sub; [exact Hm|lia|lia]|].
  destruct (heap_free_chunk_ok h id m l l1 r y Hh El m0 E0) as (l' & m' & E & Hh' & HB & HK). exists l', m'. split; [|done].
  unfold heap_free. destruct (Z.eqb_spec (q + 16) 0); [lia|]. replace (q + 16 - 16) with q by lia. rewrite Hs. cbn [mbind option_bind].
  assert (Hcw : ⟦HEAP_ROUND r + 16⟧64 = c) by (apply wrap_small; unfold c in *; cbn [csize] in *; split; lia). rewrite Hcw.
  assert (E0' : set_h_size m q c = Some m0) by exact E0. rewrite E0'. cbn [mbind option_bind]. cbn in Hco. destruct (Z.eqb_spec r 0); [lia|].
  assert (Hn0 : h_next m0 q = Some id) by (wload; exact Hn). rewrite Hn0. cbn [mbind option_bind]. rewrite (wrap_small 32 id) by (split; lia).
  unfold MAX_HEAPS. destruct (Z.eqb_spec id 0), (Z.ltb_spec 16 id); try lia. cbn [orb]. rewrite Hz. cbn [mbind option_bind].
  destruct (Z.eqb_spec (hh_size h) 0), (Z.ltb_spec q (hh_addr h + 16)), (Z.ltb_spec (hh_addr h + hh_size h - 16) (q + c)); try lia. exact E.
Qed.

(** A fresh heap. *)
Lemma heap_init_ok heaps m addr size :
  0 < addr -> 64 <= size -> addr + size < 2 ^ 64 -> allocated m addr size -> free_hdr heaps 0 < MAX_HEAPS -> length heaps = 16%nat ->
  exists heaps' m' id, heap_init heaps m addr size = Some (heaps', m', 0, Some id) /\ has_heap heaps' id (mkHdr addr size) /\
    heap_ok m' (mkHdr addr size) id [CFree (heap_last (mkHdr addr size) - addr - 16)].
Proof.
  intros Ha Hs Hlim Hm Hf Hlen. assert (Hi : forall l i, i <= free_hdr l i) by (induction l as [|h l IH]; intros i; cbn; [lia|]; case_match; [lia|]; specialize (IH (i + 1)); lia).
  specialize (Hi heaps 0). unfold heap_init, MAX_HEAPS in *. destruct (Z.eqb_spec addr 0) as [|_], (Z.ltb_spec size 64) as [|_]; try lia. cbn [orb]. set (i := free_hdr heaps 0) in *.
  destruct (Z.leb_spec 16 i); [lia|]. assert (Hz : zset heaps i (mkHdr addr size) = Some (<[Z.to_nat i := mkHdr addr size]> heaps)).
  { unfold zset, zlen. destruct (Z.leb_spec 0 i), (Z.ltb_spec i (Z.of_nat (length heaps))); try lia. done. }
  rewrite Hz. cbn [mbind option_bind]. unfold HEAP_SHIFT. rewrite Z.shiftr_div_pow2 by lia. change (2 ^ 4) with 16. change (addr + 16 * (size / 16 - 1)) with (heap_last (mkHdr addr size)).
  set (e := heap_last (mkHdr addr size)). assert (He : e = addr + 16 * (size / 16 - 1)) by done.
  assert (Hsz : 48 <= e - addr /\ e + 16 <= addr + size) by (rewrite He; Z.to_euclidean_division_equations; lia).
  set (n := e - addr - 16). assert (Hn : Z.shiftl ((e - (addr + 16)) / 16) 4 = n).
  { rewrite Z.shiftl_mul_pow2 by lia. change (2 ^ 4) with 16. unfold n. rewrite He. replace (addr + 16 * (size / 16 - 1) - (addr + 16)) with ((size / 16 - 2) * 16) by lia.
    rewrite Z.div_mul by lia. lia. }
  assert (Hnm : n mod 16 = 0) by (unfold n; rewrite He; replace (addr + 16 * (size / 16 - 1) - addr - 16) with ((size / 16 - 2) * 16) by lia; apply Z.mod_mul; lia).
  rewrite Hn. unfold set_h_next, set_h_size. set (P := fun j => addr <= j < addr + size). pose proof (within_refl P m) as W0.
  assert (Hst : forall m1 a v, within P m m1 -> addr <= a -> a + 8 <= addr + size -> exists m2, store_num m1 a 8 v = Some m2 /\ within P m m2).
  { intros m1 a v HW H1 H2. apply store_step; [done|eapply allocated_sub; [exact Hm|lia|lia]|unfold P, word_at; lia]. }
  destruct (Hst m addr (addr + 16) W0) as (m1 & E1 & W1); [lia..|]. destruct (Hst m1 (addr + 8) 0 W1) as (m2 & E2 & W2); [lia..|].
  destruct (Hst m2 (addr + 16) e W2) as (m3 & E3 & W3); [lia..|]. destruct (Hst m3 e addr W3) as (m4 & E4 & W4); [lia..|].
  destruct (Hst m4 (addr + 16 + 8) n W4) as (m5 & E5 & W5); [lia..|]. destruct (Hst m5 (e + 8) HEAP_END W5) as (m6 & E6 & W6); [lia..|].
  exists (<[Z.to_nat i := mkHdr addr size]> heaps), m6, (i + 1).
  rewrite E1. cbn [mbind option_bind]. rewrite E2. cbn [mbind option_bind]. rewrite E3. cbn [mbind option_bind]. rewrite E4. cbn [mbind option_bind].
  rewrite E5. cbn [mbind option_bind]. rewrite E6. cbn [mbind option_bind]. split; [done|]. split.
  { unfold has_heap, zget. replace (i + 1 - 1) with i by lia. destruct (Z.ltb_spec i 0); [lia|]. apply list_lookup_insert_eq. lia. }
  split; try done; cbn [hh_addr hh_size].
  - lia.
  - constructor; [|done]. split; [|done]. split; [unfold n; lia|done].
  - cbn [clen csize]. fold e. unfold n. lia.
  - fold e. cbn [tiled linked ff csize cword]. unfold n in *. split_and!; try done; wload; try done; do 2 f_equal; lia.
  - fold e. wload. done.
  - by eapply within_allocated.
Qed.

(** ** The blocks of the user *)

(** The blocks of a list are apart, with the headers between them. *)
Lemma blocks_apart l a p r q s : Forall chunk_ok l -> (p, r) ∈ blocks l a -> (q, s) ∈ blocks l a ->
  (p = q /\ r = s) \/ p + r <= q - 16 \/ q + s <= p - 16.
Proof.
  intros H. revert a. induction H as [|c l Hc Hl IH]; intros a Hp Hq; [by apply elem_of_nil in Hp|].
  destruct c as [|n|k]; cbn [blocks] in Hp, Hq; [by eapply IH|by eapply IH|]. pose proof (used_fits k Hc).
  apply elem_of_cons in Hp as [[= -> ->]|Hp]; apply elem_of_cons in Hq as [[= -> ->]|Hq]; [by left| | |by eapply IH].
  - apply blocks_range in Hq; [|done]. lia.
  - apply blocks_range in Hp; [|done]. lia.
Qed.

(** An area that no chunk in use touches lies in a free chunk. *)
Lemma gap_in_chunk l a s n : Forall (fun c => chunk_ok c /\ not_head c) l -> apart false l -> 0 < n -> a <= s -> s + n <= a + clen l ->
  (forall p r, (p, r) ∈ blocks l a -> s + n <= p - 16 \/ p + HEAP_ROUND r <= s) -> Exists (fits n) l.
Proof.
  intros H. revert a. induction H as [|c l [Hc Hh] Hl IH]; intros a Hap Hn Ha Hs HB; [cbn in Hs; lia|]. cbn [clen] in Hs. destruct Hap as [_ Hap].
  destruct (decide (a + csize c <= s)) as [Hle|Hlt].
  { right. apply (IH (a + csize c)); [by eapply apart_false|lia..|]. intros p r Hin. apply (HB p r). destruct c; cbn [blocks]; [done|done|by right]. }
  destruct c as [|k|k]; [done| |]; cbn [csize] in *.
  - destruct l as [|[|j|j] l]; [left; cbn in *; lia|by apply Forall_cons in Hl as [[_ ?] _]|by destruct Hap as [? _]|].
    left. cbn [fits]. destruct (HB (a + k + 16) j) as [?|?]; [cbn [blocks csize]; left|lia|].
    apply Forall_cons in Hl as [[Hj _] _]. pose proof (used_fits j Hj). cbn [csize chunk_ok] in *. lia.
  - pose proof (used_fits k Hc). cbn [csize chunk_ok] in *. destruct (HB (a + 16) k) as [?|?]; [cbn [blocks]; left|lia..].
Qed.

(** A block is a chunk in use. *)
Lemma block_chunk l a p r : (p, r) ∈ blocks l a -> exists x y, l = x ++ CUsed r :: y /\ p = a + clen x + 16.
Proof.
  revert a. induction l as [|c l IH]; intros a Hin; [by apply elem_of_nil in Hin|].
  assert (Hc : (p, r) ∈ blocks l (a + csize c) \/ (c = CUsed r /\ p = a + 16)).
  { destruct c as [|k|k]; cbn [blocks] in Hin; [by left|by left|]. apply elem_of_cons in Hin as [[= -> ->]|Hin]; auto. }
  destruct Hc as [(x & y & -> & ->)%IH|[-> ->]].
  - exists (c :: x), y. split; [done|]. cbn [clen]. lia.
  - exists [], l. split; [done|]. cbn [clen]. lia.
Qed.

(** A write in a block does not disturb the heap. *)
Lemma heap_ok_store m m' h id l p r a : heap_ok m h id l -> (p, r) ∈ blocks l (hh_addr h + 16) -> p <= a < p + r -> within (fun i => i = a) m m' -> heap_ok m' h id l.
Proof.
  intros Hh Hin Ha HW. pose proof (heap_fuel_ok _ _ _ _ Hh) as [_ Hlast]. destruct Hh as [Hi Hr Hc Hap Hl Ht He Hm]. pose proof (blocks_range _ _ _ _ (chunks_ok _ Hc) Hin).
  destruct (block_chunk _ _ _ _ Hin) as (x & y & El & Ep). split; try done; [| |by eapply within_allocated].
  - rewrite El in Ht, Hc |- *. apply chunks_ok, Forall_app in Hc as [Hx [Hco Hy]%Forall_cons]. pose proof (used_fits r Hco). cbn [app] in Ht |- *.
    pose proof (clen_ok _ Hx) as [Hx0 _]. pose proof (zlen_nonneg x). rewrite app_comm_cons, tiled_app in Ht |- *. destruct Ht as [Ht (Hs & Hn & Hty)]. cbn [clen csize] in *. split; [|cbn [tiled]; split_and!].
    + eapply tiled_within; [by constructor|exact HW| |done]. cbn [clen csize]. lia.
    + unfold h_size in *. rewrite <- Hs. eapply load_word_within; [exact HW|]. unfold word_at. lia.
    + unfold h_next in *. cbn [linked] in *. rewrite <- Hn. eapply load_word_within; [exact HW|]. unfold word_at. lia.
    + eapply tiled_within; [done|exact HW| |done]. cbn [csize]. lia.
  - unfold h_size in *. rewrite <- He. eapply load_word_within; [exact HW|]. unfold word_at. lia.
Qed.

(** The blocks after an allocation. *)
Lemma blocks_taken l1 n k l2 a : csize (CUsed n) <= k ->
  blocks (l1 ++ taken n k ++ l2) a = blocks l1 a ++ (a + clen l1 + 16, n) :: blocks l2 (a + clen l1 + k).
Proof.
  intros Hle. rewrite blocks_app. f_equal. unfold taken. cbn [app blocks]. f_equal. destruct (Z.eqb_spec k (csize (CUsed n))) as [->|_]; [done|].
  cbn [app blocks csize]. f_equal. lia.
Qed.

(** ** What a heap promises

    What the user knows: the blocks, with their sizes and the bytes written in
    them. *)
Record Block := mkBlock { bk_size : Z; bk_bytes : gmap Z Z }.

(** A block is asked for, released, or written. *)
Inductive hevent := HAlloc (n : Z) | HFree (p : Z) | HStore (p i v : Z).

Definition permitted (σ : gmap Z Block) (ev : hevent) : Prop :=
  match ev with
  | HAlloc n => 0 < n < 2 ^ 64 - 31
  | HFree p => is_Some (σ !! p)
  | HStore p i _ => exists b, σ !! p = Some b /\ 0 <= i < bk_size b
  end.

(** What the user knows after an event that gave the address [r]. *)
Definition knows (σ : gmap Z Block) (ev : hevent) (r : Z) : gmap Z Block :=
  match ev with
  | HAlloc n => if r =? 0 then σ else <[r := mkBlock n ∅]> σ
  | HFree p => delete p σ
  | HStore p i v => alter (fun b => mkBlock (bk_size b) (<[i := v]> (bk_bytes b))) p σ
  end.

(** What the code does. *)
Definition run_event (heaps : list HEAP_HDR) (id : Z) (m : Mem) (ev : hevent) : option (option (Mem * Z)) :=
  match ev with
  | HAlloc n => match heap_alloc heaps m id n with Some r => Some (Some r) | None => None end
  | HFree p => match heap_free heaps m p with Some (Some m) => Some (Some (m, 0)) | Some None => Some None | None => None end
  | HStore p i v => match store m (p + i) [v] with Some m => Some (Some (m, 0)) | None => None end
  end.

(** An area of the heap that is not part of a block or of its header. *)
Definition gap (addr size : Z) (σ : gmap Z Block) (s n : Z) : Prop :=
  addr + 16 <= s /\ s + n <= heap_last (mkHdr addr size) /\
  forall p b, σ !! p = Some b -> s + n <= p - 16 \/ p + HEAP_ROUND (bk_size b) <= s.

Section Safe.

Context (heaps0 heaps : list HEAP_HDR) (m0 : Mem) (addr size id : Z).

(** The memory and what the user knows after some events on a new heap. *)
Inductive reached : Mem -> gmap Z Block -> Prop :=
| reached_init m : heap_init heaps0 m0 addr size = Some (heaps, m, 0, Some id) -> reached m ∅
| reached_event m σ ev m' r :
    reached m σ -> permitted σ ev -> run_event heaps id m ev = Some (Some (m', r)) -> reached m' (knows σ ev r).

Let h := mkHdr addr size.
Let base := addr + 16.

(** The memory holds what the user knows. *)
Record holds (m : Mem) (σ : gmap Z Block) (l : list Chunk) : Prop := {
  hd_ok : heap_ok m h id l;
  hd_known p b : σ !! p = Some b -> (p, bk_size b) ∈ blocks l base;
  hd_blocks p r : (p, r) ∈ blocks l base -> exists b, σ !! p = Some b /\ bk_size b = r;
  hd_bytes p b i v : σ !! p = Some b -> bk_bytes b !! i = Some v -> 0 <= i < bk_size b /\ m !! (p + i) = Some v
}.

Lemma hd_chunks m σ l : holds m σ l -> Forall chunk_ok l.
Proof. intros [[_ _ Hc _ _ _ _ _] _ _ _]. by apply chunks_ok. Qed.

(** A block is added to what the user knows. *)
Lemma holds_new m m' σ l l' r n : holds m σ l -> heap_ok m' h id l' -> keeps (blocks l base) m m' -> σ !! r = None ->
  (forall q, q ∈ blocks l' base <-> q = (r, n) \/ q ∈ blocks l base) -> holds m' (<[r := mkBlock n ∅]> σ) l'.
Proof.
  intros [Hh Hk Hb Hv] Hh' HK Hr HB. split; [done|..].
  - intros p b. rewrite lookup_insert_Some. intros [[<- <-]|[_ Hp]]; apply HB; [by left|right; by apply Hk].
  - intros p s [[= -> ->]|Hin]%HB; [eexists; by rewrite lookup_insert_eq|]. apply Hb in Hin as (b & Hp & <-). exists b. split; [|done].
    rewrite lookup_insert_ne; [done|congruence].
  - intros p b i v. rewrite lookup_insert_Some. intros [[<- <-]|[_ Hp]] Hi; [done|]. destruct (Hv _ _ _ _ Hp Hi) as [Hlt Hm]. split; [done|].
    rewrite (HK p (bk_size b)); [done|by apply Hk|lia].
Qed.

Lemma holds_alloc m σ l n : holds m σ l -> has_heap heaps id h -> 0 < n < 2 ^ 64 - 31 ->
  exists m' r l', heap_alloc heaps m id n = Some (m', r) /\ holds m' (knows σ (HAlloc n) r) l' /\
    (r = 0 -> forall s, ~ gap addr size σ s (HEAP_ROUND n + 16)) /\ (r <> 0 -> σ !! r = None).
Proof.
  intros Hd Hz Hn. pose proof (hd_chunks _ _ _ Hd) as Hok. pose proof Hd as [Hh Hk Hb Hv]. pose proof Hh as [Hi Hr Hc Hap Hl _ _ _].
  pose proof (used_fits n Hn) as Hns. cbn [csize] in Hns.
  assert (Hs : hh_size h <> 0) by (cbn in *; lia). pose proof (heap_hdr_ok _ _ _ Hz Hi Hs) as Hid.
  destruct (heap_alloc_ok heaps _ _ _ _ _ Hh Hid Hn) as [[Hno E]|(l1 & k & l2 & m' & -> & Hle & E & Hh' & HK)].
  - exists m, 0, l. split_and!; [done|done| |done]. intros _ s (H1 & H2 & H3). rewrite Forall_forall in Hno.
    assert (HE : Exists (fits (HEAP_ROUND n + 16)) l); [|apply Exists_exists in HE as (c & Hin & Hf); by apply (Hno c)].
    apply (gap_in_chunk l base s); [done..|lia|unfold base; lia|cbn in Hl; fold h in H2; unfold base; lia|].
    intros p r Hin. apply Hb in Hin as (b & Hp & <-). by apply H3.
  - set (r := hh_addr h + 16 + clen l1 + 16) in *. assert (Er : r = base + clen l1 + 16) by done.
    pose proof Hok as [Hok1 [Hko Hok2]%Forall_cons]%Forall_app. destruct (clen_ok l1 Hok1) as [Hl10 _]. pose proof (zlen_nonneg l1).
    assert (Hr0 : r <> 0) by (cbn in Hr; unfold r; cbn; lia).
    assert (Hf : σ !! r = None).
    { destruct (σ !! r) as [b|] eqn:Eb; [|done]. apply Hk in Eb. rewrite blocks_app, elem_of_app in Eb. cbn [blocks csize] in *.
      destruct Eb as [Hin|Hin]; (apply blocks_range in Hin; [|done]); lia. }
    exists m', r, (l1 ++ taken n k ++ l2). split; [done|]. cbn [knows]. destruct (Z.eqb_spec r 0) as [|_]; [done|]. split_and!; [|done|done].
    eapply holds_new; [done..|]. intros q. rewrite (blocks_taken _ _ _ _ _ Hle), blocks_app. cbn [blocks csize]. rewrite <- Er, !elem_of_app, elem_of_cons. tauto.
Qed.

Lemma holds_free m σ l p : holds m σ l -> has_heap heaps id h -> is_Some (σ !! p) ->
  exists m' l', heap_free heaps m p = Some (Some m') /\ holds m' (delete p σ) l'.
Proof.
  intros Hd Hz [b Hp]. pose proof (hd_chunks _ _ _ Hd) as Hok. pose proof Hd as [Hh Hk Hb Hv]. apply Hk in Hp as Hin.
  destruct (block_chunk _ _ _ _ Hin) as (l1 & y & El & Ep).
  destruct (heap_free_ok heaps h id m l l1 _ y Hh Hz El) as (l' & m' & E & Hh' & HB & HK). change (hh_addr h + 16) with base in *.
  rewrite <- Ep in E. exists m', l'. split; [done|].
  assert (Hn : forall q s, (q, s) ∈ blocks l' base <-> (q, s) ∈ blocks l base /\ q <> p).
  { intros q s. rewrite HB, El, blocks_app. rewrite El in Hok. apply Forall_app in Hok as [Hok1 [Hko Hok2]%Forall_cons]. cbn [blocks]. pose proof (csize_pos _ Hko).
    pose proof (clen_ok l1 Hok1). pose proof (zlen_nonneg l1). rewrite !elem_of_app, elem_of_cons. split.
    - intros [Hq|Hq]; (split; [auto|]); (apply blocks_range in Hq; [|done]); lia.
    - intros [[?|[[= ??]|?]] Hne]; auto. lia. }
  split; [done|..].
  - intros q c [Hne Hq]%lookup_delete_Some. apply Hn. auto.
  - intros q s [Hq Hne]%Hn. apply Hb in Hq as (c & Hq & <-). exists c. by rewrite lookup_delete_ne.
  - intros q c i v [Hne Hq]%lookup_delete_Some Hi. destruct (Hv _ _ _ _ Hq Hi) as [Hlt Hm]. split; [done|].
    rewrite (HK q (bk_size c)); [done| |lia]. apply Hn. auto.
Qed.

Lemma holds_store m σ l p i v b : holds m σ l -> σ !! p = Some b -> 0 <= i < bk_size b ->
  exists m', store m (p + i) [v] = Some m' /\ holds m' (knows σ (HStore p i v) 0) l.
Proof.
  intros Hd Hp Hi. pose proof (hd_chunks _ _ _ Hd) as Hok. pose proof Hd as [Hh Hk Hb Hv]. apply Hk in Hp as Hin. pose proof (ho_mem _ _ _ _ Hh) as Hm.
  pose proof (heap_fuel_ok _ _ _ _ Hh) as [_ Hlast]. pose proof (ho_len _ _ _ _ Hh) as Hl. pose proof (blocks_range _ _ _ _ Hok Hin) as Hr. change (hh_addr h + 16) with base in Hl.
  assert (Hbase : base = hh_addr h + 16) by done. assert (Hal : allocated m (p + i) 1) by (eapply allocated_sub; [exact Hm|lia..]).
  destruct (Hal (p + i)) as [w Ew]; [lia|]. exists (<[p + i := v]> m). split; [cbn; by rewrite Ew|].
  assert (HW : within (fun j => j = p + i) m (<[p + i := v]> m)).
  { split; [intros j Hj; by rewrite lookup_insert_ne|]. intros j. destruct (decide (j = p + i)) as [->|]; [rewrite lookup_insert_eq, Ew; split; by eexists|by rewrite lookup_insert_ne]. }
  assert (Hap : forall q c, σ !! q = Some c -> q = p \/ q + bk_size c <= p - 16 \/ p + bk_size b <= q - 16).
  { intros q c Hq%Hk. destruct (blocks_apart _ _ _ _ _ _ Hok Hq Hin) as [[? _]|?]; auto. }
  split; cbn [knows].
  - apply (heap_ok_store m _ h id l p (bk_size b) (p + i)); [done|exact Hin|lia|done].
  - intros q c. rewrite lookup_alter_Some. intros [(<- & d & Hq & ->)|[_ Hq]]; [|by apply Hk]. cbn. by apply Hk.
  - intros q s Hq. apply Hb in Hq as (c & Hq & <-). destruct (decide (q = p)) as [->|]; [|exists c; by rewrite lookup_alter_ne].
    rewrite lookup_alter_eq, Hq. by eexists.
  - intros q c j w'. rewrite lookup_alter_Some. intros [(<- & d & Hq & ->)|[Hne Hq]]; cbn [bk_bytes bk_size].
    + rewrite lookup_insert_Some. intros [[<- <-]|[Hne Hj]]; [rewrite lookup_insert_eq; by simplify_eq|]. rewrite lookup_insert_ne by lia. by apply Hv.
    + intros Hj. destruct (Hv _ _ _ _ Hq Hj) as [Hlt E]. split; [done|]. rewrite lookup_insert_ne; [done|]. destruct (Hap _ _ Hq); [congruence|lia].
Qed.

Lemma holds_reached m σ : 0 < addr -> 64 <= size -> addr + size < 2 ^ 64 -> allocated m0 addr size -> length heaps0 = 16%nat ->
  reached m σ -> has_heap heaps id h /\ exists l, holds m σ l.
Proof.
  intros Ha Hs Hlim Hm Hlen. induction 1 as [m E|m σ ev m' r _ [Hz [l Hd]] Hp E].
  - destruct (decide (free_hdr heaps0 0 < MAX_HEAPS)) as [Hf|Hf].
    2:{ unfold heap_init in E. destruct (Z.eqb_spec addr 0), (Z.ltb_spec size 64); try lia. cbn [orb] in E. case_match; [done|lia]. }
    destruct (heap_init_ok heaps0 m0 addr size Ha Hs Hlim Hm Hf Hlen) as (heaps' & m' & id' & E' & Hz & Hh). rewrite E' in E. injection E as -> -> ->.
    split; [done|]. eexists. split; [exact Hh|..]; try done. intros p r Hin. by apply elem_of_nil in Hin.
  - split; [done|]. destruct ev as [n|p|p i v]; cbn [permitted run_event] in *.
    + destruct (holds_alloc m σ l n Hd Hz Hp) as (m1 & r1 & l' & E1 & Hd' & _). rewrite E1 in E. injection E as -> ->. eauto.
    + destruct (holds_free m σ l p Hd Hz Hp) as (m1 & l' & E1 & Hd'). rewrite E1 in E. injection E as -> <-. eauto.
    + destruct Hp as (b & Hp & Hi). destruct (holds_store m σ l p i v b Hd Hp Hi) as (m1 & E1 & Hd'). rewrite E1 in E. injection E as -> <-. eauto.
Qed.

(** C9. Whatever blocks a user of a heap (co/heap.c) asks for, releases and
    writes: every block lies inside the heap with its header before it, no two
    blocks overlap, and every byte that was written in a block is still there,
    whatever was allocated, split, released and merged since.  Every further
    allocation, release of a block and write in a block succeeds, with no
    access outside of the memory and without the fatal errors of [heap_free]; a
    new block has an address that no block has; and an allocation fails only
    when no gap between the blocks is large enough for the block with its
    header. *)
Theorem heap_safe : 0 < addr -> 64 <= size -> addr + size < 2 ^ 64 -> allocated m0 addr size -> length heaps0 = 16%nat ->
  forall m σ, reached m σ ->
  (forall p b, σ !! p = Some b ->
     addr + 32 <= p /\ p + bk_size b <= addr + size - 16 /\
     (forall i v, bk_bytes b !! i = Some v -> m !! (p + i) = Some v) /\
     (forall q c, σ !! q = Some c -> q = p \/ q + bk_size c <= p - 16 \/ p + bk_size b <= q - 16)) /\
  (forall ev, permitted σ ev -> exists m' r, run_event heaps id m ev = Some (Some (m', r)) /\
     match ev with
     | HAlloc n => (r <> 0 /\ σ !! r = None) \/ (r = 0 /\ forall s, ~ gap addr size σ s (HEAP_ROUND n + 16))
     | _ => True
     end).
Proof.
  intros Ha Hs Hlim Hm Hlen m σ HR. destruct (holds_reached m σ Ha Hs Hlim Hm Hlen HR) as [Hz [l Hd]]. pose proof (hd_chunks _ _ _ Hd) as Hok. split.
  - intros p b Hp. destruct Hd as [Hh Hk Hb Hv]. pose proof (heap_fuel_ok _ _ _ _ Hh) as [_ Hlast]. pose proof (ho_len _ _ _ _ Hh) as Hl. cbn in Hlast, Hl.
    pose proof (blocks_range _ _ _ _ Hok (Hk _ _ Hp)) as Hr. unfold base in Hr. split_and!; [lia|lia|intros i v; apply Hv, Hp|].
    intros q c Hq. destruct (blocks_apart _ _ _ _ _ _ Hok (Hk _ _ Hq) (Hk _ _ Hp)) as [[? _]|?]; auto.
  - intros [n|p|p i v] Hp; cbn [permitted run_event] in *.
    + destruct (holds_alloc m σ l n Hd Hz Hp) as (m1 & r & l' & -> & _ & H0 & H1). exists m1, r. split; [done|]. destruct (decide (r = 0)); auto.
    + destruct (holds_free m σ l p Hd Hz Hp) as (m1 & l' & -> & _). by eexists _, _.
    + destruct Hp as (b & Hp & Hi). destruct (holds_store m σ l p i v b Hd Hp Hi) as (m1 & -> & _). by eexists _, _.
Qed.

Lemma fits_max m l n : heap_ok m h id l -> 0 < n < 2 ^ 64 - 31 -> let M := max_sizes 0 l in
  0 < M -> (Exists (fits (csize (CUsed n))) l <-> n <= M - 16).
Proof.
  intros [_ _ Hc _ _ _ _ _] Hn M HM. pose proof (max_sizes_ok 0 l) as (_ & Hmax & Hle). fold M in Hmax, Hle. destruct Hmax as [?|Hin]; [lia|]. pose proof (used_fits n Hn) as Hfit.
  split.
  - intros (c & Hci & Hf)%Exists_exists. destruct c as [|k|]; try done. cbn [fits] in Hf. apply Hle in Hci. lia.
  - intros Hnm. apply Exists_exists. exists (CFree M). split; [done|]. rewrite Forall_forall in Hc. destruct (Hc _ Hin) as [[_ Hm16] _].
    cbn [fits csize]. rewrite HEAP_ROUND_div by lia. Z.to_euclidean_division_equations. lia.
Qed.

(** An allocation succeeds when a chunk fits. *)
Lemma alloc_fits m l n : heap_ok m h id l -> has_heap heaps id h -> 0 < n < 2 ^ 64 - 31 ->
  (~ Exists (fits (csize (CUsed n))) l /\ heap_alloc heaps m id n = Some (m, 0)) \/
  (Exists (fits (csize (CUsed n))) l /\ exists m' r, heap_alloc heaps m id n = Some (m', r) /\ r <> 0).
Proof.
  intros Hh Hz Hn. pose proof (ho_range _ _ _ _ Hh) as Hr. pose proof (ho_chunks _ _ _ _ Hh) as Hc.
  assert (Hid : heap_hdr heaps id = Some (Some h)) by (apply heap_hdr_ok; [done|apply Hh|lia]).
  destruct (heap_alloc_ok heaps _ _ _ _ _ Hh Hid Hn) as [[H E]|(l1 & k & l2 & m' & El & Hk & E & _ & _)]; [left|right]; (split; [|try done]).
  - intros (c & Hci & Hf)%Exists_exists. rewrite Forall_forall in H. by apply (H c).
  - rewrite El. apply Exists_app. right. by left.
  - eexists m', _. split; [exact E|]. rewrite El in Hc. apply Forall_app in Hc as [Hc1 _]. destruct (clen_ok l1 (chunks_ok _ Hc1)) as [? _]. pose proof (zlen_nonneg l1). lia.
Qed.

Lemma heap_max_ok m l : heap_ok m h id l -> has_heap heaps id h -> heap_max heaps m id = Some ⟦max_sizes 0 l - 16⟧64.
Proof.
  intros Hh Hz. pose proof (ho_id _ _ _ _ Hh) as Hi. pose proof (heap_fuel_ok _ _ _ _ Hh) as [Hfuel _].
  unfold heap_max, MAX_HEAPS. destruct (Z.eqb_spec id 0), (Z.ltb_spec 16 id); try lia. cbn [orb]. rewrite Hz. cbn [mbind option_bind].
  destruct (free_sizes_ok id m (heap_last h) (ho_end _ _ _ _ Hh) (S (heap_fuel h)) CHead l (hh_addr h) 0) as [_ E]; [done|done|apply Hh..|lia|]. by rewrite E.
Qed.

(** C37. After any use of a heap, [heap_max] is exact: a block of [n] bytes can be
    allocated precisely when [n] is at most its result.  Except that, when no
    chunk is free and every allocation fails, the result is 2^64 - 16: the size
    of a header is subtracted from 0. *)
Theorem heap_max_exact : 0 < addr -> 64 <= size -> addr + size < 2 ^ 64 -> allocated m0 addr size -> length heaps0 = 16%nat ->
  forall m σ, reached m σ -> exists M, heap_max heaps m id = Some M /\
  ((M = 2 ^ 64 - 16 /\ forall n, 0 < n < 2 ^ 64 - 31 -> heap_alloc heaps m id n = Some (m, 0)) \/
   (M < size /\ forall n, 0 < n < 2 ^ 64 - 31 -> if n <=? M then exists m' r, heap_alloc heaps m id n = Some (m', r) /\ r <> 0 else heap_alloc heaps m id n = Some (m, 0))).
Proof.
  intros Ha Hs Hlim Hm Hlen m σ HR. destruct (holds_reached m σ Ha Hs Hlim Hm Hlen HR) as [Hz [l Hd]]. pose proof (hd_ok _ _ _ Hd) as Hh. pose proof (hd_chunks _ _ _ Hd) as Hok.
  pose proof (heap_fuel_ok _ _ _ _ Hh) as [_ Hlast]. pose proof (ho_len _ _ _ _ Hh) as Hl. cbn in Hlast, Hl.
  eexists. split; [by apply (heap_max_ok m l)|]. pose proof (max_sizes_ok 0 l) as (HM0 & Hmax & Hle). pose proof (fits_max m l) as HF. set (M := max_sizes 0 l) in *.
  destruct Hmax as [->|Hin]; [left|right].
  - split; [done|]. intros n Hn. destruct (alloc_fits m l n Hh Hz Hn) as [[_ E]|[Hf _]]; [done|]. apply Exists_exists in Hf as (c & Hci & Hf).
    destruct c as [|k|]; try done. apply Hle in Hci. cbn [fits] in Hf. pose proof (used_fits n Hn). lia.
  - assert (HM : 16 <= M < 2 ^ 64 - 1) by (rewrite Forall_forall in Hok; apply (Hok _ Hin)). pose proof (clen_elem _ _ Hok Hin) as Hcl. cbn [csize] in Hcl.
    rewrite wrap_small by (split; lia). split; [lia|]. intros n Hn. specialize (HF n Hh Hn ltac:(lia)).
    destruct (alloc_fits m l n Hh Hz Hn) as [[Hf E]|[Hf E]]; destruct (Z.leb_spec n (M - 16)) as [Hc|Hc]; try done; exfalso; [by apply Hf, HF|apply HF in Hf; lia].
Qed.

(** [heap_realloc] does not find the header of the block: it steps back 16
    headers instead of 16 bytes, the cast binding tighter than the subtraction.
    Of a block near the start of a heap with no other memory before it, the
    result is an access outside of the memory, whatever the new size. *)
Theorem heap_realloc_outside : 0 < addr -> 64 <= size -> addr + size < 2 ^ 64 -> allocated m0 addr size -> length heaps0 = 16%nat ->
  forall m σ p b n, reached m σ -> (forall i, i < addr -> m !! i = None) -> σ !! p = Some b -> p < addr + 248 -> n <> 0 ->
  heap_realloc heaps m p n = None.
Proof.
  intros Ha Hs Hlim Hm Hlen m σ p b n HR Hlow Hp Hlt Hn. destruct (holds_reached m σ Ha Hs Hlim Hm Hlen HR) as [Hz [l Hd]]. pose proof (hd_chunks _ _ _ Hd) as Hok.
  destruct Hd as [_ Hk _ _]. pose proof (blocks_range _ _ _ _ Hok (Hk _ _ Hp)) as Hr. unfold base in Hr.
  unfold heap_realloc. destruct (Z.eqb_spec n 0), (Z.eqb_spec p 0); try lia. cbn [orb]. unfold h_size, load_num. cbn [load]. rewrite (Hlow (p - 16 * 16 + 8)) by lia. done.
Qed.

End Safe.

Definition no_heaps : list HEAP_HDR := repeat (mkHdr 0 0) 16.

#[export] Instance permitted_dec σ ev : Decision (permitted σ ev).
Proof.
  destruct ev as [n|p|p i v]; cbn; try apply _. destruct (σ !! p) as [b|]; [|by right; intros (? & ? & _)].
  destruct (decide (0 <= i < bk_size b)) as [H|H]; [left; by exists b|right; intros (c & [= <-] & ?); by apply H].
Defined.

(** A new heap, and some events on it. *)
Fixpoint run_events (heaps : list HEAP_HDR) (id : Z) (m : Mem) (σ : gmap Z Block) (evs : list hevent) : option (Mem * gmap Z Block) :=
  match evs with
  | [] => Some (m, σ)
  | ev :: evs =>
      if decide (permitted σ ev) then
        match run_event heaps id m ev with Some (Some (m, r)) => run_events heaps id m (knows σ ev r) evs | _ => None end
      else None
  end.

Lemma run_events_reached heaps0 heaps m0 addr size id evs m σ m' σ' :
  reached heaps0 heaps m0 addr size id m σ -> run_events heaps id m σ evs = Some (m', σ') -> reached heaps0 heaps m0 addr size id m' σ'.
Proof.
  revert m σ. induction evs as [|ev evs IH]; intros m σ HR; cbn [run_events]; [by intros [= <- <-]|]. destruct (decide (permitted σ ev)); [|done].
  destruct (run_event heaps id m ev) as [[[m1 r]|]|] eqn:E; [|done..]. apply IH. by eapply reached_event.
Qed.

(** A new heap with the events on it, when the heap is the first. *)
Definition run_heap (heaps0 : list HEAP_HDR) (m0 : Mem) (addr size : Z) (evs : list hevent) : option (list HEAP_HDR * Mem * gmap Z Block) :=
  match heap_init heaps0 m0 addr size with
  | Some (heaps, m, 0, Some 1) => match run_events heaps 1 m ∅ evs with Some (m, σ) => Some (heaps, m, σ) | None => None end
  | _ => None
  end.

Lemma run_heap_reached heaps0 m0 addr size evs (Q : Mem -> gmap Z Block -> Prop) :
  match run_heap heaps0 m0 addr size evs with Some (_, m, σ) => Q m σ | None => False end ->
  exists heaps m σ, run_heap heaps0 m0 addr size evs = Some (heaps, m, σ) /\ reached heaps0 heaps m0 addr size 1 m σ /\ Q m σ.
Proof.
  unfold run_heap. destruct (heap_init heaps0 m0 addr size) as [[[[hs m1] [| |]] [[|[| |]|]|]]|] eqn:E; try done.
  destruct (run_events hs 1 m1 ∅ evs) as [[m2 σ2]|] eqn:E2; [|done]. intros HQ. exists hs, m2, σ2. split_and!; [done| |done].
  eapply run_events_reached; [|exact E2]. by apply reached_init.
Qed.

(** Two blocks are allocated, the first is written, the second is released and
    another takes its place. *)
Definition demo_events : list hevent := [HAlloc 20; HAlloc 10; HStore 4128 3 7; HFree 4176; HAlloc 30].

Lemma heap_safe_witness : exists heaps m σ, run_heap no_heaps (zeros 4096 128) 4096 128 demo_events = Some (heaps, m, σ) /\ m !! 4131 = Some 7 /\
  exists m' r, run_event heaps 1 m (HAlloc 1) = Some (Some (m', r)).
Proof.
  destruct (run_heap_reached no_heaps (zeros 4096 128) 4096 128 demo_events (fun _ σ => (fun b => bk_bytes b !! 3) <$> σ !! 4128 = Some (Some 7)))
    as (heaps & m & σ & E & HR & HQ); [vm_compute; reflexivity|]. exists heaps, m, σ. split; [exact E|]. clear E.
  destruct (heap_safe no_heaps heaps (zeros 4096 128) 4096 128 1) with m σ as [HB HE]; [lia|lia|lia|apply zeros_allocated|reflexivity|exact HR|]. clear HR. split.
  - destruct (σ !! 4128) as [b|] eqn:Eb; [|done]. injection HQ as H3. destruct (HB _ _ Eb) as (_ & _ & HV & _). by apply (HV 3 7).
  - destruct (HE (HAlloc 1)) as (m' & r & Er & _); [done|]. eauto.
Defined.

Lemma heap_max_exact_witness : exists heaps m σ M, run_heap no_heaps (zeros 4096 128) 4096 128 [HAlloc 20] = Some (heaps, m, σ) /\
  heap_max heaps m 1 = Some M /\ (M = 2 ^ 64 - 16 \/ M < 128).
Proof.
  destruct (run_heap_reached no_heaps (zeros 4096 128) 4096 128 [HAlloc 20] (fun _ σ => bk_size <$> σ !! 4128 = Some 20))
    as (heaps & m & σ & E & HR & _); [vm_compute; reflexivity|]. exists heaps, m, σ.
  destruct (heap_max_exact no_heaps heaps (zeros 4096 128) 4096 128 1) with m σ as (M & HM & H); [lia|lia|lia|apply zeros_allocated|reflexivity|exact HR|].
  exists M. split_and!; [exact E|exact HM|]. destruct H as [[H _]|[H _]]; auto.
Defined.

Lemma heap_realloc_outside_witness : exists heaps m σ, reached no_heaps heaps (zeros 4096 128) 4096 128 1 m σ /\ σ !! 4128 = Some (mkBlock 20 ∅) /\
  heap_realloc heaps m 4128 20 = None.
Proof.
  destruct (run_heap_reached no_heaps (zeros 4096 128) 4096 128 [HAlloc 20]
    (fun m σ => σ !! 4128 = Some (mkBlock 20 ∅) /\ bool_decide (map_Forall (fun i _ => 4096 <= i) m) = true))
    as (heaps & m & σ & _ & HR & Hp & HQ); [vm_compute; split; reflexivity|]. exists heaps, m, σ. split_and!; [exact HR|exact Hp|].
  refine (heap_realloc_outside no_heaps heaps (zeros 4096 128) 4096 128 1 _ _ _ _ _ m σ 4128 _ 20 HR _ Hp _ _); [lia|lia|lia|apply zeros_allocated|reflexivity| |lia|lia].
  apply bool_decide_eq_true in HQ. intros i Hi. destruct (m !! i) as [v|] eqn:E; [|done]. apply HQ in E. lia.
Defined.

(** A size close to 2^64 wraps, and is taken for a small one. *)
Lemma heap_alloc_wraps :
  (heaps ← heap_init no_heaps (zeros 4096 128) 4096 128; let '(heaps, m, _, _) := heaps in snd <$> heap_alloc heaps m 1 (2 ^ 64 - 1)) = Some 4128.
Proof. vm_compute. reflexivity. Qed.
