(* ===== verification/Sfrw.v ===== *)
(** The reliable stateful writer (rtps/rtps_sfrw.c, rtps/rtps_clist.c): the
    proxy that a writer keeps for a remote reader, with the list of changes
    that the reader has not acknowledged, and what it does when samples are
    added and removed, when it may send, and at an ACKNACK of the reader.

    The nodes of the list have addresses, since the proxy points into its list
    ([rr_unsent_changes], [rr_requested_changes]); an address that is not in
    the list any more is a released node, and an access to it is [None].  A
    handler works on one proxy and on the writer it belongs to ([St]); the
    other proxies of the writer are only read.  What the memory pools, the
    timers and the cache answer is part of the writer ([w_allocs], [w_tmrs],
    [w_msgs], [w_min], [w_max]).  Messages are appended to [w_out], with the
    position of the proxy in whose queue they are put.  Sequence numbers are
    the integers they stand for: the code's pairs of an
    int32 and a uint32 wrap at 2^63, which is not modelled; for smaller numbers
    the lemmas of [Seqnr] show that the operations agree
    (the claims ask for numbers below 2^32).  Samples that are sent
    in fragments, the choice of a network path and the delays of timers are
    not modelled. *)

From stdpp Require Import gmap.
From S2P Require Import Prelude Seqnr Clist Sfrr.
From stdpp Require Import list.

#[local] Open Scope Z_scope.

(** ** Data *)

Inductive RRCState_t := RRCS_INITIAL | RRCS_READY | RRCS_FINAL.
Inductive RRTState_t := RRTS_IDLE | RRTS_PUSHING | RRTS_ANNOUNCING.
Inductive RRAState_t := RRAS_WAITING | RRAS_MUST_REPAIR | RRAS_REPAIRING.

#[export] Instance RRTState_eq_dec : EqDecision RRTState_t.
Proof. solve_decision. Defined.
#[export] Instance RRAState_eq_dec : EqDecision RRAState_t.
Proof. solve_decision. Defined.

(** The timer of a proxy waits for the reader, or delays a repair. *)
Inductive NackTimer := WAliveTmr | NackRspTmr.

(** A change as the proxies share it: [wc_id] is its address. *)
Record WChange := mkWC { wc_id : nat; wc_change : Change_t; wc_no_mcast : bool; wc_urgent : bool }.

Inductive WRef_u := WData (cp : WChange) | WRange (first last : Z).

Record WRef := mkWRef { w_state : ChangeState_t; w_ack_req : bool; w_u : WRef_u }.

Definition w_relevant (rp : WRef) : bool := match w_u rp with WData _ => true | WRange _ _ => false end.
Definition w_first (rp : WRef) : Z := match w_u rp with WData cp => c_seqnr (wc_change cp) | WRange first _ => first end.
Definition w_last (rp : WRef) : Z := match w_u rp with WData cp => c_seqnr (wc_change cp) | WRange _ last => last end.

Definition w_set_state (st : ChangeState_t) (rp : WRef) : WRef := mkWRef st (w_ack_req rp) (w_u rp).
Definition w_set_range (first last : Z) (rp : WRef) : WRef := mkWRef (w_state rp) (w_ack_req rp) (WRange first last).
Definition w_set_ack (rp : WRef) : WRef := mkWRef (w_state rp) true (w_u rp).

(** ** Lists of nodes *)

Abbreviation WList := (list (nat * WRef)).

(** The node at an address, and the list behind it. *)
Fixpoint ref_from (p : nat) (l : WList) : option (WRef * WList) :=
  match l with
  | [] => None
  | (q, rp) :: l => if decide (q = p) then Some (rp, l) else ref_from p l
  end.
Definition ref_at (p : nat) (l : WList) : option WRef := '(rp, _) ← ref_from p l; Some rp.

(** [LIST_NEXT] *)
Definition ref_next (p : nat) (l : WList) : option (option nat) := '(_, l) ← ref_from p l; Some (fst <$> head l).

Fixpoint ref_set (p : nat) (f : WRef -> WRef) (l : WList) : option WList :=
  match l with
  | [] => None
  | (q, rp) :: l => if decide (q = p) then Some ((q, f rp) :: l) else l ← ref_set p f l; Some ((q, rp) :: l)
  end.

(** [LIST_REMOVE] *)
Fixpoint ref_remove (p : nat) (l : WList) : option WList :=
  match l with
  | [] => None
  | (q, rp) :: l => if decide (q = p) then Some l else l ← ref_remove p l; Some ((q, rp) :: l)
  end.

(** ** Messages, proxies and the writer *)

(** Where a message is addressed to: the reader of a proxy, or all readers. *)
Inductive WMsg :=
| MData (cp : Change_t) (dest : option nat)
| MGap (start base numbits : Z) (bitmap : list Z)
| MHeartbeat (first last count : Z) (final live : bool) (dest : option nat).

(** [RemReader_t]; [rr_acked] are the calls of [hc_acknowledged]. *)
Record RemReader_t := mkRR {
  rr_changes : WList;
  rr_unsent_changes : option nat;
  rr_requested_changes : option nat;
  rr_new_snr : Z;
  rr_cstate : RRCState_t;
  rr_tstate : RRTState_t;
  rr_astate : RRAState_t;
  rr_peer_alive : bool;
  rr_unacked : Z;
  rr_last_ack : Z;
  rr_nack_timer : option NackTimer;
  rr_acked : list Z;
  rr_reliable : bool;
  rr_no_mcast : bool;
  rr_local : bool;
  rr_durable : bool
}.

(** The writer: [w_active] are the proxies that wait for transmission. *)
Record Writer := mkW {
  rh_timer : bool;
  backoff : Z;
  heartbeats : Z;
  c_wack : gmap nat Z;
  w_active : gset nat;
  w_out : list (nat * WMsg);
  w_fresh : nat;
  w_allocs : list bool;
  w_tmrs : list bool;
  w_msgs : list bool;
  w_min : Z;
  w_max : Z;
  w_junk : list Z
}.

Record St := mkSt { rr : RemReader_t; wr : Writer }.

Definition rr_list (l : WList) (r : RemReader_t) : RemReader_t :=
  mkRR l (rr_unsent_changes r) (rr_requested_changes r) (rr_new_snr r) (rr_cstate r) (rr_tstate r) (rr_astate r) (rr_peer_alive r)
    (rr_unacked r) (rr_last_ack r) (rr_nack_timer r) (rr_acked r) (rr_reliable r) (rr_no_mcast r) (rr_local r) (rr_durable r).
Definition rr_unsent (p : option nat) (r : RemReader_t) : RemReader_t :=
  mkRR (rr_changes r) p (rr_requested_changes r) (rr_new_snr r) (rr_cstate r) (rr_tstate r) (rr_astate r) (rr_peer_alive r)
    (rr_unacked r) (rr_last_ack r) (rr_nack_timer r) (rr_acked r) (rr_reliable r) (rr_no_mcast r) (rr_local r) (rr_durable r).
Definition rr_requested (p : option nat) (r : RemReader_t) : RemReader_t :=
  mkRR (rr_changes r) (rr_unsent_changes r) p (rr_new_snr r) (rr_cstate r) (rr_tstate r) (rr_astate r) (rr_peer_alive r)
    (rr_unacked r) (rr_last_ack r) (rr_nack_timer r) (rr_acked r) (rr_reliable r) (rr_no_mcast r) (rr_local r) (rr_durable r).
Definition rr_snr (n : Z) (r : RemReader_t) : RemReader_t :=
  mkRR (rr_changes r) (rr_unsent_changes r) (rr_requested_changes r) n (rr_cstate r) (rr_tstate r) (rr_astate r) (rr_peer_alive r)
    (rr_unacked r) (rr_last_ack r) (rr_nack_timer r) (rr_acked r) (rr_reliable r) (rr_no_mcast r) (rr_local r) (rr_durable r).
Definition rr_control (c : RRCState_t) (r : RemReader_t) : RemReader_t :=
  mkRR (rr_changes r) (rr_unsent_changes r) (rr_requested_changes r) (rr_new_snr r) c (rr_tstate r) (rr_astate r) (rr_peer_alive r)
    (rr_unacked r) (rr_last_ack r) (rr_nack_timer r) (rr_acked r) (rr_reliable r) (rr_no_mcast r) (rr_local r) (rr_durable r).
Definition rr_transmit (t : RRTState_t) (r : RemReader_t) : RemReader_t :=
  mkRR (rr_changes r) (rr_unsent_changes r) (rr_requested_changes r) (rr_new_snr r) (rr_cstate r) t (rr_astate r) (rr_peer_alive r)
    (rr_unacked r) (rr_last_ack r) (rr_nack_timer r) (rr_acked r) (rr_reliable r) (rr_no_mcast r) (rr_local r) (rr_durable r).
Definition rr_repair (a : RRAState_t) (r : RemReader_t) : RemReader_t :=
  mkRR (rr_changes r) (rr_unsent_changes r) (rr_requested_changes r) (rr_new_snr r) (rr_cstate r) (rr_tstate r) a (rr_peer_alive r)
    (rr_unacked r) (rr_last_ack r) (rr_nack_timer r) (rr_acked r) (rr_reliable r) (rr_no_mcast r) (rr_local r) (rr_durable r).
Definition rr_alive (b : bool) (r : RemReader_t) : RemReader_t :=
  mkRR (rr_changes r) (rr_unsent_changes r) (rr_requested_changes r) (rr_new_snr r) (rr_cstate r) (rr_tstate r) (rr_astate r) b
    (rr_unacked r) (rr_last_ack r) (rr_nack_timer r) (rr_acked r) (rr_reliable r) (rr_no_mcast r) (rr_local r) (rr_durable r).
Definition rr_count (n : Z) (r : RemReader_t) : RemReader_t :=
  mkRR (rr_changes r) (rr_unsent_changes r) (rr_requested_changes r) (rr_new_snr r) (rr_cstate r) (rr_tstate r) (rr_astate r) (rr_peer_alive r)
    (wrap 13 n) (rr_last_ack r) (rr_nack_timer r) (rr_acked r) (rr_reliable r) (rr_no_mcast r) (rr_local r) (rr_durable r).
Definition rr_ack (n : Z) (r : RemReader_t) : RemReader_t :=
  mkRR (rr_changes r) (rr_unsent_changes r) (rr_requested_changes r) (rr_new_snr r) (rr_cstate r) (rr_tstate r) (rr_astate r) (rr_peer_alive r)
    (rr_unacked r) n (rr_nack_timer r) (rr_acked r) (rr_reliable r) (rr_no_mcast r) (rr_local r) (rr_durable r).
Definition rr_timer (t : option NackTimer) (r : RemReader_t) : RemReader_t :=
  mkRR (rr_changes r) (rr_unsent_changes r) (rr_requested_changes r) (rr_new_snr r) (rr_cstate r) (rr_tstate r) (rr_astate r) (rr_peer_alive r)
    (rr_unacked r) (rr_last_ack r) t (rr_acked r) (rr_reliable r) (rr_no_mcast r) (rr_local r) (rr_durable r).
(** [hc_acknowledged] *)
Definition hc_acknowledged (n : Z) (r : RemReader_t) : RemReader_t :=
  mkRR (rr_changes r) (rr_unsent_changes r) (rr_requested_changes r) (rr_new_snr r) (rr_cstate r) (rr_tstate r) (rr_astate r) (rr_peer_alive r)
    (rr_unacked r) (rr_last_ack r) (rr_nack_timer r) (rr_acked r ++ [n]) (rr_reliable r) (rr_no_mcast r) (rr_local r) (rr_durable r).

Definition w_timer (b : bool) (w : Writer) : Writer :=
  mkW b (backoff w) (heartbeats w) (c_wack w) (w_active w) (w_out w) (w_fresh w) (w_allocs w) (w_tmrs w) (w_msgs w) (w_min w) (w_max w) (w_junk w).
Definition w_backoff (n : Z) (w : Writer) : Writer :=
  mkW (rh_timer w) n (heartbeats w) (c_wack w) (w_active w) (w_out w) (w_fresh w) (w_allocs w) (w_tmrs w) (w_msgs w) (w_min w) (w_max w) (w_junk w).
Definition w_wack (id : nat) (n : Z) (w : Writer) : Writer :=
  mkW (rh_timer w) (backoff w) (heartbeats w) (<[id := n]> (c_wack w)) (w_active w) (w_out w) (w_fresh w) (w_allocs w) (w_tmrs w) (w_msgs w) (w_min w) (w_max w) (w_junk w).
(** [proxy_activate] *)
Definition proxy_activate (k : nat) (w : Writer) : Writer :=
  mkW (rh_timer w) (backoff w) (heartbeats w) (c_wack w) ({[k]} ∪ w_active w) (w_out w) (w_fresh w) (w_allocs w) (w_tmrs w) (w_msgs w) (w_min w) (w_max w) (w_junk w).

Definition wack (w : Writer) (cp : WChange) : Z := default 0 (c_wack w !! wc_id cp).

(** [mds_pool_alloc] of a node: its address. *)
Definition alloc_ref (w : Writer) : option nat * Writer :=
  let '(ok, al) := alloc (w_allocs w) in
  (if ok then Some (w_fresh w) else None,
   mkW (rh_timer w) (backoff w) (heartbeats w) (c_wack w) (w_active w) (w_out w) (S (w_fresh w)) al (w_tmrs w) (w_msgs w) (w_min w) (w_max w) (w_junk w)).

(** [tmr_alloc] *)
Definition alloc_tmr (w : Writer) : bool * Writer :=
  let '(ok, al) := alloc (w_tmrs w) in
  (ok, mkW (rh_timer w) (backoff w) (heartbeats w) (c_wack w) (w_active w) (w_out w) (w_fresh w) (w_allocs w) al (w_msgs w) (w_min w) (w_max w) (w_junk w)).

(** [rtps_msg_add_data] and the like: a message for the queue of proxy [k],
    unless there is no memory.  [push] has it transmitted. *)
Definition add_msg (k : nat) (m : WMsg) (push : bool) (w : Writer) : bool * Writer :=
  let '(ok, ms) := alloc (w_msgs w) in
  let w' := mkW (rh_timer w) (backoff w) (heartbeats w) (c_wack w) (w_active w) (if ok then w_out w ++ [(k, m)] else w_out w) (w_fresh w)
              (w_allocs w) (w_tmrs w) ms (w_min w) (w_max w) (w_junk w) in
  (ok, if ok && push then proxy_activate k w' else w').

(** [rtps_msg_add_gap] copies the words of the bitmap that are in use. *)
Definition rtps_msg_add_gap (k : nat) (start base n_bits : Z) (bits : list Z) (push : bool) (w : Writer) : bool * Writer :=
  add_msg k (MGap start base n_bits (take (Z.to_nat (Z.shiftr (n_bits + 31) 5)) bits)) push w.

(** [rtps_msg_add_heartbeat]: heartbeats are counted. *)
Definition rtps_msg_add_heartbeat (k : nat) (dest : option nat) (final live : bool) (first last : Z) (w : Writer) : Writer :=
  let n := ⟦heartbeats w + 1⟧32 in
  let '(ok, w) := add_msg k (MHeartbeat first last n final live dest) true w in
  if ok then mkW (rh_timer w) (backoff w) n (c_wack w) (w_active w) (w_out w) (w_fresh w) (w_allocs w) (w_tmrs w) (w_msgs w) (w_min w) (w_max w) (w_junk w)
  else w.

(** ** Heartbeats *)

(** [q_seqnr_info] *)
Definition q_min (l : WList) : Z := match l with [] => 0 | (_, rp) :: _ => w_first rp end.
Definition q_max (l : WList) : Z := match list.last l with None => 0 | Some (_, rp) => w_last rp end.

(** [sfw_stop_heartbeats] *)
Definition sfw_stop_heartbeats (w : Writer) : Writer := if rh_timer w then w_timer false w else w.

(** A proxy to which a heartbeat is sent. *)
Definition hb_wanted (alive : bool) (r : RemReader_t) : bool :=
  alive || rr_reliable r && bool_decide (rr_tstate r = RRTS_ANNOUNCING).

(** The first loop of [sfw_send_heartbeat]: how many proxies, whether not all
    can be reached by multicast, the last of them, and the range of all lists. *)
Record HbScan := mkScan { nreaders : Z; no_mcast : bool; xrrp : nat; min_mc : Z; max_mc : Z }.

Definition hb_scan_one (k : nat) (r : RemReader_t) (a : HbScan) : HbScan :=
  let nm := no_mcast a || (rr_no_mcast r || negb (rr_local r)) in
  if bool_decide (rr_changes r = []) then mkScan (nreaders a + 1) nm k (min_mc a) (max_mc a)
  else
    let min := q_min (rr_changes r) in
    let max := q_max (rr_changes r) in
    mkScan (nreaders a + 1) nm k
      (if (min_mc a =? 0) || (min <? min_mc a) then min else min_mc a)
      (if (max_mc a =? 0) || (max_mc a <? max) then max else max_mc a).

Fixpoint hb_scan (alive : bool) (k : nat) (rs : list RemReader_t) (a : HbScan) : HbScan :=
  match rs with
  | [] => a
  | r :: rs => hb_scan alive (S k) rs (if hb_wanted alive r then hb_scan_one k r a else a)
  end.

(** The loop that sends to each destination. *)
Fixpoint hb_each (alive : bool) (k : nat) (rs : list RemReader_t) (w : Writer) : Writer :=
  match rs with
  | [] => w
  | r :: rs =>
      hb_each alive (S k) rs
        (if hb_wanted alive r && negb (bool_decide (rr_changes r = [])) then
           rtps_msg_add_heartbeat k (Some k) alive alive (q_min (rr_changes r)) (q_max (rr_changes r)) w
         else w)
  end.

(** [sfw_send_heartbeat] *)
Definition sfw_send_heartbeat (rs : list RemReader_t) (alive : bool) (w : Writer) : bool * Writer :=
  let a := hb_scan alive 0 rs (mkScan 0 false 0 0 0) in
  if negb alive && (nreaders a =? 0) then (false, sfw_stop_heartbeats w)
  else
    (true,
     if (nreaders a =? 1) || negb (no_mcast a) && (1 <? nreaders a) then
       rtps_msg_add_heartbeat (xrrp a) (if 1 <? nreaders a then None else Some (xrrp a)) alive alive
         (if min_mc a <? w_min w then min_mc a else w_min w) (if max_mc a <? w_max w then max_mc a else w_max w) w
     else hb_each alive 0 rs w).

(** [sfw_heartbeat_to]: the delay until the next heartbeat grows. *)
Definition sfw_heartbeat_to (rs : list RemReader_t) (w : Writer) : Writer :=
  let '(sent, w) := sfw_send_heartbeat rs false w in
  if sent then if backoff w <? 7 then w_backoff (backoff w + 1) w else w else w.

(** [seqnr_delta] *)
Definition seqnr_delta (snr1 snr2 : SequenceNumber_t) : Z :=
  if 1 <? ⟪high snr2 - high snr1⟫32 then 2 ^ 32 - 1
  else if ⟪high snr2 - 1⟫32 =? high snr1 then
    if low snr1 <? low snr2 then 2 ^ 32 - 1 else ⟦2 ^ 32 - 1 - low snr1 + low snr2 + 1⟧32
  else ⟦low snr2 - low snr1⟧32.

(** [seqnr_diff]: the difference, and whether it is an error. *)
Definition seqnr_diff (sl sh : SequenceNumber_t) : Z * bool :=
  let lo := ⟦low sh - low sl⟧32 in
  let hi := ⟪high sh - high sl⟫32 in
  if low sh <? low sl then
    if hi =? 0 then (0, true) else if hi - 1 =? 0 then (lo, false) else (0, true)
  else if hi =? 0 then (lo, false) else (0, true).

Section Proxy.
  Context (push_mode : bool) (nack_resp_delay : bool).

  (** The proxies of the writer before and after this one. *)
  Context (pre post : list RemReader_t).

Definition self : nat := length pre.

Definition upd_rr (f : RemReader_t -> RemReader_t) (s : St) : St := mkSt (f (rr s)) (wr s).
Definition upd_w (f : Writer -> Writer) (s : St) : St := mkSt (rr s) (f (wr s)).
Definition rr_active (s : St) : bool := bool_decide (self ∈ w_active (wr s)).

Definition send_heartbeat (s : St) : St := mkSt (rr s) (snd (sfw_send_heartbeat (pre ++ rr s :: post) false (wr s))).

(** [sfw_announce] *)
Definition sfw_announce (urgent : bool) (s : St) : St :=
  let s := upd_rr (rr_transmit RRTS_ANNOUNCING) s in
  if rh_timer (wr s) then if urgent then send_heartbeat s else s
  else
    let '(ok, w) := alloc_tmr (wr s) in
    if ok then let s := mkSt (rr s) (w_timer true w) in if urgent then send_heartbeat s else s
    else send_heartbeat (mkSt (rr s) w).

(** The samples that were not sent are pushed, or announced. *)
Definition push_or_announce (s : St) : St :=
  if push_mode then
    let s := upd_rr (rr_transmit RRTS_PUSHING) s in
    if rr_active s then s else upd_w (proxy_activate self) s
  else sfw_announce true s.

(** [sfw_rel_send_alive] *)
Definition sfw_rel_send_alive (s : St) : St :=
  let w := wr s in
  if w_max w <? w_min w then upd_w (rtps_msg_add_heartbeat self (Some self) true true (w_min w) (w_min w)) s
  else
    match rr_unsent_changes (rr s) with
    | Some _ => push_or_announce s
    | None =>
        let s := upd_w (rtps_msg_add_heartbeat self (Some self) false false (w_min w) (w_max w)) s in
        if rh_timer (wr s) && (backoff (wr s) <? 7) then upd_w (w_backoff (backoff (wr s) + 1)) s else s
    end.

(** [sfw_rel_alive_to] *)
Definition sfw_rel_alive_to (s : St) : St := sfw_rel_send_alive s.

(** ** New samples *)

(** [ccref_add] at the end of the list: the address of the node. *)
Definition change_enqueue (cp : WChange) (st : ChangeState_t) (s : St) : option nat * St :=
  let '(p, w) := alloc_ref (wr s) in
  match p with
  | None => (None, mkSt (rr s) w)
  | Some p =>
      (Some p, mkSt (rr_list (rr_changes (rr s) ++ [(p, mkWRef st false (WData cp))]) (rr s))
                 (w_wack (wc_id cp) (wack w cp + 1) w))
  end.

(** [ccref_add_gap] at the end of the list. *)
Definition change_enqueue_gap (first last : Z) (st : ChangeState_t) (s : St) : option nat * St :=
  let l := rr_changes (rr s) in
  let new :=
    let '(p, w) := alloc_ref (wr s) in
    match p with
    | None => (None, mkSt (rr s) w)
    | Some p => (Some p, mkSt (rr_list (l ++ [(p, mkWRef st false (WRange first last))]) (rr s)) w)
    end in
  match list.last l with
  | Some (p, mkWRef xst ack (WRange xfirst _)) =>
      if decide (xst = st) then (Some p, upd_rr (rr_list (removelast l ++ [(p, mkWRef xst ack (WRange xfirst last))])) s) else new
  | _ => new
  end.

(** What [sfw_rel_new_change] does with the list: the last node it made, NULL
    when it made none. *)
Definition new_change_list (cp : option WChange) (snr : Z) (st : ChangeState_t) (s : St) : option nat * St :=
  match list.last (rr_changes (rr s)), cp with
  | Some (_, mkWRef _ _ (WData tcp)), _ =>
      let gap_first := c_seqnr (wc_change tcp) + 1 in
      let '(ok, rp, s) :=
        (if negb (gap_first =? snr) || bool_decide (cp = None) then
           let '(rp, s) := change_enqueue_gap gap_first (match cp with Some _ => snr - 1 | None => snr end) st s in
           (bool_decide (rp <> None), rp, s)
         else (true, None, s)) in
      if negb ok then (None, s)
      else match cp with Some cp => change_enqueue cp st s | None => (rp, s) end
  | Some (p, mkWRef xst ack (WRange xfirst _)), Some cp =>
      change_enqueue cp st (upd_rr (rr_list (removelast (rr_changes (rr s)) ++ [(p, mkWRef xst ack (WRange xfirst (snr - 1)))])) s)
  | Some (p, mkWRef _ ack (WRange xfirst _)), None =>
      (None, upd_rr (rr_list (removelast (rr_changes (rr s)) ++ [(p, mkWRef st ack (WRange xfirst snr))])) s)
  | None, Some cp => change_enqueue cp st s
  | None, None => change_enqueue_gap snr snr st s
  end.

(** [sfw_rel_new_change] *)
Definition sfw_rel_new_change (cp : option WChange) (snr : Z) (s : St) : option (bool * St) :=
  let st := if push_mode then CS_UNSENT else CS_UNACKED in
  let '(rp, s) := new_change_list cp snr st s in
  match rp with
  | None => Some (false, s)
  | Some p =>
      s ← (match cp with
           | None => Some s
           | Some _ =>
               l ← ref_set p w_set_ack (rr_changes (rr s));
               Some (upd_rr (fun r => rr_count (rr_unacked r + 1) (rr_list l r)) s)
           end);
      let s := match rr_unsent_changes (rr s) with None => upd_rr (rr_unsent (Some p)) s | Some _ => s end in
      Some (true,
        if rr_peer_alive (rr s) && bool_decide (st = CS_UNSENT) then
          let s := upd_rr (rr_transmit RRTS_PUSHING) s in
          if rr_active s then s else upd_w (proxy_activate self) s
        else if rh_timer (wr s) then s else sfw_announce false s)
  end.

(** [hc_replay]: the changes of the cache are added. *)
Fixpoint hc_replay (changes : list (Z * option WChange)) (s : St) : option St :=
  match changes with
  | [] => Some s
  | (snr, cp) :: changes => '(_, s) ← sfw_rel_new_change cp snr s; hc_replay changes s
  end.

(** The end of [sfw_rel_start] and [sfw_rel_reset]: wait for the reader. *)
Definition start_sending (s : St) : St :=
  match rr_unsent_changes (rr s) with
  | None => s
  | Some _ =>
      let '(ok, w) := alloc_tmr (wr s) in
      if ok then mkSt (rr_timer (Some WAliveTmr) (rr s)) w
      else push_or_announce (mkSt (rr_timer None (rr s)) w)
  end.

Definition init_states (r : RemReader_t) : RemReader_t :=
  rr_count 0 (rr_repair RRAS_WAITING (rr_transmit RRTS_IDLE (rr_control RRCS_READY r))).

(** [sfw_rel_start]; [changes] are the contents of the cache. *)
Definition sfw_rel_start (changes : list (Z * option WChange)) (s : St) : option St :=
  let s := upd_rr (fun r => rr_alive false (rr_timer None (init_states r))) s in
  s ← (if rr_durable (rr s) then hc_replay changes (upd_rr (rr_snr (rr_new_snr (rr s) + 1)) s)
       else Some (upd_rr (rr_snr (w_max (wr s) + 1)) s));
  Some (start_sending s).
(** ** Sending *)

(** A GAP message in preparation. *)
Record GapAcc := mkGap { g_start : Z; g_base : Z; g_bits : Z; g_map : list Z }.

(** [rtps_msg_add_gap] of the GAP, if there is one. *)
Definition gap_flush (g : option GapAcc) (push : bool) (s : St) : St :=
  match g with
  | None => s
  | Some g => upd_w (fun w => snd (rtps_msg_add_gap self (g_start g) (g_base g) (g_bits g) (g_map g) push w)) s
  end.

(** The bits of the [k + 1] numbers from [delta]. *)
Fixpoint gap_fill (k : nat) (delta : Z) (bm : list Z) : option (list Z) :=
  bm ← SET_ADD bm delta;
  match k with O => Some bm | S k => gap_fill k (delta + 1) bm end.

(** A range is added to the GAP; when it does not fit, the GAP is sent and
    another is started.  Whether there was memory for the message. *)
Definition gap_add (first last : Z) (g : option GapAcc) (s : St) : option (bool * GapAcc * St) :=
  let new := mkGap first (last + 1) 0 (replicate 8 0) in
  match g with
  | None => Some (true, new, s)
  | Some g =>
      if seqnr_delta (snr_of (g_base g)) (snr_of last) <=? 255 then
        let delta := seqnr_delta (snr_of (g_base g)) (snr_of first) in
        if last <? first then None
        else
          bm ← gap_fill (Z.to_nat (last - first)) delta (g_map g);
          Some (true, mkGap (g_start g) (g_base g) (delta + (last - first) + 1) bm, s)
      else
        let '(ok, w) := rtps_msg_add_gap self (g_start g) (g_base g) (g_bits g) (g_map g) (rh_timer (wr s)) (wr s) in
        Some (ok, new, mkSt (rr s) w)
  end.

(** A sample is sent unless all readers have it; by multicast when several
    readers wait for it.  Whether there was memory, and whether it is urgent. *)
Definition send_sample (cp : WChange) (last : bool) (s : St) : bool * bool * St :=
  let n := wack (wr s) cp in
  if n =? 0 then (true, false, s)
  else
    let dest := if wc_no_mcast cp then Some self else if 1 <? n then None else Some self in
    let '(ok, w) := add_msg self (MData (wc_change cp) dest) (last && rh_timer (wr s)) (wr s) in
    (ok, wc_urgent cp, mkSt (rr s) (w_wack (wc_id cp) (if wc_no_mcast cp then n - 1 else 0) w)).

(** The first requested node. *)
Fixpoint first_requested (l : WList) : option nat :=
  match l with
  | [] => None
  | (p, rp) :: l => if decide (w_state rp = CS_REQUESTED) then Some p else first_requested l
  end.

(** The node to send: [None] at the end, with what is done then. *)
Definition send_pick (g : option GapAcc) (urgent : bool) (s : St) : option nat * option GapAcc * St :=
  if decide (rr_tstate (rr s) = RRTS_PUSHING) then
    match rr_unsent_changes (rr s) with
    | Some p => (Some p, g, s)
    | None => (None, None, sfw_announce urgent (gap_flush g (rh_timer (wr s)) s))
    end
  else if decide (rr_astate (rr s) = RRAS_REPAIRING) then
    match (match rr_requested_changes (rr s) with Some p => Some p | None => first_requested (rr_changes (rr s)) end) with
    | Some p => (Some p, g, s)
    | None => (None, g, upd_rr (rr_repair RRAS_WAITING) s)
    end
  else (None, g, s).

(** One node is sent or added to the GAP. *)
Definition send_ref (rp : WRef) (last : bool) (g : option GapAcc) (s : St) : option (bool * bool * option GapAcc * St) :=
  match w_u rp with
  | WData cp => let '(ok, urg, s) := send_sample cp (last && bool_decide (g = None)) s in Some (ok, urg, g, s)
  | WRange first last =>
      if decide (w_state rp = CS_UNDERWAY) then Some (true, false, g, s)
      else '(ok, g, s) ← gap_add first last g s; Some (ok, false, Some g, s)
  end.

(** The loop of [sfw_rel_send_data]: whether memory was available throughout. *)
Fixpoint send_loop (fuel : nat) (g : option GapAcc) (urgent : bool) (s : St) : option (bool * option GapAcc * St) :=
  match fuel with
  | O => None
  | S fuel =>
      if bool_decide (rr_changes (rr s) = []) then Some (true, g, s)
      else
        let '(rp, g, s) := send_pick g urgent s in
        match rp with
        | None => Some (true, g, s)
        | Some p =>
            '(rp, behind) ← ref_from p (rr_changes (rr s));
            let pushing := bool_decide (rr_tstate (rr s) = RRTS_PUSHING) in
            let next := if pushing then fst <$> head behind else first_requested behind in
            '(ok, urg, g, s) ← send_ref rp (bool_decide (next = None)) g s;
            l ← ref_set p (w_set_state CS_UNDERWAY) (rr_changes (rr s));
            let s := upd_rr (rr_list l) s in
            let urgent := urgent || urg in
            if negb ok then Some (false, g, s)
            else
              let s := upd_rr (if pushing then rr_unsent next else rr_requested next) s in
              if bool_decide (next = None) && rr_active s then
                let s := gap_flush g (rh_timer (wr s)) s in
                let s := if pushing then s else upd_rr (rr_repair RRAS_WAITING) s in
                Some (true, None, sfw_announce urgent s)
              else send_loop fuel g urgent s
        end
  end.

(** [sfw_rel_send_data]: true when it has to be tried again. *)
Definition sfw_rel_send_data (s : St) : option (bool * St) :=
  let s := upd_rr (rr_requested None) s in
  '(ok, g, s) ← send_loop (S (S (length (rr_changes (rr s))))) None false s;
  Some (if (ok : bool) then (false, gap_flush g true s) else (true, s)).

(** ** Acknowledgements *)

(** [sfw_rel_nack_resp_to] *)
Definition sfw_rel_nack_resp_to (s : St) : St :=
  let s := upd_rr (rr_repair RRAS_REPAIRING) s in
  match rr_requested_changes (rr s) with Some _ => upd_w (proxy_activate self) s | None => s end.

(** [nack_resp_tmr_to] *)
Definition nack_resp_tmr_to (s : St) : St := sfw_rel_nack_resp_to (upd_rr (rr_timer None) s).

(** [sfw_rel_all_acked]: heartbeats stop when no reader has anything to
    acknowledge. *)
Definition sfw_rel_all_acked (s : St) : St :=
  let s := upd_rr (fun r => rr_repair RRAS_WAITING (rr_timer None (rr_transmit RRTS_IDLE r))) s in
  if existsb (fun r => rr_reliable r && negb (bool_decide (rr_changes r = []))) (pre ++ rr s :: post) then s
  else upd_w sfw_stop_heartbeats s.

(** [sfw_range_split]: the part before [snr], unless the node stays as it is,
    and the node that follows.  [None] without memory. *)
Definition sfw_range_split (p : nat) (rp : WRef) (snr : Z) (acked : bool) (w : Writer) : option (WList * (nat * WRef)) * Writer :=
  let mark rp := if acked then w_set_state CS_ACKED rp else rp in
  if w_last rp <? snr then (Some ([], (p, mark rp)), w)
  else
    let '(q, w) := alloc_ref w in
    match q with
    | None => (None, w)
    | Some q => (Some ([(p, mark (w_set_range (w_first rp) (snr - 1) rp))], (q, mkWRef (w_state rp) false (WRange snr (w_last rp)))), w)
    end.

(** The nodes of a range so far, the current one, the first requested one, and
    whether its numbers from the last change on are acknowledged. *)
Record RangeAcc := mkRange { ra_snr : Z; ra_acked : bool; ra_done : WList; ra_cur : nat * WRef; ra_req : option nat; ra_w : Writer }.

Definition or_first (req : option nat) (p : nat) : option nat := match req with Some q => Some q | None => Some p end.

(** One bit of the ACKNACK: [false] when there is no memory. *)
Definition range_bit (c : bool) (a : RangeAcc) : bool * RangeAcc :=
  let '(p, rp) := ra_cur a in
  match c, ra_acked a with
  | true, true =>
      match sfw_range_split p rp (ra_snr a) true (ra_w a) with
      | (Some (d, cur), w) => (true, mkRange (ra_snr a) false (ra_done a ++ d) cur (ra_req a) w)
      | (None, w) => (false, mkRange (ra_snr a) false (ra_done a) (p, rp) (ra_req a) w)
      end
  | false, false =>
      match sfw_range_split p rp (ra_snr a) false (ra_w a) with
      | (Some ([], (q, nrp)), w) => (true, mkRange (ra_snr a) true (ra_done a) (q, w_set_state CS_REQUESTED nrp) (or_first (ra_req a) p) w)
      | (Some (d, cur), w) =>
          (true, mkRange (ra_snr a) true (ra_done a ++ map (fun '(q, rp) => (q, w_set_state CS_REQUESTED rp)) d) cur (or_first (ra_req a) p) w)
      | (None, w) => (false, mkRange (ra_snr a) true (ra_done a) (p, rp) (ra_req a) w)
      end
  | _, _ => (true, a)
  end.

Fixpoint range_bits (k : nat) (i : Z) (bm : list Z) (a : RangeAcc) : option RangeAcc :=
  match k with
  | O => Some a
  | S k =>
      c ← SET_CONTAINS bm i;
      let '(ok, a) := range_bit c a in
      if negb ok then Some a
      else
        let a := mkRange (ra_snr a + 1) (ra_acked a) (ra_done a) (ra_cur a) (ra_req a) (ra_w a) in
        if w_last (snd (ra_cur a)) <? ra_snr a then Some a else range_bits k (i + 1) bm a
  end.

Inductive Verdict := VAcked | VRequested | VKeep.

(** A range that the numbers of an ACKNACK overlap: its nodes, the current one
    and its verdict; [None] as verdict when the walk ends without memory. *)
Definition ack_ref_range (p : nat) (rp : WRef) (first : Z) (ap : AckNack) (req : option nat) (w : Writer)
  : option (RangeAcc * option Verdict) :=
  let base := ack_base ap in
  '(i, acked, snr) ← (if first <? base then Some (0, true, base)
                      else
                        let '(i, _) := seqnr_diff (snr_of base) (snr_of first) in
                        c ← SET_CONTAINS (ack_map ap) i; Some (i, negb c, base + i));
  a ← range_bits (Z.to_nat (ack_bits ap - i)) i (ack_map ap) (mkRange snr acked [] (p, rp) req w);
  if ra_acked a then
    let '(p, rp) := ra_cur a in
    if w_last rp <? ra_snr a then Some (a, Some VAcked)
    else
      match sfw_range_split p rp (ra_snr a) true (ra_w a) with
      | (Some (d, cur), w) => Some (mkRange (ra_snr a) true (ra_done a ++ d) cur (ra_req a) w, Some VKeep)
      | (None, w) => Some (mkRange (ra_snr a) true (ra_done a) (p, rp) (ra_req a) w, None)
      end
  else Some (a, Some VRequested).

(** [seqnr_inset] *)
Definition seqnr_inset (snr : Z) (ap : AckNack) : option bool :=
  let '(i, err) := seqnr_diff (snr_of (ack_base ap)) (snr_of snr) in
  if err || (ack_bits ap <=? i) then Some false else SET_CONTAINS (ack_map ap) i.

(** What an ACKNACK says of a node; [max] is the number behind its bits. *)
Definition ack_ref (p : nat) (rp : WRef) (ap : AckNack) (max : Z) (req : option nat) (w : Writer) : option (RangeAcc * option Verdict) :=
  let at_ w := mkRange 0 false [] (p, rp) req w in
  match w_u rp with
  | WData cp =>
      let n := c_seqnr (wc_change cp) in
      if n <? ack_base ap then Some (at_ w, Some VAcked)
      else if n <? max then
        c ← seqnr_inset n ap;
        Some (if (c : bool) then (at_ (w_wack (wc_id cp) (wack w cp + 1) w), Some VRequested) else (at_ w, Some VAcked))
      else Some (at_ w, Some VKeep)
  | WRange first last =>
      if last <? ack_base ap then Some (at_ w, Some VAcked)
      else if first <? max then ack_ref_range p rp first ap req w
      else Some (at_ w, Some VKeep)
  end.

(** The loop over the list. *)
Fixpoint ack_walk (l : WList) (ap : AckNack) (max : Z) (r : RemReader_t) (w : Writer) : option (WList * RemReader_t * Writer) :=
  match l with
  | [] => Some ([], r, w)
  | (p, rp) :: l =>
      if decide (w_state rp = CS_ACKED) then
        '(l, r, w) ← ack_walk l ap max r w; Some ((p, rp) :: l, r, w)
      else
        '(a, v) ← ack_ref p rp ap max (rr_requested_changes r) w;
        let '(p, rp) := ra_cur a in
        let r := rr_requested (ra_req a) r in
        match v with
        | None => Some (ra_done a ++ (p, rp) :: l, r, ra_w a)
        | Some v =>
            let '(rp, r) :=
              match v with
              | VRequested => (w_set_state CS_REQUESTED rp, rr_requested (or_first (rr_requested_changes r) p) r)
              | VAcked =>
                  if decide (w_state rp = CS_ACKED) then (rp, r)
                  else (w_set_state CS_ACKED rp, if w_relevant rp then rr_count (rr_unacked r - 1) r else r)
              | VKeep => (rp, r)
              end in
            '(l, r, w) ← ack_walk l ap max r (ra_w a);
            Some (ra_done a ++ (p, rp) :: l, r, w)
        end
  end.

(** [change_remove_ref] of the first node.  The loop that looks for another
    requested node does not move: unless the next one will do, it never ends. *)
Definition change_remove_head (r : RemReader_t) : option RemReader_t :=
  match rr_changes r with
  | [] => None
  | (p, rp) :: l =>
      let next := fst <$> head l in
      let r := if decide (rr_unsent_changes r = Some p) then rr_unsent next r else r in
      r ← (if decide (rr_requested_changes r = Some p) then
             match l with
             | [] => Some (rr_requested None r)
             | (q, nrp) :: _ =>
                 if w_relevant nrp && bool_decide (w_state nrp = CS_REQUESTED) then Some (rr_requested (Some q) r) else None
             end
           else Some r);
      Some (rr_list l (if bool_decide (l = []) then rr_snr (w_last rp) r else r))
  end.

(** The acknowledged nodes at the front are removed. *)
Fixpoint remove_acked (fuel : nat) (r : RemReader_t) : option RemReader_t :=
  match fuel, rr_changes r with
  | S fuel, (p, rp) :: _ =>
      if decide (w_state rp = CS_ACKED) then
        r ← change_remove_head (if w_relevant rp && w_ack_req rp then hc_acknowledged (w_first rp) r else r);
        remove_acked fuel r
      else Some r
  | _, _ => Some r
  end.

(** [change_delete_enqueued] *)
Definition change_delete_enqueued (r : RemReader_t) : RemReader_t :=
  let r := fold_left (fun r '(_, rp) => if w_relevant rp && w_ack_req rp then hc_acknowledged (w_first rp) r else r) (rr_changes r) r in
  rr_count 0 (rr_list [] (rr_requested None (rr_unsent None r))).

(** The loop of [sfw_rel_reset] for a volatile reader. *)
Definition unsend (r : RemReader_t) : RemReader_t :=
  fold_left (fun r '(p, rp) =>
    match w_state rp with
    | CS_REQUESTED | CS_UNDERWAY | CS_UNACKED =>
        rr_count (rr_unacked r + 1) (rr_unsent (or_first (rr_unsent_changes r) p) (rr_list (rr_changes r ++ [(p, w_set_state CS_UNSENT rp)]) r))
    | _ => rr_list (rr_changes r ++ [(p, rp)]) r
    end) (rr_changes r) (rr_list [] r).

(** [sfw_restart] and [sfw_rel_reset] *)
Definition sfw_restart (changes : list (Z * option WChange)) (s : St) : option St :=
  let s := upd_rr (fun r => rr_requested None (rr_unsent None (rr_alive false (rr_snr 0 (init_states r))))) s in
  s ← (if rr_durable (rr s) then hc_replay changes (upd_rr (fun r => rr_snr 1 (change_delete_enqueued r)) s)
       else Some (upd_rr unsend s));
  Some (start_sending s).

(** The numbers from the base of an ACKNACK that are no longer in the list. *)
Definition immediate_bits (ap : AckNack) (r : RemReader_t) : Z :=
  let max := ack_base ap in
  let delta snr := if max <? snr then SEQNR_DELTA (snr_of max) (snr_of snr) else 0 in
  match rr_changes r with
  | [] => if ack_bits ap =? 0 then delta (rr_new_snr r) else ack_bits ap
  | (_, rp) :: _ => delta (w_first rp)
  end.

(** The first [n] elements of a set that is not initialised. *)
Fixpoint set_first (k : nat) (i : Z) (bm : list Z) : option (list Z) :=
  match k with O => Some bm | S k => bm ← SET_ADD bm i; set_first k (i + 1) bm end.

(** The GAP for them. *)
Definition immediate_gap (n : Z) (ap : AckNack) (s : St) : option (Z * St) :=
  let n := if negb (ack_bits ap =? 0) && (ack_bits ap <? n) then ack_bits ap else if 256 <? n then 256 else n in
  let n_words := Z.shiftr (n + 31) 5 in
  bits ← (if ack_bits ap =? 0 then set_first (Z.to_nat n) 0 (w_junk (wr s))
          else if 8 <? n_words then None else zslice (ack_map ap) 0 n_words);
  Some (n, upd_w (fun w => snd (rtps_msg_add_gap self (ack_base ap) (ack_base ap) n bits true w)) s).

(** Numbers behind the list that the cache does not have for this reader. *)
Definition implicit_gap (max : Z) (s : St) : St :=
  let l := rr_changes (rr s) in
  let snr := match list.last l with None => rr_new_snr (rr s) | Some (_, rp) => w_last rp + 1 end in
  let snr_max := w_max (wr s) in
  if negb (max <? snr) && (snr <? snr_max) then
    let new :=
      let '(rp, s) := change_enqueue_gap snr snr_max CS_UNSENT s in
      match rr_unsent_changes (rr s) with None => upd_rr (rr_unsent rp) s | Some _ => s end in
    match list.last l with
    | Some (p, mkWRef CS_UNSENT ack (WRange first _)) => upd_rr (rr_list (removelast l ++ [(p, mkWRef CS_UNSENT ack (WRange first snr_max))])) s
    | _ => new
    end
  else s.

(** The repair of what was requested. *)
Definition must_repair (s : St) : St :=
  match rr_requested_changes (rr s) with
  | Some _ =>
      if decide (rr_astate (rr s) = RRAS_MUST_REPAIR) then s
      else
        let s := upd_rr (rr_repair RRAS_MUST_REPAIR) s in
        if nack_resp_delay then
          match rr_nack_timer (rr s) with
          | Some _ => upd_rr (rr_timer (Some NackRspTmr)) s
          | None =>
              let '(ok, w) := alloc_tmr (wr s) in
              let s := mkSt (rr s) w in
              if ok then upd_rr (rr_timer (Some NackRspTmr)) s else sfw_rel_nack_resp_to s
          end
        else sfw_rel_nack_resp_to s
  | None => s
  end.

(** What [sfw_rel_acknack] does with the list of changes. *)
Definition acknack_changes (n_gap : Z) (ap : AckNack) (s : St) : option St :=
  let max := ack_base ap + ack_bits ap in
  let s := implicit_gap max s in
  '(l, r, w) ← ack_walk (rr_changes (rr s)) ap max (rr_requested None (rr s)) (wr s);
  let s := must_repair (mkSt (rr_list l r) w) in
  r ← remove_acked (length (rr_changes (rr s))) (rr s);
  let s := mkSt r (wr s) in
  Some (if bool_decide (rr_changes r = []) && (n_gap =? 0) then sfw_rel_all_acked s else s).

(** [sfw_rel_acknack]; [changes] are the contents of the cache. *)
Definition sfw_rel_acknack (ap : AckNack) (count : Z) (final : bool) (changes : list (Z * option WChange)) (s : St) : option St :=
  if count =? rr_last_ack (rr s) then Some s
  else
    let s := upd_w (w_backoff 0) s in
    let nothing := (ack_base ap =? 0) && (ack_bits ap =? 0) in
    let was_alive := rr_peer_alive (rr s) in
    let s := if was_alive then s else upd_rr (fun r => rr_timer None (rr_alive true r)) s in
    if negb was_alive && negb (bool_decide (rr_changes (rr s) = [])) &&
       (nothing || bool_decide (rr_unsent_changes (rr s) <> None)) then
      let s := upd_rr (rr_transmit RRTS_PUSHING) s in
      let s := if rr_active s then s else upd_w (proxy_activate self) s in
      Some (upd_rr (rr_ack count) s)
    else
      let s := upd_rr (rr_ack count) s in
      if nothing then
        Some (if negb final && bool_decide (rr_tstate (rr s) = RRTS_IDLE) then sfw_rel_send_alive s else s)
      else
        let n := immediate_bits ap (rr s) in
        if negb (n =? 0) && rr_durable (rr s) then sfw_restart changes s
        else
          '(n, s) ← (if n =? 0 then Some (0, s) else immediate_gap n ap s);
          acknack_changes n ap s.

(** ** Samples that are removed *)

Definition w_contains (snr : Z) (rp : WRef) : bool := (w_first rp <=? snr) && (snr <=? w_last rp).

(** The first node with the number, and the one before it. *)
Fixpoint find_from (snr : Z) (prev : nat * WRef) (l : WList) : option ((nat * WRef) * (nat * WRef)) :=
  match l with
  | [] => None
  | (p, rp) :: l => if w_contains snr rp then Some (prev, (p, rp)) else find_from snr (p, rp) l
  end.

Definition find_change (snr : Z) (l : WList) : option (option (nat * WRef) * (nat * WRef)) :=
  match l with
  | [] => None
  | (p, rp) :: l' =>
      if snr <? w_first rp then None
      else if w_contains snr rp then Some (None, (p, rp))
      else
        match list.last l with
        | None => None
        | Some (q, lp) =>
            if w_last lp <? snr then None
            else if w_contains snr lp then Some (list.last (removelast l), (q, lp))
            else '(prev, rp) ← find_from snr (p, rp) l'; Some (Some prev, rp)
        end
  end.

Fixpoint first_relevant (l : WList) : option nat :=
  match l with [] => None | (p, rp) :: l => if w_relevant rp then Some p else first_relevant l end.

(** The ranges at the front are removed. *)
Fixpoint drop_gaps (l : WList) : WList := match l with (_, rp) :: l' => if w_relevant rp then l else drop_gaps l' | [] => [] end.

(** The new range is joined with its neighbours, and ranges at the front are
    dropped. *)
Definition coagulate (snr : Z) (p : nat) (prev : option (nat * WRef)) (next : option (nat * WRef)) (l : WList) : option WList :=
  '(p, first, l) ← (match prev with
                    | Some (q, prp) =>
                        if w_relevant prp then Some (p, snr, l)
                        else l ← ref_set q (fun rp => w_set_range (w_first rp) snr rp) l; l ← ref_remove p l; Some (q, w_first prp, l)
                    | None => Some (p, snr, l)
                    end);
  l ← (match next with
       | Some (q, nrp) =>
           if w_relevant nrp then Some l
           else l ← ref_set q (fun rp => w_set_range first (w_last rp) rp) l; ref_remove p l
       | None => Some l
       end);
  Some (drop_gaps l).

(** [sfw_rel_rem_change]: the change of the node is released, whether the node
    has one or not. *)
Definition sfw_rel_rem_change (snr : Z) (s : St) : option St :=
  match find_change snr (rr_changes (rr s)) with
  | None => Some s
  | Some (prev, (p, rp)) =>
      match w_u rp with
      | WRange _ _ => None
      | WData _ =>
          '(_, behind) ← ref_from p (rr_changes (rr s));
          l ← ref_set p (w_set_range snr snr) (rr_changes (rr s));
          let r := rr s in
          let r := if decide (rr_unsent_changes r = Some p) then rr_unsent (first_relevant behind) r else r in
          let r := if decide (rr_astate r = RRAS_REPAIRING) then
                     if decide (rr_requested_changes r = Some p) then rr_requested (first_requested behind) r else r
                   else r in
          l ← coagulate snr p prev (head behind) l;
          Some (mkSt (rr_list l r) (wr s))
      end
  end.

(** [sfw_rel_finish] *)
Definition sfw_rel_finish (s : St) : St :=
  upd_rr (rr_control RRCS_FINAL) (sfw_rel_all_acked (upd_rr change_delete_enqueued s)).

End Proxy.

(** ** The writer with its proxies *)

(** What the surroundings answer during an event: memory for nodes, timers and
    messages, the numbers in the cache, and memory that is not initialised. *)
Record WAnswers := mkWAns { wa_allocs : list bool; wa_tmrs : list bool; wa_msgs : list bool; wa_min : Z; wa_max : Z; wa_junk : list Z }.

Definition w_answers (a : WAnswers) (w : Writer) : Writer :=
  mkW (rh_timer w) (backoff w) (heartbeats w) (c_wack w) (w_active w) (w_out w) (w_fresh w)
    (wa_allocs a) (wa_tmrs a) (wa_msgs a) (wa_min a) (wa_max a) (wa_junk a).

(** [proxy_deactivate] *)
Definition proxy_deactivate (k : nat) (w : Writer) : Writer :=
  mkW (rh_timer w) (backoff w) (heartbeats w) (c_wack w) (w_active w ∖ {[k]}) (w_out w) (w_fresh w)
    (w_allocs w) (w_tmrs w) (w_msgs w) (w_min w) (w_max w) (w_junk w).

(** The events of a proxy.  [ESend] is the part of [rtps_send_changes] for it. *)
Inductive RrEvent :=
| EStart (changes : list (Z * option WChange))
| ENewChange (cp : option WChange) (snr : Z)
| ESend
| EAcknack (ap : AckNack) (count : Z) (final : bool) (changes : list (Z * option WChange))
| ERemChange (snr : Z)
| EAliveTo
| ENackTo
| EFinish.

Definition rr_event (push_mode nack_resp_delay : bool) (pre post : list RemReader_t) (e : RrEvent) (s : St) : option St :=
  match e with
  | EStart changes => sfw_rel_start push_mode pre post changes s
  | ENewChange cp snr => '(_, s) ← sfw_rel_new_change push_mode pre post cp snr s; Some s
  | ESend =>
      '(again, s) ← sfw_rel_send_data pre post s;
      Some (if (again : bool) then s else upd_w (proxy_deactivate (self pre)) s)
  | EAcknack ap count final changes => sfw_rel_acknack push_mode nack_resp_delay pre post ap count final changes s
  | ERemChange snr => sfw_rel_rem_change snr s
  | EAliveTo => Some (sfw_rel_alive_to push_mode pre post s)
  | ENackTo => Some (nack_resp_tmr_to pre s)
  | EFinish => Some (sfw_rel_finish pre post s)
  end.

(** An event of proxy [k], or the heartbeat timer of the writer. *)
Inductive WEvent := EProxy (k : nat) (e : RrEvent) | EHeartbeatTo.

Definition w_event (push_mode nack_resp_delay : bool) (e : WEvent) (a : WAnswers) (rs : list RemReader_t) (w : Writer)
  : option (list RemReader_t * Writer) :=
  let w := w_answers a w in
  match e with
  | EHeartbeatTo => Some (rs, sfw_heartbeat_to rs w)
  | EProxy k e =>
      r ← rs !! k;
      s ← rr_event push_mode nack_resp_delay (take k rs) (drop (S k) rs) e (mkSt r w);
      Some (take k rs ++ rr s :: drop (S k) rs, wr s)
  end.
