(* ===== verification/SfrwProps.v ===== *)
(** Lemmas on the reliable writer: its list of changes is a contiguous run of
    numbers; the handlers never lose a sample that the reader has not
    acknowledged, and tell the reader to skip only what it may skip. *)

From stdpp Require Import gmap.
From S2P Require Import Prelude Seqnr Clist Sfrr Sfrw.
From stdpp Require Import list.

#[local] Open Scope Z_scope.

(** ** Differences of sequence numbers *)

Lemma snr_of_small n : 0 <= n < 2 ^ 32 -> snr_of n = mkSnr 0 n.
Proof. intros Hn. unfold snr_of. by rewrite Z.div_small, Z.mod_small. Qed.

Lemma seqnr_delta_small a b : 0 <= a < 2 ^ 32 -> 0 <= b < 2 ^ 32 -> a <= b -> seqnr_delta (snr_of a) (snr_of b) = b - a.
Proof.
  intros Ha Hb Hab. rewrite !snr_of_small by done. unfold seqnr_delta. cbn [high low]. change (1 <? ⟪0 - 0⟫32) with false. cbn iota.
  change (⟪0 - 1⟫32 =? 0) with false. cbn iota. apply wrap_small. split; lia.
Qed.

Lemma seqnr_diff_small a b : 0 <= a < 2 ^ 32 -> 0 <= b < 2 ^ 32 -> seqnr_diff (snr_of a) (snr_of b) = (if b <? a then (0, true) else (b - a, false)).
Proof.
  intros Ha Hb. rewrite !snr_of_small by done. unfold seqnr_diff. cbn [high low]. change (⟪0 - 0⟫32 =? 0) with true. cbn iota.
  destruct (Z.ltb_spec b a); [done|]. f_equal. apply wrap_small. split; lia.
Qed.

Lemma SEQNR_DELTA_small a b : 0 <= a < 2 ^ 32 -> 0 <= b < 2 ^ 32 -> a <= b -> SEQNR_DELTA (snr_of a) (snr_of b) = b - a.
Proof. intros Ha Hb Hab. rewrite !snr_of_small by done. unfold SEQNR_DELTA. cbn [high low]. cbn [Z.eqb]. apply wrap_small. split; lia. Qed.

Lemma SEQNR_DELTA_edge a : 1 <= a < 2 ^ 32 -> SEQNR_DELTA (snr_of a) (snr_of (2 ^ 32)) = 2 ^ 32 - a.
Proof.
  intros Ha. rewrite (snr_of_small a) by lia. change (snr_of (2 ^ 32)) with (mkSnr 1 0). unfold SEQNR_DELTA. cbn [high low]. change (1 =? 0) with false. change (1 =? ⟪0 + 1⟫32) with true. cbn iota.
  rewrite wrap_small; [lia|]. split; lia.
Qed.

(** ** Nodes and their numbers *)

(** The list covers the numbers from [a] to before [b]. *)
Fixpoint wcov (a : Z) (l : WList) (b : Z) : Prop :=
  match l with
  | [] => a = b
  | (_, rp) :: l => w_first rp = a /\ a <= w_last rp /\ wcov (w_last rp + 1) l b
  end.

Lemma wcov_app a l1 l2 b : wcov a (l1 ++ l2) b <-> exists c, wcov a l1 c /\ wcov c l2 b.
Proof.
  revert a. induction l1 as [|[p rp] l1 IH]; intros a; cbn; [|rewrite IH]; split.
  - intros H. by exists a.
  - by intros (c & -> & H).
  - intros (H1 & H2 & c & H3 & H4). by exists c.
  - intros (c & (H1 & H2 & H3) & H4). eauto.
Qed.

Lemma wcov_le a l b : wcov a l b -> a <= b.
Proof. revert a. induction l as [|[p rp] l IH]; intros a; cbn; [lia|]. intros (H1 & H2 & H3). apply IH in H3. lia. Qed.

Lemma wcov_nonempty a l b : wcov a l b -> l <> [] -> a < b.
Proof. destruct l as [|[p rp] l]; [done|]. intros (H1 & H2 & H3%wcov_le) _. lia. Qed.

Lemma wcov_snoc a l p rp b : wcov a (l ++ [(p, rp)]) b <-> wcov a l (w_first rp) /\ w_first rp <= w_last rp /\ b = w_last rp + 1.
Proof. rewrite wcov_app. cbn. split; [intros (c & H1 & <- & H2 & H3)|intros (H1 & H2 & H3); exists (w_first rp)]; split_and!; by auto. Qed.

Lemma wcov_in a l b p rp : wcov a l b -> (p, rp) ∈ l -> a <= w_first rp /\ w_first rp <= w_last rp < b.
Proof.
  intros Hc (l1 & l2 & ->)%list_elem_of_split. apply wcov_app in Hc as (c & H1%wcov_le & H2 & H3 & H4%wcov_le). lia.
Qed.

(** The sample with a number is in the list. *)
Definition is_data (n : Z) (x : nat * WRef) : Prop := exists cp, w_u (snd x) = WData cp /\ c_seqnr (wc_change cp) = n.
Definition pend (n : Z) (l : WList) : Prop := Exists (is_data n) l.

Lemma pend_app n l1 l2 : pend n (l1 ++ l2) <-> pend n l1 \/ pend n l2.
Proof. apply Exists_app. Qed.

Lemma is_data_range n p rp : is_data n (p, rp) -> w_first rp = n /\ w_last rp = n.
Proof. intros (cp & E & <-). cbn in E. unfold w_first, w_last. by rewrite E. Qed.

Lemma pend_range n a l b : wcov a l b -> pend n l -> a <= n < b.
Proof. intros Hc ([p rp] & Hin & Hd)%Exists_exists. apply is_data_range in Hd as [<- Hl]. pose proof (wcov_in _ _ _ _ _ Hc Hin). lia. Qed.

Lemma pend_nil n : ~ pend n [].
Proof. by intros H%Exists_nil. Qed.

(** The numbers of a range are no samples. *)
Lemma range_not_pend a l b p rp n : wcov a l b -> (p, rp) ∈ l -> w_relevant rp = false -> w_first rp <= n <= w_last rp -> ~ pend n l.
Proof.
  intros Hc (l1 & l2 & ->)%list_elem_of_split Hr Hn. apply wcov_app in Hc as (c & H1 & H2 & H3 & H4). rewrite pend_app. intros [H|H].
  - apply (pend_range _ _ _ _ H1) in H. lia.
  - apply Exists_cons in H as [(cp & E & _)|H]; [unfold w_relevant in Hr; cbn in E; by rewrite E in Hr|]. apply (pend_range _ _ _ _ H4) in H. lia.
Qed.

(** ** The same nodes, in other states *)

Definition node_of (x : nat * WRef) : nat * WRef_u := (fst x, w_u (snd x)).
Definition same_nodes (l l' : WList) : Prop := node_of <$> l = node_of <$> l'.

Lemma nodes_refl l : same_nodes l l.
Proof. done. Qed.

Lemma same_ids l l' : same_nodes l l' -> (l.*1) = (l'.*1).
Proof. unfold same_nodes. revert l'. induction l as [|x l IH]; intros [|y l'] H; try done. injection H as Hp Hu H. cbn. f_equal; [done|by apply IH]. Qed.

Lemma same_wcov l l' a b : same_nodes l l' -> wcov a l b -> wcov a l' b.
Proof.
  revert l' a. induction l as [|[p rp] l IH]; intros [|[q rq] l'] a H; try done. injection H as Hp Hu H. cbn.
  unfold w_first, w_last. rewrite <- Hu. intros (H1 & H2 & H3). split_and!; try done. by apply IH.
Qed.

Lemma same_pend l l' n : same_nodes l l' -> pend n l <-> pend n l'.
Proof.
  revert l'. induction l as [|[p rp] l IH]; intros [|[q rq] l'] H; try done. injection H as Hp Hu H. unfold pend in *. rewrite !Exists_cons, (IH l' H).
  unfold is_data. cbn. by rewrite Hu.
Qed.

(** ** Access by address *)

Lemma ref_from_app p rp l1 l2 : p ∉ (l1.*1) -> ref_from p (l1 ++ (p, rp) :: l2) = Some (rp, l2).
Proof.
  induction l1 as [|[q rq] l1 IH]; cbn; intros Hp; [by rewrite decide_True|]. apply not_elem_of_cons in Hp as [Hne Hp].
  rewrite decide_False by done. auto.
Qed.

Lemma ref_set_app p f rp l1 l2 : p ∉ (l1.*1) -> ref_set p f (l1 ++ (p, rp) :: l2) = Some (l1 ++ (p, f rp) :: l2).
Proof.
  induction l1 as [|[q rq] l1 IH]; cbn; intros Hp; [by rewrite decide_True|]. apply not_elem_of_cons in Hp as [Hne Hp].
  rewrite decide_False by done. by rewrite IH.
Qed.

Lemma ref_remove_app p rp l1 l2 : p ∉ (l1.*1) -> ref_remove p (l1 ++ (p, rp) :: l2) = Some (l1 ++ l2).
Proof.
  induction l1 as [|[q rq] l1 IH]; cbn; intros Hp; [by rewrite decide_True|]. apply not_elem_of_cons in Hp as [Hne Hp].
  rewrite decide_False by done. by rewrite IH.
Qed.

(** The addresses of a list are distinct and in use. *)
Definition ids_ok (fresh : nat) (l : WList) : Prop := NoDup (l.*1) /\ Forall (fun p : nat => (p < fresh)%nat) (l.*1).

Lemma ids_split fresh l1 p rp l2 : ids_ok fresh (l1 ++ (p, rp) :: l2) -> (p ∉ l1.*1) /\ (p ∉ l2.*1) /\ (p < fresh)%nat.
Proof.
  intros [Hn Hf]. rewrite fmap_app in Hn, Hf. cbn in Hn, Hf. apply NoDup_app in Hn as (_ & Hn & [Hn2 _]%NoDup_cons).
  apply Forall_app in Hf as [_ [Hf _]%Forall_cons]. split_and!; [intros Hp; by apply (Hn p Hp); left|done|done].
Qed.

Lemma ids_in p (l : WList) : p ∈ l.*1 -> exists l1 rp l2, l = l1 ++ (p, rp) :: l2.
Proof. intros ([q rp] & -> & (l1 & l2 & ->)%list_elem_of_split)%list_elem_of_fmap. by exists l1, rp, l2. Qed.

Lemma ids_snoc fresh l rp : ids_ok fresh l -> ids_ok (S fresh) (l ++ [(fresh, rp)]).
Proof.
  intros [Hn Hf]. split; rewrite fmap_app; cbn.
  - apply NoDup_app. split_and!; [done| |by apply NoDup_singleton]. intros p Hp ->%list_elem_of_singleton. rewrite Forall_forall in Hf. specialize (Hf _ Hp). cbn in Hf. lia.
  - apply Forall_app. split; [|constructor; [lia|done]]. eapply Forall_impl; [exact Hf|]. intros q Hq. cbn in *. lia.
Qed.

Lemma ids_mono fresh fresh' l : ids_ok fresh l -> (fresh <= fresh')%nat -> ids_ok fresh' l.
Proof. intros [Hn Hf] Hle. split; [done|]. eapply Forall_impl; [exact Hf|]. intros q Hq. cbn in *. lia. Qed.

(** ** Messages *)

(** The numbers that a message tells its reader to skip. *)
Definition bit_in (bm : list Z) (base numbits n : Z) : Prop := exists i, 0 <= i < numbits /\ n = base + i /\ SET_CONTAINS bm i = Some true.

Definition skips (m : WMsg) (n : Z) : Prop :=
  match m with
  | MData _ _ => False
  | MGap start base numbits bm => start <= n < base \/ bit_in bm base numbits n
  | MHeartbeat first _ _ _ _ _ => n < first
  end.

(** A message in the queue of proxy [i] is for the reader of proxy [k]. *)
Definition for_reader (k i : nat) (m : WMsg) : Prop :=
  match m with
  | MGap _ _ _ _ => i = k
  | MData _ dest | MHeartbeat _ _ _ _ _ dest => match dest with Some j => j = k | None => True end
  end.

Definition granted (al : list bool) : Prop := Forall (fun b => b = true) al.

Section Messages.
  (** The changes of the writer, and the numbers that a reader may skip. *)
  Context (W : Change_t -> Prop) (E : nat -> Z -> Prop).

Definition msg_ok (i : nat) (m : WMsg) : Prop :=
  (forall cp dest, m = MData cp dest -> W cp) /\ (forall k n, for_reader k i m -> 1 <= n -> skips m n -> E k n).

Record w_ok (w : Writer) : Prop := {
  wo_out : Forall (fun '(i, m) => msg_ok i m) (w_out w);
  wo_min : forall k n, 1 <= n < w_min w -> E k n;
  wo_junk : length (w_junk w) = 8%nat
}.

(** What the steps of a handler do to the writer. *)
Record w_step (w w' : Writer) : Prop := {
  ws_ok : w_ok w -> w_ok w';
  ws_fresh : (w_fresh w <= w_fresh w')%nat;
  ws_min : w_min w' = w_min w;
  ws_max : w_max w' = w_max w;
  ws_alloc : granted (w_allocs w) -> granted (w_allocs w')
}.

#[export] Instance w_step_refl : Reflexive w_step.
Proof. intros w. by split. Qed.

#[export] Instance w_step_trans : Transitive w_step.
Proof. intros w1 w2 w3 [A1 B1 C1 D1 F1] [A2 B2 C2 D2 F2]. split; [by auto|lia|congruence|congruence|by auto]. Qed.

(** A change of the other fields. *)
Lemma w_step_same w w' : w_out w' = w_out w -> w_min w' = w_min w -> w_max w' = w_max w -> w_junk w' = w_junk w -> w_fresh w' = w_fresh w ->
  w_allocs w' = w_allocs w -> w_step w w'.
Proof. intros H1 H2 H3 H4 H5 H6. split; [|lia|done|done|by rewrite H6]. intros [A B C]. split; [by rewrite H1|by rewrite H2|by rewrite H4]. Qed.

Lemma add_msg_step k m push w : msg_ok k m -> w_step w (snd (add_msg k m push w)).
Proof.
  intros Hm. unfold add_msg. destruct (alloc (w_msgs w)) as [ok ms]. cbn [snd].
  destruct ok; [|by apply w_step_same]. assert (Ho : w_ok w -> Forall (fun '(i, m) => msg_ok i m) (w_out w ++ [(k, m)])).
  { intros [A _ _]. apply Forall_app. split; [done|]. by apply Forall_singleton. }
  destruct push; cbn; (split; cbn; [intros Hw; pose proof Hw as [A B C]; split; cbn; by auto|lia|done|done|done]).
Qed.

Lemma add_hb_step k dest final live first last w :
  (forall j n, match dest with Some i => i = j | None => True end -> 1 <= n < first -> E j n) ->
  w_step w (rtps_msg_add_heartbeat k dest final live first last w).
Proof.
  intros HE. unfold rtps_msg_add_heartbeat.
  assert (HS : w_step w (snd (add_msg k (MHeartbeat first last ⟦heartbeats w + 1⟧32 final live dest) true w))).
  { apply add_msg_step. split; [done|]. intros j n Hj Hn Hs. apply HE; [done|]. cbn in Hs. lia. }
  destruct (add_msg _ _ _ _) as [[] w']; [|done]. etrans; [exact HS|]. by apply w_step_same.
Qed.

(** Nothing before the list of changes has to be delivered. *)
Definition quiet (k : nat) (r : RemReader_t) : Prop := rr_changes r <> [] -> forall n, 1 <= n < q_min (rr_changes r) -> E k n.

Lemma hb_each_step alive rs : forall k w, (forall j r, rs !! j = Some r -> quiet (k + j) r) -> w_step w (hb_each alive k rs w).
Proof.
  induction rs as [|r rs IH]; intros k w Hq; cbn [hb_each]; [done|]. etrans; [|apply IH; intros j r' Hj; replace (S k + j)%nat with (k + S j)%nat by lia; by apply (Hq (S j))].
  destruct (hb_wanted alive r && negb (bool_decide (rr_changes r = []))) eqn:Eb; [|done]. apply andb_true_iff in Eb as [_ Hne%negb_true_iff%bool_decide_eq_false].
  apply add_hb_step. intros j n <- Hn. pose proof (Hq 0%nat r eq_refl) as Hr. rewrite Nat.add_0_r in Hr. by apply Hr.
Qed.

Lemma send_heartbeat_step rs alive w : w_ok w -> (forall j r, rs !! j = Some r -> quiet j r) -> w_step w (snd (sfw_send_heartbeat rs alive w)).
Proof.
  intros Hw Hq. unfold sfw_send_heartbeat. set (a := hb_scan _ _ _ _). destruct (negb alive && (nreaders a =? 0)); cbn [snd].
  - unfold sfw_stop_heartbeats. destruct (rh_timer w); [by apply w_step_same|done].
  - destruct (_ || _); [|by apply hb_each_step]. apply add_hb_step. intros j n _ Hn. apply (wo_min _ Hw). destruct (Z.ltb_spec (min_mc a) (w_min w)); lia.
Qed.

Lemma heartbeat_to_step rs w : w_ok w -> (forall j r, rs !! j = Some r -> quiet j r) -> w_step w (sfw_heartbeat_to rs w).
Proof.
  intros Hw Hq. unfold sfw_heartbeat_to. pose proof (send_heartbeat_step rs false w Hw Hq) as HS. destruct (sfw_send_heartbeat rs false w) as [[] w']; [|done].
  cbn [snd] in HS. destruct (backoff w' <? 7); [|done]. etrans; [exact HS|]. by apply w_step_same.
Qed.

End Messages.

(** ** The invariant of a proxy *)

Section Handlers.
  (** For the reader of a proxy: the numbers of the samples for it, those it
      has acknowledged, and those that were removed from the cache. *)
  Context (W : Change_t -> Prop) (R acked gone : nat -> Z -> Prop).

(** What a reader may skip. *)
Definition excused (k : nat) (n : Z) : Prop := R k n -> acked k n \/ gone k n.

(** A node: its sample is one of the writer, and acknowledged in that state. *)
Definition node_ok (k : nat) (x : nat * WRef) : Prop :=
  (forall cp, w_u (snd x) = WData cp -> W (wc_change cp)) /\
  (w_state (snd x) = CS_ACKED -> forall n, is_data n x -> acked k n).

(** The numbers before [hi] are settled: each sample is in the list, was
    acknowledged or removed. *)
Record inv (k fresh : nat) (hi : Z) (r : RemReader_t) : Prop := {
  i_hi : 1 <= hi <= 2 ^ 32;
  i_cov : exists a b, 1 <= a /\ wcov a (rr_changes r) b /\ b <= hi;
  i_ids : ids_ok fresh (rr_changes r);
  i_unsent : forall p, rr_unsent_changes r = Some p -> p ∈ (rr_changes r).*1;
  i_all : forall n, R k n -> n < hi -> acked k n \/ gone k n \/ pend n (rr_changes r);
  i_nodes : Forall (node_ok k) (rr_changes r);
  i_new : 1 <= rr_new_snr r <= hi
}.

(** What a handler needs of the proxy and of the writer. *)
Definition good (k : nat) (hi : Z) (s : St) : Prop := inv k (w_fresh (wr s)) hi (rr s) /\ w_ok W excused (wr s).

Lemma inv_excused k fresh hi r n : inv k fresh hi r -> n < hi -> ~ pend n (rr_changes r) -> excused k n.
Proof. intros Hi Hn Hp HR. destruct (i_all _ _ _ _ Hi n HR Hn) as [?|[?|?]]; auto. done. Qed.

Lemma inv_quiet k fresh hi r : inv k fresh hi r -> quiet excused k r.
Proof.
  intros Hi Hne n Hn. destruct (i_cov _ _ _ _ Hi) as (a & b & Ha & Hc & Hb). pose proof (wcov_nonempty _ _ _ Hc Hne).
  assert (Hq : q_min (rr_changes r) = a) by (destruct (rr_changes r) as [|[p rp] l]; [done|]; by destruct Hc). rewrite Hq in Hn.
  eapply inv_excused; [exact Hi|lia|]. intros Hp%(pend_range _ _ _ _ Hc). lia.
Qed.

(** The part of a proxy that the invariant is about. *)
Definition core (r : RemReader_t) : WList * option nat * Z := (rr_changes r, rr_unsent_changes r, rr_new_snr r).

Lemma inv_core k fresh fresh' hi r r' : inv k fresh hi r -> core r' = core r -> (fresh <= fresh')%nat -> inv k fresh' hi r'.
Proof.
  intros [H1 H2 H3 H4 H5 H6 H7] Hc Hf. unfold core in Hc. injection Hc as E1 E2 E3. split; rewrite ?E1, ?E2, ?E3; try done. by eapply ids_mono.
Qed.

(** A step that leaves the list alone. *)
Definition calm (s s' : St) : Prop := core (rr s') = core (rr s) /\ w_step W excused (wr s) (wr s').

#[export] Instance calm_refl : Reflexive calm.
Proof. intros s. split; [done|reflexivity]. Qed.

#[export] Instance calm_trans : Transitive calm.
Proof. intros s1 s2 s3 [E1 S1] [E2 S2]. split; [congruence|by etrans]. Qed.

Lemma calm_good k hi s s' : calm s s' -> good k hi s -> good k hi s'.
Proof. intros [Ec HS] [Hi Hw]. split; [|by apply (ws_ok _ _ _ _ HS)]. eapply inv_core; [exact Hi|done|apply HS]. Qed.

(** A change of the other fields of the proxy, and of the writer. *)
Lemma calm_rr f s : (forall r, core (f r) = core r) -> calm s (upd_rr f s).
Proof. intros H. split; [apply H|reflexivity]. Qed.

Lemma calm_w f s : w_step W excused (wr s) (f (wr s)) -> calm s (upd_w f s).
Proof. intros H. by split. Qed.

Section Calm.
  Context (push_mode nack_resp_delay : bool) (pre post : list RemReader_t).
  Context (Hpre : forall j r, pre !! j = Some r -> quiet excused j r).
  Context (Hpost : forall j r, post !! j = Some r -> quiet excused (S (length pre + j)) r).

Abbreviation k := (self pre).

Lemma quiet_all hi s : good k hi s -> forall j r, (pre ++ rr s :: post) !! j = Some r -> quiet excused j r.
Proof.
  intros [Hi _] j r Hj. apply lookup_app_Some in Hj as [Hj|[Hle Hj]]; [by apply Hpre|]. remember (j - length pre)%nat as i eqn:Ei.
  destruct i as [|i]; cbn in Hj; [injection Hj as <-; replace j with k by (unfold self; lia); by eapply inv_quiet|].
  replace j with (S (length pre + i)) by lia. by apply Hpost.
Qed.

Lemma send_heartbeat_calm hi s : good k hi s -> calm s (send_heartbeat pre post s).
Proof.
  intros Hg. split; [done|]. unfold send_heartbeat. cbn [wr]. pose proof Hg as [_ Hw]. apply send_heartbeat_step; [done|]. by apply (quiet_all hi).
Qed.

Lemma alloc_tmr_step w : w_step W excused w (snd (alloc_tmr w)).
Proof. unfold alloc_tmr. destruct (alloc (w_tmrs w)). by apply w_step_same. Qed.

Lemma announce_calm hi urgent s : good k hi s -> calm s (sfw_announce pre post urgent s).
Proof.
  intros Hg. unfold sfw_announce. set (s1 := upd_rr (rr_transmit RRTS_ANNOUNCING) s). assert (H1 : calm s s1) by by apply calm_rr.
  pose proof (alloc_tmr_step (wr s1)) as HA. destruct (alloc_tmr (wr s1)) as [ok w]. cbn [snd] in HA.
  assert (Hhb : forall s', calm s s' -> calm s (send_heartbeat pre post s')).
  { intros s' Hs'. etrans; [exact Hs'|]. eapply send_heartbeat_calm. by eapply calm_good. }
  assert (H2 : calm s (mkSt (rr s1) w)) by (etrans; [exact H1|]; by split).
  destruct (rh_timer (wr s1)); [destruct urgent; auto|]. destruct ok; [|by auto].
  assert (H3 : calm s (mkSt (rr s1) (w_timer true w))) by (etrans; [exact H2|]; split; [done|by apply w_step_same]). destruct urgent; auto.
Qed.

Lemma activate_calm s : calm s (if rr_active pre s then s else upd_w (proxy_activate k) s).
Proof. destruct (rr_active pre s); [reflexivity|]. apply calm_w. by apply w_step_same. Qed.

Lemma push_calm hi s : good k hi s -> calm s (push_or_announce push_mode pre post s).
Proof.
  intros Hg. unfold push_or_announce. destruct push_mode; [|by eapply announce_calm]. etrans; [|apply activate_calm]. by apply calm_rr.
Qed.

Lemma send_alive_calm hi s : good k hi s -> calm s (sfw_rel_send_alive push_mode pre post s).
Proof.
  intros Hg. pose proof Hg as [_ Hw]. unfold sfw_rel_send_alive.
  assert (Hhb : forall final live last, calm s (upd_w (rtps_msg_add_heartbeat k (Some k) final live (w_min (wr s)) last) s)).
  { intros. apply calm_w, add_hb_step. intros j n _ Hn. by apply (wo_min _ _ _ Hw). }
  destruct (w_max (wr s) <? w_min (wr s)); [apply Hhb|]. destruct (rr_unsent_changes (rr s)); [by eapply push_calm|].
  destruct (_ && _); [|apply Hhb]. etrans; [apply (Hhb false false (w_max (wr s)))|]. apply calm_w. by apply w_step_same.
Qed.

Lemma nack_resp_calm s : calm s (sfw_rel_nack_resp_to pre s).
Proof.
  unfold sfw_rel_nack_resp_to. set (s1 := upd_rr _ s). assert (H1 : calm s s1) by by apply calm_rr. destruct (rr_requested_changes (rr s1)); [|done].
  etrans; [exact H1|]. apply calm_w. by apply w_step_same.
Qed.

Lemma all_acked_calm s : calm s (sfw_rel_all_acked pre post s).
Proof.
  unfold sfw_rel_all_acked. set (s1 := upd_rr _ s). assert (H1 : calm s s1) by by apply calm_rr. destruct (existsb _ _); [done|].
  etrans; [exact H1|]. apply calm_w. unfold sfw_stop_heartbeats. destruct (rh_timer _); [by apply w_step_same|reflexivity].
Qed.

Lemma must_repair_calm s : calm s (must_repair nack_resp_delay pre s).
Proof.
  unfold must_repair. destruct (rr_requested_changes (rr s)); [|reflexivity]. destruct (decide _); [reflexivity|].
  set (s1 := upd_rr _ s). assert (H1 : calm s s1) by by apply calm_rr. etrans; [exact H1|]. destruct nack_resp_delay; [|apply nack_resp_calm].
  destruct (rr_nack_timer (rr s1)); [by apply calm_rr|]. pose proof (alloc_tmr_step (wr s1)) as HA. destruct (alloc_tmr (wr s1)) as [ok w].
  assert (H2 : calm s1 (mkSt (rr s1) w)) by by split. etrans; [exact H2|]. destruct ok; [by apply calm_rr|apply nack_resp_calm].
Qed.

Lemma start_sending_calm hi s : good k hi s -> calm s (start_sending push_mode pre post s).
Proof.
  intros Hg. unfold start_sending. destruct (rr_unsent_changes (rr s)); [|reflexivity]. pose proof (alloc_tmr_step (wr s)) as HA.
  destruct (alloc_tmr (wr s)) as [ok w]. assert (H1 : forall t, calm s (mkSt (rr_timer t (rr s)) w)) by by split. destruct ok; [apply H1|].
  etrans; [apply (H1 None)|]. eapply push_calm. eapply calm_good; [apply (H1 None)|done].
Qed.

End Calm.

(** ** New samples *)

(** The list grows, and some of its ranges may change. *)
Lemma inv_extend k fresh hi r fresh' hi' l' : inv k fresh hi r -> hi <= hi' <= 2 ^ 32 ->
  (exists a b, 1 <= a /\ wcov a l' b /\ b <= hi') -> ids_ok fresh' l' -> (forall p, p ∈ (rr_changes r).*1 -> p ∈ l'.*1) ->
  (forall n, pend n (rr_changes r) -> pend n l') -> Forall (node_ok k) l' -> (forall n, hi <= n < hi' -> excused k n \/ pend n l') ->
  inv k fresh' hi' (rr_list l' r).
Proof.
  intros [H1 H2 H3 H4 H5 H6 H7] Hhi Hc Hids Hsub Hp Hn Hnew. split; cbn; try done; [lia|by auto| |lia].
  intros n HR Hlt. destruct (decide (n < hi)) as [Hl|Hl]; [destruct (H5 n HR Hl) as [?|[?|?]]; auto|]. destruct (Hnew n ltac:(lia)) as [HE|?]; [destruct (HE HR)|]; auto.
Qed.

Lemma alloc_ref_granted w : granted (w_allocs w) -> exists w', alloc_ref w = (Some (w_fresh w), w') /\ w_step W excused w w' /\ w_fresh w' = S (w_fresh w) /\ c_wack w' = c_wack w.
Proof.
  intros Hg. unfold alloc_ref, alloc. destruct (w_allocs w) as [|b al] eqn:E.
  - eexists. split; [done|]. split; [|done]. split; cbn; [by intros [A B C]; split|lia|done|done|done].
  - apply Forall_cons in Hg as [-> Hg]. eexists. split; [done|]. split; [|done]. split; cbn; [by intros [A B C]; split|lia|done|done|done].
Qed.

Lemma wack_step id n w : w_step W excused w (w_wack id n w).
Proof. by apply w_step_same. Qed.

Lemma change_enqueue_ok cp st s : granted (w_allocs (wr s)) -> let q := w_fresh (wr s) in
  exists w', change_enqueue cp st s = (Some q, mkSt (rr_list (rr_changes (rr s) ++ [(q, mkWRef st false (WData cp))]) (rr s)) w') /\
    w_step W excused (wr s) w' /\ w_fresh w' = S q.
Proof.
  intros Hg q. unfold change_enqueue. destruct (alloc_ref_granted _ Hg) as (w' & -> & HS & Hf & _). eexists. split; [done|].
  split; [etrans; [exact HS|apply wack_step]|done].
Qed.

Lemma change_enqueue_gap_ok first last st s : granted (w_allocs (wr s)) ->
  match list.last (rr_changes (rr s)) with Some (_, mkWRef xst _ (WRange _ _)) => xst <> st | _ => True end -> let q := w_fresh (wr s) in
  exists w', change_enqueue_gap first last st s = (Some q, mkSt (rr_list (rr_changes (rr s) ++ [(q, mkWRef st false (WRange first last))]) (rr s)) w') /\
    w_step W excused (wr s) w' /\ w_fresh w' = S q.
Proof.
  intros Hg Hlast q. unfold change_enqueue_gap. destruct (alloc_ref_granted _ Hg) as (w' & -> & HS & Hf & _).
  destruct (list.last (rr_changes (rr s))) as [[p [xst ack [cp|xf xl]]]|]; try (by exists w'). rewrite decide_False by done. by exists w'.
Qed.

(** A sample, or a range, is appended. *)
Lemma inv_wdata k fresh hi r cp st : inv k fresh hi r -> let n := c_seqnr (wc_change cp) in
  (rr_changes r <> [] -> exists a, 1 <= a /\ wcov a (rr_changes r) n) -> hi <= n < 2 ^ 32 -> (forall m, hi <= m < n -> excused k m) -> W (wc_change cp) -> st <> CS_ACKED ->
  inv k (S fresh) (n + 1) (rr_list (rr_changes r ++ [(fresh, mkWRef st false (WData cp))]) r).
Proof.
  intros Hi n Hc Hn HR HW Hst. pose proof (i_hi _ _ _ _ Hi). eapply inv_extend; [exact Hi|lia|..].
  - destruct (rr_changes r) as [|x l] eqn:El; [exists n, (n + 1); cbn; lia|]. destruct Hc as (a & Ha & Hc); [done|]. exists a, (n + 1). split; [done|]. split; [|lia].
    apply wcov_snoc. cbn. split_and!; [done|lia|done].
  - apply ids_snoc, Hi.
  - intros p Hp. rewrite fmap_app. apply elem_of_app. by left.
  - intros m Hm. apply pend_app. by left.
  - apply Forall_app. split; [apply Hi|]. apply Forall_singleton. split; [by intros ? [= <-]|done].
  - intros m Hm. destruct (decide (m < n)); [left; apply HR; lia|]. right. apply pend_app. right. constructor. exists cp. split; [done|lia].
Qed.

Lemma inv_range k fresh hi r first last st hi' : inv k fresh hi r ->
  (rr_changes r <> [] -> exists a, 1 <= a /\ wcov a (rr_changes r) first) -> 1 <= first <= last -> hi <= hi' -> last < hi' <= 2 ^ 32 -> (forall m, hi <= m < hi' -> excused k m) ->
  inv k (S fresh) hi' (rr_list (rr_changes r ++ [(fresh, mkWRef st false (WRange first last))]) r).
Proof.
  intros Hi Hc Hn Hle Hhi HR. eapply inv_extend; [exact Hi|lia|..].
  - destruct (rr_changes r) as [|x l] eqn:El; [exists first, (last + 1); cbn; lia|]. destruct Hc as (a & Ha & Hc); [done|]. exists a, (last + 1). split; [done|]. split; [|lia].
    apply wcov_snoc. cbn. split_and!; [done|lia|done].
  - apply ids_snoc, Hi.
  - intros p Hp. rewrite fmap_app. apply elem_of_app. by left.
  - intros m Hm. apply pend_app. by left.
  - apply Forall_app. split; [apply Hi|]. apply Forall_singleton. split; [done|]. intros _ m (cp & Ecp & _). done.
  - intros m Hm. left. by apply HR.
Qed.

(** The last range is made longer. *)
Lemma inv_stretch k fresh hi r l p st ack first last st' last' hi' : inv k fresh hi r -> rr_changes r = l ++ [(p, mkWRef st ack (WRange first last))] ->
  first <= last' < hi' -> hi <= hi' <= 2 ^ 32 -> (forall m, hi <= m < hi' -> excused k m) ->
  inv k fresh hi' (rr_list (l ++ [(p, mkWRef st' ack (WRange first last'))]) r).
Proof.
  intros Hi El Hl Hhi HR. destruct (i_cov _ _ _ _ Hi) as (a & b & Ha & Hc & Hb). pose proof (i_ids _ _ _ _ Hi) as Hids. pose proof (i_nodes _ _ _ _ Hi) as Hn. rewrite El in Hc, Hids, Hn.
  apply wcov_snoc in Hc as (Hc & Hle & _). cbn in Hc, Hle. eapply inv_extend; [exact Hi|lia|..].
  - exists a, (last' + 1). split; [done|]. split; [|lia]. apply wcov_snoc. cbn. split_and!; [done|lia|done].
  - unfold ids_ok in *. by rewrite fmap_app in *.
  - intros q. by rewrite El, !fmap_app.
  - intros m. rewrite El, !pend_app. intros [?|Hx]; [by left|]. apply Exists_cons in Hx as [(cp & Ecp & _)|Hx]; [done|by apply pend_nil in Hx].
  - apply Forall_app in Hn as [Hn _]. apply Forall_app. split; [done|]. apply Forall_singleton. split; [done|]. by intros _ m (cp & Ecp & _).
  - intros m Hm. left. by apply HR.
Qed.

(** A number that may be added next; [cp] is its sample. *)
Definition next_ok (k : nat) (hi : Z) (cp : option WChange) (snr : Z) : Prop :=
  hi <= snr < 2 ^ 32 /\ (forall m, hi <= m < snr -> excused k m) /\
  match cp with Some c => c_seqnr (wc_change c) = snr /\ W (wc_change c) | None => excused k snr end.

Lemma next_skip k hi snr : next_ok k hi None snr -> forall m, hi <= m < snr + 1 -> excused k m.
Proof. intros (_ & H1 & H2) m Hm. destruct (decide (m = snr)) as [->|]; [done|]. apply H1. lia. Qed.

(** The result of a step that may append a node. *)
Definition appended (k : nat) (hi : Z) (s : St) (x : option nat * St) : Prop :=
  inv k (w_fresh (wr (snd x))) hi (rr (snd x)) /\ w_step W excused (wr s) (wr (snd x)) /\
  (forall p, fst x = Some p -> p ∈ (rr_changes (rr (snd x))).*1).

Lemma appended_data k hi s s' cp snr st : inv k (w_fresh (wr s')) hi (rr s') -> w_step W excused (wr s) (wr s') -> granted (w_allocs (wr s')) ->
  next_ok k hi (Some cp) snr -> st <> CS_ACKED -> (rr_changes (rr s') <> [] -> exists a, 1 <= a /\ wcov a (rr_changes (rr s')) snr) ->
  appended k (snr + 1) s (change_enqueue cp st s').
Proof.
  intros Hi HS Hg (Hn & HR & <- & HW) Hst Hc. destruct (change_enqueue_ok cp st s' Hg) as (w' & -> & HS' & Hf). split; cbn [fst snd rr wr].
  - rewrite Hf. by apply (inv_wdata k _ hi).
  - split; [by etrans|]. intros p [= <-]. cbn. rewrite fmap_app. apply elem_of_app. right. by left.
Qed.

Lemma appended_range k hi s first last st hi' : good k hi s -> granted (w_allocs (wr s)) ->
  (rr_changes (rr s) <> [] -> exists a, 1 <= a /\ wcov a (rr_changes (rr s)) first) -> 1 <= first <= last -> hi <= hi' -> last < hi' <= 2 ^ 32 -> (forall m, hi <= m < hi' -> excused k m) ->
  match list.last (rr_changes (rr s)) with Some (_, mkWRef xst _ (WRange _ _)) => xst <> st | _ => True end ->
  appended k hi' s (change_enqueue_gap first last st s) /\ (change_enqueue_gap first last st s).1 <> None /\
  wcov first (drop (length (rr_changes (rr s))) (rr_changes (rr (change_enqueue_gap first last st s).2))) (last + 1) /\
  (exists x, rr_changes (rr (change_enqueue_gap first last st s).2) = rr_changes (rr s) ++ [x]).
Proof.
  intros [Hi _] Hg Hc Hn Hle Hhi HR Hl. destruct (change_enqueue_gap_ok first last st s Hg Hl) as (w' & -> & HS & Hf). cbn [fst snd rr wr rr_changes rr_list].
  rewrite drop_app_length. split_and!; [|done|cbn; lia|by eexists]. split; cbn [fst snd rr wr].
  - rewrite Hf. by apply (inv_range k _ hi).
  - split; [done|]. intros p [= <-]. cbn. rewrite fmap_app. apply elem_of_app. right. by left.
Qed.

Lemma new_change_list_ok k hi s cp snr st : good k hi s -> granted (w_allocs (wr s)) -> next_ok k hi cp snr -> st <> CS_ACKED ->
  appended k (snr + 1) s (new_change_list cp snr st s).
Proof.
  intros Hg Hal Hnx Hst. pose proof Hg as [Hi _]. pose proof (i_hi _ _ _ _ Hi) as Hhi. destruct (i_cov _ _ _ _ Hi) as (a & b & Ha & Hc & Hb). pose proof Hnx as (Hsnr & HR & Hcp).
  unfold new_change_list. destruct (list.last (rr_changes (rr s))) as [[p rp]|] eqn:El.
  2:{ apply last_None in El. destruct cp as [cp|]; [apply (appended_data k hi); try done; by rewrite El|].
      apply (appended_range k hi); [done|done|by rewrite El|lia|lia|lia|by apply next_skip|by rewrite El]. }
  apply last_Some in El as [l El]. rewrite El in Hc. apply wcov_snoc in Hc as (Hc & Hle & ->). destruct rp as [xst ack [tcp|xf xl]]; cbn [w_first w_last w_u] in *.
  - set (f := c_seqnr (wc_change tcp) + 1) in *. assert (Hcf : exists a0, 1 <= a0 /\ wcov a0 (rr_changes (rr s)) f).
    { exists a. split; [done|]. rewrite El. apply wcov_snoc. by cbn. }
    pose proof (wcov_le _ _ _ Hc). assert (Hlast : forall st', match list.last (rr_changes (rr s)) with Some (_, mkWRef xst _ (WRange _ _)) => xst <> st' | _ => True end) by (by rewrite El, last_snoc).
    destruct cp as [cp|]; cbn [bool_decide].
    + rewrite orb_false_r. destruct (Z.eqb_spec f snr) as [Ef|Hne]; cbn [negb].
      * apply (appended_data k hi); [done|reflexivity|done|done|done|]. intros _. by rewrite <- Ef.
      * destruct (appended_range k hi s f (snr - 1) st snr) as ((Hi1 & HS1 & Hp1) & Hsome & Hc1 & (x & Ex)); [done|done|by intros _|lia|lia|lia|done|apply Hlast|].
        destruct (change_enqueue_gap f (snr - 1) st s) as [rp1 s1]. cbn [fst snd] in *. rewrite bool_decide_true by done. cbn [negb].
        apply (appended_data k snr); [done|done|by apply (ws_alloc _ _ _ _ HS1)| |done|].
        { destruct Hcp as [Ec HW]. unfold next_ok. split_and!; [lia|lia| |done|done]. intros m Hm. lia. }
        intros _. destruct Hcf as (a0 & Ha0 & Hcf). exists a0. split; [done|]. rewrite Ex, drop_app_length in Hc1. rewrite Ex. apply wcov_app. exists f. split; [done|].
        replace snr with (snr - 1 + 1) by lia. done.
    + rewrite orb_true_r. destruct (appended_range k hi s f snr st (snr + 1)) as (HA & Hsome & _); [done|done|by intros _|lia|lia|lia|by apply next_skip|apply Hlast|].
      destruct (change_enqueue_gap f snr st s) as [rp1 s1]. cbn [fst snd] in *. rewrite bool_decide_true by done. cbn [negb]. done.
  - rewrite El, removelast_last. destruct cp as [cp|].
    + assert (Hi1 : inv k (w_fresh (wr s)) snr (rr_list (l ++ [(p, mkWRef xst ack (WRange xf (snr - 1)))]) (rr s))).
      { eapply inv_stretch; [exact Hi|exact El|lia|lia|]. intros m Hm. apply HR. lia. }
      apply (appended_data k snr); [exact Hi1|by apply w_step_same|done| |done|].
      { destruct Hcp as [Ec HW]. unfold next_ok. split_and!; [lia|lia| |done|done]. intros m Hm. lia. }
      intros _. exists a. split; [done|]. cbn. apply wcov_snoc. cbn. split_and!; [done|lia|lia].
    + split; cbn [fst snd]; [|split; [by apply w_step_same|done]]. eapply inv_stretch; [exact Hi|exact El|lia|lia|by apply next_skip].
Qed.

(** Nodes change their states only. *)
Lemma inv_nodes k fresh hi r l' : inv k fresh hi r -> same_nodes (rr_changes r) l' -> Forall (node_ok k) l' -> inv k fresh hi (rr_list l' r).
Proof.
  intros [H1 (a & b & Ha & Hc & Hb) H3 H4 H5 H6 H7] Hs Hn. split; cbn; try done.
  - exists a, b. split; [done|]. split; [by eapply same_wcov|done].
  - unfold ids_ok. by rewrite <- (same_ids _ _ Hs).
  - rewrite <- (same_ids _ _ Hs). done.
  - intros n HR Hlt. rewrite <- (same_pend _ _ n Hs). by apply H5.
Qed.

Lemma node_ok_state k p rp f : node_ok k (p, rp) -> w_u (f rp) = w_u rp -> (w_state (f rp) = CS_ACKED -> w_state rp = CS_ACKED) -> node_ok k (p, f rp).
Proof. intros [H1 H2] Hu Hst. split; cbn; [by rewrite Hu|]. intros Hs n (cp & E & Hn). cbn in E. rewrite Hu in E. apply H2; [by apply Hst|]. by exists cp. Qed.

Lemma same_mid l1 l2 p rp rp' : w_u rp' = w_u rp -> same_nodes (l1 ++ (p, rp) :: l2) (l1 ++ (p, rp') :: l2).
Proof. intros Hu. unfold same_nodes. rewrite !fmap_app. f_equal. cbn. f_equal. unfold node_of. cbn. by rewrite Hu. Qed.

Lemma inv_set k fresh hi r p f : inv k fresh hi r -> p ∈ (rr_changes r).*1 -> (forall rp, w_u (f rp) = w_u rp) ->
  (forall rp, w_state (f rp) = CS_ACKED -> w_state rp = CS_ACKED) -> exists l', ref_set p f (rr_changes r) = Some l' /\ inv k fresh hi (rr_list l' r) /\ (rr_changes r).*1 = l'.*1.
Proof.
  intros Hi (l1 & rp & l2 & El)%ids_in Hu Hst. pose proof (i_ids _ _ _ _ Hi) as Hids. pose proof (i_nodes _ _ _ _ Hi) as Hn. rewrite El in *.
  destruct (ids_split _ _ _ _ _ Hids) as (Hp & _). exists (l1 ++ (p, f rp) :: l2). split; [by apply ref_set_app|].
  assert (HS : same_nodes (l1 ++ (p, rp) :: l2) (l1 ++ (p, f rp) :: l2)) by by apply same_mid. split; [|by apply same_ids].
  apply inv_nodes; [done|by rewrite El|]. apply Forall_app in Hn as [Hn1 [Hn2 Hn3]%Forall_cons]. apply Forall_app. split; [done|]. constructor; [|done]. apply node_ok_state; [done|apply Hu|apply Hst].
Qed.

Lemma inv_point k fresh hi r p : inv k fresh hi r -> (forall q, p = Some q -> q ∈ (rr_changes r).*1) -> inv k fresh hi (rr_unsent p r).
Proof. intros [H1 H2 H3 H4 H5 H6 H7] Hp. by split. Qed.

Section NewChange.
  Context (push_mode : bool) (pre post : list RemReader_t).
  Context (Hpre : forall j r, pre !! j = Some r -> quiet excused j r).
  Context (Hpost : forall j r, post !! j = Some r -> quiet excused (S (length pre + j)) r).

Abbreviation k := (self pre).

Lemma new_change_ok hi s cp snr : good k hi s -> granted (w_allocs (wr s)) -> next_ok k hi cp snr ->
  exists b s', sfw_rel_new_change push_mode pre post cp snr s = Some (b, s') /\ good k (snr + 1) s' /\ w_step W excused (wr s) (wr s').
Proof.
  intros Hg Hal Hnx. pose proof Hg as [_ Hw]. unfold sfw_rel_new_change. set (st := if push_mode then CS_UNSENT else CS_UNACKED).
  assert (Hst : st <> CS_ACKED) by (by unfold st; destruct push_mode). destruct (new_change_list_ok k hi s cp snr st Hg Hal Hnx Hst) as (Hi1 & HS1 & Hp1).
  destruct (new_change_list cp snr st s) as [rp s1]. cbn [fst snd] in *. assert (Hw1 : w_ok W excused (wr s1)) by by apply (ws_ok _ _ _ _ HS1).
  destruct rp as [p|]; [|by exists false, s1]. specialize (Hp1 p eq_refl).
  assert (Hack : exists s2, match cp with
      | None => Some s1
      | Some _ => l ← ref_set p w_set_ack (rr_changes (rr s1)); Some (upd_rr (fun r => rr_count (rr_unacked r + 1) (rr_list l r)) s1)
      end = Some s2 /\ good k (snr + 1) s2 /\ wr s2 = wr s1 /\ p ∈ (rr_changes (rr s2)).*1).
  { destruct cp; [|by exists s1]. destruct (inv_set k _ _ _ p w_set_ack Hi1 Hp1) as (l' & -> & Hi2 & Hids); [done|done|]. eexists. split; [done|]. split_and!; [|done|by cbn; rewrite <- Hids].
    split; [|done]. eapply inv_core; [exact Hi2|done|done]. }
  destruct Hack as (s2 & -> & [Hi2 Hw2] & Ew & Hp2). cbn [mbind option_bind]. eexists true, _. split; [done|].
  set (s3 := match rr_unsent_changes (rr s2) with None => _ | Some _ => _ end).
  assert (Hg3 : good k (snr + 1) s3 /\ wr s3 = wr s1).
  { unfold s3. destruct (rr_unsent_changes (rr s2)); [by split|]. split; [|done]. split; [|done]. apply inv_point; [done|]. by intros q [= <-]. }
  destruct Hg3 as [Hg3 Ew3]. match goal with |- good _ _ ?s4 /\ _ => assert (H4 : calm s3 s4) end.
  { destruct (_ && _); [etrans; [|apply activate_calm]; by apply calm_rr|]. destruct (rh_timer (wr s3)); [reflexivity|]. by eapply announce_calm. }
  split; [by eapply calm_good|]. destruct H4 as [_ H4]. etrans; [exact HS1|]. rewrite <- Ew3. exact H4.
Qed.

(** The contents of the cache that are replayed. *)
Fixpoint replay_ok (hi : Z) (changes : list (Z * option WChange)) : Prop :=
  match changes with [] => True | (snr, cp) :: changes => next_ok k hi cp snr /\ replay_ok (snr + 1) changes end.

Fixpoint replay_hi (hi : Z) (changes : list (Z * option WChange)) : Z :=
  match changes with [] => hi | (snr, _) :: changes => replay_hi (snr + 1) changes end.

Lemma replay_step changes : forall hi s, good k hi s -> granted (w_allocs (wr s)) -> replay_ok hi changes ->
  exists s', hc_replay push_mode pre post changes s = Some s' /\ good k (replay_hi hi changes) s' /\ w_step W excused (wr s) (wr s').
Proof.
  induction changes as [|[snr cp] changes IH]; intros hi s Hg Hal Hr; cbn [hc_replay]; [exists s; split_and!; [done|done|reflexivity]|].
  destruct Hr as [Hnx Hr]. destruct (new_change_ok hi s cp snr Hg Hal Hnx) as (b & s1 & -> & Hg1 & HS1). cbn [mbind option_bind].
  destruct (IH _ s1 Hg1) as (s' & E' & Hg' & HS'); [by apply (ws_alloc _ _ _ _ HS1)|done|]. exists s'. split_and!; [done|done|by etrans].
Qed.

End NewChange.

End Handlers.
