(* ===== verification/SfrwSend.v ===== *)
(** Sending: [sfw_rel_send_data] returns, sends samples of the list only, and
    its GAP messages contain numbers of ranges only. *)

From stdpp Require Import gmap.
From S2P Require Import Prelude Seqnr Clist Sfrr SfrrProps Sfrw SfrwProps.
From stdpp Require Import list.

#[local] Open Scope Z_scope.

(** ** Sets *)

Lemma SET_ADD_some (bm : list Z) i : length bm = 8%nat -> 0 <= i < 256 -> exists bm', SET_ADD bm i = Some bm' /\ length bm' = 8%nat.
Proof. intros Hl Hi. destruct (set_add_some bm i) as (bm' & E & Hb); [unfold zlen; lia|done|]. exists bm'. split; [done|]. unfold zlen in Hb. lia. Qed.

Lemma gap_fill_ok k : forall delta bm, 0 <= delta -> delta + Z.of_nat k <= 255 -> length bm = 8%nat ->
  exists bm', gap_fill k delta bm = Some bm' /\ length bm' = 8%nat /\
    forall i, SET_CONTAINS bm' i = Some true -> SET_CONTAINS bm i = Some true \/ delta <= i <= delta + Z.of_nat k.
Proof.
  induction k as [|k IH]; intros delta bm Hd Hk Hl.
  all: destruct (SET_ADD_some bm delta Hl ltac:(lia)) as (bm1 & E1 & Hl1); cbn [gap_fill]; rewrite E1; cbn [mbind option_bind].
  - exists bm1. split_and!; [done|lia|]. intros i. rewrite (set_add_contains _ _ _ i E1). destruct (Z.eqb_spec i delta); [lia|by left].
  - destruct (IH (delta + 1) bm1) as (bm' & E' & Hl' & HC); [lia|lia|lia|]. exists bm'. split_and!; [done|done|].
    intros i Hi. apply HC in Hi as [Hi|Hi]; [|lia]. rewrite (set_add_contains _ _ _ i E1) in Hi. destruct (Z.eqb_spec i delta); [lia|by left].
Qed.

Lemma contains_take m bm i : SET_CONTAINS (take m bm) i = Some true -> SET_CONTAINS bm i = Some true.
Proof.
  unfold SET_CONTAINS, zget. destruct (Z.shiftr i 5 <? 0); [done|]. destruct (take m bm !! Z.to_nat (Z.shiftr i 5)) as [w|] eqn:E; [|done].
  apply lookup_take_Some in E as [E _]. by rewrite E.
Qed.

Lemma contains_zeros i : SET_CONTAINS (replicate 8 0) i <> Some true.
Proof.
  unfold SET_CONTAINS, zget. destruct (Z.shiftr i 5 <? 0); [done|]. destruct (replicate 8 0 !! Z.to_nat (Z.shiftr i 5)) as [w|] eqn:E; [|done].
  apply lookup_replicate in E as [-> _]. done.
Qed.

(** ** Requested nodes *)

Definition not_requested (x : nat * WRef) : Prop := w_state (snd x) <> CS_REQUESTED.

Lemma first_requested_some l p : first_requested l = Some p -> exists l1 rp l2, l = l1 ++ (p, rp) :: l2 /\ Forall not_requested l1 /\ w_state rp = CS_REQUESTED.
Proof.
  induction l as [|[q rq] l IH]; cbn [first_requested]; [done|]. destruct (decide _) as [E|E]; [intros [= <-]; by exists [], rq, l|].
  intros (l1 & rp & l2 & -> & Hl1 & Hs)%IH. exists ((q, rq) :: l1), rp, l2. split_and!; [done|by constructor|done].
Qed.

Lemma first_requested_none l : first_requested l = None -> Forall not_requested l.
Proof. induction l as [|[q rq] l IH]; cbn [first_requested]; [done|]. destruct (decide _); [done|]. intros H. constructor; [done|auto]. Qed.

Lemma first_requested_skip l1 l2 : Forall not_requested l1 -> first_requested (l1 ++ l2) = first_requested l2.
Proof. induction 1 as [|[q rq] l1 Hq _ IH]; [done|]. cbn [app first_requested]. by rewrite decide_False. Qed.

Section Sending.
  Context (W : Change_t -> Prop) (R acked gone : nat -> Z -> Prop).
  Context (pre post : list RemReader_t).
  Context (Hpre : forall j r, pre !! j = Some r -> quiet (excused R acked gone) j r).
  Context (Hpost : forall j r, post !! j = Some r -> quiet (excused R acked gone) (S (length pre + j)) r).

Abbreviation k := (self pre).
Abbreviation exc := (excused R acked gone).
Abbreviation good := (good W R acked gone k).
Abbreviation step := (w_step W exc).

(** ** The GAP in preparation *)

(** Its numbers may be skipped; they are before [c] or behind its base. *)
Definition gap_ok (c : Z) (g : GapAcc) : Prop :=
  1 <= g_base g <= c /\ length (g_map g) = 8%nat /\ (forall n, 1 <= n -> g_start g <= n < g_base g -> exc k n) /\
  (forall i, SET_CONTAINS (g_map g) i = Some true -> exc k (g_base g + i)).

Definition gapo (c : Z) (g : option GapAcc) : Prop := match g with Some g => gap_ok c g | None => True end.

Lemma gapo_mono c c' g : gapo c g -> c <= c' -> gapo c' g.
Proof. destruct g as [g|]; [|done]. intros ((H1 & H2) & H) Hc. split; [lia|done]. Qed.

Lemma gap_msg c g : gap_ok c g -> msg_ok W exc k (MGap (g_start g) (g_base g) (g_bits g) (take (Z.to_nat (Z.shiftr (g_bits g + 31) 5)) (g_map g))).
Proof.
  intros (H1 & H2 & H3 & H4). split; [done|]. cbn. intros j n <- Hn [Hs|(i & Hi & -> & Hc)]; [by apply H3|]. eapply H4, contains_take, Hc.
Qed.

Lemma gap_send_step c g push w : gap_ok c g -> step w (snd (rtps_msg_add_gap k (g_start g) (g_base g) (g_bits g) (g_map g) push w)).
Proof. intros Hg. apply add_msg_step. by eapply gap_msg. Qed.

Lemma gap_flush_calm c g push s : gapo c g -> calm W R acked gone s (gap_flush pre g push s).
Proof. intros Hg. destruct g as [g|]; [|by split]. apply calm_w. by eapply gap_send_step. Qed.

Lemma gap_new first last : 1 <= first <= last -> (forall n, first <= n <= last -> exc k n) -> gap_ok (last + 1) (mkGap first (last + 1) 0 (replicate 8 0)).
Proof.
  intros Hf HE. split_and!; cbn; [lia|lia|done| |].
  - intros n _ Hn. apply HE. lia.
  - intros i Hi. by apply contains_zeros in Hi.
Qed.

Lemma gap_add_ok c first last g s : 1 <= c -> c <= first <= last -> last < 2 ^ 32 -> (forall n, first <= n <= last -> exc k n) -> gapo c g ->
  exists ok g' s', gap_add pre first last g s = Some (ok, g', s') /\ rr s' = rr s /\ step (wr s) (wr s') /\ gap_ok (last + 1) g'.
Proof.
  intros Hc Hf Hl HE Hg. pose proof (gap_new first last ltac:(lia) HE) as Hnew. unfold gap_add. destruct g as [g|]; [|eexists _, _, s; split_and!; [done..|reflexivity|done]].
  pose proof Hg as ((H1 & H1') & H2 & H3 & H4). rewrite !seqnr_delta_small by lia. destruct (Z.leb_spec (last - g_base g) 255).
  - destruct (Z.ltb_spec last first); [lia|]. destruct (gap_fill_ok (Z.to_nat (last - first)) (first - g_base g) (g_map g)) as (bm & -> & Hb & HC); [lia|lia|done|].
    cbn [mbind option_bind]. eexists _, _, s. split_and!; [done..|reflexivity|]. split_and!; cbn; [lia|lia|done|done|].
    intros i [Hi|Hi]%HC; [by apply H4|]. apply HE. lia.
  - pose proof (gap_send_step c g (rh_timer (wr s)) (wr s) Hg) as HS. destruct (rtps_msg_add_gap _ _ _ _ _ _ _) as [ok w]. eexists _, _, _. by split_and!.
Qed.

(** ** One node *)

Lemma send_sample_ok cp last s : W (wc_change cp) ->
  exists ok urg s', send_sample pre cp last s = (ok, urg, s') /\ rr s' = rr s /\ step (wr s) (wr s').
Proof.
  intros HW. unfold send_sample. destruct (wack (wr s) cp =? 0); [eexists _, _, s; split_and!; [done..|reflexivity]|].
  set (dest := if wc_no_mcast cp then _ else _). pose proof (add_msg_step W exc k (MData (wc_change cp) dest) (last && rh_timer (wr s)) (wr s)) as HS.
  destruct (add_msg _ _ _ _) as [ok w]. eexists _, _, _. split_and!; [done..|]. cbn [snd wr] in *. etrans; [apply HS|apply wack_step].
  split; [by intros ? ? [= <- <-]|by cbn].
Qed.

Lemma send_ref_ok hi c p rp last g s : good hi s -> (p, rp) ∈ rr_changes (rr s) -> 1 <= c <= w_first rp -> gapo c g ->
  exists ok urg g' s', send_ref pre rp last g s = Some (ok, urg, g', s') /\ rr s' = rr s /\ step (wr s) (wr s') /\ gapo (w_last rp + 1) g'.
Proof.
  intros [Hi Hw] Hin Hc Hg. destruct (i_cov _ _ _ _ _ _ _ _ Hi) as (a & b & Ha & Hcov & Hb). pose proof (wcov_in _ _ _ _ _ Hcov Hin) as Hr.
  pose proof (i_hi _ _ _ _ _ _ _ _ Hi). unfold send_ref. destruct (w_u rp) as [cp|first lst] eqn:Eu.
  - destruct (send_sample_ok cp (last && bool_decide (g = None)) s) as (ok & urg & s' & -> & Er & HS).
    { pose proof (i_nodes _ _ _ _ _ _ _ _ Hi) as Hn. rewrite Forall_forall in Hn. by apply (Hn _ Hin). }
    eexists _, _, _, _. split_and!; [done..|]. eapply gapo_mono; [done|lia].
  - destruct (decide _); [eexists _, _, _, s; split_and!; [done..|reflexivity|]; eapply gapo_mono; [done|lia]|].
    assert (Ef : w_first rp = first /\ w_last rp = lst) by (unfold w_first, w_last; by rewrite Eu). destruct Ef as [<- <-].
    destruct (gap_add_ok c (w_first rp) (w_last rp) g s) as (ok & g' & s' & -> & Er & HS & Hg'); [lia|lia|lia| |done|].
    { intros m Hm. eapply inv_excused; [exact Hi|lia|]. eapply range_not_pend; [done|done| |done]. unfold w_relevant. by rewrite Eu. }
    cbn [mbind option_bind]. by eexists _, _, _, _.
Qed.

(** ** The loop *)

(** The next node that the loop takes is in [l2], the rest of the list. *)
Definition cursor (l1 l2 : WList) (r : RemReader_t) : Prop :=
  if decide (rr_tstate r = RRTS_PUSHING) then rr_unsent_changes r = fst <$> head l2
  else Forall not_requested l1 /\ (rr_requested_changes r = None \/ rr_requested_changes r = first_requested l2).

Lemma cursor_start hi s : good hi s -> exists l1 l2, rr_changes (rr s) = l1 ++ l2 /\ cursor l1 l2 (rr_requested None (rr s)).
Proof.
  intros [Hi _]. unfold cursor. cbn [rr_tstate rr_requested rr_unsent_changes rr_requested_changes]. case_decide.
  - destruct (rr_unsent_changes (rr s)) as [p|] eqn:Eu; [|exists (rr_changes (rr s)), []; by rewrite app_nil_r].
    destruct (ids_in _ _ (i_unsent _ _ _ _ _ _ _ _ Hi p Eu)) as (l1 & rp & l2 & El). by exists l1, ((p, rp) :: l2).
  - exists [], (rr_changes (rr s)). split; [done|]. split; [done|by left].
Qed.

(** What the loop takes, or its end. *)
Lemma send_pick_ok hi c l1 l2 g urgent s : good hi s -> gapo c g -> rr_changes (rr s) = l1 ++ l2 -> cursor l1 l2 (rr s) ->
  (exists g' s', send_pick pre post g urgent s = (None, g', s') /\ calm W R acked gone s s' /\ gapo c g') \/
  (exists m p rp l3, l2 = m ++ (p, rp) :: l3 /\ send_pick pre post g urgent s = (Some p, g, s) /\
     (if decide (rr_tstate (rr s) = RRTS_PUSHING) then m = [] else Forall not_requested (l1 ++ m))).
Proof.
  intros Hg Hgap El Hcur. unfold send_pick, cursor in *. case_decide as Ht.
  - destruct l2 as [|[p rp] l2]; cbn in Hcur; rewrite Hcur; [left|right; exists [], p, rp, l2; by split_and!].
    pose proof (gap_flush_calm c g (rh_timer (wr s)) s Hgap) as HF. eexists None, _. split; [done|]. split; [|done]. etrans; [exact HF|].
    eapply announce_calm; [exact Hpre|exact Hpost|]. by eapply calm_good.
  - destruct Hcur as [Hn1 Hreq]. case_decide as Ha; [|left; eexists g, s; split_and!; [done|reflexivity|done]].
    replace (match rr_requested_changes (rr s) with Some p => Some p | None => first_requested (rr_changes (rr s)) end) with (first_requested l2).
    2:{ rewrite El, first_requested_skip by done. destruct Hreq as [->| ->]; [done|]. by destruct (first_requested l2). }
    destruct (first_requested l2) as [p|] eqn:Ef; [right|left; eexists g, _; split_and!; [done|by apply calm_rr|done]].
    apply first_requested_some in Ef as (m & rp & l3 & -> & Hm & _). exists m, p, rp, l3. split_and!; [done..|]. by apply Forall_app.
Qed.

Lemma wcov_behind a l1 p rp l2 b x : wcov a (l1 ++ (p, rp) :: l2) b -> x ∈ l2 -> w_last rp + 1 <= w_first (snd x).
Proof. intros (c & _ & _ & _ & Hc)%wcov_app Hx. destruct x as [q rq]. by apply (wcov_in _ _ _ q rq Hc). Qed.

(** The node is sent: it is underway. *)
Lemma sent_ok hi s l1 p rp l2 : good hi s -> rr_changes (rr s) = l1 ++ (p, rp) :: l2 ->
  ref_from p (rr_changes (rr s)) = Some (rp, l2) /\
  ref_set p (w_set_state CS_UNDERWAY) (rr_changes (rr s)) = Some (l1 ++ (p, w_set_state CS_UNDERWAY rp) :: l2) /\
  good hi (upd_rr (rr_list (l1 ++ (p, w_set_state CS_UNDERWAY rp) :: l2)) s).
Proof.
  intros [Hi Hw] El. pose proof (i_ids _ _ _ _ _ _ _ _ Hi) as Hids. pose proof (i_nodes _ _ _ _ _ _ _ _ Hi) as Hn. rewrite El in Hids, Hn.
  destruct (ids_split _ _ _ _ _ Hids) as (Hp & _). rewrite El. split_and!; [by apply ref_from_app|by apply ref_set_app|]. split; [|done].
  apply inv_nodes; [done|rewrite El; by apply same_mid|]. apply Forall_app in Hn as [Hn1 [Hn2 Hn3]%Forall_cons]. apply Forall_app. split; [done|]. constructor; [|done].
  by apply node_ok_state.
Qed.

Lemma cursor_next l1 m p rp l3 r : (if decide (rr_tstate r = RRTS_PUSHING) then m = [] else Forall not_requested (l1 ++ m)) ->
  let pushing := bool_decide (rr_tstate r = RRTS_PUSHING) in let next := if pushing then fst <$> head l3 else first_requested l3 in
  cursor (l1 ++ m ++ [(p, w_set_state CS_UNDERWAY rp)]) l3 ((if pushing then rr_unsent next else rr_requested next) r).
Proof.
  intros Hm pushing next. unfold cursor, next, pushing. case_decide as Ht.
  - rewrite bool_decide_true by done. cbn. by rewrite decide_True.
  - rewrite bool_decide_false by done. cbn. rewrite decide_False by done. split; [|by right]. rewrite app_assoc. apply Forall_app. split; [done|]. by apply Forall_singleton.
Qed.

Lemma next_good hi s (next : option nat) (pushing : bool) : good hi s -> (pushing = true -> forall q, next = Some q -> q ∈ (rr_changes (rr s)).*1) ->
  good hi (upd_rr (if pushing then rr_unsent next else rr_requested next) s).
Proof.
  intros [Hi Hw] Hn. destruct pushing; (split; [|done]); [apply inv_point; [done|by apply Hn]|]. eapply inv_core; [exact Hi|done|done].
Qed.

(** The end of the list when the proxy is active. *)
Lemma send_end_ok hi c g urgent pushing s : good hi s -> gapo c g ->
  let s1 := gap_flush pre g (rh_timer (wr s)) s in let s2 := if pushing : bool then s1 else upd_rr (rr_repair RRAS_WAITING) s1 in
  calm W R acked gone s (sfw_announce pre post urgent s2).
Proof.
  intros Hg Hgap s1 s2. assert (H1 : calm W R acked gone s s1) by by eapply gap_flush_calm.
  assert (H2 : calm W R acked gone s s2) by (unfold s2; destruct pushing; [done|]; etrans; [exact H1|]; by apply calm_rr).
  etrans; [exact H2|]. eapply announce_calm; [exact Hpre|exact Hpost|]. by eapply calm_good.
Qed.

Definition loop_ok (hi : Z) (s : St) (x : option (bool * option GapAcc * St)) : Prop :=
  exists ok g' s', x = Some (ok, g', s') /\ good hi s' /\ step (wr s) (wr s') /\ gapo hi g'.

Lemma send_loop_ok hi : forall fuel c l1 l2 g urgent s, good hi s -> 1 <= c <= hi -> gapo c g -> rr_changes (rr s) = l1 ++ l2 ->
  (forall x, x ∈ l2 -> c <= w_first (snd x)) -> cursor l1 l2 (rr s) -> (length l2 < fuel)%nat -> loop_ok hi s (send_loop pre post fuel g urgent s).
Proof.
  induction fuel as [|fuel IH]; intros c l1 l2 g urgent s Hg Hc Hgap El Hfirst Hcur Hfuel; [lia|]. cbn [send_loop].
  assert (Hhi : gapo hi g) by (eapply gapo_mono; [done|lia]). destruct (bool_decide _); [eexists _, _, _; split_and!; [done|done|reflexivity|done]|].
  destruct (send_pick_ok hi c l1 l2 g urgent s Hg Hgap El Hcur) as [(g' & s' & -> & Hcalm & Hg')|(m & p & rp & l3 & -> & -> & Hm)].
  { eexists _, _, _. split_and!; [done|by eapply calm_good|apply Hcalm|eapply gapo_mono; [done|lia]]. }
  assert (Hin : (p, rp) ∈ m ++ (p, rp) :: l3) by (apply elem_of_app; right; by left). rewrite app_assoc in El.
  destruct (sent_ok _ _ _ _ _ _ Hg El) as (-> & _). cbn [mbind option_bind].
  set (pushing := bool_decide (rr_tstate (rr s) = RRTS_PUSHING)). set (next := if pushing then fst <$> head l3 else first_requested l3). pose proof Hg as [Hi _]. destruct (i_cov _ _ _ _ _ _ _ _ Hi) as (a & b & Ha & Hcov & Hb).
  assert (Hrp : w_last rp + 1 <= hi). { rewrite El in Hcov. pose proof (wcov_in _ _ _ p rp Hcov ltac:(apply elem_of_app; right; by left)). lia. }
  destruct (send_ref_ok hi c p rp (bool_decide (next = None)) g s Hg) as (ok & urg & g' & s' & -> & Er & HS & Hg').
  { rewrite El. apply elem_of_app. right. by left. } { specialize (Hfirst _ Hin). cbn in Hfirst. lia. } { done. } cbn [mbind option_bind].
  assert (Hgs : good hi s') by (split; [rewrite Er; eapply inv_core; [exact Hi|done|apply HS]|by apply (ws_ok _ _ _ _ HS), Hg]).
  destruct (sent_ok hi s' (l1 ++ m) p rp l3 Hgs) as (_ & -> & Hg1); [by rewrite Er|]. cbn [mbind option_bind].
  destruct ok; cbn [negb]; [|eexists _, _, _; split_and!; [done|done|done|eapply gapo_mono; [done|lia]]].
  match goal with |- context [rr_active pre ?x] => set (s2 := x) end. assert (Hg2 : good hi s2).
  { apply next_good; [done|]. intros Hp q. unfold next. rewrite Hp. cbn. intros Hq. rewrite fmap_app, elem_of_app. right. right. destruct l3 as [|[q' rq] l3]; [done|]. injection Hq as <-. by left. }
  destruct (_ && _).
  - pose proof (send_end_ok hi _ g' (urgent || urg) pushing s2 Hg2 Hg') as HE. cbv zeta in HE. eexists _, _, _. split_and!; [done|by eapply calm_good|etrans; [exact HS|apply HE]|done].
  - destruct (IH (w_last rp + 1) (l1 ++ m ++ [(p, w_set_state CS_UNDERWAY rp)]) l3 g' (urgent || urg) s2) as (ok' & g2 & s3 & E3 & Hg3 & HS3 & Hgap3); [done| |done| | | | |].
    + specialize (Hfirst _ Hin). cbn in Hfirst. rewrite El in Hcov. pose proof (wcov_in _ _ _ p rp Hcov ltac:(apply elem_of_app; right; by left)). lia.
    + unfold s2. cbn. destruct pushing; cbn; by rewrite <- !app_assoc.
    + intros x Hx. rewrite El in Hcov. by apply (wcov_behind _ _ _ _ _ _ x Hcov).
    + unfold s2, next, pushing. rewrite <- Er. apply (cursor_next l1 m p rp l3 (rr_list _ (rr s'))). cbn. by rewrite Er.
    + rewrite length_app in Hfuel. cbn in Hfuel. lia.
    + eexists _, _, _. split_and!; [exact E3|done|by etrans|done].
Qed.

Lemma send_data_ok hi s : good hi s -> exists again s', sfw_rel_send_data pre post s = Some (again, s') /\ good hi s' /\ step (wr s) (wr s').
Proof.
  intros Hg. pose proof Hg as [Hi _]. pose proof (i_hi _ _ _ _ _ _ _ _ Hi). destruct (i_cov _ _ _ _ _ _ _ _ Hi) as (a & b & Ha & Hcov & Hb).
  destruct (cursor_start hi s Hg) as (l1 & l2 & El & Hcur). unfold sfw_rel_send_data. cbv zeta. set (s1 := upd_rr _ s).
  assert (Hg1 : good hi s1) by (eapply calm_good; [|exact Hg]; by apply calm_rr).
  destruct (send_loop_ok hi (S (S (length (rr_changes (rr s1))))) 1 l1 l2 None false s1) as (ok & g' & s' & -> & Hg' & HS & Hgap); [done|lia|done|done| |done| |].
  - intros [p rp] Hx. cbn. pose proof (wcov_in _ _ _ p rp Hcov). rewrite El, elem_of_app in H0. specialize (H0 (or_intror Hx)). lia.
  - change (rr_changes (rr s1)) with (rr_changes (rr s)). rewrite El, length_app. lia.
  - cbn [mbind option_bind]. destruct ok; [|by eexists _, _]. eexists _, _. split; [done|]. pose proof (gap_flush_calm hi g' true s' Hgap) as HF.
    split; [by eapply calm_good|]. etrans; [exact HS|apply HF].
Qed.

End Sending.
