(* ===== verification/SfrwAck.v ===== *)
(** Acknowledgements: an ACKNACK of the reader marks nodes as acknowledged or
    requested, splits ranges, and acknowledged nodes leave the list; no sample
    leaves it that the reader did not acknowledge. *)

From stdpp Require Import gmap.
From S2P Require Import Prelude Seqnr Clist Sfrr SfrrProps Sfrw SfrwProps SfrwSend.
From stdpp Require Import list.

#[local] Open Scope Z_scope.

(** What an ACKNACK acknowledges. *)
Definition says (ap : AckNack) (n : Z) : Prop :=
  n < ack_base ap \/ n < ack_base ap + ack_bits ap /\ SET_CONTAINS (ack_map ap) (n - ack_base ap) = Some false.

(** An ACKNACK as readers send it. *)
Record ack_ok (ap : AckNack) : Prop := {
  ao_base : 1 <= ack_base ap;
  ao_bits : 0 <= ack_bits ap <= 256;
  ao_max : ack_base ap + ack_bits ap <= 2 ^ 32;
  ao_map : ack_bits ap <= 32 * zlen (ack_map ap)
}.

Lemma ack_bit ap i : ack_ok ap -> 0 <= i < ack_bits ap -> exists c, SET_CONTAINS (ack_map ap) i = Some c.
Proof.
  intros Ha Hi. pose proof (ao_map _ Ha). unfold SET_CONTAINS. rewrite shiftr5. destruct (zget_lookup_Some (ack_map ap) (i / 32)) as [w ->]; [|by eexists].
  split; [apply Z.div_pos; lia|apply Z.div_lt_upper_bound; lia].
Qed.

(** ** Addresses of the nodes that replace others *)

(** The nodes [l'] replace those of [l]: their addresses and new ones. *)
Definition ids_new (f f' : nat) (l l' : WList) : Prop :=
  NoDup (l'.*1) /\ (forall p, p ∈ l.*1 -> p ∈ l'.*1) /\ (forall p, p ∈ l'.*1 -> p ∈ l.*1 \/ (f <= p < f')%nat).

Lemma ids_new_app f f1 f2 l1 l1' l2 l2' : ids_ok f (l1 ++ l2) -> ids_new f f1 l1 l1' -> ids_new f1 f2 l2 l2' -> (f <= f1 <= f2)%nat -> ids_new f f2 (l1 ++ l2) (l1' ++ l2').
Proof.
  intros [Hn Hf] (A1 & B1 & C1) (A2 & B2 & C2) Hle. rewrite fmap_app in Hn, Hf. apply NoDup_app in Hn as (_ & Hd & _). apply Forall_app in Hf as [Hf1 Hf2].
  rewrite Forall_forall in Hf1, Hf2. cbn in Hf1, Hf2. unfold ids_new. rewrite !fmap_app. split_and!.
  - apply NoDup_app. split_and!; [done| |done]. intros p [Hp|Hp]%C1 [Hq|Hq]%C2.
    + by apply (Hd p).
    + specialize (Hf1 p Hp). lia.
    + specialize (Hf2 p Hq). lia.
    + lia.
  - intros p. rewrite !elem_of_app. intros [?|?]; auto.
  - intros p. rewrite !elem_of_app. intros [[?|?]%C1|[?|?]%C2]; auto; right; lia.
Qed.

Lemma ids_new_ok f f' l l' : ids_ok f l -> ids_new f f' l l' -> (f <= f')%nat -> ids_ok f' l'.
Proof.
  intros [Hn Hf] (A & B & C) Hle. split; [done|]. apply Forall_forall. intros p [Hp|Hp]%C; [|cbn; lia]. rewrite Forall_forall in Hf. specialize (Hf p Hp). cbn in *. lia.
Qed.

Lemma ids_new_refl f f' l : NoDup (l.*1) -> ids_new f f' l l.
Proof. intros Hn. split_and!; auto. Qed.

(** ** Ranges are split *)

Section Walk.
  Context (W : Change_t -> Prop) (R acked gone : nat -> Z -> Prop) (k : nat).
  Context (ap : AckNack) (Hap : ack_ok ap) (Hsays : forall n, 1 <= n -> says ap n -> acked k n).

Abbreviation exc := (excused R acked gone).
Abbreviation step := (w_step W exc).

Definition is_range (x : nat * WRef) : Prop := w_relevant (snd x) = false.

Lemma range_pend n l : Forall is_range l -> ~ pend n l.
Proof. intros Hr (x & Hx & cp & E & _)%Exists_exists. rewrite Forall_forall in Hr. specialize (Hr x Hx). unfold is_range, w_relevant in Hr. by rewrite E in Hr. Qed.

Lemma range_nodes l : Forall is_range l -> Forall (node_ok W acked k) l.
Proof.
  intros Hr. eapply Forall_impl; [exact Hr|]. intros [p rp] H. unfold is_range, w_relevant in H. split.
  - intros cp E. by rewrite E in H.
  - intros _ n (cp & E & _). by rewrite E in H.
Qed.

(** A node that the walk has requested. *)
Definition req_ok (req0 : option nat) (l : WList) (req : option nat) : Prop :=
  req = req0 \/ exists q rq, req = Some q /\ (q, rq) ∈ l /\ w_state rq = CS_REQUESTED.

(** The nodes that replace a range from [F] to [L], while its numbers from [c]
    on are still one node. *)
Record acc_ok (p : nat) (F L : Z) (req0 : option nat) (w0 : Writer) (c : Z) (a : RangeAcc) : Prop := {
  a_cov : wcov F (ra_done a) c;
  a_done : Forall is_range (ra_done a);
  a_cur : w_u (snd (ra_cur a)) = WRange c L;
  a_ids : ids_new (w_fresh w0) (w_fresh (ra_w a)) [(p, snd (ra_cur a))] (ra_done a ++ [ra_cur a]);
  a_p : (p < w_fresh w0)%nat;
  a_req : req_ok req0 (ra_done a) (ra_req a);
  a_step : step w0 (ra_w a);
  a_mem : granted (w_allocs (ra_w a))
}.

Lemma cur_bounds p F L req0 w0 c a : acc_ok p F L req0 w0 c a -> w_first (snd (ra_cur a)) = c /\ w_last (snd (ra_cur a)) = L /\ is_range (ra_cur a).
Proof. intros Ha. unfold is_range, w_relevant, w_first, w_last. by rewrite (a_cur _ _ _ _ _ _ _ Ha). Qed.

(** The part before [snr] gets a state of its own. *)
Lemma acc_split p F L req0 w0 c a g acked' req' snr q rq : acc_ok p F L req0 w0 c a -> ra_cur a = (q, rq) -> c < snr <= L ->
  (forall rp, w_u (g rp) = w_u rp) -> (req' = ra_req a \/ req' = Some q /\ forall rp, w_state (g rp) = CS_REQUESTED) ->
  exists w', (forall acked, sfw_range_split q rq snr acked (ra_w a) =
      (Some ([(q, (if acked : bool then w_set_state CS_ACKED else id) (w_set_range c (snr - 1) rq))], (w_fresh (ra_w a), mkWRef (w_state rq) false (WRange snr L))), w')) /\
    acc_ok p F L req0 w0 snr
      (mkRange snr acked' (ra_done a ++ [(q, g (w_set_range c (snr - 1) rq))]) (w_fresh (ra_w a), mkWRef (w_state rq) false (WRange snr L)) req' w').
Proof.
  intros Ha Ec Hs Hg Hreq. pose proof (cur_bounds _ _ _ _ _ _ _ Ha) as (Hf & Hl & _). pose proof Ha as [A B C D E G H I]. rewrite Ec in *. cbn [snd] in *.
  destruct (alloc_ref_granted W R acked gone _ I) as (w' & Ew & HS & Hfr & _). exists w'. split.
  - intros ac. unfold sfw_range_split. rewrite Hl, Hf. destruct (Z.ltb_spec L snr); [lia|]. rewrite Ew. by destruct ac.
  - assert (Hu : w_u (g (w_set_range c (snr - 1) rq)) = WRange c (snr - 1)) by by rewrite Hg. split; cbn.
    + apply wcov_app. exists c. split; [done|]. cbn. unfold w_first, w_last. rewrite Hu. split_and!; lia.
    + apply Forall_app. split; [done|]. apply Forall_singleton. unfold is_range, w_relevant. cbn. by rewrite Hu.
    + done.
    + pose proof (ws_fresh _ _ _ _ H). destruct D as (D1 & D2 & D3). unfold ids_new in *. rewrite !fmap_app in *. cbn in *. rewrite Hfr. split_and!.
      * apply NoDup_app. split_and!; [done| |by apply NoDup_singleton]. intros x [Hx|Hx]%D3 ->%list_elem_of_singleton; [apply list_elem_of_singleton in Hx; lia|lia].
      * intros x Hx. apply elem_of_app. left. by apply D2.
      * intros x. rewrite elem_of_app. intros [[?|?]%D3| ->%list_elem_of_singleton]; [by left|right; lia|right; lia].
    + done.
    + destruct Hreq as [->|[-> Hst]].
      * destruct G as [G|(x & rx & G1 & G2 & G3)]; [by left|right]. exists x, rx. split_and!; [done| |done]. apply elem_of_app. by left.
      * right. eexists q, _. split_and!; [done|apply elem_of_app; right; by left|apply Hst].
    + by etrans.
    + by apply (ws_alloc _ _ _ _ HS).
Qed.

Lemma acc_same p F L req0 w0 c a snr b : acc_ok p F L req0 w0 c a -> acc_ok p F L req0 w0 c (mkRange snr b (ra_done a) (ra_cur a) (ra_req a) (ra_w a)).
Proof. intros [A B C D E G H I]. by split. Qed.

Lemma range_bit_ok p F L req0 w0 c a (bit : bool) : acc_ok p F L req0 w0 c a -> c <= ra_snr a <= L -> (c = ra_snr a -> bit = negb (ra_acked a)) ->
  exists a' c', range_bit bit a = (true, a') /\ ra_snr a' = ra_snr a /\ acc_ok p F L req0 w0 c' a' /\ c' <= ra_snr a.
Proof.
  intros Ha Hc Hb. unfold range_bit. destruct (ra_cur a) as [q rq] eqn:Ec. destruct bit, (ra_acked a) eqn:Eacked; try (by exists a, c; split_and!; [done|done|done|lia]).
  all: assert (Hlt : c < ra_snr a <= L) by (destruct (decide (c = ra_snr a)) as [E|]; [by specialize (Hb E)|lia]).
  - destruct (acc_split p F L req0 w0 c a (w_set_state CS_ACKED) false (ra_req a) (ra_snr a) q rq Ha Ec Hlt) as (w' & -> & Ha'); [done|by left|].
    eexists _, _. split_and!; [done|done|exact Ha'|lia].
  - destruct (acc_split p F L req0 w0 c a (w_set_state CS_REQUESTED) true (or_first (ra_req a) q) (ra_snr a) q rq Ha Ec Hlt) as (w' & -> & Ha'); [done| |].
    { unfold or_first. destruct (ra_req a); [by left|right; by split]. }
    eexists _, _. split_and!; [done|done|exact Ha'|lia].
Qed.

Lemma range_bits_ok p F L req0 w0 : forall m i a c, acc_ok p F L req0 w0 c a -> ra_snr a = ack_base ap + i -> c <= ra_snr a <= L -> 0 <= i -> i + Z.of_nat m = ack_bits ap ->
  (c < ra_snr a \/ (0 < m)%nat /\ SET_CONTAINS (ack_map ap) i = Some (negb (ra_acked a))) ->
  exists a' c', range_bits m i (ack_map ap) a = Some a' /\ acc_ok p F L req0 w0 c' a' /\ c' < ra_snr a' <= L + 1.
Proof.
  induction m as [|m IH]; intros i a c Ha Hs Hc Hi Hm Hbit; cbn [range_bits]; [exists a, c; split_and!; [done|done|lia|lia]|].
  destruct (ack_bit ap i Hap ltac:(lia)) as [bit Eb]. rewrite Eb. cbn [mbind option_bind].
  destruct (range_bit_ok p F L req0 w0 c a bit Ha Hc) as (a1 & c1 & -> & Es & Ha1 & Hc1). { intros E. destruct Hbit as [?|[_ Hbit]]; [lia|]. rewrite Eb in Hbit. by injection Hbit. }
  cbn [negb]. pose proof (acc_same _ _ _ _ _ _ _ (ra_snr a1 + 1) (ra_acked a1) Ha1) as Ha2. destruct (cur_bounds _ _ _ _ _ _ _ Ha2) as (_ & Hl & _). cbn [ra_cur ra_snr] in *. rewrite Hl.
  destruct (Z.ltb_spec L (ra_snr a1 + 1)); [eexists _, c1; split_and!; [done|done|cbn; lia|cbn; lia]|].
  apply (IH (i + 1) _ c1); [done|cbn; lia|cbn; lia|lia|lia|]. left. cbn. lia.
Qed.

(** The nodes that replace a node, with their states. *)
Record expands (p : nat) (rp : WRef) (req0 : option nat) (w0 : Writer) (l' : WList) (req : option nat) (w' : Writer) : Prop := {
  e_cov : wcov (w_first rp) l' (w_last rp + 1);
  e_pend : forall n, pend n l' <-> is_data n (p, rp);
  e_ids : ids_new (w_fresh w0) (w_fresh w') [(p, rp)] l';
  e_nodes : Forall (node_ok W acked k) l';
  e_req : req_ok req0 l' req;
  e_step : step w0 w';
  e_mem : granted (w_allocs w')
}.

Lemma acc_expands p rp F L req0 w0 c a g req : acc_ok p F L req0 w0 c a -> w_u rp = WRange F L -> c <= L -> (forall rq, w_u (g rq) = w_u rq) ->
  (req = ra_req a \/ req = Some (ra_cur a).1 /\ forall rq, w_state (g rq) = CS_REQUESTED) ->
  expands p rp req0 w0 (ra_done a ++ [((ra_cur a).1, g (ra_cur a).2)]) req (ra_w a).
Proof.
  intros Ha Hu Hc Hg Hreq. pose proof Ha as [A B C D E G H I]. assert (Hr : Forall is_range (ra_done a ++ [((ra_cur a).1, g (ra_cur a).2)])).
  { apply Forall_app. split; [done|]. apply Forall_singleton. unfold is_range, w_relevant. cbn. by rewrite Hg, C. }
  split; [| | |by apply range_nodes| |done|done].
  - unfold w_first at 1, w_last. rewrite Hu. apply wcov_app. exists c. split; [done|]. cbn. unfold w_first, w_last. rewrite Hg, C. split_and!; lia.
  - intros n. split; [by intros Hp%range_pend|]. intros (cp & Ecp & _). cbn in Ecp. by rewrite Hu in Ecp.
  - unfold ids_new in *. rewrite fmap_app in *. done.
  - destruct Hreq as [->|[-> Hst]].
    + destruct G as [G|(x & rx & G1 & G2 & G3)]; [by left|right]. exists x, rx. split_and!; [done| |done]. apply elem_of_app. by left.
    + right. eexists _, _. split_and!; [done|apply elem_of_app; right; by left|apply Hst].
Qed.

(** ** The walk *)

Abbreviation max := (ack_base ap + ack_bits ap).

(** What the verdict does to the last node. *)
Definition judged (v : Verdict) (a : RangeAcc) : WList * option nat :=
  let '(q, rq) := ra_cur a in
  match v with
  | VRequested => (ra_done a ++ [(q, w_set_state CS_REQUESTED rq)], or_first (ra_req a) q)
  | VAcked => (ra_done a ++ [(q, w_set_state CS_ACKED rq)], ra_req a)
  | VKeep => (ra_done a ++ [(q, rq)], ra_req a)
  end.

Lemma acc_judged p rp F L req0 w0 c a v : acc_ok p F L req0 w0 c a -> w_u rp = WRange F L -> c <= L ->
  expands p rp req0 w0 (judged v a).1 (judged v a).2 (ra_w a).
Proof.
  intros Ha Hu Hc. unfold judged. destruct (ra_cur a) as [q rq] eqn:Ec. destruct v; cbn [fst snd].
  - pose proof (acc_expands p rp F L req0 w0 c a (w_set_state CS_ACKED) (ra_req a) Ha Hu Hc) as H. rewrite Ec in H. apply H; [done|by left].
  - pose proof (acc_expands p rp F L req0 w0 c a (w_set_state CS_REQUESTED) (or_first (ra_req a) q) Ha Hu Hc) as H. rewrite Ec in H. apply H; [done|].
    unfold or_first. destruct (ra_req a); [by left|right; by split].
  - pose proof (acc_expands p rp F L req0 w0 c a (fun x => x) (ra_req a) Ha Hu Hc) as H. rewrite Ec in H. apply H; [done|by left].
Qed.

Definition acc_start (p : nat) (rp : WRef) (snr : Z) (b : bool) (req : option nat) (w : Writer) : RangeAcc := mkRange snr b [] (p, rp) req w.

Lemma acc_start_ok p rp F L snr b req w : w_u rp = WRange F L -> (p < w_fresh w)%nat -> granted (w_allocs w) -> acc_ok p F L req w F (acc_start p rp snr b req w).
Proof. intros Hu Hp Hm. split; cbn; try done; [apply ids_new_refl, NoDup_singleton|by left]. Qed.

Lemma ack_ref_range_ok p rp F L req w : w_u rp = WRange F L -> 1 <= F <= L -> L < 2 ^ 32 -> ack_base ap <= L -> F < max -> (p < w_fresh w)%nat -> granted (w_allocs w) ->
  exists a v, ack_ref_range p rp F ap req w = Some (a, Some v) /\ expands p rp req w (judged v a).1 (judged v a).2 (ra_w a).
Proof.
  intros Hu HF HL Hb Hm Hp Hal. pose proof Hap as [B1 B2 B3 B4]. unfold ack_ref_range.
  assert (Hstart : exists i b, (if F <? ack_base ap then Some (0, true, ack_base ap)
      else let '(i, _) := seqnr_diff (snr_of (ack_base ap)) (snr_of F) in c ← SET_CONTAINS (ack_map ap) i; Some (i, negb c, ack_base ap + i)) = Some (i, b, ack_base ap + i) /\
      F <= ack_base ap + i <= L /\ 0 <= i <= ack_bits ap /\ (F < ack_base ap + i \/ i < ack_bits ap /\ SET_CONTAINS (ack_map ap) i = Some (negb b))).
  { destruct (Z.ltb_spec F (ack_base ap)); [exists 0, true; rewrite Z.add_0_r; split_and!; [done|lia..]|].
    rewrite seqnr_diff_small by lia. destruct (Z.ltb_spec F (ack_base ap)); [lia|]. destruct (ack_bit ap (F - ack_base ap) Hap ltac:(lia)) as [bit Eb].
    exists (F - ack_base ap), (negb bit). rewrite Eb, negb_involutive. cbn. split_and!; [done|lia|lia|lia|lia|]. right. split; [lia|done]. }
  destruct Hstart as (i & b & -> & Hs & Hi & Hbit). cbn [mbind option_bind].
  destruct (range_bits_ok p F L req w (Z.to_nat (ack_bits ap - i)) i (acc_start p rp (ack_base ap + i) b req w) F) as (a & c & E & Ha & Hc); [by apply acc_start_ok|done|done|lia|lia| |].
  { destruct Hbit as [?|[? ?]]; [by left|right]. split; [lia|done]. }
  unfold acc_start in E. rewrite E. cbn [mbind option_bind]. destruct (cur_bounds _ _ _ _ _ _ _ Ha) as (_ & Hl & _).
  assert (HcL : c <= L) by lia. destruct (ra_acked a); [|exists a, VRequested; split; [done|by eapply acc_judged]].
  destruct (ra_cur a) as [q rq] eqn:Ec. cbn [snd] in Hl. rewrite Hl. destruct (Z.ltb_spec L (ra_snr a)); [exists a, VAcked; split; [done|by eapply acc_judged]|].
  destruct (acc_split p F L req w c a (w_set_state CS_ACKED) true (ra_req a) (ra_snr a) q rq Ha Ec ltac:(lia)) as (w' & -> & Ha'); [done|by left|].
  eexists _, VKeep. split; [done|]. eapply acc_judged; [exact Ha'|done|lia].
Qed.

(** A node that stays one node. *)
Lemma single_expands p rp (rp' : WRef) req0 req w w' : w_u rp' = w_u rp -> w_first rp <= w_last rp -> node_ok W acked k (p, rp') -> req_ok req0 [(p, rp')] req -> step w w' -> granted (w_allocs w') ->
  expands p rp req0 w [(p, rp')] req w'.
Proof.
  intros Hu Hl Hn Hr HS Hm. split; [| | |by apply Forall_singleton|done|done|done].
  - cbn. unfold w_first, w_last in *. rewrite Hu. split_and!; [done|done|done].
  - intros n. unfold pend. rewrite Exists_cons, Exists_nil. unfold is_data. cbn. rewrite Hu. tauto.
  - apply (ids_new_refl _ _ [(p, rp')]). apply NoDup_singleton.
Qed.

Lemma ack_ref_ok p rp req w : w_state rp <> CS_ACKED -> node_ok W acked k (p, rp) -> 1 <= w_first rp <= w_last rp -> w_last rp < 2 ^ 32 -> (p < w_fresh w)%nat -> granted (w_allocs w) ->
  exists a v, ack_ref p rp ap max req w = Some (a, Some v) /\ expands p rp req w (judged v a).1 (judged v a).2 (ra_w a).
Proof.
  intros Hst Hn Hf Hl Hp Hal. pose proof Hap as [B1 B2 B3 B4]. unfold ack_ref. set (at_ := fun w => mkRange 0 false [] (p, rp) req w).
  assert (Hkeep : expands p rp req w (judged VKeep (at_ w)).1 (judged VKeep (at_ w)).2 (ra_w (at_ w))).
  { apply single_expands; [done|lia|done|by left|reflexivity|done]. }
  destruct (w_u rp) as [cp|F L] eqn:Eu.
  - set (n := c_seqnr (wc_change cp)). assert (Hn1 : w_first rp = n) by (unfold w_first; by rewrite Eu). assert (Hl1 : w_last rp = n) by (unfold w_last; by rewrite Eu).
    assert (Hacked : says ap n -> expands p rp req w (judged VAcked (at_ w)).1 (judged VAcked (at_ w)).2 (ra_w (at_ w))).
    { intros Hs. apply single_expands; [done|lia| |by left|reflexivity|done]. split; [apply Hn|]. intros _ m Hm%is_data_range. cbn in Hm. unfold w_first in Hm. cbn in Hm. rewrite Eu in Hm.
      destruct Hm as [<- _]. apply Hsays; [lia|done]. }
    destruct (Z.ltb_spec n (ack_base ap)); [eexists _, VAcked; split; [done|]; apply Hacked; left; lia|].
    destruct (Z.ltb_spec n max); [|by eexists _, VKeep].
    unfold seqnr_inset. rewrite seqnr_diff_small by lia. destruct (Z.ltb_spec n (ack_base ap)); [lia|]. cbn [orb]. destruct (Z.leb_spec (ack_bits ap) (n - ack_base ap)); [lia|].
    destruct (ack_bit ap (n - ack_base ap) Hap ltac:(lia)) as [bit Eb]. rewrite Eb. cbn [mbind option_bind]. destruct bit.
    + eexists _, VRequested. split; [done|]. apply single_expands; [done|lia|by apply node_ok_state| |apply wack_step|done].
      unfold or_first. destruct req; [by left|right]. eexists p, _. split_and!; [done|by left|done].
    + eexists _, VAcked. split; [done|]. apply Hacked. right. split; [lia|done].
  - assert (Hn1 : w_first rp = F) by (unfold w_first; by rewrite Eu). assert (Hl1 : w_last rp = L) by (unfold w_last; by rewrite Eu). rewrite Hn1, Hl1 in *.
    destruct (Z.ltb_spec L (ack_base ap)).
    + eexists _, VAcked. split; [done|]. apply single_expands; [done|lia| |by left|reflexivity|done]. split; [by cbn; rewrite Eu|]. intros _ m (cp & Ecp & _). cbn in Ecp. by rewrite Eu in Ecp.
    + destruct (Z.ltb_spec F max); [|by eexists _, VKeep]. by apply (ack_ref_range_ok p rp F L).
Qed.

(** One round of the loop. *)
Lemma walk_node p rp l r w a v : w_state rp <> CS_ACKED -> ack_ref p rp ap max (rr_requested_changes r) w = Some (a, Some v) ->
  exists r1, ack_walk ((p, rp) :: l) ap max r w = ('(l', r', w') ← ack_walk l ap max r1 (ra_w a); Some ((judged v a).1 ++ l', r', w')) /\
    core r1 = core r /\ rr_requested_changes r1 = (judged v a).2.
Proof.
  intros Hst E. cbn [ack_walk]. rewrite decide_False by done. rewrite E. cbn [mbind option_bind]. unfold judged. destruct (ra_cur a) as [q rq].
  assert (Happ : forall x (o : option (WList * RemReader_t * Writer)),
    ('(l, r, w) ← o; Some (ra_done a ++ x :: l, r, w)) = ('(l, r, w) ← o; Some ((ra_done a ++ [x]) ++ l, r, w))).
  { intros x [[[l' r'] w']|]; [|done]. cbn. by rewrite <- app_assoc. }
  destruct v; [|eexists; split; [apply Happ|done]..].
  assert (Hset : w_state rq = CS_ACKED -> w_set_state CS_ACKED rq = rq) by (destruct rq; cbn; by intros ->).
  case_decide as Hd; [rewrite (Hset Hd)|]; (eexists; split; [apply Happ|]); [done|by destruct (w_relevant rq)].
Qed.

Record walked (a b : Z) (l : WList) (r : RemReader_t) (w : Writer) (l' : WList) (r' : RemReader_t) (w' : Writer) : Prop := {
  wk_cov : wcov a l' b;
  wk_pend : forall n, pend n l' <-> pend n l;
  wk_ids : ids_new (w_fresh w) (w_fresh w') l l';
  wk_nodes : Forall (node_ok W acked k) l';
  wk_core : core r' = core r;
  wk_req : req_ok (rr_requested_changes r) l' (rr_requested_changes r');
  wk_step : step w w';
  wk_mem : granted (w_allocs w')
}.

Lemma req_app req0 req1 req2 l1 l2 : req_ok req0 l1 req1 -> req_ok req1 l2 req2 -> req_ok req0 (l1 ++ l2) req2.
Proof.
  intros H1 [->|(q & rq & -> & Hin & Hst)].
  - destruct H1 as [->|(q & rq & -> & Hin & Hst)]; [by left|right]. exists q, rq. split_and!; [done|apply elem_of_app; by left|done].
  - right. exists q, rq. split_and!; [done|apply elem_of_app; by right|done].
Qed.

(** A node and the rest of the list. *)
Lemma walked_cons p rp l r w lx req w1 r1 b l' r' w' : expands p rp (rr_requested_changes r) w lx req w1 -> ids_ok (w_fresh w) ((p, rp) :: l) ->
  core r1 = core r -> rr_requested_changes r1 = req -> walked (w_last rp + 1) b l r1 w1 l' r' w' -> walked (w_first rp) b ((p, rp) :: l) r w (lx ++ l') r' w'.
Proof.
  intros [A B C D E G H] Hids Hcore Hreq [A' B' C' D' E' G' H' I']. split.
  - apply wcov_app. by exists (w_last rp + 1).
  - intros n. rewrite pend_app, B, B'. unfold pend. by rewrite Exists_cons.
  - apply (ids_new_app _ (w_fresh w1) _ [(p, rp)] lx l l'); [done|done|done|]. pose proof (ws_fresh _ _ _ _ G). pose proof (ws_fresh _ _ _ _ H'). lia.
  - by apply Forall_app.
  - congruence.
  - eapply req_app; [exact E|]. by rewrite <- Hreq.
  - by etrans.
  - done.
Qed.

Lemma ack_walk_ok : forall l a b r w, wcov a l b -> 1 <= a -> b <= 2 ^ 32 -> ids_ok (w_fresh w) l -> Forall (node_ok W acked k) l -> granted (w_allocs w) ->
  exists l' r' w', ack_walk l ap max r w = Some (l', r', w') /\ walked a b l r w l' r' w'.
Proof.
  induction l as [|[p rp] l IH]; intros a b r w Hc Ha Hb Hids Hn Hal.
  { exists [], r, w. split; [done|]. split; try done; [by apply ids_new_refl, NoDup_nil|by left]. }
  destruct Hc as (<- & Hl & Hc). pose proof (wcov_le _ _ _ Hc). apply Forall_cons in Hn as [Hn1 Hn]. destruct (ids_split _ [] _ _ _ Hids) as (_ & _ & Hp).
  assert (Hids' : forall w1, step w w1 -> ids_ok (w_fresh w1) l).
  { intros w1 HS. eapply ids_mono; [|apply HS]. destruct Hids as [Hd Hf]. cbn in Hd, Hf. split; [by apply NoDup_cons in Hd as [_ Hd]|by apply Forall_cons in Hf as [_ Hf]]. }
  destruct (decide (w_state rp = CS_ACKED)) as [Hst|Hst].
  - destruct (IH (w_last rp + 1) b r w) as (l' & r' & w' & E & Hw); [done|lia|done|by apply Hids'|done|done|]. exists ((p, rp) :: l'), r', w'.
    cbn [ack_walk]. rewrite decide_True by done. rewrite E. split; [done|]. eapply (walked_cons p rp l r w [(p, rp)]); [|done|done|done|exact Hw].
    apply single_expands; [done|lia|done|by left|reflexivity|done].
  - destruct (ack_ref_ok p rp (rr_requested_changes r) w Hst Hn1) as (x & v & E & He); [lia|lia|done|done|]. destruct (walk_node p rp l r w x v Hst E) as (r1 & -> & Hcore & Hreq).
    destruct (IH (w_last rp + 1) b r1 (ra_w x)) as (l' & r' & w' & -> & Hw); [done|lia|done|by apply Hids', He|done|by eapply e_mem|].
    eexists _, _, _. split; [done|]. by eapply walked_cons.
Qed.

End Walk.

(** ** The handler of ACKNACKs *)

Section Acknack.
  Context (W : Change_t -> Prop) (R acked gone : nat -> Z -> Prop) (HR : forall k n, R k n -> 1 <= n).
  Context (push_mode nack_resp_delay : bool) (pre post : list RemReader_t).
  Context (Hpre : forall j r, pre !! j = Some r -> quiet (excused R acked gone) j r).
  Context (Hpost : forall j r, post !! j = Some r -> quiet (excused R acked gone) (S (length pre + j)) r).

Abbreviation k := (self pre).
Abbreviation exc := (excused R acked gone).
Abbreviation inv := (inv W R acked gone k).
Abbreviation good := (good W R acked gone k).
Abbreviation step := (w_step W exc).

(** More numbers are settled. *)
Lemma inv_raise f hi hi' r : inv f hi r -> hi <= hi' <= 2 ^ 32 -> (forall m, hi <= m < hi' -> exc k m) -> inv f hi' r.
Proof.
  intros [H1 (a & b & Ha & Hc & Hb) H3 H4 H5 H6 H7] Hhi HE. split; try done; [lia| | |lia].
  - exists a, b. split_and!; [done|done|lia].
  - intros n Hn Hlt. destruct (decide (n < hi)); [by apply H5|]. destruct (HE n ltac:(lia) Hn); auto.
Qed.

Lemma implicit_gap_ok hi m s : good hi s -> granted (w_allocs (wr s)) -> w_max (wr s) < hi -> good hi (implicit_gap m s) /\ step (wr s) (wr (implicit_gap m s)).
Proof.
  intros Hg Hal Hmax. pose proof Hg as [Hi Hw]. pose proof (i_hi _ _ _ _ _ _ _ _ Hi). destruct (i_cov _ _ _ _ _ _ _ _ Hi) as (a & b & Ha & Hc & Hb). unfold implicit_gap.
  set (snr := match list.last _ with None => _ | Some _ => _ end). destruct (_ && (snr <? w_max (wr s))) eqn:Ecase; [|by split]. apply andb_true_iff in Ecase as [_ Hlt%Z.ltb_lt].
  assert (Hnew : match list.last (rr_changes (rr s)) with Some (_, mkWRef xst _ (WRange _ _)) => xst <> CS_UNSENT | _ => True end ->
    forall x, x = (let '(rp, s) := change_enqueue_gap snr (w_max (wr s)) CS_UNSENT s in
       match rr_unsent_changes (rr s) with None => upd_rr (rr_unsent rp) s | Some _ => s end) -> good hi x /\ step (wr s) (wr x)).
  { intros Hlast x ->. destruct (appended_range W R acked gone k hi s snr (w_max (wr s)) CS_UNSENT hi) as ((Hi1 & HS1 & Hp1) & _); [done|done| | |lia|lia|lia|done|].
    - intros Hne. exists a. split; [done|]. unfold snr. destruct (list.last (rr_changes (rr s))) as [[p rp]|] eqn:El; [|by apply last_None in El].
      apply last_Some in El as [l El]. rewrite El in *. apply wcov_snoc in Hc as (H1 & H2 & _). apply wcov_snoc. by split_and!.
    - split; [|lia]. unfold snr. destruct (list.last (rr_changes (rr s))) as [[p rp]|] eqn:El; [|apply (i_new _ _ _ _ _ _ _ _ Hi)].
      apply last_Some in El as [l El]. rewrite El in *. apply wcov_snoc in Hc as (H1%wcov_le & H2 & _). lia.
    - destruct (change_enqueue_gap _ _ _ _) as [rp s1]. cbn [fst snd] in *. assert (Hw1 : w_ok W exc (wr s1)) by by apply (ws_ok _ _ _ _ HS1).
      destruct (rr_unsent_changes (rr s1)); [by split|]. split; [|done]. split; [|done]. by apply inv_point. }
  destruct (list.last (rr_changes (rr s))) as [[p [st ack u]]|] eqn:El; [|by apply Hnew]. destruct st, u as [cp|first last]; try (by apply Hnew).
  split; [|reflexivity]. split; [|done]. apply last_Some in El as [l El]. rewrite El, removelast_last. rewrite El in Hc. apply wcov_snoc in Hc as (Hc & Hle & _). cbn in *.
  unfold snr in Hlt. eapply inv_stretch; [exact Hi|exact El|cbn in *; lia|lia|lia].
Qed.

(** The requested node is in the list, and in that state. *)
Definition req_in (r : RemReader_t) : Prop := forall q, rr_requested_changes r = Some q -> exists rq, (q, rq) ∈ rr_changes r /\ w_state rq = CS_REQUESTED.

Lemma walk_inv ap hi s : ack_ok ap -> (forall n, 1 <= n -> says ap n -> acked k n) -> good hi s -> granted (w_allocs (wr s)) ->
  exists l r w, ack_walk (rr_changes (rr s)) ap (ack_base ap + ack_bits ap) (rr_requested None (rr s)) (wr s) = Some (l, r, w) /\
    good hi (mkSt (rr_list l r) w) /\ step (wr s) w /\ req_in (rr_list l r).
Proof.
  intros Hap Hsays [[H1 (a & b & Ha & Hc & Hb) H3 H4 H5 H6 H7] Hw] Hal.
  destruct (ack_walk_ok W R acked gone k ap Hap Hsays (rr_changes (rr s)) a b (rr_requested None (rr s)) (wr s)) as (l & r & w & E & [A B C D F G HS I]); [done|done|lia|done|done|done|].
  exists l, r, w. split; [done|]. unfold core in F. cbn in F. injection F as F1 F2 F3. split_and!; [|done|].
  - split; [|by apply (ws_ok _ _ _ _ HS)]. split; cbn; rewrite ?F2, ?F3; try done.
    + exists a, b. by split_and!.
    + eapply ids_new_ok; [done|done|apply HS].
    + intros p Hp. apply C. by apply H4.
    + intros n. rewrite B. apply H5.
  - intros q. cbn. intros Hq. destruct G as [G|(q' & rq & G1 & G2 & G3)]; [cbn in G; congruence|]. rewrite Hq in G1. injection G1 as <-. by exists rq.
Qed.

(** ** Acknowledged nodes are removed *)

Lemma ids_unique f l p rp rq : ids_ok f ((p, rp) :: l) -> (p, rq) ∈ (p, rp) :: l -> rq = rp.
Proof.
  intros (_ & Hp & _)%(ids_split _ []) [Hx|Hx]%elem_of_cons; [by injection Hx|]. destruct Hp. apply list_elem_of_fmap. by exists (p, rq).
Qed.

Lemma remove_head_ok f hi r p rp l : inv f hi r -> req_in r -> rr_changes r = (p, rp) :: l -> w_state rp = CS_ACKED ->
  exists r', change_remove_head r = Some r' /\ inv f hi r' /\ req_in r'.
Proof.
  intros [H1 (a & b & Ha & Hc & Hb) H3 H4 H5 H6 H7] Hreq El Hst. rewrite El in *. pose proof H3 as Hids. destruct (ids_split _ [] _ _ _ H3) as (_ & Hp & _).
  destruct Hc as (<- & Hl & Hc). pose proof (wcov_le _ _ _ Hc). apply Forall_cons in H6 as [Hn Hns]. unfold change_remove_head. rewrite El.
  set (r1 := if decide (rr_unsent_changes r = Some p) then _ else _). assert (Hr1 : rr_requested_changes r1 = rr_requested_changes r /\ rr_new_snr r1 = rr_new_snr r).
  { unfold r1. by case_decide. } destruct Hr1 as [Er1 En1]. assert (Hne : rr_requested_changes r <> Some p).
  { intros Eq. destruct (Hreq p Eq) as (rq & Hin & Hs). rewrite El in Hin. rewrite (ids_unique _ _ _ _ _ Hids Hin), Hst in Hs. done. }
  rewrite decide_False by by rewrite Er1. cbn [mbind option_bind]. eexists. split; [done|].
  assert (Hu : forall q, rr_unsent_changes r1 = Some q -> q ∈ l.*1).
  { intros q. unfold r1. case_decide as Hd; cbn; [destruct l as [|[x rx] l']; [done|intros [= <-]; by left]|]. intros Hq. destruct (proj1 (elem_of_cons _ _ _) (H4 q Hq)) as [->|?]; [by destruct Hd|done]. }
  split.
  - split; cbn; try done.
    + exists (w_last rp + 1), b. split_and!; [lia|done|done].
    + destruct Hids as [Hd Hf]. cbn in Hd, Hf. split; [by apply NoDup_cons in Hd as [_ Hd]|by apply Forall_cons in Hf as [_ Hf]].
    + by destruct (bool_decide _).
    + intros n Hn1 Hlt. destruct (H5 n Hn1 Hlt) as [?|[?|Hx]]; [by left|by right; left|]. apply Exists_cons in Hx as [Hx|Hx]; [|by right; right]. left. by apply Hn.
    + destruct (bool_decide _); cbn; [lia|]. by rewrite En1.
  - intros q Hq. assert (Eq : rr_requested_changes r = Some q) by (rewrite <- Er1, <- Hq; cbn; by destruct (bool_decide _)). destruct (Hreq q Eq) as (rq & Hin & Hs). rewrite El in Hin.
    exists rq. split; [|done]. cbn. apply elem_of_cons in Hin as [[= -> ->]|?]; [by rewrite Hst in Hs|done].
Qed.

Lemma remove_acked_ok f hi : forall fuel r, inv f hi r -> req_in r -> exists r', remove_acked fuel r = Some r' /\ inv f hi r'.
Proof.
  induction fuel as [|fuel IH]; intros r Hi Hreq; cbn [remove_acked]; [by exists r|]. destruct (rr_changes r) as [|[p rp] l] eqn:El; [by exists r|].
  case_decide as Hst; [|by exists r]. set (r1 := if w_relevant rp && w_ack_req rp then hc_acknowledged (w_first rp) r else r). assert (Hr1 : core r1 = core r /\ rr_requested_changes r1 = rr_requested_changes r).
  { unfold r1. by destruct (_ && _). } destruct Hr1 as [Hc1 Hq1]. assert (Hi1 : inv f hi r1) by by eapply inv_core.
  unfold core in Hc1. injection Hc1 as Hl1 _ _. destruct (remove_head_ok f hi r1 p rp l Hi1) as (r2 & -> & Hi2 & Hreq2); [|by rewrite Hl1|done|].
  { intros q. rewrite Hq1, Hl1. apply Hreq. } cbn [mbind option_bind]. by apply IH.
Qed.

Lemma must_repair_req s : rr_requested_changes (rr (must_repair nack_resp_delay pre s)) = rr_requested_changes (rr s).
Proof.
  unfold must_repair. destruct (rr_requested_changes (rr s)) eqn:E; [|done]. case_decide; [done|]. unfold sfw_rel_nack_resp_to. cbn. rewrite E.
  destruct nack_resp_delay; [|done]. destruct (rr_nack_timer (rr s)); [done|]. destruct (alloc_tmr _) as [[] w]; cbn; by rewrite ?E.
Qed.

Lemma acknack_changes_ok n_gap ap hi s : ack_ok ap -> (forall n, 1 <= n -> says ap n -> acked k n) -> good hi s -> granted (w_allocs (wr s)) -> w_max (wr s) < hi ->
  exists s', acknack_changes nack_resp_delay pre post n_gap ap s = Some s' /\ good hi s' /\ step (wr s) (wr s').
Proof.
  intros Hap Hsays Hg Hal Hmax. unfold acknack_changes. destruct (implicit_gap_ok hi (ack_base ap + ack_bits ap) s Hg Hal Hmax) as [Hg1 HS1]. set (s1 := implicit_gap _ s) in *.
  destruct (walk_inv ap hi s1 Hap Hsays Hg1) as (l & r & w & -> & Hg2 & HS2 & Hreq); [by apply (ws_alloc _ _ _ _ HS1)|]. cbn [mbind option_bind].
  set (s2 := mkSt (rr_list l r) w) in *. pose proof (must_repair_calm W R acked gone nack_resp_delay pre s2) as Hm. pose proof (calm_good _ _ _ _ _ _ _ _ Hm Hg2) as [Hi3 Hw3].
  destruct Hm as [Hc3 HS3]. set (s3 := must_repair nack_resp_delay pre s2) in *.
  destruct (remove_acked_ok _ hi (length (rr_changes (rr s3))) (rr s3) Hi3) as (r4 & -> & Hi4).
  { intros q. unfold s3 at 1. rewrite must_repair_req. unfold core in Hc3. injection Hc3 as Ec3 _ _. rewrite Ec3. apply Hreq. }
  cbn [mbind option_bind]. eexists. split; [done|]. assert (Hg4 : good hi (mkSt r4 (wr s3))) by by split.
  assert (HS : step (wr s) (wr s3)) by (etrans; [exact HS1|]; etrans; [exact HS2|exact HS3]).
  destruct (_ && _); [|done]. pose proof (all_acked_calm W R acked gone pre post (mkSt r4 (wr s3))) as HA. split; [by eapply calm_good|]. etrans; [exact HS|apply HA].
Qed.

(** ** The GAP for what is not in the list any more *)

Lemma immediate_bits_ok ap hi s i : ack_ok ap -> good hi s -> ack_base ap + ack_bits ap <= hi -> 0 <= i < immediate_bits ap (rr s) -> exc k (ack_base ap + i).
Proof.
  intros [B1 B2 B3 B4] [Hi Hw] Hb Hn. pose proof (i_hi _ _ _ _ _ _ _ _ Hi). pose proof (i_new _ _ _ _ _ _ _ _ Hi). unfold immediate_bits in Hn. destruct (rr_changes (rr s)) as [|[p rp] l] eqn:El.
  - eapply inv_excused; [exact Hi| |rewrite El; apply pend_nil]. destruct (Z.eqb_spec (ack_bits ap) 0); [|lia]. destruct (Z.ltb_spec (ack_base ap) (rr_new_snr (rr s))); [|lia].
    destruct (decide (rr_new_snr (rr s) = 2 ^ 32)) as [E|Hne]; [rewrite E, SEQNR_DELTA_edge in Hn by lia; lia|]. rewrite SEQNR_DELTA_small in Hn by lia. lia.
  - destruct (i_cov _ _ _ _ _ _ _ _ Hi) as (a & b & Ha & Hc & Hb'). rewrite El in Hc. destruct Hc as (Ea & Hl & Hc%wcov_le).
    destruct (Z.ltb_spec (ack_base ap) (w_first rp)); [|lia]. rewrite SEQNR_DELTA_small in Hn by lia.
    eapply (inv_quiet W); [exact Hi|by rewrite El|]. rewrite El. cbn. lia.
Qed.

Lemma set_first_some : forall m i bm, length bm = 8%nat -> 0 <= i -> i + Z.of_nat m <= 256 -> exists bm', set_first m i bm = Some bm'.
Proof.
  induction m as [|m IH]; intros i bm Hl Hi Hm; cbn [set_first]; [by eexists|]. destruct (SET_ADD_some bm i Hl ltac:(lia)) as (bm1 & -> & Hl1). cbn [mbind option_bind]. apply IH; [done|lia|lia].
Qed.

Lemma immediate_gap_ok ap hi s : ack_ok ap -> good hi s -> ack_base ap + ack_bits ap <= hi -> 0 <= immediate_bits ap (rr s) ->
  exists n s', immediate_gap pre (immediate_bits ap (rr s)) ap s = Some (n, s') /\ calm W R acked gone s s'.
Proof.
  intros Hap Hg Hb H0. pose proof Hap as [B1 B2 B3 B4]. pose proof (fun i => immediate_bits_ok ap hi s i Hap Hg Hb) as HE. unfold immediate_gap.
  set (N := immediate_bits ap (rr s)) in *. set (n := if _ && _ then ack_bits ap else if 256 <? N then 256 else N).
  assert (Hn : 0 <= n <= 256 /\ n <= N /\ (ack_bits ap <> 0 -> n <= ack_bits ap)).
  { unfold n. destruct (Z.eqb_spec (ack_bits ap) 0); cbn [negb andb]; [destruct (Z.ltb_spec 256 N); lia|]. destruct (Z.ltb_spec (ack_bits ap) N); [lia|]. destruct (Z.ltb_spec 256 N); lia. }
  assert (Hbits : exists bits, (if ack_bits ap =? 0 then set_first (Z.to_nat n) 0 (w_junk (wr s))
     else if 8 <? Z.shiftr (n + 31) 5 then None else zslice (ack_map ap) 0 (Z.shiftr (n + 31) 5)) = Some bits).
  { destruct (Z.eqb_spec (ack_bits ap) 0) as [E0|E0]; [apply set_first_some; [apply Hg|lia|lia]|]. rewrite shiftr5. assert (Hq : 0 <= (n + 31) / 32 < 9) by (split; [apply Z.div_pos; lia|apply Z.div_lt_upper_bound; lia]).
    destruct (Z.ltb_spec 8 ((n + 31) / 32)); [lia|]. assert (Hz : (n + 31) / 32 < zlen (ack_map ap) + 1) by (apply Z.div_lt_upper_bound; lia).
    eexists. apply zslice_Some; lia. }
  destruct Hbits as [bits ->]. cbn [mbind option_bind]. eexists _, _. split; [done|]. apply calm_w, add_msg_step. split; [done|]. cbn. intros j m <- Hm [?|(i & Hi & -> & _)]; [lia|]. apply HE. lia.
Qed.

Lemma immediate_bits_pos ap r : ack_ok ap -> 0 <= immediate_bits ap r.
Proof.
  intros [B1 B2 B3 B4]. unfold immediate_bits. assert (Hd : forall s1 s2, 0 <= SEQNR_DELTA s1 s2).
  { intros s1 s2. unfold SEQNR_DELTA. destruct (_ =? _); [apply wrap_range; lia|]. destruct (_ =? _); [apply wrap_range; lia|lia]. }
  destruct (rr_changes r) as [|[p rp] l]; [destruct (_ =? 0); [|lia]|]; destruct (_ <? _); auto; lia.
Qed.

(** ** Restart of a durable reader *)

(** The cache has what the reader still needs, up to [hi]. *)
Definition cache_ok (hi : Z) (changes : list (Z * option WChange)) : Prop :=
  replay_ok W R acked gone pre 1 changes /\ replay_hi 1 changes <= hi /\ forall m, replay_hi 1 changes <= m < hi -> exc k m.

Lemma replay_cached hi changes s : good 1 s -> granted (w_allocs (wr s)) -> hi <= 2 ^ 32 -> cache_ok hi changes ->
  exists s', hc_replay push_mode pre post changes s = Some s' /\ good hi s' /\ step (wr s) (wr s').
Proof.
  intros Hg Hal Hhi (Hr & Hle & HE). destruct (replay_step W R acked gone push_mode pre post Hpre Hpost changes 1 s Hg Hal Hr) as (s' & E & [Hi Hw] & HS).
  exists s'. split_and!; [done| |done]. split; [|done]. by eapply inv_raise.
Qed.

(** A proxy with an empty list. *)
Lemma good_empty s : w_ok W exc (wr s) -> rr_changes (rr s) = [] -> rr_unsent_changes (rr s) = None -> rr_new_snr (rr s) = 1 -> good 1 s.
Proof.
  intros Hw El Eu En. split; [|done]. split; rewrite ?El, ?Eu, ?En; try done.
  - exists 1, 1. by cbn.
  - split; [apply NoDup_nil_2|apply Forall_nil_2].
  - intros n Hn%HR Hlt. lia.
Qed.

Lemma restart_ok hi changes s : good hi s -> rr_durable (rr s) = true -> granted (w_allocs (wr s)) -> hi <= 2 ^ 32 -> cache_ok hi changes ->
  exists s', sfw_restart push_mode pre post changes s = Some s' /\ good hi s' /\ step (wr s) (wr s').
Proof.
  intros [_ Hw] Hd Hal Hhi Hc. unfold sfw_restart. cbn [rr_durable rr upd_rr rr_requested rr_unsent rr_alive rr_snr init_states rr_count rr_repair rr_transmit rr_control]. rewrite Hd.
  match goal with |- context [hc_replay _ _ _ _ ?x] => set (s1 := x) end. destruct (replay_cached hi changes s1) as (s2 & -> & Hg2 & HS2); [by apply good_empty|done|done|done|].
  cbn [mbind option_bind]. eexists. split; [done|]. pose proof (start_sending_calm W R acked gone push_mode pre post Hpre Hpost hi s2 Hg2) as HC. split; [by eapply calm_good|]. etrans; [exact HS2|apply HC].
Qed.

(** [sfw_rel_acknack] *)
Lemma acknack_ok ap count final changes hi hi' s : ack_base ap = 0 /\ ack_bits ap = 0 \/ ack_ok ap -> (forall n, 1 <= n -> says ap n -> acked k n) ->
  good hi s -> granted (w_allocs (wr s)) -> hi <= hi' <= 2 ^ 32 -> w_max (wr s) < hi' -> (forall m, hi <= m < hi' -> exc k m) -> ack_base ap + ack_bits ap <= hi' ->
  (rr_durable (rr s) = true -> cache_ok hi' changes) ->
  exists s', sfw_rel_acknack push_mode nack_resp_delay pre post ap count final changes s = Some s' /\ good hi' s' /\ step (wr s) (wr s').
Proof.
  intros Hap Hsays Hg Hal Hhi Hmax HE Hb Hcache. assert (Hg' : good hi' s) by (destruct Hg as [Hi Hw]; split; [by eapply inv_raise|done]). clear Hg. unfold sfw_rel_acknack.
  destruct (_ =? rr_last_ack _); [by exists s|]. set (s1 := upd_w (w_backoff 0) s). set (s2 := if rr_peer_alive (rr s1) then s1 else _).
  assert (H1 : calm W R acked gone s s1) by by apply calm_w, w_step_same. assert (H2 : calm W R acked gone s s2) by (unfold s2; destruct (rr_peer_alive _); [done|]; etrans; [exact H1|]; by apply calm_rr).
  assert (Hd2 : rr_durable (rr s2) = rr_durable (rr s)) by (unfold s2; by destruct (rr_peer_alive _)).
  assert (Hdone : forall s3, calm W R acked gone s2 s3 -> exists s', Some s3 = Some s' /\ good hi' s' /\ step (wr s) (wr s')).
  { intros s3 H3. assert (HC : calm W R acked gone s s3) by by etrans. exists s3. split_and!; [done|by eapply calm_good|apply HC]. }
  destruct (_ && _ && _).
  - apply Hdone. etrans; [by apply (calm_rr _ _ _ _ (rr_transmit RRTS_PUSHING))|]. etrans; [apply (activate_calm _ _ _ _ pre)|]. by apply calm_rr.
  - set (s3 := upd_rr (rr_ack count) s2). assert (H3 : calm W R acked gone s2 s3) by by apply calm_rr. assert (Hg3 : good hi' s3) by (eapply calm_good; [|exact Hg']; by etrans).
    assert (HS3 : step (wr s) (wr s3)) by (etrans; [apply H2|apply H3]). assert (Hal3 : granted (w_allocs (wr s3))) by by apply (ws_alloc _ _ _ _ HS3).
    destruct ((ack_base ap =? 0) && (ack_bits ap =? 0)) eqn:E0.
    + apply Hdone. etrans; [exact H3|]. destruct (negb final && _); [|reflexivity]. by eapply send_alive_calm.
    + destruct Hap as [[Ea Eb]|Hap]; [by rewrite Ea, Eb in E0|]. destruct (negb _ && rr_durable (rr s3)) eqn:Ed.
      * apply andb_true_iff in Ed as [_ Ed]. destruct (restart_ok hi' changes s3 Hg3 Ed Hal3) as (s4 & E4 & Hg4 & HS4); [lia|apply Hcache; by rewrite <- Hd2|].
        exists s4. split_and!; [done|done|by etrans].
      * assert (Hgap : exists n s4, (if immediate_bits ap (rr s3) =? 0 then Some (0, s3) else immediate_gap pre (immediate_bits ap (rr s3)) ap s3) = Some (n, s4) /\ calm W R acked gone s3 s4).
        { destruct (immediate_bits ap (rr s3) =? 0); [eexists _, s3; split; [done|reflexivity]|]. apply (immediate_gap_ok ap hi' s3 Hap Hg3 Hb). by apply immediate_bits_pos. }
        destruct Hgap as (n & s4 & -> & H4). cbn [mbind option_bind]. assert (HS4 : step (wr s) (wr s4)) by (etrans; [exact HS3|apply H4]).
        destruct (acknack_changes_ok n ap hi' s4) as (s5 & E5 & Hg5 & HS5); [done|done|by eapply calm_good|by apply (ws_alloc _ _ _ _ HS4)|by rewrite (ws_max _ _ _ _ HS4)|].
        exists s5. split_and!; [done|done|by etrans].
Qed.

End Acknack.
