(* ===== verification/SfrwRemove.v ===== *)
(** Start and removal: a proxy that starts, and samples that leave the cache.
    A sample that is removed becomes a range, which is joined with the ranges
    next to it; the other samples stay in the list. *)

From stdpp Require Import gmap.
From S2P Require Import Prelude Seqnr Clist Sfrr SfrrProps Sfrw SfrwProps SfrwSend SfrwAck.
From stdpp Require Import list.

#[local] Open Scope Z_scope.

(** ** Ranges are joined *)

Section Kept.
  Context (W : Change_t -> Prop) (acked : nat -> Z -> Prop) (k : nat).

(** The samples stay; ranges may change. *)
Record kept (l l' : WList) : Prop := {
  k_data : forall x, x ∈ l -> w_relevant (snd x) = true -> x ∈ l';
  k_ids : (l'.*1) `sublist_of` (l.*1);
  k_nodes : Forall (node_ok W acked k) l -> Forall (node_ok W acked k) l';
  k_cov : forall a b, wcov a l b -> exists a', a <= a' /\ wcov a' l' b
}.

#[export] Instance kept_refl : Reflexive kept.
Proof. intros l. split; [done|done|done|]. intros a b H. by exists a. Qed.

#[export] Instance kept_trans : Transitive kept.
Proof.
  intros l1 l2 l3 [A1 B1 C1 D1] [A2 B2 C2 D2]. split; [auto|by etrans|auto|]. intros a b (a1 & H1 & H2)%D1. apply D2 in H2 as (a2 & H3 & H4). exists a2. split; [lia|done].
Qed.

Lemma is_data_relevant n x : is_data n x -> w_relevant (snd x) = true.
Proof. intros (cp & E & _). unfold w_relevant. by rewrite E. Qed.

Lemma kept_pend n l l' : kept l l' -> pend n l -> pend n l'.
Proof. intros HK (x & Hx & Hd)%Exists_exists. apply Exists_exists. exists x. split; [|done]. apply (k_data _ _ HK); [done|by eapply is_data_relevant]. Qed.

Lemma kept_node l l' p rp : kept l l' -> (p, rp) ∈ l -> w_relevant rp = true -> p ∈ l'.*1.
Proof. intros HK Hin Hr. apply list_elem_of_fmap. exists (p, rp). split; [done|]. by apply (k_data _ _ HK). Qed.

Lemma range_node p rp : w_relevant rp = false -> node_ok W acked k (p, rp).
Proof. intros Hr. pose proof (range_nodes W acked k [(p, rp)]) as H. apply Forall_singleton in H; [done|]. by apply Forall_singleton. Qed.

(** Two ranges become one, at the first address or at the second. *)
Lemma kept_merge l1 l2 p rp q rq x rx : w_relevant rp = false -> w_relevant rq = false -> (x = p \/ x = q) -> w_u rx = WRange (w_first rp) (w_last rq) ->
  kept (l1 ++ (p, rp) :: (q, rq) :: l2) (l1 ++ (x, rx) :: l2).
Proof.
  intros Hp Hq Hx Hu. split.
  - intros y. rewrite !elem_of_app, !elem_of_cons. intros [?|[->|[->|?]]] Hy; [by left|cbn in Hy; congruence|cbn in Hy; congruence|by right; right].
  - rewrite !fmap_app. cbn. apply sublist_app; [done|]. destruct Hx as [->| ->]; [apply sublist_skip; by apply sublist_cons|by apply sublist_cons, sublist_skip].
  - intros [H1 [_ [_ H2]%Forall_cons]%Forall_cons]%Forall_app. apply Forall_app. split; [done|]. constructor; [|done]. apply range_node. unfold w_relevant. by rewrite Hu.
  - intros a b Hc. exists a. split; [lia|]. apply wcov_app in Hc as (c & H1 & H2 & H3 & H4 & H5 & H6). apply wcov_app. exists c. split; [done|]. cbn. unfold w_first at 1, w_last at 1 2. rewrite Hu.
    split_and!; [done|lia|done].
Qed.

Lemma drop_gaps_kept l : kept l (drop_gaps l).
Proof.
  induction l as [|[p rp] l IH]; [reflexivity|]. cbn [drop_gaps]. destruct (w_relevant rp) eqn:Er; [reflexivity|]. etrans; [|exact IH]. split.
  - intros x [->|?]%elem_of_cons Hx; [cbn in Hx; congruence|done].
  - by apply sublist_cons.
  - by intros [_ ?]%Forall_cons.
  - intros a b (H1 & H2 & H3). exists (w_last rp + 1). split; [lia|done].
Qed.

(** [coagulate], where the sample of node [p] was removed. *)
Lemma coagulate_kept snr p rp l1 l2 : NoDup ((l1 ++ (p, rp) :: l2).*1) -> w_u rp = WRange snr snr ->
  exists l', coagulate snr p (list.last l1) (head l2) (l1 ++ (p, rp) :: l2) = Some l' /\ kept (l1 ++ (p, rp) :: l2) l'.
Proof.
  intros Hn Hu. assert (Hr : w_relevant rp = false) by (unfold w_relevant; by rewrite Hu). unfold coagulate.
  (* the part before the node *)
  assert (Hprev : exists m q rq, (match list.last l1 with
      | Some (q, prp) => if w_relevant prp then Some (p, snr, l1 ++ (p, rp) :: l2)
          else l ← ref_set q (fun rp => w_set_range (w_first rp) snr rp) (l1 ++ (p, rp) :: l2); l ← ref_remove p l; Some (q, w_first prp, l)
      | None => Some (p, snr, l1 ++ (p, rp) :: l2)
      end) = Some (q, w_first rq, m ++ (q, rq) :: l2) /\ w_relevant rq = false /\ kept (l1 ++ (p, rp) :: l2) (m ++ (q, rq) :: l2)).
  { assert (Hsame : exists m q rq, Some (p, snr, l1 ++ (p, rp) :: l2) = Some (q, w_first rq, m ++ (q, rq) :: l2) /\ w_relevant rq = false /\ kept (l1 ++ (p, rp) :: l2) (m ++ (q, rq) :: l2)).
    { exists l1, p, rp. split_and!; [unfold w_first; by rewrite Hu|done|reflexivity]. }
    destruct (list.last l1) as [[q prp]|] eqn:El; [|done]. destruct (w_relevant prp) eqn:Eq; [done|]. apply last_Some in El as [m ->].
    rewrite <- !app_assoc in *. cbn [app] in *. rewrite fmap_app in Hn. cbn in Hn. apply NoDup_app in Hn as (_ & Hd & Hn). apply NoDup_cons in Hn as [Hqp Hn].
    rewrite ref_set_app by (intros Hq; apply (Hd q Hq); by left). cbn [mbind option_bind].
    pose proof (ref_remove_app p rp (m ++ [(q, w_set_range (w_first prp) snr prp)]) l2) as HR. rewrite <- app_assoc in HR. cbn [app] in HR. rewrite HR.
    2:{ rewrite fmap_app, elem_of_app. cbn. intros [Hp|Hp%list_elem_of_singleton]; [apply (Hd p Hp); right; by left|]. apply Hqp. rewrite Hp. by left. }
    rewrite <- app_assoc. cbn [app mbind option_bind]. exists m, q, (w_set_range (w_first prp) snr prp). split_and!; [done|done|].
    apply kept_merge; [done|done|by left|]. cbn. unfold w_last. by rewrite Hu. }
  destruct Hprev as (m & q & rq & -> & Hrq & HK1). cbn [mbind option_bind].
  assert (Hnext : exists l', (match head l2 with
      | Some (n, nrp) => if w_relevant nrp then Some (m ++ (q, rq) :: l2)
          else l ← ref_set n (fun rp => w_set_range (w_first rq) (w_last rp) rp) (m ++ (q, rq) :: l2); ref_remove q l
      | None => Some (m ++ (q, rq) :: l2)
      end) = Some l' /\ kept (m ++ (q, rq) :: l2) l').
  { destruct l2 as [|[n nrp] l2]; cbn [head]; [by eexists|]. destruct (w_relevant nrp) eqn:En; [by eexists|].
    assert (Hn2 : NoDup ((m ++ (q, rq) :: (n, nrp) :: l2).*1)) by (eapply sublist_NoDup; [exact Hn|apply HK1]). rewrite fmap_app in Hn2. cbn in Hn2. apply NoDup_app in Hn2 as (_ & Hd & [Hq _]%NoDup_cons).
    pose proof (ref_set_app n (fun rp => w_set_range (w_first rq) (w_last rp) rp) nrp (m ++ [(q, rq)]) l2) as HS. rewrite <- app_assoc in HS. cbn [app] in HS. rewrite HS.
    2:{ rewrite fmap_app, elem_of_app. cbn. intros [Hp|Hp%list_elem_of_singleton]; [apply (Hd n Hp); right; by left|]. apply Hq. rewrite Hp. by left. }
    rewrite <- app_assoc. cbn [app mbind option_bind]. rewrite ref_remove_app by (intros Hp; apply (Hd q Hp); by left). eexists. split; [done|]. apply kept_merge; [done|done|by right|done]. }
  destruct Hnext as (l' & -> & HK2). cbn [mbind option_bind]. eexists. split; [done|]. etrans; [exact HK1|]. etrans; [exact HK2|apply drop_gaps_kept].
Qed.

End Kept.

(** ** The node with a number *)

Lemma find_from_split snr l : forall prev prev' x, find_from snr prev l = Some (prev', x) ->
  exists m l2, l = m ++ x :: l2 /\ list.last (prev :: m) = Some prev' /\ w_contains snr (snd x) = true.
Proof.
  induction l as [|[p rp] l IH]; intros prev prev' x; cbn [find_from]; [done|]. destruct (w_contains snr rp) eqn:Ec.
  - intros [= <- <-]. by exists [], l.
  - intros (m & l2 & -> & Hl & Hx)%IH. exists ((p, rp) :: m), l2. split_and!; [done| |done]. by rewrite last_cons_cons.
Qed.

Lemma find_change_split snr l prev p rp : find_change snr l = Some (prev, (p, rp)) ->
  exists l1 l2, l = l1 ++ (p, rp) :: l2 /\ prev = list.last l1 /\ w_contains snr rp = true.
Proof.
  unfold find_change. destruct l as [|[p0 rp0] l]; [done|]. destruct (snr <? w_first rp0); [done|]. destruct (w_contains snr rp0) eqn:E0; [intros [= <- <- <-]; by exists [], l|].
  destruct (list.last ((p0, rp0) :: l)) as [[q lp]|] eqn:El; [|done]. destruct (w_last lp <? snr); [done|]. destruct (w_contains snr lp) eqn:E1.
  - apply last_Some in El as [m El]. rewrite El, removelast_last. intros [= <- <- <-]. by exists m, [].
  - destruct (find_from snr (p0, rp0) l) as [[prev' x]|] eqn:Ef; [|done]. cbn. intros [= <- ->]. apply find_from_split in Ef as (m & l2 & -> & Hl & Hx). exists ((p0, rp0) :: m), l2. by split_and!.
Qed.

Lemma first_relevant_in l q : first_relevant l = Some q -> exists rq, (q, rq) ∈ l /\ w_relevant rq = true.
Proof.
  induction l as [|[p rp] l IH]; cbn [first_relevant]; [done|]. destruct (w_relevant rp) eqn:E; [intros [= <-]; exists rp; split; [by left|done]|].
  intros (rq & Hin & Hr)%IH. exists rq. split; [by right|done].
Qed.

Section Remove.
  Context (W : Change_t -> Prop) (R acked gone : nat -> Z -> Prop) (HR : forall k n, R k n -> 1 <= n).
  Context (push_mode : bool) (pre post : list RemReader_t).
  Context (Hpre : forall j r, pre !! j = Some r -> quiet (excused R acked gone) j r).
  Context (Hpost : forall j r, post !! j = Some r -> quiet (excused R acked gone) (S (length pre + j)) r).

Abbreviation k := (self pre).
Abbreviation exc := (excused R acked gone).
Abbreviation inv := (inv W R acked gone k).
Abbreviation good := (good W R acked gone k).
Abbreviation step := (w_step W exc).

(** A removal that the code can do: the number is not in a range, and the
    pointer to what was not sent does not point to a range. *)
Definition rem_ok (snr : Z) (r : RemReader_t) : Prop :=
  (forall p rp, (p, rp) ∈ rr_changes r -> w_contains snr rp = true -> w_relevant rp = true) /\
  (forall p rp, (p, rp) ∈ rr_changes r -> rr_unsent_changes r = Some p -> w_relevant rp = true).

(** The removed sample becomes a range. *)
Lemma removed_kept f hi r l1 p rp cp l2 l' : inv f hi r -> rr_changes r = l1 ++ (p, rp) :: l2 -> w_u rp = WData cp -> let snr := c_seqnr (wc_change cp) in
  gone k snr -> kept W acked k (l1 ++ (p, w_set_range snr snr rp) :: l2) l' -> rr_unsent_changes r = None -> inv f hi (rr_list l' r).
Proof.
  intros [H1 (a & b & Ha & Hc & Hb) H3 H4 H5 H6 H7] El Eu snr Hg HK Hun. rewrite El in *. assert (Hf : w_first rp = snr /\ w_last rp = snr) by (unfold w_first, w_last; by rewrite Eu). destruct Hf as [Hf Hl].
  split; cbn; try done.
  - destruct (k_cov _ _ _ _ _ HK a b) as (a' & Ha' & Hc'); [|exists a', b; split_and!; [lia|done|done]]. apply wcov_app in Hc as (c & C1 & C2 & C3 & C4). rewrite Hf, Hl in *. apply wcov_app. exists c. by cbn.
  - pose proof (k_ids _ _ _ _ _ HK) as Hsub. rewrite fmap_app in Hsub. cbn in Hsub. unfold ids_ok in *. rewrite fmap_app in H3. cbn in H3. destruct H3 as [Hd Hf3]. split; [by eapply sublist_NoDup|].
    rewrite Forall_forall in *. intros x Hx. apply Hf3. by apply (sublist_subseteq _ _ Hsub).
  - rewrite Hun. done.
  - intros n Hn Hlt. destruct (H5 n Hn Hlt) as [?|[?|Hp]]; [by left|by right; left|]. right. apply pend_app in Hp as [Hp|Hp].
    + right. eapply kept_pend; [exact HK|]. apply pend_app. by left.
    + apply Exists_cons in Hp as [Hp%is_data_range|Hp]; [left; destruct Hp as [Hp _]; rewrite Hf in Hp; by subst|]. right. eapply kept_pend; [exact HK|]. apply pend_app. right. by apply Exists_cons_tl.
  - apply (k_nodes _ _ _ _ _ HK). apply Forall_app in H6 as [N1 [N2 N3]%Forall_cons]. apply Forall_app. split; [done|]. constructor; [|done]. by apply range_node.
Qed.

Lemma rem_change_ok hi snr s : good hi s -> gone k snr -> rem_ok snr (rr s) -> exists s', sfw_rel_rem_change snr s = Some s' /\ good hi s' /\ wr s' = wr s.
Proof.
  intros [Hi Hw] Hg [Hr1 Hr2]. unfold sfw_rel_rem_change. destruct (find_change snr (rr_changes (rr s))) as [[prev [p rp]]|] eqn:Ef; [|by exists s].
  apply find_change_split in Ef as (l1 & l2 & El & -> & Hc). pose proof (i_ids _ _ _ _ _ _ _ _ Hi) as Hids. rewrite El in Hids, Hr1, Hr2.
  assert (Hin : (p, rp) ∈ l1 ++ (p, rp) :: l2) by (apply elem_of_app; right; by left). specialize (Hr1 _ _ Hin Hc). unfold w_relevant in Hr1. destruct (w_u rp) as [cp|] eqn:Eu; [|done]. clear Hr1.
  assert (Hs : c_seqnr (wc_change cp) = snr). { apply andb_true_iff in Hc as [A%Z.leb_le B%Z.leb_le]. unfold w_first, w_last in *. rewrite Eu in *. lia. } subst snr.
  destruct (ids_split _ _ _ _ _ Hids) as (Hp1 & Hp2 & _). rewrite El, ref_from_app, ref_set_app by done. cbn [mbind option_bind]. set (snr := c_seqnr (wc_change cp)) in *.
  destruct (coagulate_kept W acked k snr p (w_set_range snr snr rp) l1 l2) as (l' & -> & HK). { destruct Hids as [Hd _]. by rewrite fmap_app in *. } { done. }
  cbn [mbind option_bind]. eexists. split; [done|]. split; [|done]. split; [|done]. cbn [rr wr].
  (* the pointer to what was not sent *)
  set (r1 := if decide (rr_unsent_changes (rr s) = Some p) then _ else _). assert (Hu : forall q, rr_unsent_changes r1 = Some q -> q ∈ l'.*1).
  { intros q. unfold r1. case_decide as Hd; cbn.
    - intros (rq & Hq & Hrq)%first_relevant_in. eapply kept_node; [exact HK| |exact Hrq]. apply elem_of_app. right. by right.
    - intros Hq. pose proof (i_unsent _ _ _ _ _ _ _ _ Hi q Hq) as Hi4. rewrite El in Hi4. apply list_elem_of_fmap in Hi4 as ([q' rq] & -> & Hq'). cbn in *. specialize (Hr2 _ _ Hq' Hq).
      eapply kept_node; [exact HK| |exact Hr2]. apply elem_of_app. apply elem_of_app in Hq' as [?|[[= -> ->]|?]%elem_of_cons]; [by left|by destruct Hd|by right; right]. }
  assert (Hi0 : inv (w_fresh (wr s)) hi (rr_unsent None (rr s))) by by apply inv_point. pose proof (removed_kept _ _ _ l1 p rp cp l2 l' Hi0 El Eu Hg HK eq_refl) as Hi1.
  set (r2 := if decide (rr_astate r1 = RRAS_REPAIRING) then _ else _). assert (Hr2' : rr_unsent_changes r2 = rr_unsent_changes r1 /\ rr_new_snr r2 = rr_new_snr (rr s)).
  { unfold r2. assert (rr_new_snr r1 = rr_new_snr (rr s)) by (unfold r1; by case_decide). repeat case_decide; done. } destruct Hr2' as [E1 E2].
  eapply inv_core; [apply (inv_point _ _ _ _ _ _ _ _ (rr_unsent_changes r1) Hi1)| |done]; [exact Hu|]. unfold core. cbn. by rewrite E1, E2.
Qed.

(** ** Start and end *)

(** A proxy before it is started. *)
Definition rr_fresh (r : RemReader_t) : Prop := rr_changes r = [] /\ rr_unsent_changes r = None /\ rr_new_snr r = 0.

Lemma start_ok changes s : rr_fresh (rr s) -> w_ok W exc (wr s) -> granted (w_allocs (wr s)) -> let hi := w_max (wr s) + 1 in 1 <= hi <= 2 ^ 32 ->
  (if rr_durable (rr s) then cache_ok W R acked gone pre hi changes else forall m, 1 <= m < hi -> exc k m) ->
  exists s', sfw_rel_start push_mode pre post changes s = Some s' /\ good hi s' /\ step (wr s) (wr s').
Proof.
  intros (El & Eu & En) Hw Hal hi Hhi Hc. unfold sfw_rel_start. set (s1 := upd_rr _ s). change (rr_durable (rr s1)) with (rr_durable (rr s)).
  assert (Hs : exists s2, (if rr_durable (rr s) then hc_replay push_mode pre post changes (upd_rr (rr_snr (rr_new_snr (rr s1) + 1)) s1)
     else Some (upd_rr (rr_snr (w_max (wr s1) + 1)) s1)) = Some s2 /\ good hi s2 /\ step (wr s) (wr s2)).
  { destruct (rr_durable (rr s)).
    - apply (replay_cached W R acked gone push_mode pre post Hpre Hpost hi changes (upd_rr (rr_snr (rr_new_snr (rr s1) + 1)) s1)); [|done|lia|done].
      apply good_empty; [done|done|done|done|]. cbn. rewrite En. lia.
    - eexists. split; [done|]. split; [|reflexivity]. split; [|done]. split; cbn; rewrite ?El, ?Eu; try done.
      + exists 1, 1. split_and!; [lia|done|lia].
      + split; [apply NoDup_nil_2|apply Forall_nil_2].
      + intros n Hn Hlt. destruct (Hc n ltac:(pose proof (HR _ _ Hn); lia) Hn); auto.
      + fold hi. lia. }
  destruct Hs as (s2 & -> & Hg2 & HS2). cbn [mbind option_bind]. eexists. split; [done|].
  pose proof (start_sending_calm W R acked gone push_mode pre post Hpre Hpost hi s2 Hg2) as HC. split; [by eapply calm_good|]. etrans; [exact HS2|apply HC].
Qed.

Lemma finish_ok s : rr_changes (rr (sfw_rel_finish pre post s)) = [] /\ step (wr s) (wr (sfw_rel_finish pre post s)).
Proof.
  unfold sfw_rel_finish. set (s1 := upd_rr change_delete_enqueued s). destruct (all_acked_calm W R acked gone pre post s1) as [Hc HS]. cbn [rr wr upd_rr]. split; [|done].
  unfold core in Hc. injection Hc as Hc _ _. exact Hc.
Qed.

End Remove.
