(* ===== verification/SfrwTheorems.v ===== *)
(** The reliable writer as a whole: runs of events on a writer and its proxies,
    with a record of what the readers acknowledged and what the cache removed. *)

From stdpp Require Import gmap.
From S2P Require Import Prelude Seqnr Clist Sfrr SfrrProps Sfrw SfrwProps SfrwSend SfrwAck SfrwRemove.
From stdpp Require Import list.

#[local] Open Scope Z_scope.

(** ** More is acknowledged or removed *)

Section Mono.
  Context (W : Change_t -> Prop) (R acked gone acked' gone' : nat -> Z -> Prop).
  Context (Ha : forall k n, acked k n -> acked' k n) (Hg : forall k n, gone k n -> gone' k n).

Lemma excused_mono k n : excused R acked gone k n -> excused R acked' gone' k n.
Proof. intros H HR. destruct (H HR); auto. Qed.

Lemma msg_mono i m : msg_ok W (excused R acked gone) i m -> msg_ok W (excused R acked' gone') i m.
Proof. intros [H1 H2]. split; [done|]. intros k n Hf Hn Hs. eapply excused_mono, H2; done. Qed.

Lemma inv_mono k f hi r : inv W R acked gone k f hi r -> inv W R acked' gone' k f hi r.
Proof.
  intros [H1 H2 H3 H4 H5 H6 H7]. split; try done.
  - intros n Hn Hlt. destruct (H5 n Hn Hlt) as [?|[?|?]]; auto.
  - eapply Forall_impl; [exact H6|]. intros x [N1 N2]. split; [done|]. intros Hs n Hn. apply Ha. by apply N2.
Qed.

End Mono.

(** ** Runs *)

(** The life of a proxy: the numbers before [hi] were given to it. *)
Inductive Phase := Fresh | Running (hi : Z) | Finished.

(** What happened to a proxy: the ACKNACKs of its reader, and the samples that
    were removed. *)
Record Ghost := mkGhost { g_phase : Phase; g_acks : list AckNack; g_gone : list Z }.

Definition g_event (e : RrEvent) (a : WAnswers) (g : Ghost) : Ghost :=
  match e, g_phase g with
  | EStart _, _ => mkGhost (Running (wa_max a + 1)) (g_acks g) (g_gone g)
  | ENewChange _ snr, _ => mkGhost (Running (snr + 1)) (g_acks g) (g_gone g)
  | EAcknack ap _ _ _, Running hi => mkGhost (Running (Z.max hi (wa_max a + 1))) (ap :: g_acks g) (g_gone g)
  | ERemChange snr, _ => mkGhost (g_phase g) (g_acks g) (snr :: g_gone g)
  | EFinish, _ => mkGhost Finished (g_acks g) (g_gone g)
  | _, _ => g
  end.

Definition ghosts_event (e : WEvent) (a : WAnswers) (gs : list Ghost) : list Ghost :=
  match e with EProxy k e => alter (g_event e a) k gs | EHeartbeatTo => gs end.

Definition was_acked (gs : list Ghost) (k : nat) (n : Z) : Prop := exists g, gs !! k = Some g /\ Exists (fun ap => says ap n) (g_acks g).
Definition was_removed (gs : list Ghost) (k : nat) (n : Z) : Prop := exists g, gs !! k = Some g /\ n ∈ g_gone g.

Section Writer.
  (** The changes of the writer, and the numbers of the samples for each reader. *)
  Context (W : Change_t -> Prop) (R : nat -> Z -> Prop) (HR : forall k n, R k n -> 1 <= n).
  Context (push_mode nack_resp_delay : bool).

Definition may_skip (gs : list Ghost) : nat -> Z -> Prop := excused R (was_acked gs) (was_removed gs).

(** What an event of a proxy needs; [gs] includes the event. *)
Definition proxy_event_ok (gs : list Ghost) (k : nat) (pre : list RemReader_t) (e : RrEvent) (a : WAnswers) (ph : Phase) (r : RemReader_t) : Prop :=
  match e, ph with
  | EStart changes, Fresh =>
      0 <= wa_max a < 2 ^ 32 /\
      (if rr_durable r then cache_ok W R (was_acked gs) (was_removed gs) pre (wa_max a + 1) changes else forall m, 1 <= m < wa_max a + 1 -> may_skip gs k m)
  | ENewChange cp snr, Running hi => next_ok W R (was_acked gs) (was_removed gs) k hi cp snr
  | ESend, Running _ | EAliveTo, Running _ | ENackTo, Running _ | EFinish, Running _ => True
  | EAcknack ap _ _ changes, Running hi =>
      let hi' := Z.max hi (wa_max a + 1) in
      (ack_base ap = 0 /\ ack_bits ap = 0 \/ ack_ok ap) /\ wa_max a < 2 ^ 32 /\ (forall m, hi <= m <= wa_max a -> may_skip gs k m) /\
      ack_base ap + ack_bits ap <= hi' /\ (rr_durable r = true -> cache_ok W R (was_acked gs) (was_removed gs) pre hi' changes)
  | ERemChange snr, Running _ => rem_ok snr r
  | _, _ => False
  end.

(** The surroundings: memory for nodes, and a cache whose first number is
    behind only what may be skipped. *)
Record answers_ok (gs : list Ghost) (a : WAnswers) : Prop := {
  an_mem : granted (wa_allocs a);
  an_min : forall k n, 1 <= n < wa_min a -> may_skip gs k n;
  an_junk : length (wa_junk a) = 8%nat
}.

Definition event_ok (gs : list Ghost) (e : WEvent) (a : WAnswers) (rs : list RemReader_t) : Prop :=
  let gs' := ghosts_event e a gs in
  answers_ok gs' a /\
  match e with
  | EHeartbeatTo => True
  | EProxy k e => exists g r, gs !! k = Some g /\ rs !! k = Some r /\ proxy_event_ok gs' k (take k rs) e a (g_phase g) r
  end.

Fixpoint w_run (evs : list (WEvent * WAnswers)) (rs : list RemReader_t) (w : Writer) : option (list RemReader_t * Writer) :=
  match evs with
  | [] => Some (rs, w)
  | (e, a) :: evs => '(rs, w) ← w_event push_mode nack_resp_delay e a rs w; w_run evs rs w
  end.

Definition ghosts_run (evs : list (WEvent * WAnswers)) (gs : list Ghost) : list Ghost := fold_left (fun gs '(e, a) => ghosts_event e a gs) evs gs.

(** The run is permitted, up to an undefined step. *)
Fixpoint run_ok (evs : list (WEvent * WAnswers)) (gs : list Ghost) (rs : list RemReader_t) (w : Writer) : Prop :=
  match evs with
  | [] => True
  | (e, a) :: evs =>
      event_ok gs e a rs /\
      match w_event push_mode nack_resp_delay e a rs w with
      | Some (rs, w) => run_ok evs (ghosts_event e a gs) rs w
      | None => True
      end
  end.

(** ** The invariant of the writer *)

Definition proxy_ok (gs : list Ghost) (f k : nat) (g : Ghost) (r : RemReader_t) : Prop :=
  match g_phase g with
  | Fresh => rr_fresh r
  | Running hi => inv W R (was_acked gs) (was_removed gs) k f hi r
  | Finished => rr_changes r = []
  end.

Record writer_ok (gs : list Ghost) (rs : list RemReader_t) (w : Writer) : Prop := {
  wk_len : length gs = length rs;
  wk_proxy : forall k g r, gs !! k = Some g -> rs !! k = Some r -> proxy_ok gs (w_fresh w) k g r;
  wk_out : Forall (fun '(i, m) => msg_ok W (may_skip gs) i m) (w_out w)
}.

Lemma proxy_quiet gs f k g r : proxy_ok gs f k g r -> quiet (may_skip gs) k r.
Proof. unfold proxy_ok. destruct (g_phase g); [intros (E & _) H; by rewrite E in H|by apply inv_quiet|intros E H; by rewrite E in H]. Qed.

(** ** Steps *)

Lemma ghost_grows e a g : (forall n, Exists (fun ap => says ap n) (g_acks g) -> Exists (fun ap => says ap n) (g_acks (g_event e a g))) /\
  (forall n, n ∈ g_gone g -> n ∈ g_gone (g_event e a g)).
Proof. destruct e; cbn; try done; [destruct (g_phase g); cbn; try done; split; [by intros; apply Exists_cons_tl|done]|]. split; [done|]. intros n Hn. by right. Qed.

Lemma ghosts_lookup e a (k j : nat) (gs : list Ghost) g : gs !! j = Some g -> alter (g_event e a) k gs !! j = Some (if decide (k = j) then g_event e a g else g).
Proof. intros Hj. rewrite list_lookup_alter. case_decide as Hd; [subst; by rewrite Hj|done]. Qed.

Lemma ghosts_acked e a gs k n : was_acked gs k n -> was_acked (ghosts_event e a gs) k n.
Proof.
  destruct e as [j e|]; [|done]. intros (g & Hg & Hx). exists (if decide (j = k) then g_event e a g else g). split; [by apply ghosts_lookup|]. case_decide; [by apply ghost_grows|done].
Qed.

Lemma ghosts_removed e a gs k n : was_removed gs k n -> was_removed (ghosts_event e a gs) k n.
Proof.
  destruct e as [j e|]; [|done]. intros (g & Hg & Hx). exists (if decide (j = k) then g_event e a g else g). split; [by apply ghosts_lookup|]. case_decide; [by apply ghost_grows|done].
Qed.

(** An event of one proxy. *)
Lemma proxy_event_step gs pre post e a g r w : let k := self pre in
  (forall j r, pre !! j = Some r -> quiet (may_skip gs) j r) -> (forall j r, post !! j = Some r -> quiet (may_skip gs) (S (length pre + j)) r) ->
  w_ok W (may_skip gs) (w_answers a w) -> granted (wa_allocs a) -> gs !! k = Some (g_event e a g) ->
  proxy_ok gs (w_fresh w) k g r -> proxy_event_ok gs k pre e a (g_phase g) r ->
  exists s', rr_event push_mode nack_resp_delay pre post e (mkSt r (w_answers a w)) = Some s' /\
    w_step W (may_skip gs) (w_answers a w) (wr s') /\ proxy_ok gs (w_fresh (wr s')) k (g_event e a g) (rr s').
Proof.
  intros k Hpre Hpost Hw Hal Hgs Hp He. unfold proxy_ok in *. set (s := mkSt r (w_answers a w)). assert (Hcalm : forall hi s', good W R (was_acked gs) (was_removed gs) k hi s -> calm W R (was_acked gs) (was_removed gs) s s' ->
    w_step W (may_skip gs) (w_answers a w) (wr s') /\ inv W R (was_acked gs) (was_removed gs) k (w_fresh (wr s')) hi (rr s')).
  { intros hi s' Hg HC. split; [apply HC|]. by apply (calm_good _ _ _ _ _ _ _ _ HC Hg). }
  destruct e as [changes|cp snr| |ap count final changes|snr| | |]; cbn [rr_event g_event g_phase]; destruct (g_phase g) as [|hi|] eqn:Eph; try done; cbn [proxy_event_ok] in He; rewrite ?Eph; try (assert (Hg : good W R (was_acked gs) (was_removed gs) k hi s) by done).
  - destruct He as [Hmax Hc]. destruct (start_ok W R _ _ HR push_mode pre post Hpre Hpost changes s Hp Hw Hal) as (s' & -> & [Hi _] & HS); [cbn; lia|done|]. by exists s'.
  - destruct (new_change_ok W R _ _ push_mode pre post Hpre Hpost hi s cp snr Hg Hal He) as (b & s' & -> & [Hi _] & HS). by exists s'.
  - destruct (send_data_ok W R _ _ pre post Hpre Hpost hi s Hg) as (again & s' & -> & Hg' & HS). cbn [mbind option_bind]. eexists. split; [done|]. destruct again; [split; [done|apply Hg']|].
    split; [etrans; [exact HS|by apply w_step_same]|]. apply Hg'.
  - destruct He as (Hap & Hmax & HE & Hb & Hc). destruct (i_hi _ _ _ _ _ _ _ _ Hp). cbn [g_event] in Hgs. rewrite Eph in Hgs.
    destruct (acknack_ok W R _ _ HR push_mode nack_resp_delay pre post Hpre Hpost ap count final changes hi (Z.max hi (wa_max a + 1)) s) as (s' & E & [Hi _] & HS); try done.
    + intros n _ Hs. eexists. split; [done|]. by constructor.
    + lia.
    + cbn. lia.
    + intros m Hm. apply HE. lia.
    + by exists s'.
  - destruct (rem_change_ok W R _ _ pre hi snr s Hg) as (s' & -> & [Hi _] & Ew); [|done|exists s'; split_and!; [done|by rewrite Ew|done]].
    eexists. split; [done|]. cbn. by left.
  - eexists. split; [done|]. apply (Hcalm hi); [done|]. by eapply send_alive_calm.
  - eexists. split; [done|]. apply (Hcalm hi); [done|]. unfold nack_resp_tmr_to. etrans; [|apply nack_resp_calm]. by apply calm_rr.
  - eexists. split; [done|]. by destruct (finish_ok W R (was_acked gs) (was_removed gs) pre post s).
Qed.

Lemma answers_w_ok gs a w : answers_ok gs a -> Forall (fun '(i, m) => msg_ok W (may_skip gs) i m) (w_out w) -> w_ok W (may_skip gs) (w_answers a w).
Proof. intros [A B C] Ho. by split. Qed.

Lemma writer_step gs e a rs w : writer_ok gs rs w -> event_ok gs e a rs -> let gs' := ghosts_event e a gs in
  exists rs' w', w_event push_mode nack_resp_delay e a rs w = Some (rs', w') /\ writer_ok gs' rs' w'.
Proof.
  intros [Hlen Hpr Hout] [Ha He] gs'. assert (Hout' : Forall (fun '(i, m) => msg_ok W (may_skip gs') i m) (w_out w)).
  { eapply Forall_impl; [exact Hout|]. intros [i m]. apply msg_mono; intros k n; [apply ghosts_acked|apply ghosts_removed]. }
  assert (Hpr' : forall k g r, gs !! k = Some g -> rs !! k = Some r -> proxy_ok gs' (w_fresh w) k g r).
  { intros k g r Hg Hr. specialize (Hpr k g r Hg Hr). unfold proxy_ok in *. destruct (g_phase g); try done. eapply inv_mono; [..|exact Hpr]; intros j n; [apply ghosts_acked|apply ghosts_removed]. }
  assert (Hq : forall k r, rs !! k = Some r -> quiet (may_skip gs') k r).
  { intros k r Hr. destruct (lookup_lt_is_Some_2 gs k) as [g Hg]; [rewrite Hlen; by eapply lookup_lt_Some|]. eapply proxy_quiet. by apply Hpr'. }
  pose proof (answers_w_ok gs' a w Ha Hout') as Hw. destruct e as [k e|]; cbn [w_event].
  - destruct He as (g & r & Hg & Hr & He). pose proof (lookup_lt_Some _ _ _ Hr) as Hk. assert (Hself : self (take k rs) = k) by (unfold self; rewrite length_take; lia).
    rewrite Hr. cbn [mbind option_bind]. destruct (proxy_event_step gs' (take k rs) (drop (S k) rs) e a g r w) as (s' & -> & HS & Hp').
    + intros j x Hj. apply Hq. by apply lookup_take_Some in Hj as [Hj _].
    + intros j x Hj. apply Hq. rewrite lookup_drop in Hj. replace (S (length (take k rs) + j)) with (S k + j)%nat; [done|]. rewrite length_take. lia.
    + done.
    + apply Ha.
    + rewrite Hself. unfold gs'. cbn [ghosts_event]. rewrite (ghosts_lookup e a k k gs g Hg). by rewrite decide_True.
    + rewrite Hself. by apply Hpr'.
    + rewrite Hself. done.
    + cbn [mbind option_bind]. eexists _, _. split; [done|]. rewrite Hself in Hp'. assert (Hlen' : length gs' = length rs) by (unfold gs'; cbn; by rewrite length_alter). split.
      * rewrite Hlen', length_app. cbn. rewrite length_take, length_drop. lia.
      * intros j gj rj Hgj Hrj. destruct (decide (j = k)) as [->|Hne].
        { unfold gs' in Hgj. cbn [ghosts_event] in Hgj. rewrite (ghosts_lookup e a k k gs g Hg), decide_True in Hgj by done. injection Hgj as <-.
          rewrite lookup_app_r in Hrj by (rewrite length_take; lia). rewrite length_take, Nat.min_l, Nat.sub_diag in Hrj by lia. by injection Hrj as <-. }
        assert (Hrj' : rs !! j = Some rj).
        { rewrite <- (take_drop_middle rs k r Hr). destruct (decide (j < k)%nat).
          - rewrite lookup_app_l in * by (rewrite length_take; lia). done.
          - rewrite lookup_app_r in * by (rewrite length_take; lia). rewrite length_take, Nat.min_l in * by lia. destruct (j - k)%nat as [|i] eqn:Ei; [lia|]. done. }
        unfold gs' in Hgj. cbn [ghosts_event] in Hgj. rewrite list_lookup_alter, decide_False in Hgj by done. specialize (Hpr' j gj rj Hgj Hrj'). unfold proxy_ok in *. destruct (g_phase gj); try done.
        eapply inv_core; [exact Hpr'|done|apply (ws_fresh _ _ _ _ HS)].
      * by apply (ws_ok _ _ _ _ HS).
  - eexists _, _. split; [done|]. pose proof (heartbeat_to_step W (may_skip gs') rs (w_answers a w) Hw Hq) as HS. split.
    + done.
    + intros j gj rj Hgj Hrj. specialize (Hpr' j gj rj Hgj Hrj). unfold proxy_ok in *. destruct (g_phase gj); try done. eapply inv_core; [exact Hpr'|done|apply (ws_fresh _ _ _ _ HS)].
    + by apply (ws_ok _ _ _ _ HS).
Qed.

Lemma run_step evs : forall gs rs w, writer_ok gs rs w -> run_ok evs gs rs w -> exists rs' w', w_run evs rs w = Some (rs', w') /\ writer_ok (ghosts_run evs gs) rs' w'.
Proof.
  induction evs as [|[e a] evs IH]; intros gs rs w Hw Hr; cbn [w_run run_ok] in *; [by exists rs, w|]. destruct Hr as [He Hr].
  destruct (writer_step gs e a rs w Hw He) as (rs1 & w1 & E & Hw1). rewrite E in Hr. rewrite E. cbn [mbind option_bind]. by apply IH.
Qed.

(** ** Theorems *)

Definition ghosts_new (rs : list RemReader_t) : list Ghost := replicate (length rs) (mkGhost Fresh [] []).

Lemma ghosts_run_length evs : forall gs, length (ghosts_run evs gs) = length gs.
Proof. induction evs as [|[e a] evs IH]; intros gs; [done|]. unfold ghosts_run in *. cbn [fold_left]. rewrite IH. destruct e; [apply length_alter|done]. Qed.

Lemma writer_new rs w : Forall rr_fresh rs -> w_out w = [] -> writer_ok (ghosts_new rs) rs w.
Proof.
  intros Hf Ho. unfold ghosts_new. split; [by rewrite length_replicate| |by rewrite Ho]. intros k g r [-> _]%lookup_replicate Hr. unfold proxy_ok. cbn. rewrite Forall_forall in Hf. eapply Hf, list_elem_of_lookup_2, Hr.
Qed.

(** C4. No sample is lost by a reliable writer with any number of proxies, in
    any order of new samples, transmissions, ACKNACKs, removals, timeouts,
    starts and ends of proxies that satisfies the conditions below: no handler
    follows a dangling pointer, accesses a set out of its bounds or loops for
    ever; afterwards the list of each running proxy is a contiguous run of
    numbers, and every number below its limit that is a sample for its reader is
    in the list as that sample, was acknowledged by the reader, or was removed
    from the cache.  The events
    are those of [run_ok]: proxies start once and fresh; there is memory for
    the nodes of the lists (timers and messages may be refused); sequence
    numbers stay below 2^32; changes are given to a proxy in increasing order,
    and the numbers left out, as those before the first one of the cache, are
    such that the reader may skip them; an ACKNACK is empty, or has a base of 1
    at least and up to 256 bits, and asks for nothing beyond what was written; a
    sample is removed only when its number is not inside a range of the list
    and no range is the next thing to be sent ([rem_ok]; [rem_change_dangling]
    is a removal that breaks the second condition). *)
Theorem writer_keeps evs rs w : Forall rr_fresh rs -> w_out w = [] -> run_ok evs (ghosts_new rs) rs w ->
  exists rs' w', w_run evs rs w = Some (rs', w') /\ length rs' = length rs /\ let gs := ghosts_run evs (ghosts_new rs) in
  forall k g r hi, gs !! k = Some g -> rs' !! k = Some r -> g_phase g = Running hi ->
    (exists a b, 1 <= a /\ wcov a (rr_changes r) b /\ b <= hi) /\
    (forall p, rr_unsent_changes r = Some p -> p ∈ (rr_changes r).*1) /\
    (forall n, R k n -> n < hi -> was_acked gs k n \/ was_removed gs k n \/ pend n (rr_changes r)).
Proof.
  intros Hf Ho Hr. destruct (run_step evs _ rs w (writer_new rs w Hf Ho) Hr) as (rs' & w' & E & [Hlen Hp _]). exists rs', w'. split; [done|]. split.
  - rewrite <- Hlen, ghosts_run_length. by unfold ghosts_new; rewrite length_replicate.
  - intros gs k g r hi Hg Hrk Hph. specialize (Hp k g r Hg Hrk). unfold proxy_ok in Hp. rewrite Hph in Hp. split_and!; apply Hp.
Qed.

(** C12. What a reliable writer says is true, under the same conditions
    [run_ok]: memory for the nodes of the lists, sequence numbers below 2^32,
    changes in increasing order, ACKNACKs that are empty or well formed and ask
    for nothing beyond what was written, removals as in [rem_ok].  Each DATA
    message carries a change of the writer, and each GAP or HEARTBEAT lets a
    reader skip only numbers that are no samples for it, that it has
    acknowledged, or that were removed from the cache.
    (Without memory for nodes a GAP can cover a sample that is not
    acknowledged, because its node is not in the list.) *)
Theorem writer_tells evs rs w : Forall rr_fresh rs -> w_out w = [] -> run_ok evs (ghosts_new rs) rs w ->
  exists rs' w', w_run evs rs w = Some (rs', w') /\ let gs := ghosts_run evs (ghosts_new rs) in
  forall i m, (i, m) ∈ w_out w' ->
    (forall cp dest, m = MData cp dest -> W cp) /\
    (forall k n, for_reader k i m -> 1 <= n -> skips m n -> R k n -> was_acked gs k n \/ was_removed gs k n).
Proof.
  intros Hf Ho Hr. destruct (run_step evs _ rs w (writer_new rs w Hf Ho) Hr) as (rs' & w' & E & [_ _ Hout]). exists rs', w'. split; [done|].
  intros gs i m Him. rewrite Forall_forall in Hout. specialize (Hout _ Him). cbn in Hout. exact Hout.
Qed.

End Writer.

(** ** A writer with one reader *)

Definition ex_reader : RemReader_t := mkRR [] None None 0 RRCS_INITIAL RRTS_IDLE RRAS_WAITING false 0 0 None [] true false true false.
Definition ex_writer : Writer := mkW false 0 0 ∅ ∅ [] 1 [] [] [] 0 0 [].
Definition ex_answers (max : Z) : WAnswers := mkWAns [] [] [] 1 max (replicate 8 0).
Definition ex_change (n : Z) : WChange := mkWC (Z.to_nat n) (mkChange n (Z.to_nat n)) false false.
Definition ex_ack (base bits word count : Z) : WEvent := EProxy 0 (EAcknack (mkAck base bits [word]) count false []).
Definition ex_new (n : Z) : WEvent := EProxy 0 (ENewChange (Some (ex_change n)) n).
Definition ex_none (n : Z) : WEvent := EProxy 0 (ENewChange None n).

(** Samples 1 and 3 are for the reader; it asks for 1 and 3, then has all. *)
Definition ex_events : list (WEvent * WAnswers) :=
  [(EProxy 0 (EStart []), ex_answers 0); (ex_new 1, ex_answers 1); (ex_ack 0 0 0 1, ex_answers 1); (EProxy 0 ESend, ex_answers 1);
   (ex_none 2, ex_answers 2); (ex_new 3, ex_answers 3); (EProxy 0 ESend, ex_answers 3); (EHeartbeatTo, ex_answers 3);
   (ex_ack 1 3 (2 ^ 31 + 2 ^ 29) 2, ex_answers 3); (EProxy 0 ESend, ex_answers 3); (EProxy 0 (ERemChange 3), ex_answers 3); (ex_ack 3 0 0 3, ex_answers 3)].

Definition ex_sample (k : nat) (n : Z) : Prop := n = 1 \/ n = 3.

Definition ex_written (cp : Change_t) : Prop := ex_sample 0 (c_seqnr cp).

Lemma ex_sample_pos k n : ex_sample k n -> 1 <= n.
Proof. unfold ex_sample. lia. Qed.

Lemma run_cons W R push nack e a evs gs gs' rs w rs' w' : w_event push nack e a rs w = Some (rs', w') -> ghosts_event e a gs = gs' -> event_ok W R gs e a rs ->
  run_ok W R push nack evs gs' rs' w' -> run_ok W R push nack ((e, a) :: evs) gs rs w.
Proof. intros E Hg He Hr. cbn [run_ok]. rewrite E, Hg. by split. Qed.

(** The states of a run are evaluated; what an event needs remains. *)
Ltac eval_run :=
  lazymatch goal with |- run_ok _ _ _ _ (_ :: _) _ _ _ => eapply run_cons; [vm_compute; reflexivity|vm_compute; reflexivity| |] end.

Lemma ex_answers_ok R gs max : answers_ok R gs (ex_answers max).
Proof. split; [constructor|intros k n Hn; cbn in Hn; lia|done]. Qed.

Lemma ex_event_ok W R g e max r : proxy_event_ok W R [g_event e (ex_answers max) g] 0 [] e (ex_answers max) (g_phase g) r ->
  event_ok W R [g] (EProxy 0 e) (ex_answers max) [r].
Proof. intros H. split; [apply ex_answers_ok|]. by exists g, r. Qed.

Lemma ex_next (W : Change_t -> Prop) (R : nat -> Z -> Prop) gs cp n : 1 <= n < 2 ^ 32 ->
  match cp with Some c => c_seqnr (wc_change c) = n /\ W (wc_change c) | None => ~ R 0%nat n end ->
  next_ok W R (was_acked gs) (was_removed gs) 0 n cp n.
Proof. intros Hn Hc. split; [lia|]. split; [lia|]. destruct cp; [done|]. by intros H%Hc. Qed.

Lemma ex_acked W R gs ap count changes max r : ack_base ap = 0 /\ ack_bits ap = 0 \/ ack_ok ap -> 0 <= max < 2 ^ 32 - 1 -> ack_base ap + ack_bits ap <= max + 1 -> rr_durable r = false ->
  proxy_event_ok W R gs 0 [] (EAcknack ap count false changes) (ex_answers max) (Running (max + 1)) r.
Proof. intros Hap Hm Hb Hd. cbn. split_and!; [done|lia|lia|lia|by rewrite Hd]. Qed.

(** The events of the example are permitted. *)
Lemma ex_run : run_ok ex_written ex_sample true false ex_events (ghosts_new [ex_reader]) [ex_reader] ex_writer.
Proof.
  unfold ex_events. repeat eval_run; [..|exact I].
  all: try (split; [apply ex_answers_ok|exact I]). all: apply ex_event_ok; try exact I.
  - cbn. split; [lia|]. intros m Hm. lia.
  - apply ex_next; [lia|]. split; [done|by left].
  - apply (ex_acked _ _ _ _ _ _ 1); [by left|lia|cbn; lia|done].
  - apply ex_next; [lia|]. unfold ex_sample. lia.
  - apply ex_next; [lia|]. split; [done|by right].
  - apply (ex_acked _ _ _ _ _ _ 3); [right|lia|cbn; lia|done]. split; cbn; unfold zlen; cbn; lia.
  - split; [|done]. intros p rp. cbn [rr_changes]. rewrite !elem_of_cons, elem_of_nil. intros [H|[H|[H|[]]]]; injection H as -> ->; vm_compute; congruence.
  - apply (ex_acked _ _ _ _ _ _ 3); [right|lia|cbn; lia|done]. split; cbn; unfold zlen; cbn; lia.
Qed.

Lemma writer_keeps_witness :
  exists rs' w', w_run true false ex_events [ex_reader] ex_writer = Some (rs', w') /\ length rs' = 1%nat /\ let gs := ghosts_run ex_events (ghosts_new [ex_reader]) in
  forall k g r hi, gs !! k = Some g -> rs' !! k = Some r -> g_phase g = Running hi ->
    (exists a b, 1 <= a /\ wcov a (rr_changes r) b /\ b <= hi) /\ (forall p, rr_unsent_changes r = Some p -> p ∈ (rr_changes r).*1) /\
    (forall n, ex_sample k n -> n < hi -> was_acked gs k n \/ was_removed gs k n \/ pend n (rr_changes r)).
Proof.
  apply (writer_keeps ex_written ex_sample ex_sample_pos true false ex_events [ex_reader] ex_writer); [|reflexivity|exact ex_run].
  constructor; [by split_and!|constructor].
Defined.

Lemma writer_tells_witness :
  exists rs' w', w_run true false ex_events [ex_reader] ex_writer = Some (rs', w') /\ let gs := ghosts_run ex_events (ghosts_new [ex_reader]) in
  forall i m, (i, m) ∈ w_out w' ->
    (forall cp dest, m = MData cp dest -> ex_written cp) /\
    (forall k n, for_reader k i m -> 1 <= n -> skips m n -> ex_sample k n -> was_acked gs k n \/ was_removed gs k n).
Proof.
  apply (writer_tells ex_written ex_sample ex_sample_pos true false ex_events [ex_reader] ex_writer); [|reflexivity|exact ex_run].
  constructor; [by split_and!|constructor].
Defined.

(** What the example sends: five DATA and GAP messages, and a HEARTBEAT. *)
Lemma ex_sends : (fun x => length (w_out (snd x))) <$> w_run true false ex_events [ex_reader] ex_writer = Some 6%nat.
Proof. vm_compute. reflexivity. Qed.

(** ** A removal that breaks the list *)

(** A writer whose first number was not for the reader, and whose third is
    removed before anything is sent, follows a dangling pointer at the next
    transmission: the removal drops the range at the front of the list, to
    which the pointer to the first unsent change still points. *)
Theorem rem_change_dangling :
  let evs := [(EProxy 0 (EStart []), ex_answers 0); (ex_ack 0 0 0 1, ex_answers 0); (ex_none 1, ex_answers 1); (ex_new 2, ex_answers 2); (ex_new 3, ex_answers 3);
              (EProxy 0 (ERemChange 3), ex_answers 3)] in
  exists r w p, w_run true false evs [ex_reader] ex_writer = Some ([r], w) /\
    rr_unsent_changes r = Some p /\ (p ∉ (rr_changes r).*1) /\ pend 2 (rr_changes r) /\
    w_run true false (evs ++ [(EProxy 0 ESend, ex_answers 3)]) [ex_reader] ex_writer = None.
Proof.
  intros evs. unfold evs. eexists _, _, _. split; [vm_compute; reflexivity|]. split; [reflexivity|]. cbn [rr_changes]. split; [|split].
  - cbn. rewrite !elem_of_cons, elem_of_nil. intros [H|[H|[]]]; discriminate H.
  - constructor. eexists. by split.
  - vm_compute. reflexivity.
Qed.
