(* ===== verification/Session.v ===== *)
(** A reliable writer and a reliable reader connected by a network that loses,
    repeats and reorders messages: every sample for the reader is delivered,
    once and in order, or stays with the writer, unless the cache of the writer
    removes it.  The two components meet in the messages ([w_out], [acks])
    only; their invariants are those of [SfrwTheorems] and [SfrrProps]. *)

From stdpp Require Import gmap.
From S2P Require Import Prelude Seqnr Clist Sfrr SfrrProps SfrrKept SfrrTheorems Sfrw SfrwProps SfrwSend SfrwAck SfrwRemove SfrwTheorems.
From stdpp Require Import list.

#[local] Open Scope Z_scope.

(** ** ACKNACKs of the reader *)

(** The list of changes starts where delivery stands. *)
Definition aligned (r : RemWriter_t) : Prop :=
  rw_blocked r = false /\ forall rp l, rw_changes r = rp :: l -> ref_first rp = rw_seqnr_next r.

Lemma cov_node l : forall a b s, cov a l b -> a <= s < b -> exists l1 rp l2, l = l1 ++ rp :: l2 /\ ref_first rp <= s <= ref_last rp.
Proof.
  induction l as [|rp l IH]; intros a b s Hc Hs; [cbn in Hc; lia|]. destruct Hc as (Hf & Hl & Hc). destruct (decide (s <= ref_last rp)).
  - exists [], rp, l. split; [done|lia].
  - destruct (IH _ b s Hc) as (l1 & x & l2 & -> & Hx); [lia|]. by exists (rp :: l1), x, l2.
Qed.

(** A number that an aligned ACKNACK acknowledges was received, or excused. *)
Lemma ack_truth sent exc r ans r' : SfrrProps.inv sent exc r -> aligned r -> zlen (junk ans) = 8 -> sfr_rel_do_ack_nl false ans r = Some r' ->
  exists ap, acks r' = acks r ++ [ap] /\ forall s, 1 <= s -> says ap s -> exc s \/ exists cp, held cp r /\ c_seqnr cp = s.
Proof.
  intros Hi [Hbl Hhead] Hj E. destruct (do_ack_exact sent exc r ans Hi Hbl Hhead Hj) as (Hcov & n & bm & E' & Hn & Hbits). rewrite E in E'. injection E' as ->.
  eexists. split; [done|]. destruct Hi as (Hnext & a & b & Ha & [_ Hok] & Hh & _). intros s Hs [Hlt|[Hlt Hc]]; cbn in *.
  - assert (Hfr : front (rw_changes r) (rw_seqnr_next r) = rw_seqnr_next r).
    { destruct (rw_changes r) as [|rp l] eqn:El; [done|]. cbn. rewrite (Hhead rp l eq_refl). lia. }
    rewrite Hfr in Hh. destruct (hi_all _ _ _ _ Hh s ltac:(lia)) as [?|(cp & Hcp & Es)]; [by left|]. right. exists cp. split; [by left|done].
  - destruct (decide (s < rw_seqnr_next r)) as [Hl|Hge].
    + assert (Hfr : front (rw_changes r) (rw_seqnr_next r) = rw_seqnr_next r).
      { destruct (rw_changes r) as [|rp l] eqn:El; [done|]. cbn. rewrite (Hhead rp l eq_refl). lia. }
      rewrite Hfr in Hh. destruct (hi_all _ _ _ _ Hh s ltac:(lia)) as [?|(cp & Hcp & Es)]; [by left|]. right. exists cp. split; [by left|done].
    + rewrite (Hbits (s - rw_seqnr_next r)) in Hc by lia. replace (rw_seqnr_next r + (s - rw_seqnr_next r)) with s in Hc by lia.
      destruct (cov_node _ _ _ s Hcov ltac:(lia)) as (l1 & rp & l2 & El & Hx). rewrite El in Hc, Hcov. rewrite (missing_in_node _ _ _ _ _ _ Hcov Hx) in Hc. injection Hc as Hst%bool_decide_eq_false.
      rewrite El in Hok. apply Forall_app in Hok as [_ [Hok _]%Forall_cons]. unfold ref_ok in Hok. destruct rp as [st [cp|first last]]; cbn [u state] in *.
      * right. exists cp. destruct Hok as [-> _]. split; [right; rewrite El; apply elem_of_app; right; by left|]. unfold ref_first, ref_last in Hx. cbn in Hx. lia.
      * left. destruct Hok as [->|[_ HX]]; [done|]. by apply HX.
Qed.

(** ** Sessions *)

Inductive SEvent := SWriter (e : WEvent) (a : WAnswers) | SReader (e : RwEvent) (ans : Answers).

Section Session.
  (** The changes that are written, the numbers of the samples for each reader;
      the reader is that of proxy [k] of the writer. *)
  Context (W : Change_t -> Prop) (R : nat -> Z -> Prop) (HR : forall k n, R k n -> 1 <= n).
  Context (push_mode nack_resp_delay hb_resp_delay : bool) (k : nat).

Definition s_event (e : SEvent) (s : list RemReader_t * Writer * RemWriter_t) : option (list RemReader_t * Writer * RemWriter_t) :=
  let '(rs, w, r) := s in
  match e with
  | SWriter e a => '(rs, w) ← w_event push_mode nack_resp_delay e a rs w; Some (rs, w, r)
  | SReader e ans => r ← rw_event false hb_resp_delay e ans r; Some (rs, w, r)
  end.

Fixpoint s_run (evs : list SEvent) (s : list RemReader_t * Writer * RemWriter_t) : option (list RemReader_t * Writer * RemWriter_t) :=
  match evs with [] => Some s | e :: evs => s ← s_event e s; s_run evs s end.

(** The message that the reader receives was sent to it, at some time. *)
Definition from_writer (e : RwEvent) (out : list (nat * WMsg)) : Prop :=
  match e with
  | EvData cp ignore => (exists i dest, (i, MData cp dest) ∈ out /\ for_reader k i (MData cp dest)) /\ (ignore = true -> ~ R k (c_seqnr cp))
  | EvGap start base numbits bm => (k, MGap start base numbits bm) ∈ out
  | EvHeartbeat first last count final live => exists i dest, (i, MHeartbeat first last count final live dest) ∈ out /\ for_reader k i (MHeartbeat first last count final live dest)
  | _ => True
  end.

(** The ACKNACK that the writer receives from the reader was sent by it. *)
Definition from_reader (e : WEvent) (r : RemWriter_t) : Prop :=
  match e with EProxy j (EAcknack ap _ _ _) => j = k -> ap ∈ acks r | _ => True end.

Definition s_ghosts (e : SEvent) (gs : list Ghost) : list Ghost := match e with SWriter e a => ghosts_event e a gs | SReader _ _ => gs end.
Definition s_ghosts_run (evs : list SEvent) (gs : list Ghost) : list Ghost := fold_left (fun gs e => s_ghosts e gs) evs gs.

Definition s_event_ok (gs : list Ghost) (e : SEvent) (s : list RemReader_t * Writer * RemWriter_t) : Prop :=
  let '(rs, w, r) := s in
  match e with
  | SWriter e a => event_ok W R gs e a rs /\ from_reader e r
  | SReader e ans => from_writer e (w_out w) /\ permitted e ans r = true
  end.

(** An ACKNACK is sent when the list starts where delivery stands. *)
Definition s_aligned (e : SEvent) (s s' : list RemReader_t * Writer * RemWriter_t) : Prop :=
  match e with SReader EvAliveTo _ => True | _ => acks (snd s') = acks (snd s) \/ aligned (snd s') end.

Fixpoint session_ok (must_align : bool) (evs : list SEvent) (gs : list Ghost) (s : list RemReader_t * Writer * RemWriter_t) : Prop :=
  match evs with
  | [] => True
  | e :: evs =>
      s_event_ok gs e s /\
      match s_event e s with
      | Some s' => (must_align = true -> s_aligned e s s') /\ session_ok must_align evs (s_ghosts e gs) s'
      | None => True
      end
  end.

(** ** The invariant of a session *)

(** The reader has the sample with a number, or will not get it. *)
Definition safe (gs : list Ghost) (r : RemWriter_t) (n : Z) : Prop := R k n -> (exists cp, held cp r /\ c_seqnr cp = n) \/ was_removed gs k n.

Record session_inv (gs : list Ghost) (s : list RemReader_t * Writer * RemWriter_t) : Prop := {
  s_writer : writer_ok W R gs s.1.1 s.1.2;
  s_reader : SfrrProps.inv W (safe gs s.2) s.2;
  s_acks : forall ap n, ap ∈ acks s.2 -> 1 <= n -> says ap n -> safe gs s.2 n;
  s_known : forall g ap, gs !! k = Some g -> ap ∈ g_acks g -> ap ∈ acks s.2
}.

Lemma reader_mono (sent : Change_t -> Prop) (exc exc' : Z -> Prop) r : (forall n, exc n -> exc' n) -> SfrrProps.inv sent exc r -> SfrrProps.inv sent exc' r.
Proof.
  intros HX (Hn & a & b & Ha & [Hc Hok] & [H1 H2 H3 H4] & Ht). split; [done|]. exists a, b. split_and!; [done| | |done].
  - split; [done|]. eapply Forall_impl; [exact Hok|]. intros [st [cp|f l]]; [done|]. unfold ref_ok. cbn. intros [?|[? HE]]; [by left|]. right. split; [done|]. intros x Hx. by apply HX, HE.
  - split; [done|done|done|]. intros x Hx. destruct (H4 x Hx); auto.
Qed.

Lemma safe_step gs gs' r r' n : (forall cp, held cp r -> held cp r') -> (forall n, was_removed gs k n -> was_removed gs' k n) -> safe gs r n -> safe gs' r' n.
Proof. intros H1 H2 H HRn. destruct (H HRn) as [(cp & Hcp & E)|?]; [left; exists cp; auto|auto]. Qed.

(** What a message of the writer lets the reader skip is safe. *)
Lemma message_safe gs s i m n : session_inv gs s -> (i, m) ∈ w_out s.1.2 -> for_reader k i m -> 1 <= n -> skips m n -> safe gs s.2 n.
Proof.
  intros [[_ _ Hout] _ Hacks Hknown] Hin Hf Hn Hs HRn. rewrite Forall_forall in Hout. destruct (Hout _ Hin) as [_ Hmsg].
  destruct (Hmsg k n Hf Hn Hs HRn) as [(g & Hg & (ap & Hap & Hsay)%Exists_exists)|Hrem]; [|by right]. by apply (Hacks ap n (Hknown g ap Hg Hap) Hn Hsay).
Qed.

Lemma message_sent gs s i cp dest : session_inv gs s -> (i, MData cp dest) ∈ w_out s.1.2 -> W cp.
Proof. intros [[_ _ Hout] _ _ _] Hin. rewrite Forall_forall in Hout. destruct (Hout _ Hin) as [Hmsg _]. by eapply Hmsg. Qed.

Lemma excuses_safe gs s e n : session_inv gs s -> from_writer e (w_out s.1.2) -> excuses e n -> 1 <= n -> safe gs s.2 n.
Proof.
  intros Hs Hf He Hn. destruct e as [cp ignore|start base numbits bm|first last count final live| | |]; cbn in He; try done.
  - destruct He as [-> ->]. destruct Hf as [_ Hf]. intros HRn. by destruct (Hf eq_refl).
  - eapply message_safe; [done|exact Hf|done|done|]. destruct He as [?|(i & Hi & -> & Hb)]; [by left|]. right. by exists i.
  - destruct Hf as (i & dest & Hin & Hf). by eapply message_safe.
Qed.

Lemma g_event_acks e a g ap : ap ∈ g_acks (g_event e a g) -> ap ∈ g_acks g \/ exists c f ch, e = EAcknack ap c f ch.
Proof.
  destruct e; cbn; try (by left). destruct (g_phase g); cbn; try (by left). intros [->|?]%elem_of_cons; [right; by eexists _, _, _|by left].
Qed.

Lemma writer_side gs e a rs w r : session_inv gs (rs, w, r) -> event_ok W R gs e a rs -> from_reader e r ->
  exists rs' w', w_event push_mode nack_resp_delay e a rs w = Some (rs', w') /\ session_inv (ghosts_event e a gs) (rs', w', r).
Proof.
  intros [Hw Hr Ha Hk] He Hf. destruct (writer_step W R HR push_mode nack_resp_delay gs e a rs w Hw He) as (rs' & w' & E & Hw'). exists rs', w'. split; [done|].
  assert (Hsafe : forall n, safe gs r n -> safe (ghosts_event e a gs) r n) by (intros n; apply safe_step; [done|apply ghosts_removed]).
  split; cbn in *; [done|by eapply reader_mono|intros; apply Hsafe; by eapply Ha|]. intros g ap Hg Hap. destruct e as [j e|]; [|by apply (Hk g)]. cbn in Hg, Hf.
  rewrite list_lookup_alter in Hg. case_decide as Hd; [|by apply (Hk g)]. subst j. destruct (gs !! k) as [g0|] eqn:Eg; [|done]. injection Hg as <-.
  apply g_event_acks in Hap as [Hap|(c & f & ch & ->)]; [by apply (Hk g0)|by apply Hf].
Qed.

Lemma reader_side gs e ans rs w r : session_inv gs (rs, w, r) -> from_writer e (w_out w) -> permitted e ans r = true ->
  exists r', rw_event false hb_resp_delay e ans r = Some r' /\ (s_aligned (SReader e ans) (rs, w, r) (rs, w, r') -> session_inv gs (rs, w, r')).
Proof.
  intros Hs Hf Hp. pose proof Hs as [Hw Hr Ha Hk]. cbn in *. destruct (permitted_answers e ans r Hp) as (Hal & Hcl & Hj).
  destruct (inv_event false hb_resp_delay W (safe gs r) ans Hal Hcl Hj e r Hp) as (r' & E & Hr'); [| |done|].
  - intros n Hn HRn. pose proof (HR _ _ HRn). by apply (excuses_safe gs (rs, w, r) e n Hs Hf Hn).
  - intros cp ->. destruct Hf as [(i & dest & Hin & _) _]. by apply (message_sent gs (rs, w, r) i cp dest Hs).
  - exists r'. split; [done|]. intros Hal'. destruct (event_kept _ _ _ _ _ _ E) as [Hheld Hacks].
    assert (Hsafe : forall n, safe gs r n -> safe gs r' n) by (intros n; by apply safe_step).
    assert (Hold : forall ap n, ap ∈ acks r -> 1 <= n -> says ap n -> safe gs r' n) by (intros ap n Hap Hn Hsay; apply Hsafe; by apply (Ha ap n)).
    assert (Hempty : forall ap n, ack_base ap = 0 -> ack_bits ap = 0 -> 1 <= n -> ~ says ap n) by (intros ap n E1 E2 Hn [?|[? _]]; lia).
    split; cbn; [done|by eapply reader_mono| |].
    + intros ap n Hap Hn Hsay. destruct Hacks as [Eq|[(ap0 & Eq & E1 & E2)|(r1 & E1 & Eq)]].
      * rewrite Eq in Hap. by eapply Hold.
      * rewrite Eq in Hap. apply elem_of_app in Hap as [Hap|Hap%list_elem_of_singleton]; [by eapply Hold|]. subst ap. by destruct (Hempty ap0 n E1 E2 Hn Hsay).
      * assert (Hcase : aligned r' \/ acks r' = acks r \/ acks r' = acks r ++ [mkAck 0 0 (junk ans)]).
        { destruct e; cbn in Hal'; try (destruct Hal'; auto). injection E as <-. by right; right. }
        destruct Hcase as [Hali|[Eq'|Eq']].
        -- assert (Hr1 : SfrrProps.inv W (safe gs r) r1 /\ aligned r1 /\ (forall cp, held cp r1 -> held cp r')).
           { unfold sfr_rel_do_ack_nl in E1. destruct (zset _ _ _) as [bm|]; [|done]. cbn in E1. destruct (ack_loop _ _ _ _ _) as [[m bm']|]; [|done]. cbn in E1. injection E1 as <-. by split_and!. }
           destruct Hr1 as (Hi1 & Hal1 & Hh1). destruct (ack_truth _ _ r1 ans r' Hi1 Hal1 Hj E1) as (ap' & Eq' & Htruth). rewrite Eq', Eq in Hap.
           apply elem_of_app in Hap as [Hap|Hap%list_elem_of_singleton]; [by eapply Hold|]. subst ap. destruct (Htruth n Hn Hsay) as [HX|(cp & Hcp & En)]; [by apply Hsafe|].
           intros _. left. exists cp. split; [by apply Hh1|done].
        -- rewrite Eq' in Hap. by eapply Hold.
        -- rewrite Eq' in Hap. apply elem_of_app in Hap as [Hap|Hap%list_elem_of_singleton]; [by eapply Hold|]. subst ap. by destruct (Hempty (mkAck 0 0 (junk ans)) n eq_refl eq_refl Hn Hsay).
    + intros g ap Hg Hap. pose proof (Hk g ap Hg Hap) as Hin. destruct Hacks as [->|[(ap0 & -> & _)|(r1 & E1 & Eq)]]; [done|apply elem_of_app; by left|].
      unfold sfr_rel_do_ack_nl in E1. destruct (zset _ _ _) as [bm|]; [|done]. cbn in E1. destruct (ack_loop _ _ _ _ _) as [[m bm']|]; [|done]. cbn in E1. injection E1 as <-. cbn.
      apply elem_of_app. left. by rewrite Eq.
Qed.

Lemma session_step gs e s : session_inv gs s -> s_event_ok gs e s -> exists s', s_event e s = Some s' /\ (s_aligned e s s' -> session_inv (s_ghosts e gs) s').
Proof.
  destruct s as [[rs w] r]. intros Hs He. destruct e as [e a|e ans]; cbn in *; destruct He as [He1 He2].
  - destruct (writer_side gs e a rs w r Hs He1 He2) as (rs' & w' & -> & Hs'). eexists. split; [done|]. by intros _.
  - destruct (reader_side gs e ans rs w r Hs He1 He2) as (r' & -> & Hs'). eexists. split; [done|]. done.
Qed.

Lemma session_run evs : forall gs s, session_inv gs s -> session_ok true evs gs s -> exists s', s_run evs s = Some s' /\ session_inv (s_ghosts_run evs gs) s'.
Proof.
  induction evs as [|e evs IH]; intros gs s Hs Hok; [by exists s|]. destruct Hok as [He Hok]. destruct (session_step gs e s Hs He) as (s1 & E & Hs1). cbn [s_run]. rewrite E in Hok |- *.
  destruct Hok as [Hal Hok]. cbn [mbind option_bind]. apply IH; [by apply Hs1, Hal|done].
Qed.

Lemma session_start rs w ans : Forall rr_fresh rs -> w_out w = [] -> session_inv (ghosts_new rs) (rs, w, sfr_rel_start ans).
Proof.
  intros Hf Ho. split; cbn; [by apply writer_new|apply inv_start| |].
  - intros ap n ->%list_elem_of_singleton Hn [Hs|[Hs _]]; cbn in Hs; lia.
  - intros g ap [-> _]%lookup_replicate Hap. by apply elem_of_nil in Hap.
Qed.

(** C2. End to end, a reliable writer and reader do what they promise.  The
    writer has any number of proxies; the network loses, repeats and reorders
    the messages between it and the reader in any way; samples are written and
    removed, timers elapse, the cache of the reader is full at times.  Then no
    handler goes wrong; the reader delivers only samples that were written, in
    the order of their numbers and once; every sample for it before the place
    where delivery stands was delivered, or had been removed by the writer's
    cache; and every sample that the writer's proxy was given is still in its
    list, or has reached the reader, or was removed.

    The conditions are those of [session_ok].  Writer: as in [writer_keeps],
    that is memory for list nodes, sequence numbers below 2^32, changes in
    increasing order, removals as in [rem_ok], and ACKNACKs of other readers
    that are well formed.  Reader: memory is available, and no GAP starts before
    its list and reaches into it ([permitted]; [gap_delivers_twice] is a GAP
    that does); its cache does not acknowledge samples itself ([cache_acks] is
    false); every ACKNACK, but for the one of the liveliness timer, is sent
    while the cache is not full and the list starts where delivery stands
    ([session_loses] is a session in which one is not). *)
Theorem session_delivers evs rs w ans : Forall rr_fresh rs -> w_out w = [] -> session_ok true evs (ghosts_new rs) (rs, w, sfr_rel_start ans) ->
  exists rs' w' r, s_run evs (rs, w, sfr_rel_start ans) = Some (rs', w', r) /\ let gs := s_ghosts_run evs (ghosts_new rs) in
    Forall W (delivered r) /\
    (forall i j cp cq, (i < j)%nat -> delivered r !! i = Some cp -> delivered r !! j = Some cq -> c_seqnr cp < c_seqnr cq) /\
    (forall n, R k n -> n < front (rw_changes r) (rw_seqnr_next r) -> (exists cp, cp ∈ delivered r /\ c_seqnr cp = n) \/ was_removed gs k n) /\
    (forall g p hi n, gs !! k = Some g -> rs' !! k = Some p -> g_phase g = Running hi -> R k n -> n < hi ->
       pend n (rr_changes p) \/ (exists cp, held cp r /\ c_seqnr cp = n) \/ was_removed gs k n).
Proof.
  intros Hf Ho Hok. destruct (session_run evs _ _ (session_start rs w ans Hf Ho) Hok) as ([[rs' w'] r] & E & [Hw Hr Ha Hk]). exists rs', w', r. split; [done|]. intros gs. cbn in Hw, Hr, Ha, Hk. fold gs in Hw, Hr, Ha.
  destruct Hr as (Hn & a & b & Hab & [Hc Hrk] & [H1 H2 H3 H4] & Ht). split_and!; [done|done| |].
  - intros n HRn Hlt. pose proof (HR _ _ HRn). destruct (H4 n ltac:(lia)) as [HX|?]; [|by left]. destruct (HX HRn) as [(cp & [Hd|Hd] & En)|?]; [left; by exists cp| |by right].
    destruct (cov_bounds _ _ _ _ Hc Hd) as [Hb _]. cbn in Hb. unfold ref_first in Hb. cbn in Hb. destruct (rw_changes r) as [|x l] eqn:El; [by apply elem_of_nil in Hd|].
    rewrite <- (cov_head _ _ _ _ Hc) in Hb. cbn in Hlt. lia.
  - intros g p hi n Hg Hp Hph HRn Hlt. pose proof (wk_proxy _ _ _ _ _ Hw k g p Hg Hp) as Hpr. unfold proxy_ok in Hpr. rewrite Hph in Hpr.
    destruct (i_all _ _ _ _ _ _ _ _ Hpr n HRn Hlt) as [(g' & Hg' & (ap & Hap & Hsay)%Exists_exists)|[?|?]]; [|by right; right|by left]. right.
    apply (Ha ap n (Hk g' ap Hg' Hap)); [by apply (HR k)|done|done].
Qed.

End Session.

(** ** Two sessions *)

Lemma session_cons W R push nack hrd k b e evs gs gs' s s' : s_event push nack hrd e s = Some s' -> s_ghosts e gs = gs' -> s_event_ok W R k gs e s -> (b = true -> s_aligned e s s') ->
  session_ok W R push nack hrd k b evs gs' s' -> session_ok W R push nack hrd k b (e :: evs) gs s.
Proof. intros E Hg He Ha Hs. cbn [session_ok]. rewrite E, Hg. by split. Qed.

Ltac eval_session :=
  lazymatch goal with |- session_ok _ _ _ _ _ _ _ (_ :: _) _ _ => eapply session_cons; [vm_compute; reflexivity|vm_compute; reflexivity| | |] end.

Definition ss_sample (k : nat) (n : Z) : Prop := 1 <= n <= 5.
Definition ss_written (cp : Change_t) : Prop := ss_sample 0 (c_seqnr cp).

Lemma ss_sample_pos k n : ss_sample k n -> 1 <= n.
Proof. unfold ss_sample. lia. Qed.

Definition wr_ev (e : WEvent) (max : Z) : SEvent := SWriter e (ex_answers max).
Definition px_ev (e : RrEvent) (max : Z) : SEvent := SWriter (EProxy 0 e) (ex_answers max).
Definition rd_ev (e : RwEvent) : SEvent := SReader e yes.
Definition ack_ev (base bits word count max : Z) : SEvent := px_ev (EAcknack (mkAck base bits [word; 0; 0; 0; 0; 0; 0; 0]) count false []) max.
Definition rd_data (n : Z) : SEvent := rd_ev (EvData (mkChange n (Z.to_nat n)) false).
Definition rd_hb (last count : Z) : SEvent := rd_ev (EvHeartbeat 1 last count false false).
Definition ss_start : list RemReader_t * Writer * RemWriter_t := ([ex_reader], ex_writer, sfr_rel_start yes).

(** The start of both, with the first sample. *)
Definition ss_prefix : list SEvent :=
  [px_ev (EStart []) 0; ack_ev 0 0 0 1 0; wr_ev (ex_new 1) 1; px_ev ESend 1; wr_ev EHeartbeatTo 1; rd_data 1; rd_hb 1 2;
   wr_ev (ex_new 2) 2; wr_ev (ex_new 3) 3; px_ev ESend 3; rd_data 3].

(** Sample 2 is lost and sent again, sample 4 is removed. *)
Definition ss_good : list SEvent := ss_prefix ++
  [wr_ev EHeartbeatTo 3; rd_hb 3 3; ack_ev 2 2 (2 ^ 31) 2 3; px_ev ESend 3; rd_data 2; rd_data 3;
   wr_ev (ex_new 4) 4; px_ev (ERemChange 4) 4; wr_ev (ex_new 5) 5; px_ev ESend 5; rd_data 5; wr_ev EHeartbeatTo 5; rd_hb 5 4;
   ack_ev 4 2 (2 ^ 31) 3 5; px_ev ESend 5; rd_ev (EvGap 4 5 0 [])].

(** Sample 2 is lost, and the delayed ACKNACK for the heartbeat is sent when
    sample 3 is there. *)
Definition ss_bad : list SEvent := ss_prefix ++
  [rd_ev EvDoAck; ack_ev 2 1 0 2 3; wr_ev EHeartbeatTo 3; rd_hb 3 3; rd_ev EvDoAck; ack_ev 2 2 (2 ^ 31) 3 3; rd_ev (EvGap 2 2 1 [2 ^ 31])].

(** What an event of the reader needs. *)
Lemma rd_data_ok W R gs n rs w r i : (i, MData (mkChange n (Z.to_nat n)) (Some 0%nat)) ∈ w_out w -> permitted (EvData (mkChange n (Z.to_nat n)) false) yes r = true ->
  s_event_ok W R 0 gs (rd_data n) (rs, w, r).
Proof. intros Hin Hp. split; [|done]. split; [|done]. by exists i, (Some 0%nat). Qed.

Lemma rd_hb_ok W R gs last count rs w r i : (i, MHeartbeat 1 last count false false (Some 0%nat)) ∈ w_out w -> s_event_ok W R 0 gs (rd_hb last count) (rs, w, r).
Proof. intros Hin. split; [|done]. by exists i, (Some 0%nat). Qed.

Lemma rd_gap_ok W R gs start base n bm rs w r : (0%nat, MGap start base n bm) ∈ w_out w -> permitted (EvGap start base n bm) yes r = true ->
  s_event_ok W R 0 gs (rd_ev (EvGap start base n bm)) (rs, w, r).
Proof. intros Hin Hp. by split. Qed.

Lemma ack_ev_ok W R g base bits word count max p w r : mkAck base bits [word; 0; 0; 0; 0; 0; 0; 0] ∈ acks r -> g_phase g = Running (max + 1) -> 0 <= max < 2 ^ 32 - 1 ->
  0 <= base -> 0 <= bits <= 256 -> (base = 0 -> bits = 0) -> base + bits <= max + 1 -> rr_durable p = false -> s_event_ok W R 0 [g] (ack_ev base bits word count max) ([p], w, r).
Proof.
  intros Hin Hph Hm Hb1 Hb2 Hb3 Hb4 Hd. split; [|by intros _]. apply ex_event_ok. rewrite Hph. apply ex_acked; [|done|done|done].
  destruct (decide (base = 0)) as [E|E]; [left; cbn; auto|right]. split; cbn; unfold zlen; cbn; lia.
Qed.

Lemma aligned_head r rp l : rw_blocked r = false -> rw_changes r = rp :: l -> ref_first rp = rw_seqnr_next r -> aligned r.
Proof. intros Hb El Hh. split; [done|]. intros x l' E. rewrite El in E. by injection E as <- <-. Qed.

Lemma aligned_nil r : rw_blocked r = false -> rw_changes r = [] -> aligned r.
Proof. intros Hb El. split; [done|]. intros x l' E. by rewrite El in E. Qed.

Lemma new_ev_ok (gs : list Ghost) n rs w r : 1 <= n <= 5 -> gs = [mkGhost (Running n) (g_acks (hd (mkGhost SfrwTheorems.Fresh [] []) gs)) (g_gone (hd (mkGhost SfrwTheorems.Fresh [] []) gs))] -> (exists p, rs = [p]) ->
  s_event_ok ss_written ss_sample 0 gs (wr_ev (ex_new n) n) (rs, w, r).
Proof. intros Hn -> [p ->]. split; [|done]. apply ex_event_ok. apply ex_next; [lia|]. done. Qed.

(** An element of a list. *)
Ltac member := cbn [w_out acks]; lazymatch goal with |- _ ∈ _ :: _ => first [left|right; member] end.

(** What an event of the examples needs. *)
Ltac session_event :=
  lazymatch goal with
  | |- _ -> s_aligned _ _ _ => intros _; hnf; first [left; reflexivity|right; eapply aligned_head; reflexivity|right; apply aligned_nil; reflexivity]
  | |- s_event_ok _ _ _ _ (rd_data _) _ => eapply rd_data_ok; [member|vm_compute; reflexivity]
  | |- s_event_ok _ _ _ _ (rd_hb _ _) _ => eapply rd_hb_ok; member
  | |- s_event_ok _ _ _ _ (ack_ev _ _ _ _ _) _ => apply ack_ev_ok; [member|reflexivity|lia..|reflexivity]
  | |- s_event_ok _ _ _ _ (wr_ev EHeartbeatTo _) _ => split; [split; [apply ex_answers_ok|exact I]|exact I]
  | |- s_event_ok _ _ _ _ (wr_ev (ex_new _) _) _ => apply new_ev_ok; [lia|reflexivity|by eexists]
  | |- s_event_ok _ _ _ _ (px_ev ESend _) _ => split; [apply ex_event_ok; exact I|exact I]
  | |- s_event_ok _ _ _ _ (rd_ev EvDoAck) _ => split; [exact I|vm_compute; reflexivity]
  | |- s_event_ok _ _ _ _ (rd_ev (EvGap _ _ _ _)) _ => apply rd_gap_ok; [member|vm_compute; reflexivity]
  | |- s_event_ok _ _ _ _ (px_ev (EStart _) _) _ => split; [apply (ex_event_ok _ _ (mkGhost SfrwTheorems.Fresh [] [])); split; [cbn; lia|]; intros m Hm; cbn in Hm; lia|exact I]
  | |- s_event_ok _ _ _ _ (px_ev (ERemChange _) _) _ =>
      split; [apply ex_event_ok; split; intros p rp; cbn [rr_changes]; rewrite !elem_of_cons, elem_of_nil; intros H; repeat destruct H as [H|H]; try done; injection H as -> ->; vm_compute; congruence|exact I]
  end.

Lemma ss_good_ok : session_ok ss_written ss_sample true false false 0 true ss_good (ghosts_new [ex_reader]) ss_start.
Proof. unfold ss_good, ss_prefix. cbn [app]. repeat eval_session; [..|exact I]. all: session_event. Qed.

Lemma ex_fresh : Forall rr_fresh [ex_reader].
Proof. constructor; [by split_and!|constructor]. Qed.

Lemma session_delivers_witness :
  (c_seqnr <$> delivered (default (sfr_rel_start yes) (snd <$> s_run true false false ss_good ss_start)) = [1; 2; 3; 5]) /\
  exists rs' w' r, s_run true false false ss_good ss_start = Some (rs', w', r) /\ let gs := s_ghosts_run ss_good (ghosts_new [ex_reader]) in
    Forall ss_written (delivered r) /\
    (forall i j cp cq, (i < j)%nat -> delivered r !! i = Some cp -> delivered r !! j = Some cq -> c_seqnr cp < c_seqnr cq) /\
    (forall n, ss_sample 0 n -> n < front (rw_changes r) (rw_seqnr_next r) -> (exists cp, cp ∈ delivered r /\ c_seqnr cp = n) \/ was_removed gs 0 n) /\
    (forall g p hi n, gs !! 0%nat = Some g -> rs' !! 0%nat = Some p -> g_phase g = Running hi -> ss_sample 0 n -> n < hi ->
       pend n (rr_changes p) \/ (exists cp, held cp r /\ c_seqnr cp = n) \/ was_removed gs 0 n).
Proof.
  split; [vm_compute; reflexivity|].
  apply (session_delivers ss_written ss_sample ss_sample_pos true false false 0 ss_good [ex_reader] ex_writer yes ex_fresh eq_refl ss_good_ok).
Defined.

(** C39. Without that condition a sample is lost.  Reader and writer run as they
    should, the network only loses one message, and nothing is removed: the
    ACKNACK for a heartbeat is delayed, sample 2 is lost, sample 3 arrives and
    the timer elapses.  The list of the reader then starts at 3, delivery
    stands at 2, and the first bit of the ACKNACK, which stands for 2, tells
    about 3: the writer takes 2 for acknowledged, and answers the request for
    it with a GAP.  Samples 1 and 3 are delivered, 2 never. *)
Theorem session_loses :
  session_ok ss_written ss_sample true false true 0 false ss_bad (ghosts_new [ex_reader]) ss_start /\
  exists rs w r, s_run true false true ss_bad ss_start = Some (rs, w, r) /\ ss_sample 0 2 /\
    (c_seqnr <$> delivered r = [1; 3]) /\ front (rw_changes r) (rw_seqnr_next r) = 4 /\ (rr_changes <$> rs = [[]]) /\
    ~ was_removed (s_ghosts_run ss_bad (ghosts_new [ex_reader])) 0 2.
Proof.
  split.
  - unfold ss_bad, ss_prefix. cbn [app]. repeat eval_session; [..|exact I]. all: first [by intros H|session_event].
  - do 3 eexists. split; [vm_compute; reflexivity|]. split; [unfold ss_sample; lia|]. split; [reflexivity|]. split; [reflexivity|]. split; [reflexivity|].
    intros (g & Hg & Hin). vm_compute in Hg. injection Hg as <-. by apply elem_of_nil in Hin.
Qed.
